(* ===== verification/_CoqProject ===== *)
-Q . S2P
Prelude.v
CString.v
Cmdline.v
Machine.v
Clock.v
Descriptors.v
Apic.v
Pci.v
Kqueue.v
Rng.v
Hid.v
Printf.v
PrintfSpec.v
PrintfStd.v
Klog.v
Heap.v
HeapInv.v
HeapFacts.v
HeapSteps.v
HeapSplit.v
HeapSpec.v
HeapClient.v
Pmm.v
Region.v
PageTable.v
PageRange.v
Spaces.v
PageUnmap.v
UserMem.v
Loader.v
LoaderFacts.v
LoaderStack.v
LoaderProgram.v
HeapRegions.v
VfsPath.v
VfsOps.v
Fd.v
Udevr.v
Ramfs.v
Vfs.v
VfsRamfs.v
VfsLoader.v
Initramfs.v
Block.v
Ata.v
Ahci.v
Ext2.v
Ext2Facts.v
Ext2Geo.v
Ext2Data.v
Ext2Alloc.v
Ext2Link.v
Ext2Dir.v
Ext2Unlink.v
Ext2Files.v
Ext2Image.v
VfsExt2.v
Virtq.v
VirtioBlk.v
VirtioDisk.v
Proc.v
Newproc.v
Smp.v
Syscall.v
SyscallIo.v
SyscallRun.v
