(* ===== verification/Prelude.v ===== *)
(** * RandomOS: a verification of the kernel

    RandomOS is a kernel for x86-64 written in C: a monolithic system with paging,
    preemptive processes on several processors, a virtual file system over ramfs
    and ext2, drivers for disks, interrupt controllers, clocks and input devices,
    and a system call interface for ELF programs.  This library models the
    kernel, function by function, as executable definitions and proves what the
    functions do.  Paths below are relative to the root of the repository.

    ** Reading the models

    - A C integer of [w] bits is a [Z] wrapped ([u8] ... [u64]) or sign-extended
      ([s8] ... [s64]) where the code stores it or computes at that width.
    - Code that changes state is a computation [M S A], from a state to [Done] with a
      new state and a result, or to [Fault]: a NULL or wild pointer, an access
      outside an object, a panic, or a loop that used up its fuel.  Pure code that can
      go wrong returns [option].  Negative results are the error numbers of the code.
    - Memory is as abstract as the code allows: bytes or words at addresses where the
      code computes with addresses (page tables, heap, user memory, tables of the
      processor, directories), records where it uses fields.
    - The outcome of an allocation inside a component is part of its state or an
      argument, so that every failing branch is reachable.  Memory that is not
      initialised has arbitrary contents.
    - Hardware, clocks and components below an interface are arguments, with what the
      code relies on as a class ([file_laws], [sector_laws], [page_source],
      [blk_device], the laws of [Ata], [Clock], [Apic], [Pci]).  Where the component
      below is part of the kernel its theorems provide the instance; otherwise a
      simulated device does, and the witnesses run on it.
    - Locks make a call one step.  [kprint] output, [invlpg] and [pause] have no effect.

    ** The files, bottom up

    Foundation.
    - [Prelude]: integers, [M], arrays, encodings of records, tactics and hints.
    - [CString]: [src/lib/string.c].  [Printf], [PrintfSpec]: [src/lib/printf.c] and
      the text its functions write; [PrintfStd]: the text the C standard gives to a
      format, written down apart from the code.  [Kqueue]: [src/kern/queue.c].
    - [Cmdline], [Klog]: [src/kern/cmdline.c], [klog.c] and the characters of
      [src/drivers/display/serial.c].
    - [Machine]: ports, memory-mapped registers, time stamp counter, [cpuid].

    Processor and devices.
    - [Descriptors]: [src/arch/x86/gdt.c] and [load_idt.c].  [Apic]:
      [src/drivers/apic/init.c] and [src/arch/x86/irq.c].
    - [Clock]: [src/drivers/time/rtc.c], [gettimeofday.c], [tsc.c].
    - [Pci]: [src/drivers/pci.c] and [src/drivers/virtio/virtio.c].
    - [Hid]: the keyboards and mice of [src/drivers/hid/].
    - [Rng]: [src/drivers/rng/rng.c] and the sources that are instructions.
    - [Udevr]: [src/kern/udevr.c].

    Memory.
    - [Pmm]: [src/kern/mem/pmm.c].  [Region]: the region list of [vmm.c].
    - [PageTable] (tables, [src/usr/user_mmap.c], [src/usr/ensurance.c]), [PageRange],
      [PageUnmap], [Spaces] (address spaces side by side), [UserMem] (user memory as
      the kernel reaches it).
    - [Heap] ([src/kern/mem/liballoc.c]), [HeapInv], [HeapFacts], [HeapSteps],
      [HeapSplit], [HeapSpec], [HeapClient]; [HeapRegions] puts the heap on the
      region list ([liballoc_host.c]).

    Files and disks.
    - [VfsPath], [VfsOps], [Fd], [Vfs]: [src/drivers/storage/fs/vfs.c] and
      [src/drivers/storage/fd/fd.c]; [Ramfs]: [ramfs.c]; [VfsRamfs]: both together.
    - [Block]: [src/drivers/storage/block/generic.c].  Below it [Ata] ([ata.c]),
      [Ahci] ([ahci.c]) and [Virtq], [VirtioBlk], [VirtioDisk] ([src/drivers/virtio/virtqueue.c],
      [virtio_blk.c]); above it [Ext2] ([ext2.c]) with [Ext2Facts], [Ext2Geo],
      [Ext2Data], [Ext2Alloc], [Ext2Link], [Ext2Dir], [Ext2Unlink], [Ext2Files];
      [Ext2Image] mounts an image, [VfsExt2] joins it to the VFS.
    - [Initramfs]: [src/kern/initramfs.c] and [tools/mkinitrd.py].

    Processes.
    - [Loader] ([src/usr/loader.c]), [LoaderFacts], [LoaderStack], [LoaderProgram];
      [VfsLoader] gives it the VFS as its file layer.
    - [Proc]: [src/scheduler/], [src/usr/syscalls/ssc_proc/] and the end of a process
      by a fault ([kill_user_process] of [src/arch/x86/int_hdlr.c]); its step relation
      has system calls, faults and ticks, and a mode in which the processor waits for
      a process to run.  [Newproc]: the calls
      of [create.c] there, with their copies of the arguments.  [Smp]: the main loop
      and the requests of [src/smp/], with a record of what each core executes beside
      what [smp_info] says of it.
    - [Syscall] ([src/usr/syscall.c], [src/usr/syscalls/]), [SyscallIo],
      [SyscallRun]: the calls over processes, memory and files together.

    ** What is shown

    - Memory: frames and regions are handed out first-fit and exactly once; mapping,
      unmapping and ranges change exactly the translations asked for; the heap
      returns fresh blocks and never touches those in use.
    - Files: paths are normalised and resolved as their components say; what is
      written is read back, over ramfs, over ext2 down to the sectors, and through the
      system calls from user memory to user memory; directories change by exactly the
      name asked for; allocation takes free blocks; the geometry of a mounted ext2 is
      never changed; the archive the tool packs is what the kernel unpacks, for names
      in ASCII.
    - Devices: the ATA and VirtIO drivers implement an array of sectors (writes over ATA
      on drives that are ready for the flush command or ignore it, since the driver
      does not wait); the search on the bus finds the n-th device; the walk over the
      firmware table ends whatever it holds, and of a well-formed one it keeps the
      controllers and overrides; an enabled interrupt line reaches its handler; the clock counts seconds
      of the calendar; key strokes become the text typed, and the keys held are tracked;
      requests for random bytes are met from the pool into which the sources are mixed.
    - Processes: the table stays consistent in every reachable state; the scheduler
      is fair and gives registers back, whatever other processes do meanwhile; ids
      cannot be gained; no process executes on two cores as long as choosing and
      committing are one step; a program is started from copies of the caller's
      arguments, where they fit the frames asked for, and finds its segments and its
      arguments where the ABI says.
    - Text: the formatter prints what the C standard says for the directives it shares
      with it, stays in its buffer, and numbers read back; log messages carry the time and the text; the command line
      is its words.

    Lemmas beside these show where the code does not do what it is for, each on a run
    of the definitions (for example [Kqueue.kqueue_512_not_fifo],
    [Smp.cores_race], [VirtioDisk.late_answer_wrong_sector],
    [Rng.random_bytes_repeat], [Newproc.newproc_overflows],
    [SyscallRun.read_straddling_faults]).

    ** Fuel and bounds

    Loops that are not structural take fuel.  It is computed from the data where the
    code has a bound: the length of the path, format, block or table plus one
    ([canon_loop], [format_loop], [lookup_loop], [parse_loop], where every step
    consumes a byte), the number of nodes ([Region]) or tags ([Heap], whose
    invariant makes the lists finite), 255 processes ([nextproc_loop]), the blocks of
    a transfer plus two ([Ext2.data_fuel]).  The theorems on these operations say that
    they return, so fuel is enough there.  Fuel is an argument where the length
    depends on a device or a directory: 192 capabilities in [Pci] ([cap_walk_ends];
    a circular list never ends, [cap_cycle_hangs]), the entries of a directory in
    [Vfs.rmdir], and the rounds of [Rng.random_bytes], where one more than the bytes
    asked for is enough if a source never fails.  In [Newproc] it bounds the length of
    strings and of the environment in user memory, and the theorems hold for all
    that are shorter.  Time-outs of the code ([Clock.SPINS], [Ata.TIMEOUT],
    [Ahci.SPINS]) are at their values.  Sizes of files and buffers in the theorems are
    bounded where the C types are, and where a larger one makes the code go wrong;
    the comment of the theorem then says so.

    ** Not modelled

    Assembly and single instructions (entry stubs, register loads, descriptor
    loading, model specific registers), the printing of exceptions, the ACPI glue and the
    vendored libraries (uACPI, lwIP, flanterm, limine), the drivers for displays,
    network, sound, USB and the random sources behind devices, the initialisation of
    input controllers and timers, boot and panic, the start of the application processors,
    and everything above the system calls: the C library, its dynamic linker, the user
    programs and the ported tools.  The device drivers among these act on memory that
    a controller reads and writes on its own, or hand data to vendored code, so
    that what they do is a property of that code; the system calls into them are an
    argument of [Syscall]. *)
From stdpp Require Export base numbers list gmap.
From Stdlib Require Export ZArith Lia.
From Stdlib Require Ascii String.

Declare Scope kern_scope.
Delimit Scope kern_scope with kern.
Open Scope Z_scope.

(** * Machine integers

    A [w]-bit C integer is a [Z]; every place where the C code stores into or
    computes at a fixed width applies the matching wrap-around. *)

Definition wrap (w z : Z) : Z := z mod 2 ^ w.

Notation u8 := (wrap 8).
Notation u16 := (wrap 16).
Notation u32 := (wrap 32).
Notation u64 := (wrap 64).

(** Two's complement reading of the low [w] bits. *)
Definition sext (w z : Z) : Z :=
  let m := z mod 2 ^ w in if m <? 2 ^ (w - 1) then m else m - 2 ^ w.

Notation s8 := (sext 8).
Notation s32 := (sext 32).
Notation s64 := (sext 64).

(** * Error numbers ([include/core/errno.h]) *)

Definition EUNKNOWN : Z := 1.
Definition EINVAL : Z := 2.
Definition ENOMEM : Z := 3.
Definition EFAULT : Z := 4.
Definition EBADF : Z := 5.
Definition EDISK : Z := 6.
Definition ENOENT : Z := 9.
Definition EACCESS : Z := 10.
Definition ETIME : Z := 15.
Definition ENOPROC : Z := 18.
Definition EFULL : Z := 19.
Definition EBADEXE : Z := 20.
Definition ERANGE : Z := 21.
Definition ENOEXIST : Z := 22.
Definition EHANG : Z := 23.
Definition ETOOSMALL : Z := 24.
Definition ENOSPC : Z := 25.
Definition ENOTDIR : Z := 26.
Definition EISDIR : Z := 27.
Definition ENOTEMPTY : Z := 28.
Definition EEXISTS : Z := 29.
Definition ELOOP : Z := 30.
Definition ENAMETOOLONG : Z := 31.
Definition ENOTTY : Z := 33.

(** * Characters

    Literals of the code as bytes. *)

Definition ch (c : Ascii.ascii) : Z := Z.of_N (Ascii.N_of_ascii c).
Definition str (s : String.string) : list Z := map ch (String.list_ascii_of_string s).
Arguments ch _%_char_scope.
Arguments str _%_string_scope.

(** * Arrays

    [aget]/[aset] are C array accesses by a [Z] index; [None] is an access
    outside the object, which the C code does not survive. *)

Definition aget {A} (l : list A) (i : Z) : option A :=
  if 0 <=? i then l !! Z.to_nat i else None.

Definition aset {A} (l : list A) (i : Z) (x : A) : option (list A) :=
  if (0 <=? i) && (i <? Z.of_nat (length l))
  then Some (<[Z.to_nat i := x]> l) else None.

(** * Bytes

    Little-endian integers, writes into a buffer, packed structures. *)

Fixpoint le (n : nat) (z : Z) : list Z :=
  match n with O => [] | S n' => z mod 256 :: le n' (z / 256) end.

Fixpoint of_le (bs : list Z) : Z :=
  match bs with [] => 0 | b :: r => b + 256 * of_le r end.

(** [c] with [buf] written at offset [off], for [off] within [c]. *)
Definition splice (c buf : list Z) (off : nat) : list Z :=
  take off c ++ buf ++ drop (off + length buf) c.

(** The bytes of a packed structure whose fields have the widths [ws]. *)
Fixpoint enc_fields (ws : list nat) (vs : list Z) : list Z :=
  match ws, vs with
  | w :: ws', v :: vs' => le w v ++ enc_fields ws' vs'
  | _, _ => []
  end.

Fixpoint dec_fields (ws : list nat) (bs : list Z) : list Z :=
  match ws with
  | [] => []
  | w :: ws' => of_le (take w bs) :: dec_fields ws' (drop w bs)
  end.

(** The decimal digits of a 64-bit number. *)
Fixpoint decimal_loop (fuel : nat) (n : Z) (acc : list Z) : list Z :=
  match fuel with
  | O => acc
  | S fuel' =>
      let acc' := 48 + n mod 10 :: acc in
      if n / 10 =? 0 then acc' else decimal_loop fuel' (n / 10) acc'
  end.
Definition decimal (n : Z) : list Z := decimal_loop 20 n [].

(** Field [i] of a decoded structure. *)
Definition fld (l : list Z) (i : nat) : Z := nth i l 0.

(** * Stateful code

    [M S A]: a computation on state [S].  [Fault] is an access to memory the
    program does not own (a null dereference, an index out of the object);
    C error codes are ordinary return values. *)

Inductive outcome (S A : Type) : Type :=
| Done (s : S) (a : A)
| Fault.
Arguments Done {S A} s a.
Arguments Fault {S A}.

Definition M (S A : Type) : Type := S -> outcome S A.

#[export] Instance M_ret {S} : MRet (M S) := fun A a s => Done s a.
#[export] Instance M_bind {S} : MBind (M S) := fun A B k m s =>
  match m s with
  | Done s' a => k a s'
  | Fault => Fault
  end.

Definition fault {S A} : M S A := fun _ => Fault.
Definition get {S} : M S S := fun s => Done s s.
Definition put {S} (s' : S) : M S unit := fun _ => Done s' tt.
Definition modify {S} (f : S -> S) : M S unit := fun s => Done (f s) tt.
Definition gets {S A} (f : S -> A) : M S A := fun s => Done s (f s).

Definition result_of {S A} (o : outcome S A) : option A :=
  match o with Done _ a => Some a | Fault => None end.

Definition state_of {S A} (o : outcome S A) (s : S) : S :=
  match o with Done s' _ => s' | Fault => s end.

(** A partial read of the state: [None] faults. *)
Definition deref {S A} (o : option A) : M S A :=
  match o with Some a => mret a | None => fault end.

(** [if ((r = m) < 0) return r; k] *)
Notation "'check' r ':=' m 'in' k" :=
  (mbind (fun r : Z => if r <? 0 then mret r else k) m)
  (at level 20, r name, m at level 100, k at level 200, right associativity) : kern_scope.
Open Scope kern_scope.

(** * Generic lemmas *)

Lemma wrap_small w z : 0 <= z < 2 ^ w -> wrap w z = z.
Proof. apply Z.mod_small. Qed.

Lemma wrap_range w z : 0 <= w -> 0 <= wrap w z < 2 ^ w.
Proof. intros. apply Z.mod_pos_bound, Z.pow_pos_nonneg; lia. Qed.

Lemma s32_small z : 0 <= z < 2 ^ 31 -> s32 z = z.
Proof.
  intros. unfold sext. rewrite Z.mod_small by lia.
  by rewrite (proj2 (Z.ltb_lt _ _)) by (simpl; lia).
Qed.

Lemma sext_small w z : 0 < w -> 0 <= z < 2 ^ (w - 1) -> sext w z = z.
Proof.
  intros Hw Hz. unfold sext. assert (2 ^ w = 2 * 2 ^ (w - 1)) by (rewrite <- Z.pow_succ_r by lia; f_equal; lia).
  rewrite Z.mod_small by lia. by rewrite (proj2 (Z.ltb_lt _ _)) by lia.
Qed.

Lemma sext_range w z : 0 < w -> - 2 ^ (w - 1) <= sext w z < 2 ^ (w - 1).
Proof.
  intros Hw. unfold sext.
  assert (2 ^ w = 2 * 2 ^ (w - 1)) as Hp.
  { rewrite <- Z.pow_succ_r by lia. f_equal. lia. }
  pose proof (Z.mod_pos_bound z (2 ^ w) ltac:(lia)).
  destruct (Z.ltb_spec (z mod 2 ^ w) (2 ^ (w - 1))); lia.
Qed.

Section arrays.
Context {A : Type}.
Implicit Types (l : list A) (i j : Z) (x : A).

Lemma aget_Some l i x :
  aget l i = Some x <-> 0 <= i /\ l !! Z.to_nat i = Some x.
Proof.
  unfold aget. destruct (Z.leb_spec 0 i); split.
  - auto.
  - by intros [? ?].
  - done.
  - lia.
Qed.

Lemma aget_bound l i x : aget l i = Some x -> 0 <= i < Z.of_nat (length l).
Proof. intros [? ?%lookup_lt_Some]%aget_Some. lia. Qed.

Lemma aget_is_Some l i : 0 <= i < Z.of_nat (length l) -> exists x, aget l i = Some x.
Proof.
  intros [? ?]. destruct (lookup_lt_is_Some_2 l (Z.to_nat i)) as [x Hx]; [lia|].
  exists x. by apply aget_Some.
Qed.

Lemma aget_oob l i : ~ (0 <= i < Z.of_nat (length l)) -> aget l i = None.
Proof.
  intros ?. unfold aget. destruct (Z.leb_spec 0 i); [|done].
  apply lookup_ge_None_2. lia.
Qed.

Lemma aset_in l i x :
  0 <= i < Z.of_nat (length l) -> aset l i x = Some (<[Z.to_nat i := x]> l).
Proof.
  intros ?. unfold aset.
  by rewrite (proj2 (Z.leb_le _ _)), (proj2 (Z.ltb_lt _ _)) by lia.
Qed.

Lemma aset_Some l l' i x :
  aset l i x = Some l' -> 0 <= i < Z.of_nat (length l) /\ l' = <[Z.to_nat i := x]> l.
Proof.
  unfold aset. destruct (Z.leb_spec 0 i), (Z.ltb_spec i (Z.of_nat (length l)));
    intros [= <-]. split; [lia|done].
Qed.

Lemma aset_length l l' i x : aset l i x = Some l' -> length l' = length l.
Proof. intros [_ ->]%aset_Some. apply length_insert. Qed.

Lemma aget_aset_eq l l' i x : aset l i x = Some l' -> aget l' i = Some x.
Proof.
  intros [? ->]%aset_Some. apply aget_Some. split; [lia|].
  apply list_lookup_insert_eq. lia.
Qed.

Lemma aget_aset_ne l l' i j x :
  aset l i x = Some l' -> i <> j -> aget l' j = aget l j.
Proof.
  intros [? ->]%aset_Some Hne. unfold aget.
  destruct (Z.leb_spec 0 j); [|done].
  apply list_lookup_insert_ne. lia.
Qed.

Lemma aget_insert l i j x :
  0 <= i < Z.of_nat (length l) ->
  aget (<[Z.to_nat i := x]> l) j = if decide (i = j) then Some x else aget l j.
Proof.
  intros Hi. case_decide as E; [subst j|].
  - eapply aget_aset_eq, aset_in; lia.
  - eapply aget_aset_ne; [by apply aset_in|done].
Qed.

End arrays.

Lemma elem_mid {A} (l1 l2 : list A) x : x ∈ l1 ++ x :: l2.
Proof. apply elem_of_app. right. by left. Qed.

Lemma lookup_rev_Some {A} (l : list A) j x :
  rev l !! j = Some x <-> (j < length l)%nat /\ l !! (length l - S j)%nat = Some x.
Proof.
  rewrite rev_alt. change (rev_append l []) with (reverse l).
  rewrite reverse_lookup_Some. tauto.
Qed.

(** Distinct numbers of a range are no more than the range has. *)
Lemma nodup_range_length a n (F : list Z) : NoDup F -> Forall (fun i => a <= i < a + n) F -> Z.of_nat (length F) <= Z.max 0 n.
Proof.
  intros Hn Hr. rewrite Forall_forall in Hr. assert (length F <= length (seq 0 (Z.to_nat n)))%nat as Hl; [|rewrite length_seq in Hl; lia].
  rewrite <- (length_map (fun i => Z.to_nat (i - a)) F). apply submseteq_length, NoDup_submseteq.
  - apply NoDup_fmap_2_strong; [|done]. intros x y Hx Hy. pose proof (Hr x Hx). pose proof (Hr y Hy). lia.
  - intros x (y & -> & Hy)%list_elem_of_fmap. pose proof (Hr y Hy). apply elem_of_seq. lia.
Qed.

Lemma length_le n z : length (le n z) = n.
Proof. revert z. induction n; intros; simpl; auto. Qed.

Lemma of_le_le n z : 0 <= z < 256 ^ Z.of_nat n -> of_le (le n z) = z.
Proof.
  revert z. induction n as [|n IH]; intros z Hz.
  - simpl in *. lia.
  - cbn [le of_le]. rewrite IH.
    + pose proof (Z.div_mod z 256 ltac:(lia)). lia.
    + rewrite Nat2Z.inj_succ, Z.pow_succ_r in Hz by lia.
      split; [apply Z.div_pos; lia|apply Z.div_lt_upper_bound; lia].
Qed.

Lemma splice_nil (b : list Z) off : splice b [] off = b.
Proof. unfold splice. simpl. rewrite Nat.add_0_r. apply take_drop. Qed.

Lemma length_splice c buf off :
  (off <= length c)%nat -> length (splice c buf off) = Nat.max (length c) (off + length buf).
Proof. intros. unfold splice. rewrite !length_app, length_take, length_drop. lia. Qed.

Lemma lookup_splice (c buf : list Z) off q : (off <= length c)%nat ->
  splice c buf off !! q = if decide (off <= q < off + length buf)%nat then buf !! (q - off)%nat else c !! q.
Proof.
  intros H. unfold splice. destruct (Nat.lt_ge_cases q off).
  - rewrite decide_False, lookup_app_l, lookup_take_lt by (rewrite ?length_take; lia). done.
  - rewrite lookup_app_r, length_take, Nat.min_l by (rewrite ?length_take; lia). case_decide.
    + by rewrite lookup_app_l by lia.
    + rewrite lookup_app_r, lookup_drop by lia. f_equal. lia.
Qed.

(** Reading back what was spliced in. *)
Lemma take_drop_splice c buf off :
  (off <= length c)%nat -> take (length buf) (drop off (splice c buf off)) = buf.
Proof.
  intros. unfold splice. rewrite drop_app_length' by (rewrite length_take; lia).
  apply take_app_length.
Qed.

(** A splice is seen inside the spliced range only. *)
Lemma splice_before c buf off n k :
  (k + n <= off)%nat -> (off <= length c)%nat -> take n (drop k (splice c buf off)) = take n (drop k c).
Proof.
  intros Hk Hoff. unfold splice. rewrite drop_app_le by (rewrite length_take; lia).
  rewrite take_app_le by (rewrite length_drop, length_take; lia).
  rewrite skipn_firstn_comm, take_take. f_equal. lia.
Qed.

Lemma splice_after c buf off n k :
  (off + length buf <= k)%nat -> (off <= length c)%nat ->
  take n (drop k (splice c buf off)) = take n (drop k c).
Proof.
  intros Hk Hoff. unfold splice. rewrite app_assoc, drop_app_ge by (rewrite length_app, length_take; lia).
  rewrite drop_drop, length_app, length_take. do 2 f_equal. lia.
Qed.

(** Field values that fit their widths. *)
Definition fits (w : nat) (v : Z) : Prop := 0 <= v < 256 ^ Z.of_nat w.

Lemma dec_enc_fields ws vs r : Forall2 fits ws vs -> dec_fields ws (enc_fields ws vs ++ r) = vs.
Proof.
  intros H. induction H as [|w v ws vs Hw _ IH]; [done|]. cbn [enc_fields dec_fields].
  rewrite <- app_assoc, take_app_length', drop_app_length' by (by rewrite length_le). f_equal; [by apply of_le_le|done].
Qed.

Lemma dec_fields_app ws b r : (sum_list ws <= length b)%nat -> dec_fields ws (b ++ r) = dec_fields ws b.
Proof.
  revert b. induction ws as [|w ws IH]; intros b Hb; [done|]. cbn in Hb. cbn [dec_fields].
  rewrite take_app_le, drop_app_le, IH by (rewrite ?length_drop; lia). done.
Qed.

Lemma length_enc_fields ws vs : length ws = length vs -> length (enc_fields ws vs) = sum_list ws.
Proof.
  revert vs. induction ws as [|w ws IH]; intros [|v vs] H; try done. cbn [enc_fields].
  rewrite length_app, length_le, IH by (simpl in H; lia). done.
Qed.

Lemma bind_done {S A B} (m : M S A) (k : A -> M S B) s s' a :
  m s = Done s' a -> mbind k m s = k a s'.
Proof. unfold mbind, M_bind. by intros ->. Qed.

Lemma bind_cong {S A B} (m m' : M S A) (k : A -> M S B) s : m s = m' s -> mbind k m s = mbind k m' s.
Proof. intros E. unfold mbind, M_bind. by rewrite E. Qed.

Lemma bind_gets {S A B} (f : S -> A) (k : A -> M S B) s : mbind k (gets f) s = k (f s) s.
Proof. done. Qed.

Lemma bind_ret {S A B} (a : A) (k : A -> M S B) s : mbind k (mret a) s = k a s.
Proof. done. Qed.

Lemma bind_deref {S A B} (a : A) (k : A -> M S B) s : mbind k (deref (Some a)) s = k a s.
Proof. done. Qed.

Lemma bind_modify {S B} (f : S -> S) (k : unit -> M S B) s : mbind k (modify f) s = k tt (f s).
Proof. done. Qed.

Lemma result_of_Done {S A} (o : outcome S A) s a b :
  o = Done s a -> result_of o = Some b -> a = b.
Proof. intros -> [= ->]. done. Qed.

Lemma result_Done {S A} (o : outcome S A) a : result_of o = Some a -> exists s, o = Done s a.
Proof. destruct o as [s b|]; [|done]. intros [= ->]. by exists s. Qed.

Lemma bind_inv {S A B} (m : M S A) (k : A -> M S B) s s' b :
  mbind k m s = Done s' b -> exists s1 a, m s = Done s1 a /\ k a s1 = Done s' b.
Proof. unfold mbind, M_bind. destruct (m s) as [s1 a|]; [eauto|done]. Qed.

Lemma land_pow2_eqb z k : 0 <= k -> (Z.land z (2 ^ k) =? 0) = negb (Z.testbit z k).
Proof.
  intros Hk. destruct (Z.testbit z k) eqn:E; simpl.
  - apply Z.eqb_neq. intros H. apply (f_equal (fun x => Z.testbit x k)) in H.
    rewrite Z.land_spec, E, Z.pow2_bits_true, Z.bits_0 in H by lia. done.
  - apply Z.eqb_eq, Z.bits_inj_0. intros n. rewrite Z.land_spec, Z.pow2_bits_eqb by lia.
    destruct (Z.eqb_spec k n); [subst; by rewrite E|apply andb_false_r].
Qed.

(** Two numbers side by side. *)
Lemma lor_high_low a b k : 0 <= k -> 0 <= b < 2 ^ k -> Z.lor (a * 2 ^ k) b = a * 2 ^ k + b.
Proof.
  intros Hk Hb. symmetry. apply Z.add_nocarry_lor. apply Z.bits_inj_0. intros i. rewrite Z.land_spec.
  destruct (Z.lt_ge_cases i k).
  - by rewrite <- Z.shiftl_mul_pow2, Z.shiftl_spec_low by done.
  - rewrite (proj1 (Z.bounded_iff_bits_nonneg k b Hk ltac:(lia)) ltac:(lia)) by done. apply andb_false_r.
Qed.

(** Clearing the low [k] bits of a 64-bit value. *)
Lemma land_high_mask z k :
  0 <= k <= 64 -> 0 <= z < 2 ^ 64 -> Z.land z (2 ^ 64 - 2 ^ k) = 2 ^ k * (z / 2 ^ k).
Proof.
  intros Hk Hz.
  replace (2 ^ 64 - 2 ^ k) with (Z.shiftl (Z.ones (64 - k)) k).
  2: { rewrite Z.shiftl_mul_pow2, Z.ones_equiv by lia.
       replace (2 ^ 64) with (2 ^ (64 - k) * 2 ^ k) by (rewrite <- Z.pow_add_r by lia; f_equal; lia). lia. }
  rewrite (Z.mul_comm (2 ^ k)), <- Z.shiftr_div_pow2, <- Z.shiftl_mul_pow2 by lia.
  apply Z.bits_inj'. intros n Hn. rewrite Z.land_spec, !Z.shiftl_spec by lia.
  destruct (Z.lt_ge_cases n k).
  { rewrite (Z.testbit_neg_r _ (n - k)), (Z.testbit_neg_r _ (n - k)) by lia. apply andb_false_r. }
  rewrite Z.shiftr_spec by lia. replace (n - k + k) with n by lia.
  destruct (Z.lt_ge_cases n 64).
  - rewrite Z.ones_spec_low by lia. apply andb_true_r.
  - rewrite Z.ones_spec_high, andb_false_r by lia. symmetry.
    destruct (decide (z = 0)) as [->|]; [apply Z.bits_0|].
    apply Z.bits_above_log2; [lia|]. apply Z.lt_le_trans with 64; [|lia].
    apply Z.log2_lt_pow2; lia.
Qed.

(** * Computations that leave a part of the state alone

    [keeps v m]: running [m] does not change the part [v] of the state. *)

Definition keeps {S B A} (v : S -> B) (m : M S A) : Prop :=
  forall s s' a, m s = Done s' a -> v s' = v s.

Lemma keeps_run {S B A} (v : S -> B) (m : M S A) s s' a :
  m s = Done s' a -> keeps v m -> v s' = v s.
Proof. intros E Hm. by eapply Hm. Qed.

Section keeps.
Context {S B : Type} (v : S -> B).

Lemma keeps_ret {A} (a : A) : keeps v (mret a).
Proof. by intros s s' x [= <- _]. Qed.

Lemma keeps_bind {A C} (m : M S A) (k : A -> M S C) :
  keeps v m -> (forall a, keeps v (k a)) -> keeps v (mbind k m).
Proof.
  intros Hm Hk s s' b (s1 & a & E1 & E2)%bind_inv.
  rewrite (Hk a _ _ _ E2). by eapply Hm.
Qed.

Lemma keeps_deref {A} (o : option A) : keeps v (deref o).
Proof. destruct o; [apply keeps_ret|done]. Qed.

Lemma keeps_gets {A} (f : S -> A) : keeps v (gets f).
Proof. by intros s s' x [= <- _]. Qed.

Lemma keeps_get : keeps v get.
Proof. by intros s s' x [= <- _]. Qed.

Lemma keeps_fault {A} : keeps v (fault : M S A).
Proof. done. Qed.

Lemma keeps_modify f : (forall s, v (f s) = v s) -> keeps v (modify f).
Proof. intros H s s' x [= <- _]. apply H. Qed.

End keeps.

(** [preserves I m]: [I] holds after [m] when it holds before. *)
Definition preserves {S A} (I : S -> Prop) (m : M S A) : Prop :=
  forall s s' a, I s -> m s = Done s' a -> I s'.

Lemma preserves_bind {S A B} (I : S -> Prop) (m : M S A) (k : A -> M S B) :
  preserves I m -> (forall a, preserves I (k a)) -> preserves I (mbind k m).
Proof. intros Hm Hk s s' b Hs (s1 & a & E1 & E2)%bind_inv. eapply Hk, E2. by eapply Hm. Qed.

(** A computation that keeps [v] preserves what depends on [v] only. *)
Lemma keeps_preserves {S A B} (v : S -> B) (P : B -> Prop) (m : M S A) :
  keeps v m -> preserves (fun s => P (v s)) m.
Proof. intros Hm s s' a Hs E. by rewrite (Hm s s' a E). Qed.

(** * Automation *)

Create HintDb kern discriminated.
#[export] Hint Resolve wrap_small : kern.

(** One step of a proof of [keeps]: through a bind or a branch, or done. *)
Ltac keeps_step :=
  first
    [ apply keeps_ret | apply keeps_deref | apply keeps_gets | apply keeps_get | apply keeps_fault
    | apply keeps_modify; (done || fail 1)
    | apply keeps_bind; [|intros ?]
    | match goal with
      | |- keeps _ (if ?b then _ else _) => destruct b
      | |- keeps _ (match ?x with _ => _ end) => destruct x
      end ].

(** Split a boolean test of the code into its two cases. *)
Ltac split_if :=
  match goal with
  | |- context [if ?b then _ else _] =>
      lazymatch b with
      | context [if _ then _ else _] => fail
      | _ => let E := fresh "E" in destruct b eqn:E
      end
  | H : context [if ?b then _ else _] |- _ =>
      lazymatch b with
      | context [if _ then _ else _] => fail
      | _ => let E := fresh "E" in destruct b eqn:E
      end
  end.

(** Turn boolean comparisons in the context into propositions. *)
Ltac to_prop :=
  repeat match goal with
  | H : (_ && _)%bool = true |- _ => apply andb_true_iff in H; destruct H
  | H : (_ && _)%bool = false |- _ => apply andb_false_iff in H
  | H : (_ || _)%bool = true |- _ => apply orb_true_iff in H
  | H : (_ || _)%bool = false |- _ => apply orb_false_iff in H; destruct H
  | H : negb _ = true |- _ => apply negb_true_iff in H
  | H : negb _ = false |- _ => apply negb_false_iff in H
  | H : (_ <? _) = true |- _ => apply Z.ltb_lt in H
  | H : (_ <? _) = false |- _ => apply Z.ltb_ge in H
  | H : (_ <=? _) = true |- _ => apply Z.leb_le in H
  | H : (_ <=? _) = false |- _ => apply Z.leb_gt in H
  | H : (_ =? _) = true |- _ => apply Z.eqb_eq in H
  | H : (_ =? _) = false |- _ => apply Z.eqb_neq in H
  end.
