(* ===== verification/CString.v ===== *)
(** The kernel's string library ([src/lib/string.c]).

    Model: a pointer argument is the list of bytes from the pointer to the end
    of the object it points into; [None] is a read or write outside it.
    [memset], [memcpy] and [memmove] act on one memory, by index, so that
    overlapping blocks are visible.  [char] is signed: a byte [b] reads as
    [s8 b].  [cstr s] is the memory image of the string value [s]. *)
From S2P Require Import Prelude.

Module CString.

Definition byte_ok (b : Z) : Prop := 0 <= b < 256.

(** A string value: no NUL inside. *)
Definition str_ok (s : list Z) : Prop := Forall (fun b => 0 < b < 256) s.

Definition cstr (s : list Z) : list Z := s ++ [0].

(** ** Strings *)

(** [repne scasb] with a zero byte, then the distance minus one. *)
Fixpoint strlen (str : list Z) : option Z :=
  match str with
  | [] => None
  | c :: rest => if c =? 0 then Some 0 else n ← strlen rest; Some (n + 1)
  end.

(** The loop shared by [streq] and [strneq]: [n] bytes equal? *)
Fixpoint eq_loop (n : nat) (s1 s2 : list Z) : option Z :=
  match n with
  | O => Some 1
  | S n' =>
      a ← head s1; b ← head s2;
      if negb (a =? b) then Some 0 else eq_loop n' (tail s1) (tail s2)
  end.

Definition streq (s1 s2 : list Z) : option Z :=
  s1sz ← strlen s1;
  s2sz ← strlen s2;
  if negb (s1sz =? s2sz) then Some 0 else eq_loop (Z.to_nat s1sz) s1 s2.

Definition strneq (s1 s2 : list Z) (n : Z) : option Z := eq_loop (Z.to_nat n) s1 s2.

Fixpoint skip_ws (str : list Z) : option (list Z) :=
  match str with
  | [] => None
  | c :: rest =>
      if (c =? 32) || (c =? 9) || (c =? 10) || (c =? 13) then skip_ws rest else Some str
  end.

(** Accumulation at 32 bits; [*str] is a signed char. *)
Fixpoint digits (str : list Z) (res : Z) : option Z :=
  match str with
  | [] => None
  | c :: rest =>
      if (48 <=? s8 c) && (s8 c <=? 57) then digits rest (s32 (res * 10 + (s8 c - 48)))
      else Some res
  end.

Definition atoi (str : list Z) : option Z :=
  s ← skip_ws str;
  c ← head s;
  if c =? 45 then r ← digits (tail s) 0; Some (s32 (- r))
  else if c =? 43 then digits (tail s) 0
  else digits s 0.

(** Index of the match, or [-1] for NULL. *)
Fixpoint strchr_from (i : Z) (str : list Z) (c : Z) : option Z :=
  match str with
  | [] => None
  | b :: rest =>
      if b =? 0 then Some (if c =? 0 then i else -1)
      else if b =? c then Some i else strchr_from (i + 1) rest c
  end.

Definition strchr (str : list Z) (c : Z) : option Z := strchr_from 0 str c.

Fixpoint strcmp (s1 s2 : list Z) : option Z :=
  match s1, s2 with
  | a :: r1, b :: r2 =>
      if negb (a =? 0) && (a =? b) then strcmp r1 r2 else Some (s8 a - s8 b)
  | _, _ => None
  end.

Fixpoint strncmp_loop (n : nat) (s1 s2 : list Z) : option Z :=
  match n with
  | O => Some 0
  | S n' =>
      a ← head s1; b ← head s2;
      if negb (a =? b) then Some (s8 a - s8 b)
      else if a =? 0 then Some 0
      else strncmp_loop n' (tail s1) (tail s2)
  end.

Definition strncmp (s1 s2 : list Z) (n : Z) : option Z := strncmp_loop (Z.to_nat n) s1 s2.

Fixpoint memcmp_loop (n : nat) (s1 s2 : list Z) : option Z :=
  match n with
  | O => Some 0
  | S n' =>
      a ← head s1; b ← head s2;
      if negb (a =? b) then Some (a - b) else memcmp_loop n' (tail s1) (tail s2)
  end.

Definition memcmp (s1 s2 : list Z) (n : Z) : option Z := memcmp_loop (Z.to_nat n) s1 s2.

(** ** Memory blocks *)

(** [rep stosb] upwards from [dest]. *)
Fixpoint set_loop (n : nat) (mem : list Z) (dest c : Z) : option (list Z) :=
  match n with
  | O => Some mem
  | S n' => m ← aset mem dest (u8 c); set_loop n' m (dest + 1) c
  end.

Definition memset (mem : list Z) (dest c n : Z) : option (list Z) := set_loop (Z.to_nat n) mem dest c.

(** One byte at a time from low addresses ([rep movsb]). *)
Fixpoint copy_up (n : nat) (mem : list Z) (dst src : Z) : option (list Z) :=
  match n with
  | O => Some mem
  | S n' => b ← aget mem src; m ← aset mem dst b; copy_up n' m (dst + 1) (src + 1)
  end.

(** One byte at a time from the pointers downwards. *)
Fixpoint copy_down (n : nat) (mem : list Z) (dst src : Z) : option (list Z) :=
  match n with
  | O => Some mem
  | S n' => b ← aget mem src; m ← aset mem dst b; copy_down n' m (dst - 1) (src - 1)
  end.

Definition memcpy (mem : list Z) (dest src count : Z) : option (list Z) :=
  copy_up (Z.to_nat count) mem dest src.

Definition memmove (mem : list Z) (dst src n : Z) : option (list Z) :=
  if (dst =? src) || (n =? 0) then Some mem
  else if dst <? src then copy_up (Z.to_nat n) mem dst src
  else copy_down (Z.to_nat n) mem (dst + n - 1) (src + n - 1).

(** The new block, [None] inside when [malloc] fails; [malloc] gives the
    content of the block it returns. *)
Definition strdup (str : list Z) (malloc : Z -> option (list Z)) : option (option (list Z)) :=
  n ← strlen str;
  let sz := n + 1 in
  match malloc sz with
  | None => Some None
  | Some blk =>
      if Z.of_nat (length blk) <? sz then None else
      b ← memcpy (blk ++ str) 0 (Z.of_nat (length blk)) sz; Some (Some (take (length blk) b))
  end.

Definition strcpy (dst str : list Z) : option (list Z) :=
  n ← strlen str;
  if Z.of_nat (length dst) <? n + 1 then None else
  b ← memcpy (dst ++ str) 0 (Z.of_nat (length dst)) (n + 1);
  Some (take (length dst) b).

(** ** Strings as values *)

Lemma strlen_cstr s j : str_ok s -> strlen (cstr s ++ j) = Some (Z.of_nat (length s)).
Proof.
  intros Hs. unfold cstr. rewrite <- app_assoc. simpl.
  induction Hs as [|c s Hc _ IH]; simpl; [done|].
  rewrite (proj2 (Z.eqb_neq c 0)) by lia. rewrite IH. simpl. f_equal. lia.
Qed.

Lemma eq_loop_app s1 s2 j1 j2 :
  length s1 = length s2 ->
  eq_loop (length s1) (s1 ++ j1) (s2 ++ j2) = Some (if decide (s1 = s2) then 1 else 0).
Proof.
  revert s2. induction s1 as [|a s1 IH]; intros [|b s2] Hlen; try done.
  simpl. destruct (Z.eqb_spec a b) as [->|Hne]; simpl.
  - rewrite IH by (simpl in Hlen; lia). f_equal.
    repeat case_decide; congruence.
  - rewrite decide_False; [done|congruence].
Qed.

(** [streq] decides equality of string values, whatever follows the
    strings in memory. *)
Theorem streq_decides s1 s2 j1 j2 :
  str_ok s1 -> str_ok s2 ->
  streq (cstr s1 ++ j1) (cstr s2 ++ j2) = Some (if decide (s1 = s2) then 1 else 0).
Proof.
  intros H1 H2. unfold streq. rewrite !strlen_cstr by done. simpl.
  destruct (Z.eqb_spec (Z.of_nat (length s1)) (Z.of_nat (length s2))) as [Hl|Hl]; simpl.
  - unfold cstr. rewrite <- !app_assoc, Nat2Z.id. apply eq_loop_app. lia.
  - rewrite decide_False; [done|]. intros ->. done.
Qed.

Lemma streq_decides_witness :
  streq (cstr [97; 98] ++ [7]) (cstr [97; 98]) = Some 1.
Proof.
  assert (streq (cstr [97; 98] ++ [7]) (cstr [97; 98] ++ []) = Some 1) as H.
  { rewrite (streq_decides [97; 98] [97; 98] [7] []); [reflexivity|..]; repeat constructor; lia. }
  exact H.
Defined.

Lemma s8_byte b : 0 <= b < 256 -> s8 b = if b <? 128 then b else b - 256.
Proof. intros. unfold sext. change (2 ^ 8) with 256. by rewrite Z.mod_small. Qed.

Lemma s8_inj a b : 0 <= a < 256 -> 0 <= b < 256 -> s8 a - s8 b = 0 -> a = b.
Proof. intros ? ?. rewrite !s8_byte by done. repeat split_if; to_prop; lia. Qed.

Lemma strncmp_prefix s1 s2 j1 j2 :
  str_ok s1 -> str_ok s2 ->
  strncmp_loop (length s2) (cstr s1 ++ j1) (cstr s2 ++ j2) = Some 0 <-> s2 `prefix_of` s1.
Proof.
  unfold cstr. rewrite <- !app_assoc. simpl. intros H1. revert s2.
  induction H1 as [|a s1 Ha _ IH]; intros [|b s2] H2; cbn -[Z.eqb]; try (split; [intros _|done]; by eexists).
  - apply Forall_cons in H2 as [Hb _]. rewrite (proj2 (Z.eqb_neq 0 b)) by lia. cbn [negb].
    split; [|by intros [? [=]]]. intros [= Hd]. apply s8_inj in Hd; lia.
  - apply Forall_cons in H2 as [Hb H2]. destruct (Z.eqb_spec a b) as [->|Hne]; simpl.
    + rewrite (proj2 (Z.eqb_neq b 0)), IH by (done || lia). split.
      * apply prefix_cons.
      * apply prefix_cons_inv_2.
    + split.
      * intros [= Hd]. apply s8_inj in Hd; lia.
      * by intros ?%prefix_cons_inv_1.
Qed.

(** ** Block moves *)

Section moves.
Implicit Types (mem : list Z) (dst src : Z).

(** Memory [mem'] is [mem] with the block at [src] copied over the block at
    [dst]. *)
Definition moved mem mem' dst src (n : Z) : Prop :=
  length mem' = length mem /\
  forall i, aget mem' i = if decide (dst <= i < dst + n) then aget mem (src + (i - dst)) else aget mem i.

Lemma copy_up_spec n mem dst src :
  0 <= dst -> 0 <= src -> dst + Z.of_nat n <= Z.of_nat (length mem) ->
  src + Z.of_nat n <= Z.of_nat (length mem) ->
  dst < src \/ src + Z.of_nat n <= dst ->
  exists mem', copy_up n mem dst src = Some mem' /\ moved mem mem' dst src (Z.of_nat n).
Proof.
  revert mem dst src. induction n as [|n IH]; intros mem dst src Hd Hs Hdl Hsl Hov.
  { exists mem. split; [done|]. split; [done|]. intros i. by rewrite decide_False by lia. }
  destruct (aget_is_Some mem src ltac:(lia)) as [b Hb]. cbn [copy_up]. rewrite Hb. cbn [mbind option_bind].
  rewrite aset_in by lia. cbn [mbind option_bind].
  destruct (IH (<[Z.to_nat dst := b]> mem) (dst + 1) (src + 1)) as (mem' & E & Hlen & Hm);
    rewrite ?length_insert; [lia..|].
  exists mem'. split; [done|]. split; [by rewrite Hlen, length_insert|].
  intros i. rewrite Hm, !aget_insert by lia.
  repeat case_decide; subst; try lia; try done.
  - f_equal. lia.
  - rewrite <- Hb. f_equal. lia.
Qed.

Lemma copy_down_spec n mem dst src :
  Z.of_nat n <= dst + 1 -> Z.of_nat n <= src + 1 -> dst < Z.of_nat (length mem) ->
  src < dst ->
  exists mem', copy_down n mem dst src = Some mem' /\
    moved mem mem' (dst + 1 - Z.of_nat n) (src + 1 - Z.of_nat n) (Z.of_nat n).
Proof.
  revert mem dst src. induction n as [|n IH]; intros mem dst src Hd Hs Hdl Hov.
  { exists mem. split; [done|]. split; [done|]. intros i. by rewrite decide_False by lia. }
  destruct (aget_is_Some mem src ltac:(lia)) as [b Hb]. cbn [copy_down]. rewrite Hb. cbn [mbind option_bind].
  rewrite aset_in by lia. cbn [mbind option_bind].
  destruct (IH (<[Z.to_nat dst := b]> mem) (dst - 1) (src - 1)) as (mem' & E & Hlen & Hm);
    rewrite ?length_insert; [lia..|].
  exists mem'. split; [done|]. split; [by rewrite Hlen, length_insert|].
  intros i. rewrite Hm, !aget_insert by lia.
  repeat case_decide; subst; try lia; try done.
  - f_equal. lia.
  - rewrite <- Hb. f_equal. lia.
Qed.

(** [memmove] copies the block as it was, however source and destination
    overlap, and changes nothing else. *)
Theorem memmove_correct mem dst src n :
  0 <= n -> 0 <= dst -> 0 <= src -> dst + n <= Z.of_nat (length mem) ->
  src + n <= Z.of_nat (length mem) ->
  exists mem', memmove mem dst src n = Some mem' /\ moved mem mem' dst src n.
Proof.
  intros Hn Hd Hs Hdl Hsl. unfold memmove.
  destruct (Z.eqb_spec dst src) as [->|Hne]; simpl.
  { exists mem. split; [done|]. split; [done|]. intros i. case_decide; [|done]. f_equal. lia. }
  destruct (Z.eqb_spec n 0) as [->|Hn0]; simpl.
  { exists mem. split; [done|]. split; [done|]. intros i. by rewrite decide_False by lia. }
  destruct (Z.ltb_spec dst src).
  - destruct (copy_up_spec (Z.to_nat n) mem dst src) as (mem' & E & Hm); [lia..|].
    rewrite Z2Nat.id in Hm by lia. eauto.
  - destruct (copy_down_spec (Z.to_nat n) mem (dst + n - 1) (src + n - 1)) as (mem' & E & Hm); [lia..|].
    rewrite Z2Nat.id in Hm by lia. exists mem'. split; [done|].
    by replace (dst + n - 1 + 1 - n) with dst in Hm by lia; replace (src + n - 1 + 1 - n) with src in Hm by lia.
Qed.

End moves.

Lemma memmove_correct_witness :
  exists mem', memmove [1; 2; 3; 4; 5] 1 0 4 = Some mem' /\ mem' = [1; 1; 2; 3; 4] /\
    moved [1; 2; 3; 4; 5] mem' 1 0 4.
Proof.
  destruct (memmove_correct [1; 2; 3; 4; 5] 1 0 4) as (mem' & E & Hm); [simpl; lia..|].
  exists mem'. split; [exact E|]. split; [|exact Hm]. vm_compute in E. congruence.
Defined.

End CString.
