(* ===== verification/Cmdline.v ===== *)
(** The kernel command line ([src/kern/cmdline.c]): words separated by spaces, and
    the values of those of the form [name=value].

    Model: as in [CString], a pointer is the bytes from it on; the command line is
    absent when the boot loader passed none, and reading it then is a NULL access. *)
From S2P Require Import Prelude CString.
From Stdlib Require String.
Import String.StringSyntax.

Module Cmdline.
Import CString.

Definition SPACE : Z := 32.
Definition EQUALS : Z := 61.

(** [while ( *p == ' ') p++] and [while ( *p && *p != ' ') p++] *)
Fixpoint skip_spaces (p : list Z) : option (list Z) :=
  match p with [] => None | c :: r => if c =? SPACE then skip_spaces r else Some p end.
Fixpoint skip_word (p : list Z) : option (list Z) :=
  match p with [] => None | c :: r => if negb (c =? 0) && negb (c =? SPACE) then skip_word r else Some p end.

Definition distance (a b : list Z) : Z := Z.of_nat (length a) - Z.of_nat (length b).

Fixpoint has_loop (fuel : nat) (p name : list Z) (nlen : Z) : option Z :=
  match fuel with
  | O => None
  | S fuel' =>
      c ← head p;
      if c =? 0 then Some 0 else
      st ← skip_spaces p;
      c ← head st;
      if c =? 0 then Some 0 else
      p ← skip_word st;
      e ← (if distance st p =? nlen then strneq st name nlen else Some 0);
      if negb (e =? 0) then Some 1 else has_loop fuel' p name nlen
  end.

Definition cmdline_has (kcmdline : option (list Z)) (name : list Z) : option Z :=
  p ← kcmdline;
  nlen ← strlen name;
  has_loop (length p) p name nlen.

(** The value, as a new string; [alloc]: whether there is memory for it. *)
Fixpoint get_loop (fuel : nat) (alloc : bool) (p name : list Z) (nlen : Z) : option (option (list Z)) :=
  match fuel with
  | O => None
  | S fuel' =>
      c ← head p;
      if c =? 0 then Some None else
      start ← skip_spaces p;
      c ← head start;
      if c =? 0 then Some None else
      p ← skip_word start;
      found ← (if nlen <? distance start p then
                 r ← strncmp start name nlen;
                 if r =? 0 then e ← aget start nlen; Some (e =? EQUALS) else Some false
               else Some false);
      if found : bool then
        let valst := drop (Z.to_nat (nlen + 1)) start in
        p ← skip_word p;
        Some (if alloc then Some (take (Z.to_nat (distance valst p)) valst) else None)
      else get_loop fuel' alloc p name nlen
  end.

Definition cmdline_get (alloc : bool) (kcmdline : option (list Z)) (name : list Z) : option (option (list Z)) :=
  p ← kcmdline;
  nlen ← strlen name;
  get_loop (length p) alloc p name nlen.

(** ** Words *)

Fixpoint words (s : list Z) : list (list Z) :=
  match s with
  | [] => []
  | c :: r =>
      if c =? SPACE then words r else
      match r with
      | [] => [[c]]
      | d :: _ => if d =? SPACE then [c] :: words r else match words r with w :: l => (c :: w) :: l | [] => [[c]] end
      end
  end.

(** What follows [pre] in [w]. *)
Fixpoint strip (pre w : list Z) : option (list Z) :=
  match pre, w with
  | [], _ => Some w
  | a :: pre', b :: w' => if a =? b then strip pre' w' else None
  | _ :: _, [] => None
  end.

Fixpoint value_of (name : list Z) (l : list (list Z)) : option (list Z) :=
  match l with
  | [] => None
  | w :: l' => match strip (name ++ [EQUALS]) w with Some v => Some v | None => value_of name l' end
  end.

Definition no_space (w : list Z) : Prop := Forall (fun c => c <> SPACE) w.

Lemma words_cons w r : no_space w -> w <> [] -> (r = [] \/ exists r', r = SPACE :: r') -> words (w ++ r) = w :: words r.
Proof.
  intros Hw Hne Hr. induction Hw as [|c w Hc Hw IH]; [done|]. cbn [words app]. rewrite (proj2 (Z.eqb_neq _ _) Hc).
  destruct w as [|d w].
  - cbn [app]. destruct Hr as [->|[r' ->]]; [done|]. by rewrite Z.eqb_refl.
  - rewrite IH by done. apply Forall_cons in Hw as [Hd _]. cbn [app]. by rewrite (proj2 (Z.eqb_neq _ _) Hd).
Qed.

Lemma head_cstr s j : head (cstr s ++ j) = Some (default 0 (head s)).
Proof. by destruct s. Qed.

Lemma skip_spaces_spec s j : exists s', skip_spaces (cstr s ++ j) = Some (cstr s' ++ j) /\ words s = words s' /\ head s' <> Some SPACE /\
  s' `suffix_of` s.
Proof.
  induction s as [|c s (s' & E & Hw & Hh & Hs)]; [by exists []|]. cbn [skip_spaces cstr app words]. destruct (Z.eqb_spec c SPACE) as [->|Hc].
  - exists s'. split_and!; [done..|]. by apply suffix_cons_r.
  - exists (c :: s). split_and!; [done| |cbn; congruence|done]. cbn [words]. by rewrite (proj2 (Z.eqb_neq _ _) Hc).
Qed.

Lemma skip_word_spec s j : str_ok s -> exists w r, s = w ++ r /\ skip_word (cstr s ++ j) = Some (cstr r ++ j) /\ no_space w /\
  (r = [] \/ exists r', r = SPACE :: r').
Proof.
  induction 1 as [|c s Hc _ (w & r & -> & E & Hw & Hr)]; [exists [], []; repeat split; [constructor|by left]|].
  cbn [skip_word cstr app]. rewrite (proj2 (Z.eqb_neq c 0)) by lia. destruct (Z.eqb_spec c SPACE) as [->|Hc']; cbn [negb andb].
  - exists [], (SPACE :: w ++ r). split_and!; [done|done|constructor|eauto].
  - exists (c :: w), r. split_and!; [done|exact E|by constructor|done].
Qed.

Lemma skip_word_here r j : r = [] \/ (exists r', r = SPACE :: r') -> skip_word (cstr r ++ j) = Some (cstr r ++ j).
Proof. by intros [->|[r' ->]]. Qed.

(** The rest of a line: it is empty, or has a first word and a shorter rest. *)
Inductive rest (j : list Z) (s : list Z) : Prop :=
| rest_done : head (cstr s ++ j) = Some 0 \/ (skip_spaces (cstr s ++ j) = Some (cstr [] ++ j) /\ exists c, head (cstr s ++ j) = Some c) ->
    words s = [] -> rest j s
| rest_word c d w r : head (cstr s ++ j) = Some c -> c <> 0 -> skip_spaces (cstr s ++ j) = Some (cstr (w ++ r) ++ j) ->
    head (cstr (w ++ r) ++ j) = Some d -> d <> 0 -> skip_word (cstr (w ++ r) ++ j) = Some (cstr r ++ j) ->
    skip_word (cstr r ++ j) = Some (cstr r ++ j) ->
    words s = w :: words r -> (length w + length r <= length s)%nat -> w <> [] -> str_ok (w ++ r) -> rest j s.

Lemma rest_of s j : str_ok s -> rest j s.
Proof.
  intros Hs. destruct (skip_spaces_spec s j) as (s' & E & Hw & Hh & Hsuf). destruct s' as [|d t].
  - apply rest_done; [right; split; [done|]; rewrite head_cstr; eauto|by rewrite Hw].
  - assert (str_ok (d :: t)) as Ht by (destruct Hsuf as [pre ->]; by apply Forall_app in Hs as [_ ?]).
    assert (0 < default 0 (head s)) as Hc.
    { destruct s as [|c s]; [by apply suffix_nil_inv in Hsuf|]. apply Forall_cons in Hs as [? _]. cbn. lia. }
    assert (0 < d) as Hd by (apply Forall_cons in Ht as [? _]; lia). pose proof (suffix_length _ _ Hsuf) as Hl.
    destruct (skip_word_spec (d :: t) j Ht) as (w & r & Ewr & Es & Hnw & Hr). rewrite Ewr in *.
    assert (w <> []) as Hne by (intros ->; destruct Hr as [->|[? ->]]; cbn in Ewr, Hh; congruence).
    eapply (rest_word j s _ d w r); eauto using skip_word_here.
    + by rewrite head_cstr.
    + lia.
    + by rewrite head_cstr, <- Ewr.
    + lia.
    + by rewrite Hw, words_cons.
    + rewrite length_app in Hl. lia.
Qed.

Lemma distance_cstr w r j : distance (cstr (w ++ r) ++ j) (cstr r ++ j) = Z.of_nat (length w).
Proof. unfold distance, cstr. rewrite !length_app. lia. Qed.

(** ** The queries *)

Lemma has_loop_words fuel s j name : str_ok s -> str_ok name -> (length s < fuel)%nat ->
  has_loop fuel (cstr s ++ j) (cstr name) (Z.of_nat (length name)) = Some (if decide (name ∈ words s) then 1 else 0).
Proof.
  revert s. induction fuel as [|fuel IH]; intros s Hs Hn Hf; [lia|]. cbn [has_loop].
  destruct (rest_of s j Hs) as [He Hw|c d w r E1 H1 E2 E3 H3 E4 E5 Hw Hl Hne Hok].
  - rewrite Hw, decide_False by set_solver. destruct He as [He|[He [c Ec]]]; [rewrite He; cbn; done|].
    rewrite Ec, He. cbn. by destruct (c =? 0).
  - rewrite E1, E2. cbn [mbind option_bind]. rewrite (proj2 (Z.eqb_neq c 0)), E3 by done. cbn [mbind option_bind].
    rewrite (proj2 (Z.eqb_neq d 0)), E4 by done. cbn [mbind option_bind]. rewrite distance_cstr, Hw. apply Forall_app in Hok as [Hokw Hokr].
    assert (length w <> 0%nat) by (by destruct w).
    assert ((if Z.of_nat (length w) =? Z.of_nat (length name) then strneq (cstr (w ++ r) ++ j) (cstr name) (Z.of_nat (length name)) else Some 0)
            = Some (if decide (w = name) then 1 else 0)) as ->.
    { destruct (Z.eqb_spec (Z.of_nat (length w)) (Z.of_nat (length name))) as [El|El].
      - unfold strneq, cstr. rewrite Nat2Z.id, <- !app_assoc. replace (length name) with (length w) by lia. apply eq_loop_app. lia.
      - by rewrite decide_False by (intros ->; done). }
    cbn [mbind option_bind]. destruct (decide (w = name)) as [->|Hne']; cbn; [by rewrite decide_True by set_solver|].
    rewrite IH by (done || lia). f_equal. by destruct (decide (name ∈ words r)), (decide (name ∈ w :: words r)); set_solver.
Qed.

Lemma strip_app pre w v : strip pre w = Some v <-> w = pre ++ v.
Proof.
  revert w. induction pre as [|a pre IH]; intros w; cbn; [split; congruence|]. destruct w as [|b w]; [done|].
  destruct (Z.eqb_spec a b) as [->|Hab]; [rewrite IH; split; congruence|]. split; congruence.
Qed.

Lemma strncmp_answers s1 s2 j1 j2 : str_ok s1 -> str_ok s2 -> exists z, strncmp_loop (length s2) (cstr s1 ++ j1) (cstr s2 ++ j2) = Some z.
Proof.
  unfold cstr. rewrite <- !app_assoc. simpl. intros H1. revert s2.
  induction H1 as [|a s1 Ha _ IH]; intros [|b s2] H2; cbn -[Z.eqb]; try (by eexists).
  - apply Forall_cons in H2 as [Hb _]. rewrite (proj2 (Z.eqb_neq 0 b)) by lia. cbn [negb]. by eexists.
  - apply Forall_cons in H2 as [Hb H2]. destruct (Z.eqb_spec a b) as [->|Hne]; simpl; [|by eexists].
    rewrite (proj2 (Z.eqb_neq b 0)) by lia. by apply IH.
Qed.

(** The test on a word: it is [name=...]. *)
Lemma found_strip w r j name : str_ok (w ++ r) -> str_ok name -> let start := cstr (w ++ r) ++ j in
  (if Z.of_nat (length name) <? Z.of_nat (length w) then
     z ← strncmp start (cstr name) (Z.of_nat (length name));
     if z =? 0 then e ← aget start (Z.of_nat (length name)); Some (e =? EQUALS) else Some false
   else Some false) = Some (bool_decide (is_Some (strip (name ++ [EQUALS]) w))).
Proof.
  intros Hs Hn start. assert (forall v, strip (name ++ [EQUALS]) w = Some v <-> w = name ++ EQUALS :: v) as Hst
    by (intros v; rewrite strip_app, <- app_assoc; done).
  destruct (Z.ltb_spec (Z.of_nat (length name)) (Z.of_nat (length w))) as [Hlt|Hge].
  - unfold strncmp. rewrite Nat2Z.id. destruct (strncmp_answers (w ++ r) name j [] Hs Hn) as [z Ez]. rewrite app_nil_r in Ez. fold start in Ez.
    rewrite Ez. cbn [mbind option_bind]. pose proof (strncmp_prefix (w ++ r) name j [] Hs Hn) as Hp. rewrite app_nil_r in Hp. fold start in Hp. rewrite Ez in Hp.
    assert (name `prefix_of` w ++ r <-> name `prefix_of` w) as Hpw.
    { split; [|apply prefix_app_r]. intros [t Et]. exists (drop (length name) w).
      rewrite <- (take_drop (length name) w) at 1. f_equal. apply (f_equal (take (length name))) in Et.
      rewrite take_app_le, take_app_length in Et by lia. done. }
    destruct (Z.eqb_spec z 0) as [->|Hz].
    + destruct (proj1 Hpw (proj1 Hp eq_refl)) as [t ->]. rewrite length_app in Hlt. destruct t as [|e t]; [cbn in Hlt; lia|].
      assert (aget start (Z.of_nat (length name)) = Some e) as ->.
      { apply aget_Some. split; [lia|]. unfold start, cstr. rewrite Nat2Z.id, <- !app_assoc. by apply list_lookup_middle. }
      cbn [mbind option_bind]. f_equal. destruct (Z.eqb_spec e EQUALS) as [->|He].
      * symmetry. apply bool_decide_eq_true. exists t. by apply Hst.
      * symmetry. apply bool_decide_eq_false. intros [v Hv%Hst]. simplify_list_eq.
    + symmetry. f_equal. apply bool_decide_eq_false. intros [v Hv%Hst]. apply Hz. assert (Some z = Some 0) as [=]; [|done].
      apply Hp, Hpw. rewrite Hv. by apply prefix_app_r.
  - symmetry. f_equal. apply bool_decide_eq_false. intros [v Hv%Hst]. rewrite Hv, length_app in Hge. cbn in Hge. lia.
Qed.

Lemma get_loop_words fuel alloc s j name : str_ok s -> str_ok name -> (length s < fuel)%nat ->
  get_loop fuel alloc (cstr s ++ j) (cstr name) (Z.of_nat (length name)) = Some (if alloc then value_of name (words s) else None).
Proof.
  revert s. induction fuel as [|fuel IH]; intros s Hs Hn Hf; [lia|]. cbn [get_loop].
  destruct (rest_of s j Hs) as [He Hw|c d w r E1 H1 E2 E3 H3 E4 E5 Hw Hl Hne Hok].
  - rewrite Hw. cbn [value_of]. replace (if alloc then None else None) with (@None (list Z)) by (by destruct alloc).
    destruct He as [He|[He [c Ec]]]; [rewrite He; cbn; done|]. rewrite Ec, He. cbn. by destruct (c =? 0).
  - rewrite E1, E2. cbn [mbind option_bind]. rewrite (proj2 (Z.eqb_neq c 0)), E3 by done. cbn [mbind option_bind].
    rewrite (proj2 (Z.eqb_neq d 0)), E4 by done. cbn [mbind option_bind]. rewrite distance_cstr, Hw, (found_strip w r j name Hok Hn).
    cbn [mbind option_bind value_of]. assert (length w <> 0%nat) by (by destruct w).
    destruct (strip (name ++ [EQUALS]) w) as [v|] eqn:Ev.
    + rewrite bool_decide_true by eauto. rewrite E5. cbn [mbind option_bind]. destruct alloc; [|done]. do 2 f_equal.
      apply strip_app in Ev as ->. replace (cstr (((name ++ [EQUALS]) ++ v) ++ r) ++ j) with ((name ++ [EQUALS]) ++ v ++ cstr r ++ j) by (unfold cstr; by rewrite <- !app_assoc).
      replace (Z.to_nat (Z.of_nat (length name) + 1)) with (length (name ++ [EQUALS])) by (rewrite length_app; cbn; lia).
      rewrite drop_app_length. unfold distance. rewrite length_app. replace (Z.to_nat _) with (length v) by lia. apply take_app_length.
    + rewrite bool_decide_false by (intros [? [=]]). apply Forall_app in Hok as [_ Hokr]. apply IH; [done|done|lia].
Qed.

(** The queries agree with the list of words: a flag is one of them, and the value of
    a name is what follows [name=] in the first word that starts with it. *)
Theorem cmdline_words alloc s j name : str_ok s -> str_ok name ->
  cmdline_has (Some (cstr s ++ j)) (cstr name) = Some (if decide (name ∈ words s) then 1 else 0) /\
  cmdline_get alloc (Some (cstr s ++ j)) (cstr name) = Some (if alloc then value_of name (words s) else None).
Proof.
  intros Hs Hn. unfold cmdline_has, cmdline_get. cbn [mbind option_bind]. pose proof (strlen_cstr name [] Hn) as E. rewrite app_nil_r in E. rewrite E. cbn [mbind option_bind].
  assert (length s < length (cstr s ++ j))%nat by (unfold cstr; rewrite !length_app; cbn; lia).
  split; [by apply has_loop_words|by apply get_loop_words].
Qed.

(** [quiet logdev=serial x] *)
Definition line : list Z := str "quiet logdev=serial x".

Lemma cmdline_words_witness :
  cmdline_has (Some (cstr line ++ [])) (cstr (str "quiet")) = Some 1 /\
  cmdline_get true (Some (cstr line ++ [])) (cstr (str "logdev")) = Some (Some (str "serial")).
Proof.
  assert (str_ok line) as Hl by (repeat constructor; lia).
  split; [rewrite (proj1 (cmdline_words true line [] (str "quiet") Hl ltac:(repeat constructor; lia)))|
          rewrite (proj2 (cmdline_words true line [] (str "logdev") Hl ltac:(repeat constructor; lia)))]; reflexivity.
Defined.

(** Without a command line every query reads through NULL. *)
Lemma cmdline_null alloc name : cmdline_has None name = None /\ cmdline_get alloc None name = None.
Proof. done. Qed.

End Cmdline.
