(* ===== verification/Machine.v ===== *)
(** The hardware the drivers talk to: port and memory-mapped input and output, the
    time stamp counter and [cpuid] ([src/arch/x86/asm_helpers.c] and the volatile
    accesses of the drivers).  What a device does is not part of the kernel; it is
    a state of any type, and each driver names what it relies on. *)
From S2P Require Import Prelude.

Module Machine.

Record hw (D : Type) := mk_hw {
  inb : Z -> M D Z; outb : Z -> Z -> M D unit;
  inw : Z -> M D Z; outw : Z -> Z -> M D unit;
  inl : Z -> M D Z; outl : Z -> Z -> M D unit;
  ld8 : Z -> M D Z; st8 : Z -> Z -> M D unit;
  ld16 : Z -> M D Z; st16 : Z -> Z -> M D unit;
  ld32 : Z -> M D Z; st32 : Z -> Z -> M D unit;
  ld64 : Z -> M D Z; st64 : Z -> Z -> M D unit;
  rdtsc : M D Z;
  cpuid : Z -> Z -> M D (Z * Z * Z * Z);
  rdmsr : Z -> M D Z; wrmsr : Z -> Z -> M D unit
}.
Arguments mk_hw {D}.
Arguments inb {D}.
Arguments outb {D}.
Arguments inw {D}.
Arguments outw {D}.
Arguments inl {D}.
Arguments outl {D}.
Arguments ld8 {D}.
Arguments st8 {D}.
Arguments ld16 {D}.
Arguments st16 {D}.
Arguments ld32 {D}.
Arguments st32 {D}.
Arguments ld64 {D}.
Arguments st64 {D}.
Arguments rdtsc {D}.
Arguments cpuid {D}.
Arguments rdmsr {D}.
Arguments wrmsr {D}.

(** No device at all: every read gives zero. *)
Definition dead {D} : hw D :=
  let rd := fun _ => mret 0 in let wr := fun _ _ => mret tt in
  mk_hw rd wr rd wr rd wr rd wr rd wr rd wr rd wr (mret 0) (fun _ _ => mret (0, 0, 0, 0)) rd wr.

End Machine.
