(* ===== verification/Clock.v ===== *)
(** Time: the real time clock ([src/drivers/time/rtc.c]), the time of day
    ([gettimeofday.c]) and the time stamp counter as a clock ([tsc.c]).

    The clock chip is a device with registers that run until they are frozen; the
    number the kernel computes from them is the number of ticks of a calendar
    since 1970.  [century] is the register number the firmware reports. *)
From S2P Require Import Prelude Machine.

Module Clock.
Import Machine.

Definition REG_SECS : Z := 0x00.
Definition REG_MINS : Z := 0x02.
Definition REG_HRS : Z := 0x04.
Definition REG_DAY : Z := 0x07.
Definition REG_MON : Z := 0x08.
Definition REG_YEAR : Z := 0x09.
Definition REG_STA : Z := 0x0A.
Definition REG_STB : Z := 0x0B.

Definition rtc_bcd2bin (val : Z) : Z := val / 16 * 10 + val mod 16.

Definition leap (y : Z) : bool := (y mod 4 =? 0) && negb (y mod 100 =? 0) || (y mod 400 =? 0).

(** Days of the years from [y] on. *)
Fixpoint years_loop (n : nat) (y tdays : Z) : Z :=
  match n with
  | O => tdays
  | S n' => years_loop n' (u16 (y + 1)) (u64 (tdays + if leap y then 366 else 365))
  end.

Definition dmos : list Z := [0; 31; 28; 31; 30; 31; 30; 31; 31; 30; 31; 30; 31].

(** Days of the months from [m] on; [None]: a read behind the table. *)
Fixpoint months_loop (n : nat) (m year tdays : Z) : option Z :=
  match n with
  | O => Some tdays
  | S n' =>
      d ← aget dmos m;
      months_loop n' (u8 (m + 1)) year (u64 (tdays + d + if (m =? 2) && leap year then 1 else 0))
  end.

(** The seconds since 1970 from the numbers of the clock. *)
Definition seconds (year mon day hrs mins secs : Z) : option Z :=
  tdays ← months_loop (Z.to_nat (mon - 1)) 1 year (years_loop (Z.to_nat (year - 1970)) 1970 0);
  Some (u64 (u64 (tdays + (day - 1)) * 86400 + hrs * 3600 + mins * 60 + secs)).

Definition SPINS : nat := Z.to_nat 100000.

Section rtc.
Context {D : Type} (H : hw D) (century : Z).

Fixpoint rtc_wait (timeout : nat) : M D unit :=
  match timeout with
  | O => mret tt
  | S n => v ← inb H 0x71; if Z.land v 0x80 =? 0 then mret tt else rtc_wait n
  end.

(** Waits for the end of an update and stops the clock; register B as it was. *)
Definition rtc_freeze : M D Z :=
  _ ← outb H 0x70 REG_STA;
  _ ← rtc_wait SPINS;
  _ ← outb H 0x70 REG_STB;
  stb ← inb H 0x71;
  _ ← outb H 0x71 (Z.lor stb 0x80);
  mret stb.

Definition rtc_reg (r : Z) : M D Z := _ ← outb H 0x70 r; inb H 0x71.

Definition rtc_gettime : M D Z :=
  stb ← rtc_freeze;
  secs ← rtc_reg REG_SECS;
  mins ← rtc_reg REG_MINS;
  hrs ← rtc_reg REG_HRS;
  day ← rtc_reg REG_DAY;
  mon ← rtc_reg REG_MON;
  hyear ← rtc_reg REG_YEAR;
  let conv v := if Z.land stb 0x04 =? 0 then u8 (rtc_bcd2bin v) else v in
  let hrs := conv hrs in
  let hrs := if (Z.land stb 0x02 =? 0) && negb (Z.land hrs 0x80 =? 0) then (Z.land hrs 0x7F + 12) mod 24 else hrs in
  century_val ← (if century =? 0 then mret 0 else v ← rtc_reg century; mret (conv v));
  let year := u16 (if negb (century_val =? 0) then century_val * 100 + conv hyear else 2000 + conv hyear) in
  deref (seconds year (conv mon) (conv day) hrs (conv mins) (conv secs)).

End rtc.

(** ** The time of day *)

Record tod := mk_tod { initime : Z; initsc : Z }.

Section tod.
Context {D : Type} (H : hw D) (century : Z) (getms : M D Z).

Definition init_gettimeofday : M D tod :=
  t ← rtc_gettime H century; ms ← getms; mret (mk_tod t ms).

Definition gettimeofday (g : tod) : M D Z :=
  ms ← getms; mret (u64 (initime g + u64 (ms - initsc g) / 1000)).

(** [epoch] and [ms] of the result. *)
Definition getmtimeofday (g : tod) : M D (Z * Z) :=
  ms ← getms;
  let mss := u64 (ms - initsc g) in
  mret (u64 (initime g + mss / 1000), mss mod 1000).

End tod.

(** ** The time stamp counter *)

Definition UINT64_MAX : Z := 2 ^ 64 - 1.

Definition get_tscms (frq tsc : Z) : Z :=
  if frq =? 0 then 0
  else if UINT64_MAX / 1000 <? tsc then u64 (tsc / frq * 1000)
  else u64 (tsc * 1000) / frq.

Definition tsc_cangetfrqviacpuid {D} (H : hw D) : M D bool :=
  r ← cpuid H 0x01 0;
  let '(eax, _, _, _) := r in
  let family := u8 (Z.shiftr (Z.land eax 0xF00) 8) in
  let model := u8 (Z.shiftr (Z.land eax 0xF0) 4) in
  mret ((family =? 6) && (0x5E <=? model) || (family =? 18)).

Definition tsc_getfrqviacpuid {D} (H : hw D) : M D Z :=
  r ← cpuid H 0x15 0;
  let '(eax, ebx, ecx, _) := r in
  if (eax =? 0) || (ebx =? 0) || (ecx =? 0) then mret 0 else mret (u64 (ecx * ebx) / eax).

(** The frequency measured against channel 2 of the interval timer, which runs for 10
    ms; two gigahertz when it never ends. *)
Section pit.
Context {D : Type} (H : hw D).

(** [false]: the time-out has expired. *)
Fixpoint pit_wait (timeout : nat) : M D bool :=
  match timeout with
  | O => mret false
  | S n => v ← inb H 0x61; if Z.land v 0x20 =? 0 then pit_wait n else mret true
  end.

Definition PIT_SPINS : nat := Z.to_nat 10000000.

Definition tsc_getfrqviapit (irq_disable : Z -> M D unit) : M D Z :=
  _ ← irq_disable 0;
  _ ← outb H 0x43 0xB0;
  let ticks := 11932 in
  _ ← outb H 0x42 (Z.land ticks 0xFF);
  _ ← outb H 0x42 (Z.land (Z.shiftr ticks 8) 0xFF);
  p61 ← inb H 0x61;
  _ ← outb H 0x61 (Z.lor (Z.land p61 0xfd) 1);
  tscst ← rdtsc H;
  ok ← pit_wait PIT_SPINS;
  tsced ← rdtsc H;
  _ ← outb H 0x61 (Z.land p61 0xFC);
  mret (if ok : bool then u64 (u64 (tsced - tscst) * 100) else 2000000000).

(** The frequency, and whether the clock of the kernel was set to [get_tscms]. *)
Definition init_tsc (irq_disable : Z -> M D unit) : M D (Z * bool) :=
  can ← tsc_cangetfrqviacpuid H;
  if can : bool then
    f ← tsc_getfrqviacpuid H;
    if f =? 0 then f ← tsc_getfrqviapit irq_disable; mret (f, false) else mret (f, false)
  else f ← tsc_getfrqviapit irq_disable; mret (f, true).

Definition read_tscms (frq : Z) : M D Z := if frq =? 0 then mret 0 else t ← rdtsc H; mret (get_tscms frq t).

Fixpoint sleep_loop (fuel : nat) (frq st ms : Z) : M D unit :=
  match fuel with
  | O => fault
  | S fuel' => t ← read_tscms frq; if u64 (t - st) <? ms then sleep_loop fuel' frq st ms else mret tt
  end.
Definition tsc_sleep (fuel : nat) (frq ms : Z) : M D unit := st ← read_tscms frq; sleep_loop fuel frq st ms.

End pit.

(** ** The calendar *)

Record cal := mk_cal { year : Z; month : Z; day : Z; hour : Z; minute : Z; second : Z }.

Definition mdays (y m : Z) : Z :=
  if m =? 2 then if leap y then 29 else 28
  else if (m =? 4) || (m =? 6) || (m =? 9) || (m =? 11) then 30 else 31.

(** One second later. *)
Definition tick (c : cal) : cal :=
  if second c <? 59 then mk_cal (year c) (month c) (day c) (hour c) (minute c) (second c + 1)
  else if minute c <? 59 then mk_cal (year c) (month c) (day c) (hour c) (minute c + 1) 0
  else if hour c <? 23 then mk_cal (year c) (month c) (day c) (hour c + 1) 0 0
  else if day c <? mdays (year c) (month c) then mk_cal (year c) (month c) (day c + 1) 0 0 0
  else if month c <? 12 then mk_cal (year c) (month c + 1) 1 0 0 0
  else mk_cal (year c + 1) 1 1 0 0 0.

Definition epoch : cal := mk_cal 1970 1 1 0 0 0.

(** [instant t c]: the calendar shows [c] when [t] seconds have passed since 1970. *)
Inductive instant : Z -> cal -> Prop :=
| instant_epoch : instant 0 epoch
| instant_tick t c : instant t c -> instant (t + 1) (tick c).

(** ** Days *)

Fixpoint days_of_years (n : nat) : Z :=
  match n with O => 0 | S n' => days_of_years n' + if leap (1970 + Z.of_nat n') then 366 else 365 end.

Fixpoint days_of_months (y : Z) (n : nat) : Z :=
  match n with O => 0 | S n' => days_of_months y n' + mdays y (Z.of_nat n) end.

Lemma days_of_years_bound n : 0 <= days_of_years n <= 366 * Z.of_nat n.
Proof. induction n as [|n IH]; cbn [days_of_years]; [lia|]. destruct (leap _); lia. Qed.

Lemma mdays_bound y m : 28 <= mdays y m <= 31.
Proof. unfold mdays. repeat split_if; lia. Qed.

Lemma days_of_months_bound y n : 0 <= days_of_months y n <= 31 * Z.of_nat n.
Proof. induction n as [|n IH]; cbn [days_of_months]; [lia|]. pose proof (mdays_bound y (Z.of_nat (S n))). lia. Qed.

Lemma days_of_year y : days_of_months y 12 = if leap y then 366 else 365.
Proof. cbn. unfold mdays. cbn. by destruct (leap y). Qed.

Lemma years_loop_ok n : forall k, Z.of_nat (k + n) + 1970 < 2 ^ 16 ->
  years_loop n (1970 + Z.of_nat k) (days_of_years k) = days_of_years (k + n).
Proof.
  induction n as [|n IH]; intros k Hk; cbn [years_loop]; [by rewrite Nat.add_0_r|].
  pose proof (days_of_years_bound k). rewrite (wrap_small 16) by lia. rewrite (wrap_small 64) by (destruct (leap _); lia).
  replace (1970 + Z.of_nat k + 1) with (1970 + Z.of_nat (S k)) by lia.
  change (days_of_years k + _) with (days_of_years (S k)). rewrite IH by lia. f_equal. lia.
Qed.

Lemma dmos_ok y m : 1 <= m <= 12 -> exists d, aget dmos m = Some d /\ mdays y m = d + if (m =? 2) && leap y then 1 else 0.
Proof.
  intros Hm. assert (m ∈ [1; 2; 3; 4; 5; 6; 7; 8; 9; 10; 11; 12]) as Hin by (rewrite !elem_of_cons; lia).
  unfold mdays. repeat (apply elem_of_cons in Hin as [->|Hin]; [eexists; split; [reflexivity|by destruct (leap y)]|]). by apply elem_of_nil in Hin.
Qed.

Lemma months_loop_ok y t n : forall k, (k + n <= 12)%nat -> 0 <= t < 2 ^ 60 ->
  months_loop n (Z.of_nat k + 1) y (t + days_of_months y k) = Some (t + days_of_months y (k + n)).
Proof.
  induction n as [|n IH]; intros k Hk Ht; cbn [months_loop]; [by rewrite Nat.add_0_r|].
  destruct (dmos_ok y (Z.of_nat k + 1)) as (d & Ed & Em); [lia|]. rewrite Ed. cbn [mbind option_bind].
  pose proof (days_of_months_bound y k). pose proof (mdays_bound y (Z.of_nat k + 1)).
  rewrite (wrap_small 8) by lia. replace (t + days_of_months y k + d + _) with (t + days_of_months y (S k)).
  2: { cbn [days_of_months]. replace (Z.of_nat (S k)) with (Z.of_nat k + 1) by lia. lia. }
  rewrite wrap_small by (pose proof (days_of_months_bound y (S k)); lia).
  replace (Z.of_nat k + 1 + 1) with (Z.of_nat (S k) + 1) by lia. rewrite IH by lia. do 2 f_equal. f_equal. lia.
Qed.

(** ** Calendar and seconds *)

Record valid (c : cal) : Prop := {
  va_year : 1970 <= year c;
  va_month : 1 <= month c <= 12;
  va_day : 1 <= day c <= mdays (year c) (month c);
  va_hour : 0 <= hour c <= 23;
  va_minute : 0 <= minute c <= 59;
  va_second : 0 <= second c <= 59
}.

Definition days (y m d : Z) : Z := days_of_years (Z.to_nat (y - 1970)) + days_of_months y (Z.to_nat (m - 1)) + (d - 1).
Definition since_epoch (c : cal) : Z :=
  days (year c) (month c) (day c) * 86400 + hour c * 3600 + minute c * 60 + second c.

Lemma days_next_month y m : 1 <= m < 12 -> days y (m + 1) 1 = days y m (mdays y m) + 1.
Proof.
  intros Hm. unfold days. replace (Z.to_nat (m + 1 - 1)) with (S (Z.to_nat (m - 1))) by lia. cbn [days_of_months].
  replace (Z.of_nat (S (Z.to_nat (m - 1)))) with m by lia. lia.
Qed.

Lemma days_next_year y : 1970 <= y -> days (y + 1) 1 1 = days y 12 (mdays y 12) + 1.
Proof.
  intros Hy. unfold days. replace (Z.to_nat (y + 1 - 1970)) with (S (Z.to_nat (y - 1970))) by lia. cbn [days_of_years].
  replace (1970 + Z.of_nat (Z.to_nat (y - 1970))) with y by lia. rewrite <- days_of_year.
  change (Z.to_nat (12 - 1)) with 11%nat. change (Z.to_nat (1 - 1)) with 0%nat.
  change (days_of_months y 12) with (days_of_months y 11 + mdays y 12). change (days_of_months (y + 1) 0) with 0. lia.
Qed.

Lemma tick_ok c : valid c -> valid (tick c) /\ since_epoch (tick c) = since_epoch c + 1.
Proof.
  intros [Hy Hm Hd Hh Hi Hs]. pose proof (mdays_bound (year c) (month c)). unfold tick, since_epoch.
  repeat match goal with |- context [?a <? ?b] => destruct (Z.ltb_spec a b) end; cbn [year month day hour minute second];
    (split; [split; cbn [year month day hour minute second]; try lia|]).
  - unfold days. lia.
  - lia.
  - lia.
  - unfold days. lia.
  - pose proof (mdays_bound (year c) (month c + 1)). lia.
  - rewrite days_next_month by lia. replace (day c) with (mdays (year c) (month c)) by lia. lia.
  - pose proof (mdays_bound (year c + 1) 1). lia.
  - rewrite days_next_year by lia. replace (month c) with 12 in * by lia. replace (day c) with (mdays (year c) 12) by lia. lia.
Qed.

Lemma instant_ok t c : instant t c -> valid c /\ t = since_epoch c.
Proof.
  induction 1 as [|t c _ [Hv ->]]; [split; [split; cbn; lia|reflexivity]|].
  destruct (tick_ok c Hv) as [? ?]. split; [done|lia].
Qed.

(** The number computed from a calendar date is its instant. *)
Lemma seconds_ok t c : instant t c -> year c < 2 ^ 16 ->
  seconds (year c) (month c) (day c) (hour c) (minute c) (second c) = Some t.
Proof.
  intros [Hv ->]%instant_ok Hy. destruct Hv as [Hy0 Hm Hd Hh Hi Hs]. unfold seconds.
  pose proof (mdays_bound (year c) (month c)). pose proof (days_of_years_bound (Z.to_nat (year c - 1970))).
  pose proof (days_of_months_bound (year c) (Z.to_nat (month c - 1))).
  change (years_loop _ 1970 0) with (years_loop (Z.to_nat (year c - 1970)) (1970 + Z.of_nat 0) (days_of_years 0)).
  rewrite years_loop_ok by lia. rewrite Nat.add_0_l.
  pose proof (months_loop_ok (year c) (days_of_years (Z.to_nat (year c - 1970))) (Z.to_nat (month c - 1)) 0 ltac:(lia) ltac:(lia)) as E.
  change (days_of_months (year c) 0) with 0 in E. rewrite Z.add_0_r, Nat.add_0_l in E. change (Z.of_nat 0 + 1) with 1 in E. rewrite E. cbn [mbind option_bind].
  unfold since_epoch, days. rewrite (wrap_small 64 (_ + (day c - 1))) by lia. rewrite wrap_small by lia. done.
Qed.

(** ** The chip *)

(** What the driver relies on: the index port selects a register, register B holds
    what was written to it, and with its top bit set the registers stand still.
    Until then they may change with every access. *)
Class rtc_chip {D : Type} (H : hw D) := {
  regs : D -> Z -> Z;
  selected : D -> Z;
  frozen (d : D) : Prop := Z.testbit (regs d REG_STB) 7 = true;
  moves (d d' : D) : Prop := regs d' REG_STB = regs d REG_STB /\ (frozen d -> regs d' = regs d);
  law_range : forall d r, 0 <= regs d r < 256;
  law_select : forall d r, 0 <= r < 256 -> exists d', outb H 0x70 r d = Done d' tt /\ selected d' = r /\ moves d d';
  law_value : forall d, exists d', inb H 0x71 d = Done d' (regs d (selected d)) /\ selected d' = selected d /\ moves d d';
  law_set_b : forall d v, selected d = REG_STB -> 0 <= v < 256 ->
    exists d', outb H 0x71 v d = Done d' tt /\ selected d' = REG_STB /\ regs d' REG_STB = v
}.

Lemma bcd_back v : 0 <= v < 100 -> u8 (rtc_bcd2bin (v / 10 * 16 + v mod 10)) = v.
Proof.
  intros Hv. assert (Forall (fun v => u8 (rtc_bcd2bin (v / 10 * 16 + v mod 10)) = v) (seqZ 0 100)) as Hall.
  { apply (bool_decide_unpack _). by vm_compute. }
  rewrite Forall_forall in Hall. apply Hall, elem_of_seqZ. lia.
Qed.

Section chip.
Context {D : Type} (H : hw D) `{!rtc_chip H} (century : Z).
Implicit Types d : D.

(** A number as the chip shows it. *)
Definition shown (stb v : Z) : Z := if Z.testbit stb 2 then v else v / 10 * 16 + v mod 10.

(** The registers show a date, in 24-hour mode; the century comes from its register,
    or is the 21st when there is none. *)
Record shows (R : Z -> Z) (c : cal) : Prop := {
  sh_mode : Z.testbit (R REG_STB) 1 = true;
  sh_second : R REG_SECS = shown (R REG_STB) (second c);
  sh_minute : R REG_MINS = shown (R REG_STB) (minute c);
  sh_hour : R REG_HRS = shown (R REG_STB) (hour c);
  sh_day : R REG_DAY = shown (R REG_STB) (day c);
  sh_month : R REG_MON = shown (R REG_STB) (month c);
  sh_year : R REG_YEAR = shown (R REG_STB) (year c mod 100);
  sh_century : if century =? 0 then year c / 100 = 20
    else 0 < century < 256 /\ R century = shown (R REG_STB) (year c / 100) /\ year c < 10000
}.

Lemma moves_trans d d1 d2 : moves d d1 -> moves d1 d2 -> moves d d2.
Proof.
  intros [B1 F1] [B2 F2]. split; [congruence|]. intros F. rewrite F2, F1; [done|done|]. unfold frozen in *. by rewrite B1.
Qed.

Lemma rtc_wait_ok n : forall d, exists d', rtc_wait H n d = Done d' tt /\ moves d d'.
Proof.
  induction n as [|n IH]; intros d; cbn [rtc_wait]; [by exists d|].
  destruct (law_value d) as (d1 & E1 & _ & M1). rewrite (bind_done _ _ _ _ _ E1). split_if; [by exists d1|].
  destruct (IH d1) as (d2 & E2 & M2). exists d2. split; [done|]. by eapply moves_trans.
Qed.

Lemma rtc_freeze_ok d : exists d', rtc_freeze H d = Done d' (regs d REG_STB) /\ regs d' REG_STB = Z.lor (regs d REG_STB) 0x80 /\ frozen d'.
Proof.
  unfold rtc_freeze. destruct (law_select d REG_STA ltac:(unfold REG_STA; lia)) as (d1 & E1 & _ & M1). rewrite (bind_done _ _ _ _ _ E1).
  destruct (rtc_wait_ok SPINS d1) as (d2 & E2 & M2). rewrite (bind_done _ _ _ _ _ E2).
  destruct (law_select d2 REG_STB ltac:(unfold REG_STB; lia)) as (d3 & E3 & S3 & M3). rewrite (bind_done _ _ _ _ _ E3).
  destruct (law_value d3) as (d4 & E4 & S4 & M4). rewrite (bind_done _ _ _ _ _ E4), S3.
  assert (regs d3 REG_STB = regs d REG_STB) as E by (destruct M1 as [<- _], M2 as [<- _], M3 as [<- _]; done).
  rewrite E. pose proof (law_range d REG_STB).
  destruct (law_set_b d4 (Z.lor (regs d REG_STB) 0x80)) as (d5 & E5 & _ & B5); [congruence| |].
  { split; [apply Z.lor_nonneg; lia|]. apply Z.log2_lt_cancel. change (Z.log2 256) with 8. rewrite Z.log2_lor by lia.
    apply Z.max_lub_lt; [|done]. destruct (Z.eq_dec (regs d REG_STB) 0) as [->|]; [done|]. apply Z.log2_lt_pow2; lia. }
  rewrite (bind_done _ _ _ _ _ E5). exists d5. split_and!; [done|done|]. unfold frozen. rewrite B5, Z.lor_spec. apply orb_true_r.
Qed.

Lemma rtc_reg_ok d r : frozen d -> 0 <= r < 256 -> exists d', rtc_reg H r d = Done d' (regs d r) /\ regs d' = regs d /\ frozen d'.
Proof.
  intros F Hr. unfold rtc_reg. destruct (law_select d r Hr) as (d1 & E1 & S1 & [B1 F1]). rewrite (bind_done _ _ _ _ _ E1).
  destruct (law_value d1) as (d2 & E2 & _ & [B2 F2]). assert (frozen d1) as Fr1 by (unfold frozen; by rewrite B1).
  rewrite E2, S1, F1 by done. exists d2. split_and!; [done|rewrite F2 by done; by apply F1|]. unfold frozen. by rewrite B2.
Qed.

Lemma shown_back stb v : 0 <= v < 100 -> (if Z.land stb 0x04 =? 0 then u8 (rtc_bcd2bin (shown stb v)) else shown stb v) = v.
Proof.
  intros Hv. unfold shown. change 0x04 with (2 ^ 2). rewrite land_pow2_eqb by lia. destruct (Z.testbit stb 2); cbn [negb]; [done|by apply bcd_back].
Qed.

(** The clock read while it stands still. *)
Lemma rtc_gettime_frozen d d1 t c :
  rtc_freeze H d = Done d1 (regs d REG_STB) -> regs d1 REG_STB = Z.lor (regs d REG_STB) 0x80 -> frozen d1 ->
  instant t c -> shows (regs d1) c -> exists d', rtc_gettime H century d = Done d' t /\ regs d' = regs d1.
Proof.
  intros E0 EB F0 Hi [Sm S1 S2 S3 S4 S5 S6 S7]. destruct (proj1 (instant_ok t c Hi)) as [Vy Vm Vd Vh Vi Vs].
  pose proof (mdays_bound (year c) (month c)). unfold rtc_gettime. rewrite (bind_done _ _ _ _ _ E0).
  rewrite EB, Z.lor_spec in Sm. change (Z.testbit 0x80 1) with false in Sm. rewrite orb_false_r in Sm.
  assert (forall v, shown (regs d1 REG_STB) v = shown (regs d REG_STB) v) as Esh.
  { intros v. unfold shown. rewrite EB, Z.lor_spec. change (Z.testbit 0x80 2) with false. by rewrite orb_false_r. }
  rewrite Esh in *. set (stb := regs d REG_STB) in *.
  destruct (rtc_reg_ok d1 REG_SECS F0 ltac:(unfold REG_SECS; lia)) as (d2 & E2 & R2 & F2). rewrite (bind_done _ _ _ _ _ E2).
  destruct (rtc_reg_ok d2 REG_MINS F2 ltac:(unfold REG_MINS; lia)) as (d3 & E3 & R3 & F3). rewrite (bind_done _ _ _ _ _ E3).
  destruct (rtc_reg_ok d3 REG_HRS F3 ltac:(unfold REG_HRS; lia)) as (d4 & E4 & R4 & F4). rewrite (bind_done _ _ _ _ _ E4).
  destruct (rtc_reg_ok d4 REG_DAY F4 ltac:(unfold REG_DAY; lia)) as (d5 & E5 & R5 & F5). rewrite (bind_done _ _ _ _ _ E5).
  destruct (rtc_reg_ok d5 REG_MON F5 ltac:(unfold REG_MON; lia)) as (d6 & E6 & R6 & F6). rewrite (bind_done _ _ _ _ _ E6).
  destruct (rtc_reg_ok d6 REG_YEAR F6 ltac:(unfold REG_YEAR; lia)) as (d7 & E7 & R7 & F7). rewrite (bind_done _ _ _ _ _ E7).
  cbv zeta. rewrite R6, R5, R4, R3, R2, S1, S2, S3, S4, S5, S6. rewrite !shown_back by (try apply Z.mod_pos_bound; lia).
  change 0x02 with (2 ^ 1). rewrite land_pow2_eqb, Sm by lia. cbn [negb andb].
  assert (regs d7 = regs d1) as Er by congruence. destruct (Z.eqb_spec century 0) as [Ec|Ec].
  - rewrite bind_ret. cbn [negb Z.eqb]. replace (2000 + year c mod 100) with (year c) by (clear -S7; Z.to_euclidean_division_equations; lia).
    assert (0 <= year c < 2 ^ 16) by (clear -S7; Z.to_euclidean_division_equations; lia). rewrite wrap_small, (seconds_ok t c Hi) by lia. by exists d7.
  - destruct S7 as (Hcr & S7 & Hy). destruct (rtc_reg_ok d7 century F7 ltac:(lia)) as (d8 & E8 & R8 & F8).
    rewrite (bind_done (v ← _; mret _) _ _ d8 (year c / 100)).
    2: { rewrite (bind_done _ _ _ _ _ E8), Er, S7, shown_back by (clear -Hy Vy; Z.to_euclidean_division_equations; lia). done. }
    assert (19 <= year c / 100) by (clear -Vy; Z.to_euclidean_division_equations; lia). rewrite (proj2 (Z.eqb_neq (year c / 100) 0)) by lia. cbn [negb].
    replace (year c / 100 * 100 + year c mod 100) with (year c) by (clear; Z.to_euclidean_division_equations; lia).
    rewrite wrap_small, (seconds_ok t c Hi) by lia. exists d8. split; [done|]. congruence.
Qed.

(** C30. The real time clock gives the seconds since 1970: once it stands still and
    shows a date in 24-hour mode, as binary numbers or as decimal digits,
    [rtc_gettime] returns the number of seconds that the calendar has counted up to
    that date.  Without a century register the year must be one from 2000 to 2099.  It returns with the clock still standing. *)
Theorem rtc_gettime_counts d :
  exists d1, rtc_freeze H d = Done d1 (regs d REG_STB) /\ frozen d1 /\
    forall t c, instant t c -> shows (regs d1) c ->
      exists d', rtc_gettime H century d = Done d' t /\ regs d' = regs d1 /\ frozen d'.
Proof.
  destruct (rtc_freeze_ok d) as (d1 & E & EB & F). exists d1. split_and!; [done|done|]. intros t c Hi Hs.
  destruct (rtc_gettime_frozen d d1 t c E EB F Hi Hs) as (d' & E' & R'). exists d'. split_and!; [done|done|]. unfold frozen. by rewrite R'.
Qed.

End chip.

(** ** A chip that keeps the laws *)

Record chip := mk_chip { c_sel : Z; c_regs : gmap Z Z }.

Definition chip_hw : hw chip :=
  mk_hw
    (fun p d => Done d (if p =? 0x71 then default 0 (c_regs d !! c_sel d) mod 256 else 0xFF))
    (fun p v d => Done (if p =? 0x70 then mk_chip v (c_regs d) else if p =? 0x71 then mk_chip (c_sel d) (<[c_sel d := v]> (c_regs d)) else d) tt)
    (inw dead) (outw dead) (inl dead) (outl dead) (ld8 dead) (st8 dead) (ld16 dead) (st16 dead)
    (ld32 dead) (st32 dead) (ld64 dead) (st64 dead) (rdtsc dead) (cpuid dead) (rdmsr dead) (wrmsr dead).

#[export] Instance chip_keeps : rtc_chip chip_hw.
Proof.
  refine {| regs d r := default 0 (c_regs d !! r) mod 256; selected := c_sel |}.
  - intros d r. by apply Z.mod_pos_bound.
  - intros d r _. by eexists.
  - intros d. by eexists.
  - intros d v Hs Hv. eexists. split_and!; [reflexivity|done|]. cbn. rewrite Hs, lookup_insert_eq. by apply Z.mod_small.
Defined.

(** A chip in a mode, set to a time of 2 January 1970. *)
Definition chip_at (stb hrs : Z) : chip :=
  mk_chip 0 (list_to_map [(REG_STB, stb); (REG_SECS, 5); (REG_MINS, 0); (REG_HRS, hrs); (REG_DAY, 2); (REG_MON, 1); (REG_YEAR, 0x70); (0x32, 0x19)]).

Lemma instant_iter n : instant (Z.of_nat n) (Nat.iter n tick epoch).
Proof. induction n as [|n IH]; [constructor|]. rewrite Nat2Z.inj_succ. by constructor. Qed.

Lemma rtc_gettime_counts_witness :
  exists d', rtc_gettime chip_hw 0x32 (chip_at 0x02 0) = Done d' 86405 /\ frozen d'.
Proof.
  destruct (rtc_gettime_counts chip_hw 0x32 (chip_at 0x02 0)) as (d1 & E1 & _ & Hall).
  assert (d1 = state_of (rtc_freeze chip_hw (chip_at 0x02 0)) (chip_at 0 0)) as -> by (rewrite E1; reflexivity).
  destruct (Hall 86405 (mk_cal 1970 1 2 0 0 5)) as (d' & E & _ & F).
  - assert (Nat.iter (Z.to_nat 86405) tick epoch = mk_cal 1970 1 2 0 0 5) as <- by (vm_compute; reflexivity).
    rewrite <- (Z2Nat.id 86405) at 1 by lia. apply instant_iter.
  - split; vm_compute; try reflexivity. split; [split; reflexivity|]. split; reflexivity.
  - exists d'. split; [exact E|exact F].
Defined.

(** In 12-hour mode with decimal digits the mark of the afternoon is taken for a
    digit: one o'clock in the afternoon counts as the hour 81. *)
Lemma rtc_afternoon_lost :
  result_of (rtc_gettime chip_hw 0x32 (chip_at 0x00 0x81)) = Some (86400 + 81 * 3600 + 5).
Proof. by vm_compute. Qed.

(** Noon and midnight of 12-hour mode with binary numbers are exchanged. *)
Lemma rtc_noon_is_midnight :
  let at_hour h := mk_chip 0 (<[REG_YEAR := 70]> (<[0x32 := 19]> (c_regs (chip_at 0x04 h)))) in
  result_of (rtc_gettime chip_hw 0x32 (at_hour 0x8C)) = Some (86400 + 5) /\
  result_of (rtc_gettime chip_hw 0x32 (at_hour 0x0C)) = Some (86400 + 12 * 3600 + 5).
Proof. by vm_compute. Qed.

(** ** The other clocks *)

(** Seconds and milliseconds of the time of day agree. *)
Lemma getmtimeofday_splits {D} (getms : M D Z) g d d' ms :
  getms d = Done d' ms -> 0 <= initsc g <= ms -> ms < 2 ^ 64 -> 0 <= initime g < 2 ^ 62 ->
  exists e r, getmtimeofday getms g d = Done d' (e, r) /\ gettimeofday getms g d = Done d' e /\
    0 <= r < 1000 /\ e * 1000 + r = initime g * 1000 + (ms - initsc g).
Proof.
  intros E H0 H1 H2. unfold getmtimeofday, gettimeofday. rewrite !(bind_done _ _ _ _ _ E). cbv zeta.
  rewrite (wrap_small 64 (ms - initsc g)) by lia. rewrite wrap_small by (Z.to_euclidean_division_equations; lia).
  eexists _, _. split_and!; [done|done|..]; Z.to_euclidean_division_equations; lia.
Qed.

Lemma get_tscms_floor frq tsc : 0 < frq -> 0 <= tsc <= UINT64_MAX / 1000 -> get_tscms frq tsc = tsc * 1000 / frq.
Proof.
  unfold get_tscms, UINT64_MAX. intros Hf Ht. rewrite (proj2 (Z.eqb_neq frq 0)), (proj2 (Z.ltb_ge _ tsc)) by lia.
  rewrite wrap_small; [done|]. Z.to_euclidean_division_equations. lia.
Qed.

(** At 3 GHz the clock jumps back by more than half a second after 71 days. *)
Lemma tscms_goes_back : let t := UINT64_MAX / 1000 in get_tscms 3000000000 (t + 1) < get_tscms 3000000000 t - 500.
Proof. by vm_compute. Qed.

(** Family and model are read as four bits each, so no processor passes the test. *)
Lemma tsc_never_via_cpuid {D} (H : hw D) d d' b : tsc_cangetfrqviacpuid H d = Done d' b -> b = false.
Proof.
  unfold tsc_cangetfrqviacpuid. intros (d1 & [[[eax ebx] ecx] edx] & _ & [= _ <-])%bind_inv.
  assert (forall k, 0 <= k -> 0 <= Z.shiftr (Z.land eax (Z.shiftl 15 k)) k < 16) as Hr.
  { intros k Hk. rewrite Z.shiftr_land, Z.shiftr_shiftl_l, Z.sub_diag by lia. change (Z.shiftl 15 0) with (Z.ones 4).
    rewrite Z.land_ones by lia. by apply Z.mod_pos_bound. }
  pose proof (Hr 8 ltac:(lia)) as H8. pose proof (Hr 4 ltac:(lia)) as H4. change (Z.shiftl 15 8) with 0xF00 in H8. change (Z.shiftl 15 4) with 0xF0 in H4.
  rewrite !wrap_small by lia. rewrite (proj2 (Z.leb_gt 0x5E _)) by lia. rewrite andb_false_r. apply Z.eqb_neq. lia.
Qed.

(** So the branch that leaves the clock of the kernel unset is never taken. *)
Lemma init_tsc_sets_clock {D} (H : hw D) irq_disable d d' f b : init_tsc H irq_disable d = Done d' (f, b) -> b = true.
Proof.
  unfold init_tsc. intros (d1 & can & E & E1)%bind_inv. rewrite (tsc_never_via_cpuid H _ _ _ E) in E1.
  by apply bind_inv in E1 as (d2 & f' & _ & [= _ _ <-]).
Qed.

End Clock.
