(* ===== verification/Descriptors.v ===== *)
(** Segment and interrupt descriptors ([src/arch/x86/gdt.c], [load_idt.c]): the
    tables are the bytes the processor reads, and the theorems read them the way it
    does. *)
From S2P Require Import Prelude.

Module Descriptors.

Definition gdt_fields : list nat := [2; 2; 1; 1; 1; 1]%nat.
Definition tss_fields : list nat := [2; 2; 1; 1; 1; 1; 4; 4]%nat.
Definition idt_fields : list nat := [2; 2; 1; 1; 2; 4; 4]%nat.

(** [n] bytes of an array are overwritten; [None]: a store outside it. *)
Definition put_at (a : list Z) (off : nat) (bs : list Z) : option (list Z) :=
  if (off + length bs <=? length a)%nat then Some (splice a bs off) else None.

(** [limlow], [base_low], [base_mid], [acc], [gran], [base_high] of a descriptor. *)
Definition gdt_entry (base lim0 acc gran : Z) : list Z :=
  let lim := if 65535 <? lim0 then Z.shiftr lim0 12 else lim0 in
  [Z.land lim 0xFFFF; Z.land base 0xFFFF; Z.land (Z.shiftr base 16) 0xFF; acc;
   Z.lor (Z.land gran 0xF0) (Z.land (Z.shiftr lim 16) 0x0F); Z.land (Z.shiftr base 24) 0xFF].

Definition set_gdtent (gdt : list Z) (n : nat) (base lim acc gran : Z) : option (list Z) :=
  put_at gdt (8 * n) (enc_fields gdt_fields (gdt_entry base lim acc gran)).

Definition set_gdt_tss (gdt : list Z) (n : nat) (base lim acc : Z) : option (list Z) :=
  put_at gdt (8 * n) (enc_fields tss_fields
    [Z.land lim 0xFFFF; Z.land base 0xFFFF; Z.land (Z.shiftr base 16) 0xFF; acc; Z.land (Z.shiftr lim 16) 0x0F;
     Z.land (Z.shiftr base 24) 0xFF; Z.land (Z.shiftr base 32) 0xFFFFFFFF; 0]).

Definition idt_regintr (idt : list Z) (vector isr flags ist : Z) : option (list Z) :=
  put_at idt (16 * Z.to_nat vector) (enc_fields idt_fields
    [Z.land isr 0xFFFF; 0x08; u8 ist; flags; Z.land (Z.shiftr isr 16) 0xFFFF; Z.land (Z.shiftr isr 32) 0xFFFFFFFF; 0]).

Definition NULLSS : nat := 0.
Definition KCSS : nat := 1.
Definition KDSS : nat := 2.
Definition UCSS : nat := 3.
Definition UDSS : nat := 4.
Definition TSS : nat := 5.

Definition TSS_SIZE : Z := 104.

(** The table [gdt_init] fills, with the task state segment at [tss]. *)
Definition gdt_init (gdt0 : list Z) (tss : Z) : option (list Z) :=
  g ← set_gdtent gdt0 NULLSS 0 0 0 0;
  g ← set_gdtent g KCSS 0 0xFFFFFFFF 0x9A 0x20;
  g ← set_gdtent g KDSS 0 0xFFFFFFFF 0x92 0x00;
  g ← set_gdtent g UCSS 0 0xFFFFFFFF 0xFA 0x20;
  g ← set_gdtent g UDSS 0 0xFFFFFFFF 0xF2 0x00;
  set_gdt_tss g TSS tss (TSS_SIZE - 1) 0x89.

(** The task state segment: the stacks of the kernel, of interrupts and of exceptions,
    by the addresses of their arrays. *)
Definition STACK_SIZE : Z := 65536.
Definition tss_widths : list nat := [4; 8; 8; 8; 8; 8; 8; 8; 8; 8; 8; 8; 8; 2; 2]%nat.
Definition tss_init (kern_stack intr_stack exct_stack : Z) : list Z :=
  enc_fields tss_widths [0; u64 (kern_stack + STACK_SIZE); 0; 0; 0; u64 (intr_stack + STACK_SIZE); u64 (exct_stack + STACK_SIZE);
    0; 0; 0; 0; 0; 0; 0; TSS_SIZE].
Definition reset_rsp (addr : Z) (tss : list Z) : option (list Z) := put_at tss 4 (le 8 addr).

Definition vectors : list Z := [0; 1; 2; 3; 4; 5; 6; 7; 8; 9; 10; 11; 12; 13; 14; 16; 17; 18; 19].

(** The handlers of the exceptions; those without one stay as they are. *)
Fixpoint idt_loop (table : Z -> Z) (vs : list Z) (idt : list Z) : option (list Z) :=
  match vs with
  | [] => Some idt
  | v :: r => i ← (if table v =? 0 then Some idt else idt_regintr idt v (table v) 0x8E 2); idt_loop table r i
  end.

Definition idt_init (table : Z -> Z) (idt : list Z) : option (list Z) := idt_loop table vectors idt.

(** ** What the processor reads *)

Definition field (bs : list Z) (off n : nat) : Z := of_le (take n (drop off bs)).

Definition seg_base (g : list Z) (n : nat) : Z :=
  field g (8 * n + 2) 3 + field g (8 * n + 7) 1 * 2 ^ 24.
Definition seg_limit (g : list Z) (n : nat) : Z :=
  field g (8 * n) 2 + field g (8 * n + 6) 1 mod 16 * 2 ^ 16.
Definition seg_access (g : list Z) (n : nat) : Z := field g (8 * n + 5) 1.
Definition seg_flags (g : list Z) (n : nat) : Z := field g (8 * n + 6) 1 / 16.
Definition sys_base (g : list Z) (n : nat) : Z := seg_base g n + field g (8 * n + 8) 4 * 2 ^ 32.

Definition gate_addr (t : list Z) (v : Z) : Z :=
  let o := (16 * Z.to_nat v)%nat in field t o 2 + field t (o + 6) 2 * 2 ^ 16 + field t (o + 8) 4 * 2 ^ 32.
Definition gate_selector (t : list Z) (v : Z) : Z := field t (16 * Z.to_nat v + 2) 2.
Definition gate_ist (t : list Z) (v : Z) : Z := field t (16 * Z.to_nat v + 4) 1 mod 8.
Definition gate_type (t : list Z) (v : Z) : Z := field t (16 * Z.to_nat v + 5) 1.

(** ** Fields of bytes *)

Lemma of_le_app a b : of_le (a ++ b) = of_le a + 256 ^ Z.of_nat (length a) * of_le b.
Proof.
  induction a as [|x a IH]; cbn [app of_le length]; [lia|]. rewrite IH, Nat2Z.inj_succ, Z.pow_succ_r by lia. lia.
Qed.

Lemma field_first n x r : fits n x -> field (le n x ++ r) 0 n = x.
Proof. intros Hx. unfold field. rewrite drop_0, take_app_length' by (symmetry; apply length_le). by apply of_le_le. Qed.

Lemma field_skip n x r k m : field (le n x ++ r) (n + k) m = field r k m.
Proof.
  unfold field. rewrite drop_app_ge by (rewrite length_le; lia). rewrite length_le. by replace (n + k - n)%nat with k by lia.
Qed.

Lemma field_split bs k n m : (k + n <= length bs)%nat -> field bs k (n + m) = field bs k n + 256 ^ Z.of_nat n * field bs (k + n) m.
Proof.
  intros Hk. unfold field. rewrite <- (take_take_drop (drop k bs) n m), drop_drop, of_le_app. f_equal. f_equal. f_equal.
  rewrite length_take, length_drop. lia.
Qed.

Lemma put_at_in a off bs a' k n : put_at a off bs = Some a' -> (k + n <= length bs)%nat -> field a' (off + k) n = field bs k n.
Proof.
  unfold put_at. destruct (Nat.leb_spec (off + length bs) (length a)); [|done]. intros [= <-] Hk. unfold field.
  unfold splice. rewrite drop_app_ge, length_take by (rewrite length_take; lia). replace (off + k - off `min` length a)%nat with k by lia.
  by rewrite drop_app_le, take_app_le by (rewrite ?length_drop; lia).
Qed.

Lemma put_at_out a off bs a' o n : put_at a off bs = Some a' -> (o + n <= off \/ off + length bs <= o)%nat -> field a' o n = field a o n.
Proof.
  unfold put_at. destruct (Nat.leb_spec (off + length bs) (length a)); [|done]. intros [= <-] [Ho|Ho]; unfold field.
  - by rewrite splice_before by lia.
  - by rewrite splice_after by lia.
Qed.

Lemma put_at_length a off bs a' : put_at a off bs = Some a' -> length a' = length a.
Proof.
  unfold put_at. destruct (Nat.leb_spec (off + length bs) (length a)); [|done]. intros [= <-]. rewrite length_splice by lia. lia.
Qed.

(** Field [k] of encoded fields. *)
Lemma field_enc ws vs k w v : Forall2 fits ws vs -> ws !! k = Some w -> vs !! k = Some v ->
  field (enc_fields ws vs) (sum_list (take k ws)) w = v.
Proof.
  intros H. revert k. induction H as [|w' v' ws vs Hf _ IH]; intros [|k] Hw Hv; try done; cbn [enc_fields take sum_list].
  - injection Hw as ->. injection Hv as ->. by apply field_first.
  - rewrite field_skip. by apply IH.
Qed.

(** A descriptor in a table: each field of it, at the place the processor looks. *)
Lemma put_fields a off ws vs a' k w v : put_at a off (enc_fields ws vs) = Some a' -> Forall2 fits ws vs ->
  ws !! k = Some w -> vs !! k = Some v -> field a' (off + sum_list (take k ws)) w = v.
Proof.
  intros Hp Hf Hw Hv. assert (length ws = length vs) as Hl by (by eapply Forall2_length).
  rewrite (put_at_in _ _ _ _ _ _ Hp); [by apply field_enc|]. rewrite length_enc_fields by done.
  apply take_drop_middle in Hw as Hw'. rewrite <- Hw' at 2. rewrite sum_list_with_app. cbn. lia.
Qed.

(** The first six fields of a descriptor just stored. *)
Ltac field_fact Et Hfit k F :=
  pose proof (put_fields _ _ _ _ _ k _ _ Et Hfit eq_refl eq_refl) as F;
  cbn [take sum_list sum_list_with gdt_fields tss_fields idt_fields id Nat.add] in F.
Tactic Notation "field_facts" constr(Et) constr(Hfit) "as" ident(F0) ident(F1) ident(F2) ident(F3) ident(F4) ident(F5) :=
  let one k F := field_fact Et Hfit k F in
  one 0%nat F0; one 1%nat F1; one 2%nat F2; one 3%nat F3; one 4%nat F4; one 5%nat F5; rewrite Nat.add_0_r in F0.

Lemma mask_fits z k n : 0 <= k -> k <= 8 * Z.of_nat n -> fits n (Z.land z (Z.ones k)).
Proof.
  intros Hk Hn. unfold fits. rewrite Z.land_ones by done. change 256 with (2 ^ 8). rewrite <- Z.pow_mul_r by lia.
  pose proof (Z.mod_pos_bound z (2 ^ k) ltac:(by apply Z.pow_pos_nonneg)). pose proof (Z.pow_le_mono_r 2 k (8 * Z.of_nat n) ltac:(lia) Hn). lia.
Qed.

(** ** Interrupt gates *)

Record gate (t : list Z) (v addr ist type : Z) : Prop := {
  ga_addr : gate_addr t v = addr;
  ga_selector : gate_selector t v = 0x08;
  ga_ist : gate_ist t v = ist;
  ga_type : gate_type t v = type
}.

(** The bytes of every gate but the one of [v]. *)
Definition other_gates (t t' : list Z) (v : Z) : Prop :=
  forall w o n, 0 <= w -> w <> v -> (o + n <= 16)%nat -> field t' (16 * Z.to_nat w + o) n = field t (16 * Z.to_nat w + o) n.

Lemma idt_regintr_ok t v isr flags ist :
  length t = 4096%nat -> 0 <= v < 256 -> 0 <= isr < 2 ^ 64 -> 0 <= flags < 256 -> 0 <= ist < 8 ->
  exists t', idt_regintr t v isr flags ist = Some t' /\ length t' = 4096%nat /\ gate t' v isr ist flags /\ other_gates t t' v.
Proof.
  intros Hl Hv Hi Hf Hs. unfold idt_regintr. set (vs := [_; _; _; _; _; _; _]). set (o := (16 * Z.to_nat v)%nat).
  assert (Forall2 fits idt_fields vs) as Hfit.
  { unfold vs. rewrite wrap_small by lia. repeat (apply List.Forall2_cons); try apply List.Forall2_nil;
      [apply (mask_fits isr 16 2)|..|apply (mask_fits (Z.shiftr isr 16) 16 2)|apply (mask_fits (Z.shiftr isr 32) 32 4)|]; unfold fits; lia. }
  assert (length (enc_fields idt_fields vs) = 16%nat) as Hlen by (by apply length_enc_fields).
  assert (exists t', put_at t o (enc_fields idt_fields vs) = Some t') as [t' Et].
  { unfold put_at. rewrite (proj2 (Nat.leb_le _ _)); [by eexists|]. unfold o. lia. }
  exists t'. field_facts Et Hfit as F0 F1 F2 F3 F4 F5.
  split_and!; [done|by rewrite (put_at_length _ _ _ _ Et)| |].
  - split; unfold gate_addr, gate_selector, gate_ist, gate_type; fold o; cbv zeta.
    + rewrite F0, F4, F5. change 0xFFFF with (Z.ones 16). change 0xFFFFFFFF with (Z.ones 32).
      rewrite !Z.land_ones, !Z.shiftr_div_pow2 by lia. Z.to_euclidean_division_equations. lia.
    + exact F1.
    + rewrite F2, wrap_small by lia. by apply Z.mod_small.
    + exact F3.
  - intros w k n Hw Hne Hk. apply (put_at_out _ _ _ _ _ _ Et). unfold o. rewrite Hlen. lia.
Qed.

Lemma idt_loop_ok table vs : (forall v, 0 <= table v < 2 ^ 64) -> NoDup vs -> Forall (fun v => 0 <= v < 256) vs ->
  forall t, length t = 4096%nat ->
  exists t', idt_loop table vs t = Some t' /\ length t' = 4096%nat /\
    (forall v, v ∈ vs -> table v <> 0 -> gate t' v (table v) 2 0x8E) /\
    (forall w o n, 0 <= w -> (w ∉ vs \/ table w = 0) -> (o + n <= 16)%nat -> field t' (16 * Z.to_nat w + o) n = field t (16 * Z.to_nat w + o) n).
Proof.
  intros Ht. induction vs as [|v vs IH]; intros Hnd Hr t Hl; cbn [idt_loop].
  { exists t. split_and!; [done|done|by intros v ?%elem_of_nil|done]. }
  apply NoDup_cons in Hnd as [Hnv Hnd]. apply Forall_cons in Hr as [Hv Hr]. destruct (Z.eqb_spec (table v) 0) as [E|E]; cbn [mbind option_bind].
  - destruct (IH Hnd Hr t Hl) as (t' & E' & Hl' & Hg & Ho). exists t'. split_and!; [done|done| |].
    + intros w [->|Hw]%elem_of_cons Hn; [done|by apply Hg].
    + intros w o n Hw Hc Hk. apply Ho; [done| |done]. rewrite elem_of_cons in Hc. tauto.
  - destruct (idt_regintr_ok t v (table v) 0x8E 2 Hl Hv (Ht v) ltac:(lia) ltac:(lia)) as (t1 & E1 & Hl1 & G1 & O1). rewrite E1. cbn [mbind option_bind].
    destruct (IH Hnd Hr t1 Hl1) as (t' & E' & Hl' & Hg & Ho). exists t'. split_and!; [done|done| |].
    + intros w [->|Hw]%elem_of_cons Hn; [|by apply Hg]. clear Hg. destruct G1 as [A1 A2 A3 A4].
      assert (forall o n, (o + n <= 16)%nat -> field t' (16 * Z.to_nat v + o) n = field t1 (16 * Z.to_nat v + o) n) as Hk by (intros; apply Ho; [lia|by left|done]).
      split; [rewrite <- A1|rewrite <- A2|rewrite <- A3|rewrite <- A4]; unfold gate_addr, gate_selector, gate_ist, gate_type; cbv zeta;
        [rewrite <- (Nat.add_0_r (16 * Z.to_nat v)) at 1 4|..]; rewrite !Hk by lia; done.
    + intros w o n Hw Hc Hk. rewrite Ho; [|done| |done].
      * apply O1; [done| |done]. intros ->. destruct Hc as [Hc|Hc]; [apply Hc; by left|done].
      * rewrite elem_of_cons in Hc. tauto.
Qed.

(** After [idt_init] every exception that has a handler reaches it, on the stack set
    aside for exceptions, and no other gate has changed. *)
Theorem idt_init_routes table t : (forall v, 0 <= table v < 2 ^ 64) -> length t = 4096%nat ->
  exists t', idt_init table t = Some t' /\
    (forall v, v ∈ vectors -> table v <> 0 -> gate t' v (table v) 2 0x8E) /\
    (forall w o n, 0 <= w -> w ∉ vectors \/ table w = 0 -> (o + n <= 16)%nat -> field t' (16 * Z.to_nat w + o) n = field t (16 * Z.to_nat w + o) n).
Proof.
  intros Ht Hl. destruct (idt_loop_ok table vectors Ht) with (t := t) as (t' & E & _ & H); [| |done|by exists t'].
  - apply (bool_decide_unpack _). by vm_compute.
  - apply (bool_decide_unpack _). by vm_compute.
Qed.

Lemma idt_init_routes_witness : exists t', idt_init (fun v => if v =? 14 then 0xFFFFFFFF80001234 else 0) (replicate 4096 0) = Some t' /\ gate_addr t' 14 = 0xFFFFFFFF80001234.
Proof.
  destruct (idt_init_routes (fun v => if v =? 14 then 0xFFFFFFFF80001234 else 0) (replicate 4096 0)) as (t' & E & Hg & _).
  - intros v. destruct (v =? 14); lia.
  - apply length_replicate.
  - exists t'. split; [exact E|]. apply Hg; [apply (bool_decide_unpack _); by vm_compute|done].
Defined.

(** ** Segments *)

Record descr (g : list Z) (n : nat) (base limit acc flags : Z) : Prop := {
  de_base : seg_base g n = base;
  de_limit : seg_limit g n = limit;
  de_access : seg_access g n = acc;
  de_flags : seg_flags g n = flags
}.

Lemma nibbles a b : 0 <= a < 256 -> 0 <= b < 16 ->
  0 <= Z.lor (Z.land a 0xF0) b < 256 /\ Z.lor (Z.land a 0xF0) b / 16 = a / 16 /\ Z.lor (Z.land a 0xF0) b mod 16 = b.
Proof.
  intros Ha Hb. assert (Forall (fun a => Forall (fun b => 0 <= Z.lor (Z.land a 0xF0) b < 256 /\
    Z.lor (Z.land a 0xF0) b / 16 = a / 16 /\ Z.lor (Z.land a 0xF0) b mod 16 = b) (seqZ 0 16)) (seqZ 0 256)) as Hall.
  { apply (bool_decide_unpack _). by vm_compute. }
  rewrite Forall_forall in Hall. specialize (Hall a ltac:(apply elem_of_seqZ; lia)). rewrite Forall_forall in Hall. apply Hall, elem_of_seqZ. lia.
Qed.

(** The limit the processor sees: a large one is stored in units of 4096 bytes. *)
Definition stored_limit (lim : Z) : Z := if 65535 <? lim then lim / 4096 else lim.

Definition other_bytes (g g' : list Z) (n m : nat) : Prop :=
  forall o k, (o + k <= 8 * n \/ 8 * m <= o)%nat -> field g' o k = field g o k.

Lemma descr_kept g g' n m k base limit acc flags : other_bytes g g' n m -> (k < n \/ m <= k)%nat -> descr g k base limit acc flags -> descr g' k base limit acc flags.
Proof.
  intros Ho Hk [D1 D2 D3 D4]. split; [rewrite <- D1|rewrite <- D2|rewrite <- D3|rewrite <- D4];
    unfold seg_base, seg_limit, seg_access, seg_flags; rewrite ?Ho by lia; done.
Qed.

Lemma set_gdtent_ok g n base lim acc gran :
  (8 * n + 8 <= length g)%nat -> 0 <= base < 2 ^ 32 -> 0 <= lim < 2 ^ 32 -> 0 <= acc < 256 -> 0 <= gran < 256 ->
  exists g', set_gdtent g n base lim acc gran = Some g' /\ length g' = length g /\
    descr g' n base (stored_limit lim) acc (gran / 16) /\ other_bytes g g' n (S n).
Proof.
  intros Hl Hb Hlim Ha Hg. unfold set_gdtent, gdt_entry. set (l := if 65535 <? lim then _ else _).
  assert (l = stored_limit lim) as El by (unfold l, stored_limit; split_if; [by rewrite Z.shiftr_div_pow2|done]).
  assert (0 <= l < 2 ^ 20) as Hll. { rewrite El. unfold stored_limit. destruct (Z.ltb_spec 65535 lim); [Z.to_euclidean_division_equations|]; lia. }
  assert (Z.land (Z.shiftr l 16) 0x0F = l / 2 ^ 16) as En.
  { change 0x0F with (Z.ones 4). rewrite Z.land_ones, Z.shiftr_div_pow2 by lia. apply Z.mod_small. Z.to_euclidean_division_equations. lia. }
  destruct (nibbles gran (Z.land (Z.shiftr l 16) 0x0F) Hg) as (N1 & N2 & N3); [rewrite En; Z.to_euclidean_division_equations; lia|].
  set (vs := [_; _; _; _; _; _]). assert (Forall2 fits gdt_fields vs) as Hfit.
  { unfold vs. repeat (apply List.Forall2_cons); try apply List.Forall2_nil;
      [apply (mask_fits l 16 2)|apply (mask_fits base 16 2)|apply (mask_fits (Z.shiftr base 16) 8 1)| | |apply (mask_fits (Z.shiftr base 24) 8 1)]; unfold fits; lia. }
  assert (length (enc_fields gdt_fields vs) = 8%nat) as Hlen by (by apply length_enc_fields).
  assert (exists g', put_at g (8 * n) (enc_fields gdt_fields vs) = Some g') as [g' Et].
  { unfold put_at. rewrite (proj2 (Nat.leb_le _ _)); [by eexists|]. lia. }
  exists g'. field_facts Et Hfit as F0 F1 F2 F3 F4 F5.
  split_and!; [done|by rewrite (put_at_length _ _ _ _ Et)| |].
  - split; unfold seg_base, seg_limit, seg_access, seg_flags.
    + change (field g' (8 * n + 2) 3) with (field g' (8 * n + 2) (2 + 1)). rewrite (field_split g' (8 * n + 2) 2 1) by (rewrite (put_at_length _ _ _ _ Et); lia). rewrite <- Nat.add_assoc. cbn [Nat.add]. rewrite F1, F2, F5.
      change 0xFFFF with (Z.ones 16). change 0xFF with (Z.ones 8). rewrite !Z.land_ones, !Z.shiftr_div_pow2 by lia. clear -Hb. Z.to_euclidean_division_equations. lia.
    + rewrite F0, F4, N3, En, <- El. change 0xFFFF with (Z.ones 16). rewrite Z.land_ones by lia. clear -Hll. Z.to_euclidean_division_equations. lia.
    + exact F3.
    + by rewrite F4, N2.
  - intros o k Ho. apply (put_at_out _ _ _ _ _ _ Et). rewrite Hlen. lia.
Qed.

Lemma set_gdt_tss_ok g n base lim acc :
  (8 * n + 16 <= length g)%nat -> 0 <= base < 2 ^ 64 -> 0 <= lim < 2 ^ 16 -> 0 <= acc < 256 ->
  exists g', set_gdt_tss g n base lim acc = Some g' /\ sys_base g' n = base /\ seg_limit g' n = lim /\ seg_access g' n = acc /\ other_bytes g g' n (S (S n)).
Proof.
  intros Hl Hb Hlim Ha. unfold set_gdt_tss. set (vs := [_; _; _; _; _; _; _; _]).
  assert (Z.land (Z.shiftr lim 16) 0x0F = 0) as En by (rewrite Z.shiftr_div_pow2, Z.div_small by lia; done).
  assert (Forall2 fits tss_fields vs) as Hfit.
  { unfold vs. rewrite En. repeat (apply List.Forall2_cons); try apply List.Forall2_nil;
      [apply (mask_fits lim 16 2)|apply (mask_fits base 16 2)|apply (mask_fits (Z.shiftr base 16) 8 1)| | |apply (mask_fits (Z.shiftr base 24) 8 1)|
       apply (mask_fits (Z.shiftr base 32) 32 4)|]; unfold fits; lia. }
  assert (length (enc_fields tss_fields vs) = 16%nat) as Hlen by (by apply length_enc_fields).
  assert (exists g', put_at g (8 * n) (enc_fields tss_fields vs) = Some g') as [g' Et].
  { unfold put_at. rewrite (proj2 (Nat.leb_le _ _)); [by eexists|]. lia. }
  exists g'. field_facts Et Hfit as F0 F1 F2 F3 F4 F5. field_fact Et Hfit 6%nat F6. split_and!; [done|..].
  - unfold sys_base, seg_base. change (field g' (8 * n + 2) 3) with (field g' (8 * n + 2) (2 + 1)).
    rewrite (field_split g' (8 * n + 2) 2 1) by (rewrite (put_at_length _ _ _ _ Et); lia). rewrite <- Nat.add_assoc. cbn [Nat.add]. rewrite F1, F2, F5, F6.
    change 0xFFFF with (Z.ones 16). change 0xFFFFFFFF with (Z.ones 32). change 0xFF with (Z.ones 8). rewrite !Z.land_ones, !Z.shiftr_div_pow2 by lia. clear -Hb. Z.to_euclidean_division_equations. lia.
  - unfold seg_limit. rewrite F0, F4, En. change 0xFFFF with (Z.ones 16). rewrite Z.land_ones, Z.mod_small by lia. change (0 mod 16) with 0. lia.
  - exact F3.
  - intros o k Ho. apply (put_at_out _ _ _ _ _ _ Et). rewrite Hlen. lia.
Qed.

(** The table of the kernel as the processor reads it: code and data segments of the
    kernel and of programs, with their privilege in the access byte, 64-bit code, and
    the task state segment at its address. *)
Theorem gdt_init_decodes g0 tss : length g0 = 64%nat -> 0 <= tss < 2 ^ 64 ->
  exists g, gdt_init g0 tss = Some g /\
    descr g KCSS 0 0xFFFFF 0x9A 2 /\ descr g KDSS 0 0xFFFFF 0x92 0 /\ descr g UCSS 0 0xFFFFF 0xFA 2 /\ descr g UDSS 0 0xFFFFF 0xF2 0 /\
    sys_base g TSS = tss /\ seg_limit g TSS = TSS_SIZE - 1 /\ seg_access g TSS = 0x89.
Proof.
  intros Hl Ht. unfold gdt_init, NULLSS, KCSS, KDSS, UCSS, UDSS, TSS.
  destruct (set_gdtent_ok g0 0 0 0 0 0) as (g1 & -> & L1 & _ & O1); try lia. cbn [mbind option_bind].
  destruct (set_gdtent_ok g1 1 0 0xFFFFFFFF 0x9A 0x20) as (g2 & -> & L2 & D2 & O2); try lia. cbn [mbind option_bind].
  destruct (set_gdtent_ok g2 2 0 0xFFFFFFFF 0x92 0x00) as (g3 & -> & L3 & D3 & O3); try lia. cbn [mbind option_bind].
  destruct (set_gdtent_ok g3 3 0 0xFFFFFFFF 0xFA 0x20) as (g4 & -> & L4 & D4 & O4); try lia. cbn [mbind option_bind].
  destruct (set_gdtent_ok g4 4 0 0xFFFFFFFF 0xF2 0x00) as (g5 & -> & L5 & D5 & O5); try lia. cbn [mbind option_bind].
  destruct (set_gdt_tss_ok g5 5 tss (TSS_SIZE - 1) 0x89) as (g6 & -> & B6 & M6 & A6 & O6); try (unfold TSS_SIZE; lia). exists g6.
  assert (forall k g g' n m, other_bytes g g' n m -> (k < n)%nat -> forall b l a f, descr g k b l a f -> descr g' k b l a f) as Hk.
  { intros k g g' n m Ho Hk b l a f. apply (descr_kept g g' n m); [done|by left]. }
  split_and!; [done|..]; try done.
  - apply (Hk _ _ _ _ _ O6), (Hk _ _ _ _ _ O5), (Hk _ _ _ _ _ O4), (Hk _ _ _ _ _ O3), D2; lia.
  - apply (Hk _ _ _ _ _ O6), (Hk _ _ _ _ _ O5), (Hk _ _ _ _ _ O4), D3; lia.
  - apply (Hk _ _ _ _ _ O6), (Hk _ _ _ _ _ O5), D4; lia.
  - apply (Hk _ _ _ _ _ O6), D5; lia.
Qed.

(** The stacks as the processor finds them: for a change of privilege at byte 4, for
    interrupts with stack [i] at byte 36 + 8 (i - 1); and a new stack for the kernel
    changes no other. *)
Lemma tss_stacks ks ir es addr : 0 <= ks < 2 ^ 64 - STACK_SIZE -> 0 <= ir < 2 ^ 64 - STACK_SIZE -> 0 <= es < 2 ^ 64 - STACK_SIZE -> 0 <= addr < 2 ^ 64 ->
  let t := tss_init ks ir es in
  field t 4 8 = ks + STACK_SIZE /\ field t 36 8 = ir + STACK_SIZE /\ field t 44 8 = es + STACK_SIZE /\
  exists t', reset_rsp addr t = Some t' /\ field t' 4 8 = addr /\ forall o n, (o + n <= 4 \/ 12 <= o)%nat -> field t' o n = field t o n.
Proof.
  intros Hk Hi He Ha t. unfold STACK_SIZE in *. assert (forall x, 0 <= x < 2 ^ 64 - 65536 -> u64 (x + 65536) = x + 65536) as Hu by (intros x Hx; apply wrap_small; lia).
  assert (field t 4 8 = ks + 65536 /\ field t 36 8 = ir + 65536 /\ field t 44 8 = es + 65536) as (H1 & H2 & H3).
  { unfold t, tss_init, STACK_SIZE. rewrite !Hu by done. split_and!; apply (of_le_le 8); lia. }
  split_and!; [done..|]. exists (splice t (le 8 addr) 4). assert (reset_rsp addr t = Some (splice t (le 8 addr) 4)) as E by reflexivity.
  split_and!; [done|..].
  - etransitivity; [apply (put_at_in _ _ _ _ 0 8 E); rewrite length_le; lia|]. by apply (of_le_le 8).
  - intros o n Hon. apply (put_at_out _ _ _ _ _ _ E). rewrite length_le. lia.
Qed.

End Descriptors.
