(* ===== verification/Apic.v ===== *)
(** Interrupt controllers ([src/drivers/apic/init.c], [src/arch/x86/irq.c]): the
    interrupt controllers named in the firmware's table, and the routing of
    interrupt lines to vectors.

    Model: the globals of the driver and the state of the hardware; the table is the
    bytes in memory, [None] where the code reads behind them. *)
From S2P Require Import Prelude Machine Descriptors.

Module Apic.
Import Machine Descriptors.

Definition HHDM_START : Z := 0xFFFF800000000000.
Definition MAX_IOAPICS : nat := 8.
Definition MAX_ISOS : nat := 32.
Definition LAPIC_SPURIOUS_VEC : Z := 0xF0.
Definition LAPIC_ID_REG : Z := 0x20.
Definition LAPIC_TPR_REG : Z := 0x80.
Definition LAPIC_EOI_REG : Z := 0xB0.
Definition LAPIC_SVR_REG : Z := 0xF0.
Definition LAPIC_LVT_TIMER : Z := 0x320.
Definition LAPIC_LVT_LINT0 : Z := 0x350.
Definition LAPIC_LVT_LINT1 : Z := 0x360.
Definition LAPIC_LVT_ERROR : Z := 0x370.
Definition IOAPIC_REGSEL : Z := 0x00.
Definition IOAPIC_IOWIN : Z := 0x10.
Definition IOAPIC_VER : Z := 0x01.
Definition IOAPIC_REDTBL (n : Z) : Z := u32 (0x10 + 2 * n).
Definition IA32_APIC_BASE_MSR : Z := 0x1B.
Definition IA32_APIC_BASE_MSR_ENABLE : Z := 0x800.

Record ioapic_info_t := mk_ioapic { io_id : Z; gsi_base : Z; max_redirection_entries : Z; phys_addr : Z; virt_addr : Z }.
Record iso_t := mk_iso { i_bus : Z; i_source : Z; i_gsi : Z; i_flags : Z }.

Record apic := mk_apic {
  lapic_phys_addr : Z;
  lapic_virt_addr : Z;
  bsp_lapic_id : Z;
  ioapics : list ioapic_info_t;
  isos : list iso_t;
  idt : list Z
}.

Definition set_phys (p : Z) (g : apic) : apic := mk_apic p (lapic_virt_addr g) (bsp_lapic_id g) (ioapics g) (isos g) (idt g).
Definition set_virt (p : Z) (g : apic) : apic := mk_apic (lapic_phys_addr g) p (bsp_lapic_id g) (ioapics g) (isos g) (idt g).
Definition set_bsp (i : Z) (g : apic) : apic := mk_apic (lapic_phys_addr g) (lapic_virt_addr g) i (ioapics g) (isos g) (idt g).
Definition set_ioapics (l : list ioapic_info_t) (g : apic) : apic := mk_apic (lapic_phys_addr g) (lapic_virt_addr g) (bsp_lapic_id g) l (isos g) (idt g).
Definition set_isos (l : list iso_t) (g : apic) : apic := mk_apic (lapic_phys_addr g) (lapic_virt_addr g) (bsp_lapic_id g) (ioapics g) l (idt g).
Definition set_idt (t : list Z) (g : apic) : apic := mk_apic (lapic_phys_addr g) (lapic_virt_addr g) (bsp_lapic_id g) (ioapics g) (isos g) t.

(** ** The table *)

(** [n] bytes at [off] as a number. *)
Definition rd (n : nat) (bs : list Z) (off : Z) : option Z :=
  if (0 <=? off) && (off + Z.of_nat n <=? Z.of_nat (length bs)) then Some (of_le (take n (drop (Z.to_nat off) bs))) else None.

Definition parse_entry (madt : list Z) (ptr type : Z) (g : apic) : option apic :=
  if type =? 1 then
    if (length (ioapics g) <? MAX_IOAPICS)%nat then
      id ← rd 1 madt (ptr + 2);
      base ← rd 4 madt (ptr + 8);
      addr ← rd 4 madt (ptr + 4);
      Some (set_ioapics (ioapics g ++ [mk_ioapic id base 0 addr 0]) g)
    else Some g
  else if type =? 2 then
    if (length (isos g) <? MAX_ISOS)%nat then
      bus ← rd 1 madt (ptr + 2);
      source ← rd 1 madt (ptr + 3);
      gsi ← rd 4 madt (ptr + 4);
      flags ← rd 2 madt (ptr + 8);
      Some (set_isos (isos g ++ [mk_iso bus source gsi flags]) g)
    else Some g
  else if type =? 5 then
    addr ← rd 8 madt (ptr + 4);
    Some (set_phys addr g)
  else Some g.

Fixpoint parse_loop (fuel : nat) (madt : list Z) (ptr pend : Z) (g : apic) : option apic :=
  match fuel with
  | O => None
  | S fuel' =>
      if ptr <? pend then
        len ← rd 1 madt (ptr + 1);
        if len =? 0 then Some g else
        type ← rd 1 madt ptr;
        g' ← parse_entry madt ptr type g;
        parse_loop fuel' madt (ptr + len) pend g'
      else Some g
  end.

(** The globals after the table; [ebx]: of [cpuid] leaf 1. *)
Definition parse_madt (madt : list Z) (ebx : Z) (g : apic) : option apic :=
  addr ← rd 4 madt 36;
  len ← rd 4 madt 4;
  parse_loop (S (length madt)) madt 44 len (set_bsp (Z.shiftr ebx 24) (set_phys addr g)).

(** ** Interrupt lines *)

Fixpoint for_gsi (l : list ioapic_info_t) (gsi : Z) : option (ioapic_info_t * Z) :=
  match l with
  | [] => None
  | i :: r =>
      if (gsi_base i <=? gsi) && (gsi <? u32 (gsi_base i + max_redirection_entries i)) then Some (i, gsi - gsi_base i)
      else for_gsi r gsi
  end.
Definition ioapic_for_gsi (g : apic) (gsi : Z) : option (ioapic_info_t * Z) := for_gsi (ioapics g) gsi.

(** The line and its flags. *)
Fixpoint find_iso (l : list iso_t) (irq : Z) : Z * Z :=
  match l with
  | [] => (irq, 0)
  | i :: r => if i_source i =? irq then (i_gsi i, i_flags i) else find_iso r irq
  end.
Definition irq_to_gsi (g : apic) (irq : Z) : Z * Z := find_iso (isos g) irq.

Definition redirection (vector lapic_id flags : Z) (masked : bool) : Z :=
  let r := vector in
  let r := if negb (Z.land flags 2 =? 0) then Z.lor r (2 ^ 13) else r in
  let r := if negb (Z.land flags 8 =? 0) then Z.lor r (2 ^ 15) else r in
  let r := if masked then Z.lor r (2 ^ 16) else r in
  Z.lor r (u64 (Z.shiftl lapic_id 56)).

Record ast (D : Type) := mk_ast { glob : apic; hwst : D }.
Arguments mk_ast {D}.
Arguments glob {D}.
Arguments hwst {D}.

Section apic.
Context {D : Type} (H : hw D).
Notation MA := (M (ast D)).

Definition onhw {A} (m : M D A) : MA A := fun s =>
  match m (hwst s) with Done d a => Done (mk_ast (glob s) d) a | Fault => Fault end.
Definition upd (f : apic -> apic) : MA unit := modify (fun s => mk_ast (f (glob s)) (hwst s)).

Definition lapic_read (reg : Z) : MA Z := g ← gets glob; onhw (ld32 H (u64 (lapic_virt_addr g + reg))).
Definition lapic_write (reg val : Z) : MA unit := g ← gets glob; onhw (st32 H (u64 (lapic_virt_addr g + reg)) val).
Definition lapic_eoi : MA unit :=
  g ← gets glob; if negb (lapic_virt_addr g =? 0) then lapic_write LAPIC_EOI_REG 0 else mret tt.

Definition ioapic_read (i : ioapic_info_t) (reg : Z) : MA Z :=
  _ ← onhw (st32 H (u64 (virt_addr i + IOAPIC_REGSEL)) reg); onhw (ld32 H (u64 (virt_addr i + IOAPIC_IOWIN))).
Definition ioapic_write (i : ioapic_info_t) (reg val : Z) : MA unit :=
  _ ← onhw (st32 H (u64 (virt_addr i + IOAPIC_REGSEL)) reg); onhw (st32 H (u64 (virt_addr i + IOAPIC_IOWIN)) val).
Definition ioapic_read64 (i : ioapic_info_t) (reg : Z) : MA Z :=
  low ← ioapic_read i reg; high ← ioapic_read i (u32 (reg + 1)); mret (Z.lor (Z.shiftl high 32) low).
Definition ioapic_write64 (i : ioapic_info_t) (reg val : Z) : MA unit :=
  _ ← ioapic_write i (u32 (reg + 1)) (u32 (Z.shiftr val 32));
  ioapic_write i reg (Z.land val 0xFFFFFFFF).

Definition ioapic_route_gsi (gsi vector lapic_id flags : Z) (masked : bool) : MA unit :=
  g ← gets glob;
  match ioapic_for_gsi g gsi with
  | None => mret tt
  | Some (i, offset) => ioapic_write64 i (IOAPIC_REDTBL offset) (redirection vector lapic_id flags masked)
  end.

Definition ioapic_set_irq (irq vector lapic_id : Z) (masked : bool) : MA unit :=
  g ← gets glob;
  let '(gsi, flags) := irq_to_gsi g irq in
  ioapic_route_gsi gsi vector lapic_id flags masked.

Definition get_lapic_id : MA Z := g ← gets glob; mret (bsp_lapic_id g).
Definition get_apicid : MA Z := v ← lapic_read LAPIC_ID_REG; mret (Z.land (Z.shiftr v 24) 0xFF).

(** The low half of the entry of a line, changed by [f]. *)
Definition change_low (irq : Z) (f : Z -> Z) : MA unit :=
  g ← gets glob;
  let '(gsi, _) := irq_to_gsi g irq in
  match ioapic_for_gsi g gsi with
  | None => mret tt
  | Some (i, offset) => low ← ioapic_read i (IOAPIC_REDTBL offset); ioapic_write i (IOAPIC_REDTBL offset) (f low)
  end.
Definition ioapic_mask_irq (irq : Z) : MA unit := change_low irq (fun low => Z.lor low (2 ^ 16)).
Definition ioapic_unmask_irq (irq : Z) : MA unit := change_low irq (fun low => Z.land low (Z.lnot (2 ^ 16))).

Definition pic_send_eoi (irq : Z) : MA unit := lapic_eoi.

(** A write and the delay after it, an access to an unused port. *)
Definition outb_wait (p v : Z) : MA unit := _ ← onhw (outb H p v); onhw (outb H 0x80 0).
Definition pic_remap (offset1 offset2 : Z) : MA unit :=
  _ ← outb_wait 0x20 0x11;
  _ ← outb_wait 0xA0 0x11;
  _ ← outb_wait 0x21 (u8 offset1);
  _ ← outb_wait 0xA1 (u8 offset2);
  _ ← outb_wait 0x21 4;
  _ ← outb_wait 0xA1 2;
  _ ← outb_wait 0x21 1;
  _ ← outb_wait 0xA1 1;
  _ ← onhw (outb H 0x21 0xFF);
  onhw (outb H 0xA1 0xFF).

Definition pic_disable : MA unit := _ ← onhw (outb H 0x21 0xFF); onhw (outb H 0xA1 0xFF).
Definition irq_disable (line : Z) : MA unit := ioapic_mask_irq line.
Definition irq_enable (line : Z) : MA unit := ioapic_unmask_irq line.

Definition regintr (vector isr flags ist : Z) : MA unit :=
  g ← gets glob; t ← deref (idt_regintr (idt g) vector isr flags ist); upd (set_idt t).

Definition init_irq (irq hdlr : Z) : MA unit :=
  _ ← regintr (u8 (0x20 + irq)) hdlr 0x8E 1;
  ioapic_set_irq (u8 irq) (u8 (0x20 + irq)) 0 true.

Definition apic_enable_current : MA unit :=
  b ← onhw (rdmsr H IA32_APIC_BASE_MSR);
  _ ← onhw (wrmsr H IA32_APIC_BASE_MSR (Z.lor b IA32_APIC_BASE_MSR_ENABLE));
  _ ← lapic_write LAPIC_TPR_REG 0;
  _ ← lapic_write LAPIC_SVR_REG (Z.lor 0x100 LAPIC_SPURIOUS_VEC);
  _ ← lapic_write LAPIC_LVT_TIMER (2 ^ 16);
  _ ← lapic_write LAPIC_LVT_LINT0 (2 ^ 16);
  _ ← lapic_write LAPIC_LVT_LINT1 (2 ^ 16);
  lapic_write LAPIC_LVT_ERROR (2 ^ 16).

Definition enable_lapic : MA unit :=
  _ ← apic_enable_current;
  v ← lapic_read LAPIC_ID_REG;
  upd (set_bsp (Z.land (Z.shiftr v 24) 0xFF)).

(** Every line of a controller is masked, and gets the vector of its number. *)
Fixpoint mask_lines (n : nat) (j : Z) (i : ioapic_info_t) : MA unit :=
  match n with
  | O => mret tt
  | S n' =>
      g ← gets glob;
      _ ← ioapic_write i (IOAPIC_REDTBL j) (Z.lor 0x10000 (u32 (0x20 + j)));
      _ ← ioapic_write i (u32 (IOAPIC_REDTBL j + 1)) (u32 (Z.shiftl (bsp_lapic_id g) 24));
      mask_lines n' (j + 1) i
  end.

(** The controllers from number [k] on. *)
Fixpoint init_ioapics (n k : nat) : MA unit :=
  match n with
  | O => mret tt
  | S n' =>
      g ← gets glob;
      i ← deref (ioapics g !! k);
      let i1 := mk_ioapic (io_id i) (gsi_base i) (max_redirection_entries i) (phys_addr i) (u64 (phys_addr i + HHDM_START)) in
      ver ← ioapic_read i1 IOAPIC_VER;
      let i2 := mk_ioapic (io_id i) (gsi_base i) (Z.land (Z.shiftr ver 16) 0xFF + 1) (phys_addr i) (virt_addr i1) in
      _ ← upd (set_ioapics (<[k := i2]> (ioapics g)));
      _ ← mask_lines (Z.to_nat (max_redirection_entries i2)) 0 i2;
      init_ioapics n' (S k)
  end.

(** [table]: the firmware's table when there is one; without it the kernel stops. *)
Definition apic_init (table : option (list Z)) (spurious : Z) : MA unit :=
  _ ← pic_disable;
  madt ← deref table;
  r ← onhw (cpuid H 1 0);
  let '(_, ebx, _, _) := r in
  g ← gets glob;
  g' ← deref (parse_madt madt ebx g);
  _ ← upd (fun _ => g');
  _ ← upd (set_virt (u64 (lapic_phys_addr g' + HHDM_START)));
  _ ← regintr LAPIC_SPURIOUS_VEC spurious 0x8E 0;
  _ ← enable_lapic;
  g ← gets glob;
  init_ioapics (length (ioapics g)) 0.

End apic.

(** ** The table and what is kept of it *)

Inductive madt_entry :=
| E_ioapic (id addr base : Z)
| E_iso (bus source gsi flags : Z)
| E_lapic_addr (addr : Z)
| E_other (type : Z) (body : list Z).

Definition entry_bytes (e : madt_entry) : list Z :=
  match e with
  | E_ioapic id addr base => enc_fields [1; 1; 1; 1; 4; 4]%nat [1; 12; id; 0; addr; base]
  | E_iso bus source gsi flags => enc_fields [1; 1; 1; 1; 4; 2]%nat [2; 10; bus; source; gsi; flags]
  | E_lapic_addr addr => enc_fields [1; 1; 2; 8]%nat [5; 12; 0; addr]
  | E_other type body => enc_fields [1; 1]%nat [type; 2 + Z.of_nat (length body)] ++ body
  end.

Definition entry_ok (e : madt_entry) : Prop :=
  match e with
  | E_ioapic id addr base => fits 1 id /\ fits 4 addr /\ fits 4 base
  | E_iso bus source gsi flags => fits 1 bus /\ fits 1 source /\ fits 4 gsi /\ fits 2 flags
  | E_lapic_addr addr => fits 8 addr
  | E_other type body => fits 1 type /\ type <> 1 /\ type <> 2 /\ type <> 5 /\ (length body < 254)%nat
  end.

Definition table_bytes (sig rest : list Z) (lapic flags : Z) (es : list madt_entry) : list Z :=
  let body := flat_map entry_bytes es in
  sig ++ le 4 (44 + Z.of_nat (length body)) ++ rest ++ le 4 lapic ++ le 4 flags ++ body.

Definition ioapics_of (es : list madt_entry) : list ioapic_info_t :=
  flat_map (fun e => match e with E_ioapic id addr base => [mk_ioapic id base 0 addr 0] | _ => [] end) es.
Definition isos_of (es : list madt_entry) : list iso_t :=
  flat_map (fun e => match e with E_iso b s g f => [mk_iso b s g f] | _ => [] end) es.
Definition lapic_of (es : list madt_entry) (a : Z) : Z :=
  fold_left (fun a e => match e with E_lapic_addr b => b | _ => a end) es a.

(** The globals with what the entries say. *)
Definition noted (es : list madt_entry) (g : apic) : apic :=
  mk_apic (lapic_of es (lapic_phys_addr g)) (lapic_virt_addr g) (bsp_lapic_id g)
    (take MAX_IOAPICS (ioapics g ++ ioapics_of es)) (take MAX_ISOS (isos g ++ isos_of es)) (idt g).

(** ** Reading it back *)

Lemma rd_app n pre b k : 0 <= k -> rd n (pre ++ b) (Z.of_nat (length pre) + k) = rd n b k.
Proof.
  intros Hk. unfold rd. rewrite length_app, Nat2Z.inj_add.
  replace (0 <=? Z.of_nat (length pre) + k) with (0 <=? k) by (by rewrite !(proj2 (Z.leb_le 0 _)) by lia).
  replace (Z.of_nat (length pre) + k + Z.of_nat n <=? Z.of_nat (length pre) + Z.of_nat (length b)) with (k + Z.of_nat n <=? Z.of_nat (length b))
    by (apply eq_true_iff_eq; rewrite !Z.leb_le; lia).
  split_if; [|done]. f_equal. f_equal. f_equal. rewrite drop_app_ge by lia. f_equal. lia.
Qed.

Lemma rd_in n b rest k x : rd n b k = Some x -> rd n (b ++ rest) k = Some x.
Proof.
  unfold rd. rewrite length_app. destruct (Z.leb_spec 0 k), (Z.leb_spec (k + Z.of_nat n) (Z.of_nat (length b))); cbn; try done.
  intros [= <-]. rewrite (proj2 (Z.leb_le _ _)) by lia. f_equal. f_equal. by rewrite drop_app_le, take_app_le by (rewrite ?length_drop; lia).
Qed.

Lemma rd_enc ws vs k w v : Forall2 fits ws vs -> ws !! k = Some w -> vs !! k = Some v ->
  rd w (enc_fields ws vs) (Z.of_nat (sum_list (take k ws))) = Some v.
Proof.
  intros Hf Hw Hv. pose proof (field_enc ws vs k w v Hf Hw Hv) as E. unfold rd. assert (length ws = length vs) as Hl by (by eapply Forall2_length).
  apply take_drop_middle in Hw as Hw'. rewrite (proj2 (Z.leb_le 0 _)), (proj2 (Z.leb_le _ _)).
  - cbn [andb]. rewrite Nat2Z.id. f_equal. exact E.
  - rewrite length_enc_fields by done. rewrite <- Hw' at 2. rewrite sum_list_with_app. cbn. lia.
  - lia.
Qed.

Lemma rd_le n pre x post off : off = Z.of_nat (length pre) -> fits n x -> rd n (pre ++ le n x ++ post) off = Some x.
Proof.
  intros -> Hx. rewrite <- (Z.add_0_r (Z.of_nat _)), rd_app by lia. apply rd_in. unfold rd. rewrite length_le, Z.add_0_l, !Z.leb_refl. cbn [andb].
  change (drop (Z.to_nat 0) (le n x)) with (le n x). rewrite take_ge by (rewrite length_le; lia). f_equal. by apply of_le_le.
Qed.

Lemma entry_length e : (2 <= length (entry_bytes e))%nat.
Proof. destruct e; cbn [entry_bytes]; rewrite ?length_app, length_enc_fields by done; cbn; lia. Qed.

Lemma entries_length es : (length es <= length (flat_map entry_bytes es))%nat.
Proof. induction es as [|e es IH]; [done|]. cbn [flat_map length]. rewrite length_app. pose proof (entry_length e). lia. Qed.

Lemma rd_byte bs off x : Forall (fun b => 0 <= b < 256) bs -> rd 1 bs off = Some x -> 0 <= x < 256 /\ 0 <= off < Z.of_nat (length bs).
Proof.
  unfold rd. intros Hb. destruct (Z.leb_spec 0 off), (Z.leb_spec (off + Z.of_nat 1) (Z.of_nat (length bs))); cbn [andb]; try done. intros [= <-].
  destruct (drop (Z.to_nat off) bs) as [|y r] eqn:E; [apply (f_equal length) in E; rewrite length_drop in E; cbn in E; lia|].
  cbn [take of_le]. split; [|lia]. apply (Forall_drop _ (Z.to_nat off)) in Hb. rewrite E in Hb. apply Forall_cons in Hb as [Hy _]. rewrite take_0. cbn [of_le]. lia.
Qed.

(** Field [k] of an entry in a table. *)
Lemma rd_entry pre ws vs rest k w v o : Forall2 fits ws vs -> ws !! k = Some w -> vs !! k = Some v -> o = Z.of_nat (sum_list (take k ws)) ->
  rd w (pre ++ enc_fields ws vs ++ rest) (Z.of_nat (length pre) + o) = Some v.
Proof. intros Hf Hw Hv ->. rewrite rd_app by lia. apply rd_in. by apply rd_enc. Qed.

Lemma noted_cons e es g : noted (e :: es) g = noted es (noted [e] g).
Proof.
  assert (forall {A} n (a b c : list A), take n (take n (a ++ b) ++ c) = take n (a ++ b ++ c)) as Ht.
  { intros A n a b c. rewrite (app_assoc a b c). destruct (Nat.le_ge_cases n (length (a ++ b))) as [Hl|Hl].
    - rewrite take_app_le by (rewrite length_take; lia). rewrite take_take, Nat.min_id. by rewrite (take_app_le (a ++ b) c) by lia.
    - by rewrite (take_ge (a ++ b)) by done. }
  unfold noted, ioapics_of, isos_of, lapic_of. cbn [flat_map fold_left lapic_phys_addr lapic_virt_addr bsp_lapic_id ioapics isos idt].
  by rewrite !app_nil_r, !Ht.
Qed.

Lemma entry_fits e : entry_ok e ->
  match e with
  | E_ioapic id addr base => Forall2 fits [1; 1; 1; 1; 4; 4]%nat [1; 12; id; 0; addr; base]
  | E_iso bus source gsi flags => Forall2 fits [1; 1; 1; 1; 4; 2]%nat [2; 10; bus; source; gsi; flags]
  | E_lapic_addr addr => Forall2 fits [1; 1; 2; 8]%nat [5; 12; 0; addr]
  | E_other type body => Forall2 fits [1; 1]%nat [type; 2 + Z.of_nat (length body)]
  end.
Proof.
  destruct e; cbn [entry_ok]; intros; repeat (apply List.Forall2_cons); try apply List.Forall2_nil; try tauto; unfold fits; lia.
Qed.

(** The arrays do not run over. *)
Definition within (g : apic) : Prop := (length (ioapics g) <= MAX_IOAPICS)%nat /\ (length (isos g) <= MAX_ISOS)%nat.

Lemma noted_within es g : within (noted es g).
Proof. split; cbn [noted ioapics isos]; rewrite length_take; lia. Qed.

Lemma take_full {A} n (l k : list A) : (n <= length l)%nat -> take n (l ++ k) = take n l.
Proof. intros. by rewrite take_app_le. Qed.

(** One entry of the table. *)
Lemma parse_entry_ok pre e rest g : entry_ok e -> within g ->
  exists type, rd 1 (pre ++ entry_bytes e ++ rest) (Z.of_nat (length pre) + 1) = Some (Z.of_nat (length (entry_bytes e))) /\
    rd 1 (pre ++ entry_bytes e ++ rest) (Z.of_nat (length pre) + 0) = Some type /\
    parse_entry (pre ++ entry_bytes e ++ rest) (Z.of_nat (length pre)) type g = Some (noted [e] g).
Proof.
  intros Hok [W1 W2]. pose proof (entry_fits e Hok) as Hf. destruct g as [lp lv lb ios iss it]. cbn [ioapics isos] in W1, W2.
  unfold parse_entry, noted, ioapics_of, isos_of, lapic_of.
  destruct e as [id addr base|bus source gsi flags|addr|type body]; cbn [entry_bytes flat_map fold_left lapic_phys_addr lapic_virt_addr bsp_lapic_id ioapics isos idt app];
    rewrite ?app_nil_r; [exists 1|exists 2|exists 5|exists type].
  - rewrite (rd_entry pre _ _ rest 1 1 12 1 Hf), (rd_entry pre _ _ rest 0 1 1 0 Hf), (rd_entry pre _ _ rest 2 1 id 2 Hf),
      (rd_entry pre _ _ rest 5 4 base 8 Hf), (rd_entry pre _ _ rest 4 4 addr 4 Hf) by done.
    split_and!; [done|done|]. cbn [Z.eqb Pos.eqb mbind option_bind]. rewrite (take_ge iss) by done.
    destruct (Nat.ltb_spec (length ios) MAX_IOAPICS); [by rewrite take_ge by (rewrite length_app; cbn; lia)|by rewrite take_full, take_ge by lia].
  - rewrite (rd_entry pre _ _ rest 1 1 10 1 Hf), (rd_entry pre _ _ rest 0 1 2 0 Hf), (rd_entry pre _ _ rest 2 1 bus 2 Hf),
      (rd_entry pre _ _ rest 3 1 source 3 Hf), (rd_entry pre _ _ rest 4 4 gsi 4 Hf), (rd_entry pre _ _ rest 5 2 flags 8 Hf) by done.
    split_and!; [done|done|]. cbn [Z.eqb Pos.eqb mbind option_bind]. rewrite (take_ge ios) by done.
    destruct (Nat.ltb_spec (length iss) MAX_ISOS); [by rewrite take_ge by (rewrite length_app; cbn; lia)|by rewrite take_full, take_ge by lia].
  - rewrite (rd_entry pre _ _ rest 1 1 12 1 Hf), (rd_entry pre _ _ rest 0 1 5 0 Hf), (rd_entry pre _ _ rest 3 8 addr 4 Hf) by done.
    split_and!; [done|done|]. by rewrite (take_ge ios), (take_ge iss) by done.
  - rewrite <- app_assoc, (rd_entry pre _ _ (body ++ rest) 1 1 (2 + Z.of_nat (length body)) 1 Hf), (rd_entry pre _ _ (body ++ rest) 0 1 type 0 Hf) by done.
    split_and!; [f_equal; rewrite length_app, length_enc_fields by done; cbn; lia|done|]. destruct Hok as (_ & N1 & N2 & N5 & _).
    rewrite (proj2 (Z.eqb_neq type 1)), (proj2 (Z.eqb_neq type 2)), (proj2 (Z.eqb_neq type 5)) by done. by rewrite (take_ge ios), (take_ge iss) by done.
Qed.

Lemma parse_loop_ok es : forall fuel pre g, Forall entry_ok es -> within g -> (length es < fuel)%nat ->
  parse_loop fuel (pre ++ flat_map entry_bytes es) (Z.of_nat (length pre)) (Z.of_nat (length (pre ++ flat_map entry_bytes es))) g = Some (noted es g).
Proof.
  induction es as [|e es IH]; intros [|fuel] pre g Hok Hw Hf; cbn [length] in Hf; try lia; cbn [parse_loop flat_map].
  - rewrite app_nil_r, Z.ltb_irrefl. destruct g as [lp lv lb ios iss it], Hw as [W1 W2]. cbn in W1, W2. unfold noted. cbn. by rewrite !app_nil_r, !take_ge.
  - apply Forall_cons in Hok as [Hok Hoks]. pose proof (entry_length e). rewrite (proj2 (Z.ltb_lt _ _)) by (rewrite !length_app; lia).
    destruct (parse_entry_ok pre e (flat_map entry_bytes es) g Hok Hw) as (type & E1 & E0 & E). rewrite Z.add_0_r in E0. rewrite E1, E0. cbn [mbind option_bind].
    rewrite (proj2 (Z.eqb_neq _ 0)) by lia. rewrite E. cbn [mbind option_bind]. rewrite (noted_cons e es), <- (IH fuel (pre ++ entry_bytes e) (noted [e] g)) by (done || lia || apply noted_within).
    rewrite <- app_assoc. f_equal. rewrite length_app. lia.
Qed.

(** C39. What the kernel keeps of a well-formed table: the first eight I/O controllers and
    the first thirty-two overrides in their order, and the last address given for the
    local controller. *)
Theorem parse_madt_collects sig rest lapic flags es ebx g :
  length sig = 4%nat -> length rest = 28%nat -> fits 4 lapic -> fits 4 flags -> Forall entry_ok es -> within g ->
  44 + Z.of_nat (length (flat_map entry_bytes es)) < 2 ^ 32 ->
  parse_madt (table_bytes sig rest lapic flags es) ebx g = Some (noted es (set_bsp (Z.shiftr ebx 24) (set_phys lapic g))).
Proof.
  intros Hs Hr Hl Hfl Hok Hw Hlen. unfold parse_madt, table_bytes. set (body := flat_map entry_bytes es) in *. set (len := 44 + _) in *.
  assert (fits 4 len) as Hfl' by (unfold fits; cbn; lia).
  rewrite !app_assoc.
  set (pre := ((((sig ++ le 4 len) ++ rest) ++ le 4 lapic) ++ le 4 flags)). assert (length pre = 44%nat) as Hpre by (unfold pre; rewrite !length_app, !length_le; lia).
  assert (rd 4 (pre ++ body) 36 = Some lapic) as ->.
  { unfold pre. rewrite <- !app_assoc, (app_assoc sig), (app_assoc (sig ++ _)). apply rd_le; [rewrite !length_app, length_le; lia|done]. }
  assert (rd 4 (pre ++ body) 4 = Some len) as -> by (unfold pre; rewrite <- !app_assoc; apply rd_le; [lia|done]). cbn [mbind option_bind].
  replace len with (Z.of_nat (length (pre ++ body))) by (rewrite length_app; lia). replace 44 with (Z.of_nat (length pre)) by lia.
  apply parse_loop_ok; [done|by destruct Hw; split|]. rewrite length_app. pose proof (entries_length es). unfold body. lia.
Qed.

Lemma rd_Some n bs off : 0 <= off -> off + Z.of_nat n <= Z.of_nat (length bs) -> exists x, rd n bs off = Some x.
Proof. intros H1 H2. unfold rd. rewrite !(proj2 (Z.leb_le _ _)) by done. by eexists. Qed.

(** Whatever an entry holds, reading it stays within its first twelve bytes and the
    arrays within their bounds. *)
Lemma parse_entry_total madt ptr type g : 0 <= ptr -> ptr + 12 <= Z.of_nat (length madt) -> within g ->
  exists g', parse_entry madt ptr type g = Some g' /\ within g'.
Proof.
  intros Hp Hl [W1 W2]. unfold parse_entry.
  destruct (rd_Some 1 madt (ptr + 2)) as [? ->]; [lia..|]. destruct (rd_Some 1 madt (ptr + 3)) as [? ->]; [lia..|].
  destruct (rd_Some 4 madt (ptr + 4)) as [? ->]; [lia..|]. destruct (rd_Some 4 madt (ptr + 8)) as [? ->]; [lia..|].
  destruct (rd_Some 2 madt (ptr + 8)) as [? ->]; [lia..|]. destruct (rd_Some 8 madt (ptr + 4)) as [? ->]; [lia..|].
  cbn [mbind option_bind]. repeat split_if; (eexists; split; [done|]; split; cbn [ioapics isos set_ioapics set_isos set_phys]; try done).
  - rewrite length_app. cbn. destruct (Nat.ltb_spec (length (ioapics g)) MAX_IOAPICS); [lia|done].
  - rewrite length_app. cbn. destruct (Nat.ltb_spec (length (isos g)) MAX_ISOS); [lia|done].
Qed.

Lemma parse_loop_total madt pend : Forall (fun b => 0 <= b < 256) madt -> pend + 11 <= Z.of_nat (length madt) ->
  forall fuel ptr g, 0 <= ptr -> pend <= ptr + Z.of_nat fuel -> within g ->
  exists g', parse_loop (S fuel) madt ptr pend g = Some g' /\ within g'.
Proof.
  intros Hb Hend. induction fuel as [|fuel IH]; intros ptr g Hp Hf Hw; cbn [parse_loop].
  all: destruct (Z.ltb_spec ptr pend); [|by exists g].
  - lia.
  - destruct (rd_Some 1 madt (ptr + 1)) as [len El]; [lia..|]. rewrite El. cbn [mbind option_bind].
    destruct (Z.eqb_spec len 0); [by exists g|]. destruct (rd_Some 1 madt ptr) as [type ->]; [lia..|]. cbn [mbind option_bind].
    destruct (parse_entry_total madt ptr type g) as (g' & -> & Hw'); [lia|lia|done|]. cbn [mbind option_bind].
    apply (rd_byte _ _ _ Hb) in El as [Hlen _]. apply IH; [lia|lia|done].
Qed.

(** C18. The loop over the entries ends, whatever the bytes of the table are: a malformed
    entry advances by at least one byte or stops the loop, and the arrays keep their
    bounds.  It reads no further than eleven bytes behind the table, which must be
    there: a cut-off last entry makes the kernel read them. *)
Theorem parse_madt_ends madt ebx g len :
  Forall (fun b => 0 <= b < 256) madt -> rd 4 madt 4 = Some len -> (44 <= length madt)%nat -> len + 11 <= Z.of_nat (length madt) -> within g ->
  exists g', parse_madt madt ebx g = Some g' /\ within g'.
Proof.
  intros Hb El H44 Hlen Hw. unfold parse_madt. destruct (rd_Some 4 madt 36) as [a ->]; [lia..|]. rewrite El. cbn [mbind option_bind].
  apply parse_loop_total; [done|done|lia|lia|]. by destruct Hw.
Qed.

(** ** Routing *)

(** A register without its two read-only status bits. *)
Definition rw (v : Z) : Z := Z.land v (Z.lnot (2 ^ 12 + 2 ^ 14)).

(** What the driver relies on, for the controllers at [addrs]: an index register and
    a window on the register it selects. *)
Class ioapic_chips {D : Type} (H : hw D) (addrs : list Z) := {
  io_regs : D -> Z -> Z -> Z;
  io_sel : D -> Z -> Z;
  law_io_select : forall d a r, a ∈ addrs -> fits 4 r ->
    exists d', st32 H (u64 (a + IOAPIC_REGSEL)) r d = Done d' tt /\ (forall b q, io_regs d' b q = io_regs d b q) /\ io_sel d' a = r;
  law_io_load : forall d a, a ∈ addrs ->
    exists d' v, ld32 H (u64 (a + IOAPIC_IOWIN)) d = Done d' v /\ fits 4 v /\ rw v = io_regs d a (io_sel d a) /\ (forall b q, io_regs d' b q = io_regs d b q);
  law_io_store : forall d a v, a ∈ addrs -> fits 4 v ->
    exists d', st32 H (u64 (a + IOAPIC_IOWIN)) v d = Done d' tt /\
      (forall b q, io_regs d' b q = if decide (b = a /\ q = io_sel d a) then rw v else io_regs d b q)
}.

(** The low half of an entry: vector, polarity, trigger mode and mask. *)
Definition low_entry (vector flags : Z) (masked : bool) : Z :=
  let r := vector in
  let r := if Z.testbit flags 1 then Z.lor r (2 ^ 13) else r in
  let r := if Z.testbit flags 3 then Z.lor r (2 ^ 15) else r in
  if masked then Z.lor r (2 ^ 16) else r.

Lemma dword_fits v : 0 <= v < 2 ^ 32 -> fits 4 v.
Proof. done. Qed.

Lemma land_dword_fits v m : fits 4 v -> fits 4 (Z.land v m).
Proof.
  unfold fits. change (256 ^ Z.of_nat 4) with (2 ^ 32). intros Hv. rewrite <- (Z.mod_small v (2 ^ 32)), <- Z.land_ones by lia.
  rewrite <- Z.land_assoc, (Z.land_comm (Z.ones 32)), Z.land_assoc, Z.land_ones by lia. by apply Z.mod_pos_bound.
Qed.

Lemma lor_fits n a b : 0 <= n -> 0 <= a < 2 ^ n -> 0 <= b < 2 ^ n -> 0 <= Z.lor a b < 2 ^ n.
Proof.
  intros Hn Ha Hb. split; [apply Z.lor_nonneg; lia|]. destruct (Z.eq_dec (Z.lor a b) 0) as [->|Hz]; [lia|].
  pose proof (proj2 (Z.lor_nonneg a b) ltac:(lia)). apply Z.log2_lt_cancel. rewrite Z.log2_pow2, Z.log2_lor by lia.
  apply Z.max_lub_lt; [destruct (Z.eq_dec a 0) as [->|]|destruct (Z.eq_dec b 0) as [->|]]; try (apply Z.log2_lt_pow2; lia).
  - cbn. destruct (Z.eq_dec n 0) as [->|]; [|lia]. exfalso. apply Hz. replace b with 0 by lia. done.
  - cbn. destruct (Z.eq_dec n 0) as [->|]; [|lia]. exfalso. apply Hz. replace a with 0 by lia. done.
Qed.

Lemma low_entry_range vector flags masked : 0 <= vector < 256 -> 0 <= low_entry vector flags masked < 2 ^ 17.
Proof.
  intros Hv. unfold low_entry. repeat split_if; repeat (apply (lor_fits 17); [lia|try (split; [lia|reflexivity])|try (split; [lia|reflexivity])]); lia.
Qed.

Lemma redirection_eq vector lapic flags masked : 0 <= lapic < 256 ->
  redirection vector lapic flags masked = Z.lor (low_entry vector flags masked) (lapic * 2 ^ 56).
Proof.
  intros Hl. unfold redirection, low_entry. change (Z.land flags 2) with (Z.land flags (2 ^ 1)). change (Z.land flags 8) with (Z.land flags (2 ^ 3)). rewrite !land_pow2_eqb, !negb_involutive by lia.
  rewrite Z.shiftl_mul_pow2, wrap_small by lia. done.
Qed.

Lemma redirection_halves vector lapic flags masked : 0 <= vector < 256 -> 0 <= lapic < 256 ->
  Z.land (redirection vector lapic flags masked) 0xFFFFFFFF = low_entry vector flags masked /\
  u32 (Z.shiftr (redirection vector lapic flags masked) 32) = lapic * 2 ^ 24.
Proof.
  intros Hv Hl. rewrite redirection_eq by done. pose proof (low_entry_range vector flags masked Hv). rewrite Z.lor_comm, lor_high_low by lia.
  change 0xFFFFFFFF with (Z.ones 32). rewrite Z.land_ones, Z.shiftr_div_pow2 by lia. unfold wrap. split; Z.to_euclidean_division_equations; lia.
Qed.

(** Clearing the mask of what was read. *)
Lemma unmask_low v vector flags : 0 <= vector < 256 -> rw v = rw (low_entry vector flags true) ->
  rw (Z.land v (Z.lnot (2 ^ 16))) = rw (low_entry vector flags false).
Proof.
  intros Hv E. unfold rw in *. rewrite <- !Z.land_assoc, (Z.land_comm (Z.lnot (2 ^ 16))), Z.land_assoc, E, <- Z.land_assoc, (Z.land_comm _ (Z.lnot (2 ^ 16))), Z.land_assoc. f_equal.
  assert (Z.testbit (low_entry vector flags false) 16 = false) as Hb.
  { unfold low_entry. rewrite <- (Z.mod_small vector (2 ^ 8)) by lia. repeat split_if; rewrite ?Z.lor_spec, Z.mod_pow2_bits_high by lia; done. }
  change (low_entry vector flags true) with (Z.lor (low_entry vector flags false) (2 ^ 16)).
  apply Z.bits_inj'. intros k Hk. rewrite Z.land_spec, Z.lor_spec, Z.lnot_spec by done. rewrite Z.pow2_bits_eqb by lia.
  destruct (Z.eqb_spec 16 k) as [<-|Hne]; cbn [negb]; [by rewrite Hb|]. by rewrite orb_false_r, andb_true_r.
Qed.

Section routing.
Context {D : Type} (H : hw D) (addrs : list Z) `{!ioapic_chips H addrs}.
Implicit Types (s : ast D) (i : ioapic_info_t).

Notation regs_of s := (io_regs (hwst s)).

Lemma onhw_done {A} (m : M D A) s d a : m (hwst s) = Done d a -> onhw m s = Done (mk_ast (glob s) d) a.
Proof. intros E. unfold onhw. by rewrite E. Qed.

Lemma ioapic_write_ok s i r v : virt_addr i ∈ addrs -> fits 4 r -> fits 4 v ->
  exists s', ioapic_write H i r v s = Done s' tt /\ glob s' = glob s /\
    (forall b q, regs_of s' b q = if decide (b = virt_addr i /\ q = r) then rw v else regs_of s b q).
Proof.
  intros Hi Hr Hv. unfold ioapic_write. destruct (law_io_select (hwst s) (virt_addr i) r Hi Hr) as (d1 & E1 & R1 & S1).
  rewrite (bind_done _ _ _ _ _ (onhw_done _ s _ _ E1)). destruct (law_io_store d1 (virt_addr i) v Hi Hv) as (d2 & E2 & R2).
  rewrite (onhw_done _ (mk_ast (glob s) d1) _ _ E2). eexists. split_and!; [done|done|]. intros b q. cbn [hwst]. rewrite R2, S1. case_decide; [done|apply R1].
Qed.

Lemma ioapic_read_ok s i r : virt_addr i ∈ addrs -> fits 4 r ->
  exists s' v, ioapic_read H i r s = Done s' v /\ glob s' = glob s /\ fits 4 v /\ rw v = regs_of s (virt_addr i) r /\ (forall b q, regs_of s' b q = regs_of s b q).
Proof.
  intros Hi Hr. unfold ioapic_read. destruct (law_io_select (hwst s) (virt_addr i) r Hi Hr) as (d1 & E1 & R1 & S1).
  rewrite (bind_done _ _ _ _ _ (onhw_done _ s _ _ E1)). destruct (law_io_load d1 (virt_addr i) Hi) as (d2 & v & E2 & Hv & V2 & R2).
  rewrite (onhw_done _ (mk_ast (glob s) d1) _ _ E2). eexists _, v. split_and!; [done|done|done|by rewrite V2, S1, R1|]. intros b q. cbn [hwst]. by rewrite R2, R1.
Qed.

Lemma redtbl_eq o : 0 <= o < 2 ^ 16 -> IOAPIC_REDTBL o = 16 + 2 * o /\ fits 4 (IOAPIC_REDTBL o) /\ u32 (IOAPIC_REDTBL o + 1) = 17 + 2 * o /\ fits 4 (u32 (IOAPIC_REDTBL o + 1)).
Proof.
  intros Ho. unfold IOAPIC_REDTBL, fits. rewrite (wrap_small 32 (16 + 2 * o)) by lia. rewrite wrap_small by lia. cbn. lia.
Qed.

(** The entry of an interrupt line, and every other register as before. *)
Definition routed s s' i (o : Z) (low high : Z) : Prop :=
  forall b q, regs_of s' b q = if decide (b = virt_addr i /\ q = 16 + 2 * o) then rw low
    else if decide (b = virt_addr i /\ q = 17 + 2 * o) then rw high else regs_of s b q.

(** Routing a line with the mask set and then clearing the mask: the entry of the line
    has the vector and the processor, no mask, and no other register changes. *)
Lemma set_unmask_routes s irq vector lapic gsi flags i o :
  irq_to_gsi (glob s) irq = (gsi, flags) -> ioapic_for_gsi (glob s) gsi = Some (i, o) -> virt_addr i ∈ addrs ->
  0 <= o < 2 ^ 16 -> 0 <= vector < 256 -> 0 <= lapic < 256 ->
  exists s', (_ ← ioapic_set_irq H irq vector lapic true; ioapic_unmask_irq H irq) s = Done s' tt /\ glob s' = glob s /\
    routed s s' i o (low_entry vector flags false) (lapic * 2 ^ 24).
Proof.
  intros Eg Ef Hi Ho Hv Hl. destruct (redtbl_eq o Ho) as (R1 & F1 & R2 & F2). destruct (redirection_halves vector lapic flags true Hv Hl) as [E1 E2].
  pose proof (low_entry_range vector flags true Hv) as Hr.
  assert (ioapic_set_irq H irq vector lapic true s = ioapic_write64 H i (IOAPIC_REDTBL o) (redirection vector lapic flags true) s) as Es.
  { unfold ioapic_set_irq, ioapic_route_gsi. rewrite bind_gets, Eg. by rewrite bind_gets, Ef. }
  rewrite (bind_cong _ _ _ _ Es). unfold ioapic_write64. rewrite E1, E2.
  destruct (ioapic_write_ok s i (u32 (IOAPIC_REDTBL o + 1)) (lapic * 2 ^ 24) Hi F2 (dword_fits (lapic * 2 ^ 24) ltac:(lia))) as (s1 & W1 & G1 & P1).
  destruct (ioapic_write_ok s1 i (IOAPIC_REDTBL o) (low_entry vector flags true) Hi F1 (dword_fits (low_entry vector flags true) ltac:(lia))) as (s2 & W2 & G2 & P2).
  erewrite bind_done by (rewrite (bind_done _ _ _ _ _ W1); exact W2).
  unfold ioapic_unmask_irq, change_low. rewrite bind_gets, G2, G1, Eg, Ef.
  destruct (ioapic_read_ok s2 i (IOAPIC_REDTBL o) Hi F1) as (s3 & v & W3 & G3 & Fv & Vv & P3). rewrite (bind_done _ _ _ _ _ W3).
  rewrite P2, decide_True in Vv by done.
  destruct (ioapic_write_ok s3 i (IOAPIC_REDTBL o) (Z.land v (Z.lnot (2 ^ 16))) Hi F1) as (s4 & W4 & G4 & P4).
  { by apply land_dword_fits. }
  exists s4. split_and!; [done|congruence|]. intros b q. rewrite P4, P3, P2, P1, R2, R1. rewrite (unmask_low v vector flags Hv Vv).
  repeat case_decide; try done; lia.
Qed.

(** C21. Enabling an interrupt: after [init_irq] and [irq_enable] the entry of the line that
    the firmware's overrides give holds the vector, the polarity and trigger mode of
    the override and no mask, for processor 0; the gate of that vector leads to the
    handler; and no other register of any controller and no other gate has changed. *)
Theorem irq_reaches_handler s irq hdlr gsi flags i o :
  irq_to_gsi (glob s) irq = (gsi, flags) -> ioapic_for_gsi (glob s) gsi = Some (i, o) -> virt_addr i ∈ addrs ->
  0 <= o < 2 ^ 16 -> 0 <= irq < 224 -> 0 <= hdlr < 2 ^ 64 -> length (idt (glob s)) = 4096%nat ->
  exists s', (_ ← init_irq H irq hdlr; irq_enable H irq) s = Done s' tt /\
    routed s s' i o (low_entry (0x20 + irq) flags false) 0 /\
    gate (idt (glob s')) (0x20 + irq) hdlr 1 0x8E /\ other_gates (idt (glob s)) (idt (glob s')) (0x20 + irq).
Proof.
  intros Eg Ef Hi Ho Hq Hh Hl. destruct (idt_regintr_ok (idt (glob s)) (0x20 + irq) hdlr 0x8E 1 Hl ltac:(lia) Hh ltac:(lia) ltac:(lia)) as (t & Et & _ & Hg & Hot).
  set (s1 := mk_ast (set_idt t (glob s)) (hwst s)).
  destruct (set_unmask_routes s1 irq (0x20 + irq) 0 gsi flags i o Eg Ef Hi Ho ltac:(lia) ltac:(lia)) as (s' & E & G & R). exists s'.
  assert (regintr (u8 (0x20 + irq)) hdlr 0x8E 1 s = Done s1 tt) as Er.
  { unfold regintr. rewrite wrap_small by lia. rewrite bind_gets, Et. done. }
  unfold init_irq, irq_enable. rewrite (wrap_small 8 irq), (wrap_small 8 (0x20 + irq)) in * by lia.
  rewrite G. split_and!; [|done|done|done]. unfold mbind at 1, M_bind at 1. rewrite (bind_done _ _ _ _ _ Er). exact E.
Qed.

End routing.

(** ** A controller that keeps the laws *)

Record chips := mk_chips { ch_sel : Z; ch_regs : Z -> Z }.

Definition IOAPIC0 : Z := 0xFFFF8000FEC00000.

Definition chips_hw : hw chips :=
  mk_hw (inb dead) (outb dead) (inw dead) (outw dead) (inl dead) (outl dead) (ld8 dead) (st8 dead) (ld16 dead) (st16 dead)
    (fun a d => Done d (u32 (ch_regs d (ch_sel d))))
    (fun a v d => Done (if a =? IOAPIC0 then mk_chips v (ch_regs d)
       else mk_chips (ch_sel d) (fun q => if q =? ch_sel d then v else ch_regs d q)) tt)
    (ld64 dead) (st64 dead) (rdtsc dead) (cpuid dead) (rdmsr dead) (wrmsr dead).

Definition chip_regs (d : chips) (a q : Z) : Z := if a =? IOAPIC0 then rw (u32 (ch_regs d q)) else 0.

#[export] Instance chips_keep : ioapic_chips chips_hw [IOAPIC0].
Proof.
  refine {| io_regs := chip_regs; io_sel d _ := ch_sel d |}; intros d a; cbn [st32 ld32 chips_hw].
  - intros r ->%list_elem_of_singleton Hr. by eexists.
  - intros ->%list_elem_of_singleton. eexists _, _. split; [reflexivity|]. split; [unfold fits, wrap; by apply Z.mod_pos_bound|]. by split.
  - intros v ->%list_elem_of_singleton Hv. eexists. split; [reflexivity|]. intros b q. unfold chip_regs.
    change (u64 (IOAPIC0 + IOAPIC_IOWIN) =? IOAPIC0) with false. cbn [ch_regs].
    destruct (Z.eqb_spec b IOAPIC0) as [->|Hb]; [|by rewrite decide_False by tauto].
    destruct (Z.eqb_spec q (ch_sel d)) as [->|Hq]; [rewrite decide_True by done|by rewrite decide_False by tauto].
    by rewrite (wrap_small 32 v) by exact Hv.
Defined.

Definition chips0 : chips := mk_chips 0 (fun _ => 0).

(** A machine with one controller whose timer interrupt is on line 2. *)
Definition pc_entries : list madt_entry :=
  [E_other 0 [0; 0; 1; 0; 0; 0]; E_ioapic 0 0xFEC00000 0; E_iso 0 0 2 0; E_iso 0 9 9 13].
Definition apic0 : apic := mk_apic 0 0 0 [] [] (replicate 4096 0).
Definition pc_table : list Z := table_bytes [65; 80; 73; 67] (replicate 28 0) 0xFEE00000 1 pc_entries.

Lemma parse_madt_collects_witness :
  parse_madt pc_table 0 apic0 = Some (noted pc_entries (set_bsp (Z.shiftr 0 24) (set_phys 0xFEE00000 apic0))).
Proof.
  apply (parse_madt_collects [65; 80; 73; 67] (replicate 28 0) 0xFEE00000 1 pc_entries 0 apic0); try done.
  - repeat constructor; lia.
  - split; cbn; lia.
Defined.

(** The bytes of a table whose last entry is cut off and whose length is wrong. *)
Definition bad_table : list Z := [65; 80; 73; 67] ++ le 4 50 ++ replicate 36 0 ++ [1; 3; 1; 1; 1; 12] ++ replicate 11 7.

Lemma parse_madt_ends_witness : exists g', parse_madt bad_table 0 apic0 = Some g' /\ within g'.
Proof.
  apply (parse_madt_ends bad_table 0 apic0 50); [|reflexivity|cbn; lia|cbn; lia|split; cbn; lia].
  unfold bad_table. vm_compute. repeat constructor; congruence.
Defined.

Definition pc_ioapic : ioapic_info_t := mk_ioapic 0 0 24 0xFEC00000 IOAPIC0.
Definition pc_state : ast chips :=
  mk_ast (mk_apic 0xFEE00000 0 0 [pc_ioapic] [mk_iso 0 0 2 0; mk_iso 0 9 9 13] (replicate (Z.to_nat 4096) 0)) chips0.

(** The interrupt of the power management is active low and level triggered. *)
Lemma irq_reaches_handler_witness :
  exists s', (_ ← init_irq chips_hw 9 0x1234; irq_enable chips_hw 9) pc_state = Done s' tt /\
    routed chips_hw [IOAPIC0] pc_state s' pc_ioapic 9 (low_entry 41 13 false) 0 /\ gate (idt (glob s')) 41 0x1234 1 0x8E.
Proof.
  destruct (irq_reaches_handler chips_hw [IOAPIC0] pc_state 9 0x1234 9 13 pc_ioapic 9) as (s' & E & R & G & _); try reflexivity; try lia.
  - apply list_elem_of_singleton. reflexivity.
  - exists s'. split; [exact E|]. split; [exact R|exact G].
Defined.

End Apic.
