(* ===== verification/Pci.v ===== *)
(** The PCI configuration space and the VirtIO transport
    ([src/drivers/pci.c], [src/drivers/virtio/virtio.c]): accesses through the address and
    data ports, the search for a device and the walk of its capabilities.

    Model: port and memory accesses of [Machine]; the walk of the capabilities, which
    a device can make endless, has fuel and faults without it. *)
From S2P Require Import Prelude Machine.

Module Pci.
Import Machine.

Definition HHDM_START : Z := 0xFFFF800000000000.
Definition VIRTIO_VENDOR_ID : Z := 0x1AF4.
Definition VIRTIO_DEV_NET : Z := 0x1000.
Definition VIRTIO_DEV_BLOCK : Z := 0x1001.
Definition VIRTIO_DEV_RNG : Z := 0x1005.
Definition VIRTIO_DEV_INPUT : Z := 0x1012.
Definition VIRTIO_DEV_MODERN_NET : Z := 0x1041.
Definition VIRTIO_DEV_MODERN_BLOCK : Z := 0x1042.
Definition VIRTIO_DEV_MODERN_RNG : Z := 0x1044.
Definition VIRTIO_DEV_MODERN_INPUT : Z := 0x1052.
Definition VIRTIO_REG_DEVICE_FEATURES : Z := 0x00.
Definition VIRTIO_REG_GUEST_FEATURES : Z := 0x04.
Definition VIRTIO_REG_DEVICE_STATUS : Z := 0x12.
Definition VIRTIO_REG_ISR_STATUS : Z := 0x13.
Definition VIRTIO_REG_CONFIG_LEGACY : Z := 0x14.
Definition VIRTIO_STATUS_RESET : Z := 0.
Definition VIRTIO_STATUS_FEATURES_OK : Z := 8.

Record pci_chdr_t := mk_chdr {
  devid : Z; vndid : Z; stat : Z; cmd : Z; cls : Z; subcls : Z; progif : Z; revid : Z; bist : Z; hdrt : Z; lattmr : Z; cachesz : Z }.

Record virtio_dev_t := mk_vdev {
  v_bus : Z; v_slot : Z; v_fn : Z; v_devid : Z; iobase : Z; v_irq : Z; modern : bool;
  common_cfg : Z; notify_cfg : Z; isr_cfg : Z; device_cfg : Z; notify_off_multiplier : Z }.

Definition pci_addr (bus slot fn off : Z) : Z :=
  u32 (Z.lor (Z.lor (Z.lor (Z.lor (Z.shiftl (u8 bus) 16) (Z.shiftl (u8 slot) 11)) (Z.shiftl (u8 fn) 8)) (Z.land (u8 off) 0xFC)) 0x80000000).

(** Outcome of a search. *)
Inductive scan (A : Type) := Seen (n : Z) | Hit (a : A).
Arguments Seen {A}.
Arguments Hit {A}.

Section pci.
Context {D : Type} (H : hw D).
Notation MD := (M D).

Definition pci_cfg_inl (bus slot fn off : Z) : MD Z := _ ← outl H 0xCF8 (pci_addr bus slot fn off); inl H 0xCFC.
Definition pci_cfg_inb (bus slot fn off : Z) : MD Z :=
  _ ← outl H 0xCF8 (pci_addr bus slot fn off);
  v ← inl H 0xCFC; mret (Z.land (Z.shiftr v (Z.land off 3 * 8)) 0xFF).
Definition pci_cfg_inw (bus slot fn off : Z) : MD Z :=
  _ ← outl H 0xCF8 (pci_addr bus slot fn off);
  v ← inl H 0xCFC; mret (Z.land (Z.shiftr v (Z.land off 2 * 8)) 0xFFFF).
Definition pci_cfg_outb (bus slot fn off val : Z) : MD unit :=
  _ ← outl H 0xCF8 (pci_addr bus slot fn off);
  v ← inl H 0xCFC;
  outl H 0xCFC (u32 (Z.lor (Z.land v (u32 (Z.lnot (Z.shiftl 0xFF (Z.land off 3 * 8))))) (Z.shiftl val (Z.land off 3 * 8)))).
Definition pci_cfg_outw (bus slot fn off val : Z) : MD unit :=
  _ ← outl H 0xCF8 (pci_addr bus slot fn off);
  v ← inl H 0xCFC;
  outl H 0xCFC (u32 (Z.lor (Z.land v (u32 (Z.lnot (Z.shiftl 0xFFFF (Z.land off 2 * 8))))) (Z.shiftl val (Z.land off 2 * 8)))).
Definition pci_cfg_outl (bus slot fn off val : Z) : MD unit :=
  _ ← outl H 0xCF8 (pci_addr bus slot fn off); outl H 0xCFC val.

Definition pci_get_chdr_fn (bus slot fn : Z) : MD pci_chdr_t :=
  r0 ← pci_cfg_inl bus slot fn 0x00;
  r1 ← pci_cfg_inl bus slot fn 0x04;
  r2 ← pci_cfg_inl bus slot fn 0x08;
  r3 ← pci_cfg_inl bus slot fn 0x0C;
  let b n r := Z.land (Z.shiftr r n) 0xFF in
  mret (mk_chdr (Z.land (Z.shiftr r0 16) 0xFFFF) (Z.land r0 0xFFFF) (Z.land (Z.shiftr r1 16) 0xFFFF) (Z.land r1 0xFFFF)
    (b 24 r2) (b 16 r2) (b 8 r2) (Z.land r2 0xFF) (b 24 r3) (b 16 r3) (b 8 r3) (Z.land r3 0xFF)).
Definition pci_get_chdr (bus slot : Z) : MD pci_chdr_t := pci_get_chdr_fn bus slot 0.

Definition pci_read_bar (bus slot fn bar_idx : Z) : MD Z :=
  if 6 <=? bar_idx then mret 0 else pci_cfg_inl bus slot fn (u8 (0x10 + bar_idx * 4)).

Definition pci_read_bar64 (bus slot fn bar_idx : Z) : MD Z :=
  low ← pci_read_bar bus slot fn bar_idx;
  if negb (Z.land low 0x06 =? 0x04) || (5 <=? bar_idx) then mret low else
  high ← pci_read_bar bus slot fn (bar_idx + 1);
  mret (Z.lor (Z.shiftl high 32) (Z.land low (2 ^ 64 - 16))).

(** ** Finding a device *)

Definition virtio_pci_maxfn (bus slot : Z) : MD Z :=
  hdr ← pci_get_chdr_fn bus slot 0;
  if (vndid hdr =? 0xFFFF) || (vndid hdr =? 0) then mret 0
  else mret (if negb (Z.land (hdrt hdr) 0x80 =? 0) then 8 else 1).

Definition is_virtio (hdr : pci_chdr_t) (id : Z) : bool :=
  if (vndid hdr =? 0xFFFF) || (vndid hdr =? 0) || negb (vndid hdr =? VIRTIO_VENDOR_ID) then false
  else if devid hdr =? id then true
  else if (id =? VIRTIO_DEV_NET) && (devid hdr =? VIRTIO_DEV_MODERN_NET) then true
  else if (id =? VIRTIO_DEV_BLOCK) && (devid hdr =? VIRTIO_DEV_MODERN_BLOCK) then true
  else if (id =? VIRTIO_DEV_RNG) && (devid hdr =? VIRTIO_DEV_MODERN_RNG) then true
  else (id =? VIRTIO_DEV_INPUT) && (devid hdr =? VIRTIO_DEV_MODERN_INPUT).

Definition virtio_pci_isfunc (bus slot fn id : Z) : MD bool :=
  hdr ← pci_get_chdr_fn bus slot fn; mret (is_virtio hdr id).

(** What a capability of the vendor says. *)
Definition cap_region (bus slot fn cap cap_len : Z) (dev : virtio_dev_t) : MD virtio_dev_t :=
  cfg_type ← pci_cfg_inb bus slot fn (u8 (cap + 3));
  bar ← pci_cfg_inb bus slot fn (u8 (cap + 4));
  offset ← pci_cfg_inl bus slot fn (u8 (cap + 8));
  length ← pci_cfg_inl bus slot fn (u8 (cap + 12));
  if (bar <? 6) && negb (length =? 0) then
    base ← pci_read_bar64 bus slot fn bar;
    let region := u64 (HHDM_START + base + offset) in
    let with_regions c n i d m := mk_vdev (v_bus dev) (v_slot dev) (v_fn dev) (v_devid dev) (iobase dev) (v_irq dev) (modern dev) c n i d m in
    if cfg_type =? 1 then mret (with_regions region (notify_cfg dev) (isr_cfg dev) (device_cfg dev) (notify_off_multiplier dev))
    else if cfg_type =? 2 then
      m ← (if 20 <=? cap_len then pci_cfg_inl bus slot fn (u8 (cap + 16)) else mret (notify_off_multiplier dev));
      mret (with_regions (common_cfg dev) region (isr_cfg dev) (device_cfg dev) m)
    else if cfg_type =? 3 then mret (with_regions (common_cfg dev) (notify_cfg dev) region (device_cfg dev) (notify_off_multiplier dev))
    else if cfg_type =? 4 then mret (with_regions (common_cfg dev) (notify_cfg dev) (isr_cfg dev) region (notify_off_multiplier dev))
    else mret dev
  else mret dev.

Fixpoint cap_loop (fuel : nat) (bus slot fn cap : Z) (dev : virtio_dev_t) : MD virtio_dev_t :=
  if negb (0x40 <=? cap) then mret dev else
  match fuel with
  | O => fault
  | S fuel' =>
      cap_id ← pci_cfg_inb bus slot fn cap;
      cap_len ← pci_cfg_inb bus slot fn (u8 (cap + 2));
      next ← pci_cfg_inb bus slot fn (u8 (cap + 1));
      dev' ← (if (cap_id =? 0x09) && (16 <=? cap_len) then cap_region bus slot fn cap cap_len dev else mret dev);
      cap_loop fuel' bus slot fn next dev'
  end.

(** [dev0]: what the structure held before. *)
Definition virtio_pci_initfn (fuel : nat) (dev0 : virtio_dev_t) (bus slot fn inten : Z) : MD (Z * virtio_dev_t) :=
  hdr ← pci_get_chdr_fn bus slot fn;
  irq ← pci_cfg_inb bus slot fn 0x3C;
  let dev := mk_vdev (u8 bus) (u8 slot) (v_fn dev0) (devid hdr) (iobase dev0) irq false 0 0 0 0 (notify_off_multiplier dev0) in
  cap ← pci_cfg_inb bus slot fn 0x34;
  dev ← cap_loop fuel bus slot fn cap dev;
  pcicmd ← pci_cfg_inw bus slot fn 0x04;
  let pcicmd := Z.lor pcicmd 7 in
  let pcicmd := if negb (inten =? 0) then Z.land pcicmd (Z.lnot (2 ^ 10)) else Z.lor pcicmd (2 ^ 10) in
  _ ← pci_cfg_outw bus slot fn 0x04 pcicmd;
  if negb (common_cfg dev =? 0) && negb (notify_cfg dev =? 0) && negb (isr_cfg dev =? 0) && negb (device_cfg dev =? 0) then
    mret (0, mk_vdev (v_bus dev) (v_slot dev) (v_fn dev) (v_devid dev) (iobase dev) (v_irq dev) true
               (common_cfg dev) (notify_cfg dev) (isr_cfg dev) (device_cfg dev) (notify_off_multiplier dev))
  else
    bar0 ← pci_read_bar bus slot fn 0;
    if Z.land bar0 1 =? 0 then mret (- EINVAL, dev) else
    mret (0, mk_vdev (v_bus dev) (v_slot dev) (v_fn dev) (v_devid dev) (u16 (Z.land bar0 (Z.lnot 3))) (v_irq dev) false
               (common_cfg dev) (notify_cfg dev) (isr_cfg dev) (device_cfg dev) (notify_off_multiplier dev)).

(** The loops over functions, slots and busses: the number of matches so far, or the
    answer of [hit] at the function looked for. *)
Context {A : Type} (hit : Z -> Z -> Z -> MD A).

Fixpoint fn_loop (n : nat) (bus slot fn id nth found : Z) : MD (scan A) :=
  match n with
  | O => mret (Seen found)
  | S n' =>
      b ← virtio_pci_isfunc bus slot fn id;
      if b : bool then
        if negb (found =? nth) then fn_loop n' bus slot (fn + 1) id nth (u8 (found + 1))
        else a ← hit bus slot fn; mret (Hit a)
      else fn_loop n' bus slot (fn + 1) id nth found
  end.

Fixpoint slot_loop (n : nat) (bus slot id nth found : Z) : MD (scan A) :=
  match n with
  | O => mret (Seen found)
  | S n' =>
      maxfn ← virtio_pci_maxfn bus slot;
      r ← fn_loop (Z.to_nat maxfn) bus slot 0 id nth found;
      match r with Seen found' => slot_loop n' bus (slot + 1) id nth found' | Hit a => mret (Hit a) end
  end.

Fixpoint bus_loop (n : nat) (bus id nth found : Z) : MD (scan A) :=
  match n with
  | O => mret (Seen found)
  | S n' =>
      r ← slot_loop 32 bus 0 id nth found;
      match r with Seen found' => bus_loop n' (bus + 1) id nth found' | Hit a => mret (Hit a) end
  end.

End pci.

Definition virtio_find_pci_device_nth {D} (H : hw D) (fuel : nat) (dev0 : virtio_dev_t) (id inten nth : Z) : M D (Z * virtio_dev_t) :=
  r ← bus_loop H (fun bus slot fn => virtio_pci_initfn H fuel dev0 bus slot fn inten) 256 0 id nth 0;
  mret (match r with Seen _ => (-1, dev0) | Hit a => a end).
Definition virtio_find_pci_device {D} (H : hw D) (fuel : nat) (dev0 : virtio_dev_t) (id inten : Z) : M D (Z * virtio_dev_t) :=
  virtio_find_pci_device_nth H fuel dev0 id inten 0.

(** ** Talking to it *)

Section device.
Context {D : Type} (H : hw D) (dev : virtio_dev_t).
Notation MD := (M D).

Definition virtio_get_status : MD Z :=
  if modern dev then ld8 H (u64 (common_cfg dev + 0x14)) else inb H (iobase dev + VIRTIO_REG_DEVICE_STATUS).
Definition virtio_set_status (status : Z) : MD unit :=
  if modern dev then st8 H (u64 (common_cfg dev + 0x14)) status else outb H (iobase dev + VIRTIO_REG_DEVICE_STATUS) status.
Definition virtio_reset : MD unit := virtio_set_status VIRTIO_STATUS_RESET.
Definition virtio_add_status (status : Z) : MD unit := curr ← virtio_get_status; virtio_set_status (Z.lor curr status).

Definition virtio_get_features : MD Z :=
  if modern dev then _ ← st32 H (u64 (common_cfg dev + 0)) 0; ld32 H (u64 (common_cfg dev + 4))
  else inl H (iobase dev + VIRTIO_REG_DEVICE_FEATURES).

Definition virtio_get_features64 : MD Z :=
  if negb (modern dev) then virtio_get_features else
  _ ← st32 H (u64 (common_cfg dev + 0)) 0; lo ← ld32 H (u64 (common_cfg dev + 4));
  _ ← st32 H (u64 (common_cfg dev + 0)) 1; hi ← ld32 H (u64 (common_cfg dev + 4));
  mret (Z.lor lo (Z.shiftl hi 32)).

Definition virtio_set_features (features : Z) : MD unit :=
  if modern dev then
    df ← virtio_get_features64;
    _ ← st32 H (u64 (common_cfg dev + 8)) 0;
    _ ← st32 H (u64 (common_cfg dev + 0x0c)) features;
    _ ← st32 H (u64 (common_cfg dev + 8)) 1;
    _ ← st32 H (u64 (common_cfg dev + 0x0c)) (Z.land (Z.shiftr df 32) 1);
    virtio_add_status VIRTIO_STATUS_FEATURES_OK
  else outl H (iobase dev + VIRTIO_REG_GUEST_FEATURES) features.

Definition virtio_set_features64 (features : Z) : MD unit :=
  if negb (modern dev) then virtio_set_features (u32 features) else
  _ ← st32 H (u64 (common_cfg dev + 8)) 0;
  _ ← st32 H (u64 (common_cfg dev + 0x0c)) (u32 features);
  _ ← st32 H (u64 (common_cfg dev + 8)) 1;
  st32 H (u64 (common_cfg dev + 0x0c)) (u32 (Z.shiftr features 32)).

Definition virtio_read_config8 (offset : Z) : MD Z :=
  if modern dev then ld8 H (u64 (device_cfg dev + offset)) else inb H (iobase dev + VIRTIO_REG_CONFIG_LEGACY + offset).
Definition virtio_read_config16 (offset : Z) : MD Z :=
  if modern dev then ld16 H (u64 (device_cfg dev + offset)) else inw H (iobase dev + VIRTIO_REG_CONFIG_LEGACY + offset).
Definition virtio_read_config32 (offset : Z) : MD Z :=
  if modern dev then ld32 H (u64 (device_cfg dev + offset)) else inl H (iobase dev + VIRTIO_REG_CONFIG_LEGACY + offset).
Definition virtio_read_config64 (offset : Z) : MD Z :=
  lo ← virtio_read_config32 offset; hi ← virtio_read_config32 (u8 (offset + 4)); mret (Z.lor (Z.shiftl hi 32) lo).
Definition virtio_read_isr : MD Z :=
  if modern dev then ld8 H (isr_cfg dev) else inb H (iobase dev + VIRTIO_REG_ISR_STATUS).

End device.

(** ** What the code relies on *)

(** The address port selects a register, the data port is a window on it; what a
    register makes of a value written to it is its own affair. *)
Class config_ports {D : Type} (H : hw D) := {
  cfg : D -> Z -> Z;
  cfg_addr : D -> Z;
  stored : Z -> Z -> Z -> Z;
  law_select : forall d a, fits 4 a -> exists d', outl H 0xCF8 a d = Done d' tt /\ cfg d' = cfg d /\ cfg_addr d' = a;
  law_fetch : forall d, exists d', inl H 0xCFC d = Done d' (cfg d (cfg_addr d)) /\ cfg d' = cfg d /\ cfg_addr d' = cfg_addr d;
  law_store : forall d v, exists d', outl H 0xCFC v d = Done d' tt /\
    forall a, cfg d' a = if a =? cfg_addr d then stored a (cfg d a) v else cfg d a
}.

(** The configuration space as a function of the address, and what is read from it. *)
Notation space := (Z -> Z).
Definition dword (c : space) (bus slot fn off : Z) : Z := c (pci_addr bus slot fn off).
Definition cbyte (c : space) (bus slot fn off : Z) : Z := Z.land (Z.shiftr (dword c bus slot fn off) (Z.land off 3 * 8)) 0xFF.

Definition header (c : space) (bus slot fn : Z) : pci_chdr_t :=
  let r0 := dword c bus slot fn 0 in let r1 := dword c bus slot fn 4 in let r2 := dword c bus slot fn 8 in let r3 := dword c bus slot fn 12 in
  let b n r := Z.land (Z.shiftr r n) 0xFF in
  mk_chdr (Z.land (Z.shiftr r0 16) 0xFFFF) (Z.land r0 0xFFFF) (Z.land (Z.shiftr r1 16) 0xFFFF) (Z.land r1 0xFFFF)
    (b 24 r2) (b 16 r2) (b 8 r2) (Z.land r2 0xFF) (b 24 r3) (b 16 r3) (b 8 r3) (Z.land r3 0xFF).

Definition nfuncs (c : space) (bus slot : Z) : Z :=
  let hdr := header c bus slot 0 in
  if (vndid hdr =? 0xFFFF) || (vndid hdr =? 0) then 0 else if negb (Z.land (hdrt hdr) 0x80 =? 0) then 8 else 1.

Section reading.
Context {D : Type} (H : hw D) `{!config_ports H}.
Notation MD := (M D).

(** A computation that only looks at the configuration space. *)
Definition reads {A} (m : MD A) (f : space -> A) : Prop := forall d, exists d', m d = Done d' (f (cfg d)) /\ cfg d' = cfg d.

Lemma reads_ret {A} (a : A) : reads (mret a) (fun _ => a).
Proof. intros d. by exists d. Qed.

Lemma reads_bind {A B} (m : MD A) f (k : A -> MD B) g : reads m f -> (forall a, reads (k a) (g a)) -> reads (m ≫= k) (fun c => g (f c) c).
Proof.
  intros Hm Hk d. destruct (Hm d) as (d1 & E1 & C1). rewrite (bind_done _ _ _ _ _ E1). destruct (Hk (f (cfg d)) d1) as (d2 & E2 & C2).
  exists d2. rewrite E2, C1, C2. done.
Qed.

Lemma addr_fits bus slot fn off : fits 4 (pci_addr bus slot fn off).
Proof. unfold fits, pci_addr, wrap. by apply Z.mod_pos_bound. Qed.

Lemma reads_inl bus slot fn off : reads (pci_cfg_inl H bus slot fn off) (fun c => dword c bus slot fn off).
Proof.
  intros d. unfold pci_cfg_inl. destruct (law_select d _ (addr_fits bus slot fn off)) as (d1 & E1 & C1 & A1). rewrite (bind_done _ _ _ _ _ E1).
  destruct (law_fetch d1) as (d2 & E2 & C2 & _). exists d2. rewrite E2, C2, A1, C1. done.
Qed.

Lemma reads_inb bus slot fn off : reads (pci_cfg_inb H bus slot fn off) (fun c => cbyte c bus slot fn off).
Proof.
  intros d. unfold pci_cfg_inb. destruct (law_select d _ (addr_fits bus slot fn off)) as (d1 & E1 & C1 & A1). rewrite (bind_done _ _ _ _ _ E1).
  destruct (law_fetch d1) as (d2 & E2 & C2 & _). rewrite (bind_done _ _ _ _ _ E2). exists d2. rewrite C2, A1, C1. done.
Qed.

Lemma reads_header bus slot fn : reads (pci_get_chdr_fn H bus slot fn) (fun c => header c bus slot fn).
Proof.
  apply (reads_bind _ _ _ (fun r0 c => let r1 := dword c bus slot fn 4 in let r2 := dword c bus slot fn 8 in let r3 := dword c bus slot fn 12 in
    let b n r := Z.land (Z.shiftr r n) 0xFF in mk_chdr (Z.land (Z.shiftr r0 16) 0xFFFF) (Z.land r0 0xFFFF) (Z.land (Z.shiftr r1 16) 0xFFFF) (Z.land r1 0xFFFF)
    (b 24 r2) (b 16 r2) (b 8 r2) (Z.land r2 0xFF) (b 24 r3) (b 16 r3) (b 8 r3) (Z.land r3 0xFF)) (reads_inl bus slot fn 0)). intros r0.
  intros d. destruct (reads_inl bus slot fn 4 d) as (d1 & E1 & C1). rewrite (bind_done _ _ _ _ _ E1).
  destruct (reads_inl bus slot fn 8 d1) as (d2 & E2 & C2). rewrite (bind_done _ _ _ _ _ E2). destruct (reads_inl bus slot fn 12 d2) as (d3 & E3 & C3).
  rewrite (bind_done _ _ _ _ _ E3). exists d3. rewrite C3, C2, C1. done.
Qed.

Lemma reads_isfunc bus slot fn id : reads (virtio_pci_isfunc H bus slot fn id) (fun c => is_virtio (header c bus slot fn) id).
Proof. apply (reads_bind _ _ _ (fun hdr _ => is_virtio hdr id) (reads_header bus slot fn)). intros hdr. apply reads_ret. Qed.

Lemma reads_maxfn bus slot : reads (virtio_pci_maxfn H bus slot) (fun c => nfuncs c bus slot).
Proof.
  apply (reads_bind _ _ _ (fun hdr _ => if (vndid hdr =? 0xFFFF) || (vndid hdr =? 0) then 0 else if negb (Z.land (hdrt hdr) 0x80 =? 0) then 8 else 1) (reads_header bus slot 0)).
  intros hdr. split_if; apply reads_ret.
Qed.

(** ** The search *)

(** The functions in the order in which they are looked at, and those that match. *)
Definition fns_of (bus slot fn : Z) (n : nat) : list (Z * Z * Z) := map (fun i => (bus, slot, fn + Z.of_nat i)) (seq 0 n).
Definition slot_fns (c : space) (bus slot : Z) : list (Z * Z * Z) := fns_of bus slot 0 (Z.to_nat (nfuncs c bus slot)).
Definition bus_fns (c : space) (bus slot : Z) (n : nat) : list (Z * Z * Z) := flat_map (fun i => slot_fns c bus (slot + Z.of_nat i)) (seq 0 n).
Definition all_fns (c : space) (bus : Z) (n : nat) : list (Z * Z * Z) := flat_map (fun i => bus_fns c (bus + Z.of_nat i) 0 32) (seq 0 n).
Definition matching (c : space) (id : Z) (l : list (Z * Z * Z)) : list (Z * Z * Z) :=
  List.filter (fun f => is_virtio (header c f.1.1 f.1.2 f.2) id) l.

Context {A : Type} (hit : Z -> Z -> Z -> MD A) (id nth : Z).

(** The outcome [r] of scanning [l] from state [d] when [found] matches came before. *)
Definition scans (l : list (Z * Z * Z)) (found : Z) (d : D) (r : outcome D (scan A)) : Prop :=
  exists d', cfg d' = cfg d /\
    match matching (cfg d) id l !! Z.to_nat (nth - found) with
    | Some (b, s, f) => r = (a ← hit b s f; mret (Hit a)) d'
    | None => r = Done d' (Seen (found + Z.of_nat (length (matching (cfg d) id l))))
    end.

Lemma matching_app c l1 l2 : matching c id (l1 ++ l2) = matching c id l1 ++ matching c id l2.
Proof. apply List.filter_app. Qed.

(** One scan after another. *)
Lemma scans_app l1 l2 found d (m : MD (scan A)) (k : Z -> MD (scan A)) : 0 <= found <= nth -> scans l1 found d (m d) ->
  (forall f d1, 0 <= f <= nth -> cfg d1 = cfg d -> scans l2 f d1 (k f d1)) ->
  scans (l1 ++ l2) found d ((r ← m; match r with Seen f => k f | Hit a => mret (Hit a) end) d).
Proof.
  intros Hf (d1 & C1 & E1) Hk. unfold scans. rewrite matching_app. destruct (matching (cfg d) id l1 !! _) as [[[b s] f]|] eqn:El.
  - exists d1. split; [done|]. rewrite (lookup_app_l_Some _ _ _ _ El). unfold mbind at 1, M_bind. rewrite E1. unfold mbind, M_bind. by destruct (hit b s f d1).
  - apply lookup_ge_None in El. set (n1 := length (matching (cfg d) id l1)) in *. rewrite (bind_done _ _ _ _ _ E1).
    destruct (Hk (found + Z.of_nat n1) d1 ltac:(lia) C1) as (d2 & C2 & E2). exists d2. split; [congruence|]. rewrite C1 in E2.
    rewrite lookup_app_r by done. fold n1. replace (Z.to_nat (nth - found) - n1)%nat with (Z.to_nat (nth - (found + Z.of_nat n1))) by lia.
    destruct (matching (cfg d) id l2 !! _) as [[[b s] f]|]; [done|]. rewrite E2. do 2 f_equal. rewrite length_app. fold n1. lia.
Qed.

Lemma fns_cons bus slot fn n : fns_of bus slot fn (S n) = (bus, slot, fn) :: fns_of bus slot (fn + 1) n.
Proof. unfold fns_of. cbn [seq map]. rewrite Z.add_0_r. f_equal. rewrite <- seq_shift, map_map. apply map_ext. intros i. f_equal. lia. Qed.

Lemma fn_loop_scans n : forall bus slot fn found d, 0 <= found <= nth -> nth < 256 -> scans (fns_of bus slot fn n) found d (fn_loop H hit n bus slot fn id nth found d).
Proof.
  induction n as [|n IH]; intros bus slot fn found d Hf Hn; [by exists d; rewrite Z.add_0_r|]. rewrite fns_cons. cbn [fn_loop].
  destruct (reads_isfunc bus slot fn id d) as (d1 & E1 & C1). rewrite (bind_done _ _ _ _ _ E1). unfold scans, matching in *. cbn [List.filter fst snd].
  destruct (is_virtio (header (cfg d) bus slot fn) id).
  - destruct (Z.eqb_spec found nth) as [->|Hne]; cbn [negb].
    + exists d1. split; [done|]. by rewrite Z.sub_diag.
    + rewrite wrap_small by lia. destruct (IH bus slot (fn + 1) (found + 1) d1 ltac:(lia) Hn) as (d2 & C2 & E2). exists d2. split; [congruence|].
      rewrite C1 in E2. replace (Z.to_nat (nth - found)) with (S (Z.to_nat (nth - (found + 1)))) by lia. cbn [lookup list_lookup length].
      destruct (List.filter _ _ !! _) as [[[b s] f]|]; [done|]. rewrite E2. do 2 f_equal. lia.
  - destruct (IH bus slot (fn + 1) found d1 Hf Hn) as (d2 & C2 & E2). exists d2. split; [congruence|]. by rewrite C1 in E2.
Qed.

Lemma scans_nil found d : 0 <= found <= nth -> scans [] found d (Done d (Seen found)).
Proof. intros Hf. exists d. split; [done|]. cbn. by rewrite Z.add_0_r. Qed.

(** The space is all that a scan depends on. *)
Lemma scans_cfg l found d d1 r : cfg d1 = cfg d -> scans l found d1 r -> scans l found d r.
Proof. intros C (d2 & C2 & E). exists d2. split; [congruence|]. by rewrite C in E. Qed.

Lemma slot_loop_scans n : forall bus slot found d, 0 <= found <= nth -> nth < 256 ->
  scans (bus_fns (cfg d) bus slot n) found d (slot_loop H hit n bus slot id nth found d).
Proof.
  induction n as [|n IH]; intros bus slot found d Hf Hn; [by apply scans_nil|]. unfold bus_fns. cbn [slot_loop seq flat_map]. rewrite Z.add_0_r.
  destruct (reads_maxfn bus slot d) as (d1 & E1 & C1). rewrite (bind_done _ _ _ _ _ E1). apply (scans_cfg _ _ d d1); [done|]. apply scans_app; [done|by apply fn_loop_scans|].
  intros f d2 Hf2 C2. specialize (IH bus (slot + 1) f d2 Hf2 Hn). rewrite C2, C1 in IH. unfold bus_fns in IH. rewrite <- seq_shift, flat_map_concat_map, map_map, <- flat_map_concat_map.
  erewrite flat_map_ext; [exact IH|]. intros i. cbn. f_equal. lia.
Qed.

Lemma bus_loop_scans n : forall bus found d, 0 <= found <= nth -> nth < 256 ->
  scans (all_fns (cfg d) bus n) found d (bus_loop H hit n bus id nth found d).
Proof.
  induction n as [|n IH]; intros bus found d Hf Hn; [by apply scans_nil|]. unfold all_fns. cbn [bus_loop seq flat_map]. rewrite Z.add_0_r.
  apply scans_app; [done|by apply slot_loop_scans|]. intros f d2 Hf2 C2. specialize (IH (bus + 1) f d2 Hf2 Hn). rewrite C2 in IH. unfold all_fns in IH.
  rewrite <- seq_shift, flat_map_concat_map, map_map, <- flat_map_concat_map. erewrite flat_map_ext; [exact IH|]. intros i. cbv beta. f_equal. lia.
Qed.

End reading.

(** C20. The search finds the [nth] of the functions that match, in the order of busses,
    slots and functions, and initialises it; when there are fewer it reports so and
    has changed nothing in the configuration space. *)
Theorem virtio_find_nth {D} (H : hw D) `{!config_ports H} fuel dev0 id inten nth d : 0 <= nth < 256 ->
  exists d', cfg d' = cfg d /\
    virtio_find_pci_device_nth H fuel dev0 id inten nth d =
      match matching (cfg d) id (all_fns (cfg d) 0 256) !! Z.to_nat nth with
      | Some (bus, slot, fn) => virtio_pci_initfn H fuel dev0 bus slot fn inten d'
      | None => Done d' (-1, dev0)
      end.
Proof.
  intros Hn. destruct (bus_loop_scans H (fun bus slot fn => virtio_pci_initfn H fuel dev0 bus slot fn inten) id nth 256 0 0 d ltac:(lia) ltac:(lia)) as (d' & C & E).
  exists d'. split; [done|]. unfold virtio_find_pci_device_nth. rewrite Z.sub_0_r in E.
  destruct (matching _ _ _ !! _) as [[[b s] f]|]; [|by rewrite (bind_done _ _ _ _ _ E)]. unfold mbind at 1, M_bind. rewrite E. unfold mbind, M_bind.
  by destruct (virtio_pci_initfn H fuel dev0 b s f inten d').
Qed.

(** ** The walk of the capabilities *)

Section walk.
Context {D : Type} (H : hw D) `{!config_ports H} (bus slot fn : Z).
Notation MD := (M D).

(** The capabilities from [cap] on, as far as their pointers lead. *)
Inductive chain (c : space) : Z -> list Z -> Prop :=
| chain_end cap : cap < 0x40 -> chain c cap []
| chain_next cap l : 0x40 <= cap < 256 -> chain c (cbyte c bus slot fn (u8 (cap + 1))) l -> chain c cap (cap :: l).

Lemma chain_det c cap l1 : chain c cap l1 -> forall l2, chain c cap l2 -> l1 = l2.
Proof.
  induction 1 as [cap Hc|cap l Hc Hl IH]; intros l2 H2; inversion H2; subst; try lia; [done|]. f_equal. by apply IH.
Qed.

Lemma chain_suffix c l1 : forall cap x l2, chain c cap (l1 ++ x :: l2) -> chain c x (x :: l2).
Proof. induction l1 as [|y l1 IH]; intros cap x l2 Hc; inversion Hc; subst; [done|]. by eapply IH. Qed.

(** A walk that ends meets no capability twice. *)
Lemma chain_NoDup c cap l : chain c cap l -> NoDup l.
Proof.
  induction 1 as [|cap l Hc Hl IH]; [constructor|]. apply NoDup_cons. split; [|done]. intros (l1 & l2 & ->)%list_elem_of_split.
  assert (chain c cap (cap :: l1 ++ cap :: l2)) as H1 by (by constructor). pose proof (chain_suffix c (cap :: l1) cap cap l2 H1) as H2.
  pose proof (f_equal length (chain_det c cap _ H1 _ H2)) as E. cbn in E. rewrite length_app in E. cbn in E. lia.
Qed.

Lemma chain_bound c cap l : chain c cap l -> (length l <= 192)%nat.
Proof.
  intros Hc. assert (forall x, x ∈ l -> 0x40 <= x < 256) as Hr.
  { clear -Hc. induction Hc as [|cap l Hc Hl IH]; [by intros x Hx%not_elem_of_nil|]. intros x [->|Hx]%elem_of_cons; [done|by apply IH]. }
  assert (l ⊆+ seqZ 64 192) as Hs by (apply NoDup_submseteq; [by eapply chain_NoDup|]; intros x Hx; apply elem_of_seqZ; specialize (Hr x Hx); lia).
  apply submseteq_length in Hs. by rewrite length_seqZ in Hs.
Qed.

(** Computations that always return and leave the configuration space alone. *)
Definition looks {A} (m : MD A) : Prop := forall d, exists d' a, m d = Done d' a /\ cfg d' = cfg d.

Lemma looks_ret {A} (a : A) : looks (mret a).
Proof. intros d. by exists d, a. Qed.
Lemma looks_bind {A B} (m : MD A) (k : A -> MD B) : looks m -> (forall a, looks (k a)) -> looks (m ≫= k).
Proof.
  intros Hm Hk d. destruct (Hm d) as (d1 & a & E1 & C1). destruct (Hk a d1) as (d2 & b & E2 & C2). exists d2, b. by rewrite (bind_done _ _ _ _ _ E1), E2, C2.
Qed.
Lemma looks_if {A} (b : bool) (m k : MD A) : looks m -> looks k -> looks (if b then m else k).
Proof. by destruct b. Qed.
Lemma looks_reads {A} (m : MD A) f : reads H m f -> looks m.
Proof. intros Hr d. destruct (Hr d) as (d' & E & C). by eexists _, _. Qed.

Lemma looks_bar64 i : looks (pci_read_bar64 H bus slot fn i).
Proof.
  assert (forall i, looks (pci_read_bar H bus slot fn i)) as Hb by (intros k; apply looks_if; [apply looks_ret|apply (looks_reads _ _ (reads_inl H _ _ _ _))]).
  apply looks_bind; [apply Hb|]. intros low. apply looks_if; [apply looks_ret|]. apply looks_bind; [apply Hb|]. intros. apply looks_ret.
Qed.

Lemma looks_region cap len dev : looks (cap_region H bus slot fn cap len dev).
Proof.
  unfold cap_region. do 2 (apply looks_bind; [apply (looks_reads _ _ (reads_inb H _ _ _ _))|]; intros). do 2 (apply looks_bind; [apply (looks_reads _ _ (reads_inl H _ _ _ _))|]; intros).
  apply looks_if; [|apply looks_ret]. apply looks_bind; [apply looks_bar64|]. intros base. repeat apply looks_if; try apply looks_ret.
  apply looks_bind; [apply looks_if; [apply (looks_reads _ _ (reads_inl H _ _ _ _))|apply looks_ret]|]. intros. apply looks_ret.
Qed.

(** When the pointers of a device lead to an end, the walk ends, within 192 steps:
    there is room for no more capabilities.  Nothing is written. *)
Theorem cap_walk_ends cap l dev d : chain (cfg d) cap l ->
  exists d' dev', cap_loop H 192 bus slot fn cap dev d = Done d' dev' /\ cfg d' = cfg d.
Proof.
  intros Hc. pose proof (chain_bound _ _ _ Hc) as Hl. revert Hl. generalize 192%nat. intros fuel Hl.
  remember (cfg d) as c eqn:Ec. revert fuel dev d Hl Ec. induction Hc as [cap Hc|cap l Hc Hl' IH]; intros fuel dev d Hl Ec.
  - exists d, dev. split; [|done]. destruct fuel; cbn [cap_loop]; by rewrite (proj2 (Z.leb_gt 0x40 cap)) by lia.
  - destruct fuel as [|fuel]; cbn [length] in Hl; [lia|]. cbn [cap_loop]. rewrite (proj2 (Z.leb_le 0x40 cap)) by lia. cbn [negb].
    destruct (reads_inb H bus slot fn cap d) as (d1 & E1 & C1). rewrite (bind_done _ _ _ _ _ E1).
    destruct (reads_inb H bus slot fn (u8 (cap + 2)) d1) as (d2 & E2 & C2). rewrite (bind_done _ _ _ _ _ E2).
    destruct (reads_inb H bus slot fn (u8 (cap + 1)) d2) as (d3 & E3 & C3). rewrite (bind_done _ _ _ _ _ E3).
    assert (forall b, looks (if b : bool then cap_region H bus slot fn cap (cbyte (cfg d1) bus slot fn (u8 (cap + 2))) dev else mret dev)) as Hk
      by (intros b; apply looks_if; [apply looks_region|apply looks_ret]).
    edestruct Hk as (d4 & dev' & E4 & C4). rewrite (bind_done _ _ _ _ _ E4). rewrite C2, C1, <- Ec.
    destruct (IH fuel dev' d4 ltac:(lia) ltac:(congruence)) as (d5 & dev5 & E5 & C5). exists d5, dev5. rewrite E5. split; [done|congruence].
Qed.

(** A capability that points to itself is walked for ever. *)
Lemma cap_cycle_hangs cap fuel : 0x40 <= cap < 256 -> forall d dev, cbyte (cfg d) bus slot fn (u8 (cap + 1)) = cap ->
  cap_loop H fuel bus slot fn cap dev d = Fault.
Proof.
  intros Hc. induction fuel as [|fuel IH]; intros d dev Hn; cbn [cap_loop]; rewrite (proj2 (Z.leb_le 0x40 cap)) by lia; [done|]. cbn [negb].
  destruct (reads_inb H bus slot fn cap d) as (d1 & E1 & C1). rewrite (bind_done _ _ _ _ _ E1).
  destruct (reads_inb H bus slot fn (u8 (cap + 2)) d1) as (d2 & E2 & C2). rewrite (bind_done _ _ _ _ _ E2).
  destruct (reads_inb H bus slot fn (u8 (cap + 1)) d2) as (d3 & E3 & C3). rewrite (bind_done _ _ _ _ _ E3).
  assert (forall b, looks (if b : bool then cap_region H bus slot fn cap (cbyte (cfg d1) bus slot fn (u8 (cap + 2))) dev else mret dev)) as Hk
    by (intros b; apply looks_if; [apply looks_region|apply looks_ret]).
  edestruct Hk as (d4 & dev' & E4 & C4). rewrite (bind_done _ _ _ _ _ E4), C2, C1, Hn. apply IH. by rewrite C4, C3, C2, C1.
Qed.

End walk.

(** ** A machine with one device *)

Record ports := mk_ports { p_addr : Z; p_space : Z -> Z }.

(** Registers that cannot be changed. *)
Definition ports_hw : hw ports :=
  mk_hw (inb dead) (outb dead) (inw dead) (outw dead)
    (fun p d => Done d (if p =? 0xCFC then p_space d (p_addr d) else 0))
    (fun p v d => Done (if p =? 0xCF8 then mk_ports v (p_space d) else d) tt)
    (ld8 dead) (st8 dead) (ld16 dead) (st16 dead) (ld32 dead) (st32 dead) (ld64 dead) (st64 dead) (rdtsc dead) (cpuid dead) (rdmsr dead) (wrmsr dead).

#[export] Instance ports_keep : config_ports ports_hw.
Proof.
  refine {| cfg := p_space; cfg_addr := p_addr; stored _ old _ := old |}.
  - intros d a _. by eexists.
  - intros d. by exists d.
  - intros d v. exists d. split; [done|]. intros a. by split_if.
Defined.

(** A block device in slot 3 of bus 0, with two capabilities. *)
Definition pc_space (a : Z) : Z :=
  if a =? pci_addr 0 3 0 0 then 0x10011AF4
  else if a =? pci_addr 0 3 0 0x0C then 0
  else if a =? pci_addr 0 3 0 0x34 then 0x40
  else if a =? pci_addr 0 3 0 0x40 then 0x5009
  else if a =? pci_addr 0 3 0 0x50 then 0x0011
  else 0xFFFFFFFF.
Definition pc_ports : ports := mk_ports 0 pc_space.
Definition no_dev : virtio_dev_t := mk_vdev 0 0 0 0 0 0 false 0 0 0 0 0.

Lemma virtio_find_nth_witness : matching pc_space VIRTIO_DEV_BLOCK (all_fns pc_space 0 256) !! 0%nat = Some (0, 3, 0) /\
  exists d', cfg d' = cfg pc_ports /\ virtio_find_pci_device_nth ports_hw 192 no_dev VIRTIO_DEV_BLOCK 0 0 pc_ports =
    match matching (cfg pc_ports) VIRTIO_DEV_BLOCK (all_fns (cfg pc_ports) 0 256) !! Z.to_nat 0 with
    | Some (bus, slot, fn) => virtio_pci_initfn ports_hw 192 no_dev bus slot fn 0 d'
    | None => Done d' (-1, no_dev)
    end.
Proof.
  split.
  - assert (matching pc_space VIRTIO_DEV_BLOCK (bus_fns pc_space 0 0 32) !! 0%nat = Some (0, 3, 0)) as E by (by vm_compute).
    unfold all_fns. change 256%nat with (S 255). generalize 255%nat. intros n. cbn [seq flat_map]. change (0 + Z.of_nat 0) with 0.
    rewrite matching_app. by apply lookup_app_l_Some.
  - apply (virtio_find_nth ports_hw 192 no_dev VIRTIO_DEV_BLOCK 0 0 pc_ports). lia.
Defined.

Lemma cap_walk_ends_witness : exists d' dev', cap_loop ports_hw 192 0 3 0 0x40 no_dev pc_ports = Done d' dev' /\ cfg d' = cfg pc_ports.
Proof.
  apply (cap_walk_ends ports_hw 0 3 0 0x40 [0x40; 0x50] no_dev pc_ports).
  apply chain_next; [lia|]. change (cbyte (cfg pc_ports) 0 3 0 (u8 (0x40 + 1))) with 0x50.
  apply chain_next; [lia|]. change (cbyte (cfg pc_ports) 0 3 0 (u8 (0x50 + 1))) with 0. apply chain_end. lia.
Defined.

End Pci.
