(* ===== verification/Kqueue.v ===== *)
(** The kernel byte queue ([src/kern/queue.c], [include/core/kqueue.h]).

    Model: the ring buffer with its [head], [tail] and [cnt] fields at their
    declared widths; in particular [tail] is a [u8], so [kqueue_dequeue]
    truncates it after every byte.

    Theorems: for a capacity of at most 256 bytes the queue refines a bounded
    FIFO list of bytes; for a larger capacity the truncated [tail] makes it
    return stale bytes. *)
From S2P Require Import Prelude.

Module Kqueue.

Record kqueue_t := mk_kqueue {
  buf : list Z;
  sz : Z;
  head : Z;
  tail : Z; (* u8 *)
  cnt : Z
}.

(** [malloc] outcomes are arguments: [hdr_ok] for the [kqueue_t], [mem] for
    the buffer ([Some] bytes of arbitrary content, [maxsz] of them). *)
Definition kqueue_init (hdr_ok : bool) (mem : option (list Z)) (maxsz : Z) : option kqueue_t :=
  if maxsz =? 0 then None
  else if negb hdr_ok then None
  else match mem with
       | None => None
       | Some b => Some (mk_kqueue b maxsz 0 0 0)
       end.

Fixpoint enqueue_loop (n : nat) (i : Z) (data : list Z) (q : kqueue_t) : option kqueue_t :=
  match n with
  | O => Some q
  | S n' =>
      d ← aget data i;
      b ← aset (buf q) (head q) d;
      enqueue_loop n' (i + 1) data
        (mk_kqueue b (sz q) (u64 (head q + 1) mod sz q) (tail q) (cnt q))
  end.

(** [None] is an access outside [data] or [queue->buf]. *)
Definition kqueue_enqueue (q : kqueue_t) (data : list Z) (datasz : Z) : option (kqueue_t * Z) :=
  if datasz =? 0 then Some (q, 0)
  else
    let avail := u64 (sz q - cnt q) in
    let n := if datasz <? avail then datasz else avail in
    q' ← enqueue_loop (Z.to_nat n) 0 data q;
    Some (mk_kqueue (buf q') (sz q') (head q') (tail q') (u64 (cnt q' + n)), n).

Fixpoint dequeue_loop (n : nat) (q : kqueue_t) : option (kqueue_t * list Z) :=
  match n with
  | O => Some (q, [])
  | S n' =>
      d ← aget (buf q) (tail q);
      '(q', ds) ← dequeue_loop n'
        (mk_kqueue (buf q) (sz q) (head q) (u8 ((tail q + 1) mod sz q)) (cnt q));
      Some (q', d :: ds)
  end.

(** Returns the bytes written to the front of the caller's buffer. *)
Definition kqueue_dequeue (q : kqueue_t) (datasz : Z) : option (kqueue_t * list Z * Z) :=
  if datasz =? 0 then Some (q, [], 0)
  else
    let n := if datasz <? cnt q then datasz else cnt q in
    '(q', ds) ← dequeue_loop (Z.to_nat n) q;
    Some (mk_kqueue (buf q') (sz q') (head q') (tail q') (u64 (cnt q' - n)), ds, n).

Definition kqueue_queued (q : option kqueue_t) : Z :=
  match q with None => 0 | Some q => cnt q end.

(** ** Invariant and abstraction *)

(** A ring of any size; [kqueue_dequeue] keeps it so up to 256 bytes. *)
Definition kq_ring (q : kqueue_t) : Prop :=
  0 < sz q < 2 ^ 63 /\ Z.of_nat (length (buf q)) = sz q /\
  0 <= tail q < sz q /\ 0 <= cnt q <= sz q /\
  head q = (tail q + cnt q) mod sz q.

Definition kq_wf (q : kqueue_t) : Prop :=
  0 < sz q <= 256 /\ Z.of_nat (length (buf q)) = sz q /\
  0 <= tail q < sz q /\ 0 <= cnt q <= sz q /\
  head q = (tail q + cnt q) mod sz q.

(** The [c] bytes starting at index [t] of a ring of size [n]. *)
Definition ring (b : list Z) (n t c : Z) : list Z :=
  (fun i => default 0 (aget b ((t + i) mod n))) <$> seqZ 0 c.

Definition contents (q : kqueue_t) : list Z := ring (buf q) (sz q) (tail q) (cnt q).

(** ** Ring lemmas *)

Lemma ring_cons b n t c :
  0 <= t < n -> 0 < c ->
  ring b n t c = default 0 (aget b t) :: ring b n ((t + 1) mod n) (c - 1).
Proof.
  intros Ht Hc. unfold ring. rewrite seqZ_cons by lia. rewrite fmap_cons. f_equal.
  - rewrite Z.add_0_r, Z.mod_small by lia. done.
  - replace (Z.succ 0) with (0 + 1) by lia. replace (Z.pred c) with (c - 1) by lia.
    rewrite <- (fmap_add_seqZ 1 0), <- list_fmap_compose.
    apply list_fmap_ext. intros k i _. simpl.
    rewrite Z.add_mod_idemp_l by lia. do 3 f_equal. lia.
Qed.

Lemma ring_snoc b n t c :
  0 <= c -> ring b n t (c + 1) = ring b n t c ++ [default 0 (aget b ((t + c) mod n))].
Proof.
  intros Hc. unfold ring. rewrite seqZ_app by lia. rewrite fmap_app. simpl. done.
Qed.

Lemma ring_insert_out b n t c k d :
  Z.of_nat (length b) = n -> 0 <= t < n -> 0 <= c < n -> k = (t + c) mod n ->
  ring (<[Z.to_nat k := d]> b) n t c = ring b n t c.
Proof.
  intros Hl Ht Hc ->. unfold ring. apply list_fmap_ext.
  intros j i Hi%lookup_seqZ. destruct Hi as [-> Hj].
  pose proof (Z.mod_pos_bound (t + c) n ltac:(lia)).
  rewrite aget_insert by lia. case_decide as E; [|done]. exfalso.
  simpl in E. revert E.
  rewrite (Z.mod_eq (t + c)), (Z.mod_eq (t + (0 + Z.of_nat j))) by lia.
  assert ((t + c) / n = 0 \/ (t + c) / n = 1) as Hq1.
  { assert (0 <= (t + c) / n < 2); [|lia]. split; [apply Z.div_pos; lia|apply Z.div_lt_upper_bound; lia]. }
  assert ((t + (0 + Z.of_nat j)) / n = 0 \/ (t + (0 + Z.of_nat j)) / n = 1) as Hq2.
  { assert (0 <= (t + (0 + Z.of_nat j)) / n < 2); [|lia].
    split; [apply Z.div_pos; lia|apply Z.div_lt_upper_bound; lia]. }
  destruct Hq1 as [-> | ->], Hq2 as [-> | ->]; lia.
Qed.

(** One stored byte extends the ring contents at the back. *)
Lemma ring_store b n t c d :
  Z.of_nat (length b) = n -> 0 <= t < n -> 0 <= c < n ->
  ring (<[Z.to_nat ((t + c) mod n) := d]> b) n t (c + 1) = ring b n t c ++ [d].
Proof.
  intros Hl Ht Hc. rewrite ring_snoc by lia.
  pose proof (Z.mod_pos_bound (t + c) n ltac:(lia)).
  rewrite ring_insert_out by (done || lia).
  rewrite aget_insert by lia. rewrite decide_True by done. done.
Qed.

(** ** The loops *)

Lemma succ_mod n t c :
  0 < n < 2 ^ 63 -> 0 <= (t + c) mod n -> u64 ((t + c) mod n + 1) mod n = (t + (c + 1)) mod n.
Proof.
  intros Hn H0. pose proof (Z.mod_pos_bound (t + c) n ltac:(lia)).
  rewrite wrap_small by lia. rewrite Z.add_mod_idemp_l by lia. f_equal. lia.
Qed.

Lemma enqueue_loop_spec ds pre rest b n t c c0 :
  Z.of_nat (length b) = n -> 0 < n < 2 ^ 63 -> 0 <= t < n -> 0 <= c ->
  c + Z.of_nat (length ds) <= n ->
  exists b', enqueue_loop (length ds) (Z.of_nat (length pre)) (pre ++ ds ++ rest)
               (mk_kqueue b n ((t + c) mod n) t c0)
             = Some (mk_kqueue b' n ((t + (c + Z.of_nat (length ds))) mod n) t c0) /\
  Z.of_nat (length b') = n /\
  ring b' n t (c + Z.of_nat (length ds)) = ring b n t c ++ ds.
Proof.
  revert pre b c. induction ds as [|d ds IH]; intros pre b c Hl Hn Ht Hc Hle; simpl.
  - exists b. rewrite Z.add_0_r, app_nil_r. done.
  - simpl in Hle. pose proof (Z.mod_pos_bound (t + c) n ltac:(lia)) as Hm.
    rewrite (proj2 (aget_Some (pre ++ d :: ds ++ rest) _ d))
      by (split; [lia|rewrite Nat2Z.id; by apply list_lookup_middle]). simpl.
    rewrite aset_in by lia. simpl. rewrite succ_mod by lia.
    destruct (IH (pre ++ [d]) (<[Z.to_nat ((t + c) mod n) := d]> b) (c + 1))
      as (b' & E & Hl' & Hr); try (rewrite ?length_insert; lia).
    rewrite length_app, Nat2Z.inj_add in E. change (Z.of_nat (length [d])) with 1 in E.
    rewrite <- app_assoc in E. simpl in E.
    exists b'. rewrite E. split; [|split; [done|]].
    + do 2 f_equal. f_equal. lia.
    + transitivity (ring b' n t (c + 1 + Z.of_nat (length ds))); [f_equal; lia|].
      rewrite Hr, ring_store by lia. rewrite <- app_assoc. done.
Qed.

Lemma dequeue_loop_spec m b n h t c :
  Z.of_nat (length b) = n -> 0 < n <= 256 -> 0 <= t < n -> Z.of_nat m <= c ->
  forall c0, exists t', dequeue_loop m (mk_kqueue b n h t c0)
    = Some (mk_kqueue b n h t' c0, take m (ring b n t c)) /\
    t' = (t + Z.of_nat m) mod n /\
    ring b n t' (c - Z.of_nat m) = drop m (ring b n t c).
Proof.
  revert t c. induction m as [|m IH]; intros t c Hl Hn Ht Hc c0.
  - exists t. rewrite Z.add_0_r, Z.sub_0_r, Z.mod_small by lia. done.
  - cbn [dequeue_loop buf sz tail head cnt].
    destruct (aget_is_Some b t) as [d Hd]; [lia|]. rewrite Hd.
    pose proof (Z.mod_pos_bound (t + 1) n ltac:(lia)) as Hm.
    rewrite wrap_small by lia.
    destruct (IH ((t + 1) mod n) (c - 1) Hl Hn Hm ltac:(lia) c0) as (t' & E & Ht' & Hr).
    simpl. rewrite E. simpl. exists t'. rewrite (ring_cons b n t c) by lia.
    rewrite Hd. simpl. split; [done|split].
    + rewrite Ht', Z.add_mod_idemp_l by lia. f_equal. lia.
    + rewrite <- Hr. f_equal. lia.
Qed.

(** ** Correctness *)

Lemma kqueue_init_wf mem maxsz :
  0 < maxsz <= 256 -> Z.of_nat (length mem) = maxsz ->
  exists q, kqueue_init true (Some mem) maxsz = Some q /\ kq_wf q /\ contents q = [].
Proof.
  intros Hm Hl. exists (mk_kqueue mem maxsz 0 0 0). unfold kqueue_init.
  rewrite (proj2 (Z.eqb_neq _ _)) by lia. split; [done|]. split; [|done].
  unfold kq_wf; simpl. rewrite Z.mod_0_l by lia. lia.
Qed.

Lemma kqueue_enqueue_appends q data :
  kq_ring q ->
  exists q', let n := Z.min (Z.of_nat (length data)) (sz q - cnt q) in
    kqueue_enqueue q data (Z.of_nat (length data)) = Some (q', n) /\
    kq_ring q' /\ sz q' = sz q /\
    contents q' = contents q ++ take (Z.to_nat n) data.
Proof.
  intros (Hsz & Hl & Ht & Hc & Hh). unfold kqueue_enqueue. destruct q as [b s h t c].
  cbn [buf sz head tail cnt] in *. subst h.
  destruct (Z.eqb_spec (Z.of_nat (length data)) 0) as [E|E].
  - destruct data; [|done]. exists (mk_kqueue b s ((t + c) mod s) t c). simpl.
    rewrite Z.min_l by lia. simpl. rewrite app_nil_r. done.
  - rewrite (wrap_small 64 (s - c)) by lia.
    set (n := Z.min (Z.of_nat (length data)) (s - c)).
    replace (if Z.of_nat (length data) <? s - c then Z.of_nat (length data) else s - c)
      with n by (subst n; destruct (Z.ltb_spec (Z.of_nat (length data)) (s - c)); lia).
    assert (exists ds rest, data = ds ++ rest /\ Z.of_nat (length ds) = n) as (ds & rest & -> & Hds).
    { exists (take (Z.to_nat n) data), (drop (Z.to_nat n) data).
      rewrite take_drop, length_take. split; [done|lia]. }
    destruct (enqueue_loop_spec ds [] rest b s t c c Hl Hsz Ht ltac:(lia) ltac:(lia))
      as (b' & E' & Hl' & Hr). rewrite Hds in *. simpl in E'. change (Z.of_nat 0) with 0 in E'.
    replace (length ds) with (Z.to_nat n) in E' by lia.
    rewrite E'. simpl. eexists. split; [done|].
    rewrite wrap_small by lia. unfold kq_ring, contents; simpl. rewrite Hr.
    repeat split; try lia. rewrite take_app_length' by lia. done.
Qed.

(** What follows the data is not read. *)
Lemma enqueue_loop_rest n : forall i d r q, 0 <= i -> i + Z.of_nat n <= Z.of_nat (length d) ->
  enqueue_loop n i (d ++ r) q = enqueue_loop n i d q.
Proof.
  induction n as [|n IH]; intros i d r q Hi Hn; cbn [enqueue_loop]; [done|].
  assert (aget (d ++ r) i = aget d i) as ->.
  { unfold aget. destruct (0 <=? i); [|done]. apply lookup_app_l. lia. }
  destruct (aget d i) as [x|]; [|done]. cbn [mbind option_bind]. destruct (aset _ _ _); [|done]. cbn [mbind option_bind]. apply IH; lia.
Qed.

Lemma kqueue_enqueue_rest q d r : kq_ring q -> Z.of_nat (length d) < 2 ^ 63 ->
  kqueue_enqueue q (d ++ r) (Z.of_nat (length d)) = kqueue_enqueue q d (Z.of_nat (length d)).
Proof.
  intros (Hs & _ & _ & Hc & _) Hd. unfold kqueue_enqueue. destruct (_ =? 0); [done|]. rewrite (wrap_small 64 (sz q - cnt q)) by lia.
  rewrite enqueue_loop_rest; [done|lia|]. split_if; to_prop; lia.
Qed.

(** [kqueue_enqueue] refines appending to a bounded FIFO: it accepts the
    longest prefix of the data that fits, returns its length, appends exactly
    it, and keeps the invariant. *)
Theorem kqueue_enqueue_refines q data :
  kq_wf q ->
  exists q', let n := Z.min (Z.of_nat (length data)) (sz q - cnt q) in
    kqueue_enqueue q data (Z.of_nat (length data)) = Some (q', n) /\
    kq_wf q' /\ sz q' = sz q /\
    contents q' = contents q ++ take (Z.to_nat n) data.
Proof.
  intros (Hsz & Hq). destruct (kqueue_enqueue_appends q data) as (q' & E & (_ & Hq') & Hs & Hc); [split; [lia|done]|].
  exists q'. split_and!; [done|split; [lia|done]|done|done].
Qed.

(** [kqueue_dequeue] refines removal from the front of a FIFO: it hands
    out the oldest [min datasz cnt] bytes in order, and the rest stays
    queued. *)
Theorem kqueue_dequeue_refines q datasz :
  kq_wf q -> 0 <= datasz ->
  exists q', let n := Z.min datasz (cnt q) in
    kqueue_dequeue q datasz = Some (q', take (Z.to_nat n) (contents q), n) /\
    kq_wf q' /\ sz q' = sz q /\
    contents q' = drop (Z.to_nat n) (contents q).
Proof.
  intros (Hsz & Hl & Ht & Hc & Hh) Hd. unfold kqueue_dequeue. destruct q as [b s h t c].
  cbn [buf sz head tail cnt] in *. subst h.
  destruct (Z.eqb_spec datasz 0) as [->|E].
  - exists (mk_kqueue b s ((t + c) mod s) t c). simpl.
    rewrite Z.min_l by lia. simpl. rewrite ?take_0. done.
  - set (n := Z.min datasz c).
    replace (if datasz <? c then datasz else c) with n
      by (subst n; destruct (Z.ltb_spec datasz c); lia).
    destruct (dequeue_loop_spec (Z.to_nat n) b s ((t + c) mod s) t c Hl Hsz Ht ltac:(lia) c)
      as (t' & E' & Ht' & Hr). rewrite E'. simpl. rewrite Z2Nat.id in * by lia.
    eexists. split; [done|]. rewrite wrap_small by lia.
    pose proof (Z.mod_pos_bound (t + n) s ltac:(lia)).
    unfold kq_wf, contents; simpl. repeat split; try lia; [|done].
    subst t'. rewrite Z.add_mod_idemp_l by lia. f_equal. lia.
Qed.

(** ** Queues of any size

    Whatever the order of the bytes, the indices stay inside and the count is right. *)

Definition kq_safe (q : kqueue_t) : Prop :=
  0 < sz q < 2 ^ 63 /\ Z.of_nat (length (buf q)) = sz q /\ 0 <= head q < sz q /\ 0 <= tail q < sz q /\ 0 <= cnt q <= sz q.

Lemma enqueue_loop_safe data n : forall i q, kq_safe q -> 0 <= i -> i + Z.of_nat n <= Z.of_nat (length data) ->
  exists q', enqueue_loop n i data q = Some q' /\ kq_safe q' /\ cnt q' = cnt q /\ sz q' = sz q.
Proof.
  induction n as [|n IH]; intros i q Hq Hi Hn; cbn [enqueue_loop]; [by exists q|].
  destruct (aget_is_Some data i) as [d ->]; [lia|]. cbn [mbind option_bind]. destruct Hq as (H1 & H2 & H3 & H4 & H5).
  rewrite aset_in by lia. cbn [mbind option_bind]. destruct (IH (i + 1) (mk_kqueue (<[Z.to_nat (head q) := d]> (buf q)) (sz q) (u64 (head q + 1) mod sz q) (tail q) (cnt q)))
    as (q' & E & Hq' & Ec & Es); [|lia|lia|by exists q'].
  unfold kq_safe. cbn. rewrite length_insert. split_and!; try lia; apply Z.mod_pos_bound; lia.
Qed.

Lemma kqueue_enqueue_safe q data n : kq_safe q -> 0 <= n <= Z.of_nat (length data) -> n < 2 ^ 63 ->
  let k := Z.min n (sz q - cnt q) in
  exists q', kqueue_enqueue q data n = Some (q', k) /\ kq_safe q' /\ cnt q' = cnt q + k /\ sz q' = sz q.
Proof.
  intros Hq Hn Hn' k. pose proof Hq as (H1 & _ & _ & _ & H5). unfold kqueue_enqueue. destruct (Z.eqb_spec n 0) as [->|Hz].
  { exists q. unfold k. rewrite Z.min_l by lia. split_and!; (done || lia). }
  rewrite (wrap_small 64 (sz q - cnt q)) by lia. replace (if n <? sz q - cnt q then n else sz q - cnt q) with k by (unfold k; split_if; to_prop; lia).
  destruct (enqueue_loop_safe data (Z.to_nat k) 0 q) as (q' & E & Hq' & Ec & Es); [done|lia|lia|]. rewrite E. cbn [mbind option_bind].
  eexists. split; [done|]. unfold kq_safe in *. cbn. rewrite wrap_small by lia. split_and!; try lia; by rewrite ?Es.
Qed.

Lemma dequeue_loop_safe n : forall q, kq_safe q ->
  exists q' ds, dequeue_loop n q = Some (q', ds) /\ length ds = n /\ kq_safe q' /\ cnt q' = cnt q /\ sz q' = sz q.
Proof.
  induction n as [|n IH]; intros q Hq; cbn [dequeue_loop]; [by exists q, []|]. pose proof Hq as (H1 & H2 & H3 & H4 & H5).
  destruct (aget_is_Some (buf q) (tail q)) as [d ->]; [lia|]. cbn [mbind option_bind].
  destruct (IH (mk_kqueue (buf q) (sz q) (head q) (u8 ((tail q + 1) mod sz q)) (cnt q))) as (q' & ds & E & Hl & Hq' & Ec & Es).
  { pose proof (Z.mod_pos_bound (tail q + 1) (sz q) ltac:(lia)). unfold kq_safe, wrap. cbn. split_and!; try lia; [apply Z.mod_pos_bound; lia|].
    pose proof (Z.mod_le ((tail q + 1) mod sz q) (2 ^ 8) ltac:(lia) ltac:(lia)). lia. }
  rewrite E. cbn [mbind option_bind]. exists q', (d :: ds). split_and!; cbn; (done || lia).
Qed.

Lemma kqueue_dequeue_safe q n : kq_safe q -> 0 <= n -> let k := Z.min n (cnt q) in
  exists q' ds, kqueue_dequeue q n = Some (q', ds, k) /\ Z.of_nat (length ds) = k /\ kq_safe q' /\ cnt q' = cnt q - k /\ sz q' = sz q.
Proof.
  intros Hq Hn k. pose proof Hq as (H1 & _ & _ & _ & H5). unfold kqueue_dequeue. destruct (Z.eqb_spec n 0) as [->|Hz].
  { exists q, []. unfold k. rewrite Z.min_l by lia. split_and!; (done || lia). }
  replace (if n <? cnt q then n else cnt q) with k by (unfold k; split_if; to_prop; lia).
  destruct (dequeue_loop_safe (Z.to_nat k) q Hq) as (q' & ds & E & Hl & Hq' & Ec & Es). rewrite E. cbn [mbind option_bind].
  exists (mk_kqueue (buf q') (sz q') (head q') (tail q') (u64 (cnt q' - k))), ds. unfold kq_safe in *. cbn. rewrite wrap_small by lia. split_and!; (done || lia).
Qed.

(** *** What they hold

    From 256 bytes on, bytes go in at the write index of the whole ring and come out
    at an index that runs round the first 256 bytes. *)

(** [ds] written into a ring of [n] bytes at [h]. *)
Definition written (b b' : list Z) (n h : Z) (ds : list Z) : Prop :=
  length b' = length b /\ ring b' n h (Z.of_nat (length ds)) = ds /\
  forall i, 0 <= i < n -> Z.of_nat (length ds) <= (i - h) mod n -> aget b' i = aget b i.

Lemma enqueue_loop_frame data m : forall i b n h t c q', Z.of_nat (length b) = n -> 0 < n < 2 ^ 63 -> 0 <= h < n -> Z.of_nat m <= n ->
  enqueue_loop m i data (mk_kqueue b n h t c) = Some q' ->
  forall j, 0 <= j < n -> Z.of_nat m <= (j - h) mod n -> aget (buf q') j = aget b j.
Proof.
  induction m as [|m IH]; intros i b n h t c q' Hl Hn Hh Hm E j Hj Ho; cbn [enqueue_loop buf sz head tail cnt] in E; [by injection E as <-|].
  destruct (aget data i) as [d|]; [|done]. cbn [mbind option_bind] in E. rewrite aset_in in E by lia. cbn [mbind option_bind] in E.
  rewrite wrap_small in E by lia. pose proof (Z.mod_pos_bound (h + 1) n ltac:(lia)) as Hh1.
  assert ((j - h) mod n = 1 + (j - (h + 1) mod n) mod n) as Es.
  { rewrite Zminus_mod_idemp_r. pose proof (Z.mod_pos_bound (j - h) n ltac:(lia)). pose proof (Z.div_mod (j - h) n ltac:(lia)).
    rewrite <- (Z.mod_unique_pos (j - (h + 1)) n ((j - h) / n) ((j - h) mod n - 1)); lia. }
  rewrite (IH _ _ _ _ _ _ _ ltac:(by rewrite length_insert) Hn Hh1 ltac:(lia) E j Hj ltac:(lia)). rewrite aget_insert by lia. rewrite decide_False; [done|].
  intros Ej. assert (j - h = 0) as Ez by lia. rewrite Ez, Z.mod_0_l in Ho by lia. lia.
Qed.

Lemma kqueue_enqueue_writes q ds rest : kq_safe q -> 0 < Z.of_nat (length ds) <= sz q - cnt q ->
  exists b, kqueue_enqueue q (ds ++ rest) (Z.of_nat (length ds)) =
    Some (mk_kqueue b (sz q) ((head q + Z.of_nat (length ds)) mod sz q) (tail q) (cnt q + Z.of_nat (length ds)), Z.of_nat (length ds)) /\
    written (buf q) b (sz q) (head q) ds.
Proof.
  destruct q as [b n h t c]. unfold kq_safe. cbn [buf sz head tail cnt]. intros (Hn & Hl & Hh & Ht & Hc) Hd. unfold kqueue_enqueue. cbn [buf sz head tail cnt].
  rewrite (proj2 (Z.eqb_neq _ _)) by lia. rewrite (wrap_small 64 (n - c)) by lia.
  replace (if _ <? _ then _ else _) with (Z.of_nat (length ds)) by (split_if; to_prop; lia). rewrite Nat2Z.id.
  pose proof (enqueue_loop_frame (ds ++ rest) (length ds) 0 b n h) as Hframe.
  destruct (enqueue_loop_spec ds [] rest b n h 0 c Hl Hn Hh ltac:(lia) ltac:(lia)) as (b' & E & Hl' & Hr). cbn [length] in E. change (Z.of_nat 0) with 0 in E.
  rewrite Z.add_0_r, (Z.mod_small h) in E by lia. cbn [app] in E.
  assert (forall m i data b n h t t' c, enqueue_loop m i data (mk_kqueue b n h t' c) = (q ← enqueue_loop m i data (mk_kqueue b n h t c); Some (mk_kqueue (buf q) (sz q) (head q) t' (cnt q)))) as Ht'.
  { clear. induction m as [|m IH]; intros; cbn [enqueue_loop buf sz head tail cnt]; [done|]. destruct (aget data i); [|done]. cbn [mbind option_bind]. destruct (aset b h _); [|done]. cbn [mbind option_bind]. apply IH. }
  rewrite (Ht' _ _ _ _ _ _ h t), E. cbn [mbind option_bind buf sz head tail cnt]. exists b'. rewrite wrap_small by lia. cbn [Z.add] in *. split; [done|].
  split_and!; [lia|done|]. intros i Hi Ho. by apply (Hframe h c _ Hl Hn Hh ltac:(lia) E i Hi Ho).
Qed.

Lemma dequeue_loop_low m b n h c0 : Z.of_nat (length b) = n -> 256 <= n -> forall t, 0 <= t < 256 ->
  dequeue_loop m (mk_kqueue b n h t c0) = Some (mk_kqueue b n h ((t + Z.of_nat m) mod 256) c0, ring b 256 t (Z.of_nat m)).
Proof.
  intros Hl Hn. induction m as [|m IH]; intros t Ht; [by rewrite Z.add_0_r, Z.mod_small by lia|]. cbn [dequeue_loop buf sz tail head cnt].
  destruct (aget_is_Some b t) as [d Hd]; [lia|]. rewrite Hd. cbn [mbind option_bind].
  assert (u8 ((t + 1) mod n) = (t + 1) mod 256) as ->.
  { unfold wrap. change (2 ^ 8) with 256. destruct (decide (t + 1 < n)); [by rewrite (Z.mod_small (t + 1) n) by lia|]. assert (n = 256) as -> by lia. by rewrite Z.mod_mod by lia. }
  pose proof (Z.mod_pos_bound (t + 1) 256 ltac:(lia)). rewrite (IH ((t + 1) mod 256)) by lia. cbn [mbind option_bind]. rewrite (ring_cons b 256 t) by lia. rewrite Hd, Z.add_mod_idemp_l by lia.
  replace (Z.of_nat (S m) - 1) with (Z.of_nat m) by lia. by replace (t + Z.of_nat (S m)) with (t + 1 + Z.of_nat m) by lia.
Qed.

Lemma kqueue_dequeue_low q n : kq_safe q -> 256 <= sz q -> tail q < 256 -> 0 < n -> let k := Z.min n (cnt q) in
  kqueue_dequeue q n = Some (mk_kqueue (buf q) (sz q) (head q) ((tail q + k) mod 256) (cnt q - k), ring (buf q) 256 (tail q) k, k).
Proof.
  intros (H1 & Hl & _ & Ht & H5) Hz Ht' Hn k. unfold kqueue_dequeue. rewrite (proj2 (Z.eqb_neq n 0)) by lia.
  replace (if n <? cnt q then n else cnt q) with k by (unfold k; split_if; to_prop; lia). destruct q as [b z h t c]. cbn [buf sz head tail cnt] in *.
  rewrite dequeue_loop_low by lia. cbn [mbind option_bind buf sz head tail cnt]. rewrite Z2Nat.id by lia. by rewrite wrap_small by lia.
Qed.

(** A 256-byte queue holding three bytes. *)
Definition demo : kqueue_t :=
  mk_kqueue ([65; 66; 67] ++ replicate 253 0) 256 3 0 3.

Lemma kqueue_enqueue_refines_witness :
  kq_wf demo /\
  exists q', kqueue_enqueue demo [68; 69] 2 = Some (q', 2) /\
    contents q' = [65; 66; 67; 68; 69].
Proof.
  assert (kq_wf demo) as Hwf by (unfold kq_wf; vm_compute; intuition discriminate).
  split; [exact Hwf|].
  destruct (kqueue_enqueue_refines demo [68; 69] Hwf) as (q' & E & _ & _ & Hc).
  exists q'. split; [exact E|]. rewrite Hc. vm_compute. reflexivity.
Defined.

Lemma kqueue_dequeue_refines_witness :
  kq_wf demo /\
  exists q', kqueue_dequeue demo 2 = Some (q', [65; 66], 2) /\ contents q' = [67].
Proof.
  assert (kq_wf demo) as Hwf by (unfold kq_wf; vm_compute; intuition discriminate).
  split; [exact Hwf|].
  destruct (kqueue_dequeue_refines demo 2 Hwf) as (q' & E & _ & _ & Hc); [lia|].
  exists q'. split; [rewrite E; vm_compute; reflexivity|].
  rewrite Hc. vm_compute. reflexivity.
Defined.

(** A 512-byte queue, the size of the keyboard queues, is not a FIFO: after
    256 bytes have passed through it the next byte queued (77) is not the one
    that comes out; the stale byte at index 0 does, because [tail] is a [u8]. *)
Theorem kqueue_512_not_fifo :
  (q0 ← kqueue_init true (Some (replicate 512 0)) 512;
   '(q1, n1) ← kqueue_enqueue q0 (seqZ 0 256) 256;
   '(q2, ds, n2) ← kqueue_dequeue q1 256;
   '(q3, n3) ← kqueue_enqueue q2 [77] 1;
   '(q4, d, n4) ← kqueue_dequeue q3 1;
   Some (n1, n2, ds, n3, d, n4))
  = Some (256, 256, seqZ 0 256, 1, [0], 1).
Proof. vm_compute. reflexivity. Qed.

End Kqueue.
