(* ===== verification/Rng.v ===== *)
(** Random numbers ([src/drivers/rng/rng.c]): a pool of bytes filled from the
    hardware sources that are present, and the two sources that need nothing but
    instructions ([rdrand_read] of [rng.c], [rdseed.c], [jitter_rng.c]).

    Model: the pool is the queue of [Kqueue]; the sources are a list of functions on
    the state of the hardware, each giving its result and the bytes it stored.
    [random_bytes] need not end, so it has fuel. *)
From S2P Require Import Prelude CString Machine Kqueue.
From Stdlib Require String.
Import String.StringSyntax.

Module Rng.
Import CString Machine Kqueue.

Record hw_rng_driver_t (D : Type) := mk_rng_driver {
  d_name : list Z;
  d_available : M D bool;
  d_init : M D Z;
  d_read : Z -> M D (Z * list Z)
}.
Arguments mk_rng_driver {D}.
Arguments d_name {D}.
Arguments d_available {D}.
Arguments d_init {D}.
Arguments d_read {D}.

Record rng (D : Type) := mk_rng { entq : option kqueue_t; active : list bool; hwst : D }.
Arguments mk_rng {D}.
Arguments entq {D}.
Arguments active {D}.
Arguments hwst {D}.

(** ** Sources *)

Section sources.
Context {D : Type} (H : hw D).

(** A word from an instruction that may fail, tried [n] times. *)
Fixpoint retry (step : M D (Z * bool)) (n : nat) : M D (option Z) :=
  match n with
  | O => mret None
  | S n' => '(val, ok) ← step; if ok : bool then mret (Some val) else retry step n'
  end.

(** The bytes collected in [buf]; each round but the last stores eight. *)
Fixpoint words_read (fuel : nat) (step : M D (Z * bool)) (tries : nat) (len : Z) (buf : list Z) : M D (Z * list Z) :=
  let offset := Z.of_nat (length buf) in
  match fuel with
  | O => fault
  | S fuel' =>
      if offset <? len then
        v ← retry step tries;
        match v with
        | None => mret (s32 offset, buf)
        | Some val =>
            let to_copy := if 8 <? len - offset then 8 else len - offset in
            words_read fuel' step tries len (buf ++ take (Z.to_nat to_copy) (le 8 val))
        end
      else mret (s32 offset, buf)
  end.

Definition rdrand_read (rdrand : M D (Z * bool)) (len : Z) : M D (Z * list Z) := words_read (S (Z.to_nat len)) rdrand 32 len [].
Definition rdseed_read (rdseed : M D (Z * bool)) (len : Z) : M D (Z * list Z) := words_read (S (Z.to_nat len)) rdseed 64 len [].

Definition rdrand_available : M D bool := '(_, _, c, _) ← cpuid H 1 0; mret (negb (Z.land (Z.shiftr c 30) 1 =? 0)).
Definition rdseed_available : M D bool :=
  '(max_leaf, _, _, _) ← cpuid H 0 0;
  if max_leaf <? 7 then mret false else
  '(_, b, _, _) ← cpuid H 7 0; mret (negb (Z.land b (2 ^ 18) =? 0)).

(** One byte of the jitter source, and its next state. *)
Definition jitter_step (state t1 t2 : Z) : Z * Z :=
  let delta := u64 (t2 - t1) in
  let state := u64 (u64 (u64 (state * 6364136223846793005) + delta) + t2) in
  let x := Z.lxor state (Z.shiftr state 30) in
  let x := u64 (x * 0xbf58476d1ce4e5b9) in
  let x := Z.lxor x (Z.shiftr x 27) in
  (u8 x, state).

Fixpoint jitter_loop (n : nat) (state : Z) : M D (list Z * Z) :=
  match n with
  | O => mret ([], state)
  | S n' =>
      t1 ← rdtsc H;
      t2 ← rdtsc H;
      let '(b, state) := jitter_step state t1 t2 in
      '(bs, state) ← jitter_loop n' state;
      mret (b :: bs, state)
  end.

(** [get_state], [set_state]: the static variable. *)
Definition jitter_rng_read (get_state : D -> Z) (set_state : Z -> D -> D) (len : Z) : M D (Z * list Z) :=
  state ← gets get_state;
  '(bs, state) ← jitter_loop (Z.to_nat len) state;
  _ ← modify (set_state state);
  mret (s32 len, bs).

End sources.

(** ** The pool *)

Definition JITTER : list Z := str "CPU Jitter TRNG".

Section pool.
Context {D : Type} (rng_drivers : list (hw_rng_driver_t D)).
Notation MR A := (M (rng D) A).
Notation driver := (hw_rng_driver_t D).

Definition onhw {A} (m : M D A) : MR A := fun s =>
  match m (hwst s) with Done h a => Done (mk_rng (entq s) (active s) h) a | Fault => Fault end.
Definition set_entq (q : option kqueue_t) : MR unit := modify (fun s => mk_rng q (active s) (hwst s)).

(** The flags of the sources that are there and initialised. *)
Fixpoint init_drivers (l : list driver) : MR (list bool) :=
  match l with
  | [] => mret []
  | d :: l' =>
      av ← onhw (d_available d);
      ok ← (if av : bool then r ← onhw (d_init d); mret (r =? 0) else mret false);
      r ← init_drivers l';
      mret (ok :: r)
  end.

(** [mem]: what the allocation of the pool gives; the device registry only decides on
    a message, so its answer does not matter here. *)
Definition rng_init (hdr_ok : bool) (mem : option (list Z)) : MR Z :=
  let q := kqueue_init hdr_ok mem (1024 * 8) in
  _ ← set_entq q;
  match q with
  | None => mret (-1)
  | Some _ =>
      act ← init_drivers rng_drivers;
      _ ← modify (fun s => mk_rng (entq s) act (hwst s));
      mret (if existsb id act then 0 else -1)
  end.

(** [tbuf[j] ^= mixbuf[j]] for [n] bytes. *)
Fixpoint xor_loop (n : nat) (j : Z) (tbuf mixbuf : list Z) : option (list Z) :=
  match n with
  | O => Some tbuf
  | S n' =>
      a ← aget tbuf j;
      b ← aget mixbuf j;
      tbuf ← aset tbuf j (Z.lxor a b);
      xor_loop n' (j + 1) tbuf mixbuf
  end.

(** The bytes mixed, how many, and whether there are any. *)
Fixpoint collect (l : list driver) (act : list bool) (tbuf mixbuf : list Z) (collected : Z) (any : bool) : MR (list Z * Z * bool) :=
  match l, act with
  | d :: l', a :: act' =>
      if negb a then collect l' act' tbuf mixbuf collected any else
      skip ← (if any then r ← deref (strcmp (cstr (d_name d)) (cstr JITTER)); mret (r =? 0) else mret false);
      if skip : bool then collect l' act' tbuf mixbuf collected any else
      '(r, bs) ← onhw (d_read d 256);
      let mixbuf := splice mixbuf bs 0 in
      if 0 <? r then
        tbuf ← deref (xor_loop (Z.to_nat r) 0 tbuf mixbuf);
        collect l' act' tbuf mixbuf (if collected <? r then r else collected) true
      else collect l' act' tbuf mixbuf collected any
  | _, _ => mret (tbuf, collected, any)
  end.

(** [stack]: what [mixbuf] holds at first. *)
Definition rng_fillpool (stack : list Z) : MR Z :=
  s ← get;
  if kqueue_queued (entq s) <? 8 * 32 then
    '(tbuf, collected, any) ← collect rng_drivers (active s) (replicate 256 0) stack 0 false;
    _ ← (if any && (0 <? collected) then
           q ← deref (entq s);
           '(q', _) ← deref (kqueue_enqueue q tbuf collected);
           set_entq (Some q')
         else mret tt);
    mret (if any : bool then 0 else -1)
  else mret 0.

(** Stores into the caller's buffer. *)
Definition store (buf : list Z) (off : Z) (bs : list Z) : option (list Z) :=
  if off + Z.of_nat (length bs) <=? Z.of_nat (length buf) then Some (splice buf bs (Z.to_nat off)) else None.

(** The first source that delivers stores at most [n] bytes at [off]. *)
Fixpoint read_first (l : list driver) (act : list bool) (n : Z) (buf : list Z) (off : Z) : MR (Z * list Z) :=
  match l, act with
  | d :: l', a :: act' =>
      if negb a then read_first l' act' n buf off else
      '(r, bs) ← onhw (d_read d n);
      buf ← deref (store buf off bs);
      if 0 <? r then mret (r, buf) else read_first l' act' n buf off
  | _, _ => mret (0, buf)
  end.

Fixpoint random_loop (fuel : nat) (stack buf : list Z) (sz got : Z) : MR (Z * list Z) :=
  match fuel with
  | O => fault
  | S fuel' =>
      if negb (got <? sz) then mret (0, buf) else
      f ← rng_fillpool stack;
      s ← get;
      if (f <? 0) && (kqueue_queued (entq s) =? 0) then
        '(r, buf) ← read_first rng_drivers (active s) (sz - got) buf got;
        let got := u64 (got + r) in
        if got =? 0 then mret (-1, buf) else random_loop fuel' stack buf sz got
      else
        q ← deref (entq s);
        '(q', ds, deq) ← deref (kqueue_dequeue q (sz - got));
        _ ← set_entq (Some q');
        buf ← deref (store buf got ds);
        if deq =? 0 then
          f ← rng_fillpool stack;
          if f <? 0 then
            s ← get;
            '(r, buf) ← read_first rng_drivers (active s) 1 buf got;
            if 0 <? r then random_loop fuel' stack buf sz (u64 (got + 1)) else mret (-1, buf)
          else random_loop fuel' stack buf sz got
        else random_loop fuel' stack buf sz (u64 (got + deq))
  end.

Definition random_bytes (fuel : nat) (stack buf : list Z) : MR (Z * list Z) :=
  random_loop fuel stack buf (Z.of_nat (length buf)) 0.

Definition rng_read (fuel : nat) (stack buf : list Z) : MR (Z * list Z) :=
  '(r, buf') ← random_bytes fuel stack buf;
  mret (if r <? 0 then -1 else Z.of_nat (length buf), buf').

Definition _randombyte (fuel : nat) (stack : list Z) : MR Z := '(_, b) ← random_bytes fuel stack [0]; mret (of_le b).
Definition random64 (fuel : nat) (stack : list Z) : MR Z := '(_, b) ← random_bytes fuel stack (replicate 8 0); mret (of_le b).

End pool.

(** ** What the sources do *)

(** A source stores as many bytes as it says, and no more than asked for. *)
Definition lawful {D} (d : hw_rng_driver_t D) : Prop :=
  str_ok (d_name d) /\ forall n x, 0 < n < 2 ^ 31 -> exists x' r bs, d_read d n x = Done x' (r, bs) /\
    ((r <= 0 /\ bs = []) \/ (0 < r <= n /\ Z.of_nat (length bs) = r)).
(** It never fails. *)
Definition steady {D} (d : hw_rng_driver_t D) : Prop :=
  forall n x x' r bs, 0 < n < 2 ^ 31 -> d_read d n x = Done x' (r, bs) -> 0 < r.

Lemma strcmp_answers s1 s2 : str_ok s1 -> str_ok s2 -> exists z, strcmp (cstr s1) (cstr s2) = Some z /\ (z = 0 <-> s1 = s2).
Proof.
  unfold cstr. intros H1. revert s2. induction H1 as [|a s1 Ha _ IH]; intros s2 H2; cbn [app strcmp].
  - destruct H2 as [|b s2 Hb _]; cbn [app strcmp Z.eqb negb andb]; (eexists; split; [done|]); [done|]. split; [|done]. intros E%s8_inj; lia.
  - destruct H2 as [|b s2 Hb H2]; cbn [app strcmp]; rewrite (proj2 (Z.eqb_neq a 0)) by lia; cbn [negb andb].
    + eexists. split; [done|]. split; [|done]. intros E%s8_inj; lia.
    + destruct (Z.eqb_spec a b) as [->|Hne]; [|eexists; split; [done|]; split; [intros E%s8_inj; lia|congruence]].
      destruct (IH s2 H2) as (z & E & Hz). exists z. split; [done|]. rewrite Hz. naive_solver.
Qed.

(** The bytes of two strings combined; the longer one goes on alone. *)
Fixpoint mix (a b : list Z) : list Z :=
  match a, b with x :: a', y :: b' => Z.lxor x y :: mix a' b' | [], b => b | a, [] => a end.

Lemma length_mix a : forall b, length (mix a b) = Nat.max (length a) (length b).
Proof. induction a as [|x a IH]; intros [|y b]; try done. cbn [mix length]. by rewrite IH. Qed.

(** Combined into a buffer that starts with [m] and is zero behind it. *)
Lemma xor_loop_mix bs : forall pre pre' m k rest, length pre' = length pre -> (length bs <= length m + k)%nat ->
  xor_loop (length bs) (Z.of_nat (length pre)) (pre ++ m ++ replicate k 0) (pre' ++ bs ++ rest) =
  Some (pre ++ mix m bs ++ replicate (k - (length bs - length m)) 0).
Proof.
  induction bs as [|b bs IH]; intros pre pre' m k rest Hp Hk; cbn [length xor_loop].
  { destruct m; cbn [mix length]; by rewrite Nat.sub_0_r. }
  assert (forall (x : Z) (m' : list Z) (k' : nat), (length bs <= length m' + k')%nat -> (t ← aset (pre ++ x :: m' ++ replicate k' 0) (Z.of_nat (length pre)) (Z.lxor x b); xor_loop (length bs) (Z.of_nat (length pre) + 1) t (pre' ++ b :: bs ++ rest)) =
    Some (pre ++ Z.lxor x b :: mix m' bs ++ replicate (k' - (length bs - length m')) 0)) as Hstep.
  { intros x m' k' Hk'. rewrite aset_in by (rewrite length_app; cbn; lia). cbn [mbind option_bind]. rewrite Nat2Z.id, insert_app_r_alt, Nat.sub_diag by lia. cbn [list_insert insert].
    pose proof (IH (pre ++ [Z.lxor x b]) (pre' ++ [b]) m' k' rest ltac:(rewrite !length_app; cbn; lia) Hk') as Hx. rewrite length_app, Nat2Z.inj_add, <- !app_assoc in Hx. exact Hx. }
  rewrite (proj2 (aget_Some (pre' ++ (b :: bs) ++ rest) (Z.of_nat (length pre)) b)) by (split; [lia|rewrite Nat2Z.id, <- Hp; by apply list_lookup_middle]).
  destruct m as [|x m].
  - destruct k as [|k]; [cbn in Hk; lia|]. cbn [replicate app length mix]. rewrite (proj2 (aget_Some _ _ 0)) by (split; [lia|rewrite Nat2Z.id; by apply list_lookup_middle]).
    etransitivity; [exact (Hstep 0 [] k ltac:(cbn in *; lia))|]. rewrite Z.lxor_0_l. cbn [length mix]. by rewrite !Nat.sub_0_r.
  - cbn [app mix length]. rewrite (proj2 (aget_Some _ _ x)) by (split; [lia|rewrite Nat2Z.id; by apply list_lookup_middle]).
    exact (Hstep x m k ltac:(cbn in *; lia)).
Qed.

Section pool_facts.
Context {D : Type}.
Notation driver := (hw_rng_driver_t D).

(** Some source in use never fails. *)
Definition fed (l : list driver) (act : list bool) : Prop := exists i d, l !! i = Some d /\ act !! i = Some true /\ steady d.

(** The sources in use are read in turn, the jitter source only while no other has
    delivered; [outs] is what they delivered. *)
Inductive sampled : list driver -> list bool -> bool -> D -> D -> list (list Z) -> Prop :=
| sampled_end act any x : sampled [] act any x x []
| sampled_none l any x : sampled l [] any x x []
| sampled_off d l act any x y outs : sampled l act any x y outs -> sampled (d :: l) (false :: act) any x y outs
| sampled_skip d l act x y outs : d_name d = JITTER -> sampled l act true x y outs -> sampled (d :: l) (true :: act) true x y outs
| sampled_fails d l act any x x1 r y outs : (any = true -> d_name d <> JITTER) -> d_read d 256 x = Done x1 (r, []) -> r <= 0 ->
    sampled l act any x1 y outs -> sampled (d :: l) (true :: act) any x y outs
| sampled_reads d l act any x x1 bs y outs : (any = true -> d_name d <> JITTER) -> d_read d 256 x = Done x1 (Z.of_nat (length bs), bs) -> (0 < length bs <= 256)%nat ->
    sampled l act true x1 y outs -> sampled (d :: l) (true :: act) any x y (bs :: outs).

Lemma jitter_name n : str_ok n -> exists b, (r ← strcmp (cstr n) (cstr JITTER); Some (r =? 0)) = Some b /\ (b = true <-> n = JITTER).
Proof.
  intros Hn. assert (str_ok JITTER) as Hj by (repeat constructor; lia). destruct (strcmp_answers n JITTER Hn Hj) as (z & E & Hz). rewrite E. cbn. eexists. split; [done|].
  by rewrite Z.eqb_eq.
Qed.

Lemma collect_mixes (l : list driver) : forall act m mx any s, Forall lawful l -> (length m <= 256)%nat -> length mx = 256%nat -> any = negb (bool_decide (m = [])) ->
  exists h' outs m', sampled l act any (hwst s) h' outs /\ m' = foldl mix m outs /\ (length m' <= 256)%nat /\ (any = true \/ fed l act -> m' <> []) /\
    collect l act (m ++ replicate (256 - length m) 0) mx (Z.of_nat (length m)) any s =
    Done (mk_rng (entq s) (active s) h') (m' ++ replicate (256 - length m') 0, Z.of_nat (length m'), negb (bool_decide (m' = []))).
Proof.
  induction l as [|d l IH]; intros act m mx any s Hl Hm Hx Hany.
  { exists (hwst s), [], m. split_and!; [constructor|done|done| |by rewrite <- Hany; destruct s]. intros [Hb|(i & d & [=] & _)] ->. by subst any. }
  apply Forall_cons in Hl as [[Hn Hd] Hl]. destruct act as [|[] act].
  { exists (hwst s), [], m. split_and!; [constructor|done|done| |by rewrite <- Hany; destruct s]. intros [Hb|(i & d' & _ & [=] & _)] ->. by subst any. }
  2:{ cbn [collect negb]. destruct (IH act m mx any s Hl Hm Hx Hany) as (h' & outs & m' & Hs & Em & Lm & Hf & E). exists h', outs, m'. split_and!; try done; [by constructor|].
      intros [?|(i & d' & Hi & Hai & ?)]; [tauto|]. apply Hf. right. destruct i as [|i]; [done|]. by exists i, d'. }
  cbn [collect negb].
  assert (exists b, (if any then r ← deref (strcmp (cstr (d_name d)) (cstr JITTER)); mret (r =? 0) else mret false) s = Done s b /\ (b = true <-> any = true /\ d_name d = JITTER)) as (b & Eb & Hb).
  { destruct (jitter_name (d_name d) Hn) as (b & E & Hb). destruct any; [|exists false; naive_solver]. destruct (strcmp _ _) as [z|]; [|done]. injection E as <-. rewrite bind_deref. eexists. split; [done|]. tauto. }
  rewrite (bind_done _ _ _ _ _ Eb). destruct b.
  { destruct Hb as [[Ha Hj] _]; [done|]. destruct (IH act m mx any s Hl Hm Hx Hany) as (h' & outs & m' & Hs & Em & Lm & Hf & E). subst any. rewrite Ha in *.
    exists h', outs, m'. split_and!; try done; [by constructor|tauto]. }
  assert (any = true -> d_name d <> JITTER) as Hnj by (intros H1 H2; discriminate (proj2 Hb (conj H1 H2))).
  destruct (Hd 256 (hwst s)) as (x' & r & bs & Er & Hr); [lia|].
  assert (onhw (d_read d 256) s = Done (mk_rng (entq s) (active s) x') (r, bs)) as Eo by (unfold onhw; by rewrite Er).
  rewrite (bind_done _ _ _ _ _ Eo). cbn beta iota.
  destruct Hr as [[Hneg ->]|[Hpos Hlen]].
  - rewrite (proj2 (Z.ltb_ge 0 r)) by done. destruct (IH act m mx any (mk_rng (entq s) (active s) x') Hl Hm Hx Hany) as (h' & outs & m' & Hs & Em & Lm & Hf & E).
    exists h', outs, m'. split_and!; try done; [by eapply sampled_fails|]. intros [?|(i & d' & Hi & Hai & Hst)]; [tauto|]. destruct i as [|i]; [|apply Hf; right; by exists i, d'].
    cbn in Hi. injection Hi as <-. pose proof (Hst 256 _ _ _ _ ltac:(lia) Er). lia.
  - rewrite (proj2 (Z.ltb_lt 0 r)) by lia. subst r. pose proof (xor_loop_mix bs [] [] m (256 - length m) (drop (length bs) mx) eq_refl ltac:(lia)) as Ex. cbn [app length] in Ex.
    change (Z.of_nat 0) with 0 in Ex. rewrite Nat2Z.id. change (bs ++ drop (length bs) mx) with (splice mx bs 0) in Ex. rewrite Ex, bind_deref.
    pose proof (length_mix m bs) as Lmix. assert (mix m bs <> []) as Hne by (intros E; rewrite E in Lmix; cbn in Lmix; lia).
    destruct (IH act (mix m bs) (splice mx bs 0) true (mk_rng (entq s) (active s) x') Hl) as (h' & outs & m' & Hs & Em & Lm & Hf & E);
      [lia|rewrite length_splice by lia; lia|by rewrite bool_decide_false|].
    exists h', (bs :: outs), m'. split_and!; [|done|done|tauto|].
    + eapply sampled_reads; try done. lia.
    + replace (256 - length (mix m bs))%nat with (256 - length m - (length bs - length m))%nat in E by lia.
      replace (if _ <? _ then _ else _) with (Z.of_nat (length (mix m bs))) by (split_if; to_prop; lia). exact E.
Qed.

Context (rng_drivers : list driver) (stack : list Z).
Hypothesis drivers_ok : Forall lawful rng_drivers.
Hypothesis stack_ok : length stack = 256%nat.

Definition ready (s : rng D) (q : kqueue_t) : Prop := entq s = Some q /\ kq_safe q /\ 512 <= sz q /\ tail q < 256 /\ fed rng_drivers (active s).

(** A pool with few bytes gets what the sources deliver, combined, at its write
    index. *)
Definition topped_up (s s1 : rng D) : Prop := exists q, entq s = Some q /\
  ((256 <= cnt q /\ s1 = s) \/
   (cnt q < 256 /\ exists h outs b, let ds := foldl mix [] outs in
      sampled rng_drivers (active s) false (hwst s) h outs /\ written (buf q) b (sz q) (head q) ds /\ ds <> [] /\
      s1 = mk_rng (Some (mk_kqueue b (sz q) ((head q + Z.of_nat (length ds)) mod sz q) (tail q) (cnt q + Z.of_nat (length ds)))) (active s) h)).

(** [n] bytes taken from the pool, run by run: each run is what the pool, topped up,
    holds at the read index. *)
Inductive drawn : rng D -> Z -> list Z -> rng D -> Prop :=
| drawn_all s : drawn s 0 [] s
| drawn_run s s1 q n k bs s' : 0 < n -> topped_up s s1 -> entq s1 = Some q -> k = Z.min n (cnt q) -> 0 < k ->
    drawn (mk_rng (Some (mk_kqueue (buf q) (sz q) (head q) ((tail q + k) mod 256) (cnt q - k))) (active s1) (hwst s1)) (n - k) bs s' ->
    drawn s n (ring (buf q) 256 (tail q) k ++ bs) s'.

Lemma fillpool_ok s q : ready s q -> exists s' q', rng_fillpool rng_drivers stack s = Done s' 0 /\ topped_up s s' /\ ready s' q' /\ 0 < cnt q'.
Proof.
  intros (Eq & Hq & Hsz & Ht & Hf). unfold rng_fillpool. rewrite (bind_done get _ s s s eq_refl), Eq. cbn [kqueue_queued].
  destruct (Z.ltb_spec (cnt q) (8 * 32)) as [Hlt|Hge]; [|exists s, q; split_and!; try (done || lia); exists q; split; [done|by left]].
  destruct (collect_mixes rng_drivers (active s) [] stack false s drivers_ok ltac:(cbn; lia) stack_ok eq_refl) as (h' & outs & m & Hs & Em & Lm & Hne & E).
  cbn [app length] in E. change (Z.of_nat 0) with 0 in E. change (256 - 0)%nat with 256%nat in E. rewrite (bind_done _ _ _ _ _ E). cbn beta iota. specialize (Hne ltac:(tauto)). rewrite bool_decide_false by done.
  assert (0 < length m)%nat by (destruct m; [done|cbn; lia]). rewrite (proj2 (Z.ltb_lt 0 _)) by lia. cbn [andb negb].
  destruct (kqueue_enqueue_writes q m (replicate (256 - length m) 0) Hq) as (b & Ee & Hw); [destruct Hq; lia|].
  unfold mbind at 1, M_bind at 1. rewrite bind_deref, Ee, bind_deref. unfold set_entq, modify, mret, M_ret. cbn [entq active hwst].
  eexists _, _. split; [done|]. split_and!.
  - exists q. split; [done|]. right. split; [lia|]. exists h', outs, b. cbv zeta. by rewrite <- Em.
  - unfold ready. cbn [entq active sz tail]. split_and!; try done. destruct Hq as (H1 & H2 & H3 & H4 & H5), Hw as (Hl & _). unfold kq_safe. cbn [buf sz head tail cnt].
    split_and!; try lia; apply Z.mod_pos_bound; lia.
  - cbn [cnt]. destruct Hq as (_ & _ & _ & _ & ?). lia.
Qed.

Lemma store_fits buf off bs : 0 <= off -> off + Z.of_nat (length bs) <= Z.of_nat (length buf) ->
  exists buf', store buf off bs = Some buf' /\ length buf' = length buf /\
    take (Z.to_nat (off + Z.of_nat (length bs))) buf' = take (Z.to_nat off) buf ++ bs.
Proof.
  intros Ho Hb. unfold store. rewrite (proj2 (Z.leb_le _ _) Hb). eexists. split; [done|]. rewrite length_splice by lia. split; [lia|].
  unfold splice. rewrite app_assoc, take_app_length'; [done|]. rewrite length_app, length_take. lia.
Qed.

Lemma random_loop_fills fuel sz : forall got s q, ready s q -> 0 <= got <= sz -> sz < 2 ^ 63 -> sz - got < Z.of_nat fuel ->
  exists s' bs q', drawn s (sz - got) bs s' /\ Z.of_nat (length bs) = sz - got /\ ready s' q' /\
    forall buf, Z.of_nat (length buf) = sz -> random_loop rng_drivers fuel stack buf sz got s = Done s' (0, take (Z.to_nat got) buf ++ bs).
Proof.
  induction fuel as [|fuel IH]; intros got s q Hs Hg Hsz Hf; [lia|]. cbn [random_loop]. destruct (Z.ltb_spec got sz) as [Hlt|Hge]; cbn [negb].
  2:{ exists s, [], q. replace (sz - got) with 0 by lia. split_and!; [constructor|done|done|]. intros buf Hb. by rewrite app_nil_r, take_ge by lia. }
  destruct (fillpool_ok s q Hs) as (s1 & q1 & E1 & Hu & Hs1 & Hc1). pose proof Hs1 as (Eq1 & Hq1 & Hz1 & Ht1 & Hf1).
  pose proof (kqueue_dequeue_low q1 (sz - got) Hq1 ltac:(lia) Ht1 ltac:(lia)) as E2. set (k := Z.min (sz - got) (cnt q1)) in *. cbv zeta in E2.
  set (q2 := mk_kqueue _ _ _ _ (cnt q1 - k)) in E2. set (ds := ring _ _ _ _) in E2. assert (Z.of_nat (length ds) = k) as Hds by (unfold ds, ring; rewrite length_fmap, length_seqZ; lia).
  assert (0 < k <= sz - got) as Hk by lia. set (s2 := mk_rng (Some q2) (active s1) (hwst s1)).
  assert (ready s2 q2) as Hs2.
  { pose proof (Z.mod_pos_bound (tail q1 + k) 256 ltac:(lia)). destruct Hq1 as (? & ? & ? & ? & ?). unfold ready, s2, kq_safe, q2. cbn [entq active buf Kqueue.sz head tail cnt]. split_and!; (done || lia). }
  destruct (IH (got + k) s2 q2 Hs2) as (s' & bs & q' & Hd & Hl & Hs' & Hr); [lia|done|lia|].
  exists s', (ds ++ bs), q'. split_and!; [|rewrite length_app; lia|done|].
  { apply (drawn_run s s1 q1 _ k); try (done || lia). fold q2 s2. by replace (sz - got - k) with (sz - (got + k)) by lia. }
  intros buf Hb. destruct (store_fits buf got ds) as (buf' & Est & Hbl & Hbt); [lia|lia|].
  rewrite (bind_done _ _ _ _ _ E1), (bind_done get _ s1 s1 s1 eq_refl). cbn [Z.ltb Z.compare andb]. rewrite Eq1, bind_deref, E2, bind_deref.
  unfold set_entq. rewrite bind_modify. fold s2. rewrite Est, bind_deref, (proj2 (Z.eqb_neq k 0)) by lia. rewrite wrap_small, Hr by lia.
  rewrite <- Hds at 1. by rewrite Hbt, app_assoc.
Qed.

(** C19. As long as one source in use never fails, a request of any size is met: the call
    returns, whatever the buffer held before, and the buffer is filled run by run with
    the bytes at the read index of the pool, to which the bytes that the sources
    deliver have been added, combined by exclusive or, whenever it held fewer than
    256. *)
Theorem random_bytes_fills s q sz : ready s q -> 0 <= sz < 2 ^ 63 ->
  exists s' bs q', drawn s sz bs s' /\ Z.of_nat (length bs) = sz /\ ready s' q' /\
    forall buf, Z.of_nat (length buf) = sz -> random_bytes rng_drivers (S (Z.to_nat sz)) stack buf s = Done s' (0, bs).
Proof.
  intros Hs Hsz. destruct (random_loop_fills (S (Z.to_nat sz)) sz 0 s q Hs) as (s' & bs & q' & Hd & Hl & Hs' & Hr); [lia..|]. rewrite Z.sub_0_r in *.
  exists s', bs, q'. split_and!; try done. intros buf Hb. unfold random_bytes. rewrite Hb. by apply Hr.
Qed.

End pool_facts.

(** ** The sources keep their promise *)

Section source_facts.
Context {D : Type} (H : hw D).

Lemma retry_answers (step : M D (Z * bool)) n : (forall x, exists x' v ok, step x = Done x' (v, ok)) ->
  forall x, exists x' v, retry step n x = Done x' v.
Proof.
  intros Hs. induction n as [|n IH]; intros x; cbn [retry]; [by do 2 eexists|].
  destruct (Hs x) as (x1 & v & ok & E). rewrite (bind_done _ _ _ _ _ E). destruct ok; [by do 2 eexists|apply IH].
Qed.

Lemma words_read_ok (step : M D (Z * bool)) tries len : (forall x, exists x' v ok, step x = Done x' (v, ok)) -> len < 2 ^ 31 ->
  forall fuel buf x, Z.of_nat (length buf) <= len -> len - Z.of_nat (length buf) < Z.of_nat fuel ->
  exists x' buf', words_read fuel step tries len buf x = Done x' (Z.of_nat (length buf'), buf') /\ Z.of_nat (length buf') <= len.
Proof.
  intros Hs Hl. induction fuel as [|fuel IH]; intros buf x Hb Hf; [lia|]. cbn [words_read].
  destruct (Z.ltb_spec (Z.of_nat (length buf)) len) as [Hlt|Hge]; [|exists x, buf; by rewrite sext_small by lia].
  destruct (retry_answers step tries Hs x) as (x1 & v & E). rewrite (bind_done _ _ _ _ _ E). destruct v as [v|]; [|exists x1, buf; by rewrite sext_small by lia].
  set (n := if 8 <? _ then _ else _). assert (1 <= n <= 8 /\ n <= len - Z.of_nat (length buf)) as [? ?] by (unfold n; split_if; to_prop; lia).
  assert (Z.of_nat (length (take (Z.to_nat n) (le 8 v))) = n) as Hn by (rewrite length_take, length_le; lia).
  apply IH; rewrite length_app; lia.
Qed.

Lemma rdrand_lawful (rdrand : M D (Z * bool)) av ini : (forall x, exists x' v ok, rdrand x = Done x' (v, ok)) ->
  lawful (mk_rng_driver (str "RDRAND") av ini (rdrand_read rdrand)).
Proof.
  intros Hs. split; [repeat constructor; lia|]. intros n x Hn. cbn [d_read]. unfold rdrand_read.
  destruct (words_read_ok rdrand 32 n Hs ltac:(lia) (S (Z.to_nat n)) [] x) as (x' & buf & E & Hb); [cbn; lia..|].
  exists x', (Z.of_nat (length buf)), buf. split; [done|]. destruct buf; [by left|right; cbn in *; lia].
Qed.

Context (get_state : D -> Z) (set_state : Z -> D -> D).
Definition jitter : hw_rng_driver_t D := mk_rng_driver JITTER (mret true) (mret 0) (jitter_rng_read H get_state set_state).

Lemma jitter_loop_ok n : (forall x, exists x' v, rdtsc H x = Done x' v) ->
  forall st x, exists x' bs st', jitter_loop H n st x = Done x' (bs, st') /\ length bs = n.
Proof.
  intros Ht. induction n as [|n IH]; intros st x; cbn [jitter_loop]; [by do 3 eexists|].
  destruct (Ht x) as (x1 & t1 & E1). destruct (Ht x1) as (x2 & t2 & E2). rewrite (bind_done _ _ _ _ _ E1), (bind_done _ _ _ _ _ E2).
  destruct (jitter_step st t1 t2) as [b st1]. destruct (IH st1 x2) as (x' & bs & st' & E & Hl). rewrite (bind_done _ _ _ _ _ E).
  do 3 eexists. split; [done|]. cbn. lia.
Qed.

Lemma jitter_always : (forall x, exists x' v, rdtsc H x = Done x' v) -> lawful jitter /\ steady jitter.
Proof.
  intros Ht. assert (forall n x, 0 < n < 2 ^ 31 -> exists x' bs, d_read jitter n x = Done x' (n, bs) /\ Z.of_nat (length bs) = n) as Hr.
  { intros n x Hn. cbn [jitter d_read]. unfold jitter_rng_read. rewrite bind_gets. destruct (jitter_loop_ok (Z.to_nat n) Ht (get_state x) x) as (x' & bs & st & E & Hl).
    rewrite (bind_done _ _ _ _ _ E). cbn beta iota. rewrite bind_modify. exists (set_state st x'), bs. rewrite sext_small by lia. split; [done|lia]. }
  split; [split; [repeat constructor; lia|]|].
  - intros n x Hn. destruct (Hr n x Hn) as (x' & bs & E & Hl). exists x', n, bs. split; [done|]. right. lia.
  - intros n x x' r bs Hn E. destruct (Hr n x Hn) as (y & cs & E' & _). rewrite E in E'. injection E' as _ -> _. lia.
Qed.

End source_facts.

(** ** Runs *)

(** A machine with the jitter source alone, and an empty pool. *)
Definition jitter0 : hw_rng_driver_t Z := jitter dead id (fun st _ => st).
Definition pool0 : rng Z := mk_rng (Some (mk_kqueue (replicate 512 0) 512 0 0 0)) [true] 7.

Lemma random_bytes_fills_witness : exists s' bs,
  length bs = 3%nat /\ random_bytes [jitter0] 4 (replicate 256 0) [1; 2; 3] pool0 = Done s' (0, bs).
Proof.
  destruct (jitter_always dead id (fun st _ => st) ltac:(intros x; by do 2 eexists)) as [Hl Hs].
  destruct (random_bytes_fills [jitter0] (replicate 256 0) ltac:(repeat constructor; apply Hl) ltac:(reflexivity) pool0 (mk_kqueue (replicate 512 0) 512 0 0 0) 3)
    as (s' & bs & q' & _ & Hlen & _ & Hr); [|lia|].
  - split_and!; [reflexivity|vm_compute; intuition discriminate|vm_compute; discriminate|vm_compute; reflexivity|]. exists 0%nat, jitter0. split_and!; [reflexivity..|exact Hs].
  - exists s', bs. split; [lia|]. apply (Hr [1; 2; 3]). reflexivity.
Defined.

(** A source that counts its calls, and one that always fails. *)
Definition counter : hw_rng_driver_t Z := mk_rng_driver (str "C") (mret true) (mret 0) (fun n x => Done (x + 1) (n, replicate (Z.to_nat n) x)).
Definition broken : hw_rng_driver_t Z := mk_rng_driver (str "B") (mret true) (mret 0) (fun n x => Done x (0, [])).

(** The pool has 8192 bytes but the index of [Kqueue] it is read at only 8 bits: the
    second 256 bytes are the first ones again, although the source gave new ones. *)
Lemma random_bytes_repeat :
  result_of ((rng_init [counter] true (Some (replicate (Z.to_nat 8192) 0)) ≫= fun _ =>
              '(_, a) ← random_bytes [counter] 9 (replicate 256 0) (replicate 256 9);
              '(_, b) ← random_bytes [counter] 9 (replicate 256 0) (replicate 256 9);
              mret (bool_decide (a = replicate 256 5), bool_decide (b = a))) (mk_rng None [] 5)) = Some (true, true).
Proof. vm_compute. reflexivity. Qed.

(** When the sources fail after the first byte of a request, the call never returns. *)
Lemma random_bytes_hangs fuel : random_bytes [broken] fuel (replicate 256 0) [1; 2] (mk_rng (Some (mk_kqueue [77] 1 0 0 1)) [true] 0) = Fault.
Proof.
  assert (forall q, cnt q < 256 -> rng_fillpool [broken] (replicate 256 0) (mk_rng (Some q) [true] 0) = Done (mk_rng (Some q) [true] 0) (-1)) as Ef.
  { intros q Hq. unfold rng_fillpool. rewrite (bind_done get _ _ _ _ eq_refl). cbn [entq kqueue_queued]. by rewrite (proj2 (Z.ltb_lt (cnt q) (8 * 32)) Hq). }
  destruct fuel as [|fuel]; [done|]. unfold random_bytes. cbn [random_loop].
  rewrite (proj2 (Z.ltb_lt 0 (Z.of_nat (length [1; 2]))) eq_refl). cbn [negb]. rewrite (bind_done _ _ _ _ _ (Ef (mk_kqueue [77] 1 0 0 1) eq_refl)).
  transitivity (random_loop [broken] fuel (replicate 256 0) [77; 2] 2 1 (mk_rng (Some (mk_kqueue [77] 1 0 0 0)) [true] 0)); [reflexivity|].
  induction fuel as [|fuel IH]; [done|]. cbn [random_loop]. change (1 <? 2) with true. cbn [negb]. rewrite (bind_done _ _ _ _ _ (Ef (mk_kqueue [77] 1 0 0 0) eq_refl)). etransitivity; [|exact IH]. reflexivity.
Qed.

End Rng.
