(* ===== verification/Hid.v ===== *)
(** Keyboards and mice ([src/drivers/hid/ps2/kbd.c], [ps2/mouse.c],
    [generichid/kbd.c], [generichid/mouse.c], [usbhid/usbhid_kbd.c],
    [usbhid/usbhid_mouse.c]): scan codes, characters and movements from interrupts
    and reports into the queues the system calls read.

    Model: what a handler does is a list of events in their order - a byte into the
    queue of scan codes, one into the queue of characters, a movement into the queue
    of the mouse, a scrolling of the console - which [perform] carries out on the
    queues of [Kqueue]. *)
From S2P Require Import Prelude Kqueue.

Module Hid.
Import Kqueue.

(** ** Tables *)

Definition sc_map : list Z :=
  [0; 0; 49; 50; 51; 52; 53; 54; 55; 56; 57; 48; 45; 61; 8; 9; 113; 119; 101; 114; 116; 121; 117; 105; 111; 112;
   91; 93; 10; 0; 97; 115; 100; 102; 103; 104; 106; 107; 108; 59; 39; 96; 0; 92; 122; 120; 99; 118; 98; 110; 109;
   44; 46; 47; 0; 42; 0; 32] ++ replicate 70 0.
Definition sc_map_shift : list Z :=
  [0; 0; 33; 64; 35; 36; 37; 94; 38; 42; 40; 41; 95; 43; 0; 0; 81; 87; 69; 82; 84; 89; 85; 73; 79; 80; 123; 125;
   10; 0; 65; 83; 68; 70; 71; 72; 74; 75; 76; 58; 34; 126; 0; 124; 90; 88; 67; 86; 66; 78; 77; 60; 62; 63; 0; 42;
   0; 32] ++ replicate 70 0.
Definition hid_scancode_map : list Z :=
  [0; 0; 0; 0; 97; 98; 99; 100; 101; 102; 103; 104; 105; 106; 107; 108; 109; 110; 111; 112; 113; 114; 115; 116;
   117; 118; 119; 120; 121; 122; 49; 50; 51; 52; 53; 54; 55; 56; 57; 48; 10; 27; 8; 9; 32; 45; 61; 91; 93; 92; 0;
   59; 39; 96; 44; 46; 47] ++ replicate 199 0.
Definition hid_scancode_map_shift : list Z :=
  [0; 0; 0; 0; 65; 66; 67; 68; 69; 70; 71; 72; 73; 74; 75; 76; 77; 78; 79; 80; 81; 82; 83; 84; 85; 86; 87; 88;
   89; 90; 33; 64; 35; 36; 37; 94; 38; 42; 40; 41; 10; 27; 8; 9; 32; 95; 43; 123; 125; 124; 0; 58; 34; 126; 60;
   62; 63] ++ replicate 199 0.
Definition hid_to_ps2 : list Z :=
  [0; 0; 0; 0; 30; 48; 46; 32; 18; 33; 34; 35; 23; 36; 37; 38; 50; 49; 24; 25; 16; 19; 31; 20; 22; 47; 17; 45;
   44; 21; 2; 3; 4; 5; 6; 7; 8; 9; 10; 11; 28; 1; 14; 15; 57; 12; 13; 26; 27; 43; 0; 39; 40; 41; 51; 52; 53; 58;
   59; 60; 61; 62; 63; 64; 65; 66; 67; 68; 69; 70; 84; 71; 72; 82; 71; 73; 83; 79; 81; 77; 75; 80; 72; 69; 84;
   55; 74; 78; 88; 79; 80; 81; 75; 76; 77; 71; 72; 73; 82; 83; 86; 0; 0; 0; 100; 101; 102; 103; 104; 105; 106;
   107; 108; 109; 110; 111; 112; 113; 114; 115; 116; 117; 118; 119; 120; 121; 122; 123; 124; 125; 126; 127; 128;
   129; 130; 131; 132; 133; 134; 135; 136; 137; 138; 139; 140; 141; 142; 143; 144; 145; 146; 147; 148; 149; 150;
   151; 152; 153; 154; 155; 156; 157; 158; 159; 160; 161; 162; 163; 164; 165; 166; 167; 168; 169; 170; 171; 172;
   173; 174; 175; 176; 177; 178; 179; 180; 181; 182; 183; 184; 185; 186; 187; 188; 189; 190; 191; 192; 193; 194;
   195; 196; 197; 198; 199; 200; 201; 202; 203; 204; 205; 206; 207; 208; 209; 210; 211; 212; 213; 214; 215; 216;
   217; 218; 219; 220; 221; 222; 223; 224; 225; 226; 227; 228; 229; 230; 231; 232; 233; 234; 235; 236; 237; 238;
   239; 240; 241; 242; 243; 244; 245; 246; 247; 248; 249; 250; 251].

Definition MOUSE_BUTTON_LEFT : Z := 0x01.
Definition MOUSE_BUTTON_RIGHT : Z := 0x02.
Definition MOUSE_BUTTON_MIDDLE : Z := 0x04.

(** ** State and events *)

Record mouse_info_t := mk_mouse { m_x : Z; m_y : Z; m_buttons : Z; m_wheel : Z }.
Record kbd_report := mk_report { modifiers : Z; keys : list Z }.

Inductive event :=
| Sc (sc : Z)
| Key (c : Z)
| Move (m : mouse_info_t)
| ScrollUp (n : Z)
| ScrollDown (n : Z).

Record hid := mk_hid {
  kbchq : kqueue_t;
  kbscq : kqueue_t;
  msq : kqueue_t;
  shift_pressed : bool;
  prev_report : kbd_report;
  ps2mscycle : Z;
  ps2mspkt : list Z;
  scrolls : list event      (* what the console was told, oldest first *)
}.

Definition set_shift (b : bool) (s : hid) : hid := mk_hid (kbchq s) (kbscq s) (msq s) b (prev_report s) (ps2mscycle s) (ps2mspkt s) (scrolls s).
Definition set_prev (r : kbd_report) (s : hid) : hid := mk_hid (kbchq s) (kbscq s) (msq s) (shift_pressed s) r (ps2mscycle s) (ps2mspkt s) (scrolls s).
Definition set_pkt (n : Z) (p : list Z) (s : hid) : hid := mk_hid (kbchq s) (kbscq s) (msq s) (shift_pressed s) (prev_report s) n p (scrolls s).

(** A mouse record as it is queued. *)
Definition mouse_bytes (m : mouse_info_t) : list Z := [u8 (m_x m); u8 (m_y m); m_buttons m; u8 (m_wheel m)].

Definition enqueue_key (c : Z) : M hid unit := s ← get;
  r ← deref (kqueue_enqueue (kbchq s) [c] 1);
  put (mk_hid r.1 (kbscq s) (msq s) (shift_pressed s) (prev_report s) (ps2mscycle s) (ps2mspkt s) (scrolls s)).
Definition enqueue_sc (c : Z) : M hid unit := s ← get;
  r ← deref (kqueue_enqueue (kbscq s) [c] 1);
  put (mk_hid (kbchq s) r.1 (msq s) (shift_pressed s) (prev_report s) (ps2mscycle s) (ps2mspkt s) (scrolls s)).
Definition scroll (e : event) : M hid unit :=
  modify (fun s => mk_hid (kbchq s) (kbscq s) (msq s) (shift_pressed s) (prev_report s) (ps2mscycle s) (ps2mspkt s) (scrolls s ++ [e])).

(** The console scrolls with the wheel when it is active. *)
Definition enqueue_mouse (active : bool) (m : mouse_info_t) : M hid unit :=
  _ ← (if negb (m_wheel m =? 0) && active
       then scroll (if 0 <? m_wheel m then ScrollUp (m_wheel m * 3) else ScrollDown (- m_wheel m * 3))
       else mret tt);
  s ← get;
  r ← deref (kqueue_enqueue (msq s) (mouse_bytes m) 4);
  put (mk_hid (kbchq s) (kbscq s) r.1 (shift_pressed s) (prev_report s) (ps2mscycle s) (ps2mspkt s) (scrolls s)).

Definition perform1 (active : bool) (e : event) : M hid unit :=
  match e with
  | Sc b => enqueue_sc b
  | Key c => enqueue_key c
  | Move m => enqueue_mouse active m
  | ScrollUp _ | ScrollDown _ => scroll e
  end.
Fixpoint perform (active : bool) (l : list event) : M hid unit :=
  match l with [] => mret tt | e :: r => _ ← perform1 active e; perform active r end.

(** ** The PS/2 keyboard *)

Definition char_at (t : list Z) (i : Z) : Z := default 0 (aget t i).

(** The state of the shift keys and the events after a scan code. *)
Definition kbd_code (active shift : bool) (sc : Z) : bool * list event :=
  if negb (Z.land sc 0x80 =? 0) then
    let released := Z.land sc 0x7F in
    ((if (released =? 0x2A) || (released =? 0x36) then false else shift), [Sc sc])
  else if (sc =? 0x2A) || (sc =? 0x36) then (true, [Sc sc])
  else if active && (sc =? 0x49) then (shift, [Sc sc; ScrollUp 15])
  else if active && (sc =? 0x51) then (shift, [Sc sc; ScrollDown 15])
  else if active && shift && (sc =? 0x48) then (shift, [Sc sc; ScrollUp 1])
  else if active && shift && (sc =? 0x50) then (shift, [Sc sc; ScrollDown 1])
  else
    let c := char_at (if shift then sc_map_shift else sc_map) sc in
    (shift, Sc sc :: (if c =? 0 then [] else [Key c])).

Definition c_kbd_hdlr (active : bool) (sc : Z) : M hid unit :=
  s ← get;
  let r := kbd_code active (shift_pressed s) sc in
  _ ← modify (set_shift r.1);
  perform active r.2.

(** ** The PS/2 mouse *)

Definition s16 := sext 16.

(** One of the two movements of a packet: the byte and its sign. *)
Definition movement (byte : Z) (sign : bool) : Z :=
  let rel := if sign then s16 (Z.lor byte 0xFF00) else byte in
  sext 8 (Z.quot rel 2).

Definition decode (pkt : list Z) : mouse_info_t :=
  let b := char_at pkt 0 in
  let btns := 0 in
  let btns := if Z.testbit b 0 then Z.lor btns MOUSE_BUTTON_LEFT else btns in
  let btns := if Z.testbit b 1 then Z.lor btns MOUSE_BUTTON_RIGHT else btns in
  let btns := if Z.testbit b 2 then Z.lor btns MOUSE_BUTTON_MIDDLE else btns in
  mk_mouse (movement (char_at pkt 1) (Z.testbit b 4)) (movement (char_at pkt 2) (Z.testbit b 5)) btns 0.

(** Position in the packet, the packet and the events after a byte. *)
Definition mouse_byte (cycle : Z) (pkt : list Z) (data : Z) : Z * list Z * list event :=
  if cycle =? 0 then ((if negb (Z.land data 0x08 =? 0) then 1 else 0), <[0%nat := data]> pkt, [])
  else if cycle =? 1 then (2, <[1%nat := data]> pkt, [])
  else if cycle =? 2 then let pkt := <[2%nat := data]> pkt in (0, pkt, [Move (decode pkt)])
  else (cycle, pkt, []).

(** [data]: the byte behind the status, read only when the status announces one. *)
Definition c_mouse_hdlr (active : bool) (stat data : Z) : M hid unit :=
  if negb (Z.land stat 0x01 =? 0) && negb (Z.land stat 0x20 =? 0) then
    s ← get;
    let '(n, p, es) := mouse_byte (ps2mscycle s) (ps2mspkt s) data in
    _ ← modify (set_pkt n p);
    perform active es
  else mret tt.

(** ** The USB keyboard *)

Definition was_in (key : Z) (l : list Z) : bool := existsb (fun k => k =? key) l.

Definition key_event (active shift : bool) (prev : list Z) (key : Z) : list event :=
  if key =? 0 then [] else
  if was_in key prev then [] else
  if active && (key =? 0x4B) then [ScrollUp 15]
  else if active && (key =? 0x4E) then [ScrollDown 15]
  else if active && shift && (key =? 0x52) then [ScrollUp 1]
  else if active && shift && (key =? 0x51) then [ScrollDown 1]
  else
    let c := char_at (if shift then hid_scancode_map_shift else hid_scancode_map) key in
    if c =? 0 then [] else [Key c].

Definition release_event (now : list Z) (oldk : Z) : list event :=
  if oldk =? 0 then [] else
  if was_in oldk now then [] else
  let sc := char_at hid_to_ps2 oldk in
  if sc =? 0 then [] else [Sc (Z.lor sc 0x80)].

Definition press_event (prev : list Z) (newk : Z) : list event :=
  if newk =? 0 then [] else
  if was_in newk prev then [] else
  let sc := char_at hid_to_ps2 newk in
  if sc =? 0 then [] else [Sc sc].

Definition report_events (active : bool) (prev rprt : kbd_report) : list event :=
  let shift := negb (Z.land (modifiers rprt) 0x22 =? 0) in
  let ctrl := negb (Z.land (modifiers rprt) 0x11 =? 0) in
  let prev_ctrl := negb (Z.land (modifiers prev) 0x11 =? 0) in
  (if ctrl && negb prev_ctrl then [Sc 0x1d] else if negb ctrl && prev_ctrl then [Sc 0x9d] else []) ++
  flat_map (key_event active shift (keys prev)) (keys rprt) ++
  flat_map (release_event (keys rprt)) (keys prev) ++
  flat_map (press_event (keys prev)) (keys rprt).

(** [res]: the report that the controller delivered, if any. *)
Definition usb_hid_kbd_poll (active : bool) (res : option kbd_report) : M hid unit :=
  match res with
  | None => mret tt
  | Some rprt =>
      s ← get;
      _ ← perform active (report_events active (prev_report s) rprt);
      modify (set_prev rprt)
  end.

(** ** The USB mouse *)

Definition usb_hid_mouse_poll (active : bool) (res : option mouse_info_t) : M hid unit :=
  match res with
  | None => mret tt
  | Some r =>
      let btns := 0 in
      let btns := if Z.testbit (m_buttons r) 0 then Z.lor btns MOUSE_BUTTON_LEFT else btns in
      let btns := if Z.testbit (m_buttons r) 1 then Z.lor btns MOUSE_BUTTON_RIGHT else btns in
      let btns := if Z.testbit (m_buttons r) 2 then Z.lor btns MOUSE_BUTTON_MIDDLE else btns in
      enqueue_mouse active (mk_mouse (m_x r) (m_y r) btns (m_wheel r))
  end.

(** ** Reading *)

(** The character, 0 when there is none. *)
Definition dequeue_key : M hid Z := s ← get;
  r ← deref (kqueue_dequeue (kbchq s) 1);
  let '(q, bs, n) := r in
  _ ← put (mk_hid q (kbscq s) (msq s) (shift_pressed s) (prev_report s) (ps2mscycle s) (ps2mspkt s) (scrolls s));
  if n =? 0 then mret 0 else deref (bs !! 0%nat).
Definition dequeue_sc : M hid Z := s ← get;
  r ← deref (kqueue_dequeue (kbscq s) 1);
  let '(q, bs, n) := r in
  _ ← put (mk_hid (kbchq s) q (msq s) (shift_pressed s) (prev_report s) (ps2mscycle s) (ps2mspkt s) (scrolls s));
  if n =? 0 then mret 0 else deref (bs !! 0%nat).
Definition kb_has_char (s : hid) : bool := 0 <? kqueue_queued (Some (kbchq s)).
Definition kb_has_sc (s : hid) : bool := 0 <? kqueue_queued (Some (kbscq s)).
Definition mouse_has_info (s : hid) : bool := 0 <? kqueue_queued (Some (msq s)) / 4.

(** A record, all zero when the queue holds less than one. *)
Definition dequeue_mouse : M hid mouse_info_t := s ← get;
  r ← deref (kqueue_dequeue (msq s) 4);
  let '(q, bs, n) := r in
  _ ← put (mk_hid (kbchq s) (kbscq s) q (shift_pressed s) (prev_report s) (ps2mscycle s) (ps2mspkt s) (scrolls s));
  mret (if n <? 4 then mk_mouse 0 0 0 0
        else mk_mouse (sext 8 (char_at bs 0)) (sext 8 (char_at bs 1)) (char_at bs 2) (sext 8 (char_at bs 3))).

(** ** What reaches the queues *)

Definition scs (l : list event) : list Z := flat_map (fun e => match e with Sc b => [b] | _ => [] end) l.
Definition typed (l : list event) : list Z := flat_map (fun e => match e with Key c => [c] | _ => [] end) l.
Definition moved (l : list event) : list Z := flat_map (fun e => match e with Move m => mouse_bytes m | _ => [] end) l.

Definition room (q : kqueue_t) : Z := sz q - cnt q.
(** [bs] was appended, if there was room for it. *)
Definition grew (q q' : kqueue_t) (bs : list Z) : Prop :=
  kq_ring q' /\ (Z.of_nat (length bs) <= room q -> contents q' = contents q ++ bs /\ room q' = room q - Z.of_nat (length bs)).

Lemma grew_nil q : kq_ring q -> grew q q [].
Proof. intros Hq. split; [done|]. intros _. rewrite app_nil_r. cbn. split; [done|lia]. Qed.

Lemma grew_app q q1 q2 a b : grew q q1 a -> grew q1 q2 b -> grew q q2 (a ++ b).
Proof.
  intros [_ H1] [Hq H2]. split; [done|]. rewrite length_app. intros Hr. destruct H1 as [E1 R1]; [lia|]. destruct H2 as [E2 R2]; [lia|].
  rewrite E2, E1, R2, R1, app_assoc. split; [done|lia].
Qed.

Lemma length_contents q : kq_ring q -> Z.of_nat (length (contents q)) = cnt q.
Proof. intros (_ & _ & _ & Hc & _). unfold contents, ring. rewrite length_fmap, length_seqZ. lia. Qed.

Lemma enqueue_grew q bs : kq_ring q -> exists q' n, kqueue_enqueue q bs (Z.of_nat (length bs)) = Some (q', n) /\ grew q q' bs.
Proof.
  intros Hq. destruct (kqueue_enqueue_appends q bs Hq) as (q' & E & Hq' & Hs & Hc). exists q', (Z.min (Z.of_nat (length bs)) (sz q - cnt q)).
  split; [done|]. split; [done|]. unfold room. intros Hr. rewrite Z.min_l, Nat2Z.id, firstn_all in Hc by lia. split; [done|].
  rewrite <- (length_contents q' Hq'), <- (length_contents q Hq), Hc, length_app, Hs. lia.
Qed.

(** The queues after some events, and everything else as it was. *)
Record performed (s s' : hid) (l : list event) : Prop := {
  pf_ch : grew (kbchq s) (kbchq s') (typed l);
  pf_sc : grew (kbscq s) (kbscq s') (scs l);
  pf_ms : grew (msq s) (msq s') (moved l);
  pf_shift : shift_pressed s' = shift_pressed s;
  pf_prev : prev_report s' = prev_report s;
  pf_pkt : ps2mscycle s' = ps2mscycle s /\ ps2mspkt s' = ps2mspkt s
}.
Definition rings (s : hid) : Prop := kq_ring (kbchq s) /\ kq_ring (kbscq s) /\ kq_ring (msq s).

Lemma performed_rings s s' l : performed s s' l -> rings s'.
Proof. intros [[? _] [? _] [? _] _ _ _]. done. Qed.

Lemma performed_nil s : rings s -> performed s s [].
Proof. intros (? & ? & ?). by split; try apply grew_nil. Qed.

Lemma performed_app s s1 s2 a b : performed s s1 a -> performed s1 s2 b -> performed s s2 (a ++ b).
Proof.
  intros [C1 S1 M1 P1 R1 [K1 K1']] [C2 S2 M2 P2 R2 [K2 K2']]. unfold typed, scs, moved in *.
  split; try congruence; [unfold typed|unfold scs|unfold moved|]; [rewrite flat_map_app; by eapply grew_app..|]. split; congruence.
Qed.

Lemma perform1_ok active e s : rings s -> exists s', perform1 active e s = Done s' tt /\ performed s s' [e].
Proof.
  intros (Hc & Hs & Hm). destruct e as [b|c|m|n|n]; cbn [perform1].
  - unfold enqueue_sc. rewrite (bind_done get _ s s s eq_refl). destruct (enqueue_grew (kbscq s) [b] Hs) as (q & n & E & Hg). change (Z.of_nat (length [b])) with 1 in E.
    rewrite E, bind_deref. eexists. split; [done|]. by split; try apply grew_nil.
  - unfold enqueue_key. rewrite (bind_done get _ s s s eq_refl). destruct (enqueue_grew (kbchq s) [c] Hc) as (q & n & E & Hg). change (Z.of_nat (length [c])) with 1 in E.
    rewrite E, bind_deref. eexists. split; [done|]. by split; try apply grew_nil.
  - unfold enqueue_mouse. set (up := if negb _ && _ then _ else _).
    assert (exists s1, up s = Done s1 tt /\ msq s1 = msq s /\ performed s s1 []) as (s1 & E1 & Eq & Hp).
    { unfold up. destruct (negb (m_wheel m =? 0) && active); eexists; (split; [done|]; split; [done|]; by split; try apply grew_nil). }
    rewrite (bind_done _ _ _ _ _ E1), (bind_done get _ s1 s1 s1 eq_refl), Eq. destruct (enqueue_grew (msq s) (mouse_bytes m) Hm) as (q & n & E & Hg).
    change (Z.of_nat (length (mouse_bytes m))) with 4 in E. rewrite E, bind_deref. eexists. split; [done|].
    destruct Hp as [C1 S1 M1 P1 R1 K1]. by split.
  - eexists. split; [done|]. by split; try apply grew_nil.
  - eexists. split; [done|]. by split; try apply grew_nil.
Qed.

Lemma perform_ok active l : forall s, rings s -> exists s', perform active l s = Done s' tt /\ performed s s' l.
Proof.
  induction l as [|e l IH]; intros s Hs; cbn [perform]; [exists s; split; [done|]; by apply performed_nil|].
  destruct (perform1_ok active e s Hs) as (s1 & E1 & H1). destruct (IH s1 (performed_rings _ _ _ H1)) as (s2 & E2 & H2).
  exists s2. rewrite (bind_done _ _ _ _ _ E1). split; [done|]. change (e :: l) with ([e] ++ l). by eapply performed_app.
Qed.

(** ** Typing *)

Fixpoint run_codes (active shift : bool) (l : list Z) : bool * list event :=
  match l with
  | [] => (shift, [])
  | sc :: r => let a := kbd_code active shift sc in let b := run_codes active a.1 r in (b.1, a.2 ++ b.2)
  end.

(** The handler on one code after the other. *)
Fixpoint handle_codes (active : bool) (l : list Z) : M hid unit :=
  match l with [] => mret tt | sc :: r => _ ← c_kbd_hdlr active sc; handle_codes active r end.

Lemma handle_codes_run active l : forall s, rings s -> exists s', handle_codes active l s = Done s' tt /\
  shift_pressed s' = (run_codes active (shift_pressed s) l).1 /\ rings s' /\ grew (kbchq s) (kbchq s') (typed (run_codes active (shift_pressed s) l).2).
Proof.
  induction l as [|sc l IH]; intros s Hs; cbn [handle_codes run_codes].
  { exists s. split_and!; [done|done|done|]. apply grew_nil, Hs. }
  unfold c_kbd_hdlr. set (a := kbd_code active (shift_pressed s) sc). destruct (perform_ok active a.2 (set_shift a.1 s) Hs) as (s1 & E1 & H1).
  destruct (IH s1 (performed_rings _ _ _ H1)) as (s2 & E2 & Hsh & Hr & Hg). exists s2.
  assert ((s0 ← get; let r := kbd_code active (shift_pressed s0) sc in _ ← modify (set_shift r.1); perform active r.2) s = Done s1 tt) as E
    by (rewrite (bind_done get _ s s s eq_refl); cbv zeta; fold a; by rewrite bind_modify).
  rewrite (bind_done _ _ _ _ _ E). rewrite (pf_shift _ _ _ H1) in Hsh, Hg. cbn [shift_pressed set_shift fst snd] in *.
  split_and!; [done|done|done|]. unfold typed in *. rewrite flat_map_app. eapply grew_app; [apply H1|done].
Qed.

(** The key that prints a character, and the codes of pressing and releasing it,
    with a shift key held when the character needs one. *)
Definition code_of (t : list Z) (c : Z) : option Z := (fun p => Z.of_nat p.1) <$> list_find (fun x => x = c) t.
Definition strokes (c : Z) : list Z :=
  match code_of sc_map c, code_of sc_map_shift c with
  | Some i, _ => [i; Z.lor i 0x80]
  | None, Some i => [0x2A; i; Z.lor i 0x80; 0xAA]
  | None, None => []
  end.
Definition typable (c : Z) : Prop := c <> 0 /\ c ∈ sc_map ++ sc_map_shift.

Lemma run_app active l1 : forall shift l2, run_codes active shift (l1 ++ l2) =
  let a := run_codes active shift l1 in let b := run_codes active a.1 l2 in (b.1, a.2 ++ b.2).
Proof.
  induction l1 as [|x l1 IH]; intros shift l2; cbn [app run_codes]; [cbn; by destruct (run_codes active shift l2)|]. rewrite IH. cbn. by rewrite app_assoc.
Qed.

Lemma typed_app l1 l2 : typed (l1 ++ l2) = typed l1 ++ typed l2.
Proof. apply flat_map_app. Qed.

Lemma strokes_ok active c : typable c -> (run_codes active false (strokes c)).1 = false /\ typed (run_codes active false (strokes c)).2 = [c].
Proof.
  intros [H0 Hin].
  assert (Forall (fun c => c <> 0 -> (run_codes active false (strokes c)).1 = false /\ typed (run_codes active false (strokes c)).2 = [c]) (sc_map ++ sc_map_shift)) as Hall.
  { destruct active; apply (bool_decide_unpack _); by vm_compute. }
  rewrite Forall_forall in Hall. by apply Hall.
Qed.

Lemma text_typed active text : Forall typable text ->
  (run_codes active false (flat_map strokes text)).1 = false /\ typed (run_codes active false (flat_map strokes text)).2 = text.
Proof.
  induction 1 as [|c text Hc Ht [IH1 IH2]]; [done|]. cbn [flat_map]. rewrite run_app. cbn zeta. destruct (strokes_ok active c Hc) as [E1 E2]. rewrite E1. cbn [fst snd].
  split; [done|]. by rewrite typed_app, E2, IH2.
Qed.

(** What is typed arrives: interrupts for pressing and releasing the keys of a text,
    with a shift key where one is needed, append exactly the text to the queue of
    characters, whether the console is active or not, as long as there is room. *)
Theorem ps2_typed_text active text s : Forall typable text -> rings s -> shift_pressed s = false -> Z.of_nat (length text) <= room (kbchq s) ->
  exists s', handle_codes active (flat_map strokes text) s = Done s' tt /\ shift_pressed s' = false /\ rings s' /\
    contents (kbchq s') = contents (kbchq s) ++ text.
Proof.
  intros Ht Hs Hsh Hr. destruct (handle_codes_run active (flat_map strokes text) s Hs) as (s' & E & Hsh' & Hrs & [_ Hg]). rewrite Hsh in *.
  destruct (text_typed active text Ht) as [E1 E2]. rewrite E1 in Hsh'. rewrite E2 in Hg. exists s'. split_and!; [done|done|done|]. by apply Hg.
Qed.

(** Queues of 512, 512 and 256 bytes, all empty. *)
Definition empty_queue (n : nat) : kqueue_t := mk_kqueue (replicate n 0) (Z.of_nat n) 0 0 0.
Definition hid0 : hid := mk_hid (empty_queue 512) (empty_queue 512) (empty_queue 256) false (mk_report 0 [0; 0; 0; 0; 0; 0]) 0 [0; 0; 0] [].

Lemma rings0 : rings hid0.
Proof. split_and!; vm_compute; intuition discriminate. Qed.

Lemma ps2_typed_text_witness : exists s',
  handle_codes true (flat_map strokes [72; 105; 33]) hid0 = Done s' tt /\ contents (kbchq s') = [72; 105; 33].
Proof.
  destruct (ps2_typed_text true [72; 105; 33] hid0) as (s' & E & _ & _ & Hc);
    [apply (bool_decide_unpack _); by vm_compute|exact rings0|reflexivity|vm_compute; discriminate|]. exists s'. split; [exact E|exact Hc].
Defined.

(** ** Movements *)

Fixpoint run_bytes (cycle : Z) (pkt : list Z) (l : list Z) : Z * list Z * list event :=
  match l with
  | [] => (cycle, pkt, [])
  | b :: r => let '(n, p, es) := mouse_byte cycle pkt b in let '(n', p', es') := run_bytes n p r in (n', p', es ++ es')
  end.

(** The packet of a movement of nine bits in each direction. *)
Definition packet (m : Z * Z * Z) : list Z :=
  let '(dx, dy, btns) := m in
  [8 + btns + (if dx <? 0 then 16 else 0) + (if dy <? 0 then 32 else 0); dx mod 256; dy mod 256].

Definition in_packet (m : Z * Z * Z) : Prop := let '(dx, dy, btns) := m in -256 <= dx < 256 /\ -256 <= dy < 256 /\ 0 <= btns < 8.

Lemma movement_ok d : -256 <= d < 256 -> movement (d mod 256) (d <? 0) = Z.quot d 2.
Proof.
  intros Hd. assert (Forall (fun d => movement (d mod 256) (d <? 0) = Z.quot d 2) (seqZ (-256) 512)) as H by (apply (bool_decide_unpack _); by vm_compute).
  rewrite Forall_forall in H. apply H, elem_of_seqZ. lia.
Qed.

(** The bits of the first byte. *)
Lemma first_byte b sx sy : 0 <= b < 8 -> let v := 8 + b + (if sx : bool then 16 else 0) + (if sy : bool then 32 else 0) in
  (Z.land v 0x08 =? 0) = false /\ Z.testbit v 4 = sx /\ Z.testbit v 5 = sy /\ m_buttons (decode [v; 0; 0]) = b.
Proof.
  intros Hb v. assert (b = 0 \/ b = 1 \/ b = 2 \/ b = 3 \/ b = 4 \/ b = 5 \/ b = 6 \/ b = 7) as Hc by lia.
  unfold v. destruct sx, sy; destruct Hc as [->|[->|[->|[->|[->|[->|[->| ->]]]]]]]; by vm_compute.
Qed.

Lemma packet_ok dx dy btns pkt : in_packet (dx, dy, btns) -> length pkt = 3%nat ->
  run_bytes 0 pkt (packet (dx, dy, btns)) = (0, packet (dx, dy, btns), [Move (mk_mouse (Z.quot dx 2) (Z.quot dy 2) btns 0)]).
Proof.
  intros (Hx & Hy & Hb) Hl. destruct pkt as [|p0 [|p1 [|p2 [|]]]]; cbn in Hl; try lia.
  destruct (first_byte btns (dx <? 0) (dy <? 0) Hb) as (F8 & F4 & F5 & Fb). unfold packet. set (v := 8 + btns + _ + _) in *. cbn [run_bytes mouse_byte Z.eqb insert list_insert].
  rewrite F8. cbn [negb run_bytes mouse_byte Z.eqb Pos.eqb insert list_insert app]. do 2 f_equal. f_equal. f_equal. unfold decode in *. cbn [m_buttons] in Fb.
  change (char_at [v; dx mod 256; dy mod 256] 0) with v. change (char_at [v; 0; 0] 0) with v in Fb.
  change (char_at [v; dx mod 256; dy mod 256] 1) with (dx mod 256). change (char_at [v; dx mod 256; dy mod 256] 2) with (dy mod 256).
  rewrite F4, F5, Fb, !movement_ok by done. done.
Qed.

Lemma run_bytes_app l1 : forall cycle pkt l2, run_bytes cycle pkt (l1 ++ l2) =
  let '(n, p, es) := run_bytes cycle pkt l1 in let '(n', p', es') := run_bytes n p l2 in (n', p', es ++ es').
Proof.
  induction l1 as [|x l1 IH]; intros cycle pkt l2; cbn [app run_bytes]; [by destruct (run_bytes cycle pkt l2) as [[??]?]|].
  destruct (mouse_byte cycle pkt x) as [[n p] es]. rewrite IH. destruct (run_bytes n p l1) as [[n1 p1] es1]. destruct (run_bytes n1 p1 l2) as [[n2 p2] es2]. by rewrite app_assoc.
Qed.

(** The handler on one byte after the other. *)
Fixpoint handle_bytes (active : bool) (l : list Z) : M hid unit :=
  match l with [] => mret tt | b :: r => _ ← c_mouse_hdlr active 0x21 b; handle_bytes active r end.

Lemma handle_bytes_run active l : forall s, rings s -> exists s', handle_bytes active l s = Done s' tt /\ rings s' /\
  grew (msq s) (msq s') (moved (run_bytes (ps2mscycle s) (ps2mspkt s) l).2).
Proof.
  induction l as [|b l IH]; intros s Hs; cbn [handle_bytes run_bytes].
  { exists s. split_and!; [done|done|]. apply grew_nil, Hs. }
  unfold c_mouse_hdlr. change (negb (Z.land 0x21 0x01 =? 0) && negb (Z.land 0x21 0x20 =? 0)) with true. cbn iota.
  destruct (mouse_byte (ps2mscycle s) (ps2mspkt s) b) as [[n p] es] eqn:Eb.
  destruct (perform_ok active es (set_pkt n p s) Hs) as (s1 & E1 & H1). destruct (IH s1 (performed_rings _ _ _ H1)) as (s2 & E2 & Hr & Hg). exists s2.
  assert ((s0 ← get; let '(n, p, es) := mouse_byte (ps2mscycle s0) (ps2mspkt s0) b in _ ← modify (set_pkt n p); perform active es) s = Done s1 tt) as E
    by (rewrite (bind_done get _ s s s eq_refl), Eb; by rewrite bind_modify).
  rewrite (bind_done _ _ _ _ _ E). destruct (pf_pkt _ _ _ H1) as [K1 K2]. rewrite K1, K2 in Hg. cbn [ps2mscycle ps2mspkt set_pkt] in Hg.
  destruct (run_bytes n p l) as [[n' p'] es']. split_and!; [done|done|]. cbn [snd] in *. unfold moved in *. rewrite flat_map_app. eapply grew_app; [apply H1|done].
Qed.

Lemma run_packets junk ms : forall pkt, Forall (fun b => Z.land b 0x08 = 0) junk -> Forall in_packet ms -> length pkt = 3%nat ->
  (run_bytes 0 pkt (junk ++ flat_map packet ms)).2 = map (fun m => Move (mk_mouse (Z.quot m.1.1 2) (Z.quot m.1.2 2) m.2 0)) ms.
Proof.
  intros pkt Hj Hm Hp. revert pkt Hp. induction Hj as [|b junk Hb Hj IH]; intros pkt Hp; cbn [app].
  - induction Hm as [|[[dx dy] btns] ms Hx Hm IH] in pkt, Hp |- *; [done|]. cbn [flat_map map]. rewrite run_bytes_app, packet_ok by done.
    specialize (IH (packet (dx, dy, btns)) eq_refl). destruct (run_bytes 0 _ (flat_map packet ms)) as [[n p] es]. cbn in IH |- *. by rewrite IH.
  - cbn [run_bytes mouse_byte Z.eqb]. rewrite Hb. cbn [Z.eqb negb]. specialize (IH (<[0%nat := b]> pkt) ltac:(by rewrite length_insert)).
    destruct (run_bytes 0 _ (junk ++ _)) as [[n p] es]. done.
Qed.

(** A movement of a packet as it is read from the queue. *)
Definition half (m : Z * Z * Z) : mouse_info_t := mk_mouse (Z.quot m.1.1 2) (Z.quot m.1.2 2) m.2 0.

(** Every packet of the mouse puts one record into the queue: half of what it reported
    in each direction, which always fits a signed byte, and the buttons; bytes that
    cannot begin a packet are skipped while the driver waits for one. *)
Theorem ps2_mouse_moves active junk ms s : Forall (fun b => Z.land b 0x08 = 0) junk -> Forall in_packet ms -> rings s ->
  ps2mscycle s = 0 -> length (ps2mspkt s) = 3%nat -> 4 * Z.of_nat (length ms) <= room (msq s) ->
  exists s', handle_bytes active (junk ++ flat_map packet ms) s = Done s' tt /\
    contents (msq s') = contents (msq s) ++ flat_map (fun m => mouse_bytes (half m)) ms /\
    Forall (fun m => -128 <= m_x (half m) < 128 /\ -128 <= m_y (half m) < 128) ms.
Proof.
  intros Hj Hm Hs Hc Hp Hr. destruct (handle_bytes_run active (junk ++ flat_map packet ms) s Hs) as (s' & E & _ & [_ Hg]).
  rewrite Hc, run_packets in Hg by done. assert (moved (map (fun m => Move (half m)) ms) = flat_map (fun m => mouse_bytes (half m)) ms) as Em.
  { unfold moved. rewrite flat_map_concat_map, map_map, <- flat_map_concat_map. done. }
  unfold half in Em at 1. rewrite Em in Hg. exists s'. split_and!; [done| |].
  - apply Hg. assert (Z.of_nat (length (flat_map (fun m => mouse_bytes (half m)) ms)) = 4 * Z.of_nat (length ms)) as ->; [|done].
    clear. induction ms as [|m ms IH]; [done|]. cbn [flat_map]. rewrite length_app. cbn [length mouse_bytes]. lia.
  - eapply Forall_impl; [exact Hm|]. intros [[dx dy] b] (Hx & Hy & _). cbn [half m_x m_y fst snd]. clear -Hx Hy. Z.to_euclidean_division_equations. lia.
Qed.

Lemma ps2_mouse_moves_witness : exists s',
  handle_bytes true ([0xF2; 0x00] ++ flat_map packet [(-256, 255, 5); (3, -1, 0)]) hid0 = Done s' tt /\
  contents (msq s') = [128; 127; 5; 0; 1; 0; 0; 0].
Proof.
  destruct (ps2_mouse_moves true [0xF2; 0x00] [(-256, 255, 5); (3, -1, 0)] hid0) as (s' & E & Hc & _);
    [repeat constructor|repeat constructor; lia|exact rings0|reflexivity|reflexivity|vm_compute; discriminate|].
  exists s'. split; [exact E|]. rewrite Hc. vm_compute. reflexivity.
Defined.

(** ** Keys that are down *)

(** A reader of the scan codes keeps the set of keys that are down. *)
Definition track1 (S : gset Z) (e : event) : gset Z :=
  match e with Sc b => if b <? 128 then {[b]} ∪ S else S ∖ {[b - 128]} | _ => S end.
Definition track (S : gset Z) (l : list event) : gset Z := fold_left track1 l S.

Definition code (k : Z) : Z := char_at hid_to_ps2 k.
Definition ctrl_down (r : kbd_report) : bool := negb (Z.land (modifiers r) 0x11 =? 0).

(** The keys of a report, as scan codes. *)
Definition is_down (r : kbd_report) (x : Z) : Prop :=
  (exists k, k ∈ keys r /\ k <> 0 /\ code k = x) \/ (x = 0x1d /\ ctrl_down r = true).

(** Keys with a code that can be told from a release. *)
Definition plain (r : kbd_report) : Prop := forall k, k ∈ keys r -> k <> 0 -> 0 <= k < 256 /\ 0 < code k < 128.

Lemma was_in_spec k l : was_in k l = true <-> k ∈ l.
Proof.
  unfold was_in. rewrite existsb_exists. split; [intros (x & Hx & E%Z.eqb_eq); subst; by apply list_elem_of_In|intros Hk; exists k; rewrite Z.eqb_refl; split; [by apply list_elem_of_In|done]].
Qed.

Lemma track_app S l1 l2 : track S (l1 ++ l2) = track (track S l1) l2.
Proof. apply fold_left_app. Qed.

Lemma track_silent S l : Forall (fun e => match e with Sc _ => False | _ => True end) l -> track S l = S.
Proof. intros H. induction H as [|e l He Hl IH] in S |- *; [done|]. cbn [track fold_left]. destruct e; try done; apply IH. Qed.

Lemma key_events_silent active shift prev l : Forall (fun e => match e with Sc _ => False | _ => True end) (flat_map (key_event active shift prev) l).
Proof.
  induction l as [|k l IH]; [constructor|]. cbn [flat_map]. apply Forall_app. split; [|done]. unfold key_event. repeat split_if; repeat constructor.
Qed.

(** A code with its high bit set. *)
Lemma release_code c : 0 < c < 128 -> (Z.lor c 0x80 <? 128) = false /\ Z.lor c 0x80 - 128 = c.
Proof.
  intros Hc. rewrite Z.lor_comm. change 0x80 with (1 * 2 ^ 7). rewrite (lor_high_low 1 c 7) by lia. split; [apply Z.ltb_ge; lia|lia].
Qed.

Lemma track_releases now l : forall S x, (forall k, k ∈ l -> k <> 0 -> 0 < code k < 128) ->
  x ∈ track S (flat_map (release_event now) l) <-> x ∈ S /\ ~ exists k, k ∈ l /\ k <> 0 /\ k ∉ now /\ code k = x.
Proof.
  induction l as [|k l IH]; intros S x Hc; cbn [flat_map]; [split; [intros Hx; split; [done|]; intros (k & Hk & _); by apply not_elem_of_nil in Hk|by intros [? _]]|].
  rewrite track_app, IH by (intros; apply Hc; [by apply elem_of_cons; right|done]). unfold release_event. fold (code k).
  destruct (Z.eqb_spec k 0) as [->|Hk0]; [cbn [track fold_left]; setoid_rewrite elem_of_cons; naive_solver|].
  destruct (was_in k now) eqn:Ew; [apply was_in_spec in Ew; cbn [track fold_left]; setoid_rewrite elem_of_cons; naive_solver|].
  assert (k ∉ now) as Hn by (intros Hin%was_in_spec; congruence). pose proof (Hc k ltac:(by left) Hk0) as Hck.
  rewrite (proj2 (Z.eqb_neq (code k) 0)) by lia. destruct (release_code (code k) Hck) as [E1 E2]. cbn [track fold_left track1]. rewrite E1, E2, elem_of_difference, elem_of_singleton.
  setoid_rewrite elem_of_cons. split; [intros [[Hx Hne] Hnot]; split; [done|]; naive_solver|]. intros [Hx Hnot]. split; [split; [done|]; intros ->; apply Hnot; by exists k; auto|]. naive_solver.
Qed.

Lemma track_presses prev l : forall S x, (forall k, k ∈ l -> k <> 0 -> 0 < code k < 128) ->
  x ∈ track S (flat_map (press_event prev) l) <-> x ∈ S \/ exists k, k ∈ l /\ k <> 0 /\ k ∉ prev /\ code k = x.
Proof.
  induction l as [|k l IH]; intros S x Hc; cbn [flat_map]; [split; [by left|intros [?|(k & Hk & _)]; [done|by apply not_elem_of_nil in Hk]]|].
  rewrite track_app, IH by (intros; apply Hc; [by apply elem_of_cons; right|done]). unfold press_event. fold (code k).
  destruct (Z.eqb_spec k 0) as [->|Hk0]; [cbn [track fold_left]; setoid_rewrite elem_of_cons; naive_solver|].
  destruct (was_in k prev) eqn:Ew; [apply was_in_spec in Ew; cbn [track fold_left]; setoid_rewrite elem_of_cons; naive_solver|].
  assert (k ∉ prev) as Hn by (intros Hin%was_in_spec; congruence). pose proof (Hc k ltac:(by left) Hk0) as Hck.
  rewrite (proj2 (Z.eqb_neq (code k) 0)) by lia. cbn [track fold_left track1]. rewrite (proj2 (Z.ltb_lt _ _)) by lia. rewrite elem_of_union, elem_of_singleton.
  setoid_rewrite elem_of_cons. naive_solver.
Qed.

(** The code of the control keys is that of no other key. *)
Lemma code_not_ctrl k : 0 <= k < 256 -> code k <> 0x1d.
Proof.
  intros Hk. assert (Forall (fun k => code k <> 0x1d) (seqZ 0 256)) as H by (apply (bool_decide_unpack _); by vm_compute).
  rewrite Forall_forall in H. apply H, elem_of_seqZ. lia.
Qed.

Lemma report_tracks active prev r (S : gset Z) : plain prev -> plain r ->
  (forall k k', k ∈ keys prev ++ keys r -> k' ∈ keys prev ++ keys r -> k <> 0 -> k' <> 0 -> code k = code k' -> k = k') ->
  (forall x, x ∈ S <-> is_down prev x) -> forall x, x ∈ track S (report_events active prev r) <-> is_down r x.
Proof.
  intros Hp Hr Hinj HS x. unfold report_events. fold (ctrl_down r). fold (ctrl_down prev). rewrite !track_app, (track_silent _ (flat_map (key_event _ _ _) _)) by apply key_events_silent.
  rewrite track_presses, track_releases by (intros; first [by apply Hp|by apply Hr]).
  assert (x ∈ track S (if ctrl_down r && negb (ctrl_down prev) then [Sc 0x1d] else if negb (ctrl_down r) && ctrl_down prev then [Sc 0x9d] else []) <->
    (exists k, k ∈ keys prev /\ k <> 0 /\ code k = x) \/ (x = 0x1d /\ ctrl_down r = true)) as ->.
  { assert (forall k, k ∈ keys prev -> k <> 0 -> code k <> 29) as Hnc by (intros k Hk H0; apply code_not_ctrl; by apply Hp).
    destruct (ctrl_down r) eqn:Er, (ctrl_down prev) eqn:Ep; cbn [andb negb track fold_left track1 Z.ltb Z.compare Pos.compare Pos.compare_cont]; change (0x9d - 128) with 29;
      rewrite ?elem_of_union, ?elem_of_difference, ?elem_of_singleton, HS; unfold is_down; rewrite Ep; naive_solver. }
  unfold is_down. setoid_rewrite elem_of_app in Hinj. split.
  - intros [[[(k & Hk & H0 & E)|Hc] Hnot]|(k & Hk & H0 & Hn & E)]; [|by right|by left; exists k].
    left. destruct (decide (k ∈ keys r)) as [Hin|Hout]; [by exists k|]. exfalso. apply Hnot. by exists k.
  - intros [(k & Hk & H0 & E)|[-> Hc]].
    + destruct (decide (k ∈ keys prev)) as [Hin|Hout]; [left|right; by exists k]. split; [left; by exists k|]. intros (k' & Hk' & H0' & Hn' & E').
      apply Hn'. by rewrite (Hinj k' k) by (auto || congruence).
    + left. split; [by right|]. intros (k & Hk & H0 & _ & E). destruct (Hp k Hk H0) as [Hr256 _]. by apply (code_not_ctrl k Hr256).
Qed.

(** The same reader on the bytes of the queue. *)
Definition track_bytes (S : gset Z) (bs : list Z) : gset Z := track S (map Sc bs).

Lemma track_scs S l : track_bytes S (scs l) = track S l.
Proof.
  unfold track_bytes. revert S. induction l as [|e l IH]; intros S; [done|]. destruct e; cbn [scs flat_map app map track fold_left track1]; apply IH.
Qed.

Lemma scs_length active prev r : (length (scs (report_events active prev r)) <= 1 + length (keys prev) + length (keys r))%nat.
Proof.
  unfold report_events, scs. rewrite !flat_map_app, !length_app.
  assert (forall (f : Z -> list event) l, (forall k, length (scs (f k)) <= 1)%nat -> (length (scs (flat_map f l)) <= length l)%nat) as Hone.
  { intros f l Hf. unfold scs. induction l as [|k l IH]; [done|]. cbn [flat_map]. rewrite flat_map_app, length_app. specialize (Hf k). unfold scs in Hf. cbn [length]. lia. }
  assert (scs (flat_map (key_event active (negb (Z.land (modifiers r) 0x22 =? 0)) (keys prev)) (keys r)) = []) as E.
  { generalize (key_events_silent active (negb (Z.land (modifiers r) 0x22 =? 0)) (keys prev) (keys r)). unfold scs. induction 1 as [|e l He _ IH]; [done|]. by destruct e. }
  unfold scs in *. rewrite E. cbn [length]. pose proof (Hone (release_event (keys r)) (keys prev)) as H1. pose proof (Hone (press_event (keys prev)) (keys r)) as H2.
  assert (forall k, length (scs (release_event (keys r) k)) <= 1)%nat as H3 by (intros k; unfold release_event; repeat split_if; cbn; lia).
  assert (forall k, length (scs (press_event (keys prev) k)) <= 1)%nat as H4 by (intros k; unfold press_event; repeat split_if; cbn; lia).
  specialize (H1 H3). specialize (H2 H4).
  assert (forall b1 b2 : bool, length (scs (if b1 then [Sc 0x1d] else if b2 then [Sc 0x9d] else [])) <= 1)%nat as H5 by (intros [] []; cbn; lia).
  match goal with |- context [if ?b1 then [Sc 0x1d] else if ?b2 then _ else _] => specialize (H5 b1 b2) end. unfold scs in H5. lia.
Qed.

(** C22. A program that follows the scan codes of the USB keyboard knows which keys are
    down: when what it has read so far gives the keys of one report, what the next
    report adds to the queue gives the keys of that one (of the modifiers, control
    alone).  The keys involved must have codes of their own between 1 and 127, and
    the queue room for the 13 codes that a report can give. *)
Theorem usb_kbd_tracks active r s (S : gset Z) : rings s -> plain (prev_report s) -> plain r ->
  (length (keys (prev_report s)) <= 6)%nat -> (length (keys r) <= 6)%nat -> 13 <= room (kbscq s) ->
  (forall k k', k ∈ keys (prev_report s) ++ keys r -> k' ∈ keys (prev_report s) ++ keys r -> k <> 0 -> k' <> 0 -> code k = code k' -> k = k') ->
  (forall x, x ∈ S <-> is_down (prev_report s) x) ->
  exists s' new, usb_hid_kbd_poll active (Some r) s = Done s' tt /\ rings s' /\ prev_report s' = r /\
    contents (kbscq s') = contents (kbscq s) ++ new /\ forall x, x ∈ track_bytes S new <-> is_down r x.
Proof.
  intros Hs Hp Hr Lp Lr Hroom Hinj HS. set (es := report_events active (prev_report s) r).
  destruct (perform_ok active es s Hs) as (s1 & E1 & H1). exists (set_prev r s1), (scs es). unfold usb_hid_kbd_poll.
  rewrite (bind_done get _ s s s eq_refl). fold es. rewrite (bind_done _ _ _ _ _ E1). pose proof (performed_rings _ _ _ H1) as Hr1.
  destruct (pf_sc _ _ _ H1) as [_ Hg]. pose proof (scs_length active (prev_report s) r) as Hl. fold es in Hl.
  split_and!; [done|done|done|apply Hg; lia|]. intros x. rewrite track_scs. by apply report_tracks.
Qed.

Definition press_a : kbd_report := mk_report 0 [4; 0; 0; 0; 0; 0].
Definition press_ctrl_b : kbd_report := mk_report 1 [5; 0; 0; 0; 0; 0].

Lemma usb_kbd_tracks_witness : exists s' new, usb_hid_kbd_poll true (Some press_ctrl_b) (set_prev press_a hid0) = Done s' tt /\
  contents (kbscq s') = new /\ (48 ∈ track_bytes {[30]} new <-> is_down press_ctrl_b 48).
Proof.
  destruct (usb_kbd_tracks true press_ctrl_b (set_prev press_a hid0) {[30]}) as (s' & new & E & _ & _ & Hc & Ht).
  - exact rings0.
  - intros k Hk. cbn in Hk. set_unfold. intros H0. assert (k = 4) as -> by naive_solver. by vm_compute.
  - intros k Hk. cbn in Hk. set_unfold. intros H0. assert (k = 5) as -> by naive_solver. by vm_compute.
  - cbn. lia.
  - cbn. lia.
  - vm_compute. discriminate.
  - intros k k' Hk Hk' H0 H0' E. cbn in Hk, Hk'. set_unfold.
    assert (k = 4 \/ k = 5) as [-> | ->] by naive_solver; assert (k' = 4 \/ k' = 5) as [-> | ->] by naive_solver; done.
  - intros y. unfold is_down. rewrite elem_of_singleton. split.
    + intros ->. left. exists 4. split; [by left|done].
    + intros [(k & Hk & H0 & <-)|[_ Hc]]; [|done]. cbn in Hk. set_unfold. assert (k = 4) as -> by naive_solver. done.
  - exists s', new. split; [exact E|]. split; [exact Hc|apply Ht].
Defined.

(** Two keys with one code: the keypad 7 and Home are down, Home is released, and the
    reader loses both. *)
Lemma usb_shared_code_lost :
  let prev := mk_report 0 [0x4a; 0x5f; 0; 0; 0; 0] in let r := mk_report 0 [0x5f; 0; 0; 0; 0; 0] in
  code 0x4a = code 0x5f /\ 0x47 ∉ track {[0x47]} (report_events false prev r) /\ is_down r 0x47.
Proof. cbn zeta. split_and!; [done| |left; exists 0x5f; split; [by left|done]]. apply (bool_decide_unpack _). by vm_compute. Qed.

End Hid.
