(* ===== verification/Printf.v ===== *)
(** The formatter ([lib/printf.c]), without floating point, which the kernel is
    built without.

    An output function gets a character and its index.  Characters are bytes,
    [*format] is the head of a list that ends with the terminating zero, and
    reading past it faults.  A variable argument is a 64-bit slot of which
    [va_arg] takes the low bits; strings are read from the memory [mem]. *)
From S2P Require Import Prelude.
From Stdlib Require Ascii String.
Import Ascii.AsciiSyntax String.StringSyntax.

Module Printf.

Definition PRINTF_NTOA_BUFFER_SIZE : nat := 32.

Definition FLAGS_ZEROPAD : Z := 1.
Definition FLAGS_LEFT : Z := 2.
Definition FLAGS_PLUS : Z := 4.
Definition FLAGS_SPACE : Z := 8.
Definition FLAGS_HASH : Z := 16.
Definition FLAGS_UPPERCASE : Z := 32.
Definition FLAGS_CHAR : Z := 64.
Definition FLAGS_SHORT : Z := 128.
Definition FLAGS_LONG : Z := 256.
Definition FLAGS_LONG_LONG : Z := 512.
Definition FLAGS_PRECISION : Z := 1024.

(** [flags & f] as a condition, [flags |= f], [flags &= ~f] *)
Definition on (flags f : Z) : bool := negb (Z.land flags f =? 0).
Definition set (flags f : Z) : Z := Z.lor flags f.
Definition clr (flags f : Z) : Z := Z.ldiff flags f.

(** ** Output functions *)

(** [buffer] is the object that the pointer points to. *)
Definition _out_buffer (maxlen c idx : Z) : M (list Z) unit :=
  if idx <? maxlen then b ← get; b' ← deref (aset b idx c); put b' else mret tt.

Definition _out_null {S} (c idx : Z) : M S unit := mret tt.

(** The characters that [fct] has received. *)
Definition _out_fct (c idx : Z) : M (list Z) unit :=
  if negb (c =? 0) then modify (fun w => w ++ [c]) else mret tt.

Definition _is_digit (c : Z) : bool := (ch "0" <=? c) && (c <=? ch "9").

Fixpoint _atoi (i : Z) (format : list Z) : Z * list Z :=
  match format with
  | c :: r => if _is_digit c then _atoi (u32 (i * 10 + (c - ch "0"))) r else (i, format)
  | [] => (i, [])
  end.

Section format.
Context {S : Type} (out : Z -> Z -> M S unit).
Notation MS := (M S).

(** [out(c, buffer, idx++, maxlen)], for one character and for several *)
Definition emit (c idx : Z) : MS Z := _ ← out c idx; mret (u64 (idx + 1)).
Fixpoint emits (w : list Z) (idx : Z) : MS Z :=
  match w with
  | [] => mret idx
  | c :: w' => idx ← emit c idx; emits w' idx
  end.
Fixpoint spaces (n : nat) (idx : Z) : MS Z :=
  match n with
  | O => mret idx
  | Datatypes.S n' => idx ← emit (ch " ") idx; spaces n' idx
  end.

(** *** Numbers *)

(** [buf] holds the characters in reverse, [len] is its length. *)
Definition _out_rev (idx : Z) (buf : list Z) (width flags : Z) : MS Z :=
  let start_idx := idx in
  let len := Z.of_nat (length buf) in
  idx ← (if negb (on flags FLAGS_LEFT) && negb (on flags FLAGS_ZEROPAD) then spaces (Z.to_nat (width - len)) idx else mret idx);
  idx ← emits (rev buf) idx;
  if on flags FLAGS_LEFT then spaces (Z.to_nat (width - u64 (idx - start_idx))) idx else mret idx.

End format.

(** [while (len < n && len < PRINTF_NTOA_BUFFER_SIZE) buf[len++] = '0'] *)
Definition zeros (n : Z) (buf : list Z) : list Z :=
  buf ++ replicate (Nat.min (Z.to_nat n) PRINTF_NTOA_BUFFER_SIZE - length buf) (ch "0").

(** [if (len < PRINTF_NTOA_BUFFER_SIZE) buf[len++] = c] *)
Definition app1 (c : Z) (buf : list Z) : list Z :=
  if (length buf <? PRINTF_NTOA_BUFFER_SIZE)%nat then buf ++ [c] else buf.

(** [len--] *)
Definition pop (buf : list Z) : list Z := take (length buf - 1) buf.

Definition hash_part (buf : list Z) (base prec width flags : Z) : list Z :=
  let len := Z.of_nat (length buf) in
  let buf :=
    if negb (on flags FLAGS_PRECISION) && negb (len =? 0) && ((len =? prec) || (len =? width)) then
      let buf := pop buf in
      if negb (length buf =? 0)%nat && (base =? 16) then pop buf else buf
    else buf in
  let buf :=
    if (base =? 16) && negb (on flags FLAGS_UPPERCASE) && (length buf <? PRINTF_NTOA_BUFFER_SIZE)%nat then buf ++ [ch "x"]
    else if (base =? 16) && on flags FLAGS_UPPERCASE && (length buf <? PRINTF_NTOA_BUFFER_SIZE)%nat then buf ++ [ch "X"]
    else if (base =? 2) && (length buf <? PRINTF_NTOA_BUFFER_SIZE)%nat then buf ++ [ch "b"]
    else buf in
  app1 (ch "0") buf.

(** The sign; at most one character. *)
Definition sign_part (negative : bool) (flags : Z) (buf : list Z) : list Z :=
  if negative then app1 (ch "-") buf
  else if on flags FLAGS_PLUS then app1 (ch "+") buf
  else if on flags FLAGS_SPACE then app1 (ch " ") buf
  else buf.

(** What [_ntoa_format] does to [width] and [buf] before it prints. *)
Definition ntoa_buf (buf : list Z) (negative : bool) (base prec width flags : Z) : list Z * Z :=
  let '(buf, width) :=
    if negb (on flags FLAGS_LEFT) then
      let width :=
        if negb (width =? 0) && on flags FLAGS_ZEROPAD && (negative || on flags (FLAGS_PLUS + FLAGS_SPACE)) then width - 1 else width in
      let buf := zeros prec buf in
      (if on flags FLAGS_ZEROPAD then zeros width buf else buf, width)
    else (buf, width) in
  let buf := if on flags FLAGS_HASH then hash_part buf base prec width flags else buf in
  (sign_part negative flags buf, width).

(** [do ... while (value && len < PRINTF_NTOA_BUFFER_SIZE)]; [fuel] is the room
    in the buffer. *)
Definition digit_char (upper : bool) (d : Z) : Z :=
  if d <? 10 then ch "0" + d else (if upper then ch "A" else ch "a") + d - 10.
Fixpoint digits (fuel : nat) (upper : bool) (value base : Z) : list Z :=
  match fuel with
  | O => []
  | Datatypes.S fuel' =>
      digit_char upper (value mod base) :: (if value / base =? 0 then [] else digits fuel' upper (value / base) base)
  end.

(** The literal "(null)", as a string of its own at address 0. *)
Definition null_mem : gmap Z Z := list_to_map (imap (fun i c => (Z.of_nat i, c)) (str "(null)" ++ [0])).

Section format2.
Context {S : Type} (out : Z -> Z -> M S unit).
Notation MS := (M S).

Definition _ntoa_format (idx : Z) (buf : list Z) (negative : bool) (base prec width flags : Z) : MS Z :=
  let '(buf, width) := ntoa_buf buf negative base prec width flags in
  _out_rev out idx buf width flags.

(** [_ntoa_long] and [_ntoa_long_long]: both types have 64 bits. *)
Definition _ntoa_long (idx value : Z) (negative : bool) (base prec width flags : Z) : MS Z :=
  let flags := if value =? 0 then clr flags FLAGS_HASH else flags in
  let buf := if negb (on flags FLAGS_PRECISION) || negb (value =? 0)
             then digits PRINTF_NTOA_BUFFER_SIZE (on flags FLAGS_UPPERCASE) value base else [] in
  _ntoa_format idx buf negative base prec width flags.

(** *** Strings *)

(** Reading [*p].  No string is longer than the memory. *)
Definition ldc (mem : gmap Z Z) (p : Z) : MS Z := deref (mem !! p).
Definition fuel_mem (mem : gmap Z Z) : nat := Datatypes.S (size mem).

Fixpoint strnlen_loop (fuel : nat) (mem : gmap Z Z) (s maxsize : Z) : MS Z :=
  match fuel with
  | O => fault
  | Datatypes.S fuel' =>
      c ← ldc mem s;
      if (c =? 0) || (maxsize =? 0) then mret s else strnlen_loop fuel' mem (s + 1) (maxsize - 1)
  end.

(** For a [str] that is not NULL, as in the one call. *)
Definition _strnlen_s (mem : gmap Z Z) (p maxsize : Z) : MS Z :=
  e ← strnlen_loop (fuel_mem mem) mem p maxsize; mret (u32 (e - p)).

(** The loop of string output; [limited]: a precision is given. *)
Fixpoint string_loop (fuel : nat) (mem : gmap Z Z) (p precision : Z) (limited : bool) (idx : Z) : MS Z :=
  match fuel with
  | O => fault
  | Datatypes.S fuel' =>
      c ← ldc mem p;
      if (c =? 0) || (limited && (precision =? 0)) then mret idx else
      idx ← emit out c idx;
      string_loop fuel' mem (p + 1) (precision - 1) limited idx
  end.

(** [case 's'], with [p] replaced by the literal when it is NULL *)
Definition string_spec (mem : gmap Z Z) (p precision width flags idx : Z) : MS Z :=
  let mem := if p =? 0 then null_mem else mem in
  l ← _strnlen_s mem p (if precision =? 0 then 2 ^ 64 - 1 else precision);
  let l := if on flags FLAGS_PRECISION then (if l <? precision then l else precision) else l in
  idx ← (if negb (on flags FLAGS_LEFT) then spaces out (Z.to_nat (width - l)) idx else mret idx);
  idx ← string_loop (fuel_mem mem) mem p precision (on flags FLAGS_PRECISION) idx;
  if on flags FLAGS_LEFT then spaces out (Z.to_nat (width - l)) idx else mret idx.

(** [case 'c'] *)
Definition char_spec (c width flags idx : Z) : MS Z :=
  idx ← (if negb (on flags FLAGS_LEFT) then spaces out (Z.to_nat (width - 1)) idx else mret idx);
  idx ← emit out (u8 c) idx;
  if on flags FLAGS_LEFT then spaces out (Z.to_nat (width - 1)) idx else mret idx.

(** *** A conversion *)

Fixpoint parse_flags (flags : Z) (format : list Z) : Z * list Z :=
  match format with
  | c :: r =>
      if c =? ch "0" then parse_flags (set flags FLAGS_ZEROPAD) r
      else if c =? ch "-" then parse_flags (set flags FLAGS_LEFT) r
      else if c =? ch "+" then parse_flags (set flags FLAGS_PLUS) r
      else if c =? ch " " then parse_flags (set flags FLAGS_SPACE) r
      else if c =? ch "#" then parse_flags (set flags FLAGS_HASH) r
      else (flags, format)
  | [] => (flags, [])
  end.

(** [va_arg] takes the next slot. *)
Definition va_arg (va : list Z) : MS (Z * list Z) := match va with a :: va' => mret (a, va') | [] => fault end.

Record spec := mk_spec { flags : Z; width : Z; precision : Z; rest : list Z; args : list Z }.

Definition parse_width (fl : Z) (format va : list Z) : MS spec :=
  c ← deref (head format);
  if _is_digit c then let '(w, r) := _atoi 0 format in mret (mk_spec fl w 0 r va)
  else if c =? ch "*" then
    '(a, va) ← va_arg va;
    let w := s32 a in
    mret (if w <? 0 then mk_spec (set fl FLAGS_LEFT) (u32 (- w)) 0 (tail format) va else mk_spec fl w 0 (tail format) va)
  else mret (mk_spec fl 0 0 format va).

Definition parse_precision (sp : spec) : MS spec :=
  c ← deref (head (rest sp));
  if negb (c =? ch ".") then mret sp else
  let fl := set (flags sp) FLAGS_PRECISION in
  let format := tail (rest sp) in
  c ← deref (head format);
  if _is_digit c then let '(p, r) := _atoi 0 format in mret (mk_spec fl (width sp) p r (args sp))
  else if c =? ch "*" then
    '(a, va) ← va_arg (args sp);
    let p := s32 a in
    mret (mk_spec fl (width sp) (if 0 <? p then p else 0) (tail format) va)
  else mret (mk_spec fl (width sp) 0 format (args sp)).

(** [ptrdiff_t], [intmax_t] and [usize] are as wide as [long]. *)
Definition parse_length (sp : spec) : MS spec :=
  c ← deref (head (rest sp));
  let upd f r := mk_spec (set (flags sp) f) (width sp) (precision sp) r (args sp) in
  let format := tail (rest sp) in
  if c =? ch "l" then
    c2 ← deref (head format);
    mret (if c2 =? ch "l" then upd (FLAGS_LONG + FLAGS_LONG_LONG) (tail format) else upd FLAGS_LONG format)
  else if c =? ch "h" then
    c2 ← deref (head format);
    mret (if c2 =? ch "h" then upd (FLAGS_SHORT + FLAGS_CHAR) (tail format) else upd FLAGS_SHORT format)
  else if (c =? ch "t") || (c =? ch "j") || (c =? ch "z") then mret (upd FLAGS_LONG format)
  else mret sp.

(** The value of an integer conversion: magnitude and sign. *)
Definition int_value (signed : bool) (fl a : Z) : Z * bool :=
  if signed then
    if on fl FLAGS_LONG_LONG || on fl FLAGS_LONG then
      let v := s64 a in (u64 (if 0 <? v then v else 0 - v), v <? 0)
    else
      let v := if on fl FLAGS_CHAR then s8 a else if on fl FLAGS_SHORT then sext 16 a else s32 a in
      (u32 (if 0 <? v then v else 0 - v), v <? 0)
  else if on fl FLAGS_LONG_LONG || on fl FLAGS_LONG then (u64 a, false)
  else (if on fl FLAGS_CHAR then u8 a else if on fl FLAGS_SHORT then u16 a else u32 a, false).

Definition int_base (c : Z) : Z :=
  if (c =? ch "x") || (c =? ch "X") then 16 else if c =? ch "o" then 8 else if c =? ch "b" then 2 else 10.

(** The flags that the specifier [c] leaves. *)
Definition int_flags (c fl : Z) : Z :=
  let signed := (c =? ch "d") || (c =? ch "i") in
  let fl := if int_base c =? 10 then clr fl FLAGS_HASH else fl in
  let fl := if c =? ch "X" then set fl FLAGS_UPPERCASE else fl in
  let fl := if signed then fl else clr fl (FLAGS_PLUS + FLAGS_SPACE) in
  if on fl FLAGS_PRECISION then clr fl FLAGS_ZEROPAD else fl.

Definition is_int (c : Z) : bool :=
  (c =? ch "d") || (c =? ch "i") || (c =? ch "u") || (c =? ch "x") || (c =? ch "X") || (c =? ch "o") || (c =? ch "b").

(** The specifier: the index and the arguments that are left. *)
Definition conversion (mem : gmap Z Z) (sp : spec) (idx : Z) : MS (Z * list Z) :=
  c ← deref (head (rest sp));
  if is_int c then
    let fl := int_flags c (flags sp) in
    '(a, va) ← va_arg (args sp);
    let '(value, negative) := int_value ((c =? ch "d") || (c =? ch "i")) fl a in
    idx ← _ntoa_long idx value negative (int_base c) (precision sp) (width sp) fl;
    mret (idx, va)
  else if c =? ch "c" then
    '(a, va) ← va_arg (args sp);
    idx ← char_spec a (width sp) (flags sp) idx;
    mret (idx, va)
  else if c =? ch "s" then
    '(a, va) ← va_arg (args sp);
    idx ← string_spec mem (u64 a) (precision sp) (width sp) (flags sp) idx;
    mret (idx, va)
  else if c =? ch "p" then
    '(a, va) ← va_arg (args sp);
    idx ← _ntoa_long idx (u64 a) false 16 (precision sp) 16 (set (flags sp) (FLAGS_ZEROPAD + FLAGS_UPPERCASE));
    mret (idx, va)
  else
    idx ← emit out c idx;
    mret (idx, args sp).

(** The loop over the format; each round takes a character at least. *)
Fixpoint format_loop (fuel : nat) (mem : gmap Z Z) (format va : list Z) (idx : Z) : MS Z :=
  match fuel with
  | O => fault
  | Datatypes.S fuel' =>
      c ← deref (head format);
      if c =? 0 then mret idx
      else if negb (c =? ch "%") then idx ← emit out c idx; format_loop fuel' mem (tail format) va idx
      else
        let '(fl, format) := parse_flags 0 (tail format) in
        sp ← parse_width fl format va;
        sp ← parse_precision sp;
        sp ← parse_length sp;
        '(idx, va) ← conversion mem sp idx;
        format_loop fuel' mem (tail (rest sp)) va idx
  end.

Definition _vsnprintf (maxlen : Z) (mem : gmap Z Z) (format va : list Z) : MS Z :=
  idx ← format_loop (Datatypes.S (length format)) mem format va 0;
  _ ← out 0 (if idx <? maxlen then idx else u64 (maxlen - 1));
  mret (s32 idx).

End format2.

(** ** The entry points *)

(** [buffer] may be NULL; then nothing is written. *)
Definition vsnprintf (isnull : bool) (count : Z) (mem : gmap Z Z) (format va : list Z) : M (list Z) Z :=
  _vsnprintf (if isnull then _out_null else _out_buffer count) count mem format va.
Definition sprintf (mem : gmap Z Z) (format va : list Z) : M (list Z) Z :=
  _vsnprintf (_out_buffer (2 ^ 64 - 1)) (2 ^ 64 - 1) mem format va.
Definition fctprintf (mem : gmap Z Z) (format va : list Z) : M (list Z) Z :=
  _vsnprintf _out_fct (2 ^ 64 - 1) mem format va.

(** What [printf] writes to the terminal.  [alloc] is the result of [malloc]: the
    fresh buffer, of the size asked for, or none. *)
Definition printf (alloc : Z -> option (list Z)) (mem : gmap Z Z) (format va : list Z) : option (Z * list Z) :=
  match _vsnprintf _out_null (2 ^ 64 - 1) mem format va tt with
  | Fault => None
  | Done _ ret =>
      match alloc (u64 (s32 (ret + 1))) with
      | None => Some (0, [])
      | Some buf =>
          match vsnprintf false (u64 (s32 (ret + 1))) mem format va buf with
          | Fault => None
          | Done buf' ret => Some (ret, take (Z.to_nat ret) buf')
          end
      end
  end.

(** [stack] is what the buffer of 512 bytes on the stack holds. *)
Definition vprintf (stack : list Z) (alloc : Z -> option (list Z)) (mem : gmap Z Z) (format va : list Z) : option (Z * list Z) :=
  match vsnprintf false 512 mem format va stack with
  | Fault => None
  | Done buf ret =>
      if (0 <? ret) && (ret <? 512) then Some (ret, take (Z.to_nat ret) buf)
      else if 512 <=? ret then
        match alloc (u64 (s32 (ret + 1))) with
        | None => Some (ret, [])
        | Some b =>
            match vsnprintf false (u64 (s32 (ret + 1))) mem format va b with
            | Fault => None
            | Done b' ret => Some (ret, take (Z.to_nat ret) b')
            end
        end
      else Some (ret, [])
  end.

End Printf.
