(* ===== verification/PrintfSpec.v ===== *)
(** What the formatter prints, as a function of format and arguments alone, and
    what that means: output into a buffer is the text cut to its size, and numbers
    read back as the values they came from. *)
From S2P Require Import Prelude Printf.
From Stdlib Require Ascii String.
Import Ascii.AsciiSyntax String.StringSyntax.

Module PrintfSpec.
Import Printf.

(** ** The text *)

Definition blanks (n : Z) : list Z := replicate (Z.to_nat n) (ch " ").

(** [w] in a field of [width], the padding on the left or on the right. *)
Definition field (left : bool) (width : Z) (w : list Z) : list Z :=
  let pad := blanks (width - Z.of_nat (length w)) in if left then w ++ pad else pad ++ w.

Definition number_text (value : Z) (negative : bool) (base prec width flags : Z) : list Z :=
  let flags := if value =? 0 then clr flags FLAGS_HASH else flags in
  let buf := if negb (on flags FLAGS_PRECISION) || negb (value =? 0)
             then digits PRINTF_NTOA_BUFFER_SIZE (on flags FLAGS_UPPERCASE) value base else [] in
  let '(buf, width) := ntoa_buf buf negative base prec width flags in
  if on flags FLAGS_ZEROPAD && negb (on flags FLAGS_LEFT) then rev buf else field (on flags FLAGS_LEFT) width (rev buf).

(** The string at [p]: up to its zero, or to [limit] characters; the character
    after those is read as well. *)
Fixpoint cstring (fuel : nat) (mem : gmap Z Z) (p : Z) (limit : option nat) : option (list Z) :=
  match fuel with
  | O => None
  | S fuel' =>
      c ← mem !! p;
      if c =? 0 then Some []
      else match limit with
           | Some O => Some []
           | Some (S n) => w ← cstring fuel' mem (p + 1) (Some n); Some (c :: w)
           | None => w ← cstring fuel' mem (p + 1) None; Some (c :: w)
           end
  end.

(** The length is taken first: up to the precision, but to the end of the string
    when that is 0. *)
Definition string_text (mem : gmap Z Z) (p precision width flags : Z) : option (list Z) :=
  let mem := if p =? 0 then null_mem else mem in
  w ← cstring (fuel_mem mem) mem p (if precision =? 0 then None else Some (Z.to_nat precision));
  Some (field (on flags FLAGS_LEFT) width (if on flags FLAGS_PRECISION then take (Z.to_nat precision) w else w)).

(** A computation that reads no state. *)
Definition run {A} (m : M unit A) : option A := result_of (m tt).

Definition conversion_text (mem : gmap Z Z) (sp : spec) : option (list Z * list Z) :=
  c ← head (rest sp);
  if is_int c then
    let fl := int_flags c (flags sp) in
    '(a, va) ← run (va_arg (args sp));
    let '(value, negative) := int_value ((c =? ch "d") || (c =? ch "i")) fl a in
    Some (number_text value negative (int_base c) (precision sp) (width sp) fl, va)
  else if c =? ch "c" then '(a, va) ← run (va_arg (args sp)); Some (field (on (flags sp) FLAGS_LEFT) (width sp) [u8 a], va)
  else if c =? ch "s" then
    '(a, va) ← run (va_arg (args sp)); w ← string_text mem (u64 a) (precision sp) (width sp) (flags sp); Some (w, va)
  else if c =? ch "p" then
    '(a, va) ← run (va_arg (args sp));
    Some (number_text (u64 a) false 16 (precision sp) 16 (set (flags sp) (FLAGS_ZEROPAD + FLAGS_UPPERCASE)), va)
  else Some ([c], args sp).

Fixpoint render_loop (fuel : nat) (mem : gmap Z Z) (format va : list Z) : option (list Z) :=
  match fuel with
  | O => None
  | S fuel' =>
      c ← head format;
      if c =? 0 then Some []
      else if negb (c =? ch "%") then w ← render_loop fuel' mem (tail format) va; Some (c :: w)
      else
        let '(fl, format) := parse_flags 0 (tail format) in
        sp ← run (parse_width fl format va);
        sp ← run (parse_precision sp);
        sp ← run (parse_length sp);
        '(w, va) ← conversion_text mem sp;
        w' ← render_loop fuel' mem (tail (rest sp)) va;
        Some (w ++ w')
  end.

(** The text of a format with its arguments; none when the code reads outside
    its format, its arguments or memory. *)
Definition render (mem : gmap Z Z) (format va : list Z) : option (list Z) :=
  render_loop (S (length format)) mem format va.

(** ** The code prints the text *)

Section out.
Context {S : Type} (out : Z -> Z -> M S unit).

Lemma emits_app w1 w2 idx s : emits out (w1 ++ w2) idx s = (idx ← emits out w1 idx; emits out w2 idx) s.
Proof.
  revert idx s. induction w1 as [|c w1 IH]; intros idx s; [done|]. cbn [app emits]. unfold mbind, M_bind.
  destruct (emit out c idx s) as [s1 i|]; [|done]. apply IH.
Qed.

Lemma spaces_blanks n idx s : spaces out n idx s = emits out (replicate n (ch " ")) idx s.
Proof.
  revert idx s. induction n as [|n IH]; intros idx s; [done|]. cbn [spaces replicate emits].
  unfold mbind, M_bind. destruct (emit out _ idx s); [apply IH|done].
Qed.

Lemma bind_assoc_out {A B C} (m : M S A) (f : A -> M S B) (g : B -> M S C) s :
  (b ← (a ← m; f a); g b) s = (a ← m; b ← f a; g b) s.
Proof. unfold mbind, M_bind. by destruct (m s). Qed.

Lemma bind_eq_M {A B} (m : M S A) (k : A -> M S B) s o : m s = o ->
  (a ← m; k a) s = match o with Done s' a => k a s' | Fault => Fault end.
Proof. by intros <-. Qed.

(** The index moves by the length of the text. *)
Lemma emits_index w : forall idx s s' i, emits out w idx s = Done s' i -> 0 <= idx < 2 ^ 64 -> i = u64 (idx + Z.of_nat (length w)).
Proof.
  induction w as [|c w IH]; intros idx s s' i; cbn [emits length].
  - intros [= _ <-] H0. rewrite wrap_small; lia.
  - intros (s1 & j & E1 & E2)%bind_inv H0. apply bind_inv in E1 as (s2 & [] & _ & [= _ <-]).
    apply IH in E2; [|by apply wrap_range]. rewrite E2. unfold wrap. rewrite Z.add_mod_idemp_l by done. f_equal. lia.
Qed.

Lemma emits_bind {A} w idx s (k k' : Z -> M S A) : 0 <= idx < 2 ^ 64 ->
  (forall s', k (u64 (idx + Z.of_nat (length w))) s' = k' (u64 (idx + Z.of_nat (length w))) s') ->
  (i ← emits out w idx; k i) s = (i ← emits out w idx; k' i) s.
Proof.
  intros H0 Hk. unfold mbind, M_bind. destruct (emits out w idx s) as [s' i|] eqn:E; [|done]. by rewrite (emits_index _ _ _ _ _ E H0).
Qed.

Lemma out_rev_text idx buf width fl s : 0 <= idx < 2 ^ 64 -> Z.of_nat (length buf) < 2 ^ 64 ->
  _out_rev out idx buf width fl s =
  emits out (if on fl FLAGS_ZEROPAD && negb (on fl FLAGS_LEFT) then rev buf else field (on fl FLAGS_LEFT) width (rev buf)) idx s.
Proof.
  intros H0 Hb. unfold _out_rev, field, blanks. rewrite length_rev. destruct (on fl FLAGS_LEFT); cbn [negb andb].
  - rewrite andb_false_r. cbn [mbind]. unfold mbind at 1, M_bind at 1, mret, M_ret. rewrite emits_app. apply emits_bind; [done|]. intros s'.
    rewrite spaces_blanks, length_rev. do 3 f_equal. unfold wrap.
    rewrite Zminus_mod_idemp_l, Z.add_simpl_l, Z.mod_small by lia. done.
  - destruct (on fl FLAGS_ZEROPAD); cbn [negb andb].
    + unfold mbind, M_bind, mret, M_ret. by destruct (emits out (rev buf) idx s).
    + rewrite emits_app. unfold mbind, M_bind, mret, M_ret. rewrite spaces_blanks. by repeat case_match.
Qed.

(** The conversion buffer is never overrun. *)
Lemma digits_length fuel upper v base : (length (digits fuel upper v base) <= fuel)%nat.
Proof. revert v. induction fuel as [|fuel IH]; intros v; cbn [digits length]; [done|]. destruct (_ =? 0); cbn [length]; [lia|]. specialize (IH (v / base)). lia. Qed.

Lemma zeros_length n buf : (length buf <= PRINTF_NTOA_BUFFER_SIZE)%nat -> (length (zeros n buf) <= PRINTF_NTOA_BUFFER_SIZE)%nat.
Proof. intros Hb. unfold zeros. rewrite length_app, length_replicate. lia. Qed.

Lemma app1_length c buf : (length buf <= PRINTF_NTOA_BUFFER_SIZE)%nat -> (length (app1 c buf) <= PRINTF_NTOA_BUFFER_SIZE)%nat.
Proof. intros Hb. unfold app1. destruct (Nat.ltb_spec (length buf) PRINTF_NTOA_BUFFER_SIZE); [|done]. rewrite length_app. cbn. lia. Qed.

Lemma pop_length buf : (length buf <= PRINTF_NTOA_BUFFER_SIZE)%nat -> (length (pop buf) <= PRINTF_NTOA_BUFFER_SIZE)%nat.
Proof. intros Hb. unfold pop. rewrite length_take. lia. Qed.

Lemma hash_part_length buf base prec width fl :
  (length buf <= PRINTF_NTOA_BUFFER_SIZE)%nat -> (length (hash_part buf base prec width fl) <= PRINTF_NTOA_BUFFER_SIZE)%nat.
Proof.
  intros Hb. unfold hash_part. cbv zeta. apply app1_length. set (b := if _ : bool then _ else buf).
  assert (length b <= PRINTF_NTOA_BUFFER_SIZE)%nat as Hb'.
  { unfold b. destruct (negb _ && _ && _); [|done]. destruct (_ && _); auto using pop_length. }
  assert (forall c x, (length (if (x && (length b <? PRINTF_NTOA_BUFFER_SIZE)%nat) then b ++ [c] else b) <= PRINTF_NTOA_BUFFER_SIZE)%nat) as Happ.
  { intros c x. destruct x; [|done]. apply (app1_length c b Hb'). }
  pose proof (Happ (ch "x") true) as Hx. destruct (Nat.ltb_spec (length b) PRINTF_NTOA_BUFFER_SIZE).
  - rewrite !andb_true_r. repeat case_match; rewrite ?length_app; cbn [length]; lia.
  - by rewrite !andb_false_r.
Qed.

Lemma ntoa_buf_length buf negative base prec width fl :
  (length buf <= PRINTF_NTOA_BUFFER_SIZE)%nat -> (length (ntoa_buf buf negative base prec width fl).1 <= PRINTF_NTOA_BUFFER_SIZE)%nat.
Proof.
  intros Hb. unfold ntoa_buf. set (p := if negb _ then _ else _). destruct p as [b w] eqn:E. cbn [fst].
  assert (length b <= PRINTF_NTOA_BUFFER_SIZE)%nat as Hb'.
  { unfold p in E. destruct (negb _); [|by injection E as <- _]. cbv zeta in E. injection E as <- _. destruct (on fl FLAGS_ZEROPAD); auto using zeros_length. }
  unfold sign_part. destruct (on fl FLAGS_HASH), negative, (on fl FLAGS_PLUS), (on fl FLAGS_SPACE); auto using app1_length, hash_part_length.
Qed.

Lemma ntoa_text idx value negative base prec width fl s : 0 <= idx < 2 ^ 64 ->
  _ntoa_long out idx value negative base prec width fl s = emits out (number_text value negative base prec width fl) idx s.
Proof.
  intros H0. unfold _ntoa_long, _ntoa_format, number_text. cbv zeta. set (fl' := if value =? 0 then _ else fl).
  set (buf := if negb _ || negb _ then _ else []).
  assert (length buf <= PRINTF_NTOA_BUFFER_SIZE)%nat as Hb. { unfold buf. destruct (_ || _); [apply digits_length|cbn; lia]. }
  pose proof (ntoa_buf_length buf negative base prec width fl' Hb) as Hb'. destruct (ntoa_buf buf negative base prec width fl') as [b w].
  apply out_rev_text; [done|]. cbn in Hb'. unfold PRINTF_NTOA_BUFFER_SIZE in Hb'. lia.
Qed.

Lemma char_text c width fl idx s : 0 <= idx < 2 ^ 64 -> char_spec out c width fl idx s = emits out (field (on fl FLAGS_LEFT) width [u8 c]) idx s.
Proof.
  intros H0. unfold char_spec, field, blanks. cbn [length]. destruct (on fl FLAGS_LEFT); cbn [negb].
  - rewrite emits_app. cbn [emits]. unfold mbind, M_bind, mret, M_ret.
    destruct (emit out (u8 c) idx s) as [s1 i|]; [apply spaces_blanks|done].
  - rewrite emits_app. cbn [emits]. unfold mbind, M_bind, mret, M_ret. rewrite spaces_blanks.
    destruct (emits out _ idx s) as [s1 i|]; [|done]. by destruct (emit out (u8 c) i s1).
Qed.

(** Strings *)

Lemma cstring_unlimited fuel mem : forall p n, (fuel <= n)%nat -> cstring fuel mem p (Some n) = cstring fuel mem p None.
Proof.
  induction fuel as [|fuel IH]; intros p n Hn; [done|]. cbn [cstring]. destruct (mem !! p) as [c|]; [|done]. cbn.
  destruct (c =? 0); [done|]. destruct n as [|n]; [lia|]. by rewrite IH by lia.
Qed.

Lemma cstring_length fuel mem : forall p l w, cstring fuel mem p l = Some w ->
  (length w < fuel)%nat /\ (forall n, l = Some n -> (length w <= n)%nat).
Proof.
  induction fuel as [|fuel IH]; intros p l w; [done|]. cbn [cstring]. destruct (mem !! p) as [c|]; [|done]. cbn.
  destruct (c =? 0); [intros [= <-]; cbn; split; [lia|intros; lia]|]. destruct l as [[|n]|].
  - intros [= <-]. cbn. split; [lia|intros; lia].
  - destruct (cstring fuel mem (p + 1) (Some n)) as [w'|] eqn:E; [|done]. intros [= <-]. cbn. destruct (IH _ _ _ E) as [A1 A2].
    split; [lia|]. intros m [= <-]. specialize (A2 n eq_refl). lia.
  - destruct (cstring fuel mem (p + 1) None) as [w'|] eqn:E; [|done]. intros [= <-]. cbn. destruct (IH _ _ _ E) as [A1 A2]. split; [lia|done].
Qed.

Lemma strnlen_loop_text fuel mem : forall p m (s : S), 0 <= m ->
  strnlen_loop fuel mem p m s =
  match cstring fuel mem p (Some (Z.to_nat m)) with Some w => Done s (p + Z.of_nat (length w)) | None => Fault end.
Proof.
  assert (forall (s : S) p, Done s p = Done s (p + Z.of_nat (@length Z []))) as H0 by (intros s p; f_equal; cbn [length]; lia).
  induction fuel as [|fuel IH]; intros p m s Hm; [done|]. cbn [strnlen_loop cstring]. unfold ldc.
  destruct (mem !! p) as [c|]; [|done]. cbn. unfold mbind, M_bind, mret, M_ret. cbn. destruct (Z.eqb_spec c 0) as [->|Hc]; cbn [orb]; [apply H0|].
  destruct (Z.eqb_spec m 0) as [->|Hm0]; [apply H0|]. rewrite IH by lia.
  destruct (Z.to_nat m) as [|n] eqn:En; [lia|]. replace (Z.to_nat (m - 1)) with n by lia.
  destruct (cstring fuel mem (p + 1) (Some n)) as [w|]; [|done]. cbn. f_equal. lia.
Qed.

Lemma emit_then c (o : option (list Z)) idx s (k : Z -> M S Z) :
  (forall i s', k i s' = match o with Some w => emits out w i s' | None => Fault end) ->
  (i ← emit out c idx; k i) s = match (w ← o; Some (c :: w)) with Some w => emits out w idx s | None => Fault end.
Proof.
  intros Hk. unfold mbind at 1, M_bind. destruct (emit out c idx s) as [s1 i|] eqn:E.
  - rewrite Hk. destruct o as [w|]; [|done]. cbn. unfold mbind, M_bind. by rewrite E.
  - destruct o as [w|]; [|done]. cbn. unfold mbind, M_bind. by rewrite E.
Qed.

Lemma string_loop_text fuel mem : forall p m (lim : bool) idx s, (lim = true -> 0 <= m) ->
  string_loop out fuel mem p m lim idx s =
  match cstring fuel mem p (if lim then Some (Z.to_nat m) else None) with Some w => emits out w idx s | None => Fault end.
Proof.
  induction fuel as [|fuel IH]; intros p m lim idx s Hm; [done|]. cbn [string_loop cstring]. unfold ldc.
  destruct (mem !! p) as [c|]; [|done]. change (deref (Some c)) with (mret c : M S Z).
  rewrite (bind_done (mret c) _ s s c eq_refl). cbn [mbind option_bind]. destruct (Z.eqb_spec c 0) as [->|Hc]; cbn [orb]; [done|].
  destruct lim; cbn [andb].
  - specialize (Hm eq_refl). destruct (Z.eqb_spec m 0) as [->|Hm0]; [done|]. destruct (Z.to_nat m) as [|n] eqn:En; [lia|].
    apply emit_then. intros i s'. rewrite IH by lia. by replace (Z.to_nat (m - 1)) with n by lia.
  - apply emit_then. intros i s'. by rewrite IH.
Qed.

Lemma string_padded (left : bool) width w idx s :
  (i ← (if negb left then spaces out (Z.to_nat (width - Z.of_nat (length w))) idx else mret idx);
   i ← emits out w i;
   if left then spaces out (Z.to_nat (width - Z.of_nat (length w))) i else mret i) s = emits out (field left width w) idx s.
Proof.
  unfold field, blanks. destruct left; cbn [negb]; rewrite emits_app; unfold mbind, M_bind, mret, M_ret.
  - destruct (emits out w idx s) as [s1 i|]; [apply spaces_blanks|done].
  - rewrite spaces_blanks. destruct (emits out _ idx s) as [s1 i|]; [|done]. by destruct (emits out w i s1).
Qed.

Lemma string_spec_text mem p prec width fl idx s :
  Z.of_nat (size mem) < 2 ^ 32 - 1 -> 0 <= prec < 2 ^ 32 -> (on fl FLAGS_PRECISION = false -> prec = 0) ->
  string_spec out mem p prec width fl idx s = match string_text mem p prec width fl with Some w => emits out w idx s | None => Fault end.
Proof.
  intros Hmem Hp Hfl. unfold string_spec, string_text. cbv zeta. set (m := if p =? 0 then null_mem else mem).
  assert (Z.of_nat (fuel_mem m) <= 2 ^ 32 - 1) as Hf.
  { unfold fuel_mem, m. destruct (p =? 0); [by vm_compute|lia]. }
  assert (forall w, cstring (fuel_mem m) m p (if prec =? 0 then None else Some (Z.to_nat prec)) = Some w -> Z.of_nat (length w) < 2 ^ 32) as Hw.
  { intros w [E _]%cstring_length. lia. }
  assert (_strnlen_s m p (if prec =? 0 then 2 ^ 64 - 1 else prec) s =
    match cstring (fuel_mem m) m p (if prec =? 0 then None else Some (Z.to_nat prec)) with
    | Some w => Done s (Z.of_nat (length w)) | None => Fault end) as El.
  { unfold _strnlen_s. unfold mbind, M_bind. rewrite strnlen_loop_text by (destruct (prec =? 0); lia).
    assert (cstring (fuel_mem m) m p (Some (Z.to_nat (if prec =? 0 then 2 ^ 64 - 1 else prec))) =
      cstring (fuel_mem m) m p (if prec =? 0 then None else Some (Z.to_nat prec))) as E.
    { destruct (prec =? 0); [|done]. apply cstring_unlimited. lia. }
    rewrite E. destruct (cstring _ _ _ _) as [w|] eqn:Ew; [|done]. cbn. rewrite Z.add_simpl_l, wrap_small; [done|]. specialize (Hw w eq_refl). lia. }
  rewrite (bind_eq_M _ _ _ _ El).
  destruct (cstring (fuel_mem m) m p (if prec =? 0 then None else Some (Z.to_nat prec))) as [w|] eqn:Ew; [|done]. cbn [mbind option_bind].
  set (w' := if on fl FLAGS_PRECISION then take (Z.to_nat prec) w else w).
  assert ((if on fl FLAGS_PRECISION then (if Z.of_nat (length w) <? prec then Z.of_nat (length w) else prec) else Z.of_nat (length w)) = Z.of_nat (length w')) as ->.
  { unfold w'. destruct (on fl FLAGS_PRECISION); [|done]. rewrite length_take. destruct (Z.ltb_spec (Z.of_nat (length w)) prec); lia. }
  assert (forall i s', string_loop out (fuel_mem m) m p prec (on fl FLAGS_PRECISION) i s' = emits out w' i s') as Hloop.
  { intros i s'. rewrite string_loop_text by lia. unfold w'. destruct (Z.eqb_spec prec 0) as [->|Hp0].
    - destruct (on fl FLAGS_PRECISION); [|by rewrite Ew]. cbn [Z.to_nat take]. unfold fuel_mem in *. cbn [cstring] in *.
      destruct (m !! p) as [c|]; [|done]. cbn. by destruct (c =? 0).
    - destruct (on fl FLAGS_PRECISION) eqn:Eo; [|by specialize (Hfl eq_refl)]. rewrite Ew.
      destruct (cstring_length _ _ _ _ _ Ew) as [_ Hl]. by rewrite take_ge by (by apply Hl). }
  rewrite <- string_padded. unfold mbind, M_bind, mret, M_ret. destruct (negb _).
  - destruct (spaces out _ idx s) as [s1 i|]; [|done]. by rewrite Hloop.
  - by rewrite Hloop.
Qed.

(** *** Parsing reads no state *)

Definition as_run {A} (o : option A) (s : S) : outcome S A := match o with Some a => Done s a | None => Fault end.

Lemma va_arg_run va s : va_arg va s = as_run (run (va_arg va)) s.
Proof. by destruct va. Qed.

Lemma parse_width_run fl format va s : parse_width fl format va s = as_run (run (parse_width fl format va)) s.
Proof.
  unfold parse_width, run, mbind, M_bind. destruct (head format) as [c|]; [|done]. cbn. destruct (_is_digit c); [by destruct (_atoi 0 format)|].
  destruct (c =? ch "*"); [|done]. by destruct va.
Qed.

Lemma parse_precision_run sp s : parse_precision sp s = as_run (run (parse_precision sp)) s.
Proof.
  unfold parse_precision, run, mbind, M_bind. destruct (head (rest sp)) as [c|]; [|done]. cbn. destruct (negb _); [done|].
  destruct (head (tail (rest sp))) as [c2|]; [|done]. cbn. destruct (_is_digit c2); [by destruct (_atoi 0 _)|].
  destruct (c2 =? ch "*"); [|done]. by destruct (args sp).
Qed.

Lemma parse_length_run sp s : parse_length sp s = as_run (run (parse_length sp)) s.
Proof.
  unfold parse_length, run, mbind, M_bind. destruct (head (rest sp)) as [c|]; [|done]. cbn.
  destruct (c =? ch "l"); [by destruct (head (tail (rest sp)))|]. destruct (c =? ch "h"); [by destruct (head (tail (rest sp)))|].
  by destruct (_ || _).
Qed.

End out.

(** *** A parsed conversion is in range *)

Definition spec_ok (sp : spec) : Prop := 0 <= precision sp < 2 ^ 32 /\ (on (flags sp) FLAGS_PRECISION = false -> precision sp = 0).

Lemma on_set fl g f : on fl f = true -> on (set fl g) f = true.
Proof.
  unfold on, set. rewrite !negb_true_iff, !Z.eqb_neq. intros H E. apply H. apply Z.bits_inj'. intros n Hn.
  apply (f_equal (fun z => Z.testbit z n)) in E. rewrite Z.land_spec, Z.lor_spec, Z.bits_0 in E. rewrite Z.land_spec, Z.bits_0.
  destruct (Z.testbit fl n), (Z.testbit f n); done.
Qed.

Lemma on_set_same fl f : f <> 0 -> on (set fl f) f = true.
Proof.
  unfold on, set. rewrite negb_true_iff, Z.eqb_neq. intros Hf E. apply Hf. apply Z.bits_inj'. intros n Hn.
  apply (f_equal (fun z => Z.testbit z n)) in E. rewrite Z.land_spec, Z.lor_spec, Z.bits_0 in E. rewrite Z.bits_0.
  by destruct (Z.testbit fl n), (Z.testbit f n).
Qed.

Lemma atoi_range format : forall i, 0 <= i < 2 ^ 32 -> 0 <= (_atoi i format).1 < 2 ^ 32.
Proof. induction format as [|c r IH]; intros i Hi; cbn [_atoi]; [done|]. destruct (_is_digit c); [|done]. apply IH. by apply wrap_range. Qed.

Lemma parse_width_prec fl format va sp : run (parse_width fl format va) = Some sp -> precision sp = 0.
Proof.
  unfold run, parse_width, mbind, M_bind. destruct (head format) as [c|]; [|done]. cbn. destruct (_is_digit c).
  { destruct (_atoi 0 format). by intros [= <-]. }
  destruct (c =? ch "*"); [|by intros [= <-]]. destruct va as [|a va]; [done|]. cbn. destruct (_ <? 0); by intros [= <-].
Qed.

Lemma parse_precision_ok sp sp' : precision sp = 0 -> run (parse_precision sp) = Some sp' -> spec_ok sp'.
Proof.
  intros H0. assert (spec_ok sp) as Hsp by (split; [lia|done]). unfold run, parse_precision, mbind, M_bind.
  destruct (head (rest sp)) as [c|]; [|done]. cbn. destruct (negb _); [by intros [= <-]|].
  assert (forall w p r va, 0 <= p < 2 ^ 32 -> spec_ok (mk_spec (set (flags sp) FLAGS_PRECISION) w p r va)) as Hok.
  { intros w p r va Hp. split; [done|]. cbn. by rewrite on_set_same. }
  destruct (head (tail (rest sp))) as [c2|]; [|done]. cbn. destruct (_is_digit c2).
  { pose proof (atoi_range (tail (rest sp)) 0 ltac:(lia)) as Hr. destruct (_atoi 0 _) as [p r]. intros [= <-]. by apply Hok. }
  destruct (c2 =? ch "*"); [|intros [= <-]; apply Hok; lia]. destruct (args sp) as [|a va]; [done|]. cbn. intros [= <-]. apply Hok.
  pose proof (sext_range 32 a ltac:(lia)) as Hr. change (2 ^ (32 - 1)) with (2 ^ 31) in Hr. destruct (Z.ltb_spec 0 (s32 a)); lia.
Qed.

Lemma parse_length_ok sp sp' : spec_ok sp -> run (parse_length sp) = Some sp' -> spec_ok sp'.
Proof.
  intros Hsp. unfold run, parse_length, mbind, M_bind. destruct (head (rest sp)) as [c|]; [|done]. cbn.
  assert (forall f r, spec_ok (mk_spec (set (flags sp) f) (width sp) (precision sp) r (args sp))) as Hok.
  { intros f r. destruct Hsp as [A1 A2]. split; [done|]. cbn. intros Hn. apply A2. destruct (on (flags sp) FLAGS_PRECISION) eqn:E; [|done].
    by rewrite (on_set _ f _ E) in Hn. }
  destruct (c =? ch "l"). { destruct (head _) as [c2|]; [|done]. cbn. destruct (c2 =? _); intros [= <-]; apply Hok. }
  destruct (c =? ch "h"). { destruct (head _) as [c2|]; [|done]. cbn. destruct (c2 =? _); intros [= <-]; apply Hok. }
  destruct (_ || _); intros [= <-]; [apply Hok|done].
Qed.


Section loop.
Context {S : Type} (out : Z -> Z -> M S unit) (mem : gmap Z Z) (Hmem : Z.of_nat (size mem) < 2 ^ 32 - 1).

Lemma bind_run {A B} (m : M S A) (o : option A) (k : A -> M S B) s : m s = as_run o s -> (a ← m; k a) s = match o with Some a => k a s | None => Fault end.
Proof. intros E. unfold mbind, M_bind. rewrite E. by destruct o. Qed.

(** A conversion prints its text, and the index and the arguments go on. *)
Definition prints {A} (o : option (list Z * A)) idx (s : S) : outcome S (Z * A) :=
  match o with Some (w, a) => (i ← emits out w idx; mret (i, a)) s | None => Fault end.

Lemma prints_of {A} (m : M S Z) w (a : A) idx s : m s = emits out w idx s -> (i ← m; mret (i, a)) s = prints (Some (w, a)) idx s.
Proof. intros E. unfold prints, mbind, M_bind. by rewrite E. Qed.

Lemma conversion_prints sp idx s : 0 <= idx < 2 ^ 64 -> spec_ok sp -> conversion out mem sp idx s = prints (conversion_text mem sp) idx s.
Proof.
  intros H0 [Hp Hfl]. unfold conversion, conversion_text.
  destruct (head (rest sp)) as [c|]; [|done]. change (deref (Some c)) with (mret c : M S Z).
  rewrite (bind_done (mret c) _ s s c eq_refl). cbn [mbind option_bind]. cbv zeta.
  destruct (is_int c); [|destruct (c =? ch "c"); [|destruct (c =? ch "s"); [|destruct (c =? ch "p")]]];
    try (rewrite (bind_run _ _ _ _ (va_arg_run (args sp) s)); destruct (run (va_arg (args sp))) as [[a va]|]; [|done]; cbn [mbind option_bind]).
  - destruct (int_value _ _ a) as [value negative]. apply prints_of. by apply ntoa_text.
  - apply prints_of. by apply char_text.
  - rewrite (bind_eq_M _ _ _ _ (string_spec_text out mem (u64 a) _ _ _ idx s Hmem Hp Hfl)).
    destruct (string_text _ _ _ _ _) as [w|]; [|done]. cbn. unfold mbind, M_bind. by destruct (emits out w idx s).
  - apply prints_of. by apply ntoa_text.
  - apply prints_of. cbn [emits]. unfold mbind, M_bind. by destruct (emit out c idx s).
Qed.

Lemma format_loop_text fuel : forall format va idx s, 0 <= idx < 2 ^ 64 ->
  format_loop out fuel mem format va idx s =
  match render_loop fuel mem format va with Some w => emits out w idx s | None => Fault end.
Proof.
  induction fuel as [|fuel IH]; intros format va idx s H0; [done|]. cbn [format_loop render_loop].
  destruct (head format) as [c|]; [|done]. change (deref (Some c)) with (mret c : M S Z).
  rewrite (bind_done (mret c) _ s s c eq_refl). cbn [mbind option_bind]. destruct (c =? 0); [done|].
  destruct (negb (c =? ch "%")).
  { unfold emit. rewrite bind_assoc_out. unfold mbind at 1, M_bind at 1. destruct (out c idx s) as [s1 []|] eqn:Eo.
    - rewrite (bind_done (mret (u64 (idx + 1))) _ s1 s1 (u64 (idx + 1)) eq_refl), IH by (by apply wrap_range).
      destruct (render_loop fuel mem (tail format) va) as [w|]; [|done]. cbn. unfold emit, mbind, M_bind, mret, M_ret. by rewrite Eo.
    - destruct (render_loop fuel mem (tail format) va) as [w|]; [|done]. cbn. unfold emit, mbind, M_bind, mret, M_ret. by rewrite Eo. }
  destruct (parse_flags 0 (tail format)) as [fl f1].
  rewrite (bind_run _ _ _ _ (parse_width_run fl f1 va s)). destruct (run (parse_width fl f1 va)) as [sp1|] eqn:E1; [|done].
  rewrite (bind_run _ _ _ _ (parse_precision_run sp1 s)). cbn [mbind option_bind]. destruct (run (parse_precision sp1)) as [sp2|] eqn:E2; [|done].
  rewrite (bind_run _ _ _ _ (parse_length_run sp2 s)). cbn [mbind option_bind]. destruct (run (parse_length sp2)) as [sp3|] eqn:E3; [|done].
  cbn [mbind option_bind]. assert (spec_ok sp3) as Hok.
  { eapply parse_length_ok; [|exact E3]. eapply parse_precision_ok; [|exact E2]. by eapply parse_width_prec. }
  rewrite (bind_eq_M _ _ _ _ (conversion_prints sp3 idx s H0 Hok)). destruct (conversion_text mem sp3) as [[w va']|]; [|done].
  cbn [mbind option_bind prints]. destruct (emits out w idx s) as [s1 i|] eqn:Ew.
  - rewrite (bind_done _ _ _ _ _ Ew). cbn. rewrite IH by (rewrite (emits_index _ _ _ _ _ _ Ew H0); by apply wrap_range).
    destruct (render_loop fuel mem (tail (rest sp3)) va') as [w'|]; [|done]. cbn. rewrite emits_app. by rewrite (bind_done _ _ _ _ _ Ew).
  - rewrite (bind_eq_M _ _ _ _ Ew). destruct (render_loop fuel mem (tail (rest sp3)) va') as [w'|]; [|done]. cbn.
    rewrite emits_app. by rewrite (bind_eq_M _ _ _ _ Ew).
Qed.

End loop.

(** Whatever the output function is, the code behaves as writing the characters of
    [render] one after the other and then the terminating zero, at the last place of
    the size given if the text is longer; it faults where the text is undefined. *)
Lemma vsnprintf_text {S} (out : Z -> Z -> M S unit) maxlen mem format va s :
  Z.of_nat (size mem) < 2 ^ 32 - 1 ->
  _vsnprintf out maxlen mem format va s =
  match render mem format va with
  | Some w => (idx ← emits out w 0; _ ← out 0 (if idx <? maxlen then idx else u64 (maxlen - 1)); mret (s32 idx)) s
  | None => Fault
  end.
Proof.
  intros Hmem. unfold _vsnprintf, render. unfold mbind at 1, M_bind at 1. rewrite format_loop_text by lia.
  by destruct (render_loop _ mem format va) as [w|].
Qed.

(** ** Buffers *)

Lemma out_buffer_in count c idx buf : 0 <= idx < count -> count <= Z.of_nat (length buf) ->
  _out_buffer count c idx buf = Done (<[Z.to_nat idx := c]> buf) tt.
Proof.
  intros Hi Hc. unfold _out_buffer. rewrite (proj2 (Z.ltb_lt _ _)) by lia. unfold mbind, M_bind, get, put. rewrite aset_in by lia. done.
Qed.

Lemma out_buffer_out count c idx buf : count <= idx -> _out_buffer count c idx buf = Done buf tt.
Proof. intros Hi. unfold _out_buffer. by rewrite (proj2 (Z.ltb_ge _ _)) by lia. Qed.

(** Characters written from [idx] on land in the buffer as far as [count] allows. *)
Lemma emits_buffer count w : forall (idx : nat) buf,
  Z.of_nat (idx + length w) < 2 ^ 64 -> 0 <= count <= Z.of_nat (length buf) ->
  exists buf', emits (_out_buffer count) w (Z.of_nat idx) buf = Done buf' (Z.of_nat (idx + length w)) /\ length buf' = length buf /\
    forall q, buf' !! q = if decide ((idx <= q < idx + length w)%nat /\ Z.of_nat q < count) then w !! (q - idx)%nat else buf !! q.
Proof.
  induction w as [|c w IH]; intros idx buf Hw Hc; cbn [emits length] in *.
  - exists buf. rewrite Nat.add_0_r. split_and!; try done. intros q. by rewrite decide_False by lia.
  - assert (exists buf1, _out_buffer count c (Z.of_nat idx) buf = Done buf1 tt /\ length buf1 = length buf /\
      forall q, buf1 !! q = if decide (q = idx /\ Z.of_nat q < count) then Some c else buf !! q) as (buf1 & E1 & L1 & Hb1).
    { destruct (Z.lt_ge_cases (Z.of_nat idx) count) as [Hi|Hi].
      - eexists. split; [apply out_buffer_in; lia|]. rewrite length_insert, Nat2Z.id. split; [done|]. intros q.
        destruct (decide (q = idx /\ Z.of_nat q < count)) as [[-> _]|Hn]; [apply list_lookup_insert_eq; lia|].
        apply list_lookup_insert_ne. intros ->. apply Hn. lia.
      - exists buf. split; [by apply out_buffer_out|]. split; [done|]. intros q. by rewrite decide_False by lia. }
    destruct (IH (S idx) buf1) as (buf' & E & L & Hb); [lia|lia|]. exists buf'. split_and!; [|lia|].
    + unfold emit. unfold mbind, M_bind, mret, M_ret. rewrite E1. rewrite wrap_small by lia.
      replace (Z.of_nat idx + 1) with (Z.of_nat (S idx)) by lia. rewrite E. f_equal. lia.
    + intros q. rewrite Hb, Hb1. destruct (decide ((S idx <= q < S idx + length w)%nat /\ Z.of_nat q < count)).
      * rewrite decide_True by lia. replace (q - idx)%nat with (S (q - S idx)) by lia. done.
      * destruct (decide (q = idx /\ Z.of_nat q < count)) as [[-> ?]|].
        { rewrite decide_True by lia. by rewrite Nat.sub_diag. }
        by rewrite decide_False by lia.
Qed.

Lemma vsnprintf_cut count mem format va w buf :
  Z.of_nat (size mem) < 2 ^ 32 - 1 -> render mem format va = Some w -> Z.of_nat (length w) < 2 ^ 31 ->
  0 < count <= Z.of_nat (length buf) -> count < 2 ^ 64 ->
  let n := Nat.min (length w) (Z.to_nat count - 1) in
  vsnprintf false count mem format va buf = Done (take n w ++ 0 :: drop (S n) buf) (Z.of_nat (length w)).
Proof.
  intros Hmem Hr Hw Hc Hc' n. unfold vsnprintf. rewrite vsnprintf_text, Hr by done.
  destruct (emits_buffer count w 0 buf) as (buf1 & E1 & L1 & Hb1); [lia|lia|]. rewrite Nat.add_0_l in *.
  change 0 with (Z.of_nat 0) at 1. rewrite (bind_done _ _ _ _ _ E1).
  assert ((if Z.of_nat (length w) <? count then Z.of_nat (length w) else u64 (count - 1)) = Z.of_nat n) as ->.
  { unfold n. destruct (Z.ltb_spec (Z.of_nat (length w)) count); [lia|]. rewrite wrap_small by lia. lia. }
  rewrite (bind_done _ _ _ _ _ (out_buffer_in count 0 (Z.of_nat n) buf1 ltac:(lia) ltac:(lia))).
  unfold mret, M_ret. rewrite Nat2Z.id, s32_small by lia. f_equal. apply list_eq. intros q.
  assert (length (take n w) = n) as Ln by (rewrite length_take; lia).
  destruct (Nat.lt_trichotomy q n) as [Hq|[->|Hq]].
  - rewrite list_lookup_insert_ne, lookup_app_l, lookup_take_lt by lia. rewrite Hb1, decide_True by lia. f_equal. lia.
  - rewrite list_lookup_insert_eq by lia. rewrite lookup_app_r by lia. by rewrite Ln, Nat.sub_diag.
  - rewrite list_lookup_insert_ne, lookup_app_r, Ln by lia. destruct (q - n)%nat as [|k] eqn:Ek; [lia|]. change ((0 :: drop (S n) buf) !! S k) with (drop (S n) buf !! k).
    rewrite lookup_drop, Hb1. rewrite decide_False; [f_equal; lia|]. lia.
Qed.

(** ** Numbers read back *)

(** A reader in the manner of [strtol]: blanks, a sign, digits. *)
Fixpoint skip_blanks (w : list Z) : list Z := match w with c :: r => if c =? ch " " then skip_blanks r else w | [] => [] end.

Definition digit_value (c : Z) : option Z :=
  if (ch "0" <=? c) && (c <=? ch "9") then Some (c - ch "0")
  else if (ch "a" <=? c) && (c <=? ch "f") then Some (c - ch "a" + 10)
  else if (ch "A" <=? c) && (c <=? ch "F") then Some (c - ch "A" + 10)
  else None.

Fixpoint read_digits (base acc : Z) (w : list Z) : Z :=
  match w with
  | c :: r => match digit_value c with Some d => if d <? base then read_digits base (acc * base + d) r else acc | None => acc end
  | [] => acc
  end.

Definition read_number (base : Z) (w : list Z) : Z :=
  match skip_blanks w with
  | c :: r => if c =? ch "-" then - read_digits base 0 r else if c =? ch "+" then read_digits base 0 r else read_digits base 0 (c :: r)
  | [] => 0
  end.

Lemma digit_value_char upper d : 0 <= d < 16 -> digit_value (digit_char upper d) = Some d.
Proof.
  intros Hd. unfold digit_value, digit_char. change (ch "0") with 48. change (ch "9") with 57. change (ch "a") with 97. change (ch "f") with 102.
  change (ch "A") with 65. change (ch "F") with 70. destruct (Z.ltb_spec d 10), upper;
    repeat match goal with |- context [?a <=? ?b] => destruct (Z.leb_spec a b); try lia end; cbn [andb]; f_equal; lia.
Qed.

Lemma digit_char_plain upper d : 0 <= d < 16 -> digit_char upper d <> ch " " /\ digit_char upper d <> ch "-" /\ digit_char upper d <> ch "+".
Proof. intros Hd. unfold digit_char. destruct (Z.ltb_spec d 10), upper; vm_compute (ch _); lia. Qed.

(** Reading the digits of [v] on top of [acc]. *)
Lemma read_digits_of fuel upper base : 2 <= base <= 16 -> forall v acc r, 0 <= v < base ^ Z.of_nat fuel ->
  read_digits base acc (rev (digits fuel upper v base) ++ r) =
  read_digits base (acc * base ^ Z.of_nat (length (digits fuel upper v base)) + v) r.
Proof.
  intros Hb. induction fuel as [|fuel IH]; intros v acc r Hv.
  - cbn in Hv. replace v with 0 by lia. cbn. f_equal. lia.
  - cbn [digits]. pose proof (Z.mod_pos_bound v base ltac:(lia)) as Hm. pose proof (Z.div_mod v base ltac:(lia)) as Hdm.
    destruct (Z.eqb_spec (v / base) 0) as [E|E].
    + cbn [rev app length read_digits]. rewrite digit_value_char, (proj2 (Z.ltb_lt _ _)) by lia. f_equal. nia.
    + cbn [rev length]. rewrite <- app_assoc. rewrite IH.
      2: { split; [apply Z.div_pos; lia|]. apply Z.div_lt_upper_bound; [lia|]. rewrite Nat2Z.inj_succ, Z.pow_succ_r in Hv by lia. lia. }
      cbn [app read_digits]. rewrite digit_value_char, (proj2 (Z.ltb_lt _ _)) by lia. f_equal.
      rewrite Nat2Z.inj_succ, Z.pow_succ_r by lia. set (B := base ^ _). replace v with (base * (v / base) + v mod base) at 3 by lia. ring.
Qed.

Lemma read_zeros base k r : 2 <= base -> read_digits base 0 (replicate k (ch "0") ++ r) = read_digits base 0 r.
Proof. intros Hb. induction k as [|k IH]; [done|]. cbn [replicate app read_digits]. change (digit_value (ch "0")) with (Some 0). cbv iota beta. rewrite (proj2 (Z.ltb_lt 0 base)) by lia. exact IH. Qed.

Lemma skip_blanks_app a w : skip_blanks (replicate a (ch " ") ++ w) = skip_blanks w.
Proof. by induction a. Qed.

Lemma read_blanks base acc b : read_digits base acc (replicate b (ch " ")) = acc.
Proof. by destruct b. Qed.

(** The buffer without a [#] prefix: digits, padding zeros, sign. *)
Definition sign_text (negative : bool) (fl : Z) : list Z :=
  if negative then str "-" else if on fl FLAGS_PLUS then str "+" else if on fl FLAGS_SPACE then str " " else [].

Lemma zeros_at_most n buf : Z.of_nat (length (zeros n buf)) <= Z.max (Z.of_nat (length buf)) (Z.max 0 n).
Proof. unfold zeros. rewrite length_app, length_replicate. lia. Qed.

Lemma zeros_twice n m buf : exists k, zeros m (zeros n buf) = buf ++ replicate k (ch "0").
Proof. unfold zeros. rewrite <- app_assoc, <- replicate_add. eauto. Qed.

Lemma sign_part_app negative fl buf : (length buf < PRINTF_NTOA_BUFFER_SIZE)%nat \/ sign_text negative fl = [] ->
  sign_part negative fl buf = buf ++ sign_text negative fl.
Proof.
  intros H. unfold sign_part, sign_text, app1 in *.
  destruct negative, (on fl FLAGS_PLUS), (on fl FLAGS_SPACE); try (destruct H as [H|H]; [|discriminate]);
    try (rewrite (proj2 (Nat.ltb_lt _ _)) by exact H; done); by rewrite app_nil_r.
Qed.

Lemma sign_text_on negative fl : sign_text negative fl <> [] -> negative || on fl (FLAGS_PLUS + FLAGS_SPACE) = true.
Proof.
  unfold sign_text. destruct negative; [done|]. intros H. cbn [orb]. unfold on in *. apply negb_true_iff, Z.eqb_neq. intros E.
  assert (forall f, Z.land (FLAGS_PLUS + FLAGS_SPACE) f = f -> Z.land fl f = 0) as Hz.
  { intros f Hf. by rewrite <- Hf, Z.land_assoc, E, Z.land_0_l. }
  rewrite (Hz FLAGS_PLUS eq_refl), (Hz FLAGS_SPACE eq_refl) in H. done.
Qed.

Lemma ntoa_buf_shape buf negative base prec width fl :
  on fl FLAGS_HASH = false -> (length buf < PRINTF_NTOA_BUFFER_SIZE)%nat -> prec < 32 -> 0 <= width <= 32 ->
  exists k, (ntoa_buf buf negative base prec width fl).1 = buf ++ replicate k (ch "0") ++ sign_text negative fl.
Proof.
  intros Hh Hb Hp Hw. unfold ntoa_buf. rewrite Hh. destruct (on fl FLAGS_LEFT); cbn [negb fst].
  { exists O. cbn. apply sign_part_app. by left. }
  unfold PRINTF_NTOA_BUFFER_SIZE in *. destruct (sign_text negative fl) as [|c sg] eqn:Es.
  { rewrite sign_part_app, Es, app_nil_r by by right. set (w' := if negb (width =? 0) && _ && _ then _ else width).
    destruct (on fl FLAGS_ZEROPAD); [destruct (zeros_twice prec w' buf) as (k & ->)|unfold zeros]; eexists; by rewrite app_nil_r. }
  pose proof (sign_text_on negative fl ltac:(by rewrite Es)) as Hs.
  rewrite sign_part_app, Es.
  - destruct (on fl FLAGS_ZEROPAD).
    + destruct (zeros_twice prec (if negb (width =? 0) && true && (negative || on fl (FLAGS_PLUS + FLAGS_SPACE)) then width - 1 else width) buf) as (k & ->).
      exists k. by rewrite <- app_assoc.
    + unfold zeros. eexists. by rewrite <- app_assoc.
  - left. unfold PRINTF_NTOA_BUFFER_SIZE. pose proof (zeros_at_most prec buf). destruct (on fl FLAGS_ZEROPAD); [|lia].
    rewrite Hs. set (w' := if negb (width =? 0) && _ && _ then _ else width). assert (w' <= 31) by (unfold w'; destruct (Z.eqb_spec width 0); cbn; lia).
    pose proof (zeros_at_most w' (zeros prec buf)). lia.
Qed.

(** Reading what [number_text] lays out. *)
Definition plain (c : Z) : Prop := c <> ch " " /\ c <> ch "-" /\ c <> ch "+".

Lemma digits_plain fuel upper base : 2 <= base <= 16 -> forall v, 0 <= v -> Forall plain (digits fuel upper v base).
Proof.
  intros Hb. induction fuel as [|fuel IH]; intros v Hv; cbn [digits]; [done|]. pose proof (Z.mod_pos_bound v base ltac:(lia)).
  constructor; [apply digit_char_plain; lia|]. destruct (v / base =? 0); [done|]. apply IH, Z.div_pos; lia.
Qed.

Lemma read_plain base P b : Forall plain P -> read_number base (P ++ replicate b (ch " ")) = read_digits base 0 (P ++ replicate b (ch " ")).
Proof.
  intros HP. unfold read_number. destruct HP as [|c P (H1 & H2 & H3) HP].
  - rewrite app_nil_l, read_blanks. rewrite <- (app_nil_r (replicate b _)), skip_blanks_app. done.
  - cbn [app skip_blanks]. by rewrite !(proj2 (Z.eqb_neq _ _)) by done.
Qed.

Lemma read_signed base negative fl a P b : Forall plain P ->
  read_number base (replicate a (ch " ") ++ sign_text negative fl ++ P ++ replicate b (ch " ")) =
  (if negative then Z.opp else id) (read_digits base 0 (P ++ replicate b (ch " "))).
Proof.
  intros HP. assert (forall w, read_number base (replicate a (ch " ") ++ w) = read_number base w) as ->.
  { intros w. unfold read_number. by rewrite skip_blanks_app. }
  unfold sign_text. destruct negative; [done|]. destruct (on fl FLAGS_PLUS); [done|]. rewrite <- (read_plain base P b HP).
  by destruct (on fl FLAGS_SPACE).
Qed.

Lemma digits_short fuel upper base n : 2 <= base -> forall v, 0 <= v < base ^ Z.of_nat (S n) -> (length (digits fuel upper v base) <= S n)%nat.
Proof.
  intros Hb. revert fuel. induction n as [|n IH]; intros [|fuel] v Hv; cbn [digits length]; try lia; destruct (Z.eqb_spec (v / base) 0) as [E|E]; cbn [length]; try lia.
  - exfalso. apply E, Z.div_small. rewrite Z.pow_1_r in Hv. lia.
  - apply le_n_S, IH. split; [apply Z.div_pos; lia|]. apply Z.div_lt_upper_bound; [lia|]. rewrite Nat2Z.inj_succ, Z.pow_succ_r in Hv by lia. lia.
Qed.

Lemma pow_base_8 base n : 8 <= base -> 0 <= n -> 8 ^ n <= base ^ n.
Proof. intros Hb Hn. apply Z.pow_le_mono_l. lia. Qed.

(** The digits of a value, read behind any number of zeros. *)
Lemma read_value value base upper k b (none : bool) : 0 <= value < 2 ^ 64 -> 8 <= base <= 16 -> (none = true -> value = 0) ->
  let ds := if none then [] else digits PRINTF_NTOA_BUFFER_SIZE upper value base in
  (length ds < PRINTF_NTOA_BUFFER_SIZE)%nat /\ Forall plain ds /\
  read_digits base 0 (replicate k (ch "0") ++ rev ds ++ replicate b (ch " ")) = value.
Proof.
  intros Hv Hb Hn. pose proof (pow_base_8 base 22 ltac:(lia) ltac:(lia)). pose proof (pow_base_8 base 32 ltac:(lia) ltac:(lia)).
  destruct none; cbv zeta; rewrite read_zeros by lia.
  - rewrite Hn by done. split_and!; [cbv; lia|constructor|apply read_blanks].
  - split_and!; [|apply digits_plain; lia|].
    + apply (Nat.le_lt_trans _ 22); [|cbv; lia]. apply digits_short; lia.
    + rewrite read_digits_of by (try change (Z.of_nat _) with 32; lia). rewrite read_blanks. lia.
Qed.

Lemma rev_replicate {A} k (x : A) : rev (replicate k x) = replicate k x.
Proof. rewrite rev_alt. apply reverse_replicate. Qed.

Lemma rev_sign negative fl : rev (sign_text negative fl) = sign_text negative fl.
Proof. unfold sign_text. by destruct negative, (on fl FLAGS_PLUS), (on fl FLAGS_SPACE). Qed.

Lemma field_blanks left width w : exists a b, field left width w = replicate a (ch " ") ++ w ++ replicate b (ch " ").
Proof. unfold field, blanks. destruct left; [exists O; eexists; done|eexists; exists O; by rewrite app_nil_r]. Qed.

(** The text of a value in base 8, 10 or 16. *)
Lemma number_text_reads_back value (negative : bool) base prec width fl :
  0 <= value < 2 ^ 64 -> 8 <= base <= 16 -> on fl FLAGS_HASH = false -> prec < 32 -> 0 <= width <= 32 ->
  read_number base (number_text value negative base prec width fl) = if negative then - value else value.
Proof.
  intros Hv Hb Hh Hp Hw. unfold number_text. set (fl' := if value =? 0 then _ else fl).
  assert (on fl' FLAGS_HASH = false) as Hh'.
  { unfold fl'. destruct (value =? 0); [|done]. unfold on, clr. by rewrite Z.ldiff_land, <- Z.land_assoc, (Z.land_comm _ FLAGS_HASH), Z.land_lnot_diag, Z.land_0_r. }
  set (none := on fl' FLAGS_PRECISION && (value =? 0)).
  replace (if negb _ || negb _ then _ else _) with (if none then [] else digits PRINTF_NTOA_BUFFER_SIZE (on fl' FLAGS_UPPERCASE) value base)
    by (unfold none; by destruct (on fl' FLAGS_PRECISION), (value =? 0)).
  assert (none = true -> value = 0) as Hnone by (unfold none; rewrite andb_true_iff, Z.eqb_eq; tauto).
  set (ds := if none then _ else _).
  assert (forall k b, (length ds < PRINTF_NTOA_BUFFER_SIZE)%nat /\ Forall plain ds /\
    read_digits base 0 (replicate k (ch "0") ++ rev ds ++ replicate b (ch " ")) = value) as Hds by (intros; by apply read_value).
  destruct (ntoa_buf_shape ds negative base prec width fl' Hh' (proj1 (Hds O O)) Hp Hw) as (k & E).
  destruct (ntoa_buf ds negative base prec width fl') as [buf w'] eqn:Eb. cbn [fst] in E. subst buf.
  rewrite !rev_app_distr, rev_replicate, rev_sign, <- app_assoc.
  assert (forall w, exists a b, (if on fl' FLAGS_ZEROPAD && negb (on fl' FLAGS_LEFT) then w else field (on fl' FLAGS_LEFT) w' w) =
     replicate a (ch " ") ++ w ++ replicate b (ch " ")) as Hf.
  { intros w. destruct (on fl' FLAGS_ZEROPAD && _); [exists O, O; cbn; by rewrite app_nil_r|apply field_blanks]. }
  destruct (Hf (sign_text negative fl' ++ replicate k (ch "0") ++ rev ds)) as (a & b & ->). rewrite <- app_assoc, read_signed.
  2: { apply Forall_app. split; [by apply Forall_replicate|]. apply Forall_rev, (Hds O O). }
  rewrite <- app_assoc, (proj2 (proj2 (Hds k b))). by destruct negative.
Qed.

(** What C means by the argument [a] under the length modifiers in [fl]. *)
Definition int_meaning (c fl a : Z) : Z :=
  let bits := if on fl FLAGS_LONG_LONG || on fl FLAGS_LONG then 64 else if on fl FLAGS_CHAR then 8 else if on fl FLAGS_SHORT then 16 else 32 in
  if (c =? ch "d") || (c =? ch "i") then sext bits a else wrap bits a.

Lemma on_clr fl g f : on (clr fl g) f = on fl (Z.ldiff f g).
Proof. unfold on, clr. do 2 f_equal. apply Z.bits_inj'. intros n Hn. rewrite !Z.land_spec, !Z.ldiff_spec. by destruct (Z.testbit fl n), (Z.testbit g n), (Z.testbit f n). Qed.

Lemma on_set_other fl g f : Z.land g f = 0 -> on (set fl g) f = on fl f.
Proof. intros E. unfold on, set. by rewrite Z.land_lor_distr_l, E, Z.lor_0_r. Qed.

(** The length modifiers are untouched by the specifier. *)
Lemma int_flags_keep c fl f : In f [FLAGS_LONG_LONG; FLAGS_LONG; FLAGS_CHAR; FLAGS_SHORT] -> on (int_flags c fl) f = on fl f.
Proof.
  intros Hf. unfold int_flags. assert (forall fl g, In g [FLAGS_HASH; FLAGS_PLUS + FLAGS_SPACE; FLAGS_ZEROPAD] -> on (clr fl g) f = on fl f) as Hc.
  { intros fl' g Hg. rewrite on_clr. f_equal. repeat (destruct Hf as [<-|Hf]; [repeat (destruct Hg as [<-|Hg]; [reflexivity|]); destruct Hg|]); destruct Hf. }
  assert (forall fl, on (set fl FLAGS_UPPERCASE) f = on fl f) as Hs.
  { intros fl'. apply on_set_other. repeat (destruct Hf as [<-|Hf]; [reflexivity|]); destruct Hf. }
  destruct (int_base c =? 10), (c =? ch "X"), ((c =? ch "d") || (c =? ch "i")); cbv zeta;
    destruct (on _ FLAGS_PRECISION); by rewrite ?Hc, ?Hs, ?Hc by (cbn; tauto).
Qed.

(** Magnitude and sign give the argument back, the most negative one included. *)
Lemma magnitude bits v : 0 < bits -> - 2 ^ (bits - 1) <= v < 2 ^ (bits - 1) ->
  (if v <? 0 then - wrap bits (if 0 <? v then v else 0 - v) else wrap bits (if 0 <? v then v else 0 - v)) = v.
Proof.
  intros Hb Hv. assert (2 ^ bits = 2 * 2 ^ (bits - 1)) by (rewrite <- Z.pow_succ_r by lia; f_equal; lia).
  rewrite wrap_small by (destruct (Z.ltb_spec 0 v); lia). destruct (Z.ltb_spec v 0), (Z.ltb_spec 0 v); lia.
Qed.

Lemma int_value_meaning (signed : bool) fl a :
  let '(value, negative) := int_value signed fl a in
  0 <= value < 2 ^ 64 /\ (if negative then - value else value) =
    (if signed then sext else wrap) (if on fl FLAGS_LONG_LONG || on fl FLAGS_LONG then 64 else if on fl FLAGS_CHAR then 8 else if on fl FLAGS_SHORT then 16 else 32) a.
Proof.
  assert (forall bits z, 0 <= bits <= 64 -> 0 <= wrap bits z < 2 ^ 64) as Hw.
  { intros bits z Hb. pose proof (wrap_range bits z ltac:(lia)). assert (2 ^ bits <= 2 ^ 64) by (apply Z.pow_le_mono_r; lia). lia. }
  unfold int_value. destruct signed, (on fl FLAGS_LONG_LONG || on fl FLAGS_LONG).
  - split; [apply Hw; lia|]. apply magnitude; [lia|]. apply sext_range. lia.
  - split; [apply Hw; lia|]. assert (forall b, 0 < b <= 32 -> - 2 ^ (32 - 1) <= sext b a < 2 ^ (32 - 1)) as Hs.
    { intros b Hb. pose proof (sext_range b a ltac:(lia)). assert (2 ^ (b - 1) <= 2 ^ (32 - 1)) by (apply Z.pow_le_mono_r; lia). lia. }
    destruct (on fl FLAGS_CHAR); [|destruct (on fl FLAGS_SHORT)]; apply magnitude; try lia; apply Hs; lia.
  - split; [apply Hw; lia|done].
  - destruct (on fl FLAGS_CHAR); [|destruct (on fl FLAGS_SHORT)]; (split; [apply Hw; lia|done]).
Qed.

Lemma int_flags_hash c fl : on fl FLAGS_HASH = false \/ int_base c = 10 -> on (int_flags c fl) FLAGS_HASH = false.
Proof.
  intros H. unfold int_flags. set (fl0 := if int_base c =? 10 then _ else _).
  assert (on fl0 FLAGS_HASH = false) as H0.
  { unfold fl0. destruct (Z.eqb_spec (int_base c) 10); [by rewrite on_clr; unfold on; rewrite Z.land_0_r|tauto]. }
  clearbody fl0. destruct (c =? ch "X"), ((c =? ch "d") || (c =? ch "i")); cbv zeta; destruct (on _ FLAGS_PRECISION);
    rewrite ?on_clr, ?on_set_other by done; exact H0.
Qed.

Lemma int_base_range c : is_int c = true -> c <> ch "b" -> 8 <= int_base c <= 16.
Proof. intros _ Hb. unfold int_base. rewrite (proj2 (Z.eqb_neq c (ch "b")) Hb). destruct (_ || _); [lia|]. destruct (_ =? _); lia. Qed.

Lemma int_text_value mem sp c a va :
  head (rest sp) = Some c -> is_int c = true -> c <> ch "b" -> args sp = a :: va ->
  on (flags sp) FLAGS_HASH = false \/ int_base c = 10 -> precision sp < 32 -> 0 <= width sp <= 32 ->
  exists w, conversion_text mem sp = Some (w, va) /\ read_number (int_base c) w = int_meaning c (flags sp) a.
Proof.
  intros Hc Hi Hb Ha Hh Hp Hw. unfold conversion_text. rewrite Hc. cbn [mbind option_bind]. rewrite Hi, Ha. cbn [mbind option_bind va_arg run result_of mret M_ret].
  pose proof (int_value_meaning ((c =? ch "d") || (c =? ch "i")) (int_flags c (flags sp)) a) as Hv.
  destruct (int_value _ _ a) as [value negative]. destruct Hv as (Hv & Em). eexists. split; [reflexivity|].
  rewrite number_text_reads_back by (done || by apply int_base_range || by apply int_flags_hash). rewrite Em. unfold int_meaning.
  rewrite !int_flags_keep by (cbn; tauto). by destruct ((c =? ch "d") || (c =? ch "i")).
Qed.

(** *** The theorems *)

Definition hello : list Z := str "%s: %-4d|%+.3d|%#X" ++ [0].
Definition hello_mem : gmap Z Z := {[ 4096 := ch "h"; 4097 := ch "i"; 4098 := 0 ]}.

(** C27. An integer conversion prints a number that reads back as the argument: for
    [%d %i %u %o %x %X] with any flags but [#] on a base other than 10, any length
    modifier, a precision below 32 and a width up to 32, a reader that skips
    blanks and takes a sign and digits finds the value the argument has in its
    C type, the most negative one included. *)
Theorem printf_int_reads_back {S} (out : Z -> Z -> M S unit) mem sp c a va :
  Z.of_nat (size mem) < 2 ^ 32 - 1 -> spec_ok sp -> head (rest sp) = Some c -> is_int c = true -> c <> ch "b" -> args sp = a :: va ->
  on (flags sp) FLAGS_HASH = false \/ int_base c = 10 -> precision sp < 32 -> 0 <= width sp <= 32 ->
  exists w, read_number (int_base c) w = int_meaning c (flags sp) a /\
    forall idx s, 0 <= idx < 2 ^ 64 -> conversion out mem sp idx s = (i ← emits out w idx; mret (i, va)) s.
Proof.
  intros Hmem Hok Hc Hi Hb Ha Hh Hp Hw. destruct (int_text_value mem sp c a va Hc Hi Hb Ha Hh Hp Hw) as (w & E & Hr).
  exists w. split; [done|]. intros idx s Hidx. rewrite (conversion_prints out mem Hmem sp idx s Hidx Hok). by rewrite E.
Qed.

(** "%+08d" of the least [int]. *)
Definition least_spec : spec := mk_spec (FLAGS_ZEROPAD + FLAGS_PLUS) 8 0 (str "d" ++ [0]) [2 ^ 31].

Lemma printf_int_reads_back_witness :
  spec_ok least_spec /\ read_number 10 (str "-2147483648") = - 2 ^ 31 /\
  exists w, read_number (int_base (ch "d")) w = int_meaning (ch "d") (flags least_spec) (2 ^ 31) /\
    forall idx s, 0 <= idx < 2 ^ 64 -> conversion _out_fct hello_mem least_spec idx s = (i ← emits _out_fct w idx; mret (i, [])) s.
Proof.
  split; [split; [cbn; lia|done]|]. split; [vm_compute; reflexivity|].
  apply (printf_int_reads_back _out_fct hello_mem least_spec (ch "d") (2 ^ 31) []); try reflexivity; try (vm_compute; congruence).
  - split; [cbn; lia|done].
  - left. reflexivity.
  - cbn. lia.
Defined.

(** C26. [vsnprintf] cuts the text to the buffer: into [count] bytes go the first
    [count - 1] characters, or all of them, and a terminating zero; the bytes
    behind keep what they held, and the result is the length of the whole text. *)
Theorem vsnprintf_truncates count mem format va w buf :
  Z.of_nat (size mem) < 2 ^ 32 - 1 -> render mem format va = Some w -> Z.of_nat (length w) < 2 ^ 31 ->
  0 < count <= Z.of_nat (length buf) -> count < 2 ^ 64 ->
  let n := Nat.min (length w) (Z.to_nat count - 1) in
  vsnprintf false count mem format va buf = Done (take n w ++ 0 :: drop (S n) buf) (Z.of_nat (length w)).
Proof. apply vsnprintf_cut. Qed.

Lemma vsnprintf_truncates_witness :
  let w := str "hi: -7  |+042|0XFF" in
  render hello_mem hello [4096; -7; 42; 255] = Some w /\
  vsnprintf false 8 hello_mem hello [4096; -7; 42; 255] (replicate 9 1) = Done (str "hi: -7 " ++ [0; 1]) 18.
Proof.
  intros w. assert (render hello_mem hello [4096; -7; 42; 255] = Some w) as E by (vm_compute; reflexivity). split; [exact E|].
  rewrite (vsnprintf_truncates 8 hello_mem hello [4096; -7; 42; 255] w (replicate 9 1)); [vm_compute; reflexivity| |exact E|..]; vm_compute; intuition congruence.
Defined.

Lemma emits_null {S} w (s : S) : forall idx, 0 <= idx -> idx + Z.of_nat (length w) < 2 ^ 64 -> emits _out_null w idx s = Done s (idx + Z.of_nat (length w)).
Proof.
  induction w as [|c w IH]; intros idx Hi Hw; cbn [emits length] in *; [unfold mret, M_ret; f_equal; lia|].
  rewrite (bind_done (emit _out_null c idx) _ s s (idx + 1)); [rewrite IH by lia; f_equal; lia|].
  unfold emit, _out_null, mbind, M_bind, mret, M_ret. by rewrite wrap_small by lia.
Qed.

(** A buffer of one byte more than the text takes all of it. *)
Lemma vsnprintf_whole mem format va w buf :
  Z.of_nat (size mem) < 2 ^ 32 - 1 -> render mem format va = Some w -> Z.of_nat (length w) < 2 ^ 31 - 1 ->
  Z.of_nat (length w) < Z.of_nat (length buf) ->
  exists buf', vsnprintf false (Z.of_nat (length w) + 1) mem format va buf = Done buf' (Z.of_nat (length w)) /\ take (length w) buf' = w.
Proof.
  intros Hmem Hr Hw Hl. eexists. split; [apply vsnprintf_cut; [done|done|lia..]|].
  replace (Nat.min _ _) with (length w) by lia. rewrite firstn_all. by rewrite take_app_length.
Qed.

(** [printf] writes the whole text, and so does [vprintf] past its 512 bytes,
    whenever [malloc] has a buffer of the size asked for; the result is the
    number of characters.  Without a buffer nothing is written. *)
Theorem printf_writes_text stack (alloc : Z -> option (list Z)) mem format va w :
  Z.of_nat (size mem) < 2 ^ 32 - 1 -> render mem format va = Some w -> Z.of_nat (length w) < 2 ^ 31 - 1 -> length stack = 512%nat ->
  (forall n b, alloc n = Some b -> Z.of_nat (length b) = n) ->
  let whole := alloc (Z.of_nat (length w) + 1) in
  printf alloc mem format va = Some (if whole then (Z.of_nat (length w), w) else (0, [])) /\
  vprintf stack alloc mem format va = Some (Z.of_nat (length w), if decide (length w < 512)%nat then w else if whole then w else []).
Proof.
  intros Hmem Hr Hw Hst Hal whole.
  assert (u64 (s32 (Z.of_nat (length w) + 1)) = Z.of_nat (length w) + 1) as En by (rewrite s32_small, wrap_small; lia).
  assert (forall b, whole = Some b -> exists b', vsnprintf false (Z.of_nat (length w) + 1) mem format va b = Done b' (Z.of_nat (length w)) /\
    take (length w) b' = w) as Hb. { intros b Eb. apply vsnprintf_whole; [done|done|lia|]. rewrite (Hal _ _ Eb). lia. }
  split.
  - unfold printf. rewrite vsnprintf_text, Hr by done. rewrite (bind_done _ _ tt tt _ (emits_null w tt 0 ltac:(lia) ltac:(lia))), Z.add_0_l.
    unfold mbind, M_bind, _out_null, mret, M_ret. rewrite (s32_small (Z.of_nat (length w))) by lia. rewrite En. fold whole. destruct whole as [b|]; [|done].
    destruct (Hb b eq_refl) as (b' & -> & Et). by rewrite Nat2Z.id, Et.
  - unfold vprintf. rewrite (vsnprintf_cut 512 mem format va w stack) by (done || lia). set (n := Nat.min _ _).
    case_decide.
    + rewrite (proj2 (Z.ltb_lt (Z.of_nat (length w)) 512)), (proj2 (Z.leb_gt 512 _)) by lia. rewrite andb_true_r, Nat2Z.id.
      assert (take (length w) (take n w ++ 0 :: drop (S n) stack) = w) as Et.
      { replace n with (length w) by lia. by rewrite firstn_all, take_app_length. }
      destruct (Z.ltb_spec 0 (Z.of_nat (length w))); [by rewrite Et|]. destruct w; [done|cbn in *; lia].
    + rewrite (proj2 (Z.ltb_ge (Z.of_nat (length w)) 512)), (proj2 (Z.leb_le 512 _)) by lia. rewrite andb_false_r, En. fold whole.
      destruct whole as [b|]; [|done]. destruct (Hb b eq_refl) as (b' & -> & Et). by rewrite Nat2Z.id, Et.
Qed.

Lemma printf_writes_text_witness :
  let alloc n := Some (replicate (Z.to_nat n) 7) in
  printf alloc hello_mem hello [4096; -7; 42; 255] = Some (18, str "hi: -7  |+042|0XFF") /\
  vprintf (replicate 512 9) alloc hello_mem hello [4096; -7; 42; 255] = Some (18, str "hi: -7  |+042|0XFF").
Proof.
  intros alloc. pose (w := str "hi: -7  |+042|0XFF").
  destruct (printf_writes_text (replicate 512 9) (fun n => if 0 <=? n then alloc n else None) hello_mem hello [4096; -7; 42; 255] w) as (H1 & H2);
    [vm_compute; reflexivity..| |].
  - intros n b. destruct (Z.leb_spec 0 n) as [Hn|]; [|discriminate]. intros [= <-]. rewrite length_replicate. lia.
  - split; [exact H1|exact H2].
Defined.

(** The buffer of 32 characters drops what does not fit: the sign of a padded
    number, and the upper half of a binary one. *)
Lemma printf_drops_sign : render ∅ (str "%.32d" ++ [0]) [-5] = render ∅ (str "%.32d" ++ [0]) [5].
Proof. vm_compute. reflexivity. Qed.

Lemma printf_drops_binary_digits : render ∅ (str "%lb" ++ [0]) [2 ^ 40 + 1] = Some (str "00000000000000000000000000000001").
Proof. vm_compute. reflexivity. Qed.

(** A precision of 0 reads the whole string first, and a precision of [n] reads
    the character after the first [n]: without a zero there it runs on. *)
Lemma printf_precision_reads_on : render {[ 64 := ch "a"; 65 := ch "b" ]} (str "%.2s" ++ [0]) [64] = None.
Proof. vm_compute. reflexivity. Qed.

End PrintfSpec.
