(* ===== verification/PrintfStd.v ===== *)
(** The formatter against the C standard: what a format made of plain characters and
    directives means, defined from the description of [fprintf] in the standard and
    not from the code, and that the code of [src/lib/printf.c] prints it.

    Where the code departs from the standard: a precision together with [-], [#] on a
    base other than ten, a negative precision argument, and numbers that do not fit
    its buffer of 32 characters.  These are left out of the theorem, and there are
    examples at the end. *)
From S2P Require Import Prelude Printf PrintfSpec.
From Stdlib Require Ascii String.
Import Ascii.AsciiSyntax String.StringSyntax.

Module PrintfStd.
Import Printf PrintfSpec.

(** ** Formats *)

Inductive length_mod := L_none | L_hh | L_h | L_l | L_ll | L_j | L_z | L_t.
Inductive conv := C_d | C_i | C_u | C_o | C_x | C_X | C_c | C_s.
Inductive count := Num (n : Z) | Star.

Record directive := mk_dir {
  d_left : bool; d_plus : bool; d_space : bool; d_hash : bool; d_zero : bool;
  d_width : option count;
  d_prec : option count;
  d_len : length_mod;
  d_conv : conv
}.

Inductive item := Text (c : Z) | Percent | Dir (d : directive).

(** A numeral: the digits at the positions that the value reaches, the highest first. *)
Definition digit (upper : bool) (d : Z) : Z := nth (Z.to_nat d) (str (if upper then "0123456789ABCDEF" else "0123456789abcdef")) 0.
Definition positions (base v : Z) : list Z := filter (fun i => i = 0 \/ base ^ i <= v) (reverse (seqZ 0 64)).
Definition numeral (base : Z) (upper : bool) (v : Z) : list Z := (fun i => digit upper (v / base ^ i mod base)) <$> positions base v.

Definition show_count (o : option count) : list Z := match o with None => [] | Some Star => str "*" | Some (Num n) => numeral 10 false n end.
Definition show_len (l : length_mod) : list Z :=
  match l with L_none => [] | L_hh => str "hh" | L_h => str "h" | L_l => str "l" | L_ll => str "ll" | L_j => str "j" | L_z => str "z" | L_t => str "t" end.
Definition show_conv (c : conv) : Z :=
  match c with C_d => ch "d" | C_i => ch "i" | C_u => ch "u" | C_o => ch "o" | C_x => ch "x" | C_X => ch "X" | C_c => ch "c" | C_s => ch "s" end.
Definition show_flags (l p s h z : bool) : list Z :=
  (if l then str "-" else []) ++ (if p then str "+" else []) ++ (if s then str " " else []) ++ (if h then str "#" else []) ++ (if z then str "0" else []).

Definition show_dir (d : directive) : list Z :=
  show_flags (d_left d) (d_plus d) (d_space d) (d_hash d) (d_zero d) ++ show_count (d_width d) ++
  (match d_prec d with None => [] | o => ch "." :: show_count o end) ++ show_len (d_len d) ++ [show_conv (d_conv d)].

Definition show_item (i : item) : list Z :=
  match i with Text c => [c] | Percent => str "%%" | Dir d => ch "%" :: show_dir d end.
Definition show (f : list item) : list Z := flat_map show_item f.

(** ** Meaning *)

Inductive arg := A_int (z : Z) | A_str (w : list Z) | A_null.

(** A directive whose width and precision are known; width 0 is none. *)
Record resolved := mk_res {
  r_left : bool; r_plus : bool; r_space : bool; r_hash : bool; r_zero : bool;
  r_width : Z;
  r_prec : option Z;
  r_len : length_mod;
  r_conv : conv
}.

(** A negative width argument is a [-] flag and a width. *)
Definition width_of (d : directive) (args : list arg) : option (bool * Z * list arg) :=
  match d_width d with
  | None => Some (d_left d, 0, args)
  | Some (Num n) => Some (d_left d, n, args)
  | Some Star =>
      match args with
      | A_int z :: r => let w := s32 z in Some (if w <? 0 then (true, - w, r) else (d_left d, w, r))
      | _ => None
      end
  end.

(** Negative precision arguments are not covered. *)
Definition prec_of (d : directive) (args : list arg) : option (option Z * list arg) :=
  match d_prec d with
  | None => Some (None, args)
  | Some (Num n) => Some (Some n, args)
  | Some Star =>
      match args with
      | A_int z :: r => if s32 z <? 0 then None else Some (Some (s32 z), r)
      | _ => None
      end
  end.

Definition resolve (d : directive) (args : list arg) : option (resolved * list arg) :=
  '(l, w, args) ← width_of d args;
  '(p, args) ← prec_of d args;
  Some (mk_res l (d_plus d) (d_space d) (d_hash d) (d_zero d) w p (d_len d) (d_conv d), args).

Definition signed (c : conv) : bool := match c with C_d | C_i => true | _ => false end.
Definition base (c : conv) : Z := match c with C_o => 8 | C_x | C_X => 16 | _ => 10 end.
Definition upper (c : conv) : bool := match c with C_X => true | _ => false end.
Definition bits (l : length_mod) : Z := match l with L_none => 32 | L_hh => 8 | L_h => 16 | _ => 64 end.

(** The argument in the type that length and conversion give. *)
Definition value (r : resolved) (z : Z) : Z := (if signed (r_conv r) then sext else wrap) (bits (r_len r)) z.

Definition sign (r : resolved) (v : Z) : list Z :=
  if v <? 0 then str "-" else if signed (r_conv r) then (if r_plus r then str "+" else if r_space r then str " " else []) else [].

Definition zeros_to (n : Z) (w : list Z) : list Z := replicate (Z.to_nat n - length w) (ch "0") ++ w.

(** An integer: the numeral with at least as many digits as the precision says (none
    for a zero with precision 0), and a sign.  The field is filled with blanks, or
    with zeros behind the sign when there is a [0] flag and neither [-] nor a
    precision. *)
Definition int_text (r : resolved) (z : Z) : list Z :=
  let v := value r z in
  let sg := sign r v in
  let ds := if (v =? 0) && bool_decide (r_prec r = Some 0) then [] else zeros_to (default 1 (r_prec r)) (numeral (base (r_conv r)) (upper (r_conv r)) (Z.abs v)) in
  if r_zero r && negb (r_left r) && bool_decide (r_prec r = None) then sg ++ zeros_to (r_width r - Z.of_nat (length sg)) ds
  else field (r_left r) (r_width r) (sg ++ ds).

Definition string_of (r : resolved) (w : list Z) : list Z :=
  field (r_left r) (r_width r) (match r_prec r with None => w | Some n => take (Z.to_nat n) w end).

Definition conv_text (r : resolved) (a : arg) : list Z :=
  match a with
  | A_int z => match r_conv r with C_c => field (r_left r) (r_width r) [z mod 256] | _ => int_text r z end
  | A_str w => string_of r w
  | A_null => string_of r (str "(null)")
  end.

(** What is printed: characters, and conversions with their arguments. *)
Inductive piece := P_char (c : Z) | P_conv (r : resolved) (a : arg).

Definition piece_text (p : piece) : list Z := match p with P_char c => [c] | P_conv r a => conv_text r a end.

Definition suits (c : conv) (a : arg) : bool := match c, a with C_s, A_int _ => false | C_s, _ => true | _, A_int _ => true | _, _ => false end.

Fixpoint pieces (f : list item) (args : list arg) : option (list piece) :=
  match f with
  | [] => Some []
  | Text c :: f' => ps ← pieces f' args; Some (P_char c :: ps)
  | Percent :: f' => ps ← pieces f' args; Some (P_char (ch "%") :: ps)
  | Dir d :: f' =>
      '(r, args) ← resolve d args;
      match args with
      | a :: args => if suits (r_conv r) a then ps ← pieces f' args; Some (P_conv r a :: ps) else None
      | [] => None
      end
  end.

(** ** What the theorem covers *)

Definition is_number (c : conv) : bool := match c with C_c | C_s => false | _ => true end.

(** Numbers that fit the buffer of the code, without a precision next to [-] and
    without [#] on a base other than ten. *)
Definition covered (r : resolved) : Prop :=
  0 <= r_width r < 2 ^ 32 /\ (forall n, r_prec r = Some n -> 0 <= n < 2 ^ 32) /\
  (is_number (r_conv r) = true ->
     (r_hash r = false \/ base (r_conv r) = 10) /\ default 0 (r_prec r) < 32 /\ (r_zero r = true -> r_width r <= 32) /\
     (r_left r = true -> r_prec r = None)) /\
  (is_number (r_conv r) = false -> r_len r = L_none).

Definition piece_ok (p : piece) : Prop := match p with P_char _ => True | P_conv r _ => covered r end.

Definition count_ok (o : option count) (lo : Z) : Prop := match o with Some (Num n) => lo <= n < 2 ^ 32 | _ => True end.
Definition item_ok (i : item) : Prop :=
  match i with Text c => c <> 0 /\ c <> ch "%" | Percent => True | Dir d => count_ok (d_width d) 1 /\ count_ok (d_prec d) 0 end.

(** An argument in its slot: the string is in memory. *)
Definition slot (mem : gmap Z Z) (a : arg) (s : Z) : Prop :=
  match a with
  | A_int z => s = z
  | A_str w => 0 < s < 2 ^ 64 /\ Forall (fun c => c <> 0) w /\ forall i c, (w ++ [0]) !! i = Some c -> mem !! (s + Z.of_nat i) = Some c
  | A_null => s = 0
  end.

(** ** Numerals *)

Lemma digit_same up d : 0 <= d < 16 -> digit_char up d = digit up d.
Proof.
  intros Hd. assert (Forall (fun d => digit_char up d = digit up d) (seqZ 0 16)) as H by (destruct up; vm_compute; repeat constructor).
  rewrite Forall_forall in H. apply H, elem_of_seqZ. lia.
Qed.

Lemma digits_at b up fuel : 2 <= b -> forall v, 0 <= v ->
  digits fuel up v b = (fun i => digit_char up (v / b ^ i mod b)) <$> seqZ 0 (Z.of_nat (length (digits fuel up v b))).
Proof.
  intros Hb. induction fuel as [|fuel IH]; intros v Hv; cbn [digits]; [done|]. cbn [length]. rewrite Nat2Z.inj_succ, seqZ_cons by lia. cbn [fmap list_fmap].
  rewrite Z.pow_0_r, Z.div_1_r, Z.pred_succ. f_equal. destruct (v / b =? 0); [done|]. rewrite (IH (v / b)) at 1 by (apply Z.div_pos; lia).
  change (Z.succ 0) with (1 + 0). rewrite <- (fmap_add_seqZ 1 0), <- list_fmap_compose. apply list_fmap_ext. intros k i Hi%lookup_seqZ. cbn.
  rewrite Z.pow_add_r, Z.pow_1_r, Z.div_div by (try apply Z.pow_pos_nonneg; lia). done.
Qed.

Lemma digits_reach b up fuel : 2 <= b -> forall v i, 0 <= v < b ^ Z.of_nat (S fuel) -> 0 <= i ->
  i < Z.of_nat (length (digits (S fuel) up v b)) <-> i = 0 \/ b ^ i <= v.
Proof.
  intros Hb. induction fuel as [|fuel IH]; intros v i Hv Hi.
  - cbn [digits]. destruct (v / b =? 0); cbn [length]; (split; [lia|]; intros [?|Hp]; [lia|]; destruct (decide (i = 0)); [lia|];
      pose proof (Z.pow_le_mono_r b 1 i ltac:(lia) ltac:(lia)); cbn in Hv; lia).
  - remember (S fuel) as f. cbn [digits length]. destruct (Z.eqb_spec (v / b) 0) as [E|E].
    + cbn [length]. apply Z.div_small_iff in E; [|lia]. split; [lia|]. intros [?|Hp]; [lia|]. destruct (decide (i = 0)); [lia|].
      pose proof (Z.pow_le_mono_r b 1 i ltac:(lia) ltac:(lia)). lia.
    + subst f. rewrite Nat2Z.inj_succ. destruct (decide (i = 0)) as [->|Hi0]; [lia|].
      assert (0 <= v / b < b ^ Z.of_nat (S fuel)) as Hv'.
      { split; [apply Z.div_pos; lia|]. apply Z.div_lt_upper_bound; [lia|]. rewrite <- Z.pow_succ_r by lia. rewrite (Nat2Z.inj_succ (S fuel)) in Hv. lia. }
      pose proof (IH (v / b) (i - 1) Hv' ltac:(lia)) as IH'. assert (b ^ i = b * b ^ (i - 1)) as Ep by (rewrite <- Z.pow_succ_r by lia; f_equal; lia).
      assert (b ^ (i - 1) <= v / b <-> b ^ i <= v) as Ed by (rewrite Ep, Z.mul_comm; split; [intros; pose proof (Z.mul_div_le v b ltac:(lia)); nia|intros; by apply Z.div_le_lower_bound; lia]).
      assert (i - 1 = 0 -> b ^ (i - 1) <= v / b) as E1 by (intros ->; cbn; lia). rewrite <- Ed. set (n := Z.of_nat (length _)) in *.
      split; [intros Hn; right; destruct (proj1 IH' ltac:(lia)); tauto|]. intros [?|Hp]; [lia|]. pose proof (proj2 IH' (or_intror Hp)). lia.
Qed.

Lemma filter_split {A} (P : A -> Prop) `{!forall x, Decision (P x)} (l k : list A) : Forall P l -> Forall (fun x => ~ P x) k -> filter P (l ++ k) = l.
Proof.
  intros Hl Hk. rewrite filter_app. assert (filter P k = []) as ->.
  { induction Hk as [|x k Hx _ IH]; [done|]. by rewrite filter_cons_False. }
  rewrite app_nil_r. induction Hl as [|x l Hx _ IH]; [done|]. by rewrite filter_cons_True, IH.
Qed.

Lemma rev_reverse {A} (l : list A) : rev l = reverse l.
Proof. apply rev_alt. Qed.

Lemma numeral_digits b up v : 8 <= b <= 16 -> 0 <= v < 2 ^ 64 -> numeral b up v = rev (digits PRINTF_NTOA_BUFFER_SIZE up v b).
Proof.
  intros Hb Hv. pose proof (pow_base_8 b 32 ltac:(lia) ltac:(lia)). rewrite rev_reverse, (digits_at b up PRINTF_NTOA_BUFFER_SIZE) by lia.
  set (n := Z.of_nat (length _)). assert (0 <= n <= 32) as Hn by (pose proof (digits_length PRINTF_NTOA_BUFFER_SIZE up v b); unfold PRINTF_NTOA_BUFFER_SIZE in *; lia).
  rewrite <- fmap_reverse. unfold numeral, positions. rewrite filter_reverse.
  assert (filter (fun i => i = 0 \/ b ^ i <= v) (seqZ 0 64) = seqZ 0 n) as ->.
  { assert (forall i, 0 <= i -> i < n <-> i = 0 \/ b ^ i <= v) as Hr by (intros i Hi; apply (digits_reach b up 31); [lia|change (Z.of_nat 32) with 32; lia|done]).
    replace 64 with (n + (64 - n)) by lia. rewrite seqZ_app by lia. apply filter_split; apply Forall_forall; intros i Hi%elem_of_seqZ; rewrite <- Hr; lia. }
  apply list_fmap_ext. intros k i _. symmetry. apply digit_same. pose proof (Z.mod_pos_bound (v / b ^ i) b ltac:(lia)). lia.
Qed.

(** The code reads back a numeral in its format. *)
Lemma atoi_digits fuel up v : forall i r, 0 <= i -> 0 <= v < 10 ^ Z.of_nat fuel -> i * 10 ^ Z.of_nat (length (digits fuel up v 10)) + v < 2 ^ 32 ->
  _atoi i (rev (digits fuel up v 10) ++ r) = _atoi (i * 10 ^ Z.of_nat (length (digits fuel up v 10)) + v) r.
Proof.
  revert v. induction fuel as [|fuel IH]; intros v i r Hi Hv Hb; [cbn in *; f_equal; lia|]. cbn [digits rev length] in *.
  pose proof (Z.mod_pos_bound v 10 ltac:(lia)) as Hm. pose proof (Z.div_mod v 10 ltac:(lia)) as Hdm.
  assert (forall j, 0 <= j -> j * 10 + v mod 10 < 2 ^ 32 -> _atoi j ([digit_char up (v mod 10)] ++ r) = _atoi (j * 10 + v mod 10) r) as Hone.
  { intros j Hj Hjb. cbn [app _atoi]. unfold digit_char, _is_digit. rewrite (proj2 (Z.ltb_lt _ _)) by lia. change (ch "0") with 48. change (ch "9") with 57.
    rewrite !(proj2 (Z.leb_le _ _)) by lia. cbn [andb]. rewrite wrap_small by lia. f_equal. lia. }
  destruct (Z.eqb_spec (v / 10) 0) as [E|E].
  - cbn [rev app length] in *. rewrite Hone by lia. f_equal. lia.
  - rewrite <- app_assoc. rewrite Nat2Z.inj_succ, Z.pow_succ_r in * by lia. set (B := 10 ^ Z.of_nat (length _)) in *.
    rewrite (IH (v / 10) i ([digit_char up (v mod 10)] ++ r)); [fold B|done|split; [apply Z.div_pos; lia|apply Z.div_lt_upper_bound; lia]|fold B; nia].
    rewrite Hone by nia. f_equal. nia.
Qed.

Lemma atoi_numeral n r : 0 <= n < 2 ^ 32 -> (forall c, head r = Some c -> _is_digit c = false) -> _atoi 0 (numeral 10 false n ++ r) = (n, r).
Proof.
  intros Hn Hr. rewrite numeral_digits by lia. rewrite atoi_digits by (rewrite ?Z.mul_0_l; unfold PRINTF_NTOA_BUFFER_SIZE; lia). rewrite Z.mul_0_l, Z.add_0_l.
  destruct r as [|c r]; [done|]. cbn [_atoi]. by rewrite (Hr c eq_refl).
Qed.

Lemma digits_last fuel up : forall v, 0 <= v < 10 ^ Z.of_nat (S fuel) -> exists l d, digits (S fuel) up v 10 = l ++ [digit_char up d] /\ 0 <= d < 10 /\ (0 < v -> 0 < d).
Proof.
  induction fuel as [|fuel IH]; intros v Hv.
  - exists [], v. cbn in Hv. cbn [digits]. rewrite (Z.mod_small v) by lia. destruct (v / 10 =? 0); (split; [done|lia]).
  - remember (S fuel) as f. cbn [digits]. destruct (Z.eqb_spec (v / 10) 0) as [E|E].
    + apply Z.div_small_iff in E; [|lia]. exists [], v. rewrite Z.mod_small by lia. split; [done|lia].
    + subst f. assert (0 <= v / 10 < 10 ^ Z.of_nat (S fuel)) as Hv'.
      { split; [apply Z.div_pos; lia|]. apply Z.div_lt_upper_bound; [lia|]. rewrite <- Z.pow_succ_r by lia. rewrite (Nat2Z.inj_succ (S fuel)) in Hv. lia. }
      destruct (IH (v / 10) Hv') as (l & d & El & Hd & Hp). exists (digit_char up (v mod 10) :: l), d. rewrite El. split; [done|]. lia.
Qed.

Lemma numeral_head n : 0 <= n < 2 ^ 32 -> exists c w, numeral 10 false n = c :: w /\ _is_digit c = true /\ (0 < n -> c <> ch "0").
Proof.
  intros Hn. destruct (digits_last 31 false n) as (l & d & El & Hd & Hp); [change (Z.of_nat 32) with 32; lia|]. rewrite numeral_digits by lia.
  unfold PRINTF_NTOA_BUFFER_SIZE. rewrite El, rev_app_distr. eexists _, _. split; [done|]. unfold digit_char, _is_digit. rewrite (proj2 (Z.ltb_lt _ _)) by lia.
  change (ch "0") with 48. change (ch "9") with 57. rewrite !(proj2 (Z.leb_le _ _)) by lia. split; [done|]. lia.
Qed.

(** ** Parsing *)

Definition bit (b : bool) (f : Z) : Z := if b then f else 0.
Definition marks (l p s h z : bool) : Z := Z.lor (Z.lor (Z.lor (Z.lor (bit l FLAGS_LEFT) (bit p FLAGS_PLUS)) (bit s FLAGS_SPACE)) (bit h FLAGS_HASH)) (bit z FLAGS_ZEROPAD).
Definition len_marks (l : length_mod) : Z :=
  match l with
  | L_none => 0 | L_hh => FLAGS_SHORT + FLAGS_CHAR | L_h => FLAGS_SHORT | L_ll => FLAGS_LONG + FLAGS_LONG_LONG | _ => FLAGS_LONG
  end.
Definition flags_of (r : resolved) : Z :=
  set (Z.lor (marks (r_left r) (r_plus r) (r_space r) (r_hash r) (r_zero r)) (match r_prec r with None => 0 | _ => FLAGS_PRECISION end)) (len_marks (r_len r)).

(** What stands behind the flags, and behind a width or precision. *)
Definition no_flag (f : list Z) : Prop := forall fl, parse_flags fl f = (fl, f).
Definition no_count (f : list Z) : Prop := exists c f', f = c :: f' /\ _is_digit c = false /\ (c =? ch "*") = false.

Definition after_prec (d : directive) (f : list Z) : list Z := show_len (d_len d) ++ show_conv (d_conv d) :: f.
Definition after_width (d : directive) (f : list Z) : list Z := (match d_prec d with None => [] | o => ch "." :: show_count o end) ++ after_prec d f.

Lemma show_dir_app d f : show_dir d ++ f = show_flags (d_left d) (d_plus d) (d_space d) (d_hash d) (d_zero d) ++ show_count (d_width d) ++ after_width d f.
Proof. unfold show_dir, after_width, after_prec. by rewrite <- !app_assoc. Qed.

Lemma after_prec_no_count d f : no_count (after_prec d f) /\ no_flag (after_prec d f) /\ head (after_prec d f) <> Some (ch ".").
Proof. unfold after_prec, no_count, no_flag. destruct (d_len d), (d_conv d); (split; [by eexists _, _|done]). Qed.

Lemma after_width_no_count d f : no_count (after_width d f) /\ no_flag (after_width d f).
Proof.
  unfold after_width. destruct (d_prec d); [|split; apply after_prec_no_count]. split; [|done]. by eexists _, _.
Qed.

Lemma count_no_flag o f : count_ok o 1 -> no_flag f -> no_flag (show_count o ++ f).
Proof.
  intros Ho Hf. destruct o as [[n|]|]; [|done|done]. cbn [show_count]. destruct (numeral_head n) as (c & w & E & Hd & Hz); [cbn in Ho; lia|]. rewrite E.
  cbn in Ho. specialize (Hz ltac:(lia)). intros fl. cbn [app parse_flags]. unfold _is_digit in Hd. apply andb_true_iff in Hd as [H1%Z.leb_le H2%Z.leb_le].
  rewrite (proj2 (Z.eqb_neq _ _) Hz). change (ch "0") with 48 in *. change (ch "9") with 57 in *. change (ch "-") with 45. change (ch "+") with 43. change (ch " ") with 32. change (ch "#") with 35.
  by rewrite !(proj2 (Z.eqb_neq _ _)) by lia.
Qed.

Lemma parse_flags_show l p s h z f : no_flag f -> parse_flags 0 (show_flags l p s h z ++ f) = (marks l p s h z, f).
Proof. intros Hf. destruct l, p, s, h, z; apply Hf. Qed.

Section parse.
Context (mem : gmap Z Z).
Notation slots := (Forall2 (slot mem)).

Lemma numeral_starts n f : 0 <= n < 2 ^ 32 -> exists c w, numeral 10 false n ++ f = c :: w /\ _is_digit c = true.
Proof. intros Hn. destruct (numeral_head n Hn) as (c & w & -> & Hd & _). by eexists _, _. Qed.

Lemma marks_left p s h z l : set (marks l p s h z) FLAGS_LEFT = marks true p s h z.
Proof. by destruct l, p, s, h, z. Qed.

Lemma parse_width_show d args va l w args' f : width_of d args = Some (l, w, args') -> count_ok (d_width d) 1 -> slots args va -> no_count f ->
  exists va', slots args' va' /\ 0 <= w < 2 ^ 32 /\ forall p s h z,
    run (parse_width (marks (d_left d) p s h z) (show_count (d_width d) ++ f) va) = Some (mk_spec (marks l p s h z) w 0 f va').
Proof.
  intros Ew Ho Hs (c & f' & Ef & Hd & Hst). unfold width_of in Ew. destruct (d_width d) as [[n|]|]; cbn [show_count count_ok] in *.
  - injection Ew as <- <- <-. exists va. split_and!; [done|lia|lia|]. intros p s h z. unfold run, parse_width. destruct (numeral_starts n f ltac:(lia)) as (c1 & w1 & En & Hc1).
    rewrite En. cbn [head]. rewrite bind_deref, Hc1, <- En. rewrite atoi_numeral; [done|lia|]. intros c2 Hc2. rewrite Ef in Hc2. by injection Hc2 as <-.
  - destruct Hs as [|a v args va Ha Hs]; [done|]. destruct a as [x| |]; [|done..]. cbn in Ha. subst v. pose proof (sext_range 32 x ltac:(lia)) as Hr. change (2 ^ (32 - 1)) with (2 ^ 31) in Hr.
    exists va. cbv zeta in Ew. destruct (Z.ltb_spec (s32 x) 0) as [Hn|Hn]; injection Ew as <- <- <-; (split_and!; [done|lia|lia|]; intros p s h z);
      (unfold run, parse_width; change (str "*" ++ f) with (ch "*" :: f); cbn [head tail]; rewrite bind_deref; change (_is_digit (ch "*")) with false; change (ch "*" =? ch "*") with true;
       cbv iota; unfold va_arg; rewrite bind_ret; cbv zeta).
    + rewrite (proj2 (Z.ltb_lt _ _) Hn). by rewrite marks_left, wrap_small by lia.
    + by rewrite (proj2 (Z.ltb_ge _ _) Hn).
  - injection Ew as <- <- <-. exists va. split_and!; [done|lia|lia|]. intros p s h z. unfold run, parse_width. cbn [app]. rewrite Ef. cbn [head]. by rewrite bind_deref, Hd, Hst.
Qed.

Lemma parse_precision_show d args va p args' fl w f : prec_of d args = Some (p, args') -> count_ok (d_prec d) 0 -> slots args va ->
  exists va', slots args' va' /\ (forall n, p = Some n -> 0 <= n < 2 ^ 32) /\
    run (parse_precision (mk_spec fl w 0 (after_width d f) va)) = Some (mk_spec (match p with None => fl | _ => set fl FLAGS_PRECISION end) w (default 0 p) (after_prec d f) va').
Proof.
  intros Ep Ho Hs. destruct (after_prec_no_count d f) as ((c & f' & Ef & Hd & Hst) & _ & Hdot). unfold prec_of in Ep. unfold after_width.
  destruct (d_prec d) as [[n|]|]; cbn [show_count count_ok] in *.
  - injection Ep as <- <-. exists va. split_and!; [done|intros m [= <-]; lia|]. unfold run, parse_precision. cbn [rest app head tail flags width Printf.args]. rewrite bind_deref. change (negb (ch "." =? ch ".")) with false. cbv iota.
    destruct (numeral_starts n (after_prec d f) ltac:(lia)) as (c1 & w1 & En & Hc1). rewrite En. cbn [head]. rewrite bind_deref, Hc1, <- En.
    rewrite atoi_numeral; [done|lia|]. intros c2 Hc2. rewrite Ef in Hc2. by injection Hc2 as <-.
  - destruct Hs as [|a v args va Ha Hs]; [done|]. destruct a as [x| |]; [|done..]. cbn in Ha. subst v. pose proof (sext_range 32 x ltac:(lia)) as Hr. change (2 ^ (32 - 1)) with (2 ^ 31) in Hr.
    destruct (Z.ltb_spec (s32 x) 0) as [Hn|Hn]; [done|]. injection Ep as <- <-. exists va. split_and!; [done|intros m [= <-]; lia|]. unfold run, parse_precision.
    cbn [rest app head tail flags width Printf.args]. rewrite bind_deref. change (negb (ch "." =? ch ".")) with false. cbv iota. change (str "*" ++ after_prec d f) with (ch "*" :: after_prec d f).
    cbn [head tail]. rewrite bind_deref. change (_is_digit (ch "*")) with false. change (ch "*" =? ch "*") with true. cbv iota. unfold va_arg. rewrite bind_ret. cbv zeta.
    unfold mret, M_ret. cbn [result_of default]. replace (if 0 <? s32 x then s32 x else 0) with (s32 x) by (destruct (Z.ltb_spec 0 (s32 x)); lia). done.
  - injection Ep as <- <-. exists va. split_and!; [done|done|]. unfold run, parse_precision. cbn [rest app]. rewrite Ef in Hdot |- *. cbn [head]. rewrite bind_deref.
    by rewrite (proj2 (Z.eqb_neq c (ch "."))) by (intros ->; by apply Hdot).
Qed.

Lemma parse_length_show fl w p d f va :
  run (parse_length (mk_spec fl w p (after_prec d f) va)) = Some (mk_spec (match d_len d with L_none => fl | _ => set fl (len_marks (d_len d)) end) w p (show_conv (d_conv d) :: f) va).
Proof. unfold after_prec. destruct (d_len d), (d_conv d); done. Qed.

(** The code parses a directive into its resolved form. *)
Definition parse_dir (f va : list Z) : option spec :=
  let '(fl, f) := parse_flags 0 f in
  sp ← run (parse_width fl f va);
  sp ← run (parse_precision sp);
  run (parse_length sp).

Lemma parse_dir_show d args va r args' f : resolve d args = Some (r, args') -> item_ok (Dir d) -> slots args va ->
  exists va', slots args' va' /\ parse_dir (show_dir d ++ f) va = Some (mk_spec (flags_of r) (r_width r) (default 0 (r_prec r)) (show_conv (r_conv r) :: f) va').
Proof.
  intros Er [Ho1 Ho2] Hs. unfold resolve in Er. destruct (width_of d args) as [[[l w] args1]|] eqn:Ew; [|done]. cbn in Er.
  destruct (prec_of d args1) as [[p args2]|] eqn:Ep; [|done]. cbn in Er. injection Er as <- <-.
  destruct (after_width_no_count d f) as [Hc Hf]. destruct (parse_width_show d args va l w args1 (after_width d f) Ew Ho1 Hs Hc) as (va1 & Hs1 & Hw & E1).
  destruct (parse_precision_show d args1 va1 p args2 (marks l (d_plus d) (d_space d) (d_hash d) (d_zero d)) w f Ep Ho2 Hs1) as (va2 & Hs2 & Hp & E2).
  exists va2. split; [done|]. unfold parse_dir. rewrite show_dir_app, parse_flags_show by (by apply count_no_flag). rewrite E1. cbn [mbind option_bind]. rewrite E2. cbn [mbind option_bind].
  rewrite parse_length_show. unfold flags_of. cbn [r_left r_plus r_space r_hash r_zero r_width r_prec r_len r_conv]. do 2 f_equal. unfold set. destruct p, (d_len d); by rewrite ?Z.lor_0_r.
Qed.

End parse.

(** ** Numbers *)

Lemma clr_off fl f : on fl f = false -> clr fl f = fl.
Proof.
  unfold on, clr. rewrite negb_false_iff, Z.eqb_eq. intros E. apply Z.bits_inj'. intros n Hn. apply (f_equal (fun z => Z.testbit z n)) in E.
  rewrite Z.land_spec, Z.bits_0 in E. rewrite Z.ldiff_spec. by destruct (Z.testbit fl n), (Z.testbit f n).
Qed.

Lemma on_either fl f g : on fl (Z.lor f g) = on fl f || on fl g.
Proof.
  unfold on. rewrite Z.land_lor_distr_r. destruct (Z.eqb_spec (Z.land fl f) 0) as [->|H1]; cbn [negb orb]; [by rewrite Z.lor_0_l|].
  rewrite (proj2 (Z.eqb_neq _ _)); [done|]. intros [? _]%Z.lor_eq_0_iff. done.
Qed.

Lemma zeros_rev n buf : 0 <= n <= 32 -> zeros n buf = rev (zeros_to n (rev buf)).
Proof.
  intros Hn. unfold zeros, zeros_to, PRINTF_NTOA_BUFFER_SIZE. rewrite rev_app_distr, rev_involutive, rev_replicate, length_rev. do 3 f_equal. lia.
Qed.

Lemma length_zeros_to n w : length (zeros_to n w) = Nat.max (Z.to_nat n) (length w).
Proof. unfold zeros_to. rewrite length_app, length_replicate. lia. Qed.

Lemma numeral_short b up v : 8 <= b <= 16 -> 0 <= v < 2 ^ 64 -> (0 < length (numeral b up v) <= 22)%nat.
Proof.
  intros Hb Hv. pose proof (pow_base_8 b 22 ltac:(lia) ltac:(lia)). rewrite numeral_digits, length_rev by done. split; [cbn [digits length PRINTF_NTOA_BUFFER_SIZE]; lia|].
  apply digits_short; [lia|]. change (Z.of_nat 22) with 22. lia.
Qed.

(** The layout of [_ntoa_format]. *)
Lemma ntoa_buf_layout ds negative b prec width fl : on fl FLAGS_HASH = false -> (length ds <= 22)%nat -> 0 <= prec < 32 -> 0 <= width -> (on fl FLAGS_ZEROPAD = true -> width <= 32) ->
  (on fl FLAGS_LEFT = true -> prec = 0) ->
  let sg := sign_text negative fl in
  let body := zeros_to prec ds in
  let zp := on fl FLAGS_ZEROPAD && negb (on fl FLAGS_LEFT) in
  exists w', ntoa_buf (rev ds) negative b prec width fl = (rev (sg ++ if zp then zeros_to (width - Z.of_nat (length sg)) body else body), w') /\ (zp = false -> w' = width).
Proof.
  intros Hh Hd Hp Hw Hz Hl sg body zp. unfold zp. clear zp. unfold ntoa_buf. rewrite Hh.
  assert (forall X, (length X < PRINTF_NTOA_BUFFER_SIZE)%nat \/ sg = [] -> sign_part negative fl X = rev (sg ++ rev X)) as Hsp.
  { intros X HX. rewrite sign_part_app by done. unfold sg. by rewrite rev_app_distr, rev_involutive, rev_sign. }
  assert (length body <= 31)%nat as Hbody by (unfold body; rewrite length_zeros_to; lia). unfold PRINTF_NTOA_BUFFER_SIZE in *.
  destruct (on fl FLAGS_LEFT) eqn:El; cbn [negb] in *.
  - exists width. rewrite andb_false_r in *. split; [|done]. f_equal. rewrite Hsp by (rewrite length_rev; lia). rewrite rev_involutive. unfold body. rewrite Hl by done. done.
  - rewrite andb_true_r in *. rewrite (zeros_rev prec), rev_involutive by lia. fold body. destruct (on fl FLAGS_ZEROPAD) eqn:Ez.
    2:{ rewrite andb_false_r. cbn [andb]. exists width. split; [|done]. f_equal. rewrite Hsp by (rewrite length_rev; lia). by rewrite rev_involutive. }
    rewrite andb_true_r. assert (length sg = if negative || on fl (FLAGS_PLUS + FLAGS_SPACE) then 1 else 0)%nat as Lsg.
    { unfold sg, sign_text. change (FLAGS_PLUS + FLAGS_SPACE) with (Z.lor FLAGS_PLUS FLAGS_SPACE). rewrite on_either. by destruct negative, (on fl FLAGS_PLUS), (on fl FLAGS_SPACE). }
    set (w' := if negb (width =? 0) && _ then width - 1 else width). assert (Z.to_nat w' = Z.to_nat (width - Z.of_nat (length sg))) as Ew.
    { unfold w'. rewrite Lsg. destruct (Z.eqb_spec width 0), (negative || on fl (FLAGS_PLUS + FLAGS_SPACE)); cbn [negb andb]; lia. }
    specialize (Hz eq_refl). exists w'. split; [|done]. f_equal. rewrite (zeros_rev w'), rev_involutive by (unfold w'; repeat case_match; lia).
    assert (zeros_to w' body = zeros_to (width - Z.of_nat (length sg)) body) as Eb by (unfold zeros_to; by rewrite Ew).
    rewrite Hsp; [by rewrite rev_involutive, Eb|]. rewrite length_rev, length_zeros_to, Ew. destruct sg; [by right|left]. cbn [length] in *. lia.
Qed.

Lemma number_text_layout v negative b prec width fl :
  0 <= v < 2 ^ 64 -> 8 <= b <= 16 -> on fl FLAGS_HASH = false -> 0 <= prec < 32 -> 0 <= width -> (on fl FLAGS_ZEROPAD = true -> width <= 32) -> (on fl FLAGS_LEFT = true -> prec = 0) ->
  let sg := sign_text negative fl in
  let body := zeros_to prec (if on fl FLAGS_PRECISION && (v =? 0) then [] else numeral b (on fl FLAGS_UPPERCASE) v) in
  number_text v negative b prec width fl =
  if on fl FLAGS_ZEROPAD && negb (on fl FLAGS_LEFT) then sg ++ zeros_to (width - Z.of_nat (length sg)) body else field (on fl FLAGS_LEFT) width (sg ++ body).
Proof.
  intros Hv Hb Hh Hp Hw Hz Hl sg body. unfold number_text. assert ((if v =? 0 then clr fl FLAGS_HASH else fl) = fl) as -> by (rewrite clr_off by done; by destruct (v =? 0)). cbv zeta.
  set (ds := if on fl FLAGS_PRECISION && (v =? 0) then [] else numeral b (on fl FLAGS_UPPERCASE) v) in *.
  replace (if negb _ || negb _ then _ else _) with (rev ds).
  2:{ unfold ds. rewrite numeral_digits by done. destruct (on fl FLAGS_PRECISION), (v =? 0); cbn [andb orb negb]; by rewrite ?rev_involutive. }
  assert (length ds <= 22)%nat as Hd by (unfold ds; destruct (_ && _); [cbn; lia|by apply numeral_short]).
  destruct (ntoa_buf_layout ds negative b prec width fl Hh Hd Hp Hw Hz Hl) as (w' & -> & Ew). rewrite rev_involutive. fold sg body.
  destruct (on fl FLAGS_ZEROPAD && negb (on fl FLAGS_LEFT)); [done|]. by rewrite Ew.
Qed.

(** ** Conversions *)

Lemma flags_on r : let fl := flags_of r in
  on fl FLAGS_LEFT = r_left r /\ on fl FLAGS_PLUS = r_plus r /\ on fl FLAGS_SPACE = r_space r /\ on fl FLAGS_HASH = r_hash r /\ on fl FLAGS_ZEROPAD = r_zero r /\
  on fl FLAGS_UPPERCASE = false /\ on fl FLAGS_PRECISION = (if r_prec r then true else false) /\
  (if on fl FLAGS_LONG_LONG || on fl FLAGS_LONG then 64 else if on fl FLAGS_CHAR then 8 else if on fl FLAGS_SHORT then 16 else 32) = bits (r_len r).
Proof. destruct r as [l p s h z w [pr|] len c]; unfold flags_of; cbn [r_left r_plus r_space r_hash r_zero r_prec r_len]; destruct l, p, s, h, z, len; vm_compute; done. Qed.

Lemma on_clr_other fl g f : Z.ldiff f g = f -> on (clr fl g) f = on fl f.
Proof. intros E. by rewrite on_clr, E. Qed.

Lemma on_clr_same fl g f : Z.ldiff f g = 0 -> on (clr fl g) f = false.
Proof. intros E. rewrite on_clr, E. unfold on. by rewrite Z.land_0_r. Qed.

Ltac on_simpl := repeat first [rewrite on_clr_other by reflexivity|rewrite on_clr_same by reflexivity|rewrite on_set_other by reflexivity|rewrite on_set_same by done].

(** The flags that are left for a number. *)
Lemma int_flags_on c fl : is_number c = true -> let fl' := int_flags (show_conv c) fl in
  on fl' FLAGS_LEFT = on fl FLAGS_LEFT /\ on fl' FLAGS_PRECISION = on fl FLAGS_PRECISION /\ on fl' FLAGS_ZEROPAD = on fl FLAGS_ZEROPAD && negb (on fl FLAGS_PRECISION) /\
  on fl' FLAGS_PLUS = signed c && on fl FLAGS_PLUS /\ on fl' FLAGS_SPACE = signed c && on fl FLAGS_SPACE /\
  on fl' FLAGS_UPPERCASE = upper c || on fl FLAGS_UPPERCASE /\ on fl' FLAGS_HASH = negb (base c =? 10) && on fl FLAGS_HASH.
Proof.
  intros Hc fl'. unfold fl', int_flags. destruct c; try discriminate Hc;
    match goal with |- context [int_base ?x] => change (int_base x) with (ltac:(let v := eval vm_compute in (int_base x) in exact v)) end;
    cbn [show_conv signed upper base Z.eqb Pos.eqb negb andb orb];
    repeat match goal with |- context [?a =? ?b] => change (a =? b) with (ltac:(let v := eval vm_compute in (a =? b) in exact v)) end; cbn [orb]; cbv iota zeta; on_simpl;
    destruct (on fl FLAGS_PRECISION) eqn:Ep; on_simpl; rewrite ?Ep; cbn [negb]; rewrite ?andb_true_r, ?andb_false_r; by split_and!.
Qed.

Lemma int_base_show c : is_number c = true -> int_base (show_conv c) = base c /\ is_int (show_conv c) = true /\ ((show_conv c =? ch "d") || (show_conv c =? ch "i")) = signed c.
Proof. by destruct c. Qed.

Lemma int_value_sign (sg : bool) fl a : (int_value sg fl a).2 =
  (if sg then sext (if on fl FLAGS_LONG_LONG || on fl FLAGS_LONG then 64 else if on fl FLAGS_CHAR then 8 else if on fl FLAGS_SHORT then 16 else 32) a <? 0 else false).
Proof. unfold int_value. destruct sg, (on fl FLAGS_LONG_LONG || on fl FLAGS_LONG), (on fl FLAGS_CHAR), (on fl FLAGS_SHORT); reflexivity. Qed.

Lemma int_conversion mem r z f va : is_number (r_conv r) = true -> covered r ->
  conversion_text mem (mk_spec (flags_of r) (r_width r) (default 0 (r_prec r)) (show_conv (r_conv r) :: f) (z :: va)) = Some (int_text r z, va).
Proof.
  intros Hn (Hw & Hp & Hc & _). destruct (Hc Hn) as (Hh & H32 & Hz & Hl). clear Hc. destruct (int_base_show _ Hn) as (Eb & Ei & Es).
  unfold conversion_text. cbn [rest head mbind option_bind flags Printf.args precision width]. rewrite Ei, Es, Eb. cbn [va_arg run mret M_ret result_of mbind option_bind].
  set (fl' := int_flags (show_conv (r_conv r)) (flags_of r)). destruct (flags_on r) as (F1 & F2 & F3 & F4 & F5 & F6 & F7 & F8).
  destruct (int_flags_on (r_conv r) (flags_of r) Hn) as (G1 & G2 & G3 & G4 & G5 & G6 & G7). fold fl' in G1, G2, G3, G4, G5, G6, G7.
  assert ((if on fl' FLAGS_LONG_LONG || on fl' FLAGS_LONG then 64 else if on fl' FLAGS_CHAR then 8 else if on fl' FLAGS_SHORT then 16 else 32) = bits (r_len r)) as Ebits.
  { rewrite <- F8. unfold fl'. by rewrite !int_flags_keep by (cbn; tauto). }
  pose proof (int_value_meaning (signed (r_conv r)) fl' z) as Hm. pose proof (int_value_sign (signed (r_conv r)) fl' z) as Hs. rewrite Ebits in Hm, Hs.
  destruct (int_value (signed (r_conv r)) fl' z) as [v neg]. destruct Hm as [Hv Em]. cbn [snd] in Hs. fold (value r z) in Em. set (x := value r z) in *.
  assert (neg = (x <? 0)) as Eneg.
  { rewrite Hs. unfold x, value. destruct (signed (r_conv r)); [done|]. symmetry. apply Z.ltb_ge. pose proof (wrap_range (bits (r_len r)) z ltac:(destruct (r_len r); cbn; lia)). lia. }
  assert (v = Z.abs x) as -> by (rewrite Eneg in Em; destruct (Z.ltb_spec x 0); lia). clear Hs Em.
  assert (8 <= base (r_conv r) <= 16) as Hb by (destruct (r_conv r); cbn; lia).
  rewrite number_text_layout; [|done|done|rewrite G7, F4; destruct Hh as [->| ->]; by rewrite ?andb_false_r|..].
  2:{ destruct (r_prec r) as [n|] eqn:E; cbn in *; [|lia]. specialize (Hp n eq_refl). lia. }
  2:{ lia. }
  2:{ rewrite G3, F5, andb_true_iff. intros [? _]. by apply Hz. }
  2:{ rewrite G1, F1. intros E. by rewrite Hl. }
  do 2 f_equal. unfold int_text. fold x. rewrite G1, G2, G3, G6, F1, F5, F6, F7, orb_false_r.
  assert (sign_text neg fl' = sign r x) as -> by (unfold sign_text, sign; rewrite Eneg, G4, G5, F2, F3; by destruct (x <? 0), (signed (r_conv r)), (r_plus r), (r_space r)).
  replace (Z.abs x =? 0) with (x =? 0) by (destruct (Z.eqb_spec x 0), (Z.eqb_spec (Z.abs x) 0); lia).
  pose proof (numeral_short (base (r_conv r)) (upper (r_conv r)) (Z.abs x) Hb Hv) as Hlen.
  destruct (r_prec r) as [n|]; cbn [default negb from_option id].
  - rewrite andb_false_r, (bool_decide_false (Some n = None)) by done. rewrite !andb_false_r. cbn [andb]. specialize (Hp n eq_refl).
    destruct (Z.eqb_spec x 0) as [E|E]; cbn [andb]; [|done]. case_bool_decide as E0; [injection E0 as ->; done|].
    assert (n <> 0) by congruence. rewrite E. unfold zeros_to.
    assert (numeral (base (r_conv r)) (upper (r_conv r)) (Z.abs 0) = [ch "0"]) as -> by (by destruct (r_conv r)). cbn [length app]. rewrite app_nil_r, Nat.sub_0_r.
    replace (Z.to_nat n) with (S (Z.to_nat n - 1)) at 1 by lia. by rewrite replicate_S_end.
  - cbn [andb]. rewrite andb_true_r, !(bool_decide_true (None = None)), (bool_decide_false (None = Some 0)), !andb_true_r, andb_false_r by done.
    assert (zeros_to 0 (numeral (base (r_conv r)) (upper (r_conv r)) (Z.abs x)) = numeral (base (r_conv r)) (upper (r_conv r)) (Z.abs x)) as -> by done.
    assert (zeros_to 1 (numeral (base (r_conv r)) (upper (r_conv r)) (Z.abs x)) = numeral (base (r_conv r)) (upper (r_conv r)) (Z.abs x)) as ->; [|done].
    unfold zeros_to. replace (Z.to_nat 1 - _)%nat with 0%nat by lia. done.
Qed.

(** The string of an argument is what the code reads there. *)
Definition holds (mem : gmap Z Z) (p : Z) (w : list Z) : Prop := forall i c, (w ++ [0]) !! i = Some c -> mem !! (p + Z.of_nat i) = Some c.

Lemma holds_size mem p w : holds mem p w -> (length w < size mem)%nat.
Proof.
  intros Hh. assert (list_to_set (seqZ p (Z.of_nat (length w + 1))) ⊆ dom mem) as Hsub.
  { intros x [Hx1 Hx2]%elem_of_list_to_set%elem_of_seqZ. apply elem_of_dom. destruct (lookup_lt_is_Some_2 (w ++ [0]) (Z.to_nat (x - p))) as [c Hc]; [rewrite length_app; cbn; lia|].
    exists c. rewrite <- (Hh _ _ Hc). f_equal. lia. }
  apply subseteq_size in Hsub. rewrite size_dom, size_list_to_set, length_seqZ in Hsub by apply NoDup_seqZ. lia.
Qed.

Lemma cstring_holds mem w : Forall (fun c => c <> 0) w -> forall fuel p lim, (length w < fuel)%nat -> holds mem p w ->
  cstring fuel mem p lim = Some (match lim with None => w | Some n => take n w end).
Proof.
  induction 1 as [|c w Hc Hw IH]; intros [|fuel] p lim Hf Hh; cbn [length] in Hf; try lia; cbn [cstring]; rewrite <- (Z.add_0_r p).
  - rewrite (Hh 0%nat 0 eq_refl : mem !! (p + 0) = _). cbn. destruct lim; by rewrite ?take_nil.
  - rewrite (Hh 0%nat c eq_refl : mem !! (p + 0) = _). cbn [mbind option_bind]. rewrite (proj2 (Z.eqb_neq c 0) Hc).
    assert (holds mem (p + 0 + 1) w) as Hh' by (intros i x Hx; rewrite <- (Hh (S i) x Hx); f_equal; lia).
    destruct lim as [[|n]|]; [done|..]; by rewrite IH by (done || lia).
Qed.

Lemma string_conversion mem r w f s va : r_conv r = C_s -> covered r -> Forall (fun c => c <> 0) w ->
  holds (if u64 s =? 0 then null_mem else mem) (u64 s) w ->
  conversion_text mem (mk_spec (flags_of r) (r_width r) (default 0 (r_prec r)) (show_conv (r_conv r) :: f) (s :: va)) = Some (string_of r w, va).
Proof.
  intros Hc (_ & Hp & _) Hw Hh. rewrite Hc. unfold conversion_text. cbn [rest head mbind option_bind flags Printf.args precision width show_conv].
  change (is_int (ch "s")) with false. change (ch "s" =? ch "c") with false. change (ch "s" =? ch "s") with true. cbv iota. cbn [va_arg run mret M_ret result_of mbind option_bind].
  unfold string_text. pose proof (holds_size _ _ _ Hh). rewrite (cstring_holds _ w Hw) by (done || (unfold fuel_mem; lia)). cbn [mbind option_bind].
  destruct (flags_on r) as (F1 & _ & _ & _ & _ & _ & F7 & _). rewrite F1, F7. do 2 f_equal. unfold string_of. destruct (r_prec r) as [n|]; cbn [default from_option id]; [|done].
  specialize (Hp n eq_refl). destruct (Z.eqb_spec n 0) as [->|]; [done|]. by rewrite take_take, Nat.min_id.
Qed.

Lemma char_conversion mem r z f va : r_conv r = C_c ->
  conversion_text mem (mk_spec (flags_of r) (r_width r) (default 0 (r_prec r)) (show_conv (r_conv r) :: f) (z :: va)) = Some (field (r_left r) (r_width r) [z mod 256], va).
Proof. intros Hc. rewrite Hc. unfold conversion_text. cbn. destruct (flags_on r) as (-> & _). done. Qed.

Lemma conversion_std mem r a s f va : suits (r_conv r) a = true -> covered r -> slot mem a s ->
  conversion_text mem (mk_spec (flags_of r) (r_width r) (default 0 (r_prec r)) (show_conv (r_conv r) :: f) (s :: va)) = Some (conv_text r a, va).
Proof.
  intros Hs Hc Ha. destruct a as [z|w|]; cbn [slot conv_text] in *.
  - subst s. destruct (is_number (r_conv r)) eqn:En; [|destruct (r_conv r) eqn:Ec; try discriminate; rewrite <- Ec; by apply char_conversion].
    rewrite int_conversion by done. by destruct (r_conv r).
  - destruct Ha as (Hp & Hw & Hh). apply string_conversion; [by destruct (r_conv r)|done|done|]. rewrite wrap_small by lia. by rewrite (proj2 (Z.eqb_neq s 0)) by lia.
  - subst s. apply string_conversion; [by destruct (r_conv r)|done|repeat constructor; done|]. change (u64 0 =? 0) with true. change (u64 0) with 0. cbv iota.
    intros i c Hi. do 7 (destruct i as [|i]; [injection Hi as <-; reflexivity|]). done.
Qed.

(** ** Formats *)

Section formats.
Context (mem : gmap Z Z).

Lemma render_std f : forall fuel args va ps, Forall item_ok f -> Forall2 (slot mem) args va -> pieces f args = Some ps -> Forall piece_ok ps -> (length (show f) < fuel)%nat ->
  render_loop fuel mem (show f ++ [0]) va = Some (flat_map piece_text ps).
Proof.
  induction f as [|i f IH]; intros [|fuel] args va ps Hf Hs Hps Hok Hl; try lia; [by injection Hps as <-|].
  apply Forall_cons in Hf as [Hi Hf]. unfold show in Hl |- *. cbn [flat_map] in *. fold (show f) in *. rewrite length_app in Hl. destruct i as [c| |d]; cbn [pieces show_item] in *.
  - destruct Hi as [Hc0 Hc1]. destruct (pieces f args) as [ps'|] eqn:E; [|done]. injection Hps as <-. apply Forall_cons in Hok as [_ Hok]. cbn [app render_loop head mbind option_bind tail].
    rewrite (proj2 (Z.eqb_neq c 0)), (proj2 (Z.eqb_neq c (ch "%"))) by done. cbn [negb]. cbn [length] in Hl. by rewrite (IH fuel args va ps') by (done || lia).
  - destruct (pieces f args) as [ps'|] eqn:E; [|done]. injection Hps as <-. apply Forall_cons in Hok as [_ Hok]. cbn [length str] in Hl.
    transitivity (w ← render_loop fuel mem (show f ++ [0]) va; Some (str "%" ++ w)); [done|]. cbn in Hl. by rewrite (IH fuel args va ps') by (done || lia).
  - destruct (resolve d args) as [[r [|a args']]|] eqn:Er; [done| |done]. cbn [mbind option_bind] in Hps. destruct (suits (r_conv r) a) eqn:Esu; [|done].
    destruct (pieces f args') as [ps'|] eqn:E; [|done]. injection Hps as <-. apply Forall_cons in Hok as [Hr Hok]. cbn [length] in Hl.
    destruct (parse_dir_show mem d args va r (a :: args') (show f ++ [0]) Er Hi Hs) as (va' & Hs' & Ep). apply Forall2_cons_inv_l in Hs' as (s & va2 & Ha & Hs2 & ->).
    rewrite <- app_assoc. cbn [app render_loop head mbind option_bind tail]. change (ch "%" =? 0) with false. change (negb (ch "%" =? ch "%")) with false. cbv iota.
    unfold parse_dir in Ep. destruct (parse_flags 0 (show_dir d ++ show f ++ [0])) as [fl f1]. destruct (run (parse_width fl f1 va)) as [sp1|]; [|done]. cbn [mbind option_bind] in *.
    destruct (run (parse_precision sp1)) as [sp2|]; [|done]. cbn [mbind option_bind] in *. rewrite Ep. cbn [mbind option_bind]. rewrite (conversion_std mem r a s _ va2 Esu Hr Ha). cbn [mbind option_bind rest tail].
    by rewrite (IH fuel args' va2 ps') by (done || lia).
Qed.

End formats.

(** C25. Formats mean what the standard says: for a format of characters and directives
    with flags, width, precision (as numbers or arguments) and length, the formatter
    prints, through any output function, the text that the standard gives, and the
    terminating zero.  Left out are a precision on a number next to [-], [#] on a base
    other than ten, a negative precision argument, and numbers with a precision over
    31 or padded with zeros beyond 32 characters. *)
Theorem vsnprintf_standard {S} (out : Z -> Z -> M S unit) maxlen mem f args va ps s :
  Z.of_nat (size mem) < 2 ^ 32 - 1 -> Forall item_ok f -> Forall2 (slot mem) args va -> pieces f args = Some ps -> Forall piece_ok ps ->
  _vsnprintf out maxlen mem (show f ++ [0]) va s =
  (idx ← emits out (flat_map piece_text ps) 0; _ ← out 0 (if idx <? maxlen then idx else u64 (maxlen - 1)); mret (s32 idx)) s.
Proof.
  intros Hmem Hf Hs Hps Hok. rewrite vsnprintf_text by done. unfold render. rewrite (render_std mem f _ args va ps); try done. rewrite length_app. cbn. lia.
Qed.

(** "%s: %-4d|%+.3d|%*x|%05i%%" *)
Definition num_dir l p s z w pr c : item := Dir (mk_dir l p s false z w pr L_none c).
Definition sample : list item :=
  [num_dir false false false false None None C_s; Text (ch ":"); Text (ch " "); num_dir true false false false (Some (Num 4)) None C_d; Text (ch "|");
   num_dir false true false false None (Some (Num 3)) C_d; Text (ch "|"); num_dir false false false false (Some Star) None C_x; Text (ch "|");
   num_dir false false false true (Some (Num 5)) None C_i; Percent].
Definition sample_args : list arg := [A_str (str "hi"); A_int (-7); A_int 42; A_int (-6); A_int 255; A_int (-12)].

Definition sample_pieces : list piece := Eval vm_compute in default [] (pieces sample sample_args).

Lemma sample_ok : Forall item_ok sample.
Proof. repeat (apply List.Forall_cons; [cbn; first [done|split; [lia|done]|split; [done|lia]|lia]|]). constructor. Qed.

Ltac cover := first [exact I|unfold piece_ok, covered; cbn;
  repeat match goal with
  | |- _ /\ _ => split
  | |- _ \/ _ => left
  | |- forall _, _ => intro
  | H : Some _ = Some _ |- _ => injection H as <-
  | H : _ = _ |- _ => discriminate H
  end; try reflexivity; lia].

Lemma sample_covered : Forall piece_ok sample_pieces.
Proof. repeat (apply List.Forall_cons; [cover|]). constructor. Qed.

Lemma sample_slots : Forall2 (slot hello_mem) sample_args [4096; -7; 42; -6; 255; -12].
Proof.
  repeat (apply List.Forall2_cons; [try reflexivity|]); [|apply List.Forall2_nil]. split_and!; [lia..|repeat constructor; done|].
  intros i c Hi. do 3 (destruct i as [|i]; [injection Hi as <-; reflexivity|]). done.
Qed.

Lemma vsnprintf_standard_witness :
  show sample = str "%s: %-4d|%+.3d|%*x|%05i%%" /\
  _vsnprintf _out_fct 100 hello_mem (show sample ++ [0]) [4096; -7; 42; -6; 255; -12] [] = Done (str "hi: -7  |+042|ff    |-0012%") 27.
Proof.
  split; [vm_compute; reflexivity|].
  rewrite (vsnprintf_standard _out_fct 100 hello_mem sample sample_args _ sample_pieces [] eq_refl sample_ok sample_slots eq_refl sample_covered). vm_compute. reflexivity.
Defined.

(** ** Where the code departs from the standard *)

(** A precision is ignored next to [-]: "%-5.3d" prints 7 and not 007. *)
Lemma printf_left_precision : render ∅ (str "%-5.3d" ++ [0]) [7] = Some (str "7    ").
Proof. vm_compute. reflexivity. Qed.

(** A number as long as the field loses two digits to its prefix: "%#4x". *)
Lemma printf_hash_drops_digits : render ∅ (str "%#4x" ++ [0]) [0x1234] = Some (str "0x34").
Proof. vm_compute. reflexivity. Qed.

(** A negative precision argument counts as 0: "%.*s" with -1 prints nothing. *)
Lemma printf_negative_precision : render {[ 64 := ch "a"; 65 := 0 ]} (str "%.*s" ++ [0]) [-1; 64] = Some [].
Proof. vm_compute. reflexivity. Qed.

End PrintfStd.
