(* ===== verification/Klog.v ===== *)
(** The kernel log ([src/kern/klog.c], [src/drivers/display/serial.c]): messages with the time of day, to the serial
    line, to the terminal and into a queue that programs read through a device.

    Model: what the sinks received and the queue of [Kqueue].  The reading of the
    clock, the outcome of allocations, the answers of the serial port and what the stack
    holds are arguments; the lock makes a call one step. *)
From S2P Require Import Prelude CString Cmdline Kqueue Printf PrintfSpec.
From Stdlib Require Ascii String.
Import Ascii.AsciiSyntax String.StringSyntax.

Module Klog.
Import CString Kqueue Printf PrintfSpec.

Definition LOGDEV_NONE : Z := 0.
Definition LOGDEV_SERIAL : Z := 1.
Definition LOGDEV_TERM : Z := 2.
Definition LOGDEV_BOTH : Z := 3.
Definition LOGSZ : Z := 10240.

Record klog := mk_klog {
  logdev : Z;
  hasdevent : Z;
  devqueue : option kqueue_t;
  serial : list Z; (* bytes sent so far *)
  term : list Z
}.
Definition set_logdev (d : Z) (s : klog) : klog := mk_klog d (hasdevent s) (devqueue s) (serial s) (term s).
Definition set_dev (h : Z) (q : option kqueue_t) (s : klog) : klog := mk_klog (logdev s) h q (serial s) (term s).

(** [uart]: the port is there and gets ready in time for a character, given what was
    sent before. *)
Definition serial_putchar (uart : list Z -> bool) (line : list Z) (c : Z) : list Z :=
  if uart line then line ++ (if c =? 10 then [13; 10] else [c]) else line.
Definition say_serial (uart : list Z -> bool) (w : list Z) (s : klog) : klog :=
  mk_klog (logdev s) (hasdevent s) (devqueue s) (fold_left (serial_putchar uart) w (serial s)) (term s).
Definition say_term (w : list Z) (s : klog) : klog := mk_klog (logdev s) (hasdevent s) (devqueue s) (serial s) (term s ++ w).

(** The bytes read and their number. *)
Definition klog_read (sz : Z) : M klog (list Z * Z) :=
  q ← gets devqueue;
  q ← deref q;
  '(q', ds, n) ← deref (kqueue_dequeue q sz);
  _ ← modify (fun s => set_dev (hasdevent s) (Some q') s);
  mret (ds, n).

Definition kprint_init (alloc : bool) (kcmdline : option (list Z)) : M klog Z :=
  _ ← modify (set_logdev LOGDEV_BOTH);
  dev ← deref (Cmdline.cmdline_get alloc kcmdline (cstr (str "logdev")));
  match dev with
  | None => mret 0
  | Some dev =>
      let isdev name := e ← deref (streq (cstr name) (cstr dev)); mret (negb (e =? 0)) in
      b ← isdev (str "serial"); if b : bool then _ ← modify (set_logdev LOGDEV_SERIAL); mret 0 else
      b ← isdev (str "term"); if b : bool then _ ← modify (set_logdev LOGDEV_TERM); mret 0 else
      b ← isdev (str "both"); if b : bool then _ ← modify (set_logdev LOGDEV_BOTH); mret 0 else
      b ← isdev (str "none"); if b : bool then _ ← modify (set_logdev LOGDEV_NONE); mret 0 else
      mret 0
  end.

(** The answers of the device registry and of the allocation of the queue. *)
Definition kprint_initdev (register regdev : Z) (hdr_ok : bool) (mem : option (list Z)) : M klog Z :=
  _ ← modify (fun s => set_dev (if register <? 0 then -1 else 0) (devqueue s) s);
  if regdev <? 0 then _ ← modify (fun s => set_dev (-1) (devqueue s) s); mret 0 else
  let q := kqueue_init hdr_ok mem LOGSZ in
  _ ← modify (set_dev (match q with Some _ => 1 | None => -1 end) q);
  mret 0.

Definition stamp_format : list Z := str "[%02lu:%02lu:%02lu] " ++ [0].

(** The buffer and the length of the text in it. *)
Definition klog_stamp (cap : Z) (out : list Z) (now : Z) : option (list Z * Z) :=
  let tod := now mod 86400 in
  match vsnprintf false cap ∅ stamp_format [tod / 3600; (tod mod 3600) / 60; tod mod 60] out with
  | Fault => None
  | Done b n => Some (b, n)
  end.

Section print.
Context (alloc : Z -> option (list Z)) (uart : list Z -> bool).

(** [now]: of [gettimeofday]; [stack], [stack']: the buffers of [kvprint] and [vprintf]. *)
Definition kvprint (now : Z) (stack stack' : list Z) (mem : gmap Z Z) (fmt ap : list Z) : M klog Z :=
  '(stamp, stamp_len) ← deref (klog_stamp 16 stack now);
  let stamp_len := if stamp_len <? 0 then 0 else stamp_len in
  s ← get;
  _ ← (if Z.land (logdev s) LOGDEV_SERIAL =? 0 then mret tt else
       match fctprintf mem fmt ap [] with Done w _ => modify (say_serial uart w) | Fault => fault end);
  _ ← (if Z.land (logdev s) LOGDEV_TERM =? 0 then mret tt else
       '(_, w) ← deref (vprintf stack' alloc mem fmt ap); modify (say_term w));
  if negb (hasdevent s =? 1) then mret 0 else
  match devqueue s with
  | None => mret 0
  | Some q =>
      match alloc LOGSZ with
      | None => mret 0
      | Some buf =>
          let buf := splice buf (take (Z.to_nat stamp_len) stamp) 0 in
          match vsnprintf false (u64 (LOGSZ - stamp_len)) mem fmt ap (drop (Z.to_nat stamp_len) buf) with
          | Fault => fault
          | Done b ret =>
              let ret := if LOGSZ - 1 <? s32 (stamp_len + ret) then LOGSZ - 1 - stamp_len else ret in
              '(q', _) ← deref (kqueue_enqueue q (take (Z.to_nat stamp_len) buf ++ b) (u64 (s32 (stamp_len + ret))));
              _ ← modify (fun s => set_dev (hasdevent s) (Some q') s);
              mret ret
          end
      end
  end.
Definition kprint := kvprint.

End print.

(** ** The stamp *)

Definition two (v : Z) : list Z := [48 + v / 10; 48 + v mod 10].

(** [[hh:mm:ss]] and a blank. *)
Definition stamp_text (now : Z) : list Z :=
  let tod := now mod 86400 in
  [ch "["] ++ two (tod / 3600) ++ [ch ":"] ++ two (tod mod 3600 / 60) ++ [ch ":"] ++ two (tod mod 60) ++ str "] ".

(** What [%02lu] says of its field. *)
Definition two_flags : Z := Z.lor FLAGS_ZEROPAD FLAGS_LONG.

Lemma number_two v : 0 <= v < 100 -> number_text (u64 v) false 10 0 2 two_flags = two v.
Proof.
  intros Hv. assert (forallb (fun v => bool_decide (number_text (u64 v) false 10 0 2 two_flags = two v)) (seqZ 0 100) = true) as Ha by (vm_compute; reflexivity).
  rewrite forallb_forall in Ha. specialize (Ha v). apply bool_decide_eq_true in Ha; [done|]. apply list_elem_of_In, elem_of_seqZ. lia.
Qed.

Lemma render_two fuel mem rest v va : 0 <= v < 100 ->
  render_loop (S fuel) mem (str "%02lu" ++ rest) (v :: va) = (w ← render_loop fuel mem rest va; Some (two v ++ w)).
Proof.
  intros Hv. rewrite <- (number_two v Hv).
  with_strategy opaque [number_text wrap] (lazy -[number_text wrap render_loop mbind app]). reflexivity.
Qed.

Lemma render_char fuel mem c rest va : c <> 0 -> c <> ch "%" ->
  render_loop (S fuel) mem (c :: rest) va = (w ← render_loop fuel mem rest va; Some (c :: w)).
Proof. intros H0 Hp. cbn [render_loop]. change (hd_error (c :: rest)) with (Some c). cbn [mbind option_bind]. by rewrite (proj2 (Z.eqb_neq _ _) H0), (proj2 (Z.eqb_neq _ _) Hp). Qed.

Lemma stamp_rendered now : let tod := now mod 86400 in
  render ∅ stamp_format [tod / 3600; (tod mod 3600) / 60; tod mod 60] = Some (stamp_text now).
Proof.
  intros tod. assert (0 <= tod < 86400) as Ht by (apply Z.mod_pos_bound; lia).
  assert (0 <= tod / 3600 < 100 /\ 0 <= tod mod 3600 / 60 < 100 /\ 0 <= tod mod 60 < 100) as (H1 & H2 & H3)
    by (Z.to_euclidean_division_equations; lia).
  unfold render, stamp_format. change (str "[%02lu:%02lu:%02lu] " ++ [0]) with
    (ch "[" :: str "%02lu" ++ ch ":" :: str "%02lu" ++ ch ":" :: str "%02lu" ++ ch "]" :: ch " " :: [0]).
  change (S (length _)) with 22%nat. rewrite render_char, render_two by done.
  rewrite render_char, render_two by done. rewrite render_char, render_two by done. rewrite !render_char by done. reflexivity.
Qed.

Lemma length_stamp now : length (stamp_text now) = 11%nat.
Proof. reflexivity. Qed.

Lemma klog_stamp_done now out : Z.of_nat (length out) = 16 ->
  klog_stamp 16 out now = Some (stamp_text now ++ 0 :: drop 12 out, 11).
Proof.
  intros Ho. unfold klog_stamp. cbv zeta. rewrite (vsnprintf_cut 16 ∅ stamp_format _ (stamp_text now) out).
  - rewrite length_stamp. change (Nat.min 11 (Z.to_nat 16 - 1)) with 11%nat. change 12%nat with (S 11). rewrite <- (length_stamp now) at 1. by rewrite firstn_all.
  - by rewrite map_size_empty.
  - apply stamp_rendered.
  - rewrite length_stamp. lia.
  - lia.
  - lia.
Qed.

(** ** Messages *)

(** Zeros in a text do not reach the serial line. *)
Definition visible (w : list Z) : list Z := filter (fun c => c <> 0) w.

Lemma emits_fct w : forall idx s, 0 <= idx -> idx + Z.of_nat (length w) < 2 ^ 64 ->
  emits _out_fct w idx s = Done (s ++ visible w) (idx + Z.of_nat (length w)).
Proof.
  induction w as [|c w IH]; intros idx s Hi Hw; cbn [emits length] in *.
  { unfold mret, M_ret, visible. rewrite filter_nil, app_nil_r. f_equal. lia. }
  assert (emit _out_fct c idx s = Done (s ++ visible [c]) (idx + 1)) as E.
  { unfold emit, _out_fct, mbind, M_bind, mret, M_ret, modify, visible. rewrite wrap_small by lia.
    destruct (Z.eqb_spec c 0) as [->|Hc]; cbn [negb]; [by rewrite filter_cons_False, filter_nil, app_nil_r by lia|].
    by rewrite filter_cons_True, filter_nil. }
  rewrite (bind_done _ _ _ _ _ E), IH by lia. unfold visible. change (c :: w) with ([c] ++ w). rewrite filter_app, app_assoc. f_equal. lia.
Qed.

Lemma serial_text mem fmt ap w s : Z.of_nat (size mem) < 2 ^ 32 - 1 -> render mem fmt ap = Some w -> Z.of_nat (length w) < 2 ^ 31 ->
  fctprintf mem fmt ap s = Done (s ++ visible w) (Z.of_nat (length w)).
Proof.
  intros Hm Hr Hw. unfold fctprintf. rewrite vsnprintf_text, Hr by done. rewrite (bind_done _ _ _ _ _ (emits_fct w 0 s ltac:(lia) ltac:(lia))).
  unfold _out_fct, mbind, M_bind, mret, M_ret. cbn [Z.eqb negb]. by rewrite sext_small by lia.
Qed.

Section messages.
Context (alloc : Z -> option (list Z)) (uart : list Z -> bool).
Hypothesis alloc_size : forall n b, alloc n = Some b -> Z.of_nat (length b) = n.

(** What the terminal shows of a text: all of it, unless it needs a buffer. *)
Definition shown (w : list Z) : list Z :=
  if decide (length w < 512)%nat then w else if alloc (Z.of_nat (length w) + 1) then w else [].

(** The sinks selected get the text. *)
Definition said (w : list Z) (s : klog) : klog :=
  let s := if Z.land (logdev s) LOGDEV_SERIAL =? 0 then s else say_serial uart (visible w) s in
  if Z.land (logdev s) LOGDEV_TERM =? 0 then s else say_term (shown w) s.

(** A message of the log: the time and the text, as far as the buffer goes. *)
Definition ROOM : nat := Z.to_nat (LOGSZ - 11) - 1.
Definition message (now : Z) (w : list Z) : list Z := stamp_text now ++ take ROOM w.

Lemma buffer_message now w mem fmt ap buf stamp : Z.of_nat (size mem) < 2 ^ 32 - 1 -> render mem fmt ap = Some w ->
  Z.of_nat (length w) < 2 ^ 31 - 12 -> Z.of_nat (length buf) = LOGSZ -> take 11 stamp = stamp_text now ->
  let b := splice buf (take 11 stamp) 0 in
  exists rest, vsnprintf false (u64 (LOGSZ - 11)) mem fmt ap (drop 11 b) = Done (take ROOM w ++ rest) (Z.of_nat (length w)) /\ take 11 b = stamp_text now.
Proof.
  intros Hm Hr Hw Hb Hs b. unfold b, splice. rewrite Hs, take_0. cbn [app]. rewrite length_stamp. change (0 + 11)%nat with 11%nat.
  rewrite drop_app_length', take_app_length' by apply (length_stamp now). rewrite (vsnprintf_cut _ mem fmt ap w).
  - rewrite wrap_small by (unfold LOGSZ; lia). replace (Z.to_nat (LOGSZ - 11) - 1)%nat with ROOM by reflexivity.
    eexists. split; [|done]. do 2 f_equal. destruct (Nat.le_ge_cases (length w) ROOM).
    + rewrite Nat.min_l by lia. by rewrite !take_ge by lia.
    + by rewrite Nat.min_r by lia.
  - done.
  - done.
  - lia.
  - rewrite wrap_small, length_drop by (unfold LOGSZ; lia). unfold LOGSZ in *. lia.
  - rewrite wrap_small by (unfold LOGSZ; lia). unfold LOGSZ. lia.
Qed.

(** C28. A message reaches the sinks that were selected, the serial line with a carriage
    return before each line feed; and once the device, its queue and the buffer of the
    call are there, the log gets the time and the text behind what it held, cut to that
    buffer and to the room in the queue, a ring as [kqueue_init] makes it. *)
Theorem kvprint_logs now stack stack' mem fmt ap w q buf s :
  Z.of_nat (size mem) < 2 ^ 32 - 1 -> render mem fmt ap = Some w -> Z.of_nat (length w) < 2 ^ 31 - 12 ->
  length stack = 16%nat -> length stack' = 512%nat -> hasdevent s = 1 -> devqueue s = Some q -> kq_ring q -> alloc LOGSZ = Some buf ->
  exists q', kvprint alloc uart now stack stack' mem fmt ap s = Done (set_dev 1 (Some q') (said w s)) (Z.of_nat (length (message now w)) - 11) /\
    kq_ring q' /\ sz q' = sz q /\
    contents q' = contents q ++ take (Z.to_nat (sz q - cnt q)) (message now w).
Proof.
  intros Hm Hr Hw Hst Hst' Hh Hq Hring Hb. pose proof (alloc_size _ _ Hb) as Hbl. unfold kvprint.
  rewrite klog_stamp_done, bind_deref by lia. cbn [Z.ltb Z.compare Pos.compare Pos.compare_cont].
  rewrite (serial_text mem fmt ap w []) by (done || lia).
  destruct (printf_writes_text stack' alloc mem fmt ap w Hm Hr ltac:(lia) Hst' alloc_size) as [_ ->]. fold (shown w).
  rewrite (bind_done get _ s s s eq_refl).
  set (s1 := if Z.land (logdev s) LOGDEV_SERIAL =? 0 then s else say_serial uart (visible w) s).
  rewrite (bind_done _ _ s s1 tt) by (unfold s1; by destruct (Z.land (logdev s) LOGDEV_SERIAL =? 0)).
  assert (logdev s1 = logdev s /\ hasdevent (said w s) = 1) as [E1 E2] by (unfold said, s1; cbn zeta; repeat case_match; done).
  rewrite (bind_done _ _ s1 (said w s) tt) by (unfold said; fold s1; cbn zeta; rewrite E1; by destruct (Z.land (logdev s) LOGDEV_TERM =? 0)).
  rewrite Hh, Hq, Hb. cbn [Z.eqb Pos.eqb negb]. change (Z.to_nat 11) with 11%nat.
  destruct (buffer_message now w mem fmt ap buf (stamp_text now ++ 0 :: drop 12 stack) Hm Hr Hw Hbl) as (rest & Ev & Et); [by apply take_app_length'|].
  cbv zeta. rewrite Ev, Et. rewrite (sext_small 32 (11 + Z.of_nat (length w))) by lia.
  assert ((if LOGSZ - 1 <? 11 + Z.of_nat (length w) then LOGSZ - 1 - 11 else Z.of_nat (length w)) = Z.of_nat (length (take ROOM w))) as ->.
  { rewrite length_take. unfold ROOM, LOGSZ. destruct (Z.ltb_spec (10240 - 1) (11 + Z.of_nat (length w))); lia. }
  assert (Z.of_nat (length (take ROOM w)) < 10240) as Hlt by (rewrite length_take; unfold ROOM, LOGSZ; lia).
  assert (Z.of_nat (length (message now w)) = 11 + Z.of_nat (length (take ROOM w))) as El by (unfold message; rewrite length_app, length_stamp; lia).
  rewrite sext_small, wrap_small, <- El by lia. replace (stamp_text now ++ take ROOM w ++ rest) with (message now w ++ rest) by (unfold message; by rewrite <- app_assoc).
  rewrite kqueue_enqueue_rest by (done || lia). destruct (kqueue_enqueue_appends q (message now w) Hring) as (q' & Eq & Hr' & Hsz & Hc).
  rewrite Eq, bind_deref, bind_modify. cbn beta iota. rewrite E2. exists q'. split_and!; [unfold mret, M_ret; f_equal; lia|done|done|].
  rewrite Hc. f_equal. destruct Hring as (_ & _ & _ & Hcnt & _). destruct (Z.le_ge_cases (Z.of_nat (length (message now w))) (sz q - cnt q)).
  - rewrite Z.min_l, Nat2Z.id, !take_ge by lia. done.
  - by rewrite Z.min_r by lia.
Qed.

End messages.

Definition alloc_all (n : Z) : option (list Z) := if 0 <=? n then Some (replicate (Z.to_nat n) 0) else None.
Definition klog0 : klog := mk_klog LOGDEV_BOTH 1 (Some (mk_kqueue ([65] ++ replicate 63 0) 64 1 0 1)) [] [].

Lemma kvprint_logs_witness : exists q',
  kvprint alloc_all (fun _ => true) 90061 (replicate 16 0) (replicate 512 0) ∅ (str "hi" ++ [10; 0]) [] klog0
    = Done (mk_klog LOGDEV_BOTH 1 (Some q') (str "hi" ++ [13; 10]) (str "hi" ++ [10])) 3 /\
  contents q' = str "A[01:01:01] hi" ++ [10].
Proof.
  destruct (kvprint_logs alloc_all (fun _ => true) ltac:(intros n b; unfold alloc_all; destruct (Z.leb_spec 0 n); intros [= <-]; rewrite length_replicate; lia)
    90061 (replicate 16 0) (replicate 512 0) ∅ (str "hi" ++ [10; 0]) [] (str "hi" ++ [10]) (mk_kqueue ([65] ++ replicate 63 0) 64 1 0 1)
    (replicate (Z.to_nat LOGSZ) 0) klog0) as (q' & E & _ & _ & Hc); [vm_compute; reflexivity..| |reflexivity|].
  - unfold kq_ring. vm_compute. intuition discriminate.
  - exists q'. split; [exact E|]. rewrite Hc. vm_compute. reflexivity.
Defined.

(** The command line selects the sinks. *)
Lemma kprint_init_serial : kprint_init true (Some (cstr (str "quiet logdev=serial"))) klog0 = Done (set_logdev LOGDEV_SERIAL klog0) 0.
Proof. vm_compute. reflexivity. Qed.

End Klog.
