(* ===== verification/Heap.v ===== *)
(** The kernel heap: [src/kern/mem/liballoc.c] over the page hooks of
    [src/kern/mem/liballoc_host.c].

    Memory is typed: at an address there is a boundary tag (48 bytes) or a data
    byte.  Writing one destroys whatever overlapped it, so that damage to the
    data of a caller is visible.  Reading where there is no tag faults.  The page
    hooks are parameters.  Locks have no effect in the model. *)
From S2P Require Import Prelude.

Module Heap.

Definition LIBALLOC_MAGIC : Z := 0xc001c0de.
Definition MAXCOMPLETE : Z := 5.
Definition MAXEXP : nat := 32.
Notation MINEXP := 8 (only parsing).
Definition MODE : Z := 0.
Definition l_pageSize : Z := 4096.
Definition l_pageCount : Z := 16.

Record boundary_tag := mk_tag {
  magic : Z;       (* u32 *)
  size : Z;        (* u32 *)
  real_size : Z;   (* u32 *)
  index : Z;       (* int *)
  split_left : Z;
  split_right : Z;
  next : Z;
  prev : Z
}.

(** [sizeof(struct boundary_tag)] *)
Notation TAGSZ := 48 (only parsing).

Definition set_size (z : Z) (t : boundary_tag) : boundary_tag :=
  mk_tag (magic t) (u32 z) (real_size t) (index t) (split_left t) (split_right t) (next t) (prev t).
Definition set_real (z : Z) (t : boundary_tag) : boundary_tag :=
  mk_tag (magic t) (size t) (u32 z) (index t) (split_left t) (split_right t) (next t) (prev t).
Definition set_index (z : Z) (t : boundary_tag) : boundary_tag :=
  mk_tag (magic t) (size t) (real_size t) z (split_left t) (split_right t) (next t) (prev t).
Definition set_left (z : Z) (t : boundary_tag) : boundary_tag :=
  mk_tag (magic t) (size t) (real_size t) (index t) z (split_right t) (next t) (prev t).
Definition set_right (z : Z) (t : boundary_tag) : boundary_tag :=
  mk_tag (magic t) (size t) (real_size t) (index t) (split_left t) z (next t) (prev t).
Definition set_next (z : Z) (t : boundary_tag) : boundary_tag :=
  mk_tag (magic t) (size t) (real_size t) (index t) (split_left t) (split_right t) z (prev t).
Definition set_prev (z : Z) (t : boundary_tag) : boundary_tag :=
  mk_tag (magic t) (size t) (real_size t) (index t) (split_left t) (split_right t) (next t) z.

(** [P] is the state behind the page hooks. *)
Record hst (P : Type) := mk_hst {
  tags : gmap Z boundary_tag;
  bytes : gmap Z Z;
  l_freePages : list Z;
  l_completePages : list Z;
  l_initialized : bool;
  src : P
}.
Arguments mk_hst {P}.
Arguments tags {P}.
Arguments bytes {P}.
Arguments l_freePages {P}.
Arguments l_completePages {P}.
Arguments l_initialized {P}.
Arguments src {P}.

Section heap.
Context {P : Type} (liballoc_alloc : Z -> M P Z) (liballoc_free : Z -> Z -> M P Z).
Implicit Types (s : hst P).
Notation MH := (M (hst P)).

(** ** Memory *)

Definition set_mem (t : gmap Z boundary_tag) (b : gmap Z Z) s : hst P :=
  mk_hst t b (l_freePages s) (l_completePages s) (l_initialized s) (src s).
Definition set_free (l : list Z) s : hst P :=
  mk_hst (tags s) (bytes s) l (l_completePages s) (l_initialized s) (src s).
Definition set_complete (l : list Z) s : hst P :=
  mk_hst (tags s) (bytes s) (l_freePages s) l (l_initialized s) (src s).

Definition onsrc {A} (m : M P A) : MH A := fun s =>
  match m (src s) with
  | Done p a => Done (mk_hst (tags s) (bytes s) (l_freePages s) (l_completePages s) (l_initialized s) p) a
  | Fault => Fault
  end.

(** Tags that do not overlap [[a, a + n)], and bytes outside it. *)
Definition tags_off (a n : Z) (m : gmap Z boundary_tag) : gmap Z boundary_tag :=
  filter (fun kt => kt.1 + TAGSZ <= a \/ a + n <= kt.1) m.
Definition bytes_off (a n : Z) (m : gmap Z Z) : gmap Z Z := filter (fun kb => kb.1 < a \/ a + n <= kb.1) m.

(** Pages come with unknown content and leave with what they held. *)
Definition remap (a n : Z) : MH unit := modify (fun s => set_mem (tags_off a n (tags s)) (bytes_off a n (bytes s)) s).

Definition get_tag (a : Z) : MH boundary_tag := s ← get; deref (tags s !! a).
Definition put_tag (a : Z) (t : boundary_tag) : MH unit :=
  modify (fun s => set_mem (<[a := t]> (tags_off a TAGSZ (tags s))) (bytes_off a TAGSZ (bytes s)) s).
Definition upd_tag (a : Z) (f : boundary_tag -> boundary_tag) : MH unit := t ← get_tag a; put_tag a (f t).

Definition get_head (i : Z) : MH Z := s ← get; deref (aget (l_freePages s) i).
Definition put_head (i a : Z) : MH unit := s ← get; l ← deref (aset (l_freePages s) i a); put (set_free l s).
Definition get_complete (i : Z) : MH Z := s ← get; deref (aget (l_completePages s) i).
Definition put_complete (i c : Z) : MH unit :=
  s ← get; l ← deref (aset (l_completePages s) i (s32 c)); put (set_complete l s).

(** ** Helpers *)

(** The loop counts [shift] up to [MAXEXP]. *)
Fixpoint exp_loop (fuel : nat) (shift sz : Z) : Z :=
  match fuel with
  | O => shift
  | S fuel' => if sz <? 2 ^ shift then shift else exp_loop fuel' (shift + 1) sz
  end.

Definition getexp (sz : Z) : Z :=
  if sz <? 2 ^ MINEXP then -1 else exp_loop (MAXEXP - 8) MINEXP sz - 1.

Definition insert_tag (tag idx : Z) : MH unit :=
  t ← get_tag tag;
  let realIndex := if idx <? 0 then Z.max MINEXP (getexp (u32 (real_size t - TAGSZ))) else idx in
  _ ← upd_tag tag (set_index realIndex);
  h ← get_head realIndex;
  _ ← (if h =? 0 then mret tt else _ ← upd_tag h (set_prev tag); upd_tag tag (set_next h));
  put_head realIndex tag.

Definition remove_tag (tag : Z) : MH unit :=
  t ← get_tag tag;
  h ← get_head (index t);
  _ ← (if h =? tag then put_head (index t) (next t) else mret tt);
  _ ← (if prev t =? 0 then mret tt else upd_tag (prev t) (set_next (next t)));
  _ ← (if next t =? 0 then mret tt else upd_tag (next t) (set_prev (prev t)));
  upd_tag tag (fun t => set_index (-1) (set_prev 0 (set_next 0 t))).

Definition melt_left (tag : Z) : MH Z :=
  t ← get_tag tag;
  let left := split_left t in
  l ← get_tag left;
  _ ← put_tag left (set_right (split_right t) (set_real (real_size l + real_size t) l));
  _ ← (if split_right t =? 0 then mret tt else upd_tag (split_right t) (set_left left));
  mret left.

Definition absorb_right (tag : Z) : MH Z :=
  t ← get_tag tag;
  let right := split_right t in
  _ ← remove_tag right;
  r ← get_tag right;
  _ ← upd_tag tag (fun t => set_right (split_right r) (set_real (real_size t + real_size r) t));
  _ ← (if split_right r =? 0 then mret tt else upd_tag (split_right r) (set_left tag));
  mret tag.

(** The fields that the code leaves alone keep what memory held: [size] and
    [index] of the new tag are arbitrary. *)
Definition split_tag (junk_size junk_index tag : Z) : MH Z :=
  t ← get_tag tag;
  let remainder := u32 (real_size t - TAGSZ - size t) in
  let new_tag := u64 (tag + TAGSZ + size t) in
  _ ← put_tag new_tag (mk_tag LIBALLOC_MAGIC junk_size remainder junk_index tag (split_right t) 0 0);
  _ ← (if split_right t =? 0 then mret tt else upd_tag (split_right t) (set_left new_tag));
  _ ← upd_tag tag (fun t => set_real (real_size t - remainder) (set_right new_tag t));
  _ ← insert_tag new_tag (-1);
  mret new_tag.

Definition pages_for (usage : Z) : Z :=
  let pages := usage / l_pageSize + (if usage mod l_pageSize =? 0 then 0 else 1) in Z.max pages l_pageCount.

Definition allocate_new_tag (sz : Z) : MH Z :=
  let pages := pages_for (u32 (sz + TAGSZ)) in
  tag ← onsrc (liballoc_alloc (s32 pages));
  if tag =? 0 then mret 0 else
  _ ← remap tag (pages * l_pageSize);
  _ ← put_tag tag (mk_tag LIBALLOC_MAGIC sz (u32 (pages * l_pageSize)) (-1) 0 0 0 0);
  mret tag.

(** ** Allocation and release *)

(** The list from [t] on.  A list has no more tags than there are. *)
Fixpoint find_in (fuel : nat) (t need : Z) : MH Z :=
  if t =? 0 then mret 0 else
  match fuel with
  | O => fault
  | S fuel' =>
      b ← get_tag t;
      if need <=? u64 (real_size b - TAGSZ) then mret t else find_in fuel' (next b) need
  end.

(** Buckets [i], ... in turn: the tag and its bucket. *)
Fixpoint search (cnt : nat) (i need : Z) : MH (Z * Z) :=
  match cnt with
  | O => mret (0, i)
  | S cnt' =>
      h ← get_head i;
      s ← get;
      t ← find_in (base.size (tags s)) h need;
      if negb (t =? 0) then mret (t, i) else search cnt' (i + 1) need
  end.

Definition init_lists : MH unit :=
  s ← get;
  if l_initialized s then mret tt else
  put (mk_hst (tags s) (bytes s) (replicate MAXEXP 0) (replicate MAXEXP 0) true (src s)).

(** Take the tag out of its bucket; a whole run is no longer complete. *)
Definition take_found (tag i : Z) : MH unit :=
  _ ← remove_tag tag;
  t ← get_tag tag;
  if (split_left t =? 0) && (split_right t =? 0) then c ← get_complete i; put_complete i (c - 1) else mret tt.

Definition malloc (junk_size junk_index sz : Z) : MH Z :=
  _ ← init_lists;
  let idx := Z.max MINEXP (getexp (u32 sz) + MODE) in
  ti ← search (MAXEXP - Z.to_nat idx) idx (u64 (sz + TAGSZ));
  tag ← (if ti.1 =? 0 then allocate_new_tag (u32 sz) else _ ← take_found ti.1 ti.2; mret ti.1);
  if tag =? 0 then mret 0 else
  _ ← upd_tag tag (set_size sz);
  t ← get_tag tag;
  let remainder := u32 (real_size t - sz - TAGSZ * 2) in
  _ ← (if (0 <? s32 remainder) && (0 <=? getexp remainder) then split_tag junk_size junk_index tag else mret tag);
  mret (u64 (tag + TAGSZ)).

(** A merge leaves one tag less: no more rounds than there are tags. *)
Fixpoint melt_left_loop (fuel : nat) (tag : Z) : MH Z :=
  t ← get_tag tag;
  if split_left t =? 0 then mret tag else
  l ← get_tag (split_left t);
  if index l <? 0 then mret tag else
  match fuel with
  | O => fault
  | S fuel' => tag' ← melt_left tag; _ ← remove_tag tag'; melt_left_loop fuel' tag'
  end.

Fixpoint melt_right_loop (fuel : nat) (tag : Z) : MH Z :=
  t ← get_tag tag;
  if split_right t =? 0 then mret tag else
  r ← get_tag (split_right t);
  if index r <? 0 then mret tag else
  match fuel with
  | O => fault
  | S fuel' => tag' ← absorb_right tag; melt_right_loop fuel' tag'
  end.

Definition free (ptr : Z) : MH unit :=
  if ptr =? 0 then mret tt else
  let tag := u64 (ptr - TAGSZ) in
  t ← get_tag tag;
  if negb (magic t =? LIBALLOC_MAGIC) then mret tt else
  s ← get;
  let fuel := base.size (tags s) in
  tag ← melt_left_loop fuel tag;
  tag ← melt_right_loop fuel tag;
  t ← get_tag tag;
  let idx := Z.max MINEXP (getexp (u32 (real_size t - TAGSZ))) in
  if (split_left t =? 0) && (split_right t =? 0) then
    c ← get_complete idx;
    if c =? MAXCOMPLETE then
      let pages := pages_for (real_size t) in
      _ ← onsrc (liballoc_free tag (s32 pages));
      remap tag (pages * l_pageSize)
    else _ ← put_complete idx (c + 1); insert_tag tag idx
  else insert_tag tag idx.

(** ** Data *)

(** A byte, or memory that was never written. *)
Definition get_byte (a : Z) : MH (option Z) := gets (fun s => bytes s !! a).
Definition put_byte (a : Z) (o : option Z) : MH unit :=
  if a =? 0 then fault else
  modify (fun s => set_mem (tags_off a 1 (tags s))
    (match o with Some b => <[a := b]> (bytes s) | None => delete a (bytes s) end) s).

Fixpoint memset_loop (n : nat) (a c : Z) : MH unit :=
  match n with
  | O => mret tt
  | S n' => _ ← put_byte a (Some (u8 c)); memset_loop n' (a + 1) c
  end.

(** [n] words of four bytes and then bytes; a word is read before it is written. *)
Fixpoint copy_bytes (n : nat) (d s : Z) : MH unit :=
  match n with
  | O => mret tt
  | S n' => b ← get_byte s; _ ← put_byte d b; copy_bytes n' (d + 1) (s + 1)
  end.
Fixpoint copy_words (n : nat) (d s : Z) : MH unit :=
  match n with
  | O => mret tt
  | S n' =>
      b0 ← get_byte s; b1 ← get_byte (s + 1); b2 ← get_byte (s + 2); b3 ← get_byte (s + 3);
      _ ← put_byte d b0; _ ← put_byte (d + 1) b1; _ ← put_byte (d + 2) b2; _ ← put_byte (d + 3) b3;
      copy_words n' (d + 4) (s + 4)
  end.
Definition liballoc_memcpy (d s n : Z) : MH unit :=
  _ ← copy_words (Z.to_nat (n / 4)) d s;
  copy_bytes (Z.to_nat (n mod 4)) (d + n / 4 * 4) (s + n / 4 * 4).

Definition calloc (junk_size junk_index nobj sz : Z) : MH Z :=
  let real := s32 (nobj * sz) in
  p ← malloc junk_size junk_index (u64 real);
  _ ← memset_loop (Z.to_nat (u64 real)) p 0;
  mret p.

Definition realloc (junk_size junk_index p sz : Z) : MH Z :=
  if sz =? 0 then _ ← free p; mret 0 else
  if p =? 0 then malloc junk_size junk_index sz else
  t ← get_tag (u64 (p - TAGSZ));
  let real := if sz <? size t then sz else size t in
  ptr ← malloc junk_size junk_index sz;
  _ ← liballoc_memcpy ptr p real;
  _ ← free p;
  mret ptr.

End heap.

End Heap.
