(* ===== verification/HeapInv.v ===== *)
(** The structure of the kernel heap, on maps: tags tile the runs of pages they
    come from ([spatial]), and the free ones are on doubly linked lists
    ([lists_ok]).  One lemma per change that [Heap] makes: merge, split, a new
    run, a run given back; remove from and push on a list. *)
From S2P Require Import Prelude.

Module HeapInv.

Notation TAG := 48.

(** ** Tags in memory *)

(** Size, left and right neighbour of each tag; runs of pages: base and count. *)
Notation smap := (gmap Z (Z * Z * Z)).
Notation runs := (gmap Z Z).

Record runs_ok (G : runs) : Prop := mk_runs {
  run_size b n : G !! b = Some n -> 0 < b /\ 0 < n /\ 4096 * n < 2 ^ 32 /\ b + 4096 * n < 2 ^ 64;
  run_apart b n b' n' : G !! b = Some n -> G !! b' = Some n' -> b <> b' -> b + 4096 * n <= b' \/ b' + 4096 * n' <= b
}.

(** [a] lies in run [b]; it has no left neighbour exactly at the start and no
    right one exactly at the end. *)
Definition in_run (G : runs) (a r l x : Z) : Prop :=
  exists b n, G !! b = Some n /\ b <= a /\ a + r <= b + 4096 * n /\
    (l = 0 <-> a = b) /\ (x = 0 <-> a + r = b + 4096 * n).

Record spatial (G : runs) (m : smap) : Prop := mk_spatial {
  sp_min a r l x : m !! a = Some (r, l, x) -> TAG <= r;
  sp_disj a r l x b r' l' x' :
    m !! a = Some (r, l, x) -> m !! b = Some (r', l', x') -> a <> b -> a + r <= b \/ b + r' <= a;
  sp_right a r l x : m !! a = Some (r, l, x) -> x <> 0 -> x = a + r /\ exists r' l' x', m !! x = Some (r', l', x');
  sp_left a r l x : m !! a = Some (r, l, x) -> l <> 0 -> exists r' l' x', m !! l = Some (r', l', x') /\ l + r' = a;
  sp_run a r l x : m !! a = Some (r, l, x) -> in_run G a r l x
}.

Section spatial.
Context (G : runs) (HG : runs_ok G).

Lemma spatial_range m a r l x :
  spatial G m -> m !! a = Some (r, l, x) -> 0 < a /\ TAG <= r < 2 ^ 32 /\ a + r < 2 ^ 64.
Proof.
  intros Hs Ha. destruct (sp_run _ _ Hs a r l x Ha) as (b & n & Hb & H1 & H2 & _).
  pose proof (run_size _ HG b n Hb). pose proof (sp_min _ _ Hs _ _ _ _ Ha). lia.
Qed.

(** Tags that meet, the second with a left neighbour, are in the same run. *)
Lemma same_run a ra la xa b rb lb xb :
  TAG <= ra -> TAG <= rb -> b = a + ra -> lb <> 0 -> in_run G a ra la xa -> in_run G b rb lb xb ->
  in_run G a (ra + rb) la xb.
Proof.
  intros Hra Hrb -> Hlb (b0 & n0 & G0 & A1 & A2 & A3 & A4) (b1 & n1 & G1 & B1 & B2 & B3 & B4).
  assert (b0 = b1) as <-.
  { destruct (decide (b0 = b1)) as [|Hne]; [done|]. destruct (run_apart _ HG _ _ _ _ G0 G1 Hne); lia. }
  assert (n1 = n0) as -> by congruence. exists b0, n0. split_and!; try done; [lia|]. rewrite B4. lia.
Qed.

(** The neighbour on the right has the tag as its left neighbour, and the other
    way round. *)
Lemma left_of_right m a r l x r' l' x' :
  spatial G m -> m !! a = Some (r, l, x) -> x <> 0 -> m !! x = Some (r', l', x') -> l' = a.
Proof.
  intros Hs Ha Hx Hx'. destruct (sp_right _ _ Hs _ _ _ _ Ha Hx) as [-> _].
  pose proof (sp_min _ _ Hs _ _ _ _ Ha) as Ma. pose proof (sp_min _ _ Hs _ _ _ _ Hx') as Mx.
  destruct (decide (l' = 0)) as [->|Hl'].
  - destruct (sp_run _ _ Hs _ _ _ _ Ha) as (b0 & n0 & G0 & A1 & A2 & A3 & A4).
    destruct (sp_run _ _ Hs _ _ _ _ Hx') as (b1 & n1 & G1 & B1 & B2 & B3 & B4).
    destruct (decide (b0 = b1)) as [->|Hne]; [lia|]. destruct (run_apart _ HG _ _ _ _ G0 G1 Hne); lia.
  - destruct (sp_left _ _ Hs _ _ _ _ Hx' Hl') as (r2 & l2 & x2 & E & Hsum). pose proof (sp_min _ _ Hs _ _ _ _ E).
    destruct (decide (l' = a)) as [|Hne]; [done|]. pose proof (sp_disj _ _ Hs _ _ _ _ _ _ _ _ Ha E ltac:(done)). lia.
Qed.

Lemma right_of_left m a r l x r' l' x' :
  spatial G m -> m !! a = Some (r, l, x) -> l <> 0 -> m !! l = Some (r', l', x') -> x' = a /\ l + r' = a.
Proof.
  intros Hs Ha Hl Hl'. destruct (sp_left _ _ Hs _ _ _ _ Ha Hl) as (r2 & l2 & x2 & E & Hsum). rewrite Hl' in E. injection E as <- <- <-. split; [|done].
  pose proof (sp_min _ _ Hs _ _ _ _ Ha). pose proof (sp_min _ _ Hs _ _ _ _ Hl'). destruct (decide (x' = 0)) as [->|Hx'].
  - destruct (sp_run _ _ Hs _ _ _ _ Ha) as (b0 & n0 & G0 & A1 & A2 & A3 & A4).
    destruct (sp_run _ _ Hs _ _ _ _ Hl') as (b1 & n1 & G1 & B1 & B2 & B3 & B4).
    destruct (decide (b0 = b1)) as [->|Hne]; [assert (n0 = n1) as -> by congruence; lia|].
    destruct (run_apart _ HG _ _ _ _ G0 G1 Hne); lia.
  - destruct (sp_right _ _ Hs _ _ _ _ Hl' Hx') as [-> _]. done.
Qed.

(** [x] gets [a] as its left neighbour. *)
Definition relink (x a c : Z) (p : Z * Z * Z) : Z * Z * Z :=
  match p with (r, l, y) => (r, if decide (c = x) then a else l, y) end.

(** *** Merge [b] into [a] on its left; [x] follows. *)
Section merge.
Context (m m' : smap) (a ra la b rb lb x : Z).
Context (Hs : spatial G m) (Ha : m !! a = Some (ra, la, b)) (Hb : m !! b = Some (rb, lb, x)) (Hb0 : b <> 0).
Context (Ha' : m' !! a = Some (ra + rb, la, x)) (Hb' : m' !! b = None).
Context (Ho' : forall c, c <> a -> c <> b -> m' !! c = relink x a c <$> m !! c).

Lemma merge_here : b = a + ra /\ lb = a /\ 0 < a /\ TAG <= ra /\ TAG <= rb.
Proof.
  destruct (spatial_range _ _ _ _ _ Hs Ha) as (? & ? & _). destruct (spatial_range _ _ _ _ _ Hs Hb) as (? & ? & _).
  destruct (sp_right _ _ Hs _ _ _ _ Ha Hb0). pose proof (left_of_right _ _ _ _ _ _ _ _ Hs Ha Hb0 Hb). lia.
Qed.

Lemma merge_inv c r l y : m' !! c = Some (r, l, y) ->
  (c = a /\ r = ra + rb /\ l = la /\ y = x) \/
  (c <> a /\ c <> b /\ exists l0, m !! c = Some (r, l0, y) /\ l = if decide (c = x) then a else l0).
Proof.
  intros Hc. destruct (decide (c = a)) as [->|Hca]; [left; by simplify_eq|].
  destruct (decide (c = b)) as [->|Hcb]; [by simplify_eq|]. right. rewrite Ho' in Hc by done.
  destruct (m !! c) as [[[r0 l0] y0]|]; [|done]. injection Hc as <- <- <-. by eauto 6.
Qed.

Lemma merge_other c r l0 y : c <> a -> c <> b -> m !! c = Some (r, l0, y) ->
  m' !! c = Some (r, if decide (c = x) then a else l0, y) /\ (c + r <= a \/ b + rb <= c).
Proof.
  intros Hca Hcb E. split; [by rewrite Ho', E|]. destruct merge_here as (Eb & _).
  pose proof (sp_disj _ _ Hs _ _ _ _ _ _ _ _ E Ha Hca). pose proof (sp_disj _ _ Hs _ _ _ _ _ _ _ _ E Hb Hcb).
  pose proof (sp_min _ _ Hs _ _ _ _ E). lia.
Qed.

Lemma spatial_merge : spatial G m'.
Proof.
  destruct merge_here as (Eb & El & Pa & Ra & Rb). split.
  - intros c r l y [(-> & -> & _)|(_ & _ & l0 & E & _)]%merge_inv; [lia|]. by apply (sp_min _ _ Hs _ _ _ _ E).
  - intros c r l y d r' l' y' [(-> & -> & _)|(Hc1 & Hc2 & l0 & E & _)]%merge_inv
      [(-> & -> & _)|(Hd1 & Hd2 & l0' & E' & _)]%merge_inv Hne; [done|..].
    + destruct (merge_other _ _ _ _ Hd1 Hd2 E') as [_ ?]. lia.
    + destruct (merge_other _ _ _ _ Hc1 Hc2 E) as [_ ?]. lia.
    + by apply (sp_disj _ _ Hs _ _ _ _ _ _ _ _ E E').
  - intros c r l y Hc Hy. apply merge_inv in Hc as [(-> & -> & -> & ->)|(Hc1 & Hc2 & l0 & E & _)].
    + destruct (sp_right _ _ Hs _ _ _ _ Hb Hy) as (Ex & r' & l' & x' & E). split; [lia|].
      eexists _, _, _. by apply (merge_other _ r' l' x'); [lia|lia|].
    + destruct (sp_right _ _ Hs _ _ _ _ E Hy) as (-> & r' & l' & x' & E'). split; [done|].
      destruct (decide (c + r = a)) as [->|Hya]; [by eauto|]. destruct (merge_other _ _ _ _ Hc1 Hc2 E) as [_ Hap].
      pose proof (sp_min _ _ Hs _ _ _ _ E).
      eexists _, _, _. apply (merge_other _ r' l' x'); [lia|lia|done].
  - intros c r l y Hc Hl. apply merge_inv in Hc as [(-> & -> & -> & ->)|(Hc1 & Hc2 & l0 & E & Hl0)].
    + destruct (sp_left _ _ Hs _ _ _ _ Ha Hl) as (r' & l' & x' & E & Hsum). pose proof (sp_min _ _ Hs _ _ _ _ E).
      eexists _, _, _. split; [apply (merge_other _ r' l' x'); [lia|lia|done]|done].
    + destruct (decide (c = x)) as [->|Hcx]; subst l.
      * eexists _, _, _. split; [done|]. destruct (decide (x = 0)) as [->|Hx0].
        { destruct (spatial_range _ _ _ _ _ Hs E). lia. }
        destruct (sp_right _ _ Hs _ _ _ _ Hb Hx0). lia.
      * destruct (sp_left _ _ Hs _ _ _ _ E Hl) as (r' & l' & x' & E' & Hsum). destruct (merge_other _ _ _ _ Hc1 Hc2 E) as [_ Hap].
        destruct (decide (l0 = b)) as [->|Hlb].
        { simplify_eq. destruct (right_of_left _ _ _ _ _ _ _ _ Hs E Hb0 Hb). congruence. }
        destruct (decide (l0 = a)) as [->|Hla]; [simplify_eq; pose proof (sp_min _ _ Hs _ _ _ _ E); lia|].
        eexists _, _, _. split; [by apply (merge_other _ r' l' x')|done].
  - intros c r l y [(-> & -> & -> & ->)|(Hc1 & Hc2 & l0 & E & ->)]%merge_inv.
    + eapply same_run; [lia|apply Rb|exact Eb| |exact (sp_run _ _ Hs _ _ _ _ Ha)|exact (sp_run _ _ Hs _ _ _ _ Hb)]. lia.
    + destruct (decide (c = x)) as [->|Hcx]; [|by apply (sp_run _ _ Hs)].
      destruct (decide (x = 0)) as [->|Hx0]; [destruct (spatial_range _ _ _ _ _ Hs E); lia|].
      pose proof (left_of_right _ _ _ _ _ _ _ _ Hs Hb Hx0 E) as ->.
      destruct (sp_run _ _ Hs _ _ _ _ E) as (b1 & n & Hb2 & B1 & B2 & B3 & B4). exists b1, n. split_and!; try done; lia.
Qed.

End merge.

(** *** Split [a] after [k] bytes; the rest is the tag [d]. *)
Section split.
Context (m m' : smap) (a r la x k d : Z).
Context (Hs : spatial G m) (Ha : m !! a = Some (r, la, x)) (Hd : d = a + k) (Hk : TAG <= k) (Hk' : TAG <= r - k).
Context (Ha' : m' !! a = Some (k, la, d)) (Hd' : m' !! d = Some (r - k, a, x)).
Context (Ho' : forall c, c <> a -> c <> d -> m' !! c = relink x d c <$> m !! c).

Lemma split_inv c rc l y : m' !! c = Some (rc, l, y) ->
  (c = a /\ rc = k /\ l = la /\ y = d) \/ (c = d /\ rc = r - k /\ l = a /\ y = x) \/
  (c <> a /\ c <> d /\ exists l0, m !! c = Some (rc, l0, y) /\ l = if decide (c = x) then d else l0).
Proof.
  intros Hc. destruct (decide (c = a)) as [->|Hca]; [left; by simplify_eq|].
  destruct (decide (c = d)) as [->|Hcb]; [right; left; by simplify_eq|]. right; right. rewrite Ho' in Hc by done.
  destruct (m !! c) as [[[r0 l0] y0]|]; [|done]. injection Hc as <- <- <-. by eauto 6.
Qed.

Lemma split_other c rc l0 y : c <> a -> m !! c = Some (rc, l0, y) ->
  m' !! c = Some (rc, if decide (c = x) then d else l0, y) /\ (c + rc <= a \/ a + r <= c).
Proof.
  intros Hca E. pose proof (sp_disj _ _ Hs _ _ _ _ _ _ _ _ E Ha Hca). split; [|lia].
  pose proof (sp_min _ _ Hs _ _ _ _ E). by rewrite Ho', E by lia.
Qed.

Lemma spatial_split : spatial G m'.
Proof.
  pose proof (spatial_range _ _ _ _ _ Hs Ha) as (Pa & _). split.
  - intros c rc l y [(-> & -> & _)|[(-> & -> & _)|(_ & _ & l0 & E & _)]]%split_inv; [lia|lia|]. by apply (sp_min _ _ Hs _ _ _ _ E).
  - intros c rc l y e re l' y' Hc He Hne. apply split_inv in Hc as [(-> & -> & _)|[(-> & -> & _)|(Hc1 & Hc2 & l0 & E & _)]];
      apply split_inv in He as [(-> & -> & _)|[(-> & -> & _)|(He1 & He2 & l0' & E' & _)]]; try lia;
      try (destruct (split_other _ _ _ _ He1 E') as [_ ?]; lia); try (destruct (split_other _ _ _ _ Hc1 E) as [_ ?]; lia).
    by apply (sp_disj _ _ Hs _ _ _ _ _ _ _ _ E E').
  - intros c rc l y Hc Hy. apply split_inv in Hc as [(-> & -> & -> & ->)|[(-> & -> & -> & ->)|(Hc1 & Hc2 & l0 & E & _)]].
    + split; [done|]. by eauto.
    + destruct (sp_right _ _ Hs _ _ _ _ Ha Hy) as (Ex & r' & l' & x' & E). split; [lia|].
      eexists _, _, _. apply (split_other x r' l' x'); [lia|done].
    + destruct (sp_right _ _ Hs _ _ _ _ E Hy) as (Ey & r' & l' & x' & E'). split; [done|].
      destruct (decide (y = a)) as [->|Hya]; [by eauto|]. eexists _, _, _. by apply (split_other y r' l' x').
  - intros c rc l y Hc Hl. apply split_inv in Hc as [(-> & -> & -> & ->)|[(-> & -> & -> & ->)|(Hc1 & Hc2 & l0 & E & Hl0)]].
    + destruct (sp_left _ _ Hs _ _ _ _ Ha Hl) as (r' & l' & x' & E & Hsum). pose proof (sp_min _ _ Hs _ _ _ _ E).
      eexists _, _, _. split; [apply (split_other la r' l' x'); [lia|done]|done].
    + by eauto 6.
    + destruct (split_other _ _ _ _ Hc1 E) as [_ Hap]. destruct (decide (c = x)) as [->|Hcx]; subst l.
      * eexists _, _, _. split; [done|]. destruct (decide (x = 0)) as [->|Hx0]; [destruct (spatial_range _ _ _ _ _ Hs E); lia|].
        destruct (sp_right _ _ Hs _ _ _ _ Ha Hx0). lia.
      * destruct (sp_left _ _ Hs _ _ _ _ E Hl) as (r' & l' & x' & E' & Hsum).
        destruct (decide (l0 = a)) as [->|Hla].
        { destruct (right_of_left _ _ _ _ _ _ _ _ Hs E ltac:(lia) Ha). congruence. }
        eexists _, _, _. split; [by apply (split_other l0 r' l' x')|done].
  - destruct (sp_run _ _ Hs _ _ _ _ Ha) as (b & n & Hb & B1 & B2 & B3 & B4).
    intros c rc l y [(-> & -> & -> & ->)|[(-> & -> & -> & ->)|(Hc1 & Hc2 & l0 & E & ->)]]%split_inv.
    + exists b, n. split_and!; try done; lia.
    + exists b, n. split_and!; try done; lia.
    + destruct (decide (c = x)) as [->|Hcx]; [|by apply (sp_run _ _ Hs)].
      destruct (decide (x = 0)) as [->|Hx0]; [destruct (spatial_range _ _ _ _ _ Hs E); lia|].
      pose proof (left_of_right _ _ _ _ _ _ _ _ Hs Ha Hx0 E) as ->.
      destruct (sp_run _ _ Hs _ _ _ _ E) as (b1 & n1 & Hb2 & C1 & C2 & C3 & C4). exists b1, n1. split_and!; try done; lia.
Qed.

End split.

(** *** Runs come and go *)

Lemma spatial_off m b n c r l x :
  spatial G m -> G !! b = None -> runs_ok (<[b := n]> G) -> m !! c = Some (r, l, x) ->
  c <> b /\ (c + r <= b \/ b + 4096 * n <= c).
Proof.
  intros Hs Hb HG' Hc. destruct (sp_run _ _ Hs _ _ _ _ Hc) as (b1 & n1 & Hb1 & C1 & C2 & _).
  pose proof (sp_min _ _ Hs _ _ _ _ Hc). assert (b <> b1) as Hne by congruence.
  pose proof (run_size _ HG' b n ltac:(by rewrite lookup_insert_eq)).
  pose proof (run_apart _ HG' b n b1 n1 ltac:(by rewrite lookup_insert_eq) ltac:(by rewrite lookup_insert_ne) Hne). lia.
Qed.

Lemma spatial_new m b n :
  spatial G m -> G !! b = None -> runs_ok (<[b := n]> G) -> spatial (<[b := n]> G) (<[b := (4096 * n, 0, 0)]> m).
Proof.
  intros Hs Hb HG'. pose proof (run_size _ HG' b n ltac:(by rewrite lookup_insert_eq)) as Hn.
  assert (forall c p, m !! c = Some p -> (<[b := (4096 * n, 0, 0)]> m : smap) !! c = Some p) as Hold.
  { intros c [[r l] x] Hc. destruct (spatial_off m b n c r l x Hs Hb HG' Hc). by rewrite lookup_insert_ne. }
  split.
  - intros a r l x [[<- [= <- <- <-]]|[_ E]]%lookup_insert_Some; [lia|]. by apply (sp_min _ _ Hs _ _ _ _ E).
  - intros a r l x c r' l' x' [[<- [= <- <- <-]]|[_ E]]%lookup_insert_Some [[<- [= <- <- <-]]|[_ E']]%lookup_insert_Some Hne;
      [done|..|by apply (sp_disj _ _ Hs _ _ _ _ _ _ _ _ E E')].
    + destruct (spatial_off m b n _ _ _ _ Hs Hb HG' E'). lia.
    + destruct (spatial_off m b n _ _ _ _ Hs Hb HG' E). lia.
  - intros a r l x [[<- [= <- <- <-]]|[_ E]]%lookup_insert_Some Hx; [done|].
    destruct (sp_right _ _ Hs _ _ _ _ E Hx) as (? & r' & l' & x' & E'). split; [done|]. eauto.
  - intros a r l x [[<- [= <- <- <-]]|[_ E]]%lookup_insert_Some Hl; [done|].
    destruct (sp_left _ _ Hs _ _ _ _ E Hl) as (r' & l' & x' & E' & ?). eauto 6.
  - intros a r l x [[<- [= <- <- <-]]|[_ E]]%lookup_insert_Some.
    + exists b, n. rewrite lookup_insert_eq. split_and!; (done || lia).
    + destruct (sp_run _ _ Hs _ _ _ _ E) as (b1 & n1 & Hb1 & Hrest). exists b1, n1. split; [|done].
      by rewrite lookup_insert_ne by congruence.
Qed.

Lemma spatial_drop m a r : spatial G m -> m !! a = Some (r, 0, 0) -> spatial (delete a G) (delete a m) /\ G !! a = Some (r / 4096).
Proof.
  intros Hs Ha. destruct (sp_run _ _ Hs _ _ _ _ Ha) as (b & n & Hb & B1 & B2 & B3 & B4).
  assert (b = a) as -> by (symmetry; by apply B3). assert (r = 4096 * n) as -> by (destruct B4 as [B4 _]; specialize (B4 eq_refl); lia).
  split; [|rewrite Hb; f_equal; rewrite Z.mul_comm; symmetry; by apply Z.div_mul].
  assert (forall c r l x, m !! c = Some (r, l, x) -> c <> a -> l <> a /\ x <> a) as Hfar.
  { intros c r l x Hc Hne. split; intros ->.
    - destruct (right_of_left _ _ _ _ _ _ _ _ Hs Hc ltac:(pose proof (spatial_range _ _ _ _ _ Hs Ha); lia) Ha) as [E _].
      subst c. pose proof (spatial_range _ _ _ _ _ Hs Hc). lia.
    - pose proof (left_of_right _ _ _ _ _ _ _ _ Hs Hc ltac:(pose proof (spatial_range _ _ _ _ _ Hs Ha); lia) Ha) as E.
      subst c. pose proof (spatial_range _ _ _ _ _ Hs Hc). lia. }
  split.
  - intros c rc l x [_ E]%lookup_delete_Some. by apply (sp_min _ _ Hs _ _ _ _ E).
  - intros c rc l x d rd l' x' [_ E]%lookup_delete_Some [_ E']%lookup_delete_Some. by apply (sp_disj _ _ Hs _ _ _ _ _ _ _ _ E E').
  - intros c rc l x [Hne E]%lookup_delete_Some Hx. destruct (sp_right _ _ Hs _ _ _ _ E Hx) as (? & r' & l' & x' & E').
    split; [done|]. exists r', l', x'. rewrite lookup_delete_ne; [done|]. destruct (Hfar _ _ _ _ E); congruence.
  - intros c rc l x [Hne E]%lookup_delete_Some Hl. destruct (sp_left _ _ Hs _ _ _ _ E Hl) as (r' & l' & x' & E' & ?).
    exists r', l', x'. rewrite lookup_delete_ne; [done|]. destruct (Hfar _ _ _ _ E); congruence.
  - intros c rc l x [Hne E]%lookup_delete_Some. destruct (sp_run _ _ Hs _ _ _ _ E) as (b1 & n1 & Hb1 & C1 & C2 & Hrest).
    exists b1, n1. split; [|done]. rewrite lookup_delete_ne; [done|]. intros <-.
    pose proof (sp_disj _ _ Hs _ _ _ _ _ _ _ _ E Ha ltac:(done)). pose proof (sp_min _ _ Hs _ _ _ _ E).
    assert (n1 = n) as -> by congruence. lia.
Qed.

End spatial.

(** ** Free lists *)

(** Bucket, next and previous of each tag; bucket -1 is no bucket. *)
Notation lmap := (gmap Z (Z * Z * Z)).

Definition hd0 (q : Z) (l : list Z) : Z := match l with [] => q | a :: _ => a end.
Fixpoint lastd (p : Z) (l : list Z) : Z := match l with [] => p | a :: r => lastd a r end.

(** The tags [l] of bucket [i] in a row, [p] before and [q] after them. *)
Fixpoint seg (m : lmap) (i p : Z) (l : list Z) (q : Z) : Prop :=
  match l with
  | [] => True
  | a :: r => a <> 0 /\ m !! a = Some (i, hd0 q r, p) /\ seg m i a r q
  end.

Lemma list_seg_app m i l1 : forall p l2 q,
  seg m i p (l1 ++ l2) q <-> seg m i p l1 (hd0 q l2) /\ seg m i (lastd p l1) l2 q.
Proof.
  induction l1 as [|a l1 IH]; intros p l2 q; cbn [app seg lastd]; [tauto|]. rewrite IH.
  assert (hd0 q (l1 ++ l2) = hd0 (hd0 q l2) l1) as -> by (by destruct l1). tauto.
Qed.

Lemma seg_in m i l : forall p q c, seg m i p l q -> c ∈ l -> c <> 0 /\ exists x y, m !! c = Some (i, x, y).
Proof.
  induction l as [|a l IH]; intros p q c Hs Hc; [by apply not_elem_of_nil in Hc|]. destruct Hs as (H0 & Ha & Hs).
  apply elem_of_cons in Hc as [->|Hc]; [split; [done|by eauto]|by eapply IH].
Qed.

Lemma seg_same m m' i l : forall p q, seg m i p l q -> (forall c, c ∈ l -> m' !! c = m !! c) -> seg m' i p l q.
Proof.
  induction l as [|a l IH]; intros p q Hs Hsame; [done|]. destruct Hs as (H0 & Ha & Hs). split_and!; [done| |].
  - rewrite Hsame; [done|by left].
  - apply IH; [done|]. intros c Hc. apply Hsame. by right.
Qed.

Definition renext (z q c : Z) (p : Z * Z * Z) : Z * Z * Z := match p with (i, x, y) => (i, if decide (c = z) then q else x, y) end.
Definition reprev (z q c : Z) (p : Z * Z * Z) : Z * Z * Z := match p with (i, x, y) => (i, x, if decide (c = z) then q else y) end.

Lemma lastd_in p l : l <> [] -> lastd p l ∈ l.
Proof.
  revert p. induction l as [|a l IH]; intros p Hne; [done|]. cbn [lastd]. destruct l as [|b l]; [by left|].
  right. apply IH. done.
Qed.

Lemma seg_renext m m' i q' l : forall p q, seg m i p l q -> NoDup l ->
  (forall c, c ∈ l -> m' !! c = renext (lastd p l) q' c <$> m !! c) -> seg m' i p l q'.
Proof.
  induction l as [|a l IH]; intros p q Hs Hnd Hm; [done|]. destruct Hs as (H0 & Ha & Hs).
  apply NoDup_cons in Hnd as [Hni Hnd]. cbn [lastd] in Hm. split_and!; [done| |].
  - rewrite Hm, Ha by (by left). cbn [fmap option_fmap option_map renext]. destruct l as [|b l].
    + by rewrite decide_True.
    + rewrite decide_False; [done|]. intros E. apply Hni. rewrite E. by apply (lastd_in a (b :: l)).
  - eapply IH; [done|done|]. intros c Hc. apply Hm. by right.
Qed.

Lemma seg_reprev m m' i p' p l q : seg m i p l q -> NoDup l ->
  (forall c, c ∈ l -> m' !! c = reprev (hd0 0 l) p' c <$> m !! c) -> seg m' i p' l q.
Proof.
  destruct l as [|a l]; [done|]. intros (H0 & Ha & Hs) [Hni Hnd]%NoDup_cons Hm. cbn [hd0] in Hm. split_and!; [done| |].
  - rewrite Hm, Ha by (by left). cbn. by rewrite decide_True.
  - eapply seg_same; [done|]. intros c Hc. rewrite Hm by (by right). destruct (m !! c) as [[[j x] y]|]; [|done].
    cbn. rewrite decide_False; [done|]. by intros ->.
Qed.

Record lists_ok (m : lmap) (heads : list Z) (fl : list (list Z)) : Prop := mk_lists {
  ll_len : length heads = length fl;
  ll_zero : m !! 0 = None;
  ll_seg i l : fl !! i = Some l -> seg m (Z.of_nat i) 0 l 0 /\ NoDup l /\ heads !! i = Some (hd0 0 l);
  ll_cover a i n p : m !! a = Some (i, n, p) ->
    (i = -1 /\ n = 0 /\ p = 0) \/ (0 <= i /\ exists l, fl !! Z.to_nat i = Some l /\ a ∈ l)
}.

Section lists.
Context (m m' : lmap) (heads : list Z) (fl : list (list Z)) (Hl : lists_ok m heads fl).

(** *** Take [a] out of bucket [i] *)
Section remove.
Context (i : nat) (l1 l2 : list Z) (a : Z) (Hi : fl !! i = Some (l1 ++ a :: l2)).

Definition bef : Z := lastd 0 l1.
Definition aft : Z := hd0 0 l2.

Context (Ha' : m' !! a = Some (-1, 0, 0)).
Context (Ho' : forall c, c <> a -> m' !! c = reprev aft bef c <$> (renext bef aft c <$> m !! c)).

Lemma remove_here : m !! a = Some (Z.of_nat i, aft, bef) /\ a <> 0.
Proof.
  destruct (ll_seg _ _ _ Hl i _ Hi) as (Hs & _). apply list_seg_app in Hs as [_ Hs]. cbn [seg] in Hs. tauto.
Qed.

Lemma remove_apart : NoDup (l1 ++ l2) /\ a ∉ l1 /\ a ∉ l2 /\ (forall c, c ∈ l1 -> c ∉ l2) /\ 0 ∉ l1 /\ 0 ∉ l2.
Proof.
  destruct (ll_seg _ _ _ Hl i _ Hi) as (Hs & Hnd & _). pose proof Hnd as Hnd'.
  apply NoDup_app in Hnd as (N1 & N2 & [N3 N4]%NoDup_cons). split_and!; try done.
  - apply NoDup_app. split_and!; [done| |done]. intros c Hc Hc2. apply (N2 c Hc). by right.
  - intros Hc. apply (N2 a Hc). by left.
  - intros c Hc Hc2. apply (N2 c Hc). by right.
  - intros H0. destruct (seg_in _ _ _ _ _ 0 Hs) as [? _]; [|done]. apply elem_of_app. by left.
  - intros H0. destruct (seg_in _ _ _ _ _ 0 Hs) as [? _]; [|done]. apply elem_of_app. right. by right.
Qed.

Lemma bef_in : bef = 0 \/ bef ∈ l1.
Proof. unfold bef. destruct l1 as [|x r]; [by left|]. right. by apply lastd_in. Qed.

Lemma aft_in : aft = 0 \/ aft ∈ l2.
Proof. unfold aft. destruct l2 as [|x r]; [by left|]. right. by left. Qed.

Lemma remove_ends c : c <> 0 -> c ∉ l1 -> c ∉ l2 -> c <> bef /\ c <> aft.
Proof.
  intros H0 H1 H2. destruct bef_in as [Eb|Eb], aft_in as [Ea|Ea]; split; intros ->; try done.
Qed.

(** A tag that is not on the list is as it was. *)
Lemma remove_far c : c <> a -> c ∉ l1 -> c ∉ l2 -> m' !! c = m !! c.
Proof.
  intros Hc H1 H2. rewrite Ho' by done. destruct (m !! c) as [[[j n] p]|] eqn:E; [|done].
  assert (c <> 0) as H0 by (intros ->; by rewrite (ll_zero _ _ _ Hl) in E).
  destruct (remove_ends c H0 H1 H2). cbn. by rewrite !decide_False.
Qed.

Lemma other_bucket j l c : fl !! j = Some l -> j <> i -> c ∈ l -> c ∉ l1 ++ a :: l2.
Proof.
  intros Hj Hne Hc Hc'. destruct (ll_seg _ _ _ Hl j l Hj) as (Hs & _). destruct (ll_seg _ _ _ Hl i _ Hi) as (Hs' & _).
  destruct (seg_in _ _ _ _ _ c Hs Hc) as (_ & x & y & E). destruct (seg_in _ _ _ _ _ c Hs' Hc') as (_ & x' & y' & E').
  by simplify_eq.
Qed.

Lemma remove_seg : seg m' (Z.of_nat i) 0 (l1 ++ l2) 0.
Proof.
  destruct (ll_seg _ _ _ Hl i _ Hi) as (Hs & _). apply list_seg_app in Hs as [Hs1 Hs2]. cbn [seg hd0] in Hs1, Hs2.
  destruct Hs2 as (_ & _ & Hs2). destruct remove_apart as ((N1 & _ & N2)%NoDup_app & A1 & A2 & A3 & Z1 & Z2).
  apply list_seg_app. split.
  - eapply seg_renext; [exact Hs1|done|]. intros c Hc. rewrite Ho' by (intros ->; done). fold bef.
    destruct (m !! c) as [[[j n] p]|]; [|done]. cbn. do 2 f_equal. apply decide_False. intros ->.
    destruct aft_in as [E|E]; [by rewrite E in Hc|by apply (A3 aft)].
  - fold bef. eapply seg_reprev; [exact Hs2|done|]. intros c Hc. rewrite Ho' by (intros ->; done). fold aft.
    destruct (m !! c) as [[[j n] p]|]; [|done]. cbn. do 3 f_equal. apply decide_False. intros ->.
    destruct bef_in as [E|E]; [by rewrite E in Hc|by apply (A3 bef)].
Qed.

Lemma lists_remove : lists_ok m' (if decide (l1 = []) then <[i := aft]> heads else heads) (<[i := l1 ++ l2]> fl).
Proof.
  pose proof (lookup_lt_Some _ _ _ Hi) as Hlt. destruct remove_here as [Ha Ha0]. destruct remove_apart as (Hnd & A1 & A2 & _).
  split.
  - rewrite length_insert, <- (ll_len _ _ _ Hl). by destruct (decide _); rewrite ?length_insert.
  - rewrite Ho' by done. by rewrite (ll_zero _ _ _ Hl).
  - intros j l Hj. destruct (decide (j = i)) as [->|Hne].
    + rewrite list_lookup_insert_eq in Hj by done. injection Hj as <-. split; [apply remove_seg|]. split; [done|].
      destruct (ll_seg _ _ _ Hl i _ Hi) as (_ & _ & Hh). destruct (decide (l1 = [])) as [->|Hl1].
      * rewrite list_lookup_insert_eq by (rewrite (ll_len _ _ _ Hl); done). done.
      * rewrite Hh. by destruct l1.
    + rewrite list_lookup_insert_ne in Hj by done. destruct (ll_seg _ _ _ Hl j l Hj) as (Hs & Hd & Hh).
      split; [|split; [done|by destruct (decide _); rewrite ?list_lookup_insert_ne by done]].
      eapply seg_same; [exact Hs|]. intros c Hc. pose proof (other_bucket j l c Hj Hne Hc) as Hn.
      rewrite elem_of_app, elem_of_cons in Hn. apply remove_far; tauto.
  - intros c j n p Hc. destruct (decide (c = a)) as [->|Hca]; [left; by simplify_eq|].
    rewrite Ho' in Hc by done. destruct (m !! c) as [[[j0 n0] p0]|] eqn:E; [|done]. cbn in Hc. injection Hc as <- <- <-.
    destruct (ll_cover _ _ _ Hl _ _ _ _ E) as [(-> & -> & ->)|(Hj0 & l & Hlk & Hin)].
    + left. split; [done|]. assert (c <> 0) as Hc0 by (intros ->; by rewrite (ll_zero _ _ _ Hl) in E).
      destruct (ll_seg _ _ _ Hl i _ Hi) as (Hs & _).
      assert (c ∉ l1 ++ a :: l2) as Hn by (intros Hin; destruct (seg_in _ _ _ _ _ c Hs Hin) as (_ & x & y & E'); simplify_eq; lia).
      rewrite elem_of_app, elem_of_cons in Hn. destruct (remove_ends c Hc0) as [E1 E2]; [tauto..|]. by rewrite !decide_False.
    + right. split; [done|]. destruct (decide (Z.to_nat j0 = i)) as [<-|Hne].
      * eexists. split; [apply list_lookup_insert_eq; done|]. rewrite Hi in Hlk. injection Hlk as <-.
        rewrite elem_of_app, elem_of_cons in Hin. rewrite elem_of_app. tauto.
      * exists l. by rewrite list_lookup_insert_ne.
Qed.

End remove.

(** *** Push [a] on bucket [i] *)
Lemma lists_push i l a :
  fl !! i = Some l -> m !! a = Some (-1, 0, 0) ->
  m' !! a = Some (Z.of_nat i, hd0 0 l, 0) -> (forall c, c <> a -> m' !! c = reprev (hd0 0 l) a c <$> m !! c) ->
  lists_ok m' (<[i := a]> heads) (<[i := a :: l]> fl).
Proof.
  intros Hi Ha Ha' Ho'. pose proof (lookup_lt_Some _ _ _ Hi) as Hlt.
  destruct (ll_seg _ _ _ Hl i _ Hi) as (Hs & Hnd & Hh).
  assert (a <> 0) as Ha0 by (intros ->; by rewrite (ll_zero _ _ _ Hl) in Ha).
  assert (forall j l, fl !! j = Some l -> a ∉ l) as Hna.
  { intros j l' Hj Hin. destruct (ll_seg _ _ _ Hl j l' Hj) as (Hs' & _). destruct (seg_in _ _ _ _ _ a Hs' Hin) as (_ & x & y & E).
    simplify_eq; lia. }
  split.
  - by rewrite !length_insert, (ll_len _ _ _ Hl).
  - rewrite Ho' by done. by rewrite (ll_zero _ _ _ Hl).
  - intros j l' Hj. destruct (decide (j = i)) as [->|Hne].
    + rewrite list_lookup_insert_eq in Hj by done. injection Hj as <-. split; [split; [done|split; [done|]]|split].
      * eapply seg_reprev; [exact Hs|done|]. intros c Hc. rewrite Ho'; [done|]. intros ->. by apply (Hna i l).
      * apply NoDup_cons. split; [by apply (Hna i)|done].
      * apply list_lookup_insert_eq. rewrite (ll_len _ _ _ Hl). done.
    + rewrite list_lookup_insert_ne in Hj by done. rewrite list_lookup_insert_ne by done.
      destruct (ll_seg _ _ _ Hl j l' Hj) as (Hs' & Hd' & Hh'). split; [|done]. eapply seg_same; [exact Hs'|].
      intros c Hc. rewrite Ho' by (intros ->; by apply (Hna j l')). destruct (seg_in _ _ _ _ _ c Hs' Hc) as (Hc0 & x & y & E).
      rewrite E. cbn. rewrite decide_False; [done|]. intros ->. destruct l as [|b l]; [done|]. cbn [hd0] in *.
      destruct Hs as (_ & Eb & _). simplify_eq; lia.
  - intros c j n p Hc. destruct (decide (c = a)) as [->|Hca].
    + right. simplify_eq. split; [lia|]. rewrite Nat2Z.id. eexists. split; [by apply list_lookup_insert_eq|]. by left.
    + rewrite Ho' in Hc by done. destruct (m !! c) as [[[j0 n0] p0]|] eqn:E; [|done]. cbn in Hc. injection Hc as <- <- <-.
      destruct (ll_cover _ _ _ Hl _ _ _ _ E) as [(-> & -> & ->)|(Hj0 & l' & Hlk & Hin)].
      * left. split; [done|]. split; [done|]. apply decide_False. intros ->. destruct l as [|b l]; cbn [hd0] in *.
        { by rewrite (ll_zero _ _ _ Hl) in E. }
        destruct Hs as (_ & Eb & _). simplify_eq; lia.
      * right. split; [done|]. destruct (decide (Z.to_nat j0 = i)) as [<-|Hne].
        { eexists. split; [by apply list_lookup_insert_eq|]. rewrite Hi in Hlk. injection Hlk as <-. by right. }
        exists l'. by rewrite list_lookup_insert_ne.
Qed.

(** *** Tags off the lists come and go *)
Lemma lists_add a : a <> 0 -> m !! a = None -> lists_ok (<[a := (-1, 0, 0)]> m) heads fl.
Proof.
  intros Ha0 Ha. split; [apply Hl|by rewrite lookup_insert_ne, (ll_zero _ _ _ Hl)| |].
  - intros i l Hi. destruct (ll_seg _ _ _ Hl i _ Hi) as (Hs & Hrest). split; [|done]. eapply seg_same; [exact Hs|].
    intros c Hc. apply lookup_insert_ne. intros <-. destruct (seg_in _ _ _ _ _ a Hs Hc) as (_ & x & y & E). congruence.
  - intros c i n p [[<- [= <- <- <-]]|[_ E]]%lookup_insert_Some; [by left|]. by apply (ll_cover _ _ _ Hl _ _ _ _ E).
Qed.

Lemma lists_del a : m !! a = Some (-1, 0, 0) -> lists_ok (delete a m) heads fl.
Proof.
  intros Ha. split; [apply Hl|by rewrite lookup_delete_None; right; apply Hl| |].
  - intros i l Hi. destruct (ll_seg _ _ _ Hl i _ Hi) as (Hs & Hrest). split; [|done]. eapply seg_same; [exact Hs|].
    intros c Hc. apply lookup_delete_ne. intros <-. destruct (seg_in _ _ _ _ _ a Hs Hc) as (_ & x & y & E).
    simplify_eq; lia.
  - intros c i n p [_ E]%lookup_delete_Some. by apply (ll_cover _ _ _ Hl _ _ _ _ E).
Qed.

End lists.

End HeapInv.
