(* ===== verification/HeapFacts.v ===== *)
(** The operations of [Heap] on the structure of [HeapInv].

    [heap_ok x s G H fl]: the tags [H] tile the runs [G], the free ones are on the
    lists [fl], and every other one (but [x], which is between the two) is a block
    that fits its tag.  What a caller holds is [used H]: address and size. *)
From S2P Require Import Prelude Heap HeapInv.

Module HeapFacts.
Import Heap HeapInv.

Definition sp (t : boundary_tag) : Z * Z * Z := (real_size t, split_left t, split_right t).
Definition ls (t : boundary_tag) : Z * Z * Z := (index t, next t, prev t).

(** What the page hooks promise: the runs handed out do not overlap. *)
Class page_source {P : Type} (alloc : Z -> M P Z) (release : Z -> Z -> M P Z) := {
  granted : P -> gmap Z Z;
  src_ok : P -> Prop;
  granted_ok p : src_ok p -> runs_ok (granted p);
  alloc_law p n : src_ok p -> 0 < n -> 4096 * n < 2 ^ 32 ->
    exists p' a, alloc n p = Done p' a /\ src_ok p' /\
      ((a = 0 /\ granted p' = granted p) \/
       (granted p !! a = None /\ granted p' = <[a := n]> (granted p)));
  release_law p a n : src_ok p -> granted p !! a = Some n ->
    exists p' r, release a n p = Done p' r /\ src_ok p' /\ granted p' = delete a (granted p)
}.

Section facts.
Context {P : Type} (liballoc_alloc : Z -> M P Z) (liballoc_free : Z -> Z -> M P Z).
Context `{!page_source liballoc_alloc liballoc_free}.
Implicit Types (s : hst P) (H : gmap Z boundary_tag).

(** ** Memory *)

Definition sep H : Prop := forall a b ta tb, H !! a = Some ta -> H !! b = Some tb -> a <> b -> a + TAGSZ <= b \/ b + TAGSZ <= a.

(** Nothing but memory changes, and no byte outside [R]. *)
Record frame (R : Z -> Prop) s s' : Prop := mk_frame {
  f_heads : l_freePages s' = l_freePages s;
  f_complete : l_completePages s' = l_completePages s;
  f_init : l_initialized s' = l_initialized s;
  f_src : src s' = src s;
  f_bytes x : ~ R x -> bytes s' !! x = bytes s !! x
}.

Lemma frame_refl R s : frame R s s.
Proof. by split. Qed.

Lemma frame_trans R s1 s2 s3 : frame R s1 s2 -> frame R s2 s3 -> frame R s1 s3.
Proof.
  intros [A1 A2 A3 A4 A5] [B1 B2 B3 B4 B5]. split; try congruence. intros x Hx. by rewrite B5, A5.
Qed.

(** The bytes of the tags [H]. *)
Definition headers H (x : Z) : Prop := exists a, is_Some (H !! a) /\ a <= x < a + TAGSZ.

Lemma get_tag_ok s H a t : H ⊆ tags s -> H !! a = Some t -> get_tag a s = Done s t.
Proof. intros Hsub Ha. unfold get_tag, mbind, M_bind, get. by rewrite (lookup_weaken _ _ _ _ Ha Hsub). Qed.

Lemma put_tag_ok s H a t :
  H ⊆ tags s -> (forall b tb, H !! b = Some tb -> b <> a -> b + TAGSZ <= a \/ a + TAGSZ <= b) ->
  exists s', put_tag a t s = Done s' tt /\ <[a := t]> H ⊆ tags s' /\ frame (fun x => a <= x < a + TAGSZ) s s'.
Proof.
  intros Hsub Hsep. eexists. split; [done|]. split.
  - cbn [tags set_mem]. apply map_subseteq_spec. intros b tb [[<- <-]|[Hne Hb]]%lookup_insert_Some.
    + by rewrite lookup_insert_eq.
    + rewrite lookup_insert_ne by done. unfold tags_off. apply map_lookup_filter_Some. split; [by eapply lookup_weaken|].
      cbn. destruct (Hsep b tb Hb ltac:(done)); lia.
  - split; try done. intros x Hx. cbn [bytes set_mem]. unfold bytes_off.
    destruct (bytes s !! x) as [b|] eqn:E.
    + apply map_lookup_filter_Some. split; [done|]. cbn. lia.
    + apply map_lookup_filter_None. by left.
Qed.

Lemma upd_tag_ok s H a t g :
  H ⊆ tags s -> sep H -> H !! a = Some t ->
  exists s', upd_tag a g s = Done s' tt /\ <[a := g t]> H ⊆ tags s' /\ sep (<[a := g t]> H) /\ frame (headers H) s s'.
Proof.
  intros Hsub Hsep Ha. unfold upd_tag. rewrite (bind_done _ _ _ _ _ (get_tag_ok s H a t Hsub Ha)).
  destruct (put_tag_ok s H a (g t) Hsub) as (s' & E & Hsub' & [F1 F2 F3 F4 F5]).
  { intros b tb Hb Hne. by apply (Hsep b a tb t). }
  exists s'. split; [done|]. split; [done|]. split.
  - intros b c tb tc Hb Hc Hne.
    assert (is_Some (H !! b)) as [tb' Hb'] by (apply lookup_insert_Some in Hb as [[<- _]|[_ Hb]]; by eauto).
    assert (is_Some (H !! c)) as [tc' Hc'] by (apply lookup_insert_Some in Hc as [[<- _]|[_ Hc]]; by eauto).
    by apply (Hsep b c tb' tc').
  - split; try done. intros x Hx. apply F5. intros Hin. apply Hx. exists a. by eauto.
Qed.

(** A field of [a] set under a condition. *)
Lemma headers_insert H a t t' x : H !! a = Some t -> headers (<[a := t']> H) x <-> headers H x.
Proof.
  intros Ha. unfold headers. split; intros (b & Hb & Hx); exists b; (split; [|done]).
  - destruct (decide (a = b)) as [->|Hne]; [by rewrite Ha|by rewrite lookup_insert_ne in Hb].
  - destruct (decide (a = b)) as [->|Hne]; [by rewrite lookup_insert_eq|by rewrite lookup_insert_ne].
Qed.

Lemma frame_weaken (R R' : Z -> Prop) s s' : (forall x, R x -> R' x) -> frame R s s' -> frame R' s s'.
Proof. intros HR [F1 F2 F3 F4 F5]. split; try done. intros x Hx. apply F5. naive_solver. Qed.

Lemma alter_known H a t g : H !! a = Some t -> alter g a H = <[a := g t]> H.
Proof.
  intros Ha. apply map_eq. intros d. destruct (decide (a = d)) as [<-|Hd].
  - by rewrite lookup_alter_eq, lookup_insert_eq, Ha.
  - by rewrite lookup_alter_ne, lookup_insert_ne.
Qed.

(** Update a neighbour, if there is one. *)
Lemma upd_if_ok s H c g :
  H ⊆ tags s -> sep H -> (c <> 0 -> is_Some (H !! c)) -> H !! 0 = None ->
  exists s', (if c =? 0 then mret tt else upd_tag c g) s = Done s' tt /\
    (if decide (c = 0) then H else alter g c H) ⊆ tags s' /\ sep (if decide (c = 0) then H else alter g c H) /\
    frame (headers H) s s'.
Proof.
  intros Hsub Hsep Hc H0. destruct (Z.eqb_spec c 0) as [->|Hne].
  - exists s. rewrite decide_True by done. split_and!; try done; apply frame_refl.
  - rewrite decide_False by done. destruct (Hc Hne) as [t Ht].
    destruct (upd_tag_ok s H c t g Hsub Hsep Ht) as (s' & E & H1 & H2 & H3). exists s'.
    by rewrite (alter_known _ _ _ _ Ht).
Qed.

Lemma upd_if_lookup H c g d :
  H !! 0 = None -> (if decide (c = 0) then H else alter g c H) !! d = (fun t => if decide (d = c) then g t else t) <$> H !! d.
Proof.
  intros H0. destruct (decide (c = 0)) as [->|Hc].
  - destruct (decide (d = 0)) as [->|Hd]; [by rewrite H0|]. by destruct (H !! d).
  - destruct (decide (d = c)) as [->|Hd]; [by rewrite lookup_alter_eq; destruct (H !! c)|].
    rewrite lookup_alter_ne by done. by destruct (H !! d).
Qed.

(** ** Lists *)

Lemma get_head_ok s i h : l_freePages s !! i = Some h -> get_head (Z.of_nat i) s = Done s h.
Proof. intros Hi. unfold get_head, mbind, M_bind, get, aget. rewrite (proj2 (Z.leb_le _ _)) by lia. by rewrite Nat2Z.id, Hi. Qed.

Lemma put_head_ok s i h a : l_freePages s !! i = Some h ->
  put_head (Z.of_nat i) a s = Done (set_free (<[i := a]> (l_freePages s)) s) tt.
Proof.
  intros Hi%lookup_lt_Some. unfold put_head, mbind, M_bind, get. rewrite aset_in by lia. by rewrite Nat2Z.id.
Qed.

(** [H'] is [H] but for the links of the lists, and [a] is now of bucket [j]. *)
Definition relisted (a j : Z) H H' : Prop := forall c,
  match H !! c, H' !! c with
  | None, None => True
  | Some t, Some t' => magic t' = magic t /\ size t' = size t /\ sp t' = sp t /\ index t' = if decide (c = a) then j else index t
  | _, _ => False
  end.

(** What list operations leave alone. *)
Record quiet H s s' : Prop := mk_quiet {
  q_complete : l_completePages s' = l_completePages s;
  q_init : l_initialized s' = l_initialized s;
  q_src : src s' = src s;
  q_bytes x : ~ headers H x -> bytes s' !! x = bytes s !! x
}.

Lemma headers_same H H' x : (forall c, is_Some (H' !! c) -> is_Some (H !! c)) -> headers H' x -> headers H x.
Proof. intros Hd (a & Ha & Hx). exists a. by auto. Qed.

Lemma upd_if_dom H c g d : H !! 0 = None -> is_Some ((if decide (c = 0) then H else alter g c H) !! d) -> is_Some (H !! d).
Proof. intros H0. rewrite upd_if_lookup by done. by destruct (H !! d). Qed.

(** The three writes of [remove_tag], after the head. *)
Definition unlinked (a bef aft : Z) H : gmap Z boundary_tag :=
  let H1 := if decide (bef = 0) then H else alter (set_next aft) bef H in
  let H2 := if decide (aft = 0) then H1 else alter (set_prev bef) aft H1 in
  alter (fun t => set_index (-1) (set_prev 0 (set_next 0 t))) a H2.

Lemma unlinked_other a bef aft H c : H !! 0 = None -> c <> a ->
  unlinked a bef aft H !! c =
    (fun t => if decide (c = aft) then set_prev bef t else t) <$> ((fun t => if decide (c = bef) then set_next aft t else t) <$> H !! c).
Proof.
  intros H0 Hc. unfold unlinked. cbv zeta. rewrite lookup_alter_ne by done. rewrite upd_if_lookup; rewrite upd_if_lookup; try done. by rewrite H0.
Qed.

Lemma unlinked_here a bef aft H t : H !! 0 = None -> H !! a = Some t ->
  exists t', unlinked a bef aft H !! a = Some t' /\ magic t' = magic t /\ size t' = size t /\ sp t' = sp t /\ ls t' = (-1, 0, 0).
Proof.
  intros H0 Ha. unfold unlinked. cbv zeta. rewrite lookup_alter_eq. rewrite !upd_if_lookup, Ha; [|done|rewrite upd_if_lookup, H0; done].
  eexists. split; [done|]. by destruct (decide (a = aft)), (decide (a = bef)).
Qed.

Lemma unlinked_relisted a bef aft H t : H !! 0 = None -> H !! a = Some t -> relisted a (-1) H (unlinked a bef aft H).
Proof.
  intros H0 Ha c. destruct (decide (c = a)) as [->|Hc].
  - rewrite Ha. destruct (unlinked_here a bef aft H t H0 Ha) as (t' & -> & ? & ? & ? & E). injection E as ? ? ?. split_and!; done.
  - rewrite unlinked_other by done. destruct (H !! c) as [tc|]; [|done]. cbn.
    by destruct (decide (c = aft)), (decide (c = bef)).
Qed.

Lemma remove_writes s H a bef aft t :
  H ⊆ tags s -> sep H -> H !! 0 = None -> H !! a = Some t -> (bef <> 0 -> is_Some (H !! bef)) -> (aft <> 0 -> is_Some (H !! aft)) ->
  exists s',
    (_ ← (if bef =? 0 then mret tt else upd_tag bef (set_next aft));
     _ ← (if aft =? 0 then mret tt else upd_tag aft (set_prev bef));
     upd_tag a (fun t => set_index (-1) (set_prev 0 (set_next 0 t)))) s = Done s' tt /\
    unlinked a bef aft H ⊆ tags s' /\ sep (unlinked a bef aft H) /\ frame (headers H) s s'.
Proof.
  intros Hsub Hsep H0 Ha Hb Hf.
  destruct (upd_if_ok s H bef (set_next aft) Hsub Hsep Hb H0) as (s1 & E1 & Hsub1 & Hsep1 & F1).
  rewrite (bind_done _ _ _ _ _ E1). pose proof (upd_if_lookup H bef (set_next aft)) as L1.
  pose proof (fun d => upd_if_dom H bef (set_next aft) d H0) as D1.
  set (H1 := if decide (bef = 0) then H else _) in *.
  assert (H1 !! 0 = None) as H10 by (by rewrite L1, H0).
  assert (aft <> 0 -> is_Some (H1 !! aft)) as Hf1 by (intros Hne; rewrite L1 by done; by destruct (Hf Hne) as [? ->]).
  destruct (upd_if_ok s1 H1 aft (set_prev bef) Hsub1 Hsep1 Hf1 H10) as (s2 & E2 & Hsub2 & Hsep2 & F2).
  rewrite (bind_done _ _ _ _ _ E2). pose proof (upd_if_lookup H1 aft (set_prev bef)) as L2.
  pose proof (fun d => upd_if_dom H1 aft (set_prev bef) d H10) as D2.
  unfold unlinked. cbv zeta. fold H1. set (H2 := if decide (aft = 0) then H1 else _) in *.
  assert (exists t2, H2 !! a = Some t2) as [t2 Ha2] by (rewrite L2, L1, Ha by done; by eexists).
  destruct (upd_tag_ok s2 H2 a t2 (fun t => set_index (-1) (set_prev 0 (set_next 0 t))) Hsub2 Hsep2 Ha2) as (s3 & E3 & Hsub3 & Hsep3 & F3).
  exists s3. split; [exact E3|]. rewrite (alter_known _ _ _ _ Ha2). split_and!; [done..|].
  eapply frame_trans; [exact F1|]. eapply frame_trans; (eapply frame_weaken; [|eassumption]); intros x; apply headers_same; auto.
Qed.

Lemma ls_zero H heads fl : lists_ok (ls <$> H) heads fl -> H !! 0 = None.
Proof. intros Hl. pose proof (ll_zero _ _ _ Hl) as H0. rewrite lookup_fmap in H0. by destruct (H !! 0). Qed.

Lemma seg_some H i p l q c : seg (ls <$> H) i p l q -> c ∈ l -> is_Some (H !! c).
Proof.
  intros Hs Hc. destruct (seg_in _ _ _ _ _ c Hs Hc) as (_ & x & y & E). rewrite lookup_fmap in E. by destruct (H !! c).
Qed.

(** [remove_tag] takes [a] off its list. *)
Lemma remove_tag_ok s H fl i l1 l2 a :
  H ⊆ tags s -> sep H -> lists_ok (ls <$> H) (l_freePages s) fl -> fl !! i = Some (l1 ++ a :: l2) ->
  exists s' H', remove_tag a s = Done s' tt /\ H' ⊆ tags s' /\ sep H' /\
    lists_ok (ls <$> H') (l_freePages s') (<[i := l1 ++ l2]> fl) /\ relisted a (-1) H H' /\ quiet H s s'.
Proof.
  intros Hsub Hsep Hl Hi. pose proof (ls_zero _ _ _ Hl) as H0.
  destruct (ll_seg _ _ _ Hl _ _ Hi) as (Hs & Hnd & Hh).
  destruct (remove_here _ _ _ Hl i l1 l2 a Hi) as [Ea _]. rewrite lookup_fmap in Ea.
  destruct (H !! a) as [t|] eqn:Ha; [|done]. injection Ea as Ei En Ep.
  destruct (remove_apart _ _ _ Hl i l1 l2 a Hi) as (_ & A1 & A2 & _).
  unfold remove_tag. rewrite (bind_done _ _ _ _ _ (get_tag_ok _ _ _ _ Hsub Ha)). rewrite Ei, En, Ep.
  rewrite (bind_done _ _ _ _ _ (get_head_ok _ _ _ Hh)).
  set (heads' := if decide (l1 = []) then <[i := aft l2]> (l_freePages s) else l_freePages s).
  assert ((if hd0 0 (l1 ++ a :: l2) =? a then put_head (Z.of_nat i) (aft l2) else mret tt) s = Done (set_free heads' s) tt) as Eh.
  { unfold heads'. destruct l1 as [|b l1]; cbn [hd0 app].
    - rewrite Z.eqb_refl, decide_True by done. by apply (put_head_ok s i _ _ Hh).
    - rewrite (proj2 (Z.eqb_neq b a)), decide_False; [by destruct s|done|]. intros ->. apply A1. by left. }
  rewrite (bind_done _ _ _ _ _ Eh).
  destruct (remove_writes (set_free heads' s) H a (bef l1) (aft l2) t) as (s' & E & Hsub' & Hsep' & [F1 F2 F3 F4 F5]); try done.
  { intros Hb. apply (seg_some _ _ _ _ _ _ Hs), elem_of_app. left. by destruct (bef_in _ _ _ _ _ Hi). }
  { intros Hf. apply (seg_some _ _ _ _ _ _ Hs), elem_of_app. right. right. by destruct (aft_in _ _ _ _ _ Hi). }
  exists s', (unlinked a (bef l1) (aft l2) H). split; [exact E|]. split_and!; [done|done| |by eapply unlinked_relisted|by split].
  rewrite F1. cbn [set_free l_freePages]. eapply (lists_remove _ _ _ _ Hl i l1 l2 a Hi).
  - rewrite lookup_fmap. destruct (unlinked_here a (bef l1) (aft l2) H t H0 Ha) as (t' & -> & _ & _ & _ & E'). cbn. by rewrite E'.
  - intros c Hc. rewrite !lookup_fmap, unlinked_other by done. destruct (H !! c) as [tc|]; [|done]. unfold ls. cbn.
    by destruct (decide (c = aft l2)), (decide (c = bef l1)).
Qed.

Lemma bind_assoc_M {A B C} (m : M (hst P) A) (f : A -> M (hst P) B) (g : B -> M (hst P) C) s :
  (b ← (a ← m; f a); g b) s = (a ← m; b ← f a; g b) s.
Proof. unfold mbind, M_bind. by destruct (m s). Qed.

Lemma bind_upd_tag {A} H a t g (k : unit -> M (hst P) A) s :
  H ⊆ tags s -> H !! a = Some t -> (x ← upd_tag a g; k x) s = (x ← put_tag a (g t); k x) s.
Proof.
  intros Hsub Ha. unfold upd_tag. by rewrite bind_assoc_M, (bind_done _ _ _ _ _ (get_tag_ok s H a t Hsub Ha)).
Qed.

Lemma bind_tail {A B} (m : M (hst P) A) (k : M (hst P) B) (g : B -> M (hst P) unit) (n : M (hst P) unit) s s1 :
  (_ ← m; h ← k; g h) s = Done s1 tt -> (_ ← m; h ← k; _ ← g h; n) s = n s1.
Proof.
  unfold mbind, M_bind. destruct (m s) as [s2 a|]; [|done]. destruct (k s2) as [s3 b|]; [|done].
  by destruct (g b s3) as [s4 []|]; intros [= ->].
Qed.

(** The writes of [insert_tag], before the head. *)
Definition linked (a i h : Z) H : gmap Z boundary_tag :=
  let H1 := alter (set_index i) a H in
  if decide (h = 0) then H1 else alter (set_next h) a (alter (set_prev a) h H1).

Lemma linked_other a i h H c : H !! 0 = None -> c <> a ->
  linked a i h H !! c = (fun t => if decide (c = h) then set_prev a t else t) <$> H !! c.
Proof.
  intros H0 Hc. unfold linked. cbv zeta. destruct (decide (h = 0)) as [->|Hh].
  - rewrite lookup_alter_ne by done. destruct (decide (c = 0)) as [->|]; [by rewrite H0|by destruct (H !! c)].
  - rewrite lookup_alter_ne by done. destruct (decide (c = h)) as [->|Hch].
    + rewrite lookup_alter_eq, lookup_alter_ne by done. by destruct (H !! h).
    + rewrite !lookup_alter_ne by done. by destruct (H !! c).
Qed.

Lemma linked_here a i h H t : h <> a -> H !! a = Some t -> next t = 0 ->
  exists t', linked a i h H !! a = Some t' /\ magic t' = magic t /\ size t' = size t /\ sp t' = sp t /\ ls t' = (i, h, prev t).
Proof.
  intros Hh Ha Hn. unfold linked. cbv zeta. destruct (decide (h = 0)) as [->|Hh0].
  - rewrite lookup_alter_eq, Ha. eexists. split; [done|]. unfold ls. cbn. by rewrite Hn.
  - rewrite lookup_alter_eq, lookup_alter_ne, lookup_alter_eq, Ha by done. by eexists.
Qed.

Lemma insert_writes s H a i h t :
  H ⊆ tags s -> sep H -> H !! a = Some t -> h <> a -> (h <> 0 -> is_Some (H !! h)) -> l_freePages s !! i = Some h ->
  exists s',
    (_ ← upd_tag a (set_index (Z.of_nat i));
     h ← get_head (Z.of_nat i);
     if h =? 0 then mret tt else _ ← upd_tag h (set_prev a); upd_tag a (set_next h)) s = Done s' tt /\
    linked a (Z.of_nat i) h H ⊆ tags s' /\ sep (linked a (Z.of_nat i) h H) /\ frame (headers H) s s'.
Proof.
  intros Hsub Hsep Ha Hne Hh Hhead.
  destruct (upd_tag_ok s H a t (set_index (Z.of_nat i)) Hsub Hsep Ha) as (s1 & E1 & Hsub1 & Hsep1 & F1).
  rewrite (bind_done _ _ _ _ _ E1). rewrite <- (f_heads _ _ _ F1) in Hhead. rewrite (bind_done _ _ _ _ _ (get_head_ok _ _ _ Hhead)).
  unfold linked. cbv zeta. rewrite (alter_known _ _ _ _ Ha). destruct (Z.eqb_spec h 0) as [->|Hh0].
  - rewrite decide_True by done. by exists s1.
  - rewrite decide_False by done. destruct (Hh Hh0) as [th Hth]. set (H1 := <[a := _]> H) in *.
    assert (H1 !! h = Some th) as Hth1 by (unfold H1; by rewrite lookup_insert_ne).
    destruct (upd_tag_ok s1 H1 h th (set_prev a) Hsub1 Hsep1 Hth1) as (s2 & E2 & Hsub2 & Hsep2 & F2).
    rewrite (bind_done _ _ _ _ _ E2). rewrite (alter_known _ _ _ _ Hth1). set (H2 := <[h := _]> H1) in *.
    assert (H2 !! a = Some (set_index (Z.of_nat i) t)) as Ha2 by (unfold H2, H1; by rewrite lookup_insert_ne, lookup_insert_eq).
    destruct (upd_tag_ok s2 H2 a _ (set_next h) Hsub2 Hsep2 Ha2) as (s3 & E3 & Hsub3 & Hsep3 & F3).
    exists s3. rewrite (alter_known _ _ _ _ Ha2). split_and!; [done..|].
    eapply frame_trans; [exact F1|]. eapply frame_trans; (eapply frame_weaken; [|eassumption]); intros x.
    + by apply headers_insert with (t := t).
    + intros Hx%(headers_insert _ _ _ _ _ Hth1). by apply (headers_insert _ _ _ _ _ Ha) in Hx.
Qed.

(** [insert_tag] at bucket [i] pushes [a], whatever bucket it said before. *)
Lemma insert_tag_ok s H fl i l a t idx :
  H ⊆ tags s -> sep H -> H !! a = Some t -> next t = 0 -> prev t = 0 -> H !! 0 = None ->
  lists_ok (<[a := (-1, 0, 0)]> (ls <$> H)) (l_freePages s) fl -> fl !! i = Some l ->
  Z.of_nat i = (if idx <? 0 then Z.max MINEXP (getexp (u32 (real_size t - TAGSZ))) else idx) ->
  exists s' H', insert_tag a idx s = Done s' tt /\ H' ⊆ tags s' /\ sep H' /\
    lists_ok (ls <$> H') (l_freePages s') (<[i := a :: l]> fl) /\ relisted a (Z.of_nat i) H H' /\ quiet H s s'.
Proof.
  intros Hsub Hsep Ha Hn Hp H0 Hl Hi Hidx. destruct (ll_seg _ _ _ Hl _ _ Hi) as (Hs & Hnd & Hh).
  assert (forall c, c ∈ l -> c <> a /\ is_Some (H !! c)) as Hin.
  { intros c Hc. destruct (seg_in _ _ _ _ _ c Hs Hc) as (_ & x & y & E).
    apply lookup_insert_Some in E as [[<- E]|[Hca E]]; [injection E; lia|]. rewrite lookup_fmap in E. by destruct (H !! c). }
  assert (hd0 0 l <> a) as Hha. { destruct l as [|b l]; [intros E; simpl in E; congruence|]. by apply Hin; left. }
  assert (hd0 0 l <> 0 -> is_Some (H !! hd0 0 l)) as Hhs. { destruct l as [|b l]; [done|]. intros _. apply Hin. by left. }
  unfold insert_tag. rewrite (bind_done _ _ _ _ _ (get_tag_ok _ _ _ _ Hsub Ha)). cbv zeta. rewrite <- Hidx.
  destruct (insert_writes s H a i (hd0 0 l) t) as (s1 & E1 & Hsub1 & Hsep1 & F); [done..|].
  exists (set_free (<[i := a]> (l_freePages s1)) s1), (linked a (Z.of_nat i) (hd0 0 l) H).
  destruct (linked_here a (Z.of_nat i) (hd0 0 l) H t Hha Ha Hn) as (t' & E' & T1 & T2 & T3 & T4). split; [|split_and!; [done|done|..]].
  - rewrite (bind_tail _ _ _ _ _ _ E1). eapply put_head_ok. by rewrite (f_heads _ _ _ F).
  - cbn [set_free l_freePages]. rewrite (f_heads _ _ _ F). eapply (lists_push _ _ _ _ Hl i l a Hi).
    + by rewrite lookup_insert_eq.
    + rewrite lookup_fmap, E'. cbn. by rewrite T4, Hp.
    + intros c Hc. rewrite lookup_insert_ne by done. rewrite !lookup_fmap, linked_other by done.
      destruct (H !! c) as [tc|]; [|done]. unfold ls. cbn. by destruct (decide (c = hd0 0 l)).
  - intros c. destruct (decide (c = a)) as [->|Hc].
    + rewrite Ha, E'. injection T4 as -> _ _. done.
    + rewrite linked_other by done. destruct (H !! c) as [tc|]; [|done]. cbn. by destruct (decide (c = hd0 0 l)).
  - destruct F as [F1 F2 F3 F4 F5]. by split.
Qed.

End facts.

End HeapFacts.
