(* ===== verification/HeapSteps.v ===== *)
(** The steps of [malloc] and [free]: each keeps the structure of the heap, the
    blocks that callers hold, and their bytes. *)
From S2P Require Import Prelude Heap HeapInv HeapFacts.

Module HeapSteps.
Import Heap HeapInv HeapFacts.

Section steps.
Context {P : Type} (liballoc_alloc : Z -> M P Z) (liballoc_free : Z -> Z -> M P Z).
Context `{!page_source liballoc_alloc liballoc_free}.
Implicit Types (s : hst P) (H : gmap Z boundary_tag) (X : gset Z).
Local Notation granted := (granted (alloc := liballoc_alloc) (release := liballoc_free)).
Local Notation src_ok := (src_ok (alloc := liballoc_alloc) (release := liballoc_free)).

(** The heap while the tags [X] are in the hands of an operation.  The others are
    either free, and then no neighbour on the right is, or blocks that fit. *)
Record shape X s H (fl : list (list Z)) : Prop := mk_shape {
  h_src : src_ok (src s);
  h_big b n : granted (src s) !! b = Some n -> l_pageCount <= n;
  h_sp : spatial (granted (src s)) (sp <$> H);
  h_ls : lists_ok (ls <$> H) (l_freePages s) fl;
  h_len : length fl = MAXEXP;
  h_magic a t : H !! a = Some t -> magic t = LIBALLOC_MAGIC;
  h_used a t : H !! a = Some t -> index t = -1 -> a ∉ X -> 0 <= size t /\ size t + TAGSZ <= real_size t;
  h_coal a t r : H !! a = Some t -> H !! split_right t = Some r -> a ∉ X -> split_right t ∉ X -> index t = -1 \/ index r = -1;
  h_complete : length (l_completePages s) = MAXEXP;
  h_init : l_initialized s = false -> H = ∅
}.

Definition heap_ok X s H fl : Prop := H ⊆ tags s /\ shape X s H fl.

(** A block of [z] bytes behind the tag [a]. *)
Definition live X H (a z : Z) : Prop := exists t, H !! a = Some t /\ index t = -1 /\ size t = z /\ a ∉ X.

(** Same blocks, same bytes. *)
Record evolves X H s X' H' s' : Prop := mk_evolves {
  ev_live a z : live X' H' a z <-> live X H a z;
  ev_bytes a z x : live X H a z -> a + TAGSZ <= x < a + TAGSZ + z -> bytes s' !! x = bytes s !! x
}.

Lemma evolves_trans X1 H1 s1 X2 H2 s2 X3 H3 s3 :
  evolves X1 H1 s1 X2 H2 s2 -> evolves X2 H2 s2 X3 H3 s3 -> evolves X1 H1 s1 X3 H3 s3.
Proof.
  intros [A1 A2] [B1 B2]. split.
  - intros a z. by rewrite B1, A1.
  - intros a z x Ha Hx. rewrite (B2 a z x), (A2 a z x); try done. by apply A1.
Qed.

Section structure.
Context {X s H fl} (Hok : shape X s H fl).

Lemma h_runs : runs_ok (granted (src s)).
Proof. apply granted_ok, Hok. Qed.

Lemma h_zero : H !! 0 = None.
Proof. apply (ls_zero _ _ _ (h_ls _ _ _ _ Hok)). Qed.

Lemma sp_at a t : H !! a = Some t -> (sp <$> H) !! a = Some (real_size t, split_left t, split_right t).
Proof. intros Ha. by rewrite lookup_fmap, Ha. Qed.

Lemma h_range a t : H !! a = Some t -> 0 < a /\ TAGSZ <= real_size t < 2 ^ 32 /\ a + real_size t < 2 ^ 64.
Proof. intros Ha%sp_at. by apply (spatial_range _ h_runs _ _ _ _ _ (h_sp _ _ _ _ Hok) Ha). Qed.

Lemma h_disj a b t r : H !! a = Some t -> H !! b = Some r -> a <> b -> a + real_size t <= b \/ b + real_size r <= a.
Proof. intros Ha%sp_at Hb%sp_at. by apply (sp_disj _ _ (h_sp _ _ _ _ Hok) _ _ _ _ _ _ _ _ Ha Hb). Qed.

Lemma h_sep : sep H.
Proof.
  intros a b ta tb Ha Hb Hne. pose proof (h_disj _ _ _ _ Ha Hb Hne). pose proof (h_range _ _ Ha). pose proof (h_range _ _ Hb). lia.
Qed.

(** A block's bytes are in no tag, and in no other tag's part of memory. *)
Lemma live_apart a z b t : live X H a z -> H !! b = Some t -> b <> a -> a + TAGSZ + z <= b \/ b + real_size t <= a.
Proof.
  intros (ta & Ha & Hi & <- & Hx) Hb Hne. destruct (h_used _ _ _ _ Hok _ _ Ha Hi Hx). destruct (h_disj _ _ _ _ Hb Ha Hne); lia.
Qed.

Lemma live_headers a z x : live X H a z -> a + TAGSZ <= x < a + TAGSZ + z -> ~ headers H x.
Proof.
  intros Ha Hx (b & [t Hb] & Hxb). destruct (decide (b = a)) as [->|Hne]; [lia|].
  pose proof (h_range _ _ Hb). destruct (live_apart _ _ _ _ Ha Hb Hne); lia.
Qed.

Lemma shape_weaken X' : X ⊆ X' -> shape X' s H fl.
Proof.
  intros HX. destruct Hok as [A2 A2' A3 A4 A5 A6 A7 A8 A9 A10]. split; try done.
  - intros a t Ha Hi Hx. apply (A7 a); [done|done|set_solver].
  - intros a t r Ha Hr Hx Hx'. apply (A8 a t r); [done|done|set_solver..].
Qed.

(** Only the links of the lists change, and the bucket of a tag in hand. *)
Lemma heap_relisted a j s' H' fl' :
  relisted a j H H' -> a ∈ X -> H' ⊆ tags s' -> lists_ok (ls <$> H') (l_freePages s') fl' -> length fl' = MAXEXP -> quiet H s s' ->
  heap_ok X s' H' fl' /\ evolves X H s X H' s'.
Proof.
  intros Hr Ha Hsub Hl Hlen [Q1 Q2 Q3 Q4].
  assert (forall c t', H' !! c = Some t' -> exists t, H !! c = Some t /\ magic t' = magic t /\ size t' = size t /\ sp t' = sp t /\
    (c ∉ X -> index t' = index t)) as Hback.
  { intros c t' Hc. specialize (Hr c). rewrite Hc in Hr. destruct (H !! c) as [t|]; [|done]. exists t.
    destruct Hr as (? & ? & ? & Hi). split_and!; try done. intros Hx. rewrite Hi. apply decide_False. by intros ->. }
  split.
  - split; [done|]. destruct Hok as [A2 A2' A3 A4 A5 A6 A7 A8 A9 A10]. split; rewrite ?Q1, ?Q2, ?Q3; try done.
    + assert (sp <$> H' = sp <$> H) as ->; [|done]. apply map_eq. intros c. rewrite !lookup_fmap. specialize (Hr c).
      destruct (H !! c), (H' !! c); try done. destruct Hr as (_ & _ & E & _). cbn. by rewrite E.
    + intros c t' (t & Hc & -> & _)%Hback. by eapply A6.
    + intros c t' Hc Hi Hx. destruct (Hback _ _ Hc) as (t & Hc' & _ & -> & Es & Ei). rewrite Ei in Hi by done. injection Es as -> _ _. by apply (A7 c t).
    + intros c t' r' Hc Hc2 Hx Hx'. destruct (Hback _ _ Hc) as (t & Hct & _ & _ & Es & Ei). injection Es as _ _ Er.
      destruct (Hback _ _ Hc2) as (r & Hcr & _ & _ & _ & Ei2). rewrite Ei, Ei2 by done. rewrite Er in Hcr, Hx'. by eapply A8.
    + intros E%A10. apply map_eq. intros c. specialize (Hr c). rewrite E, lookup_empty in Hr. rewrite lookup_empty. by destruct (H' !! c).
  - split.
    + intros c z. split; intros (t & Hc & Hi & <- & Hx).
      * destruct (Hback _ _ Hc) as (t0 & Hc' & _ & -> & _ & Ei). exists t0. rewrite <- Ei by done. done.
      * specialize (Hr c). rewrite Hc in Hr. destruct (H' !! c) as [t'|] eqn:E; [|done]. exists t'.
        destruct (Hback _ _ E) as (t0 & Hc' & _ & Es & _ & Ei). assert (t0 = t) as -> by congruence. by rewrite Ei.
    + intros c z x Hc Hx. apply Q4. by eapply live_headers.
Qed.

End structure.

(** *** Lists *)

(** A free tag is taken in hand. *)
Lemma shape_take X s H fl a t : shape X s H fl -> H !! a = Some t -> index t <> -1 ->
  shape ({[a]} ∪ X) s H fl /\ evolves X H s ({[a]} ∪ X) H s.
Proof.
  intros Hok Ha Hi. split; [apply (shape_weaken Hok); set_solver|]. split; [|done].
  intros c z. split; intros (tc & Hc & Hci & Hz & Hx); exists tc; (split_and!; [done..|]); [set_solver|].
  intros [->%elem_of_singleton|]%elem_of_union; [congruence|done].
Qed.

Lemma bucket_of X s H fl a t : shape X s H fl -> H !! a = Some t -> index t <> -1 ->
  exists (i : nat) l1 l2, index t = Z.of_nat i /\ fl !! i = Some (l1 ++ a :: l2).
Proof.
  intros Hok Ha Hi. destruct (ll_cover _ _ _ (h_ls _ _ _ _ Hok) a (index t) (next t) (prev t)) as [(? & _)|(H0 & l & Hl & Hin)].
  - by rewrite lookup_fmap, Ha.
  - done.
  - apply list_elem_of_split in Hin as (l1 & l2 & ->). exists (Z.to_nat (index t)), l1, l2. by rewrite Z2Nat.id.
Qed.

Lemma heap_remove X s H fl a t :
  heap_ok X s H fl -> H !! a = Some t -> index t <> -1 -> a ∈ X ->
  exists s' H' fl', remove_tag a s = Done s' tt /\ heap_ok X s' H' fl' /\ evolves X H s X H' s' /\ relisted a (-1) H H' /\ quiet H s s'.
Proof.
  intros [Hsub Hok] Ha Hi Hx. destruct (bucket_of _ _ _ _ _ _ Hok Ha Hi) as (i & l1 & l2 & _ & Hl).
  destruct (remove_tag_ok s H fl i l1 l2 a Hsub (h_sep Hok) (h_ls _ _ _ _ Hok) Hl) as (s' & H' & E & Hsub' & _ & Hls & Hr & Hq).
  exists s', H', (<[i := l1 ++ l2]> fl). split; [done|].
  destruct (heap_relisted Hok a (-1) s' H' (<[i := l1 ++ l2]> fl)) as [Hok' Hev]; try done.
  by rewrite length_insert, (h_len _ _ _ _ Hok).
Qed.

Lemma exp_loop_bound f : forall sh sz, exp_loop f sh sz <= sh + Z.of_nat f.
Proof. induction f as [|f IH]; intros sh sz; cbn [exp_loop]; [lia|]. destruct (_ <? _); [lia|]. specialize (IH (sh + 1) sz). lia. Qed.

Lemma getexp_bound sz : getexp sz < Z.of_nat MAXEXP.
Proof. unfold getexp. destruct (_ <? _); [by vm_compute|]. pose proof (exp_loop_bound (MAXEXP - 8) MINEXP sz). unfold MAXEXP in *. lia. Qed.

(** The bucket that a tag goes to. *)
Definition bucket (r : Z) : Z := Z.max MINEXP (getexp (u32 (r - TAGSZ))).

Lemma bucket_nat r : exists i : nat, Z.of_nat i = bucket r /\ (i < MAXEXP)%nat.
Proof. exists (Z.to_nat (bucket r)). unfold bucket. pose proof (getexp_bound (u32 (r - TAGSZ))). unfold MAXEXP in *. lia. Qed.

(** The tag in hand goes on the list of its size; [index] may be anything before. *)
Lemma heap_insert X s H fl a t idx :
  H ⊆ tags s -> shape X s (<[a := set_index (-1) t]> H) fl -> H !! a = Some t -> next t = 0 -> prev t = 0 -> a ∈ X ->
  idx < 0 \/ idx = bucket (real_size t) ->
  exists s' H' fl', insert_tag a idx s = Done s' tt /\ heap_ok X s' H' fl' /\
    evolves X (<[a := set_index (-1) t]> H) s X H' s' /\ relisted a (bucket (real_size t)) (<[a := set_index (-1) t]> H) H' /\ quiet H s s'.
Proof.
  intros Hsub Hok Ha Hn Hp Hx Hidx. destruct (bucket_nat (real_size t)) as (i & Ei & Hi).
  destruct (lookup_lt_is_Some_2 fl i) as [l Hl]; [by rewrite (h_len _ _ _ _ Hok)|].
  pose proof (h_zero Hok) as H0. assert (a <> 0) as Ha0 by (intros ->; by rewrite lookup_insert_eq in H0).
  rewrite lookup_insert_ne in H0 by done.
  destruct (insert_tag_ok s H fl i l a t idx) as (s' & H' & E & Hsub' & _ & Hls & Hr & Hq); try done.
  { intros b c tb tc Hb Hc Hne. pose proof (h_sep Hok) as Hsep. 
    assert (forall d td, H !! d = Some td -> exists td', (<[a := set_index (-1) t]> H) !! d = Some td') as Hd.
    { intros d td Hd. destruct (decide (d = a)) as [->|]; [by rewrite lookup_insert_eq; eexists|rewrite lookup_insert_ne by done; by eexists]. }
    destruct (Hd _ _ Hb) as [? Hb'], (Hd _ _ Hc) as [? Hc']. by apply (Hsep _ _ _ _ Hb' Hc'). }
  { pose proof (h_ls _ _ _ _ Hok) as Hls. rewrite fmap_insert in Hls. unfold ls in Hls at 1. cbn in Hls. by rewrite Hn, Hp in Hls. }
  { rewrite Ei. destruct (Z.ltb_spec idx 0); [done|]. destruct Hidx; [lia|done]. }
  assert (relisted a (bucket (real_size t)) (<[a := set_index (-1) t]> H) H') as Hr'.
  { rewrite <- Ei. intros c. specialize (Hr c). destruct (decide (c = a)) as [->|Hc]; [|by rewrite lookup_insert_ne].
    rewrite lookup_insert_eq. rewrite Ha in Hr. destruct (H' !! a); [|done]. by destruct (decide (a = a)). }
  assert (quiet (<[a := set_index (-1) t]> H) s s') as Hq'.
  { destruct Hq as [Q1 Q2 Q3 Q4]. split; try done. intros x Hxx. apply Q4. by rewrite headers_insert in Hxx. }
  exists s', H', (<[i := a :: l]> fl). split; [done|].
  destruct (heap_relisted Hok a (bucket (real_size t)) s' H' (<[i := a :: l]> fl)) as [Hok' Hev]; try done.
  by rewrite length_insert, (h_len _ _ _ _ Hok).
Qed.

(** *** Neighbours *)

(** [b], off the lists, is merged into [a] on its left; both are in hand. *)
Section merge.
Context (s : hst P) (H : gmap Z boundary_tag) (fl : list (list Z)) (a b : Z) (ta tb : boundary_tag).
Context (Hok : heap_ok {[a; b]} s H fl) (Ha : H !! a = Some ta) (Hb : H !! b = Some tb) (Hab : split_right ta = b).
Context (Hlb : ls tb = (-1, 0, 0)).

Definition both : boundary_tag := set_right (split_right tb) (set_real (real_size ta + real_size tb) ta).
Definition merged : gmap Z boundary_tag :=
  let H1 := <[a := both]> (delete b H) in
  if decide (split_right tb = 0) then H1 else alter (set_left a) (split_right tb) H1.

Lemma merge_around : b = a + real_size ta /\ split_left tb = a /\ 0 < a /\ TAGSZ <= real_size ta /\ TAGSZ <= real_size tb /\
  (split_right tb = 0 \/ split_right tb = b + real_size tb /\ is_Some (H !! split_right tb)).
Proof.
  destruct Hok as [_ Hsh]. pose proof (h_range Hsh _ _ Ha). pose proof (h_range Hsh _ _ Hb).
  pose proof (sp_at _ _ Ha) as Ea. pose proof (sp_at _ _ Hb) as Eb. rewrite Hab in Ea.
  pose proof (h_sp _ _ _ _ Hsh) as Hsp. destruct (sp_right _ _ Hsp _ _ _ _ Ea ltac:(lia)) as [E1 _].
  pose proof (left_of_right _ (h_runs Hsh) _ _ _ _ _ _ _ _ Hsp Ea ltac:(lia) Eb). split_and!; try done; try lia.
  destruct (decide (split_right tb = 0)) as [|Hne]; [by left|]. right.
  destruct (sp_right _ _ Hsp _ _ _ _ Eb Hne) as (E2 & r & l & x & E3). split; [done|]. rewrite lookup_fmap in E3. by destruct (H !! split_right tb).
Qed.

Lemma merge_fits : u32 (real_size ta + real_size tb) = real_size ta + real_size tb.
Proof.
  destruct Hok as [_ Hsh]. destruct merge_around as (E1 & E2 & ? & ? & ? & _). pose proof (h_sp _ _ _ _ Hsh) as Hsp.
  destruct (same_run _ (h_runs Hsh) a (real_size ta) (split_left ta) (split_right ta) b (real_size tb) (split_left tb) (split_right tb))
    as (r & n & Hr & B1 & B2 & _); [done|done|done|lia|apply (sp_run _ _ Hsp), sp_at; done..|].
  pose proof (run_size _ (h_runs Hsh) r n Hr). apply wrap_small. lia.
Qed.

Lemma merged_zero : (<[a := both]> (delete b H)) !! 0 = None.
Proof.
  destruct merge_around as (_ & _ & ? & _). rewrite lookup_insert_ne by lia. apply lookup_delete_None. right. apply (h_zero (proj2 Hok)).
Qed.

Lemma merged_other c : c <> a -> c <> b -> merged !! c = (fun t => if decide (c = split_right tb) then set_left a t else t) <$> H !! c.
Proof.
  intros Hca Hcb. unfold merged. cbv zeta. rewrite upd_if_lookup by apply merged_zero.
  by rewrite lookup_insert_ne, lookup_delete_ne by done.
Qed.

Lemma merged_here : merged !! a = Some both.
Proof.
  unfold merged. cbv zeta. rewrite upd_if_lookup by apply merged_zero. rewrite lookup_insert_eq. cbn [fmap option_fmap option_map].
  rewrite decide_False; [done|]. destruct merge_around as (? & ? & ? & ? & ? & [?|[? _]]). all: lia.
Qed.

Lemma merged_gone : merged !! b = None.
Proof.
  unfold merged. cbv zeta. rewrite upd_if_lookup by apply merged_zero. destruct merge_around as (? & ? & ? & ? & ? & ?).
  by rewrite lookup_insert_ne, lookup_delete_eq by lia.
Qed.

Lemma merged_back c t : merged !! c = Some t -> c <> a -> c <> b /\
  exists t0, H !! c = Some t0 /\ magic t = magic t0 /\ size t = size t0 /\ index t = index t0 /\ real_size t = real_size t0 /\ split_right t = split_right t0 /\ ls t = ls t0.
Proof.
  intros Hc Hca. destruct (decide (c = b)) as [->|Hcb]; [by rewrite merged_gone in Hc|]. split; [done|].
  rewrite merged_other in Hc by done. destruct (H !! c) as [t0|]; [|done]. injection Hc as <-. exists t0. by destruct (decide _).
Qed.

Lemma merged_ls : ls <$> merged = delete b (ls <$> H).
Proof.
  apply map_eq. intros c. rewrite lookup_fmap. destruct (decide (c = b)) as [->|Hcb]; [by rewrite merged_gone, lookup_delete_eq|].
  rewrite lookup_delete_ne, lookup_fmap by done. destruct (decide (c = a)) as [->|Hca]; [by rewrite merged_here, Ha|].
  rewrite merged_other by done. destruct (H !! c); [|done]. cbn. by destruct (decide _).
Qed.

Lemma merged_spatial : spatial (granted (src s)) (sp <$> merged).
Proof.
  destruct Hok as [_ Hsh]. pose proof (sp_at _ _ Ha) as Ea. rewrite Hab in Ea. destruct merge_around as (? & ? & ? & ? & ? & ?).
  eapply (spatial_merge _ (h_runs Hsh) (sp <$> H) _ a _ _ b _ _ (split_right tb)); [apply Hsh|exact Ea|exact (sp_at _ _ Hb)|lia|..].
  - rewrite lookup_fmap, merged_here. unfold both, sp. cbn. by rewrite merge_fits.
  - by rewrite lookup_fmap, merged_gone.
  - intros c Hca Hcb. rewrite !lookup_fmap, merged_other by done. destruct (H !! c) as [tc|]; [|done]. unfold sp. cbn. by destruct (decide _).
Qed.

Lemma merged_size : base.size H = S (base.size merged).
Proof.
  rewrite <- (map_size_fmap ls merged), merged_ls. rewrite <- (map_size_fmap ls H) at 1.
  assert (is_Some ((ls <$> H) !! b)) as Hsome by (rewrite lookup_fmap, Hb; by eexists).
  rewrite (map_size_delete_Some b (ls <$> H) Hsome). pose proof (map_size_ne_0_lookup_2 (ls <$> H) b Hsome). lia.
Qed.

Lemma merge_writes {A} (v : A) :
  exists s', (_ ← put_tag a both; _ ← (if split_right tb =? 0 then mret tt else upd_tag (split_right tb) (set_left a)); mret v) s = Done s' v /\
    merged ⊆ tags s' /\ frame (headers H) s s'.
Proof.
  destruct Hok as [Hsub Hsh]. pose proof merge_around as (E1 & _ & _ & ? & ? & Hx).
  destruct (put_tag_ok s (delete b H) a both) as (s1 & P1 & Hsub1 & F1).
  { etransitivity; [apply delete_subseteq|done]. }
  { intros c tc Hc%lookup_delete_Some Hne. destruct Hc as [_ Hc]. by apply (h_sep Hsh c a tc ta). }
  rewrite (bind_done _ _ _ _ _ P1).
  destruct (upd_if_ok s1 (<[a := both]> (delete b H)) (split_right tb) (set_left a) Hsub1) as (s2 & P2 & Hsub2 & _ & F2).
  - intros c d tc td Hc Hd Hne.
    assert (forall e te, (<[a := both]> (delete b H)) !! e = Some te -> is_Some (H !! e)) as He.
    { intros e te [[<- _]|[_ [_ E]%lookup_delete_Some]]%lookup_insert_Some; by eexists. }
    destruct (He _ _ Hc) as [? ?], (He _ _ Hd) as [? ?]. by eapply (h_sep Hsh).
  - intros Hne. destruct Hx as [|[Ex Hs]]; [done|]. by rewrite lookup_insert_ne, lookup_delete_ne by lia.
  - apply merged_zero.
  - exists s2. rewrite (bind_done _ _ _ _ _ P2). split; [done|]. split; [done|].
    eapply frame_trans; (eapply frame_weaken; [|eassumption]); intros x; cbn beta.
    + intros Hxx. exists a. by rewrite Ha.
    + apply headers_same. intros c [tc [[<- _]|[_ [_ E]%lookup_delete_Some]]%lookup_insert_Some]; by eexists.
Qed.

Lemma merged_shape s' : merged ⊆ tags s' -> frame (headers H) s s' -> heap_ok {[a]} s' merged fl /\ evolves {[a; b]} H s {[a]} merged s'.
Proof.
  destruct Hok as [_ Hsh]. intros Hsub' [F1 F2 F3 F4 F5]. split.
  - split; [done|]. split; rewrite ?F1, ?F2, ?F3, ?F4; try apply Hsh.
    + apply merged_spatial.
    + rewrite merged_ls. apply lists_del; [apply Hsh|]. by rewrite lookup_fmap, Hb; cbn; rewrite Hlb.
    + intros c t Hc. destruct (decide (c = a)) as [->|Hca].
      * rewrite merged_here in Hc. injection Hc as <-. exact (h_magic _ _ _ _ Hsh a ta Ha).
      * destruct (merged_back c t Hc Hca) as (_ & t0 & Hc0 & -> & _). by eapply (h_magic _ _ _ _ Hsh).
    + intros c t Hc Hi Hx. destruct (merged_back c t Hc ltac:(set_solver)) as (Hcb & t0 & Hc0 & _ & -> & Ei & -> & _).
      apply (h_used _ _ _ _ Hsh c); [done|congruence|set_solver].
    + intros c t r Hc Hr Hx Hx'. destruct (merged_back c t Hc ltac:(set_solver)) as (Hcb & t0 & Hc0 & _ & _ & -> & _ & Er & _).
      destruct (merged_back _ r Hr ltac:(set_solver)) as (Hrb & r0 & Hr0 & _ & _ & -> & _). rewrite Er in *.
      apply (h_coal _ _ _ _ Hsh c t0 r0); [done|done|set_solver|set_solver].
    + intros Hi%(h_init _ _ _ _ Hsh). by rewrite Hi in Ha.
  - split.
    + intros c z. split; intros (t & Hc & Hi & Hz & Hx).
      * destruct (merged_back c t Hc ltac:(set_solver)) as (Hcb & t0 & Hc0 & _ & E1 & E2 & _). exists t0. split_and!; [done|congruence|congruence|set_solver].
      * eexists. rewrite merged_other by set_solver. rewrite Hc. split; [done|]. split_and!; [..|set_solver]; by destruct (decide _).
    + intros c z x Hc Hx. apply F5. by eapply (live_headers Hsh).
Qed.

End merge.

(** *** In hand and out of it *)

(** No free tag is left of [a], or right of it. *)
Definition left_used H (a : Z) (t : boundary_tag) : Prop := split_left t <> 0 -> exists z, live {[a]} H (split_left t) z.
Definition right_used H (a : Z) (t : boundary_tag) : Prop := split_right t <> 0 -> exists z, live {[a]} H (split_right t) z.

Lemma left_tag X s H fl a t : shape X s H fl -> H !! a = Some t -> split_left t <> 0 ->
  exists l, H !! split_left t = Some l /\ split_left t <> a /\ split_right l = a.
Proof.
  intros Hok Ha Hl. pose proof (sp_at _ _ Ha) as Ea. destruct (sp_left _ _ (h_sp _ _ _ _ Hok) _ _ _ _ Ea Hl) as (r & l & x & E & Hsum).
  destruct (right_of_left _ (h_runs Hok) _ _ _ _ _ _ _ _ (h_sp _ _ _ _ Hok) Ea Hl E) as [-> _].
  rewrite lookup_fmap in E. destruct (H !! split_left t) as [tl|] eqn:El; [|done]. injection E as Er _ Ex. exists tl.
  split_and!; [done| |done]. pose proof (h_range Hok _ _ El). lia.
Qed.

Lemma right_tag X s H fl a t : shape X s H fl -> H !! a = Some t -> split_right t <> 0 ->
  exists r, H !! split_right t = Some r /\ split_right t <> a /\ split_left r = a.
Proof.
  intros Hok Ha Hl. pose proof (sp_at _ _ Ha) as Ea. destruct (sp_right _ _ (h_sp _ _ _ _ Hok) _ _ _ _ Ea Hl) as (Ex & r & l & x & E).
  pose proof (left_of_right _ (h_runs Hok) _ _ _ _ _ _ _ _ (h_sp _ _ _ _ Hok) Ea Hl E) as ->.
  rewrite lookup_fmap in E. destruct (H !! split_right t) as [tr|] eqn:El; [|done]. injection E as _ Er _. exists tr.
  split_and!; [done| |done]. pose proof (h_range Hok _ _ Ha). lia.
Qed.

(** A free tag between blocks is no longer in hand. *)
Lemma shape_shrink s H fl a t : shape {[a]} s H fl -> H !! a = Some t -> index t <> -1 -> left_used H a t -> right_used H a t ->
  shape ∅ s H fl /\ evolves {[a]} H s ∅ H s.
Proof.
  intros Hok Ha Hi Hlu Hru. assert (forall c z, live ∅ H c z <-> live {[a]} H c z) as Hlive.
  { intros c z. split; intros (tc & Hc & Hic & Hz & Hx); exists tc; (split_and!; [done..|]); [|set_solver].
    intros ->%elem_of_singleton. congruence. }
  split; [|split; [apply Hlive|done]]. split; try apply Hok.
  - intros c tc Hc Hic _. apply (h_used _ _ _ _ Hok c); [done|done|]. intros ->%elem_of_singleton. congruence.
  - intros c tc r Hc Hr _ _. destruct (decide (c = a)) as [->|Hca].
    + right. assert (tc = t) as -> by congruence. destruct Hru as (z & tr & Hr' & Hir & _); [|congruence].
      intros E. rewrite E, (h_zero Hok) in Hr. done.
    + destruct (decide (split_right tc = a)) as [Era|Hra]; [|apply (h_coal _ _ _ _ Hok c tc r); [done|done|set_solver|set_solver]].
      left. pose proof (h_range Hok _ _ Ha). destruct (right_tag _ _ _ _ _ _ Hok Hc ltac:(lia)) as (ra & Hra & _ & El).
      rewrite Era in Hra. assert (ra = t) as -> by congruence. pose proof (h_range Hok _ _ Hc).
      destruct Hlu as (z & tl & Hl' & Hil & _); [lia|]. congruence.
Qed.


(** A block that fits is no longer in hand: it is one more than there was. *)
Record grown X H s X' H' s' (a z : Z) : Prop := mk_grown {
  gr_live c zc : live X' H' c zc <-> (c = a /\ zc = z) \/ live X H c zc;
  gr_bytes c zc x : live X H c zc -> c + TAGSZ <= x < c + TAGSZ + zc -> bytes s' !! x = bytes s !! x
}.

Lemma grown_evolves X1 H1 s1 X2 H2 s2 X3 H3 s3 a z :
  grown X1 H1 s1 X2 H2 s2 a z -> evolves X2 H2 s2 X3 H3 s3 -> grown X1 H1 s1 X3 H3 s3 a z.
Proof.
  intros [A1 A2] [B1 B2]. split.
  - intros c zc. by rewrite B1, A1.
  - intros c zc x Hc Hx. rewrite (B2 c zc x), (A2 c zc x); try done. apply A1. by right.
Qed.

Lemma evolves_grown X1 H1 s1 X2 H2 s2 X3 H3 s3 a z :
  evolves X1 H1 s1 X2 H2 s2 -> grown X2 H2 s2 X3 H3 s3 a z -> grown X1 H1 s1 X3 H3 s3 a z.
Proof.
  intros [A1 A2] [B1 B2]. split.
  - intros c zc. by rewrite B1, A1.
  - intros c zc x Hc Hx. rewrite (B2 c zc x), (A2 c zc x); try done. by apply A1.
Qed.

Lemma shape_keep s H fl a t : shape {[a]} s H fl -> H !! a = Some t -> index t = -1 -> 0 <= size t -> size t + TAGSZ <= real_size t ->
  shape ∅ s H fl /\ grown {[a]} H s ∅ H s a (size t).
Proof.
  intros Hok Ha Hi Hz Hfit. split.
  - split; try apply Hok.
    + intros c tc Hc Hic _. destruct (decide (c = a)) as [->|Hca]; [assert (tc = t) as -> by congruence; lia|].
      apply (h_used _ _ _ _ Hok c); [done|done|set_solver].
    + intros c tc r Hc Hr _ _. destruct (decide (c = a)) as [->|Hca]; [left; congruence|].
      destruct (decide (split_right tc = a)) as [E|Hra]; [right; congruence|].
      apply (h_coal _ _ _ _ Hok c tc r); [done|done|set_solver|set_solver].
  - split; [|done]. intros c zc. split.
    + intros (tc & Hc & Hic & Hzc & _). destruct (decide (c = a)) as [->|Hca]; [left; split; [done|congruence]|right].
      exists tc. split_and!; try done. set_solver.
    + intros [[-> ->]|(tc & Hc & Hic & Hzc & Hx)]; [by exists t|]. by exists tc.
Qed.

(** *** Merging in [free] *)

Lemma off_lists X s H fl a t : shape X s H fl -> H !! a = Some t -> index t <> -1 \/ ls t = (-1, 0, 0).
Proof.
  intros Hok Ha. destruct (ll_cover _ _ _ (h_ls _ _ _ _ Hok) a (index t) (next t) (prev t)) as [(E1 & E2 & E3)|(H0 & _)].
  - by rewrite lookup_fmap, Ha.
  - right. unfold ls. by rewrite E1, E2, E3.
  - left. lia.
Qed.

Lemma off_lists_ls X s H fl a t : shape X s H fl -> H !! a = Some t -> index t = -1 -> ls t = (-1, 0, 0).
Proof. intros Hok Ha Hi. by destruct (off_lists _ _ _ _ _ _ Hok Ha). Qed.

Lemma index_cases X s H fl a t : shape X s H fl -> H !! a = Some t -> (index t <? 0) = true /\ index t = -1 \/ (index t <? 0) = false /\ index t <> -1.
Proof.
  intros Hok Ha. destruct (ll_cover _ _ _ (h_ls _ _ _ _ Hok) a (index t) (next t) (prev t)) as [(E1 & _)|(H0 & _)].
  - by rewrite lookup_fmap, Ha.
  - left. by rewrite E1.
  - right. split; [apply Z.ltb_ge; lia|lia].
Qed.

Lemma pair_comm (a b : Z) : {[b]} ∪ {[a]} =@{gset Z} {[a; b]}.
Proof. set_solver. Qed.

Lemma relisted_at a j H H' c t : relisted a j H H' -> H !! c = Some t ->
  exists t', H' !! c = Some t' /\ size t' = size t /\ sp t' = sp t /\ index t' = if decide (c = a) then j else index t.
Proof. intros Hr Hc. specialize (Hr c). rewrite Hc in Hr. destruct (H' !! c) as [t'|]; [|done]. exists t'. tauto. Qed.

Lemma relisted_size a j H H' : relisted a j H H' -> base.size H' = base.size H.
Proof.
  intros Hr. rewrite <- (map_size_fmap sp H'), <- (map_size_fmap sp H). f_equal. apply map_eq. intros c. rewrite !lookup_fmap.
  specialize (Hr c). destruct (H !! c), (H' !! c); try done. destruct Hr as (_ & _ & E & _). cbn. by rewrite E.
Qed.

Section melt.
Context (s : hst P) (H : gmap Z boundary_tag) (fl : list (list Z)) (b : Z) (tb : boundary_tag).
Context (Hok : heap_ok {[b]} s H fl) (Hb : H !! b = Some tb) (Hib : index tb = -1).

(** The free tag [a] on the left takes [b] in. *)
Lemma melt_left_step a ta : split_left tb = a -> a <> 0 -> H !! a = Some ta -> index ta <> -1 ->
  exists s' H' fl' ta', (tag' ← melt_left b; _ ← remove_tag tag'; mret tag') s = Done s' a /\
    heap_ok {[a]} s' H' fl' /\ evolves {[b]} H s {[a]} H' s' /\ base.size H = S (base.size H') /\ H' !! a = Some ta' /\ index ta' = -1.
Proof.
  intros Hl Ha0 Ha Hia. destruct Hok as [Hsub Hsh]. destruct (shape_take _ _ _ _ _ _ Hsh Ha Hia) as [Hsh2 Hev2].
  change ({[a]} ∪ {[b]}) with ({[a; b]} : gset Z) in Hsh2, Hev2.
  assert (split_right ta = b) as Hab.
  { pose proof (sp_at _ _ Hb) as Eb. rewrite Hl in Eb.
    by apply (right_of_left _ (h_runs Hsh) _ _ _ _ _ _ _ _ (h_sp _ _ _ _ Hsh) Eb Ha0 (sp_at _ _ Ha)). }
  pose proof (off_lists_ls _ _ _ _ _ _ Hsh Hb Hib) as Hlb. pose proof (conj Hsub Hsh2 : heap_ok _ _ _ _) as Hok2.
  destruct (merge_writes s H fl a b ta tb Hok2 Ha Hb Hab a) as (s1 & E1 & Hsub1 & F1).
  destruct (merged_shape s H fl a b ta tb Hok2 Ha Hb Hab Hlb s1 Hsub1 F1) as [Hok1 Hev1].
  pose proof (merged_here s H fl a b ta tb Hok2 Ha Hb Hab) as Ha1.
  destruct (heap_remove _ _ _ _ a _ Hok1 Ha1 Hia ltac:(set_solver)) as (s' & H' & fl' & E2 & Hok' & Hev' & Hr & _).
  destruct (relisted_at _ _ _ _ _ _ Hr Ha1) as (ta' & Ha' & _ & _ & Ei). rewrite decide_True in Ei by done.
  exists s', H', fl', ta'. split_and!; try done.
  - unfold melt_left. rewrite bind_assoc_M. rewrite (bind_done _ _ _ _ _ (get_tag_ok _ _ _ _ Hsub Hb)). cbv zeta. rewrite Hl.
    rewrite bind_assoc_M, (bind_done _ _ _ _ _ (get_tag_ok _ _ _ _ Hsub Ha)). rewrite (bind_done _ _ _ _ _ E1).
    by rewrite (bind_done _ _ _ _ _ E2).
  - eapply evolves_trans; [exact Hev2|]. by eapply evolves_trans.
  - rewrite (relisted_size _ _ _ _ Hr). by eapply merged_size.
Qed.

(** [b] takes in the free tag on its right. *)
Lemma absorb_right_step c tc : split_right tb = c -> c <> 0 -> H !! c = Some tc -> index tc <> -1 ->
  exists s' H' fl' tb', absorb_right b s = Done s' b /\
    heap_ok {[b]} s' H' fl' /\ evolves {[b]} H s {[b]} H' s' /\ base.size H = S (base.size H') /\ H' !! b = Some tb' /\
    index tb' = -1 /\ split_left tb' = split_left tb.
Proof.
  intros Hl Hc0 Hc Hic. destruct Hok as [Hsub Hsh]. destruct (shape_take _ _ _ _ _ _ Hsh Hc Hic) as [Hsh2 Hev2].
  rewrite pair_comm in Hsh2, Hev2. pose proof (conj Hsub Hsh2 : heap_ok _ _ _ _) as Hok2.
  destruct (heap_remove _ _ _ _ c _ Hok2 Hc Hic ltac:(set_solver)) as (s1 & H1 & fl1 & E1 & Hok1 & Hev1 & Hr & _).
  assert (b <> c) as Hbc by congruence.
  destruct (relisted_at _ _ _ _ _ _ Hr Hb) as (tb1 & Hb1 & _ & Es & Ei). rewrite decide_False in Ei by done. injection Es as Es1 Es2 Es3.
  destruct (relisted_at _ _ _ _ _ _ Hr Hc) as (tc1 & Hc1 & _ & _ & Ei'). rewrite decide_True in Ei' by done.
  rewrite Hl in Es3. pose proof (off_lists_ls _ _ _ _ _ _ (proj2 Hok1) Hc1 Ei') as Hlc.
  destruct (merge_writes s1 H1 fl1 b c tb1 tc1 Hok1 Hb1 Hc1 Es3 b) as (s2 & E2 & Hsub2 & F2).
  destruct (merged_shape s1 H1 fl1 b c tb1 tc1 Hok1 Hb1 Hc1 Es3 Hlc s2 Hsub2 F2) as [Hok' Hev'].
  exists s2, (merged H1 b c tb1 tc1), fl1, (both tb1 tc1). split_and!; try done.
  - unfold absorb_right. rewrite (bind_done _ _ _ _ _ (get_tag_ok _ _ _ _ Hsub Hb)). cbv zeta. rewrite Hl, (bind_done _ _ _ _ _ E1).
    rewrite (bind_done _ _ _ _ _ (get_tag_ok _ _ _ _ (proj1 Hok1) Hc1)).
    by rewrite (bind_upd_tag _ _ _ _ _ _ (proj1 Hok1) Hb1).
  - eapply evolves_trans; [exact Hev2|]. by eapply evolves_trans.
  - rewrite <- (relisted_size _ _ _ _ Hr). by eapply merged_size.
  - by apply (merged_here s1 H1 fl1).
  - cbn. congruence.
Qed.

End melt.

End steps.

End HeapSteps.
