(* ===== verification/HeapSplit.v ===== *)
(** [split_tag]: the unused end of a block becomes a free tag of its own. *)
From S2P Require Import Prelude Heap HeapInv HeapFacts HeapSteps.

Module HeapSplit.
Import Heap HeapInv HeapFacts HeapSteps.

Section split.
Context {P : Type} (liballoc_alloc : Z -> M P Z) (liballoc_free : Z -> Z -> M P Z).
Context `{!page_source liballoc_alloc liballoc_free}.
Local Notation granted := (granted (alloc := liballoc_alloc) (release := liballoc_free)).
Local Notation heap_ok := (heap_ok liballoc_alloc liballoc_free).
Local Notation shape := (shape liballoc_alloc liballoc_free).

Context (s : hst P) (H : gmap Z boundary_tag) (fl : list (list Z)) (a sz : Z) (t : boundary_tag).
Context (Hok : heap_ok {[a]} s H fl) (Ha : H !! a = Some t) (Hi : index t = -1) (Hsz : size t = sz) (Hsz0 : 0 <= sz).
Context (Hroom : sz + TAGSZ + TAGSZ <= real_size t).
Context (junk_size junk_index : Z).

Definition rest : Z := a + TAGSZ + sz.
Definition remainder : Z := real_size t - TAGSZ - sz.
Definition new_tag (i : Z) : boundary_tag := mk_tag LIBALLOC_MAGIC junk_size remainder i a (split_right t) 0 0.
Definition cut : boundary_tag := set_real (real_size t - remainder) (set_right rest t).

(** The three writes; [i] is the bucket that the new tag seems to be in. *)
Definition parted (i : Z) : gmap Z boundary_tag :=
  let H1 := <[rest := new_tag i]> H in
  let H2 := if decide (split_right t = 0) then H1 else alter (set_left rest) (split_right t) H1 in
  <[a := cut]> H2.

Lemma split_around : 0 < a /\ real_size t < 2 ^ 32 /\ a + real_size t < 2 ^ 64 /\
  (split_right t = 0 \/ split_right t = a + real_size t /\ is_Some (H !! split_right t)).
Proof.
  destruct Hok as [_ Hsh]. pose proof (h_range _ _ Hsh _ _ Ha). split_and!; try lia.
  destruct (decide (split_right t = 0)) as [|Hne]; [by left|]. right.
  destruct (sp_right _ _ (h_sp _ _ _ _ _ _ Hsh) _ _ _ _ (sp_at _ _ Ha) Hne) as (E2 & r & l & x & E3). split; [done|].
  rewrite lookup_fmap in E3. by destruct (H !! split_right t).
Qed.

Lemma rest_fresh c tc : H !! c = Some tc -> c <> rest /\ (c = a \/ c + real_size tc <= a \/ a + real_size t <= c).
Proof.
  intros Hc. destruct Hok as [_ Hsh]. destruct (decide (c = a)) as [->|Hne]; [unfold rest; split; [lia|by left]|].
  pose proof (h_disj _ _ Hsh _ _ _ _ Hc Ha Hne). pose proof (h_range _ _ Hsh _ _ Hc). unfold rest. split; lia.
Qed.

Lemma parted_zero i : (<[rest := new_tag i]> H) !! 0 = None.
Proof. destruct split_around as (? & _). rewrite lookup_insert_ne by (unfold rest; lia). apply (h_zero _ _ (proj2 Hok)). Qed.

Lemma parted_here i : parted i !! a = Some cut.
Proof. apply lookup_insert_eq. Qed.

Lemma parted_rest i : parted i !! rest = Some (new_tag i).
Proof.
  unfold parted. cbv zeta. rewrite lookup_insert_ne by (unfold rest; lia). rewrite upd_if_lookup by apply parted_zero.
  rewrite lookup_insert_eq. cbn [fmap option_fmap option_map]. rewrite decide_False; [done|].
  destruct split_around as (? & ? & ? & [E|[E _]]); unfold rest; lia.
Qed.

Lemma parted_other i c : c <> a -> c <> rest -> parted i !! c = (fun t0 => if decide (c = split_right t) then set_left rest t0 else t0) <$> H !! c.
Proof.
  intros Hca Hcd. unfold parted. cbv zeta. rewrite lookup_insert_ne by done. rewrite upd_if_lookup by apply parted_zero.
  by rewrite lookup_insert_ne.
Qed.

Lemma parted_back i c tc : parted i !! c = Some tc -> c <> a -> c <> rest ->
  exists t0, H !! c = Some t0 /\ magic tc = magic t0 /\ size tc = size t0 /\ index tc = index t0 /\ real_size tc = real_size t0 /\ split_right tc = split_right t0.
Proof.
  intros Hc Hca Hcd. rewrite parted_other in Hc by done. destruct (H !! c) as [t0|]; [|done]. injection Hc as <-. exists t0. by destruct (decide _).
Qed.

Lemma parted_index i : <[rest := set_index (-1) (new_tag i)]> (parted i) = parted (-1).
Proof.
  apply map_eq. intros c. destruct (decide (c = rest)) as [->|Hcd]; [by rewrite lookup_insert_eq, parted_rest|].
  rewrite lookup_insert_ne by done. destruct (decide (c = a)) as [->|Hca]; [by rewrite !parted_here|]. by rewrite !parted_other.
Qed.

Lemma cut_sp : sp cut = (TAGSZ + sz, split_left t, rest).
Proof.
  destruct split_around as (? & ? & _). unfold sp, cut, remainder. cbn [real_size set_real set_right split_left split_right].
  rewrite wrap_small by lia. do 2 f_equal. lia.
Qed.

Lemma parted_ls : ls <$> parted (-1) = <[rest := (-1, 0, 0)]> (ls <$> H).
Proof.
  apply map_eq. intros c. rewrite lookup_fmap. destruct (decide (c = rest)) as [->|Hcd]; [by rewrite lookup_insert_eq, parted_rest|].
  rewrite lookup_insert_ne, lookup_fmap by done. destruct (decide (c = a)) as [->|Hca]; [by rewrite parted_here, Ha|].
  rewrite parted_other by done. destruct (H !! c); [|done]. cbn. by destruct (decide _).
Qed.

Lemma parted_spatial : spatial (granted (src s)) (sp <$> parted (-1)).
Proof.
  destruct Hok as [_ Hsh].
  eapply (spatial_split _ (h_runs _ _ Hsh) (sp <$> H) _ a _ _ (split_right t) (TAGSZ + sz) rest); [apply Hsh|exact (sp_at _ _ Ha)|unfold rest; lia|lia|lia|..].
  - rewrite lookup_fmap, parted_here. cbn. by rewrite cut_sp.
  - rewrite lookup_fmap, parted_rest. unfold sp, remainder. cbn. unfold remainder. do 3 f_equal. lia.
  - intros c Hca Hcb. rewrite !lookup_fmap, parted_other by done. destruct (H !! c) as [tc|]; [|done]. unfold sp. cbn. by destruct (decide _).
Qed.

Lemma split_writes {A} (k : M (hst P) A) :
  exists s', (_ ← put_tag rest (new_tag junk_index);
     _ ← (if split_right t =? 0 then mret tt else upd_tag (split_right t) (set_left rest));
     _ ← upd_tag a (fun t => set_real (real_size t - remainder) (set_right rest t)); k) s = k s' /\
    parted junk_index ⊆ tags s' /\ frame (fun x => headers H x \/ rest <= x < rest + TAGSZ) s s'.
Proof.
  destruct Hok as [Hsub Hsh]. pose proof split_around as (Q1 & Q2 & Q3 & Hx).
  assert (forall c tc, H !! c = Some tc -> c <> rest -> c + TAGSZ <= rest \/ rest + TAGSZ <= c) as Hapart.
  { intros c tc Hc _. pose proof (h_range _ _ Hsh _ _ Hc). destruct (rest_fresh _ _ Hc) as [_ [->|Hd]]; unfold rest; lia. }
  destruct (put_tag_ok s H rest (new_tag junk_index) Hsub Hapart) as (s1 & P1 & Hsub1 & F1).
  rewrite (bind_done _ _ _ _ _ P1). set (H1 := <[rest := _]> H) in *.
  assert (sep H1) as Hsep1.
  { intros c d tc td [[<- _]|[Hc1 Hc]]%lookup_insert_Some [[<- _]|[Hd1 Hd]]%lookup_insert_Some Hne; [done|..|by eapply (h_sep _ _ Hsh)].
    - specialize (Hapart _ _ Hd ltac:(done)). lia.
    - specialize (Hapart _ _ Hc ltac:(done)). lia. }
  assert (H1 !! a = Some t) as Ha1 by (unfold H1; by rewrite lookup_insert_ne by (unfold rest; lia)).
  assert (split_right t <> 0 -> is_Some (H1 !! split_right t)) as Hx1.
  { intros Hne. destruct Hx as [|[E [tx Ex]]]; [done|]. unfold H1. rewrite lookup_insert_ne by (unfold rest; lia). by eexists. }
  assert (forall x, headers H1 x -> headers H x \/ rest <= x < rest + TAGSZ) as Hh1.
  { intros x (c & [tc [[<- _]|[_ Hc]]%lookup_insert_Some] & Hxx); [by right|left]. exists c. split; [by eexists|done]. }
  destruct (upd_if_ok s1 H1 (split_right t) (set_left rest) Hsub1 Hsep1 Hx1 (parted_zero _)) as (s2 & P2 & Hsub2 & Hsep2 & F2).
  pose proof (fun d => upd_if_lookup H1 (split_right t) (set_left rest) d (parted_zero _)) as L2.
  pose proof (fun d => upd_if_dom H1 (split_right t) (set_left rest) d (parted_zero _)) as D2.
  rewrite (bind_done _ _ _ _ _ P2). unfold parted. cbv zeta. fold H1. set (H2 := if decide (split_right t = 0) then H1 else _) in *.
  assert (H2 !! a = Some t) as Ha2 by (rewrite L2, Ha1; cbn; f_equal; apply decide_False; lia).
  destruct (upd_tag_ok s2 H2 a t (fun t => set_real (real_size t - remainder) (set_right rest t)) Hsub2 Hsep2 Ha2) as (s3 & P3 & Hsub3 & _ & F3).
  rewrite (bind_done _ _ _ _ _ P3). exists s3. split_and!; [done|done|].
  eapply frame_trans; [eapply frame_weaken; [|exact F1]; by right|].
  eapply frame_trans; (eapply frame_weaken; [|eassumption]); [apply Hh1|].
  intros x Hxx. apply Hh1. by apply (headers_same H1) in Hxx.
Qed.

Lemma parted_shape s' : frame (fun x => headers H x \/ rest <= x < rest + TAGSZ) s s' ->
  shape {[rest]} s' (parted (-1)) fl /\ grown {[a]} H s {[rest]} (parted (-1)) s' a sz.
Proof.
  destruct Hok as [_ Hsh]. intros [F1 F2 F3 F4 F5]. pose proof (f_equal (fun p => p.1.1) cut_sp : real_size cut = TAGSZ + sz) as Hcr.
  assert (a <> rest) as Hne by (unfold rest; lia). split.
  - split; rewrite ?F1, ?F2, ?F3, ?F4; try apply Hsh.
    + apply parted_spatial.
    + rewrite parted_ls. destruct split_around as (? & _). apply lists_add; [apply Hsh|unfold rest; lia|].
      rewrite lookup_fmap. destruct (H !! rest) as [tr|] eqn:E; [|done]. by destruct (rest_fresh _ _ E).
    + intros c tc Hc. destruct (decide (c = a)) as [->|Hca].
      { rewrite parted_here in Hc. injection Hc as <-. exact (h_magic _ _ _ _ _ _ Hsh a t Ha). }
      destruct (decide (c = rest)) as [->|Hcd]; [rewrite parted_rest in Hc; by injection Hc as <-|].
      destruct (parted_back _ c tc Hc Hca Hcd) as (t0 & Hc0 & -> & _). by eapply (h_magic _ _ _ _ _ _ Hsh).
    + intros c tc Hc Hic Hx. destruct (decide (c = a)) as [->|Hca].
      { rewrite parted_here in Hc. injection Hc as <-. rewrite Hcr. cbn. lia. }
      destruct (parted_back _ c tc Hc Hca ltac:(set_solver)) as (t0 & Hc0 & _ & -> & Ei & -> & _).
      apply (h_used _ _ _ _ _ _ Hsh c); [done|congruence|set_solver].
    + intros c tc r Hc Hr Hx Hx'. destruct (decide (c = a)) as [->|Hca].
      { rewrite parted_here in Hc. injection Hc as <-. by left. }
      destruct (decide (split_right tc = a)) as [Era|Hra].
      { right. rewrite Era, parted_here in Hr. by injection Hr as <-. }
      destruct (parted_back _ c tc Hc Hca ltac:(set_solver)) as (t0 & Hc0 & _ & _ & -> & _ & Er).
      destruct (parted_back _ _ r Hr Hra ltac:(set_solver)) as (r0 & Hr0 & _ & _ & -> & _). rewrite Er in *.
      apply (h_coal _ _ _ _ _ _ Hsh c t0 r0); [done|done|set_solver|set_solver].
    + intros E%(h_init _ _ _ _ _ _ Hsh). by rewrite E in Ha.
  - split.
    + intros c z. split.
      * intros (tc & Hc & Hic & Hz & Hx). destruct (decide (c = a)) as [->|Hca].
        { left. rewrite parted_here in Hc. injection Hc as <-. cbn in Hz. split; [done|congruence]. }
        right. destruct (parted_back _ c tc Hc Hca ltac:(set_solver)) as (t0 & Hc0 & _ & E1 & E2 & _). exists t0.
        split_and!; [done|congruence|congruence|set_solver].
      * intros [[-> ->]|(tc & Hc & Hic & Hz & Hx)].
        { exists cut. rewrite parted_here. split_and!; try done. set_solver. }
        destruct (rest_fresh _ _ Hc) as [Hcd _]. eexists. rewrite parted_other, Hc by set_solver. split; [done|].
        split_and!; [..|set_solver]; by destruct (decide _).
    + intros c z x Hc Hx. apply F5. intros [Hh|Hh]; [by eapply (live_headers _ _ Hsh) in Hh|].
      pose proof (live_apart _ _ Hsh c z a t Hc Ha) as Hap. destruct Hc as (_ & _ & _ & _ & Hcx'). unfold rest in Hh. set_solver by lia.
Qed.

(** What is behind the block becomes a free tag; the block is handed out. *)
Lemma heap_split : right_used H a t ->
  exists s' H' fl', split_tag junk_size junk_index a s = Done s' rest /\ heap_ok ∅ s' H' fl' /\ grown {[a]} H s ∅ H' s' a sz.
Proof.
  intros Hru. destruct split_around as (Q1 & Q2 & Q3 & _).
  destruct (split_writes (_ ← insert_tag rest (-1); mret rest)) as (s1 & E1 & Hsub1 & F1).
  destruct (parted_shape s1 F1) as [Hsh1 Hg1].
  destruct (heap_insert _ _ {[rest]} s1 (parted junk_index) fl rest (new_tag junk_index) (-1)) as (s' & H' & fl' & E & [Hsub' Hok'] & Hev & Hr & _);
    rewrite ?parted_index; try done; [apply parted_rest|set_solver|by left|]. rewrite parted_index in Hev, Hr.
  destruct (relisted_at _ _ _ _ _ _ Hr (parted_rest (-1))) as (tn & Hn & _ & Es & Ei). rewrite decide_True in Ei by done. injection Es as _ El Er.
  pose proof (grown_evolves _ _ _ _ _ _ _ _ _ _ _ Hg1 Hev) as Hg.
  destruct (shape_shrink _ _ _ _ _ _ _ Hok' Hn) as [Hok2 Hev2].
  - rewrite Ei. unfold bucket. lia.
  - unfold left_used. rewrite El. intros _. exists sz. apply (gr_live _ _ _ _ _ _ _ _ Hg). by left.
  - unfold right_used. rewrite Er. intros Hne. destruct (Hru Hne) as [z Hz]. exists z. apply (gr_live _ _ _ _ _ _ _ _ Hg). by right.
  - exists s', H', fl'. split; [|split; [done|by eapply grown_evolves]].
    unfold split_tag. rewrite (bind_done _ _ _ _ _ (get_tag_ok _ _ _ _ (proj1 Hok) Ha)). cbv zeta. rewrite Hsz. rewrite !wrap_small by lia.
    fold remainder rest (new_tag junk_index). rewrite E1. by rewrite (bind_done _ _ _ _ _ E).
Qed.

End split.

End HeapSplit.
