(* ===== verification/HeapSpec.v ===== *)
(** The kernel heap keeps its promises: [malloc] hands out memory that nobody
    else holds, [free] takes back one block and leaves the others alone, and
    [realloc] moves the contents. *)
From S2P Require Import Prelude Heap HeapInv HeapFacts HeapSteps HeapSplit.

Module HeapSpec.
Import Heap HeapInv HeapFacts HeapSteps HeapSplit.

Section spec.
Context {P : Type} (liballoc_alloc : Z -> M P Z) (liballoc_free : Z -> Z -> M P Z).
Context `{!page_source liballoc_alloc liballoc_free}.
Implicit Types (s : hst P) (H : gmap Z boundary_tag) (X : gset Z).
Local Notation granted := (granted (alloc := liballoc_alloc) (release := liballoc_free)).
Local Notation heap_ok := (heap_ok liballoc_alloc liballoc_free).
Local Notation shape := (shape liballoc_alloc liballoc_free).

(** ** Release *)

Lemma bind_last {A B} (m : M (hst P) A) (n : A -> M (hst P) unit) (k : A -> M (hst P) B) s s' a :
  (x ← m; _ ← n x; mret x) s = Done s' a -> (x ← m; _ ← n x; k x) s = k a s'.
Proof.
  unfold mbind, M_bind. destruct (m s) as [s1 x|]; [|done]. destruct (n x s1) as [s2 []|]; [|done]. by intros [= -> ->].
Qed.

Lemma melt_left_loop_ok fuel : forall s H fl b tb,
  heap_ok {[b]} s H fl -> H !! b = Some tb -> index tb = -1 -> (base.size H <= fuel)%nat ->
  exists s' H' fl' a ta, melt_left_loop fuel b s = Done s' a /\ heap_ok {[a]} s' H' fl' /\ evolves {[b]} H s {[a]} H' s' /\
    H' !! a = Some ta /\ index ta = -1 /\ left_used H' a ta /\ (base.size H' <= base.size H)%nat.
Proof.
  induction fuel as [|fuel IH]; intros s H fl b tb Hok Hb Hi Hsz.
  - pose proof (map_size_ne_0_lookup_2 H b ltac:(by rewrite Hb)). lia.
  - cbn [melt_left_loop]. rewrite (bind_done _ _ _ _ _ (get_tag_ok _ _ _ _ (proj1 Hok) Hb)).
    destruct (Z.eqb_spec (split_left tb) 0) as [Hl0|Hl0].
    { exists s, H, fl, b, tb. split_and!; try done. by intros Hne. }
    destruct (left_tag _ _ _ _ _ _ _ _ (proj2 Hok) Hb Hl0) as (l & Hl & Hne & _).
    rewrite (bind_done _ _ _ _ _ (get_tag_ok _ _ _ _ (proj1 Hok) Hl)).
    destruct (index_cases _ _ _ _ _ _ _ _ (proj2 Hok) Hl) as [[-> Hil]|[-> Hil]].
    { exists s, H, fl, b, tb. split_and!; try done. intros _. exists (size l), l. split_and!; try done. set_solver. }
    destruct (melt_left_step _ _ s H fl b tb Hok Hb Hi _ l eq_refl Hl0 Hl Hil) as (s1 & H1 & fl1 & t1 & E1 & Hok1 & Hev1 & Hsz1 & Ht1 & Hi1).
    rewrite (bind_last _ _ (melt_left_loop fuel) _ _ _ E1).
    destruct (IH s1 H1 fl1 _ t1 Hok1 Ht1 Hi1 ltac:(lia)) as (s' & H' & fl' & a & ta & E & Hok' & Hev' & Hrest).
    exists s', H', fl', a, ta. split_and!; try done; try apply Hrest; [by eapply evolves_trans|]. destruct Hrest as (_ & _ & _ & ?). lia.
Qed.

Lemma melt_right_loop_ok fuel : forall s H fl b tb,
  heap_ok {[b]} s H fl -> H !! b = Some tb -> index tb = -1 -> left_used H b tb -> (base.size H <= fuel)%nat ->
  exists s' H' fl' ta, melt_right_loop fuel b s = Done s' b /\ heap_ok {[b]} s' H' fl' /\ evolves {[b]} H s {[b]} H' s' /\
    H' !! b = Some ta /\ index ta = -1 /\ left_used H' b ta /\ right_used H' b ta.
Proof.
  induction fuel as [|fuel IH]; intros s H fl b tb Hok Hb Hi Hlu Hsz.
  - pose proof (map_size_ne_0_lookup_2 H b ltac:(by rewrite Hb)). lia.
  - cbn [melt_right_loop]. rewrite (bind_done _ _ _ _ _ (get_tag_ok _ _ _ _ (proj1 Hok) Hb)).
    destruct (Z.eqb_spec (split_right tb) 0) as [Hr0|Hr0].
    { exists s, H, fl, tb. split_and!; try done. by intros Hne. }
    destruct (right_tag _ _ _ _ _ _ _ _ (proj2 Hok) Hb Hr0) as (r & Hr & Hne & _).
    rewrite (bind_done _ _ _ _ _ (get_tag_ok _ _ _ _ (proj1 Hok) Hr)).
    destruct (index_cases _ _ _ _ _ _ _ _ (proj2 Hok) Hr) as [[-> Hir]|[-> Hir]].
    { exists s, H, fl, tb. split_and!; try done. intros _. exists (size r), r. split_and!; try done. set_solver. }
    destruct (absorb_right_step _ _ s H fl b tb Hok Hb Hi _ r eq_refl Hr0 Hr Hir) as (s1 & H1 & fl1 & t1 & E1 & Hok1 & Hev1 & Hsz1 & Ht1 & Hi1 & Hl1).
    rewrite (bind_done _ _ _ _ _ E1).
    destruct (IH s1 H1 fl1 b t1 Hok1 Ht1 ltac:(congruence)) as (s' & H' & fl' & ta & E & Hok' & Hev' & Hrest); [|lia|].
    { unfold left_used. rewrite Hl1. intros Hne0. destruct (Hlu Hne0) as [z Hz]. exists z. by apply (ev_live _ _ _ _ _ _ Hev1). }
    exists s', H', fl', ta. split_and!; try done; try apply Hrest. by eapply evolves_trans.
Qed.

(** The last step of [free]: the tag goes on its list ... *)
Lemma insert_back s H fl a t :
  heap_ok {[a]} s H fl -> H !! a = Some t -> index t = -1 -> left_used H a t -> right_used H a t ->
  exists s' H' fl', insert_tag a (bucket (real_size t)) s = Done s' tt /\ heap_ok ∅ s' H' fl' /\ evolves {[a]} H s ∅ H' s'.
Proof.
  intros [Hsub Hok] Ha Hi Hlu Hru. pose proof (off_lists_ls _ _ _ _ _ _ _ _ Hok Ha Hi) as Hls. injection Hls as _ Hn Hp.
  assert (<[a := set_index (-1) t]> H = H) as Hid. { apply insert_id. rewrite Ha. f_equal. rewrite <- Hi. by destruct t. }
  destruct (heap_insert _ _ {[a]} s H fl a t (bucket (real_size t))) as (s' & H' & fl' & E & [Hsub' Hok'] & Hev & Hr & _);
    rewrite ?Hid; try done; [set_solver|by right|]. rewrite Hid in Hev, Hr.
  destruct (relisted_at _ _ _ _ _ _ Hr Ha) as (t' & Ha' & _ & Es & Ei). rewrite decide_True in Ei by done. injection Es as _ El Er.
  destruct (shape_shrink _ _ _ _ _ _ _ Hok' Ha') as [Hok2 Hev2].
  - rewrite Ei. unfold bucket. lia.
  - unfold left_used. rewrite El. intros Hne. destruct (Hlu Hne) as [z Hz]. exists z. by apply (ev_live _ _ _ _ _ _ Hev).
  - unfold right_used. rewrite Er. intros Hne. destruct (Hru Hne) as [z Hz]. exists z. by apply (ev_live _ _ _ _ _ _ Hev).
  - exists s', H', fl'. split_and!; try done. by eapply evolves_trans.
Qed.

Lemma pages_for_run n : l_pageCount <= n -> pages_for (4096 * n) = n.
Proof.
  intros Hn. unfold pages_for, l_pageSize. rewrite Z.mul_comm, Z.div_mul, Z.mod_mul by done. cbn. lia.
Qed.

(** ... or the whole run goes back. *)
Lemma release_run s H fl a t :
  heap_ok {[a]} s H fl -> H !! a = Some t -> index t = -1 -> split_left t = 0 -> split_right t = 0 ->
  exists s', (let pages := pages_for (real_size t) in
      _ ← onsrc (liballoc_free a (s32 pages)); remap a (pages * l_pageSize)) s = Done s' tt /\
    heap_ok ∅ s' (delete a H) fl /\ evolves {[a]} H s ∅ (delete a H) s'.
Proof.
  intros [Hsub Hok] Ha Hi Hl Hr. pose proof (sp_at _ _ Ha) as Ea. rewrite Hl, Hr in Ea.
  destruct (spatial_drop _ (h_runs _ _ Hok) _ _ _ (h_sp _ _ _ _ _ _ Hok) Ea) as [Hsp' HG].
  destruct (sp_run _ _ (h_sp _ _ _ _ _ _ Hok) _ _ _ _ Ea) as (b & n & Hb & _ & _ & B3 & B4).
  assert (b = a) as -> by (symmetry; by apply B3). assert (real_size t = 4096 * n) as Hrs by (destruct B4 as [B4 _]; specialize (B4 eq_refl); lia).
  pose proof (run_size _ (h_runs _ _ Hok) _ _ Hb) as Hsz. pose proof (h_big _ _ _ _ _ _ Hok _ _ Hb) as Hbig.
  destruct (release_law (src s) a n (h_src _ _ _ _ _ _ Hok) Hb) as (p' & r & Ep & Hp' & HG').
  rewrite Hrs, pages_for_run by done. cbv zeta. rewrite s32_small by lia.
  eexists. split; [|split; [split|]].
  - unfold onsrc, mbind, M_bind. by rewrite Ep.
  - cbn [tags set_mem]. apply map_subseteq_spec. intros c tc [Hne Hc]%lookup_delete_Some. unfold tags_off, l_pageSize.
    apply map_lookup_filter_Some. split; [by eapply lookup_weaken|]. cbn. pose proof (h_range _ _ Hok _ _ Hc).
    destruct (h_disj _ _ Hok _ _ _ _ Hc Ha ltac:(done)); lia.
  - split; cbn [set_mem src l_freePages l_completePages l_initialized]; try apply Hok; try done.
    + rewrite HG'. intros c m [_ Hc]%lookup_delete_Some. by apply (h_big _ _ _ _ _ _ Hok c).
    + by rewrite HG', fmap_delete.
    + rewrite fmap_delete. apply lists_del; [apply Hok|]. rewrite lookup_fmap, Ha. cbn. by rewrite (off_lists_ls _ _ _ _ _ _ _ _ Hok Ha Hi).
    + intros c tc [_ Hc]%lookup_delete_Some. by apply (h_magic _ _ _ _ _ _ Hok c).
    + intros c tc [Hne Hc]%lookup_delete_Some Hic _. apply (h_used _ _ _ _ _ _ Hok c); [done|done|set_solver].
    + intros c tc rc [Hne Hc]%lookup_delete_Some [Hne' Hc']%lookup_delete_Some _ _. apply (h_coal _ _ _ _ _ _ Hok c tc rc); [done|done|set_solver|set_solver].
    + intros Hin%(h_init _ _ _ _ _ _ Hok). by rewrite Hin, delete_empty.
  - split.
    + intros c z. split; intros (tc & Hc & Hic & Hz & Hx); exists tc.
      * apply lookup_delete_Some in Hc as [Hne Hc]. split_and!; [done..|set_solver].
      * rewrite lookup_delete_ne by set_solver. split_and!; [done..|set_solver].
    + intros c z x Hc Hx. cbn [bytes set_mem]. unfold bytes_off, l_pageSize. destruct Hc as (tc & Hc & Hic & Hz & Hcx).
      pose proof (live_apart _ _ Hok c z a t ltac:(by exists tc) Ha ltac:(set_solver)).
      pose proof (h_used _ _ _ _ _ _ Hok _ _ Hc Hic Hcx).
      destruct (bytes s !! x) as [bx|] eqn:E; [apply map_lookup_filter_Some; split; [done|]; cbn; lia|apply map_lookup_filter_None; by left].
Qed.

Lemma complete_ok X s H fl i : shape X s H fl -> (i < MAXEXP)%nat ->
  exists c, get_complete (Z.of_nat i) s = Done s c /\ forall v, exists l, put_complete (Z.of_nat i) v s = Done (set_complete l s) tt /\ length l = MAXEXP.
Proof.
  intros Hok Hi. pose proof (h_complete _ _ _ _ _ _ Hok) as Hlen.
  destruct (aget_is_Some (l_completePages s) (Z.of_nat i)) as [c Hc]; [lia|]. exists c. split.
  - unfold get_complete, mbind, M_bind, get. by rewrite Hc.
  - intros v. eexists. unfold put_complete, mbind, M_bind, get. rewrite aset_in by lia. split; [done|]. by rewrite length_insert.
Qed.

Lemma heap_complete X s H fl l : heap_ok X s H fl -> length l = MAXEXP -> heap_ok X (set_complete l s) H fl.
Proof. intros [Hsub Hok] Hl. split; [done|]. by destruct Hok; split. Qed.

Lemma size_tags X s H fl : heap_ok X s H fl -> (base.size H <= base.size (tags s))%nat.
Proof. intros [Hsub _]. by apply map_subseteq_size. Qed.

(** [free] takes back the block behind [a] and nothing else. *)
Lemma free_ok s H fl a z :
  heap_ok ∅ s H fl -> live ∅ H a z ->
  exists s' H' fl', free liballoc_free (a + TAGSZ) s = Done s' tt /\ heap_ok ∅ s' H' fl' /\ evolves {[a]} H s ∅ H' s'.
Proof.
  intros Hok (t & Ha & Hi & Hz & _). pose proof (h_range _ _ (proj2 Hok) _ _ Ha) as Hrg.
  pose proof (conj (proj1 Hok) (shape_weaken _ _ (proj2 Hok) {[a]} ltac:(set_solver)) : heap_ok {[a]} s H fl) as Hok1.
  unfold free. rewrite (proj2 (Z.eqb_neq _ _)) by lia. cbv zeta. rewrite Z.add_simpl_r, wrap_small by lia.
  rewrite (bind_done _ _ _ _ _ (get_tag_ok _ _ _ _ (proj1 Hok) Ha)). rewrite (h_magic _ _ _ _ _ _ (proj2 Hok) _ _ Ha), Z.eqb_refl.
  cbn [negb]. rewrite (bind_done get _ s s s eq_refl).
  destruct (melt_left_loop_ok (base.size (tags s)) s H fl a t Hok1 Ha Hi (size_tags _ _ _ _ Hok))
    as (s1 & H1 & fl1 & b & t1 & E1 & Hok2 & Hev1 & Hb & Hi1 & Hlu1 & Hsz1). rewrite (bind_done _ _ _ _ _ E1).
  destruct (melt_right_loop_ok (base.size (tags s)) s1 H1 fl1 b t1 Hok2 Hb Hi1 Hlu1) as (s2 & H2 & fl2 & t2 & E2 & Hok3 & Hev2 & Hb2 & Hi2 & Hlu & Hru).
  { pose proof (size_tags _ _ _ _ Hok). lia. }
  rewrite (bind_done _ _ _ _ _ E2), (bind_done _ _ _ _ _ (get_tag_ok _ _ _ _ (proj1 Hok3) Hb2)).
  pose proof (evolves_trans _ _ _ _ _ _ _ _ _ Hev1 Hev2) as Hev. change (Z.max MINEXP _) with (bucket (real_size t2)).
  assert (forall l, length l = MAXEXP -> exists s' H' fl', insert_tag b (bucket (real_size t2)) (set_complete l s2) = Done s' tt /\
    heap_ok ∅ s' H' fl' /\ evolves {[a]} H s ∅ H' s') as Hins.
  { intros l Hl. destruct (insert_back _ H2 fl2 b t2 (heap_complete _ _ _ _ l Hok3 Hl) Hb2 Hi2 Hlu Hru) as (s' & H' & fl' & E & Hok' & Hev').
    exists s', H', fl'. split_and!; try done. eapply evolves_trans; [exact Hev|]. destruct Hev' as [V1 V2]. by split. }
  destruct ((split_left t2 =? 0) && (split_right t2 =? 0)) eqn:Elr.
  - apply andb_true_iff in Elr as [Hl0%Z.eqb_eq Hr0%Z.eqb_eq]. destruct (bucket_nat (real_size t2)) as (i & Ei & Hlt). rewrite <- Ei in *. destruct (complete_ok _ _ _ _ i (proj2 Hok3) Hlt) as (c & Ec & Hput).
    rewrite (bind_done _ _ _ _ _ Ec). destruct (c =? MAXCOMPLETE).
    + destruct (release_run s2 H2 fl2 b t2 Hok3 Hb2 Hi2 Hl0 Hr0) as (s' & E & Hok' & Hev'). exists s', (delete b H2), fl2.
      split_and!; try done. by eapply evolves_trans.
    + destruct (Hput (c + 1)) as (l & El & Hl). rewrite (bind_done _ _ _ _ _ El). by apply Hins.
  - destruct (Hins (l_completePages s2)) as (s' & H' & fl' & E & Hrest); [apply Hok3|]. exists s', H', fl'. split; [|done].
    by destruct s2.
Qed.

(** ** Allocation *)

Lemma init_lists_ok s H fl : heap_ok ∅ s H fl ->
  exists s' fl', init_lists s = Done s' tt /\ heap_ok ∅ s' H fl' /\ evolves ∅ H s ∅ H s' /\ l_initialized s' = true.
Proof.
  intros Hok. unfold init_lists. rewrite (bind_done get _ s s s eq_refl). destruct (l_initialized s) eqn:Ei; [by exists s, fl|].
  destruct Hok as [Hsub Hok]. pose proof (h_init _ _ _ _ _ _ Hok Ei) as HH.
  eexists _, (replicate MAXEXP []). split; [done|]. split; [split; [done|]|done].
  split; cbn [src l_freePages l_completePages l_initialized]; try apply Hok; try done.
  rewrite HH. split; [done|done| |].
  - intros i l [-> Hi]%lookup_replicate. split_and!; [done|apply NoDup_nil_2|]. by apply lookup_replicate.
  - intros a i n p Ha. by rewrite lookup_fmap, lookup_empty in Ha.
Qed.

Lemma find_in_ok X s H fl i need : heap_ok X s H fl -> forall fuel l p,
  seg (ls <$> H) i p l 0 -> (length l <= fuel)%nat ->
  exists r, find_in fuel (hd0 0 l) need s = Done s r /\
    (r = 0 \/ exists t, H !! r = Some t /\ index t = i /\ r <> 0 /\ need <= real_size t - TAGSZ).
Proof.
  intros [Hsub Hok]. induction fuel as [|fuel IH]; intros [|a l] p Hs Hlen; cbn [hd0 find_in length] in *; [by exists 0; auto|lia|by exists 0; auto|].
  destruct Hs as (Ha0 & Ha & Hs). rewrite lookup_fmap in Ha. destruct (H !! a) as [t|] eqn:Ea; [|done]. injection Ha as Ei En _.
  rewrite (proj2 (Z.eqb_neq a 0)) by done. rewrite (bind_done _ _ _ _ _ (get_tag_ok _ _ _ _ Hsub Ea)).
  pose proof (h_range _ _ Hok _ _ Ea). rewrite wrap_small by lia. destruct (Z.leb_spec need (real_size t - TAGSZ)).
  - exists a. split; [done|]. right. by exists t.
  - rewrite En. apply (IH l a Hs). lia.
Qed.

Lemma list_size H l : NoDup l -> (forall c, c ∈ l -> is_Some (H !! c)) -> (length l <= base.size H)%nat.
Proof.
  intros Hnd Hin. rewrite <- (size_list_to_set (C := gset Z) l Hnd), <- (size_dom (D := gset Z) H). apply subseteq_size.
  intros c Hc%elem_of_list_to_set. by apply elem_of_dom, Hin.
Qed.

Lemma search_ok X s H fl need : heap_ok X s H fl -> forall cnt i, (i + cnt <= MAXEXP)%nat ->
  exists r (j : nat), search cnt (Z.of_nat i) need s = Done s (r, Z.of_nat j) /\
    (r = 0 \/ exists t, H !! r = Some t /\ index t = Z.of_nat j /\ (j < MAXEXP)%nat /\ r <> 0 /\ need <= real_size t - TAGSZ).
Proof.
  intros Hok. induction cnt as [|cnt IH]; intros i Hi; cbn [search]; [exists 0, i; auto|].
  destruct (lookup_lt_is_Some_2 fl i) as [l Hl]; [rewrite (h_len _ _ _ _ _ _ (proj2 Hok)); lia|].
  destruct (ll_seg _ _ _ (h_ls _ _ _ _ _ _ (proj2 Hok)) _ _ Hl) as (Hs & Hnd & Hh).
  rewrite (bind_done _ _ _ _ _ (get_head_ok _ _ _ Hh)), (bind_done get _ s s s eq_refl).
  destruct (find_in_ok _ _ _ _ (Z.of_nat i) need Hok (base.size (tags s)) l 0 Hs) as (r & Er & Hr).
  { etransitivity; [apply (list_size H l Hnd)|by eapply size_tags]. intros c Hc. by eapply seg_some. }
  rewrite (bind_done _ _ _ _ _ Er). destruct (Z.eqb_spec r 0) as [->|Hr0]; cbn [negb].
  - replace (Z.of_nat i + 1) with (Z.of_nat (S i)) by lia. apply IH. lia.
  - exists r, i. split; [done|]. destruct Hr as [|(t & Ht & Hti & _ & Hn)]; [done|]. right. exists t. split_and!; try done. lia.
Qed.

(** A tag in hand, ready to become a block of [sz] bytes. *)
Definition ready H a sz : Prop := exists t, H !! a = Some t /\ index t = -1 /\ sz + TAGSZ <= real_size t /\ right_used H a t.

(** A free tag becomes one. *)
Lemma take_found_ok s H fl a j t sz :
  heap_ok ∅ s H fl -> H !! a = Some t -> index t = Z.of_nat j -> (j < MAXEXP)%nat -> sz + TAGSZ <= real_size t ->
  exists s' H' fl', take_found a (Z.of_nat j) s = Done s' tt /\ heap_ok {[a]} s' H' fl' /\ evolves ∅ H s {[a]} H' s' /\ ready H' a sz.
Proof.
  intros Hok Ha Hi Hj Hsz. destruct (shape_take _ _ _ _ _ _ _ _ (proj2 Hok) Ha ltac:(lia)) as [Hok1 Hev1].
  rewrite (right_id_L ∅ (∪)) in Hok1, Hev1. pose proof (conj (proj1 Hok) Hok1 : heap_ok {[a]} s H fl) as Hok2.
  destruct (heap_remove _ _ {[a]} s H fl a t Hok2 Ha ltac:(lia) ltac:(set_solver)) as (s1 & H1 & fl1 & E1 & Hok3 & Hev2 & Hr & _).
  destruct (relisted_at _ _ _ _ _ _ Hr Ha) as (t1 & Ha1 & _ & Es & Ei). rewrite decide_True in Ei by done. injection Es as Er _ Ex.
  pose proof (evolves_trans _ _ _ _ _ _ _ _ _ Hev1 Hev2) as Hev.
  assert (forall l, length l = MAXEXP -> heap_ok {[a]} (set_complete l s1) H1 fl1 /\ evolves ∅ H s {[a]} H1 (set_complete l s1) /\ ready H1 a sz) as Hdone.
  { intros l Hl. split; [by apply heap_complete|]. split; [destruct Hev as [V1 V2]; by split|].
    exists t1. split_and!; [done|done|lia|]. unfold right_used. rewrite Ex. intros Hne.
    destruct (right_tag _ _ _ _ _ _ _ _ (proj2 Hok) Ha Hne) as (r & Hrt & _).
    destruct (h_coal _ _ _ _ _ _ (proj2 Hok) a t r Ha Hrt ltac:(set_solver) ltac:(set_solver)) as [|Hir]; [lia|].
    exists (size r). apply (ev_live _ _ _ _ _ _ Hev). by exists r. }
  unfold take_found. rewrite (bind_done _ _ _ _ _ E1), (bind_done _ _ _ _ _ (get_tag_ok _ _ _ _ (proj1 Hok3) Ha1)).
  destruct (_ && _).
  - destruct (complete_ok _ _ _ _ j (proj2 Hok3) Hj) as (c & Ec & Hput). rewrite (bind_done _ _ _ _ _ Ec).
    destruct (Hput (c - 1)) as (l & El & Hl). exists (set_complete l s1), H1, fl1. split; [done|]. by apply Hdone.
  - exists s1, H1, fl1. split; [done|]. destruct (Hdone (l_completePages s1)) as (D1 & D2 & D3); [apply Hok3|]. by destruct s1.
Qed.

Lemma pages_for_bound u : 0 < u -> u + 4096 <= 2 ^ 32 ->
  l_pageCount <= pages_for u /\ u <= 4096 * pages_for u < 2 ^ 32.
Proof.
  intros Hu Hb. unfold pages_for, l_pageSize, l_pageCount. pose proof (Z.div_mod u 4096 ltac:(done)). pose proof (Z.mod_pos_bound u 4096 ltac:(done)).
  destruct (Z.eqb_spec (u mod 4096) 0); lia.
Qed.

(** ... or a new run does. *)
Lemma new_run s H fl a n p' t :
  heap_ok ∅ s H fl -> l_initialized s = true -> l_pageCount <= n -> granted (src s) !! a = None -> granted p' = <[a := n]> (granted (src s)) ->
  src_ok (alloc := liballoc_alloc) (release := liballoc_free) p' ->
  sp t = (4096 * n, 0, 0) -> ls t = (-1, 0, 0) -> magic t = LIBALLOC_MAGIC ->
  exists s', (_ ← remap a (n * l_pageSize); _ ← put_tag a t; mret a) (mk_hst (tags s) (bytes s) (l_freePages s) (l_completePages s) (l_initialized s) p') = Done s' a /\
    heap_ok {[a]} s' (<[a := t]> H) fl /\ evolves ∅ H s {[a]} (<[a := t]> H) s'.
Proof.
  intros [Hsub Hok] Hinit Hn HG HG' Hp' Hsp Hls Hmag.
  pose proof (granted_ok p' Hp') as Hruns. rewrite HG' in Hruns. injection Hsp as Hreal Hleft Hright.
  pose proof (run_size _ Hruns a n ltac:(by rewrite lookup_insert_eq)) as Hsz.
  assert (forall c tc, H !! c = Some tc -> c <> a /\ (c + real_size tc <= a \/ a + 4096 * n <= c)) as Hoff.
  { intros c tc Hc. by apply (spatial_off _ _ a n _ _ _ _ (h_sp _ _ _ _ _ _ Hok) HG Hruns (sp_at _ _ Hc)). }
  set (s1 := set_mem (tags_off a (n * l_pageSize) (tags s)) (bytes_off a (n * l_pageSize) (bytes s)) (mk_hst (tags s) (bytes s) (l_freePages s) (l_completePages s) (l_initialized s) p')).
  destruct (put_tag_ok s1 H a t) as (s' & E & Hsub' & [F1 F2 F3 F4 F5]).
  { apply map_subseteq_spec. intros c tc Hc. cbn [s1 tags set_mem]. apply map_lookup_filter_Some. split; [by eapply lookup_weaken|].
    cbn. unfold l_pageSize. pose proof (h_range _ _ Hok _ _ Hc). destruct (Hoff _ _ Hc). lia. }
  { intros c tc Hc _. pose proof (h_range _ _ Hok _ _ Hc). destruct (Hoff _ _ Hc). lia. }
  assert (H !! a = None) as Ha by (destruct (H !! a) as [ta|] eqn:Ea; [by destruct (Hoff _ _ Ea)|done]).
  exists s'. split; [|split; [split; [done|]|]].
  - change ((_ ← put_tag a t; mret a) s1 = Done s' a). by rewrite (bind_done _ _ _ _ _ E).
  - split; rewrite ?F1, ?F2, ?F3, ?F4; cbn [s1 set_mem src l_freePages l_completePages l_initialized]; try apply Hok; try done.
    + rewrite HG'. intros c m [[<- <-]|[_ Hc]]%lookup_insert_Some; [done|]. by apply (h_big _ _ _ _ _ _ Hok c).
    + rewrite HG', fmap_insert. unfold sp at 1. rewrite Hreal, Hleft, Hright. apply spatial_new; try done. apply Hok.
    + rewrite fmap_insert, Hls. apply lists_add; [apply Hok|lia|]. by rewrite lookup_fmap, Ha.
    + intros c tc [[<- <-]|[_ Hc]]%lookup_insert_Some; [done|]. by apply (h_magic _ _ _ _ _ _ Hok c).
    + intros c tc [[<- <-]|[_ Hc]]%lookup_insert_Some Hic Hx; [set_solver|]. apply (h_used _ _ _ _ _ _ Hok c); [done|done|set_solver].
    + intros c tc r [[<- <-]|[_ Hc]]%lookup_insert_Some Hr Hx Hx'; [set_solver|]. rewrite lookup_insert_ne in Hr by set_solver.
      apply (h_coal _ _ _ _ _ _ Hok c tc r); [done|done|set_solver|set_solver].
    + congruence.
  - split.
    + intros c z. split; intros (tc & Hc & Hic & Hz & Hx); exists tc.
      * rewrite lookup_insert_ne in Hc by set_solver. split_and!; [done..|set_solver].
      * destruct (Hoff _ _ Hc). rewrite lookup_insert_ne by done. split_and!; [done..|set_solver].
    + intros c z x (tc & Hc & Hic & <- & Hcx) Hx. destruct (Hoff _ _ Hc) as [_ Hap]. pose proof (h_used _ _ _ _ _ _ Hok _ _ Hc Hic Hcx).
      rewrite F5 by lia. cbn [s1 bytes set_mem]. unfold bytes_off, l_pageSize.
      destruct (bytes s !! x) as [bx|] eqn:Eb; [apply map_lookup_filter_Some; split; [done|]; cbn; lia|apply map_lookup_filter_None; by left].
Qed.

Lemma allocate_new_tag_ok s H fl sz :
  heap_ok ∅ s H fl -> l_initialized s = true -> 0 <= sz -> sz + TAGSZ + 4096 <= 2 ^ 32 ->
  exists s' a H', allocate_new_tag liballoc_alloc sz s = Done s' a /\
    ((a = 0 /\ H' = H /\ heap_ok ∅ s' H fl /\ evolves ∅ H s ∅ H s') \/
     (a <> 0 /\ heap_ok {[a]} s' H' fl /\ evolves ∅ H s {[a]} H' s' /\ ready H' a sz)).
Proof.
  intros Hok Hinit Hsz Hb. unfold allocate_new_tag. cbv zeta. rewrite (wrap_small 32 (sz + TAGSZ)) by lia.
  destruct (pages_for_bound (sz + TAGSZ) ltac:(lia) ltac:(lia)) as (B1 & B2 & B3). set (n := pages_for (sz + TAGSZ)) in *.
  assert (16 <= n) as B1' by exact B1. rewrite s32_small by lia.
  destruct (alloc_law (src s) n (h_src _ _ _ _ _ _ (proj2 Hok)) ltac:(lia) B3) as (p' & a & Ep & Hp' & Ha).
  rewrite (bind_done (onsrc (liballoc_alloc n)) _ s (mk_hst (tags s) (bytes s) (l_freePages s) (l_completePages s) (l_initialized s) p') a) by (unfold onsrc; by rewrite Ep).
  destruct Ha as [[-> HG]|[Ha HG]].
  - eexists _, 0, H. split; [done|]. left. split_and!; try done. destruct Hok as [Hsub Hok]. split; [done|].
    split; cbn [src l_freePages l_completePages l_initialized]; rewrite ?HG; try apply Hok. done.
  - pose proof (run_size _ (granted_ok p' Hp') a n ltac:(by rewrite HG, lookup_insert_eq)) as Hrs.
    rewrite (proj2 (Z.eqb_neq a 0)) by lia. replace (u32 (n * l_pageSize)) with (n * 4096) by (symmetry; apply wrap_small; unfold l_pageSize; lia).
    set (t := mk_tag LIBALLOC_MAGIC sz (n * 4096) (-1) 0 0 0 0).
    destruct (new_run s H fl a n p' t Hok Hinit B1 Ha HG Hp') as (s' & E & Hok' & Hev); try done.
    { unfold sp. cbn. do 2 f_equal. lia. }
    exists s', a, (<[a := t]> H). split; [done|]. right. split; [lia|]. split_and!; try done. exists t. rewrite lookup_insert_eq.
    split_and!; try done; [cbn; lia|]. by intros Hne.
Qed.

Lemma heap_sized s H fl a t sz :
  heap_ok {[a]} s H fl -> H !! a = Some t ->
  exists s', upd_tag a (set_size sz) s = Done s' tt /\ heap_ok {[a]} s' (<[a := set_size sz t]> H) fl /\
    evolves {[a]} H s {[a]} (<[a := set_size sz t]> H) s'.
Proof.
  intros [Hsub Hok] Ha. destruct (upd_tag_ok s H a t (set_size sz) Hsub (h_sep _ _ Hok) Ha) as (s' & E & Hsub' & _ & [F1 F2 F3 F4 F5]).
  exists s'. split; [done|]. split; [split; [done|]|].
  - split; rewrite ?F1, ?F2, ?F3, ?F4; try apply Hok.
    + rewrite fmap_insert, insert_id; [apply Hok|]. by rewrite lookup_fmap, Ha.
    + rewrite fmap_insert, insert_id; [apply Hok|]. by rewrite lookup_fmap, Ha.
    + intros c tc [[<- <-]|[_ Hc]]%lookup_insert_Some; [exact (h_magic _ _ _ _ _ _ Hok a t Ha)|]. by apply (h_magic _ _ _ _ _ _ Hok c).
    + intros c tc [[<- <-]|[_ Hc]]%lookup_insert_Some Hic Hx; [set_solver|]. by apply (h_used _ _ _ _ _ _ Hok c).
    + intros c tc r [[<- <-]|[_ Hc]]%lookup_insert_Some Hr Hx Hx'; [set_solver|]. rewrite lookup_insert_ne in Hr by set_solver.
      by apply (h_coal _ _ _ _ _ _ Hok c tc r).
    + intros Hin%(h_init _ _ _ _ _ _ Hok). by rewrite Hin in Ha.
  - split.
    + intros c z. split; intros (tc & Hc & Hic & Hz & Hx); exists tc; rewrite lookup_insert_ne in * by set_solver; done.
    + intros c z x Hc Hx. apply F5. by eapply (live_headers _ _ Hok).
Qed.

Lemma s32_neg z : - 2 ^ 31 <= z < 0 -> s32 (u32 z) = z.
Proof.
  intros Hz. unfold sext, wrap. rewrite Z.mod_mod by done. rewrite <- (Z.mod_unique z (2 ^ 32) (-1) (z + 2 ^ 32)) by lia.
  rewrite (proj2 (Z.ltb_ge _ _)) by (change (2 ^ (32 - 1)) with (2 ^ 31); lia). lia.
Qed.

(** The end of [malloc]: the size is set, and what is too much is split off. *)
Lemma hand_out js ji s H fl a sz :
  heap_ok {[a]} s H fl -> ready H a sz -> 0 <= sz -> sz + TAGSZ + 4096 <= 2 ^ 32 ->
  exists s' H' fl',
    (_ ← upd_tag a (set_size sz);
     t ← get_tag a;
     let remainder := u32 (real_size t - sz - TAGSZ * 2) in
     _ ← (if (0 <? s32 remainder) && (0 <=? getexp remainder) then split_tag js ji a else mret a);
     mret (u64 (a + TAGSZ))) s = Done s' (a + TAGSZ) /\
    heap_ok ∅ s' H' fl' /\ grown {[a]} H s ∅ H' s' a sz.
Proof.
  intros Hok (t & Ha & Hi & Hfit & Hru) Hsz Hb. destruct (heap_sized s H fl a t sz Hok Ha) as (s1 & E1 & Hok1 & Hev1).
  rewrite (bind_done _ _ _ _ _ E1). set (H1 := <[a := set_size sz t]> H) in *. set (t1 := set_size sz t) in *.
  assert (H1 !! a = Some t1) as Ha1 by apply lookup_insert_eq. assert (size t1 = sz) as Hsz1 by (cbn; apply wrap_small; lia).
  rewrite (bind_done _ _ _ _ _ (get_tag_ok _ _ _ _ (proj1 Hok1) Ha1)). cbv zeta.
  pose proof (h_range _ _ (proj2 Hok1) _ _ Ha1) as Hrg. change (real_size t1) with (real_size t) in *.
  rewrite (wrap_small 64) by lia.
  destruct ((0 <? _) && _) eqn:Esp.
  - apply andb_true_iff in Esp as [Hpos%Z.ltb_lt _].
    assert (sz + TAGSZ + TAGSZ <= real_size t1) as Hroom.
    { destruct (Z.lt_ge_cases (real_size t - sz - TAGSZ * 2) 0) as [Hneg|]; [|change (real_size t1) with (real_size t); lia].
      rewrite s32_neg in Hpos by lia. lia. }
    destruct (heap_split _ _ s1 H1 fl a sz t1 Hok1 Ha1 Hi Hsz1 Hsz Hroom js ji) as (s' & H' & fl' & E & Hok' & Hg).
    { intros Hne. destruct (Hru Hne) as [z Hz]. exists z. by apply (ev_live _ _ _ _ _ _ Hev1). }
    exists s', H', fl'. rewrite (bind_done _ _ _ _ _ E). split_and!; try done. by eapply evolves_grown.
  - destruct (shape_keep _ _ s1 H1 fl a t1 (proj2 Hok1) Ha1 Hi) as [Hok' Hg]; [lia|change (real_size t1) with (real_size t); lia|].
    exists s1, H1, fl. rewrite Hsz1 in Hg. split_and!; [done|split; [apply Hok1|done]|by eapply evolves_grown].
Qed.

(** [malloc] hands out a block of [sz] bytes behind a tag that was no block, or
    there is no memory left. *)
Lemma heap_malloc_ok js ji s H fl sz :
  heap_ok ∅ s H fl -> 0 <= sz -> sz + TAGSZ + 4096 <= 2 ^ 32 ->
  exists s' H' fl' p, malloc liballoc_alloc js ji sz s = Done s' p /\ heap_ok ∅ s' H' fl' /\
    ((p = 0 /\ evolves ∅ H s ∅ H' s') \/ (p <> 0 /\ (forall z, ~ live ∅ H (p - TAGSZ) z) /\ grown ∅ H s ∅ H' s' (p - TAGSZ) sz)).
Proof.
  intros Hok Hsz Hb. destruct (init_lists_ok s H fl Hok) as (s0 & fl0 & E0 & Hok0 & Hev0 & Hin0).
  unfold malloc. rewrite (bind_done _ _ _ _ _ E0). cbv zeta. rewrite (wrap_small 32 sz), (wrap_small 64 (sz + TAGSZ)) by lia.
  set (idx := Z.max MINEXP (getexp sz + MODE)). pose proof (getexp_bound sz) as Hge.
  assert (Z.of_nat (Z.to_nat idx) = idx /\ (Z.to_nat idx <= MAXEXP)%nat) as [Hidx Hle] by (unfold idx, MODE, MAXEXP in *; lia).
  destruct (search_ok ∅ s0 H fl0 (sz + TAGSZ) Hok0 (MAXEXP - Z.to_nat idx) (Z.to_nat idx)) as (r & j & Es & Hr); [lia|].
  rewrite Hidx in Es. rewrite (bind_done _ _ _ _ _ Es). cbn [fst snd].
  assert (exists s1 H1 fl1 a, (if r =? 0 then allocate_new_tag liballoc_alloc sz else _ ← take_found r (Z.of_nat j); mret r) s0 = Done s1 a /\
    ((a = 0 /\ heap_ok ∅ s1 H1 fl1 /\ evolves ∅ H s0 ∅ H1 s1) \/ (a <> 0 /\ heap_ok {[a]} s1 H1 fl1 /\ evolves ∅ H s0 {[a]} H1 s1 /\ ready H1 a sz)))
    as (s1 & H1 & fl1 & a & E1 & Hcase).
  { destruct (Z.eqb_spec r 0) as [->|Hr0].
    - destruct (allocate_new_tag_ok s0 H fl0 sz Hok0 Hin0 Hsz Hb) as (s1 & a & H1 & E1 & [(-> & -> & ?)|Hcase]);
        eexists s1, _, fl0, _; (split; [exact E1|]); [left; split; [done|eassumption]|by right].
    - destruct Hr as [|(t & Ht & Hti & Hj & _ & Hn)]; [done|].
      destruct (take_found_ok s0 H fl0 r j t sz Hok0 Ht Hti Hj ltac:(lia)) as (s1 & H1 & fl1 & E1 & Hrest).
      exists s1, H1, fl1, r. rewrite (bind_done _ _ _ _ _ E1). split; [done|]. by right. }
  rewrite (bind_done _ _ _ _ _ E1). destruct Hcase as [(-> & Hok1 & Hev1)|(Ha0 & Hok1 & Hev1 & Hrd)].
  - exists s1, H1, fl1, 0. split; [done|]. split; [done|]. left. split; [done|]. by eapply evolves_trans.
  - rewrite (proj2 (Z.eqb_neq a 0)) by done. destruct (hand_out js ji s1 H1 fl1 a sz Hok1 Hrd Hsz Hb) as (s' & H' & fl' & E & Hok' & Hg).
    exists s', H', fl', (a + TAGSZ). split; [exact E|]. split; [done|]. right. rewrite Z.add_simpl_r.
    pose proof (evolves_trans _ _ _ _ _ _ _ _ _ Hev0 Hev1) as Hev. split_and!; [|..|by eapply evolves_grown].
    + destruct Hrd as (t & Ht & _). pose proof (h_range _ _ (proj2 Hok1) _ _ Ht). lia.
    + intros z Hz. apply (ev_live _ _ _ _ _ _ Hev) in Hz as (_ & _ & _ & _ & Hx). set_solver.
Qed.

End spec.

End HeapSpec.
