(* ===== verification/HeapClient.v ===== *)
(** The heap as its callers see it: a map from the pointers they hold to sizes.
    [malloc], [calloc], [realloc] and [free] change this map and the contents of
    the blocks as their names say. *)
From S2P Require Import Prelude Heap HeapInv HeapFacts HeapSteps HeapSpec.

Module HeapClient.
Import Heap HeapInv HeapFacts HeapSteps HeapSpec.

Section client.
Context {P : Type} (liballoc_alloc : Z -> M P Z) (liballoc_free : Z -> Z -> M P Z).
Context `{!page_source liballoc_alloc liballoc_free}.
Implicit Types (s : hst P) (B : gmap Z Z).
Local Notation heap_ok := (heap_ok liballoc_alloc liballoc_free).

(** The blocks [B] are in use. *)
Definition heap_holds s B : Prop :=
  exists H fl, heap_ok ∅ s H fl /\ forall p z, B !! p = Some z <-> live ∅ H (p - TAGSZ) z.

(** Every block of [B] has the contents it had. *)
Definition contents_kept B s s' : Prop :=
  forall p z i, B !! p = Some z -> 0 <= i < z -> bytes s' !! (p + i) = bytes s !! (p + i).

(** The largest request whose size with tag and rounding is a [u32]. *)
Definition request (sz : Z) : Prop := 0 <= sz /\ sz + TAGSZ + 4096 <= 2 ^ 32.

Lemma blocks_apart s B p z q z' :
  heap_holds s B -> B !! p = Some z -> B !! q = Some z' -> p <> q -> p + z + TAGSZ <= q \/ q + z' + TAGSZ <= p.
Proof.
  intros (H & fl & [_ Hok] & HB) Hp%HB Hq%HB Hne. destruct Hq as (tq & Hq & Hiq & Hzq & Hxq).
  destruct (live_apart _ _ Hok _ _ _ _ Hp Hq ltac:(lia)) as [Hd|Hd]; [left; lia|].
  pose proof (h_used _ _ _ _ _ _ Hok _ _ Hq Hiq Hxq). right. lia.
Qed.

Lemma blocks_range s B p z : heap_holds s B -> B !! p = Some z -> TAGSZ < p /\ 0 <= z < 2 ^ 32 /\ p + z < 2 ^ 64.
Proof.
  intros (H & fl & [_ Hok] & HB) (t & Ht & Hi & Hz & Hx)%HB. pose proof (h_used _ _ _ _ _ _ Hok _ _ Ht Hi Hx).
  pose proof (h_range _ _ Hok _ _ Ht). lia.
Qed.

Lemma kept_of_evolves H B s s' X H' X' : evolves X H s X' H' s' ->
  (forall p z, B !! p = Some z -> live X H (p - TAGSZ) z) -> contents_kept B s s'.
Proof. intros [_ V] HB p z i Hp Hi. apply (V (p - TAGSZ) z); [by apply HB|lia]. Qed.

Lemma malloc_holds js ji s B sz :
  heap_holds s B -> request sz ->
  exists s' p, malloc liballoc_alloc js ji sz s = Done s' p /\ contents_kept B s s' /\
    ((p = 0 /\ heap_holds s' B) \/ (p <> 0 /\ B !! p = None /\ heap_holds s' (<[p := sz]> B))).
Proof.
  intros (H & fl & Hok & HB) [Hsz Hb].
  destruct (heap_malloc_ok _ _ js ji s H fl sz Hok Hsz Hb) as (s' & H' & fl' & p & E & Hok' & [(-> & Hev)|(Hp & Hnew & Hg)]); exists s'.
  - exists 0. split; [done|]. split; [eapply kept_of_evolves; [exact Hev|by intros ? ? ?%HB]|]. left. split; [done|].
    exists H', fl'. split; [done|]. intros q z. rewrite HB. symmetry. apply Hev.
  - exists p. split; [done|]. split.
    { intros q z i Hq Hi. apply (gr_bytes _ _ _ _ _ _ _ _ Hg (q - TAGSZ) z); [by apply HB|lia]. }
    assert (B !! p = None) as Hpn. { destruct (B !! p) as [z|] eqn:Ep; [|done]. by apply HB, Hnew in Ep. }
    right. split_and!; [done|done|]. exists H', fl'. split; [done|]. intros q z. rewrite (gr_live _ _ _ _ _ _ _ _ Hg), <- HB.
    destruct (decide (q = p)) as [->|Hne].
    + rewrite lookup_insert_eq, Hpn. split; [intros [= <-]; by left|]. intros [[_ ->]|]; done.
    + rewrite lookup_insert_ne by done. split; [by right|]. intros [[? _]|]; [lia|done].
Qed.

Lemma free_holds s B p z :
  heap_holds s B -> B !! p = Some z ->
  exists s', free liballoc_free p s = Done s' tt /\ heap_holds s' (delete p B) /\ contents_kept (delete p B) s s'.
Proof.
  intros (H & fl & Hok & HB) Hp. destruct (free_ok _ _ s H fl (p - TAGSZ) z Hok (proj1 (HB _ _) Hp)) as (s' & H' & fl' & E & Hok' & Hev).
  rewrite Z.sub_simpl_r in E. exists s'. split; [done|].
  assert (forall q y, delete p B !! q = Some y <-> live {[p - TAGSZ]} H (q - TAGSZ) y) as HB'.
  { intros q y. rewrite lookup_delete_Some, HB. split.
    - intros [Hne (t & Ht & Hi & Hz & _)]. exists t. split_and!; try done. intros ?%elem_of_singleton. lia.
    - intros (t & Ht & Hi & Hz & Hx). split; [intros ->; set_solver|]. by exists t. }
  split; [exists H', fl'; split; [done|]|].
  - intros q y. rewrite HB'. symmetry. apply Hev.
  - eapply kept_of_evolves; [exact Hev|]. by intros ? ? ?%HB'.
Qed.

(** ** Bytes *)

Lemma put_byte_holds s B p z x o :
  heap_holds s B -> B !! p = Some z -> p <= x < p + z ->
  exists s', put_byte x o s = Done s' tt /\ heap_holds s' B /\ forall y, bytes s' !! y = if decide (y = x) then o else bytes s !! y.
Proof.
  intros Hh Hp Hx. pose proof (blocks_range _ _ _ _ Hh Hp) as (Hp0 & _). destruct Hh as (H & fl & [Hsub Hok] & HB).
  unfold put_byte. rewrite (proj2 (Z.eqb_neq x 0)) by lia. eexists. split; [done|]. split.
  - exists H, fl. split; [|done]. split.
    + cbn [tags set_mem]. apply map_subseteq_spec. intros a t Ha. unfold tags_off. apply map_lookup_filter_Some.
      split; [by eapply lookup_weaken|]. cbn. pose proof (live_headers _ _ Hok (p - TAGSZ) z x (proj1 (HB _ _) Hp) ltac:(lia)) as Hh.
      destruct (decide (a + 48 <= x \/ x + 1 <= a)) as [|Hn]; [done|]. exfalso. apply Hh. exists a. split; [by eexists|lia].
    + by destruct Hok; split.
  - intros y. cbn [bytes set_mem]. destruct o as [b|], (decide (y = x)) as [->|Hne];
      by rewrite ?lookup_insert_eq, ?lookup_delete_eq, ?lookup_insert_ne, ?lookup_delete_ne.
Qed.

(** [n] bytes at [d] are now what was at [r]; nothing else changed. *)
Definition moved (d r n : Z) s s' : Prop :=
  forall y, bytes s' !! y = if decide (d <= y < d + n) then bytes s !! (r + (y - d)) else bytes s !! y.

Lemma moved_app d r a b s s1 s2 :
  0 <= a -> 0 <= b -> r + (a + b) <= d \/ d + (a + b) <= r ->
  moved d r a s s1 -> moved (d + a) (r + a) b s1 s2 -> moved d r (a + b) s s2.
Proof.
  intros Ha Hb Hap M1 M2 y. rewrite M2. destruct (decide (d + a <= y < d + a + b)) as [Hy|Hy].
  - rewrite decide_True by lia. rewrite M1, decide_False by lia. f_equal. lia.
  - rewrite M1. destruct (decide (d <= y < d + a)) as [Hy1|Hy1]; [by rewrite decide_True by lia|by rewrite decide_False by lia].
Qed.

Section copy.
Context (B : gmap Z Z) (p z : Z) (Hp : B !! p = Some z).

Lemma copy_bytes_holds n : forall s d r,
  heap_holds s B -> p <= d -> d + Z.of_nat n <= p + z -> r + Z.of_nat n <= d \/ d + Z.of_nat n <= r ->
  exists s', copy_bytes n d r s = Done s' tt /\ heap_holds s' B /\ moved d r (Z.of_nat n) s s'.
Proof.
  induction n as [|n IH]; intros s d r Hh Hlo Hhi Hap; cbn [copy_bytes].
  - exists s. split_and!; try done. intros y. by rewrite decide_False by lia.
  - unfold get_byte. rewrite bind_gets. destruct (put_byte_holds s B p z d (bytes s !! r) Hh Hp ltac:(lia)) as (s1 & E1 & Hh1 & M1).
    rewrite (bind_done _ _ _ _ _ E1). destruct (IH s1 (d + 1) (r + 1) Hh1) as (s2 & E2 & Hh2 & M2); [lia..|].
    exists s2. split_and!; try done. replace (Z.of_nat (S n)) with (1 + Z.of_nat n) by lia. eapply moved_app; [lia..| |exact M2].
    intros y. rewrite M1. destruct (decide (y = d)) as [->|Hne].
    + rewrite decide_True by lia. f_equal. lia.
    + by rewrite decide_False by lia.
Qed.

Lemma copy_words_holds n : forall s d r,
  heap_holds s B -> p <= d -> d + 4 * Z.of_nat n <= p + z -> r + 4 * Z.of_nat n <= d \/ d + 4 * Z.of_nat n <= r ->
  exists s', copy_words n d r s = Done s' tt /\ heap_holds s' B /\ moved d r (4 * Z.of_nat n) s s'.
Proof.
  induction n as [|n IH]; intros s d r Hh Hlo Hhi Hap; cbn [copy_words].
  - exists s. split_and!; try done. intros y. by rewrite decide_False by lia.
  - unfold get_byte. rewrite !bind_gets.
    destruct (put_byte_holds s B p z d (bytes s !! r) Hh Hp ltac:(lia)) as (s1 & E1 & Hh1 & M1). rewrite (bind_done _ _ _ _ _ E1).
    destruct (put_byte_holds s1 B p z (d + 1) (bytes s !! (r + 1)) Hh1 Hp ltac:(lia)) as (s2 & E2 & Hh2 & M2). rewrite (bind_done _ _ _ _ _ E2).
    destruct (put_byte_holds s2 B p z (d + 2) (bytes s !! (r + 2)) Hh2 Hp ltac:(lia)) as (s3 & E3 & Hh3 & M3). rewrite (bind_done _ _ _ _ _ E3).
    destruct (put_byte_holds s3 B p z (d + 3) (bytes s !! (r + 3)) Hh3 Hp ltac:(lia)) as (s4 & E4 & Hh4 & M4). rewrite (bind_done _ _ _ _ _ E4).
    destruct (IH s4 (d + 4) (r + 4) Hh4) as (s5 & E5 & Hh5 & M5); [lia..|].
    exists s5. split_and!; try done. replace (4 * Z.of_nat (S n)) with (4 + 4 * Z.of_nat n) by lia. eapply moved_app; [lia..| |exact M5].
    intros y. rewrite M4, M3, M2, M1.
    repeat (destruct (decide (y = _)) as [->|?]; [rewrite decide_True by lia; f_equal; lia|]). by rewrite decide_False by lia.
Qed.

Lemma memcpy_holds s d r n :
  heap_holds s B -> 0 <= n -> p <= d -> d + n <= p + z -> r + n <= d \/ d + n <= r ->
  exists s', liballoc_memcpy d r n s = Done s' tt /\ heap_holds s' B /\ moved d r n s s'.
Proof.
  intros Hh Hn Hlo Hhi Hap. unfold liballoc_memcpy. pose proof (Z.div_mod n 4 ltac:(done)). pose proof (Z.mod_pos_bound n 4 ltac:(done)).
  pose proof (Z.div_pos n 4 Hn ltac:(done)).
  destruct (copy_words_holds (Z.to_nat (n / 4)) s d r Hh) as (s1 & E1 & Hh1 & M1); [lia..|]. rewrite (bind_done _ _ _ _ _ E1).
  destruct (copy_bytes_holds (Z.to_nat (n mod 4)) s1 (d + n / 4 * 4) (r + n / 4 * 4) Hh1) as (s2 & E2 & Hh2 & M2); [lia..|].
  exists s2. split_and!; try done. rewrite Z2Nat.id in M1, M2 by lia. rewrite (Z.mul_comm (n / 4) 4) in M2.
  replace n with (4 * (n / 4) + n mod 4) at 1 by lia. eapply moved_app; [lia..|exact M1|exact M2].
Qed.

(** [memset] over a part of the block. *)
Lemma memset_holds n : forall s d c,
  heap_holds s B -> p <= d -> d + Z.of_nat n <= p + z ->
  exists s', memset_loop n d c s = Done s' tt /\ heap_holds s' B /\
    forall y, bytes s' !! y = if decide (d <= y < d + Z.of_nat n) then Some (u8 c) else bytes s !! y.
Proof.
  induction n as [|n IH]; intros s d c Hh Hlo Hhi; cbn [memset_loop].
  - exists s. split_and!; try done. intros y. by rewrite decide_False by lia.
  - destruct (put_byte_holds s B p z d (Some (u8 c)) Hh Hp ltac:(lia)) as (s1 & E1 & Hh1 & M1). rewrite (bind_done _ _ _ _ _ E1).
    destruct (IH s1 (d + 1) c Hh1) as (s2 & E2 & Hh2 & M2); [lia..|]. exists s2. split_and!; try done. intros y. rewrite M2, M1.
    destruct (decide (d + 1 <= y < d + 1 + Z.of_nat n)); [by rewrite decide_True by lia|].
    destruct (decide (y = d)); [by rewrite decide_True by lia|by rewrite decide_False by lia].
Qed.

End copy.

(** ** What callers rely on *)

(** C7. [malloc] of less than about 4 GiB hands out memory that no one holds: it returns NULL and
    changes no block, or a fresh block of the size asked for, apart from every
    block in use; the contents of the blocks in use stay. *)
Theorem heap_malloc_fresh js ji s B sz :
  heap_holds s B -> request sz ->
  exists s' p, malloc liballoc_alloc js ji sz s = Done s' p /\ contents_kept B s s' /\
    ((p = 0 /\ heap_holds s' B) \/
     (p <> 0 /\ B !! p = None /\ heap_holds s' (<[p := sz]> B) /\
      forall q z, B !! q = Some z -> p + sz <= q \/ q + z <= p)).
Proof.
  intros Hh Hsz. destruct (malloc_holds js ji s B sz Hh Hsz) as (s' & p & E & Hk & [Hc|(Hp & Hn & Hh')]); exists s', p; (split; [done|]).
  - by auto.
  - split; [done|]. right. split_and!; try done. intros q z Hq. assert (p <> q) as Hne by congruence.
    destruct (blocks_apart s' _ p sz q z Hh') as [?|?]; try lia; [by rewrite lookup_insert_eq|by rewrite lookup_insert_ne].
Qed.

(** C8. [free] of a block in use succeeds, takes back that block and no
    other, and leaves the contents of the others as they are. *)
Theorem heap_free_returns s B p z :
  heap_holds s B -> B !! p = Some z ->
  exists s', free liballoc_free p s = Done s' tt /\ heap_holds s' (delete p B) /\ contents_kept (delete p B) s s'.
Proof. apply free_holds. Qed.

Lemma put_zero_faults o s : put_byte 0 o s = Fault.
Proof. done. Qed.

Lemma memcpy_null_faults r n s : 0 < n -> liballoc_memcpy 0 r n s = Fault.
Proof.
  intros Hn. unfold liballoc_memcpy. pose proof (Z.div_mod n 4 ltac:(done)). pose proof (Z.mod_pos_bound n 4 ltac:(done)).
  pose proof (Z.div_pos n 4 ltac:(lia) ltac:(done)). destruct (Z.to_nat (n / 4)) as [|k] eqn:Ek.
  - replace (n / 4) with 0 in * by lia. destruct (Z.to_nat (n mod 4)) as [|j] eqn:Ej; [lia|done].
  - done.
Qed.

Lemma held_tag s B p z : heap_holds s B -> B !! p = Some z -> exists t, get_tag (u64 (p - TAGSZ)) s = Done s t /\ size t = z.
Proof.
  intros Hh Hp. pose proof (blocks_range _ _ _ _ Hh Hp) as Hrg. destruct Hh as (H & fl & [Hsub _] & HB).
  destruct (proj1 (HB _ _) Hp) as (t & Ht & _ & Hz & _). exists t. rewrite wrap_small by lia. split; [by eapply get_tag_ok|done].
Qed.

(** C9. [realloc] moves a block: the result is a block of the new size that
    starts with the contents of the old one, the old one is free, and the other
    blocks are as they were.  When there is no memory for the new block the
    result of [malloc] is not checked, and the copy goes to address zero. *)
Theorem heap_realloc_moves js ji s B p z sz :
  heap_holds s B -> B !! p = Some z -> 0 < z -> 0 < sz -> request sz ->
  (exists s' q, realloc liballoc_alloc liballoc_free js ji p sz s = Done s' q /\ q <> 0 /\
     heap_holds s' (<[q := sz]> (delete p B)) /\ contents_kept (delete p B) s s' /\
     forall i, 0 <= i < Z.min z sz -> bytes s' !! (q + i) = bytes s !! (p + i)) \/
  (exists s', malloc liballoc_alloc js ji sz s = Done s' 0 /\
     realloc liballoc_alloc liballoc_free js ji p sz s = Fault).
Proof.
  intros Hh Hp Hz0 Hsz Hreq. destruct (held_tag _ _ _ _ Hh Hp) as (t & Et & Hz). pose proof (blocks_range _ _ _ _ Hh Hp) as (Hp0 & _).
  destruct (malloc_holds js ji s B sz Hh Hreq) as (s1 & q & E1 & Hk1 & Hc).
  assert (forall k, (t ← get_tag (u64 (p - TAGSZ)); ptr ← malloc liballoc_alloc js ji sz; k t ptr) s = k t q s1 :> outcome (hst P) Z) as Hpre.
  { intros k. by rewrite (bind_done _ _ _ _ _ Et), (bind_done _ _ _ _ _ E1). }
  unfold realloc. rewrite (proj2 (Z.eqb_neq sz 0)), (proj2 (Z.eqb_neq p 0)) by lia.
  rewrite (Hpre (fun t ptr => _ ← liballoc_memcpy ptr p (if sz <? size t then sz else size t); _ ← free liballoc_free p; mret ptr)). rewrite Hz.
  assert ((if sz <? z then sz else z) = Z.min z sz) as -> by (destruct (Z.ltb_spec sz z); lia).
  destruct Hc as [(-> & _)|(Hq0 & Hqn & Hh1)].
  { right. exists s1. split; [done|]. unfold mbind, M_bind. by rewrite memcpy_null_faults by lia. }
  left. assert (p <> q) as Hpq by congruence.
  assert (<[q := sz]> B !! q = Some sz) as Hq by apply lookup_insert_eq.
  assert (<[q := sz]> B !! p = Some z) as Hp1 by (by rewrite lookup_insert_ne).
  pose proof (blocks_apart _ _ _ _ _ _ Hh1 Hp1 Hq Hpq) as Hap.
  destruct (memcpy_holds (<[q := sz]> B) q sz Hq s1 q p (Z.min z sz) Hh1) as (s2 & E2 & Hh2 & M2); [lia..|].
  destruct (free_holds s2 _ p z Hh2 Hp1) as (s3 & E3 & Hh3 & Hk3). rewrite delete_insert_ne in Hh3, Hk3 by done.
  exists s3, q. rewrite (bind_done _ _ _ _ _ E2), (bind_done _ _ _ _ _ E3). split_and!; try done.
  - intros c y i Hc Hi. apply lookup_delete_Some in Hc as [Hcp Hc]. assert (q <> c) as Hqc by congruence.
    rewrite (Hk3 c y i) by (by rewrite ?lookup_insert_ne, ?lookup_delete_ne by done). rewrite M2.
    destruct (blocks_apart _ _ c y q sz Hh1) as [Hd|Hd]; [by rewrite lookup_insert_ne|done|done|..];
      (rewrite decide_False by lia; by apply (Hk1 c y)).
  - intros i Hi. rewrite (Hk3 q sz i) by (rewrite ?lookup_insert_eq by done; done || lia). rewrite M2, decide_True by lia.
    replace (p + (q + i - q)) with (p + i) by lia. apply (Hk1 p z); [done|lia].
Qed.

(** [calloc] zeroes the block it returns. *)
Theorem heap_calloc_zero js ji s B n sz :
  heap_holds s B -> 0 <= n -> 0 <= sz -> n * sz < 2 ^ 31 ->
  (exists s' p, calloc liballoc_alloc js ji n sz s = Done s' p /\ p <> 0 /\ heap_holds s' (<[p := n * sz]> B) /\ contents_kept B s s' /\
     forall i, 0 <= i < n * sz -> bytes s' !! (p + i) = Some 0) \/
  (exists s', malloc liballoc_alloc js ji (n * sz) s = Done s' 0).
Proof.
  intros Hh Hn Hsz Hb. assert (0 <= n * sz) as H0 by lia. unfold calloc. cbv zeta. rewrite s32_small, wrap_small by lia.
  destruct (malloc_holds js ji s B (n * sz) Hh) as (s1 & p & E1 & Hk1 & [(-> & _)|(Hp & Hpn & Hh1)]); [unfold request; lia|by right; exists s1|].
  left. rewrite (bind_done _ _ _ _ _ E1). assert (<[p := n * sz]> B !! p = Some (n * sz)) as Hp1 by apply lookup_insert_eq.
  destruct (memset_holds _ _ _ Hp1 (Z.to_nat (n * sz)) s1 p 0 Hh1) as (s2 & E2 & Hh2 & M2); [lia..|].
  exists s2, p. rewrite (bind_done _ _ _ _ _ E2). split_and!; try done.
  - intros c y i Hc Hi. assert (c <> p) as Hcp by congruence. rewrite M2.
    destruct (blocks_apart _ _ c y p (n * sz) Hh1) as [Hd|Hd]; [by rewrite lookup_insert_ne|done|done|..];
      (rewrite decide_False by lia; by apply (Hk1 c y)).
  - intros i Hi. by rewrite M2, decide_True by lia.
Qed.

End client.

End HeapClient.
