(* ===== verification/Pmm.v ===== *)
(** The physical frame allocator ([src/kern/mem/pmm.c], [include/core/mem/pmm.h]).

    Model: the allocator state with its bitmap as a list of bytes, and every
    operation on it; [None] results are accesses outside the bitmap.  The
    Limine memory map, a bootloader structure, is an argument of [pmm_init].

    Abstraction: [used st f] says whether frame [f]'s bit is set.  The
    theorems describe each operation by its effect on [used]. *)
From S2P Require Import Prelude.

Module Pmm.

Record pmm_state := mk_pmm {
  mem_high : Z;
  mem_low : Z;
  nframes : Z; (* u32 *)
  mxframe : Z; (* u32 *)
  framesz : Z; (* u32 *)
  mmap : list Z;
  mmap_sz : Z
}.

Definition with_mmap (st : pmm_state) (m : list Z) : pmm_state :=
  mk_pmm (mem_high st) (mem_low st) (nframes st) (mxframe st) (framesz st) m (mmap_sz st).

(** [state.mmap[fidx / 8] & (1 << (fidx % 8))] *)
Definition test_bit (m : list Z) (fidx : Z) : option bool :=
  b ← aget m (fidx / 8);
  Some (negb (Z.land b (Z.shiftl 1 (fidx mod 8)) =? 0)).

Definition set_bit (m : list Z) (fidx : Z) : option (list Z) :=
  b ← aget m (fidx / 8);
  aset m (fidx / 8) (u8 (Z.lor b (Z.shiftl 1 (fidx mod 8)))).

Definition clear_bit (m : list Z) (fidx : Z) : option (list Z) :=
  b ← aget m (fidx / 8);
  aset m (fidx / 8) (u8 (Z.land b (Z.lnot (Z.shiftl 1 (fidx mod 8))))).

(** First loop of [pmm_try_resv]: is every frame of the run free? *)
Fixpoint run_free (n : nat) (i stidx : Z) (m : list Z) : option bool :=
  match n with
  | O => Some true
  | S n' =>
      t ← test_bit m (u32 (stidx + i));
      if (t : bool) then Some false else run_free n' (i + 1) stidx m
  end.

(** Second loop: mark the run. *)
Fixpoint run_mark (n : nat) (i stidx : Z) (m : list Z) : option (list Z) :=
  match n with
  | O => Some m
  | S n' =>
      m' ← set_bit m (u32 (stidx + i));
      run_mark n' (i + 1) stidx m'
  end.

Definition pmm_try_resv (st : pmm_state) (stidx cnt : Z) : option (pmm_state * Z) :=
  if nframes st <? u32 (stidx + cnt) then Some (st, 0)
  else
    free ← run_free (Z.to_nat cnt) 0 stidx (mmap st);
    if negb free then Some (st, 0)
    else
      m ← run_mark (Z.to_nat cnt) 0 stidx (mmap st);
      Some (with_mmap st m, 1).

(** The [bit] loop of [pmm_falloc]: [Some (st, Some p)] is a return. *)
Fixpoint falloc_bits (n : nat) (st : pmm_state) (i bit cnt : Z) : option (pmm_state * option Z) :=
  match n with
  | O => Some (st, None)
  | S n' =>
      let fidx := u32 (i * 8 + bit) in
      '(st', r) ← pmm_try_resv st fidx (u32 cnt);
      if negb (r =? 0) then Some (st', Some (u64 (mem_low st' + u32 (fidx * framesz st'))))
      else falloc_bits n' st' i (bit + 1) cnt
  end.

Fixpoint falloc_bytes (n : nat) (st : pmm_state) (i cnt : Z) : option (pmm_state * Z) :=
  match n with
  | O => Some (st, 0)
  | S n' =>
      b ← aget (mmap st) i;
      if b =? 255 then falloc_bytes n' st (i + 1) cnt
      else
        '(st', r) ← falloc_bits 8 st i 0 cnt;
        match r with
        | Some p => Some (st', p)
        | None => falloc_bytes n' st' (i + 1) cnt
        end
  end.

(** 0 is [NULL]. *)
Definition pmm_falloc (st : pmm_state) (cnt : Z) : option (pmm_state * Z) :=
  falloc_bytes (Z.to_nat (mmap_sz st)) st 0 cnt.

Fixpoint ffree_loop (n : nat) (i stidx nf : Z) (m : list Z) : option (list Z) :=
  match n with
  | O => Some m
  | S n' =>
      let fidx := u32 (stidx + i) in
      if nf <=? fidx then Some m
      else
        m' ← clear_bit m fidx;
        ffree_loop n' (i + 1) stidx nf m'
  end.

Definition pmm_ffree (st : pmm_state) (addr cnt : Z) : option pmm_state :=
  if (addr <? mem_low st) || (mem_high st <=? addr) || (cnt =? 0) then Some st
  else
    let stidx := u32 ((addr - mem_low st) / framesz st) in
    m ← ffree_loop (Z.to_nat cnt) 0 stidx (nframes st) (mmap st);
    Some (with_mmap st m).

(** ** Boot-time initialisation *)

Record memmap_entry := mk_entry { e_base : Z; e_length : Z; e_type : Z }.
Definition LIMINE_MEMMAP_USABLE : Z := 0.

Inductive init_result :=
| InitOk (st : pmm_state)
| PanicNoMemory
| PanicNoBitmap
| InitFault.

Definition init_high_step (hi : Z) (e : memmap_entry) : Z :=
  let eend := u64 (e_base e + e_length e) in if hi <? eend then eend else hi.

Definition init_mem_high (es : list memmap_entry) : Z := foldl init_high_step 0 es.

Fixpoint init_bmapaddr (es : list memmap_entry) (msz : Z) : Z :=
  match es with
  | [] => 0
  | e :: es' =>
      if (e_type e =? LIMINE_MEMMAP_USABLE) && (msz <=? e_length e)
      then e_base e else init_bmapaddr es' msz
  end.

Fixpoint init_free (es : list memmap_entry) (st : pmm_state) : option pmm_state :=
  match es with
  | [] => Some st
  | e :: es' =>
      if e_type e =? LIMINE_MEMMAP_USABLE then
        let sidx := u64 (e_base e + framesz st - 1) / framesz st in
        let eidx := u64 (e_base e + e_length e) / framesz st in
        if sidx <? eidx then
          st' ← pmm_ffree st (u64 (sidx * framesz st)) (eidx - sidx);
          init_free es' st'
        else init_free es' st
      else init_free es' st
  end.

Definition pmm_init (es : list memmap_entry) : init_result :=
  let hi := init_mem_high es in
  if hi =? 0 then PanicNoMemory
  else
    let nf := u32 (hi / 4096) in
    let msz := nf / 8 + (if nf mod 8 =? 0 then 0 else 1) in
    let bmapaddr := init_bmapaddr es msz in
    if bmapaddr =? 0 then PanicNoBitmap
    else
      let st0 := mk_pmm hi 0 nf 0 4096 (replicate (Z.to_nat msz) 255) msz in
      let r :=
        st1 ← init_free es st0;
        '(st2, _) ← pmm_try_resv st1 (u32 (bmapaddr / 4096)) (u32 (u64 (msz + 4096 - 1) / 4096));
        '(st3, _) ← pmm_try_resv st2 (32768 / 4096) 1;
        Some st3 in
      match r with Some st => InitOk st | None => InitFault end.

(** ** Abstraction and invariant *)

Definition bit (m : list Z) (f : Z) : bool :=
  match aget m (f / 8) with Some b => Z.testbit b (f mod 8) | None => false end.

Definition used (st : pmm_state) (f : Z) : bool := bit (mmap st) f.

Definition bytes_ok (m : list Z) : Prop := Forall (fun b => 0 <= b < 256) m.

Definition pmm_wf (st : pmm_state) : Prop :=
  0 <= nframes st <= 2 ^ 20 /\ framesz st = 4096 /\ mem_low st = 0 /\
  nframes st = mem_high st / 4096 /\
  mmap_sz st = (nframes st + 7) / 8 /\
  Z.of_nat (length (mmap st)) = mmap_sz st /\ bytes_ok (mmap st).

(** A run of [cnt] frames starting at [f] lies in memory and is free. *)
Definition free_run (st : pmm_state) (f cnt : Z) : Prop :=
  0 <= f /\ f + cnt <= nframes st /\ forall g, f <= g < f + cnt -> used st g = false.

(** ** Bit lemmas *)

Lemma byte_land_pow2 b k : 0 <= k -> (Z.land b (Z.shiftl 1 k) =? 0) = negb (Z.testbit b k).
Proof.
  intros Hk. rewrite Z.shiftl_1_l. destruct (Z.testbit b k) eqn:E; simpl.
  - apply Z.eqb_neq. intros H. apply (f_equal (fun z => Z.testbit z k)) in H.
    rewrite Z.land_spec, E, Z.pow2_bits_true, Z.bits_0 in H by lia. done.
  - apply Z.eqb_eq, Z.bits_inj'. intros n Hn.
    rewrite Z.land_spec, Z.pow2_bits_eqb, Z.bits_0 by lia.
    destruct (Z.eqb_spec k n); [subst; by rewrite E|apply andb_false_r].
Qed.

Lemma byte_set_bit b k j : 0 <= k -> 0 <= j < 8 ->
  Z.testbit (u8 (Z.lor b (Z.shiftl 1 k))) j = bool_decide (k = j) || Z.testbit b j.
Proof.
  intros Hk Hj. unfold wrap. rewrite Z.mod_pow2_bits_low by lia.
  rewrite Z.lor_spec, Z.shiftl_1_l, Z.pow2_bits_eqb, orb_comm by lia.
  f_equal. by destruct (Z.eqb_spec k j); case_bool_decide.
Qed.

Lemma byte_clear_bit b k j : 0 <= k -> 0 <= j < 8 ->
  Z.testbit (u8 (Z.land b (Z.lnot (Z.shiftl 1 k)))) j = negb (bool_decide (k = j)) && Z.testbit b j.
Proof.
  intros Hk Hj. unfold wrap. rewrite Z.mod_pow2_bits_low by lia.
  rewrite Z.land_spec, Z.lnot_spec, Z.shiftl_1_l, Z.pow2_bits_eqb, andb_comm by lia.
  do 2 f_equal. by destruct (Z.eqb_spec k j); case_bool_decide.
Qed.

Lemma bytes_ok_aset m i b m' :
  bytes_ok m -> aset m i (u8 b) = Some m' -> bytes_ok m' /\ length m' = length m.
Proof.
  intros Hm [Hi ->]%aset_Some. split; [|by rewrite length_insert].
  apply Forall_insert; [done|]. apply (wrap_range 8). lia.
Qed.

Lemma div_mod_8_inj f g : f / 8 = g / 8 -> f mod 8 = g mod 8 -> f = g.
Proof. intros. rewrite (Z.div_mod f 8), (Z.div_mod g 8); lia. Qed.

Section bitmap.
Context (m : list Z) (Hok : bytes_ok m).

Definition in_map (f : Z) : Prop := 0 <= f / 8 < Z.of_nat (length m).

Lemma test_bit_spec f : in_map f -> test_bit m f = Some (bit m f).
Proof.
  intros Hf. unfold test_bit, bit. destruct (aget_is_Some m (f / 8) Hf) as [b ->]. simpl.
  rewrite byte_land_pow2 by (apply Z.mod_pos_bound; lia). by rewrite negb_involutive.
Qed.

Lemma set_bit_spec f : in_map f ->
  exists m', set_bit m f = Some m' /\ bytes_ok m' /\ length m' = length m /\
    forall g, bit m' g = bool_decide (g = f) || bit m g.
Proof.
  intros Hf. unfold set_bit. destruct (aget_is_Some m (f / 8) Hf) as [b Hb]. rewrite Hb. simpl.
  rewrite aset_in by done. eexists. split; [done|].
  edestruct bytes_ok_aset as [H1 H2]; [done|by apply aset_in|]. split; [done|split; [done|]].
  intros g. unfold bit. rewrite aget_insert by done.
  pose proof (Z.mod_pos_bound f 8 ltac:(lia)). pose proof (Z.mod_pos_bound g 8 ltac:(lia)).
  case_decide as E.
  - rewrite <- E, Hb, byte_set_bit by lia. f_equal. apply bool_decide_ext.
    split; [|by intros ->]. intros ?. by apply div_mod_8_inj.
  - rewrite bool_decide_false; [done|]. congruence.
Qed.

Lemma clear_bit_spec f : in_map f ->
  exists m', clear_bit m f = Some m' /\ bytes_ok m' /\ length m' = length m /\
    forall g, bit m' g = negb (bool_decide (g = f)) && bit m g.
Proof.
  intros Hf. unfold clear_bit. destruct (aget_is_Some m (f / 8) Hf) as [b Hb]. rewrite Hb. simpl.
  rewrite aset_in by done. eexists. split; [done|].
  edestruct bytes_ok_aset as [H1 H2]; [done|by apply aset_in|]. split; [done|split; [done|]].
  intros g. unfold bit. rewrite aget_insert by done.
  pose proof (Z.mod_pos_bound f 8 ltac:(lia)). pose proof (Z.mod_pos_bound g 8 ltac:(lia)).
  case_decide as E.
  - rewrite <- E, Hb, byte_clear_bit by lia. do 2 f_equal. apply bool_decide_ext.
    split; [|by intros ->]. intros ?. by apply div_mod_8_inj.
  - rewrite bool_decide_false; [done|]. congruence.
Qed.

End bitmap.

(** A bitmap is determined by its bits. *)
Lemma bit_ext m1 m2 :
  bytes_ok m1 -> bytes_ok m2 -> length m1 = length m2 ->
  (forall f, 0 <= f -> bit m1 f = bit m2 f) -> m1 = m2.
Proof.
  intros H1 H2 Hl Hb. apply list_eq_same_length with (n := length m1); [done..|].
  intros i x y Hi Hx Hy.
  apply (Forall_lookup_1 _ _ _ _ H1) in Hx as Hx'. apply (Forall_lookup_1 _ _ _ _ H2) in Hy as Hy'.
  simpl in Hx', Hy'. apply Z.bits_inj'. intros k Hk.
  destruct (Z.lt_ge_cases k 8).
  - specialize (Hb (Z.of_nat i * 8 + k) ltac:(lia)). unfold bit in Hb.
    replace ((Z.of_nat i * 8 + k) / 8) with (Z.of_nat i) in Hb
      by (rewrite Z.div_add_l, Z.div_small; lia).
    replace ((Z.of_nat i * 8 + k) mod 8) with k in Hb
      by (rewrite Z.add_comm, Z.mod_add, Z.mod_small; lia).
    rewrite (proj2 (aget_Some m1 _ x)), (proj2 (aget_Some m2 _ y)) in Hb
      by (rewrite Nat2Z.id; split; [lia|done]). done.
  - rewrite <- (Z.mod_small x (2 ^ 8)), <- (Z.mod_small y (2 ^ 8)) by lia.
    by rewrite !Z.mod_pow2_bits_high by lia.
Qed.

(** ** Loop specifications *)

Lemma in_map_lt m f : 0 <= f < 8 * Z.of_nat (length m) -> in_map m f.
Proof. intros ?. split; [apply Z.div_pos; lia|apply Z.div_lt_upper_bound; lia]. Qed.

Definition in_run (a n g : Z) : bool := bool_decide (a <= g < a + n).

Lemma run_free_spec n i a m :
  bytes_ok m -> 0 <= a + i -> a + i + Z.of_nat n <= 8 * Z.of_nat (length m) ->
  a + i + Z.of_nat n < 2 ^ 32 ->
  exists b, run_free n i a m = Some b /\
    (b = true <-> forall g, a + i <= g < a + i + Z.of_nat n -> bit m g = false).
Proof.
  intros Hok. revert i. induction n as [|n IH]; intros i H0 Hlen H32; cbn [run_free].
  - exists true. split; [done|]. split; [|done]. intros _ g. lia.
  - rewrite wrap_small by lia.
    rewrite test_bit_spec by (apply in_map_lt; lia). cbn [mbind option_bind].
    destruct (bit m (a + i)) eqn:Eb.
    + exists false. split; [done|]. split; [done|]. intros H. rewrite H in Eb by lia. done.
    + destruct (IH (i + 1)) as (b & -> & Hb); [lia..|]. exists b. split; [done|].
      rewrite Hb. split; intros H g Hg.
      * destruct (decide (g = a + i)) as [->|]; [done|]. apply H. lia.
      * apply H. lia.
Qed.

Lemma run_mark_spec n i a m :
  bytes_ok m -> 0 <= a + i -> a + i + Z.of_nat n <= 8 * Z.of_nat (length m) ->
  a + i + Z.of_nat n < 2 ^ 32 ->
  exists m', run_mark n i a m = Some m' /\ bytes_ok m' /\ length m' = length m /\
    forall g, bit m' g = in_run (a + i) (Z.of_nat n) g || bit m g.
Proof.
  revert i m. induction n as [|n IH]; intros i m Hok H0 Hlen H32; cbn [run_mark].
  - exists m. repeat split; [done|]. intros g. unfold in_run. by rewrite bool_decide_false by lia.
  - rewrite wrap_small by lia.
    destruct (set_bit_spec m Hok (a + i)) as (m1 & -> & Hok1 & Hl1 & Hb1); [apply in_map_lt; lia|].
    cbn [mbind option_bind].
    destruct (IH (i + 1) m1) as (m2 & -> & Hok2 & Hl2 & Hb2); [done|lia..|].
    exists m2. repeat split; [done|congruence|]. intros g. rewrite Hb2, Hb1, orb_assoc.
    f_equal. unfold in_run. repeat case_bool_decide; try done; lia.
Qed.

Lemma ffree_loop_spec n i a nf m :
  bytes_ok m -> 0 <= a + i -> 0 <= nf <= 8 * Z.of_nat (length m) ->
  nf < 2 ^ 32 -> a + i <= nf ->
  exists m', ffree_loop n i a nf m = Some m' /\ bytes_ok m' /\ length m' = length m /\
    forall g, bit m' g = negb (in_run (a + i) (Z.of_nat n) g && (g <? nf)) && bit m g.
Proof.
  revert i m. induction n as [|n IH]; intros i m Hok H0 Hnf H32 Hle; cbn [ffree_loop].
  - exists m. repeat split; [done|]. intros g. unfold in_run. by rewrite bool_decide_false by lia.
  - rewrite wrap_small by lia. destruct (Z.leb_spec nf (a + i)).
    + exists m. repeat split; [done|]. intros g. unfold in_run.
      destruct (Z.ltb_spec g nf); [|by rewrite andb_false_r].
      by rewrite bool_decide_false by lia.
    + destruct (clear_bit_spec m Hok (a + i)) as (m1 & -> & Hok1 & Hl1 & Hb1); [apply in_map_lt; lia|].
      cbn [mbind option_bind].
      destruct (IH (i + 1) m1) as (m2 & -> & Hok2 & Hl2 & Hb2); [done|lia..|].
      exists m2. repeat split; [done|congruence|]. intros g. rewrite Hb2, Hb1, andb_assoc.
      f_equal. unfold in_run.
      destruct (Z.ltb_spec g nf); repeat case_bool_decide; try done; lia.
Qed.

(** ** Operations *)

Lemma wf_map_len st : pmm_wf st -> nframes st <= 8 * Z.of_nat (length (mmap st)).
Proof.
  intros (? & _ & _ & _ & Hs & -> & _). rewrite Hs.
  pose proof (Z.mod_pos_bound (nframes st + 7) 8 ltac:(lia)).
  pose proof (Z.div_mod (nframes st + 7) 8 ltac:(lia)). lia.
Qed.

Lemma wf_with_mmap st m :
  pmm_wf st -> bytes_ok m -> length m = length (mmap st) -> pmm_wf (with_mmap st m).
Proof. unfold pmm_wf. simpl. intros (? & ? & ? & ? & ? & ? & ?) ? ->. done. Qed.

(** Frames [f .. f+cnt-1] were free in [st] and [st'] differs by marking them. *)
Definition alloc_at (st : pmm_state) (cnt f : Z) (st' : pmm_state) : Prop :=
  free_run st f cnt /\ (forall g, used st' g = in_run f cnt g || used st g) /\
  st' = with_mmap st (mmap st').

(** [pmm_try_resv] reserves a run exactly when it lies in memory and is
    entirely free; it then marks precisely those frames, and otherwise leaves
    the allocator unchanged. *)
Lemma pmm_try_resv_spec st stidx cnt :
  pmm_wf st -> 0 <= stidx -> 0 <= cnt -> stidx + cnt < 2 ^ 32 ->
  exists st' r, pmm_try_resv st stidx cnt = Some (st', r) /\ pmm_wf st' /\
    ((r = 1 /\ alloc_at st cnt stidx st') \/
     (r = 0 /\ st' = st /\ ~ free_run st stidx cnt)).
Proof.
  intros Hwf Hs Hc H32. pose proof (wf_map_len st Hwf) as Hlen.
  unfold pmm_try_resv. rewrite wrap_small by lia.
  destruct (Z.ltb_spec (nframes st) (stidx + cnt)) as [Hout|Hin].
  { exists st, 0. split; [done|split; [done|]]. right. unfold free_run. split_and!; [done..|]. lia. }
  assert (bytes_ok (mmap st)) as Hok by apply Hwf.
  destruct (run_free_spec (Z.to_nat cnt) 0 stidx (mmap st)) as (b & -> & Hb); [done|lia..|].
  rewrite Z.add_0_r, Z2Nat.id in Hb by lia. destruct b; cbn [mbind option_bind negb].
  - destruct (run_mark_spec (Z.to_nat cnt) 0 stidx (mmap st)) as (m & -> & ? & ? & Hm); [done|lia..|].
    rewrite Z.add_0_r, Z2Nat.id in Hm by lia. simpl. do 2 eexists. split; [done|].
    split; [by apply wf_with_mmap|]. left. unfold alloc_at, free_run. split_and!; [done..|by apply Hb|done|done].
  - exists st, 0. split; [done|split; [done|]]. right. split_and!; [done..|].
    intros (_ & _ & Hf). by apply Hb in Hf.
Qed.

Lemma falloc_bits_spec n st i b cnt :
  pmm_wf st -> 0 <= i -> 0 <= b -> b + Z.of_nat n = 8 -> 8 * i < 2 ^ 20 + 8 ->
  0 < cnt < 2 ^ 31 ->
  exists st' r, falloc_bits n st i b cnt = Some (st', r) /\ pmm_wf st' /\
    match r with
    | Some p => exists f, i * 8 + b <= f < i * 8 + 8 /\ p = f * 4096 /\ alloc_at st cnt f st' /\
                  forall g, i * 8 + b <= g < f -> ~ free_run st g cnt
    | None => st' = st /\ forall g, i * 8 + b <= g < i * 8 + 8 -> ~ free_run st g cnt
    end.
Proof.
  intros Hwf Hi. revert b. induction n as [|n IH]; intros b Hb Hn Hi2 Hc.
  { exists st, None. split; [done|split; [done|]]. split; [done|]. lia. }
  cbn [falloc_bits]. rewrite (wrap_small 32 (i * 8 + b)), (wrap_small 32 cnt) by lia.
  destruct (pmm_try_resv_spec st (i * 8 + b) cnt) as (st1 & r & E & Hwf1 & H); [done|lia..|].
  rewrite E. cbn [mbind option_bind]. destruct H as [(-> & Ha)|(-> & -> & Hf)]; simpl.
  - rewrite (proj1 (proj2 Hwf1)), (proj1 (proj2 (proj2 Hwf1))).
    assert (i * 8 + b < 2 ^ 20) by (destruct Ha as ((_ & ? & _) & _), Hwf; lia).
    rewrite !wrap_small by (rewrite ?wrap_small; lia).
    do 2 eexists. split; [done|split; [done|]]. exists (i * 8 + b).
    split_and!; [lia|lia|lia|done|]. intros g. lia.
  - destruct (IH (b + 1)) as (st' & r & -> & Hwf' & Hr); [lia..|].
    do 2 eexists. split; [done|split; [done|]]. destruct r as [p|].
    + destruct Hr as (f & ? & ? & ? & Hmin). exists f. split_and!; [lia..|done|done|].
      intros g Hg. destruct (decide (g = i * 8 + b)) as [->|]; [done|]. apply Hmin. lia.
    + destruct Hr as [? Hno]. split; [done|]. intros g Hg.
      destruct (decide (g = i * 8 + b)) as [->|]; [done|]. apply Hno. lia.
Qed.

Lemma full_byte_used st i g :
  aget (mmap st) i = Some 255 -> i * 8 <= g < i * 8 + 8 -> used st g = true.
Proof.
  intros Hb Hg. unfold used, bit.
  replace (g / 8) with i by (apply Z.div_unique with (g - i * 8); lia).
  rewrite Hb. replace (g mod 8) with (g - i * 8) by (apply Z.mod_unique with i; lia).
  change 255 with (Z.ones 8). apply Z.ones_spec_low. lia.
Qed.

(** What [pmm_falloc] promises when it searches from frame [lo] on: the lowest
    free run, or nothing when there is none. *)
Definition falloc_result (st : pmm_state) (cnt lo : Z) (st' : pmm_state) (p : Z) : Prop :=
  (exists f, lo <= f /\ p = f * 4096 /\ alloc_at st cnt f st' /\
     forall g, lo <= g < f -> ~ free_run st g cnt) \/
  (p = 0 /\ st' = st /\ forall g, lo <= g -> ~ free_run st g cnt).

Lemma falloc_result_extend st cnt lo lo' st' p :
  lo <= lo' -> (forall g, lo <= g < lo' -> ~ free_run st g cnt) ->
  falloc_result st cnt lo' st' p -> falloc_result st cnt lo st' p.
Proof.
  intros Hle Hno [(f & ? & ? & ? & Hmin)|(? & ? & Hmin)]; [left; exists f|right];
    (split_and!; [done || lia..|]); intros g Hg;
    (destruct (Z.lt_ge_cases g lo'); [apply Hno; lia|apply Hmin; lia]).
Qed.

Lemma falloc_bytes_spec n st i cnt :
  pmm_wf st -> 0 <= i -> i + Z.of_nat n = mmap_sz st -> 0 < cnt < 2 ^ 31 ->
  exists st' p, falloc_bytes n st i cnt = Some (st', p) /\ pmm_wf st' /\
    falloc_result st cnt (i * 8) st' p.
Proof.
  intros Hwf. revert i. induction n as [|n IH]; intros i Hi Hn Hc.
  { exists st, 0. split; [done|split; [done|]]. right. split_and!; [done..|].
    intros g Hg (_ & Hle & _). pose proof (wf_map_len st Hwf).
    destruct Hwf as (_ & _ & _ & _ & _ & ? & _). lia. }
  cbn [falloc_bytes]. assert (Z.of_nat (length (mmap st)) = mmap_sz st) as Hl by apply Hwf.
  destruct (aget_is_Some (mmap st) i) as [b Hb]; [lia|]. rewrite Hb. cbn [mbind option_bind].
  assert (8 * i < 2 ^ 20 + 8) as Hi2.
  { destruct Hwf as ([? ?] & _ & _ & _ & Hsz & _). rewrite Hsz in Hn.
    pose proof (Z.mul_div_le (nframes st + 7) 8). lia. }
  destruct (Z.eqb_spec b 255) as [->|_].
  - destruct (IH (i + 1)) as (st' & p & E & Hwf' & H); [lia..|].
    exists st', p. split; [done|split; [done|]]. revert H. apply falloc_result_extend; [lia|].
    intros g Hg (_ & _ & Hf). specialize (Hf g ltac:(lia)).
    rewrite (full_byte_used st i) in Hf by (done || lia). done.
  - destruct (falloc_bits_spec 8 st i 0 cnt) as (st1 & r & -> & Hwf1 & Hr); [done|lia..|].
    cbn [mbind option_bind]. rewrite Z.add_0_r in Hr. destruct r as [p|].
    + exists st1, p. split; [done|split; [done|]]. left.
      destruct Hr as (f & ? & ? & ? & Hmin). exists f. split_and!; [lia|done..].
    + destruct Hr as [-> Hno].
      destruct (IH (i + 1)) as (st' & p & E & Hwf' & H); [lia..|].
      exists st', p. split; [done|split; [done|]]. revert H. apply falloc_result_extend; [lia|].
      intros g Hg. apply Hno. lia.
Qed.

(** [pmm_ffree] on a frame address clears exactly the frames of the run that
    lie in memory. *)
Lemma pmm_ffree_spec st f cnt :
  pmm_wf st -> 0 <= f < nframes st -> 0 < cnt ->
  exists st', pmm_ffree st (f * 4096) cnt = Some st' /\ pmm_wf st' /\
    st' = with_mmap st (mmap st') /\
    forall g, used st' g = negb (in_run f cnt g && (g <? nframes st)) && used st g.
Proof.
  intros Hwf Hf Hc. pose proof (wf_map_len st Hwf) as Hlen. unfold pmm_ffree.
  destruct Hwf as (Hnf & Hfs & Hml & Hhi & Hrest) eqn:Ewf. rewrite Hfs, Hml.
  assert (f * 4096 < mem_high st).
  { pose proof (Z.mul_div_le (mem_high st) 4096). lia. }
  rewrite (proj2 (Z.ltb_ge _ _)), (proj2 (Z.leb_gt _ _)), (proj2 (Z.eqb_neq _ _)) by lia. simpl.
  rewrite Z.sub_0_r, Z.div_mul, wrap_small by lia.
  destruct (ffree_loop_spec (Z.to_nat cnt) 0 f (nframes st) (mmap st))
    as (m & -> & Hok & Hl & Hb); [apply Hwf|lia..|].
  rewrite Z.add_0_r, Z2Nat.id in Hb by lia. simpl. eexists. split; [done|].
  split; [by apply wf_with_mmap|]. done.
Qed.

Lemma pmm_falloc_spec st cnt :
  pmm_wf st -> 0 < cnt < 2 ^ 31 ->
  exists st' p, pmm_falloc st cnt = Some (st', p) /\ pmm_wf st' /\
    falloc_result st cnt 0 st' p.
Proof.
  intros Hwf Hc. apply falloc_bytes_spec; [done..| |done]. rewrite Z2Nat.id; [lia|].
  destruct Hwf as (? & _ & _ & _ & -> & _). apply Z.div_pos; lia.
Qed.

(** ** Sequences of allocations *)

(** The lowest run of [cnt] free frames is taken. *)
Definition first_fit (st : pmm_state) (cnt f : Z) (st' : pmm_state) : Prop :=
  alloc_at st cnt f st' /\ forall g, 0 <= g < f -> ~ free_run st g cnt.

(** [m] frames are taken, run by run. *)
Inductive takes : nat -> pmm_state -> pmm_state -> Prop :=
  | takes_none st : takes 0 st st
  | takes_run n m f st st1 st2 : first_fit st (Z.of_nat n) f st1 -> takes m st1 st2 -> takes (n + m) st st2.

(** There is a run of [k] free frames. *)
Definition run_ge (k : nat) (st : pmm_state) : Prop := exists f, free_run st f (Z.of_nat k).

Lemma run_ge_le j k st : (j <= k)%nat -> run_ge k st -> run_ge j st.
Proof. intros Hj (f & ? & ? & Hf). exists f. split_and!; [done|lia|]. intros g Hg. apply Hf. lia. Qed.

Lemma takes_trans m m' st st1 st2 : takes m st st1 -> takes m' st1 st2 -> takes (m + m') st st2.
Proof. induction 1; intros H'; [done|]. rewrite <- Nat.add_assoc. econstructor; eauto. Qed.

Lemma takes_one n f st st' : first_fit st (Z.of_nat n) f st' -> takes n st st'.
Proof. intros H. rewrite <- (Nat.add_0_r n). econstructor; [done|constructor]. Qed.

Lemma takes_used m st st' f : takes m st st' -> used st f = true -> used st' f = true.
Proof. induction 1 as [|n m g st st1 st2 ((_ & Hu & _) & _) _ IH]; [done|]. intros Hf. apply IH. rewrite Hu, Hf. apply orb_true_r. Qed.

Lemma takes_nframes m st st' : takes m st st' -> nframes st' = nframes st.
Proof. induction 1 as [|n m g st st1 st2 ((_ & _ & ->) & _) _ IH]; [done|]. by rewrite IH. Qed.

(** First fit eats a run from below. *)
Lemma run_ge_first_fit n k st f st' : run_ge (n + k) st -> first_fit st (Z.of_nat n) f st' -> run_ge k st'.
Proof.
  intros (g & Hg0 & Hg1 & Hg) (((Hf0 & Hf1 & _) & Hu & Heq) & Hlow).
  assert (f <= g). { destruct (Z.le_gt_cases f g); [done|]. exfalso. apply (Hlow g); [lia|]. split_and!; [done|lia|]. intros h Hh. apply Hg. lia. }
  exists (g + Z.of_nat n). rewrite Heq. split_and!; [lia|cbn; lia|].
  intros h Hh. rewrite <- Heq, Hu, Hg by lia. unfold in_run. by rewrite bool_decide_false by lia.
Qed.

Lemma run_ge_takes m k st st' : takes m st st' -> run_ge (m + k) st -> run_ge k st'.
Proof. induction 1 as [|n m f st st1 st2 Hff _ IH]; [done|]. rewrite <- Nat.add_assoc. intros H. apply IH. by eapply run_ge_first_fit. Qed.

(** C31. [pmm_falloc] is a first-fit allocator: on a machine of at most 4 GiB it
    returns the address of the lowest run of [cnt] free frames and marks
    exactly those frames, or returns NULL without changing anything when no
    such run exists. *)
Theorem pmm_falloc_first_fit st cnt :
  pmm_wf st -> 0 < cnt < 2 ^ 31 ->
  exists st' p, pmm_falloc st cnt = Some (st', p) /\ pmm_wf st' /\
    falloc_result st cnt 0 st' p.
Proof. apply pmm_falloc_spec. Qed.

(** Freeing what was just allocated restores the allocator state
    bit for bit. *)
Theorem pmm_falloc_ffree_roundtrip st cnt st' p :
  pmm_wf st -> 0 < cnt < 2 ^ 31 -> pmm_falloc st cnt = Some (st', p) -> p <> 0 ->
  pmm_ffree st' p cnt = Some st.
Proof.
  intros Hwf Hc E Hp.
  destruct (falloc_bytes_spec (Z.to_nat (mmap_sz st)) st 0 cnt) as (st1 & p1 & E1 & Hwf1 & H);
    [done..| |done|].
  { rewrite Z2Nat.id; [lia|]. destruct Hwf as (? & _ & _ & _ & -> & _). apply Z.div_pos; lia. }
  unfold pmm_falloc in E. rewrite E in E1. injection E1 as <- <-.
  destruct H as [(f & ? & -> & ((? & Hle & Hfree) & Hu & Heq) & _)|(? & _)]; [|done].
  assert (nframes st' = nframes st) as Hnf by (by rewrite Heq).
  destruct (pmm_ffree_spec st' f cnt) as (st2 & E2 & Hwf2 & Heq2 & Hu2); [done|lia..|].
  rewrite E2. f_equal. rewrite Hnf in Hu2.
  assert (mmap st2 = mmap st) as Hm.
  { apply bit_ext; [apply Hwf2|apply Hwf| |].
    - destruct Hwf as (_ & _ & _ & _ & _ & Hl & _), Hwf2 as (_ & _ & _ & _ & _ & Hl2 & _).
      rewrite Heq2, Heq in Hl2. simpl in Hl2. lia.
    - intros g Hg. change (used st2 g = used st g). rewrite Hu2, Hu. unfold in_run.
      case_bool_decide; simpl; [|done]. rewrite (proj2 (Z.ltb_lt _ _)) by lia. simpl.
      by rewrite Hfree by lia. }
  rewrite Heq2, Hm, Heq. by destruct st.
Qed.

(** ** Initialisation *)

(** Entry [e] makes frame [g] available: it is usable and contains the frame. *)
Definition covers (g : Z) (e : memmap_entry) : bool :=
  (e_type e =? LIMINE_MEMMAP_USABLE) && (e_base e <=? g * 4096) &&
  ((g + 1) * 4096 <=? e_base e + e_length e).

Definition entry_ok (hi : Z) (e : memmap_entry) : Prop :=
  0 <= e_base e /\ 0 <= e_length e /\ e_base e + e_length e <= hi.

Lemma init_mem_high_from es : forall h0,
  0 <= h0 -> Forall (fun e => 0 <= e_base e /\ 0 <= e_length e /\ e_base e + e_length e < 2 ^ 64) es ->
  h0 <= foldl init_high_step h0 es /\ Forall (entry_ok (foldl init_high_step h0 es)) es.
Proof.
  induction es as [|e es IH]; intros h0 Hh Hes; simpl; [done|].
  apply Forall_cons in Hes as [(? & ? & ?) Hes].
  assert (h0 <= init_high_step h0 e /\ e_base e + e_length e <= init_high_step h0 e) as [? ?].
  { unfold init_high_step. rewrite wrap_small by lia.
    destruct (Z.ltb_spec h0 (e_base e + e_length e)); lia. }
  destruct (IH (init_high_step h0 e) ltac:(lia) Hes) as [Hle Hall]. split; [lia|].
  constructor; [|done]. unfold entry_ok. lia.
Qed.

Lemma covers_index g e :
  0 <= e_base e -> 0 <= e_length e -> e_type e = LIMINE_MEMMAP_USABLE ->
  covers g e = bool_decide ((e_base e + 4096 - 1) / 4096 <= g < (e_base e + e_length e) / 4096).
Proof.
  intros ? ? Ht. unfold covers. rewrite Ht, Z.eqb_refl. simpl.
  assert (e_base e <= g * 4096 <-> (e_base e + 4096 - 1) / 4096 <= g) as H1.
  { split; intros.
    - apply Z.lt_succ_r, Z.div_lt_upper_bound; lia.
    - pose proof (Z.div_mod (e_base e + 4096 - 1) 4096 ltac:(lia)).
      pose proof (Z.mod_pos_bound (e_base e + 4096 - 1) 4096 ltac:(lia)). lia. }
  assert ((g + 1) * 4096 <= e_base e + e_length e <-> g < (e_base e + e_length e) / 4096) as H2.
  { split; intros.
    - apply Z.lt_le_trans with (g + 1); [lia|]. apply Z.div_le_lower_bound; lia.
    - pose proof (Z.mul_div_le (e_base e + e_length e) 4096 ltac:(lia)). lia. }
  case_bool_decide as Hd; destruct (Z.leb_spec (e_base e) (g * 4096)),
    (Z.leb_spec ((g + 1) * 4096) (e_base e + e_length e)); simpl; try done; lia.
Qed.

Lemma init_free_spec es : forall st,
  pmm_wf st -> Forall (entry_ok (mem_high st)) es -> mem_high st <= 2 ^ 32 ->
  exists st', init_free es st = Some st' /\ pmm_wf st' /\ st' = with_mmap st (mmap st') /\
    forall g, used st' g = negb (existsb (covers g) es && (g <? nframes st)) && used st g.
Proof.
  induction es as [|e es IH]; intros st Hwf Hes Hhi; simpl.
  { exists st. split_and!; [done..|by destruct st|done]. }
  apply Forall_cons in Hes as [(Hb & Hl & Hle) Hes].
  assert (framesz st = 4096) as -> by apply Hwf.
  assert (nframes st = mem_high st / 4096) as Hnf by apply Hwf.
  destruct (Z.eqb_spec (e_type e) LIMINE_MEMMAP_USABLE) as [Ht|Ht].
  2: { destruct (IH st) as (st' & ? & ? & ? & Hu); [done..|]. exists st'. split_and!; [done..|].
       intros g. rewrite Hu. do 3 f_equal. unfold covers at 2. by rewrite (proj2 (Z.eqb_neq _ _)). }
  rewrite !wrap_small by (rewrite ?wrap_small; lia).
  pose proof (fun g => covers_index g e Hb Hl Ht) as Hcov.
  set (s := (e_base e + 4096 - 1) / 4096) in *. set (t := (e_base e + e_length e) / 4096) in *.
  assert (0 <= s) by (apply Z.div_pos; lia).
  assert (t <= nframes st) by (rewrite Hnf; apply Z.div_le_mono; lia).
  destruct (Z.ltb_spec s t).
  - rewrite wrap_small by (destruct Hwf; lia).
    destruct (pmm_ffree_spec st s (t - s)) as (st1 & -> & Hwf1 & Heq1 & Hu1); [done|lia..|].
    cbn [mbind option_bind]. assert (mem_high st1 = mem_high st) as Hhi1 by (by rewrite Heq1).
    destruct (IH st1) as (st' & ? & ? & Heq & Hu); [done|by rewrite Hhi1|lia|].
    exists st'. split_and!; [done..|by rewrite Heq, Heq1|].
    intros g. rewrite Hu, Hu1, Hcov, andb_assoc, Heq1. simpl. f_equal. unfold in_run.
    replace (s + (t - s)) with t by lia. case_bool_decide; destruct (existsb (covers g) es), (g <? nframes st); done.
  - destruct (IH st) as (st' & ? & ? & ? & Hu); [done..|]. exists st'. split_and!; [done..|].
    intros g. rewrite Hu, Hcov. by rewrite bool_decide_false by lia.
Qed.

Lemma init_bmapaddr_found es msz :
  init_bmapaddr es msz <> 0 ->
  exists e, e ∈ es /\ e_type e = LIMINE_MEMMAP_USABLE /\ msz <= e_length e /\
    e_base e = init_bmapaddr es msz.
Proof.
  induction es as [|e es IH]; simpl; [done|]. intros H.
  destruct ((e_type e =? _) && _) eqn:E; to_prop.
  - exists e. split; [left|done].
  - destruct (IH H) as (e' & ? & ?). exists e'. split; [by right|done].
Qed.

Lemma init_bmapaddr_none es msz e :
  init_bmapaddr es msz = 0 -> e ∈ es -> e_type e = LIMINE_MEMMAP_USABLE ->
  (forall e', e' ∈ es -> e_type e' = LIMINE_MEMMAP_USABLE -> e_base e' <> 0) ->
  e_length e < msz.
Proof.
  induction es as [|e0 es IH]; simpl; intros H Hin Ht Hnz; [by apply not_elem_of_nil in Hin|].
  destruct ((e_type e0 =? _) && _) eqn:E.
  - to_prop. exfalso. apply (Hnz e0); [left|done|done].
  - apply elem_of_cons in Hin as [->|Hin].
    + rewrite Ht, Z.eqb_refl in E. simpl in E. to_prop. lia.
    + apply IH; [done..|]. intros e' ?. apply Hnz. by right.
Qed.

Lemma fresh_bitmap_used hi nf msz f :
  0 <= f < 8 * msz ->
  used (mk_pmm hi 0 nf 0 4096 (replicate (Z.to_nat msz) 255) msz) f = true.
Proof.
  intros Hf. apply full_byte_used with (f / 8).
  - simpl. apply aget_Some. split; [apply Z.div_pos; lia|].
    apply lookup_replicate_2. apply Nat2Z.inj_lt. rewrite !Z2Nat.id by (apply Z.div_pos || idtac; lia).
    apply Z.div_lt_upper_bound; lia.
  - pose proof (Z.div_mod f 8 ltac:(lia)). pose proof (Z.mod_pos_bound f 8 ltac:(lia)). lia.
Qed.

(** What the Limine protocol guarantees of the memory map (on a machine of at
    most 4 GiB): no entry wraps, and usable entries are page aligned and do not
    start at address 0. *)
Definition limine_map_ok (es : list memmap_entry) : Prop :=
  Forall (fun e => 0 <= e_base e /\ 0 <= e_length e /\ e_base e + e_length e <= 2 ^ 32) es /\
  (forall e, e ∈ es -> e_type e = LIMINE_MEMMAP_USABLE ->
     e_base e mod 4096 = 0 /\ e_length e mod 4096 = 0 /\ e_base e <> 0).

(** The frames the bitmap itself occupies. *)
Definition bitmap_frame (es : list memmap_entry) (msz f : Z) : Prop :=
  init_bmapaddr es msz <= f * 4096 < init_bmapaddr es msz + msz.

Section init.
Context (es : list memmap_entry) (Hmap : limine_map_ok es).
Let hi := init_mem_high es.
Let nf := hi / 4096.
Let msz := nf / 8 + (if nf mod 8 =? 0 then 0 else 1).
Let bm := init_bmapaddr es msz.

Lemma init_high_ok : 0 <= hi <= 2 ^ 32 /\ Forall (entry_ok hi) es.
Proof.
  destruct Hmap as [Hes _].
  destruct (init_mem_high_from es 0) as [H0 Hall]; [done| |].
  { eapply Forall_impl; [exact Hes|]. simpl. intros e ?. lia. }
  split; [|done]. split; [done|]. unfold hi, init_mem_high.
  clear -Hes. assert (0 <= 2 ^ 32) as Hz by lia. revert Hz. generalize 0.
  induction es as [|e l IH]; intros h Hh; simpl; [done|].
  apply Forall_cons in Hes as [? Hes]. apply IH; [done|].
  unfold init_high_step. rewrite wrap_small by lia. split_if; lia.
Qed.

Lemma init_msz_ok : msz = (nf + 7) / 8.
Proof.
  unfold msz. pose proof (Z.div_mod nf 8 ltac:(lia)). pose proof (Z.mod_pos_bound nf 8 ltac:(lia)).
  destruct (Z.eqb_spec (nf mod 8) 0).
  - rewrite Z.add_0_r. apply Z.div_unique with 7; lia.
  - apply Z.div_unique with (nf mod 8 - 1); lia.
Qed.

(** The bitmap's frames lie in one usable entry, so they are all free when
    [pmm_init] reserves them. *)
Lemma init_bitmap_run :
  bm <> 0 -> 0 < msz ->
  exists e, e ∈ es /\ forall g, bm / 4096 <= g < bm / 4096 + (msz + 4096 - 1) / 4096 -> covers g e = true.
Proof.
  intros Hbm Hmsz. destruct (init_bmapaddr_found es msz Hbm) as (e & Hin & Ht & Hlen & Hbase).
  fold bm in Hbase. exists e. split; [done|]. intros g Hg.
  destruct Hmap as [Hes Hal]. destruct (Hal e Hin Ht) as (Hb4 & Hl4 & _).
  rewrite Forall_forall in Hes. destruct (Hes e Hin) as (? & ? & ?).
  unfold covers. rewrite Ht, Z.eqb_refl. simpl.
  rewrite <- Hbase in Hg. pose proof (Z.div_mod (e_base e) 4096 ltac:(lia)).
  pose proof (Z.div_mod (e_length e) 4096 ltac:(lia)).
  assert ((msz + 4096 - 1) / 4096 <= e_length e / 4096).
  { apply Z.lt_succ_r, Z.div_lt_upper_bound; lia. }
  apply andb_true_iff. split; apply Z.leb_le; lia.
Qed.

Lemma in_bitmap_run f :
  bm mod 4096 = 0 ->
  in_run (bm / 4096) ((msz + 4096 - 1) / 4096) f = bool_decide (bitmap_frame es msz f).
Proof.
  intros Hal. unfold in_run, bitmap_frame. fold bm. apply bool_decide_ext.
  pose proof (Z.div_mod bm 4096 ltac:(lia)).
  pose proof (Z.div_mod (msz + 4096 - 1) 4096 ltac:(lia)).
  pose proof (Z.mod_pos_bound (msz + 4096 - 1) 4096 ltac:(lia)). lia.
Qed.

End init.

Lemma pmm_try_resv_free st a c :
  pmm_wf st -> 0 <= c -> free_run st a c ->
  exists st', pmm_try_resv st a c = Some (st', 1) /\ pmm_wf st' /\ alloc_at st c a st'.
Proof.
  intros Hwf Hc Hf. assert (0 <= a /\ a + c < 2 ^ 32) as [? ?].
  { destruct Hf as (? & ? & _), Hwf as (? & _). lia. }
  destruct (pmm_try_resv_spec st a c) as (st' & r & -> & Hwf' & [(-> & ?)|(_ & _ & ?)]);
    [lia || done..| |done]. eauto.
Qed.

(** Reserving one frame leaves it used whether or not it was free before. *)
Lemma pmm_try_resv_one st a :
  pmm_wf st -> 0 <= a < 2 ^ 31 ->
  exists st' r, pmm_try_resv st a 1 = Some (st', r) /\ pmm_wf st' /\
    st' = with_mmap st (mmap st') /\
    forall f, 0 <= f < nframes st -> used st' f = used st f || (f =? a).
Proof.
  intros Hwf Ha. destruct (pmm_try_resv_spec st a 1) as (st' & r & -> & Hwf' & H); [lia || done..|].
  exists st', r. split; [done|split; [done|]]. destruct H as [(_ & _ & Hu & Heq)|(_ & -> & Hn)].
  - split; [done|]. intros f Hf. rewrite Hu, orb_comm. f_equal. unfold in_run.
    destruct (Z.eqb_spec f a); case_bool_decide; lia.
  - split; [by destruct st|]. intros f Hf. destruct (Z.eqb_spec f a) as [->|]; [|by rewrite orb_false_r].
    destruct (used st a) eqn:E; [done|]. exfalso. apply Hn. split_and!; [lia..|].
    intros g Hg. by replace g with a by lia.
Qed.

(** The state and bitmap size [pmm_init] starts from. *)
Definition init_nf (es : list memmap_entry) : Z := init_mem_high es / 4096.
Definition init_msz (es : list memmap_entry) : Z :=
  init_nf es / 8 + (if init_nf es mod 8 =? 0 then 0 else 1).
Definition init_st0 (es : list memmap_entry) : pmm_state :=
  mk_pmm (init_mem_high es) 0 (init_nf es) 0 4096 (replicate (Z.to_nat (init_msz es)) 255) (init_msz es).

Lemma init_sizes es :
  limine_map_ok es ->
  0 <= init_nf es <= 2 ^ 20 /\ init_nf es <= 8 * init_msz es <= init_nf es + 7 /\
  init_msz es = (init_nf es + 7) / 8.
Proof.
  intros Hmap. destruct (init_high_ok es Hmap) as [Hhi _]. pose proof (init_msz_ok es) as Hm.
  cbv zeta in Hm, Hhi. fold (init_nf es) in Hm. fold (init_msz es) in Hm.
  assert (0 <= init_nf es <= 2 ^ 20) as Hnf.
  { unfold init_nf. split; [apply Z.div_pos; lia|]. apply Z.lt_succ_r, Z.div_lt_upper_bound; lia. }
  split_and!; [lia..| | |done]; rewrite Hm.
  all: pose proof (Z.div_mod (init_nf es + 7) 8 ltac:(lia));
    pose proof (Z.mod_pos_bound (init_nf es + 7) 8 ltac:(lia)); lia.
Qed.

Lemma init_bm_ok es :
  limine_map_ok es -> init_bmapaddr es (init_msz es) <> 0 ->
  init_bmapaddr es (init_msz es) mod 4096 = 0 /\ 0 < init_bmapaddr es (init_msz es) <= 2 ^ 32 /\
  0 < init_msz es.
Proof.
  intros Hmap Hbm. destruct (init_sizes es Hmap) as (_ & ? & _).
  destruct (init_high_ok es Hmap) as [_ Hall].
  destruct (init_bmapaddr_found es _ Hbm) as (e & Hin & Ht & Hlen & Hbase).
  destruct (proj2 Hmap e Hin Ht) as (Hal & _ & Hnz).
  destruct (proj1 (Forall_forall _ _) (proj1 Hmap) e Hin) as (? & ? & ?).
  destruct (proj1 (Forall_forall _ _) Hall e Hin) as (_ & _ & Hle).
  rewrite Hbase in *. split_and!; [done|lia..|].
  assert (1 <= init_nf es); [|lia]. apply Z.div_le_lower_bound; [lia|].
  pose proof (Z.div_mod (init_bmapaddr es (init_msz es)) 4096 ltac:(lia)). lia.
Qed.

(** After the usable entries are released, a frame is free exactly when some
    usable entry contains it; the bitmap's own frames are among them. *)
Lemma init_unlock es :
  limine_map_ok es ->
  let bm := init_bmapaddr es (init_msz es) in
  let c := (init_msz es + 4096 - 1) / 4096 in
  bm <> 0 ->
  exists st1, init_free es (init_st0 es) = Some st1 /\ pmm_wf st1 /\
    st1 = with_mmap (init_st0 es) (mmap st1) /\
    (forall f, 0 <= f < init_nf es -> used st1 f = negb (existsb (covers f) es)) /\
    free_run st1 (bm / 4096) c.
Proof.
  intros Hmap bm c Hbm. destruct (init_high_ok es Hmap) as [Hhi Hall].
  destruct (init_sizes es Hmap) as (Hnf & Hm & Hmeq).
  destruct (init_bm_ok es Hmap Hbm) as (Hal & Hbm0 & Hmsz0).
  assert (pmm_wf (init_st0 es)) as Hwf0.
  { unfold pmm_wf. simpl. rewrite length_replicate. split_and!; try done; try lia.
    by apply Forall_replicate. }
  destruct (init_free_spec es (init_st0 es)) as (st1 & E1 & Hwf1 & Heq1 & Hu1); [done..|simpl; lia|].
  assert (forall f, 0 <= f < init_nf es -> used st1 f = negb (existsb (covers f) es)) as Hu1'.
  { intros f Hf. rewrite Hu1. unfold init_st0 at 2. rewrite fresh_bitmap_used by lia. simpl.
    by rewrite (proj2 (Z.ltb_lt _ _)), !andb_true_r by lia. }
  exists st1. split_and!; [done..|]. fold bm in Hbm0, Hal.
  destruct (init_bitmap_run es Hmap Hbm Hmsz0) as (e' & Hin' & Hcov).
  assert (forall g, bm / 4096 <= g < bm / 4096 + c -> g < init_nf es) as Hlt.
  { intros g Hg%Hcov. unfold covers in Hg. to_prop.
    destruct (proj1 (Forall_forall _ _) Hall e' Hin') as (? & ? & ?).
    apply Z.lt_le_trans with (g + 1); [lia|]. apply Z.div_le_lower_bound; lia. }
  assert (0 < c) by (apply Z.lt_le_trans with 1; [lia|apply Z.div_le_lower_bound; lia]).
  assert (0 <= bm / 4096) by (apply Z.div_pos; lia).
  split_and!; [lia| |].
  - rewrite Heq1. simpl. specialize (Hlt (bm / 4096 + c - 1)). lia.
  - intros g Hg. rewrite Hu1' by (specialize (Hlt g); lia).
    apply negb_false_iff, existsb_exists. exists e'. split; [by apply list_elem_of_In|auto].
Qed.

Lemma pmm_init_ok_spec es :
  limine_map_ok es -> init_mem_high es <> 0 -> init_bmapaddr es (init_msz es) <> 0 ->
  exists st, pmm_init es = InitOk st /\ pmm_wf st /\ nframes st = init_nf es /\
    mmap_sz st = init_msz es /\
    forall f, 0 <= f < nframes st ->
      used st f = negb (existsb (covers f) es) || bool_decide (bitmap_frame es (mmap_sz st) f) || (f =? 8).
Proof.
  intros Hmap Hhi Hbm. destruct (init_sizes es Hmap) as (Hnf & Hm & _).
  destruct (init_bm_ok es Hmap Hbm) as (Hal & Hbm0 & Hmsz0).
  destruct (init_unlock es Hmap Hbm) as (st1 & E1 & Hwf1 & Heq1 & Hu1 & Hrun).
  set (bm := init_bmapaddr es (init_msz es)) in *.
  set (c := (init_msz es + 4096 - 1) / 4096) in *.
  assert (0 <= c < 2 ^ 32 /\ 0 <= bm / 4096 < 2 ^ 32) as [? ?].
  { split; (split; [apply Z.div_pos; lia|apply Z.div_lt_upper_bound; lia]). }
  destruct (pmm_try_resv_free st1 (bm / 4096) c) as (st2 & E2 & Hwf2 & _ & Hu2 & Heq2); [done|lia|done|].
  destruct (pmm_try_resv_one st2 8) as (st3 & r & E3 & Hwf3 & Heq3 & Hu3); [done|lia|].
  assert (nframes st3 = init_nf es) as Hn3 by (by rewrite Heq3, Heq2, Heq1).
  assert (mmap_sz st3 = init_msz es) as Hs3 by (by rewrite Heq3, Heq2, Heq1).
  assert (pmm_init es = InitOk st3) as Ei.
  { unfold pmm_init. rewrite (proj2 (Z.eqb_neq _ 0) Hhi). fold (init_nf es).
    rewrite (wrap_small 32 (init_nf es)) by lia. fold (init_msz es). fold bm.
    rewrite (proj2 (Z.eqb_neq bm 0)) by done. fold (init_st0 es). rewrite E1. cbn [mbind option_bind].
    rewrite (wrap_small 64), (wrap_small 32 (bm / 4096)) by lia. fold c.
    rewrite (wrap_small 32 c), E2 by lia. cbn [mbind option_bind].
    change (32768 / 4096) with 8. by rewrite E3. }
  exists st3. rewrite Hn3, Hs3. split_and!; [done..|].
  intros f Hf. rewrite Hu3 by (rewrite Heq2, Heq1; simpl; lia). f_equal.
  rewrite Hu2, Hu1 by lia. rewrite orb_comm. f_equal.
  by rewrite <- (in_bitmap_run es).
Qed.

(** C32. [pmm_init] on any Limine memory map (of a machine of at most 4 GiB)
    never faults.  When it succeeds a frame is free exactly when a usable
    entry contains it and it is neither part of the bitmap itself nor the SMP
    trampoline frame 8; it panics only when the map is empty or when no usable
    entry can hold the bitmap. *)
Theorem pmm_init_correct es :
  limine_map_ok es ->
  match pmm_init es with
  | InitOk st =>
      pmm_wf st /\
      forall f, 0 <= f < nframes st ->
        used st f = false <->
        (exists e, e ∈ es /\ covers f e = true) /\ ~ bitmap_frame es (mmap_sz st) f /\ f <> 8
  | PanicNoMemory => Forall (fun e => e_base e + e_length e = 0) es
  | PanicNoBitmap =>
      forall e, e ∈ es -> e_type e = LIMINE_MEMMAP_USABLE -> e_length e < init_msz es
  | InitFault => False
  end.
Proof.
  intros Hmap. destruct (Z.eq_dec (init_mem_high es) 0) as [Hz|Hz].
  { unfold pmm_init. rewrite Hz. simpl. destruct (init_high_ok es Hmap) as [_ Hall].
    eapply Forall_impl; [exact Hall|]. cbv zeta. rewrite Hz. unfold entry_ok. intros; lia. }
  destruct (Z.eq_dec (init_bmapaddr es (init_msz es)) 0) as [Hb|Hb].
  { destruct (init_sizes es Hmap) as (? & _). unfold pmm_init.
    rewrite (proj2 (Z.eqb_neq _ 0) Hz). fold (init_nf es). rewrite wrap_small by lia.
    fold (init_msz es). rewrite Hb. simpl. intros e Hin Ht.
    apply (init_bmapaddr_none es _ e Hb Hin Ht). intros e' Hin' Ht'. by apply (proj2 Hmap). }
  destruct (pmm_init_ok_spec es Hmap Hz Hb) as (st & -> & Hwf & Hn & Hs & Hu).
  split; [done|]. intros f Hf. rewrite Hu by done.
  rewrite !orb_false_iff, negb_false_iff, existsb_exists, bool_decide_eq_false, Z.eqb_neq.
  split; [intros [[(e & ?%list_elem_of_In & ?) ?] ?]|intros [(e & ? & ?) [? ?]]];
    (split_and!; [|done..]); exists e; (split; [|done]); [done|by apply list_elem_of_In].
Qed.

(** ** Concrete instances *)

(** A 32-frame machine whose frames 0-9 and 12 are taken. *)
Definition demo : pmm_state := mk_pmm 131072 0 32 0 4096 [255; 19; 0; 0] 4.

Lemma demo_wf : pmm_wf demo.
Proof. unfold pmm_wf, bytes_ok. simpl. repeat split; try lia; repeat constructor; lia. Qed.

Lemma pmm_falloc_first_fit_witness :
  pmm_wf demo /\ exists st', pmm_falloc demo 3 = Some (st', 13 * 4096) /\ pmm_wf st'.
Proof.
  split; [exact demo_wf|].
  destruct (pmm_falloc_first_fit demo 3 demo_wf) as (st' & p & E & Hwf & _); [lia|].
  exists st'. split; [|exact Hwf]. rewrite E. revert E. vm_compute. intros [= <- <-]. reflexivity.
Defined.

Lemma pmm_falloc_ffree_roundtrip_witness :
  exists st', pmm_falloc demo 2 = Some (st', 10 * 4096) /\
    pmm_ffree st' (10 * 4096) 2 = Some demo.
Proof.
  exists (mk_pmm 131072 0 32 0 4096 [255; 31; 0; 0] 4). split; [vm_compute; reflexivity|].
  apply (pmm_falloc_ffree_roundtrip demo 2); [exact demo_wf|lia|vm_compute; reflexivity|lia].
Defined.

(** A PC-like map: low memory, a hole, 8 MiB of memory. *)
Definition demo_map : list memmap_entry :=
  [mk_entry 4096 651264 LIMINE_MEMMAP_USABLE;
   mk_entry 655360 393216 1;
   mk_entry 1048576 7340032 LIMINE_MEMMAP_USABLE].

Lemma demo_map_ok : limine_map_ok demo_map.
Proof.
  split.
  - unfold demo_map. repeat constructor; simpl; lia.
  - intros e He Ht. unfold demo_map in He.
    repeat (apply elem_of_cons in He as [->|He]; [simpl in *; (lia || discriminate || (split_and!; vm_compute; congruence))|]).
    by apply not_elem_of_nil in He.
Qed.

Lemma pmm_init_correct_witness :
  limine_map_ok demo_map /\
  exists st, pmm_init demo_map = InitOk st /\ pmm_wf st /\ used st 8 = true /\ used st 300 = false.
Proof.
  split; [exact demo_map_ok|].
  pose proof (pmm_init_correct demo_map demo_map_ok) as H.
  destruct (pmm_init demo_map) as [st| | |] eqn:E.
  - exists st. split; [reflexivity|]. split; [exact (proj1 H)|].
    revert E. vm_compute. intros [= <-]. split; reflexivity.
  - exfalso. clear H. vm_compute in E. discriminate.
  - exfalso. clear H. vm_compute in E. discriminate.
  - destruct H.
Defined.

(** ** Machines with more than 4 GiB *)

Lemma falloc_bytes_skip k n st i cnt :
  0 <= i -> (forall j, i <= j < i + Z.of_nat k -> aget (mmap st) j = Some 255) ->
  falloc_bytes (k + n) st i cnt = falloc_bytes n st (i + Z.of_nat k) cnt.
Proof.
  revert i. induction k as [|k IH]; intros i Hi Hf; [by rewrite Z.add_0_r|].
  cbn [falloc_bytes Nat.add]. rewrite Hf by lia. simpl. rewrite IH by (lia || (intros; apply Hf; lia)).
  f_equal. lia.
Qed.

(** All bytes below [j] are full and the first bit of byte [j] is free. *)
Definition first_free_byte (st : pmm_state) (j : Z) : Prop :=
  0 <= j /\ 8 * j < nframes st /\ (forall i, 0 <= i < j -> aget (mmap st) i = Some 255) /\
  used st (8 * j) = false.

(** Above 4 GiB the 32-bit product [fidx * framesz] wraps: when the first
    free frame is [8 * j >= 2^20], [pmm_falloc] marks that frame but returns the
    address of frame [8 * j mod 2^20], which is in use. *)
Theorem pmm_falloc_wraps_above_4gib st j :
  framesz st = 4096 -> mem_low st = 0 -> nframes st < 2 ^ 32 - 1 -> bytes_ok (mmap st) ->
  Z.of_nat (length (mmap st)) = mmap_sz st -> nframes st <= 8 * mmap_sz st ->
  first_free_byte st j -> 2 ^ 17 <= j ->
  exists st', pmm_falloc st 1 = Some (st', (8 * j mod 2 ^ 20) * 4096) /\
    used st' (8 * j) = true /\ used st (8 * j mod 2 ^ 20) = true.
Proof.
  intros Hfs Hml Hnf Hok Hlen Hle (Hj0 & Hj & Hfull & Hfree) H17.
  pose proof (Z.mod_pos_bound (8 * j) (2 ^ 20) ltac:(lia)) as Hm.
  unfold pmm_falloc. replace (Z.to_nat (mmap_sz st)) with
    (Z.to_nat j + S (Z.to_nat (mmap_sz st - j - 1)))%nat by lia.
  rewrite falloc_bytes_skip by (lia || (intros; apply Hfull; lia)).
  rewrite Z2Nat.id, Z.add_0_l by lia. cbn [falloc_bytes].
  destruct (aget_is_Some (mmap st) j) as [b Hb]; [lia|]. rewrite Hb. cbn [mbind option_bind].
  destruct (Z.eqb_spec b 255) as [->|_].
  { rewrite (full_byte_used st j) in Hfree by (done || lia). done. }
  cbn [falloc_bits]. rewrite (Z.add_0_r (j * 8)), (wrap_small 32 (j * 8)), (wrap_small 32 1) by lia.
  unfold pmm_try_resv. rewrite (wrap_small 32 (j * 8 + 1)), (proj2 (Z.ltb_ge _ _)) by lia.
  change (Z.to_nat 1) with 1%nat. cbn [run_free run_mark].
  rewrite (wrap_small 32 (j * 8 + 0)), (Z.add_0_r (j * 8)), (Z.mul_comm j 8) by lia.
  rewrite test_bit_spec by (apply in_map_lt; lia).
  unfold used in Hfree. rewrite Hfree. cbn [mbind option_bind negb].
  destruct (set_bit_spec (mmap st) Hok (8 * j)) as (m & -> & _ & _ & Hbm); [apply in_map_lt; lia|].
  simpl. rewrite Hml, Hfs, Z.add_0_l.
  replace (wrap 32 (8 * j * 4096)) with ((8 * j) mod 2 ^ 20 * 4096)
    by (unfold wrap; change (2 ^ 32) with (2 ^ 20 * 4096); by rewrite Z.mul_mod_distr_r by lia).
  rewrite wrap_small by lia. eexists. split; [done|]. split.
  - unfold used. simpl. rewrite Hbm. by rewrite bool_decide_true.
  - apply full_byte_used with ((8 * j mod 2 ^ 20) / 8).
    + apply Hfull. split; [apply Z.div_pos; lia|apply Z.div_lt_upper_bound; lia].
    + pose proof (Z.div_mod (8 * j mod 2 ^ 20) 8 ltac:(lia)).
      pose proof (Z.mod_pos_bound (8 * j mod 2 ^ 20) 8 ltac:(lia)). lia.
Qed.

(** A machine with [8 * n + 8] frames of which only the last eight are free. *)
Definition big (n : Z) : pmm_state :=
  mk_pmm (8 * n * 4096 + 32768) 0 (8 * n + 8) 0 4096 (replicate (Z.to_nat n) 255 ++ [0]) (n + 1).

Lemma big_first_free n : 0 <= n ->
  first_free_byte (big n) n /\ bytes_ok (mmap (big n)) /\
  Z.of_nat (length (mmap (big n))) = mmap_sz (big n).
Proof.
  intros Hn. unfold big, first_free_byte, bytes_ok, used, bit. cbn [mmap mmap_sz nframes].
  assert (aget (replicate (Z.to_nat n) 255 ++ [0]) n = Some 0) as Hl.
  { apply aget_Some. split; [lia|]. apply list_lookup_middle. by rewrite length_replicate. }
  split_and!; try lia.
  - intros i Hi. apply aget_Some. split; [lia|]. rewrite lookup_app_l by (rewrite length_replicate; lia).
    apply lookup_replicate_2. lia.
  - rewrite (Z.mul_comm 8 n), Z.div_mul, Hl by lia. rewrite Z.mod_mul by lia. done.
  - apply Forall_app. split; [by apply Forall_replicate|repeat constructor; lia].
  - rewrite length_app, length_replicate. simpl length. lia.
Qed.

Lemma pmm_falloc_wraps_above_4gib_witness :
  exists st', pmm_falloc (big (2 ^ 17)) 1 = Some (st', (8 * 2 ^ 17 mod 2 ^ 20) * 4096).
Proof.
  destruct (big_first_free (2 ^ 17)) as (Hf & Hok & Hl); [lia|].
  destruct (pmm_falloc_wraps_above_4gib (big (2 ^ 17)) (2 ^ 17)) as (st' & E & _);
    [reflexivity|reflexivity|cbn [big nframes]; lia|exact Hok|exact Hl|cbn [big nframes mmap_sz]; lia|exact Hf|lia|].
  exists st'. exact E.
Defined.

End Pmm.
