(* ===== verification/Region.v ===== *)
(** The virtual address region list of the memory manager
    ([src/kern/mem/vmm.c]: [allocvmmr], [vmm_setumapbase], [vmm_remumap],
    [vmm_rangeinusrmap], [vmm_ffreer] and the bookkeeping half of
    [vmm_unmap_pages]).

    Model: the pool [vmmr_nodes] of list nodes linked by index, walked from
    [vmmr_head]; addresses at 64 bits.  Loops over the linked list carry fuel;
    [None] is an endless walk or a dangling link.

    Abstraction: a well-formed list tiles the kernel heap range with regions,
    each free or busy.  [seg] relates the linked nodes to that list. *)
From S2P Require Import Prelude.

Module Region.

Definition PAGE : Z := 4096.
Definition USER_END : Z := 0x7FFFFFFFF000.
Definition HEAP_START : Z := 0xFFFF900000000000.
Definition HEAP_END : Z := 0xFFFFB00000000000.
Definition MAX_VNODES : nat := 1024.

Record vmm_region_t := mk_region {
  vaddr_base : Z;
  page_count : Z;
  is_free : bool;
  next : option nat
}.

Record vmm_range_t := mk_range {
  r_base : Z;
  r_curr : Z;
  r_end : Z;
  r_pgcnt : Z
}.

Definition zero_region : vmm_region_t := mk_region 0 0 false None.

(** ** User mapping ranges *)

Definition vmm_setumapbase (umapr : list vmm_range_t) (pid base : Z) : option (list vmm_range_t) :=
  let a := Z.land (u64 (base + 0xFFF)) (2 ^ 64 - 1 - 0xFFF) in
  let aligned_base := if a <? 0x10000000 then 0x10000000 else a in
  let vend := USER_END - 16 * 4096 in
  aset umapr pid (mk_range aligned_base aligned_base vend (u64 (vend - aligned_base) / 4096)).

Definition vmm_remumap (umapr : list vmm_range_t) (pid : Z) : option (list vmm_range_t) :=
  aset umapr pid (mk_range 0 0 0 0).

(** The range is the current process' entry of [vmm_umapr]. *)
Definition vmm_rangeinusrmap (r : vmm_range_t) (addr npages : Z) : bool :=
  (r_base r <=? addr) && (u64 (addr + u64 (npages * 4096)) <=? r_end r).

(** ** The node pool *)

Fixpoint allocvmmr_from (i : nat) (nodes : list vmm_region_t) : option nat :=
  match nodes with
  | [] => None
  | n :: rest =>
      if (vaddr_base n =? 0) && (page_count n =? 0) && negb (is_free n)
      then Some i else allocvmmr_from (S i) rest
  end.

Definition allocvmmr (nodes : list vmm_region_t) : option nat := allocvmmr_from 0 nodes.

(** ** Allocation *)

(** Tail of the loop body once [curr] fits: carve [pgcnt] pages off its front. *)
Definition ffreer_take (nodes : list vmm_region_t) (c : nat) (pgcnt : Z)
  : option (list vmm_region_t * Z) :=
  n ← nodes !! c;
  let alloc_size := u64 (pgcnt * 4096) in
  if pgcnt <? page_count n then
    match allocvmmr nodes with
    | None => Some (nodes, 0)
    | Some k =>
        let nblk := mk_region (u64 (vaddr_base n + alloc_size)) (u64 (page_count n - pgcnt)) true (next n) in
        Some (<[c := mk_region (vaddr_base n) pgcnt false (Some k)]> (<[k := nblk]> nodes),
              vaddr_base n)
    end
  else Some (<[c := mk_region (vaddr_base n) (page_count n) false (next n)]> nodes, vaddr_base n).

Fixpoint ffreer_loop (fuel : nat) (nodes : list vmm_region_t) (curr : option nat)
  (pgcnt : Z) (user : bool) (r : vmm_range_t) : option (list vmm_region_t * Z) :=
  match fuel with
  | O => None
  | S fuel' =>
      match curr with
      | None => Some (nodes, 0)
      | Some c =>
          n ← nodes !! c;
          let alloc_size := u64 (pgcnt * 4096) in
          if is_free n && (pgcnt <=? page_count n) then
            let start_vaddr := vaddr_base n in
            let region_end := u64 (vaddr_base n + u64 (page_count n * 4096)) in
            if user then
              let usable_start := if start_vaddr <? r_base r then r_base r else start_vaddr in
              if vmm_rangeinusrmap r usable_start pgcnt &&
                 (u64 (usable_start + alloc_size) <=? region_end) then
                if start_vaddr <? usable_start then
                  match allocvmmr nodes with
                  | None => Some (nodes, 0)
                  | Some k =>
                      let prefix_pages := u64 (usable_start - start_vaddr) / 4096 in
                      let mid := mk_region usable_start (u64 (page_count n - prefix_pages)) true (next n) in
                      ffreer_take (<[c := mk_region start_vaddr prefix_pages true (Some k)]> (<[k := mid]> nodes))
                        k pgcnt
                  end
                else ffreer_take nodes c pgcnt
              else ffreer_loop fuel' nodes (next n) pgcnt user r
            else ffreer_take nodes c pgcnt
          else ffreer_loop fuel' nodes (next n) pgcnt user r
      end
  end.

(** Fuel: a walk over distinct nodes ends within [MAX_VNODES + 1] steps. *)
Definition vmm_ffreer (nodes : list vmm_region_t) (head : option nat)
  (pgcnt : Z) (user : bool) (r : vmm_range_t) : option (list vmm_region_t * Z) :=
  ffreer_loop (S MAX_VNODES) nodes head pgcnt user r.

(** ** Release: the region half of [vmm_unmap_pages] *)

(** The four cases on the busy node [c] that contains the released range.  Both
    [allocvmmr] calls of the last case run before either node is written. *)
Definition release_split (nodes : list vmm_region_t) (c : nat) (n : vmm_region_t) (vst pgcnt : Z)
  : list vmm_region_t :=
  let szrm := u64 (pgcnt * 4096) in
  let node_end := u64 (vaddr_base n + u64 (page_count n * 4096)) in
  let free_end := u64 (vst + szrm) in
  if (vst =? vaddr_base n) && (free_end =? node_end) then
    <[c := mk_region (vaddr_base n) (page_count n) true (next n)]> nodes
  else if vst =? vaddr_base n then
    match allocvmmr nodes with
    | None => nodes
    | Some k =>
        <[c := mk_region (vaddr_base n) pgcnt true (Some k)]>
          (<[k := mk_region free_end (u64 (page_count n - pgcnt)) false (next n)]> nodes)
    end
  else if free_end =? node_end then
    match allocvmmr nodes with
    | None => nodes
    | Some k =>
        <[c := mk_region (vaddr_base n) (u64 (page_count n - pgcnt)) (is_free n) (Some k)]>
          (<[k := mk_region vst pgcnt true (next n)]> nodes)
    end
  else
    match allocvmmr nodes, allocvmmr nodes with
    | Some mid, Some trail =>
        let nodes1 := <[trail := mk_region free_end (u64 (node_end - free_end) / 4096) false (next n)]> nodes in
        let nodes2 := <[mid := mk_region vst pgcnt true (Some trail)]> nodes1 in
        <[c := mk_region (vaddr_base n) (u64 (vst - vaddr_base n) / 4096) (is_free n) (Some mid)]> nodes2
    | _, _ => nodes
    end.

Fixpoint release_loop (fuel : nat) (nodes : list vmm_region_t) (curr : option nat) (vst pgcnt : Z)
  : option (list vmm_region_t) :=
  match fuel with
  | O => None
  | S fuel' =>
      match curr with
      | None => Some nodes
      | Some c =>
          n ← nodes !! c;
          if negb (is_free n) && (vaddr_base n <=? vst) &&
             (u64 (vst + u64 (pgcnt * 4096)) <=? u64 (vaddr_base n + u64 (page_count n * 4096)))
          then Some (release_split nodes c n vst pgcnt)
          else release_loop fuel' nodes (next n) vst pgcnt
      end
  end.

(** Merge adjacent free regions; the absorbed node is zeroed last, as in the
    code. *)
Fixpoint coalesce_loop (fuel : nat) (nodes : list vmm_region_t) (curr : option nat)
  : option (list vmm_region_t) :=
  match fuel with
  | O => None
  | S fuel' =>
      match curr with
      | None => Some nodes
      | Some c =>
          n ← nodes !! c;
          match next n with
          | None => Some nodes
          | Some x =>
              nx ← nodes !! x;
              if is_free n && is_free nx then
                coalesce_loop fuel'
                  (<[x := zero_region]>
                    (<[c := mk_region (vaddr_base n) (u64 (page_count n + page_count nx)) (is_free n) (next nx)]> nodes))
                  (Some c)
              else coalesce_loop fuel' nodes (Some x)
          end
      end
  end.

Definition regions_release (nodes : list vmm_region_t) (head : option nat) (vst pgcnt : Z)
  : option (list vmm_region_t) :=
  if (vst <? HEAP_START) || (HEAP_END <=? vst) then Some nodes
  else
    nodes1 ← release_loop (S MAX_VNODES) nodes head vst pgcnt;
    coalesce_loop (S MAX_VNODES) nodes1 head.

(** The region part of [vmm_init]: one free region over the whole heap. *)
Definition regions_init (nodes : list vmm_region_t) : list vmm_region_t * option nat :=
  match allocvmmr nodes with
  | None => (nodes, None)
  | Some i => (<[i := mk_region HEAP_START ((HEAP_END - HEAP_START) / 4096) true None]> nodes, Some i)
  end.

(** ** Abstraction: the tiling of the heap *)

(** Base, size in pages, free? *)
Notation reg := (Z * Z * bool)%type.

Definition node_of (d : reg) (nx : option nat) : vmm_region_t :=
  let '(b, pc, f) := d in mk_region b pc f nx.

(** [seg nodes p l q]: following links from [p], the nodes of [l] come first
    and lead to [q]. *)
Fixpoint seg (nodes : list vmm_region_t) (p : option nat) (l : list (nat * reg)) (q : option nat) : Prop :=
  match l with
  | [] => p = q
  | (i, d) :: l' => p = Some i /\ exists nx, nodes !! i = Some (node_of d nx) /\ seg nodes nx l' q
  end.

Fixpoint tiles (b : Z) (rs : list reg) (e : Z) : Prop :=
  match rs with
  | [] => b = e
  | (rb, pc, _) :: rs' => rb = b /\ 0 < pc /\ tiles (b + pc * 4096) rs' e
  end.

(** The nodes linked from [head] carry exactly the regions [l], on distinct
    pool nodes. *)
Definition linked (nodes : list vmm_region_t) (head : option nat) (l : list (nat * reg)) : Prop :=
  length nodes = MAX_VNODES /\ NoDup l.*1 /\ seg nodes head l None.

(** The region list represents the tiling [rs] of the kernel heap range. *)
Definition regions_rep (nodes : list vmm_region_t) (head : option nat) (rs : list reg) : Prop :=
  exists l, l.*2 = rs /\ linked nodes head l /\ tiles HEAP_START rs HEAP_END.

(** Address [a] lies in a region of status [f]. *)
Definition covered (f : bool) (rs : list reg) (a : Z) : Prop :=
  exists b pc, (b, pc, f) ∈ rs /\ b <= a < b + pc * 4096.

(** Regions of one list merged when adjacent and free. *)
Fixpoint merge_from (a : reg) (l : list reg) : list reg :=
  match l with
  | [] => [a]
  | b :: l' =>
      if a.2 && b.2 then merge_from (a.1.1, a.1.2 + b.1.2, a.2) l'
      else a :: merge_from b l'
  end.

Definition merge_adj (l : list reg) : list reg :=
  match l with [] => [] | a :: l' => merge_from a l' end.

Fixpoint coalesced (l : list reg) : bool :=
  match l with
  | [] => true
  | a :: l' => match l' with [] => true | b :: _ => negb (a.2 && b.2) && coalesced l' end
  end.

(** A busy region after its pages [vst .. vst + n * 4096) become free, for a
    range at one of its ends. *)
Definition shed (b pc vst n : Z) : list reg :=
  if n =? pc then [(b, pc, true)]
  else if vst =? b then [(b, n, true); (b + n * 4096, pc - n, false)]
  else [(b, pc - n, false); (vst, n, true)].

(** What is left of a free region when [n] pages are taken off its front. *)
Definition carve (b pc n : Z) : list reg :=
  (b, n, false) :: (if n <? pc then [(b + n * 4096, pc - n, true)] else []).

(** ** Linked segments *)

Lemma seg_app nodes p l1 l2 q :
  seg nodes p (l1 ++ l2) q <-> exists m, seg nodes p l1 m /\ seg nodes m l2 q.
Proof.
  revert p. induction l1 as [|[i d] l1 IH]; intros p; simpl.
  - split; [by eexists|by intros [? [-> ?]]].
  - split.
    + intros [-> [nx [? [m [??]]%IH]]]. naive_solver.
    + intros [m [[-> [nx [??]]] ?]]. split; [done|]. exists nx. split; [done|].
      apply IH. by exists m.
Qed.

Lemma seg_insert nodes p l q j x :
  j ∉ l.*1 -> seg nodes p l q -> seg (<[j := x]> nodes) p l q.
Proof.
  revert p. induction l as [|[i d] l IH]; intros p; simpl; [done|].
  intros Hj [-> [nx [??]]]. split; [done|]. exists nx.
  apply not_elem_of_cons in Hj as [??].
  by rewrite list_lookup_insert_ne; auto.
Qed.

Lemma seg_nodup_length nodes p l q :
  NoDup l.*1 -> seg nodes p l q -> (length l <= length nodes)%nat.
Proof.
  intros Hnd Hs. rewrite <- (length_fmap fst), <- (length_seq (length nodes) 0).
  apply submseteq_length, NoDup_submseteq; [done|].
  clear Hnd. revert p Hs. induction l as [|[i d] l IH]; intros p; simpl.
  - by intros _ x ?%elem_of_nil.
  - intros [-> [nx [?%lookup_lt_Some ?]]] x [->|?]%elem_of_cons.
    + apply elem_of_seq. lia.
    + by eapply IH.
Qed.

Lemma tiles_app b l1 l2 e :
  tiles b (l1 ++ l2) e <-> exists m, tiles b l1 m /\ tiles m l2 e.
Proof.
  revert b. induction l1 as [|[[rb pc] f] l1 IH]; intros b; simpl.
  - naive_solver.
  - rewrite IH. naive_solver.
Qed.

Lemma tiles_le b l e : tiles b l e -> b <= e.
Proof.
  revert b. induction l as [|[[rb pc] f] l IH]; intros b; simpl; [lia|].
  intros (-> & ? & ?%IH). lia.
Qed.

Lemma tiles_bounds b l e rb pc f :
  tiles b l e -> (rb, pc, f) ∈ l -> b <= rb /\ 0 < pc /\ rb + pc * 4096 <= e.
Proof.
  revert b. induction l as [|[[rb' pc'] f'] l IH]; intros b; simpl.
  - by intros _ ?%elem_of_nil.
  - intros (-> & ? & Ht) [[= -> -> ->]|Hin]%elem_of_cons.
    + apply tiles_le in Ht. lia.
    + destruct (IH _ Ht Hin). lia.
Qed.

(** A region of the tiling stays within 64-bit arithmetic. *)
Lemma tile_no_wrap rs rb pc f :
  tiles HEAP_START rs HEAP_END -> (rb, pc, f) ∈ rs ->
  HEAP_START <= rb /\ 0 < pc /\ rb + pc * 4096 <= HEAP_END /\
  u64 (pc * 4096) = pc * 4096 /\ u64 (rb + pc * 4096) = rb + pc * 4096.
Proof.
  intros Ht Hin. destruct (tiles_bounds _ _ _ _ _ _ Ht Hin) as (?&?&?).
  unfold HEAP_START, HEAP_END in *.
  rewrite !wrap_small by lia. auto.
Qed.

(** ** The node pool *)

Lemma allocvmmr_from_Some i nodes k :
  allocvmmr_from i nodes = Some k ->
  (i <= k)%nat /\ exists n, nodes !! (k - i)%nat = Some n /\ vaddr_base n = 0 /\ page_count n = 0.
Proof.
  revert i. induction nodes as [|n nodes IH]; intros i; simpl; [done|].
  split_if; to_prop.
  - intros [= ->]. split; [lia|]. rewrite Nat.sub_diag. simpl. eauto.
  - intros (? & m & ? & ?)%IH. split; [lia|]. exists m.
    replace (k - i)%nat with (S (k - S i)) by lia. auto.
Qed.

Lemma allocvmmr_Some nodes k :
  allocvmmr nodes = Some k ->
  (k < length nodes)%nat /\ exists n, nodes !! k = Some n /\ vaddr_base n = 0 /\ page_count n = 0.
Proof.
  intros (_ & n & Hn & ?)%allocvmmr_from_Some. rewrite Nat.sub_0_r in Hn.
  split; [by eapply lookup_lt_Some|eauto].
Qed.

(** A pool node in use by the tiling is never handed out. *)
Lemma seg_alloc_fresh nodes p l q k :
  seg nodes p l q -> (forall i d, (i, d) ∈ l -> 0 < d.1.2) ->
  allocvmmr nodes = Some k -> k ∉ l.*1.
Proof.
  intros Hs Hpos (_ & n & Hk & _ & Hpc)%allocvmmr_Some Hin.
  revert p Hs. induction l as [|[i d] l IH]; intros p; simpl in *.
  - by apply elem_of_nil in Hin.
  - intros [-> [nx [Hi Hs]]]. apply elem_of_cons in Hin as [->|Hin].
    + pose proof (Hpos i d ltac:(by left)). destruct d as [[b pc] f].
      rewrite Hk in Hi. injection Hi as ->. simpl in *. lia.
    + eapply IH; eauto. intros. eapply Hpos. by right.
Qed.

(** ** Node updates *)

Lemma linked_mid nodes head l1 c d l2 :
  linked nodes head (l1 ++ (c, d) :: l2) ->
  exists nx, nodes !! c = Some (node_of d nx) /\ seg nodes head l1 (Some c) /\
    seg nodes nx l2 None /\ c ∉ l1.*1 /\ c ∉ l2.*1.
Proof.
  intros (_ & Hnd & (m & Hs1 & -> & nx & Hc & Hs2)%seg_app).
  exists nx. rewrite fmap_app, fmap_cons in Hnd.
  apply NoDup_app in Hnd as (_ & Hd & Hnd). apply NoDup_cons in Hnd as [? _].
  split_and!; auto. intros Hin. apply (Hd _ Hin). by left.
Qed.

Lemma linked_update nodes head l1 c d d' l2 nx :
  linked nodes head (l1 ++ (c, d) :: l2) -> nodes !! c = Some (node_of d nx) ->
  linked (<[c := node_of d' nx]> nodes) head (l1 ++ (c, d') :: l2).
Proof.
  intros HL Hc. destruct (linked_mid _ _ _ _ _ _ HL) as (nx' & Hc' & Hs1 & Hs2 & ? & ?).
  destruct HL as (Hlen & Hnd & _).
  assert (nx' = nx) as ->.
  { rewrite Hc in Hc'. destruct d as [[??]?]. by injection Hc'. }
  split; [by rewrite length_insert|]. split.
  { rewrite fmap_app in *. done. }
  apply seg_app. exists (Some c). split; [by apply seg_insert|].
  simpl. split; [done|]. exists nx. split; [|by apply seg_insert].
  apply list_lookup_insert_eq. by eapply lookup_lt_Some.
Qed.

(** Splitting node [c] in two with a fresh pool node [k]. *)
Lemma linked_split nodes head l1 c d d1 d2 l2 nx k :
  linked nodes head (l1 ++ (c, d) :: l2) -> nodes !! c = Some (node_of d nx) ->
  (k < length nodes)%nat -> k ∉ (l1 ++ (c, d) :: l2).*1 ->
  linked (<[c := node_of d1 (Some k)]> (<[k := node_of d2 nx]> nodes)) head
    (l1 ++ (c, d1) :: (k, d2) :: l2).
Proof.
  intros HL Hc Hk Hfresh. destruct (linked_mid _ _ _ _ _ _ HL) as (nx' & Hc' & Hs1 & Hs2 & ? & ?).
  destruct HL as (Hlen & Hnd & _).
  assert (nx' = nx) as ->.
  { rewrite Hc in Hc'. destruct d as [[??]?]. by injection Hc'. }
  rewrite fmap_app, fmap_cons in Hfresh, Hnd. simpl in *.
  apply not_elem_of_app in Hfresh as [? [??]%not_elem_of_cons].
  pose proof (lookup_lt_Some _ _ _ Hc).
  split; [by rewrite !length_insert|]. split.
  { rewrite fmap_app. simpl.
    apply NoDup_app in Hnd as (? & Hd & [??]%NoDup_cons).
    apply NoDup_app. split_and!; auto.
    - intros x Hx [->|[->|?]%elem_of_cons]%elem_of_cons; [done..|].
      apply (Hd _ Hx). by right.
    - apply NoDup_cons. split; [|by apply NoDup_cons].
      by apply not_elem_of_cons. }
  apply seg_app. exists (Some c). split; [by apply seg_insert, seg_insert|].
  simpl. split; [done|]. exists (Some k). split.
  { apply list_lookup_insert_eq. by rewrite length_insert. }
  split; [done|]. exists nx. split; [|by apply seg_insert, seg_insert].
  rewrite list_lookup_insert_ne by done. by apply list_lookup_insert_eq.
Qed.

(** ** Allocation *)

Definition fits (pgcnt : Z) (d : reg) : bool := d.2 && (pgcnt <=? d.1.2).

Lemma ffreer_loop_find fuel nodes p l pgcnt r :
  seg nodes p l None -> (length l < fuel)%nat ->
  (Forall (fun x => fits pgcnt x.2 = false) l /\
   ffreer_loop fuel nodes p pgcnt false r = Some (nodes, 0)) \/
  (exists l1 c d l2, l = l1 ++ (c, d) :: l2 /\
     Forall (fun x => fits pgcnt x.2 = false) l1 /\ fits pgcnt d = true /\
     ffreer_loop fuel nodes p pgcnt false r = ffreer_take nodes c pgcnt).
Proof.
  revert fuel p. induction l as [|[i d] l IH]; intros fuel p Hs Hf;
    (destruct fuel as [|fuel]; [simpl in Hf; lia|]).
  - simpl in Hs. subst p. left. split; [constructor|done].
  - destruct Hs as [-> [nx [Hi Hs]]]. simpl. rewrite Hi. simpl.
    destruct (fits pgcnt d) eqn:Efit.
    + right. exists [], i, d, l. split_and!; auto.
      destruct d as [[b pc] f]. unfold fits in Efit. simpl in *. by rewrite Efit.
    + assert (is_free (node_of d nx) && (pgcnt <=? page_count (node_of d nx)) = false) as ->.
      { by destruct d as [[b pc] f]. }
      replace (next (node_of d nx)) with nx by (by destruct d as [[b pc] f]).
      destruct (IH fuel nx Hs ltac:(simpl in Hf; lia)) as [[??]|(l1&c&d'&l2&->&?&?&?)].
      * left. split; [by constructor|done].
      * right. exists ((i, d) :: l1), c, d', l2. split_and!; auto.
Qed.

Lemma tiles_replace b l1 rs rs' l2 e :
  (forall x y, tiles x rs y -> tiles x rs' y) ->
  tiles b (l1 ++ rs ++ l2) e -> tiles b (l1 ++ rs' ++ l2) e.
Proof.
  intros H (m & ? & (m' & ? & ?)%tiles_app)%tiles_app.
  apply tiles_app. exists m. split; [done|]. apply tiles_app. eauto.
Qed.

Lemma linked_fresh nodes head l k :
  linked nodes head l -> tiles HEAP_START l.*2 HEAP_END ->
  allocvmmr nodes = Some k -> (k < length nodes)%nat /\ k ∉ l.*1.
Proof.
  intros (Hlen & _ & Hs) Ht Hk. split; [by apply allocvmmr_Some in Hk as [??]|].
  eapply seg_alloc_fresh; eauto. intros i [[b pc] f] Hin. simpl.
  apply (tiles_bounds _ _ _ b pc f Ht).
  apply list_elem_of_fmap. by exists (i, (b, pc, f)).
Qed.

Lemma ffreer_take_spec nodes head l1 c b pc l2 pgcnt :
  linked nodes head (l1 ++ (c, (b, pc, true)) :: l2) ->
  tiles HEAP_START (l1 ++ (c, (b, pc, true)) :: l2).*2 HEAP_END ->
  0 < pgcnt <= pc ->
  (exists nodes', ffreer_take nodes c pgcnt = Some (nodes', b) /\
     regions_rep nodes' head (l1.*2 ++ carve b pc pgcnt ++ l2.*2)) \/
  (ffreer_take nodes c pgcnt = Some (nodes, 0) /\ allocvmmr nodes = None).
Proof.
  intros HL Ht Hp. destruct (linked_mid _ _ _ _ _ _ HL) as (nx & Hc & _).
  unfold ffreer_take, carve. rewrite Hc. simpl.
  pose proof Ht as Ht'. rewrite fmap_app, fmap_cons in Ht'. simpl in Ht'.
  destruct (tile_no_wrap _ b pc true Ht') as (?&?&?&?&?); [apply elem_mid|].
  assert (HEAP_START > 0 /\ HEAP_END < 2 ^ 64) as [??] by (unfold HEAP_START, HEAP_END; lia).
  split_if; to_prop.
  - destruct (allocvmmr nodes) as [k|] eqn:Ek; [|by right]. left.
    destruct (linked_fresh _ _ _ _ HL Ht Ek) as [??].
    rewrite (wrap_small 64 (pgcnt * 4096)) by lia.
    rewrite (wrap_small 64 (b + pgcnt * 4096)) by lia.
    rewrite (wrap_small 64 (pc - pgcnt)) by lia.
    eexists. split; [done|].
    eexists. split; [|split].
    2: { apply (linked_split nodes head l1 c (b, pc, true) (b, pgcnt, false)
           (b + pgcnt * 4096, pc - pgcnt, true) l2 nx k); auto. }
    + by rewrite fmap_app.
    + apply (tiles_replace _ _ [(b, pc, true)]
        [(b, pgcnt, false); (b + pgcnt * 4096, pc - pgcnt, true)] l2.*2); [|done].
      simpl.
      intros x y (-> & ? & <-). split_and!; lia.
  - left. assert (pc = pgcnt) as -> by lia. eexists. split; [done|].
    eexists. split; [|split].
    2: { apply (linked_update nodes head l1 c (b, pgcnt, true) (b, pgcnt, false) l2 nx); auto. }
    + by rewrite fmap_app.
    + by apply (tiles_replace _ _ [(b, pgcnt, true)] [(b, pgcnt, false)] l2.*2).
Qed.

Lemma Forall_not_fits pgcnt l b pc :
  Forall (fun x : nat * reg => fits pgcnt x.2 = false) l -> (b, pc, true) ∈ l.*2 -> pc < pgcnt.
Proof.
  intros Hall ([i d] & Hd & Hin)%list_elem_of_fmap. simpl in Hd. subst d.
  pose proof (proj1 (Forall_forall _ _) Hall _ Hin) as Hf.
  unfold fits in Hf. simpl in Hf. to_prop. lia.
Qed.

(** ** Release *)

Lemma covered_app f l1 l2 x : covered f (l1 ++ l2) x <-> covered f l1 x \/ covered f l2 x.
Proof.
  unfold covered. setoid_rewrite elem_of_app. naive_solver.
Qed.

Lemma covered_cons f b pc f' l x :
  covered f ((b, pc, f') :: l) x <-> (f = f' /\ b <= x < b + pc * 4096) \/ covered f l x.
Proof.
  unfold covered. setoid_rewrite elem_of_cons. split.
  - intros (b' & pc' & [[= -> -> ->]|?] & ?); [auto|eauto].
  - intros [[-> ?]|(b' & pc' & ? & ?)]; eauto 10.
Qed.

Lemma covered_nil f x : ~ covered f [] x.
Proof. by intros (? & ? & ?%elem_of_nil & _). Qed.

Lemma merge_from_tiles a l b e : tiles b (a :: l) e -> tiles b (merge_from a l) e.
Proof.
  revert a b. induction l as [|[[b2 pc2] f2] l IH]; intros [[b1 pc1] f1] b; [done|].
  intros (-> & ? & -> & ? & Ht). simpl. destruct (f1 && f2).
  - apply IH. simpl. split_and!; [done|lia|].
    by replace (b + (pc1 + pc2) * 4096) with (b + pc1 * 4096 + pc2 * 4096) by lia.
  - simpl. split_and!; auto. apply IH. simpl. auto.
Qed.

Lemma merge_from_covered a l b e x :
  tiles b (a :: l) e -> covered true (merge_from a l) x <-> covered true (a :: l) x.
Proof.
  revert a b. induction l as [|[[b2 pc2] f2] l IH]; intros [[b1 pc1] f1] b; [done|].
  intros (-> & ? & -> & ? & Ht). simpl. destruct (f1 && f2) eqn:E; to_prop.
  - subst. rewrite (IH _ b), !covered_cons; [naive_solver lia|].
    simpl. split_and!; [done|lia|].
    by replace (b + (pc1 + pc2) * 4096) with (b + pc1 * 4096 + pc2 * 4096) by lia.
  - rewrite covered_cons, (IH _ (b + pc1 * 4096)), (covered_cons _ b); [done|].
    simpl. auto.
Qed.

Lemma merge_from_head a l : exists pc l', merge_from a l = (a.1.1, pc, a.2) :: l'.
Proof.
  revert a. induction l as [|b l IH]; intros [[b1 pc1] f1]; simpl; [eauto|].
  destruct (f1 && b.2); [apply IH|eauto].
Qed.

Lemma merge_from_coalesced a l : coalesced (merge_from a l) = true.
Proof.
  revert a. induction l as [|b l IH]; intros a; simpl; [done|].
  destruct (a.2 && b.2) eqn:E; [apply IH|].
  pose proof (IH b) as Hb. destruct (merge_from_head b l) as (pc & l' & Hm).
  rewrite Hm in *. change (negb (a.2 && b.2) && coalesced ((b.1.1, pc, b.2) :: l') = true).
  by rewrite E, Hb.
Qed.

(** One merge step absorbs the successor node. *)
Lemma linked_merge nodes head l1 c d x dx l2 nx d' :
  linked nodes head (l1 ++ (c, d) :: (x, dx) :: l2) -> nodes !! x = Some (node_of dx nx) ->
  linked (<[x := zero_region]> (<[c := node_of d' nx]> nodes)) head (l1 ++ (c, d') :: l2).
Proof.
  intros HL Hx.
  destruct (linked_mid _ _ _ _ _ _ HL) as (p & Hc & Hs1 & Hs2 & Hc1 & Hc2).
  destruct HL as (Hlen & Hnd & _). destruct Hs2 as (-> & nx' & Hx' & Hs2).
  assert (nx' = nx) as ->.
  { rewrite Hx in Hx'. destruct dx as [[??]?]. by injection Hx'. }
  rewrite fmap_app in Hnd. simpl in *.
  apply NoDup_app in Hnd as (? & Hd & [? [? ?]%NoDup_cons]%NoDup_cons).
  apply not_elem_of_cons in Hc2 as [? ?].
  assert (x ∉ l1.*1) by (intros Hin; apply (Hd _ Hin); set_solver).
  pose proof (lookup_lt_Some _ _ _ Hc).
  split; [by rewrite !length_insert|]. split.
  { rewrite fmap_app. simpl. apply NoDup_app. split_and!; [done| |by apply NoDup_cons].
    intros y Hy Hin. apply (Hd _ Hy). set_solver. }
  apply seg_app. exists (Some c). split; [by apply seg_insert, seg_insert|].
  simpl. split; [done|]. exists nx. split; [|by apply seg_insert, seg_insert].
  rewrite list_lookup_insert_ne by done. by apply list_lookup_insert_eq.
Qed.

Lemma coalesce_loop_spec fuel nodes head l1 c d l2 :
  linked nodes head (l1 ++ (c, d) :: l2) ->
  tiles HEAP_START (l1.*2 ++ d :: l2.*2) HEAP_END -> (length l2 < fuel)%nat ->
  exists nodes' l', coalesce_loop fuel nodes (Some c) = Some nodes' /\
    l'.*2 = l1.*2 ++ merge_from d l2.*2 /\ linked nodes' head l'.
Proof.
  revert fuel nodes l1 c d. induction l2 as [|[x dx] l2 IH]; intros fuel nodes l1 c d HL Ht Hf;
    (destruct fuel as [|fuel]; [simpl in Hf; lia|]);
    destruct (linked_mid _ _ _ _ _ _ HL) as (nx & Hc & _ & Hs2 & _);
    destruct d as [[b pc] f]; simpl; rewrite Hc; simpl.
  - simpl in Hs2. subst nx. exists nodes, (l1 ++ [(c, (b, pc, f))]).
    split_and!; [done| |done]. by rewrite fmap_app.
  - destruct Hs2 as (-> & nx2 & Hx & Hs2). rewrite Hx. simpl.
    destruct dx as [[bx px] fx]. simpl.
    pose proof Ht as (m & Ht1 & (-> & ? & -> & ? & Ht2))%tiles_app.
    pose proof (tiles_le _ _ _ Ht1). pose proof (tiles_le _ _ _ Ht2).
    destruct (f && fx) eqn:Ef.
    + to_prop. subst. apply (IH fuel _ l1 c (m, pc + px, true)); [| |simpl in Hf; lia].
      * rewrite wrap_small by (unfold HEAP_START, HEAP_END in *; lia).
        by eapply (linked_merge _ _ _ _ (m, pc, true) x _ l2 nx2 (m, pc + px, true)).
      * apply tiles_app. exists m. split; [done|]. simpl. split_and!; [done|lia|].
        by replace (m + (pc + px) * 4096) with (m + pc * 4096 + px * 4096) by lia.
    + destruct (IH fuel nodes (l1 ++ [(c, (m, pc, f))]) x (m + pc * 4096, px, fx))
        as (nodes' & l' & ? & Hl' & ?).
      * by rewrite <- app_assoc.
      * rewrite fmap_app, <- app_assoc. done.
      * simpl in Hf. lia.
      * exists nodes', l'. split_and!; [done| |done].
        rewrite Hl', fmap_app, <- app_assoc. done.
Qed.

(** The walk stops at the region that contains the released range. *)
Lemma release_loop_find fuel nodes p st l1 c b pc l2 vst n :
  seg nodes p (l1 ++ (c, (b, pc, false)) :: l2) None -> HEAP_START <= st ->
  tiles st (l1 ++ (c, (b, pc, false)) :: l2).*2 HEAP_END ->
  0 < n -> b <= vst -> vst + n * 4096 <= b + pc * 4096 ->
  (length l1 < fuel)%nat ->
  exists nx, nodes !! c = Some (mk_region b pc false nx) /\
    release_loop fuel nodes p vst n = Some (release_split nodes c (mk_region b pc false nx) vst n).
Proof.
  intros Hs Hst Ht ???. revert fuel p st Hs Hst Ht.
  induction l1 as [|[i [[rb rpc] f]] l1 IH]; intros fuel p st [-> [nx [Hi Hs]]] Hst Ht Hf;
    (destruct fuel as [|fuel]; [simpl in Hf; lia|]); simpl in Ht; destruct Ht as (-> & ? & Ht).
  all: assert (HEAP_START > 0 /\ HEAP_END < 2 ^ 64) as [??] by (unfold HEAP_START, HEAP_END; lia).
  - exists nx. split; [done|]. simpl. rewrite Hi. simpl.
    apply tiles_le in Ht.
    rewrite (wrap_small 64 (n * 4096)), (wrap_small 64 (vst + n * 4096)) by lia.
    rewrite (wrap_small 64 (pc * 4096)), (wrap_small 64 (st + pc * 4096)) by lia.
    by rewrite (proj2 (Z.leb_le st vst)), (proj2 (Z.leb_le _ (st + pc * 4096))) by lia.
  - simpl. rewrite Hi. simpl.
    assert (st + rpc * 4096 <= b /\ b + pc * 4096 <= HEAP_END) as [??].
    { rewrite fmap_app in Ht. eapply tiles_bounds in Ht as (?&?&?); [|apply elem_mid]. lia. }
    rewrite (wrap_small 64 (n * 4096)), (wrap_small 64 (vst + n * 4096)) by lia.
    rewrite (wrap_small 64 (rpc * 4096)), (wrap_small 64 (st + rpc * 4096)) by lia.
    rewrite (proj2 (Z.leb_gt (vst + n * 4096) _)), andb_false_r by lia.
    apply (IH fuel nx (st + rpc * 4096)); auto; [lia|simpl in Hf; lia].
Qed.

Lemma release_split_spec nodes head l1 c b pc l2 vst n nx :
  linked nodes head (l1 ++ (c, (b, pc, false)) :: l2) ->
  tiles HEAP_START (l1 ++ (c, (b, pc, false)) :: l2).*2 HEAP_END ->
  nodes !! c = Some (mk_region b pc false nx) ->
  0 < n -> b <= vst -> vst + n * 4096 <= b + pc * 4096 ->
  vst = b \/ vst + n * 4096 = b + pc * 4096 ->
  n = pc \/ allocvmmr nodes <> None ->
  exists l', l'.*2 = l1.*2 ++ shed b pc vst n ++ l2.*2 /\
    linked (release_split nodes c (mk_region b pc false nx) vst n) head l'.
Proof.
  intros HL Ht Hc ? ? ? Hedge Hpool. unfold release_split, shed. simpl.
  pose proof Ht as Ht'. rewrite fmap_app, fmap_cons in Ht'. simpl in Ht'.
  destruct (tile_no_wrap _ b pc false Ht') as (?&?&?&->&->); [apply elem_mid|].
  assert (HEAP_START > 0 /\ HEAP_END < 2 ^ 64) as [??] by (unfold HEAP_START, HEAP_END; lia).
  rewrite (wrap_small 64 (n * 4096)), (wrap_small 64 (vst + n * 4096)) by lia.
  rewrite (wrap_small 64 (pc - n)) by lia.
  destruct (Z.eqb_spec n pc) as [->|?].
  { rewrite (proj2 (Z.eqb_eq vst b)), (proj2 (Z.eqb_eq _ (b + pc * 4096))) by lia.
    exists (l1 ++ (c, (b, pc, true)) :: l2). rewrite fmap_app. split; [done|].
    apply (linked_update _ _ _ _ (b, pc, false) (b, pc, true) _ nx); auto. }
  destruct (allocvmmr nodes) as [k|] eqn:Ek; [|naive_solver].
  destruct (linked_fresh _ _ _ _ HL Ht Ek) as [??].
  destruct (Z.eqb_spec vst b) as [->|?].
  - rewrite (proj2 (Z.eqb_neq _ (b + pc * 4096))) by lia.
    exists (l1 ++ (c, (b, n, true)) :: (k, (b + n * 4096, pc - n, false)) :: l2).
    rewrite fmap_app. split; [done|].
    apply (linked_split _ _ _ _ (b, pc, false) (b, n, true) (b + n * 4096, pc - n, false) _ nx); auto.
  - rewrite (proj2 (Z.eqb_eq _ (b + pc * 4096))) by lia.
    exists (l1 ++ (c, (b, pc - n, false)) :: (k, (vst, n, true)) :: l2).
    rewrite fmap_app. split; [done|].
    apply (linked_split _ _ _ _ (b, pc, false) (b, pc - n, false) (vst, n, true) _ nx); auto.
Qed.

Lemma shed_tiles b pc vst n x y :
  0 < n -> b <= vst -> vst + n * 4096 <= b + pc * 4096 ->
  vst = b \/ vst + n * 4096 = b + pc * 4096 ->
  tiles x [(b, pc, false)] y -> tiles x (shed b pc vst n) y.
Proof.
  unfold shed. destruct (Z.eqb_spec n pc), (Z.eqb_spec vst b); simpl; intros; split_and!; lia.
Qed.

Lemma shed_covered b pc vst n x :
  0 < n -> b <= vst -> vst + n * 4096 <= b + pc * 4096 ->
  vst = b \/ vst + n * 4096 = b + pc * 4096 ->
  covered true (shed b pc vst n) x <-> vst <= x < vst + n * 4096.
Proof.
  intros. unfold shed.
  destruct (Z.eqb_spec n pc), (Z.eqb_spec vst b); rewrite !covered_cons;
    pose proof (covered_nil true x); split; intros; destruct_or?; destruct_and?; try done; try lia.
  all: first [left; split; [done|lia] | right; left; split; [done|lia]].
Qed.

Lemma shed_covered_mid l1 b pc l2 vst n x :
  0 < n -> b <= vst -> vst + n * 4096 <= b + pc * 4096 ->
  vst = b \/ vst + n * 4096 = b + pc * 4096 ->
  covered true (l1 ++ shed b pc vst n ++ l2) x <->
  covered true (l1 ++ (b, pc, false) :: l2) x \/ vst <= x < vst + n * 4096.
Proof.
  intros. rewrite !covered_app, covered_cons, shed_covered by done. naive_solver.
Qed.

Lemma shed_nonempty b pc vst n : shed b pc vst n <> [].
Proof. unfold shed. by repeat split_if. Qed.

(** The walk always ends, at zero or at an address of the heap. *)
Lemma vmm_ffreer_cases nodes head rs pgcnt r :
  regions_rep nodes head rs -> 0 < pgcnt ->
  exists nodes' a, vmm_ffreer nodes head pgcnt false r = Some (nodes', a) /\
    ((a = 0 /\ nodes' = nodes /\
        ((forall b pc, (b, pc, true) ∈ rs -> pc < pgcnt) \/ allocvmmr nodes = None)) \/
     (exists pre pc post, rs = pre ++ (a, pc, true) :: post /\ HEAP_START <= a /\ pgcnt <= pc /\
        (forall b pc', (b, pc', true) ∈ pre -> pc' < pgcnt) /\
        regions_rep nodes' head (pre ++ carve a pc pgcnt ++ post))).
Proof.
  intros (l & <- & HL & Ht) Hp.
  pose proof HL as (Hlen & Hnd & Hs).
  pose proof (seg_nodup_length _ _ _ _ Hnd Hs).
  destruct (ffreer_loop_find (S MAX_VNODES) nodes head l pgcnt r Hs ltac:(lia))
    as [[Hall Hr]|(l1 & c & [[b pc] f] & l2 & -> & Hall & Hfit & Hr)].
  - exists nodes, 0. split; [exact Hr|]. left. split_and!; auto. left.
    intros. by eapply Forall_not_fits.
  - unfold fits in Hfit. simpl in Hfit. to_prop. subst f.
    destruct (ffreer_take_spec nodes head l1 c b pc l2 pgcnt HL Ht ltac:(lia))
      as [(nodes' & Ht' & Hrep)|[Ht' Hn]].
    + exists nodes', b. split; [unfold vmm_ffreer; congruence|]. right.
      exists l1.*2, pc, l2.*2. rewrite fmap_app in *. simpl in Ht.
      destruct (tile_no_wrap _ b pc true Ht) as (?&?&?&_); [apply elem_mid|].
      split_and!; auto. intros. by eapply Forall_not_fits.
    + exists nodes, 0. split; [unfold vmm_ffreer; congruence|]. left. auto.
Qed.

Lemma vmm_ffreer_bounds nodes head rs pgcnt r :
  regions_rep nodes head rs -> 0 < pgcnt ->
  exists nodes' a, vmm_ffreer nodes head pgcnt false r = Some (nodes', a) /\
    (a = 0 \/ HEAP_START <= a).
Proof.
  intros Hrep Hp. destruct (vmm_ffreer_cases _ _ _ _ r Hrep Hp)
    as (n' & a & ? & [(-> & _)|(? & ? & ? & _ & ? & _)]); eauto.
Qed.

(** Kernel allocations from the region list are first fit and keep the
    list a tiling of the heap: when some free region holds [pgcnt] pages, the
    first such region's base is returned and exactly its first [pgcnt] pages
    become busy; zero is returned, with the list unchanged, only when no free
    region is large enough or the pool of nodes is used up. *)
Theorem vmm_ffreer_first_fit nodes head rs pgcnt r :
  regions_rep nodes head rs -> 0 < pgcnt ->
  exists nodes' a, vmm_ffreer nodes head pgcnt false r = Some (nodes', a) /\
    ((a = 0 /\ nodes' = nodes /\
        ((forall b pc, (b, pc, true) ∈ rs -> pc < pgcnt) \/ allocvmmr nodes = None)) \/
     (exists pre pc post, rs = pre ++ (a, pc, true) :: post /\ HEAP_START <= a /\ pgcnt <= pc /\
        (forall b pc', (b, pc', true) ∈ pre -> pc' < pgcnt) /\
        regions_rep nodes' head (pre ++ carve a pc pgcnt ++ post))).
Proof. apply vmm_ffreer_cases. Qed.

(** ** The initial list *)

Definition pool0 : list vmm_region_t := replicate MAX_VNODES zero_region.
Definition heap_pages : Z := (HEAP_END - HEAP_START) / 4096.
Definition no_range : vmm_range_t := mk_range 0 0 0 0.

Lemma regions_init_rep :
  regions_rep (regions_init pool0).1 (regions_init pool0).2 [(HEAP_START, heap_pages, true)].
Proof.
  exists [(0%nat, (HEAP_START, heap_pages, true))]. split; [done|]. split; [|by vm_compute].
  split; [done|]. split; [apply NoDup_singleton|]. split; [done|]. by exists None.
Qed.

Lemma vmm_ffreer_first_fit_witness :
  regions_rep (regions_init pool0).1 (regions_init pool0).2 [(HEAP_START, heap_pages, true)] /\
  exists nodes', vmm_ffreer (regions_init pool0).1 (regions_init pool0).2 8 false no_range =
    Some (nodes', HEAP_START) /\
    regions_rep nodes' (regions_init pool0).2 (carve HEAP_START heap_pages 8).
Proof.
  split; [exact regions_init_rep|].
  destruct (vmm_ffreer_first_fit _ _ _ 8 no_range regions_init_rep ltac:(lia))
    as (nodes' & a & E & [(-> & _)|(pre & pc & post & Hrs & _ & _ & _ & Hrep)]).
  - exfalso. vm_compute in E. discriminate.
  - assert (pre = [] /\ post = [] /\ a = HEAP_START /\ pc = heap_pages) as (-> & -> & -> & ->).
    { destruct pre as [|? [|? ?]]; simplify_eq/=; done. }
    rewrite app_nil_r in Hrep. eauto.
Defined.

(** The list after a first allocation of eight pages. *)
Definition nodes8 : list vmm_region_t :=
  match vmm_ffreer (regions_init pool0).1 (regions_init pool0).2 8 false no_range with
  | Some (n, _) => n
  | None => []
  end.

Lemma nodes8_rep : regions_rep nodes8 (Some 0%nat) (carve HEAP_START heap_pages 8).
Proof.
  exists [(0%nat, (HEAP_START, 8, false)); (1%nat, (HEAP_START + 8 * 4096, heap_pages - 8, true))].
  split; [done|]. split; [|by vm_compute].
  split; [by vm_compute|]. split; [apply (bool_decide_unpack (NoDup [0%nat; 1%nat])); by vm_compute|].
  split; [done|]. exists (Some 1%nat). split; [by vm_compute|].
  split; [done|]. exists None. by vm_compute.
Qed.

(** The list after a release at an end of the busy region [b]. *)
Lemma regions_release_list nodes head pre b pc post vst pgcnt :
  regions_rep nodes head (pre ++ (b, pc, false) :: post) ->
  0 < pgcnt -> b <= vst -> vst + pgcnt * 4096 <= b + pc * 4096 ->
  vst = b \/ vst + pgcnt * 4096 = b + pc * 4096 ->
  pgcnt = pc \/ allocvmmr nodes <> None ->
  exists nodes', regions_release nodes head vst pgcnt = Some nodes' /\
    tiles HEAP_START (pre ++ shed b pc vst pgcnt ++ post) HEAP_END /\
    regions_rep nodes' head (merge_adj (pre ++ shed b pc vst pgcnt ++ post)).
Proof.
  intros (l & Hl & HL & Ht) Hn Hlo Hhi Hedge Hpool.
  apply fmap_app_inv in Hl as (l1 & l2' & Hpre & Hmid & ->). symmetry in Hmid. apply fmap_cons_inv in Hmid as ([c d] & l2 & Hd & Hpost & ->).
  cbn in Hd. subst d pre post.
  pose proof HL as (Hlen & Hnd & Hs). pose proof (seg_nodup_length _ _ _ _ Hnd Hs) as Hll.
  rewrite length_app in Hll. simpl in Hll.
  assert (tiles HEAP_START (l1 ++ (c, (b, pc, false)) :: l2).*2 HEAP_END) as Htl by (by rewrite fmap_app).
  destruct (release_loop_find (S MAX_VNODES) nodes head HEAP_START l1 c b pc l2 vst pgcnt)
    as (nx & Hc & Hloop); [done|lia|done|done|done|done|lia|].
  destruct (release_split_spec nodes head l1 c b pc l2 vst pgcnt nx)
    as (l' & Hl' & HL'); auto.
  destruct (tile_no_wrap _ b pc false Ht) as (?&?&?&_&_); [apply elem_mid|].
  unfold regions_release. rewrite (proj2 (Z.ltb_ge vst HEAP_START)) by lia.
  rewrite (proj2 (Z.leb_gt HEAP_END vst)) by lia.
  cbn [orb]. rewrite Hloop. cbn [mbind option_bind].
  assert (tiles HEAP_START (l1.*2 ++ shed b pc vst pgcnt ++ l2.*2) HEAP_END) as Ht'.
  { apply (tiles_replace _ _ [(b, pc, false)]); [|done]. intros. by apply shed_tiles. }
  destruct l' as [|[i d] l'].
  { exfalso. symmetry in Hl'. apply app_eq_nil in Hl' as [_ [Hsh _]%app_eq_nil]. by apply shed_nonempty in Hsh. }
  pose proof HL' as (Hlen' & Hnd' & Hs'). pose proof (seg_nodup_length _ _ _ _ Hnd' Hs').
  pose proof Hs' as [-> _].
  destruct (coalesce_loop_spec (S MAX_VNODES)
    (release_split nodes c (mk_region b pc false nx) vst pgcnt) (Some i) [] i d l')
    as (nodes' & l'' & Hco & Hl'' & HL''); [done|cbn [app fmap list_fmap]; change (d :: l'.*2) with (((i, d) :: l').*2); by rewrite Hl'|cbn [length] in *; lia|].
  exists nodes'. split_and!; [exact Hco|done|]. rewrite <- Hl'. exists l''. split_and!; [done|done|].
  rewrite <- Hl' in Ht'. by apply merge_from_tiles.
Qed.

(** C14. Releasing a range at either end of a busy region frees exactly that
    range: the walk finds the region, the list stays a tiling of the heap with
    no two adjacent free regions, and an address is free afterwards when it was
    free before or lies in the released range.  A part of a region takes a free
    node of the pool; a range inside a region is not covered. *)
Theorem regions_release_frees nodes head rs b pc vst pgcnt :
  regions_rep nodes head rs -> (b, pc, false) ∈ rs ->
  0 < pgcnt -> b <= vst -> vst + pgcnt * 4096 <= b + pc * 4096 ->
  vst = b \/ vst + pgcnt * 4096 = b + pc * 4096 ->
  pgcnt = pc \/ allocvmmr nodes <> None ->
  exists nodes' rs', regions_release nodes head vst pgcnt = Some nodes' /\
    regions_rep nodes' head rs' /\ coalesced rs' = true /\
    forall x, covered true rs' x <-> covered true rs x \/ vst <= x < vst + pgcnt * 4096.
Proof.
  intros Hrep (pre & post & ->)%list_elem_of_split Hn Hlo Hhi Hedge Hpool.
  destruct (regions_release_list nodes head pre b pc post vst pgcnt) as (nodes' & E & Ht & Hrep'); [done..|].
  eexists nodes', _. split_and!; [done|exact Hrep'|..].
  - destruct (pre ++ shed b pc vst pgcnt ++ post) as [|d l]; [done|]. apply merge_from_coalesced.
  - intros x. rewrite <- (shed_covered_mid pre b pc post vst pgcnt x) by done.
    destruct (pre ++ shed b pc vst pgcnt ++ post) as [|d l]; [done|]. by apply (merge_from_covered _ _ HEAP_START HEAP_END).
Qed.

Lemma regions_release_frees_witness :
  regions_rep nodes8 (Some 0%nat) (carve HEAP_START heap_pages 8) /\
  exists nodes' rs', regions_release nodes8 (Some 0%nat) (HEAP_START + 5 * 4096) 3 = Some nodes' /\
    regions_rep nodes' (Some 0%nat) rs' /\ coalesced rs' = true /\
    covered true rs' (HEAP_START + 6 * 4096).
Proof.
  split; [exact nodes8_rep|].
  destruct (regions_release_frees nodes8 (Some 0%nat) (carve HEAP_START heap_pages 8)
    HEAP_START 8 (HEAP_START + 5 * 4096) 3) as (nodes' & rs' & ? & ? & ? & Hcov).
  - exact nodes8_rep.
  - unfold carve. left.
  - lia.
  - lia.
  - lia.
  - right. lia.
  - right. intros H. vm_compute in H. discriminate.
  - exists nodes', rs'. split_and!; auto. apply Hcov. right. lia.
Defined.

(** Releasing pages strictly inside a region loses the heap: the middle
    and trailing parts are given the same pool node, so the node links to itself
    and the rest of the list is dropped.  From the initial heap, allocating
    eight pages and releasing three of them from the middle leaves no region
    from which even one page can be allocated. *)
Theorem regions_release_middle_loses_heap :
  (let '(nodes, head) := regions_init pool0 in
   '(n1, a) ← vmm_ffreer nodes head 8 false no_range;
   n2 ← regions_release n1 head (a + 2 * 4096) 3;
   '(_, b) ← vmm_ffreer n2 head 1 false no_range;
   Some (a, b)) = Some (HEAP_START, 0).
Proof. vm_compute. reflexivity. Qed.

End Region.
