(* ===== verification/PageTable.v ===== *)
(** Page tables ([src/kern/mem/vmm.c]), the user mapping calls
    ([src/usr/user_mmap.c]) and the checks on user pointers
    ([src/usr/ensurance.c]).

    Model: physical memory as 64-bit words by physical address (absent words
    hold zero), [m_size] bytes of it.  Kernel pointers are virtual addresses:
    a table access goes through the direct map at [hhdm_offset], or through the
    boot loader's direct map, whose top-level entries [vmm_init] keeps; any
    other address faults.  The TLB ([invlpg]) has no state in the model. *)
From S2P Require Import Prelude Pmm Region.

Module PageTable.
Import Region.

Definition PAGE_PRESENT : Z := 1.
Definition PAGE_WRITE : Z := 2.
Definition PAGE_USER : Z := 4.
Definition PAGE_HUGE : Z := 128.
Definition MAP_ANYPHYS : Z := 2 ^ 60.
Definition MAP_CONT : Z := 2 ^ 61.
Definition MAP_ANYVIRT : Z := 2 ^ 62.
Definition MAP_USRMAP : Z := 2 ^ 63.
Definition UNMAP_KEEPPHYS : Z := 1.
Definition HHDM_START : Z := 0xFFFF800000000000.
Definition KERN_START : Z := 0xFFFFFFFF80000000.

Definition PML4_IDX (addr : Z) : Z := Z.land (Z.shiftr addr 39) 0x1FF.
Definition PDPT_IDX (addr : Z) : Z := Z.land (Z.shiftr addr 30) 0x1FF.
Definition PD_IDX (addr : Z) : Z := Z.land (Z.shiftr addr 21) 0x1FF.
Definition PT_IDX (addr : Z) : Z := Z.land (Z.shiftr addr 12) 0x1FF.

Record mm := mk_mm {
  m_pmm : Pmm.pmm_state;
  m_mem : gmap Z Z;
  m_size : Z;
  hhdm_offset : Z;
  lhhdm_off : Z;
  pml4 : Z;
  cr3 : Z;
  vmmr_nodes : list vmm_region_t;
  vmmr_head : option nat;
  vmm_umapr : list vmm_range_t;
  current_pid : Z
}.

Definition set_pmm (p : Pmm.pmm_state) (s : mm) : mm :=
  mk_mm p (m_mem s) (m_size s) (hhdm_offset s) (lhhdm_off s) (pml4 s) (cr3 s)
    (vmmr_nodes s) (vmmr_head s) (vmm_umapr s) (current_pid s).
Definition set_mem (m : gmap Z Z) (s : mm) : mm :=
  mk_mm (m_pmm s) m (m_size s) (hhdm_offset s) (lhhdm_off s) (pml4 s) (cr3 s)
    (vmmr_nodes s) (vmmr_head s) (vmm_umapr s) (current_pid s).
Definition set_cr3 (c : Z) (s : mm) : mm :=
  mk_mm (m_pmm s) (m_mem s) (m_size s) (hhdm_offset s) (lhhdm_off s) (pml4 s) c
    (vmmr_nodes s) (vmmr_head s) (vmm_umapr s) (current_pid s).
Definition set_pml4 (p : Z) (s : mm) : mm :=
  mk_mm (m_pmm s) (m_mem s) (m_size s) (hhdm_offset s) (lhhdm_off s) p (cr3 s)
    (vmmr_nodes s) (vmmr_head s) (vmm_umapr s) (current_pid s).
Definition set_hhdm (h l : Z) (s : mm) : mm :=
  mk_mm (m_pmm s) (m_mem s) (m_size s) h l (pml4 s) (cr3 s)
    (vmmr_nodes s) (vmmr_head s) (vmm_umapr s) (current_pid s).
Definition set_regions (n : list vmm_region_t) (h : option nat) (s : mm) : mm :=
  mk_mm (m_pmm s) (m_mem s) (m_size s) (hhdm_offset s) (lhhdm_off s) (pml4 s) (cr3 s)
    n h (vmm_umapr s) (current_pid s).

(** ** Table accesses *)

(** Physical address behind the pointer [p] to a 64-bit word. *)
Definition phys_at (s : mm) (p : Z) : option Z :=
  let a := u64 (p - hhdm_offset s) in
  let b := u64 (p - lhhdm_off s) in
  if a + 8 <=? m_size s then Some a
  else if negb (lhhdm_off s =? 0) && (b + 8 <=? m_size s) then Some b
  else None.

Definition word (m : gmap Z Z) (a : Z) : Z := default 0 (m !! a).

Definition ld (p : Z) : M mm Z := fun s =>
  match phys_at s p with Some a => Done s (word (m_mem s) a) | None => Fault end.

Definition st (p v : Z) : M mm unit := fun s =>
  match phys_at s p with
  | Some a => Done (set_mem (<[a := v]> (m_mem s)) s) tt
  | None => Fault
  end.

(** [table[idx]] *)
Definition ldt (table idx : Z) : M mm Z := ld (u64 (table + 8 * idx)).
Definition stt (table idx v : Z) : M mm unit := st (u64 (table + 8 * idx)) v.

Definition present (e : Z) : bool := negb (Z.land e PAGE_PRESENT =? 0).
Definition frame (e : Z) : Z := Z.land e (2 ^ 64 - 1 - 0xFFF).

Definition falloc (cnt : Z) : M mm Z := fun s =>
  match Pmm.pmm_falloc (m_pmm s) cnt with
  | Some (p, a) => Done (set_pmm p s) a
  | None => Fault
  end.

Definition ffree (a cnt : Z) : M mm unit := fun s =>
  match Pmm.pmm_ffree (m_pmm s) a cnt with
  | Some p => Done (set_pmm p s) tt
  | None => Fault
  end.

(** [for (i = i0; i < i0 + n; i++) f(i)] *)
Fixpoint for_loop {S} (n : nat) (i : Z) (f : Z -> M S unit) : M S unit :=
  match n with
  | O => mret tt
  | Datatypes.S n' => _ ← f i; for_loop n' (i + 1) f
  end.

Definition memset_page (v : Z) : M mm unit := for_loop 512 0 (fun i => stt v i 0).

Definition alloctblpg : M mm Z :=
  phys_page ← falloc 1;
  if phys_page =? 0 then mret 0
  else
    hh ← gets hhdm_offset;
    let virt_page := u64 (hh + phys_page) in
    _ ← memset_page virt_page;
    mret virt_page.

(** ** Translation *)

Definition vmm_get_phys (pml4v virt : Z) : M mm Z :=
  if pml4v =? 0 then mret 0 else
  hh ← gets hhdm_offset;
  pml4e ← ldt pml4v (PML4_IDX virt);
  if negb (present pml4e) then mret 0 else
  pdpte ← ldt (u64 (hh + frame pml4e)) (PDPT_IDX virt);
  if negb (present pdpte) then mret 0 else
  pde ← ldt (u64 (hh + frame pdpte)) (PD_IDX virt);
  if negb (present pde) then mret 0 else
  if negb (Z.land pde PAGE_HUGE =? 0)
  then mret (Z.lor (Z.land pde (2 ^ 64 - 1 - 0x1FFFFF)) (Z.land virt 0x1FFFFF))
  else
    pte ← ldt (u64 (hh + frame pde)) (PT_IDX virt);
    if negb (present pte) then mret 0
    else mret (Z.lor (frame pte) (Z.land virt 0xFFF)).

(** ** Mapping *)

(** The table below [table[idx]], allocated and linked when absent.  The
    allocator's NULL is not checked: the entry is computed from it. *)
Definition next_table (table idx : Z) : M mm Z :=
  hh ← gets hhdm_offset;
  e ← ldt table idx;
  if negb (present e) then
    t ← alloctblpg;
    _ ← stt table idx (Z.lor (u64 (t - hh)) (PAGE_PRESENT + PAGE_WRITE + PAGE_USER));
    mret t
  else mret (u64 (hh + frame e)).

(** The top level also mirrors a new higher-half entry into the kernel's table. *)
Definition next_table_top (pml4v idx : Z) : M mm Z :=
  hh ← gets hhdm_offset;
  k ← gets pml4;
  pml4e ← ldt pml4v idx;
  if negb (present pml4e) then
    t ← alloctblpg;
    _ ← stt pml4v idx (Z.lor (u64 (t - hh)) (PAGE_PRESENT + PAGE_WRITE + PAGE_USER));
    if negb (k =? 0) && negb (k =? pml4v) && (256 <=? idx) then
      e ← ldt pml4v idx; _ ← stt k idx e; mret t
    else mret t
  else mret (u64 (hh + frame pml4e)).

Definition vmm_map_page (pml4v virt phys flg : Z) : M mm unit :=
  pdpt_virt ← next_table_top pml4v (PML4_IDX virt);
  pd_virt ← next_table pdpt_virt (PDPT_IDX virt);
  pt_virt ← next_table pd_virt (PD_IDX virt);
  stt pt_virt (PT_IDX virt) (Z.lor (Z.lor (frame phys) flg) PAGE_PRESENT).

Definition vmm_map_huge_page (pml4v virt phys flg : Z) : M mm unit :=
  pdpt_virt ← next_table pml4v (PML4_IDX virt);
  pd_virt ← next_table pdpt_virt (PDPT_IDX virt);
  stt pd_virt (PD_IDX virt)
    (Z.lor (Z.lor (Z.lor (Z.land phys (2 ^ 64 - 1 - 0x1FFFFF)) flg) PAGE_PRESENT) PAGE_HUGE).

(** ** Initialisation *)

(** [kphys] and [klen]: where the boot loader put the kernel; [loff]: its
    direct map offset. *)
Definition vmm_init (kphys klen loff : Z) : M mm unit :=
  root ← alloctblpg;
  _ ← modify (set_pml4 root);
  s ← get;
  let hi := Pmm.mem_high (m_pmm s) in
  let tpmem := if hi <? 0x100000000 then 0x100000000 else hi in
  _ ← for_loop (Z.to_nat ((tpmem + 0x1FFFFF) / 0x200000)) 0 (fun j =>
        let i := j * 0x200000 in vmm_map_huge_page root (u64 (HHDM_START + i)) i PAGE_WRITE);
  _ ← for_loop (Z.to_nat ((klen + 4095) / 4096)) 0 (fun j =>
        let i := j * 4096 in vmm_map_page root (u64 (KERN_START + i)) (u64 (kphys + i)) PAGE_WRITE);
  _ ← vmm_map_page root 0x8000 0x8000 PAGE_WRITE;
  let lpml4v := u64 (hhdm_offset s + cr3 s) in
  _ ← for_loop 256 256 (fun i =>
        e ← ldt root i; l ← ldt lpml4v i;
        if (e =? 0) && negb (l =? 0) then stt root i l else mret tt);
  _ ← for_loop (Z.to_nat ((HEAP_END - HEAP_START) / 0x8000000000)) 0 (fun j =>
        let v := HEAP_START + j * 0x8000000000 in
        e ← ldt root (PML4_IDX v);
        if negb (present e) then
          t ← alloctblpg;
          stt root (PML4_IDX v) (Z.lor (u64 (t - hhdm_offset s)) (PAGE_PRESENT + PAGE_WRITE + PAGE_USER))
        else mret tt);
  _ ← modify (set_cr3 (u64 (root - hhdm_offset s)));
  _ ← modify (set_hhdm HHDM_START loff);
  modify (fun s => let '(n, h) := regions_init (vmmr_nodes s) in set_regions n h s).

Definition xlate_limptr (limine_vaddr : Z) : M mm Z :=
  if limine_vaddr =? 0 then mret 0
  else l ← gets lhhdm_off; mret (u64 (u64 (limine_vaddr - l) + HHDM_START)).

(** ** Unmapping *)

Fixpoint table_empty_loop (n : nat) (i table : Z) : M mm bool :=
  match n with
  | O => mret true
  | S n' =>
      e ← ldt table i;
      if negb (e =? 0) then mret false else table_empty_loop n' (i + 1) table
  end.

Definition is_table_empty (table_virt : Z) : M mm bool := table_empty_loop 512 0 table_virt.

Definition vmm_unmap_page (pml4v virt flags : Z) : M mm unit :=
  hh ← gets hhdm_offset;
  let pml4idx := PML4_IDX virt in
  pml4e ← ldt pml4v pml4idx;
  if negb (present pml4e) then mret tt else
  let pdptp := frame pml4e in
  let pdptv := u64 (hh + pdptp) in
  pdpte ← ldt pdptv (PDPT_IDX virt);
  if negb (present pdpte) then mret tt else
  let pdp := frame pdpte in
  let pdv := u64 (hh + pdp) in
  pde ← ldt pdv (PD_IDX virt);
  if negb (present pde) then mret tt else
  let ptp := frame pde in
  let ptv := u64 (hh + ptp) in
  pte ← ldt ptv (PT_IDX virt);
  let pframe := frame pte in
  _ ← stt ptv (PT_IDX virt) 0;
  _ ← (if negb (Z.land flags UNMAP_KEEPPHYS =? UNMAP_KEEPPHYS) then ffree pframe 1 else mret tt);
  if 256 <=? pml4idx then mret tt else
  e1 ← is_table_empty ptv;
  if negb e1 then mret tt else
  _ ← ffree ptp 1;
  _ ← stt pdv (PD_IDX virt) 0;
  e2 ← is_table_empty pdv;
  if negb e2 then mret tt else
  _ ← ffree pdp 1;
  _ ← stt pdptv (PDPT_IDX virt) 0;
  e3 ← is_table_empty pdptv;
  if negb e3 then mret tt else
  _ ← ffree pdptp 1;
  stt pml4v pml4idx 0.

(** ** Ranges of pages *)

Definition cur_range (s : mm) : option vmm_range_t := aget (vmm_umapr s) (current_pid s).

(** [vmm_ffreer] on the state.  Its [int user] parameter receives
    [flg & MAP_USRMAP], a 64-bit value of which the low 32 bits arrive. *)
Definition ffreer (pgcnt user : Z) : M mm Z := fun s =>
  match cur_range s with
  | None => Fault
  | Some r =>
      match vmm_ffreer (vmmr_nodes s) (vmmr_head s) pgcnt (negb (s32 user =? 0)) r with
      | Some (n, a) => Done (set_regions n (vmmr_head s) s) a
      | None => Fault
      end
  end.

(** Map [pgcnt] pages, each on a frame of its own; NULL when memory runs out,
    with the pages before it left mapped. *)
Fixpoint map_anyphys (n : nat) (i pml4v vst x86flgs : Z) : M mm Z :=
  match n with
  | O => mret vst
  | S n' =>
      phys_page ← falloc 1;
      if phys_page =? 0 then mret 0 else
      _ ← vmm_map_page pml4v (u64 (vst + i * 4096)) phys_page x86flgs;
      map_anyphys n' (i + 1) pml4v vst x86flgs
  end.

Definition map_run (pml4v vst pst pgcnt x86flgs : Z) : M mm Z :=
  _ ← for_loop (Z.to_nat pgcnt) 0 (fun i =>
        vmm_map_page pml4v (u64 (vst + i * 4096)) (u64 (pst + i * 4096)) x86flgs);
  mret vst.

Definition map_body (pml4v vst pst pgcnt flg : Z) : M mm Z :=
  let x86flgs := Z.land flg (2 ^ 60 - 1) in
  if negb (Z.land flg MAP_ANYPHYS =? 0) then
    if negb (Z.land flg MAP_CONT =? 0) then
      bphys ← falloc pgcnt;
      if bphys =? 0 then mret 0 else map_run pml4v vst bphys pgcnt x86flgs
    else map_anyphys (Z.to_nat pgcnt) 0 pml4v vst x86flgs
  else map_run pml4v vst pst pgcnt x86flgs.

Definition vmm_map_pages (pml4v vst pst pgcnt flg : Z) : M mm Z :=
  if negb (Z.land flg MAP_ANYVIRT =? 0) then
    v ← ffreer pgcnt (Z.land flg MAP_USRMAP);
    if v =? 0 then mret 0 else map_body pml4v v pst pgcnt flg
  else if negb (Z.land flg MAP_USRMAP =? 0) then
    o ← gets cur_range;
    r ← deref o;
    if (vst <? r_base r) || (r_end r <? u64 (vst + u64 (pgcnt * 4096))) then mret 0
    else map_body pml4v vst pst pgcnt flg
  else map_body pml4v vst pst pgcnt flg.

(** The region list half of [vmm_unmap_pages]. *)
Definition release (vst pgcnt : Z) : M mm unit := fun s =>
  match regions_release (vmmr_nodes s) (vmmr_head s) vst pgcnt with
  | Some n => Done (set_regions n (vmmr_head s) s) tt
  | None => Fault
  end.

Definition vmm_unmap_pages (pml4v vst pgcnt flags : Z) : M mm unit :=
  _ ← for_loop (Z.to_nat pgcnt) 0 (fun i => vmm_unmap_page pml4v (u64 (vst + i * 4096)) flags);
  release vst pgcnt.

(** ** Address spaces *)

Definition vmm_cpml4v : M mm Z := fun s => Done s (u64 (hhdm_offset s + frame (cr3 s))).

Definition vmm_casp : M mm Z :=
  npml4 ← alloctblpg;
  if npml4 =? 0 then mret 0 else
  k ← gets pml4;
  _ ← for_loop 256 256 (fun i => e ← ldt k i; stt npml4 i e);
  mret npml4.

Definition vmm_sasp (tpml4 : Z) : M mm unit :=
  if tpml4 =? 0 then mret tt
  else hh ← gets hhdm_offset; modify (set_cr3 (u64 (tpml4 - hh))).

Definition vmm_skasp : M mm unit :=
  k ← gets pml4; if k =? 0 then mret tt else vmm_sasp k.

(** One level of [vmm_dasp]: for each present entry, [below] on its table, then
    free the table's frame and clear the entry. *)
Definition dasp_level (n : nat) (table : Z) (below : Z -> M mm unit) : M mm unit :=
  for_loop n 0 (fun i =>
    e ← ldt table i;
    if negb (present e) then mret tt else
    hh ← gets hhdm_offset;
    _ ← below (u64 (hh + frame e));
    _ ← ffree (frame e) 1;
    stt table i 0).

Definition vmm_dasp (tpml4 : Z) : M mm unit :=
  _ ← dasp_level 256 tpml4 (fun pdpt =>
        dasp_level 512 pdpt (fun pd =>
          dasp_level 512 pd (fun pt =>
            dasp_level 512 pt (fun _ => mret tt))));
  hh ← gets hhdm_offset;
  ffree (u64 (tpml4 - hh)) 1.

(** ** Page flags; these walks use [HHDM_START], not [hhdm_offset]. *)

(** The page table and index of the entry for [virt], or [None] when a level is
    not present. *)
Definition walk_pt (pml4v virt : Z) : M mm (option (Z * Z)) :=
  pml4e ← ldt pml4v (PML4_IDX virt);
  if negb (present pml4e) then mret None else
  pdpte ← ldt (u64 (HHDM_START + frame pml4e)) (PDPT_IDX virt);
  if negb (present pdpte) then mret None else
  pde ← ldt (u64 (HHDM_START + frame pdpte)) (PD_IDX virt);
  if negb (present pde) then mret None else
  let pt_virt := u64 (HHDM_START + frame pde) in
  pte ← ldt pt_virt (PT_IDX virt);
  if negb (present pte) then mret None else mret (Some (pt_virt, pte)).

Fixpoint setflgs_loop (n : nat) (i pml4v svirt flgs : Z) : M mm Z :=
  match n with
  | O => mret 0
  | S n' =>
      let virt := u64 (svirt + i * 4096) in
      w ← walk_pt pml4v virt;
      match w with
      | None => mret (- ENOEXIST)
      | Some (pt_virt, pte) =>
          _ ← stt pt_virt (PT_IDX virt) (Z.lor (Z.lor (frame pte) flgs) PAGE_PRESENT);
          setflgs_loop n' (i + 1) pml4v svirt flgs
      end
  end.

Definition vmm_setflgs (pml4v svirt npgs flgs : Z) : M mm Z :=
  if pml4v =? 0 then mret (- ENOEXIST) else setflgs_loop (Z.to_nat npgs) 0 pml4v svirt flgs.

(** The second component is the value stored through [flgs]. *)
Definition vmm_getflgs (pml4v virt : Z) : M mm (Z * option Z) :=
  if pml4v =? 0 then mret (- ENOEXIST, None) else
  w ← walk_pt pml4v (frame virt);
  match w with
  | None => mret (- ENOEXIST, None)
  | Some (_, pte) => mret (0, Some (Z.land pte 0xFFF))
  end.

(** ** User mapping calls *)

Definition user_mmap (uasp reqaddr phys npages flags : Z) : M mm Z :=
  if npages =? 0 then mret 0
  else if USER_END <=? reqaddr then mret 0
  else vmm_map_pages uasp reqaddr phys npages (Z.lor (Z.lor flags MAP_ANYPHYS) PAGE_USER).

Definition user_munmap (uasp addr npages flags : Z) : M mm Z :=
  if (addr =? 0) || (USER_END <=? addr) then mret (- EINVAL)
  else _ ← vmm_unmap_pages uasp addr npages flags; mret 0.

Definition user_mprotect (uasp addr npgs flgs : Z) : M mm Z :=
  if (addr =? 0) || (USER_END <=? addr) then mret (- EINVAL)
  else vmm_setflgs uasp addr npgs (Z.lor flgs PAGE_USER).

(** ** User pointers *)

Definition writable (e : Z) : bool := negb (Z.land e PAGE_WRITE =? 0).

(** An entry passes when present and, for a write, writable. *)
Definition entry_ok (write : bool) (e : Z) : bool := present e && (negb write || writable e).

Definition okaddr (tbl addr : Z) (write : bool) : M mm bool :=
  if tbl =? 0 then mret false else
  pml4e ← ldt tbl (PML4_IDX addr);
  if negb (entry_ok write pml4e) then mret false else
  pdpte ← ldt (u64 (HHDM_START + frame pml4e)) (PDPT_IDX addr);
  if negb (entry_ok write pdpte) then mret false else
  pde ← ldt (u64 (HHDM_START + frame pdpte)) (PD_IDX addr);
  if negb (entry_ok write pde) then mret false else
  if negb (Z.land pde PAGE_HUGE =? 0) then mret true else
  pte ← ldt (u64 (HHDM_START + frame pde)) (PT_IDX addr);
  if negb (entry_ok write pte) then mret false else mret true.

(** [n] iterations: [i = 0, 0x1000, ...] below [sz]. *)
Fixpoint ensure_loop (n : nat) (i addr : Z) (write : bool) : M mm bool :=
  match n with
  | O => mret true
  | S n' =>
      t ← vmm_cpml4v;
      ok ← okaddr t (frame (u64 (addr + i))) write;
      if negb ok then mret false else ensure_loop n' (i + 0x1000) addr write
  end.

Definition ensure_pointer (uptr sz : Z) (write : bool) : M mm bool :=
  if uptr =? 0 then mret false else
  let cnon := Z.shiftr uptr 47 in
  if negb (cnon =? 0) && negb (cnon =? 0x1FFFF) then mret false
  else ensure_loop (Z.to_nat ((sz + 0xFFF) / 0x1000)) 0 uptr write.

(** A byte read through the active page tables. *)
Definition ldb (va : Z) : M mm Z :=
  t ← vmm_cpml4v;
  pa ← vmm_get_phys t va;
  s ← get;
  if (pa =? 0) || (m_size s <=? pa) then fault
  else mret (Z.land (Z.shiftr (word (m_mem s) (8 * (pa / 8))) (8 * (pa mod 8))) 0xFF).

Fixpoint string_loop (n : nat) (i str : Z) (write : bool) : M mm bool :=
  match n with
  | O => mret false
  | S n' =>
      ok ← ensure_pointer (u64 (str + i)) (i + 1) write;
      if negb ok then mret false else
      c ← ldb (u64 (str + i));
      if c =? 0 then mret true else string_loop n' (i + 1) str write
  end.

Definition ensure_string (str maxsz : Z) (write : bool) : M mm bool :=
  string_loop (Z.to_nat maxsz) 0 str write.

(** ** The translation a tree of tables defines *)

Definition vpath (virt : Z) : list Z := [PML4_IDX virt; PDPT_IDX virt; PD_IDX virt; PT_IDX virt].

Definition huge (e : Z) : bool := negb (Z.land e PAGE_HUGE =? 0).

(** Physical address of [virt] when the walk is at table frame [t] with the
    indices [path] left; zero when unmapped. *)
Fixpoint tr (m : gmap Z Z) (t : Z) (path : list Z) (virt : Z) : Z :=
  match path with
  | [] => 0
  | i :: rest =>
      let e := word m (t + 8 * i) in
      if negb (present e) then 0
      else match rest with
           | [] => Z.lor (frame e) (Z.land virt 0xFFF)
           | [_] => if huge e then Z.lor (Z.land e (2 ^ 64 - 1 - 0x1FFFFF)) (Z.land virt 0x1FFFFF)
                    else tr m (frame e) rest virt
           | _ => tr m (frame e) rest virt
           end
  end.

Definition translate (s : mm) (root virt : Z) : Z := tr (m_mem s) root (vpath virt) virt.

(** [T] names the table frames below the root by their index path.  Because it
    is a function of the frame, no table is reached along two paths. *)
Definition tree (m : gmap Z Z) (size : Z) (T : gmap Z (list Z)) : Prop :=
  (forall t p, T !! t = Some p ->
     0 <= t /\ t mod 4096 = 0 /\ t + 4096 <= size /\ (length p <= 3)%nat) /\
  (forall t p i, T !! t = Some p -> 0 <= i < 512 -> (length p < 3)%nat ->
     present (word m (t + 8 * i)) = true ->
     (length p = 2%nat -> huge (word m (t + 8 * i)) = false) ->
     T !! frame (word m (t + 8 * i)) = Some (p ++ [i])).

Definition mm_wf (s : mm) : Prop :=
  Pmm.pmm_wf (m_pmm s) /\ Pmm.used (m_pmm s) 0 = true /\
  Pmm.nframes (m_pmm s) * 4096 <= m_size s /\
  0 < hhdm_offset s /\ hhdm_offset s + m_size s < 2 ^ 64.

(** The tables of [T] are well formed and their frames are allocated. *)
Definition inv (s : mm) (T : gmap Z (list Z)) : Prop :=
  mm_wf s /\ tree (m_mem s) (m_size s) T /\
  forall t p, T !! t = Some p -> Pmm.used (m_pmm s) (t / 4096) = true.

(** No huge page covers [virt]. *)
Definition nohuge (m : gmap Z Z) (T : gmap Z (list Z)) (virt : Z) : Prop :=
  forall t i, T !! t = Some [PML4_IDX virt; PDPT_IDX virt] -> i = PD_IDX virt ->
    huge (word m (t + 8 * i)) = false.

(** At least [n] frames are free. *)
Definition nfree_ge (n : nat) (st : Pmm.pmm_state) : Prop :=
  exists l : list Z, NoDup l /\ length l = n /\
    forall f, f ∈ l -> 0 <= f < Pmm.nframes st /\ Pmm.used st f = false.

(** ** Words and entries *)

Lemma word_insert m a v b : word (<[a := v]> m) b = if decide (a = b) then v else word m b.
Proof. unfold word. case_decide as E; [subst; by rewrite lookup_insert_eq|by rewrite lookup_insert_ne]. Qed.

Lemma entry_inj f g i j :
  f mod 4096 = 0 -> g mod 4096 = 0 -> 0 <= i < 512 -> 0 <= j < 512 ->
  f + 8 * i = g + 8 * j -> f = g /\ i = j.
Proof.
  intros Hf Hg Hi Hj H. apply Z.mod_divide in Hf as [a ->], Hg as [b ->]; lia.
Qed.

Lemma frame_eq e : 0 <= e < 2 ^ 64 -> frame e = 4096 * (e / 4096).
Proof.
  intros He. unfold frame. change (2 ^ 64 - 1 - 0xFFF) with (2 ^ 64 - 2 ^ 12).
  by apply land_high_mask.
Qed.

Lemma present_bit e : present e = Z.testbit e 0.
Proof. unfold present. change PAGE_PRESENT with (2 ^ 0). by rewrite land_pow2_eqb, negb_involutive. Qed.

Lemma huge_bit e : huge e = Z.testbit e 7.
Proof. unfold huge. change PAGE_HUGE with (2 ^ 7). by rewrite land_pow2_eqb, negb_involutive. Qed.

(** Or-ing flags below the page size into a frame address. *)
Lemma lor_low_add a b : 0 <= a -> a mod 4096 = 0 -> 0 <= b < 4096 -> Z.lor a b = a + b.
Proof.
  intros Ha Hm Hb. symmetry. rewrite Z.add_nocarry_lxor; [apply Z.lxor_lor|].
  all: apply Z.mod_divide in Hm as [q ->]; [|lia].
  all: change 4096 with (2 ^ 12); rewrite <- Z.shiftl_mul_pow2 by lia.
  all: apply Z.bits_inj'; intros n Hn; rewrite Z.land_spec, Z.bits_0, Z.shiftl_spec by lia.
  all: destruct (Z.lt_ge_cases n 12); [by rewrite Z.testbit_neg_r by lia|].
  all: replace b with (b mod 2 ^ 12) by (apply Z.mod_small; lia).
  all: rewrite Z.mod_pow2_bits_high by lia; apply andb_false_r.
Qed.

Lemma entry_lor t fl :
  0 <= t < 2 ^ 64 - 4096 -> t mod 4096 = 0 -> 0 <= fl < 4096 ->
  frame (Z.lor t fl) = t /\ present (Z.lor t fl) = Z.testbit fl 0 /\ huge (Z.lor t fl) = Z.testbit fl 7.
Proof.
  intros Ht Hm Hf. pose proof (lor_low_add t fl ltac:(lia) Hm Hf) as Hl.
  rewrite present_bit, huge_bit, !Z.lor_spec. split_and!.
  - rewrite Hl, frame_eq by lia. pose proof (Z.div_mod t 4096 ltac:(lia)).
    replace ((t + fl) / 4096) with (t / 4096); [lia|]. apply Z.div_unique with fl; lia.
  - apply Z.mod_divide in Hm as [q ->]; [|lia]. change 4096 with (2 ^ 12).
    by rewrite Z.mul_pow2_bits_low by lia.
  - apply Z.mod_divide in Hm as [q ->]; [|lia]. change 4096 with (2 ^ 12).
    by rewrite Z.mul_pow2_bits_low by lia.
Qed.

Lemma idx_range a k : 0 <= Z.land (Z.shiftr a k) 0x1FF < 512.
Proof.
  change 0x1FF with (Z.ones 9). rewrite Z.land_ones by lia. apply Z.mod_pos_bound. lia.
Qed.

Lemma vpath_range virt p i rest : vpath virt = p ++ i :: rest -> 0 <= i < 512.
Proof.
  intros H. assert (i ∈ vpath virt) as Hin by (rewrite H; apply elem_mid).
  unfold vpath in Hin. rewrite !elem_of_cons in Hin.
  destruct Hin as [->|[->|[->|[->|Hin%elem_of_nil]]]]; [apply idx_range..|done].
Qed.

(** ** When two memories translate alike *)

(** Along the path of [virt], each entry is unchanged, or was absent and now
    links an all-zero table. *)
Definition alike (m m' : gmap Z Z) (T : gmap Z (list Z)) (virt : Z) : Prop :=
  forall t p i rest, T !! t = Some p -> vpath virt = p ++ i :: rest ->
    word m' (t + 8 * i) = word m (t + 8 * i) \/
    (present (word m (t + 8 * i)) = false /\ rest <> [] /\ (length rest = 1%nat -> huge (word m' (t + 8 * i)) = false) /\
     forall j, 0 <= j < 512 -> word m' (frame (word m' (t + 8 * i)) + 8 * j) = 0).

Lemma tr_alike m m' size T virt t p path :
  tree m size T -> alike m m' T virt -> T !! t = Some p -> vpath virt = p ++ path ->
  tr m' t path virt = tr m t path virt.
Proof.
  intros Htree Hal. revert t p. induction path as [|i rest IH]; intros t p Ht Hp; [done|].
  pose proof (vpath_range _ _ _ _ Hp) as Hi.
  assert (length p + S (length rest) = 4)%nat as Hlen.
  { apply (f_equal length) in Hp. rewrite length_app in Hp. simpl in Hp. lia. }
  assert (vpath virt = (p ++ [i]) ++ rest) as Hp' by (by rewrite <- app_assoc).
  destruct (Hal t p i rest Ht Hp) as [He|(Hnp & Hrest & Hnh & Hz)]; cbn [tr].
  - rewrite He. destruct (present (word m (t + 8 * i))) eqn:Epr; [|done]. cbn [negb].
    destruct Htree as [_ Hch].
    destruct rest as [|j [|k rest]]; [done| |].
    + destruct (huge (word m (t + 8 * i))) eqn:Eh; [done|].
      apply (IH _ (p ++ [i])); [|done]. apply Hch; auto. simpl in Hlen. lia.
    + apply (IH _ (p ++ [i])); [|done]. simpl in Hlen. apply Hch; auto; lia.
  - rewrite Hnp. cbn [negb]. destruct (present (word m' (t + 8 * i))); [|done]. cbn [negb].
    destruct rest as [|j rest]; [done|].
    assert (0 <= j < 512) as Hj by (eapply vpath_range; exact Hp').
    destruct rest; cbn [tr]; [rewrite Hnh by done|]; rewrite (Hz j Hj); done.
Qed.

(** ** Accesses to tables of the tree *)

Lemma wrap_sub_add hh x : 0 <= x < 2 ^ 64 -> u64 (u64 (hh + x) - hh) = x.
Proof.
  intros Hx. unfold wrap. rewrite Zminus_mod_idemp_l.
  replace (hh + x - hh) with x by lia. by apply Z.mod_small.
Qed.

Section access.
Context (s : mm) (Hwf : mm_wf s).

Lemma size_bound : m_size s < 2 ^ 64.
Proof. destruct Hwf as (_ & _ & _ & ? & ?). lia. Qed.

Lemma phys_at_table t i :
  0 <= t -> t + 4096 <= m_size s -> 0 <= i < 512 ->
  phys_at s (u64 (u64 (hhdm_offset s + t) + 8 * i)) = Some (t + 8 * i).
Proof.
  intros. pose proof size_bound. unfold phys_at.
  assert (u64 (u64 (hhdm_offset s + t) + 8 * i) = u64 (hhdm_offset s + (t + 8 * i))) as ->.
  { unfold wrap. rewrite Zplus_mod_idemp_l. f_equal. lia. }
  rewrite wrap_sub_add by lia. by rewrite (proj2 (Z.leb_le _ _)) by lia.
Qed.

Lemma ldt_ok t i :
  0 <= t -> t + 4096 <= m_size s -> 0 <= i < 512 ->
  ldt (u64 (hhdm_offset s + t)) i s = Done s (word (m_mem s) (t + 8 * i)).
Proof. intros. unfold ldt, ld. by rewrite phys_at_table. Qed.

Lemma stt_ok t i v :
  0 <= t -> t + 4096 <= m_size s -> 0 <= i < 512 ->
  stt (u64 (hhdm_offset s + t)) i v s = Done (set_mem (<[t + 8 * i := v]> (m_mem s)) s) tt.
Proof. intros. unfold stt, st. by rewrite phys_at_table. Qed.

End access.

Lemma zero_loop n s t i :
  mm_wf s -> 0 <= t -> t + 4096 <= m_size s -> t mod 4096 = 0 -> 0 <= i -> i + Z.of_nat n <= 512 ->
  exists m', for_loop n i (fun i => stt (u64 (hhdm_offset s + t)) i 0) s = Done (set_mem m' s) tt /\
    (forall j, i <= j < i + Z.of_nat n -> word m' (t + 8 * j) = 0) /\
    (forall a, (forall j, i <= j < i + Z.of_nat n -> a <> t + 8 * j) -> word m' a = word (m_mem s) a).
Proof.
  intros Hwf Ht Hs Hm. revert s i Hwf Hs. induction n as [|n IH]; intros s i Hwf Hs Hi Hn.
  { exists (m_mem s). split; [by destruct s|]. split; [lia|done]. }
  cbn [for_loop]. erewrite bind_done by (apply stt_ok; auto; lia).
  destruct (IH (set_mem (<[t + 8 * i := 0]> (m_mem s)) s) (i + 1)) as (m' & E & Hz & Ho);
    [done|done|lia|lia|].
  exists m'. split; [exact E|]. split.
  - intros j Hj. destruct (decide (j = i)) as [->|]; [|apply Hz; lia].
    rewrite Ho by (intros; lia). cbn [m_mem set_mem]. rewrite word_insert. by rewrite decide_True by lia.
  - intros a Ha. rewrite Ho by (intros j ?; apply Ha; lia). cbn [m_mem set_mem].
    rewrite word_insert, decide_False; [done|]. intros <-. apply (Ha i); lia.
Qed.

(** ** Allocating a table *)

Lemma nfree_ge_alloc n st st' f :
  nfree_ge (S n) st -> Pmm.alloc_at st 1 f st' -> nfree_ge n st'.
Proof.
  intros (l & Hnd & Hlen & Hl) (_ & Hu & Heq).
  assert (Pmm.nframes st' = Pmm.nframes st) as Hnf by (rewrite Heq; done).
  assert (exists l', NoDup l' /\ length l' = n /\ forall g, g ∈ l' -> g ∈ l /\ g <> f) as (l' & ? & ? & Hl').
  { destruct (decide (f ∈ l)) as [(l1 & l2 & ->)%list_elem_of_split|Hn].
    - exists (l1 ++ l2). rewrite length_app in *. simpl in Hlen.
      apply NoDup_app in Hnd as (? & Hd & [? ?]%NoDup_cons).
      split_and!; [apply NoDup_app; set_solver|lia|set_solver].
    - destruct l as [|g l]; [done|]. apply NoDup_cons in Hnd as [? ?].
      exists l. simpl in Hlen. split_and!; [done|lia|set_solver]. }
  exists l'. split_and!; auto. intros g [Hg Hne]%Hl'. destruct (Hl g Hg) as [Hr Hf].
  rewrite Hnf, Hu, Hf. split; [done|]. unfold Pmm.in_run. by rewrite bool_decide_false by lia.
Qed.

Lemma falloc_ok s n :
  mm_wf s -> nfree_ge (S n) (m_pmm s) ->
  exists pm f, falloc 1 s = Done (set_pmm pm s) (f * 4096) /\
    0 < f /\ Pmm.first_fit (m_pmm s) 1 f pm /\ mm_wf (set_pmm pm s) /\ nfree_ge n pm.
Proof.
  intros (Hp & H0 & Hs & Hh) Hfree.
  destruct (Pmm.falloc_bytes_spec (Z.to_nat (Pmm.mmap_sz (m_pmm s))) (m_pmm s) 0 1)
    as (pm & a & E & Hp' & Hres); [done|done| |lia|].
  { rewrite Z2Nat.id; [lia|]. destruct Hp as (? & _ & _ & _ & -> & _). apply Z.div_pos; lia. }
  destruct Hres as [(f & Hf & -> & Hat & Hlow)|(_ & _ & Hno)].
  - exists pm, f. unfold falloc, Pmm.pmm_falloc. rewrite E. split; [done|].
    pose proof Hat as ((? & ? & Hfr) & Hu & Heq).
    assert (f <> 0) by (intros ->; rewrite Hfr in H0 by lia; done).
    split_and!; [lia|done| |by eapply nfree_ge_alloc].
    split_and!; cbn; [done| | |lia..].
    + rewrite Hu, H0. apply orb_true_r.
    + rewrite Heq. done.
  - exfalso. destruct Hfree as ([|g l] & _ & Hlen & Hl); [done|].
    destruct (Hl g ltac:(by left)) as [Hr Hg]. apply (Hno g); [lia|].
    split_and!; [lia..|]. intros h Hh'. by replace h with g by lia.
Qed.

Lemma alloctblpg_ok s n :
  mm_wf s -> nfree_ge (S n) (m_pmm s) ->
  exists pm f m', alloctblpg s = Done (set_mem m' (set_pmm pm s)) (u64 (hhdm_offset s + f * 4096)) /\
    0 < f /\ Pmm.first_fit (m_pmm s) 1 f pm /\ mm_wf (set_pmm pm s) /\ nfree_ge n pm /\
    f * 4096 + 4096 <= m_size s /\
    (forall j, 0 <= j < 512 -> word m' (f * 4096 + 8 * j) = 0) /\
    (forall a, (forall j, 0 <= j < 512 -> a <> f * 4096 + 8 * j) -> word m' a = word (m_mem s) a).
Proof.
  intros Hwf Hfree. destruct (falloc_ok s n Hwf Hfree) as (pm & f & E & Hf & Hat & Hwf' & Hn).
  assert (f * 4096 + 4096 <= m_size s).
  { destruct Hwf as (_ & _ & ? & _), Hat as (((_ & ? & _) & _) & _). lia. }
  destruct (zero_loop 512 (set_pmm pm s) (f * 4096) 0) as (m' & Ez & Hz & Ho);
    [done|lia|done|by apply Z_mod_mult|lia|lia|].
  exists pm, f, m'. split; [|done].
  unfold alloctblpg. rewrite (bind_done _ _ _ _ _ E).
  rewrite (proj2 (Z.eqb_neq _ 0)) by lia.
  unfold memset_page. by rewrite bind_gets, (bind_done _ _ _ _ _ Ez).
Qed.

(** ** One level of [vmm_map_page] *)

(** Entry [i] of table [t] leads to table [c]. *)
Definition links (s : mm) (t i c : Z) : Prop :=
  present (word (m_mem s) (t + 8 * i)) = true /\ frame (word (m_mem s) (t + 8 * i)) = c.

(** [T] holds the tables that can be reached from [root] and no others, in frames
    the allocator manages. *)
Record exact (s : mm) (T : gmap Z (list Z)) (root : Z) : Prop := {
  ex_root : forall t, T !! t = Some [] -> t = root;
  ex_link : forall t p i, T !! t = Some (p ++ [i]) ->
    exists t0, T !! t0 = Some p /\ 0 <= i < 512 /\ links s t0 i t /\ (length p = 2%nat -> huge (word (m_mem s) (t0 + 8 * i)) = false);
  ex_frames : forall t p, T !! t = Some p -> 0 < t /\ t / 4096 < Pmm.nframes (m_pmm s)
}.

Lemma exact_inj s T root : exact s T root -> forall p t t', T !! t = Some p -> T !! t' = Some p -> t = t'.
Proof.
  intros [Hr Hl _] p. induction p as [|i p IH] using rev_ind; intros t t' Ht Ht'.
  - by rewrite (Hr t Ht), (Hr t' Ht').
  - destruct (Hl t p i Ht) as (t0 & H0 & _ & [_ <-] & _), (Hl t' p i Ht') as (t1 & H1 & _ & [_ <-] & _). by rewrite (IH t0 t1 H0 H1).
Qed.

(** What a level may change: the tree grows by empty tables, so every
    translation, every present entry and the absence of huge pages survive. *)
Record grows (s : mm) (T : gmap Z (list Z)) (s' : mm) (T' : gmap Z (list Z)) : Prop := {
  gr_inv : inv s' T';
  gr_sub : T ⊆ T';
  gr_hhdm : hhdm_offset s' = hhdm_offset s;
  gr_pml4 : pml4 s' = pml4 s;
  gr_keep : forall t p i, T !! t = Some p -> 0 <= i < 512 ->
    present (word (m_mem s) (t + 8 * i)) = true ->
    word (m_mem s') (t + 8 * i) = word (m_mem s) (t + 8 * i);
  gr_tr : forall virt t p path, T !! t = Some p -> vpath virt = p ++ path ->
    tr (m_mem s') t path virt = tr (m_mem s) t path virt;
  gr_nohuge : forall virt, nohuge (m_mem s) T virt -> nohuge (m_mem s') T' virt;
  gr_exact : forall root, exact s T root -> exact s' T' root
}.

(** Tables of the half of the addresses below the kernel's. *)
Definition lower (p : list Z) : Prop := match p with [] => True | i :: _ => i < 256 end.

(** What mapping below the kernel's half may change: words of the lower tables and
    of frames that were free, of which at most [c] are taken. *)
Record touches (c : nat) (s : mm) (T : gmap Z (list Z)) (s' : mm) (T' : gmap Z (list Z)) : Prop := {
  to_keep : forall a, Pmm.used (m_pmm s) (a / 4096) = true ->
    (forall t p, T !! t = Some p -> lower p -> a / 4096 <> t / 4096) -> word (m_mem s') a = word (m_mem s) a;
  to_new : forall t p, T' !! t = Some p -> T !! t = Some p \/ Pmm.used (m_pmm s) (t / 4096) = false;
  to_takes : exists m, (m <= c)%nat /\ Pmm.takes m (m_pmm s) (m_pmm s');
  to_rest : s' = set_mem (m_mem s') (set_pmm (m_pmm s') s)
}.

Lemma set_pmm_same s : set_pmm (m_pmm s) s = s.
Proof. by destruct s. Qed.

Lemma touches_refl c s T : touches c s T s T.
Proof. split; auto; [|by destruct s]. exists 0%nat. split; [lia|constructor]. Qed.

Lemma touches_trans c c' s T s1 T1 s2 T2 : touches c s T s1 T1 -> touches c' s1 T1 s2 T2 -> touches (c + c') s T s2 T2.
Proof.
  intros [Hk1 Hn1 (m1 & ? & H1) Hr1] [Hk2 Hn2 (m2 & ? & H2) Hr2].
  assert (forall f, Pmm.used (m_pmm s) f = true -> Pmm.used (m_pmm s1) f = true) as Hu by (intros f; by eapply Pmm.takes_used).
  split.
  - intros a Ha Hl. rewrite <- Hk1 by done. apply Hk2; [auto|]. intros t p Ht Hp. destruct (Hn1 t p Ht) as [Ht'|Hf]; [by eapply Hl|congruence].
  - intros t p Ht. destruct (Hn2 t p Ht) as [Ht'|Hf]; [auto|]. right. destruct (Pmm.used (m_pmm s) (t / 4096)) eqn:E; [|done]. rewrite Hu in Hf; done.
  - exists (m1 + m2)%nat. split; [lia|]. by eapply Pmm.takes_trans.
  - rewrite Hr2, Hr1 at 1. done.
Qed.

Lemma grows_refl s T : inv s T -> grows s T s T.
Proof. intros. by constructor. Qed.

Lemma tree_frame s T t p :
  inv s T -> T !! t = Some p ->
  0 <= t /\ t mod 4096 = 0 /\ t + 4096 <= m_size s /\ (length p <= 3)%nat.
Proof. intros (_ & [H _] & _) Ht. by eapply H. Qed.

(** A frame the allocator hands out is not a table of the tree. *)
Lemma fresh_frame s T pm f :
  inv s T -> Pmm.alloc_at (m_pmm s) 1 f pm -> T !! (f * 4096) = None.
Proof.
  intros (_ & _ & Hown) ((_ & _ & Hfr) & _).
  destruct (T !! (f * 4096)) as [p|] eqn:E; [|done].
  apply Hown in E. rewrite Z.div_mul, Hfr in E by lia. done.
Qed.

Section grow.
Context (s : mm) (T : gmap Z (list Z)) (t : Z) (p : list Z) (i : Z).
Context (Hinv : inv s T) (Ht : T !! t = Some p) (Hp : (length p < 3)%nat) (Hi : 0 <= i < 512).
Context (Habs : present (word (m_mem s) (t + 8 * i)) = false).
Context (c : Z) (Hc : T !! c = None) (Hc0 : 0 <= c) (Hca : c mod 4096 = 0) (Hcs : c + 4096 <= m_size s).
Context (m' : gmap Z Z) (e : Z).
Context (He : word m' (t + 8 * i) = e) (Hep : present e = true) (Heh : huge e = false) (Hef : frame e = c).
Context (Hz : forall j, 0 <= j < 512 -> word m' (c + 8 * j) = 0).
Context (Ho : forall a, a <> t + 8 * i -> (forall j, 0 <= j < 512 -> a <> c + 8 * j) ->
                word m' a = word (m_mem s) a).

Lemma grow_other t' p' i' :
  T !! t' = Some p' -> 0 <= i' < 512 -> (t', i') <> (t, i) ->
  word m' (t' + 8 * i') = word (m_mem s) (t' + 8 * i').
Proof.
  intros Ht' Hi' Hne.
  destruct (tree_frame _ _ _ _ Hinv Ht) as (_ & ? & _).
  destruct (tree_frame _ _ _ _ Hinv Ht') as (_ & ? & _). apply Ho.
  - intros [-> ->]%entry_inj; done.
  - intros j Hj [-> ->]%entry_inj; congruence.
Qed.

Lemma grow_alike virt : alike (m_mem s) m' T virt.
Proof.
  intros t' p' i' rest Ht' Hv. pose proof (vpath_range _ _ _ _ Hv).
  destruct (decide ((t', i') = (t, i))) as [[= -> ->]|Hne].
  - right. rewrite He, Hef. split_and!; auto. rewrite Ht in Ht'. injection Ht' as <-.
    intros ->. apply (f_equal length) in Hv. rewrite length_app in Hv. simpl in Hv. lia.
  - left. by eapply grow_other.
Qed.

Lemma grow_tree : tree m' (m_size s) (<[c := p ++ [i]]> T).
Proof.
  split.
  - intros t' p'. rewrite lookup_insert. case_decide as E.
    + intros [= <-]. subst t'. rewrite length_app. simpl. split_and!; auto. lia.
    + apply (tree_frame s T t' p' Hinv).
  - intros t' p' i'. rewrite lookup_insert. case_decide as E.
    + intros [= <-] Hi' _ Hpr. subst t'. rewrite Hz in Hpr by done. done.
    + intros Ht' Hi' Hlen Hpr Hh. destruct (decide ((t', i') = (t, i))) as [[= -> ->]|Hne].
      * rewrite He, Hef, lookup_insert_eq. congruence.
      * rewrite (grow_other _ _ _ Ht' Hi' Hne) in *.
        assert (T !! frame (word (m_mem s) (t' + 8 * i')) = Some (p' ++ [i'])) as Hch.
        { by apply Hinv. }
        rewrite lookup_insert_ne; [done|]. intros ->. congruence.
Qed.

Lemma grow_nohuge virt : nohuge (m_mem s) T virt -> nohuge m' (<[c := p ++ [i]]> T) virt.
Proof.
  intros Hnh t' i' Ht' ->. pose proof (idx_range virt 21 : 0 <= PD_IDX virt < 512).
  rewrite lookup_insert in Ht'. case_decide as E.
  - subst t'. by rewrite Hz.
  - destruct (decide ((t', PD_IDX virt) = (t, i))) as [[= -> ->]|Hne]; [by rewrite He|].
    rewrite (grow_other _ _ _ Ht' H Hne). by apply Hnh.
Qed.

(** The new table is linked where it belongs. *)
Lemma grow_exact pm root :
  Pmm.alloc_at (m_pmm s) 1 (c / 4096) pm -> 0 < c -> exact s T root -> exact (set_mem m' (set_pmm pm s)) (<[c := p ++ [i]]> T) root.
Proof.
  intros ((_ & Hb & _) & _ & Heq) Hc1 [Hr Hk Hf]. split.
  - intros t' Ht'. rewrite lookup_insert in Ht'. case_decide; [by destruct p|auto].
  - intros t' p' i' Ht'. rewrite lookup_insert in Ht'. case_decide as E.
    + injection Ht' as Ep. apply app_inj_tail in Ep as [<- <-]. subst t'. exists t. rewrite lookup_insert_ne by congruence.
      unfold links. cbn [m_mem set_mem]. by rewrite He.
    + destruct (Hk t' p' i' Ht') as (t0 & H0 & Hi' & [P Q] & Hh). assert ((t0, i') <> (t, i)) as Hn by (intros [= -> ->]; congruence).
      exists t0. rewrite lookup_insert_ne by congruence. unfold links. cbn [m_mem set_mem]. by rewrite (grow_other _ _ _ H0 Hi' Hn).
  - intros t' p' Ht'. rewrite Heq. cbn. rewrite lookup_insert in Ht'. case_decide; [subst t'; lia|by eapply Hf].
Qed.

Lemma grow_grows pm :
  Pmm.alloc_at (m_pmm s) 1 (c / 4096) pm -> 0 < c -> mm_wf (set_pmm pm s) ->
  grows s T (set_mem m' (set_pmm pm s)) (<[c := p ++ [i]]> T).
Proof.
  intros Hat Hc1 Hwf'.
  constructor; cbn [m_mem set_mem hhdm_offset pml4 set_pmm]; [|by apply insert_subseteq|done|done|..].
  - split_and!; [done|apply grow_tree|].
    intros t' p'. cbn. destruct Hat as (_ & Hu & _). rewrite Hu, lookup_insert. case_decide as E'.
    + intros _. subst t'. unfold Pmm.in_run. by rewrite bool_decide_true by lia.
    + intros Hl. destruct Hinv as (_ & _ & Hown). rewrite (Hown _ _ Hl). apply orb_true_r.
  - intros t' p' i' Ht' Hi' Hpr. eapply grow_other; eauto. intros [= -> ->]. congruence.
  - intros virt t' p' path Ht' Hv. eapply tr_alike; eauto using grow_alike. apply Hinv.
  - apply grow_nohuge.
  - intros root. by apply grow_exact.
Qed.

Lemma grow_touches pm :
  Pmm.first_fit (m_pmm s) 1 (c / 4096) pm -> lower p -> touches 1 s T (set_mem m' (set_pmm pm s)) (<[c := p ++ [i]]> T).
Proof.
  intros Hff Hlow. pose proof Hff as (((_ & _ & Hfr) & _) & _). destruct (tree_frame _ _ _ _ Hinv Ht) as (_ & ? & _). split; [| | |done].
  - intros a Ha Hl. apply Ho; [intros ->; apply (Hl t p); auto|intros j Hj ->; rewrite Hfr in Ha; [done|]]; Z.to_euclidean_division_equations; lia.
  - intros t' p'. rewrite lookup_insert. case_decide as E'; [|auto]. intros _. right. subst t'. apply Hfr. lia.
  - exists 1%nat. split; [lia|]. by eapply (Pmm.takes_one 1).
Qed.

End grow.

Lemma nfree_ge_S n st : nfree_ge (S n) st -> nfree_ge n st.
Proof.
  intros ([|f l] & Hnd & Hlen & Hl); [done|]. apply NoDup_cons in Hnd as [_ ?].
  exists l. simpl in Hlen. split_and!; [done|lia|]. intros. apply Hl. by right.
Qed.

Lemma next_table_ok s T t p i n :
  inv s T -> T !! t = Some p -> (length p < 3)%nat -> 0 <= i < 512 ->
  (length p = 2%nat -> huge (word (m_mem s) (t + 8 * i)) = false) ->
  nfree_ge (S n) (m_pmm s) ->
  exists s' c T', next_table (u64 (hhdm_offset s + t)) i s = Done s' (u64 (hhdm_offset s + c)) /\
    grows s T s' T' /\ T' !! c = Some (p ++ [i]) /\ links s' t i c /\ nfree_ge n (m_pmm s') /\
    (lower p -> touches 1 s T s' T').
Proof.
  intros Hinv Ht Hp Hi Hh Hfree. pose proof Hinv as (Hwf & Htree & Hown).
  destruct (tree_frame _ _ _ _ Hinv Ht) as (Ht0 & Hta & Hts & _).
  unfold next_table. rewrite bind_gets, (bind_done _ _ _ _ _ (ldt_ok s Hwf t i Ht0 Hts Hi)).
  destruct (present (word (m_mem s) (t + 8 * i))) eqn:Epr; cbn [negb].
  { exists s, (frame (word (m_mem s) (t + 8 * i))), T. split; [done|].
    split; [by apply grows_refl|]. split; [by apply Htree|]. split; [done|]. split; [by apply nfree_ge_S|]. intros _. apply touches_refl. }
  destruct (alloctblpg_ok s n Hwf Hfree) as (pm & f & m' & E & Hf & Hat & Hwf' & Hn & Hfs & Hz & Ho).
  rewrite (bind_done _ _ _ _ _ E).
  pose proof (fresh_frame _ _ _ _ Hinv (proj1 Hat)) as Hc. pose proof (size_bound s Hwf).
  assert ((f * 4096) mod 4096 = 0) as Hca by (by apply Z_mod_mult).
  rewrite wrap_sub_add by lia.
  erewrite bind_done.
  2: { apply (stt_ok (set_mem m' (set_pmm pm s)) ltac:(done) t i); done. }
  set (e := Z.lor (f * 4096) (PAGE_PRESENT + PAGE_WRITE + PAGE_USER)).
  set (m2 := <[t + 8 * i := e]> m').
  destruct (entry_lor (f * 4096) 7) as (Hef & Hep & Heh); [|done|done|].
  { destruct Hwf as (_ & _ & _ & ? & ?). lia. }
  change 7 with (PAGE_PRESENT + PAGE_WRITE + PAGE_USER) in Hef, Hep, Heh. fold e in Hef, Hep, Heh.
  assert (forall j, 0 <= j < 512 -> t + 8 * i <> f * 4096 + 8 * j) as Hdis.
  { intros j Hj [-> _]%entry_inj; congruence. }
  assert (word m2 (t + 8 * i) = e) as He by (unfold m2; by rewrite word_insert, decide_True).
  assert (forall j, 0 <= j < 512 -> word m2 (f * 4096 + 8 * j) = 0) as Hz2.
  { intros j Hj. unfold m2. rewrite word_insert, decide_False by (by apply Hdis). by apply Hz. }
  assert (forall a, a <> t + 8 * i -> (forall j, 0 <= j < 512 -> a <> f * 4096 + 8 * j) ->
            word m2 a = word (m_mem s) a) as Ho2.
  { intros a ? ?. unfold m2. rewrite word_insert, decide_False by done. by apply Ho. }
  exists (set_mem m2 (set_pmm pm s)), (f * 4096), (<[f * 4096 := p ++ [i]]> T).
  split; [done|]. split; [|split; [by rewrite lookup_insert_eq|split; [|split; [done|]]]].
  2: { split; cbn [m_mem set_mem]; by rewrite He. }
  - apply (grow_grows s T t p i Hinv Ht Hp Hi Epr (f * 4096)) with (e := e); auto; [lia| |lia].
    rewrite Z.div_mul by lia. apply Hat.
  - intros Hlow. apply grow_touches with (t := t); auto. by rewrite Z.div_mul by lia.
Qed.

Lemma grows_trans s T s1 T1 s2 T2 : grows s T s1 T1 -> grows s1 T1 s2 T2 -> grows s T s2 T2.
Proof.
  intros [? Hs1 ? ? Hk1 Ht1 ? ?] [? Hs2 ? ? Hk2 Ht2 ? ?].
  assert (forall t p, T !! t = Some p -> T1 !! t = Some p) as HT by (intros; by eapply lookup_weaken).
  constructor; auto; [by etrans|congruence|congruence| |].
  - intros t p i Ht Hi Hpr. rewrite <- (Hk1 t p i) in * by done. eauto.
  - intros virt t p path Ht Hv. rewrite (Ht2 virt t p path) by eauto. eauto.
Qed.

Lemma links_grows s T s' T' t p i c :
  grows s T s' T' -> T !! t = Some p -> 0 <= i < 512 -> links s t i c -> links s' t i c.
Proof. intros Hg Ht Hi [Hp <-]. unfold links. by rewrite (gr_keep _ _ _ _ Hg t p i). Qed.

(** ** Reading a translation *)

Lemma vmm_get_phys_ok s T root virt :
  inv s T -> T !! root = Some [] ->
  vmm_get_phys (u64 (hhdm_offset s + root)) virt s = Done s (translate s root virt).
Proof.
  intros Hinv Hr. pose proof Hinv as (Hwf & [_ Hch] & _).
  destruct (tree_frame _ _ _ _ Hinv Hr) as (? & ? & ? & _).
  unfold vmm_get_phys, translate, vpath. cbn [tr].
  assert (u64 (hhdm_offset s + root) <> 0) as Hnz.
  { destruct Hwf as (_ & _ & _ & ? & ?). rewrite wrap_small by lia. lia. }
  rewrite (proj2 (Z.eqb_neq _ 0) Hnz), bind_gets.
  rewrite (bind_done _ _ _ _ _ (ldt_ok s Hwf root (PML4_IDX virt) ltac:(done) ltac:(done) (idx_range _ _))).
  destruct (present (word _ (root + _))) eqn:E4; cbn [negb]; [|done].
  pose proof (Hch _ _ _ Hr (idx_range virt 39) ltac:(simpl; lia) E4 ltac:(done)) as HT3. simpl in HT3.
  set (t3 := frame (word (m_mem s) (root + 8 * PML4_IDX virt))) in *.
  destruct (tree_frame _ _ _ _ Hinv HT3) as (? & ? & ? & _).
  rewrite (bind_done _ _ _ _ _ (ldt_ok s Hwf t3 (PDPT_IDX virt) ltac:(done) ltac:(done) (idx_range _ _))).
  destruct (present (word _ (t3 + _))) eqn:E3; cbn [negb]; [|done].
  pose proof (Hch _ _ _ HT3 (idx_range virt 30) ltac:(simpl; lia) E3 ltac:(done)) as HT2. simpl in HT2.
  set (t2 := frame (word (m_mem s) (t3 + 8 * PDPT_IDX virt))) in *.
  destruct (tree_frame _ _ _ _ Hinv HT2) as (? & ? & ? & _).
  rewrite (bind_done _ _ _ _ _ (ldt_ok s Hwf t2 (PD_IDX virt) ltac:(done) ltac:(done) (idx_range _ _))).
  destruct (present (word _ (t2 + _))) eqn:E2; cbn [negb]; [|done].
  fold (huge (word (m_mem s) (t2 + 8 * PD_IDX virt))).
  destruct (huge (word _ (t2 + _))) eqn:Eh; [done|].
  pose proof (Hch _ _ _ HT2 (idx_range virt 21) ltac:(simpl; lia) E2 ltac:(done)) as HT1.
  set (t1 := frame (word (m_mem s) (t2 + 8 * PD_IDX virt))) in *.
  destruct (tree_frame _ _ _ _ Hinv HT1) as (? & ? & ? & _).
  rewrite (bind_done _ _ _ _ _ (ldt_ok s Hwf t1 (PT_IDX virt) ltac:(done) ltac:(done) (idx_range _ _))).
  by destruct (present (word _ (t1 + _))).
Qed.

(** ** Writing the leaf entry *)

Section leaf.
Context (s : mm) (T : gmap Z (list Z)) (root t3 t2 t1 virt e : Z).
Context (Hinv : inv s T) (Hnh : nohuge (m_mem s) T virt).
Context (H4 : T !! root = Some []) (H3 : T !! t3 = Some [PML4_IDX virt]).
Context (H2 : T !! t2 = Some [PML4_IDX virt; PDPT_IDX virt]).
Context (H1 : T !! t1 = Some [PML4_IDX virt; PDPT_IDX virt; PD_IDX virt]).
Context (L4 : links s root (PML4_IDX virt) t3) (L3 : links s t3 (PDPT_IDX virt) t2)
        (L2 : links s t2 (PD_IDX virt) t1).
Let m' := <[t1 + 8 * PT_IDX virt := e]> (m_mem s).

Lemma leaf_other t p i :
  T !! t = Some p -> 0 <= i < 512 -> (t, i) <> (t1, PT_IDX virt) ->
  word m' (t + 8 * i) = word (m_mem s) (t + 8 * i).
Proof.
  intros Ht Hi Hne. unfold m'. rewrite word_insert, decide_False; [done|].
  destruct (tree_frame _ _ _ _ Hinv Ht) as (_ & ? & _).
  destruct (tree_frame _ _ _ _ Hinv H1) as (_ & ? & _).
  intros [-> <-]%entry_inj; auto. apply idx_range.
Qed.

Lemma leaf_inv : inv (set_mem m' s) T.
Proof.
  pose proof Hinv as (Hwf & [Hfr Hch] & Hown). split_and!; [done| |done]. split; [done|].
  intros t p i Ht Hi Hp. cbn [m_mem set_mem].
  rewrite (leaf_other t p i Ht Hi); [by apply Hch|]. intros [= -> ->].
  rewrite H1 in Ht. injection Ht as <-. simpl in Hp. lia.
Qed.

Lemma leaf_translate v :
  present e = true ->
  translate (set_mem m' s) root v =
  if decide (vpath v = vpath virt) then Z.lor (frame e) (Z.land v 0xFFF) else translate s root v.
Proof.
  intros He. unfold translate. cbn [m_mem set_mem]. case_decide as Hv.
  - rewrite Hv. cbn [tr vpath].
    destruct L4 as [P4 F4], L3 as [P3 F3], L2 as [P2 F2].
    rewrite (leaf_other _ _ (PML4_IDX virt) H4 (idx_range _ _)) by (intros [= -> _]; congruence).
    rewrite P4, F4. cbn [negb].
    rewrite (leaf_other _ _ (PDPT_IDX virt) H3 (idx_range _ _)) by (intros [= -> _]; congruence).
    rewrite P3, F3. cbn [negb].
    rewrite (leaf_other _ _ (PD_IDX virt) H2 (idx_range _ _)) by (intros [= -> _]; congruence).
    rewrite P2, F2, (Hnh _ _ H2 eq_refl). cbn [negb].
    unfold m'. by rewrite word_insert, decide_True, He.
  - eapply tr_alike; [apply Hinv| |exact H4|done].
    intros t p i rest Ht Hp. left. apply (leaf_other _ _ _ Ht (vpath_range _ _ _ _ Hp)).
    intros [= -> ->]. rewrite H1 in Ht. injection Ht as <-. apply Hv. rewrite Hp.
    unfold vpath. f_equal. by injection Hp as _ _ _ _ <-.
Qed.

Lemma leaf_exact : exact s T root -> exact (set_mem m' s) T root.
Proof.
  intros [Hr Hk Hf]. split; [done| |done]. intros t p i Ht. destruct (Hk t p i Ht) as (t0 & H0 & Hi & [P Q] & Hh). exists t0.
  destruct (tree_frame _ _ _ _ Hinv Ht) as (_ & _ & _ & Hl). rewrite length_app in Hl. cbn in Hl.
  unfold links. cbn [m_mem set_mem]. rewrite (leaf_other t0 p i H0 Hi); [done|]. intros [= -> _]. rewrite H1 in H0. injection H0 as <-. cbn in Hl. lia.
Qed.

Lemma leaf_touches : PML4_IDX virt < 256 -> touches 0 s T (set_mem m' s) T.
Proof.
  intros Hlow. destruct (tree_frame _ _ _ _ Hinv H1) as (_ & ? & _). pose proof (idx_range virt 12 : 0 <= PT_IDX virt < 512).
  split; cbn [m_mem set_mem m_pmm]; [|auto|exists 0%nat; split; [lia|constructor]|by rewrite set_pmm_same].
  intros a Ha Hl. unfold m'. rewrite word_insert, decide_False; [done|]. intros <-. apply (Hl t1 _ H1 Hlow). Z.to_euclidean_division_equations. lia.
Qed.

End leaf.

(** The mirror into the kernel's table does not apply. *)
Lemma next_table_top_same s pml4v idx :
  idx < 256 \/ pml4 s = 0 \/ pml4 s = pml4v ->
  next_table_top pml4v idx s = next_table pml4v idx s.
Proof.
  intros H. assert (negb (pml4 s =? 0) && negb (pml4 s =? pml4v) && (256 <=? idx) = false) as E.
  { destruct (Z.eqb_spec (pml4 s) 0), (Z.eqb_spec (pml4 s) pml4v), (Z.leb_spec 256 idx); simpl; try done.
    exfalso. destruct H as [?|[?|?]]; [lia|done|done]. }
  unfold next_table_top, next_table. rewrite !bind_gets, E. done.
Qed.

Lemma leaf_entry phys flg :
  0 <= phys < 2 ^ 64 - 4096 -> 0 <= flg < 4096 ->
  let e := Z.lor (Z.lor (frame phys) flg) PAGE_PRESENT in frame e = frame phys /\ present e = true.
Proof.
  intros Hp Hf e. unfold e. rewrite <- Z.lor_assoc.
  assert (0 <= Z.lor flg PAGE_PRESENT < 4096).
  { split; [apply Z.lor_nonneg; unfold PAGE_PRESENT; lia|].
    change 4096 with (2 ^ 12). apply Z.log2_lt_cancel. rewrite Z.log2_lor by (unfold PAGE_PRESENT; lia).
    rewrite Z.log2_pow2 by lia. change (Z.log2 PAGE_PRESENT) with 0.
    assert (Z.log2 flg < 12); [|lia].
    destruct (decide (flg = 0)) as [->|]; [done|]. apply Z.log2_lt_pow2; lia. }
  pose proof (Z.div_mod phys 4096 ltac:(lia)). pose proof (Z.mod_pos_bound phys 4096 ltac:(lia)).
  destruct (entry_lor (frame phys) (Z.lor flg PAGE_PRESENT)) as (-> & -> & _); auto.
  - rewrite frame_eq by lia. lia.
  - rewrite frame_eq by lia. rewrite Z.mul_comm. by apply Z_mod_mult.
  - split; [done|]. rewrite Z.lor_spec. apply orb_true_r.
Qed.

(** The three levels above the leaf. *)
Lemma map_walk n s T root virt (k : Z -> M mm unit) :
  inv s T -> T !! root = Some [] -> nfree_ge (3 + n) (m_pmm s) -> nohuge (m_mem s) T virt ->
  PML4_IDX virt < 256 \/ pml4 s = 0 \/ pml4 s = u64 (hhdm_offset s + root) ->
  exists s3 T3 t3 t2 t1,
    (pdpt_virt ← next_table_top (u64 (hhdm_offset s + root)) (PML4_IDX virt);
     pd_virt ← next_table pdpt_virt (PDPT_IDX virt);
     pt_virt ← next_table pd_virt (PD_IDX virt); k pt_virt) s = k (u64 (hhdm_offset s3 + t1)) s3 /\
    grows s T s3 T3 /\ T3 !! t3 = Some [PML4_IDX virt] /\
    T3 !! t2 = Some [PML4_IDX virt; PDPT_IDX virt] /\
    T3 !! t1 = Some [PML4_IDX virt; PDPT_IDX virt; PD_IDX virt] /\
    links s3 root (PML4_IDX virt) t3 /\ links s3 t3 (PDPT_IDX virt) t2 /\ links s3 t2 (PD_IDX virt) t1 /\ nfree_ge n (m_pmm s3) /\
    (PML4_IDX virt < 256 -> touches 3 s T s3 T3).
Proof.
  intros Hinv Hr Hfree Hnh Htop.
  destruct (next_table_ok s T root [] (PML4_IDX virt) (2 + n)) as (s1 & t3 & T1 & E1 & G1 & HT3 & L4 & F1 & U1);
    [done|done|simpl; lia|apply idx_range|done|done|].
  rewrite (bind_done _ _ _ _ _ (eq_trans (next_table_top_same _ _ _ Htop) E1)).
  rewrite <- (gr_hhdm _ _ _ _ G1).
  destruct (next_table_ok s1 T1 t3 [PML4_IDX virt] (PDPT_IDX virt) (1 + n))
    as (s2 & t2 & T2 & E2 & G2 & HT2 & L3 & F2 & U2);
    [apply G1|done|simpl; lia|apply idx_range|done|done|].
  rewrite (bind_done _ _ _ _ _ E2), <- (gr_hhdm _ _ _ _ G2).
  pose proof (grows_trans _ _ _ _ _ _ G1 G2) as G12.
  destruct (next_table_ok s2 T2 t2 [PML4_IDX virt; PDPT_IDX virt] (PD_IDX virt) n)
    as (s3 & t1 & T3 & E3 & G3 & HT1 & L2 & F3 & U3);
    [apply G2|done|simpl; lia|apply idx_range| |done|].
  { intros _. by apply (gr_nohuge _ _ _ _ G12 virt Hnh). }
  rewrite (bind_done _ _ _ _ _ E3), <- (gr_hhdm _ _ _ _ G3).
  pose proof (grows_trans _ _ _ _ _ _ G12 G3) as G. pose proof (grows_trans _ _ _ _ _ _ G2 G3) as G23.
  exists s3, T3, t3, t2, t1. split_and!; auto.
  - eapply lookup_weaken; [exact HT3|apply G23].
  - eapply lookup_weaken; [exact HT2|apply G3].
  - eapply (links_grows _ _ _ _ _ [] _ _ G23); [|apply idx_range|done].
    eapply lookup_weaken; [exact Hr|apply G1].
  - eapply (links_grows _ _ _ _ _ [PML4_IDX virt] _ _ G3); [|apply idx_range|done].
    eapply lookup_weaken; [exact HT3|apply G2].
  - intros Hlow. apply (touches_trans 2 1 _ _ s2 T2); [apply (touches_trans 1 1 _ _ s1 T1); [by apply U1|by apply U2]|by apply U3].
Qed.

(** A page mapped in the tree of [root], all other translations left alone. *)
Record maps_page (n : nat) (s : mm) (T : gmap Z (list Z)) (root virt phys : Z) (s' : mm) (T' : gmap Z (list Z)) : Prop := {
  mp_inv : inv s' T';
  mp_sub : T ⊆ T';
  mp_hhdm : hhdm_offset s' = hhdm_offset s;
  mp_pml4 : pml4 s' = pml4 s;
  mp_tr : forall v, translate s' root v = if decide (vpath v = vpath virt) then Z.lor (frame phys) (Z.land v 0xFFF) else translate s root v;
  mp_nohuge : forall v, nohuge (m_mem s) T v -> nohuge (m_mem s') T' v;
  mp_free : nfree_ge n (m_pmm s');
  mp_touch : PML4_IDX virt < 256 -> touches 3 s T s' T';
  mp_exact : exact s T root -> exact s' T' root
}.

Lemma vmm_map_page_ok n s T root virt phys flg :
  inv s T -> T !! root = Some [] -> nfree_ge (3 + n) (m_pmm s) -> nohuge (m_mem s) T virt ->
  PML4_IDX virt < 256 \/ pml4 s = 0 \/ pml4 s = u64 (hhdm_offset s + root) ->
  0 <= phys < 2 ^ 64 - 4096 -> 0 <= flg < 4096 ->
  exists s' T', vmm_map_page (u64 (hhdm_offset s + root)) virt phys flg s = Done s' tt /\ maps_page n s T root virt phys s' T'.
Proof.
  intros Hinv Hr Hfree Hnh Htop Hphys Hflg. unfold vmm_map_page.
  set (e := Z.lor (Z.lor (frame phys) flg) PAGE_PRESENT).
  destruct (map_walk n s T root virt (fun pt => stt pt (PT_IDX virt) e) Hinv Hr Hfree Hnh Htop)
    as (s3 & T3 & t3 & t2 & t1 & -> & G & HT3 & HT2 & HT1 & L4 & L3 & L2 & Hn & Htch).
  pose proof (gr_inv _ _ _ _ G) as Hinv3.
  destruct (tree_frame _ _ _ _ Hinv3 HT1) as (? & ? & ? & _).
  rewrite (stt_ok s3 ltac:(apply G) t1 (PT_IDX virt)) by (done || apply idx_range).
  assert (T3 !! root = Some []) as HT4 by (eapply lookup_weaken; [exact Hr|apply G]).
  destruct (leaf_entry phys flg Hphys Hflg : frame e = frame phys /\ present e = true) as [Hfe Hpe].
  eexists _, T3. split; [done|]. split; cbn [hhdm_offset pml4 m_pmm set_mem]; try apply G; [by eapply leaf_inv| | |done| |].
  - intros v. rewrite (leaf_translate s3 T3 root t3 t2 t1 virt e), Hfe; auto.
    + case_decide; [done|]. by apply (gr_tr _ _ _ _ G v root []).
    + by apply (gr_nohuge _ _ _ _ G).
  - intros v Hv t i Ht Hi. cbn [m_mem set_mem].
    rewrite (leaf_other s3 T3 t2 t1 virt e Hinv3 HT1 L2 t _ i Ht ltac:(rewrite Hi; apply idx_range)).
    + by apply (gr_nohuge _ _ _ _ G v Hv).
    + intros [= -> ->]. congruence.
  - intros Hlow. apply (touches_trans 3 0 _ _ s3 T3); [by apply Htch|]. by apply (leaf_touches s3 T3 t1).
  - intros Hex. eapply leaf_exact; try done. by apply (gr_exact _ _ _ _ G).
Qed.

(** C1. Mapping a page takes effect on that page and on no other: with three
    free frames at hand, [vmm_map_page] succeeds, keeps the tables well formed,
    and afterwards [vmm_get_phys] returns the new frame with the page offset
    for every address of the page, and what it returned before for every other
    address. *)
Theorem vmm_map_page_get_phys s T root virt phys flg :
  inv s T -> T !! root = Some [] -> nfree_ge 3 (m_pmm s) -> nohuge (m_mem s) T virt ->
  PML4_IDX virt < 256 \/ pml4 s = 0 \/ pml4 s = u64 (hhdm_offset s + root) ->
  0 <= phys < 2 ^ 64 - 4096 -> 0 <= flg < 4096 ->
  exists s' T', vmm_map_page (u64 (hhdm_offset s + root)) virt phys flg s = Done s' tt /\
    inv s' T' /\ T' !! root = Some [] /\
    forall v, exists r,
      vmm_get_phys (u64 (hhdm_offset s + root)) v s = Done s r /\
      vmm_get_phys (u64 (hhdm_offset s + root)) v s' =
        Done s' (if decide (vpath v = vpath virt) then Z.lor (frame phys) (Z.land v 0xFFF) else r).
Proof.
  intros Hinv Hr Hfree Hnh Htop Hphys Hflg.
  destruct (vmm_map_page_ok 0 s T root virt phys flg Hinv Hr Hfree Hnh Htop Hphys Hflg) as (s' & T' & E & [Hi Hs Hh _ Htr _ _ _ _]).
  assert (T' !! root = Some []) as HT' by (eapply lookup_weaken; [exact Hr|done]).
  exists s', T'. split_and!; [done..|]. intros v. exists (translate s root v).
  split; [by eapply vmm_get_phys_ok|]. rewrite <- Hh. etrans; [by apply (vmm_get_phys_ok _ T' root v)|]. by rewrite Htr.
Qed.

(** ** User mappings at an address of the kernel's choice *)

Lemma map_anyphys_result n : forall i pml4v v x s s' a,
  map_anyphys n i pml4v v x s = Done s' a -> a = 0 \/ a = v.
Proof.
  induction n as [|n IH]; intros i pml4v v x s s' a; cbn [map_anyphys].
  { intros [= _ <-]. by right. }
  intros (s1 & q & _ & E)%bind_inv. destruct (q =? 0); [injection E as _ <-; by left|].
  apply bind_inv in E as (s2 & ? & _ & E). eauto.
Qed.

Lemma map_body_result pml4v v pst n flg s s' a :
  map_body pml4v v pst n flg s = Done s' a -> a = 0 \/ a = v.
Proof.
  assert (forall p q s1, map_run pml4v v p n q s1 = Done s' a -> a = v) as Hrun.
  { unfold map_run. intros p q s1 (s2 & ? & _ & [= _ <-])%bind_inv. done. }
  unfold map_body. repeat split_if; [| |eauto].
  - intros (s1 & b & _ & E')%bind_inv. destruct (b =? 0); [injection E' as _ <-; auto|eauto].
  - apply map_anyphys_result.
Qed.

(** Passing [flg & MAP_USRMAP] as an [int] loses the flag. *)
Lemma usrmap_truncated flg : s32 (Z.land flg MAP_USRMAP) = 0.
Proof.
  unfold sext. assert (Z.land flg MAP_USRMAP mod 2 ^ 32 = 0) as ->; [|done].
  apply Z.bits_inj_0. intros k. destruct (Z.lt_ge_cases k 0); [by apply Z.testbit_neg_r|].
  destruct (Z.lt_ge_cases k 32); [|by apply Z.mod_pow2_bits_high; lia].
  rewrite Z.mod_pow2_bits_low, Z.land_spec by lia. unfold MAP_USRMAP.
  rewrite Z.pow2_bits_false, andb_false_r by lia. done.
Qed.

(** A user mapping placed by the kernel ([MAP_ANYVIRT]) lands in the kernel
    heap range, never in the process' own map, whether or not [MAP_USRMAP] asks
    for the latter: the flag is bit 63 and is lost in the conversion to the
    [int] parameter of [vmm_ffreer]. *)
Theorem user_mmap_anyvirt_in_kernel_heap s s' rs uasp reqaddr phys npages flags a :
  regions_rep (vmmr_nodes s) (vmmr_head s) rs -> 0 < npages ->
  Z.land (Z.lor (Z.lor flags MAP_ANYPHYS) PAGE_USER) MAP_ANYVIRT <> 0 ->
  user_mmap uasp reqaddr phys npages flags s = Done s' a ->
  a = 0 \/ HEAP_START <= a.
Proof.
  intros Hrep Hn Hany. unfold user_mmap.
  rewrite (proj2 (Z.eqb_neq npages 0)) by lia.
  destruct (USER_END <=? reqaddr); [intros [= _ <-]; by left|].
  unfold vmm_map_pages. rewrite (proj2 (Z.eqb_neq _ 0) Hany). cbn [negb].
  intros (s1 & v & E & Eb)%bind_inv.
  destruct (v =? 0); [injection Eb as _ <-; by left|].
  apply map_body_result in Eb as [->| ->]; [by left|].
  unfold ffreer in E. destruct (cur_range s) as [r|]; [|done].
  rewrite usrmap_truncated, Z.eqb_refl in E. cbn [negb] in E.
  destruct (vmm_ffreer_bounds _ _ _ npages r Hrep Hn) as (n' & b & Ef & Hb).
  rewrite Ef in E. injection E as _ <-. lia.
Qed.

(** ** Concrete instances *)

(** Sixteen frames, the root table in frame 1, memory otherwise zero. *)
Definition pm0 : Pmm.pmm_state := Pmm.mk_pmm 65536 0 16 0 4096 [3; 0] 2.
Definition mm0 : mm :=
  mk_mm pm0 ∅ 65536 HHDM_START 0 (HHDM_START + 4096) 4096 [] None [] 0.
Definition T0 : gmap Z (list Z) := {[ 4096 := [] ]}.

Lemma T0_Some t p : T0 !! t = Some p -> t = 4096 /\ p = [].
Proof. unfold T0. by intros [<- <-]%lookup_singleton_Some. Qed.

Lemma mm0_inv : inv mm0 T0.
Proof.
  split_and!.
  - split_and!; try done. unfold Pmm.pmm_wf, Pmm.bytes_ok. simpl.
    split_and!; try done. repeat constructor; lia.
  - split.
    + intros t p [-> ->]%T0_Some. simpl. split_and!; try done. lia.
    + intros t p i _ _ _ Hp _. unfold word in Hp. simpl in Hp. by rewrite lookup_empty in Hp.
  - by intros t p [-> ->]%T0_Some.
Qed.

Lemma pm0_free : nfree_ge 3 pm0.
Proof.
  exists [2; 3; 4]. split_and!; [|done|].
  - apply (bool_decide_unpack (NoDup [2; 3; 4])). by vm_compute.
  - intros f. rewrite !elem_of_cons. intros [->|[->|[->|H%elem_of_nil]]]; [..|done]; by split.
Qed.

Lemma vmm_map_page_get_phys_witness :
  inv mm0 T0 /\ exists s', vmm_map_page (HHDM_START + 4096) 0x10000000 0x9000 6 mm0 = Done s' tt /\
    vmm_get_phys (HHDM_START + 4096) 0x10000123 s' = Done s' 0x9123 /\
    vmm_get_phys (HHDM_START + 4096) 0x10001123 s' = Done s' 0.
Proof.
  split; [exact mm0_inv|].
  destruct (vmm_map_page_get_phys mm0 T0 4096 0x10000000 0x9000 6) as (s' & T' & E & _ & _ & Hv).
  - exact mm0_inv.
  - reflexivity.
  - exact pm0_free.
  - intros t i [_ [=]]%T0_Some.
  - right. right. reflexivity.
  - lia.
  - lia.
  - exists s'. split; [exact E|]. split.
    + destruct (Hv 0x10000123) as (r & _ & H). exact H.
    + destruct (Hv 0x10001123) as (r & Hr & H). vm_compute in Hr. injection Hr as <-. exact H.
Defined.

(** The same machine with an initialised region list and process 1 running. *)
Definition mm1 : mm :=
  mk_mm pm0 ∅ 65536 HHDM_START 0 (HHDM_START + 4096) 4096
    (regions_init pool0).1 (regions_init pool0).2
    [no_range; mk_range 0x10000000 0x10000000 (USER_END - 65536) 1000] 1.

Lemma user_mmap_anyvirt_in_kernel_heap_witness :
  result_of (user_mmap (HHDM_START + 4096) 0 0 1 (MAP_ANYVIRT + MAP_USRMAP) mm1) = Some HEAP_START /\
  forall s' a, user_mmap (HHDM_START + 4096) 0 0 1 (MAP_ANYVIRT + MAP_USRMAP) mm1 = Done s' a ->
    a = 0 \/ HEAP_START <= a.
Proof.
  split; [vm_compute; reflexivity|]. intros s' a H.
  apply (user_mmap_anyvirt_in_kernel_heap mm1 s' [(HEAP_START, heap_pages, true)] (HHDM_START + 4096)
    0 0 1 (MAP_ANYVIRT + MAP_USRMAP)); [exact regions_init_rep|lia| |exact H].
  intros E. vm_compute in E. discriminate.
Defined.

(** [mm1] with one user page mapped at [0x10000000]. *)
Definition mm2 : mm :=
  match vmm_map_page (HHDM_START + 4096) 0x10000000 0x9000 (PAGE_WRITE + PAGE_USER) mm1 with
  | Done s _ => s
  | Fault => mm1
  end.

(** [ensure_pointer] does not check the last page of a buffer that starts
    inside a page: two bytes at the end of a mapped page are accepted although
    the second byte's page is not mapped. *)
Theorem ensure_pointer_misses_last_page :
  result_of (ensure_pointer 0x10000FFF 2 true mm2) = Some true /\
  result_of (vmm_get_phys (HHDM_START + 4096) 0x10001000 mm2) = Some 0 /\
  result_of (ensure_pointer 0x10001000 1 true mm2) = Some false.
Proof. split_and!; vm_compute; reflexivity. Qed.

(** [ensure_pointer] accepts a supervisor-only page: a page mapped without
    [PAGE_USER] in the kernel half passes the check of a user pointer. *)
Theorem ensure_pointer_accepts_kernel_page :
  result_of ((_ ← vmm_map_page (HHDM_START + 4096) HEAP_START 0x9000 PAGE_WRITE;
              ensure_pointer HEAP_START 8 true) mm1) = Some true.
Proof. vm_compute; reflexivity. Qed.

End PageTable.
