(* ===== verification/PageRange.v ===== *)
(** Ranges of pages: [vmm_map_pages] on user addresses, with the frames given or
    taken from the frame allocator. *)
From S2P Require Import Prelude Pmm Region PageTable.

Module PageRange.
Import PageTable.

(** ** Addresses and their index paths *)

Lemma idx_eq v k : 0 <= k -> Z.land (Z.shiftr v k) 0x1FF = (v / 2 ^ k) mod 512.
Proof. intros Hk. change 0x1FF with (Z.ones 9). by rewrite Z.land_ones, Z.shiftr_div_pow2. Qed.

(** Below the end of the 48-bit addresses a page has one path. *)
Lemma vpath_page u v : 0 <= u < 2 ^ 48 -> 0 <= v < 2 ^ 48 -> vpath u = vpath v <-> u / 4096 = v / 4096.
Proof.
  intros Hu Hv. unfold vpath, PML4_IDX, PDPT_IDX, PD_IDX, PT_IDX. rewrite !idx_eq by lia.
  assert (forall x k, 0 <= k -> x / 2 ^ (12 + k) = x / 4096 / 2 ^ k) as Hd.
  { intros x k Hk. rewrite Z.pow_add_r, Z.div_div by lia. done. }
  change (2 ^ 39) with (2 ^ (12 + 27)). change (2 ^ 30) with (2 ^ (12 + 18)). change (2 ^ 21) with (2 ^ (12 + 9)).
  rewrite !Hd by lia. change (2 ^ 12) with 4096.
  assert (0 <= u / 4096 < 2 ^ 36 /\ 0 <= v / 4096 < 2 ^ 36) as [Ru Rv].
  { split; (split; [apply Z.div_pos; lia|apply Z.div_lt_upper_bound; lia]). }
  generalize (u / 4096) (v / 4096) Ru Rv. clear. intros p q Hp Hq. split; [|by intros ->]. intros [= E1 E2 E3 E4].
  change (2 ^ 27) with 134217728 in *. change (2 ^ 18) with 262144 in *. change (2 ^ 9) with 512 in *. Z.to_euclidean_division_equations. lia.
Qed.

Lemma page_offset pst d : pst mod 4096 = 0 -> 0 <= d -> 0 <= pst < 2 ^ 64 -> Z.lor (frame pst) (Z.land d 0xFFF) = pst + d mod 4096.
Proof.
  intros Hp Hd Hr. rewrite frame_eq by done. change 0xFFF with (Z.ones 12). rewrite Z.land_ones by lia. change (2 ^ 12) with 4096.
  pose proof (Z.mod_pos_bound d 4096 ltac:(lia)). pose proof (Z.div_mod pst 4096 ltac:(lia)).
  rewrite lor_low_add; [lia|lia| |lia]. rewrite Z.mul_comm. by apply Z_mod_mult.
Qed.

(** ** A run of pages *)

(** What mapping [n] pages from [vst] on the frames from [pst] on does. *)
Record maps_run (k n : nat) (s : mm) (T : gmap Z (list Z)) (root vst pst : Z) (s' : mm) (T' : gmap Z (list Z)) : Prop := {
  mr_inv : inv s' T';
  mr_sub : T ⊆ T';
  mr_hhdm : hhdm_offset s' = hhdm_offset s;
  mr_pml4 : pml4 s' = pml4 s;
  mr_tr : forall v, 0 <= v < 2 ^ 48 ->
    translate s' root v = if decide (vst <= v < vst + Z.of_nat n * 4096) then pst + (v - vst) else translate s root v;
  mr_nohuge : forall v, nohuge (m_mem s) T v -> nohuge (m_mem s') T' v;
  mr_free : nfree_ge k (m_pmm s');
  mr_touch : touches (3 * n) s T s' T';
  mr_exact : exact s T root -> exact s' T' root
}.

Definition aligned (a : Z) : Prop := a mod 4096 = 0.

Lemma user_idx v : 0 <= v < 2 ^ 47 -> PML4_IDX v < 256.
Proof.
  intros Hv. unfold PML4_IDX. rewrite idx_eq by lia. assert (v / 2 ^ 39 < 256) by (apply Z.div_lt_upper_bound; lia).
  assert (0 <= v / 2 ^ 39) by (apply Z.div_pos; lia). rewrite Z.mod_small; lia.
Qed.

Lemma run_loop k flg root vst pst : 0 <= flg < 4096 -> aligned vst -> aligned pst -> 0 <= vst -> 0 <= pst ->
  forall n i s T, inv s T -> T !! root = Some [] -> nfree_ge (3 * n + k) (m_pmm s) -> 0 <= i ->
  vst + (i + Z.of_nat n) * 4096 <= 2 ^ 47 -> pst + (i + Z.of_nat n) * 4096 < 2 ^ 64 - 4096 ->
  (forall v, vst + i * 4096 <= v < vst + (i + Z.of_nat n) * 4096 -> nohuge (m_mem s) T v) ->
  exists s' T', for_loop n i (fun i => vmm_map_page (u64 (hhdm_offset s + root)) (u64 (vst + i * 4096)) (u64 (pst + i * 4096)) flg) s = Done s' tt /\
    maps_run k n s T root (vst + i * 4096) (pst + i * 4096) s' T'.
Proof.
  intros Hflg Hav Hap Hv0 Hp0. induction n as [|n IH]; intros i s T Hinv Hr Hfree Hi Hv Hp Hnh; cbn [for_loop].
  { exists s, T. split; [done|]. split; try done; [|apply touches_refl]. intros v Hv'. by rewrite decide_False by lia. }
  rewrite (wrap_small 64 (vst + i * 4096)), (wrap_small 64 (pst + i * 4096)) by lia.
  destruct (vmm_map_page_ok (3 * n + k) s T root (vst + i * 4096) (pst + i * 4096) flg) as (s1 & T1 & E1 & [Hi1 Hs1 Hh1 Hp1 Ht1 Hn1 Hf1 Hu1 He1]); try done; try lia.
  { replace (3 + (3 * n + k))%nat with (3 * S n + k)%nat by lia. done. }
  { apply Hnh. lia. }
  { left. apply user_idx. lia. }
  rewrite (bind_done _ _ _ _ _ E1).
  destruct (IH (i + 1) s1 T1) as (s2 & T2 & E2 & [Hi2 Hs2 Hh2 Hp2 Ht2 Hn2 Hf2 Hu2 He2]); try done; try lia.
  { by eapply lookup_weaken. }
  { intros v Hv'. apply Hn1, Hnh. lia. }
  rewrite Hh1 in E2. exists s2, T2. split; [exact E2|]. split; try done; [by etrans|congruence|congruence| |auto| |auto].
  2: { replace (3 * S n)%nat with (3 + 3 * n)%nat by lia. eapply touches_trans; [apply Hu1, user_idx; lia|done]. }
  intros v Hv'. rewrite Ht2, Ht1 by done. unfold aligned in *.
  assert (vpath v = vpath (vst + i * 4096) <-> vst + i * 4096 <= v < vst + i * 4096 + 4096) as Hpath.
  { rewrite vpath_page by lia. Z.to_euclidean_division_equations. lia. }
  destruct (decide (vst + (i + 1) * 4096 <= v < _)); [rewrite decide_True by lia; lia|].
  destruct (decide (vpath v = _)) as [E%Hpath|Hn]; [|rewrite decide_False by (rewrite Hpath in Hn; lia); done].
  rewrite decide_True by lia. rewrite page_offset by (try lia; rewrite Z_mod_plus_full; done). Z.to_euclidean_division_equations. lia.
Qed.

(** ** Frames for a run *)

Lemma nfree_ge_run n k st st' f : nfree_ge (n + k) st -> Pmm.alloc_at st (Z.of_nat n) f st' -> nfree_ge k st'.
Proof.
  intros (l & Hnd & Hlen & Hl) (_ & Hu & Heq). assert (Pmm.nframes st' = Pmm.nframes st) as Hnf by (rewrite Heq; done).
  set (P := fun g => f <= g < f + Z.of_nat n). pose proof (Permutation_length (filter_app_complement P l)) as Hp. rewrite length_app in Hp.
  assert (Z.of_nat (length (filter P l)) <= Z.of_nat n) as Hin.
  { assert (Z.of_nat (length (filter P l)) <= Z.max 0 (Z.of_nat n)); [|lia]. apply (nodup_range_length f); [by apply NoDup_filter|].
    apply Forall_forall. intros g Hg. by apply list_elem_of_filter in Hg as [Hg _]. }
  set (r := filter (fun g => ~ P g) l) in *. exists (take k r). split_and!.
  - eapply sublist_NoDup; [by apply (NoDup_filter (fun g => ~ P g) l)|apply sublist_take].
  - rewrite length_take. lia.
  - intros g Hg. assert (g ∈ r) as Hg' by (eapply elem_of_submseteq; [exact Hg|apply sublist_submseteq, sublist_take]).
    apply list_elem_of_filter in Hg' as [Hg1 Hg2]. destruct (Hl g Hg2) as [Hr Hf]. rewrite Hnf, Hu, Hf. split; [done|].
    unfold Pmm.in_run. by rewrite bool_decide_false.
Qed.

Lemma nfree_bound n st : nfree_ge n st -> Z.of_nat n <= Z.max 0 (Pmm.nframes st).
Proof. intros (l & Hnd & <- & Hl). apply (nodup_range_length 0); [done|]. apply Forall_forall. intros g Hg. apply (Hl g Hg). Qed.

(** Frames that were free, all in memory. *)
Lemma falloc_run s n : mm_wf s -> (0 < n)%nat -> Z.of_nat n < 2 ^ 31 ->
  exists pm a, falloc (Z.of_nat n) s = Done (set_pmm pm s) a /\
    (a = 0 /\ pm = m_pmm s /\ (forall g, 0 <= g -> ~ Pmm.free_run (m_pmm s) g (Z.of_nat n)) \/
     exists f, 0 < f /\ a = f * 4096 /\ Pmm.first_fit (m_pmm s) (Z.of_nat n) f pm /\ mm_wf (set_pmm pm s) /\ a + Z.of_nat n * 4096 <= m_size s).
Proof.
  intros (Hp & H0 & Hs & Hh) Hn Hn'. destruct (Pmm.pmm_falloc_spec (m_pmm s) (Z.of_nat n) Hp ltac:(lia)) as (pm & a & E & Hp' & Hres).
  exists pm, a. unfold falloc. rewrite E. split; [done|]. destruct Hres as [(f & Hf & -> & Hat & Hlow)|(-> & -> & Hno)]; [right|by left].
  pose proof Hat as ((? & ? & Hfr) & Hu & Heq). assert (f <> 0) by (intros ->; rewrite Hfr in H0 by lia; done).
  exists f. split_and!; [lia|done|done| |lia]. split_and!; cbn; [done| | |lia..].
  - rewrite Hu, H0. apply orb_true_r.
  - rewrite Heq. done.
Qed.

Lemma inv_alloc s T n f pm : inv s T -> Pmm.alloc_at (m_pmm s) n f pm -> mm_wf (set_pmm pm s) -> inv (set_pmm pm s) T.
Proof.
  intros (_ & Ht & Hown) (_ & Hu & _) Hwf. split_and!; [done|done|]. intros t p Hp. cbn. rewrite Hu, (Hown t p Hp). apply orb_true_r.
Qed.

(** ** Frame by frame *)

(** What mapping the pages from [vst] on the frames [frs], one by one, does: the
    frames are distinct, were free and are in use. *)
Record maps_frames (s : mm) (T : gmap Z (list Z)) (root vst : Z) (frs : list Z) (s' : mm) (T' : gmap Z (list Z)) : Prop := {
  mf_inv : inv s' T';
  mf_sub : T ⊆ T';
  mf_hhdm : hhdm_offset s' = hhdm_offset s;
  mf_tr : forall v, 0 <= v < 2 ^ 48 -> translate s' root v =
    if decide (vst <= v < vst + Z.of_nat (length frs) * 4096)
    then (frs !!! Z.to_nat ((v - vst) / 4096)) * 4096 + v mod 4096 else translate s root v;
  mf_nodup : NoDup frs;
  mf_free : Forall (fun g => 0 < g /\ Pmm.used (m_pmm s) g = false /\ Pmm.used (m_pmm s') g = true) frs;
  mf_used : forall g, Pmm.used (m_pmm s) g = true -> Pmm.used (m_pmm s') g = true
}.

Lemma maps_frames_cons s T root vst pm g s1 T1 frs s' T' :
  aligned vst -> 0 <= vst -> vst + 4096 <= 2 ^ 47 -> 0 < g -> g * 4096 < 2 ^ 64 -> Pmm.first_fit (m_pmm s) 1 g pm ->
  maps_page 0 (set_pmm pm s) T root vst (g * 4096) s1 T1 -> maps_frames s1 T1 root (vst + 4096) frs s' T' ->
  maps_frames s T root vst (g :: frs) s' T'.
Proof.
  intros Hav Hv0 Hv1 Hg Hgs [((_ & _ & Hgf) & Hpu & _) _] [Hi1 Hs1 Hh1 _ Ht1 _ _ Hto _] [Hi2 Hs2 Hh2 Ht2 Hnd Hfr Hu2].
  assert (forall x, Pmm.used pm x = true -> Pmm.used (m_pmm s1) x = true) as Hu1.
  { intros x. destruct (Hto (user_idx vst ltac:(lia))) as [_ _ (m & _ & Hm) _]. by eapply Pmm.takes_used. }
  assert (forall x, Pmm.used (m_pmm s) x = true -> Pmm.used (m_pmm s1) x = true) as Hu01.
  { intros x Hx. apply Hu1. rewrite Hpu, Hx. apply orb_true_r. }
  assert (Pmm.used (m_pmm s1) g = true) as Hg1.
  { apply Hu1. rewrite Hpu. unfold Pmm.in_run. by rewrite bool_decide_true by lia. }
  split; [done|by etrans|by rewrite Hh2, Hh1| | | |auto].
  - intros v Hv. rewrite Ht2, Ht1 by done. cbn [length]. unfold aligned in Hav. change (translate (set_pmm pm s) root v) with (translate s root v).
    assert (vpath v = vpath vst <-> vst <= v < vst + 4096) as Hpath.
    { rewrite vpath_page by lia. Z.to_euclidean_division_equations. lia. }
    destruct (decide (vst + 4096 <= v < _)).
    { rewrite decide_True by lia. replace (v - vst) with (v - (vst + 4096) + 1 * 4096) by lia. rewrite Z.div_add by lia.
      assert (0 <= (v - (vst + 4096)) / 4096) by (apply Z.div_pos; lia). by rewrite Z2Nat.inj_add, Nat.add_comm by lia. }
    destruct (decide (vpath v = _)) as [E%Hpath|Hn]; [|rewrite decide_False by (rewrite Hpath in Hn; lia); done].
    rewrite decide_True by lia. rewrite (Z.div_small (v - vst)) by lia. change ((g :: frs) !!! Z.to_nat 0) with g. apply page_offset; [by apply Z_mod_mult|lia|lia].
  - constructor; [|done]. intros Hin. rewrite Forall_forall in Hfr. destruct (Hfr g Hin) as (_ & Hf & _). congruence.
  - constructor; [split_and!; [done|apply Hgf; lia|auto]|]. eapply Forall_impl; [exact Hfr|]. cbn. intros x (? & Hx & ?). split_and!; [done| |done].
    destruct (Pmm.used (m_pmm s) x) eqn:E; [|done]. apply Hu01 in E. congruence.
Qed.

Lemma maps_page_weak k s T root v ph s' T' : maps_page k s T root v ph s' T' -> maps_page 0 s T root v ph s' T'.
Proof. intros [? ? ? ? ? ? (l & Hnd & Hlen & Hl) ? ?]. split; try done. exists []. split_and!; [constructor|done|]. by intros f ?%elem_of_nil. Qed.

(** With a frame and three tables for each page at hand the loop maps them all. *)
Lemma anyphys_loop flg root vst : 0 <= flg < 4096 -> aligned vst -> 0 <= vst ->
  forall n i s T, inv s T -> T !! root = Some [] -> nfree_ge (4 * n) (m_pmm s) -> 0 <= i ->
  vst + (i + Z.of_nat n) * 4096 <= 2 ^ 47 ->
  (forall v, vst + i * 4096 <= v < vst + (i + Z.of_nat n) * 4096 -> nohuge (m_mem s) T v) ->
  exists s' T' frs, map_anyphys n i (u64 (hhdm_offset s + root)) vst flg s = Done s' vst /\ length frs = n /\
    maps_frames s T root (vst + i * 4096) frs s' T'.
Proof.
  intros Hflg Hav Hv0. induction n as [|n IH]; intros i s T Hinv Hr Hfree Hi Hv Hnh; cbn [map_anyphys].
  { exists s, T, []. split_and!; [done|done|]. split; try done; [|by constructor]. intros v Hv'. by rewrite decide_False by (cbn; lia). }
  destruct (falloc_ok s (3 + 4 * n) ltac:(apply Hinv)) as (pm & g & E & Hg & Hat & Hwf & Hn).
  { by replace (S (3 + 4 * n))%nat with (4 * S n)%nat by lia. }
  rewrite (bind_done _ _ _ _ _ E), (proj2 (Z.eqb_neq (g * 4096) 0)) by lia.
  pose proof (inv_alloc s T _ _ _ Hinv (proj1 Hat) Hwf) as Hinv1. pose proof (size_bound s ltac:(apply Hinv)) as Hsz.
  assert (g * 4096 + 4096 <= m_size s) as Hgs.
  { destruct Hinv as ((_ & _ & ? & _) & _), Hat as (((_ & ? & _) & _) & _). lia. }
  rewrite (wrap_small 64 (vst + i * 4096)) by lia.
  destruct (vmm_map_page_ok (4 * n) (set_pmm pm s) T root (vst + i * 4096) (g * 4096) flg) as (s1 & T1 & E1 & Hm); try done; try lia.
  { apply Hnh. lia. }
  { left. apply user_idx. lia. }
  change (hhdm_offset (set_pmm pm s)) with (hhdm_offset s) in E1. rewrite (bind_done _ _ _ _ _ E1). pose proof Hm as [Hi1 Hs1 Hh1 _ _ Hn1 Hf1 _ _].
  destruct (IH (i + 1) s1 T1) as (s2 & T2 & frs & E2 & Hlen & H2); try done; try lia.
  { by eapply lookup_weaken. }
  { intros v Hv'. apply Hn1, Hnh. lia. }
  change (hhdm_offset (set_pmm pm s)) with (hhdm_offset s) in Hh1. rewrite Hh1 in E2.
  exists s2, T2, (g :: frs). split_and!; [exact E2|cbn; lia|].
  replace (vst + (i + 1) * 4096) with (vst + i * 4096 + 4096) in H2 by lia.
  eapply maps_frames_cons; [|lia|lia|exact Hg|lia|exact Hat|by eapply maps_page_weak|exact H2].
  unfold aligned in *. by rewrite Z_mod_plus_full.
Qed.

(** ** [vmm_map_pages] on user addresses *)

Lemma flag_bit hi f k : 0 <= f < 4096 -> 12 <= k -> Z.land (2 ^ 12 * hi + f) (2 ^ k) = 0 <-> Z.testbit hi (k - 12) = false.
Proof.
  intros Hf Hk. pose proof (land_pow2_eqb (2 ^ 12 * hi + f) k ltac:(lia)) as E.
  assert (Z.testbit (2 ^ 12 * hi + f) k = Z.testbit hi (k - 12)) as Ht.
  { replace k with (k - 12 + 12) at 1 by lia. rewrite <- Z.shiftr_spec, Z.shiftr_div_pow2 by lia. rewrite Z.mul_comm, Z.div_add_l, (Z.div_small f), Z.add_0_r by lia. done. }
  rewrite Ht in E. rewrite <- Z.eqb_eq, E. by destruct (Z.testbit hi (k - 12)).
Qed.

Lemma x86_flags hi f : 0 <= f < 4096 -> hi mod 2 ^ 48 = 0 -> Z.land (2 ^ 12 * hi + f) (2 ^ 60 - 1) = f.
Proof.
  intros Hf Hh. change (2 ^ 60 - 1) with (Z.ones 60). rewrite Z.land_ones by lia. change (2 ^ 60) with (2 ^ 12 * 2 ^ 48).
  apply Z.mod_divide in Hh as (q & ->); [|lia]. replace (2 ^ 12 * (q * 2 ^ 48) + f) with (f + q * (2 ^ 12 * 2 ^ 48)) by ring.
  rewrite Z_mod_plus_full. apply Z.mod_small. lia.
Qed.

(** The pages of a range of user addresses. *)
Definition user_range (vst : Z) (n : nat) : Prop := aligned vst /\ 0 <= vst /\ vst + Z.of_nat n * 4096 <= 2 ^ 47.

Lemma map_run_ok k s T root vst pst n f :
  inv s T -> T !! root = Some [] -> nfree_ge (3 * n + k) (m_pmm s) -> user_range vst n ->
  (forall v, vst <= v < vst + Z.of_nat n * 4096 -> nohuge (m_mem s) T v) ->
  aligned pst -> 0 <= pst -> pst + Z.of_nat n * 4096 < 2 ^ 64 - 4096 -> 0 <= f < 4096 ->
  exists s' T', map_run (u64 (hhdm_offset s + root)) vst pst (Z.of_nat n) f s = Done s' vst /\ maps_run k n s T root vst pst s' T'.
Proof.
  intros Hinv Hr Hfree (Hav & Hv0 & Hv1) Hnh Hap Hp0 Hp1 Hf.
  destruct (run_loop k f root vst pst Hf Hav Hap Hv0 Hp0 n 0 s T) as (s' & T' & E & H); try done; try lia.
  { intros v Hv. apply Hnh. lia. }
  rewrite !Z.mul_0_l, !Z.add_0_r in H. exists s', T'. split; [|done]. unfold map_run. rewrite Nat2Z.id. by rewrite (bind_done _ _ _ _ _ E).
Qed.

(** The flags of a call: bits 60 to 63 select, the low twelve go to the entries. *)
Lemma flag_eqb hi f k : 0 <= f < 4096 -> 12 <= k -> (Z.land (2 ^ 12 * hi + f) (2 ^ k) =? 0) = negb (Z.testbit hi (k - 12)).
Proof.
  intros Hf Hk. pose proof (flag_bit hi f k Hf Hk) as Hb.
  destruct (Z.testbit hi (k - 12)); [apply Z.eqb_neq; rewrite Hb; done|apply Z.eqb_eq, Hb; done].
Qed.

Section pages.
Context (k : nat) (s : mm) (T : gmap Z (list Z)) (root vst : Z) (n : nat) (f : Z).
Context (Hinv : inv s T) (Hr : T !! root = Some []) (Hur : user_range vst n) (Hf : 0 <= f < 4096).
Context (Hnh : forall v, vst <= v < vst + Z.of_nat n * 4096 -> nohuge (m_mem s) T v).

(** On given frames. *)
Lemma map_pages_given pst :
  nfree_ge (3 * n + k) (m_pmm s) -> aligned pst -> 0 <= pst -> pst + Z.of_nat n * 4096 < 2 ^ 64 - 4096 ->
  exists s' T', vmm_map_pages (u64 (hhdm_offset s + root)) vst pst (Z.of_nat n) (MAP_CONT + f) s = Done s' vst /\ maps_run k n s T root vst pst s' T'.
Proof.
  intros Hfree Hap Hp0 Hp1. unfold vmm_map_pages, map_body. replace (MAP_CONT + f) with (2 ^ 12 * 2 ^ 49 + f) by (unfold MAP_CONT; lia).
  unfold MAP_ANYVIRT, MAP_USRMAP, MAP_ANYPHYS, MAP_CONT. rewrite !flag_eqb, x86_flags by (lia || done).
  change (Z.testbit (2 ^ 49) (62 - 12)) with false. change (Z.testbit (2 ^ 49) (63 - 12)) with false. change (Z.testbit (2 ^ 49) (60 - 12)) with false. cbn [negb].
  by apply map_run_ok.
Qed.

(** [MAP_CONT] means nothing for given frames. *)
Lemma map_pages_cont pst :
  vmm_map_pages (u64 (hhdm_offset s + root)) vst pst (Z.of_nat n) f s = vmm_map_pages (u64 (hhdm_offset s + root)) vst pst (Z.of_nat n) (MAP_CONT + f) s.
Proof using Hf.
  assert (forall hi, hi = 0 \/ hi = 2 ^ 49 -> vmm_map_pages (u64 (hhdm_offset s + root)) vst pst (Z.of_nat n) (2 ^ 12 * hi + f) s =
    map_run (u64 (hhdm_offset s + root)) vst pst (Z.of_nat n) f s) as H.
  { intros hi Hhi. unfold vmm_map_pages, map_body, MAP_ANYVIRT, MAP_USRMAP, MAP_ANYPHYS, MAP_CONT.
    rewrite !flag_eqb, x86_flags by (lia || destruct Hhi as [-> | ->]; done). destruct Hhi as [-> | ->]; reflexivity. }
  rewrite <- (Z.add_0_l f) at 1. etransitivity; [exact (H 0 ltac:(by left))|].
  replace (MAP_CONT + f) with (2 ^ 12 * 2 ^ 49 + f) by (unfold MAP_CONT; lia). symmetry. apply H. by right.
Qed.

(** On frames taken one by one. *)
Lemma map_pages_anyphys pst : nfree_ge (4 * n) (m_pmm s) ->
  exists s' T' frs, vmm_map_pages (u64 (hhdm_offset s + root)) vst pst (Z.of_nat n) (MAP_ANYPHYS + f) s = Done s' vst /\ length frs = n /\
    maps_frames s T root vst frs s' T'.
Proof.
  intros Hfree. unfold vmm_map_pages, map_body. replace (MAP_ANYPHYS + f) with (2 ^ 12 * 2 ^ 48 + f) by (unfold MAP_ANYPHYS; lia).
  unfold MAP_ANYVIRT, MAP_USRMAP, MAP_ANYPHYS, MAP_CONT. rewrite !flag_eqb, x86_flags by (lia || done).
  change (Z.testbit (2 ^ 48) (62 - 12)) with false. change (Z.testbit (2 ^ 48) (63 - 12)) with false.
  change (Z.testbit (2 ^ 48) (60 - 12)) with true. change (Z.testbit (2 ^ 48) (61 - 12)) with false. cbn [negb]. rewrite Nat2Z.id.
  destruct Hur as (Hav & Hv0 & Hv1).
  destruct (anyphys_loop f root vst Hf Hav Hv0 n 0 s T) as (s' & T' & frs & E & Hlen & H); try done; try lia.
  { intros v Hv. apply Hnh. lia. }
  rewrite Z.mul_0_l, Z.add_0_r in H. by exists s', T', frs.
Qed.

(** On the lowest run of free frames, or not at all. *)
Lemma map_pages_fresh pst :
  nfree_ge (n + (3 * n + k)) (m_pmm s) -> (0 < n)%nat ->
  let call := vmm_map_pages (u64 (hhdm_offset s + root)) vst pst (Z.of_nat n) (MAP_ANYPHYS + MAP_CONT + f) s in
  (call = Done s 0 /\ forall g, 0 <= g -> ~ Pmm.free_run (m_pmm s) g (Z.of_nat n)) \/
  exists pm fr s' T', call = Done s' vst /\ 0 < fr /\ Pmm.first_fit (m_pmm s) (Z.of_nat n) fr pm /\ inv (set_pmm pm s) T /\
    fr * 4096 + Z.of_nat n * 4096 <= m_size s /\ maps_run k n (set_pmm pm s) T root vst (fr * 4096) s' T'.
Proof.
  intros Hfree Hn. cbv zeta. unfold vmm_map_pages, map_body.
  replace (MAP_ANYPHYS + MAP_CONT + f) with (2 ^ 12 * (2 ^ 48 + 2 ^ 49) + f) by (unfold MAP_ANYPHYS, MAP_CONT; lia).
  unfold MAP_ANYVIRT, MAP_USRMAP, MAP_ANYPHYS, MAP_CONT. rewrite !flag_eqb, x86_flags by (lia || done).
  change (Z.testbit (2 ^ 48 + 2 ^ 49) (62 - 12)) with false. change (Z.testbit (2 ^ 48 + 2 ^ 49) (63 - 12)) with false.
  change (Z.testbit (2 ^ 48 + 2 ^ 49) (60 - 12)) with true. change (Z.testbit (2 ^ 48 + 2 ^ 49) (61 - 12)) with true. cbn [negb].
  assert (Pmm.nframes (m_pmm s) <= 2 ^ 20) as Hnfr by (destruct Hinv as ((((_ & ?) & _) & _) & _); done). pose proof (nfree_bound _ _ Hfree).
  destruct (falloc_run s n ltac:(apply Hinv) Hn ltac:(lia)) as (pm & a & E & [(-> & -> & Hno)|(fr & Hfr & -> & Hat & Hwf & Hsz)]);
    rewrite (bind_done _ _ _ _ _ E); [left; split; [by destruct s|done]|right].
  rewrite (proj2 (Z.eqb_neq (fr * 4096) 0)) by lia. pose proof (inv_alloc s T _ _ _ Hinv (proj1 Hat) Hwf) as Hinv1.
  destruct (map_run_ok k (set_pmm pm s) T root vst (fr * 4096) n f) as (s' & T' & E' & H'); try done; [|by apply Z_mod_mult|lia| |].
  - eapply (nfree_ge_run n); [exact Hfree|apply Hat].
  - pose proof (size_bound s ltac:(apply Hinv)). destruct Hat as (((_ & Hb & _) & _) & _). destruct Hinv as ((Hp & _) & _). destruct Hp. lia.
  - exists pm, fr, s', T'. done.
Qed.

End pages.

(** C23. Mapping a range of user pages with the frames at hand that it can take, one and
    three for tables for each page, and no large pages in its way.  On given frames,
    with or without [MAP_CONT], every address of the range translates to its place in
    the frames.  On one run of fresh frames the same holds for a run that was free, and
    the call returns 0 without a change exactly when there is no such run.  On fresh
    frames taken one by one each page gets a frame of its own that was free.  Every
    other address translates as before. *)
Theorem vmm_map_pages_user s T root vst pst n f :
  inv s T -> T !! root = Some [] -> user_range vst n -> (0 < n)%nat -> nfree_ge (4 * n) (m_pmm s) ->
  (forall v, vst <= v < vst + Z.of_nat n * 4096 -> nohuge (m_mem s) T v) ->
  aligned pst -> 0 <= pst -> pst + Z.of_nat n * 4096 < 2 ^ 64 - 4096 -> 0 <= f < 4096 ->
  let asp := u64 (hhdm_offset s + root) in
  let mapped (to : Z -> Z) s' T' := inv s' T' /\ T' !! root = Some [] /\ forall v, 0 <= v < 2 ^ 48 -> exists r, vmm_get_phys asp v s = Done s r /\
    vmm_get_phys asp v s' = Done s' (if decide (vst <= v < vst + Z.of_nat n * 4096) then to v else r) in
  (forall c, c = 0 \/ c = MAP_CONT ->
   exists s' T', vmm_map_pages asp vst pst (Z.of_nat n) (c + f) s = Done s' vst /\ mapped (fun v => pst + (v - vst)) s' T') /\
  (let call := vmm_map_pages asp vst pst (Z.of_nat n) (MAP_ANYPHYS + MAP_CONT + f) s in
   (call = Done s 0 /\ forall g, 0 <= g -> ~ Pmm.free_run (m_pmm s) g (Z.of_nat n)) \/
   exists s' T' fr, call = Done s' vst /\ mapped (fun v => fr * 4096 + (v - vst)) s' T' /\
     Pmm.free_run (m_pmm s) fr (Z.of_nat n) /\ 0 < fr) /\
  (exists s' T' frs, vmm_map_pages asp vst pst (Z.of_nat n) (MAP_ANYPHYS + f) s = Done s' vst /\
     mapped (fun v => (frs !!! Z.to_nat ((v - vst) / 4096)) * 4096 + v mod 4096) s' T' /\
     length frs = n /\ NoDup frs /\
     Forall (fun g => 0 < g /\ Pmm.used (m_pmm s) g = false /\ Pmm.used (m_pmm s') g = true) frs).
Proof.
  intros Hinv Hr Hur Hn Hfree Hnh Hap Hp0 Hp1 Hf asp mapped.
  assert (forall s0 s1 T1 to, hhdm_offset s0 = hhdm_offset s -> m_mem s0 = m_mem s -> inv s1 T1 -> T ⊆ T1 -> hhdm_offset s1 = hhdm_offset s0 ->
    (forall v, 0 <= v < 2 ^ 48 -> translate s1 root v = if decide (vst <= v < vst + Z.of_nat n * 4096) then to v else translate s0 root v) -> mapped to s1 T1) as Hmap.
  { intros s0 s1 T1 to Eh Em Hi Hs Hh Htr. assert (T1 !! root = Some []) as HT by (by eapply lookup_weaken). split_and!; [done..|].
    intros v Hv. exists (translate s root v). split; [by apply (vmm_get_phys_ok s T root v)|]. unfold asp. rewrite <- Eh, <- Hh.
    rewrite (vmm_get_phys_ok s1 T1 root v Hi HT), Htr by done. unfold translate. by rewrite Em. }
  split; [|split].
  - intros c Hc. destruct (map_pages_given n s T root vst n f Hinv Hr Hur Hf Hnh pst) as (s' & T' & E & H); try done.
    { by replace (3 * n + n)%nat with (4 * n)%nat by lia. }
    exists s', T'. split; [destruct Hc as [-> | ->]; [|exact E]; rewrite Z.add_0_l; etransitivity; [by apply map_pages_cont|exact E]|]. eapply Hmap; [done|done|apply H..].
  - destruct (map_pages_fresh 0 s T root vst n f Hinv Hr Hur Hf Hnh pst) as [H|(pm & fr & s' & T' & E & Hfr & Hat & _ & _ & H)]; [|done|by left|right].
    { by replace (n + (3 * n + 0))%nat with (4 * n)%nat by lia. }
    exists s', T', fr. split; [exact E|]. split; [by eapply (Hmap (set_pmm pm s)); [done|done|apply H..]|]. split; [apply Hat|done].
  - destruct (map_pages_anyphys s T root vst n f Hinv Hr Hur Hf Hnh pst Hfree) as (s' & T' & frs & E & Hlen & H).
    exists s', T', frs. split; [exact E|]. split; [|split_and!; [done|apply H..]]. eapply Hmap; [done|done|apply H|apply H|apply H|]. rewrite <- Hlen. apply H.
Qed.

Lemma pm0_free8 : nfree_ge 8 pm0.
Proof.
  exists [2; 3; 4; 5; 6; 7; 8; 9]. split_and!; [|done|].
  - apply (bool_decide_unpack (NoDup [2; 3; 4; 5; 6; 7; 8; 9])). by vm_compute.
  - intros f. rewrite !elem_of_cons. intros H. repeat (destruct H as [->|H]; [by split|]). by apply elem_of_nil in H.
Qed.

Lemma vmm_map_pages_user_witness :
  inv mm0 T0 /\
  (exists s', vmm_map_pages (HHDM_START + 4096) 0x10000000 0x9000 2 (MAP_CONT + 6) mm0 = Done s' 0x10000000 /\
     vmm_get_phys (HHDM_START + 4096) 0x10001123 s' = Done s' 0xA123) /\
  (exists s' fr, vmm_map_pages (HHDM_START + 4096) 0x10000000 0x9000 2 (MAP_ANYPHYS + MAP_CONT + 6) mm0 = Done s' 0x10000000 /\
     vmm_get_phys (HHDM_START + 4096) 0x10001123 s' = Done s' (fr * 4096 + 0x1123)) /\
  (exists s' f0 f1, vmm_map_pages (HHDM_START + 4096) 0x10000000 0x9000 2 (MAP_ANYPHYS + 6) mm0 = Done s' 0x10000000 /\
     vmm_get_phys (HHDM_START + 4096) 0x10000123 s' = Done s' (f0 * 4096 + 0x123) /\
     vmm_get_phys (HHDM_START + 4096) 0x10001123 s' = Done s' (f1 * 4096 + 0x123) /\ f0 <> f1).
Proof.
  split; [exact mm0_inv|].
  destruct (vmm_map_pages_user mm0 T0 4096 0x10000000 0x9000 2 6) as (H1 & H2 & (s3 & T3 & frs & E3 & (_ & _ & H3) & Hlen & Hnd & _)).
  - exact mm0_inv.
  - reflexivity.
  - split; [reflexivity|]. cbn. lia.
  - lia.
  - exact pm0_free8.
  - intros v _ t i [_ [=]]%T0_Some.
  - reflexivity.
  - lia.
  - cbn. lia.
  - lia.
  - split_and!.
    + destruct (H1 MAP_CONT ltac:(by right)) as (s1 & T1 & E1 & _ & _ & H). exists s1. split; [exact E1|].
      destruct (H 0x10001123 ltac:(lia)) as (r & _ & Hv). exact Hv.
    + destruct H2 as [[H2 _]|(s2 & T2 & fr & E2 & (_ & _ & H2) & _)].
      * exfalso. assert (result_of (vmm_map_pages (u64 (hhdm_offset mm0 + 4096)) 0x10000000 0x9000 (Z.of_nat 2) (MAP_ANYPHYS + MAP_CONT + 6) mm0) = Some 0x10000000)
          as Hr by (vm_compute; reflexivity). rewrite H2 in Hr. discriminate Hr.
      * exists s2, fr. split; [exact E2|]. destruct (H2 0x10001123 ltac:(lia)) as (r & _ & H). exact H.
    + destruct frs as [|f0 [|f1 [|]]]; try discriminate Hlen. exists s3, f0, f1. split; [exact E3|].
      destruct (H3 0x10000123 ltac:(lia)) as (r & _ & Ha). destruct (H3 0x10001123 ltac:(lia)) as (r' & _ & Hb). split_and!; [exact Ha|exact Hb|].
      apply NoDup_cons in Hnd as [Hnd _]. intros ->. apply Hnd. by left.
Defined.

End PageRange.
