(* ===== verification/Spaces.v ===== *)
(** Memory through the active page tables, byte by byte, and address spaces side
    by side: what mapping pages in one space, or storing to frames that are no
    tables, leaves of another. *)
From S2P Require Import Prelude Pmm Region PageTable PageRange.

Module Spaces.
Import PageTable PageRange.

(** ** Bytes *)

(** The byte at a physical address, and storing one. *)
Definition pbyte (m : gmap Z Z) (a : Z) : Z := Z.land (Z.shiftr (word m (8 * (a / 8))) (8 * (a mod 8))) 0xFF.

Definition pput (m : gmap Z Z) (a b : Z) : gmap Z Z :=
  let k := 8 * (a mod 8) in
  <[8 * (a / 8) := Z.lor (Z.land (word m (8 * (a / 8))) (Z.lnot (Z.shiftl 0xFF k))) (Z.shiftl b k)]> m.

(** A store of a byte; an address that is not mapped faults. *)
Definition stb (va b : Z) : M mm unit :=
  t ← vmm_cpml4v;
  pa ← vmm_get_phys t va;
  s ← get;
  if (pa =? 0) || (m_size s <=? pa) then fault
  else put (set_mem (pput (m_mem s) pa b) s).

Fixpoint vwrite (va : Z) (bs : list Z) : M mm unit :=
  match bs with [] => mret tt | b :: r => _ ← stb va b; vwrite (u64 (va + 1)) r end.

Fixpoint vread (va : Z) (n : nat) : M mm (list Z) :=
  match n with O => mret [] | S n' => b ← ldb va; r ← vread (u64 (va + 1)) n'; mret (b :: r) end.

(** ** Stores in physical memory *)

Lemma shifted_byte w k n : 0 <= k -> 0 <= n -> Z.testbit (Z.land (Z.shiftr w k) 0xFF) n = Z.testbit w (n + k) && (n <? 8).
Proof.
  intros Hk Hn. change 0xFF with (Z.ones 8). rewrite Z.land_spec, Z.shiftr_spec by done. f_equal.
  destruct (Z.ltb_spec n 8); [by apply Z.ones_spec_low|by apply Z.ones_spec_high].
Qed.

Lemma pbyte_pput m a b x : 0 <= b < 256 -> pbyte (pput m a b) x = if decide (x = a) then b else pbyte m x.
Proof.
  intros Hb. unfold pbyte, pput. rewrite word_insert. pose proof (Z.mod_pos_bound x 8 ltac:(lia)). pose proof (Z.mod_pos_bound a 8 ltac:(lia)).
  case_decide as Ew; [|rewrite decide_False by (intros ->; done); done].
  assert (x / 8 = a / 8) as Eq by lia. rewrite Eq. set (w := word m (8 * (a / 8))). apply Z.bits_inj'. intros n Hn.
  rewrite shifted_byte, Z.lor_spec, Z.land_spec, Z.lnot_spec, !Z.shiftl_spec by lia. change 0xFF with (Z.ones 8).
  assert (forall k, Z.testbit (Z.ones 8) k = bool_decide (0 <= k < 8)) as Ho.
  { intros k. destruct (Z.lt_ge_cases k 0); [rewrite bool_decide_false by lia; by apply Z.testbit_neg_r|].
    destruct (Z.lt_ge_cases k 8); [rewrite bool_decide_true by lia; by apply Z.ones_spec_low|rewrite bool_decide_false by lia; by apply Z.ones_spec_high]. }
  assert (forall k, ~ 0 <= k < 8 -> Z.testbit b k = false) as Hbb.
  { intros k Hk. destruct (Z.lt_ge_cases k 0); [by apply Z.testbit_neg_r|].
    destruct (decide (b = 0)) as [->|]; [apply Z.bits_0|]. apply Z.bits_above_log2; [lia|]. assert (Z.log2 b < 8) by (apply Z.log2_lt_pow2; lia). lia. }
  rewrite Ho. case_decide as Ex.
  - subst x. replace (n + 8 * (a mod 8) - 8 * (a mod 8)) with n by lia.
    destruct (Z.ltb_spec n 8); [rewrite bool_decide_true by lia; by rewrite andb_false_r, andb_true_r|rewrite andb_false_r, Hbb by lia; done].
  - assert (x mod 8 <> a mod 8) by (pose proof (Z.div_mod x 8 ltac:(lia)); pose proof (Z.div_mod a 8 ltac:(lia)); lia).
    rewrite shifted_byte by lia. destruct (Z.ltb_spec n 8); [|by rewrite !andb_false_r].
    rewrite bool_decide_false, Hbb by lia. by rewrite andb_true_r, orb_false_r.
Qed.

Fixpoint pputs (m : gmap Z Z) (a : Z) (bs : list Z) : gmap Z Z :=
  match bs with [] => m | b :: r => pputs (pput m a b) (a + 1) r end.

Definition bytes (bs : list Z) : Prop := Forall (fun b => 0 <= b < 256) bs.

Lemma pputs_out bs : forall m a x, bytes bs -> ~ a <= x < a + Z.of_nat (length bs) -> pbyte (pputs m a bs) x = pbyte m x.
Proof.
  induction bs as [|b bs IH]; intros m a x Hbs Hx; [done|]. apply Forall_cons in Hbs as [Hb Hbs]. cbn [pputs]. cbn [length] in Hx.
  rewrite IH by (done || lia). rewrite pbyte_pput by done. by rewrite decide_False by lia.
Qed.

(** The bytes at [a] are [bs]. *)
Definition holds_at (m : gmap Z Z) (a : Z) (bs : list Z) : Prop := forall i b, bs !! i = Some b -> pbyte m (a + Z.of_nat i) = b.

Lemma pputs_at bs : forall m a, bytes bs -> holds_at (pputs m a bs) a bs.
Proof.
  induction bs as [|b bs IH]; intros m a Hbs i c Hi; [done|]. pose proof Hbs as [Hb Hbs']%Forall_cons. cbn [pputs]. destruct i as [|i]; cbn in Hi.
  - injection Hi as <-. rewrite Z.add_0_r, pputs_out by (done || lia). by rewrite pbyte_pput, decide_True.
  - rewrite <- (IH (pput m a b) (a + 1) Hbs' i c Hi). f_equal. lia.
Qed.

Lemma holds_at_keep m m' a bs : holds_at m a bs ->
  (forall x, a <= x < a + Z.of_nat (length bs) -> pbyte m' x = pbyte m x) -> holds_at m' a bs.
Proof. intros H Hk i b Hi. rewrite Hk; [by apply H|]. apply lookup_lt_Some in Hi. lia. Qed.

Lemma holds_at_app m a l k : holds_at m a l -> holds_at m (a + Z.of_nat (length l)) k -> holds_at m a (l ++ k).
Proof.
  intros Hl Hk i b [Hi|[Hi Hb]]%lookup_app_Some; [by apply Hl|]. rewrite <- (Hk _ _ Hb). f_equal. lia.
Qed.

Lemma bytes_le n z : bytes (le n z).
Proof. revert z. induction n; intros z; constructor; [|apply IHn]. pose proof (Z.mod_pos_bound z 256 ltac:(lia)). lia. Qed.

Lemma word_pput m a b x : x / 4096 <> a / 4096 -> word (pput m a b) x = word m x.
Proof.
  intros Hx. unfold pput. rewrite word_insert, decide_False; [done|]. intros <-. apply Hx. Z.to_euclidean_division_equations. lia.
Qed.

Lemma word_pputs bs : forall m a x, (forall i, (i < length bs)%nat -> x / 4096 <> (a + Z.of_nat i) / 4096) -> word (pputs m a bs) x = word m x.
Proof.
  induction bs as [|b bs IH]; intros m a x Hx; [done|]. cbn [pputs]. rewrite IH.
  - apply word_pput. specialize (Hx 0%nat ltac:(cbn; lia)). by rewrite Z.add_0_r in Hx.
  - intros i Hi. specialize (Hx (S i) ltac:(cbn; lia)). by replace (a + 1 + Z.of_nat i) with (a + Z.of_nat (S i)) by lia.
Qed.

(** ** Memories with the same tables *)

Definition same_tables (m m' : gmap Z Z) (T : gmap Z (list Z)) : Prop :=
  forall t p i, T !! t = Some p -> 0 <= i < 512 -> word m' (t + 8 * i) = word m (t + 8 * i).

Lemma same_tree m m' size T : same_tables m m' T -> tree m size T -> tree m' size T.
Proof. intros Hs [H1 H2]. split; [done|]. intros t p i Ht Hi Hp Hpr Hh. rewrite (Hs t p i Ht Hi) in *. by apply H2. Qed.

Lemma same_translate s s' size T r v : same_tables (m_mem s) (m_mem s') T -> tree (m_mem s) size T -> T !! r = Some [] -> translate s' r v = translate s r v.
Proof.
  intros Hs Ht Hr. eapply tr_alike; [exact Ht| |exact Hr|done].
  intros t p i rest Htp Hv. left. apply (Hs t p i Htp). by eapply vpath_range.
Qed.

Lemma same_nohuge m m' T v : same_tables m m' T -> nohuge m T v -> nohuge m' T v.
Proof. intros Hs Hn t i Ht ->. rewrite (Hs t _ _ Ht); [by apply Hn|apply idx_range]. Qed.

Lemma same_exact s s' T root : same_tables (m_mem s) (m_mem s') T -> Pmm.nframes (m_pmm s') = Pmm.nframes (m_pmm s) -> exact s T root -> exact s' T root.
Proof.
  intros Hs Hn [Hr Hk Hf]. split; [done| |by rewrite Hn]. intros t p i Ht. destruct (Hk t p i Ht) as (t0 & H0 & Hi & [P Q] & Hh).
  exists t0. unfold links. by rewrite (Hs t0 p i H0 Hi).
Qed.

(** A space that another one's mappings do not reach: they share no lower table. *)
Definition apart (U T : gmap Z (list Z)) : Prop := forall u t p q, U !! u = Some p -> T !! t = Some q -> lower q -> u / 4096 <> t / 4096.

Lemma in_table t i : t mod 4096 = 0 -> 0 <= i < 512 -> (t + 8 * i) / 4096 = t / 4096.
Proof. intros. Z.to_euclidean_division_equations. lia. Qed.

(** What a space keeps over mappings in another one. *)
Record unmoved (s s' : mm) (U : gmap Z (list Z)) : Prop := {
  un_inv : inv s' U;
  un_same : same_tables (m_mem s) (m_mem s') U;
  un_hhdm : hhdm_offset s' = hhdm_offset s;
  un_cr3 : cr3 s' = cr3 s
}.

Lemma un_translate s s' U r v : inv s U -> unmoved s s' U -> U !! r = Some [] -> translate s' r v = translate s r v.
Proof. intros Hi Hu Hr. eapply same_translate; [apply Hu|apply Hi|done]. Qed.

Lemma touches_unmoved c s T s' T' U : touches c s T s' T' -> mm_wf s' -> inv s U -> apart U T -> unmoved s s' U.
Proof.
  intros [Hk _ (m & _ & Hm) Hr] Hwf Hu Hap. pose proof Hu as (_ & Htree & Hown).
  assert (same_tables (m_mem s) (m_mem s') U) as Hs.
  { intros t p i Ht Hi. destruct (tree_frame _ _ _ _ Hu Ht) as (_ & Ha & _).
    apply Hk; rewrite in_table by done; [by eapply Hown|]. intros t' q Ht' Hq. by eapply Hap. }
  split; [|done|by rewrite Hr|by rewrite Hr]. split_and!; [done| |].
  - rewrite Hr at 2. by eapply same_tree.
  - intros t p Ht. eapply Pmm.takes_used; [exact Hm|]. by eapply Hown.
Qed.

Lemma touches_apart c s T s' T' U : touches c s T s' T' -> inv s U -> apart U T -> apart T U -> apart U T' /\ apart T' U.
Proof.
  intros [_ Hn _ _] (_ & _ & Hown) H1 H2. split.
  - intros u t p q Hu Ht Hq E. destruct (Hn t q Ht) as [Ht'|Hf]; [by eapply H1|]. rewrite <- E, (Hown u p Hu) in Hf. done.
  - intros t u q p Ht Hu Hp E. destruct (Hn t q Ht) as [Ht'|Hf]; [by eapply H2|]. rewrite E, (Hown u p Hu) in Hf. done.
Qed.

(** ** Frames of data *)

(** Addresses [a .. a + n) lie in frames of memory that are no tables of [T]. *)
Definition data (s : mm) (T : gmap Z (list Z)) (a n : Z) : Prop :=
  0 < a /\ a + n <= m_size s /\ forall x, a <= x < a + n -> Pmm.used (m_pmm s) (x / 4096) = true /\ forall t p, T !! t = Some p -> x / 4096 <> t / 4096.

(** ** Accesses through the active tables *)

Section access.
Context (T : gmap Z (list Z)) (c : Z) (Hc : T !! c = Some []).

(** Virtual addresses [va ..] are the data at [pa ..]. *)
Definition window (s : mm) (va pa n : Z) : Prop :=
  inv s T /\ frame (cr3 s) = c /\ 0 <= va /\ va + n <= 2 ^ 47 /\ data s T pa n /\
  forall i, 0 <= i < n -> translate s c (va + i) = pa + i.

Lemma window_tail s va pa n : 0 < n -> window s va pa n -> window s (va + 1) (pa + 1) (n - 1).
Proof.
  intros Hn (? & ? & ? & ? & (? & ? & Hd) & Ht). split_and!; try done; try lia.
  - split_and!; [lia|lia|]. intros x Hx. apply Hd. lia.
  - intros i Hi. replace (va + 1 + i) with (va + (1 + i)) by lia. rewrite Ht by lia. lia.
Qed.

Lemma window_same s m va pa n : window s va pa n -> same_tables (m_mem s) m T -> window (set_mem m s) va pa n.
Proof.
  intros (Hi & ? & ? & ? & ? & Ht) Hs. split_and!; try done.
  - destruct Hi as (? & ? & ?). split_and!; [done|by eapply same_tree|done].
  - intros i Hi'. rewrite <- Ht by done. eapply (same_translate s); [exact Hs|apply Hi|done].
Qed.

Lemma phys_ok s va pa n : 0 < n -> window s va pa n ->
  (t ← vmm_cpml4v; vmm_get_phys t va) s = Done s pa /\ (pa =? 0) || (m_size s <=? pa) = false.
Proof.
  intros Hn (Hi & Hcr & ? & ? & (? & ? & _) & Ht). specialize (Ht 0 ltac:(lia)). rewrite !Z.add_0_r in Ht. split.
  - rewrite (bind_done vmm_cpml4v _ s s (u64 (hhdm_offset s + c))) by (unfold vmm_cpml4v; by rewrite Hcr).
    by rewrite (vmm_get_phys_ok s T c va Hi Hc), Ht.
  - by rewrite (proj2 (Z.eqb_neq pa 0)), (proj2 (Z.leb_gt (m_size s) pa)) by lia.
Qed.

Lemma through {A} s va pa n (k : Z -> M mm A) : 0 < n -> window s va pa n -> (t ← vmm_cpml4v; p ← vmm_get_phys t va; k p) s = k pa s.
Proof.
  intros Hn Hw. destruct (phys_ok s va pa n Hn Hw) as [E _]. apply bind_inv in E as (s1 & t & E1 & E2).
  by rewrite (bind_done _ _ _ _ _ E1), (bind_done _ _ _ _ _ E2).
Qed.

Lemma stb_ok s va pa n b : 0 < n -> window s va pa n -> stb va b s = Done (set_mem (pput (m_mem s) pa b) s) tt.
Proof.
  intros Hn Hw. destruct (phys_ok s va pa n Hn Hw) as [_ E]. unfold stb. rewrite (through s va pa n) by done.
  rewrite (bind_done get _ s s s) by done. by rewrite E.
Qed.

Lemma data_same s a n bs : data s T a n -> Z.of_nat (length bs) <= n -> inv s T -> same_tables (m_mem s) (pputs (m_mem s) a bs) T.
Proof.
  intros (_ & _ & Hd) Hl Hi t p i Ht Hi'. destruct (tree_frame _ _ _ _ Hi Ht) as (_ & Ha & _).
  apply word_pputs. intros j Hj. rewrite in_table by done. destruct (Hd (a + Z.of_nat j) ltac:(lia)) as [_ H]. intros E. by eapply H.
Qed.

Lemma vwrite_ok bs : forall s va pa n, window s va pa n -> Z.of_nat (length bs) <= n ->
  vwrite va bs s = Done (set_mem (pputs (m_mem s) pa bs) s) tt.
Proof.
  induction bs as [|b bs IH]; intros s va pa n Hw Hl; [by destruct s|]. cbn [vwrite pputs length] in *.
  rewrite (bind_done _ _ _ _ _ (stb_ok s va pa n b ltac:(lia) Hw)). pose proof Hw as (Hi & _ & Hva & ? & Hd & _).
  rewrite wrap_small by lia. set (s1 := set_mem (pput (m_mem s) pa b) s).
  assert (window s1 (va + 1) (pa + 1) (n - 1)) as Hw1.
  { apply window_tail; [lia|]. apply window_same; [done|]. apply (data_same s pa n [b]); [done|cbn; lia|done]. }
  rewrite (IH s1 _ _ _ Hw1) by lia. done.
Qed.

End access.

(** ** Two spaces *)

(** The active space [c] and another one [r], with their tables. *)
Record spaces (s : mm) (c r : Z) (Tc Tr : gmap Z (list Z)) : Prop := {
  sp_c : inv s Tc;
  sp_r : inv s Tr;
  sp_rootc : Tc !! c = Some [];
  sp_rootr : Tr !! r = Some [];
  sp_cr3 : frame (cr3 s) = c;
  sp_apart : apart Tc Tr;
  sp_apart' : apart Tr Tc;
  sp_exact : exact s Tc c
}.

(** A byte of memory in use that is in no table of either space. *)
Definition datum (s : mm) (Tc Tr : gmap Z (list Z)) (x : Z) : Prop :=
  0 < x < m_size s /\ Pmm.used (m_pmm s) (x / 4096) = true /\
  (forall t p, Tc !! t = Some p -> x / 4096 <> t / 4096) /\ (forall t p, Tr !! t = Some p -> x / 4096 <> t / 4096).

Lemma datum_data s Tc Tr a n : 0 < n -> (forall x, a <= x < a + n -> datum s Tc Tr x) -> data s Tc a n /\ data s Tr a n.
Proof.
  intros Hn H. pose proof (H a ltac:(lia)) as ((? & _) & _). pose proof (H (a + n - 1) ltac:(lia)) as ((_ & ?) & _).
  split; (split_and!; [done|lia|]); intros x Hx; destruct (H x Hx) as (_ & ? & ? & ?); done.
Qed.

(** From one state to another every such byte stays what it is. *)
Definition kept (s : mm) (Tc Tr : gmap Z (list Z)) (s' : mm) (Tc' Tr' : gmap Z (list Z)) : Prop :=
  forall x, datum s Tc Tr x -> datum s' Tc' Tr' x /\ pbyte (m_mem s') x = pbyte (m_mem s) x.

Lemma spaces_kept_trans s Tc Tr s1 Tc1 Tr1 s2 Tc2 Tr2 : kept s Tc Tr s1 Tc1 Tr1 -> kept s1 Tc1 Tr1 s2 Tc2 Tr2 -> kept s Tc Tr s2 Tc2 Tr2.
Proof. intros H1 H2 x Hx. destruct (H1 x Hx) as [H E]. destruct (H2 x H) as [H' E']. split; [done|congruence]. Qed.

Lemma pbyte_keep m m' x : (word m' (8 * (x / 8)) = word m (8 * (x / 8))) -> pbyte m' x = pbyte m x.
Proof. unfold pbyte. by intros ->. Qed.

Lemma touches_byte k s T s' T' x : touches k s T s' T' -> Pmm.used (m_pmm s) (x / 4096) = true -> (forall t p, T !! t = Some p -> x / 4096 <> t / 4096) ->
  Pmm.used (m_pmm s') (x / 4096) = true /\ (forall t p, T' !! t = Some p -> x / 4096 <> t / 4096) /\ pbyte (m_mem s') x = pbyte (m_mem s) x.
Proof.
  intros [Hk Hn (m & _ & Hm) Hr] Hu Ht. split_and!; [by eapply Pmm.takes_used| |].
  - intros t p Htp E. destruct (Hn t p Htp) as [Ht'|Hf]; [by eapply Ht|congruence].
  - assert (8 * (x / 8) / 4096 = x / 4096) as E by (Z.to_euclidean_division_equations; lia).
    apply pbyte_keep, Hk; rewrite E; [done|]. intros t p Htp _. by eapply Ht.
Qed.

Lemma touches_kept k s Tc Tr s' Tc' : touches k s Tc s' Tc' -> kept s Tc Tr s' Tc' Tr.
Proof.
  intros Ht x (Hx & Hu & H1 & H2). destruct (touches_byte _ _ _ _ _ x Ht Hu H1) as (? & ? & ?). split; [|done].
  split_and!; try done; [lia|]. rewrite (to_rest _ _ _ _ _ Ht). cbn. lia.
Qed.

Lemma datum_swap s Tc Tr x : datum s Tc Tr x -> datum s Tr Tc x.
Proof. unfold datum. tauto. Qed.

Lemma kept_swap s Tc Tr s' Tc' Tr' : kept s Tc Tr s' Tc' Tr' -> kept s Tr Tc s' Tr' Tc'.
Proof. intros H x Hx%datum_swap. destruct (H x Hx) as [?%datum_swap ?]. done. Qed.

(** Pages mapped in the active space, and in the other one. *)
Lemma spaces_map_c k n s c r Tc Tr vst pst s' Tc' : spaces s c r Tc Tr -> maps_run k n s Tc c vst pst s' Tc' ->
  spaces s' c r Tc' Tr /\ kept s Tc Tr s' Tc' Tr /\ unmoved s s' Tr.
Proof.
  intros [Hc Hr Hrc Hrr Hcr Ha Ha' He] [Hi Hs _ _ _ _ _ Ht Hex]. pose proof (touches_unmoved _ _ _ _ _ Tr Ht ltac:(apply Hi) Hr Ha') as Hun.
  destruct (touches_apart _ _ _ _ _ Tr Ht Hr Ha' Ha) as [? ?]. split_and!; [|by eapply touches_kept|done].
  split; try done; [apply Hun|by eapply lookup_weaken|by rewrite (un_cr3 _ _ _ Hun)|by apply Hex].
Qed.

Lemma spaces_map_r k n s c r Tc Tr vst pst s' Tr' : spaces s c r Tc Tr -> maps_run k n s Tr r vst pst s' Tr' ->
  spaces s' c r Tc Tr' /\ kept s Tc Tr s' Tc Tr' /\ unmoved s s' Tc.
Proof.
  intros [Hc Hr Hrc Hrr Hcr Ha Ha' He] [Hi Hs _ _ _ _ _ Ht Hex]. pose proof (touches_unmoved _ _ _ _ _ Tc Ht ltac:(apply Hi) Hc Ha) as Hun.
  destruct (touches_apart _ _ _ _ _ Tc Ht Hc Ha Ha') as [? ?]. split_and!; [|by eapply kept_swap, touches_kept|done].
  split; try done; [apply Hun|by eapply lookup_weaken|by rewrite (un_cr3 _ _ _ Hun)|].
  eapply same_exact; [apply Hun| |done]. destruct (to_takes _ _ _ _ _ Ht) as (m & _ & Hm). by eapply Pmm.takes_nframes.
Qed.

(** Frames that are taken hold data of neither space. *)
Lemma spaces_alloc s c r Tc Tr n f pm : spaces s c r Tc Tr -> Pmm.alloc_at (m_pmm s) n f pm -> mm_wf (set_pmm pm s) -> 0 < f ->
  (f + n) * 4096 <= m_size s ->
  spaces (set_pmm pm s) c r Tc Tr /\ kept s Tc Tr (set_pmm pm s) Tc Tr /\ (forall x, f * 4096 <= x < (f + n) * 4096 -> datum (set_pmm pm s) Tc Tr x).
Proof.
  intros [Hc Hr Hrc Hrr Hcr Ha Ha' He] Hat Hwf Hf Hsz. pose proof Hat as ((_ & _ & Hfr) & Hu & _). split_and!.
  - split; try done; [by eapply inv_alloc..|]. eapply (same_exact s); [done| |done]. destruct Hat as (_ & _ & ->). done.
  - intros x (Hx & Hux & H1 & H2). split; [|done]. split_and!; try done; [lia|cbn; lia|]. cbn. rewrite Hu, Hux. apply orb_true_r.
  - intros x Hx. assert (f <= x / 4096 < f + n) as Hq by (Z.to_euclidean_division_equations; lia). split_and!; [lia|cbn; lia| | |].
    + cbn. rewrite Hu. unfold Pmm.in_run. by rewrite bool_decide_true.
    + intros t p Ht E. destruct Hc as (_ & _ & Hown). specialize (Hown t p Ht). rewrite <- E, Hfr in Hown by done. done.
    + intros t p Ht E. destruct Hr as (_ & _ & Hown). specialize (Hown t p Ht). rewrite <- E, Hfr in Hown by done. done.
Qed.

(** Storing to data. *)
Lemma spaces_store s c r Tc Tr a bs : spaces s c r Tc Tr -> bytes bs ->
  (forall x, a <= x < a + Z.of_nat (length bs) -> datum s Tc Tr x) ->
  let s' := set_mem (pputs (m_mem s) a bs) s in
  spaces s' c r Tc Tr /\ same_tables (m_mem s) (m_mem s') Tc /\ same_tables (m_mem s) (m_mem s') Tr.
Proof.
  intros [Hc Hr Hrc Hrr Hcr Ha Ha' He] Hbs Hd s'.
  assert (same_tables (m_mem s) (m_mem s') Tc /\ same_tables (m_mem s) (m_mem s') Tr) as [H1 H2].
  { destruct bs as [|b bs]; [done|]. destruct (datum_data s Tc Tr a (Z.of_nat (length (b :: bs)))) as [D1 D2]; [cbn; lia|done|].
    split; eapply data_same; try done. }
  split_and!; try done. destruct Hc as (? & ? & ?), Hr as (? & ? & ?).
  split; try done; [split_and!; [done|by eapply same_tree|done]..|]. by eapply (same_exact s).
Qed.

End Spaces.
