(* ===== verification/PageUnmap.v ===== *)
(** Unmapping pages: [vmm_unmap_page] takes a translation away and gives back the
    tables that became empty, and [vmm_unmap_pages] does so for a range. *)
From S2P Require Import Prelude Pmm Region PageTable PageRange Spaces.

Module PageUnmap.
Import PageTable PageRange Spaces.

(** ** What unmapping changes *)

(** The tree shrinks; the frames [W] may be given back besides tables. *)
Record shrinks (W : Z -> Prop) (root : Z) (s : mm) (T : gmap Z (list Z)) (s' : mm) (T' : gmap Z (list Z)) : Prop := {
  sh_inv : inv s' T';
  sh_exact : exact s' T' root;
  sh_sub : T' ⊆ T;
  sh_root : T' !! root = Some [];
  sh_keep : forall a, (forall t p, T !! t = Some p -> lower p -> a / 4096 <> t / 4096) -> word (m_mem s') a = word (m_mem s) a;
  sh_used : forall f, ~ W f -> (forall t p, T !! t = Some p -> lower p -> f <> t / 4096) -> Pmm.used (m_pmm s') f = Pmm.used (m_pmm s) f;
  sh_nohuge : forall v, nohuge (m_mem s) T v -> nohuge (m_mem s') T' v;
  sh_rest : s' = set_mem (m_mem s') (set_pmm (m_pmm s') s);
  sh_nframes : Pmm.nframes (m_pmm s') = Pmm.nframes (m_pmm s)
}.

Lemma shrinks_refl W root s T : inv s T -> exact s T root -> T !! root = Some [] -> shrinks W root s T s T.
Proof. intros. split; try done. by destruct s. Qed.

Lemma shrinks_trans W root s T s1 T1 s2 T2 : shrinks W root s T s1 T1 -> shrinks W root s1 T1 s2 T2 -> shrinks W root s T s2 T2.
Proof.
  intros [_ _ Hs1 _ K1 U1 N1 R1 F1] [? ? Hs2 ? K2 U2 N2 R2 F2].
  assert (forall t p, T1 !! t = Some p -> T !! t = Some p) as Hw by (intros t p Ht; by eapply lookup_weaken).
  split; try done; [by etrans| | |auto|by rewrite R2, R1|congruence].
  - intros a Ha. rewrite K2, K1; eauto.
  - intros f HW Hf. rewrite U2, U1; eauto.
Qed.

(** ** Empty tables *)

Definition all_zero (m : gmap Z Z) (t : Z) : Prop := forall j, 0 <= j < 512 -> word m (t + 8 * j) = 0.

Lemma empty_loop n : forall s t i, mm_wf s -> 0 <= t -> t + 4096 <= m_size s -> 0 <= i -> i + Z.of_nat n <= 512 ->
  exists b, table_empty_loop n i (u64 (hhdm_offset s + t)) s = Done s b /\ (b = true -> forall j, i <= j < i + Z.of_nat n -> word (m_mem s) (t + 8 * j) = 0).
Proof.
  induction n as [|n IH]; intros s t i Hwf Ht Hs Hi Hn; cbn [table_empty_loop]; [exists true; split; [done|lia]|].
  rewrite (bind_done _ _ _ _ _ (ldt_ok s Hwf t i Ht Hs ltac:(lia))).
  destruct (Z.eqb_spec (word (m_mem s) (t + 8 * i)) 0) as [E|E]; cbn [negb]; [|by exists false].
  destruct (IH s t (i + 1) Hwf Ht Hs ltac:(lia) ltac:(lia)) as (b & Eb & Hb). exists b. split; [done|].
  intros -> j Hj. destruct (decide (j = i)) as [->|]; [done|]. apply Hb; [done|lia].
Qed.

Lemma is_table_empty_ok s t : mm_wf s -> 0 <= t -> t + 4096 <= m_size s ->
  exists b, is_table_empty (u64 (hhdm_offset s + t)) s = Done s b /\ (b = true -> all_zero (m_mem s) t).
Proof.
  intros Hwf Ht Hs. destruct (empty_loop 512 s t 0 Hwf Ht Hs ltac:(lia) ltac:(lia)) as (b & E & Hb). exists b. split; [done|].
  intros Hb' j Hj. apply Hb; [done|lia].
Qed.

(** ** Giving a table back *)

Section prune.
Context (s : mm) (T : gmap Z (list Z)) (root t : Z) (p : list Z) (i c : Z).
Context (Hinv : inv s T) (Hex : exact s T root) (Hroot : T !! root = Some []).
Context (Ht : T !! t = Some p) (Hp : (length p < 3)%nat) (Hi : 0 <= i < 512) (Hlow : lower p /\ lower (p ++ [i])).
Context (Hc : T !! c = Some (p ++ [i])) (Hl : links s t i c) (Hz : all_zero (m_mem s) c).
Context (Hnh : length p = 2%nat -> huge (word (m_mem s) (t + 8 * i)) = false).
Let m' := <[t + 8 * i := 0]> (m_mem s).
Let T' := delete c T.

Lemma prune_other t' p' i' : T !! t' = Some p' -> 0 <= i' < 512 -> (t', i') <> (t, i) -> word m' (t' + 8 * i') = word (m_mem s) (t' + 8 * i').
Proof.
  intros Ht' Hi' Hne. unfold m'. rewrite word_insert, decide_False; [done|].
  destruct (tree_frame _ _ _ _ Hinv Ht) as (_ & ? & _), (tree_frame _ _ _ _ Hinv Ht') as (_ & ? & _). intros [-> <-]%entry_inj; auto.
Qed.

Lemma prune_here : word m' (t + 8 * i) = 0.
Proof. unfold m'. by rewrite word_insert, decide_True. Qed.

Lemma prune_kept t' p' : T' !! t' = Some p' -> T !! t' = Some p' /\ t' <> c.
Proof. unfold T'. intros [? ?]%lookup_delete_Some. auto. Qed.

(** No table hangs below the empty one, and only one entry leads to it. *)
Lemma prune_child t' p' i' : T !! t' = Some p' -> T !! c = Some (p' ++ [i']) -> t' = t /\ i' = i.
Proof.
  intros Ht' Hc'. rewrite Hc in Hc'. apply (inj Some), app_inj_tail in Hc' as [-> ->]. split; [|done]. by eapply exact_inj.
Qed.

Lemma prune_tree : tree m' (m_size s) T'.
Proof.
  pose proof Hinv as (_ & [Hfr Hch] & _). split; [intros t' p' [H _]%prune_kept; by apply Hfr|].
  intros t' p' i' [Ht' Hne]%prune_kept Hi' Hlen Hpr Hh.
  destruct (decide ((t', i') = (t, i))) as [[= -> ->]|Hn]; [by rewrite prune_here in Hpr|].
  rewrite (prune_other _ _ _ Ht' Hi' Hn) in *. pose proof (Hch _ _ _ Ht' Hi' Hlen Hpr Hh) as Hcc.
  unfold T'. rewrite lookup_delete_ne; [done|]. intros E. rewrite <- E in Hcc. apply Hn. by destruct (prune_child _ _ _ Ht' Hcc) as [-> ->].
Qed.

Lemma prune_tr v : tr m' root (vpath v) v = tr (m_mem s) root (vpath v) v.
Proof.
  symmetry. eapply (tr_alike m' (m_mem s) (m_size s) T' _ _ []); [apply prune_tree| | |done].
  - intros t' p' i' rest [Ht' Hne]%prune_kept Hv. pose proof (vpath_range _ _ _ _ Hv).
    destruct (decide ((t', i') = (t, i))) as [[= -> ->]|Hn]; [right|left; symmetry; by eapply prune_other].
    rewrite Ht in Ht'. injection Ht' as <-. destruct Hl as [_ Hlc]. rewrite prune_here, Hlc. split_and!; [done| | |exact Hz].
    + intros ->. apply (f_equal length) in Hv. rewrite length_app in Hv. cbn in Hv. lia.
    + intros Hr. apply Hnh. apply (f_equal length) in Hv. rewrite length_app in Hv. cbn in Hv. lia.
  - unfold T'. rewrite lookup_delete_ne; [done|]. intros E. pose proof Hc as Hc'. rewrite E, Hroot in Hc'. by destruct p.
Qed.

Lemma prune_exact pm : Pmm.nframes pm = Pmm.nframes (m_pmm s) -> exact (set_mem m' (set_pmm pm s)) T' root.
Proof.
  intros Hnf. destruct Hex as [Hr Hk Hf]. split; cbn [m_pmm set_mem set_pmm].
  - intros t' [H' _]%prune_kept. auto.
  - intros t' p' i' [Ht' Hne]%prune_kept. destruct (Hk t' p' i' Ht') as (t0 & H0 & Hi' & [Hpr Hfr] & Hh).
    assert ((t0, i') <> (t, i)) as Hn by (intros [= -> ->]; apply Hne; by rewrite <- Hfr; apply Hl).
    assert (t0 <> c) as Hn0 by (intros ->; rewrite Hz in Hpr by done; done).
    exists t0. unfold T', links. cbn [m_mem set_mem]. rewrite (prune_other _ _ _ H0 Hi' Hn). split_and!; try done; try lia.
    by rewrite lookup_delete_ne by congruence.
  - intros t' p' [H' _]%prune_kept. rewrite Hnf. by eapply Hf.
Qed.

Lemma prune_inv pm : (forall f, f <> c / 4096 -> Pmm.used pm f = Pmm.used (m_pmm s) f) -> mm_wf (set_pmm pm s) -> inv (set_mem m' (set_pmm pm s)) T'.
Proof.
  intros Hu Hwf. split_and!; [done|apply prune_tree|]. intros t' p' [Ht' Hne]%prune_kept. cbn. pose proof Hinv as (_ & _ & Hown). rewrite Hu; [by eapply Hown|].
  destruct (tree_frame _ _ _ _ Hinv Hc) as (_ & ? & _), (tree_frame _ _ _ _ Hinv Ht') as (_ & ? & _). Z.to_euclidean_division_equations. lia.
Qed.

Lemma prune_ok W : exists s1 s', ffree c 1 s = Done s1 tt /\ stt (u64 (hhdm_offset s + t)) i 0 s1 = Done s' tt /\ shrinks W root s T s' T' /\
  (forall v, translate s' root v = translate s root v) /\
  (forall t' p' i' c', T !! t' = Some p' -> 0 <= i' < 512 -> (t', i') <> (t, i) -> links s t' i' c' -> links s' t' i' c') /\
  (forall t' p' i', T !! t' = Some p' -> 0 <= i' < 512 -> (t', i') <> (t, i) -> word (m_mem s') (t' + 8 * i') = word (m_mem s) (t' + 8 * i')).
Proof.
  pose proof Hinv as (Hwf & Htree & Hown). destruct (ex_frames _ _ _ Hex c _ Hc) as [Hc0 Hcn]. destruct (tree_frame _ _ _ _ Hinv Hc) as (_ & Hca & _ & _).
  destruct (tree_frame _ _ _ _ Hinv Ht) as (Ht0 & Hta & Hts & _).
  destruct (Pmm.pmm_ffree_spec (m_pmm s) (c / 4096) 1) as (pm & Ef & Hpw & Heq & Hu); [apply Hwf|split; [apply Z.div_pos; lia|lia]|lia|].
  replace (c / 4096 * 4096) with c in Ef by (Z.to_euclidean_division_equations; lia).
  assert (forall f, f <> c / 4096 -> Pmm.used pm f = Pmm.used (m_pmm s) f) as Hu'.
  { intros f Hf. rewrite Hu. unfold Pmm.in_run. by rewrite bool_decide_false by lia. }
  assert (Pmm.nframes pm = Pmm.nframes (m_pmm s)) as Hnf by (by rewrite Heq).
  assert (mm_wf (set_pmm pm s)) as Hwf'.
  { destruct Hwf as (? & H0 & ? & ?). split_and!; cbn; [done| |by rewrite Hnf|lia|lia]. rewrite Hu'; [done|]. Z.to_euclidean_division_equations. lia. }
  exists (set_pmm pm s), (set_mem m' (set_pmm pm s)). split_and!.
  - unfold ffree. by rewrite Ef.
  - by rewrite (stt_ok (set_pmm pm s)).
  - split; [by apply prune_inv|by apply prune_exact|apply delete_subseteq| | | | |done|done].
    + unfold T'. rewrite lookup_delete_ne; [done|]. intros E. pose proof Hc as Hc'. rewrite E, Hroot in Hc'. by destruct p.
    + intros a Ha. cbn. unfold m'. rewrite word_insert, decide_False; [done|]. intros <-. eapply (Ha t p Ht); [apply Hlow|]. by apply in_table.
    + intros f _ Hf. cbn. apply Hu'. eapply Hf; [exact Hc|apply Hlow].
    + intros v Hv t' i' [Ht' _]%prune_kept ->. cbn [m_mem set_mem]. destruct (decide ((t', PD_IDX v) = (t, i))) as [[= -> E]|Hn].
      * rewrite E, prune_here. done.
      * rewrite (prune_other _ _ (PD_IDX v) Ht' (idx_range _ _) Hn). by apply Hv.
  - intros v. apply prune_tr.
  - intros t' p' i' c' Ht' Hi' Hn [H1 H2]. unfold links. cbn [m_mem set_mem]. by rewrite (prune_other _ _ _ Ht' Hi' Hn).
  - intros t' p' i' Ht' Hi' Hn. by eapply prune_other.
Qed.

End prune.

(** ** The entry of the page *)

Section leaf.
Context (s : mm) (T : gmap Z (list Z)) (root t3 t2 t1 virt : Z).
Context (Hinv : inv s T) (Hex : exact s T root) (Hnh : nohuge (m_mem s) T virt) (Hroot : T !! root = Some []) (Hlow : PML4_IDX virt < 256).
Context (H3 : T !! t3 = Some [PML4_IDX virt]) (H2 : T !! t2 = Some [PML4_IDX virt; PDPT_IDX virt]).
Context (H1 : T !! t1 = Some [PML4_IDX virt; PDPT_IDX virt; PD_IDX virt]).
Context (L4 : links s root (PML4_IDX virt) t3) (L3 : links s t3 (PDPT_IDX virt) t2) (L2 : links s t2 (PD_IDX virt) t1).
Let m' := <[t1 + 8 * PT_IDX virt := 0]> (m_mem s).

Lemma clear_word t p i : T !! t = Some p -> 0 <= i < 512 -> (length p < 3)%nat -> word m' (t + 8 * i) = word (m_mem s) (t + 8 * i).
Proof. intros Ht Hi Hp. apply (leaf_other s T t2 t1 virt 0 Hinv H1 L2 t p i Ht Hi). intros [= -> _]. rewrite H1 in Ht. injection Ht as <-. cbn in Hp. lia. Qed.

Lemma clear_shrinks W : shrinks W root s T (set_mem m' s) T.
Proof.
  destruct Hex as [Hr Hk Hf]. destruct (tree_frame _ _ _ _ Hinv H1) as (_ & Ha & _).
  assert (forall t p i, T !! t = Some (p ++ [i]) -> forall t0, T !! t0 = Some p -> (length p < 3)%nat) as Hlen.
  { intros t p i Ht t0 _. destruct (tree_frame _ _ _ _ Hinv Ht) as (_ & _ & _ & Hl). rewrite length_app in Hl. cbn in Hl. lia. }
  split; [by eapply leaf_inv| |done|done| |done| |cbn [m_mem set_mem m_pmm]; by rewrite set_pmm_same|done].
  - split; [done| |done]. intros t p i Ht. destruct (Hk t p i Ht) as (t0 & H0 & Hi & [P Q] & Hh). exists t0. unfold links. cbn [m_mem set_mem].
    rewrite (clear_word t0 p i H0 Hi (Hlen t p i Ht t0 H0)). done.
  - intros a Hal. cbn [m_mem set_mem]. unfold m'. rewrite word_insert, decide_False; [done|]. intros <-. apply (Hal t1 _ H1 Hlow). apply in_table; [done|apply idx_range].
  - intros v Hv t i Ht ->. cbn [m_mem set_mem]. rewrite (clear_word t _ (PD_IDX v) Ht (idx_range _ _)) by (cbn; lia). by apply Hv.
Qed.

Lemma walk_tr m v : links (set_mem m s) root (PML4_IDX virt) t3 -> links (set_mem m s) t3 (PDPT_IDX virt) t2 -> links (set_mem m s) t2 (PD_IDX virt) t1 ->
  huge (word m (t2 + 8 * PD_IDX virt)) = false -> vpath v = vpath virt ->
  tr m root (vpath v) v = if present (word m (t1 + 8 * PT_IDX virt)) then Z.lor (frame (word m (t1 + 8 * PT_IDX virt))) (Z.land v 0xFFF) else 0.
Proof.
  intros [P4 F4] [P3 F3] [P2 F2] Hh ->. cbn [m_mem set_mem] in *. unfold vpath. cbn [tr]. rewrite P4, F4. cbn [negb]. rewrite P3, F3. cbn [negb].
  rewrite P2, F2, Hh. cbn [negb]. by destruct (present (word m (t1 + 8 * PT_IDX virt))).
Qed.

Lemma clear_tr v : translate (set_mem m' s) root v = if decide (vpath v = vpath virt) then 0 else translate s root v.
Proof.
  unfold translate. cbn [m_mem set_mem]. case_decide as Hv.
  - assert (forall t p i c, T !! t = Some p -> 0 <= i < 512 -> (length p < 3)%nat -> links s t i c -> links (set_mem m' s) t i c) as Hlk.
    { intros t p i c Ht Hi Hp [P Q]. unfold links. cbn [m_mem set_mem]. by rewrite (clear_word t p i Ht Hi Hp). }
    rewrite walk_tr; [| | | | |done].
    + unfold m'. rewrite word_insert, decide_True by done. done.
    + eapply Hlk; [exact Hroot|apply idx_range|cbn; lia|done].
    + eapply Hlk; [exact H3|apply idx_range|cbn; lia|done].
    + eapply Hlk; [exact H2|apply idx_range|cbn; lia|done].
    + rewrite (clear_word t2 _ (PD_IDX virt) H2 (idx_range _ _)) by (cbn; lia). by apply Hnh.
  - eapply (tr_alike (m_mem s) m' (m_size s) T _ _ []); [apply Hinv| |done|done].
    intros t p i rest Ht Hp. left. apply (leaf_other s T t2 t1 virt 0 Hinv H1 L2 t p i Ht (vpath_range _ _ _ _ Hp)).
    intros [= -> ->]. rewrite H1 in Ht. injection Ht as <-. apply Hv. rewrite Hp. unfold vpath. f_equal. by injection Hp as _ _ _ _ <-.
Qed.

End leaf.

(** A frame of data given back. *)
Lemma free_frame s T root f : inv s T -> exact s T root -> T !! root = Some [] -> 0 < f < Pmm.nframes (m_pmm s) -> T !! (f * 4096) = None ->
  exists s', ffree (f * 4096) 1 s = Done s' tt /\ shrinks (eq f) root s T s' T /\ m_mem s' = m_mem s /\ Pmm.used (m_pmm s') f = false.
Proof.
  intros Hinv Hex Hr Hf Hno. pose proof Hinv as (Hwf & Htree & Hown).
  destruct (Pmm.pmm_ffree_spec (m_pmm s) f 1) as (pm & Ef & Hpw & Heq & Hu); [apply Hwf|lia|lia|].
  assert (forall g, g <> f -> Pmm.used pm g = Pmm.used (m_pmm s) g) as Hu' by (intros g Hg; rewrite Hu; unfold Pmm.in_run; by rewrite bool_decide_false by lia).
  assert (Pmm.nframes pm = Pmm.nframes (m_pmm s)) as Hnf by (by rewrite Heq).
  exists (set_pmm pm s). unfold ffree. rewrite Ef. split_and!; [done| |done|].
  - split; try done.
    + split_and!; [|done|].
      * destruct Hwf as (? & H0 & ? & ?). split_and!; cbn; [done|rewrite Hu' by lia; done|by rewrite Hnf|lia|lia].
      * intros t p Ht. cbn. rewrite Hu'; [by eapply Hown|]. destruct (tree_frame _ _ _ _ Hinv Ht) as (? & Ha & _). intros E. rewrite <- E in Hno.
        replace (t / 4096 * 4096) with t in Hno by (Z.to_euclidean_division_equations; lia). congruence.
    + destruct Hex as [? ? Hfr]. split; try done. cbn. rewrite Hnf. done.
    + intros g Hg _. apply Hu'. congruence.
  - cbn. rewrite Hu. unfold Pmm.in_run. rewrite bool_decide_true, (proj2 (Z.ltb_lt f _)) by lia. done.
Qed.

(** ** The cascade of empty tables *)

(** One level: the table [c] below entry [i] of [t] is given back when it is empty,
    and [k] goes on one level up. *)
Definition reclaim (ptv ptp tv i : Z) (k : M mm unit) : M mm unit :=
  e ← is_table_empty ptv;
  if negb e then mret tt else
  _ ← ffree ptp 1;
  _ ← stt tv i 0;
  k.

Lemma reclaim_ok W s T root t p i c k (Q : mm -> gmap Z (list Z) -> Prop) :
  inv s T -> exact s T root -> T !! root = Some [] -> T !! t = Some p -> (length p < 3)%nat -> 0 <= i < 512 -> lower p -> lower (p ++ [i]) ->
  T !! c = Some (p ++ [i]) -> links s t i c -> (length p = 2%nat -> huge (word (m_mem s) (t + 8 * i)) = false) ->
  (Q s T) ->
  (forall s1, shrinks W root s T s1 (delete c T) -> (forall v, translate s1 root v = translate s root v) ->
     (forall t' p' i' c', T !! t' = Some p' -> 0 <= i' < 512 -> (t', i') <> (t, i) -> links s t' i' c' -> links s1 t' i' c') ->
     (forall t' p' i', T !! t' = Some p' -> 0 <= i' < 512 -> (t', i') <> (t, i) -> word (m_mem s1) (t' + 8 * i') = word (m_mem s) (t' + 8 * i')) ->
     exists s' T', k s1 = Done s' tt /\ Q s' T') ->
  exists s' T', reclaim (u64 (hhdm_offset s + c)) c (u64 (hhdm_offset s + t)) i k s = Done s' tt /\ Q s' T'.
Proof.
  intros Hinv Hex Hr Ht Hp Hi Hl1 Hl2 Hc Hl Hnh Hq Hk. unfold reclaim.
  destruct (tree_frame _ _ _ _ Hinv Hc) as (? & ? & ? & _). destruct (is_table_empty_ok s c) as (b & Eb & Hb); [apply Hinv|lia|lia|].
  rewrite (bind_done _ _ _ _ _ Eb). destruct b; cbn [negb]; [|by exists s, T].
  destruct (prune_ok s T root t p i c Hinv Hex Hr Ht Hp Hi (conj Hl1 Hl2) Hc Hl (Hb eq_refl) Hnh W) as (s1 & s2 & E1 & E2 & Hsh & Htr & Hlk & Hw).
  rewrite (bind_done _ _ _ _ _ E1), (bind_done _ _ _ _ _ E2). by apply Hk.
Qed.

Definition keeps (flags : Z) : bool := Z.land flags UNMAP_KEEPPHYS =? UNMAP_KEEPPHYS.

Section page.
Context (W : Z -> Prop) (s : mm) (T : gmap Z (list Z)) (root t3 t2 t1 virt : Z).
Context (Hinv : inv s T) (Hex : exact s T root) (Hnh : nohuge (m_mem s) T virt) (Hroot : T !! root = Some []) (Hlow : PML4_IDX virt < 256).
Context (H3 : T !! t3 = Some [PML4_IDX virt]) (H2 : T !! t2 = Some [PML4_IDX virt; PDPT_IDX virt]).
Context (H1 : T !! t1 = Some [PML4_IDX virt; PDPT_IDX virt; PD_IDX virt]).
Context (L4 : links s root (PML4_IDX virt) t3) (L3 : links s t3 (PDPT_IDX virt) t2) (L2 : links s t2 (PD_IDX virt) t1).

Lemma cascade_ok : exists s' T',
  (let hh := hhdm_offset s in
   reclaim (u64 (hh + t1)) t1 (u64 (hh + t2)) (PD_IDX virt)
     (reclaim (u64 (hh + t2)) t2 (u64 (hh + t3)) (PDPT_IDX virt)
        (reclaim (u64 (hh + t3)) t3 (u64 (hh + root)) (PML4_IDX virt) (mret tt)))) s = Done s' tt /\
  shrinks W root s T s' T' /\ forall v, translate s' root v = translate s root v.
Proof.
  cbv zeta. set (Q := fun s' T' => shrinks W root s T s' T' /\ forall v, translate s' root v = translate s root v).
  assert (t2 <> t1 /\ t3 <> t1 /\ root <> t1 /\ t3 <> t2 /\ root <> t2 /\ root <> t3) as (N21 & N31 & N41 & N32 & N42 & N43) by (split_and!; intros ->; congruence).
  eapply (reclaim_ok W s T root t2 _ (PD_IDX virt) t1 _ Q); try done; [cbn; lia|apply idx_range|by intros _; apply Hnh|by split; [apply shrinks_refl|]|].
  intros s1 Sh1 Tr1 Lk1 _. assert (hhdm_offset s1 = hhdm_offset s) as <- by (by rewrite (sh_rest _ _ _ _ _ _ Sh1)).
  set (T1 := delete t1 T) in *. assert (T1 !! t2 = Some [PML4_IDX virt; PDPT_IDX virt] /\ T1 !! t3 = Some [PML4_IDX virt] /\ T1 !! root = Some []) as (G2 & G3 & G4).
  { unfold T1. by rewrite !lookup_delete_ne by congruence. }
  eapply (reclaim_ok W s1 T1 root t3 _ (PDPT_IDX virt) t2 _ Q); try apply Sh1; try done; [cbn; lia|apply idx_range| |].
  { eapply Lk1; [exact H3|apply idx_range|congruence|done]. }
  intros s2 Sh2 Tr2 Lk2 _. assert (hhdm_offset s2 = hhdm_offset s1) as <- by (by rewrite (sh_rest _ _ _ _ _ _ Sh2)).
  set (T2 := delete t2 T1) in *. assert (T2 !! t3 = Some [PML4_IDX virt] /\ T2 !! root = Some []) as (K3 & K4).
  { unfold T2. by rewrite !lookup_delete_ne by congruence. }
  pose proof (shrinks_trans _ _ _ _ _ _ _ _ Sh1 Sh2) as Sh12.
  eapply (reclaim_ok W s2 T2 root root [] (PML4_IDX virt) t3 _ Q); try apply Sh2; try done; [cbn; lia|apply idx_range| | |].
  { eapply Lk2; [exact G4|apply idx_range|congruence|]. eapply Lk1; [exact Hroot|apply idx_range|congruence|done]. }
  { split; [done|]. intros v. by rewrite Tr2. }
  intros s3 Sh3 Tr3 _ _. exists s3, (delete t3 T2). split; [done|]. split; [by eapply shrinks_trans|]. intros v. by rewrite Tr3, Tr2.
Qed.

End page.

(** The code below the entry of the page. *)
Lemma unmap_tail hh ptv ptp pdv pdp pdptv pdptp pml4v i2 i3 i4 (s : mm) : ptv = u64 (hh + ptp) -> pdv = u64 (hh + pdp) -> pdptv = u64 (hh + pdptp) ->
  (e1 ← is_table_empty ptv;
   if negb e1 then mret tt else
   _ ← ffree ptp 1;
   _ ← stt pdv i2 0;
   e2 ← is_table_empty pdv;
   if negb e2 then mret tt else
   _ ← ffree pdp 1;
   _ ← stt pdptv i3 0;
   e3 ← is_table_empty pdptv;
   if negb e3 then mret tt else
   _ ← ffree pdptp 1;
   stt pml4v i4 0) s =
  reclaim (u64 (hh + ptp)) ptp pdv i2 (reclaim (u64 (hh + pdp)) pdp pdptv i3 (reclaim (u64 (hh + pdptp)) pdptp pml4v i4 (mret tt))) s.
Proof.
  intros -> -> ->. unfold reclaim, mbind, M_bind.
  repeat match goal with |- context [match ?x with Done _ _ => _ | Fault => _ end] => destruct x as [? []|] eqn:?; cbn [negb]; try done end.
Qed.

Lemma shrinks_mono (W W' : Z -> Prop) root s T s' T' : (forall f, W f -> W' f) -> shrinks W root s T s' T' -> shrinks W' root s T s' T'.
Proof. intros H [? ? ? ? ? Hu ? ? ?]. split; try done. intros f Hf. apply Hu. auto. Qed.

Lemma frame_mod e : 0 <= frame e /\ frame e mod 4096 = 0.
Proof.
  unfold frame. change (2 ^ 64 - 1 - 0xFFF) with (2 ^ 64 - 2 ^ 12). split; [apply Z.land_nonneg; right; lia|].
  change 4096 with (2 ^ 12). rewrite <- Z.land_ones, <- Z.land_assoc by lia. change (Z.land (2 ^ 64 - 2 ^ 12) (Z.ones 12)) with 0. apply Z.land_0_r.
Qed.

Lemma frame_aligned e : frame e / 4096 * 4096 = frame e.
Proof. destruct (frame_mod e) as [_ Hm]. pose proof (Z.div_mod (frame e) 4096 ltac:(lia)). lia. Qed.

Lemma lor_page e v : Z.lor (frame e) (Z.land v 0xFFF) / 4096 = frame e / 4096.
Proof.
  destruct (frame_mod e) as [H0 Hm]. change 0xFFF with (Z.ones 12). rewrite Z.land_ones by lia. change (2 ^ 12) with 4096.
  pose proof (Z.mod_pos_bound v 4096 ltac:(lia)) as Hb. rewrite lor_low_add; [|done|done|done]. clear -Hm Hb. set (x := v mod 4096) in *. clearbody x. Z.to_euclidean_division_equations. lia.
Qed.

Lemma bind_ext {S A B} (m : M S A) (k k' : A -> M S B) s : (forall s' a, m s = Done s' a -> k a s' = k' a s') -> mbind k m s = mbind k' m s.
Proof. intros H. unfold mbind, M_bind. destruct (m s); auto. Qed.

(** The way to the entry of the page, or that there is none. *)
Lemma unmap_walk s T root virt flags : inv s T -> T !! root = Some [] -> nohuge (m_mem s) T virt ->
  (vmm_unmap_page (u64 (hhdm_offset s + root)) virt flags s = Done s tt /\ forall v, vpath v = vpath virt -> translate s root v = 0) \/
  exists t3 t2 t1,
    T !! t3 = Some [PML4_IDX virt] /\ T !! t2 = Some [PML4_IDX virt; PDPT_IDX virt] /\ T !! t1 = Some [PML4_IDX virt; PDPT_IDX virt; PD_IDX virt] /\
    links s root (PML4_IDX virt) t3 /\ links s t3 (PDPT_IDX virt) t2 /\ links s t2 (PD_IDX virt) t1 /\
    vmm_unmap_page (u64 (hhdm_offset s + root)) virt flags s =
      (_ ← (if negb (keeps flags) then ffree (frame (word (m_mem s) (t1 + 8 * PT_IDX virt))) 1 else mret tt);
       if 256 <=? PML4_IDX virt then mret tt else
       reclaim (u64 (hhdm_offset s + t1)) t1 (u64 (hhdm_offset s + t2)) (PD_IDX virt)
         (reclaim (u64 (hhdm_offset s + t2)) t2 (u64 (hhdm_offset s + t3)) (PDPT_IDX virt)
            (reclaim (u64 (hhdm_offset s + t3)) t3 (u64 (hhdm_offset s + root)) (PML4_IDX virt) (mret tt))))
      (set_mem (<[t1 + 8 * PT_IDX virt := 0]> (m_mem s)) s).
Proof.
  intros Hinv Hr Hnh. pose proof Hinv as (Hwf & [_ Hch] & _). unfold vmm_unmap_page. rewrite bind_gets.
  assert (forall v, vpath v = vpath virt -> translate s root v = tr (m_mem s) root (vpath virt) v) as Hvt by (intros v Hv; unfold translate; by rewrite Hv).
  destruct (tree_frame _ _ _ _ Hinv Hr) as (? & _ & ? & _). rewrite (bind_done _ _ _ _ _ (ldt_ok s Hwf root (PML4_IDX virt) ltac:(done) ltac:(done) (idx_range _ _))).
  destruct (present (word (m_mem s) (root + 8 * PML4_IDX virt))) eqn:E4; cbn [negb].
  2: { left. split; [done|]. intros v Hv. rewrite Hvt by done. unfold vpath. cbn [tr]. by rewrite E4. }
  pose proof (Hch root [] (PML4_IDX virt) Hr (idx_range virt 39) ltac:(cbn; lia) E4 ltac:(done)) as I3. cbn [app] in I3.
  set (t3 := frame (word (m_mem s) (root + 8 * PML4_IDX virt))) in *. destruct (tree_frame _ _ _ _ Hinv I3) as (? & _ & ? & _).
  rewrite (bind_done _ _ _ _ _ (ldt_ok s Hwf t3 (PDPT_IDX virt) ltac:(done) ltac:(done) (idx_range _ _))).
  destruct (present (word (m_mem s) (t3 + 8 * PDPT_IDX virt))) eqn:E3; cbn [negb].
  2: { left. split; [done|]. intros v Hv. rewrite Hvt by done. unfold vpath. cbn [tr]. rewrite E4. cbn [negb]. fold t3. by rewrite E3. }
  pose proof (Hch t3 _ (PDPT_IDX virt) I3 (idx_range virt 30) ltac:(cbn; lia) E3 ltac:(done)) as I2. cbn [app] in I2.
  set (t2 := frame (word (m_mem s) (t3 + 8 * PDPT_IDX virt))) in *. destruct (tree_frame _ _ _ _ Hinv I2) as (? & _ & ? & _).
  rewrite (bind_done _ _ _ _ _ (ldt_ok s Hwf t2 (PD_IDX virt) ltac:(done) ltac:(done) (idx_range _ _))).
  destruct (present (word (m_mem s) (t2 + 8 * PD_IDX virt))) eqn:E2; cbn [negb].
  2: { left. split; [done|]. intros v Hv. rewrite Hvt by done. unfold vpath. cbn [tr]. rewrite E4. cbn [negb]. fold t3. rewrite E3. cbn [negb]. fold t2. by rewrite E2. }
  pose proof (Hch t2 _ (PD_IDX virt) I2 (idx_range virt 21) ltac:(cbn; lia) E2 ltac:(intros _; by apply Hnh)) as I1. cbn [app] in I1.
  set (t1 := frame (word (m_mem s) (t2 + 8 * PD_IDX virt))) in *. destruct (tree_frame _ _ _ _ Hinv I1) as (? & _ & ? & _).
  rewrite (bind_done _ _ _ _ _ (ldt_ok s Hwf t1 (PT_IDX virt) ltac:(done) ltac:(done) (idx_range _ _))).
  rewrite (bind_done _ _ _ _ _ (stt_ok s Hwf t1 (PT_IDX virt) 0 ltac:(done) ltac:(done) (idx_range _ _))).
  right. exists t3, t2, t1. split_and!; try done.
  apply bind_ext. intros s' [] _. destruct (256 <=? PML4_IDX virt); [done|]. by apply unmap_tail.
Qed.

(** Where an address with tables leads. *)
Lemma walked_tr s T root t3 t2 t1 virt : nohuge (m_mem s) T virt -> T !! t2 = Some [PML4_IDX virt; PDPT_IDX virt] ->
  links s root (PML4_IDX virt) t3 -> links s t3 (PDPT_IDX virt) t2 -> links s t2 (PD_IDX virt) t1 ->
  let e := word (m_mem s) (t1 + 8 * PT_IDX virt) in
  translate s root virt = if present e then Z.lor (frame e) (Z.land virt 0xFFF) else 0.
Proof.
  intros Hnh H2 [P4 F4] [P3 F3] [P2 F2] e. unfold translate, vpath. cbn [tr]. rewrite P4, F4. cbn [negb]. rewrite P3, F3. cbn [negb].
  rewrite P2, F2, (Hnh t2 _ H2 eq_refl). cbn [negb]. fold e. by destruct (present e).
Qed.

Lemma vmm_unmap_page_ok s T root virt flags :
  inv s T -> exact s T root -> T !! root = Some [] -> PML4_IDX virt < 256 -> nohuge (m_mem s) T virt ->
  let f := translate s root virt / 4096 in
  keeps flags = true \/ (0 < f < Pmm.nframes (m_pmm s) /\ T !! (f * 4096) = None) ->
  exists s' T', vmm_unmap_page (u64 (hhdm_offset s + root)) virt flags s = Done s' tt /\
    shrinks (fun g => keeps flags = false /\ g = f) root s T s' T' /\
    (forall v, translate s' root v = if decide (vpath v = vpath virt) then 0 else translate s root v) /\
    (keeps flags = false -> Pmm.used (m_pmm s') f = false).
Proof.
  intros Hinv Hex Hr Hlow Hnh f Hfl. set (W := fun g => keeps flags = false /\ g = f).
  destruct (unmap_walk s T root virt flags Hinv Hr Hnh) as [[-> Hz]|(t3 & t2 & t1 & H3 & H2 & H1 & L4 & L3 & L2 & ->)].
  { exists s, T. split_and!; [done|by apply shrinks_refl| |].
    - intros v. case_decide; [by apply Hz|done].
    - intros Hk. exfalso. destruct Hfl as [E|[Hf _]]; [congruence|]. assert (f = 0) by (unfold f; by rewrite Hz). lia. }
  pose proof (walked_tr s T root t3 t2 t1 virt Hnh H2 L4 L3 L2) as Htv.
  set (s1 := set_mem (<[t1 + 8 * PT_IDX virt := 0]> (m_mem s)) s) in *.
  assert (shrinks W root s T s1 T) as Sh1 by (by eapply clear_shrinks).
  assert (forall v, translate s1 root v = if decide (vpath v = vpath virt) then 0 else translate s root v) as Tr1 by (intros v; by eapply clear_tr).
  assert (forall t p i c, T !! t = Some p -> 0 <= i < 512 -> (length p < 3)%nat -> links s t i c -> links s1 t i c) as Lk1.
  { intros t p i c Ht Hi Hp [P Q]. unfold links. cbn [m_mem set_mem s1]. by rewrite (clear_word s T t2 t1 virt Hinv H1 L2 t p i Ht Hi Hp). }
  assert (exists s2, (if negb (keeps flags) then ffree (frame (word (m_mem s) (t1 + 8 * PT_IDX virt))) 1 else mret tt) s1 = Done s2 tt /\
    shrinks W root s1 T s2 T /\ m_mem s2 = m_mem s1 /\ (keeps flags = false -> Pmm.used (m_pmm s2) f = false)) as (s2 & E2 & Sh2 & M2 & U2).
  { destruct (keeps flags) eqn:Ek; cbn [negb]; [exists s1; split_and!; [done|apply shrinks_refl; apply Sh1|done|done]|].
    destruct Hfl as [?|[Hf Hno]]; [done|]. unfold f in Hf. rewrite Htv in Hf. destruct (present _) eqn:Ep; [|change (0 / 4096) with 0 in Hf; lia].
    assert (f = frame (word (m_mem s) (t1 + 8 * PT_IDX virt)) / 4096) as Ef by (unfold f; by rewrite Htv, Ep, lor_page).
    destruct (free_frame s1 T root f) as (s2 & E2 & Sh2 & M2 & U2); [apply Sh1|apply Sh1|done|unfold f; by rewrite Htv, Ep|done|].
    exists s2. rewrite Ef, frame_aligned in E2. split_and!; [done| |done|done]. eapply shrinks_mono; [|exact Sh2]. intros g <-. done. }
  rewrite (bind_done _ _ _ _ _ E2), (proj2 (Z.leb_gt 256 _)) by lia.
  assert (forall t i c, links s1 t i c -> links s2 t i c) as Lk2 by (intros t i c; unfold links; by rewrite M2).
  destruct (cascade_ok (fun _ => False) s2 T root t3 t2 t1 virt) as (s3 & T3 & E3 & Sh3 & Tr3); try done; try apply Sh2.
  { by apply (sh_nohuge _ _ _ _ _ _ Sh1). }
  1-3: eapply Lk2, Lk1; [eassumption|apply idx_range|cbn; lia|done].
  assert (hhdm_offset s2 = hhdm_offset s) as Eh by (rewrite (sh_rest _ _ _ _ _ _ Sh2); done). rewrite Eh in E3.
  exists s3, T3. split_and!; [done| | |].
  - eapply shrinks_trans; [exact Sh1|]. eapply shrinks_trans; [exact Sh2|]. by eapply shrinks_mono; [|exact Sh3].
  - intros v. rewrite Tr3, <- Tr1. unfold translate. by rewrite M2.
  - intros Hk. rewrite (sh_used _ _ _ _ _ _ Sh3), U2; [done|done|tauto|]. intros t p Ht _ Eft.
    destruct Hfl as [?|[_ Hno]]; [congruence|]. rewrite Eft in Hno. destruct (tree_frame _ _ _ _ Hinv Ht) as (_ & Ha & _).
    replace (t / 4096 * 4096) with t in Hno by (pose proof (Z.div_mod t 4096 ltac:(lia)); lia). congruence.
Qed.

(** ** Ranges *)

(** The frame behind a page may be given back. *)
Definition returnable (s : mm) (T : gmap Z (list Z)) (root v : Z) : Prop :=
  let f := translate s root v / 4096 in 0 < f < Pmm.nframes (m_pmm s) /\ T !! (f * 4096) = None.

Lemma same_page u v : 0 <= u < 2 ^ 48 -> 0 <= v < 2 ^ 48 -> v mod 4096 = 0 -> vpath u = vpath v <-> v <= u < v + 4096.
Proof. intros Hu Hv Ha. rewrite vpath_page by lia. Z.to_euclidean_division_equations. lia. Qed.

Lemma shrinks_returnable W root s T s' T' v : shrinks W root s T s' T' -> translate s' root v = translate s root v -> returnable s T root v -> returnable s' T' root v.
Proof.
  intros [? ? Hs ? ? ? ? _ Hn] E [Hf Hno]. unfold returnable. cbv zeta in *. rewrite E, Hn. split; [done|].
  eapply lookup_weaken_None; [exact Hno|exact Hs].
Qed.

(** Pages unmapped one after the other. *)
Record unmapped (flags : Z) (n : nat) (root vst : Z) (s : mm) (T : gmap Z (list Z)) (s' : mm) (T' : gmap Z (list Z)) : Prop := {
  um_shrinks : shrinks (fun f => keeps flags = false /\ exists v, vst <= v < vst + Z.of_nat n * 4096 /\ v mod 4096 = 0 /\ f = translate s root v / 4096) root s T s' T';
  um_tr : forall v, 0 <= v < 2 ^ 48 -> translate s' root v = if decide (vst <= v < vst + Z.of_nat n * 4096) then 0 else translate s root v;
  um_free : keeps flags = false -> forall v, vst <= v < vst + Z.of_nat n * 4096 -> v mod 4096 = 0 -> Pmm.used (m_pmm s') (translate s root v / 4096) = false
}.

Lemma unmap_loop flags root vst : aligned vst -> 0 <= vst -> forall n i s T, inv s T -> exact s T root -> T !! root = Some [] -> 0 <= i ->
  vst + (i + Z.of_nat n) * 4096 <= 2 ^ 47 ->
  (forall v, vst + i * 4096 <= v < vst + (i + Z.of_nat n) * 4096 -> nohuge (m_mem s) T v /\ (keeps flags = true \/ returnable s T root v)) ->
  exists s' T', for_loop n i (fun i => vmm_unmap_page (u64 (hhdm_offset s + root)) (u64 (vst + i * 4096)) flags) s = Done s' tt /\
    unmapped flags n root (vst + i * 4096) s T s' T'.
Proof.
  intros Hav Hv0. induction n as [|n IH]; intros i s T Hinv Hex Hr Hi Hb Hp; cbn [for_loop].
  { exists s, T. split; [done|]. split; [by apply shrinks_refl| |intros; lia]. intros v Hv. by rewrite decide_False by lia. }
  rewrite (wrap_small 64 (vst + i * 4096)) by lia. set (a := vst + i * 4096) in *. assert (a mod 4096 = 0) as Ha by (unfold a; by rewrite Z_mod_plus_full).
  destruct (Hp a ltac:(lia)) as [Hnh Hret].
  destruct (vmm_unmap_page_ok s T root a flags Hinv Hex Hr) as (s1 & T1 & E1 & Sh1 & Tr1 & U1); [apply user_idx; lia|done|done|].
  rewrite (bind_done _ _ _ _ _ E1).
  assert (forall v, 0 <= v < 2 ^ 48 -> translate s1 root v = if decide (a <= v < a + 4096) then 0 else translate s root v) as Tr1'.
  { intros v Hv. rewrite Tr1. pose proof (same_page v a Hv ltac:(lia) Ha). repeat case_decide; tauto. }
  destruct (IH (i + 1) s1 T1) as (s2 & T2 & E2 & [Sh2 Tr2 U2]); try apply Sh1; try lia.
  { intros v Hv. destruct (Hp v ltac:(lia)) as [Hn Hf]. split; [by apply Sh1|]. destruct Hf as [?|Hf]; [by left|right].
    eapply shrinks_returnable; [exact Sh1| |done]. rewrite Tr1' by lia. by rewrite decide_False by lia. }
  replace (vst + (i + 1) * 4096) with (a + 4096) in * by lia.
  assert (hhdm_offset s1 = hhdm_offset s) as Eh by (by rewrite (sh_rest _ _ _ _ _ _ Sh1)). rewrite Eh in E2.
  assert (forall v, a + 4096 <= v < a + 4096 + Z.of_nat n * 4096 -> translate s1 root v = translate s root v) as Tr1''.
  { intros v Hv. rewrite Tr1' by lia. by rewrite decide_False by lia. }
  exists s2, T2. split; [exact E2|]. split.
  - eapply shrinks_trans; [eapply shrinks_mono; [|exact Sh1]|eapply shrinks_mono; [|exact Sh2]]; cbn beta.
    + intros f [Hk ->]. split; [done|]. exists a. split; [lia|done].
    + intros f (Hk & v & Hv & Hm & ->). split; [done|]. exists v. split; [lia|]. by rewrite Tr1''.
  - intros v Hv. rewrite Tr2, Tr1' by done. repeat case_decide; try done; lia.
  - intros Hk v Hv Hm. destruct (decide (v = a)) as [->|Hne].
    + destruct (Pmm.used (m_pmm s2) (translate s root a / 4096)) eqn:Eu; [|done]. rewrite <- Eu, (sh_used _ _ _ _ _ _ Sh2); [by apply U1| |].
      * intros (_ & v & Hv' & Hm' & E). rewrite E, U2 in Eu; done.
      * intros t p Ht _ E. destruct Hret as [?|[_ Hno]]; [congruence|]. cbv zeta in Hno. rewrite E in Hno.
        pose proof (lookup_weaken _ _ _ _ Ht (sh_sub _ _ _ _ _ _ Sh1)) as HtT. destruct (tree_frame _ _ _ _ Hinv HtT) as (_ & Hta & _).
        replace (t / 4096 * 4096) with t in Hno by (pose proof (Z.div_mod t 4096 ltac:(lia)); lia). congruence.
    + rewrite <- Tr1'' by (Z.to_euclidean_division_equations; lia). apply U2; [done| |done]. Z.to_euclidean_division_equations; lia.
Qed.

Lemma set_regions_same s : set_regions (vmmr_nodes s) (vmmr_head s) s = s.
Proof. by destruct s. Qed.

Lemma unmap_pages_ok flags s T root vst n : inv s T -> exact s T root -> T !! root = Some [] -> user_range vst n ->
  (forall v, vst <= v < vst + Z.of_nat n * 4096 -> nohuge (m_mem s) T v /\ (keeps flags = true \/ returnable s T root v)) ->
  exists s' T', vmm_unmap_pages (u64 (hhdm_offset s + root)) vst (Z.of_nat n) flags s = Done s' tt /\ unmapped flags n root vst s T s' T'.
Proof.
  intros Hinv Hex Hr (Hav & Hv0 & Hv1) Hp.
  destruct (unmap_loop flags root vst Hav Hv0 n 0 s T) as (s' & T' & E & H); try done; try lia; [by rewrite Z.mul_0_l, !Z.add_0_r|].
  rewrite Z.mul_0_l, Z.add_0_r in H. exists s', T'. split; [|done]. unfold vmm_unmap_pages. rewrite Nat2Z.id, (bind_done _ _ _ _ _ E).
  unfold release, Region.regions_release, Region.HEAP_START. rewrite (proj2 (Z.ltb_lt vst _)) by lia. cbn [orb]. by rewrite set_regions_same.
Qed.

(** C24. Unmapping a range of user pages takes effect on those pages and on no others:
    their addresses have no translation afterwards and all others keep theirs.
    Unless the caller keeps them the frames behind the pages are free afterwards;
    tables that became empty are given back, and no other frame changes hands. *)
Theorem vmm_unmap_pages_user flags s T root vst n :
  inv s T -> exact s T root -> T !! root = Some [] -> user_range vst n ->
  (forall v, vst <= v < vst + Z.of_nat n * 4096 -> nohuge (m_mem s) T v /\ (keeps flags = true \/ returnable s T root v)) ->
  let asp := u64 (hhdm_offset s + root) in
  exists s' T', vmm_unmap_pages asp vst (Z.of_nat n) flags s = Done s' tt /\ inv s' T' /\ exact s' T' root /\ T' !! root = Some [] /\
    (forall v, 0 <= v < 2 ^ 48 -> exists r, vmm_get_phys asp v s = Done s r /\
       vmm_get_phys asp v s' = Done s' (if decide (vst <= v < vst + Z.of_nat n * 4096) then 0 else r) /\
       (keeps flags = false -> vst <= v < vst + Z.of_nat n * 4096 -> v mod 4096 = 0 -> Pmm.used (m_pmm s') (r / 4096) = false)) /\
    (forall f, T !! (f * 4096) = None -> (forall v, vst <= v < vst + Z.of_nat n * 4096 -> f <> translate s root v / 4096) ->
       Pmm.used (m_pmm s') f = Pmm.used (m_pmm s) f).
Proof.
  intros Hinv Hex Hr Hur Hp asp. destruct (unmap_pages_ok flags s T root vst n Hinv Hex Hr Hur Hp) as (s' & T' & E & [Sh Tr U]).
  exists s', T'. split_and!; try apply Sh; [exact E| |].
  - intros v Hv. exists (translate s root v). split_and!; [by apply (vmm_get_phys_ok s T)| |by intros Hk Hv' Hm; apply U].
    assert (hhdm_offset s' = hhdm_offset s) as Eh by (by rewrite (sh_rest _ _ _ _ _ _ Sh)). unfold asp. rewrite <- Eh, <- Tr by done.
    apply (vmm_get_phys_ok s' T'); apply Sh.
  - intros f Hno Hv. apply (sh_used _ _ _ _ _ _ Sh).
    + intros (_ & v & Hr' & _ & ->). by apply (Hv v Hr').
    + intros t p Ht _ ->. destruct (tree_frame _ _ _ _ Hinv Ht) as (_ & Ha & _).
      replace (t / 4096 * 4096) with t in Hno by (pose proof (Z.div_mod t 4096 ltac:(lia)); lia). congruence.
Qed.

Lemma mm0_exact : exact mm0 T0 4096.
Proof.
  split; [by intros t [-> _]%T0_Some|by intros t p i [_ E]%T0_Some; destruct p|].
  intros t p [-> _]%T0_Some. split; [lia|]. by vm_compute.
Qed.

Lemma vmm_unmap_pages_user_witness :
  exists s s' fr, vmm_map_pages (HHDM_START + 4096) 0x10000000 0 2 (MAP_ANYPHYS + MAP_CONT + 6) mm0 = Done s 0x10000000 /\
    vmm_get_phys (HHDM_START + 4096) 0x10001123 s = Done s (fr * 4096 + 0x1123) /\
    vmm_unmap_pages (HHDM_START + 4096) 0x10000000 2 0 s = Done s' tt /\
    vmm_get_phys (HHDM_START + 4096) 0x10001123 s' = Done s' 0 /\ Pmm.used (m_pmm s') (fr + 1) = false.
Proof.
  destruct (map_pages_fresh 0 mm0 T0 4096 0x10000000 2 6 mm0_inv eq_refl) with (pst := 0) as [[E _]|(pm & fr & s & T & E & Hfr & Hat & Hi & Hsz & Hm)].
  - split; [reflexivity|]. cbn. lia.
  - lia.
  - intros v _ t i [_ [=]]%T0_Some.
  - exact pm0_free8.
  - lia.
  - exfalso. assert (result_of (vmm_map_pages (u64 (hhdm_offset mm0 + 4096)) 0x10000000 0 (Z.of_nat 2) (MAP_ANYPHYS + MAP_CONT + 6) mm0) = Some 0x10000000)
      as Hr by (vm_compute; reflexivity). rewrite E in Hr. discriminate Hr.
  - assert (T !! 4096 = Some []) as HT by (eapply lookup_weaken; [|apply Hm]; reflexivity).
    assert (forall v, 0x10000000 <= v < 0x10000000 + Z.of_nat 2 * 4096 -> translate s 4096 v = fr * 4096 + (v - 0x10000000)) as Htr.
    { intros v Hv. rewrite (mr_tr _ _ _ _ _ _ _ _ _ Hm) by lia. by rewrite decide_True. }
    destruct (vmm_unmap_pages_user 0 s T 4096 0x10000000 2) as (s' & T' & E' & _ & _ & _ & Hg & _).
    + apply Hm.
    + apply (mr_exact _ _ _ _ _ _ _ _ _ Hm). destruct mm0_exact as [H1 H2 H3]. split; [done|exact H2|]. intros t p Ht. cbn. destruct Hat as ((_ & _ & ->) & _). exact (H3 t p Ht).
    + exact HT.
    + split; [reflexivity|]. cbn. lia.
    + intros v Hv. split.
      * apply (mr_nohuge _ _ _ _ _ _ _ _ _ Hm). intros t i [_ [=]]%T0_Some.
      * right. pose proof (mr_touch _ _ _ _ _ _ _ _ _ Hm) as [_ Hnew (k & _ & Hk) _]. destruct Hat as (((_ & Hb & Hfree) & Hu & Hpm) & _).
        assert (Pmm.nframes (m_pmm s) = 16) as Hn by (rewrite (Pmm.takes_nframes _ _ _ Hk); cbn; by rewrite Hpm).
        change (Pmm.nframes (m_pmm mm0)) with 16 in Hb. unfold returnable. rewrite Htr, Hn by done. set (f := (fr * 4096 + (v - 0x10000000)) / 4096).
        assert (fr <= f < fr + 2) as Hf by (clear -Hv; unfold f; rewrite Z.div_add_l by lia; assert (0 <= (v - 0x10000000) / 4096 < 2) by (split; [apply Z.div_pos|apply Z.div_lt_upper_bound]; lia); lia). split; [lia|].
        destruct (T !! (f * 4096)) as [p|] eqn:Ep; [|done]. exfalso. destruct (Hnew _ _ Ep) as [[E1 _]%T0_Some|E1].
        -- specialize (Hfree f ltac:(lia)). replace f with 1 in Hfree by lia. discriminate Hfree.
        -- rewrite Z.div_mul in E1 by lia. cbn in E1. rewrite Hu in E1. unfold Pmm.in_run in E1. rewrite bool_decide_true in E1 by lia. discriminate E1.
    + exists s, s', fr. assert (hhdm_offset s = HHDM_START) as Eh by (rewrite (mr_hhdm _ _ _ _ _ _ _ _ _ Hm); reflexivity). rewrite Eh in E', Hg.
      destruct (Hg 0x10001123 ltac:(lia)) as (r & E1 & E2 & _). destruct (Hg 0x10001000 ltac:(lia)) as (r0 & E3 & _ & E4).
      pose proof (vmm_get_phys_ok s T 4096 0x10001123 ltac:(apply Hm) HT) as P1. pose proof (vmm_get_phys_ok s T 4096 0x10001000 ltac:(apply Hm) HT) as P0.
      rewrite Htr in P1, P0 by (cbn; lia). rewrite Eh in P1, P0. rewrite E3 in P0. injection P0 as ->.
      split_and!; [exact E|exact P1|exact E'|exact E2|].
      replace (fr + 1) with ((fr * 4096 + (0x10001000 - 0x10000000)) / 4096) by (rewrite Z.div_add_l by lia; reflexivity). apply E4; [reflexivity|cbn; lia|reflexivity].
Defined.

(** Unmapping a page that is not there gives frame 0 back, which the allocator then
    hands out as an address that its callers take for NULL. *)
Lemma unmap_absent_frees_frame_zero :
  let s1 := state_of (vmm_map_page (HHDM_START + 4096) 0x10000000 0x9000 6 mm0) mm0 in
  let s2 := state_of (vmm_unmap_page (HHDM_START + 4096) 0x10001000 0 s1) s1 in
  Pmm.used (m_pmm s1) 0 = true /\ Pmm.used (m_pmm s2) 0 = false /\ result_of (falloc 1 s2) = Some 0 /\ Pmm.used (m_pmm s2) 12 = false.
Proof. vm_compute. done. Qed.

End PageUnmap.
