(* ===== verification/UserMem.v ===== *)
(** User memory as the kernel reaches it: what the checks of [src/usr/ensurance.c]
    establish of a user pointer, and copies through the active page tables, byte by
    byte, whatever frames are behind the pages. *)
From S2P Require Import Prelude Pmm Region PageTable PageRange Spaces.

Module UserMem.
Import PageTable PageRange Spaces.

(** ** What the check computes *)

(** Every entry on the walk passes. *)
Fixpoint allows (m : gmap Z Z) (w : bool) (t : Z) (path : list Z) : bool :=
  match path with
  | [] => false
  | i :: rest =>
      let e := word m (t + 8 * i) in
      entry_ok w e &&
      match rest with
      | [] => true
      | [_] => huge e || allows m w (frame e) rest
      | _ => allows m w (frame e) rest
      end
  end.

Definition may (s : mm) (c : Z) (w : bool) (va : Z) : bool := allows (m_mem s) w c (vpath va).

Lemma entry_present w e : entry_ok w e = true -> present e = true.
Proof. unfold entry_ok. by intros [? _]%andb_true_iff. Qed.

Lemma allows_weaken m w : forall path t, allows m w t path = true -> allows m false t path = true.
Proof.
  induction path as [|i path IH]; intros t; [done|]. cbn [allows]. intros [He Hr]%andb_true_iff. unfold entry_ok.
  rewrite (entry_present _ _ He). cbn [andb negb orb]. destruct path as [|j [|k path]]; [done| |by apply IH].
  apply orb_true_iff in Hr as [->|Hr]; [done|]. rewrite (IH _ Hr). apply orb_true_r.
Qed.

Section tables.
Context (s : mm) (T : gmap Z (list Z)) (c : Z) (Hinv : inv s T) (Hc : T !! c = Some []).

Lemma okaddr_ok va w : hhdm_offset s = HHDM_START -> okaddr (u64 (hhdm_offset s + c)) va w s = Done s (may s c w va).
Proof.
  intros Hh. pose proof Hinv as (Hwf & [_ Hch] & _). destruct (tree_frame _ _ _ _ Hinv Hc) as (? & ? & ? & _).
  unfold okaddr, may, vpath. cbn [allows]. assert (u64 (hhdm_offset s + c) <> 0) as Hnz.
  { destruct Hwf as (_ & _ & _ & ? & ?). rewrite wrap_small by lia. lia. }
  rewrite (proj2 (Z.eqb_neq _ 0) Hnz), <- Hh.
  rewrite (bind_done _ _ _ _ _ (ldt_ok s Hwf c (PML4_IDX va) ltac:(done) ltac:(done) (idx_range _ _))).
  destruct (entry_ok w (word _ (c + _))) eqn:E4; cbn [negb andb]; [|done]. apply entry_present in E4.
  pose proof (Hch _ _ _ Hc (idx_range va 39) ltac:(simpl; lia) E4 ltac:(done)) as HT3. simpl in HT3. set (t3 := frame (word (m_mem s) (c + 8 * PML4_IDX va))) in *. destruct (tree_frame _ _ _ _ Hinv HT3) as (? & ? & ? & _).
  rewrite (bind_done _ _ _ _ _ (ldt_ok s Hwf t3 (PDPT_IDX va) ltac:(done) ltac:(done) (idx_range _ _))).
  destruct (entry_ok w (word _ (_ + 8 * PDPT_IDX va))) eqn:E3; cbn [negb andb]; [|done]. apply entry_present in E3.
  pose proof (Hch _ _ _ HT3 (idx_range va 30) ltac:(simpl; lia) E3 ltac:(done)) as HT2. simpl in HT2. set (t2 := frame (word (m_mem s) (t3 + 8 * PDPT_IDX va))) in *. destruct (tree_frame _ _ _ _ Hinv HT2) as (? & ? & ? & _).
  rewrite (bind_done _ _ _ _ _ (ldt_ok s Hwf t2 (PD_IDX va) ltac:(done) ltac:(done) (idx_range _ _))).
  destruct (entry_ok w (word _ (_ + 8 * PD_IDX va))) eqn:E2; cbn [negb andb]; [|done]. apply entry_present in E2.
  fold (huge (word (m_mem s) (t2 + 8 * PD_IDX va))). destruct (huge (word _ (t2 + _))) eqn:Eh; cbn [orb]; [done|].
  pose proof (Hch _ _ _ HT2 (idx_range va 21) ltac:(simpl; lia) E2 ltac:(done)) as HT1. set (t1 := frame (word (m_mem s) (t2 + 8 * PD_IDX va))) in *. destruct (tree_frame _ _ _ _ Hinv HT1) as (? & ? & ? & _).
  rewrite (bind_done _ _ _ _ _ (ldt_ok s Hwf t1 (PT_IDX va) ltac:(done) ltac:(done) (idx_range _ _))).
  rewrite andb_true_r. by destruct (entry_ok w (word _ (_ + 8 * PT_IDX va))).
Qed.

(** The walk depends on the tables only. *)
Lemma allows_same m' w : same_tables (m_mem s) m' T -> forall path t p, T !! t = Some p -> (length p + length path = 4)%nat ->
  Forall (fun i => 0 <= i < 512) path -> allows m' w t path = allows (m_mem s) w t path.
Proof.
  intros Hs. pose proof Hinv as (_ & [_ Hch] & _). induction path as [|i path IH]; intros t p Ht Hl Hr; [done|].
  apply Forall_cons in Hr as [Hi Hr]. cbn [allows length] in *. rewrite (Hs t p i Ht Hi). destruct (entry_ok w _) eqn:E; [|done]. cbn [andb]. apply entry_present in E.
  assert ((length p = 2%nat -> huge (word (m_mem s) (t + 8 * i)) = false) -> (length p < 3)%nat ->
    allows m' w (frame (word (m_mem s) (t + 8 * i))) path = allows (m_mem s) w (frame (word (m_mem s) (t + 8 * i))) path) as Hnext.
  { intros Hh Hp. apply (IH _ (p ++ [i])); [by apply Hch|rewrite length_app; cbn; lia|done]. }
  destruct path as [|j [|k path]]; [done| |]; cbn [length] in Hl.
  - destruct (huge (word (m_mem s) (t + 8 * i))) eqn:Eh; [done|]. cbn [orb]. apply Hnext; [done|lia].
  - apply Hnext; lia.
Qed.

End tables.

Lemma vpath_all va : Forall (fun i => 0 <= i < 512) (vpath va).
Proof. repeat (constructor; [apply idx_range|]). constructor. Qed.

Lemma may_same s m' T c w va : inv s T -> T !! c = Some [] -> same_tables (m_mem s) m' T -> may (set_mem m' s) c w va = may s c w va.
Proof. intros Hi Hc Hs. apply (allows_same s T Hi m' w Hs _ c []); [done|done|apply vpath_all]. Qed.

(** A page has one walk. *)
Lemma vpath_same_page x y : 0 <= x < 2 ^ 64 -> 0 <= y < 2 ^ 64 -> x / 4096 = y / 4096 -> vpath x = vpath y.
Proof.
  intros Hx Hy E. assert (forall n, 12 <= n -> Z.shiftr x n = Z.shiftr y n) as H.
  { intros n Hn. replace n with (12 + (n - 12)) by lia. rewrite <- !Z.shiftr_shiftr by lia. rewrite !(Z.shiftr_div_pow2 _ 12) by lia.
    change (2 ^ 12) with 4096. by rewrite E. }
  unfold vpath, PML4_IDX, PDPT_IDX, PD_IDX, PT_IDX. by rewrite !H by lia.
Qed.

Lemma vpath_frame x : 0 <= x < 2 ^ 64 -> vpath (frame x) = vpath x.
Proof.
  intros Hx. rewrite frame_eq by done. apply vpath_same_page; [Z.to_euclidean_division_equations; lia|done|]. by rewrite Z.mul_comm, Z.div_mul.
Qed.

(** ** The space of a process *)

(** The active tables, which map in the lower half nothing but data. *)
Record user_space (s : mm) (T : gmap Z (list Z)) (c : Z) : Prop := {
  us_inv : inv s T;
  us_root : T !! c = Some [];
  us_cr3 : frame (cr3 s) = c;
  us_hhdm : hhdm_offset s = HHDM_START;
  us_data : forall va, 0 <= va < 2 ^ 47 -> may s c false va = true ->
    0 < translate s c va < m_size s /\ forall t p, T !! t = Some p -> translate s c va / 4096 <> t / 4096
}.

(** Each of the [n] bytes at [va] passes the check. *)
Definition ensured (s : mm) (c : Z) (w : bool) (va n : Z) : Prop :=
  0 <= va /\ va + n <= 2 ^ 47 /\ forall i, 0 <= i < n -> may s c w (va + i) = true.

Lemma ensured_weaken s c w va n : ensured s c w va n -> ensured s c false va n.
Proof. intros (? & ? & H). split_and!; [done|done|]. intros i Hi. by eapply allows_weaken, H. Qed.

Section space.
Context (T : gmap Z (list Z)) (c : Z).

Lemma cpml4v_us s : user_space s T c -> vmm_cpml4v s = Done s (u64 (hhdm_offset s + c)).
Proof. intros Hu. unfold vmm_cpml4v. by rewrite (us_cr3 _ _ _ Hu). Qed.

Lemma ensure_loop_ok s w va : user_space s T c -> 0 <= va -> forall n i, 0 <= i ->
  ensure_loop n i va w s = Done s (forallb (fun k => may s c w (u64 (va + i + 4096 * Z.of_nat k))) (seq 0 n)).
Proof.
  intros Hu Hva. induction n as [|n IH]; intros i Hi; [done|]. cbn [ensure_loop seq forallb].
  rewrite (bind_done _ _ _ _ _ (cpml4v_us s Hu)), (bind_done _ _ _ _ _ (okaddr_ok s T c (us_inv _ _ _ Hu) (us_root _ _ _ Hu) _ _ (us_hhdm _ _ _ Hu))).
  assert (may s c w (frame (u64 (va + i))) = may s c w (u64 (va + i + 4096 * Z.of_nat 0))) as ->.
  { unfold may. rewrite vpath_frame by (by apply Z.mod_pos_bound). do 2 f_equal. f_equal. lia. }
  destruct (may s c w _); cbn [negb andb]; [|done]. rewrite IH by lia.
  f_equal. rewrite <- fmap_S_seq. generalize (seq 0 n). intros l. induction l as [|k l IHl]; [done|]. cbn [forallb fmap list_fmap]. rewrite IHl.
  replace (va + (i + 4096) + 4096 * Z.of_nat k) with (va + i + 4096 * Z.of_nat (S k)) by lia. done.
Qed.

(** The number of pages that are looked at. *)
Definition looked_at (sz : Z) : Z := (sz + 4095) / 4096.

(** A checked buffer is mapped in full, when its last page is among those that are
    looked at: always so for one that starts on a page. *)
Lemma ensure_pointer_true s va sz w s' : user_space s T c -> 0 <= va -> 0 <= sz -> va + sz <= 2 ^ 47 ->
  va mod 4096 + sz <= 4096 * looked_at sz -> ensure_pointer va sz w s = Done s' true -> ensured s c w va sz.
Proof.
  intros Hu Hva Hsz Htop Hcov. unfold ensure_pointer. destruct (va =? 0); [done|]. destruct (_ && _); [done|].
  rewrite (ensure_loop_ok s w va Hu Hva _ 0) by lia. intros [= _ E]. rewrite forallb_forall in E. split_and!; [done|done|]. intros i Hi.
  change (0x1000) with 4096 in E. change ((sz + 4095) / 4096) with (looked_at sz) in E.
  set (k := Z.to_nat ((va mod 4096 + i) / 4096)). assert (In k (seq 0 (Z.to_nat (looked_at sz)))) as Hk.
  { apply in_seq. unfold k. clear -Hcov Hi Hsz Hva. unfold looked_at in *. Z.to_euclidean_division_equations. lia. }
  specialize (E k Hk). rewrite Z.add_0_r, wrap_small in E by (unfold k; clear -Hi Hva Htop; Z.to_euclidean_division_equations; lia).
  rewrite <- E. unfold may. f_equal. apply vpath_same_page; [lia|unfold k; clear -Hi Hva Htop; Z.to_euclidean_division_equations; lia|].
  unfold k. clear -Hi Hva. Z.to_euclidean_division_equations. lia.
Qed.

(** The check itself does not fault and changes nothing. *)
Lemma ensure_pointer_answers s va sz w : user_space s T c -> 0 <= va -> exists b, ensure_pointer va sz w s = Done s b.
Proof.
  intros Hu Hva. unfold ensure_pointer. destruct (va =? 0); [by eexists|]. destruct (_ && _); [by eexists|].
  rewrite (ensure_loop_ok s w va Hu Hva _ 0) by lia. by eexists.
Qed.

(** And a mapped buffer passes. *)
Lemma ensure_pointer_complete s va sz w : user_space s T c -> 0 < va < 2 ^ 47 -> 0 <= sz -> ensured s c w va sz -> ensure_pointer va sz w s = Done s true.
Proof.
  intros Hu Hva Hsz (_ & Htop & He). unfold ensure_pointer. rewrite (proj2 (Z.eqb_neq va 0)) by lia.
  rewrite Z.shiftr_div_pow2, (Z.div_small va (2 ^ 47)) by lia. cbn [Z.eqb negb andb]. rewrite (ensure_loop_ok s w va Hu ltac:(lia) _ 0) by lia.
  f_equal. apply forallb_forall. intros k [_ Hk]%in_seq. assert (4096 * Z.of_nat k < sz) as Hlt by (clear -Hk Hsz; Z.to_euclidean_division_equations; lia).
  rewrite Z.add_0_r, wrap_small by lia. apply He. lia.
Qed.

(** ** Copies *)

(** The physical addresses of the [n] bytes at [va], and what they hold. *)
Definition uaddrs (s : mm) (va : Z) (n : nat) : list Z := map (fun i => translate s c (va + Z.of_nat i)) (seq 0 n).
Definition ubytes (s : mm) (va : Z) (n : nat) : list Z := map (pbyte (m_mem s)) (uaddrs s va n).

Lemma uaddrs_cons s va n : uaddrs s va (S n) = translate s c va :: uaddrs s (va + 1) n.
Proof.
  unfold uaddrs. cbn [seq map]. rewrite Z.add_0_r. f_equal. rewrite <- seq_shift, map_map. apply map_ext. intros i. f_equal. lia.
Qed.

Lemma ensured_tail s w va n : ensured s c w va (Z.of_nat (S n)) -> ensured s c w (va + 1) (Z.of_nat n).
Proof.
  intros (? & ? & He). split_and!; [lia|lia|]. intros i Hi. replace (va + 1 + i) with (va + (1 + i)) by lia. apply He. lia.
Qed.

Lemma through_us {A} s va (k : Z -> M mm A) : user_space s T c -> (t ← vmm_cpml4v; p ← vmm_get_phys t va; k p) s = k (translate s c va) s.
Proof.
  intros Hu. rewrite (bind_done _ _ _ _ _ (cpml4v_us s Hu)).
  by rewrite (bind_done _ _ _ _ _ (vmm_get_phys_ok s T c va (us_inv _ _ _ Hu) (us_root _ _ _ Hu))).
Qed.

Lemma mapped_us s va n : user_space s T c -> ensured s c false va (Z.of_nat (S n)) ->
  0 < translate s c va < m_size s /\ (forall t p, T !! t = Some p -> translate s c va / 4096 <> t / 4096) /\
  (translate s c va =? 0) || (m_size s <=? translate s c va) = false.
Proof.
  intros Hu (H0 & H1 & He). specialize (He 0 ltac:(lia)). rewrite Z.add_0_r in He. destruct (us_data _ _ _ Hu va ltac:(lia) He) as [Hr Ht].
  split_and!; [lia|lia|done|]. by rewrite (proj2 (Z.eqb_neq _ 0)), (proj2 (Z.leb_gt (m_size s) _)) by lia.
Qed.

Lemma ldb_us s va n : user_space s T c -> ensured s c false va (Z.of_nat (S n)) -> ldb va s = Done s (pbyte (m_mem s) (translate s c va)).
Proof.
  intros Hu He. destruct (mapped_us s va n Hu He) as (_ & _ & Eb). unfold ldb. rewrite through_us by done.
  rewrite (bind_done get _ s s s) by done. by rewrite Eb.
Qed.

Lemma vread_ok n : forall s va, user_space s T c -> ensured s c false va (Z.of_nat n) -> vread va n s = Done s (ubytes s va n).
Proof.
  induction n as [|n IH]; intros s va Hu He; [done|]. cbn [vread].
  rewrite (bind_done _ _ _ _ _ (ldb_us s va n Hu He)). pose proof He as (? & ? & _). rewrite wrap_small by lia.
  rewrite (bind_done _ _ _ _ _ (IH s (va + 1) Hu (ensured_tail s false va n He))). unfold ubytes. by rewrite uaddrs_cons.
Qed.

(** Bytes stored at scattered addresses. *)
Fixpoint scatter (m : gmap Z Z) (l bs : list Z) : gmap Z Z :=
  match l, bs with a :: l', b :: r => scatter (pput m a b) l' r | _, _ => m end.

Lemma scatter_out bs : forall l m x, bytes bs -> x ∉ l -> pbyte (scatter m l bs) x = pbyte m x.
Proof.
  induction bs as [|b bs IH]; intros [|a l] m x Hb Hx; try done. apply Forall_cons in Hb as [Hb Hbs]. apply not_elem_of_cons in Hx as [Hne Hx].
  cbn [scatter]. rewrite IH, pbyte_pput by done. by rewrite decide_False.
Qed.

Lemma scatter_in bs : forall l m, bytes bs -> NoDup l -> length l = length bs -> map (pbyte (scatter m l bs)) l = bs.
Proof.
  induction bs as [|b bs IH]; intros [|a l] m Hb Hl E; try done. pose proof Hb as [Hb1 Hbs]%Forall_cons. apply NoDup_cons in Hl as [Ha Hl].
  cbn [scatter map]. f_equal; [|by apply IH; [..|injection E]]. rewrite scatter_out by done. by rewrite pbyte_pput, decide_True.
Qed.

Lemma pput_same s a b : inv s T -> (forall t p, T !! t = Some p -> a / 4096 <> t / 4096) -> same_tables (m_mem s) (pput (m_mem s) a b) T.
Proof.
  intros Hi Ha t p i Ht Hir. destruct (tree_frame _ _ _ _ Hi Ht) as (_ & Hm & _). apply word_pput. rewrite in_table by done. intros E. by apply (Ha t p Ht).
Qed.

Lemma user_space_same s m' : user_space s T c -> same_tables (m_mem s) m' T -> user_space (set_mem m' s) T c /\ (forall va, translate (set_mem m' s) c va = translate s c va).
Proof.
  intros [Hi Hr Hcr Hh Hd] Hs. assert (forall va, translate (set_mem m' s) c va = translate s c va) as Ht by (intros va; eapply (same_translate s); [exact Hs|apply Hi|done]).
  split; [|done]. pose proof Hi as (? & ? & ?). split; [split_and!; [done|by eapply same_tree|done]|done|done|done|].
  intros va Hva. rewrite (may_same s m' T c) by done. rewrite Ht. by apply Hd.
Qed.

Lemma uaddrs_same s m' va n : (forall va, translate (set_mem m' s) c va = translate s c va) -> uaddrs (set_mem m' s) va n = uaddrs s va n.
Proof. intros Ht. unfold uaddrs. apply map_ext. intros i. apply Ht. Qed.

Lemma ensured_same s m' w va n : user_space s T c -> same_tables (m_mem s) m' T -> ensured s c w va n -> ensured (set_mem m' s) c w va n.
Proof. intros Hu Hs (? & ? & He). split_and!; [done|done|]. intros i Hi. rewrite (may_same s m' T c); [by apply He|apply Hu..|done]. Qed.

Lemma same_tables_trans m1 m2 m3 : same_tables m1 m2 T -> same_tables m2 m3 T -> same_tables m1 m3 T.
Proof. intros H1 H2 t p i Ht Hi. by rewrite (H2 t p i Ht Hi), (H1 t p i Ht Hi). Qed.

(** A copy to a checked buffer does not fault; it changes the bytes of the buffer
    and no table. *)
Lemma vwrite_us bs : forall s va, user_space s T c -> ensured s c false va (Z.of_nat (length bs)) ->
  let m' := scatter (m_mem s) (uaddrs s va (length bs)) bs in
  vwrite va bs s = Done (set_mem m' s) tt /\ same_tables (m_mem s) m' T.
Proof.
  induction bs as [|b bs IH]; intros s va Hu He; [by destruct s|]. cbn [length] in He. destruct (mapped_us s va _ Hu He) as (Hr & Ht & Eb).
  cbn [vwrite length]. rewrite uaddrs_cons. cbn [scatter].
  assert (stb va b s = Done (set_mem (pput (m_mem s) (translate s c va) b) s) tt) as Es.
  { unfold stb. rewrite through_us by done. rewrite (bind_done get _ s s s) by done. by rewrite Eb. }
  rewrite (bind_done _ _ _ _ _ Es). pose proof He as (? & ? & _). rewrite wrap_small by lia.
  pose proof (pput_same s (translate s c va) b (us_inv _ _ _ Hu) Ht) as Hs. destruct (user_space_same s _ Hu Hs) as [Hu1 Htr].
  destruct (IH _ (va + 1) Hu1) as [E Hs1]; [apply ensured_same, ensured_tail; done|]. rewrite (uaddrs_same s _ _ _ Htr) in E, Hs1. rewrite E.
  split; [by destruct s|]. eapply same_tables_trans; [exact Hs|exact Hs1].
Qed.

End space.

End UserMem.
