(* ===== verification/Loader.v ===== *)
(** The program loader ([src/usr/loader.c]): an ELF file is read through the file
    layer into a new address space, with a stack that carries the arguments.

    Model: the state is the memory manager, the state of the file layer and the
    outcomes of upcoming allocations.  Memory is written through the active page
    tables, as the loader does.  The file layer is a record of operations. *)
From S2P Require Import Prelude Pmm Region PageTable PageRange Spaces.

Module Loader.
Import PageTable Spaces.

(** ** Structures of the file *)

Record Elf64_Ehdr := mk_ehdr {
  e_ident : list Z; e_type : Z; e_machine : Z; e_version : Z; e_entry : Z; e_phoff : Z; e_shoff : Z; e_flags : Z;
  e_ehsize : Z; e_phentsize : Z; e_phnum : Z; e_shentsize : Z; e_shnum : Z; e_shstrndx : Z }.
Record Elf64_Phdr := mk_phdr {
  p_type : Z; p_flags : Z; p_offset : Z; p_vaddr : Z; p_paddr : Z; p_filesz : Z; p_memsz : Z; p_align : Z }.

Definition EHDR_SIZE : nat := 64.
Definition PHDR_SIZE : nat := 56.
Definition ehdr_fields : list nat := [2; 2; 4; 8; 8; 8; 4; 2; 2; 2; 2; 2; 2]%nat.
Definition phdr_fields : list nat := [4; 4; 8; 8; 8; 8; 8; 8]%nat.

Definition no_ehdr : Elf64_Ehdr := mk_ehdr (replicate 16 0) 0 0 0 0 0 0 0 0 0 0 0 0 0.
Definition dec_ehdr (bs : list Z) : Elf64_Ehdr :=
  match dec_fields ehdr_fields (drop 16 bs) with
  | [ty; ma; ve; en; ph; sh; fl; es; ps; pn; ss; sn; sx] => mk_ehdr (take 16 bs) ty ma ve en ph sh fl es ps pn ss sn sx
  | _ => no_ehdr
  end.
Definition dec_phdr (bs : list Z) : Elf64_Phdr :=
  match dec_fields phdr_fields bs with
  | [ty; fl; off; va; pa; fs; ms; al] => mk_phdr ty fl off va pa fs ms al
  | _ => mk_phdr 0 0 0 0 0 0 0 0
  end.

Definition PT_LOAD : Z := 1.
Definition PT_INTERP : Z := 3.
Definition PT_PHDR : Z := 6.
Definition PF_W : Z := 2.
Definition ET_EXEC : Z := 2.
Definition ET_DYN : Z := 3.
Definition EM_X86_64 : Z := 62.
Definition EV_CURRENT : Z := 1.
Definition AT_NULL : Z := 0.
Definition AT_PHDR : Z := 1.
Definition AT_PHNUM : Z := 2.
Definition AT_ENTRY : Z := 3.
Definition AT_IPHDRS : Z := 4.
Definition AT_IPHNUM : Z := 5.
Definition AT_STACK : Z := 6.
Definition AT_STACKSZ : Z := 7.

Notation USER_END := Region.USER_END.
Definition USTACKPGS : Z := 128.
Definition USTACK : Z := 128 * 4096.
Definition ARGMAX : nat := 16.
Definition O_RDONLY : Z := 2.
Definition SEEK_SET : Z := 0.
Definition EOK : Z := 0.

(** ** The state *)

(** What the loader asks of the file layer. *)
Record files (V : Type) := mk_files {
  f_open : list Z -> Z -> Z -> M V Z;
  f_lseek : Z -> Z -> Z -> M V Z;
  f_read : Z -> Z -> M V (Z * list Z);
  f_close : Z -> M V Z
}.
Arguments mk_files {V}.
Arguments f_open {V}.
Arguments f_lseek {V}.
Arguments f_read {V}.
Arguments f_close {V}.

Record lst (V : Type) := mk_lst { l_mm : mm; l_fs : V; l_mallocs : list bool }.
Arguments mk_lst {V}.
Arguments l_mm {V}.
Arguments l_fs {V}.
Arguments l_mallocs {V}.

Record segment_ld_t := mk_seg { code : Z; ptr : Z; npgs : Z }.
Definition SEGLD_ERR (errno : Z) : segment_ld_t := mk_seg errno 0 0.

Record loadinfo_t := mk_info {
  nldsegs : Z; segs : option (list segment_ld_t); has_interp : Z; interp_phdrndx : Z; phdrs_vaddr : Z; ldhigh : Z; ehdr : Elf64_Ehdr }.
Definition no_info : loadinfo_t := mk_info 0 None 0 0 0 0 no_ehdr.

Record loadprog_res_t := mk_res { status : Z; pgtbl : Z; entry : Z; rsp : Z; load_high : Z }.
Definition LOADPROG_ERR (errno : Z) : loadprog_res_t := mk_res errno 0 0 0 0.

Section loader.
Context {V : Type} (F : files V).
(** A bound on the length of the interpreter's name in memory. *)
Context (name_max : nat).
(** What freshly allocated memory holds. *)
Context (junk : list Z).
Notation ML := (M (lst V)).

Definition onmm {A} (m : M mm A) : ML A := fun s =>
  match m (l_mm s) with Done d a => Done (mk_lst d (l_fs s) (l_mallocs s)) a | Fault => Fault end.
Definition onfs {A} (m : M V A) : ML A := fun s =>
  match m (l_fs s) with Done d a => Done (mk_lst (l_mm s) d (l_mallocs s)) a | Fault => Fault end.

(** Whether the next allocation succeeds. *)
Definition malloc : ML bool := fun s =>
  match l_mallocs s with [] => Done s true | b :: r => Done (mk_lst (l_mm s) (l_fs s) r) b end.

(** [read] into memory: what the file layer returned is stored. *)
Definition read_to (fd addr size : Z) : ML Z :=
  '(nread, bs) ← onfs (f_read F fd size);
  _ ← onmm (vwrite addr bs);
  mret nread.

(** ** Segments *)

Definition seg_start (phdr : Elf64_Phdr) (load_base : Z) : Z := frame (u64 (load_base + p_vaddr phdr)).
Definition seg_npgs (phdr : Elf64_Phdr) (load_base : Z) : Z :=
  let seg_vaddr := u64 (load_base + p_vaddr phdr) in
  u64 (frame (u64 (seg_vaddr + p_memsz phdr + 0xFFF)) - frame seg_vaddr) / 4096.

Definition load_segment (phdr : Elf64_Phdr) (fd nasp load_base : Z) : ML segment_ld_t :=
  if p_memsz phdr =? 0 then mret (SEGLD_ERR EOK) else
  let seg_vaddr := u64 (load_base + p_vaddr phdr) in
  let start_page := seg_start phdr load_base in
  let npgs := seg_npgs phdr load_base in
  t ← onmm vmm_cpml4v;
  mapped ← onmm (vmm_map_pages t start_page 0 npgs (MAP_ANYPHYS + MAP_CONT + PAGE_WRITE));
  if mapped =? 0 then mret (SEGLD_ERR (- ENOMEM)) else
  off ← onfs (f_lseek F fd (s64 (p_offset phdr)) SEEK_SET);
  let ret := s32 off in
  if ret <? 0 then mret (SEGLD_ERR ret) else
  _ ← (if p_filesz phdr <? p_memsz phdr
       then onmm (vwrite (u64 (seg_vaddr + p_filesz phdr)) (replicate (Z.to_nat (p_memsz phdr - p_filesz phdr)) 0))
       else mret tt);
  nread ← read_to fd seg_vaddr (p_filesz phdr);
  if (nread <? 0) || (u64 nread <? p_filesz phdr) then mret (SEGLD_ERR (s32 nread)) else
  let flgs := if Z.land (p_flags phdr) PF_W =? 0 then PAGE_USER else Z.lor PAGE_USER PAGE_WRITE in
  t ← onmm vmm_cpml4v;
  paddr ← onmm (vmm_get_phys t start_page);
  m ← onmm (vmm_map_pages nasp start_page paddr npgs (MAP_CONT + flgs));
  if m =? 0 then mret (SEGLD_ERR ENOMEM) else mret (mk_seg 0 start_page npgs).

(** [readoff], with the bytes that arrived. *)
Definition readoff (fd sz off : Z) : ML (Z * list Z) :=
  r ← onfs (f_lseek F fd off SEEK_SET);
  if r <? 0 then mret (0, []) else
  '(nread, bs) ← onfs (f_read F fd sz);
  if (nread <? 0) || (u64 nread <? sz) then mret (s32 nread, bs) else mret (0, bs).

(** The segments leave the active address space. *)
Fixpoint unmap_segs (flags : Z) (l : list segment_ld_t) : ML unit :=
  match l with
  | [] => mret tt
  | g :: r => t ← onmm vmm_cpml4v; _ ← onmm (vmm_unmap_pages t (ptr g) (npgs g) flags); unmap_segs flags r
  end.

Definition clear_segs (l : list segment_ld_t) : ML unit := unmap_segs 0 l.

(** ** A file *)

Definition ident_ok (e : Elf64_Ehdr) : bool :=
  bool_decide (take 6 (e_ident e) = [0x7f; 69; 76; 70; 2; 1]).
Definition type_ok (e : Elf64_Ehdr) : bool :=
  ((e_type e =? ET_EXEC) || (e_type e =? ET_DYN)) && (e_machine e =? EM_X86_64) && (e_version e =? EV_CURRENT).

(** Reads [n] program headers; [ldhigh] so far, and the error or the headers. *)
Fixpoint read_phdrs (n : nat) (fd phentsize base high : Z) : ML (Z * (Z + list Elf64_Phdr)) :=
  match n with
  | O => mret (high, inr [])
  | S n' =>
      '(nread, bs) ← onfs (f_read F fd (Z.of_nat PHDR_SIZE));
      if (nread <? 0) || negb (u64 nread =? phentsize) then mret (high, inl (if nread <? 0 then s32 nread else - EBADEXE)) else
      let p := dec_phdr (bs ++ drop (length bs) junk) in
      let seg_vaddr := u64 (p_vaddr p + base) in
      let seghigh := u64 (seg_vaddr + p_memsz p) in
      if USER_END <=? seghigh then mret (high, inl (- ERANGE)) else
      '(h, r) ← read_phdrs n' fd phentsize base (if high <? seghigh then seghigh else high);
      mret (h, match r with inl e => inl e | inr l => inr (p :: l) end)
  end.

(** The headers from the [i]-th on; [acc] are the segments loaded. *)
Fixpoint load_loop (i : Z) (l : list Elf64_Phdr) (fd nasp base : Z) (acc : list segment_ld_t) (info : loadinfo_t) : ML (Z * loadinfo_t * list segment_ld_t) :=
  match l with
  | [] => mret (0, info, acc)
  | p :: r =>
      if p_type p =? PT_LOAD then
        seg ← load_segment p fd nasp base;
        if code seg <? 0 then _ ← unmap_segs 0 acc; mret (code seg, info, acc)
        else load_loop (i + 1) r fd nasp base (acc ++ [seg])
               (mk_info (nldsegs info + 1) (segs info) (has_interp info) (interp_phdrndx info) (phdrs_vaddr info) (ldhigh info) (ehdr info))
      else if p_type p =? PT_INTERP then
        load_loop (i + 1) r fd nasp base acc (mk_info (nldsegs info) (segs info) 1 i (phdrs_vaddr info) (ldhigh info) (ehdr info))
      else if p_type p =? PT_PHDR then
        load_loop (i + 1) r fd nasp base acc
          (mk_info (nldsegs info) (segs info) (has_interp info) (interp_phdrndx info) (u64 (base + p_vaddr p)) (ldhigh info) (ehdr info))
      else load_loop (i + 1) r fd nasp base acc info
  end.

(** The program headers and the segments of an open file whose header is [e]. *)
Definition load_headers (fd base nasp : Z) (e : Elf64_Ehdr) : ML (Z * loadinfo_t) :=
  let info h g n := mk_info n g 0 0 0 h e in
  off ← onfs (f_lseek F fd (s64 (e_phoff e)) SEEK_SET);
  let ret := s32 off in
  if ret <? 0 then _ ← onfs (f_close F fd); mret (ret, info 0 None 0) else
  ok ← malloc;
  if negb ok then _ ← onfs (f_close F fd); mret (- ENOMEM, info 0 None 0) else
  '(high, r) ← read_phdrs (Z.to_nat (e_phnum e)) fd (e_phentsize e) base 0;
  match r with
  | inl err => _ ← onfs (f_close F fd); mret (err, info high None 0)
  | inr phdrs =>
      ok ← malloc;
      if negb ok then _ ← onfs (f_close F fd); mret (- ENOMEM, info high None 0) else
      '(ret, i, l) ← load_loop 0 phdrs fd nasp base [] (info high None 0);
      _ ← onfs (f_close F fd);
      if ret <? 0 then mret (ret, i)
      else mret (0, mk_info (nldsegs i) (Some l) (has_interp i) (interp_phdrndx i) (phdrs_vaddr i) (ldhigh i) (ehdr i))
  end.

Definition loadexe_base (path : list Z) (base nasp : Z) : ML (Z * loadinfo_t) :=
  fd ← onfs (f_open F path O_RDONLY 0);
  if fd <? 0 then mret (fd, no_info) else
  '(nread, bs) ← onfs (f_read F fd (Z.of_nat EHDR_SIZE));
  if (nread <? 0) || (u64 nread <? Z.of_nat EHDR_SIZE) then
    _ ← onfs (f_close F fd); mret (if nread <? 0 then s32 nread else - EBADEXE, no_info)
  else
  let e := dec_ehdr bs in
  if negb (ident_ok e) then _ ← onfs (f_close F fd); mret (- EBADEXE, no_info) else
  if negb (type_ok e) then _ ← onfs (f_close F fd); mret (- EBADEXE, no_info) else
  let base := if (e_type e =? ET_DYN) && (base =? 0) then 0x200000 else base in
  load_headers fd base nasp e.

(** ** The stack *)

(** The strings, the last one first, below [sp]; the new stack pointer and where
    they are. *)
Fixpoint push_strings (l : list (list Z)) (sp : Z) : M mm (Z * list Z) :=
  match l with
  | [] => mret (sp, [])
  | x :: r =>
      '(sp, addrs) ← push_strings r sp;
      let sp := u64 (sp - (Z.of_nat (length x) + 1)) in
      _ ← vwrite sp (x ++ [0]);
      mret (sp, sp :: addrs)
  end.

Definition push_word (v sp : Z) : M mm Z :=
  let sp := u64 (sp - 8) in
  _ ← vwrite sp (le 8 v);
  mret sp.

Fixpoint push_words (l : list Z) (sp : Z) : M mm Z :=
  match l with [] => mret sp | v :: r => sp ← push_words r sp; push_word v sp end.

(** Entries of the auxiliary vector. *)
Definition aux_bytes (l : list (Z * Z)) : list Z := flat_map (fun a => le 8 a.1 ++ le 8 a.2) l.

Definition push_auxv (auxv : list (Z * Z)) (sp : Z) : M mm Z :=
  let sp := u64 (sp - 16 * 8) in
  _ ← vwrite sp (aux_bytes (take 5 auxv));
  _ ← vwrite (u64 (sp + 80)) (aux_bytes [(AT_STACK, USER_END)]);
  _ ← vwrite (u64 (sp + 96)) (aux_bytes [(AT_STACKSZ, USTACK)]);
  _ ← vwrite (u64 (sp + 112)) (aux_bytes [(AT_NULL, 0)]);
  mret sp.

Definition total_u64s (ac nenv : Z) : Z := 1 + ac + 1 + nenv + 1 + 16 * 8 / 8.

Definition align_sp (ac nenv sp : Z) : Z :=
  if negb (u64 (sp / 8 - total_u64s ac nenv) mod 2 =? 0) then u64 (sp - 8) else sp.

(** What follows the strings. *)
Definition push_tables (auxv : list (Z * Z)) (avaddrs evaddrs : list Z) (sp : Z) : M mm Z :=
  let ac := Z.of_nat (length avaddrs) in
  sp ← push_auxv auxv (align_sp ac (Z.of_nat (length evaddrs)) sp);
  sp ← push_word 0 sp;
  sp ← push_words evaddrs sp;
  sp ← push_word 0 sp;
  sp ← push_words avaddrs sp;
  push_word ac sp.

(** ** A program *)

(** A string in memory. *)
Fixpoint vstring (fuel : nat) (va : Z) : M mm (list Z) :=
  match fuel with
  | O => fault
  | S fuel' => c ← ldb va; if c =? 0 then mret [] else r ← vstring fuel' (u64 (va + 1)); mret (c :: r)
  end.

(** The first [n] entries of [segs]; NULL faults unless there are none. *)
Definition seg_array (info : loadinfo_t) : ML (list segment_ld_t) :=
  if nldsegs info =? 0 then mret [] else
  l ← deref (segs info); mret (take (Z.to_nat (nldsegs info)) l).

(** The interpreter a program asks for: the entries it adds to the auxiliary
    vector, the entry point and the end of what is loaded. *)
Definition load_interp (nasp : Z) (exe : loadinfo_t) : ML (list (Z * Z) * Z * Z) :=
  w ← onmm (vread (u64 (phdrs_vaddr exe + Z.of_nat PHDR_SIZE * interp_phdrndx exe + 16)) 8);
  let intrp_base := frame (u64 (ldhigh exe + 1 + 0xFFF)) in
  name ← onmm (vstring name_max (of_le w));
  '(ret, intrp) ← loadexe_base name intrp_base nasp;
  _ ← (if ret <? 0 then l ← seg_array exe; _ ← unmap_segs 0 l; onmm (vmm_dasp nasp) else mret tt);
  l ← seg_array intrp;
  _ ← unmap_segs UNMAP_KEEPPHYS l;
  mret ([(AT_IPHDRS, phdrs_vaddr intrp); (AT_IPHNUM, e_phnum (ehdr intrp))], u64 (intrp_base + e_entry (ehdr intrp)), ldhigh intrp).

(** Stack and result. *)
Definition finish (nasp entry ldhigh : Z) (auxv : list (Z * Z)) (argv environ : list (list Z)) : ML loadprog_res_t :=
  t ← onmm vmm_cpml4v;
  stkptr ← onmm (vmm_map_pages t (USER_END - USTACK) 0 USTACKPGS (MAP_ANYPHYS + PAGE_WRITE + MAP_CONT));
  if stkptr =? 0 then mret (LOADPROG_ERR (- ENOMEM)) else
  ok ← malloc;
  if negb ok then mret (LOADPROG_ERR (- ENOMEM)) else
  '(sp, evaddrs) ← onmm (push_strings environ USER_END);
  ok ← malloc;
  if negb ok then mret (LOADPROG_ERR (- ENOMEM)) else
  '(sp, avaddrs) ← onmm (push_strings (take ARGMAX argv) sp);
  sp ← onmm (push_tables auxv avaddrs evaddrs sp);
  t ← onmm vmm_cpml4v;
  paddr ← onmm (vmm_get_phys t (USER_END - USTACK));
  m ← onmm (vmm_map_pages nasp (USER_END - USTACK) paddr USTACKPGS (MAP_CONT + PAGE_USER + PAGE_WRITE));
  if m =? 0 then mret (LOADPROG_ERR (- ENOMEM)) else
  t ← onmm vmm_cpml4v;
  _ ← onmm (vmm_unmap_pages t (USER_END - USTACK) USTACKPGS UNMAP_KEEPPHYS);
  mret (mk_res 0 nasp entry sp ldhigh).

Definition load_program (path : list Z) (argv environ : list (list Z)) : ML loadprog_res_t :=
  nasp ← onmm vmm_casp;
  '(ret, exe) ← loadexe_base path 0 nasp;
  if ret <? 0 then _ ← onmm (vmm_dasp nasp); mret (LOADPROG_ERR ret) else
  let auxv := [(AT_PHDR, phdrs_vaddr exe); (AT_PHNUM, e_phnum (ehdr exe)); (AT_ENTRY, e_entry (ehdr exe))] in
  '(aux2, entry, high) ←
    (if negb (has_interp exe =? 0) then load_interp nasp exe
     else mret ([(0, 0); (0, 0)], e_entry (ehdr exe), ldhigh exe));
  l ← seg_array exe;
  _ ← unmap_segs UNMAP_KEEPPHYS l;
  finish nasp entry high (auxv ++ aux2) argv environ.

End loader.

End Loader.
