(* ===== verification/LoaderFacts.v ===== *)
(** What the loader puts into a new address space: the bytes of the file where its
    program headers say, zeros behind them, for one segment and for a file. *)
From S2P Require Import Prelude Pmm Region PageTable PageRange Spaces Loader.

Module LoaderFacts.
Import PageTable PageRange Spaces Loader.

(** ** The file layer *)

(** [opened v fd c pos]: the descriptor reads the contents [c] at [pos]. *)
Class file_reads {V : Type} (F : files V) := {
  opened : V -> Z -> list Z -> Z -> Prop;
  law_lseek : forall v fd c pos off, opened v fd c pos -> 0 <= off < 2 ^ 63 ->
    exists v', f_lseek F fd off SEEK_SET v = Done v' off /\ opened v' fd c off;
  law_fread : forall v fd c pos n, opened v fd c pos -> 0 <= pos <= Z.of_nat (length c) -> 0 <= n < 2 ^ 62 ->
    let b := take (Z.to_nat n) (drop (Z.to_nat pos) c) in
    exists v', f_read F fd n v = Done v' (Z.of_nat (length b), b) /\ opened v' fd c (pos + Z.of_nat (length b));
  law_fclose : forall v fd c pos, opened v fd c pos -> exists v' r, f_close F fd v = Done v' r
}.

(** ** Numbers *)

Definition in_memory (p : Elf64_Phdr) (base : Z) : Z := base + p_vaddr p.
Definition first_page (p : Elf64_Phdr) (base : Z) : Z := in_memory p base / 4096.
Definition pages (p : Elf64_Phdr) (base : Z) : nat := Z.to_nat ((in_memory p base + p_memsz p + 4095) / 4096 - first_page p base).

(** A segment that lies in the file and among the user addresses, above page 0. *)
Record seg_fits (p : Elf64_Phdr) (base : Z) (img : list Z) : Prop := {
  sf_memsz : 0 < p_memsz p;
  sf_filesz : 0 <= p_filesz p <= p_memsz p;
  sf_vaddr : 0 <= base /\ 0 <= p_vaddr p;
  sf_low : 4096 <= in_memory p base;
  sf_high : in_memory p base + p_memsz p <= USER_END;
  sf_offset : 0 <= p_offset p < 2 ^ 31;
  sf_file : p_offset p + p_filesz p <= Z.of_nat (length img)
}.

(** What the program sees of it. *)
Definition seg_bytes (p : Elf64_Phdr) (img : list Z) : list Z :=
  take (Z.to_nat (p_filesz p)) (drop (Z.to_nat (p_offset p)) img) ++ replicate (Z.to_nat (p_memsz p - p_filesz p)) 0.

Section numbers.
Context (p : Elf64_Phdr) (base : Z) (img : list Z) (H : seg_fits p base img).

Lemma start_eq : seg_start p base = first_page p base * 4096.
Proof.
  destruct H as [? ? ? ? ? ? ?]. unfold seg_start, first_page, in_memory, USER_END in *. rewrite wrap_small, frame_eq by (rewrite ?wrap_small; lia). lia.
Qed.

Lemma pages_pos : (0 < pages p base)%nat.
Proof. destruct H as [? ? ? ? ? ? ?]. unfold pages, first_page, in_memory in *. Z.to_euclidean_division_equations. lia. Qed.

Lemma pages_eq : seg_npgs p base = Z.of_nat (pages p base).
Proof.
  pose proof pages_pos as Hpos. destruct H as [? ? ? ? ? ? ?]. unfold seg_npgs, pages, first_page, in_memory, USER_END in *. cbv zeta.
  rewrite (wrap_small 64 (base + p_vaddr p)) by lia. rewrite (wrap_small 64 (base + p_vaddr p + p_memsz p + 0xFFF)) by lia.
  rewrite !frame_eq by lia. rewrite wrap_small by (Z.to_euclidean_division_equations; lia). Z.to_euclidean_division_equations. lia.
Qed.

Lemma pages_range : user_range (first_page p base * 4096) (pages p base) /\ 0 < first_page p base /\
  first_page p base * 4096 <= in_memory p base /\ in_memory p base + p_memsz p <= (first_page p base + Z.of_nat (pages p base)) * 4096.
Proof.
  pose proof pages_pos as Hpos. destruct H as [? ? ? ? ? ? ?]. unfold pages, first_page, in_memory, user_range, aligned, USER_END in *.
  split_and!; [by apply Z_mod_mult|..]; Z.to_euclidean_division_equations; lia.
Qed.

Lemma length_file_part : Z.of_nat (length (take (Z.to_nat (p_filesz p)) (drop (Z.to_nat (p_offset p)) img))) = p_filesz p.
Proof. destruct H as [? ? ? ? ? ? ?]. rewrite length_take, length_drop. lia. Qed.

Lemma length_seg_bytes : Z.of_nat (length (seg_bytes p img)) = p_memsz p.
Proof. destruct H as [? ? ? ? ? ? ?]. unfold seg_bytes. rewrite length_app, length_take, length_drop, length_replicate. lia. Qed.

End numbers.

Lemma run_nfree k st : Pmm.run_ge k st -> nfree_ge k st.
Proof.
  intros (f & ? & ? & Hf). exists (seqZ f (Z.of_nat k)). split_and!; [apply NoDup_seqZ|by rewrite length_seqZ, Nat2Z.id|].
  intros g Hg%elem_of_seqZ. split; [lia|]. apply Hf. lia.
Qed.

Lemma touches_run c k s T s' T' : touches c s T s' T' -> Pmm.run_ge (c + k) (m_pmm s) -> Pmm.run_ge k (m_pmm s').
Proof. intros [_ _ (m & Hm & Ht) _] Hr. eapply Pmm.run_ge_takes; [exact Ht|]. eapply Pmm.run_ge_le; [|exact Hr]. lia. Qed.

(** ** Pages for a segment *)

(** What the steps of the loader leave of the rest. *)
Record carried (s : mm) (r : Z) (Tc Tr : gmap Z (list Z)) (s' : mm) (Tc' Tr' : gmap Z (list Z)) (lo n : Z) : Prop := {
  ca_kept : kept s Tc Tr s' Tc' Tr';
  ca_tr : forall x, 0 <= x < 2 ^ 48 -> ~ lo <= x < lo + n -> translate s' r x = translate s r x;
  ca_hugec : forall x, nohuge (m_mem s) Tc x -> nohuge (m_mem s') Tc' x;
  ca_huger : forall x, nohuge (m_mem s) Tr x -> nohuge (m_mem s') Tr' x;
  ca_hhdm : hhdm_offset s' = hhdm_offset s
}.

Lemma carried_trans s r Tc Tr s1 Tc1 Tr1 s2 Tc2 Tr2 lo n :
  carried s r Tc Tr s1 Tc1 Tr1 lo n -> carried s1 r Tc1 Tr1 s2 Tc2 Tr2 lo n -> carried s r Tc Tr s2 Tc2 Tr2 lo n.
Proof.
  intros [K1 T1 C1 R1 H1] [K2 T2 C2 R2 H2]. split; [by eapply spaces_kept_trans| |auto|auto|congruence].
  intros x Hx Hn. rewrite T2, T1; done.
Qed.

Section segment.
Context (c r : Z) (vst : Z) (n k : nat) (Hn : (0 < n)%nat) (Hur : user_range vst n).

Definition huge_free (s : mm) (T : gmap Z (list Z)) : Prop := forall x, vst <= x < vst + Z.of_nat n * 4096 -> nohuge (m_mem s) T x.

(** Fresh frames behind the pages, in the active space. *)
Lemma pages_fresh s Tc Tr : spaces s c r Tc Tr -> Pmm.run_ge (n + (3 * n + k)) (m_pmm s) -> huge_free s Tc ->
  exists s' Tc' fr, vmm_map_pages (u64 (hhdm_offset s + c)) vst 0 (Z.of_nat n) (MAP_ANYPHYS + MAP_CONT + PAGE_WRITE) s = Done s' vst /\
    spaces s' c r Tc' Tr /\ carried s r Tc Tr s' Tc' Tr vst (Z.of_nat n * 4096) /\ Pmm.run_ge k (m_pmm s') /\
    0 < fr /\ fr * 4096 + Z.of_nat n * 4096 <= 2 ^ 32 /\
    (forall x, fr * 4096 <= x < fr * 4096 + Z.of_nat n * 4096 -> datum s' Tc' Tr x /\ ~ datum s Tc Tr x) /\
    (forall x, vst <= x < vst + Z.of_nat n * 4096 -> translate s' c x = fr * 4096 + (x - vst)).
Proof.
  intros Hsp Hrun Hh. destruct (map_pages_fresh k s Tc c vst n PAGE_WRITE ltac:(apply Hsp) ltac:(apply Hsp) Hur ltac:(done) Hh 0 (run_nfree _ _ Hrun) Hn)
    as [(_ & Hno)|(pm & fr & s' & Tc' & E & Hfr & Hat & Hi & Hsz & Hm)].
  { exfalso. apply (Pmm.run_ge_le n) in Hrun as (f & Hf); [|lia]. apply (Hno f); [apply Hf|done]. }
  destruct (spaces_alloc s c r Tc Tr _ fr pm Hsp ltac:(apply Hat) ltac:(apply Hi) Hfr ltac:(lia)) as (Hsp1 & Hk1 & Hd1).
  destruct (spaces_map_c _ _ _ _ _ _ _ _ _ _ _ Hsp1 Hm) as (Hsp2 & Hk2 & Hun). destruct Hm as [Hi2 _ Hhh _ Htr Hnh _ Htc _].
  exists s', Tc', fr. split_and!; [exact E|done| | |done| | |].
  - split; [by eapply spaces_kept_trans| |done| |done].
    + intros x Hx _. exact (un_translate (set_pmm pm s) s' Tr r x (sp_r _ _ _ _ _ Hsp1) Hun (sp_rootr _ _ _ _ _ Hsp)).
    + intros x. apply (same_nohuge (m_mem (set_pmm pm s))). apply Hun.
  - eapply touches_run; [exact Htc|]. by eapply (Pmm.run_ge_first_fit n).
  - destruct Hat as (((_ & Hb & _) & _) & _). destruct Hsp as [((((_ & ?) & _) & _) & _) _ _ _ _ _ _ _]. lia.
  - intros x Hx. split; [apply Hk2, Hd1; lia|]. intros (_ & Hu & _). destruct Hat as (((_ & _ & Hfree) & _) & _).
    rewrite Hfree in Hu by (Z.to_euclidean_division_equations; lia). done.
  - intros x Hx. destruct Hur as (_ & ? & ?). rewrite Htr by lia. by rewrite decide_True.
Qed.

(** The same frames in the other space. *)
Lemma pages_shared s Tc Tr fr f : spaces s c r Tc Tr -> Pmm.run_ge (3 * n + k) (m_pmm s) -> huge_free s Tr -> 0 <= f < 4096 ->
  0 <= fr -> fr * 4096 + Z.of_nat n * 4096 <= 2 ^ 32 ->
  exists s' Tr', vmm_map_pages (u64 (hhdm_offset s + r)) vst (fr * 4096) (Z.of_nat n) (MAP_CONT + f) s = Done s' vst /\
    spaces s' c r Tc Tr' /\ carried s r Tc Tr s' Tc Tr' vst (Z.of_nat n * 4096) /\ Pmm.run_ge k (m_pmm s') /\
    (forall x, vst <= x < vst + Z.of_nat n * 4096 -> translate s' r x = fr * 4096 + (x - vst)).
Proof.
  intros Hsp Hrun Hh Hf Hfr Hsz.
  destruct (map_pages_given k s Tr r vst n f ltac:(apply Hsp) ltac:(apply Hsp) Hur Hf Hh (fr * 4096) (run_nfree _ _ Hrun)) as (s' & Tr' & E & Hm);
    [by apply Z_mod_mult|lia|lia|].
  destruct (spaces_map_r _ _ _ _ _ _ _ _ _ _ _ Hsp Hm) as (Hsp2 & Hk2 & Hun). destruct Hm as [Hi2 _ Hhh _ Htr Hnh _ Htc _].
  exists s', Tr'. split_and!; [exact E|done| | |].
  - split; [done| | |done|done].
    + intros x Hx Hn'. rewrite Htr by done. by rewrite decide_False.
    + intros x. apply same_nohuge. apply Hun.
  - by eapply touches_run.
  - intros x Hx. destruct Hur as (_ & ? & ?). rewrite Htr by lia. by rewrite decide_True.
Qed.

End segment.

(** ** Stores *)

(** Virtual [va ..] is data at [pa ..] in the active space. *)
Definition seen (s : mm) (c : Z) (Tc Tr : gmap Z (list Z)) (va pa n : Z) : Prop :=
  0 <= va /\ va + n <= 2 ^ 47 /\ forall i, 0 <= i < n -> translate s c (va + i) = pa + i /\ datum s Tc Tr (pa + i).

Lemma seen_sub s c Tc Tr va pa n d m : seen s c Tc Tr va pa n -> 0 <= d -> 0 <= m -> d + m <= n -> seen s c Tc Tr (va + d) (pa + d) m.
Proof. intros (? & ? & H) ? ? ?. split_and!; [lia|lia|]. intros i Hi. rewrite <- !Z.add_assoc. apply H. lia. Qed.

Lemma user_store_ok s c r Tc Tr va pa bs : spaces s c r Tc Tr -> seen s c Tc Tr va pa (Z.of_nat (length bs)) -> bytes bs ->
  let s' := set_mem (pputs (m_mem s) pa bs) s in
  vwrite va bs s = Done s' tt /\ spaces s' c r Tc Tr /\ same_tables (m_mem s) (m_mem s') Tc /\ same_tables (m_mem s) (m_mem s') Tr /\
  forall x, translate s' c x = translate s c x /\ translate s' r x = translate s r x.
Proof.
  intros Hsp (Hva & Hve & Hs) Hbs s'.
  assert (forall x, pa <= x < pa + Z.of_nat (length bs) -> datum s Tc Tr x) as Hd.
  { intros x Hx. replace x with (pa + (x - pa)) by lia. apply Hs. lia. }
  destruct (spaces_store s c r Tc Tr pa bs Hsp Hbs Hd) as (Hsp' & H1 & H2). split_and!; try done.
  - destruct bs as [|b bs]; [unfold s'; cbn; by destruct s|]. eapply (vwrite_ok Tc c); [apply Hsp| |reflexivity].
    split_and!; try apply Hsp; try done; [by apply (datum_data s Tc Tr); [cbn; lia|]|]. intros i Hi. by apply Hs.
  - intros x. destruct Hsp as [Hc Hr ? ? _ _ _ _]. split; [eapply (same_translate s s'); [exact H1|apply Hc|done]|eapply (same_translate s s'); [exact H2|apply Hr|done]].
Qed.

(** [va ..] shows [bs] in the space [r], in memory that is no table. *)
Definition placed (s : mm) (r : Z) (Tc Tr : gmap Z (list Z)) (va : Z) (bs : list Z) : Prop :=
  exists pa, holds_at (m_mem s) pa bs /\ forall i, 0 <= i < Z.of_nat (length bs) -> translate s r (va + i) = pa + i /\ datum s Tc Tr (pa + i).

(** It stays there over steps in which the pages behind it are not mapped anew. *)
Lemma placed_carried s r Tc Tr s' Tc' Tr' lo n va bs : carried s r Tc Tr s' Tc' Tr' lo n -> placed s r Tc Tr va bs ->
  0 <= va -> va + Z.of_nat (length bs) <= 2 ^ 48 -> va + Z.of_nat (length bs) <= lo \/ lo + n <= va -> placed s' r Tc' Tr' va bs.
Proof.
  intros [Hk Ht _ _ _] (pa & Hh & Hp) Hva Hve Hd. exists pa. split.
  - eapply holds_at_keep; [done|]. intros x Hx. apply Hk. replace x with (pa + (x - pa)) by lia. apply Hp. lia.
  - intros i Hi. destruct (Hp i Hi) as [E D]. rewrite Ht by lia. split; [done|]. by apply Hk.
Qed.

(** ** [load_segment] *)

Section load.
Context {V : Type} (F : files V) `{!file_reads F}.

Lemma onmm_done {A} (m : M mm A) (s : lst V) d (a : A) : m (l_mm s) = Done d a -> onmm m s = Done (mk_lst d (l_fs s) (l_mallocs s)) a.
Proof. unfold onmm. by intros ->. Qed.

Lemma onfs_done {A} (m : M V A) (s : lst V) d (a : A) : m (l_fs s) = Done d a -> onfs m s = Done (mk_lst (l_mm s) d (l_mallocs s)) a.
Proof. unfold onfs. by intros ->. Qed.

Lemma cpml4v_ok s c r Tc Tr : spaces s c r Tc Tr -> vmm_cpml4v s = Done s (u64 (hhdm_offset s + c)).
Proof. intros H. unfold vmm_cpml4v. by rewrite (sp_cr3 _ _ _ _ _ H). Qed.

(** The zeros, then the bytes of the file. *)
Lemma fill_ok s c r Tc Tr va pa fb nz (v : V) mall fd pos img off :
  spaces s c r Tc Tr -> seen s c Tc Tr va pa (Z.of_nat (length fb) + Z.of_nat nz) -> bytes fb ->
  opened v fd img pos -> off = pos -> 0 <= off -> off + Z.of_nat (length fb) <= Z.of_nat (length img) -> Z.of_nat (length fb) < 2 ^ 62 ->
  fb = take (length fb) (drop (Z.to_nat off) img) ->
  exists s' v' pos',
    (_ ← (if Z.of_nat (length fb) <? Z.of_nat (length fb) + Z.of_nat nz then onmm (vwrite (u64 (va + Z.of_nat (length fb))) (replicate nz 0)) else mret tt);
     read_to F fd va (Z.of_nat (length fb))) (mk_lst s v mall) = Done (mk_lst s' v' mall) (Z.of_nat (length fb)) /\
    opened v' fd img pos' /\ spaces s' c r Tc Tr /\ holds_at (m_mem s') pa (fb ++ replicate nz 0) /\
    (forall x, translate s' c x = translate s c x /\ translate s' r x = translate s r x) /\
    same_tables (m_mem s) (m_mem s') Tc /\ same_tables (m_mem s) (m_mem s') Tr /\
    (exists m', s' = set_mem m' s) /\
    (forall x, ~ pa <= x < pa + (Z.of_nat (length fb) + Z.of_nat nz) -> pbyte (m_mem s') x = pbyte (m_mem s) x).
Proof.
  intros Hsp Hseen Hfb Hop -> Hoff Himg Hsz Efb. pose proof Hseen as (? & ? & _).
  assert (bytes (replicate nz 0)) as Hz by (apply Forall_replicate; lia).
  destruct (user_store_ok s c r Tc Tr (va + Z.of_nat (length fb)) (pa + Z.of_nat (length fb)) (replicate nz 0) Hsp) as (E1 & Hsp1 & S1 & S1' & T1);
    [rewrite length_replicate; apply (seen_sub s c Tc Tr va pa _ _ _ Hseen); lia|done|].
  set (s1 := set_mem (pputs (m_mem s) (pa + Z.of_nat (length fb)) (replicate nz 0)) s) in *.
  assert (seen s1 c Tc Tr va pa (Z.of_nat (length fb))) as Hseen1.
  { destruct Hseen as (_ & _ & Hs). split_and!; [lia|lia|]. intros i Hi. destruct (T1 (va + i)) as [-> _]. apply (Hs i). lia. }
  destruct (user_store_ok s1 c r Tc Tr va pa fb Hsp1 Hseen1 Hfb) as (E2 & Hsp2 & S2 & S2' & T2).
  destruct (law_fread v fd img pos (Z.of_nat (length fb)) Hop ltac:(lia) ltac:(lia)) as (v' & Ev & Hop').
  rewrite Nat2Z.id, <- Efb in Ev, Hop'. set (s2 := set_mem (pputs (m_mem s1) pa fb) s1) in *.
  exists s2, v', (pos + Z.of_nat (length fb)). split_and!.
  - assert (forall b : bool, (b = false -> nz = 0%nat) ->
      (if b then onmm (vwrite (u64 (va + Z.of_nat (length fb))) (replicate nz 0)) else mret tt) (mk_lst s v mall) = Done (mk_lst s1 v mall) tt) as Eb.
    { intros [] Hb; [rewrite wrap_small by lia; by apply (onmm_done _ (mk_lst s v mall) s1 tt)|]. unfold s1. rewrite (Hb eq_refl). cbn. by destruct s. }
    assert ((Z.of_nat (length fb) <? Z.of_nat (length fb) + Z.of_nat nz) = false -> nz = 0%nat) as Hb by (intros ?%Z.ltb_ge; lia).
    rewrite (bind_done _ _ _ _ _ (Eb _ Hb)).
    unfold read_to. rewrite (bind_done _ _ _ _ _ (onfs_done _ (mk_lst s1 v mall) _ _ Ev)). cbn [l_mm l_mallocs].
    by rewrite (bind_done _ _ _ _ _ (onmm_done _ (mk_lst s1 v' mall) s2 tt E2)).
  - done.
  - done.
  - intros i b Hi. unfold s2. cbn [m_mem set_mem]. apply lookup_app_Some in Hi as [Hi|[Hl Hi]]; [by apply pputs_at|].
    rewrite pputs_out by (done || lia). replace (pa + Z.of_nat i) with (pa + Z.of_nat (length fb) + Z.of_nat (i - length fb)) by lia. by apply pputs_at.
  - intros x. destruct (T2 x) as [-> ->]. apply T1.
  - intros t' p' i Ht Hi. rewrite (S2 t' p' i Ht Hi). by eapply S1.
  - intros t' p' i Ht Hi. rewrite (S2' t' p' i Ht Hi). by eapply S1'.
  - by eexists.
  - intros x Hx. unfold s2. cbn [m_mem set_mem]. rewrite pputs_out by (done || lia). unfold s1. cbn [m_mem set_mem].
    apply pputs_out; [done|]. rewrite length_replicate. lia.
Qed.

(** Stores to frames that were free. *)
Lemma carried_store s r Tc Tr s1 Tc1 s2 m' lo n : carried s r Tc Tr s1 Tc1 Tr lo n -> s2 = set_mem m' s1 ->
  (forall x, translate s2 r x = translate s1 r x) -> same_tables (m_mem s1) m' Tc1 -> same_tables (m_mem s1) m' Tr ->
  (forall x, datum s Tc Tr x -> pbyte m' x = pbyte (m_mem s1) x) -> carried s r Tc Tr s2 Tc1 Tr lo n.
Proof.
  intros [Hk Ht Hc Hr Hh] -> Htr S1 S2 Hb. split; [| | | |done].
  - intros x Hx. destruct (Hk x Hx) as [D E]. split; [done|]. rewrite <- E. by apply Hb.
  - intros x Hx Hn. rewrite Htr. by apply Ht.
  - intros x Hx. eapply same_nohuge; [exact S1|]. by apply Hc.
  - intros x Hx. eapply same_nohuge; [exact S2|]. by apply Hr.
Qed.

Definition no_huge_pages (s : mm) (Tc Tr : gmap Z (list Z)) (p : Elf64_Phdr) (base : Z) : Prop :=
  huge_free (first_page p base * 4096) (pages p base) s Tc /\ huge_free (first_page p base * 4096) (pages p base) s Tr.

Lemma seg_flags (b : bool) : 0 <= (if b then PAGE_USER else Z.lor PAGE_USER PAGE_WRITE) < 4096.
Proof. destruct b; vm_compute; split; congruence || done. Qed.

(** The filled pages in the new space. *)
Lemma share_filled s c r Tc Tr (v : V) mall vst n fr f va bs k :
  spaces s c r Tc Tr -> (0 < n)%nat -> user_range vst n -> 0 < vst -> Pmm.run_ge (3 * n + k) (m_pmm s) -> huge_free vst n s Tr -> 0 <= f < 4096 ->
  0 <= fr -> fr * 4096 + Z.of_nat n * 4096 <= 2 ^ 32 ->
  (forall x, vst <= x < vst + Z.of_nat n * 4096 -> translate s c x = fr * 4096 + (x - vst)) ->
  (forall x, fr * 4096 <= x < fr * 4096 + Z.of_nat n * 4096 -> datum s Tc Tr x) ->
  vst <= va -> va + Z.of_nat (length bs) <= vst + Z.of_nat n * 4096 -> holds_at (m_mem s) (fr * 4096 + (va - vst)) bs ->
  exists s' Tr',
    (t ← onmm vmm_cpml4v; paddr ← onmm (vmm_get_phys t vst);
     m ← onmm (vmm_map_pages (u64 (hhdm_offset s + r)) vst paddr (Z.of_nat n) (MAP_CONT + f));
     if m =? 0 then mret (SEGLD_ERR ENOMEM) else mret (mk_seg 0 vst (Z.of_nat n))) (mk_lst s v mall) =
      Done (mk_lst s' v mall) (mk_seg 0 vst (Z.of_nat n)) /\
    spaces s' c r Tc Tr' /\ Pmm.run_ge k (m_pmm s') /\ carried s r Tc Tr s' Tc Tr' vst (Z.of_nat n * 4096) /\ placed s' r Tc Tr' va bs.
Proof.
  intros Hsp Hn Hur Hv Hrun Hh Hf Hfr Hfr2 Ht Hd Hlo Hhi Hat.
  destruct (pages_shared c r vst n k Hn Hur s Tc Tr fr f Hsp Hrun Hh Hf Hfr Hfr2) as (s3 & Tr3 & E3 & Hsp3 & Hca3 & Hrun3 & Ht3).
  rewrite (bind_done _ _ _ _ _ (onmm_done _ (mk_lst s v mall) s _ (cpml4v_ok s c r Tc Tr Hsp))). cbn [l_fs l_mallocs].
  assert (vmm_get_phys (u64 (hhdm_offset s + c)) vst s = Done s (fr * 4096)) as Ep.
  { rewrite (vmm_get_phys_ok s Tc c vst (sp_c _ _ _ _ _ Hsp) (sp_rootc _ _ _ _ _ Hsp)), Ht by lia. do 2 f_equal. lia. }
  rewrite (bind_done _ _ _ _ _ (onmm_done _ (mk_lst s v mall) s _ Ep)), (bind_done _ _ _ _ _ (onmm_done _ (mk_lst s v mall) s3 _ E3)). cbn [l_fs l_mallocs].
  rewrite (proj2 (Z.eqb_neq vst 0)) by lia. exists s3, Tr3. split_and!; try done. exists (fr * 4096 + (va - vst)). split.
  - eapply holds_at_keep; [exact Hat|]. intros x Hx. apply (ca_kept _ _ _ _ _ _ _ _ _ Hca3), Hd. lia.
  - intros i Hi. rewrite Ht3 by lia. split; [lia|]. apply (ca_kept _ _ _ _ _ _ _ _ _ Hca3), Hd. lia.
Qed.

Lemma load_segment_ok s c r Tc Tr p fd base (v : V) pos img mall k :
  spaces s c r Tc Tr -> opened v fd img pos -> bytes img -> seg_fits p base img -> no_huge_pages s Tc Tr p base ->
  Pmm.run_ge (7 * pages p base + k) (m_pmm s) ->
  exists s' v' pos' Tc' Tr',
    load_segment F p fd (u64 (hhdm_offset s + r)) base (mk_lst s v mall) =
      Done (mk_lst s' v' mall) (mk_seg 0 (first_page p base * 4096) (Z.of_nat (pages p base))) /\
    opened v' fd img pos' /\ spaces s' c r Tc' Tr' /\ Pmm.run_ge k (m_pmm s') /\
    carried s r Tc Tr s' Tc' Tr' (first_page p base * 4096) (Z.of_nat (pages p base) * 4096) /\
    placed s' r Tc' Tr' (in_memory p base) (seg_bytes p img).
Proof.
  intros Hsp Hop Himg Hfit [Hhc Hhr] Hrun. destruct (pages_range p base img Hfit) as (Hur & Hfp & Hlo & Hhi).
  pose proof (pages_pos p base img Hfit) as Hn. pose proof (length_seg_bytes p base img Hfit) as Hlen.
  pose proof (length_file_part p base img Hfit) as Efz. unfold load_segment. rewrite (start_eq p base img Hfit), (pages_eq p base img Hfit).
  destruct Hfit as [Hm Hf [Hb Hv] Hl Hh Ho Hfile]. unfold USER_END in Hh.
  replace (u64 (base + p_vaddr p)) with (in_memory p base) by (unfold in_memory in *; rewrite wrap_small; lia).
  set (n := pages p base) in *. set (vst := first_page p base * 4096) in *. set (va := in_memory p base) in *.
  rewrite (proj2 (Z.eqb_neq (p_memsz p) 0)) by lia.
  rewrite (bind_done _ _ _ _ _ (onmm_done _ (mk_lst s v mall) s _ (cpml4v_ok s c r Tc Tr Hsp))).
  destruct (pages_fresh c r vst n (3 * n + k) Hn Hur s Tc Tr Hsp) as (s1 & Tc1 & fr & E1 & Hsp1 & Hca1 & Hrun1 & Hfr & Hfr2 & Hd1 & Ht1).
  { by replace (n + (3 * n + (3 * n + k)))%nat with (7 * n + k)%nat by lia. }
  { done. }
  rewrite (bind_done _ _ _ _ _ (onmm_done _ (mk_lst s v mall) s1 _ E1)). cbn [l_fs l_mallocs].
  rewrite (proj2 (Z.eqb_neq vst 0)) by lia.
  destruct (law_lseek v fd img pos (p_offset p) Hop ltac:(lia)) as (v1 & Es & Hop1).
  rewrite (sext_small 64) by lia. rewrite (bind_done _ _ _ _ _ (onfs_done _ (mk_lst s1 v mall) v1 _ Es)). cbn [l_mm l_mallocs].
  rewrite (sext_small 32) by lia. rewrite (proj2 (Z.ltb_ge (p_offset p) 0)) by lia.
  set (fb := take (Z.to_nat (p_filesz p)) (drop (Z.to_nat (p_offset p)) img)) in *. set (nz := Z.to_nat (p_memsz p - p_filesz p)).
  assert (p_memsz p = Z.of_nat (length fb) + Z.of_nat nz) as Emz by lia.
  assert (seen s1 c Tc1 Tr va (fr * 4096 + (va - vst)) (Z.of_nat (length fb) + Z.of_nat nz)) as Hseen.
  { split_and!; [lia|lia|]. intros i Hi. split; [rewrite Ht1 by lia; lia|]. apply Hd1. lia. }
  destruct (fill_ok s1 c r Tc1 Tr va (fr * 4096 + (va - vst)) fb nz v1 mall fd (p_offset p) img (p_offset p) Hsp1 Hseen)
    as (s2 & v2 & pos2 & E2 & Hop2 & Hsp2 & Hat & Htr & S1 & S2 & (m2 & Em2) & Hpb); try done; try lia.
  { apply Forall_take, Forall_drop, Himg. }
  { replace (length fb) with (Z.to_nat (p_filesz p)) by lia. done. }
  rewrite <- Emz, Efz in E2. apply bind_inv in E2 as (x1 & u & E2a & E2b). fold nz.
  rewrite (bind_done _ _ _ _ _ E2a), (bind_done _ _ _ _ _ E2b).
  rewrite (proj2 (Z.ltb_ge (p_filesz p) 0)), wrap_small, Z.ltb_irrefl by lia. cbn [orb].
  assert (carried s r Tc Tr s2 Tc1 Tr vst (Z.of_nat n * 4096)) as Hca2.
  { eapply carried_store; [exact Hca1|exact Em2|apply Htr|by rewrite Em2 in S1|by rewrite Em2 in S2|].
    intros x Hx. rewrite Em2 in Hpb. apply Hpb. intros Hx'. destruct (Hd1 x) as [_ Hno]; [lia|done]. }
  pose proof (seg_flags (Z.land (p_flags p) PF_W =? 0)) as Hfl. set (f := if _ : bool then PAGE_USER else _) in *.
  destruct (share_filled s2 c r Tc1 Tr v2 mall vst n fr f va (seg_bytes p img) k Hsp2 Hn Hur) as (s3 & Tr3 & E3 & Hsp3 & Hrun3 & Hca3 & Hpl); try done; try lia.
  { by rewrite Em2. }
  { intros x Hx. apply Hca2. by apply Hhr. }
  { intros x Hx. destruct (Htr x) as [-> _]. by apply Ht1. }
  { intros x Hx. rewrite Em2. by apply Hd1. }
  rewrite (ca_hhdm _ _ _ _ _ _ _ _ _ Hca2) in E3. rewrite E3.
  exists s3, v2, pos2, Tc1, Tr3. split_and!; try done. by eapply carried_trans.
Qed.

(** ** The segments of a file *)

Definition is_load (p : Elf64_Phdr) : bool := p_type p =? PT_LOAD.

(** The addresses from [va] on are outside the pages of a segment. *)
Definition off_pages (base va n : Z) (p : Elf64_Phdr) : Prop :=
  va + n <= first_page p base * 4096 \/ (first_page p base + Z.of_nat (pages p base)) * 4096 <= va.

Definition pages_apart (base : Z) (p q : Elf64_Phdr) : Prop :=
  off_pages base (first_page p base * 4096) (Z.of_nat (pages p base) * 4096) q.

(** Segments on pages of their own. *)
Fixpoint apart_segs (base : Z) (l : list Elf64_Phdr) : Prop :=
  match l with [] => True | p :: r => Forall (pages_apart base p) r /\ apart_segs base r end.

Definition total_pages (base : Z) (l : list Elf64_Phdr) : nat := sum_list (map (fun p => pages p base) l).

Definition seg_of (base : Z) (p : Elf64_Phdr) : segment_ld_t := mk_seg 0 (first_page p base * 4096) (Z.of_nat (pages p base)).

(** What the loop notes about the headers. *)
Fixpoint noted (base i : Z) (l : list Elf64_Phdr) (info : loadinfo_t) : loadinfo_t :=
  match l with
  | [] => info
  | p :: r =>
      noted base (i + 1) r
        (mk_info (nldsegs info + (if is_load p then 1 else 0)) (segs info)
           (if negb (is_load p) && (p_type p =? PT_INTERP) then 1 else has_interp info)
           (if negb (is_load p) && (p_type p =? PT_INTERP) then i else interp_phdrndx info)
           (if negb (is_load p) && negb (p_type p =? PT_INTERP) && (p_type p =? PT_PHDR) then u64 (base + p_vaddr p) else phdrs_vaddr info)
           (ldhigh info) (ehdr info))
  end.

(** Every segment of [l] is in place, and what was elsewhere is still there. *)
Record all_placed (s : mm) (r : Z) (Tc Tr : gmap Z (list Z)) (s' : mm) (Tc' Tr' : gmap Z (list Z)) (base : Z) (img : list Z) (l : list Elf64_Phdr) : Prop := {
  ap_placed : Forall (fun p => placed s' r Tc' Tr' (in_memory p base) (seg_bytes p img)) l;
  ap_rest : forall va bs, placed s r Tc Tr va bs -> 0 <= va -> va + Z.of_nat (length bs) <= 2 ^ 48 ->
    Forall (off_pages base va (Z.of_nat (length bs))) l -> placed s' r Tc' Tr' va bs;
  ap_tr : forall x, 0 <= x < 2 ^ 48 -> Forall (off_pages base x 1) l -> translate s' r x = translate s r x;
  ap_hugec : forall x, nohuge (m_mem s) Tc x -> nohuge (m_mem s') Tc' x;
  ap_huger : forall x, nohuge (m_mem s) Tr x -> nohuge (m_mem s') Tr' x;
  ap_hhdm : hhdm_offset s' = hhdm_offset s
}.

Lemma all_placed_cons s r Tc Tr s1 Tc1 Tr1 s2 Tc2 Tr2 base img p l :
  carried s r Tc Tr s1 Tc1 Tr1 (first_page p base * 4096) (Z.of_nat (pages p base) * 4096) ->
  placed s1 r Tc1 Tr1 (in_memory p base) (seg_bytes p img) -> seg_fits p base img -> Forall (pages_apart base p) l ->
  all_placed s1 r Tc1 Tr1 s2 Tc2 Tr2 base img l -> all_placed s r Tc Tr s2 Tc2 Tr2 base img (p :: l).
Proof.
  intros Hca Hpl Hfit Hap [A1 A2 A3 A4 A5 A6]. destruct (pages_range p base img Hfit) as ((_ & ? & ?) & ? & ? & ?). pose proof (length_seg_bytes p base img Hfit) as Hl.
  split.
  - constructor; [|done]. apply A2; [done|lia|rewrite Hl; lia|]. eapply Forall_impl; [exact Hap|]. intros q [Hq|Hq]; [left|right]; cbn beta in *; lia.
  - intros va bs Hp Hva Hve [[Hd|Hd] Hr]%Forall_cons; (apply A2; [|done..]); eapply placed_carried; eauto; lia.
  - intros x Hx [[Hd|Hd] Hr]%Forall_cons; (rewrite A3; [|done..]); apply Hca; lia.
  - intros x Hx. apply A4, Hca, Hx.
  - intros x Hx. apply A5, Hca, Hx.
  - rewrite A6. apply Hca.
Qed.

Lemma load_loop_ok l : forall i acc info s (v : V) pos Tc Tr c r fd base img mall k,
  spaces s c r Tc Tr -> opened v fd img pos -> bytes img ->
  Forall (fun p => seg_fits p base img /\ no_huge_pages s Tc Tr p base) (List.filter is_load l) -> apart_segs base (List.filter is_load l) ->
  Pmm.run_ge (7 * total_pages base (List.filter is_load l) + k) (m_pmm s) ->
  exists s' v' pos' Tc' Tr',
    load_loop F i l fd (u64 (hhdm_offset s + r)) base acc info (mk_lst s v mall) =
      Done (mk_lst s' v' mall) (0, noted base i l info, acc ++ map (seg_of base) (List.filter is_load l)) /\
    opened v' fd img pos' /\ spaces s' c r Tc' Tr' /\ Pmm.run_ge k (m_pmm s') /\
    all_placed s r Tc Tr s' Tc' Tr' base img (List.filter is_load l).
Proof.
  induction l as [|p l IH]; intros i acc info s v pos Tc Tr c r fd base img mall k Hsp Hop Himg Hfit Hap Hrun; cbn [load_loop noted].
  { exists s, v, pos, Tc, Tr. rewrite app_nil_r. by split_and!. }
  cbn [List.filter] in *. destruct (is_load p) eqn:El; unfold is_load in El; rewrite El; cbn [negb andb].
  - apply Forall_cons in Hfit as [[Hf Hh] Hfit]. destruct Hap as [Hap1 Hap].
    destruct (load_segment_ok s c r Tc Tr p fd base v pos img mall (7 * total_pages base (List.filter is_load l) + k) Hsp Hop Himg Hf Hh)
      as (s1 & v1 & pos1 & Tc1 & Tr1 & E1 & Hop1 & Hsp1 & Hrun1 & Hca & Hpl).
    { eapply Pmm.run_ge_le; [|exact Hrun]. unfold total_pages. cbn. lia. }
    rewrite (bind_done _ _ _ _ _ E1). cbn [code Z.ltb Z.compare].
    destruct (IH (i + 1) (acc ++ [seg_of base p]) (mk_info (nldsegs info + 1) (segs info) (has_interp info) (interp_phdrndx info) (phdrs_vaddr info) (ldhigh info) (ehdr info))
                s1 v1 pos1 Tc1 Tr1 c r fd base img mall k Hsp1 Hop1 Himg) as (s2 & v2 & pos2 & Tc2 & Tr2 & E2 & Hop2 & Hsp2 & Hrun2 & Hall); try done.
    { eapply Forall_impl; [exact Hfit|]. intros q [Hq [Hq1 Hq2]]. split; [done|]. split; intros x Hx; apply Hca; [by apply Hq1|by apply Hq2]. }
    exists s2, v2, pos2, Tc2, Tr2. rewrite (ca_hhdm _ _ _ _ _ _ _ _ _ Hca), <- app_assoc in E2. split_and!; try done. by eapply all_placed_cons.
  - rewrite Z.add_0_r. destruct (p_type p =? PT_INTERP) eqn:Ei; cbn [negb andb]; [|destruct (p_type p =? PT_PHDR) eqn:Ep].
    + eapply IH; eauto.
    + eapply IH; eauto.
    + destruct info. eapply IH; eauto.
Qed.

(** ** The headers *)

Fixpoint phdrs_at (n : nat) (bs : list Z) : list Elf64_Phdr :=
  match n with O => [] | S n' => dec_phdr (take PHDR_SIZE bs) :: phdrs_at n' (drop PHDR_SIZE bs) end.

Definition highest (base h : Z) (l : list Elf64_Phdr) : Z := fold_left (fun h p => Z.max h (in_memory p base + p_memsz p)) l h.

(** A header that passes the check of the loader, without wrap-around. *)
Definition phdr_low (base : Z) (p : Elf64_Phdr) : Prop := 0 <= p_vaddr p /\ 0 <= p_memsz p /\ in_memory p base + p_memsz p < USER_END.

Context (junk : list Z).

Lemma dec_phdr_app b r : length b = PHDR_SIZE -> dec_phdr (b ++ r) = dec_phdr b.
Proof. intros Hl. unfold dec_phdr. rewrite dec_fields_app; [done|]. rewrite Hl. by apply Nat.leb_le. Qed.

Lemma read_phdrs_ok n : forall (v : V) fd img pos base high s mall, opened v fd img pos -> 0 <= pos -> 0 <= base ->
  pos + Z.of_nat PHDR_SIZE * Z.of_nat n <= Z.of_nat (length img) -> Forall (phdr_low base) (phdrs_at n (drop (Z.to_nat pos) img)) ->
  exists v' pos', read_phdrs F junk n fd (Z.of_nat PHDR_SIZE) base high (mk_lst s v mall) =
      Done (mk_lst s v' mall) (highest base high (phdrs_at n (drop (Z.to_nat pos) img)), inr (phdrs_at n (drop (Z.to_nat pos) img))) /\
    opened v' fd img pos'.
Proof.
  induction n as [|n IH]; intros v fd img pos base high s mall Hop Hpos Hb Hlen Hlow; cbn [read_phdrs phdrs_at] in *; [by exists v, pos|].
  apply Forall_cons in Hlow as [(Hv & Hm & Hu) Hlow]. unfold PHDR_SIZE in Hlen.
  destruct (law_fread v fd img pos (Z.of_nat PHDR_SIZE) Hop ltac:(lia) ltac:(done)) as (v1 & E & Hop1). rewrite Nat2Z.id in *.
  set (b := take PHDR_SIZE (drop (Z.to_nat pos) img)) in *.
  assert (length b = PHDR_SIZE) as Hlb by (unfold b, PHDR_SIZE; rewrite length_take, length_drop; lia).
  rewrite (bind_done _ _ _ _ _ (onfs_done _ (mk_lst s v mall) v1 _ E)), Hlb. cbn [l_mm l_mallocs]. change (Z.of_nat PHDR_SIZE <? 0) with false.
  rewrite wrap_small by done. rewrite Z.eqb_refl. cbn [negb orb]. rewrite dec_phdr_app by done. unfold in_memory, USER_END in *.
  rewrite (wrap_small 64 (p_vaddr (dec_phdr b) + base)) by lia. rewrite (wrap_small 64 (p_vaddr (dec_phdr b) + base + _)) by lia.
  rewrite (proj2 (Z.leb_gt 0x00007FFFFFFFF000 _)) by lia.
  assert ((if high <? p_vaddr (dec_phdr b) + base + p_memsz (dec_phdr b) then p_vaddr (dec_phdr b) + base + p_memsz (dec_phdr b) else high)
          = Z.max high (base + p_vaddr (dec_phdr b) + p_memsz (dec_phdr b))) as -> by (destruct (Z.ltb_spec high (p_vaddr (dec_phdr b) + base + p_memsz (dec_phdr b))); lia).
  rewrite Hlb in Hop1. destruct (IH v1 fd img (pos + Z.of_nat PHDR_SIZE) base (Z.max high (base + p_vaddr (dec_phdr b) + p_memsz (dec_phdr b))) s mall Hop1)
    as (v2 & pos2 & E2 & Hop2); [unfold PHDR_SIZE; lia|done|unfold PHDR_SIZE; lia| |].
  { rewrite drop_drop in Hlow. by replace (Z.to_nat (pos + Z.of_nat PHDR_SIZE)) with (Z.to_nat pos + PHDR_SIZE)%nat by (unfold PHDR_SIZE; lia). }
  exists v2, pos2. rewrite (bind_done _ _ _ _ _ E2). rewrite drop_drop.
  replace (Z.to_nat (pos + Z.of_nat PHDR_SIZE)) with (Z.to_nat pos + PHDR_SIZE)%nat by (unfold PHDR_SIZE; lia). done.
Qed.

Definition header_of (img : list Z) : Elf64_Ehdr := dec_ehdr (take EHDR_SIZE img).
Definition load_base (img : list Z) (base : Z) : Z := if (e_type (header_of img) =? ET_DYN) && (base =? 0) then 0x200000 else base.
Definition phdrs_of (img : list Z) : list Elf64_Phdr := phdrs_at (Z.to_nat (e_phnum (header_of img))) (drop (Z.to_nat (e_phoff (header_of img))) img).
Definition loads_of (img : list Z) : list Elf64_Phdr := List.filter is_load (phdrs_of img).

(** An image whose headers are in order and whose segments have pages of their own. *)
Record elf_ok (img : list Z) (base : Z) : Prop := {
  eo_bytes : bytes img;
  eo_size : (EHDR_SIZE <= length img)%nat;
  eo_ident : ident_ok (header_of img) = true;
  eo_type : type_ok (header_of img) = true;
  eo_phoff : 0 <= e_phoff (header_of img) < 2 ^ 31;
  eo_phentsize : e_phentsize (header_of img) = Z.of_nat PHDR_SIZE;
  eo_phdrs : 0 <= e_phnum (header_of img) /\ e_phoff (header_of img) + Z.of_nat PHDR_SIZE * e_phnum (header_of img) <= Z.of_nat (length img);
  eo_base : 0 <= base;
  eo_low : Forall (phdr_low base) (phdrs_of img);
  eo_fits : Forall (fun p => seg_fits p base img) (loads_of img);
  eo_apart : apart_segs base (loads_of img)
}.

(** What the loader reports about the file. *)
Definition info_of (img : list Z) (base : Z) : loadinfo_t :=
  let i := noted base 0 (phdrs_of img) (mk_info 0 None 0 0 0 (highest base 0 (phdrs_of img)) (header_of img)) in
  mk_info (nldsegs i) (Some (map (seg_of base) (loads_of img))) (has_interp i) (interp_phdrndx i) (phdrs_vaddr i) (ldhigh i) (ehdr i).

Lemma loadexe_ok img base0 base s c r Tc Tr path (v v1 : V) fd k :
  base = load_base img base0 -> elf_ok img base -> spaces s c r Tc Tr ->
  f_open F path O_RDONLY 0 v = Done v1 fd -> 0 <= fd -> opened v1 fd img 0 ->
  Forall (fun p => no_huge_pages s Tc Tr p base) (loads_of img) -> Pmm.run_ge (7 * total_pages base (loads_of img) + k) (m_pmm s) ->
  exists s' v' Tc' Tr', loadexe_base F junk path base0 (u64 (hhdm_offset s + r)) (mk_lst s v []) = Done (mk_lst s' v' []) (0, info_of img base) /\
    spaces s' c r Tc' Tr' /\ Pmm.run_ge k (m_pmm s') /\ all_placed s r Tc Tr s' Tc' Tr' base img (loads_of img).
Proof.
  intros Hbase [Hbytes Hsz Hid Hty Hoff Hent [Hn Hph] Hb Hlow Hfit Hap] Hsp Eo Hfd Hop Hnh Hrun.
  unfold loadexe_base. rewrite (bind_done _ _ _ _ _ (onfs_done _ (mk_lst s v []) v1 _ Eo)). cbn [l_mm l_mallocs].
  rewrite (proj2 (Z.ltb_ge fd 0)) by lia.
  destruct (law_fread v1 fd img 0 (Z.of_nat EHDR_SIZE) Hop ltac:(lia) ltac:(done)) as (v2 & E2 & Hop2).
  change (drop (Z.to_nat 0) img) with img in *. rewrite Nat2Z.id in *.
  assert (length (take EHDR_SIZE img) = EHDR_SIZE) as Hlh by (rewrite length_take; lia). rewrite Hlh in *.
  rewrite (bind_done _ _ _ _ _ (onfs_done _ (mk_lst s v1 []) v2 _ E2)). cbn [l_mm l_mallocs].
  change (Z.of_nat EHDR_SIZE <? 0) with false. rewrite wrap_small, Z.ltb_irrefl by done. cbn [orb]. fold (header_of img).
  rewrite Hid, Hty. cbn [negb]. fold (load_base img base0). rewrite <- Hbase. unfold load_headers.
  destruct (law_lseek v2 fd img _ (e_phoff (header_of img)) Hop2 ltac:(lia)) as (v3 & E3 & Hop3).
  rewrite (sext_small 64) by lia. rewrite (bind_done _ _ _ _ _ (onfs_done _ (mk_lst s v2 []) v3 _ E3)). cbn [l_mm l_mallocs].
  rewrite (sext_small 32) by lia. rewrite (proj2 (Z.ltb_ge (e_phoff _) 0)) by lia.
  rewrite (bind_done malloc _ _ (mk_lst s v3 []) true) by done. cbn [negb].
  destruct (read_phdrs_ok (Z.to_nat (e_phnum (header_of img))) v3 fd img (e_phoff (header_of img)) base 0 s [] Hop3) as (v4 & pos4 & E4 & Hop4); try done; try lia.
  fold (phdrs_of img) in E4. rewrite Hent, (bind_done _ _ _ _ _ E4). rewrite (bind_done malloc _ _ (mk_lst s v4 []) true) by done. cbn [negb].
  destruct (load_loop_ok (phdrs_of img) 0 [] (mk_info 0 None 0 0 0 (highest base 0 (phdrs_of img)) (header_of img)) s v4 pos4 Tc Tr c r fd base img [] k)
    as (s5 & v5 & pos5 & Tc5 & Tr5 & E5 & Hop5 & Hsp5 & Hrun5 & Hall); try done.
  { apply Forall_forall. intros p Hp. rewrite Forall_forall in Hfit, Hnh. split; [by apply Hfit|by apply Hnh]. }
  rewrite (bind_done _ _ _ _ _ E5).
  destruct (law_fclose v5 fd img pos5 Hop5) as (v6 & rc & E6). rewrite (bind_done _ _ _ _ _ (onfs_done _ (mk_lst s5 v5 []) v6 _ E6)).
  exists s5, v6, Tc5, Tr5. by split_and!.
Qed.

End load.

End LoaderFacts.
