(* ===== verification/LoaderStack.v ===== *)
(** The stack of a new program: the strings at its end, below them the vectors the
    System V ABI asks for, and where the stack pointer ends up. *)
From S2P Require Import Prelude Pmm Region PageTable PageRange Spaces Loader LoaderFacts.

Module LoaderStack.
Import PageTable PageRange Spaces Loader LoaderFacts.

(** ** What the stack holds *)

Definition words (l : list Z) : list Z := flat_map (le 8) l.

Fixpoint strings_size (l : list (list Z)) : Z := match l with [] => 0 | x :: r => Z.of_nat (length x) + 1 + strings_size r end.

(** Where the strings are that end at [sp]. *)
Fixpoint string_addrs (l : list (list Z)) (sp : Z) : list Z :=
  match l with [] => [] | x :: r => sp - strings_size l :: string_addrs r sp end.

Lemma length_words l : Z.of_nat (length (words l)) = 8 * Z.of_nat (length l).
Proof. induction l as [|x l IH]; [done|]. cbn [words flat_map]. rewrite length_app, length_le. fold (words l). cbn [length]. lia. Qed.

Lemma words_app l k : words (l ++ k) = words l ++ words k.
Proof. apply flat_map_app. Qed.

Lemma length_string_addrs l sp : length (string_addrs l sp) = length l.
Proof. induction l; cbn; congruence. Qed.

Lemma strings_size_nonneg l : 0 <= strings_size l.
Proof. induction l; cbn; lia. Qed.

(** The strings lie between the stack pointers. *)
Lemma string_addrs_range l sp : Forall2 (fun x a => sp - strings_size l <= a /\ a + Z.of_nat (length (x ++ [0])) <= sp) l (string_addrs l sp).
Proof.
  induction l as [|x l IH]; cbn [strings_size string_addrs]; constructor; pose proof (strings_size_nonneg l).
  - rewrite length_app. cbn. lia.
  - eapply Forall2_impl; [exact IH|]. intros y a [? ?]. lia.
Qed.

Lemma bytes_words l : bytes (words l).
Proof. induction l; [constructor|]. apply Forall_app. split; [apply bytes_le|done]. Qed.

(** ** Stores to the stack *)

Section stack.
Context (c r : Z) (Tc Tr : gmap Z (list Z)) (lo hi d : Z) (Hlo : 0 <= lo) (Hhi : hi <= 2 ^ 47).

(** The addresses from [lo] to [hi] are data, [d] bytes further up. *)
Definition stk (s : mm) : Prop :=
  spaces s c r Tc Tr /\ forall x, lo <= x < hi -> translate s c x = x + d /\ datum s Tc Tr (x + d).

(** Only the bytes behind the addresses from [a] to [b] change. *)
Record wrote (s : mm) (a b : Z) (s' : mm) : Prop := {
  wr_stk : stk s';
  wr_mem : s' = set_mem (m_mem s') s;
  wr_same : same_tables (m_mem s) (m_mem s') Tc /\ same_tables (m_mem s) (m_mem s') Tr;
  wr_out : forall x, ~ a <= x < b -> pbyte (m_mem s') (x + d) = pbyte (m_mem s) (x + d)
}.

Lemma wrote_refl s a : stk s -> wrote s a a s.
Proof. intros H. split; [done|by destruct s|done|done]. Qed.

Lemma wrote_trans s a b e s1 s2 : a <= b <= e -> wrote s b e s1 -> wrote s1 a b s2 -> wrote s a e s2.
Proof.
  intros Hb [? M1 [S1 S1'] O1] [? M2 [S2 S2'] O2]. split; [done|by rewrite M2, M1| |].
  - split; intros t p i Ht Hi; [rewrite (S2 t p i Ht Hi); by eapply S1|rewrite (S2' t p i Ht Hi); by eapply S1'].
  - intros x Hx. rewrite O2, O1 by lia. done.
Qed.

Lemma wrote_holds s a b s' va bs : wrote s a b s' -> holds_at (m_mem s) (va + d) bs ->
  va + Z.of_nat (length bs) <= a \/ b <= va -> holds_at (m_mem s') (va + d) bs.
Proof.
  intros H Hh Hd. eapply holds_at_keep; [done|]. intros x Hx. replace x with (x - d + d) by lia. apply (wr_out _ _ _ _ H). lia.
Qed.

Lemma stk_write s va bs : stk s -> lo <= va -> va + Z.of_nat (length bs) <= hi -> bytes bs ->
  exists s', vwrite va bs s = Done s' tt /\ wrote s va (va + Z.of_nat (length bs)) s' /\ holds_at (m_mem s') (va + d) bs.
Proof.
  intros [Hsp Hs] Hva Hve Hbs.
  destruct (user_store_ok s c r Tc Tr va (va + d) bs Hsp) as (E & Hsp' & S1 & S2 & Ht); [|done|].
  { split_and!; [lia|lia|]. intros i Hi. replace (va + d + i) with (va + i + d) by lia. apply Hs. lia. }
  exists (set_mem (pputs (m_mem s) (va + d) bs) s). split_and!; [done| |by apply pputs_at].
  split; [|done|done|intros x Hx; apply pputs_out; [done|lia]].
  split; [done|]. intros x Hx. destruct (Ht x) as [-> _]. apply (Hs x Hx).
Qed.

(** ** The pieces *)

Lemma push_strings_ok l : forall s sp, stk s -> sp <= hi -> lo <= sp - strings_size l -> Forall bytes l ->
  exists s', push_strings l sp s = Done s' (sp - strings_size l, string_addrs l sp) /\ wrote s (sp - strings_size l) sp s' /\
    Forall2 (fun x a => holds_at (m_mem s') (a + d) (x ++ [0]) /\ sp - strings_size l <= a) l (string_addrs l sp).
Proof.
  induction l as [|x l IH]; intros s sp Hs Hsp Hl Hb; cbn [push_strings strings_size string_addrs] in *.
  { exists s. rewrite Z.sub_0_r. split_and!; [done|by apply wrote_refl|constructor]. }
  apply Forall_cons in Hb as [Hbx Hb]. pose proof (strings_size_nonneg l).
  destruct (IH s sp Hs Hsp ltac:(lia) Hb) as (s1 & E1 & W1 & H1). rewrite (bind_done _ _ _ _ _ E1).
  replace (sp - strings_size l - (Z.of_nat (length x) + 1)) with (sp - (Z.of_nat (length x) + 1 + strings_size l)) by lia.
  rewrite wrap_small by lia. set (a := sp - (Z.of_nat (length x) + 1 + strings_size l)).
  destruct (stk_write s1 a (x ++ [0])) as (s2 & E2 & W2 & H2); [apply W1|lia|rewrite length_app; cbn; lia|apply Forall_app; split; [done|by repeat constructor]|].
  rewrite (bind_done _ _ _ _ _ E2). exists s2. rewrite length_app in W2. cbn [length] in W2.
  replace (a + Z.of_nat (length x + 1)) with (sp - strings_size l) in W2 by lia.
  split_and!; [done|eapply wrote_trans; [|exact W1|exact W2]; lia|]. constructor; [done|].
  eapply Forall2_impl; [exact H1|]. intros y b [Hy ?]. split; [|lia]. eapply wrote_holds; [exact W2|done|]. right. lia.
Qed.

Lemma push_word_ok s v sp : stk s -> sp <= hi -> lo <= sp - 8 ->
  exists s', push_word v sp s = Done s' (sp - 8) /\ wrote s (sp - 8) sp s' /\ holds_at (m_mem s') (sp - 8 + d) (words [v]).
Proof.
  intros Hs Hsp Hl. unfold push_word. rewrite wrap_small by lia.
  destruct (stk_write s (sp - 8) (le 8 v)) as (s' & E & W & H); [done|lia|rewrite length_le; lia|apply bytes_le|].
  rewrite (bind_done _ _ _ _ _ E). exists s'. rewrite length_le in W. replace (sp - 8 + Z.of_nat 8) with sp in W by lia.
  split_and!; [done|done|]. cbn [words flat_map]. by rewrite app_nil_r.
Qed.

(** Words pushed below words that are there. *)
Lemma push_words_ok l : forall s sp k, stk s -> sp <= hi -> lo <= sp - 8 * Z.of_nat (length l) -> sp + 8 * Z.of_nat (length k) <= hi -> holds_at (m_mem s) (sp + d) (words k) ->
  exists s', push_words l sp s = Done s' (sp - 8 * Z.of_nat (length l)) /\ wrote s (sp - 8 * Z.of_nat (length l)) sp s' /\
    holds_at (m_mem s') (sp - 8 * Z.of_nat (length l) + d) (words (l ++ k)).
Proof.
  induction l as [|v l IH]; intros s sp k Hs Hsp Hl Hk Hh; cbn [push_words length app] in *.
  { exists s. replace (sp - 8 * Z.of_nat 0) with sp by lia. split_and!; [done|by apply wrote_refl|done]. }
  destruct (IH s sp k Hs Hsp ltac:(lia) Hk Hh) as (s1 & E1 & W1 & H1). rewrite (bind_done _ _ _ _ _ E1).
  destruct (push_word_ok s1 v (sp - 8 * Z.of_nat (length l))) as (s2 & E2 & W2 & H2); [apply W1|lia|lia|].
  replace (sp - 8 * Z.of_nat (length l) - 8) with (sp - 8 * Z.of_nat (S (length l))) in * by lia.
  exists s2. split_and!; [done|eapply wrote_trans; [|exact W1|exact W2]; lia|].
  change (v :: l ++ k) with ([v] ++ (l ++ k)). rewrite words_app. apply holds_at_app; [done|].
  rewrite length_words. cbn [length]. replace (sp - 8 * Z.of_nat (S (length l)) + d + 8 * Z.of_nat 1) with (sp - 8 * Z.of_nat (length l) + d) by lia.
  eapply wrote_holds; [exact W2|done|]. right. lia.
Qed.

(** ** The vectors *)

Definition aux_words (l : list (Z * Z)) : list Z := flat_map (fun a => [a.1; a.2]) l.

Lemma aux_bytes_words l : aux_bytes l = words (aux_words l).
Proof. induction l as [|a l IH]; [done|]. cbn [aux_bytes aux_words flat_map app words]. fold (aux_bytes l) (aux_words l) (words (aux_words l)). by rewrite IH, app_assoc. Qed.

Lemma length_aux_words l : length (aux_words l) = (2 * length l)%nat.
Proof. induction l as [|a l IH]; [done|]. cbn [aux_words flat_map length app]. fold (aux_words l). lia. Qed.

Definition full_aux (auxv : list (Z * Z)) : list (Z * Z) := auxv ++ [(AT_STACK, USER_END); (AT_STACKSZ, USTACK); (AT_NULL, 0)].

Lemma aux_store s va l : stk s -> lo <= va -> va + 16 * Z.of_nat (length l) <= hi ->
  exists s', vwrite va (aux_bytes l) s = Done s' tt /\ wrote s va (va + 16 * Z.of_nat (length l)) s' /\ holds_at (m_mem s') (va + d) (words (aux_words l)).
Proof.
  intros Hs Hva Hve. rewrite aux_bytes_words. pose proof (length_words (aux_words l)) as Hl. rewrite length_aux_words in Hl.
  destruct (stk_write s va (words (aux_words l))) as (s' & E & W & H); [done|lia|lia|apply bytes_words|].
  exists s'. split_and!; [done|by replace (16 * Z.of_nat (length l)) with (Z.of_nat (length (words (aux_words l)))) by lia|done].
Qed.

Lemma wrote_widen s a b s' a' b' : wrote s a b s' -> a' <= a -> b <= b' -> wrote s a' b' s'.
Proof. intros [? ? ? O] ? ?. split; try done. intros x Hx. apply O. lia. Qed.

Lemma wrote_union s a b s1 s2 : wrote s a b s1 -> wrote s1 a b s2 -> wrote s a b s2.
Proof.
  intros [? M1 [S1 S1'] O1] [? M2 [S2 S2'] O2]. split; [done|by rewrite M2, M1| |].
  - split; intros t p i Ht Hi; [rewrite (S2 t p i Ht Hi); by eapply S1|rewrite (S2' t p i Ht Hi); by eapply S1'].
  - intros x Hx. rewrite O2, O1 by lia. done.
Qed.

(** Entries stored behind entries. *)
Lemma aux_store_after s a b va l k : wrote s a b s -> holds_at (m_mem s) (va + d) (words (aux_words l)) -> lo <= va -> a <= va -> b <= hi ->
  va + 16 * Z.of_nat (length l + length k) <= b ->
  exists s', vwrite (va + 16 * Z.of_nat (length l)) (aux_bytes k) s = Done s' tt /\ wrote s a b s' /\ holds_at (m_mem s') (va + d) (words (aux_words (l ++ k))).
Proof.
  intros Hw Hh Hlv Hav Hb Hve. destruct (aux_store s (va + 16 * Z.of_nat (length l)) k) as (s1 & E1 & W1 & H1); [apply Hw|lia|lia|].
  exists s1. split_and!; [done|eapply wrote_widen; [exact W1|lia|lia]|]. unfold aux_words. rewrite flat_map_app. fold (aux_words l) (aux_words k).
  rewrite words_app. pose proof (length_words (aux_words l)) as Hl. rewrite length_aux_words in Hl. apply holds_at_app.
  - eapply wrote_holds; [exact W1|done|]. left. lia.
  - rewrite Hl. by replace (va + d + 8 * Z.of_nat (2 * length l)) with (va + 16 * Z.of_nat (length l) + d) by lia.
Qed.

Lemma push_auxv_ok auxv s sp : length auxv = 5%nat -> stk s -> sp <= hi -> lo <= sp - 128 ->
  exists s', push_auxv auxv sp s = Done s' (sp - 128) /\ wrote s (sp - 128) sp s' /\ holds_at (m_mem s') (sp - 128 + d) (words (aux_words (full_aux auxv))).
Proof.
  intros Hlen Hs Hsp Hl. unfold push_auxv. cbv zeta. replace (16 * 8) with 128 by lia. rewrite (wrap_small 64 (sp - 128)) by lia.
  rewrite take_ge by lia. set (va := sp - 128).
  destruct (aux_store s va auxv Hs) as (s1 & E1 & W1 & H1); [lia|lia|]. rewrite (bind_done _ _ _ _ _ E1). rewrite !wrap_small by lia.
  assert (wrote s va sp s1) as V1 by (eapply wrote_widen; [exact W1|lia|lia]).
  assert (forall s', stk s' -> wrote s' va sp s') as Hr by (intros s' H'; eapply wrote_widen; [by apply (wrote_refl s' va)|lia|lia]).
  destruct (aux_store_after s1 va sp va auxv [(AT_STACK, USER_END)] (Hr s1 (wr_stk _ _ _ _ V1)) H1) as (s2 & E2 & W2 & H2); try (cbn; lia).
  replace (va + 80) with (va + 16 * Z.of_nat (length auxv)) by lia. rewrite (bind_done _ _ _ _ _ E2).
  destruct (aux_store_after s2 va sp va _ [(AT_STACKSZ, USTACK)] (Hr s2 (wr_stk _ _ _ _ W2)) H2) as (s3 & E3 & W3 & H3); try (rewrite ?length_app; cbn; lia).
  replace (va + 96) with (va + 16 * Z.of_nat (length (auxv ++ [(AT_STACK, USER_END)]))) by (rewrite length_app; cbn; lia). rewrite (bind_done _ _ _ _ _ E3).
  destruct (aux_store_after s3 va sp va _ [(AT_NULL, 0)] (Hr s3 (wr_stk _ _ _ _ W3)) H3) as (s4 & E4 & W4 & H4); try (rewrite ?length_app; cbn; lia).
  replace (va + 112) with (va + 16 * Z.of_nat (length ((auxv ++ [(AT_STACK, USER_END)]) ++ [(AT_STACKSZ, USTACK)]))) by (rewrite !length_app; cbn; lia).
  rewrite (bind_done _ _ _ _ _ E4). exists s4. split_and!; [done|by do 3 (eapply wrote_union; [|eassumption])|]. unfold full_aux. by rewrite <- !app_assoc in H4.
Qed.

(** The vectors in the order of the ABI. *)
Definition vectors (auxv : list (Z * Z)) (avaddrs evaddrs : list Z) : list Z :=
  [Z.of_nat (length avaddrs)] ++ avaddrs ++ [0] ++ evaddrs ++ [0] ++ aux_words (full_aux auxv).

Lemma length_vectors auxv avaddrs evaddrs : length auxv = 5%nat ->
  Z.of_nat (length (words (vectors auxv avaddrs evaddrs))) = 8 * total_u64s (Z.of_nat (length avaddrs)) (Z.of_nat (length evaddrs)).
Proof.
  intros Hl. rewrite length_words. unfold vectors. rewrite !length_app, length_aux_words. unfold full_aux. rewrite length_app, Hl.
  unfold total_u64s. change (16 * 8 / 8) with 16. cbn [length]. lia.
Qed.

Definition final_sp (ac nenv sp : Z) : Z := align_sp ac nenv sp - 8 * total_u64s ac nenv.

Lemma align_sp_cases ac nenv sp : 0 <= ac -> 0 <= nenv -> 8 * total_u64s ac nenv + 8 <= sp < 2 ^ 64 ->
  sp - 8 <= align_sp ac nenv sp <= sp /\ final_sp ac nenv sp mod 16 = sp mod 8.
Proof.
  intros Ha He Hsp. unfold final_sp, align_sp. set (n := total_u64s ac nenv) in *. assert (0 < n) by (unfold n, total_u64s; change (16 * 8 / 8) with 16; lia).
  rewrite wrap_small by (Z.to_euclidean_division_equations; lia). rewrite (wrap_small 64 (sp - 8)) by lia.
  destruct (Z.eqb_spec ((sp / 8 - n) mod 2) 0) as [E|E]; cbn [negb]; (split; [lia|]); clearbody n; clear -E; Z.to_euclidean_division_equations; lia.
Qed.

Lemma push_tables_ok auxv avaddrs evaddrs s sp :
  let ac := Z.of_nat (length avaddrs) in let nenv := Z.of_nat (length evaddrs) in
  length auxv = 5%nat -> stk s -> sp <= hi -> lo + 8 * total_u64s ac nenv + 8 <= sp ->
  exists s', push_tables auxv avaddrs evaddrs sp s = Done s' (final_sp ac nenv sp) /\ wrote s (final_sp ac nenv sp) sp s' /\
    holds_at (m_mem s') (final_sp ac nenv sp + d) (words (vectors auxv avaddrs evaddrs)).
Proof.
  intros ac nenv Hlen Hs Hsp Hlow. assert (0 <= ac /\ 0 <= nenv) as [Hac Hne] by (unfold ac, nenv; lia).
  destruct (align_sp_cases ac nenv sp) as [Ha _]; [lia|lia|lia|].
  unfold push_tables, final_sp. fold ac nenv. set (a := align_sp ac nenv sp) in *.
  assert (8 * total_u64s ac nenv = 152 + 8 * ac + 8 * nenv) as Htot by (unfold total_u64s; change (16 * 8 / 8) with 16; lia). rewrite Htot in *.
  assert (forall v q s0, push_words [v] q s0 = push_word v q s0) as Hone by done.
  destruct (push_auxv_ok auxv s a Hlen Hs) as (s1 & E1 & W1 & H1); [lia|lia|]. rewrite (bind_done _ _ _ _ _ E1).
  pose proof (length_aux_words (full_aux auxv)) as Hla. unfold full_aux at 2 in Hla. rewrite length_app, Hlen in Hla. cbn in Hla.
  destruct (push_words_ok [0] s1 (a - 128) (aux_words (full_aux auxv)) (wr_stk _ _ _ _ W1)) as (s2 & E2 & W2 & H2); try done; try (rewrite ?Hla; cbn [length]; lia).
  cbn [length] in *. replace (a - 128 - 8 * Z.of_nat 1) with (a - 136) in * by lia. rewrite Hone in E2. rewrite (bind_done _ _ _ _ _ E2).
  destruct (push_words_ok evaddrs s2 (a - 136) ([0] ++ aux_words (full_aux auxv)) (wr_stk _ _ _ _ W2)) as (s3 & E3 & W3 & H3); try done; try (rewrite ?length_app, ?Hla; cbn [length]; lia).
  rewrite (bind_done _ _ _ _ _ E3). fold nenv in W3, H3, E3 |- *.
  destruct (push_words_ok [0] s3 (a - 136 - 8 * nenv) (evaddrs ++ [0] ++ aux_words (full_aux auxv)) (wr_stk _ _ _ _ W3)) as (s4 & E4 & W4 & H4); try done;
    try (rewrite ?length_app, ?Hla; cbn [length]; lia).
  cbn [length] in *. replace (a - 136 - 8 * nenv - 8 * Z.of_nat 1) with (a - 144 - 8 * nenv) in * by lia. rewrite Hone in E4. rewrite (bind_done _ _ _ _ _ E4).
  destruct (push_words_ok avaddrs s4 (a - 144 - 8 * nenv) ([0] ++ evaddrs ++ [0] ++ aux_words (full_aux auxv)) (wr_stk _ _ _ _ W4)) as (s5 & E5 & W5 & H5); try done;
    try (rewrite ?length_app, ?Hla; cbn [length]; lia).
  rewrite (bind_done _ _ _ _ _ E5). fold ac in W5, H5, E5 |- *.
  destruct (push_words_ok [ac] s5 (a - 144 - 8 * nenv - 8 * ac) (avaddrs ++ [0] ++ evaddrs ++ [0] ++ aux_words (full_aux auxv)) (wr_stk _ _ _ _ W5)) as (s6 & E6 & W6 & H6); try done;
    try (rewrite ?length_app, ?Hla; cbn [length]; lia).
  cbn [length] in *. replace (a - 144 - 8 * nenv - 8 * ac - 8 * Z.of_nat 1) with (a - (152 + 8 * ac + 8 * nenv)) in * by lia. rewrite Hone in E6.
  exists s6. split_and!; [exact E6| |exact H6].
  apply (wrote_widen s (a - (152 + 8 * ac + 8 * nenv)) a); [|lia|lia].
  eapply wrote_trans; [|exact W1|eapply wrote_trans; [|exact W2|eapply wrote_trans; [|exact W3|eapply wrote_trans; [|exact W4|eapply wrote_trans; [|exact W5|exact W6]]]]]; lia.
Qed.

End stack.
End LoaderStack.
