(* ===== verification/LoaderProgram.v ===== *)
(** Loading a program from end to end: a new address space, the segments of the
    file, the stack, and the active space as it was before. *)
From S2P Require Import Prelude Pmm Region PageTable PageRange Spaces PageUnmap Loader LoaderFacts LoaderStack.

Module LoaderProgram.
Import PageTable PageRange Spaces PageUnmap Loader LoaderFacts LoaderStack.

(** ** A new address space *)

#[local] Instance lower_dec p : Decision (lower p).
Proof. destruct p as [|i p]; [left; exact I|]. apply (decide (i < 256)). Defined.

(** The tables of a new space: a root of its own above the kernel's half. *)
Definition new_tree (r : Z) (Tc : gmap Z (list Z)) : gmap Z (list Z) := <[r := []]> (filter (fun e => ~ lower e.2) Tc).

Lemma new_tree_Some r Tc t p : new_tree r Tc !! t = Some p -> (t = r /\ p = []) \/ (t <> r /\ Tc !! t = Some p /\ ~ lower p).
Proof.
  unfold new_tree. rewrite lookup_insert. case_decide as E; [intros [= <-]; by left|].
  intros [? ?]%map_lookup_filter_Some. right. by split_and!.
Qed.

Lemma copy_loop n : forall i s c r, mm_wf s -> 0 <= c -> c + 4096 <= m_size s -> c mod 4096 = 0 -> 0 <= r -> r + 4096 <= m_size s -> r mod 4096 = 0 -> c <> r -> 0 <= i -> i + Z.of_nat n <= 512 ->
  exists m', for_loop n i (fun i => e ← ldt (u64 (hhdm_offset s + c)) i; stt (u64 (hhdm_offset s + r)) i e) s = Done (set_mem m' s) tt /\
    (forall j, i <= j < i + Z.of_nat n -> word m' (r + 8 * j) = word (m_mem s) (c + 8 * j)) /\
    (forall a, (forall j, i <= j < i + Z.of_nat n -> a <> r + 8 * j) -> word m' a = word (m_mem s) a).
Proof.
  induction n as [|n IH]; intros i s c r Hwf Hc Hcs Hca Hr Hrs Hra Hne Hi Hn; cbn [for_loop].
  { exists (m_mem s). split; [by destruct s|]. split; [lia|done]. }
  assert (forall j k, 0 <= j < 512 -> 0 <= k < 512 -> c + 8 * j <> r + 8 * k) as Hd by (intros j k Hj Hk [? ?]%entry_inj; done).
  erewrite bind_done by (erewrite bind_done by (apply ldt_ok; try done; lia); apply stt_ok; try done; lia).
  set (s1 := set_mem _ s). destruct (IH (i + 1) s1 c r) as (m' & E & H1 & H2); try done; try lia.
  exists m'. split; [exact E|]. split.
  - intros j Hj. destruct (decide (j = i)) as [->|].
    + rewrite H2 by (intros; lia). unfold s1. cbn [m_mem set_mem]. by rewrite word_insert, decide_True.
    + rewrite H1 by lia. unfold s1. cbn [m_mem set_mem]. rewrite word_insert, decide_False; [done|]. intros E'. symmetry in E'. revert E'. apply Hd; lia.
  - intros a Ha. rewrite H2 by (intros j ?; apply Ha; lia). unfold s1. cbn [m_mem set_mem]. rewrite word_insert, decide_False; [done|]. intros <-. apply (Ha i); lia.
Qed.

Lemma frame_inj t u : t mod 4096 = 0 -> u mod 4096 = 0 -> t / 4096 = u / 4096 -> t = u.
Proof. intros. pose proof (Z.div_mod t 4096 ltac:(lia)). pose proof (Z.div_mod u 4096 ltac:(lia)). lia. Qed.

Lemma new_tree_wf m m' size Tc c r : tree m size Tc -> Tc !! c = Some [] -> Tc !! r = None -> 0 <= r -> r mod 4096 = 0 -> r + 4096 <= size ->
  same_tables m m' Tc -> (forall i, 0 <= i < 256 -> word m' (r + 8 * i) = 0) -> (forall i, 256 <= i < 512 -> word m' (r + 8 * i) = word m (c + 8 * i)) ->
  tree m' size (new_tree r Tc).
Proof.
  intros [Hfr Hch] Hc Hno Hr Hra Hrs Hst Hlow Hup. split.
  - intros t p [[-> ->]|(_ & Ht & _)]%new_tree_Some; [split_and!; try done; cbn; lia|by apply Hfr].
  - assert (forall t p, Tc !! t = Some p -> ~ lower p -> new_tree r Tc !! t = Some p) as Hin.
    { intros t p Ht Hp. unfold new_tree. rewrite lookup_insert_ne by congruence. by apply map_lookup_filter_Some. }
    intros t p i [[-> ->]|(_ & Ht & Hp)]%new_tree_Some Hi Hlen Hpr Hh.
    + destruct (Z.lt_ge_cases i 256) as [Hl|Hg]; [by rewrite Hlow in Hpr by lia|]. rewrite Hup in * by lia.
      apply Hin; [by apply Hch|]. cbn. lia.
    + rewrite (Hst t p i Ht Hi) in *. apply Hin; [by apply Hch|]. destruct p as [|j p]; [done|]. exact Hp.
Qed.

(** The kernel's space is active and [vmm_casp] makes another one beside it. *)
Lemma vmm_casp_ok k s c Tc : inv s Tc -> exact s Tc c -> Tc !! c = Some [] -> frame (cr3 s) = c -> pml4 s = u64 (hhdm_offset s + c) -> Pmm.run_ge (S k) (m_pmm s) ->
  exists s' r, vmm_casp s = Done s' (u64 (hhdm_offset s + r)) /\ spaces s' c r Tc (new_tree r Tc) /\ Pmm.run_ge k (m_pmm s') /\ hhdm_offset s' = hhdm_offset s /\
    same_tables (m_mem s) (m_mem s') Tc /\ (forall v, 0 <= v < 2 ^ 47 -> translate s' r v = 0).
Proof.
  intros Hinv Hex Hc Hcr Hk Hrun. pose proof Hinv as (Hwf & [Hfr Hch] & Hown). destruct (tree_frame _ _ _ _ Hinv Hc) as (Hc0 & Hca & Hcs & _).
  destruct (alloctblpg_ok s k Hwf (run_nfree _ _ Hrun)) as (pm & f & m1 & E1 & Hf & Hff & Hwf1 & _ & Hfs & Hz & Ho).
  set (r := f * 4096) in *. assert (Tc !! r = None) as Hno by (by eapply fresh_frame, Hff). assert (c <> r) as Hne by congruence.
  assert (r mod 4096 = 0) as Hra by (by apply Z_mod_mult). set (s1 := set_mem m1 (set_pmm pm s)) in *.
  destruct (copy_loop 256 256 s1 c r Hwf1 Hc0 Hcs Hca ltac:(lia) Hfs Hra Hne ltac:(lia) ltac:(lia)) as (m2 & E2 & Hcp & Hoth).
  assert (u64 (hhdm_offset s + r) =? 0 = false) as Enz.
  { apply Z.eqb_neq. destruct Hwf as (_ & _ & _ & ? & ?). rewrite wrap_small by lia. lia. }
  exists (set_mem m2 s1), r. split.
  { unfold vmm_casp. rewrite (bind_done _ _ _ _ _ E1), Enz, bind_gets. change (pml4 s1) with (pml4 s). rewrite Hk.
    by rewrite (bind_done _ _ _ _ _ E2). }
  assert (forall t i, t mod 4096 = 0 -> t <> r -> 0 <= i < 512 -> word m2 (t + 8 * i) = word (m_mem s) (t + 8 * i)) as Hsame.
  { intros t i Ht Hn Hi. rewrite Hoth; [unfold s1; cbn [m_mem set_mem]; apply Ho|]; intros j Hj [? ?]%entry_inj; try done; lia. }
  assert (same_tables (m_mem s) m2 Tc) as Hst.
  { intros t p i Ht Hi. destruct (tree_frame _ _ _ _ Hinv Ht) as (_ & ? & _). apply Hsame; congruence. }
  assert (forall i, 0 <= i < 256 -> word m2 (r + 8 * i) = 0) as Hlow.
  { intros i Hi. rewrite Hoth by (intros; lia). unfold s1. cbn [m_mem set_mem]. apply Hz. lia. }
  assert (forall i, 256 <= i < 512 -> word m2 (r + 8 * i) = word (m_mem s) (c + 8 * i)) as Hup.
  { intros i Hi. rewrite Hcp by lia. unfold s1. cbn [m_mem set_mem]. apply Ho. intros j Hj [? ?]%entry_inj; try done; lia. }
  destruct Hff as [Hat Hlf]. pose proof Hat as (_ & Hu & Heq).
  assert (forall g, Pmm.used (m_pmm s) g = true -> Pmm.used pm g = true) as Hmono by (intros g Hg; rewrite Hu, Hg; apply orb_true_r).
  assert (Pmm.used pm f = true) as Huf by (rewrite Hu; unfold Pmm.in_run; by rewrite bool_decide_true by lia).
  split_and!; [|by eapply (Pmm.run_ge_first_fit 1)|done|done|].
  2: { intros v Hv. unfold translate, vpath. cbn [tr m_mem set_mem]. rewrite Hlow; [done|]. pose proof (idx_range v 39 : 0 <= PML4_IDX v < 512). pose proof (user_idx v Hv). lia. }
  split; try done.
  - split_and!; [done|by eapply same_tree|]. intros t p Ht. apply Hmono. by eapply Hown.
  - split_and!; [done| |]; cbn [m_mem set_mem m_size s1 m_pmm set_pmm].
    + by eapply (new_tree_wf (m_mem s)); try done; lia.
    + intros t p [[-> _]|(_ & Ht & _)]%new_tree_Some; [unfold r; by rewrite Z.div_mul by lia|]. apply Hmono. by eapply Hown.
  - unfold new_tree. by rewrite lookup_insert_eq.
  - intros u t p q Hu' [[-> ->]|(_ & _ & Hl)]%new_tree_Some Hq E; [|done].
    destruct (tree_frame _ _ _ _ Hinv Hu') as (_ & ? & _). rewrite (frame_inj u r) in Hu' by done. congruence.
  - intros u t p q [[-> ->]|(_ & Hu' & Hl)]%new_tree_Some Ht Hq E; destruct (tree_frame _ _ _ _ Hinv Ht) as (_ & ? & _).
    + rewrite (frame_inj r t) in Hno by done. congruence.
    + destruct (tree_frame _ _ _ _ Hinv Hu') as (_ & ? & _). rewrite (frame_inj u t) in Hu' by done. congruence.
  - eapply (same_exact s); [exact Hst| |done]. cbn. by rewrite Heq.
Qed.

(** ** Leaving the active space *)

(** Pages unmapped there with their frames kept: the other space sees no change. *)
Lemma spaces_unmap s c r Tc Tr vst n flags : keeps flags = true -> spaces s c r Tc Tr -> user_range vst n ->
  (forall v, vst <= v < vst + Z.of_nat n * 4096 -> nohuge (m_mem s) Tc v) ->
  exists s' Tc', vmm_unmap_pages (u64 (hhdm_offset s + c)) vst (Z.of_nat n) flags s = Done s' tt /\ spaces s' c r Tc' Tr /\
    carried s r Tc Tr s' Tc' Tr 0 0 /\ (forall k, Pmm.run_ge k (m_pmm s) -> Pmm.run_ge k (m_pmm s')).
Proof.
  intros Hfl [Hc Hr Hrc Hrr Hcr Ha Ha' He] Hur Hnh.
  destruct (unmap_pages_ok flags s Tc c vst n Hc He Hrc Hur) as (s' & Tc' & E & [Sh _ _]); [intros v Hv; split; [by apply Hnh|by left]|].
  exists s', Tc'. pose proof Sh as [Hi' He' Hsub Hroot' Hkeep Hused Hnh' Hrest Hnf]. pose proof Hr as (_ & Htr & Hown).
  assert (forall f, (forall t p, Tc !! t = Some p -> lower p -> f <> t / 4096) -> Pmm.used (m_pmm s') f = Pmm.used (m_pmm s) f) as Hu.
  { intros f Hf. apply Hused; [|done]. intros [E' _]. congruence. }
  assert (same_tables (m_mem s) (m_mem s') Tr) as Hst.
  { intros t p i Ht Hi. destruct (tree_frame _ _ _ _ Hr Ht) as (_ & ? & _). apply Hkeep. intros t' p' Ht' Hl. rewrite in_table by done. by eapply Ha'. }
  assert (inv s' Tr) as Hr'.
  { split_and!; [apply Hi'|rewrite Hrest at 2; by eapply same_tree|]. intros t p Ht. rewrite Hu; [by eapply Hown|]. intros t' p' Ht' Hl. by eapply Ha'. }
  assert (forall t p, Tc' !! t = Some p -> Tc !! t = Some p) as Hw by (intros t p Ht; by eapply lookup_weaken).
  split_and!; [exact E| | |].
  - split; try done; [by rewrite Hrest| |].
    + intros u t p q Hu' Ht Hq. eapply Ha; eauto.
    + intros u t p q Hu' Ht Hq. eapply Ha'; eauto.
  - split; [| | | |by rewrite Hrest].
    + intros x (Hx & Hux & H1 & H2). assert (8 * (x / 8) / 4096 = x / 4096) as Ex by (Z.to_euclidean_division_equations; lia).
      split; [|apply pbyte_keep, Hkeep; intros t p Ht _; rewrite Ex; by eapply H1].
      split_and!; [lia|by rewrite Hrest; apply Hx|rewrite Hu; [done|intros t p Ht _; by eapply H1]|intros t p Ht; eapply H1; eauto|done].
    + intros x _ _. by eapply (same_translate s s' (m_size s) Tr).
    + done.
    + intros x. by apply same_nohuge.
  - intros k (f & Hf0 & Hf1 & Hf). exists f. unfold Pmm.free_run. rewrite Hnf. split_and!; [done|done|]. intros g Hg. rewrite Hu; [by apply Hf|].
    intros t p Ht _ ->. destruct Hc as (_ & _ & Hownc). specialize (Hf _ Hg). rewrite (Hownc t p Ht) in Hf. done.
Qed.

Lemma carried_widen s r Tc Tr s' Tc' Tr' lo n : carried s r Tc Tr s' Tc' Tr' 0 0 -> carried s r Tc Tr s' Tc' Tr' lo n.
Proof. intros [? Ht ? ? ?]. split; try done. intros x Hx _. apply Ht; lia. Qed.

(** No huge pages among the user addresses. *)
Definition user_small (s : mm) (T : gmap Z (list Z)) : Prop := forall x, 0 <= x < 2 ^ 47 -> nohuge (m_mem s) T x.

Section program.
Context {V : Type} (F : files V) `{!file_reads F}.

Lemma unmap_segs_ok base img l : Forall (fun p => seg_fits p base img) l -> forall s c r Tc Tr (v : V) mall, spaces s c r Tc Tr -> user_small s Tc ->
  exists s' Tc', unmap_segs UNMAP_KEEPPHYS (map (seg_of base) l) (mk_lst s v mall) = Done (mk_lst s' v mall) tt /\
    spaces s' c r Tc' Tr /\ carried s r Tc Tr s' Tc' Tr 0 0 /\ (forall k, Pmm.run_ge k (m_pmm s) -> Pmm.run_ge k (m_pmm s')).
Proof.
  induction 1 as [|p l Hp _ IH]; intros s c r Tc Tr v mall Hsp Hnh; cbn [map unmap_segs].
  { exists s, Tc. by split_and!. }
  rewrite (bind_done _ _ _ _ _ (onmm_done _ (mk_lst s v mall) s _ (cpml4v_ok s c r Tc Tr Hsp))). cbn [l_fs l_mallocs seg_of ptr npgs].
  destruct (pages_range p base img Hp) as (Hur & _). pose proof Hur as (_ & ? & ?).
  destruct (spaces_unmap s c r Tc Tr _ _ UNMAP_KEEPPHYS eq_refl Hsp Hur) as (s1 & Tc1 & E1 & Hsp1 & Hca1 & Hrun1); [intros x Hx; apply Hnh; lia|].
  rewrite (bind_done _ _ _ _ _ (onmm_done _ (mk_lst s v mall) s1 _ E1)). cbn [l_fs l_mallocs].
  destruct (IH s1 c r Tc1 Tr v mall Hsp1) as (s2 & Tc2 & E2 & Hsp2 & Hca2 & Hrun2); [intros x Hx; apply Hca1; by apply Hnh|].
  exists s2, Tc2. split_and!; [exact E2|done|by eapply carried_trans|auto].
Qed.

(** ** The stack *)

Definition STACK : Z := USER_END - USTACK.

(** The strings and vectors fit. *)
Definition stack_fits (argv environ : list (list Z)) : Prop :=
  Forall bytes argv /\ Forall bytes environ /\
  strings_size environ + strings_size (take ARGMAX argv) + 8 * total_u64s (Z.of_nat (length (take ARGMAX argv))) (Z.of_nat (length environ)) + 8 <= USTACK.

Definition env_addrs (environ : list (list Z)) : list Z := string_addrs environ USER_END.
Definition arg_addrs (argv environ : list (list Z)) : list Z := string_addrs (take ARGMAX argv) (USER_END - strings_size environ).
Definition program_sp (argv environ : list (list Z)) : Z :=
  final_sp (Z.of_nat (length (take ARGMAX argv))) (Z.of_nat (length environ)) (USER_END - strings_size environ - strings_size (take ARGMAX argv)).

(** What the program finds on its stack. *)
Record stack_placed (s : mm) (r : Z) (Tc Tr : gmap Z (list Z)) (auxv : list (Z * Z)) (argv environ : list (list Z)) : Prop := {
  st_vectors : placed s r Tc Tr (program_sp argv environ) (words (vectors auxv (arg_addrs argv environ) (env_addrs environ)));
  st_args : Forall2 (fun x a => placed s r Tc Tr a (x ++ [0])) (take ARGMAX argv) (arg_addrs argv environ);
  st_env : Forall2 (fun x a => placed s r Tc Tr a (x ++ [0])) environ (env_addrs environ)
}.

(** The stack as it is written, before the new space has it. *)
Lemma stack_written s c r Tc Tr d auxv argv environ : length auxv = 5%nat -> stack_fits argv environ -> stk c r Tc Tr STACK USER_END d s ->
  exists s1 s2 s3, push_strings environ USER_END s = Done s1 (USER_END - strings_size environ, env_addrs environ) /\
    push_strings (take ARGMAX argv) (USER_END - strings_size environ) s1 =
      Done s2 (USER_END - strings_size environ - strings_size (take ARGMAX argv), arg_addrs argv environ) /\
    push_tables auxv (arg_addrs argv environ) (env_addrs environ) (USER_END - strings_size environ - strings_size (take ARGMAX argv)) s2 = Done s3 (program_sp argv environ) /\
    wrote c r Tc Tr STACK USER_END d s STACK USER_END s3 /\
    (holds_at (m_mem s3) (program_sp argv environ + d) (words (vectors auxv (arg_addrs argv environ) (env_addrs environ)))) /\
    Forall2 (fun x a => holds_at (m_mem s3) (a + d) (x ++ [0])) (take ARGMAX argv) (arg_addrs argv environ) /\
    Forall2 (fun x a => holds_at (m_mem s3) (a + d) (x ++ [0])) environ (env_addrs environ) /\
    STACK <= program_sp argv environ.
Proof.
  intros Hlen (Hba & Hbe & Hsz) Hs. pose proof (strings_size_nonneg environ). pose proof (strings_size_nonneg (take ARGMAX argv)).
  set (args := take ARGMAX argv) in *. assert (Forall bytes args) as Hba' by (by apply Forall_take).
  assert (total_u64s (Z.of_nat (length args)) (Z.of_nat (length environ)) = 19 + Z.of_nat (length args) + Z.of_nat (length environ)) as Ht
    by (unfold total_u64s; change (16 * 8 / 8) with 16; lia). unfold USTACK in Hsz.
  assert (0 <= STACK /\ USER_END <= 2 ^ 47) as [Hlo Hhi] by (vm_compute; split; congruence). assert (USER_END = STACK + 524288) as Hend by reflexivity.
  destruct (push_strings_ok c r Tc Tr STACK USER_END d Hlo Hhi environ s USER_END Hs) as (s1 & E1 & W1 & H1); [lia|lia|done|].
  destruct (push_strings_ok c r Tc Tr STACK USER_END d Hlo Hhi args s1 (USER_END - strings_size environ) (wr_stk _ _ _ _ _ _ _ _ _ _ _ W1)) as (s2 & E2 & W2 & H2); [lia|lia|done|].
  destruct (push_tables_ok c r Tc Tr STACK USER_END d Hlo Hhi auxv (arg_addrs argv environ) (env_addrs environ) s2
    (USER_END - strings_size environ - strings_size args) Hlen (wr_stk _ _ _ _ _ _ _ _ _ _ _ W2)) as (s3 & E3 & W3 & H3).
  { lia. }
  { unfold arg_addrs, env_addrs. rewrite !length_string_addrs. fold args. lia. }
  unfold arg_addrs, env_addrs in E3, W3, H3. rewrite !length_string_addrs in E3, W3, H3. fold args (arg_addrs argv environ) (env_addrs environ) (program_sp argv environ) in E3, W3, H3.
  destruct (align_sp_cases (Z.of_nat (length args)) (Z.of_nat (length environ)) (USER_END - strings_size environ - strings_size args)) as [Hal _]; [lia|lia|lia|].
  assert (STACK <= program_sp argv environ <= USER_END - strings_size environ - strings_size args) as Hps by (unfold program_sp, final_sp; fold args; lia).
  exists s1, s2, s3. split_and!; [exact E1|exact E2|exact E3| |exact H3| | |lia].
  - apply (wrote_widen c r Tc Tr STACK USER_END d s (program_sp argv environ) USER_END); [|lia|lia].
    eapply wrote_trans; [|exact W1|eapply wrote_trans; [|exact W2|exact W3]]; lia.
  - eapply Forall2_impl; [exact H2|]. intros x a0 [Hx Hb]. eapply wrote_holds; [exact W3|exact Hx|]. right. lia.
  - eapply Forall2_impl; [exact H1|]. intros x a0 [Hx Hb]. eapply wrote_holds; [exact W3|eapply wrote_holds; [exact W2|exact Hx|]|]; right; lia.
Qed.

Definition share_stack (nasp : Z) (res : loadprog_res_t) : M (lst V) loadprog_res_t :=
  t ← onmm vmm_cpml4v;
  paddr ← onmm (vmm_get_phys t STACK);
  m ← onmm (vmm_map_pages nasp STACK paddr USTACKPGS (MAP_CONT + PAGE_USER + PAGE_WRITE));
  if m =? 0 then mret (LOADPROG_ERR (- ENOMEM)) else
  t ← onmm vmm_cpml4v;
  _ ← onmm (vmm_unmap_pages t STACK USTACKPGS UNMAP_KEEPPHYS);
  mret res.

Lemma stack_range : user_range STACK 128 /\ 0 < STACK /\ USER_END = STACK + Z.of_nat 128 * 4096 /\ USTACK = Z.of_nat 128 * 4096.
Proof. split_and!; try reflexivity. split; [reflexivity|]. vm_compute. split; congruence. Qed.

(** The written stack moves from the active space to the new one. *)
Lemma stack_shared k s c r Tc Tr s1 Tc1 s4 fr (v : V) res :
  spaces s1 c r Tc1 Tr -> carried s r Tc Tr s1 Tc1 Tr STACK USTACK -> user_small s Tc -> user_small s Tr -> Pmm.run_ge (3 * 128 + k) (m_pmm s1) ->
  0 < fr -> fr * 4096 + USTACK <= 2 ^ 32 ->
  (forall x, fr * 4096 <= x < fr * 4096 + USTACK -> datum s1 Tc1 Tr x /\ ~ datum s Tc Tr x) ->
  (forall x, STACK <= x < USER_END -> translate s1 c x = fr * 4096 + (x - STACK)) ->
  wrote c r Tc1 Tr STACK USER_END (fr * 4096 - STACK) s1 STACK USER_END s4 ->
  exists s6 Tc6 Tr6, share_stack (u64 (hhdm_offset s + r)) res (mk_lst s4 v []) = Done (mk_lst s6 v []) res /\ spaces s6 c r Tc6 Tr6 /\
    carried s r Tc Tr s6 Tc6 Tr6 STACK USTACK /\
    forall va bs, holds_at (m_mem s4) (va + (fr * 4096 - STACK)) bs -> STACK <= va -> va + Z.of_nat (length bs) <= USER_END -> placed s6 r Tc6 Tr6 va bs.
Proof.
  intros Hsp1 Hca1 Hnc Hnr Hrun1 Hfr Hfr2 Hd1 Ht1 [[Hsp4 Hs4] Hm4 [S4 S4'] Ho4]. destruct stack_range as (Hur & Hpos & Hend & Hsz). pose proof Hur as (_ & _ & Hmax).
  assert (carried s r Tc Tr s4 Tc1 Tr STACK USTACK) as Hca4.
  { eapply (carried_store s r Tc Tr s1 Tc1 s4 (m_mem s4)); [done|done| |done|done|].
    - intros x. eapply (same_translate s1 s4 (m_size s1) Tr); [done|apply Hsp1|apply Hsp1].
    - intros x Hx. replace x with (x - (fr * 4096 - STACK) + (fr * 4096 - STACK)) by lia. apply Ho4. intros Hx'. destruct (Hd1 x) as [_ []]; [lia|done]. }
  unfold share_stack. rewrite (bind_done _ _ _ _ _ (onmm_done _ (mk_lst s4 v []) s4 _ (cpml4v_ok s4 c r Tc1 Tr Hsp4))). cbn [l_fs l_mallocs].
  assert (vmm_get_phys (u64 (hhdm_offset s4 + c)) STACK s4 = Done s4 (fr * 4096)) as Ep.
  { rewrite (vmm_get_phys_ok s4 Tc1 c STACK (sp_c _ _ _ _ _ Hsp4) (sp_rootc _ _ _ _ _ Hsp4)). destruct (Hs4 STACK) as [-> _]; [lia|]. do 2 f_equal. lia. }
  rewrite (bind_done _ _ _ _ _ (onmm_done _ (mk_lst s4 v []) s4 _ Ep)). cbn [l_fs l_mallocs].
  destruct (pages_shared c r STACK 128 k ltac:(lia) Hur s4 Tc1 Tr fr (PAGE_USER + PAGE_WRITE) Hsp4) as (s5 & Tr5 & E5 & Hsp5 & Hca5 & Hrun5 & Ht5).
  { by rewrite Hm4. }
  { intros x Hx. apply Hca4, Hnr. lia. }
  { done. }
  { lia. }
  { lia. }
  rewrite (ca_hhdm _ _ _ _ _ _ _ _ _ Hca4) in E5. change (MAP_CONT + PAGE_USER + PAGE_WRITE) with (MAP_CONT + (PAGE_USER + PAGE_WRITE)). change USTACKPGS with (Z.of_nat 128).
  rewrite (bind_done _ _ _ _ _ (onmm_done _ (mk_lst s4 v []) s5 _ E5)). cbn [l_fs l_mallocs]. rewrite (proj2 (Z.eqb_neq STACK 0)) by lia.
  rewrite (bind_done _ _ _ _ _ (onmm_done _ (mk_lst s5 v []) s5 _ (cpml4v_ok s5 c r Tc1 Tr5 Hsp5))). cbn [l_fs l_mallocs].
  rewrite <- Hsz in Hca5. pose proof (carried_trans _ _ _ _ _ _ _ _ _ _ _ _ Hca4 Hca5) as Hca45.
  destruct (spaces_unmap s5 c r Tc1 Tr5 STACK 128 UNMAP_KEEPPHYS eq_refl Hsp5 Hur) as (s6 & Tc6 & E6 & Hsp6 & Hca6 & _); [intros x Hx; apply Hca45, Hnc; lia|].
  rewrite (bind_done _ _ _ _ _ (onmm_done _ (mk_lst s5 v []) s6 _ E6)). cbn [l_fs l_mallocs].
  exists s6, Tc6, Tr5. split_and!; [done|done|eapply carried_trans; [exact Hca45|by apply carried_widen]|].
  intros va bs Hh Hva Hve. apply (placed_carried s5 r Tc1 Tr5 s6 Tc6 Tr5 0 0); [done| |lia|lia|lia].
  assert (forall x, STACK <= x < USER_END -> datum s4 Tc1 Tr (x + (fr * 4096 - STACK))) as Hd4 by (intros x Hx; by apply Hs4).
  exists (va + (fr * 4096 - STACK)). split.
  - eapply holds_at_keep; [exact Hh|]. intros x Hx. apply (ca_kept _ _ _ _ _ _ _ _ _ Hca5). replace x with (x - (fr * 4096 - STACK) + (fr * 4096 - STACK)) by lia. apply Hd4. lia.
  - intros i Hi. rewrite Ht5 by lia. split; [lia|]. replace (va + (fr * 4096 - STACK) + i) with (va + i + (fr * 4096 - STACK)) by lia.
    apply (ca_kept _ _ _ _ _ _ _ _ _ Hca5), Hd4. lia.
Qed.

Lemma Forall2_both {A B} (P Q : A -> B -> Prop) l k : Forall2 P l k -> Forall2 Q l k -> Forall2 (fun x y => P x y /\ Q x y) l k.
Proof. induction 1; intros H'; inversion H'; subst; constructor; auto. Qed.

Lemma stack_placed_of s d s' r Tc Tr auxv argv environ : length auxv = 5%nat -> stack_fits argv environ ->
  holds_at (m_mem s) (program_sp argv environ + d) (words (vectors auxv (arg_addrs argv environ) (env_addrs environ))) ->
  Forall2 (fun x a => holds_at (m_mem s) (a + d) (x ++ [0])) (take ARGMAX argv) (arg_addrs argv environ) ->
  Forall2 (fun x a => holds_at (m_mem s) (a + d) (x ++ [0])) environ (env_addrs environ) -> STACK <= program_sp argv environ ->
  (forall va bs, holds_at (m_mem s) (va + d) bs -> STACK <= va -> va + Z.of_nat (length bs) <= USER_END -> placed s' r Tc Tr va bs) ->
  stack_placed s' r Tc Tr auxv argv environ.
Proof.
  intros Hlen (_ & _ & Hsz) Hv Ha He Hlow Hpl. destruct stack_range as ((_ & _ & Hmax) & Hpos & Hend & Hus). set (args := take ARGMAX argv) in *.
  pose proof (strings_size_nonneg environ). pose proof (strings_size_nonneg args).
  assert (0 <= total_u64s (Z.of_nat (length args)) (Z.of_nat (length environ))) by (unfold total_u64s; change (16 * 8 / 8) with 16; lia).
  destruct (align_sp_cases (Z.of_nat (length args)) (Z.of_nat (length environ)) (USER_END - strings_size environ - strings_size args)) as [Hal _]; [lia|lia|lia|].
  split.
  - apply Hpl; [done|done|]. rewrite length_vectors by done. unfold arg_addrs, env_addrs. rewrite !length_string_addrs. fold args. unfold program_sp, final_sp. fold args. lia.
  - pose proof (string_addrs_range args (USER_END - strings_size environ)) as Hr. fold (arg_addrs argv environ) in Hr.
    eapply Forall2_impl; [exact (Forall2_both _ _ _ _ Ha Hr)|]. intros x b (Hx & ? & ?). apply Hpl; [done|lia|lia].
  - pose proof (string_addrs_range environ USER_END) as Hr. fold (env_addrs environ) in Hr.
    eapply Forall2_impl; [exact (Forall2_both _ _ _ _ He Hr)|]. intros x b (Hx & ? & ?). apply Hpl; [done|lia|lia].
Qed.

(** The whole of [finish]. *)
Lemma finish_ok k s c r Tc Tr (v : V) auxv argv environ entry high :
  spaces s c r Tc Tr -> user_small s Tc -> user_small s Tr -> Pmm.run_ge (7 * 128 + k) (m_pmm s) -> length auxv = 5%nat -> stack_fits argv environ ->
  exists s' Tc' Tr', finish (u64 (hhdm_offset s + r)) entry high auxv argv environ (mk_lst s v []) =
      Done (mk_lst s' v []) (mk_res 0 (u64 (hhdm_offset s + r)) entry (program_sp argv environ) high) /\
    spaces s' c r Tc' Tr' /\ carried s r Tc Tr s' Tc' Tr' STACK USTACK /\ stack_placed s' r Tc' Tr' auxv argv environ.
Proof.
  intros Hsp Hnc Hnr Hrun Hlen Hfit. unfold finish. fold STACK. destruct stack_range as (Hur & Hpos & Hend & Hsz). pose proof Hur as (_ & _ & Hmax).
  rewrite (bind_done _ _ _ _ _ (onmm_done _ (mk_lst s v []) s _ (cpml4v_ok s c r Tc Tr Hsp))). cbn [l_fs l_mallocs].
  destruct (pages_fresh c r STACK 128 (3 * 128 + k) ltac:(lia) Hur s Tc Tr Hsp) as (s1 & Tc1 & fr & E1 & Hsp1 & Hca1 & Hrun1 & Hfr & Hfr2 & Hd1 & Ht1).
  { eapply Pmm.run_ge_le; [|exact Hrun]. lia. }
  { intros x Hx. apply Hnc. lia. }
  change (MAP_ANYPHYS + PAGE_WRITE + MAP_CONT) with (MAP_ANYPHYS + MAP_CONT + PAGE_WRITE). change USTACKPGS with (Z.of_nat 128) at 1.
  rewrite (bind_done _ _ _ _ _ (onmm_done _ (mk_lst s v []) s1 _ E1)). cbn [l_fs l_mallocs]. rewrite (proj2 (Z.eqb_neq STACK 0)) by lia.
  rewrite (bind_done malloc _ _ (mk_lst s1 v []) true) by done. cbn [negb]. rewrite <- Hsz, <- ?Hend in *.
  assert (stk c r Tc1 Tr STACK USER_END (fr * 4096 - STACK) s1) as Hstk.
  { split; [done|]. intros x Hx. rewrite Ht1 by lia. split; [lia|]. apply Hd1. lia. }
  destruct (stack_written s1 c r Tc1 Tr _ auxv argv environ Hlen Hfit Hstk) as (s2 & s3 & s4 & E2 & E3 & E4 & W4 & H4 & Ha4 & He4 & Hlow).
  rewrite (bind_done _ _ _ _ _ (onmm_done _ (mk_lst s1 v []) s2 _ E2)). cbn [l_fs l_mallocs].
  rewrite (bind_done malloc _ _ (mk_lst s2 v []) true) by done. cbn [negb].
  rewrite (bind_done _ _ _ _ _ (onmm_done _ (mk_lst s2 v []) s3 _ E3)). cbn [l_fs l_mallocs].
  rewrite (bind_done _ _ _ _ _ (onmm_done _ (mk_lst s3 v []) s4 _ E4)). cbn [l_fs l_mallocs].
  destruct (stack_shared k s c r Tc Tr s1 Tc1 s4 fr v (mk_res 0 (u64 (hhdm_offset s + r)) entry (program_sp argv environ) high)) as (s6 & Tc6 & Tr6 & E6 & Hsp6 & Hca6 & Hpl); try done.
  exists s6, Tc6, Tr6. split_and!; [exact E6|done|done|]. by apply (stack_placed_of s4 (fr * 4096 - STACK)).
Qed.


(** ** The program *)

Lemma noted_ehdr base l : forall i info, ehdr (noted base i l info) = ehdr info /\ ldhigh (noted base i l info) = ldhigh info /\
  nldsegs (noted base i l info) = nldsegs info + Z.of_nat (length (List.filter is_load l)).
Proof.
  induction l as [|p l IH]; intros i info; cbn [noted List.filter]; [split_and!; [done|done|cbn; lia]|].
  destruct (IH (i + 1) (mk_info (nldsegs info + (if is_load p then 1 else 0)) (segs info)
           (if negb (is_load p) && (p_type p =? PT_INTERP) then 1 else has_interp info)
           (if negb (is_load p) && (p_type p =? PT_INTERP) then i else interp_phdrndx info)
           (if negb (is_load p) && negb (p_type p =? PT_INTERP) && (p_type p =? PT_PHDR) then u64 (base + p_vaddr p) else phdrs_vaddr info)
           (ldhigh info) (ehdr info))) as (-> & -> & ->).
  split_and!; [done|done|]. destruct (is_load p); cbn [length nldsegs]; lia.
Qed.

Lemma info_header img base : ehdr (info_of img base) = header_of img /\ ldhigh (info_of img base) = highest base 0 (phdrs_of img).
Proof.
  unfold info_of. cbn [ehdr ldhigh].
  by destruct (noted_ehdr base (phdrs_of img) 0 (mk_info 0 None 0 0 0 (highest base 0 (phdrs_of img)) (header_of img))) as (-> & -> & _).
Qed.

Lemma seg_array_ok img base (s : lst V) : seg_array (info_of img base) s = Done s (map (seg_of base) (loads_of img)).
Proof.
  unfold seg_array, info_of. cbn [nldsegs segs]. destruct (noted_ehdr base (phdrs_of img) 0 (mk_info 0 None 0 0 0 (highest base 0 (phdrs_of img)) (header_of img))) as (_ & _ & ->).
  fold (loads_of img). cbn [nldsegs]. destruct (Z.eqb_spec (0 + Z.of_nat (length (loads_of img))) 0) as [E|E].
  - by destruct (loads_of img).
  - rewrite bind_deref. rewrite take_ge by (rewrite length_map; lia). done.
Qed.

(** The bytes at [va ..] in the space [asp]. *)
Definition shows (s : mm) (asp va : Z) (bs : list Z) : Prop :=
  forall i b, bs !! i = Some b -> exists pa, vmm_get_phys asp (va + Z.of_nat i) s = Done s pa /\ pbyte (m_mem s) pa = b.

Lemma placed_shows s c r Tc Tr va bs : spaces s c r Tc Tr -> placed s r Tc Tr va bs -> shows s (u64 (hhdm_offset s + r)) va bs.
Proof.
  intros Hsp (pa & Hh & Hp) i b Hi. exists (pa + Z.of_nat i). split; [|by apply Hh].
  rewrite (vmm_get_phys_ok s Tr r _ (sp_r _ _ _ _ _ Hsp) (sp_rootr _ _ _ _ _ Hsp)). apply lookup_lt_Some in Hi. by destruct (Hp (Z.of_nat i)) as [-> _]; [lia|].
Qed.

(** The kernel's own space, active, without huge pages among the user addresses. *)
Record kernel_space (s : mm) (c : Z) (Tc : gmap Z (list Z)) : Prop := {
  ks_inv : inv s Tc;
  ks_exact : exact s Tc c;
  ks_root : Tc !! c = Some [];
  ks_cr3 : frame (cr3 s) = c;
  ks_pml4 : pml4 s = u64 (hhdm_offset s + c);
  ks_small : user_small s Tc
}.

Definition aux_of (img : list Z) (base : Z) : list (Z * Z) :=
  [(AT_PHDR, phdrs_vaddr (info_of img base)); (AT_PHNUM, e_phnum (header_of img)); (AT_ENTRY, e_entry (header_of img)); (0, 0); (0, 0)].

Definition below_stack (base : Z) (p : Elf64_Phdr) : Prop := (first_page p base + Z.of_nat (pages p base)) * 4096 <= STACK.

Context (name_max : nat) (junk : list Z).

Lemma load_program_ok img base s c Tc path (v v1 : V) fd argv environ :
  kernel_space s c Tc -> f_open F path O_RDONLY 0 v = Done v1 fd -> 0 <= fd -> opened v1 fd img 0 ->
  base = load_base img 0 -> elf_ok img base -> has_interp (info_of img base) = 0 -> Forall (below_stack base) (loads_of img) ->
  stack_fits argv environ -> Pmm.run_ge (S (7 * total_pages base (loads_of img) + 7 * 128)) (m_pmm s) ->
  exists s' v' r Tc' Tr', load_program F name_max junk path argv environ (mk_lst s v []) =
      Done (mk_lst s' v' []) (mk_res 0 (u64 (hhdm_offset s + r)) (e_entry (header_of img)) (program_sp argv environ) (highest base 0 (phdrs_of img))) /\
    spaces s' c r Tc' Tr' /\ hhdm_offset s' = hhdm_offset s /\
    Forall (fun p => placed s' r Tc' Tr' (in_memory p base) (seg_bytes p img)) (loads_of img) /\
    stack_placed s' r Tc' Tr' (aux_of img base) argv environ.
Proof.
  intros [Hi He Hc Hcr Hp Hsm] Eo Hfd Hop Hb Helf Hint Hbel Hst Hrun. destruct stack_range as (_ & Hpos & Hend & Hus).
  destruct (vmm_casp_ok (7 * total_pages base (loads_of img) + 7 * 128) s c Tc Hi He Hc Hcr Hp Hrun) as (s1 & r & E1 & Hsp1 & Hrun1 & Hh1 & Hst1 & _).
  assert (user_small s1 Tc) as Hc1 by (intros x Hx; eapply same_nohuge; [exact Hst1|by apply Hsm]).
  assert (user_small s1 (new_tree r Tc)) as Hr1.
  { intros x Hx t i [[_ ?]|(_ & _ & Hl)]%new_tree_Some _; [done|]. exfalso. apply Hl. cbn. by apply user_idx. }
  unfold load_program. rewrite (bind_done _ _ _ _ _ (onmm_done _ (mk_lst s v []) s1 _ E1)). cbn [l_fs l_mallocs].
  destruct (loadexe_ok F junk img 0 base s1 c r Tc (new_tree r Tc) path v v1 fd (7 * 128) Hb Helf Hsp1 Eo Hfd Hop) as (s2 & v2 & Tc2 & Tr2 & E2 & Hsp2 & Hrun2 & Hall).
  { apply Forall_forall. intros p Hin. pose proof (proj1 (Forall_forall _ _) (eo_fits _ _ Helf) p Hin) as Hf. destruct (pages_range p base img Hf) as ((_ & ? & ?) & _).
    split; intros x Hx; [apply Hc1|apply Hr1]; lia. }
  { done. }
  rewrite Hh1 in E2. rewrite (bind_done _ _ _ _ _ E2). cbn [Z.ltb Z.compare]. rewrite Hint. cbn [Z.eqb negb].
  rewrite bind_ret, (bind_done _ _ _ _ _ (seg_array_ok img base _)). destruct Hall as [Hpl _ _ Hnc Hnr Hh2].
  destruct (unmap_segs_ok base img (loads_of img) (eo_fits _ _ Helf) s2 c r Tc2 Tr2 v2 [] Hsp2) as (s3 & Tc3 & E3 & Hsp3 & Hca3 & Hrun3); [intros x Hx; by apply Hnc, Hc1|].
  rewrite (bind_done _ _ _ _ _ E3).
  destruct (info_header img base) as [-> ->].
  destruct (finish_ok 0 s3 c r Tc3 Tr2 v2 (aux_of img base) argv environ (e_entry (header_of img)) (highest base 0 (phdrs_of img)) Hsp3) as (s4 & Tc4 & Tr4 & E4 & Hsp4 & Hca4 & Hsp); try done.
  { intros x Hx. by apply Hca3, Hnc, Hc1. }
  { intros x Hx. by apply Hca3, Hnr, Hr1. }
  { rewrite Nat.add_0_r. by apply Hrun3. }
  assert (hhdm_offset s3 = hhdm_offset s) as Hh3 by (rewrite (ca_hhdm _ _ _ _ _ _ _ _ _ Hca3); congruence). rewrite Hh3 in E4.
  exists s4, v2, r, Tc4, Tr4. split_and!; [exact E4|done|rewrite (ca_hhdm _ _ _ _ _ _ _ _ _ Hca4); done| |done].
  rewrite Forall_forall in Hpl |- *. intros p Hin. pose proof (proj1 (Forall_forall _ _) (eo_fits _ _ Helf) p Hin) as Hf. pose proof (proj1 (Forall_forall _ _) Hbel p Hin) as Hpb.
  destruct (pages_range p base img Hf) as ((_ & _ & Hm) & H0 & Hlo & Hhi). pose proof (length_seg_bytes p base img Hf) as Hl. unfold below_stack in Hpb.
  eapply placed_carried; [exact Hca4|eapply placed_carried; [exact Hca3|by apply Hpl|lia|lia|lia]|lia|lia|lia].
Qed.

(** Where the stack pointer ends up. *)
Lemma sp_aligned argv environ :
  strings_size environ + strings_size (take ARGMAX argv) + 8 * total_u64s (Z.of_nat (length (take ARGMAX argv))) (Z.of_nat (length environ)) + 8 <= USTACK ->
  program_sp argv environ mod 16 = 0 <-> (strings_size (take ARGMAX argv) + strings_size environ) mod 8 = 0.
Proof.
  intros Hsz. destruct stack_range as ((_ & _ & Hmax) & Hpos & Hend & Hus). pose proof (strings_size_nonneg environ). pose proof (strings_size_nonneg (take ARGMAX argv)).
  unfold program_sp. destruct (align_sp_cases (Z.of_nat (length (take ARGMAX argv))) (Z.of_nat (length environ)) (USER_END - strings_size environ - strings_size (take ARGMAX argv))) as [_ ->]; [lia|lia|lia|].
  set (n := strings_size (take ARGMAX argv)). set (m := strings_size environ). unfold USER_END. clear. Z.to_euclidean_division_equations. lia.
Qed.

End program.

(** C2. Loading a program for the processor the kernel runs on: from a well-formed ELF
    file without an interpreter, with memory at hand, [load_program] returns
    success; in the new address space every loadable segment shows the bytes of the
    file where its header says, with zeros behind them, and the stack pointer of the
    result points to the argument count, the argument and environment vectors and
    the auxiliary vector in this order, whose pointers lead to the strings.  The
    stack pointer is 16-byte aligned exactly when the strings take a multiple of 8
    bytes. *)
Theorem load_program_runs {V} (F : files V) `{!file_reads F} name_max junk img base s c Tc path (v v1 : V) fd argv environ :
  kernel_space s c Tc -> f_open F path O_RDONLY 0 v = Done v1 fd -> 0 <= fd -> opened v1 fd img 0 ->
  base = load_base img 0 -> elf_ok img base -> has_interp (info_of img base) = 0 -> Forall (below_stack base) (loads_of img) ->
  stack_fits argv environ -> Pmm.run_ge (S (7 * total_pages base (loads_of img) + 7 * 128)) (m_pmm s) ->
  exists s' v' asp sp,
    load_program F name_max junk path argv environ (mk_lst s v []) =
      Done (mk_lst s' v' []) (mk_res 0 asp (e_entry (header_of img)) sp (highest base 0 (phdrs_of img))) /\
    Forall (fun p => shows s' asp (in_memory p base) (seg_bytes p img)) (loads_of img) /\
    (exists avaddrs evaddrs,
       shows s' asp sp (words ([Z.of_nat (length avaddrs)] ++ avaddrs ++ [0] ++ evaddrs ++ [0] ++ aux_words (full_aux (aux_of img base)))) /\
       Forall2 (fun x a => shows s' asp a (x ++ [0])) (take ARGMAX argv) avaddrs /\
       Forall2 (fun x a => shows s' asp a (x ++ [0])) environ evaddrs) /\
    (sp mod 16 = 0 <-> (strings_size (take ARGMAX argv) + strings_size environ) mod 8 = 0).
Proof.
  intros Hk Eo Hfd Hop Hb Helf Hint Hbel Hst Hrun.
  destruct (load_program_ok F name_max junk img base s c Tc path v v1 fd argv environ Hk Eo Hfd Hop Hb Helf Hint Hbel Hst Hrun)
    as (s' & v' & r & Tc' & Tr' & E & Hsp & Hh & Hpl & [S1 S2 S3]).
  assert (forall va bs, placed s' r Tc' Tr' va bs -> shows s' (u64 (hhdm_offset s + r)) va bs) as Hps.
  { intros va bs Hp. rewrite <- Hh. by eapply placed_shows. }
  exists s', v', (u64 (hhdm_offset s + r)), (program_sp argv environ). split_and!; [exact E| | |].
  - eapply Forall_impl; [exact Hpl|]. cbn beta. auto.
  - exists (arg_addrs argv environ), (env_addrs environ). split_and!; [by apply Hps|eapply Forall2_impl; [exact S2|]; cbn beta; auto|eapply Forall2_impl; [exact S3|]; cbn beta; auto].
  - apply sp_aligned. apply Hst.
Qed.

End LoaderProgram.
