(* ===== verification/HeapRegions.v ===== *)
(** The page hooks of the heap ([kern/mem/liballoc_host.c]) on the virtual memory
    manager: address ranges come from the region list, and a run of pages that
    the heap holds is a busy region of it.  With this the theorems about the heap
    hold over the region allocator. *)
From S2P Require Import Prelude Pmm Region PageTable Heap HeapInv HeapFacts HeapSteps HeapSpec HeapClient.

Module HeapRegions.
Import Heap HeapFacts HeapClient Region.

(** ** The hooks *)

Definition liballoc_alloc (npg : Z) : M PageTable.mm Z :=
  pml4v ← PageTable.vmm_cpml4v;
  PageTable.vmm_map_pages pml4v 0 0 npg (Z.lor (Z.lor PageTable.MAP_ANYPHYS PageTable.MAP_ANYVIRT) PageTable.PAGE_WRITE).

Definition liballoc_free (addr npg : Z) : M PageTable.mm Z :=
  pml4v ← PageTable.vmm_cpml4v;
  _ ← PageTable.vmm_unmap_pages pml4v addr npg 0;
  mret 0.

(** ** Their effect on the region list *)

Section regions.
Context (head : option nat) (r : vmm_range_t).

Definition region_alloc (npg : Z) : M (list vmm_region_t) Z := fun nodes =>
  match vmm_ffreer nodes head npg false r with Some (nodes', a) => Done nodes' a | None => Fault end.
Definition region_free (addr npg : Z) : M (list vmm_region_t) Z := fun nodes =>
  match regions_release nodes head addr npg with Some nodes' => Done nodes' 0 | None => Fault end.

(** The regions from [p] on, and the busy ones as runs. *)
Fixpoint walk (fuel : nat) (nodes : list vmm_region_t) (p : option nat) : list reg :=
  match fuel, p with
  | S fuel', Some i =>
      match nodes !! i with
      | Some n => (vaddr_base n, page_count n, is_free n) :: walk fuel' nodes (Region.next n)
      | None => []
      end
  | _, _ => []
  end.

Fixpoint busy (rs : list reg) : gmap Z Z :=
  match rs with
  | [] => ∅
  | (b, pc, f) :: rs' => if f then busy rs' else <[b := pc]> (busy rs')
  end.

Lemma walk_seg nodes l : forall fuel p, Region.seg nodes p l None -> (length l <= fuel)%nat -> walk fuel nodes p = l.*2.
Proof.
  induction l as [|[i [[b pc] f]] l IH]; intros fuel p Hs Hlen; cbn [Region.seg] in Hs.
  - subst p. by destruct fuel.
  - destruct Hs as (-> & nx & Hi & Hs). destruct fuel as [|fuel]; [cbn in Hlen; lia|]. cbn [walk]. rewrite Hi. cbn.
    f_equal. apply IH; [done|cbn in Hlen; lia].
Qed.

Lemma tiles_apart b l e x n f y m g :
  tiles b l e -> (x, n, f) ∈ l -> (y, m, g) ∈ l -> (x = y /\ n = m /\ f = g) \/ x + n * 4096 <= y \/ y + m * 4096 <= x.
Proof.
  revert b. induction l as [|[[rb pc] h] l IH]; intros b Ht Hx Hy; [by apply not_elem_of_nil in Hx|].
  destruct Ht as (-> & Hpc & Ht). apply elem_of_cons in Hx as [Hx|Hx], Hy as [Hy|Hy].
  - left. by simplify_eq.
  - simplify_eq. destruct (tiles_bounds _ _ _ _ _ _ Ht Hy). lia.
  - simplify_eq. destruct (tiles_bounds _ _ _ _ _ _ Ht Hx). lia.
  - by eapply IH.
Qed.

Lemma busy_lookup b l e x n : tiles b l e -> busy l !! x = Some n <-> (x, n, false) ∈ l.
Proof.
  revert b. induction l as [|[[rb pc] f] l IH]; intros b Ht; [cbn; split; [done|by intros ?%not_elem_of_nil]|].
  pose proof Ht as (-> & Hpc & Ht'). cbn [busy]. rewrite elem_of_cons. destruct f.
  - rewrite (IH _ Ht'). split; [by right|]. intros [|]; [done|done].
  - split.
    + intros [[-> ->]|[Hne Hx]]%lookup_insert_Some; [by left|right]. by apply (IH _ Ht').
    + intros [[= -> ->]|Hx]; [by rewrite lookup_insert_eq|].
      destruct (tiles_bounds _ _ _ _ _ _ Ht' Hx). rewrite lookup_insert_ne by lia. by apply (IH _ Ht').
Qed.

Definition held (nodes : list vmm_region_t) : gmap Z Z := busy (walk (S MAX_VNODES) nodes head).

Lemma held_rep nodes rs : regions_rep nodes head rs -> held nodes = busy rs /\ tiles HEAP_START rs HEAP_END.
Proof.
  intros (l & <- & (Hlen & Hnd & Hs) & Ht). split; [|done]. unfold held. rewrite (walk_seg _ l); [done|done|].
  pose proof (seg_nodup_length _ _ _ _ Hnd Hs). lia.
Qed.

(** The list is a tiling of the heap, and a busy region is less than 4 GiB. *)
Definition list_ok (nodes : list vmm_region_t) : Prop :=
  exists rs, regions_rep nodes head rs /\ forall b n, (b, n, false) ∈ rs -> 4096 * n < 2 ^ 32.

Lemma held_runs nodes : list_ok nodes -> HeapInv.runs_ok (held nodes).
Proof.
  intros (rs & Hrep & Hsmall). destruct (held_rep _ _ Hrep) as [-> Ht]. split.
  - intros b n Hb%(busy_lookup _ _ _ _ _ Ht). pose proof (Hsmall _ _ Hb). destruct (tile_no_wrap _ _ _ _ Ht Hb) as (?&?&?&_).
    unfold HEAP_START, HEAP_END in *. lia.
  - intros b n b' n' Hb%(busy_lookup _ _ _ _ _ Ht) Hb'%(busy_lookup _ _ _ _ _ Ht) Hne.
    destruct (tiles_apart _ _ _ _ _ _ _ _ _ Ht Hb Hb') as [(? & _)|]; lia.
Qed.

Lemma region_alloc_law nodes n : list_ok nodes -> 0 < n -> 4096 * n < 2 ^ 32 ->
  exists nodes' a, region_alloc n nodes = Done nodes' a /\ list_ok nodes' /\
    ((a = 0 /\ held nodes' = held nodes) \/ (held nodes !! a = None /\ held nodes' = <[a := n]> (held nodes))).
Proof.
  intros (rs & Hrep & Hsmall) Hn Hn'. unfold region_alloc.
  destruct (vmm_ffreer_cases nodes head rs n r Hrep Hn) as (nodes' & a & -> & [(-> & -> & _)|(pre & pc & post & -> & Ha & Hpc & _ & Hrep')]);
    [exists nodes, 0|exists nodes', a]; (split; [done|]).
  { split; [by exists rs|by left]. }
  destruct (held_rep _ _ Hrep) as [E Ht], (held_rep _ _ Hrep') as [E' Ht'].
  assert (forall b m, (b, m, false) ∈ pre ++ carve a pc n ++ post <-> (b = a /\ m = n) \/ (b, m, false) ∈ pre ++ (a, pc, true) :: post) as Hin.
  { intros b m. unfold carve. destruct (n <? pc); rewrite ?elem_of_app, ?elem_of_cons, ?elem_of_app, ?elem_of_nil; naive_solver. }
  assert (busy (pre ++ (a, pc, true) :: post) !! a = None) as Hno.
  { apply eq_None_not_Some. intros [m Hm%(busy_lookup _ _ _ _ _ Ht)].
    assert ((a, pc, true) ∈ pre ++ (a, pc, true) :: post) as Hin' by (apply elem_of_app; right; by left).
    destruct (tiles_bounds _ _ _ _ _ _ Ht Hm) as (_ & ? & _).
    destruct (tiles_apart _ _ _ _ _ _ _ _ _ Ht Hm Hin') as [(_ & _ & ?)|]; [done|lia]. }
  split.
  - exists (pre ++ carve a pc n ++ post). split; [done|]. intros b m [[-> ->]|Hm]%Hin; [done|by eapply Hsmall].
  - right. rewrite E, E'. split; [done|]. apply map_eq. intros b. apply option_eq. intros m.
    rewrite (busy_lookup _ _ _ _ _ Ht'), Hin, lookup_insert_Some, (busy_lookup _ _ _ _ _ Ht). split; [|naive_solver].
    intros [[-> ->]|Hm]; [by left|right]. split; [|done]. intros <-. apply (busy_lookup _ _ _ _ _ Ht) in Hm. congruence.
Qed.

Lemma merge_from_busy a l x n : (x, n, false) ∈ merge_from a l <-> (x, n, false) ∈ a :: l.
Proof.
  revert a. induction l as [|b l IH]; intros a; [done|]. cbn [merge_from]. destruct a as [[b1 n1] f1], b as [[b2 n2] f2]. cbn [fst snd].
  destruct f1, f2; cbn [andb]; rewrite ?elem_of_cons, IH, ?elem_of_cons; naive_solver.
Qed.

Lemma region_free_law nodes a n : list_ok nodes -> held nodes !! a = Some n ->
  exists nodes' v, region_free a n nodes = Done nodes' v /\ list_ok nodes' /\ held nodes' = delete a (held nodes).
Proof.
  intros (rs & Hrep & Hsmall) Ha. destruct (held_rep _ _ Hrep) as [E Ht]. rewrite E in Ha |- *.
  pose proof Ha as Hin. apply (busy_lookup _ _ _ _ _ Ht) in Hin as Hel. destruct (tiles_bounds _ _ _ _ _ _ Ht Hel) as (_ & Hn & _).
  apply list_elem_of_split in Hel as (pre & post & ->).
  destruct (regions_release_list nodes head pre a n post a n) as (nodes' & Er & _ & Hrep'); [done|done|lia|lia|by left|by left|].
  unfold region_free. rewrite Er. exists nodes', 0. split; [done|]. destruct (held_rep _ _ Hrep') as [E' Ht'].
  unfold shed in *. rewrite Z.eqb_refl in *.
  assert (forall b m, (b, m, false) ∈ merge_adj (pre ++ [(a, n, true)] ++ post) <-> (b, m, false) ∈ pre ++ [(a, n, true)] ++ post) as Hm.
  { intros b m. destruct (pre ++ [(a, n, true)] ++ post) as [|d l]; [done|]. apply merge_from_busy. }
  assert (forall b m, (b, m, false) ∈ pre ++ [(a, n, true)] ++ post <-> b <> a /\ (b, m, false) ∈ pre ++ (a, n, false) :: post) as Hin'.
  { intros b m. split.
    - intros Hb. assert ((b, m, false) ∈ pre ++ (a, n, false) :: post) as Hb2.
      { rewrite !elem_of_app, elem_of_cons in *. rewrite elem_of_nil in Hb. naive_solver. }
      split; [|done]. intros ->. assert (tiles HEAP_START (pre ++ [(a, n, true)] ++ post) HEAP_END) as Ht2.
      { apply (tiles_replace _ _ [(a, n, false)]); [|done]. intros x y. cbn. tauto. }
      destruct (tiles_apart _ _ _ a n true a m false Ht2) as [(_ & _ & ?)|?]; [|done|done|].
      + apply elem_of_app. right. by left.
      + destruct (tiles_bounds _ _ _ _ _ _ Ht2 Hb) as (_ & ? & _). lia.
    - intros [Hne Hb]. rewrite !elem_of_app, elem_of_cons in *. naive_solver. }
  split.
  - eexists. split; [exact Hrep'|]. intros b m [_ Hb]%Hm%Hin'. by eapply Hsmall.
  - rewrite E'. apply map_eq. intros b. apply option_eq. intros m.
    rewrite (busy_lookup _ _ _ _ _ Ht'), Hm, Hin', lookup_delete_Some, (busy_lookup _ _ _ _ _ Ht). naive_solver.
Qed.

#[export] Instance region_source : page_source region_alloc region_free :=
  Build_page_source _ _ _ held list_ok held_runs region_alloc_law region_free_law.

End regions.

(** ** The hooks and the region list *)

Definition region_list (s : PageTable.mm) : list vmm_region_t * option nat := (PageTable.vmmr_nodes s, PageTable.vmmr_head s).

Lemma keeps_ldt t i : keeps region_list (PageTable.ldt t i).
Proof. unfold PageTable.ldt, PageTable.ld. intros s s' v. by destruct (PageTable.phys_at s _); intros [= <- _]. Qed.

Lemma keeps_stt t i x : keeps region_list (PageTable.stt t i x).
Proof. unfold PageTable.stt, PageTable.st. intros s s' v. by destruct (PageTable.phys_at s _); intros [= <- _]. Qed.

Lemma keeps_falloc n : keeps region_list (PageTable.falloc n).
Proof. unfold PageTable.falloc. intros s s' v. by destruct (Pmm.pmm_falloc _ _) as [[p a]|]; intros [= <- _]. Qed.

Lemma regs_ffree a n : keeps region_list (PageTable.ffree a n).
Proof. unfold PageTable.ffree. intros s s' v. by destruct (Pmm.pmm_ffree _ _ _); intros [= <- _]. Qed.

Lemma regs_for n i (f : Z -> M PageTable.mm unit) : (forall j, keeps region_list (f j)) -> keeps region_list (PageTable.for_loop n i f).
Proof. intros Hf. revert i. induction n as [|n IH]; intros i; cbn; repeat keeps_step; auto. Qed.

Create HintDb regs.
#[local] Hint Resolve keeps_ldt keeps_stt keeps_falloc regs_ffree : regs.

(** Known steps first: a table is cleared by 512 of them. *)
Ltac regs_step := first [solve [auto with regs nocore] | keeps_step].

Lemma keeps_alloctblpg : keeps region_list PageTable.alloctblpg.
Proof.
  unfold PageTable.alloctblpg, PageTable.memset_page.
  apply keeps_bind; [apply keeps_falloc|]. intros q. destruct (q =? 0); [apply keeps_ret|].
  apply keeps_bind; [apply keeps_gets|]. intros hh. apply keeps_bind; [|intros ?; apply keeps_ret].
  apply regs_for. intros j. apply keeps_stt.
Qed.
#[local] Hint Resolve keeps_alloctblpg : regs.

Lemma keeps_map_page p v ph f : keeps region_list (PageTable.vmm_map_page p v ph f).
Proof. unfold PageTable.vmm_map_page, PageTable.next_table_top, PageTable.next_table. repeat regs_step. Qed.

Lemma keeps_table_empty n : forall i t, keeps region_list (PageTable.table_empty_loop n i t).
Proof. induction n as [|n IH]; intros i t; cbn; repeat regs_step; auto. Qed.
#[local] Hint Resolve keeps_table_empty keeps_map_page : regs.

Lemma keeps_unmap_page p v f : keeps region_list (PageTable.vmm_unmap_page p v f).
Proof. unfold PageTable.vmm_unmap_page, PageTable.is_table_empty. repeat regs_step. Qed.

Lemma keeps_anyphys n : forall i p v f, keeps region_list (PageTable.map_anyphys n i p v f).
Proof. induction n as [|n IH]; intros i p v f; cbn; repeat regs_step; auto. Qed.

(** What [liballoc_alloc] does to the region list is [region_alloc]; it returns
    the address found there, or NULL when there are no frames. *)
Lemma liballoc_alloc_regions n s s' a :
  liballoc_alloc n s = Done s' a ->
  exists r v, PageTable.cur_range s = Some r /\
    region_alloc (PageTable.vmmr_head s) r n (PageTable.vmmr_nodes s) = Done (PageTable.vmmr_nodes s') v /\
    PageTable.vmmr_head s' = PageTable.vmmr_head s /\ (a = v \/ a = 0).
Proof.
  unfold liballoc_alloc. intros (s0 & pml & [= <- <-] & E)%bind_inv. unfold PageTable.vmm_map_pages in E.
  change (negb (Z.land _ PageTable.MAP_ANYVIRT =? 0)) with true in E. cbv iota in E.
  apply bind_inv in E as (s1 & v & E1 & E). unfold PageTable.ffreer in E1. destruct (PageTable.cur_range s) as [r|]; [|done].
  rewrite PageTable.usrmap_truncated, Z.eqb_refl in E1. cbn [negb] in E1. exists r, v. unfold region_alloc.
  destruct (vmm_ffreer _ _ _ _ _) as [[nodes' v']|]; [|done]. injection E1 as <- <-. split; [done|].
  destruct (v' =? 0) eqn:Ev; [injection E as <- <-; split_and!; try done; by right|].
  unfold PageTable.map_body in E. change (negb (Z.land _ PageTable.MAP_ANYPHYS =? 0)) with true in E.
  change (negb (Z.land _ PageTable.MAP_CONT =? 0)) with false in E. cbv iota zeta in E.
  pose proof (keeps_run _ _ _ _ _ E (keeps_anyphys _ _ _ _ _)) as [= -> ->]. split_and!; try done.
  apply PageTable.map_anyphys_result in E. tauto.
Qed.

(** ... and that of [liballoc_free] is [region_free]. *)
Lemma liballoc_free_regions a n s s' v :
  liballoc_free a n s = Done s' v ->
  region_free (PageTable.vmmr_head s) a n (PageTable.vmmr_nodes s) = Done (PageTable.vmmr_nodes s') v /\
  PageTable.vmmr_head s' = PageTable.vmmr_head s.
Proof.
  unfold liballoc_free. intros (s0 & pml & [= <- <-] & E)%bind_inv. apply bind_inv in E as (s1 & [] & E1 & [= <- <-]).
  unfold PageTable.vmm_unmap_pages in E1. apply bind_inv in E1 as (s2 & [] & E2 & E1).
  pose proof (keeps_run _ _ _ _ _ E2 (regs_for _ _ _ (fun j => keeps_unmap_page _ _ _))) as [= Hn Hh].
  unfold PageTable.release in E1. unfold region_free. rewrite <- Hn, <- Hh.
  destruct (regions_release _ _ _ _) as [nodes'|]; [|done]. by injection E1 as <-.
Qed.

(** ** A fresh heap *)

Definition pages0 : list vmm_region_t := (regions_init pool0).1.
Definition heap0 : hst (list vmm_region_t) := mk_hst ∅ ∅ (replicate MAXEXP 0) (replicate MAXEXP 0) false pages0.
Notation alloc0 := (region_alloc (Some 0%nat) no_range).
Notation free0 := (region_free (Some 0%nat)).


Lemma heap0_holds : heap_holds alloc0 free0 heap0 ∅.
Proof.
  assert (forall i l, replicate MAXEXP (@nil Z) !! i = Some l -> l = [] /\ (i < MAXEXP)%nat) as Hr by (by intros i l [-> ?]%lookup_replicate).
  exists ∅, (replicate MAXEXP []). split; [split; [apply map_empty_subseteq|]|].
  - split; try done.
    + exists [(HEAP_START, heap_pages, true)]. split; [exact regions_init_rep|]. intros b n [?|Hn]%elem_of_cons; [done|by apply not_elem_of_nil in Hn].
    + split; [done|done| |done]. intros i l [-> Hi]%Hr. split_and!; [done|apply NoDup_nil_2|]. by apply lookup_replicate.
  - intros p z. rewrite lookup_empty. split; [done|]. intros (t & Ht & _). by rewrite lookup_empty in Ht.
Qed.

Definition block0 : Z := HEAP_START + TAGSZ.

Lemma malloc0_result : result_of (malloc alloc0 7 9 100 heap0) = Some block0.
Proof. vm_compute. reflexivity. Qed.

Lemma malloc0 : exists s, malloc alloc0 7 9 100 heap0 = Done s block0 /\ heap_holds alloc0 free0 s {[block0 := 100]}.
Proof.
  destruct (malloc_holds alloc0 free0 7 9 heap0 ∅ 100 heap0_holds ltac:(split; lia)) as (s & p & E & _ & Hc).
  pose proof malloc0_result as Hr. rewrite E in Hr. injection Hr as ->. exists s. split; [done|].
  destruct Hc as [[Hz _]|(_ & _ & Hh)]; [exfalso; clear -Hz; discriminate Hz|]. rewrite insert_empty in Hh. exact Hh.
Qed.

Lemma heap_malloc_fresh_witness :
  exists s, malloc alloc0 7 9 100 heap0 = Done s block0 /\ heap_holds alloc0 free0 s {[block0 := 100]}.
Proof.
  destruct (heap_malloc_fresh alloc0 free0 7 9 heap0 ∅ 100 heap0_holds ltac:(split; lia)) as (s & p & E & _ & Hc).
  pose proof malloc0_result as Hr. rewrite E in Hr. injection Hr as ->. exists s. split; [done|].
  destruct Hc as [[Hz _]|(_ & _ & Hh & _)]; [exfalso; clear -Hz; discriminate Hz|]. rewrite insert_empty in Hh. exact Hh.
Defined.

Lemma heap_free_returns_witness :
  exists s s', malloc alloc0 7 9 100 heap0 = Done s block0 /\ free free0 block0 s = Done s' tt /\ heap_holds alloc0 free0 s' ∅.
Proof.
  destruct malloc0 as (s & E & Hh).
  destruct (heap_free_returns alloc0 free0 s {[block0 := 100]} block0 100 Hh (lookup_singleton_eq _ _)) as (s' & Ef & Hh' & _).
  exists s, s'. rewrite delete_singleton_eq in Hh'. split; [exact E|]. split; [exact Ef|exact Hh'].
Defined.

Lemma heap_realloc_moves_witness :
  exists s, malloc alloc0 7 9 100 heap0 = Done s block0 /\
  ((exists s' q, realloc alloc0 free0 7 9 block0 500 s = Done s' q /\ heap_holds alloc0 free0 s' {[q := 500]} /\
      forall i, 0 <= i < 100 -> bytes s' !! (q + i) = bytes s !! (block0 + i)) \/
   result_of (malloc alloc0 7 9 500 s) = Some 0).
Proof.
  destruct malloc0 as (s & E & Hh). exists s. split; [done|].
  destruct (heap_realloc_moves alloc0 free0 7 9 s {[block0 := 100]} block0 100 500 Hh (lookup_singleton_eq _ _))
    as [(s' & q & Er & _ & Hh' & _ & Hd)|(s' & Em & _)]; [clear; lia|clear; lia|clear; split; lia|left|right].
  - exists s', q. rewrite delete_singleton_eq in Hh'. split; [exact Er|]. split; [exact Hh'|exact Hd].
  - rewrite Em. reflexivity.
Defined.

(** A request of 4 GiB gets a block without room: [allocate_new_tag]
    and the tag take the size as 32 bits, of which nothing is left.  The next
    block lies inside the 4 GiB. *)
Theorem heap_4gib_overlaps :
  exists p q, result_of ((p ← malloc alloc0 0 0 (2 ^ 32); q ← malloc alloc0 0 0 16; mret (p, q)) heap0) = Some (p, q) /\
    p <> 0 /\ p < q < p + 2 ^ 32.
Proof. exists block0, (block0 + 48). split; [vm_compute; reflexivity|]. vm_compute. done. Qed.

(** [free] does not tell a block from one that is free already: the tag keeps
    its magic number.  A second [free] makes the tag follow itself on its list;
    after it has been handed out it is found again, and removing it indexes the
    lists with -1. *)
Theorem heap_double_free_corrupts :
  (p ← malloc alloc0 0 0 60000; _ ← free free0 p; _ ← free free0 p; q ← malloc alloc0 0 0 60000; mret (p =? q)) heap0 <> Fault /\
  (p ← malloc alloc0 0 0 60000; _ ← free free0 p; _ ← free free0 p; _ ← malloc alloc0 0 0 60000; malloc alloc0 0 0 40000) heap0 = Fault.
Proof. split; [|vm_compute; reflexivity]. intros E. apply (f_equal result_of) in E. vm_compute in E. discriminate. Qed.

End HeapRegions.
