(* ===== verification/VfsPath.v ===== *)
(** Paths of the virtual file system ([src/drivers/storage/fs/vfs.c]):
    [vfs_canonicalize], [vfs_abspath], [vfs_dirname], [vfs_basename] and the
    choice of a mount in [vfs_getmnt].

    Model: a path is a string value (the bytes before the NUL).  An output
    buffer is the string written to it; [None] is a write past its end.
    Loops that scan a path backwards work on the reversed list.

    Reference: [comps] splits a path at its slashes and [norm] resolves the
    components "." and "..". *)
From S2P Require Import Prelude.

Module VfsPath.

Definition SLASH : Z := 47.
Definition DOT : Z := 46.

Definition is_slash (c : Z) : bool := c =? SLASH.

(** Advance while the predicate holds of the byte at the cursor. *)
Fixpoint drop_while (f : Z -> bool) (p : list Z) : list Z :=
  match p with
  | [] => []
  | c :: p' => if f c then drop_while f p' else p
  end.

Fixpoint take_while (f : Z -> bool) (p : list Z) : list Z :=
  match p with
  | [] => []
  | c :: p' => if f c then c :: take_while f p' else []
  end.

(** ** Canonical form *)

(** The step back over the last component; [rout] is the output reversed. *)
Definition canon_pop (rout : list Z) : list Z :=
  match rout with
  | _ :: ((_ :: _) as r) => drop_while (fun c => negb (is_slash c)) r
  | _ => rout
  end.

(** Append a component; the sum is the error of a full buffer. *)
Definition canon_push (rout st : list Z) (outlen : Z) : option (list Z) :=
  let opos := Z.of_nat (length rout) in
  let need := match rout with [] => false | c :: _ => negb (is_slash c) end in
  if need && (outlen <=? opos + 1) then None
  else
    let rout1 := if need then SLASH :: rout else rout in
    if outlen <=? Z.of_nat (length rout1) + Z.of_nat (length st) then None
    else Some (rev st ++ rout1).

Fixpoint canon_loop (fuel : nat) (path rout : list Z) (outlen : Z) : option (Z * list Z) :=
  match fuel with
  | O => None
  | S fuel' =>
      match drop_while is_slash path with
      | [] => Some (0, rout)
      | p =>
          let st := take_while (fun c => negb (is_slash c)) p in
          let rest := drop (length st) p in
          if decide (st = [DOT]) then canon_loop fuel' rest rout outlen
          else if decide (st = [DOT; DOT]) then canon_loop fuel' rest (canon_pop rout) outlen
          else match canon_push rout st outlen with
               | None => Some (- ETOOSMALL, rout)
               | Some rout' => canon_loop fuel' rest rout' outlen
               end
      end
  end.

Definition vfs_canonicalize (path : list Z) (outlen : Z) : option (Z * list Z) :=
  if (outlen =? 0) || (Z.of_nat (length path) =? 0) then Some (- EINVAL, [])
  else
    '(ret, rout) ← canon_loop (S (length path)) path [SLASH] outlen;
    if ret <? 0 then Some (ret, rev rout)
    else
      let rout1 := match rout with [] => [SLASH] | _ => rout end in
      if Z.of_nat (length rout1) <? outlen then Some (0, rev rout1) else None.

Definition TMP : Z := 1024.

Definition vfs_abspath (cwd path : list Z) (outlen : Z) : option (Z * list Z) :=
  if (outlen =? 0) || (Z.of_nat (length path) =? 0) then Some (- EINVAL, [])
  else
    let len := Z.of_nat (length path) in
    if match path with c :: _ => is_slash c | [] => false end then
      if TMP <? len + 1 then Some (- ETOOSMALL, []) else vfs_canonicalize path outlen
    else
      let cwdlen := Z.of_nat (length cwd) in
      if TMP <? cwdlen + 1 + len + 1 then Some (- ETOOSMALL, [])
      else
        let tmp := match last cwd with
                   | Some c => if negb (is_slash c) then cwd ++ [SLASH] else cwd
                   | None => cwd
                   end in
        vfs_canonicalize (tmp ++ path) outlen.

(** ** Last component *)

Definition vfs_dirname (path : list Z) (dirlen : Z) : Z * list Z :=
  if dirlen =? 0 then (- EINVAL, [])
  else
    let r := drop_while is_slash (rev path) in
    let small := if dirlen <? 2 then true else false in
    match r with
    | [] => if small then (- ETOOSMALL, []) else (0, [SLASH])
    | _ =>
        let upto := drop_while (fun c => negb (is_slash c)) r in
        let slash := Z.of_nat (length upto) in
        if slash =? 0 then if small then (- ETOOSMALL, []) else (0, [DOT])
        else if (slash =? 1) && match path with c :: _ => is_slash c | [] => false end
        then if small then (- ETOOSMALL, []) else (0, [SLASH])
        else
          let dlen := slash - 1 in
          if dirlen <=? dlen then (- ETOOSMALL, []) else (0, take (Z.to_nat dlen) path)
    end.

Definition vfs_basename (path : list Z) (baselen : Z) : Z * list Z :=
  if baselen =? 0 then (- EINVAL, [])
  else
    let r := drop_while is_slash (rev path) in
    match r with
    | [] => (0, [])
    | _ =>
        let bname := rev (take_while (fun c => negb (is_slash c)) r) in
        if baselen <=? Z.of_nat (length bname) then (- ETOOSMALL, []) else (0, bname)
    end.

(** ** Mount lookup *)

(** Does the mount at [mp] contain [abs]?  [strncmp] over the length of [mp],
    then the component boundary. *)
Definition mnt_matches (abs mp : list Z) : bool :=
  bool_decide (mp `prefix_of` abs) &&
  negb ((1 <? Z.of_nat (length mp)) &&
        match abs !! length mp with None => false | Some c => negb (is_slash c) end).

(** [ms]: in-use flag and path of each slot; the result is the slot index. *)
Fixpoint getmnt_loop (i : nat) (ms : list (bool * list Z)) (abs : list Z)
  (mnt : option nat) (mntlen : Z) : option nat :=
  match ms with
  | [] => mnt
  | (inuse, mp) :: rest =>
      let len := Z.of_nat (length mp) in
      if negb inuse || (len <? mntlen) || negb (mnt_matches abs mp)
      then getmnt_loop (S i) rest abs mnt mntlen
      else getmnt_loop (S i) rest abs (Some i) len
  end.

Definition getmnt (ms : list (bool * list Z)) (abs : list Z) : option nat :=
  getmnt_loop 0 ms abs None 0.

(** ** Reference *)

Definition emit (cur : list Z) : list (list Z) := match cur with [] => [] | _ => [cur] end.

Fixpoint split_slash (cur p : list Z) : list (list Z) :=
  match p with
  | [] => emit cur
  | c :: p' => if is_slash c then emit cur ++ split_slash [] p' else split_slash (cur ++ [c]) p'
  end.

(** The non-empty components of a path. *)
Definition comps (p : list Z) : list (list Z) := split_slash [] p.

(** One component applied to the stack of components above it. *)
Definition norm_step (stk : list (list Z)) (c : list Z) : list (list Z) :=
  if decide (c = [DOT]) then stk
  else if decide (c = [DOT; DOT]) then tail stk
  else c :: stk.

Definition norm (cs : list (list Z)) : list (list Z) := rev (foldl norm_step [] cs).

(** ** Splitting *)

Definition noslash (c : list Z) : Prop := Forall (fun x => is_slash x = false) c.

Lemma split_slash_noslash cur c p :
  noslash c -> split_slash cur (c ++ p) = split_slash (cur ++ c) p.
Proof.
  intros Hc. revert cur. induction Hc as [|x c Hx _ IH]; intros cur; simpl.
  - by rewrite app_nil_r.
  - rewrite Hx, IH. by rewrite <- app_assoc.
Qed.

Lemma comps_slash p : comps (SLASH :: p) = comps p.
Proof. done. Qed.

Lemma comps_cons c p :
  noslash c -> c <> [] -> (p = [] \/ exists p', p = SLASH :: p') -> comps (c ++ p) = c :: comps p.
Proof.
  intros Hc Hne Hp. unfold comps. rewrite split_slash_noslash by done. simpl.
  destruct c as [|x c]; [done|]. destruct Hp as [->|[p' ->]]; done.
Qed.

Lemma comps_single c : noslash c -> c <> [] -> comps c = [c].
Proof. intros. rewrite <- (app_nil_r c) at 1. by rewrite comps_cons by auto. Qed.

Lemma drop_while_slash p : exists k, p = replicate k SLASH ++ drop_while is_slash p.
Proof.
  induction p as [|c p [k IH]]; [by exists 0%nat|]. simpl.
  destruct (is_slash c) eqn:E; [|by exists 0%nat].
  apply Z.eqb_eq in E. subst c. exists (S k). simpl. by f_equal.
Qed.

Lemma comps_drop_while p : comps (drop_while is_slash p) = comps p.
Proof. induction p as [|c p IH]; simpl; [done|]. destruct (is_slash c) eqn:E; [|done].
  rewrite IH. apply Z.eqb_eq in E. by subst c. Qed.

Lemma drop_while_head f p c r : drop_while f p = c :: r -> f c = false.
Proof.
  induction p as [|x p IH]; simpl; [done|]. destruct (f x) eqn:E; [done|]. by intros [= -> ->].
Qed.

Lemma take_drop_while f p : take_while f p ++ drop_while f p = p.
Proof. induction p as [|c p IH]; simpl; [done|]. destruct (f c); simpl; congruence. Qed.

Lemma drop_take_while f p : drop (length (take_while f p)) p = drop_while f p.
Proof. rewrite <- (take_drop_while f p) at 2. apply drop_app_length. Qed.

Lemma take_while_Forall f p : Forall (fun c => f c = true) (take_while f p).
Proof. induction p as [|c p IH]; simpl; [done|]. destruct (f c) eqn:E; [by constructor|done]. Qed.

Notation comp_of := (take_while (fun c => negb (is_slash c))).
Notation after_comp := (drop_while (fun c => negb (is_slash c))).

Lemma comp_of_noslash p : noslash (comp_of p).
Proof.
  eapply Forall_impl; [apply take_while_Forall|]. simpl. intros c. by destruct (is_slash c).
Qed.

Lemma after_comp_shape p : after_comp p = [] \/ exists p', after_comp p = SLASH :: p'.
Proof.
  destruct (after_comp p) as [|c r] eqn:E; [by left|]. right. exists r.
  apply drop_while_head in E. apply negb_false_iff, Z.eqb_eq in E. by subst c.
Qed.

Lemma after_comp_app c p :
  noslash c -> (p = [] \/ exists p', p = SLASH :: p') -> after_comp (c ++ p) = p.
Proof.
  intros Hc Hp. induction Hc as [|x c Hx _ IH]; simpl.
  - by destruct Hp as [->|[p' ->]].
  - by rewrite Hx.
Qed.

Lemma comp_of_app c p :
  noslash c -> (p = [] \/ exists p', p = SLASH :: p') -> comp_of (c ++ p) = c.
Proof.
  intros Hc Hp. induction Hc as [|x c Hx _ IH]; simpl.
  - by destruct Hp as [->|[p' ->]].
  - rewrite Hx. simpl. by f_equal.
Qed.

Lemma noslash_rev c : noslash c -> noslash (rev c).
Proof. apply Forall_rev. Qed.

(** A path whose first byte is not a slash: first component and rest. *)
Lemma comps_first c p :
  is_slash c = false ->
  comps (c :: p) = comp_of (c :: p) :: comps (after_comp (c :: p)) /\ comp_of (c :: p) <> [].
Proof.
  intros Hc. assert (comp_of (c :: p) <> []) as Hne by (simpl; by rewrite Hc).
  split; [|done]. rewrite <- (take_drop_while (fun x => negb (is_slash x)) (c :: p)) at 1.
  apply comps_cons; [apply comp_of_noslash|done|apply after_comp_shape].
Qed.

(** ** The output buffer as a stack of components *)

(** Reversed text of the stack: for components c1 .. cn it is "/c1/../cn". *)
Definition rtext (stk : list (list Z)) : list Z := concat (map (fun c => rev c ++ [SLASH]) stk).

Definition stk_ok (stk : list (list Z)) : Prop := Forall (fun c => noslash c /\ c <> []) stk.

(** Either the text ends in a component, or in a slash. *)
Definition holds (rout : list Z) (stk : list (list Z)) : Prop :=
  stk_ok stk /\ ((rout = rtext stk /\ stk <> []) \/ rout = SLASH :: rtext stk).

Lemma rtext_cons c stk : rtext (c :: stk) = rev c ++ SLASH :: rtext stk.
Proof. unfold rtext. simpl. by rewrite <- app_assoc. Qed.

Lemma rev_nonempty (c : list Z) : c <> [] -> exists x r, rev c = x :: r /\ (noslash c -> is_slash x = false).
Proof.
  intros Hne. destruct (rev c) as [|x r] eqn:E.
  - apply (f_equal (@rev Z)) in E. rewrite rev_involutive in E. done.
  - exists x, r. split; [done|]. intros H%noslash_rev. rewrite E in H. by apply Forall_cons in H as [? _].
Qed.

Lemma canon_pop_holds rout stk : holds rout stk -> holds (canon_pop rout) (tail stk).
Proof.
  intros [Hok Hr].
  destruct stk as [|c stk]; simpl.
  { destruct Hr as [[_ ?]| ->]; [done|]. split; [done|]. by right. }
  apply Forall_cons in Hok as [[Hns Hne] Hok]. split; [done|]. right.
  assert (after_comp (rtext (c :: stk)) = SLASH :: rtext stk) as Hdrop.
  { rewrite rtext_cons. apply after_comp_app; [by apply noslash_rev|]. eauto. }
  destruct (rev_nonempty c Hne) as (x & r & Er & Hx). specialize (Hx Hns).
  rewrite rtext_cons, Er in *. simpl in Hdrop. rewrite Hx in Hdrop. simpl in Hdrop.
  destruct Hr as [[-> _]| ->]; simpl.
  - destruct (r ++ SLASH :: rtext stk) eqn:E; [by destruct r|done].
  - rewrite Hx. simpl. done.
Qed.

Lemma canon_push_holds rout stk st outlen rout' :
  holds rout stk -> noslash st -> st <> [] -> canon_push rout st outlen = Some rout' ->
  rout' = rtext (st :: stk) /\ holds rout' (st :: stk).
Proof.
  intros [Hok Hr] Hns Hne. unfold canon_push. intros Hp.
  assert (rout' = rtext (st :: stk)) as ->.
  { rewrite rtext_cons. destruct Hr as [[-> Hnil]| ->].
    - destruct stk as [|c stk]; [done|]. apply Forall_cons in Hok as [[Hcs Hcn] _].
      destruct (rev_nonempty c Hcn) as (x & r & Er & Hx).
      rewrite rtext_cons, Er in *. simpl in Hp. rewrite (Hx Hcs) in Hp. simpl in Hp.
      repeat split_if; try done. by injection Hp as <-.
    - simpl in Hp. split_if; [done|]. by injection Hp as <-. }
  split; [done|]. split; [by constructor|]. left. done.
Qed.

Lemma comps_rev_rtext stk p : stk_ok stk -> (p = [] \/ exists p', p = SLASH :: p') ->
  comps (rev (rtext stk) ++ p) = rev stk ++ comps p.
Proof.
  intros Hok. revert p. induction Hok as [|c stk [Hns Hne] _ IH]; intros p Hp; [done|].
  rewrite rtext_cons, rev_app_distr, rev_involutive. simpl.
  rewrite <- !app_assoc. simpl. rewrite IH by eauto. rewrite comps_slash.
  rewrite comps_cons by done. done.
Qed.

Lemma holds_comps rout stk : holds rout stk -> comps (rev rout) = rev stk.
Proof.
  intros [Hok [[-> _]| ->]].
  - rewrite <- (app_nil_r (rev (rtext stk))), comps_rev_rtext by eauto. apply app_nil_r.
  - simpl. rewrite comps_rev_rtext by eauto. simpl. apply app_nil_r.
Qed.

Lemma holds_nonempty rout stk : holds rout stk -> rout <> [].
Proof.
  intros [_ [[-> Hne]| ->]]; [|done]. destruct stk as [|c stk]; [done|].
  rewrite rtext_cons. by destruct (rev c).
Qed.

(** ** The loop *)

(** Room enough for everything still to come. *)
Definition roomy (path rout : list Z) (outlen : Z) : Prop :=
  Z.of_nat (length rout) + Z.of_nat (length path) < outlen /\
  ((exists r, rout = SLASH :: r) \/ path = [] \/ exists p', path = SLASH :: p').

Lemma length_drop_while f p : (length (drop_while f p) <= length p)%nat.
Proof. induction p as [|c p IH]; simpl; [done|]. destruct (f c); simpl; lia. Qed.

Lemma length_canon_pop rout : (length (canon_pop rout) <= length rout)%nat.
Proof.
  destruct rout as [|x [|y r]]; simpl; [lia..|].
  destruct (negb (is_slash y)); simpl; [|lia]. pose proof (length_drop_while (fun c => negb (is_slash c)) r). lia.
Qed.

Lemma canon_push_length rout st outlen rout' :
  canon_push rout st outlen = Some rout' -> Z.of_nat (length rout') < outlen.
Proof.
  unfold canon_push. destruct rout as [|c r]; [|destruct (is_slash c)]; cbn [negb andb];
    repeat split_if; try done; to_prop; intros [= <-]; rewrite length_app, length_rev; simpl in *; lia.
Qed.

Lemma canon_push_room rout st (rest : list Z) (k : nat) outlen :
  st <> [] -> rout <> [] ->
  Z.of_nat (length rout) + (Z.of_nat k + Z.of_nat (length st) + Z.of_nat (length rest)) < outlen ->
  ((exists r, rout = SLASH :: r) \/ (0 < k)%nat) ->
  exists rout', canon_push rout st outlen = Some rout' /\
    Z.of_nat (length rout') + Z.of_nat (length rest) < outlen.
Proof.
  intros Hst Hr Hlen Hsl. unfold canon_push. destruct rout as [|c r]; [done|].
  destruct st as [|x st]; [done|]. destruct (is_slash c) eqn:Ec; cbn [negb andb].
  - rewrite (proj2 (Z.leb_gt _ _)) by lia. eexists. split; [done|].
    rewrite length_app, length_rev. lia.
  - assert (0 < k)%nat by (destruct Hsl as [[r' [= -> _]]|?]; done).
    rewrite (proj2 (Z.leb_gt _ (_ + 1))) by (simpl in *; lia).
    rewrite (proj2 (Z.leb_gt _ _)) by (simpl in *; lia). eexists. split; [done|].
    rewrite length_app, length_rev. simpl in *. lia.
Qed.

Lemma roomy_push path rout stk k st rest outlen :
  path = replicate k SLASH ++ st ++ rest -> holds rout stk -> noslash st -> st <> [] ->
  (rest = [] \/ exists p', rest = SLASH :: p') -> roomy path rout outlen ->
  exists rout', canon_push rout st outlen = Some rout' /\ roomy rest rout' outlen.
Proof.
  intros Hk Hh Hns Hne Hrest [Hl Hs].
  destruct (canon_push_room rout st rest k outlen) as (r1 & E1 & Hl1); auto.
  - by eapply holds_nonempty.
  - rewrite Hk, !length_app, length_replicate in Hl. lia.
  - destruct Hs as [?|[->|[p' ->]]]; [by left|by destruct k, st|]. right.
    destruct k; [|lia]. destruct st as [|x st]; [done|]. injection Hk as <- _.
    by apply Forall_cons in Hns as [? _].
  - exists r1. split; [done|]. split; [done|]. by right.
Qed.

(** What the loop promises of the remaining path. *)
Definition canon_post (path rout : list Z) (stk : list (list Z)) (outlen : Z) (o : option (Z * list Z)) : Prop :=
  exists ret rout', o = Some (ret, rout') /\ Z.of_nat (length rout') < outlen /\
    ((ret = 0 /\ holds rout' (foldl norm_step stk (comps path))) \/
     (ret = - ETOOSMALL /\ ~ roomy path rout outlen)).

(** Handling one component carries the promise from the rest to the path. *)
Lemma canon_post_step path rout stk rest rout1 stk1 outlen o :
  canon_post rest rout1 stk1 outlen o ->
  foldl norm_step stk1 (comps rest) = foldl norm_step stk (comps path) ->
  (roomy path rout outlen -> roomy rest rout1 outlen) ->
  canon_post path rout stk outlen o.
Proof.
  intros (ret & rout' & -> & ? & H) Hf Hr. exists ret, rout'. rewrite <- Hf.
  split_and!; [done|done|]. destruct H as [?|[? Hn]]; [by left|right]. split; [done|]. auto.
Qed.

Lemma canon_loop_spec fuel path rout stk outlen :
  holds rout stk -> (length path < fuel)%nat -> Z.of_nat (length rout) < outlen ->
  canon_post path rout stk outlen (canon_loop fuel path rout outlen).
Proof.
  revert path rout stk. induction fuel as [|fuel IH]; intros path rout stk Hh Hf Hlt; [lia|].
  destruct (drop_while_slash path) as [k Hk]. cbn [canon_loop].
  destruct (drop_while is_slash path) as [|c p] eqn:Ed.
  { exists 0, rout. split_and!; auto. left. by rewrite <- comps_drop_while, Ed. }
  pose proof (drop_while_head _ _ _ _ Ed) as Hc. rewrite drop_take_while.
  destruct (comps_first c p Hc) as [Hcs Hne]. rewrite <- Ed, comps_drop_while, Ed in Hcs.
  rewrite <- (take_drop_while (fun c => negb (is_slash c)) (c :: p)) in Hk.
  pose proof (comp_of_noslash (c :: p)) as Hns. pose proof (after_comp_shape (c :: p)) as Hshape.
  set (st := comp_of (c :: p)) in *. set (rest := after_comp (c :: p)) in *.
  assert (length path = k + (length st + length rest))%nat as Hlen.
  { rewrite Hk, !length_app, length_replicate. lia. }
  assert (0 < length st)%nat by (by destruct st; simpl; [|lia]).
  assert (forall stk', foldl norm_step stk' (comps path) = foldl norm_step (norm_step stk' st) (comps rest))
    as Hfold by (intros; by rewrite Hcs).
  assert (forall r', (length r' <= length rout)%nat -> roomy path rout outlen -> roomy rest r' outlen) as Hroom.
  { intros r' Hr' [Hl _]. split; [lia|]. right. done. }
  destruct (decide (st = [DOT])) as [E1|N1].
  { eapply canon_post_step; [apply (IH rest rout stk); auto; lia| |by apply Hroom].
    rewrite Hfold. unfold norm_step at 3. by rewrite E1. }
  destruct (decide (st = [DOT; DOT])) as [E2|N2].
  { pose proof (length_canon_pop rout).
    eapply canon_post_step; [apply (IH rest (canon_pop rout) (tail stk)); [|lia..]| |by apply Hroom].
    - by apply canon_pop_holds.
    - rewrite Hfold. unfold norm_step at 3. by rewrite E2. }
  destruct (canon_push rout st outlen) as [rout1|] eqn:Ep.
  - destruct (canon_push_holds _ _ _ _ _ Hh Hns Hne Ep) as [_ Hh1].
    eapply canon_post_step; [apply (IH rest rout1 (st :: stk) Hh1); [lia|by eapply canon_push_length]|..].
    + rewrite Hfold. unfold norm_step at 3. by rewrite !decide_False by done.
    + intros Hr. destruct (roomy_push _ _ _ _ _ _ _ Hk Hh Hns Hne Hshape Hr) as (r1 & E1 & ?). congruence.
  - exists (- ETOOSMALL), rout. split_and!; auto. right. split; [done|]. intros Hr.
    destruct (roomy_push _ _ _ _ _ _ _ Hk Hh Hns Hne Hshape Hr) as (r1 & E1 & ?). congruence.
Qed.

Lemma holds_first rout stk : holds rout stk -> exists r, rev rout = SLASH :: r.
Proof.
  assert (forall stk : list (list Z), stk <> [] -> exists r, rev (rtext stk) = SLASH :: r) as Hrev.
  { clear. intros l. induction l as [|c l IH]; intros Hne; [done|].
    rewrite rtext_cons, rev_app_distr. simpl. destruct l as [|c' l]; [by eexists|].
    destruct IH as [r ->]; [done|]. by eexists. }
  intros [_ [[-> Hne]| ->]]; [by apply Hrev|].
  simpl. destruct stk as [|c stk]; [by exists []|].
  destruct (Hrev (c :: stk)) as [r ->]; [done|]. by eexists.
Qed.

Lemma norm_no_dots cs c : c ∈ norm cs -> c <> [DOT] /\ c <> [DOT; DOT].
Proof.
  unfold norm. rewrite list_elem_of_In, <- in_rev, <- list_elem_of_In.
  assert (forall stk, Forall (fun c => c <> [DOT] /\ c <> [DOT; DOT]) stk ->
            Forall (fun c => c <> [DOT] /\ c <> [DOT; DOT]) (foldl norm_step stk cs)) as H.
  { induction cs as [|x cs IH]; intros stk Hs; simpl; [done|]. apply IH. unfold norm_step.
    repeat case_decide; [done| |by constructor]. destruct Hs; simpl; [constructor|done]. }
  intros Hin. by eapply (proj1 (Forall_forall _ _) (H [] (Forall_nil_2 _))).
Qed.

(** C29. [vfs_canonicalize] resolves a path: with a buffer of two bytes or more
    it always returns; on success the output is an absolute path whose
    components are those of the input with every "." and ".." resolved, and it
    fails, with [-ETOOSMALL], only when the buffer is not longer than the path
    and a slash. *)
Theorem vfs_canonicalize_correct path outlen :
  path <> [] -> 2 <= outlen ->
  exists ret out, vfs_canonicalize path outlen = Some (ret, out) /\
    ((ret = 0 /\ Z.of_nat (length out) < outlen /\ (exists r, out = SLASH :: r) /\
      comps out = norm (comps path) /\ forall c, c ∈ comps out -> c <> [DOT] /\ c <> [DOT; DOT]) \/
     (ret = - ETOOSMALL /\ outlen <= Z.of_nat (length path) + 1)).
Proof.
  intros Hne Hout. unfold vfs_canonicalize.
  rewrite (proj2 (Z.eqb_neq outlen 0)) by lia.
  rewrite (proj2 (Z.eqb_neq (Z.of_nat (length path)) 0)) by (destruct path; simpl; [done|lia]).
  destruct (canon_loop_spec (S (length path)) path [SLASH] [] outlen) as (ret & rout & E & Hlt & H).
  - split; [constructor|by right].
  - lia.
  - simpl. lia.
  - cbn [orb]. rewrite E. cbn [mbind option_bind]. destruct H as [[-> Hh]|[-> Hn]].
    + exists 0, (rev rout). pose proof (holds_nonempty _ _ Hh).
      destruct rout as [|c r]; [done|]. cbn [Z.ltb Z.compare]. rewrite (proj2 (Z.ltb_lt (Z.of_nat (length (c :: r))) outlen)) by done. split; [done|]. left.
      assert (comps (rev (c :: r)) = norm (comps path)) as Hc by by apply holds_comps.
      rewrite Hc, length_rev. split_and!; [done|done|by eapply holds_first|done|]. apply norm_no_dots.
    + exists (- ETOOSMALL), (rev rout). split; [done|]. right. split; [done|].
      apply Z.nlt_ge. intros Hl. apply Hn. split; [simpl; lia|]. left. by exists [].
Qed.

(** ["/a/./b/../c"] *)
Definition path_ex : list Z := [47; 97; 47; 46; 47; 98; 47; 46; 46; 47; 99].

Lemma vfs_canonicalize_correct_witness :
  exists out, vfs_canonicalize path_ex 1024 = Some (0, out) /\ out = [47; 97; 47; 99] /\
    comps out = norm (comps path_ex).
Proof.
  destruct (vfs_canonicalize_correct path_ex 1024) as (ret & out & E & [(-> & _ & _ & Hc & _)|(_ & Hl)]);
    [done|lia| |exfalso; simpl in Hl; lia].
  exists out. split; [exact E|]. split; [|exact Hc]. vm_compute in E. congruence.
Defined.

(** ** Last component *)

Lemma split_slash_app cur a b :
  split_slash cur (a ++ SLASH :: b) = split_slash cur a ++ comps b.
Proof.
  revert cur. induction a as [|x a IH]; intros cur; simpl; [done|].
  destruct (is_slash x); [|apply IH]. by rewrite IH, app_assoc.
Qed.

Lemma comps_app a b : comps (a ++ SLASH :: b) = comps a ++ comps b.
Proof. apply split_slash_app. Qed.

Lemma comps_trailing a k : comps (a ++ replicate k SLASH) = comps a.
Proof.
  revert a. induction k as [|k IH]; intros a; simpl; [by rewrite app_nil_r|].
  rewrite (comps_app a). change (comps (replicate k SLASH)) with (comps ([] ++ replicate k SLASH)).
  rewrite IH. apply app_nil_r.
Qed.

Lemma rev_slashes k : rev (replicate k SLASH) = replicate k SLASH.
Proof. induction k as [|k IH]; simpl; [done|]. rewrite IH, <- (replicate_S_end k). done. Qed.

(** An absolute path with a component, read from its end. *)
Lemma path_tail path :
  head path = Some SLASH -> comps path <> [] ->
  exists u b k, path = rev u ++ SLASH :: rev b ++ replicate k SLASH /\
    drop_while is_slash (rev path) = b ++ SLASH :: u /\ noslash b /\ b <> [].
Proof.
  intros Hh Hne. destruct path as [|x path']; [done|]. injection Hh as ->.
  set (path := SLASH :: path') in *.
  destruct (drop_while_slash (rev path)) as [k Hk].
  destruct (drop_while is_slash (rev path)) as [|c r] eqn:Er.
  { exfalso. apply Hne. rewrite <- (rev_involutive path), Hk, app_nil_r, rev_slashes.
    change (replicate k SLASH) with ([] ++ replicate k SLASH). apply comps_trailing. }
  pose proof (drop_while_head _ _ _ _ Er) as Hc.
  pose proof (take_drop_while (fun c => negb (is_slash c)) (c :: r)) as Htd.
  assert (comp_of (c :: r) <> []) as Hcne by (simpl; by rewrite Hc).
  pose proof (comp_of_noslash (c :: r)) as Hns.
  apply (f_equal (@rev Z)) in Hk. rewrite rev_involutive, rev_app_distr, rev_slashes in Hk.
  destruct (after_comp_shape (c :: r)) as [Hup|[u Hup]].
  { exfalso. rewrite Hup, app_nil_r in Htd. rewrite <- Htd in Hk.
    destruct (rev_nonempty _ Hcne) as (y & q & Ey & Hy). rewrite Ey in Hk.
    injection Hk as <- _. by specialize (Hy Hns). }
  rewrite Hup in Htd. exists u, (comp_of (c :: r)), k. split_and!; [|done..].
  rewrite Hk, <- Htd at 1. rewrite rev_app_distr. simpl. by rewrite <- !app_assoc.
Qed.

(** The last component of an absolute path: unless the path is all slashes,
    [vfs_basename] returns its last component and [vfs_dirname] an absolute
    path to the components before it. *)
Theorem vfs_dirname_basename_split path dirlen baselen :
  head path = Some SLASH -> comps path <> [] ->
  Z.of_nat (length path) < dirlen -> Z.of_nat (length path) < baselen ->
  exists d b, vfs_dirname path dirlen = (0, d) /\ vfs_basename path baselen = (0, b) /\
    comps path = comps d ++ [b] /\ head d = Some SLASH.
Proof.
  intros Hh Hne Hd Hb. destruct (path_tail path Hh Hne) as (u & b & k & Hp & Hr & Hns & Hbne).
  assert (comps path = comps (rev u) ++ [rev b]) as Hcomps.
  { rewrite Hp, comps_app. f_equal. rewrite comps_trailing.
    apply comps_single; [by apply noslash_rev|].
    intros E. apply Hbne. by rewrite <- (rev_involutive b), E. }
  assert (length path = length u + 1 + length b + k)%nat as Hlen.
  { rewrite Hp, length_app. simpl. rewrite length_app, !length_rev, length_replicate. lia. }
  assert (0 < length b)%nat as Hlb by (destruct b; [done|simpl; lia]).
  unfold vfs_dirname, vfs_basename. rewrite Hr.
  rewrite (proj2 (Z.eqb_neq dirlen 0)), (proj2 (Z.eqb_neq baselen 0)), (proj2 (Z.ltb_ge dirlen 2)) by lia.
  rewrite after_comp_app, comp_of_app by eauto.
  rewrite length_rev, (proj2 (Z.leb_gt baselen _)) by lia.
  rewrite (proj2 (Z.eqb_neq (Z.of_nat (length (SLASH :: u))) 0)) by (simpl; lia).
  destruct b as [|y b]; [done|]. cbn [app].
  destruct (decide (u = [])) as [->|Hu].
  - exists [SLASH], (rev (y :: b)). rewrite Hcomps. split_and!; auto.
    destruct path as [|z path]; [done|]. injection Hh as ->. done.
  - rewrite (proj2 (Z.eqb_neq (Z.of_nat (length (SLASH :: u))) 1)) by (destruct u; simpl; [done|lia]).
    cbn [andb]. rewrite (proj2 (Z.leb_gt dirlen _)) by (simpl; lia).
    exists (rev u), (rev (y :: b)).
    assert (take (Z.to_nat (Z.of_nat (length (SLASH :: u)) - 1)) path = rev u) as ->.
    { rewrite Hp. replace (Z.to_nat _) with (length (rev u)) by (rewrite length_rev; simpl; lia).
      apply take_app_length. }
    split_and!; auto. rewrite Hp in Hh. destruct (rev u) as [|z q] eqn:Ey; [|done].
    exfalso. apply Hu. by rewrite <- (rev_involutive u), Ey.
Qed.

Lemma vfs_dirname_basename_split_witness :
  exists d b, vfs_dirname path_ex 1024 = (0, d) /\ vfs_basename path_ex 1024 = (0, b) /\
    b = [99] /\ comps path_ex = comps d ++ [b].
Proof.
  destruct (vfs_dirname_basename_split path_ex 1024 1024) as (d & b & Ed & Eb & Hc & _);
    [reflexivity|done|simpl; lia|simpl; lia|].
  exists d, b. split; [exact Ed|]. split; [exact Eb|]. split; [|exact Hc].
  vm_compute in Eb. congruence.
Defined.

(** ** Mounts *)

(** [mnt] is the best choice among the slots [ms]. *)
Definition best_mnt (ms : list (bool * list Z)) (abs : list Z) (mnt : option nat) : Prop :=
  match mnt with
  | Some i =>
      exists mp, ms !! i = Some (true, mp) /\ mnt_matches abs mp = true /\
        forall j mp', ms !! j = Some (true, mp') -> mnt_matches abs mp' = true ->
          (length mp' <= length mp)%nat
  | None => forall j mp', ms !! j = Some (true, mp') -> mnt_matches abs mp' = false
  end.

Definition mnt_len (ms : list (bool * list Z)) (mnt : option nat) : Z :=
  match mnt with
  | Some i => match ms !! i with Some (_, mp) => Z.of_nat (length mp) | None => 0 end
  | None => 0
  end.

(** The next slot is not a better choice. *)
Lemma best_mnt_skip ms abs mnt inuse mp :
  best_mnt ms abs mnt ->
  inuse = false \/ Z.of_nat (length mp) < mnt_len ms mnt \/ mnt_matches abs mp = false ->
  best_mnt (ms ++ [(inuse, mp)]) abs mnt /\ mnt_len (ms ++ [(inuse, mp)]) mnt = mnt_len ms mnt.
Proof.
  intros Hb Hskip. destruct mnt as [i|]; simpl in *.
  - destruct Hb as (mp0 & Hi & Hm & Hmax). rewrite Hi in Hskip.
    pose proof (lookup_lt_Some _ _ _ Hi). rewrite lookup_app_l by done. split; [|done].
    exists mp0. split_and!; auto. intros j mp' Hj Hm'.
    apply lookup_app_Some in Hj as [Hj|[_ Hj]]; [by eapply Hmax|].
    apply list_lookup_singleton_Some in Hj as [_ [= -> ->]].
    destruct Hskip as [?|[?|?]]; [done|lia|congruence].
  - split; [|done]. intros j mp' [Hj|[_ Hj]]%lookup_app_Some; [by eapply Hb|].
    apply list_lookup_singleton_Some in Hj as [_ [= -> ->]].
    destruct Hskip as [?|[?|?]]; [done|lia|done].
Qed.

Lemma best_mnt_take ms abs mnt mp :
  best_mnt ms abs mnt -> mnt_len ms mnt <= Z.of_nat (length mp) -> mnt_matches abs mp = true ->
  best_mnt (ms ++ [(true, mp)]) abs (Some (length ms)).
Proof.
  intros Hb Hlen Hm. exists mp. rewrite list_lookup_middle by done. split_and!; auto.
  intros j mp' [Hj|[_ Hj]]%lookup_app_Some Hm'.
  - destruct mnt as [i|]; simpl in *.
    + destruct Hb as (mp0 & Hi & _ & Hmax). rewrite Hi in Hlen. specialize (Hmax _ _ Hj Hm'). lia.
    + rewrite (Hb _ _ Hj) in Hm'. done.
  - by apply list_lookup_singleton_Some in Hj as [_ [= ->]].
Qed.

Lemma getmnt_loop_best rest : forall ms abs mnt,
  best_mnt ms abs mnt ->
  best_mnt (ms ++ rest) abs (getmnt_loop (length ms) rest abs mnt (mnt_len ms mnt)).
Proof.
  induction rest as [|[inuse mp] rest IH]; intros ms abs mnt Hb; cbn [getmnt_loop].
  { by rewrite app_nil_r. }
  assert (S (length ms) = length (ms ++ [(inuse, mp)])) as Hs by (rewrite length_app; simpl; lia).
  rewrite (cons_middle (inuse, mp) ms rest), app_assoc, Hs.
  destruct (negb inuse || _ || _) eqn:E.
  - destruct (best_mnt_skip ms abs mnt inuse mp Hb) as [Hb' <-]; [|by apply IH].
    apply orb_true_iff in E as [[E|E]%orb_true_iff|E]; to_prop; auto.
  - to_prop. subst inuse.
    replace (Z.of_nat (length mp)) with (mnt_len (ms ++ [(true, mp)]) (Some (length ms)))
      by (simpl; by rewrite list_lookup_middle).
    apply IH. by eapply best_mnt_take.
Qed.

(** [vfs_getmnt] chooses the innermost mount: the mount it returns is in
    use and contains the path at a component boundary, no mount that does is
    longer, and it returns none only when no mount contains the path. *)
Theorem getmnt_longest ms abs : best_mnt ms abs (getmnt ms abs).
Proof. apply (getmnt_loop_best ms [] abs None). by intros j mp'. Qed.

End VfsPath.
