(* ===== verification/VfsOps.v ===== *)
(** The interface between the virtual file system and its file system drivers
    ([include/drivers/storage/fs/vfs.h]): inodes, the table of driver
    operations, and what the VFS relies on.

    A driver is a table of operations on a driver state [D].  Buffers passed by
    pointer are returned with the result.  [file_laws] states the promise of the
    data operations against an abstract view: each inode has a byte string. *)
From S2P Require Import Prelude.

Module VfsOps.

Definition S_IFLNK : Z := 0xA000.
Definition S_IFREG : Z := 0x8000.
Definition S_IFBLK : Z := 0x6000.
Definition S_IFDIR : Z := 0x4000.
Definition S_IFCHR : Z := 0x2000.
Definition S_TYPE (mode : Z) : Z := Z.land mode 0xF000.

Definition MAJOR (dev : Z) : Z := u32 (Z.shiftr dev 20).
Definition MINOR (dev : Z) : Z := Z.land dev (2 ^ 20 - 1).
Definition MKDEV (maj min : Z) : Z := Z.lor (u32 (Z.shiftl maj 20)) min.

Record vinode_t := mk_vinode {
  i_mode : Z;   (* u16 *)
  i_uid : Z;    (* u16 *)
  i_atime : Z;
  i_ctime : Z;
  i_mtime : Z;
  i_rdev : Z;   (* u32 *)
  i_gid : Z;    (* u16 *)
  i_lnkcnt : Z; (* u16 *)
  i_size : Z;   (* u64 *)
  i_priv : Z
}.

Definition zero_vinode : vinode_t := mk_vinode 0 0 0 0 0 0 0 0 0 0.

(** A mount as its driver sees it. *)
Record vfs_t := mk_vfs {
  v_path : list Z;
  v_root_ino : Z; (* u32 *)
  v_blkid : Z;
  v_mntno : Z;
  v_priv : Z
}.

Record vfsops_t (D : Type) := mk_ops {
  op_umount : vfs_t -> M D Z;
  op_lookup : vfs_t -> Z -> list Z -> M D Z;
  (* directory, position, size of the name buffer: result, position, name and inode *)
  op_readdir : vfs_t -> Z -> Z -> Z -> M D (Z * Z * option (list Z * vinode_t));
  op_symlink : vfs_t -> Z -> Z -> Z -> list Z -> M D Z;
  op_mknod : vfs_t -> Z -> Z -> Z -> Z -> M D Z;
  op_mkino : vfs_t -> Z -> Z -> Z -> M D Z;
  op_rmino : vfs_t -> Z -> M D Z;
  op_getino : vfs_t -> Z -> M D (Z * option vinode_t);
  op_setino : vfs_t -> Z -> vinode_t -> M D Z;
  op_mklink : vfs_t -> Z -> Z -> Z -> list Z -> M D Z;
  op_rmlink : vfs_t -> Z -> list Z -> M D Z;
  op_trunc : vfs_t -> Z -> M D Z;
  (* inode, buffer, buffer length: result and buffer *)
  op_readsym : vfs_t -> Z -> list Z -> Z -> M D (Z * list Z);
  op_read : vfs_t -> Z -> Z -> Z -> M D (Z * list Z);
  op_write : vfs_t -> Z -> Z -> list Z -> M D Z
}.
Arguments mk_ops {D}.
Arguments op_umount {D}.
Arguments op_lookup {D}.
Arguments op_readdir {D}.
Arguments op_symlink {D}.
Arguments op_mknod {D}.
Arguments op_mkino {D}.
Arguments op_rmino {D}.
Arguments op_getino {D}.
Arguments op_setino {D}.
Arguments op_mklink {D}.
Arguments op_rmlink {D}.
Arguments op_trunc {D}.
Arguments op_readsym {D}.
Arguments op_read {D}.
Arguments op_write {D}.

(** ** The promise of the data operations *)

(** [holds d ino c]: file [ino] has the bytes [c]; [room d ino e]: it can be
    written up to position [e]; [may_fail]: such a write can still fail.  Writing within or at the end of a file either
    fails and leaves every file alone or stores the whole buffer; reading returns
    the bytes that are there. *)
Class file_laws {D : Type} (ops : vfsops_t D) (v : vfs_t) := {
  holds : D -> Z -> list Z -> Prop;
  room : D -> Z -> Z -> Prop;
  may_fail : Prop;
  fs_ok : D -> Prop;
  law_write : forall d ino c off buf,
    fs_ok d -> holds d ino c -> (off <= length c)%nat ->
    Z.of_nat (off + length buf) < 2 ^ 62 -> room d ino (Z.of_nat (off + length buf)) ->
    exists d' r, op_write ops v ino (Z.of_nat off) buf d = Done d' r /\ fs_ok d' /\
      ((r < 0 /\ may_fail /\ forall i ci, holds d i ci -> holds d' i ci) \/
       (r = Z.of_nat (length buf) /\ holds d' ino (splice c buf off) /\
        forall i ci, i <> ino -> holds d i ci -> holds d' i ci));
  law_read : forall d ino c off nb,
    fs_ok d -> holds d ino c -> (off <= length c)%nat -> (nb < 2 ^ 62)%Z -> 0 <= nb ->
    exists b, op_read ops v ino (Z.of_nat off) nb d = Done d (Z.of_nat (length b), b) /\
      b = take (Z.to_nat nb) (drop off c);
  law_getino : forall d ino c,
    fs_ok d -> holds d ino c ->
    exists n, op_getino ops v ino d = Done d (0, Some n) /\ i_size n = Z.of_nat (length c)
}.

End VfsOps.
