(* ===== verification/Fd.v ===== *)
(** File descriptors of a process ([src/drivers/storage/fd/fd.c]: [getnewfd], [getfd],
    [closefd]) and the records they hold ([include/core/fd.h]).

    Model: the table is the array [fds] (absent when NULL) and the counter
    [nfds]; the outcome of each allocation is an argument: failure, or the
    content of the new memory.  [None] is an access outside the array. *)
From S2P Require Import Prelude VfsOps.

Module Fd.
Import VfsOps.

(** An open file or directory.  [f_mnt] is the mount as a pointer into the
    mount array: the array's generation and the index. *)
Record file := mk_file {
  f_mnt : Z * nat;
  f_inod : vinode_t;
  f_ino : Z;     (* u64 *)
  f_pos : Z;     (* u64 *)
  f_mnt_pos : Z; (* u64 *)
  f_path : list Z
}.

Inductive fddata :=
| FDTYPE_FILE (f : file)
| FDTYPE_DIR (f : file)
| FDTYPE_SOCK (sock : Z)
| FDTYPE_FB (fb : Z)
| FDTYPE_FBW (fb : Z)
| FDTYPE_IO (io_in io_out : bool) (io : Z)
| FDTYPE_DEV (mode rdev : Z)
| FDTYPE_OTHER (type : Z).

Record fdinfo := mk_fd { fd : Z; inuse : bool; data : fddata }.

Record fdtab := mk_fdtab { fds : option (list fdinfo); nfds : Z }.

Definition zero_fd : fdinfo := mk_fd 0 false (FDTYPE_OTHER 0).

(** The content of a fresh array of [n] entries. *)
Definition fresh (n : nat) (g : list fdinfo) : list fdinfo := take n (g ++ replicate n zero_fd).

(** First entry not in use among the first [n]. *)
Fixpoint find_free (n : nat) (i : nat) (l : list fdinfo) : option (option nat) :=
  match n with
  | O => Some None
  | S n' =>
      e ← l !! i;
      if negb (inuse e) then Some (Some i) else find_free n' (S i) l
  end.

Definition place (l : list fdinfo) (i : nat) (info : fdinfo) : option (list fdinfo) :=
  aset l (Z.of_nat i) (mk_fd (Z.of_nat i) true (data info)).

(** [a1]: outcome of the first [malloc], consulted when the table is NULL;
    [a2]: outcome of the [realloc]. *)
Definition getnewfd (t : fdtab) (info : fdinfo) (a1 a2 : option (list fdinfo))
  : option (fdtab * option nat) :=
  let n := Z.to_nat (nfds t) in
  let alloced :=
    match fds t with
    | Some l => Some (l, nfds t)
    | None => match a1 with None => None | Some g => Some (fresh 10 g, nfds t + 10) end
    end in
  match alloced with
  | None => Some (t, None)
  | Some (l, nf) =>
      r ← find_free n 0 l;
      match r with
      | Some i => l' ← place l i info; Some (mk_fdtab (Some l') nf, Some i)
      | None =>
          match a2 with
          | None => Some (mk_fdtab (Some l) nf, None)
          | Some g =>
              let l1 := take (n + 10) l ++ fresh (n + 10 - length l) g in
              l' ← place l1 n info;
              Some (mk_fdtab (Some l') (nf + 10), Some n)
          end
      end
  end.

(** [-EBADF] or the entry. *)
Definition getfd (t : fdtab) (d : Z) : option (Z + fdinfo) :=
  if s32 (nfds t) <=? d then Some (inl (- EBADF))
  else if d <? 0 then Some (inl (- EBADF))
  else
    l ← fds t;
    e ← aget l d;
    if negb (inuse e) then Some (inl (- EBADF)) else Some (inr e).

Definition closefd (t : fdtab) (d : Z) : option (fdtab * Z) :=
  if s32 (nfds t) <=? d then Some (t, - EBADF)
  else if d <? 0 then Some (t, - EBADF)
  else
    l ← fds t;
    e ← aget l d;
    l' ← aset l d (mk_fd (fd e) false (data e));
    Some (mk_fdtab (Some l') (nfds t), 0).

(** Store through the pointer [getfd] returned. *)
Definition setfd (t : fdtab) (d : Z) (e : fdinfo) : option fdtab :=
  l ← fds t;
  l' ← aset l d e;
  Some (mk_fdtab (Some l') (nfds t)).

(** ** Invariant: the array has [nfds] entries *)

Definition tab_ok (t : fdtab) : Prop :=
  0 <= nfds t < 2 ^ 31 /\
  match fds t with Some l => Z.of_nat (length l) = nfds t | None => False end.

Lemma find_free_spec n i l :
  (i + n <= length l)%nat ->
  exists r, find_free n i l = Some r /\
    match r with
    | Some k => (i <= k < i + n)%nat /\ (exists e, l !! k = Some e /\ inuse e = false) /\
        forall j e, (i <= j < k)%nat -> l !! j = Some e -> inuse e = true
    | None => forall j e, (i <= j < i + n)%nat -> l !! j = Some e -> inuse e = true
    end.
Proof.
  revert i. induction n as [|n IH]; intros i Hi.
  { exists None. split; [done|]. intros. lia. }
  destruct (lookup_lt_is_Some_2 l i ltac:(lia)) as [e He]. simpl. rewrite He. simpl.
  destruct (inuse e) eqn:Eu; simpl.
  - destruct (IH (S i) ltac:(lia)) as (r & -> & Hr). exists r. split; [done|].
    assert (forall j e', j = i -> l !! j = Some e' -> inuse e' = true) as H0 by (intros; congruence).
    destruct r as [k|].
    + destruct Hr as (? & ? & Hall). split_and!; [lia..|done|].
      intros j e' Hj He'. destruct (decide (j = i)); [by eapply H0|]. eapply Hall; eauto. lia.
    + intros j e' Hj He'. destruct (decide (j = i)); [by eapply H0|]. eapply Hr; eauto. lia.
  - exists (Some i). split; [done|]. split_and!; [lia..|eauto|]. intros. lia.
Qed.

Lemma fds_fresh_length n g : length (fresh n g) = n.
Proof. unfold fresh. rewrite length_take, length_app, length_replicate. lia. Qed.

(** [getfd] on a table that satisfies the invariant. *)
Lemma getfd_ok t d :
  tab_ok t ->
  getfd t d =
  match fds t with
  | Some l => match aget l d with
              | Some e => Some (if inuse e then inr e else inl (- EBADF))
              | None => Some (inl (- EBADF))
              end
  | None => None
  end.
Proof.
  intros [Hn Hl]. unfold getfd. destruct (fds t) as [l|]; [|done]. rewrite s32_small by done.
  destruct (Z.leb_spec (nfds t) d).
  { rewrite aget_oob by lia. done. }
  destruct (Z.ltb_spec d 0).
  { rewrite aget_oob by lia. done. }
  simpl. destruct (aget_is_Some l d ltac:(lia)) as [e ->]. simpl. by destruct (inuse e).
Qed.

Lemma place_ok l i info :
  (i < length l)%nat ->
  exists l', place l i info = Some l' /\ length l' = length l /\
    aget l' (Z.of_nat i) = Some (mk_fd (Z.of_nat i) true (data info)) /\
    forall d, d <> Z.of_nat i -> aget l' d = aget l d.
Proof.
  intros Hi. unfold place. rewrite aset_in by lia. eexists. split; [done|].
  rewrite length_insert. split; [done|]. split.
  - rewrite aget_insert, decide_True by lia. done.
  - intros d Hd. rewrite aget_insert, decide_False by lia. done.
Qed.

(** A new descriptor is the lowest one not in use.  On a table with [nfds]
    entries, [getnewfd] returns, fails only when every entry is in use and the
    table cannot grow, and otherwise yields the first unused descriptor: it is
    open afterwards with the given data, every lower one was open, and no other
    descriptor of the table changes. *)
Theorem getnewfd_lowest t info a1 a2 :
  tab_ok t -> nfds t + 10 < 2 ^ 31 ->
  exists t' r, getnewfd t info a1 a2 = Some (t', r) /\
    match r with
    | Some i =>
        tab_ok t' /\ getfd t' (Z.of_nat i) = Some (inr (mk_fd (Z.of_nat i) true (data info))) /\
        getfd t (Z.of_nat i) = Some (inl (- EBADF)) /\
        (forall d, 0 <= d < Z.of_nat i -> exists e, getfd t d = Some (inr e)) /\
        (forall d, 0 <= d < nfds t -> d <> Z.of_nat i -> getfd t' d = getfd t d)
    | None => t' = t /\ a2 = None /\ forall d, 0 <= d < nfds t -> exists e, getfd t d = Some (inr e)
    end.
Proof.
  intros Ht Hmax. pose proof Ht as [Hn Hl]. unfold getnewfd.
  destruct (fds t) as [l|] eqn:El; [|done].
  destruct (find_free_spec (Z.to_nat (nfds t)) 0 l ltac:(lia)) as (r & -> & Hr). cbn [mbind option_bind].
  assert (forall d e, aget l d = Some e -> inuse e = true -> getfd t d = Some (inr e)) as Hopen.
  { intros d e Hd He. rewrite getfd_ok, El, Hd, He by done. done. }
  assert (forall k : nat, (forall j e, (0 <= j < k)%nat -> l !! j = Some e -> inuse e = true) ->
            forall d, 0 <= d < Z.of_nat k -> d < nfds t -> exists e, getfd t d = Some (inr e)) as Hbelow.
  { intros k Hk d Hd Hdn. destruct (aget_is_Some l d ltac:(lia)) as [e He]. exists e.
    apply (Hopen _ _ He). apply aget_Some in He as [_ He]. eapply Hk; [|exact He]. lia. }
  destruct r as [i|].
  - destruct Hr as (Hi & (e & He & Hfree) & Hmin).
    destruct (place_ok l i info ltac:(lia)) as (l' & -> & Hlen & Hnew & Hoth). cbn [mbind option_bind].
    assert (tab_ok (mk_fdtab (Some l') (nfds t))) as Ht' by (split; simpl; lia).
    exists (mk_fdtab (Some l') (nfds t)), (Some i). split; [done|]. split_and!; auto.
    + rewrite getfd_ok by done. cbn [fds]. by rewrite Hnew.
    + rewrite getfd_ok, El by done. assert (aget l (Z.of_nat i) = Some e) as ->; [|by rewrite Hfree].
      apply aget_Some. split; [lia|]. by rewrite Nat2Z.id.
    + intros d Hd. apply (Hbelow i); [done|lia|lia].
    + intros d Hd Hne. rewrite !getfd_ok, El by done. cbn [fds]. by rewrite Hoth.
  - destruct a2 as [g|].
    2: { exists t, None. split; [by destruct t; simpl in *; subst|]. split_and!; auto.
         intros d Hd. apply (Hbelow (Z.to_nat (nfds t))); [done|lia|lia]. }
    rewrite take_ge by lia.
    set (l1 := l ++ fresh (Z.to_nat (nfds t) + 10 - length l) g).
    assert (length l1 = (length l + 10)%nat) as Hl1.
    { unfold l1. rewrite length_app, fds_fresh_length. lia. }
    destruct (place_ok l1 (Z.to_nat (nfds t)) info ltac:(lia)) as (l' & -> & Hlen & Hnew & Hoth).
    cbn [mbind option_bind]. rewrite Z2Nat.id in * by lia.
    assert (tab_ok (mk_fdtab (Some l') (nfds t + 10))) as Ht' by (split; simpl; lia).
    eexists _, (Some _). split; [done|]. rewrite Z2Nat.id by lia. split_and!; auto.
    + rewrite getfd_ok by done. cbn [fds]. by rewrite Hnew.
    + rewrite getfd_ok, El by done. by rewrite aget_oob by lia.
    + intros d Hd. apply (Hbelow (Z.to_nat (nfds t))); [done|lia|lia].
    + intros d Hd Hne. rewrite !getfd_ok, El by done. cbn [fds]. rewrite Hoth by done.
      unfold l1. unfold aget. destruct (Z.leb_spec 0 d); [|done]. by rewrite lookup_app_l by lia.
Qed.

(** A table of two entries, the first in use. *)
Definition tab2 : fdtab := mk_fdtab (Some [mk_fd 0 true (FDTYPE_SOCK 3); zero_fd]) 2.

Lemma getnewfd_lowest_witness :
  tab_ok tab2 /\ exists t', getnewfd tab2 (mk_fd 0 false (FDTYPE_DEV 1 2)) None None = Some (t', Some 1%nat) /\
    getfd t' 1 = Some (inr (mk_fd 1 true (FDTYPE_DEV 1 2))).
Proof.
  assert (tab_ok tab2) as H by (split; simpl; lia). split; [exact H|].
  destruct (getnewfd_lowest tab2 (mk_fd 0 false (FDTYPE_DEV 1 2)) None None H ltac:(simpl; lia))
    as (t' & r & E & Hr). vm_compute in E. injection E as <- <-.
  eexists. split; [reflexivity|]. destruct Hr as (_ & Hr & _). exact Hr.
Defined.

(** A first descriptor on a NULL table miscounts: the array is allocated for
    ten entries and [nfds] is raised twice, so descriptors 10 to 19 pass the
    bounds check of [getfd] and reach outside the array. *)
Theorem getnewfd_null_overcounts info g1 g2 :
  exists l, getnewfd (mk_fdtab None 0) info (Some g1) (Some g2) = Some (mk_fdtab (Some l) 20, Some 0%nat) /\
    length l = 10%nat /\ forall d, 10 <= d < 20 -> getfd (mk_fdtab (Some l) 20) d = None.
Proof.
  unfold getnewfd. cbn [fds nfds]. change (Z.to_nat 0) with 0%nat. cbn [find_free mbind option_bind].
  pose proof (fds_fresh_length 10 g1) as Hf.
  rewrite take_ge by lia. replace (0 + 10 - length (fresh 10 g1))%nat with 0%nat by lia.
  destruct (place_ok (fresh 10 g1 ++ fresh 0 g2) 0 info) as (l & -> & Hlen & _);
    [rewrite length_app, !fds_fresh_length; lia|].
  rewrite length_app, !fds_fresh_length in Hlen.
  exists l. split; [done|]. split; [done|]. intros d Hd. unfold getfd. cbn [fds nfds].
  change (s32 20) with 20. rewrite (proj2 (Z.leb_gt 20 d)), (proj2 (Z.ltb_ge d 0)) by lia.
  cbn [mbind option_bind]. by rewrite aget_oob by lia.
Qed.

End Fd.
