(* ===== verification/Udevr.v ===== *)
(** The registry of character devices ([src/kern/udevr.c]): drivers by their major
    number, and the dispatch of reads and writes to them.

    Model: the table as the bytes in memory, 56 for each entry, because growing it
    clears bytes and not entries; function pointers are numbers, which [call] turns
    into what the driver does. *)
From S2P Require Import Prelude VfsOps Fd.

Module Udevr.
Import VfsOps Fd.

Definition UDEV_RD : Z := 1.
Definition UDEV_WR : Z := 2.
Definition ESZ : nat := 56.

Record udevr_t := mk_udevr {
  udevr : option (list Z);            (* the table, absent when NULL *)
  udevrav : Z;
  udevr_devfs : bool;
  fresh : list (option (list Z))      (* what the allocations to come give: memory as it is found *)
}.

Definition alloc : M udevr_t (option (list Z)) := fun s =>
  match fresh s with
  | [] => Done s None
  | m :: r => Done (mk_udevr (udevr s) (udevrav s) (udevr_devfs s) r) m
  end.

(** ** Entries *)

Definition field (n off : nat) (t : list Z) (i : nat) : Z := of_le (take n (drop (i * ESZ + off) t)).
Definition e_used (t : list Z) (i : nat) : bool := negb (field 1 0 t i =? 0).
Definition e_id := field 2 34.
Definition e_flags := field 2 36.
Definition e_read := field 8 40.
Definition e_write := field 8 48.

(** The bytes [b] stored at [off]; outside of the memory of the table the code
    overwrites the heap. *)
Definition put_bytes (off : nat) (b t : list Z) : option (list Z) :=
  if (off + length b <=? length t)%nat then Some (splice t b off) else None.

(** The fields in the order of the assignments, the name last and unbounded. *)
Definition fill (i : nat) (id : Z) (name : list Z) (flags rd wr : Z) (t : list Z) : option (list Z) :=
  t ← put_bytes (i * ESZ) [1] t;
  t ← put_bytes (i * ESZ + 34) (le 2 id) t;
  t ← put_bytes (i * ESZ + 36) (le 2 flags) t;
  t ← put_bytes (i * ESZ + 40) (le 8 rd) t;
  t ← put_bytes (i * ESZ + 48) (le 8 wr) t;
  put_bytes (i * ESZ + 1) (name ++ [0]) t.

(** The first of the entries [i ..] with a property. *)
Fixpoint first_entry (n i : nat) (p : nat -> bool) : option nat :=
  match n with O => None | S n' => if p i then Some i else first_entry n' (S i) p end.

(** [mount]: whether a ramfs could be mounted on "/dev". *)
Definition udevr_init (mount : bool) : M udevr_t Z :=
  m ← alloc;
  _ ← modify (fun s => mk_udevr m (udevrav s) (udevr_devfs s) (fresh s));
  match m with
  | None => mret (- ENOMEM)
  | Some _ => _ ← modify (fun s => mk_udevr (Some (replicate (128 * ESZ) 0)) 128 mount (fresh s)); mret 0
  end.

Definition udevr_register (id : Z) (name : list Z) (flags rd wr : Z) : M udevr_t Z :=
  s ← get;
  match udevr s with
  | None => mret (- ENOEXIST)
  | Some t =>
      match first_entry (Z.to_nat (udevrav s)) 0 (fun i => negb (e_used t i)) with
      | Some i =>
          t' ← deref (fill i id name flags rd wr t);
          _ ← modify (fun s => mk_udevr (Some t') (udevrav s) (udevr_devfs s) (fresh s)); mret 0
      | None =>
          let osz := udevrav s in
          m ← alloc;
          match m with
          | None => mret (- ENOMEM)
          | Some mem =>
              (* realloc keeps the old bytes; what is behind them is as it was found *)
              let n := splice mem t 0 in
              n ← deref (put_bytes (Z.to_nat osz) (replicate (16 * ESZ) 0) n);
              n ← deref (fill (Z.to_nat osz) id name flags rd wr n);
              _ ← modify (fun s => mk_udevr (Some n) (udevrav s + 16) (udevr_devfs s) (fresh s)); mret 0
          end
      end
  end.

(** The entry of a driver. *)
Definition find_driver (s : udevr_t) (id : Z) : option nat :=
  t ← udevr s; first_entry (Z.to_nat (udevrav s)) 0 (fun i => e_used t i && (e_id t i =? id)).

(** The zero-terminated name of an entry. *)
Fixpoint before_zero (l : list Z) : list Z := match l with [] => [] | c :: r => if c =? 0 then [] else c :: before_zero r end.
Definition e_name (t : list Z) (i : nat) : list Z := before_zero (drop (i * ESZ + 1) t).

(** The node that is made; [mknod] returns a status, [decimal] prints a number. *)
Definition udevr_regdev (mknod : list Z -> Z -> Z -> M udevr_t Z) (decimal : Z -> list Z) (drv id : Z) : M udevr_t Z :=
  s ← get;
  match udevr s with
  | None => mret (- ENOEXIST)
  | Some t =>
      if udevr_devfs s then
        match find_driver s drv with
        | None => mret (- ENOEXIST)
        | Some i =>
            let path := take 1023 ([47; 100; 101; 118; 47] ++ e_name t i ++ decimal id) in
            ret ← mknod path (Z.lor (Z.shiftl drv 20) id) 420;
            mret (if ret <? 0 then ret else 0)
        end
      else mret 0
  end.

Definition MAJOR (dev : Z) : Z := u32 (Z.shiftr dev 20).
Definition MINOR (dev : Z) : Z := u32 (Z.land dev (2 ^ 20 - 1)).

(** The calls on a descriptor [t]: [call] runs the function behind a pointer with the
    minor number and the size. *)
Section transfers.
Context {A : Type} (call : Z -> Z -> Z -> M udevr_t (Z * A)) (none : A).

Definition transfer (bit : Z) (fn : list Z -> nat -> Z) (t : fdtab) (fd sz : Z) : M udevr_t (Z * A) :=
  s ← get;
  match udevr s with
  | None => mret (- ENOEXIST, none)
  | Some tab =>
      r ← deref (getfd t fd);
      match r with
      | inl e => mret (e, none)
      | inr info =>
          match data info with
          | FDTYPE_DEV _ rdev =>
              match find_driver s (MAJOR rdev) with
              | None => mret (- ENOEXIST, none)
              | Some i => if negb (Z.land (e_flags tab i) bit =? 0) then call (fn tab i) (u16 (MINOR rdev)) sz else mret (- EACCESS, none)
              end
          | _ => mret (- EINVAL, none)
          end
      end
  end.

Definition udevr_read : fdtab -> Z -> Z -> M udevr_t (Z * A) := transfer UDEV_RD e_read.
Definition udevr_write : fdtab -> Z -> Z -> M udevr_t (Z * A) := transfer UDEV_WR e_write.
End transfers.

(** ** Registered drivers are found *)

Lemma first_entry_spec p n : forall i,
  match first_entry n i p with
  | Some k => (i <= k < i + n)%nat /\ p k = true /\ forall j, (i <= j < k)%nat -> p j = false
  | None => forall j, (i <= j < i + n)%nat -> p j = false
  end.
Proof.
  induction n as [|n IH]; intros i; cbn [first_entry]; [lia|]. destruct (p i) eqn:Ep; [split_and!; [lia|lia|done|]; lia|].
  specialize (IH (S i)). destruct (first_entry n (S i) p) as [k|].
  - destruct IH as (? & ? & Hb). split_and!; [lia|lia|done|]. intros j Hj. destruct (decide (j = i)) as [->|]; [done|]. apply Hb. lia.
  - intros j Hj. destruct (decide (j = i)) as [->|]; [done|]. apply IH. lia.
Qed.

(** A store seen through a field of an entry. *)
Lemma put_bytes_ok off b t : (off + length b <= length t)%nat -> put_bytes off b t = Some (splice t b off).
Proof. intros H. unfold put_bytes. by rewrite (proj2 (Nat.leb_le _ _) H). Qed.

Lemma field_same n o b k t : (k <= length t)%nat -> length b = n -> forall i, (i * ESZ + o)%nat = k -> field n o (splice t b k) i = of_le b.
Proof. intros Hk Hb i <-. unfold field. subst n. by rewrite take_drop_splice. Qed.

Lemma field_other n o b k t i : (k <= length t)%nat -> (i * ESZ + o + n <= k \/ k + length b <= i * ESZ + o)%nat -> field n o (splice t b k) i = field n o t i.
Proof. intros Hk [Hs|Hs]; unfold field; [by rewrite splice_before|by rewrite splice_after]. Qed.

(** The store that made [t] is elsewhere. *)
Ltac elsewhere t := unfold t; rewrite field_other by (unfold ESZ; rewrite ?length_le; cbn [length]; lia).

(** What [fill] leaves in the table, for a name that fits. *)
Lemma entry_filled i id name flags rd wr t : (S i * ESZ <= length t)%nat -> (length name < 32)%nat -> fits 2 id -> fits 2 flags -> fits 8 rd -> fits 8 wr ->
  exists t', fill i id name flags rd wr t = Some t' /\ length t' = length t /\
    e_used t' i = true /\ e_id t' i = id /\ e_flags t' i = flags /\ e_read t' i = rd /\ e_write t' i = wr /\
    forall j n o, (o + n <= ESZ)%nat -> j <> i -> field n o t' j = field n o t j.
Proof.
  intros Hi Hn Fi Ff Fr Fw. unfold fill, ESZ in *. remember (i * 56)%nat as b eqn:Hb.
  set (t1 := splice t [1] b). assert (length t1 = length t) as L1 by (unfold t1; rewrite length_splice; cbn; lia). rewrite put_bytes_ok by (cbn; lia). cbn [mbind option_bind]. fold t1.
  set (t2 := splice t1 (le 2 id) (b + 34)). assert (length t2 = length t) as L2 by (unfold t2; rewrite length_splice, length_le; lia). rewrite put_bytes_ok by (rewrite length_le; lia). cbn [mbind option_bind]. fold t2.
  set (t3 := splice t2 (le 2 flags) (b + 36)). assert (length t3 = length t) as L3 by (unfold t3; rewrite length_splice, length_le; lia). rewrite put_bytes_ok by (rewrite length_le; lia). cbn [mbind option_bind]. fold t3.
  set (t4 := splice t3 (le 8 rd) (b + 40)). assert (length t4 = length t) as L4 by (unfold t4; rewrite length_splice, length_le; lia). rewrite put_bytes_ok by (rewrite length_le; lia). cbn [mbind option_bind]. fold t4.
  set (t5 := splice t4 (le 8 wr) (b + 48)). assert (length t5 = length t) as L5 by (unfold t5; rewrite length_splice, length_le; lia). rewrite put_bytes_ok by (rewrite length_le; lia). cbn [mbind option_bind]. fold t5.
  set (t6 := splice t5 (name ++ [0]) (b + 1)). assert (length (name ++ [0%Z]) <= 32)%nat as Ln by (rewrite length_app; cbn; lia).
  assert (length t6 = length t) as L6 by (unfold t6; rewrite length_splice; lia). rewrite put_bytes_ok by lia. fold t6. exists t6. split; [done|]. split; [done|].
  assert (forall n o, (o + n <= 1 \/ 33 < o + 1)%nat -> field n o t6 i = field n o t5 i) as H6 by (intros n o Ho; apply field_other; unfold ESZ; lia).
  split_and!.
  - unfold e_used. rewrite H6 by lia. elsewhere t5. elsewhere t4. elsewhere t3. elsewhere t2. unfold t1. rewrite (field_same 1 0) by (done || unfold ESZ; lia). done.
  - unfold e_id. rewrite H6 by lia. elsewhere t5. elsewhere t4. elsewhere t3. unfold t2. rewrite (field_same 2 34) by (rewrite ?length_le; done || unfold ESZ; lia). by apply of_le_le.
  - unfold e_flags. rewrite H6 by lia. elsewhere t5. elsewhere t4. unfold t3. rewrite (field_same 2 36) by (rewrite ?length_le; done || unfold ESZ; lia). by apply of_le_le.
  - unfold e_read. rewrite H6 by lia. elsewhere t5. unfold t4. rewrite (field_same 8 40) by (rewrite ?length_le; done || unfold ESZ; lia). by apply of_le_le.
  - unfold e_write. rewrite H6 by lia. unfold t5. rewrite (field_same 8 48) by (rewrite ?length_le; done || unfold ESZ; lia). by apply of_le_le.
  - intros j n o Ho Hj. assert (j * 56 + 56 <= b \/ b + 56 <= j * 56)%nat as Hd by lia.
    elsewhere t6. elsewhere t5. elsewhere t4. elsewhere t3. elsewhere t2. elsewhere t1. done.
Qed.

(** The entry found first is the one after a change elsewhere. *)
Lemma first_entry_is p n i k : (i <= k < i + n)%nat -> p k = true -> (forall j, (i <= j < k)%nat -> p j = false) -> first_entry n i p = Some k.
Proof.
  intros Hk Hp Hb. pose proof (first_entry_spec p n i) as Hs. destruct (first_entry n i p) as [k'|].
  - destruct Hs as (? & Hp' & Hb'). f_equal. destruct (Nat.lt_trichotomy k k') as [Hlt|[->|Hlt]]; [|done|]; [rewrite Hb' in Hp by lia|rewrite Hb in Hp' by lia]; done.
  - by rewrite Hs in Hp by lia.
Qed.

Definition table_ok (s : udevr_t) : Prop :=
  exists t, udevr s = Some t /\ length t = (Z.to_nat (udevrav s) * ESZ)%nat.

(** A driver that is registered while the table has room is found under its number,
    with its flags and functions, and the drivers with other numbers stay what they
    were; the first driver registered under a number keeps it. *)
Theorem udevr_register_finds s id name flags rd wr : table_ok s -> (length name < 32)%nat -> fits 2 id -> fits 2 flags -> fits 8 rd -> fits 8 wr ->
  (exists i t, udevr s = Some t /\ (i < Z.to_nat (udevrav s))%nat /\ e_used t i = false) ->
  exists s' t', udevr_register id name flags rd wr s = Done s' 0 /\ udevr s' = Some t' /\ table_ok s' /\
    (find_driver s id = None -> exists i, find_driver s' id = Some i /\ e_flags t' i = flags /\ e_read t' i = rd /\ e_write t' i = wr) /\
    (forall id' i t, id' <> id -> udevr s = Some t -> find_driver s id' = Some i ->
      find_driver s' id' = Some i /\ e_flags t' i = e_flags t i /\ e_read t' i = e_read t i /\ e_write t' i = e_write t i).
Proof.
  intros (t & Et & Hl) Hn Fi Ff Fr Fw (i0 & t0 & Et0 & Hi0 & Hu0). rewrite Et in Et0. injection Et0 as <-.
  unfold udevr_register. rewrite (bind_done get _ s s s) by done. rewrite Et.
  pose proof (first_entry_spec (fun i => negb (e_used t i)) (Z.to_nat (udevrav s)) 0) as Hs.
  destruct (first_entry _ 0 (fun i => negb (e_used t i))) as [i|]; [|specialize (Hs i0 ltac:(lia)); by rewrite Hu0 in Hs].
  destruct Hs as (Hi & Hfree & Hbef). apply negb_true_iff in Hfree.
  destruct (entry_filled i id name flags rd wr t) as (t' & E & Hl' & U & I & F & R & W & Ho); [unfold ESZ in *; lia|done..|]. rewrite E, bind_deref, bind_modify.
  assert (forall j, j <> i -> e_used t' j = e_used t j /\ e_id t' j = e_id t j) as Hkeep.
  { intros j Hj. unfold e_used, e_id. by rewrite !Ho by (done || unfold ESZ; lia). }
  eexists _, t'. split; [done|]. split; [done|]. split_and!.
  - exists t'. split; [done|]. cbn. congruence.
  - unfold find_driver. rewrite Et. cbn [udevr udevrav mbind option_bind]. intros Hnone. exists i. split_and!; [|done..].
    pose proof (first_entry_spec (fun i => e_used t i && (e_id t i =? id)) (Z.to_nat (udevrav s)) 0) as Hs. rewrite Hnone in Hs.
    apply first_entry_is; [lia|by rewrite U, I, Z.eqb_refl|]. intros j Hj. destruct (Hkeep j ltac:(lia)) as [-> ->]. apply Hs. lia.
  - intros id' k t2 Hne Et2 Hk. injection Et2 as <-. unfold find_driver in *. rewrite Et in Hk. cbn [udevr udevrav mbind option_bind] in *.
    pose proof (first_entry_spec (fun i => e_used t i && (e_id t i =? id')) (Z.to_nat (udevrav s)) 0) as Hs. rewrite Hk in Hs. destruct Hs as (Hkr & Hku & Hkb).
    apply andb_true_iff in Hku as [Hku Hkid]. assert (k <> i) as Hki by (intros ->; congruence).
    split; [|unfold e_flags, e_read, e_write; by rewrite !Ho by (done || unfold ESZ; lia)].
    apply first_entry_is; [lia|by destruct (Hkeep k Hki) as [-> ->]; rewrite Hku|]. intros j Hj. destruct (decide (j = i)) as [->|Hji].
    + rewrite U, I. apply Z.eqb_neq. congruence.
    + destruct (Hkeep j Hji) as [-> ->]. apply Hkb. lia.
Qed.

(** Registry of [n] drivers with the numbers [1 ..]. *)
Fixpoint register_all (n : nat) (id : Z) : M udevr_t unit :=
  match n with O => mret tt | S n' => _ ← udevr_register id [100] 1 (4096 + id) 0; register_all n' (id + 1) end.
Definition udevr0 : udevr_t := mk_udevr None 0 false [Some []; Some (replicate (144 * ESZ) 7)].
Definition udevr1 : udevr_t := state_of (udevr_init true udevr0) udevr0.

Lemma udevr_register_finds_witness :
  exists s' t', udevr_register 5 [107; 108; 111; 103] 1 4096 0 udevr1 = Done s' 0 /\ udevr s' = Some t' /\ table_ok s' /\
    (find_driver udevr1 5 = None -> exists i, find_driver s' 5 = Some i /\ e_flags t' i = 1 /\ e_read t' i = 4096 /\ e_write t' i = 0) /\
    (forall id' i t, id' <> 5 -> udevr udevr1 = Some t -> find_driver udevr1 id' = Some i ->
      find_driver s' id' = Some i /\ e_flags t' i = e_flags t i /\ e_read t' i = e_read t i /\ e_write t' i = e_write t i).
Proof.
  apply (udevr_register_finds udevr1 5 [107; 108; 111; 103] 1 4096 0); try (unfold fits; cbn; lia).
  - by eexists.
  - exists 0%nat. eexists. split; [reflexivity|]. split; [apply Nat.ltb_lt; reflexivity|reflexivity].
Defined.

(** The hundred and twenty-ninth driver wipes out the fourth to the eighteenth. *)
Lemma udevr_grow_loses :
  let s := state_of (register_all 128 1 udevr1) udevr1 in let s' := state_of (udevr_register 200 [100] 1 4096 0 s) s in
  find_driver s 4 = Some 3%nat /\ find_driver s' 4 = None /\ find_driver s' 18 = None /\ find_driver s' 200 = Some 128%nat.
Proof. by vm_compute. Qed.

End Udevr.
