(* ===== verification/Ramfs.v ===== *)
(** The in-memory file system ([src/drivers/storage/fs/ramfs.c]).

    Model: the inode table as a list of records, every data block as bytes on a
    heap of blocks.  Directory entries are the 24-byte records of the code
    (used at 0, inode at 4, name length at 8, name pointer at 16), so that a
    directory, a file and freshly allocated memory are all bytes.  Each
    allocation fails or returns memory with arbitrary content, as the oracle
    says.  [realloc] is the kernel's (see [Heap.realloc]): it copies to what
    [malloc] gave it without a look, so that without memory it writes through
    NULL. *)
From S2P Require Import Prelude CString VfsOps.

Module Ramfs.
Import CString VfsOps.

Record ramfs_inode := mk_inode {
  used : Z;   (* u8 *)
  mode : Z;   (* u16 *)
  uid : Z;    (* u16 *)
  atime : Z;
  ctime : Z;
  mtime : Z;
  gid : Z;    (* u16 *)
  size : Z;   (* u64 *)
  rdev : Z;   (* u32 *)
  allocd : Z; (* u64 *)
  dptr : Z
}.

Definition zero_inode : ramfs_inode := mk_inode 0 0 0 0 0 0 0 0 0 0 0.

Record ramfs_info := mk_info {
  inodtbl : list ramfs_inode;
  ninodes : Z; (* u32 *)
  freehint : Z (* u32 *)
}.

(** [blocks]: the live blocks by address; [brk]: above every block so far;
    [oracle]: the allocations to come, [None] a failure; [igarbage]: what the
    memory of a grown inode table holds. *)
Record rst := mk_rst {
  blocks : gmap Z (list Z);
  brk : Z;
  oracle : list (option (list Z));
  infos : gmap Z ramfs_info;
  igarbage : list ramfs_inode
}.

Definition set_blocks (b : gmap Z (list Z)) (s : rst) : rst :=
  mk_rst b (brk s) (oracle s) (infos s) (igarbage s).
Definition set_infos (i : gmap Z ramfs_info) (s : rst) : rst :=
  mk_rst (blocks s) (brk s) (oracle s) i (igarbage s).

(** ** Heap *)

Definition fresh (n : Z) (g : list Z) : list Z := take (Z.to_nat n) (g ++ replicate (Z.to_nat n) 0).

(** Outcome of the next allocation. *)
Definition next_alloc : M rst (option (list Z)) := fun s =>
  match oracle s with
  | [] => Done s (Some [])
  | o :: r => Done (mk_rst (blocks s) (brk s) r (infos s) (igarbage s)) o
  end.

(** A new block with the given content; its address. *)
Definition new_block (b : list Z) : M rst Z := fun s =>
  Done (mk_rst (<[brk s := b]> (blocks s)) (brk s + Z.of_nat (length b) + 16) (oracle s) (infos s) (igarbage s))
    (brk s).

Definition malloc (n : Z) : M rst Z :=
  o ← next_alloc;
  match o with None => mret 0 | Some g => new_block (fresh n g) end.

Definition free (p : Z) : M rst unit := modify (fun s => set_blocks (delete p (blocks s)) s).

(** The bytes kept are copied before the old block is freed; to NULL when there
    is no memory. *)
Definition realloc (p n : Z) : M rst Z :=
  if n =? 0 then _ ← free p; mret 0 else
  if p =? 0 then malloc n else
  s ← get;
  old ← deref (blocks s !! p);
  let kept := take (Z.to_nat n) old in
  o ← next_alloc;
  match o with
  | None => match kept with [] => _ ← free p; mret 0 | _ => fault end
  | Some g =>
      q ← new_block (kept ++ fresh (n - Z.of_nat (length kept)) g);
      _ ← free p;
      mret q
  end.

(** [n] bytes at [p + off]; touching no byte is no access. *)
Definition rd (p off n : Z) : M rst (list Z) :=
  if n =? 0 then mret [] else
  s ← get;
  b ← deref (blocks s !! p);
  if (0 <=? off) && (off + n <=? Z.of_nat (length b))
  then mret (take (Z.to_nat n) (drop (Z.to_nat off) b)) else fault.

Definition wr (p off : Z) (bs : list Z) : M rst unit :=
  match bs with
  | [] => mret tt
  | _ =>
      s ← get;
      b ← deref (blocks s !! p);
      if (0 <=? off) && (off + Z.of_nat (length bs) <=? Z.of_nat (length b))
      then modify (set_blocks (<[p := splice b bs (Z.to_nat off)]> (blocks s))) else fault
  end.

(** ** Instances and inodes *)

Definition RAMFS (v : vfs_t) : M rst ramfs_info := fun s =>
  match infos s !! v_priv v with Some i => Done s i | None => Fault end.

Definition put_info (v : vfs_t) (i : ramfs_info) : M rst unit :=
  modify (fun s => set_infos (<[v_priv v := i]> (infos s)) s).

(** The inode with number [ino], [None] for NULL. *)
Definition getinod (v : vfs_t) (ino : Z) : M rst (option ramfs_inode) :=
  fs ← RAMFS v;
  if (ino =? 0) || (ninodes fs <? ino) then mret None else
  n ← deref (aget (inodtbl fs) (ino - 1));
  mret (if negb (used n =? 0) then Some n else None).

(** Store an inode through its pointer. *)
Definition putinod (v : vfs_t) (ino : Z) (n : ramfs_inode) : M rst unit :=
  fs ← RAMFS v;
  t ← deref (aset (inodtbl fs) (ino - 1) n);
  put_info v (mk_info t (ninodes fs) (freehint fs)).

(** Index of the first unused inode among [i .. i + n). *)
Fixpoint scan_free (n : nat) (i : Z) (tbl : list ramfs_inode) : option (option Z) :=
  match n with
  | O => Some None
  | S n' =>
      e ← aget tbl i;
      if used e =? 0 then Some (Some i) else scan_free n' (i + 1) tbl
  end.

(** The table has entries, so growing it without memory is a copy to NULL.  The
    64 new entries are not cleared. *)
Definition findfreeino (v : vfs_t) : M rst Z :=
  fs ← RAMFS v;
  let hint := if ninodes fs <=? freehint fs then 0 else freehint fs in
  r1 ← deref (scan_free (Z.to_nat (ninodes fs - hint)) hint (inodtbl fs));
  match r1 with
  | Some i => _ ← put_info v (mk_info (inodtbl fs) (ninodes fs) (u32 (i + 1))); mret (u32 (i + 1))
  | None =>
      r2 ← deref (scan_free (Z.to_nat hint) 0 (inodtbl fs));
      match r2 with
      | Some i => _ ← put_info v (mk_info (inodtbl fs) (ninodes fs) (u32 (i + 1))); mret (u32 (i + 1))
      | None =>
          o ← next_alloc;
          match o with
          | None => fault
          | Some _ =>
              g ← gets igarbage;
              let grown := inodtbl fs ++ take 64 (g ++ replicate 64 zero_inode) in
              let ino := u32 (ninodes fs + 1) in
              _ ← put_info v (mk_info grown (u32 (ninodes fs + 64)) ino);
              mret ino
          end
      end
  end.

Definition base_mkino (v : vfs_t) (ino : Z) (n : ramfs_inode) (alloc : bool) : M rst Z :=
  if alloc then
    p ← malloc 1024;
    if p =? 0 then mret (- ENOMEM) else
    _ ← putinod v ino (mk_inode (used n) (mode n) (uid n) (atime n) (ctime n) (mtime n) (gid n)
                         (size n) (rdev n) 1024 p);
    mret ino
  else _ ← putinod v ino n; mret ino.

Definition new_inode (m u g sz rd al p : Z) : ramfs_inode := mk_inode 1 m u 0 0 0 g sz rd al p.

Definition ramfs_mkino (v : vfs_t) (m u g : Z) : M rst Z :=
  ino ← findfreeino v;
  if ino =? 0 then mret (- ENOMEM) else base_mkino v ino (new_inode m u g 0 0 0 0) true.

Definition ramfs_rmino (v : vfs_t) (ino : Z) : M rst Z :=
  n ← getinod v ino;
  match n with
  | None => mret (- ENOENT)
  | Some n =>
      _ ← free (dptr n);
      _ ← putinod v ino zero_inode;
      fs ← RAMFS v;
      if ino - 1 <? freehint fs then _ ← put_info v (mk_info (inodtbl fs) (ninodes fs) (ino - 1)); mret 0
      else mret 0
  end.

Definition ramfs_mknod (v : vfs_t) (m u g dv : Z) : M rst Z :=
  ino ← findfreeino v;
  if ino =? 0 then mret (- ENOMEM) else base_mkino v ino (new_inode m u g 0 dv 0 0) false.

Definition ramfs_symlink (v : vfs_t) (m u g : Z) (target : list Z) : M rst Z :=
  ino ← findfreeino v;
  if ino =? 0 then mret (- ENOMEM) else
  let tlen := Z.of_nat (length target) + 1 in
  p ← malloc tlen;
  if p =? 0 then mret (- ENOMEM) else
  _ ← wr p 0 (cstr target);
  base_mkino v ino (new_inode m u g tlen 0 tlen p) false.

(** The buffer is returned with its first [size] bytes overwritten. *)
Definition ramfs_readsym (v : vfs_t) (ino : Z) (buf : list Z) (buflen : Z) : M rst (Z * list Z) :=
  n ← getinod v ino;
  match n with
  | None => mret (- ENOENT, buf)
  | Some n =>
      if buflen <? size n then mret (- ETOOSMALL, buf) else
      b ← rd (dptr n) 0 (size n);
      mret (size n, b ++ drop (length b) buf)
  end.

(** ** Directory entries *)

Record ramfs_dirent := mk_dirent { d_used : Z; d_inode : Z; d_namlen : Z; d_namep : Z }.

Definition DIRENT : Z := 24.

Definition enc (e : ramfs_dirent) : list Z :=
  [d_used e; 0; 0; 0] ++ le 4 (d_inode e) ++ le 4 (d_namlen e) ++ [0; 0; 0; 0] ++ le 8 (d_namep e).

Definition dec (b : list Z) : ramfs_dirent :=
  mk_dirent (of_le (take 1 b)) (of_le (take 4 (drop 4 b))) (of_le (take 4 (drop 8 b)))
    (of_le (take 8 (drop 16 b))).

(** [dir[i]] *)
Definition get_dirent (p i : Z) : M rst ramfs_dirent :=
  b ← rd p (i * DIRENT) DIRENT; mret (dec b).

(** [dir[i].used && dir[i].namlen == namlen && strneq(dir[i].namep, name, namlen)] *)
Definition ent_is (e : ramfs_dirent) (name : list Z) : M rst bool :=
  let namlen := Z.of_nat (length name) + 1 in
  if (d_used e =? 0) || negb (d_namlen e =? namlen) then mret false else
  s ← get;
  b ← deref (blocks s !! d_namep e);
  r ← deref (strneq b (cstr name) namlen);
  mret (negb (r =? 0)).

(** Index and content of the first of [n] entries that carries the name. *)
Fixpoint find_ent (n : nat) (p i : Z) (name : list Z) : M rst (option (Z * ramfs_dirent)) :=
  match n with
  | O => mret None
  | S n' =>
      e ← get_dirent p i;
      b ← ent_is e name;
      if b : bool then mret (Some (i, e)) else find_ent n' p (i + 1) name
  end.

Fixpoint find_slot (n : nat) (p i : Z) : M rst (option Z) :=
  match n with
  | O => mret None
  | S n' =>
      e ← get_dirent p i;
      if d_used e =? 0 then mret (Some i) else find_slot n' p (i + 1)
  end.

Definition set_data_inode (n : ramfs_inode) (sz al p : Z) : ramfs_inode :=
  mk_inode (used n) (mode n) (uid n) (atime n) (ctime n) (mtime n) (gid n) sz (rdev n) al p.

Definition ramfs_lookup (v : vfs_t) (dino : Z) (name : list Z) : M rst Z :=
  d ← getinod v dino;
  match d with
  | None => mret (- ENOENT)
  | Some d =>
      r ← find_ent (Z.to_nat (size d / DIRENT)) (dptr d) 0 name;
      match r with Some (_, e) => mret (d_inode e) | None => mret (- ENOENT) end
  end.

Definition ramfs_mklink (v : vfs_t) (ino m dino : Z) (name : list Z) : M rst Z :=
  d ← getinod v dino;
  match d with
  | None => mret (- ENOENT)
  | Some d =>
      let nlen := Z.of_nat (length name) + 1 in
      np ← malloc nlen;
      if np =? 0 then mret (- ENOMEM) else
      _ ← wr np 0 (cstr name);
      let ent := mk_dirent 1 ino (u32 nlen) np in
      slot ← find_slot (Z.to_nat (size d / DIRENT)) (dptr d) 0;
      (* block, its size and the entry's index *)
      t ← match slot with
          | Some i => mret (Some (dptr d, allocd d, i))
          | None =>
              if allocd d <? size d + DIRENT then
                q ← realloc (dptr d) (allocd d + DIRENT * 32);
                if q =? 0 then mret None
                else mret (Some (q, allocd d + DIRENT * 32, allocd d / DIRENT))
              else mret (Some (dptr d, allocd d, size d / DIRENT))
          end;
      match t with
      | None => mret (- ENOMEM)
      | Some (p, al, i) =>
          _ ← wr p (i * DIRENT) (enc ent);
          _ ← putinod v dino (set_data_inode d (size d + DIRENT) al p);
          mret 0
      end
  end.

Definition ramfs_rmlink (v : vfs_t) (dino : Z) (name : list Z) : M rst Z :=
  d ← getinod v dino;
  match d with
  | None => mret (- ENOENT)
  | Some d =>
      r ← find_ent (Z.to_nat (size d / DIRENT)) (dptr d) 0 name;
      match r with
      | None => mret (- ENOENT)
      | Some (i, e) =>
          _ ← free (d_namep e);
          _ ← wr (dptr d) (i * DIRENT) (enc (mk_dirent 0 0 0 0));
          mret 0
      end
  end.

(** The inode an entry names is dereferenced without a check. *)
Definition ramfs_readdir (v : vfs_t) (dino pos namlen : Z)
  : M rst (Z * Z * option (list Z * vinode_t)) :=
  d ← getinod v dino;
  match d with
  | None => mret (- ENOENT, pos, None)
  | Some d =>
      if size d / DIRENT <=? pos then mret (-1, pos, None) else
      e ← get_dirent (dptr d) pos;
      if namlen <? d_namlen e then mret (- ETOOSMALL, pos, None) else
      nm ← rd (d_namep e) 0 (d_namlen e);
      o ← getinod v (d_inode e);
      n ← deref o;
      mret (0, pos + 1,
        Some (take (length nm - 1) nm,
              mk_vinode (mode n) (uid n) (atime n) (ctime n) (mtime n) (rdev n) (gid n) 0 (size n) (d_inode e)))
  end.

(** ** Data and attributes *)

Definition ramfs_trunc (v : vfs_t) (ino : Z) : M rst Z :=
  n ← getinod v ino;
  match n with
  | None => mret (- ENOENT)
  | Some n =>
      _ ← wr (dptr n) 0 (replicate (Z.to_nat (size n)) 0);
      _ ← putinod v ino (set_data_inode n 0 (allocd n) (dptr n));
      mret 0
  end.

Definition ramfs_getino (v : vfs_t) (ino : Z) : M rst (Z * option vinode_t) :=
  n ← getinod v ino;
  match n with
  | None => mret (- ENOENT, None)
  | Some n =>
      mret (0, Some (mk_vinode (mode n) (uid n) (atime n) (ctime n) (mtime n) (rdev n) (gid n) 0 (size n) ino))
  end.

Definition ramfs_setino (v : vfs_t) (ino : Z) (x : vinode_t) : M rst Z :=
  n ← getinod v ino;
  match n with
  | None => mret (- ENOENT)
  | Some n =>
      let dv := if (S_TYPE (i_mode x) =? S_IFCHR) || (S_TYPE (i_mode x) =? S_IFBLK) then i_rdev x else rdev n in
      _ ← putinod v ino (mk_inode (used n) (i_mode x) (i_uid x) (i_atime x) (i_ctime x) (i_mtime x) (i_gid x)
                           (size n) dv (allocd n) (dptr n));
      mret 0
  end.

Definition ramfs_read (v : vfs_t) (ino off nb0 : Z) : M rst (Z * list Z) :=
  n ← getinod v ino;
  match n with
  | None => mret (- ENOENT, [])
  | Some n =>
      if size n <? off then mret (-1, []) else
      let nb := if size n <? u64 (off + nb0) then size n - off else nb0 in
      b ← rd (dptr n) off nb;
      mret (nb, b)
  end.

(** Doubling until the need is met; 64 doublings reach any 64-bit need. *)
Fixpoint grow_cap (fuel : nat) (cap need : Z) : option Z :=
  match fuel with
  | O => None
  | S fuel' => if cap <? need then grow_cap fuel' (u64 (cap * 2)) need else Some cap
  end.

Definition ramfs_write (v : vfs_t) (ino off : Z) (buf : list Z) : M rst Z :=
  n ← getinod v ino;
  match n with
  | None => mret (- ENOENT)
  | Some n =>
      let need := u64 (off + Z.of_nat (length buf)) in
      (* block and capacity *)
      t ← (if allocd n <? need then
             newcap ← deref (grow_cap 64 (if allocd n =? 0 then 1024 else allocd n) need);
             q ← realloc (dptr n) newcap;
             if q =? 0 then mret None else mret (Some (q, newcap))
           else mret (Some (dptr n, allocd n)));
      match t with
      | None => mret (- ENOMEM)
      | Some (p, cap) =>
          _ ← wr p off buf;
          let sz := if size n <? need then need else size n in
          _ ← putinod v ino (set_data_inode n sz cap p);
          mret (Z.of_nat (length buf))
      end
  end.

(** ** Mounting *)

Fixpoint free_all (l : list ramfs_inode) : M rst unit :=
  match l with
  | [] => mret tt
  | n :: r => _ ← (if negb (used n =? 0) then free (dptr n) else mret tt); free_all r
  end.

Definition ramfs_umount (v : vfs_t) : M rst Z :=
  fs ← RAMFS v;
  _ ← free_all (inodtbl fs);
  _ ← modify (fun s => set_infos (delete (v_priv v) (infos s)) s);
  mret 0.

Definition ramfs_ops : vfsops_t rst :=
  mk_ops ramfs_umount ramfs_lookup ramfs_readdir ramfs_symlink ramfs_mknod ramfs_mkino ramfs_rmino
    ramfs_getino ramfs_setino ramfs_mklink ramfs_rmlink ramfs_trunc ramfs_readsym ramfs_read ramfs_write.

(** Result, the mount with the fields filled in, and the operations. *)
Definition ramfs_mount (v0 : vfs_t) : M rst (Z * vfs_t * option (vfsops_t rst)) :=
  let v1 := mk_vfs (v_path v0) 1 (v_blkid v0) (v_mntno v0) (v_priv v0) in
  fs ← malloc 16;
  if fs =? 0 then mret (- ENOMEM, v1, None) else
  t ← next_alloc;
  match t with
  | None => mret (- ENOMEM, v1, None)
  | Some _ =>
      let v := mk_vfs (v_path v0) 1 (v_blkid v0) (v_mntno v0) fs in
      _ ← put_info v (mk_info (replicate 1024 zero_inode) 1024 0);
      o ← next_alloc;
      match o with
      | None => mret (- ENOMEM, v, None)
      | Some _ =>
          let m := Z.lor S_IFDIR 493 in
          ret ← base_mkino v 1 (new_inode m 0 0 0 0 0 0) true;
          if ret <? 0 then mret (- ENOMEM, v, None) else
          _ ← ramfs_mklink v 1 m 1 [46];
          _ ← ramfs_mklink v 1 m 1 [46; 46];
          mret (0, v, Some ramfs_ops)
      end
  end.

(** ** Invariant and view *)

(** Inode [ino] of the mount is [n], in use. *)
Definition has (v : vfs_t) (s : rst) (fs : ramfs_info) (ino : Z) (n : ramfs_inode) : Prop :=
  infos s !! v_priv v = Some fs /\ 0 < ino <= ninodes fs /\
  aget (inodtbl fs) (ino - 1) = Some n /\ used n <> 0.

(** An inode owns a block of [allocd] bytes, at least one, or none at all. *)
Definition node_ok (s : rst) (n : ramfs_inode) : Prop :=
  (dptr n = 0 /\ allocd n = 0 /\ size n = 0) \/
  (exists b, blocks s !! dptr n = Some b /\ Z.of_nat (length b) = allocd n /\
     0 < allocd n /\ 0 <= size n <= allocd n /\ size n < 2 ^ 62).

Definition heap_ok (s : rst) : Prop :=
  0 < brk s /\ forall p b, blocks s !! p = Some b -> 0 < p < brk s.

Definition ramfs_ok (v : vfs_t) (s : rst) : Prop :=
  heap_ok s /\
  exists fs, infos s !! v_priv v = Some fs /\ Z.of_nat (length (inodtbl fs)) = ninodes fs /\
    (forall ino n, has v s fs ino n -> node_ok s n) /\
    (forall i j n m, has v s fs i n -> has v s fs j m -> i <> j -> dptr n = dptr m -> dptr n = 0).

Definition node_bytes (s : rst) (n : ramfs_inode) : option (list Z) :=
  if dptr n =? 0 then Some [] else b ← blocks s !! dptr n; Some (take (Z.to_nat (size n)) b).

Definition file_bytes (v : vfs_t) (s : rst) (ino : Z) : option (list Z) :=
  fs ← infos s !! v_priv v;
  if (0 <? ino) && (ino <=? ninodes fs) then
    n ← aget (inodtbl fs) (ino - 1);
    if used n =? 0 then None else node_bytes s n
  else None.

Lemma file_bytes_has v s fs ino n :
  has v s fs ino n -> file_bytes v s ino = node_bytes s n.
Proof.
  intros (Hfs & Hi & Hn & Hu). unfold file_bytes. rewrite Hfs. simpl.
  rewrite (proj2 (Z.ltb_lt _ _)), (proj2 (Z.leb_le _ _)) by lia. simpl. rewrite Hn. simpl.
  by rewrite (proj2 (Z.eqb_neq _ 0) Hu).
Qed.

Lemma file_bytes_inv v s ino c :
  file_bytes v s ino = Some c -> exists fs n, has v s fs ino n /\ node_bytes s n = Some c.
Proof.
  unfold file_bytes. destruct (infos s !! v_priv v) as [fs|] eqn:Hfs; [|done]. simpl.
  split_if; [|done]. to_prop. destruct (aget (inodtbl fs) (ino - 1)) as [n|] eqn:Hn; [|done]. simpl.
  split_if; [done|]. to_prop. intros. exists fs, n. unfold has. auto with lia.
Qed.

Lemma getinod_has v s fs ino n : has v s fs ino n -> getinod v ino s = Done s (Some n).
Proof.
  intros (Hfs & Hi & Hn & Hu). unfold getinod, RAMFS.
  erewrite bind_done by (by rewrite Hfs).
  rewrite (proj2 (Z.eqb_neq ino 0)), (proj2 (Z.ltb_ge _ _)) by lia. simpl.
  rewrite Hn. cbn [deref]. unfold mbind, M_bind, mret, M_ret.
  by rewrite (proj2 (Z.eqb_neq _ 0) Hu).
Qed.

(** The bytes of an inode and its block. *)
Lemma node_bytes_ok s n c :
  node_ok s n -> heap_ok s -> node_bytes s n = Some c ->
  0 <= size n < 2 ^ 62 /\ Z.of_nat (length c) = size n /\
  ((dptr n = 0 /\ allocd n = 0 /\ c = []) \/
   (dptr n <> 0 /\ exists b, blocks s !! dptr n = Some b /\ Z.of_nat (length b) = allocd n /\
      0 < allocd n /\ size n <= allocd n /\ c = take (Z.to_nat (size n)) b)).
Proof.
  intros Hok [_ Hheap]. unfold node_bytes.
  destruct Hok as [(Hp & Ha & Hs)|(b & Hb & Hlen & Hpos & Hs & Hmax)].
  - rewrite Hp, Hs. simpl. intros [= <-]. split_and!; [lia|lia|done|by left].
  - assert (dptr n <> 0) as Hp by (apply Hheap in Hb; lia).
    rewrite (proj2 (Z.eqb_neq _ 0) Hp), Hb. simpl. intros [= <-].
    rewrite length_take. split_and!; [lia..|]. right. split; [done|]. exists b. split_and!; [done|done|lia|lia|done].
Qed.

(** ** Reading *)

Lemma rd_ok s p off n b :
  blocks s !! p = Some b -> 0 <= off -> 0 <= n -> off + n <= Z.of_nat (length b) ->
  rd p off n s = Done s (take (Z.to_nat n) (drop (Z.to_nat off) b)).
Proof.
  intros Hb Ho Hn Hle. unfold rd. destruct (Z.eqb_spec n 0) as [->|Hne]; [done|].
  unfold mbind, M_bind, get. rewrite Hb. cbn [deref].
  unfold mret, M_ret. by rewrite (proj2 (Z.leb_le 0 off)), (proj2 (Z.leb_le _ _)) by lia.
Qed.

Lemma ramfs_read_ok v s ino c off nb :
  ramfs_ok v s -> file_bytes v s ino = Some c -> (off <= length c)%nat -> 0 <= nb < 2 ^ 62 ->
  exists b, ramfs_read v ino (Z.of_nat off) nb s = Done s (Z.of_nat (length b), b) /\
    b = take (Z.to_nat nb) (drop off c).
Proof.
  intros (Hheap & fs0 & Hfs0 & _ & Hnodes & _) (fs & n & Hhas & Hc)%file_bytes_inv Hoff Hnb.
  assert (fs0 = fs) as -> by (destruct Hhas as (? & _); congruence).
  destruct (node_bytes_ok s n c (Hnodes _ _ Hhas) Hheap Hc) as (Hsz & Hlen & Hcase).
  unfold ramfs_read. rewrite (bind_done _ _ _ _ _ (getinod_has _ _ _ _ _ Hhas)).
  rewrite (proj2 (Z.ltb_ge (size n) _)) by lia. rewrite wrap_small by lia.
  set (nb' := if size n <? Z.of_nat off + nb then size n - Z.of_nat off else nb).
  assert (take (Z.to_nat nb) (drop off c) = take (Z.to_nat nb') (drop off c)) as Htake.
  { unfold nb'. destruct (Z.ltb_spec (size n) (Z.of_nat off + nb)); [|done].
    rewrite !take_ge; [done|rewrite length_drop; lia..]. }
  assert (0 <= nb' /\ Z.of_nat off + nb' <= size n) as [Hnb0 Hnb1].
  { unfold nb'. destruct (Z.ltb_spec (size n) (Z.of_nat off + nb)); lia. }
  assert (Z.of_nat (length (take (Z.to_nat nb') (drop off c))) = nb') as Hbl.
  { rewrite length_take, length_drop. lia. }
  exists (take (Z.to_nat nb') (drop off c)). split; [|done]. rewrite Hbl.
  destruct Hcase as [(Hp & _ & ->)|(Hp & b & Hb & Hbl' & _ & Hsa & ->)].
  - simpl in Hlen. assert (nb' = 0) as E by lia. rewrite E. unfold rd.
    done.
  - erewrite bind_done by (apply (rd_ok s (dptr n) _ nb' b Hb); lia).
    unfold mret, M_ret. f_equal. f_equal. rewrite Nat2Z.id.
    rewrite skipn_firstn_comm, take_take. f_equal. lia.
Qed.

(** ** Replacing one inode *)

Definition upd_info (fs : ramfs_info) (ino : Z) (n : ramfs_inode) : ramfs_info :=
  mk_info (<[Z.to_nat (ino - 1) := n]> (inodtbl fs)) (ninodes fs) (freehint fs).

Section replace.
Context (v : vfs_t) (s s2 : rst) (fs : ramfs_info) (ino : Z) (n n' : ramfs_inode).
Context (Hok : ramfs_ok v s) (Hhas : has v s fs ino n).
Context (Hinfos : infos s2 = <[v_priv v := upd_info fs ino n']> (infos s)).
Context (Hheap : heap_ok s2) (Hu : used n' <> 0) (Hn' : node_ok s2 n').
Context (Hother : forall j m, has v s fs j m -> j <> ino ->
           (dptr m = 0 \/ blocks s2 !! dptr m = blocks s !! dptr m) /\ (dptr m = dptr n' -> dptr m = 0)).

Lemma replace_has j m :
  has v s2 (upd_info fs ino n') j m <-> (j = ino /\ m = n') \/ (j <> ino /\ has v s fs j m).
Proof.
  destruct Hhas as (Hfs & Hi & Hn & _). pose proof (aget_bound _ _ _ Hn) as Hb.
  unfold has, upd_info. rewrite Hinfos, lookup_insert_eq. cbn [inodtbl ninodes].
  rewrite aget_insert by lia. case_decide as E.
  - assert (j = ino) as -> by lia. split.
    + intros (_ & _ & [= ->] & _). by left.
    + intros [[_ ->]|[? _]]; [|done]. auto.
  - split.
    + intros (_ & ? & ? & ?). right. split; [lia|done].
    + intros [[-> _]|[? (_ & ? & ? & ?)]]; [lia|done].
Qed.

Lemma replace_node_bytes j m : has v s fs j m -> j <> ino -> node_bytes s2 m = node_bytes s m.
Proof.
  intros Hj Hne. unfold node_bytes. destruct (Hother j m Hj Hne) as [[->|Heq] _]; [done|].
  split_if; [done|]. by rewrite Heq.
Qed.

Lemma replace_ok : ramfs_ok v s2.
Proof.
  destruct Hok as (Hh0 & fs0 & Hfs0 & Hlen & Hnodes & Hdis).
  assert (fs0 = fs) as -> by (destruct Hhas as (? & _); congruence).
  split; [done|]. exists (upd_info fs ino n'). split_and!.
  - by rewrite Hinfos, lookup_insert_eq.
  - cbn [inodtbl ninodes upd_info]. by rewrite length_insert.
  - intros j m [[-> ->]|[Hne Hj]]%replace_has; [done|].
    destruct (Hother j m Hj Hne) as [[Hz|Heq] _]; destruct (Hnodes j m Hj) as [?|(b & Hb & ?)].
    + by left.
    + exfalso. destruct Hh0 as [_ Hh0]. apply Hh0 in Hb. lia.
    + by left.
    + right. exists b. by rewrite Heq.
  - intros i j a b [[-> ->]|[Hi Ha]]%replace_has [[-> ->]|[Hj Hb]]%replace_has Hne Heq.
    + done.
    + rewrite Heq. destruct (Hother j b Hb Hj) as [_ H]. by apply H.
    + destruct (Hother i a Ha Hi) as [_ H]. by apply H.
    + by eapply Hdis.
Qed.

Lemma replace_bytes j :
  file_bytes v s2 j = if decide (j = ino) then node_bytes s2 n' else file_bytes v s j.
Proof.
  case_decide as E.
  - subst j. apply (file_bytes_has _ _ (upd_info fs ino n')). apply replace_has. by left.
  - destruct Hhas as (Hfs & Hi & Hn & _). pose proof (aget_bound _ _ _ Hn).
    destruct (file_bytes v s j) as [c|] eqn:Ej.
    + apply file_bytes_inv in Ej as (fs1 & m & Hm & <-).
      assert (fs1 = fs) as -> by (destruct Hm as (? & _); congruence).
      rewrite (file_bytes_has v s2 (upd_info fs ino n') j m) by (apply replace_has; by right).
      by eapply replace_node_bytes.
    + destruct (file_bytes v s2 j) as [c|] eqn:Ej2; [|done].
      apply file_bytes_inv in Ej2 as (fs1 & m & Hm & Hc).
      assert (fs1 = upd_info fs ino n') as ->.
      { destruct Hm as (Hm & _). rewrite Hinfos, lookup_insert_eq in Hm. congruence. }
      apply replace_has in Hm as [[? _]|[_ Hm]]; [done|].
      rewrite (file_bytes_has _ _ _ _ _ Hm), <- (replace_node_bytes j m Hm E), Hc in Ej. done.
Qed.

End replace.

(** The same, for a state whose inode table is yet to be updated. *)
Lemma write_view v s s1 fs ino n n' :
  ramfs_ok v s -> has v s fs ino n -> infos s1 = infos s -> heap_ok s1 -> used n' <> 0 ->
  let s2 := set_infos (<[v_priv v := upd_info fs ino n']> (infos s1)) s1 in
  node_ok s2 n' ->
  (forall j m, has v s fs j m -> j <> ino ->
     (dptr m = 0 \/ blocks s2 !! dptr m = blocks s !! dptr m) /\ (dptr m = dptr n' -> dptr m = 0)) ->
  ramfs_ok v s2 /\
  forall j, file_bytes v s2 j = if decide (j = ino) then node_bytes s2 n' else file_bytes v s j.
Proof.
  intros Hok Hhas Hinf Hh Hu s2 Hn Ho.
  assert (infos s2 = <[v_priv v := upd_info fs ino n']> (infos s)) as Hi by (unfold s2; simpl; by rewrite Hinf).
  split; [by eapply replace_ok|]. intros j. by eapply replace_bytes.
Qed.

(** ** Writing *)

Lemma wr_ok s p off bs b :
  blocks s !! p = Some b -> (off + length bs <= length b)%nat ->
  wr p (Z.of_nat off) bs s = Done (set_blocks (<[p := splice b bs off]> (blocks s)) s) tt.
Proof.
  intros Hb Hle. destruct bs as [|x bs].
  - simpl. rewrite splice_nil, insert_id by done. by destruct s.
  - unfold wr, mbind, M_bind, get. rewrite Hb. cbn [deref]. unfold mret, M_ret.
    rewrite (proj2 (Z.leb_le 0 _)), (proj2 (Z.leb_le _ _)) by lia. cbn [andb]. by rewrite Nat2Z.id.
Qed.

Lemma putinod_ok v s fs ino n n' :
  has v s fs ino n ->
  putinod v ino n' s = Done (set_infos (<[v_priv v := upd_info fs ino n']> (infos s)) s) tt.
Proof.
  intros (Hfs & Hi & Hn & _). apply aget_bound in Hn. unfold putinod, RAMFS.
  erewrite bind_done by (by rewrite Hfs). rewrite aset_in by lia. done.
Qed.

(** The file after the splice, through the inode's size. *)
Lemma splice_take (b buf : list Z) (sz off : nat) :
  (off <= sz)%nat -> (sz <= length b)%nat -> (off + length buf <= length b)%nat ->
  take (Nat.max sz (off + length buf)) (splice b buf off) = splice (take sz b) buf off.
Proof.
  intros H1 H2 H3. unfold splice.
  rewrite take_take, Nat.min_l by lia.
  rewrite take_app, take_ge by (rewrite length_take; lia). f_equal.
  rewrite length_take, Nat.min_l by lia.
  rewrite take_app, take_ge by lia. f_equal.
  rewrite skipn_firstn_comm. f_equal. lia.
Qed.

Lemma fresh_length n g : length (fresh n g) = Z.to_nat n.
Proof. unfold fresh. rewrite length_take, length_app, length_replicate. lia. Qed.

(** The next allocation fails. *)
Definition fails_next (o : list (option (list Z))) : bool := match o with None :: _ => true | _ => false end.
Definition starved (s : rst) : bool := fails_next (oracle s).

Lemma next_alloc_fed s : starved s = false -> exists s' g, next_alloc s = Done s' (Some g) /\ blocks s' = blocks s /\ brk s' = brk s /\ infos s' = infos s.
Proof. unfold starved, fails_next, next_alloc. destruct (oracle s) as [|[g|] o]; [..|done]; intros _; by eexists _, _. Qed.

Lemma next_alloc_starved s : starved s = true -> exists s', next_alloc s = Done s' None /\ blocks s' = blocks s /\ brk s' = brk s /\ infos s' = infos s.
Proof. unfold starved, fails_next, next_alloc. destruct (oracle s) as [|[g|] o]; [done..|]. intros _. by eexists. Qed.

Lemma heap_ok_same s s' : blocks s' = blocks s -> brk s' = brk s -> heap_ok s -> heap_ok s'.
Proof. unfold heap_ok. by intros -> ->. Qed.

(** A block that moves and grows: its old bytes come first. *)
Lemma realloc_ok s p n ob :
  heap_ok s -> (p = 0 /\ ob = [] \/ blocks s !! p = Some ob) -> Z.of_nat (length ob) <= n -> 0 < n -> starved s = false ->
  exists s' nb, realloc p n s = Done s' (brk s) /\ infos s' = infos s /\ heap_ok s' /\
    Z.of_nat (length nb) = n /\ take (length ob) nb = ob /\ blocks s' = delete p (<[brk s := nb]> (blocks s)).
Proof.
  intros [Hbrk Hheap] Hp Hn Hn0 Hfed. unfold realloc. rewrite (proj2 (Z.eqb_neq n 0)) by lia.
  destruct (next_alloc_fed s Hfed) as (s1 & g & E1 & Hb1 & Hk1 & Hi1).
  assert (forall nb, heap_ok (mk_rst (delete p (<[brk s := nb]> (blocks s))) (brk s + Z.of_nat (length nb) + 16) (oracle s1) (infos s1) (igarbage s1))) as Hok.
  { intros nb. split; simpl; [lia|]. intros q b. rewrite lookup_delete. case_decide; [done|].
    rewrite lookup_insert. case_decide; [intros _; subst; lia|]. intros Hq%Hheap. lia. }
  destruct Hp as [[-> ->]|Hp].
  - rewrite Z.eqb_refl. unfold malloc. rewrite (bind_done _ _ _ _ _ E1). unfold new_block. rewrite Hb1, Hk1.
    assert (<[brk s := fresh n g]> (blocks s) = delete 0 (<[brk s := fresh n g]> (blocks s))) as Hdel.
    { symmetry. apply delete_id. rewrite lookup_insert_ne by lia. destruct (blocks s !! 0) as [b|] eqn:E; [|done]. apply Hheap in E. lia. }
    rewrite Hdel. eexists _, (fresh n g). split; [done|]. split_and!; [done|apply Hok|rewrite fresh_length; lia|done|done].
  - assert (p <> 0) by (apply Hheap in Hp; lia). rewrite (proj2 (Z.eqb_neq p 0)) by done.
    rewrite (bind_done get _ s s s), Hp, bind_deref, (bind_done _ _ _ _ _ E1), (take_ge ob) by (done || lia).
    unfold new_block, free, modify, mbind, M_bind, mret, M_ret. rewrite Hb1, Hk1. eexists _, (ob ++ fresh (n - Z.of_nat (length ob)) g). split; [done|].
    split_and!; [done|apply Hok|rewrite length_app, fresh_length; lia|apply take_app_length|done].
Qed.

(** Without memory: NULL for a block that is not there yet, else the copy faults. *)
Lemma realloc_starved s p n ob : heap_ok s -> 0 < n -> starved s = true ->
  (p = 0 -> exists s', realloc p n s = Done s' 0 /\ infos s' = infos s /\ blocks s' = blocks s /\ heap_ok s') /\
  (blocks s !! p = Some ob -> ob <> [] -> realloc p n s = Fault).
Proof.
  intros Hh Hn Hst. destruct (next_alloc_starved s Hst) as (s1 & E1 & Hb1 & Hk1 & Hi1). unfold realloc. rewrite (proj2 (Z.eqb_neq n 0)) by lia. split.
  - intros ->. unfold malloc. rewrite Z.eqb_refl, (bind_done _ _ _ _ _ E1). exists s1. split_and!; [done..|by eapply heap_ok_same].
  - intros Hp Hne. destruct Hh as [_ Hh]. rewrite (proj2 (Z.eqb_neq p 0)) by (apply Hh in Hp; lia).
    rewrite (bind_done get _ s s s), Hp, bind_deref, (bind_done _ _ _ _ _ E1) by done.
    destruct ob as [|x ob]; [done|]. by replace (Z.to_nat n) with (S (Z.to_nat (n - 1))) by lia.
Qed.

Lemma grow_cap_ok fuel cap need :
  0 < cap -> need < 2 ^ 62 -> need <= cap * 2 ^ Z.of_nat fuel ->
  exists c, grow_cap (S fuel) cap need = Some c /\ need <= c /\ cap <= c.
Proof.
  revert cap. induction fuel as [|fuel IH]; intros cap Hc Hn Hle; cbn [grow_cap].
  - change (2 ^ Z.of_nat 0) with 1 in Hle. rewrite (proj2 (Z.ltb_ge _ _)) by lia. exists cap. auto with lia.
  - destruct (Z.ltb_spec cap need); [|exists cap; auto with lia].
    rewrite wrap_small by lia. destruct (IH (cap * 2)) as (c & E & ? & ?); [lia|done| |].
    { rewrite Nat2Z.inj_succ, Z.pow_succ_r in Hle by lia. lia. }
    exists c. split; [exact E|]. lia.
Qed.

(** The block of an inode, and the capacity it grows to. *)
Lemma node_block s n c : node_ok s n -> heap_ok s -> node_bytes s n = Some c ->
  exists ob, (dptr n = 0 /\ allocd n = 0 /\ ob = [] \/ dptr n <> 0 /\ 0 < allocd n /\ blocks s !! dptr n = Some ob) /\
    Z.of_nat (length ob) = allocd n /\ c = take (Z.to_nat (size n)) ob /\ 0 <= size n <= allocd n.
Proof.
  intros Hok Hh Hc. destruct (node_bytes_ok s n c Hok Hh Hc) as (Hsz & Hlen & [(? & ? & ->)|(? & b & ? & ? & ? & ? & ?)]).
  - exists []. rewrite take_nil. simpl in Hlen. split_and!; [by left|simpl; lia|done|lia|lia].
  - exists b. split_and!; [by right|done|done|lia|lia].
Qed.

Lemma node_cap n need : 0 <= allocd n -> allocd n < need < 2 ^ 62 ->
  exists cap, grow_cap 64 (if allocd n =? 0 then 1024 else allocd n) need = Some cap /\ need <= cap /\ allocd n <= cap /\ 0 < cap.
Proof.
  intros Ha Hn. destruct (grow_cap_ok 63 (if allocd n =? 0 then 1024 else allocd n) need) as (cap & E & H1 & H2); [destruct (Z.eqb_spec (allocd n) 0); lia..|].
  exists cap. split; [exact E|]. destruct (Z.eqb_spec (allocd n) 0); lia.
Qed.

(** The block a write goes to: the inode's own when it is large enough, else a
    larger one that starts with the same bytes. *)
Lemma write_block v s fs ino n c need :
  ramfs_ok v s -> has v s fs ino n -> node_bytes s n = Some c -> 0 <= need < 2 ^ 62 -> (starved s = false \/ need <= allocd n) ->
  exists s1 p cap,
    (if allocd n <? need then
       newcap ← deref (grow_cap 64 (if allocd n =? 0 then 1024 else allocd n) need);
       q ← realloc (dptr n) newcap;
       if q =? 0 then mret None else mret (Some (q, newcap))
     else mret (Some (dptr n, allocd n))) s = Done s1 (Some (p, cap)) /\
    infos s1 = infos s /\ heap_ok s1 /\
    (forall j m, has v s fs j m -> j <> ino -> dptr m <> 0 -> blocks s1 !! dptr m = blocks s !! dptr m) /\
    need <= cap /\ size n <= cap /\
    (forall j m, has v s fs j m -> j <> ino -> dptr m = p -> dptr m = 0) /\
    ((p = 0 /\ cap = 0 /\ need = 0 /\ c = []) \/
     (p <> 0 /\ 0 < cap /\ exists b, blocks s1 !! p = Some b /\ Z.of_nat (length b) = cap /\
        c = take (Z.to_nat (size n)) b)).
Proof.
  intros (Hheap & fs0 & Hfs0 & _ & Hnodes & Hdis) Hhas Hc Hneed Hmem.
  assert (fs0 = fs) as -> by (destruct Hhas as (? & _); congruence).
  destruct (node_block s n c (Hnodes _ _ Hhas) Hheap Hc) as (ob & Hob & Hobl & Hobc & Hsa).
  destruct (Z.ltb_spec (allocd n) need) as [Hgrow|Hfit].
  2: { exists s, (dptr n), (allocd n). split_and!; try done.
       - lia.
       - intros j m Hj Hne Heq. by eapply (Hdis j ino).
       - destruct Hob as [(? & ? & ->)|(? & ? & ?)]; [left; split_and!; [done|done|lia|by rewrite Hobc, take_nil]|right; split_and!; [done|done|by exists ob]]. }
  destruct (node_cap n need ltac:(lia) ltac:(lia)) as (cap & Ecap & Hcap1 & Hcap2 & Hcap0).
  rewrite Ecap, bind_deref. destruct Hmem as [Hfed|]; [|lia].
  destruct (realloc_ok s (dptr n) cap ob Hheap ltac:(destruct Hob as [(? & _ & ?)|(_ & _ & ?)]; [left|right]; done) ltac:(lia) Hcap0 Hfed) as (s1 & nb & E & Hinf & Hh1 & Hnl & Hnt & Hbl).
  rewrite (bind_done _ _ _ _ _ E). destruct Hheap as [Hbrk Hheap]. rewrite (proj2 (Z.eqb_neq (brk s) 0)) by lia.
  assert (forall j m, has v s fs j m -> dptr m <> 0 -> dptr m <> brk s) as Hfresh.
  { intros j m Hj Hd. destruct (Hnodes j m Hj) as [[? _]|(b & Hb%Hheap & _)]; [done|lia]. }
  exists s1, (brk s), cap. split; [done|]. split; [done|]. split; [done|]. split.
  { intros j m Hj Hne Hd. rewrite Hbl, lookup_delete_ne, lookup_insert_ne; [done|..].
    - intros E'. by apply (Hfresh j m Hj Hd).
    - intros E'. apply Hd. by eapply (Hdis j ino). }
  split; [lia|]. split; [lia|]. split.
  { intros j m Hj Hne Heq. destruct (decide (dptr m = 0)); [done|]. by apply (Hfresh j m Hj) in Heq. }
  right. split; [lia|]. split; [lia|]. exists nb. rewrite Hbl, lookup_delete_ne, lookup_insert_eq.
  - split_and!; auto. rewrite Hobc, <- Hnt, take_take. f_equal. lia.
  - destruct Hob as [(-> & _)|(_ & _ & Hob)]; [lia|]. apply Hheap in Hob. lia.
Qed.

Lemma same_view v s s1 :
  ramfs_ok v s -> infos s1 = infos s -> blocks s1 = blocks s -> heap_ok s1 ->
  ramfs_ok v s1 /\ forall i, file_bytes v s1 i = file_bytes v s i.
Proof.
  intros (_ & fs & Hfs & Hlen & Hn & Hd) Hi Hb Hh.
  assert (forall f i n, has v s1 f i n <-> has v s f i n) as Hhas by (intros; unfold has; by rewrite Hi).
  split.
  - split; [done|]. exists fs. rewrite Hi. split_and!; auto.
    + intros i n ?%Hhas. unfold node_ok. rewrite Hb. by eapply Hn.
    + intros i j n m ?%Hhas ?%Hhas. by eapply Hd.
  - intros i. unfold file_bytes, node_bytes. by rewrite Hi, Hb.
Qed.

(** The new content of the written inode. *)
Lemma written_node s2 n c p cap off buf b :
  Z.of_nat (length c) = size n -> (off <= length c)%nat -> size n <= cap ->
  Z.of_nat off + Z.of_nat (length buf) <= cap -> size n < 2 ^ 62 ->
  Z.of_nat off + Z.of_nat (length buf) < 2 ^ 62 ->
  p <> 0 -> 0 < cap -> Z.of_nat (length b) = cap -> c = take (Z.to_nat (size n)) b ->
  blocks s2 !! p = Some (splice b buf off) ->
  let n' := set_data_inode n (Z.max (size n) (Z.of_nat off + Z.of_nat (length buf))) cap p in
  node_bytes s2 n' = Some (splice c buf off) /\ node_ok s2 n'.
Proof.
  intros Hlen Hoff Hsc Hneed Hmax1 Hmax2 Hp Hcap Hb Hc Hl n'. split.
  - unfold node_bytes. cbn [dptr size n' set_data_inode]. rewrite (proj2 (Z.eqb_neq p 0) Hp), Hl. cbn [mbind option_bind].
    rewrite Hc in *. rewrite <- splice_take by lia. do 2 f_equal. lia.
  - right. exists (splice b buf off). cbn [dptr size allocd n' set_data_inode].
    rewrite length_splice by lia. split_and!; [done|lia..].
Qed.

(** Storing the bytes in the block the inode now has. *)
Lemma store_block s n c off buf p cap :
  heap_ok s -> Z.of_nat (length c) = size n -> (off <= length c)%nat -> size n <= cap ->
  Z.of_nat off + Z.of_nat (length buf) <= cap -> size n < 2 ^ 62 -> Z.of_nat off + Z.of_nat (length buf) < 2 ^ 62 ->
  ((p = 0 /\ cap = 0 /\ Z.of_nat off + Z.of_nat (length buf) = 0 /\ c = []) \/
   (p <> 0 /\ 0 < cap /\ exists b, blocks s !! p = Some b /\ Z.of_nat (length b) = cap /\ c = take (Z.to_nat (size n)) b)) ->
  let n' := set_data_inode n (Z.max (size n) (Z.of_nat off + Z.of_nat (length buf))) cap p in
  exists bl2, wr p (Z.of_nat off) buf s = Done (set_blocks bl2 s) tt /\
    heap_ok (set_blocks bl2 s) /\ (forall q, q <> p -> bl2 !! q = blocks s !! q) /\
    (forall i, node_bytes (set_infos i (set_blocks bl2 s)) n' = Some (splice c buf off) /\
               node_ok (set_infos i (set_blocks bl2 s)) n').
Proof.
  intros Hh Hlen Hoff Hsc Hneed Hmax1 Hmax2 Hblk n'. destruct Hblk as [(-> & -> & Hn0 & ->)|(Hp0 & Hcp & b & Hb & Hbl & Hcb)].
  - assert (buf = []) as -> by (destruct buf; [done|simpl in Hn0; lia]).
    exists (blocks s). split; [by destruct s|]. split; [done|]. split; [done|].
    intros i. simpl in Hlen. rewrite splice_nil. split; [done|]. left. simpl. simpl in Hn0. split_and!; lia.
  - exists (<[p := splice b buf off]> (blocks s)). split; [|split; [|split]].
    + apply wr_ok; [done|]. lia.
    + destruct Hh as [H0 H1]. split; [done|]. intros q b'. simpl. rewrite lookup_insert.
      case_decide; [intros _; subst; by eapply H1|apply H1].
    + intros q Hq. by rewrite lookup_insert_ne.
    + intros i. eapply written_node; eauto; try lia. simpl. by rewrite lookup_insert_eq.
Qed.

(** How many bytes fit the block of a file. *)
Definition capacity (v : vfs_t) (s : rst) (ino : Z) : Z :=
  default 0 (fs ← infos s !! v_priv v; n ← aget (inodtbl fs) (ino - 1); Some (allocd n)).

Lemma capacity_has v s fs ino n : has v s fs ino n -> capacity v s ino = allocd n.
Proof. intros (Hfs & _ & Hn & _). unfold capacity. rewrite Hfs. simpl. by rewrite Hn. Qed.

Lemma ramfs_write_ok v s ino c off buf :
  ramfs_ok v s -> file_bytes v s ino = Some c -> (off <= length c)%nat ->
  Z.of_nat (off + length buf) < 2 ^ 62 -> (starved s = false \/ Z.of_nat (off + length buf) <= capacity v s ino) ->
  exists s', ramfs_write v ino (Z.of_nat off) buf s = Done s' (Z.of_nat (length buf)) /\ ramfs_ok v s' /\
    file_bytes v s' ino = Some (splice c buf off) /\
    forall i, i <> ino -> file_bytes v s' i = file_bytes v s i.
Proof.
  intros Hok (fs & n & Hhas & Hc)%file_bytes_inv Hoff Hmax Hmem. rewrite (capacity_has v s fs ino n Hhas) in Hmem.
  pose proof Hok as (Hheap & fs0 & Hfs0 & _ & Hnodes & _).
  assert (fs0 = fs) as -> by (destruct Hhas as (? & _); congruence).
  destruct (node_bytes_ok s n c (Hnodes _ _ Hhas) Hheap Hc) as (Hsz & Hlen & _).
  unfold ramfs_write. rewrite (bind_done _ _ _ _ _ (getinod_has _ _ _ _ _ Hhas)).
  rewrite wrap_small by lia. set (need := Z.of_nat off + Z.of_nat (length buf)).
  destruct (write_block v s fs ino n c need Hok Hhas Hc) as (s1 & p & cap & E & Hinf & Hh1 & Hoth & Hcap & Hscap & Hp & Hblk);
    [unfold need; lia|unfold need; destruct Hmem; [by left|right; lia]|].
  rewrite (bind_done _ _ _ _ _ E). clear E.
  replace (if size n <? need then need else size n) with (Z.max (size n) need)
    by (destruct (Z.ltb_spec (size n) need); lia).
  set (n' := set_data_inode n _ cap p).
  destruct (store_block s1 n c off buf p cap Hh1 Hlen Hoff Hscap Hcap) as (bl2 & Ewr & Hh2 & Hb2 & Hn2); [lia|lia|exact Hblk|]. fold need n' in Hn2.
  rewrite (bind_done _ _ _ _ _ Ewr).
  assert (has v (set_blocks bl2 s1) fs ino n) as Hhas1 by (unfold has; simpl; by rewrite Hinf).
  rewrite (bind_done _ _ _ _ _ (putinod_ok v (set_blocks bl2 s1) fs ino n n' Hhas1)).
  eexists. split; [done|].
  destruct (write_view v s (set_blocks bl2 s1) fs ino n n' Hok Hhas) as [Hok' Hview]; auto.
  - apply Hhas.
  - apply Hn2.
  - intros j m Hj Hne. split; [|by apply (Hp j m)]. destruct (decide (dptr m = 0)) as [|Hd]; [by left|right].
    simpl. rewrite Hb2; [by eapply Hoth|]. intros Heq. apply Hd. by eapply Hp.
  - split; [done|]. rewrite Hview. rewrite decide_True by done.
    split; [apply Hn2|]. intros i Hi. by rewrite Hview, decide_False.
Qed.

(** A write that must grow the file when there is no memory. *)
Lemma ramfs_write_starved v s ino c off buf :
  ramfs_ok v s -> file_bytes v s ino = Some c -> Z.of_nat (off + length buf) < 2 ^ 62 ->
  starved s = true -> capacity v s ino < Z.of_nat (off + length buf) ->
  (capacity v s ino = 0 -> exists s', ramfs_write v ino (Z.of_nat off) buf s = Done s' (- ENOMEM) /\ ramfs_ok v s' /\ forall i, file_bytes v s' i = file_bytes v s i) /\
  (capacity v s ino <> 0 -> ramfs_write v ino (Z.of_nat off) buf s = Fault).
Proof.
  intros Hok (fs & n & Hhas & Hc)%file_bytes_inv Hmax Hst. rewrite (capacity_has v s fs ino n Hhas). intros Hgrow.
  pose proof Hok as (Hheap & fs0 & Hfs0 & _ & Hnodes & _).
  assert (fs0 = fs) as -> by (destruct Hhas as (? & _); congruence).
  destruct (node_block s n c (Hnodes _ _ Hhas) Hheap Hc) as (ob & Hob & Hobl & _ & Hsa).
  unfold ramfs_write. rewrite !(bind_done _ _ _ _ _ (getinod_has _ _ _ _ _ Hhas)), wrap_small by lia.
  rewrite (proj2 (Z.ltb_lt (allocd n) _)) by lia.
  destruct (node_cap n (Z.of_nat off + Z.of_nat (length buf)) ltac:(lia) ltac:(lia)) as (cap & Ecap & _ & _ & Hcap0). rewrite Ecap.
  destruct (realloc_starved s (dptr n) cap ob Hheap Hcap0 Hst) as [Hnew Hold]. split.
  - intros H0. destruct Hob as [(Hp & _)|(_ & ? & _)]; [|lia]. destruct (Hnew Hp) as (s1 & E & Hi & Hb & Hh). exists s1.
    rewrite (bind_done _ _ s s1 None) by (by rewrite bind_deref, (bind_done _ _ _ _ _ E)). split; [done|]. by apply same_view.
  - intros H0. destruct Hob as [(_ & ? & _)|(_ & ? & Hb)]; [lia|].
    unfold mbind at 1, M_bind at 1. rewrite bind_deref. unfold mbind at 1, M_bind at 1. rewrite Hold; [done|done|]. intros ->. simpl in Hobl. lia.
Qed.

(** ** Directory entries as bytes *)

Definition dirent_ok (e : ramfs_dirent) : Prop :=
  0 <= d_used e < 256 /\ 0 <= d_inode e < 2 ^ 32 /\ 0 <= d_namlen e < 2 ^ 32 /\ 0 <= d_namep e < 2 ^ 64.

Lemma length_enc e : length (enc e) = 24%nat.
Proof. unfold enc. rewrite !length_app, !length_le. done. Qed.

Lemma dec_enc e : dirent_ok e -> dec (enc e) = e.
Proof.
  intros (H1 & H2 & H3 & H4). destruct e as [u i l p]. unfold dec, enc. simpl in *.
  f_equal; [lia|..].
  - apply (of_le_le 4). simpl. lia.
  - apply (of_le_le 4). simpl. lia.
  - apply (of_le_le 8). simpl. lia.
Qed.

(** The [i]-th entry of a block. *)
Definition entry_at (b : list Z) (i : nat) : ramfs_dirent := dec (take 24 (drop (i * 24) b)).

Lemma get_dirent_ok s p b (i : nat) :
  blocks s !! p = Some b -> (S i * 24 <= length b)%nat ->
  get_dirent p (Z.of_nat i) s = Done s (entry_at b i).
Proof.
  intros Hb Hl. unfold get_dirent, DIRENT.
  rewrite (bind_done _ _ _ _ _ (rd_ok s p (Z.of_nat i * 24) 24 b Hb ltac:(lia) ltac:(lia) ltac:(lia))).
  by replace (Z.to_nat (Z.of_nat i * 24)) with (i * 24)%nat by lia.
Qed.

Lemma entry_at_splice b i j bs :
  length bs = 24%nat -> (S i * 24 <= length b)%nat ->
  entry_at (splice b bs (i * 24)) j = if decide (i = j) then dec bs else entry_at b j.
Proof.
  intros Hbs Hl. unfold entry_at. case_decide as E.
  - subst j. f_equal. rewrite <- Hbs. apply take_drop_splice. lia.
  - f_equal. unfold splice. rewrite Hbs. destruct (Nat.lt_ge_cases j i).
    + rewrite drop_app_le by (rewrite length_take; lia).
      rewrite take_app_le by (rewrite length_drop, length_take; lia).
      rewrite skipn_firstn_comm, take_take. f_equal. lia.
    + rewrite app_assoc, drop_app_ge by (rewrite length_app, length_take; lia).
      rewrite length_app, length_take, Hbs, drop_drop. do 2 f_equal. lia.
Qed.

(** ** Directories without removed entries

    [es] lists entries and names; every name has a block of its own. *)
Definition dir_rep (s : rst) (n : ramfs_inode) (es : list (ramfs_dirent * list Z)) : Prop :=
  exists b, blocks s !! dptr n = Some b /\ Z.of_nat (length b) = allocd n /\
    size n = Z.of_nat (length es) * 24 /\ size n <= allocd n /\
    forall i e nm, es !! i = Some (e, nm) ->
      entry_at b i = e /\ d_used e = 1 /\ 0 <= d_inode e /\ str_ok nm /\ d_namlen e = Z.of_nat (length nm) + 1 /\
      blocks s !! d_namep e = Some (cstr nm) /\ d_namep e <> dptr n.

Lemma ent_is_ok s e nm name :
  d_used e = 1 -> str_ok nm -> str_ok name -> d_namlen e = Z.of_nat (length nm) + 1 ->
  blocks s !! d_namep e = Some (cstr nm) ->
  ent_is e name s = Done s (bool_decide (nm = name)).
Proof.
  intros Hu Hnm Hname Hl Hb. unfold ent_is. rewrite Hu, Hl. cbn [Z.eqb orb].
  destruct (Z.eqb_spec (Z.of_nat (length nm) + 1) (Z.of_nat (length name) + 1)) as [El|Nl]; cbn [negb].
  - unfold mbind, M_bind, get. rewrite Hb. cbn [deref]. unfold mret, M_ret, strneq.
    replace (Z.to_nat (Z.of_nat (length name) + 1)) with (length (cstr nm))
      by (unfold cstr; rewrite length_app; simpl; lia).
    rewrite <- (app_nil_r (cstr nm)) at 2. rewrite <- (app_nil_r (cstr name)).
    rewrite eq_loop_app by (unfold cstr; rewrite !length_app; simpl; lia). cbn [deref].
    f_equal. case_decide as Ec; case_bool_decide as Ed; try done.
    + exfalso. apply Ed. unfold cstr in Ec. by apply app_inj_tail in Ec as [? _].
    + subst. done.
  - rewrite bool_decide_false; [done|]. intros ->. lia.
Qed.

(** The first entry with the name, searched among the entries from [i] on. *)
Fixpoint first_ent (i : Z) (es : list (ramfs_dirent * list Z)) (name : list Z) : option (Z * ramfs_dirent) :=
  match es with
  | [] => None
  | (e, nm) :: es' => if bool_decide (nm = name) then Some (i, e) else first_ent (i + 1) es' name
  end.

Lemma find_ent_ok s n es name :
  dir_rep s n es -> str_ok name ->
  find_ent (length es) (dptr n) 0 name s = Done s (first_ent 0 es name).
Proof.
  intros (b & Hb & Hlb & Hsz & Hsa & Hes) Hname.
  cut (forall k rest, drop k es = rest ->
         find_ent (length rest) (dptr n) (Z.of_nat k) name s = Done s (first_ent (Z.of_nat k) rest name)).
  { intros H. apply (H 0%nat es). done. }
  intros k rest. revert k. induction rest as [|[e nm] rest IH]; intros k Hk; [done|].
  assert (es !! k = Some (e, nm)) as Hek by (rewrite <- (Nat.add_0_r k), <- lookup_drop, Hk; done).
  destruct (Hes k e nm Hek) as (He & Hu & _ & Hnm & Hl & Hblk & _).
  pose proof (lookup_lt_Some _ _ _ Hek). cbn [find_ent first_ent length].
  rewrite (bind_done _ _ _ _ _ (get_dirent_ok s (dptr n) b k Hb ltac:(lia))), He.
  rewrite (bind_done _ _ _ _ _ (ent_is_ok s e nm name Hu Hnm Hname Hl Hblk)).
  case_bool_decide; [done|]. replace (Z.of_nat k + 1) with (Z.of_nat (S k)) by lia.
  apply IH. replace (S k) with (k + 1)%nat by lia. rewrite <- drop_drop, Hk. done.
Qed.

Lemma find_slot_none s n es :
  dir_rep s n es -> find_slot (length es) (dptr n) 0 s = Done s None.
Proof.
  intros (b & Hb & Hlb & Hsz & Hsa & Hes).
  cut (forall k rest, drop k es = rest ->
         find_slot (length rest) (dptr n) (Z.of_nat k) s = Done s None).
  { intros H. apply (H 0%nat es). done. }
  intros k rest. revert k. induction rest as [|[e nm] rest IH]; intros k Hk; [done|].
  assert (es !! k = Some (e, nm)) as Hek by (rewrite <- (Nat.add_0_r k), <- lookup_drop, Hk; done).
  destruct (Hes k e nm Hek) as (He & Hu & _). pose proof (lookup_lt_Some _ _ _ Hek). cbn [find_slot length].
  rewrite (bind_done _ _ _ _ _ (get_dirent_ok s (dptr n) b k Hb ltac:(lia))), He, Hu. cbn [Z.eqb].
  replace (Z.of_nat k + 1) with (Z.of_nat (S k)) by lia.
  apply IH. replace (S k) with (k + 1)%nat by lia. rewrite <- drop_drop, Hk. done.
Qed.

Lemma dir_count s n es : dir_rep s n es -> Z.to_nat (size n / DIRENT) = length es.
Proof.
  intros (b & _ & _ & Hsz & _). rewrite Hsz. unfold DIRENT. rewrite Z.div_mul by lia. lia.
Qed.

Lemma ramfs_lookup_ok v s fs dino n es name :
  has v s fs dino n -> dir_rep s n es -> str_ok name ->
  ramfs_lookup v dino name s =
  Done s (match first_ent 0 es name with Some (_, e) => d_inode e | None => - ENOENT end).
Proof.
  intros Hhas Hdir Hname. unfold ramfs_lookup.
  rewrite (bind_done _ _ _ _ _ (getinod_has _ _ _ _ _ Hhas)), (dir_count s n es Hdir).
  rewrite (bind_done _ _ _ _ _ (find_ent_ok s n es name Hdir Hname)).
  by destruct (first_ent 0 es name) as [[? ?]|].
Qed.

(** ** Adding a link *)

Lemma malloc_ok s n :
  heap_ok s -> 0 <= n ->
  exists s' p, malloc n s = Done s' p /\ infos s' = infos s /\ oracle s' = tail (oracle s) /\
    (p = 0 \/
     (p = brk s /\ heap_ok s' /\ exists g, Z.of_nat (length g) = n /\ blocks s' = <[p := g]> (blocks s))).
Proof.
  intros [Hb Hh] Hn. unfold malloc, next_alloc, new_block, mbind, M_bind, mret, M_ret.
  assert (forall g o, heap_ok (mk_rst (<[brk s := g]> (blocks s)) (brk s + Z.of_nat (length g) + 16) o
            (infos s) (igarbage s))) as Hok.
  { intros g o. split; simpl; [lia|]. intros q b. rewrite lookup_insert.
    case_decide; [intros _; subst; lia|]. intros Hq%Hh. lia. }
  destruct (oracle s) as [|[g|] o] eqn:Eo; simpl.
  - eexists _, _. split; [done|]. split; [done|]. split; [by rewrite ?Eo|]. right. split; [done|]. split; [apply Hok|].
    eexists. split; [|done]. rewrite fresh_length. lia.
  - eexists _, _. split; [done|]. split; [done|]. split; [by rewrite ?Eo|]. right. split; [done|]. split; [apply Hok|].
    eexists. split; [|done]. rewrite fresh_length. lia.
  - eexists _, _. split; [done|]. split; [done|]. split; [done|]. by left.
Qed.

(** A block allocated for a string and filled with it. *)
Lemma malloc_str s name :
  heap_ok s ->
  exists s' p, malloc (Z.of_nat (length name) + 1) s = Done s' p /\ infos s' = infos s /\
    (p = 0 \/
     (p = brk s /\ exists s'', wr p 0 (cstr name) s' = Done s'' tt /\ infos s'' = infos s /\ heap_ok s'' /\
        oracle s'' = tail (oracle s) /\ blocks s'' = <[p := cstr name]> (blocks s))).
Proof.
  intros Hh. destruct (malloc_ok s (Z.of_nat (length name) + 1) Hh) as (s' & p & E & Hi & Ho & H); [lia|].
  exists s', p. split; [done|]. split; [done|]. destruct H as [->|(-> & Hh' & g & Hg & Hbl)]; [by left|right].
  split; [done|].
  assert (blocks s' !! brk s = Some g) as Hl by (by rewrite Hbl, lookup_insert_eq).
  assert (length (cstr name) = length g) as Hlen by (unfold cstr; rewrite length_app; simpl; lia).
  eexists. split; [apply (wr_ok s' (brk s) 0 (cstr name) g Hl); simpl; lia|]. split; [done|].
  assert (splice g (cstr name) 0 = cstr name) as ->.
  { unfold splice. simpl. rewrite drop_ge by lia. apply app_nil_r. }
  split.
  - destruct Hh' as [H1 H2]. split; [done|]. intros q b. simpl. rewrite lookup_insert.
    case_decide; [intros _; subst; by eapply H2|apply H2].
  - simpl. split; [done|]. rewrite Hbl. apply insert_insert_eq.
Qed.

(** New blocks do not disturb a directory. *)
Lemma dir_rep_mono s s' n es :
  heap_ok s -> dir_rep s n es -> (forall p, p < brk s -> blocks s' !! p = blocks s !! p) ->
  dir_rep s' n es.
Proof.
  intros [_ Hh] (b & Hb & Hl & Hsz & Hsa & Hes) Hm. exists b. split_and!; auto.
  - rewrite Hm; [done|]. apply Hh in Hb. lia.
  - intros i e nm Hi. destruct (Hes i e nm Hi) as (? & ? & ? & ? & ? & Hp & ?). split_and!; auto.
    rewrite Hm; [done|]. apply Hh in Hp. lia.
Qed.

(** The block and index [ramfs_mklink] stores the entry at: past the last. *)
Lemma link_slot s n es :
  heap_ok s -> dir_rep s n es -> (starved s = false \/ size n + DIRENT <= allocd n) ->
  exists s' p al i,
    (if allocd n <? size n + DIRENT then
       q ← realloc (dptr n) (allocd n + DIRENT * 32);
       if q =? 0 then mret None else mret (Some (q, allocd n + DIRENT * 32, allocd n / DIRENT))
     else mret (Some (dptr n, allocd n, size n / DIRENT))) s = Done s' (Some (p, al, i)) /\ infos s' = infos s /\
    i = Z.of_nat (length es) /\ size n + 24 <= al /\ heap_ok s' /\
    (exists b, blocks s' !! p = Some b /\ Z.of_nat (length b) = al /\
       forall j e nm, es !! j = Some (e, nm) -> entry_at b j = e) /\
    (forall q, 0 < q < brk s -> q <> dptr n -> blocks s' !! q = blocks s !! q) /\
    (p = dptr n \/ brk s <= p).
Proof.
  intros Hh (b & Hb & Hl & Hsz & Hsa & Hes). unfold DIRENT. intros Hmem.
  assert (size n / 24 = Z.of_nat (length es)) as Hdiv by (rewrite Hsz; by apply Z.div_mul).
  destruct (Z.ltb_spec (allocd n) (size n + 24)) as [Hgrow|Hfit].
  2: { eexists _, _, _, _. split; [done|]. split; [done|]. split_and!; auto.
       exists b. split_and!; auto. intros j e nm Hj. by apply (Hes j e nm). }
  destruct Hmem as [Hfed|]; [|lia].
  destruct (realloc_ok s (dptr n) (allocd n + 24 * 32) b Hh ltac:(by right) ltac:(lia) ltac:(lia) Hfed) as (s' & nb & E & Hi & Hh' & Hnl & Hnt & Hbl).
  rewrite (bind_done _ _ _ _ _ E).
  destruct Hh as [Hbrk Hh]. rewrite (proj2 (Z.eqb_neq (brk s) 0)) by lia.
  assert (dptr n < brk s) by (apply Hh in Hb; lia).
  eexists _, _, _, _. split; [done|]. split; [done|]. split_and!; auto.
  - symmetry. apply Z.div_unique with (allocd n - size n); lia.
  - lia.
  - exists nb. rewrite Hbl, lookup_delete_ne, lookup_insert_eq by lia. split_and!; auto.
    intros j e nm Hj. destruct (Hes j e nm Hj) as (<- & _). unfold entry_at. f_equal.
    rewrite <- Hnt. pose proof (lookup_lt_Some _ _ _ Hj).
    rewrite skipn_firstn_comm, take_take. f_equal. lia.
  - intros q Hq Hne. by rewrite Hbl, lookup_delete_ne, lookup_insert_ne by lia.
  - right. lia.
Qed.

Lemma first_ent_app i es e nm name :
  first_ent i (es ++ [(e, nm)]) name =
  match first_ent i es name with
  | Some r => Some r
  | None => if bool_decide (nm = name) then Some (i + Z.of_nat (length es), e) else None
  end.
Proof.
  revert i. induction es as [|[e' nm'] es IH]; intros i; simpl.
  - by rewrite Z.add_0_r.
  - destruct (bool_decide (nm' = name)); [done|]. rewrite IH.
    destruct (first_ent (i + 1) es name) as [[? ?]|]; [done|].
    destruct (bool_decide (nm = name)); [|done]. do 2 f_equal. lia.
Qed.

Lemma first_ent_in i es name j e :
  first_ent i es name = Some (j, e) -> exists k nm, es !! k = Some (e, nm).
Proof.
  revert i. induction es as [|[e' nm'] es IH]; intros i; simpl; [done|].
  case_bool_decide; [intros [= _ <-]; by exists 0%nat, nm'|].
  intros (k & nm & Hk)%IH. by exists (S k), nm.
Qed.

(** The directory after the entry is stored. *)
Lemma link_stored s s1 s2 n n' es b p al ino name :
  heap_ok s -> dir_rep s n es -> str_ok name -> Z.of_nat (length name) + 1 < 2 ^ 32 ->
  0 <= ino < 2 ^ 32 -> brk s < 2 ^ 64 ->
  blocks s1 = <[brk s := cstr name]> (blocks s) ->
  size n + 24 <= al -> Z.of_nat (length b) = al ->
  (forall j e nm, es !! j = Some (e, nm) -> entry_at b j = e) ->
  (forall q, 0 < q < brk s -> q <> dptr n -> q <> p -> blocks s2 !! q = blocks s !! q) ->
  blocks s2 !! brk s = Some (cstr name) ->
  (p = dptr n \/ brk s < p) ->
  let ent := mk_dirent 1 ino (u32 (Z.of_nat (length name) + 1)) (brk s) in
  blocks s2 !! p = Some (splice b (enc ent) (length es * 24)) ->
  n' = set_data_inode n (size n + DIRENT) al p ->
  dir_rep s2 n' (es ++ [(ent, name)]).
Proof.
  intros [Hbrk Hheap] (b0 & Hb0 & Hl0 & Hsz & Hsa & Hes) Hname Hlen Hino Hb64 Hbl1 Hal Hbl Hent Hoth Hnp Hp ent Hb2 ->.
  assert (0 < dptr n < brk s) as Hdp by (by eapply Hheap).
  exists (splice b (enc ent) (length es * 24)). cbn [dptr size allocd set_data_inode]. unfold DIRENT.
  rewrite length_splice, length_enc, length_app by lia. simpl. split_and!; [done|lia|lia|lia|].
  intros i e nm Hi. rewrite entry_at_splice by (rewrite ?length_enc; lia).
  apply lookup_app_Some in Hi as [Hi|[Hge Hi]].
  - pose proof (lookup_lt_Some _ _ _ Hi). rewrite decide_False by lia.
    destruct (Hes i e nm Hi) as (_ & ? & ? & ? & ? & Hnb & Hne).
    assert (0 < d_namep e < brk s) as Hr by (by eapply Hheap).
    split_and!; auto; [by eapply Hent| |lia].
    rewrite Hoth; auto. lia.
  - apply list_lookup_singleton_Some in Hi as [Hi [= <- <-]]. rewrite decide_True by lia.
    split_and!; auto; [|simpl; lia|simpl; by rewrite wrap_small by lia|simpl; lia].
    apply dec_enc. unfold dirent_ok, ent. simpl. rewrite wrap_small by lia. lia.
Qed.

(** What a lookup finds once an entry is behind the others. *)
Lemma found_after s n es ent name name' : dir_rep s n es ->
  let found l := match first_ent 0 l name' with Some (_, e) => d_inode e | None => - ENOENT end in
  found (es ++ [(ent, name)]) = if (found es <? 0) && bool_decide (name' = name) then d_inode ent else found es.
Proof.
  intros Hdir found. unfold found. rewrite first_ent_app. destruct (first_ent 0 es name') as [[j e]|] eqn:Ef.
  - rewrite (proj2 (Z.ltb_ge _ _)); [done|]. destruct Hdir as (b0 & _ & _ & _ & _ & Hes).
    apply first_ent_in in Ef as (k & nm & Hk). by apply (Hes k e nm).
  - rewrite (bool_decide_ext (name = name') (name' = name)) by done.
    change (- ENOENT <? 0) with true. by destruct (bool_decide (name' = name)).
Qed.

Lemma has_upd v s fs dino n n' : has v s fs dino n -> used n' = used n ->
  has v (set_infos (<[v_priv v := upd_info fs dino n']> (infos s)) s) (upd_info fs dino n') dino n'.
Proof.
  intros (Hfs & Hr & Hn & Hu) E. pose proof (aget_bound _ _ _ Hn).
  split_and!; [cbn [infos set_infos]; by rewrite lookup_insert_eq|cbn; lia..| |by rewrite E].
  cbn [upd_info inodtbl]. rewrite aget_insert by lia. by rewrite decide_True by lia.
Qed.

(** A new link is found under its name and no other name is affected: on a
    directory without removed entries that does not have to grow without memory,
    [ramfs_mklink] either finds no memory for the name or stores the entry so that [ramfs_lookup] of any name answers as before,
    except that the new name, if it was absent, now resolves to the inode. *)
Theorem ramfs_mklink_lookup v s fs dino n es ino m name :
  heap_ok s -> has v s fs dino n -> dir_rep s n es -> str_ok name ->
  Z.of_nat (length name) + 1 < 2 ^ 32 -> 0 <= ino < 2 ^ 32 -> brk s < 2 ^ 64 ->
  (fails_next (tail (oracle s)) = false \/ size n + DIRENT <= allocd n) ->
  exists s' r, ramfs_mklink v ino m dino name s = Done s' r /\
    (r = - ENOMEM \/
     (r = 0 /\ forall name', str_ok name' ->
        exists x, ramfs_lookup v dino name' s = Done s x /\
          ramfs_lookup v dino name' s' =
            Done s' (if (x <? 0) && bool_decide (name' = name) then ino else x))).
Proof.
  intros Hh Hhas Hdir Hname Hlen Hino Hb64 Hmem. unfold ramfs_mklink.
  rewrite (bind_done _ _ _ _ _ (getinod_has _ _ _ _ _ Hhas)).
  destruct (malloc_str s name Hh) as (s0 & np & E0 & Hi0 & [->|(-> & s1 & E1 & Hi1 & Hh1 & Ho1 & Hbl1)]).
  { rewrite (bind_done _ _ _ _ _ E0). exists s0, (- ENOMEM). split; [done|]. by left. }
  pose proof Hh as [Hbrk Hheap].
  rewrite (bind_done _ _ _ _ _ E0), (proj2 (Z.eqb_neq (brk s) 0)), (bind_done _ _ _ _ _ E1) by lia.
  assert (dir_rep s1 n es) as Hdir1.
  { apply (dir_rep_mono s s1 n es Hh Hdir). intros p Hp. by rewrite Hbl1, lookup_insert_ne by lia. }
  rewrite (dir_count s n es Hdir), (bind_done _ _ _ _ _ (find_slot_none s1 n es Hdir1)).
  destruct (link_slot s1 n es Hh1 Hdir1) as (s2 & p & al & i & E2 & Hi2 & -> & Hal & Hh2 & (b & Hb & Hbl & Hent) & Hoth & Hp);
    [unfold starved; by rewrite Ho1|].
  rewrite (bind_done _ _ _ _ _ E2). clear E2.
  assert (brk s < brk s1) as Hbrk1.
  { destruct Hh1 as [_ Hh1]. apply (Hh1 (brk s) (cstr name)). by rewrite Hbl1, lookup_insert_eq. }
  assert (0 < dptr n < brk s) as Hdp by (destruct Hdir as (b0 & Hb0 & _); by eapply Hheap).
  set (ent := mk_dirent 1 ino (u32 (Z.of_nat (length name) + 1)) (brk s)).
  assert (size n = Z.of_nat (length es) * 24) as Hsz by (by destruct Hdir as (? & _ & _ & ? & _)).
  replace (Z.of_nat (length es) * DIRENT) with (Z.of_nat (length es * 24)) by (unfold DIRENT; lia).
  rewrite (bind_done _ _ _ _ _ (wr_ok s2 p (length es * 24) (enc ent) b Hb ltac:(rewrite length_enc; lia))).
  set (s3 := set_blocks _ s2). set (n' := set_data_inode n _ al p).
  assert (has v s3 fs dino n) as Hhas3 by (unfold has, s3; simpl; by rewrite Hi2, Hi1).
  rewrite (bind_done _ _ _ _ _ (putinod_ok v s3 fs dino n n' Hhas3)).
  eexists _, 0. split; [done|]. right. split; [done|]. intros name' Hname'.
  eexists. split; [by apply (ramfs_lookup_ok v s fs dino n es name')|].
  assert (forall q, q <> p -> blocks s3 !! q = blocks s2 !! q) as Hq3.
  { intros q Hq. unfold s3. simpl. by rewrite lookup_insert_ne. }
  rewrite (ramfs_lookup_ok v _ (upd_info fs dino n') dino n' (es ++ [(ent, name)]) name'); auto.
  - f_equal. by apply (found_after s n es).
  - by apply (has_upd v s3 fs dino n).
  - eapply (link_stored s s1 _ n n' es b p al ino name); eauto.
    + intros q Hq1 Hq2 Hq3'. simpl. rewrite lookup_insert_ne by done.
      rewrite Hoth by lia. by rewrite Hbl1, lookup_insert_ne by lia.
    + simpl. rewrite lookup_insert_ne by lia. rewrite Hoth by lia. by rewrite Hbl1, lookup_insert_eq.
    + destruct Hp; [by left|right; lia].
    + simpl. by rewrite lookup_insert_eq.
Qed.

(** ** The promise to the VFS *)

#[export] Instance ramfs_file_laws (v : vfs_t) : file_laws ramfs_ops v.
Proof.
  refine {| holds d ino c := file_bytes v d ino = Some c;
            room d ino e := starved d = false \/ e <= capacity v d ino \/ capacity v d ino = 0;
            may_fail := True; fs_ok := ramfs_ok v |}.
  - intros d ino c off buf Hok Hc Hoff Hmax Hroom.
    assert ((starved d = false \/ Z.of_nat (off + length buf) <= capacity v d ino) \/
      starved d = true /\ capacity v d ino < Z.of_nat (off + length buf) /\ capacity v d ino = 0) as [Hfits|(Hst & Hgrow & H0)].
    { destruct (starved d); [|by left; left]. destruct Hroom as [[=]|Hroom].
      destruct (Z.le_gt_cases (Z.of_nat (off + length buf)) (capacity v d ino)); [by left; right|]. right. split_and!; [done|lia|lia]. }
    + destruct (ramfs_write_ok v d ino c off buf Hok Hc Hoff Hmax Hfits) as (d' & E & Hok' & Hn & H).
      exists d', (Z.of_nat (length buf)). split; [done|]. split; [done|]. right. split; [done|]. split; [done|]. intros i ci Hi. by rewrite H.
    + destruct (ramfs_write_starved v d ino c off buf Hok Hc Hmax Hst Hgrow) as [H _]. destruct (H H0) as (d' & E & Hok' & Hsame).
      exists d', (- ENOMEM). split; [done|]. split; [done|]. left. split; [done|]. split; [done|]. intros i ci. by rewrite Hsame.
  - intros. apply ramfs_read_ok; auto.
  - intros d ino c (Hh & fs0 & Hfs0 & _ & Hn & _) (fs & n & Hhas & Hc)%file_bytes_inv.
    assert (fs0 = fs) as -> by (destruct Hhas as (? & _); congruence).
    destruct (node_bytes_ok d n c (Hn _ _ Hhas) Hh Hc) as (_ & Hlen & _).
    unfold ramfs_ops. cbn [op_getino]. unfold ramfs_getino.
    rewrite (bind_done _ _ _ _ _ (getinod_has _ _ _ _ _ Hhas)). eexists. split; [done|]. by simpl.
Defined.

(** C10. File data of ramfs refines byte strings.  Within a file or at its end a write
    replaces exactly the written range, growing the file when it must, and whatever
    the fresh memory of a moved block holds never shows.  When it must grow and there
    is no memory, a file without a block reports so and no file changes; for a file
    that has one the kernel writes through NULL. *)
Theorem ramfs_write_refines v s ino c off buf :
  ramfs_ok v s -> file_bytes v s ino = Some c -> (off <= length c)%nat ->
  Z.of_nat (off + length buf) < 2 ^ 62 ->
  let w := ramfs_write v ino (Z.of_nat off) buf s in
  let fits := Z.of_nat (off + length buf) <= capacity v s ino in
  (starved s = false \/ fits -> exists s', w = Done s' (Z.of_nat (length buf)) /\ ramfs_ok v s' /\
     file_bytes v s' ino = Some (splice c buf off) /\ forall i, i <> ino -> file_bytes v s' i = file_bytes v s i) /\
  (starved s = true -> ~ fits -> capacity v s ino = 0 ->
     exists s', w = Done s' (- ENOMEM) /\ ramfs_ok v s' /\ forall i, file_bytes v s' i = file_bytes v s i) /\
  (starved s = true -> ~ fits -> capacity v s ino <> 0 -> w = Fault).
Proof.
  intros Hok Hc Hoff Hmax w fits. split; [intros; by apply ramfs_write_ok|].
  split; intros Hst Hfit; (destruct (ramfs_write_starved v s ino c off buf Hok Hc Hmax Hst) as [H1 H2]; [unfold fits in Hfit; lia|done]).
Qed.

(** ** Concrete instances *)

Definition rst0 : rst := mk_rst ∅ 4096 [] ∅ [].
Definition vfs0 : vfs_t := mk_vfs [47] 1 0 0 4096.

(** A freshly mounted file system. *)
Definition mounted : rst :=
  match ramfs_mount vfs0 rst0 with Done s _ => s | Fault => rst0 end.

Definition root_inode : ramfs_inode := mk_inode 1 0x41ED 0 0 0 0 0 48 0 1024 4128.

Definition root_entries : list (ramfs_dirent * list Z) :=
  [(mk_dirent 1 1 2 5168, [46]); (mk_dirent 1 1 3 5186, [46; 46])].

Definition mounted_info : ramfs_info :=
  mk_info (root_inode :: replicate 1023 zero_inode) 1024 0.

Lemma mounted_heap : heap_ok mounted.
Proof.
  split; [vm_compute; done|]. intros p b Hp.
  assert (map_Forall (fun p _ => 0 < p < 5205) (blocks mounted)) as H.
  { apply (bool_decide_unpack _). by vm_compute. }
  specialize (H p b Hp). simpl in H. change (brk mounted) with (brk mounted).
  assert (brk mounted = 5205) as -> by (by vm_compute). lia.
Qed.

Lemma mounted_has : has vfs0 mounted mounted_info 1 root_inode.
Proof. split; [by vm_compute|]. split; [simpl; lia|]. split; done. Qed.

Lemma mounted_dir : dir_rep mounted root_inode root_entries.
Proof.
  eexists. split; [by vm_compute|]. split; [by vm_compute|]. split; [by vm_compute|]. split; [simpl; lia|].
  intros [|[|i]] e nm Hi; [..|done]; injection Hi as <- <-;
    (split; [by vm_compute|]); (split; [done|]); (split; [simpl; lia|]);
    (split; [repeat constructor; lia|]); (split; [done|]); split; by vm_compute.
Qed.

Lemma ramfs_mklink_lookup_witness :
  exists s', ramfs_mklink vfs0 7 0x81A4 1 [97] mounted = Done s' 0 /\
    ramfs_lookup vfs0 1 [97] s' = Done s' 7 /\ ramfs_lookup vfs0 1 [46] s' = Done s' 1.
Proof.
  destruct (ramfs_mklink_lookup vfs0 mounted mounted_info 1 root_inode root_entries 7 0x81A4 [97])
    as (s' & r & E & H).
  - exact mounted_heap.
  - exact mounted_has.
  - exact mounted_dir.
  - repeat constructor; lia.
  - simpl. lia.
  - lia.
  - assert (brk mounted = 5205) as -> by (by vm_compute). lia.
  - right. by vm_compute.
  - assert (r = 0) as -> by (apply (result_of_Done _ _ _ 0 E); by vm_compute).
    destruct H as [[=]|[_ H]]. exists s'. split; [exact E|].
    destruct (H [97]) as (x & Hx & Hl); [repeat constructor; lia|].
    destruct (H [46]) as (y & Hy & Hm); [repeat constructor; lia|].
    assert (x = - ENOENT) as -> by (apply (result_of_Done _ _ _ _ Hx); by vm_compute).
    assert (y = 1) as -> by (apply (result_of_Done _ _ _ _ Hy); by vm_compute).
    split; [exact Hl|exact Hm].
Defined.

(** The mounted file system with an empty regular file, inode 2. *)
Definition with_file : rst := state_of (ramfs_mkino vfs0 0x81A4 0 0 mounted) mounted.

Definition file_inode : ramfs_inode := mk_inode 1 0x81A4 0 0 0 0 0 0 0 1024 5205.

(** A file system with two inodes that share no block. *)
Lemma two_inodes_ok v s a b k x :
  infos s !! v_priv v = Some (mk_info (a :: b :: replicate k zero_inode) (2 + Z.of_nat k) x) ->
  heap_ok s -> node_ok s a -> node_ok s b -> dptr a <> dptr b -> ramfs_ok v s.
Proof.
  intros Hi Hh Ha Hb Hne. split; [done|]. eexists. split; [exact Hi|]. split; [cbn; rewrite length_replicate; lia|].
  assert (forall fs ino n, has v s fs ino n -> (ino = 1 /\ n = a) \/ (ino = 2 /\ n = b)) as Hhas.
  { intros fs ino n (Hfs & Hr & Hn & Hu). rewrite Hi in Hfs. injection Hfs as <-. apply aget_Some in Hn as [_ Hn]. cbn [inodtbl] in Hn.
    destruct (Z.to_nat (ino - 1)) as [|[|j]] eqn:Ek; [left|right|].
    - injection Hn as <-. split; [lia|done].
    - injection Hn as <-. split; [lia|done].
    - exfalso. cbn [lookup list_lookup] in Hn. apply lookup_replicate in Hn as [-> _]. by apply Hu. }
  split.
  - by intros ino n [[_ ->]|[_ ->]]%Hhas.
  - intros i j n m [[-> ->]|[-> ->]]%Hhas [[-> ->]|[-> ->]]%Hhas ? ?; congruence.
Qed.

Lemma heap_ok_run s n : brk s = n -> 0 < n -> map_Forall (fun p _ => 0 < p < n) (blocks s) -> heap_ok s.
Proof. intros Hb Hn H. split; [lia|]. intros p b Hp. specialize (H p b Hp). cbn in H. lia. Qed.

Ltac concrete_node := right; eexists; (split; [by vm_compute|]); (split; [by vm_compute|]); simpl; lia.

Lemma with_file_ok : ramfs_ok vfs0 with_file.
Proof.
  apply (two_inodes_ok _ _ root_inode file_inode 1022 2); [by vm_compute| |concrete_node..|done].
  apply (heap_ok_run _ 6245); [by vm_compute|done|]. apply (bool_decide_unpack _). by vm_compute.
Qed.

Lemma ramfs_write_refines_witness :
  ramfs_ok vfs0 with_file /\
  exists s', ramfs_write vfs0 2 0 [104; 105] with_file = Done s' 2 /\
    file_bytes vfs0 s' 2 = Some [104; 105].
Proof.
  split; [exact with_file_ok|].
  destruct (ramfs_write_refines vfs0 with_file 2 [] 0 [104; 105]) as [H _].
  - exact with_file_ok.
  - by vm_compute.
  - simpl. lia.
  - simpl. lia.
  - destruct H as (s' & E & _ & H & _); [left; by vm_compute|]. exists s'. split; [exact E|exact H].
Defined.

(** Removing an entry breaks listing: [ramfs_rmlink] leaves a slot with inode
    zero inside the directory, and [ramfs_readdir] dereferences the NULL inode
    when it reaches the slot. *)
Theorem ramfs_readdir_after_rmlink_faults :
  result_of ((_ ← ramfs_mklink vfs0 2 0x81A4 1 [97]; ramfs_rmlink vfs0 1 [97]) with_file) = Some 0 /\
  result_of ((_ ← ramfs_mklink vfs0 2 0x81A4 1 [97]; _ ← ramfs_rmlink vfs0 1 [97];
              ramfs_readdir vfs0 1 2 1024) with_file) = None.
Proof. split; by vm_compute. Qed.

(** Reusing a removed slot makes the directory grow past its entries: the
    size is raised although no slot was added, so the directory counts four
    entries where three were written, and the fourth is read from memory that
    was never written.  With fresh memory full of ones the listing fails with
    [-ETOOSMALL] from a garbage name length instead of ending. *)
Theorem ramfs_slot_reuse_reads_garbage :
  let start := mk_rst (blocks rst0) 4096 [Some []; Some []; Some []; Some (replicate 1024 1)] ∅ [] in
  let links := (_ ← ramfs_mklink vfs0 1 0x41ED 1 [97]; _ ← ramfs_rmlink vfs0 1 [97];
                ramfs_mklink vfs0 1 0x41ED 1 [98]) in
  result_of ((_ ← ramfs_mount vfs0; _ ← links; ramfs_lookup vfs0 1 [98]) start) = Some 1 /\
  result_of ((_ ← ramfs_mount vfs0; _ ← links; ramfs_getino vfs0 1) start)
    = Some (0, Some (mk_vinode 0x41ED 0 0 0 0 0 0 0 (4 * 24) 1)) /\
  result_of ((_ ← ramfs_mount vfs0; _ ← links; ramfs_readdir vfs0 1 3 1024) start) = Some (- ETOOSMALL, 3, None).
Proof. split_and!; by vm_compute. Qed.

End Ramfs.
