(* ===== verification/Vfs.v ===== *)
(** The virtual file system ([src/drivers/storage/fs/vfs.c]) and the
    descriptor calls on top of it ([src/drivers/storage/fd/fd.c]: [close],
    [read], [write]).

    State: the mount array with its generation (a [realloc] moves it and open
    files keep pointers into the old one), the working directory, the
    descriptors and ids of the running process, the driver state, and the
    outcomes of the allocations to come.  The drivers are reached through the
    operation tables of [VfsOps]; the block layer and the devices behind
    descriptors that are not files are parameters.

    Path resolution works on two byte buffers, [pbuf] and [lnkbuf]; its stack
    holds pointers into them, so a second symbolic link overwrites the
    components of the first. *)
From S2P Require Import Prelude VfsPath VfsOps Fd.

Module Vfs.
Import VfsPath VfsOps Fd.

Definition VFS_PATH_MAX : Z := 4096.
Definition VFS_NAME_MAX : Z := 255.
Definition VFS_MAX_SYMLINKS : Z := 40.
Definition VFS_NO_SYMLINKS : Z := 1.
Definition VFS_MUST_BE_DIR : Z := 2.
Definition VFS_FOLLOW_FINAL : Z := 4.
Definition STK_MAX : nat := 2048.
Definition O_CREAT : Z := 4.
Definition O_APPEND : Z := 8.
Definition O_TRUNC : Z := 16.
Definition SEEK_SET : Z := 0.
Definition SEEK_CUR : Z := 1.
Definition SEEK_END : Z := 2.

Definition flag (fs bit : Z) : bool := negb (Z.land fs bit =? 0).

(** ** Splitting a buffer into components, in place *)

(** Offsets of the components; the slash after each is overwritten by NUL.
    [None]: the buffer has no NUL. *)
Fixpoint tokenize (fuel : nat) (buf : list Z) (p : nat) (acc : list nat)
  : option (Z + list Z * list nat) :=
  match fuel with
  | O => None
  | S fuel' =>
      c ← buf !! p;
      if c =? 0 then Some (inr (buf, rev acc))
      else
        let st := (p + length (take_while is_slash (drop p buf)))%nat in
        c1 ← buf !! st;
        if c1 =? 0 then Some (inr (buf, rev acc))
        else
          let len := length (take_while (fun x => negb (is_slash x) && negb (x =? 0)) (drop st buf)) in
          let e := (st + len)%nat in
          c2 ← buf !! e;
          if VFS_NAME_MAX <? Z.of_nat len then Some (inl (- ENAMETOOLONG))
          else
            let '(buf', e') := if negb (c2 =? 0) then (<[e := 0]> buf, S e) else (buf, e) in
            if (STK_MAX <=? length acc)%nat then Some (inl (- ENAMETOOLONG))
            else tokenize fuel' buf' e' (st :: acc)
  end.

(** The string at an offset. *)
Definition cstr_at (buf : list Z) (off : nat) : option (list Z) :=
  let s := take_while (fun x => negb (x =? 0)) (drop off buf) in
  if (off + length s <? length buf)%nat then Some s else None.

(** A component pointer: in [lnkbuf] or in [pbuf], at an offset. *)
Notation ptr := (bool * nat)%type.

Definition str_of (pbuf lnkbuf : list Z) (p : option ptr) : option (list Z) :=
  '(lnk, off) ← p;
  cstr_at (if lnk : bool then lnkbuf else pbuf) off.

(** ** State *)

Record slot (D : Type) := mk_slot { s_vfs : vfs_t; s_ops : option (vfsops_t D); s_inuse : bool }.
Arguments mk_slot {D}.
Arguments s_vfs {D}.
Arguments s_ops {D}.
Arguments s_inuse {D}.

Record vst (D : Type) := mk_vst {
  mounts : list (slot D);
  gen : Z;
  cwd : list Z;
  oom : list bool;                       (* upcoming allocations that fail *)
  garbage : list Z;                      (* content of a fresh link buffer *)
  fdmem : list (option (list fdinfo));   (* upcoming allocations of descriptor tables *)
  fdt : fdtab;
  euid : Z;
  egid : Z;
  dev : D
}.
Arguments mk_vst {D}.
Arguments mounts {D}.
Arguments gen {D}.
Arguments cwd {D}.
Arguments oom {D}.
Arguments garbage {D}.
Arguments fdmem {D}.
Arguments fdt {D}.
Arguments euid {D}.
Arguments egid {D}.
Arguments dev {D}.

(** [struct stat] *)
Record stat_t := mk_stat {
  st_name : list Z;
  st_uid : Z;
  st_atime : Z;
  st_ctime : Z;
  st_mtime : Z;
  st_gid : Z;
  st_mode : Z;
  st_size : Z;
  st_ino : Z
}.

Definition stat_of (name : list Z) (n : vinode_t) (mode ino : Z) : stat_t :=
  mk_stat name (i_uid n) (i_atime n) (i_ctime n) (i_mtime n) (i_gid n) mode (i_size n) ino.

Section vfs.
Context {D : Type}.
Notation MV := (M (vst D)).
Implicit Types (s : vst D).

Definition set_dev (d : D) s : vst D :=
  mk_vst (mounts s) (gen s) (cwd s) (oom s) (garbage s) (fdmem s) (fdt s) (euid s) (egid s) d.
Definition set_mounts (m : list (slot D)) (g : Z) s : vst D :=
  mk_vst m g (cwd s) (oom s) (garbage s) (fdmem s) (fdt s) (euid s) (egid s) (dev s).
Definition set_cwd (c : list Z) s : vst D :=
  mk_vst (mounts s) (gen s) c (oom s) (garbage s) (fdmem s) (fdt s) (euid s) (egid s) (dev s).
Definition set_oom (o : list bool) s : vst D :=
  mk_vst (mounts s) (gen s) (cwd s) o (garbage s) (fdmem s) (fdt s) (euid s) (egid s) (dev s).
Definition set_fdmem (o : list (option (list fdinfo))) s : vst D :=
  mk_vst (mounts s) (gen s) (cwd s) (oom s) (garbage s) o (fdt s) (euid s) (egid s) (dev s).
Definition set_fdt (t : fdtab) s : vst D :=
  mk_vst (mounts s) (gen s) (cwd s) (oom s) (garbage s) (fdmem s) t (euid s) (egid s) (dev s).

(** Does the next [malloc] succeed? *)
Definition malloc : MV bool := fun s =>
  match oom s with
  | [] => Done s true
  | b :: o => Done (set_oom o s) (negb b)
  end.

(** ** Driver calls *)

Definition run_dev {A} (m : M D A) : MV A := fun s =>
  match m (dev s) with
  | Done d a => Done (set_dev d s) a
  | Fault => Fault
  end.

Definition slot_at (i : nat) : MV (slot D) := fun s =>
  match mounts s !! i with Some m => Done s m | None => Fault end.

(** [mnt->ops->f(mnt, ...)] *)
Definition call {A} (i : nat) (f : vfsops_t D -> vfs_t -> M D A) : MV A :=
  m ← slot_at i;
  ops ← deref (s_ops m);
  run_dev (f ops (s_vfs m)).

Definition fs_lookup (i : nat) (dino : Z) (name : list Z) : MV Z :=
  call i (fun o v => op_lookup o v (u32 dino) name).
Definition fs_getino (i : nat) (ino : Z) : MV (Z * option vinode_t) :=
  call i (fun o v => op_getino o v (u32 ino)).
Definition fs_mklink (i : nat) (ino mode dino : Z) (name : list Z) : MV Z :=
  call i (fun o v => op_mklink o v (u32 ino) (u16 mode) (u32 dino) name).
Definition fs_rmlink (i : nat) (dino : Z) (name : list Z) : MV Z :=
  call i (fun o v => op_rmlink o v (u32 dino) name).
Definition fs_rmino (i : nat) (ino : Z) : MV Z := call i (fun o v => op_rmino o v (u32 ino)).
Definition fs_trunc (i : nat) (ino : Z) : MV Z := call i (fun o v => op_trunc o v (u32 ino)).
Definition fs_mkino (i : nat) (mode uid gid : Z) : MV Z :=
  call i (fun o v => op_mkino o v (u16 mode) uid gid).

(** [if ((ret = getino(..)) < 0) return ret;], the inode on success. *)
Definition with_inode (i : nat) (ino : Z) (k : vinode_t -> MV Z) : MV Z :=
  '(ret, o) ← fs_getino i ino;
  if ret <? 0 then mret ret else n ← deref o; k n.

(** ** Path resolution *)

(** The stack after a link: the old items move up by the number of target
    components, the target's components take the bottom; [cnt] stays. *)
Definition expand (items : list (option ptr)) (ocnt : nat) (tgt : list nat) : list (option ptr) :=
  let t := length tgt in
  let moved := imap (fun j x => if (t <=? j)%nat && (j <? t + ocnt)%nat
                                then default None (items !! (j - t)%nat) else x) items in
  imap (fun j x => if (j <? t)%nat then
                     match tgt !! (t - 1 - j)%nat with Some off => Some (true, off) | None => x end
                   else x) moved.

(** The main loop, by recursion on [stk->cnt], which only shrinks. *)
Fixpoint resolve_loop (cnt : nat) (items : list (option ptr)) (pbuf lnkbuf : list Z)
  (mnt : nat) (flags ino symlnks depth dcnt : Z) {struct cnt} : MV Z :=
  match cnt with
  | O =>
      if flag flags VFS_MUST_BE_DIR then
        '(ret, o) ← fs_getino mnt ino;
        if s32 ret <? 0 then mret (s32 ret)
        else n ← deref o;
             if negb (S_TYPE (i_mode n) =? S_IFDIR) then mret (- ENOTDIR) else mret ino
      else mret ino
  | S cnt' =>
      comp ← deref (str_of pbuf lnkbuf (default None (items !! cnt')));
      if decide (comp = [DOT]) then
        resolve_loop cnt' items pbuf lnkbuf mnt flags ino symlnks depth dcnt
      else if decide (comp = [DOT; DOT]) then
        if depth =? 0 then
          m ← slot_at mnt;
          resolve_loop cnt' items pbuf lnkbuf mnt flags (v_root_ino (s_vfs m)) symlnks depth dcnt
        else
          ret ← fs_lookup mnt ino [DOT; DOT];
          if ret <? 0 then mret ret
          else resolve_loop cnt' items pbuf lnkbuf mnt flags (u32 ret) symlnks (depth - 1)
                 (if dcnt =? 0 then 0 else dcnt - 1)
      else
        ret ← fs_lookup mnt ino comp;
        if ret <? 0 then mret ret else
        let nxt := u32 ret in
        with_inode mnt nxt (fun inod =>
          if S_TYPE (i_mode inod) =? S_IFLNK then
            if flag flags VFS_NO_SYMLINKS then mret (- ELOOP)
            else if (cnt' =? 0)%nat && negb (flag flags VFS_FOLLOW_FINAL) then
              if flag flags VFS_MUST_BE_DIR then mret (- ENOTDIR) else mret nxt
            else if VFS_MAX_SYMLINKS <? symlnks + 1 then mret (- ELOOP)
            else
              '(ret2, lnk1) ← call mnt (fun o v => op_readsym o v nxt lnkbuf VFS_PATH_MAX);
              if ret2 <? 0 then mret ret2 else
              c0 ← deref (lnk1 !! 0%nat);
              m ← slot_at mnt;
              let abs := is_slash c0 in
              ok1 ← (if abs then malloc else mret true);
              if negb ok1 then mret (- ENOMEM) else
              ok2 ← malloc;
              if negb ok2 then mret (- ENOMEM) else
              t ← deref (tokenize (S (length lnk1)) lnk1 0 []);
              match t with
              | inl e => mret e
              | inr (lnk2, tgt) =>
                  if (STK_MAX <? cnt' + length tgt)%nat then mret (- ENAMETOOLONG)
                  else resolve_loop cnt' (expand items cnt' tgt) pbuf lnk2 mnt flags
                         (if abs then v_root_ino (s_vfs m) else ino) (symlnks + 1)
                         (if abs then 0 else depth) (if abs then 0 else dcnt)
              end
          else if Z.of_nat STK_MAX <=? dcnt then mret (- ENAMETOOLONG)
          else resolve_loop cnt' items pbuf lnkbuf mnt flags nxt symlnks (depth + 1) (dcnt + 1))
  end.

(** The mount's own path, when it is a prefix, and one slash are dropped. *)
Definition rel_path (mp path : list Z) : list Z :=
  if decide (mp `prefix_of` path) then
    let r := drop (length mp) path in
    match r with c :: r' => if is_slash c then r' else r | [] => r end
  else path.

Definition vfs_resolve (mnt : option nat) (path : list Z) (flags : Z) : MV Z :=
  match mnt, path with
  | None, _ => mret (- EINVAL)
  | _, [] => mret (- EINVAL)
  | Some i, _ =>
      a ← malloc; if negb a then mret (- ENOMEM) else
      b ← malloc; if negb b then mret (- ENOMEM) else
      c ← malloc; if negb c then mret (- ENOMEM) else
      m ← slot_at i;
      let rel := rel_path (v_path (s_vfs m)) path in
      if VFS_PATH_MAX <=? Z.of_nat (length rel) then mret (- ENAMETOOLONG) else
      d ← malloc; if negb d then mret (- ENOMEM) else
      t ← deref (tokenize (S (length rel)) (rel ++ [0]) 0 []);
      match t with
      | inl e => mret e
      | inr (pbuf, offs) =>
          e ← malloc; if negb e then mret (- ENOMEM) else
          g ← gets garbage;
          let items := map (fun o => Some (false, o)) (rev offs) ++ replicate (STK_MAX - length offs) None in
          resolve_loop (length offs) items pbuf g i flags (v_root_ino (s_vfs m)) 0 0 0
      end
  end.

(** ** Paths and mounts *)

Definition vfs_init : MV Z :=
  ok ← malloc;
  if negb ok then mret (- ENOMEM) else
  _ ← modify (fun s => set_mounts (replicate 16 (mk_slot (mk_vfs [] 0 0 0 0) None false)) (gen s + 1) s);
  _ ← modify (set_cwd [SLASH]);
  mret 0.

(** [if ((ret = vfs_abspath(path, abs, 1024)) < 0) return ret;] *)
Definition with_abs (path : list Z) (k : list Z -> MV Z) : MV Z :=
  c ← gets cwd;
  r ← deref (vfs_abspath c path 1024);
  let '(ret, abs) := r in
  if ret <? 0 then mret ret else k abs.

Definition vfs_getmnt (path : list Z) : MV (option nat) :=
  c ← gets cwd;
  r ← deref (vfs_abspath c path 1024);
  let '(ret, abs) := r in
  if ret <? 0 then mret None
  else gets (fun s => getmnt (map (fun m => (s_inuse m, v_path (s_vfs m))) (mounts s)) abs).

(** The mount array moves when it grows: pointers of the old generation are
    stale. *)
Definition vfs_findfreemnt : MV Z :=
  ms ← gets mounts;
  match list_find (fun m => s_inuse m = false) ms with
  | Some (i, _) => mret (Z.of_nat i)
  | None =>
      ok ← malloc;
      if negb ok then mret (- ENOMEM) else
      _ ← modify (fun s =>
            set_mounts (mounts s ++ replicate 4 (mk_slot (mk_vfs [] 0 0 0 0) None false)) (gen s + 1) s);
      ms' ← gets mounts;
      mret (Z.of_nat (length ms') - 3)
  end.

(** A mount used through a possibly NULL pointer. *)
Definition mnt_deref (mnt : option nat) : MV nat := deref mnt.

(** [if ((ret = vfs_dirname(..)) < 0) return ret;] and the like: the error [e]
    of a result that is a string. *)
Definition with_str (r : Z * list Z) (e : Z -> Z) (k : list Z -> MV Z) : MV Z :=
  if r.1 <? 0 then mret (e r.1) else k r.2.

(** Shared by [vfs_basecreat] and [mknod]; [mk] makes the inode. *)
Definition create_with (path : list Z) (mode : Z) (mk : nat -> MV Z) : MV (Z * Z) :=
  c ← gets cwd;
  r ← deref (vfs_abspath c path 1024);
  let '(ret, abs) := r in
  if ret <? 0 then mret (ret, 0) else
  let d := vfs_dirname abs 1024 in
  if d.1 <? 0 then mret (d.1, 0) else
  let b := vfs_basename abs 1024 in
  if b.1 <? 0 then mret (-1, 0) else
  mnt ← vfs_getmnt abs;
  dino ← vfs_resolve mnt d.2 VFS_FOLLOW_FINAL;
  if dino <? 0 then mret (s32 dino, 0) else
  fino ← vfs_resolve mnt abs VFS_FOLLOW_FINAL;
  if 0 <=? fino then mret (- EEXISTS, 0) else
  i ← mnt_deref mnt;
  ino ← mk i;
  if ino <? 0 then mret (s32 ino, 0) else
  ret ← fs_mklink i ino mode dino b.2;
  if s32 ret <? 0 then mret (s32 ret, 0) else mret (0, ino).

(** Result and the inode stored through [inop]. *)
Definition vfs_basecreat (path : list Z) (mode : Z) : MV (Z * Z) :=
  create_with path mode (fun i => s ← get; fs_mkino i mode (euid s) (egid s)).

Definition vfs_getdino (mnt : option nat) (path : list Z) : MV Z :=
  with_str (vfs_dirname path 1024) id (fun dir =>
    vfs_resolve mnt dir (VFS_MUST_BE_DIR + VFS_FOLLOW_FINAL)).

Definition vfs_baseunlink (mnt : option nat) (ino : Z) (path : list Z) : MV Z :=
  check dino := vfs_getdino mnt path in
  with_str (vfs_basename path 1024) id (fun base =>
    i ← mnt_deref mnt;
    with_inode i ino (fun inod =>
      if 1 <? i_lnkcnt inod then
        ret ← fs_rmlink i dino base;
        if s32 ret <? 0 then mret (s32 ret) else mret 0
      else
        ret ← fs_rmlink i dino base;
        if s32 ret <? 0 then mret (s32 ret) else
        ret2 ← fs_rmino i ino;
        if s32 ret2 <? 0 then mret (s32 ret2) else mret 0)).

(** ** Mounting *)

(** The file systems of [availfs]: index, name, needs no block device. *)
Definition availfs : list (list Z * bool) :=
  [([101; 120; 116; 50], false); ([114; 97; 109; 102; 115], true);
   ([105; 110; 105; 116; 114; 97; 109; 102; 115], true)].

(** The last entry with the name wins, as in the loop. *)
Definition find_fs (type : list Z) : option (nat * bool) :=
  foldl (fun acc '(i, (id, noblk)) => if decide (type = id) then Some (i, noblk) else acc) None
    (imap pair availfs).

Definition upd_slot (i : nat) (f : slot D -> slot D) : MV unit :=
  m ← slot_at i;
  modify (fun s => set_mounts (<[i := f m]> (mounts s)) (gen s) s).

(** [getdev]: [block_getdevnam], result and device id; [dev0]: the id of
    [block_getdevs()[0]], absent when there is no device; [fsmount]: the
    [mount] entry of a file system, with the fields it fills in. *)
Definition mount (getdev : list Z -> Z * Z) (dev0 : option Z)
  (fsmount : nat -> vfs_t -> M D (Z * vfs_t * option (vfsops_t D)))
  (dev : option (list Z)) (path type : list Z) : MV Z :=
  with_abs path (fun abs =>
    mntid ← vfs_findfreemnt;
    if mntid <? 0 then mret (s32 mntid) else
    match find_fs type with
    | None => mret (- EINVAL)
    | Some (fs, noblk) =>
        let i := Z.to_nat mntid in
        _ ← upd_slot i (fun m => mk_slot (s_vfs m) (s_ops m) true);
        let start (blk : option Z) : MV Z :=
          _ ← upd_slot i (fun m =>
                let v := s_vfs m in
                mk_slot (mk_vfs abs (v_root_ino v) (default (v_blkid v) blk) mntid (v_priv v))
                  (s_ops m) true);
          m ← slot_at i;
          '(ret, v, ops) ← run_dev (fsmount fs (s_vfs m));
          if ret <? 0 then
            _ ← upd_slot i (fun _ => mk_slot (mk_vfs [] (v_root_ino v) 0 0 (v_priv v)) ops false);
            mret ret
          else
            _ ← upd_slot i (fun _ => mk_slot v ops true);
            mret 0 in
        if noblk then start None
        else
          match dev with
          | Some name =>
              let '(ret, id) := getdev name in
              if ret <? 0 then
                _ ← upd_slot i (fun m => mk_slot (s_vfs m) (s_ops m) false);
                mret ret
              else start (Some id)
          | None => id ← deref dev0; start (Some id)
          end
    end).

Definition umount (path : list Z) : MV Z :=
  mnt ← vfs_getmnt path;
  i ← mnt_deref mnt;
  _ ← call i (fun o v => op_umount o v);
  _ ← upd_slot i (fun m => mk_slot (mk_vfs [] (v_root_ino (s_vfs m)) 0 0 0) None false);
  mret 0.

(** ** Creating *)

Definition mknod (path : list Z) (rdev mode : Z) : MV Z :=
  '(ret, _) ← create_with path mode (fun i =>
     s ← get; call i (fun o v => op_mknod o v (u16 mode) (euid s) (egid s) rdev));
  mret ret.

Definition creat (path : list Z) (mode : Z) : MV Z :=
  '(ret, _) ← vfs_basecreat path (Z.lor mode S_IFREG);
  mret ret.

(** ** Descriptors *)

(** Outcome of the next descriptor table allocation. *)
Definition next_fdmem : MV (option (list fdinfo)) := fun s =>
  match fdmem s with
  | [] => Done s (Some [])
  | o :: r => Done (set_fdmem r s) o
  end.

(** [getnewfd(&info)]; the descriptor, or [None] for NULL. *)
Definition newfd (d : fddata) : MV (option Z) :=
  a1 ← next_fdmem;
  a2 ← next_fdmem;
  t ← gets fdt;
  r ← deref (getnewfd t (mk_fd 0 false d) a1 a2);
  let '(t', i) := r in
  _ ← modify (set_fdt t');
  mret (option_map Z.of_nat i).

(** [if ((ret = getfd(fd, &info)) < 0) return ret;] *)
Definition with_fd (d : Z) (k : fdinfo -> MV Z) : MV Z :=
  t ← gets fdt;
  r ← deref (getfd t d);
  match r with inl e => mret e | inr info => k info end.

Definition close_fd (d : Z) : MV Z :=
  t ← gets fdt;
  r ← deref (closefd t d);
  let '(t', ret) := r in
  _ ← modify (set_fdt t');
  mret ret.

Definition set_data (d : Z) (x : fddata) : MV unit :=
  t ← gets fdt;
  r ← deref (getfd t d);
  match r with
  | inl _ => fault
  | inr info =>
      t' ← deref (setfd t d (mk_fd (fd info) (inuse info) x));
      modify (set_fdt t')
  end.

(** The mount a file points to; a pointer of an old generation is stale. *)
Definition file_mnt (f : file) : MV nat :=
  g ← gets gen;
  if (f_mnt f).1 =? g then mret (f_mnt f).2 else fault.

Definition open (path : list Z) (flags mode0 : Z) : MV Z :=
  let mode := if flag flags O_CREAT then Z.lor mode0 S_IFREG else mode0 in
  with_abs path (fun abs =>
    mnt ← vfs_getmnt abs;
    ino0 ← vfs_resolve mnt abs VFS_FOLLOW_FINAL;
    (* the inode, or the value to return *)
    r ← (if ino0 =? - ENOENT then
           if flag flags O_CREAT then
             '(ret, ino) ← vfs_basecreat abs (Z.lor mode S_IFREG);
             if ret <? 0 then mret (inl ret) else mret (inr ino)
           else mret (inl (- ENOENT))
         else if ino0 <? 0 then mret (inl (s32 ino0))
         else mret (inr ino0));
    match (r : Z + Z) with
    | inl e => mret e
    | inr ino =>
        i ← mnt_deref mnt;
        with_inode i ino (fun inod =>
          if (S_TYPE (i_mode inod) =? S_IFBLK) || (S_TYPE (i_mode inod) =? S_IFCHR) then
            n ← newfd (FDTYPE_DEV (i_mode inod) (u16 (i_rdev inod)));
            match n with None => mret (- ENOMEM) | Some d => mret d end
          else
            g ← gets gen;
            let pos := if flag flags O_APPEND then i_size inod else 0 in
            n ← newfd (FDTYPE_FILE (mk_file (g, i) inod ino pos 0 []));
            match n with
            | None => mret (- ENOMEM)
            | Some d =>
                if flag flags O_TRUNC then
                  ret ← fs_trunc i ino;
                  if s32 ret <? 0 then _ ← close_fd d; mret (s32 ret)
                  else
                    _ ← set_data d (FDTYPE_FILE (mk_file (g, i)
                          (mk_vinode (i_mode inod) (i_uid inod) (i_atime inod) (i_ctime inod) (i_mtime inod)
                             (i_rdev inod) (i_gid inod) (i_lnkcnt inod) 0 (i_priv inod)) ino pos 0 []));
                    mret d
                else mret d
            end)
    end).

(** The file of a descriptor; [fsread] and [fswrite] do not look at the type. *)
Definition file_of (x : fddata) : option file :=
  match x with FDTYPE_FILE f | FDTYPE_DIR f => Some f | _ => None end.

Definition with_pos (f : file) (pos : Z) : file :=
  mk_file (f_mnt f) (f_inod f) (f_ino f) pos (f_mnt_pos f) (f_path f).
Definition with_size (f : file) (size mode : Z) : file :=
  let n := f_inod f in
  mk_file (f_mnt f)
    (mk_vinode mode (i_uid n) (i_atime n) (i_ctime n) (i_mtime n) (i_rdev n) (i_gid n)
       (i_lnkcnt n) size (i_priv n))
    (f_ino f) (f_pos f) (f_mnt_pos f) (f_path f).

Definition refile (x : fddata) (f : file) : fddata :=
  match x with FDTYPE_DIR _ => FDTYPE_DIR f | _ => FDTYPE_FILE f end.

(** Result and the bytes stored in the buffer. *)
Definition fsread (d sz : Z) : MV (Z * list Z) :=
  t ← gets fdt;
  r ← deref (getfd t d);
  match r with
  | inl e => mret (e, [])
  | inr info =>
      f ← deref (file_of (data info));
      i ← file_mnt f;
      '(nread, b) ← call i (fun o v => op_read o v (u32 (f_ino f)) (f_pos f) sz);
      if nread <? 0 then mret (nread, b)
      else
        _ ← set_data d (refile (data info) (with_pos f (u64 (f_pos f + nread))));
        mret (nread, b)
  end.

(** Position and cached size after [n] bytes were written. *)
Definition advance (f : file) (n : Z) : file :=
  let pos := u64 (f_pos f + n) in
  let f1 := with_pos f pos in
  if i_size (f_inod f) <? pos then with_size f1 pos (i_mode (f_inod f)) else f1.

Definition fswrite (d : Z) (buf : list Z) : MV Z :=
  with_fd d (fun info =>
    f ← deref (file_of (data info));
    i ← file_mnt f;
    n ← call i (fun o v => op_write o v (u32 (f_ino f)) (f_pos f) buf);
    if n <? 0 then mret n
    else _ ← set_data d (refile (data info) (advance f n)); mret n).

(** The new position, or an error, from the cached size and position. *)
Definition seek (size pos off whence : Z) : Z + Z :=
  let size := s64 size in
  let pos := s64 pos in
  let far (b : Z) := (0 <? off) && (s64 (u64 (0x7FFFFFFFFFFFFFFF - u64 off)) <? b) in
  if whence =? SEEK_SET then if off <? 0 then inl (- EINVAL) else inr off
  else if whence =? SEEK_CUR then
    if (off <? 0) && (pos + off <? 0) then inl (- EINVAL)
    else if far pos then inl (- ERANGE) else inr (pos + off)
  else if whence =? SEEK_END then
    if (off <? 0) && (size + off <? 0) then inl (- EINVAL)
    else if far size then inl (- ERANGE) else inr (size + off)
  else inl (- EINVAL).

Definition lseek (d off whence : Z) : MV Z :=
  with_fd d (fun info =>
    match data info with
    | FDTYPE_FILE f =>
        i ← file_mnt f;
        '(ret, o) ← fs_getino i (f_ino f);
        f1 ← (if ret =? 0 then n ← deref o; mret (with_size f (i_size n) (i_mode n)) else mret f);
        _ ← set_data d (FDTYPE_FILE f1);
        match seek (i_size (f_inod f1)) (f_pos f1) off whence with
        | inl e => mret e
        | inr npos => _ ← set_data d (FDTYPE_FILE (with_pos f1 (u64 npos))); mret npos
        end
    | _ => mret (- EBADF)
    end).

Definition trunc (d : Z) : MV Z :=
  with_fd d (fun info =>
    match data info with
    | FDTYPE_FILE f =>
        i ← file_mnt f;
        ret ← fs_trunc i (f_ino f);
        if s32 ret <? 0 then mret (s32 ret)
        else
          _ ← set_data d (FDTYPE_FILE (with_pos (with_size f 0 (i_mode (f_inod f))) 0));
          mret 0
    | _ => mret (- EBADF)
    end).

Definition sync (d : Z) : MV Z := mret 0.

(** ** Directories *)

Definition opendir (path : list Z) : MV Z :=
  with_abs path (fun abs =>
    mnt ← vfs_getmnt abs;
    check ino := vfs_resolve mnt abs (VFS_FOLLOW_FINAL + VFS_MUST_BE_DIR) in
    i ← mnt_deref mnt;
    with_inode i ino (fun inod =>
      if negb (S_TYPE (i_mode inod) =? S_IFDIR) then mret (- ENOTDIR)
      else
        g ← gets gen;
        n ← newfd (FDTYPE_DIR (mk_file (g, i) inod ino 0 0 abs));
        match n with None => mret (- ENOMEM) | Some d => mret d end)).

Definition closedir (d : Z) : MV Z := close_fd d.

(** A directory entry that is a mount point shows the mounted root. *)
Fixpoint over_mount (k : nat) (ms : list (slot D)) (child : list Z) (inod : vinode_t) (fsino : Z)
  : MV (vinode_t * Z) :=
  match ms with
  | [] => mret (inod, fsino)
  | m :: rest =>
      if s_inuse m && bool_decide (v_path (s_vfs m) = child) then
        match s_ops m with
        | None => mret (inod, fsino)
        | Some _ =>
            '(ret, o) ← fs_getino k (v_root_ino (s_vfs m));
            if 0 <=? ret then n ← deref o; mret (n, v_root_ino (s_vfs m)) else mret (inod, fsino)
        end
      else over_mount (S k) rest child inod fsino
  end.

(** Parent directory and name of a mount point, when both fit. *)
Definition mnt_parts (mp : list Z) : option (list Z * list Z) :=
  let p := vfs_dirname mp 1024 in
  let b := vfs_basename mp 1024 in
  if (p.1 <? 0) || (b.1 <? 0) then None else Some (p.2, b.2).

(** An earlier mount in the same directory under the same name. *)
Definition dup_mount (before : list (slot D)) (dir name : list Z) : bool :=
  existsb (fun m => s_inuse m && bool_decide (mnt_parts (v_path (s_vfs m)) = Some (dir, name))) before.

(** Mount points in this directory that the directory itself lacks, from
    [mnt_pos] on: result, position and entry. *)
Fixpoint mnt_entries (fuel : nat) (f : file) (i : nat) (k : nat) : MV (Z * option stat_t) :=
  match fuel with
  | O => mret (Z.of_nat k, None)
  | S fuel' =>
      m ← slot_at k;
      if negb (s_inuse m) || bool_decide (v_path (s_vfs m) = [SLASH]) then mnt_entries fuel' f i (S k) else
      match mnt_parts (v_path (s_vfs m)) with
      | None => mnt_entries fuel' f i (S k)
      | Some (parent, child) =>
          if negb (bool_decide (parent = f_path f)) then mnt_entries fuel' f i (S k) else
          l ← fs_lookup i (f_ino f) child;
          if 0 <=? l then mnt_entries fuel' f i (S k) else
          ms ← gets mounts;
          if dup_mount (take k ms) (f_path f) child then mnt_entries fuel' f i (S k) else
          n ← match s_ops m with
              | None => mret zero_vinode
              | Some _ =>
                  '(_, o) ← fs_getino k (v_root_ino (s_vfs m));
                  mret (default zero_vinode o)
              end;
          let mode := if i_mode n =? 0 then Z.lor S_IFDIR 493 else i_mode n in
          mret (Z.of_nat (S k), Some (stat_of child n mode (v_root_ino (s_vfs m))))
      end
  end.

Definition readdir (d : Z) : MV (Z * option stat_t) :=
  t ← gets fdt;
  r ← deref (getfd t d);
  match r with
  | inl e => mret (e, None)
  | inr info =>
      match data info with
      | FDTYPE_DIR f =>
          i ← file_mnt f;
          '(fsino, pos, out) ← call i (fun o v => op_readdir o v (u32 (f_ino f)) (f_pos f) 1024);
          let f1 := with_pos f pos in
          _ ← set_data d (FDTYPE_DIR f1);
          if 0 <=? fsino then
            nm ← deref out;
            let '(name, inod) := nm in
            let child := take 1023 (if decide (f_path f = [SLASH]) then SLASH :: name
                                    else f_path f ++ SLASH :: name) in
            ms ← gets mounts;
            '(n, ino) ← over_mount 0 ms child inod fsino;
            mret (0, Some (stat_of name n (i_mode n) ino))
          else
            ms ← gets mounts;
            let k := Z.to_nat (f_mnt_pos f) in
            '(mpos, out2) ← mnt_entries (length ms - k) f1 i k;
            _ ← set_data d (FDTYPE_DIR (mk_file (f_mnt f1) (f_inod f1) (f_ino f1) (f_pos f1)
                              (if (k <? length ms)%nat then mpos else f_mnt_pos f) (f_path f1)));
            match out2 with
            | Some st => mret (0, Some st)
            | None => mret (-1, None)
            end
      | _ => mret (- ENOTDIR, None)
      end
  end.

Definition stat (path : list Z) : MV (Z * option stat_t) :=
  c ← gets cwd;
  r ← deref (vfs_abspath c path 1024);
  let '(ret, abs) := r in
  if ret <? 0 then mret (ret, None) else
  let b := vfs_basename abs 1024 in
  if b.1 <? 0 then mret (-1, None) else
  mnt ← vfs_getmnt abs;
  ino ← vfs_resolve mnt abs VFS_FOLLOW_FINAL;
  if ino <? 0 then mret (s32 ino, None) else
  i ← mnt_deref mnt;
  '(ret, o) ← fs_getino i ino;
  if s32 ret <? 0 then mret (s32 ret, None) else
  n ← deref o;
  mret (0, Some (stat_of b.2 n (i_mode n) ino)).

(** ** Removing and renaming

    [unlink] and [rmdir] keep the resolved inode in [ret] and go on with [ino],
    which is still zero. *)

Definition unlink (path : list Z) : MV Z :=
  with_abs path (fun abs =>
    mnt ← vfs_getmnt abs;
    let ino := 0 in
    ret ← vfs_resolve mnt abs VFS_FOLLOW_FINAL;
    if s32 ret <? 0 then mret (s32 ret) else
    i ← mnt_deref mnt;
    with_inode i ino (fun inod =>
      if S_TYPE (i_mode inod) =? S_IFDIR then mret (- EISDIR)
      else vfs_baseunlink mnt ino abs)).

(** [while ((ret = readdir(..)) >= 0)] over entries; [true] when one is neither
    "." nor "..".  [None]: more entries than the fuel. *)
Fixpoint rmdir_scan (fuel : nat) (i : nat) (ino pos : Z) : MV bool :=
  match fuel with
  | O => fault
  | S fuel' =>
      '(ret, pos', out) ← call i (fun o v => op_readdir o v (u32 ino) pos 1024);
      if s32 ret <? 0 then mret false else
      nm ← deref out;
      if decide (nm.1 = [DOT]) then rmdir_scan fuel' i ino pos'
      else if decide (nm.1 = [DOT; DOT]) then rmdir_scan fuel' i ino pos'
      else mret true
  end.

Definition rmdir (fuel : nat) (path : list Z) : MV Z :=
  with_abs path (fun abs =>
    mnt ← vfs_getmnt abs;
    let ino := 0 in
    ret ← vfs_resolve mnt abs (VFS_FOLLOW_FINAL + VFS_MUST_BE_DIR);
    if s32 ret <? 0 then mret (s32 ret) else
    i ← mnt_deref mnt;
    busy ← rmdir_scan fuel i ino 0;
    if busy : bool then mret (- ENOTEMPTY) else
    _ ← fs_rmlink i ino [DOT];
    _ ← fs_rmlink i ino [DOT; DOT];
    vfs_baseunlink mnt ino path).

Definition rename (oname nname : list Z) : MV Z :=
  with_abs oname (fun oabs =>
  with_abs nname (fun nabs =>
    with_str (vfs_basename nabs 1024) id (fun nbase =>
    with_str (vfs_basename oabs 1024) id (fun obase =>
      omnt ← vfs_getmnt oabs;
      nmnt ← vfs_getmnt nabs;
      oi ← mnt_deref omnt;
      ni ← mnt_deref nmnt;
      om ← slot_at oi;
      nm ← slot_at ni;
      if negb (v_mntno (s_vfs om) =? v_mntno (s_vfs nm)) then mret (- EINVAL) else
      check ino := vfs_resolve omnt oabs VFS_FOLLOW_FINAL in
      with_inode oi ino (fun inode =>
        check odino := vfs_getdino nmnt nname in
        check ndino := vfs_getdino nmnt nname in
        ret ← fs_mklink ni ino (i_mode inode) ndino nbase;
        if s32 ret <? 0 then mret (-1) else fs_rmlink oi odino obase))))).

Definition mkdir (fuel : nat) (path : list Z) (mode : Z) : MV Z :=
  with_abs path (fun abs =>
    mnt ← vfs_getmnt path;
    dino ← vfs_getdino mnt abs;
    i ← mnt_deref mnt;
    with_inode i dino (fun dinod =>
      '(ret, ino) ← vfs_basecreat path (Z.lor mode S_IFDIR);
      if ret <? 0 then mret ret else
      ret1 ← fs_mklink i ino (Z.lor mode S_IFDIR) ino [DOT];
      if s32 ret1 <? 0 then _ ← rmdir fuel path; mret (s32 ret1) else
      ret2 ← fs_mklink i dino (i_mode dinod) ino [DOT; DOT];
      if s32 ret2 <? 0 then _ ← rmdir fuel path; mret (s32 ret2) else mret 0)).

Definition symlink (path target : list Z) (mode : Z) : MV Z :=
  with_abs path (fun abs =>
  with_abs target (fun abst =>
    with_str (vfs_basename path 1024) id (fun base =>
      mnt ← vfs_getmnt path;
      dino ← vfs_getdino mnt abs;
      i ← mnt_deref mnt;
      s ← get;
      ino ← call i (fun o v => op_symlink o v (u16 (Z.lor mode S_IFLNK)) (euid s) (egid s) abst);
      if ino <? 0 then mret (s32 ino) else
      ret ← fs_mklink i ino (Z.lor mode S_IFLNK) dino base;
      if s32 ret <? 0 then _ ← fs_rmino i ino; mret (s32 ret) else mret 0))).

Definition chdir (path : list Z) : MV Z :=
  with_abs path (fun abs => _ ← modify (set_cwd abs); mret 0).

(** Result and the string stored in the buffer. *)
Definition getcwd (len : Z) : MV (Z * list Z) :=
  c ← gets cwd;
  if len <? Z.of_nat (length c) + 1 then mret (- ETOOSMALL, []) else mret (0, c).

Definition canonicalize (path : list Z) (outlen : Z) : MV (Z * list Z) :=
  c ← gets cwd;
  deref (vfs_abspath c path outlen).

(** ** Calls on descriptors of any type

    [free_fb], [free_fbw]: release of a framebuffer; [io_read], [io_write]: the
    console; [dev_read], [dev_write]: the device registry. *)

Definition close (free_fb free_fbw : Z -> MV Z) (d : Z) : MV Z :=
  with_fd d (fun info =>
    match data info with
    | FDTYPE_FILE _ | FDTYPE_DEV _ _ | FDTYPE_DIR _ => close_fd d
    | FDTYPE_SOCK _ => mret (- EINVAL)
    | FDTYPE_FB _ => free_fb d
    | FDTYPE_FBW _ => free_fbw d
    | FDTYPE_IO _ _ _ | FDTYPE_OTHER _ => close_fd d
    end).

Definition read (io_read : Z -> Z -> MV (Z * list Z)) (dev_read : Z -> Z -> MV (Z * list Z))
  (d size : Z) : MV (Z * list Z) :=
  t ← gets fdt;
  r ← deref (getfd t d);
  match r with
  | inl e => mret (e, [])
  | inr info =>
      match data info with
      | FDTYPE_FILE _ => fsread d size
      | FDTYPE_IO i _ h => if i : bool then io_read h size else mret (- EBADF, [])
      | FDTYPE_DEV _ _ => dev_read d size
      | _ => mret (- EINVAL, [])
      end
  end.

Definition write (io_write : Z -> list Z -> MV Z) (dev_write : Z -> list Z -> MV Z)
  (d : Z) (buf : list Z) : MV Z :=
  with_fd d (fun info =>
    match data info with
    | FDTYPE_FILE _ => fswrite d buf
    | FDTYPE_IO _ o h => if o : bool then io_write h buf else mret (- EBADF)
    | FDTYPE_DEV _ _ => dev_write d buf
    | _ => mret (- EINVAL)
    end).

End vfs.

(** ** Seeking *)

Lemma s64_small z : - 2 ^ 63 <= z < 2 ^ 63 -> s64 z = z.
Proof.
  intros Hz. unfold sext. destruct (Z.lt_ge_cases z 0).
  - assert (z mod 2 ^ 64 = z + 2 ^ 64) as ->.
    { symmetry. apply Z.mod_unique with (-1); lia. }
    rewrite (proj2 (Z.ltb_ge _ _)) by (simpl; lia). lia.
  - rewrite Z.mod_small by lia. by rewrite (proj2 (Z.ltb_lt _ _)) by (simpl; lia).
Qed.

(** [lseek] computes the position exactly or refuses: for a size and
    position below 2^63, the new position is the start, the current position or
    the end plus the offset, it is never negative and never beyond the largest
    signed 64-bit value, and a refusal happens only when that sum is out of this
    range or the origin is unknown. *)
Theorem seek_exact size pos off whence :
  0 <= size < 2 ^ 63 -> 0 <= pos < 2 ^ 63 -> - 2 ^ 63 <= off < 2 ^ 63 ->
  let base := if whence =? SEEK_SET then Some 0 else if whence =? SEEK_CUR then Some pos
              else if whence =? SEEK_END then Some size else None in
  match seek size pos off whence with
  | inr n => base = Some (n - off) /\ 0 <= n < 2 ^ 63
  | inl e => (e = - EINVAL /\ (base = None \/ exists b, base = Some b /\ b + off < 0)) \/
             (e = - ERANGE /\ exists b, base = Some b /\ 2 ^ 63 <= b + off)
  end.
Proof.
  intros Hs Hp Ho base. unfold seek.
  assert (s64 size = size /\ s64 pos = pos) as [-> ->] by (split; apply s64_small; lia).
  assert (forall b, 0 <= b < 2 ^ 63 ->
    (0 <? off) && (s64 (u64 (0x7FFFFFFFFFFFFFFF - u64 off)) <? b) = (2 ^ 63 <=? b + off)) as Hfar.
  { intros b Hb. destruct (Z.ltb_spec 0 off).
    - rewrite (wrap_small 64 off), (wrap_small 64 (_ - off)), s64_small by lia.
      destruct (Z.ltb_spec (0x7FFFFFFFFFFFFFFF - off) b), (Z.leb_spec (2 ^ 63) (b + off)); simpl; lia.
    - simpl. symmetry. apply Z.leb_gt. lia. }
  unfold base. destruct (whence =? SEEK_SET).
  { destruct (Z.ltb_spec off 0); [left; eauto 10 with lia|split; [f_equal|]; lia]. }
  destruct (whence =? SEEK_CUR); [|destruct (whence =? SEEK_END)]; [| |left; auto].
  - rewrite Hfar by lia. split_if; to_prop; [left; eauto 10|].
    split_if; to_prop; [right; eauto|]. split; [f_equal|]; lia.
  - rewrite Hfar by lia. split_if; to_prop; [left; eauto 10|].
    split_if; to_prop; [right; eauto|]. split; [f_equal|]; lia.
Qed.

Lemma seek_exact_witness :
  exists n, seek 100 10 5 SEEK_END = inr n /\ Some 100 = Some (n - 5) /\ 0 <= n < 2 ^ 63.
Proof.
  exists 105. split; [vm_compute; reflexivity|].
  exact (seek_exact 100 10 5 SEEK_END ltac:(lia) ltac:(lia) ltac:(lia)).
Defined.

(** ** File data through a descriptor *)

Section data.
Context {D : Type} (ops : vfsops_t D) (v : vfs_t) {laws : file_laws ops v}.
Implicit Types (s : vst D).

(** Descriptor [d] is open on [f], whose mount carries the driver [ops]. *)
Definition fd_open s (d : Z) (f : file) : Prop :=
  tab_ok (fdt s) /\
  (exists k u, getfd (fdt s) d = Some (inr (mk_fd k u (FDTYPE_FILE f)))) /\
  exists i, f_mnt f = (gen s, i) /\ mounts s !! i = Some (mk_slot v (Some ops) true).

Lemma set_data_ok s d f f' :
  fd_open s d f -> f_mnt f' = f_mnt f ->
  exists t', set_data d (FDTYPE_FILE f') s = Done (set_fdt t' s) tt /\ fd_open (set_fdt t' s) d f'.
Proof.
  intros (Htab & (k & u & Hget) & Hmnt) Hf. unfold set_data.
  rewrite bind_gets, Hget, bind_deref. cbn [fd inuse]. pose proof Htab as [Hn Hl].
  destruct (fds (fdt s)) as [l|] eqn:El; [|done].
  pose proof Hget as Hget'. rewrite getfd_ok, El in Hget' by done.
  destruct (aget l d) as [e|] eqn:Ed; [|done].
  destruct (inuse e) eqn:Eu; [|done]. injection Hget' as He.
  pose proof (aget_bound _ _ _ Ed). unfold setfd. rewrite El. cbn [mbind option_bind].
  rewrite aset_in by lia. cbn [mbind option_bind deref].
  eexists. split; [done|].
  assert (tab_ok (mk_fdtab (Some (<[Z.to_nat d := mk_fd k u (FDTYPE_FILE f')]> l)) (nfds (fdt s)))) as Ht'.
  { split; simpl; [done|]. by rewrite length_insert. }
  split; [done|]. split.
  - exists k, u. rewrite getfd_ok by done. cbn [fds fdt set_fdt].
    rewrite aget_insert, decide_True by lia. cbn [inuse].
    rewrite He in Eu. cbn [inuse] in Eu. by rewrite Eu.
  - rewrite Hf. done.
Qed.

(** A driver call through the mount of an open file. *)
Lemma file_call s d f {A} (g : vfsops_t D -> vfs_t -> M D A) dv a :
  fd_open s d f -> g ops v (dev s) = Done dv a ->
  exists i, f_mnt f = (gen s, i) /\ file_mnt f s = Done s i /\ call i g s = Done (set_dev dv s) a.
Proof.
  intros (_ & _ & i & Hm & Hs) Hg. exists i. split; [done|]. split.
  - unfold file_mnt. rewrite bind_gets, Hm. cbn [fst snd]. by rewrite Z.eqb_refl.
  - unfold call. erewrite bind_done by (unfold slot_at; by rewrite Hs). cbn [s_ops s_vfs].
    rewrite bind_deref. unfold run_dev. by rewrite Hg.
Qed.

Lemma with_fd_ok s d f (k : fdinfo -> M (vst D) Z) :
  fd_open s d f -> exists j u, with_fd d k s = k (mk_fd j u (FDTYPE_FILE f)) s.
Proof.
  intros (_ & (j & u & Hget) & _). exists j, u. unfold with_fd. rewrite bind_gets, Hget. done.
Qed.

(** Writing at the position of an open file. *)
Lemma fswrite_ok s d f c off buf :
  fd_open s d f -> fs_ok (dev s) -> holds (dev s) (f_ino f) c ->
  0 <= f_ino f < 2 ^ 32 -> f_pos f = Z.of_nat off -> (off <= length c)%nat ->
  Z.of_nat (off + length buf) < 2 ^ 62 -> room (dev s) (f_ino f) (Z.of_nat (off + length buf)) ->
  exists s' n, fswrite d buf s = Done s' n /\ fs_ok (dev s') /\
    ((n < 0 /\ may_fail /\ holds (dev s') (f_ino f) c) \/
     (n = Z.of_nat (length buf) /\ holds (dev s') (f_ino f) (splice c buf off) /\
      exists f', fd_open s' d f' /\ f_ino f' = f_ino f /\ f_pos f' = Z.of_nat (off + length buf))).
Proof.
  intros Hopen Hok Hc Hino Hpos Hoff Hmax Hroom. unfold fswrite.
  destruct (law_write (dev s) (f_ino f) c off buf Hok Hc Hoff Hmax Hroom) as (dv & n & Ew & Hok' & Hn).
  destruct (file_call s d f (fun o v => op_write o v (u32 (f_ino f)) (f_pos f) buf) dv n Hopen)
    as (i & Hm & Em & Ec); [by rewrite wrap_small, Hpos by lia|].
  edestruct (with_fd_ok s d f) as (j & u & ->); [done|]. cbn [data file_of].
  rewrite bind_deref, (bind_done _ _ _ _ _ Em), (bind_done _ _ _ _ _ Ec).
  destruct Hn as [(Hneg & Hmay & Hsame)|(-> & Hnew & _)].
  - rewrite (proj2 (Z.ltb_lt n 0)) by done. eexists _, n. split; [done|]. split; [done|]. left.
    split; [done|]. split; [done|]. simpl. by apply Hsame.
  - rewrite (proj2 (Z.ltb_ge _ 0)) by lia.
    cbn [refile]. set (f1 := advance f (Z.of_nat (length buf))).
    assert (f_mnt f1 = f_mnt f /\ f_ino f1 = f_ino f /\ f_pos f1 = Z.of_nat (off + length buf)) as (Hf1 & Hi1 & Hp1).
    { unfold f1, advance. rewrite Hpos, wrap_small by lia. split_if; cbn; split_and!; try done; lia. }
    destruct (set_data_ok (set_dev dv s) d f f1 Hopen Hf1) as (t' & Es & Hopen').
    rewrite (bind_done _ _ _ _ _ Es). eexists _, _. split; [done|]. split; [done|]. right.
    split; [done|]. split; [done|]. exists f1. done.
Qed.

(** Going back to a position. *)
Lemma lseek_set_ok s d f c off :
  fd_open s d f -> fs_ok (dev s) -> holds (dev s) (f_ino f) c -> 0 <= f_ino f < 2 ^ 32 ->
  0 <= off < 2 ^ 63 ->
  exists s' f', lseek d off SEEK_SET s = Done s' off /\ dev s' = dev s /\
    fd_open s' d f' /\ f_ino f' = f_ino f /\ f_pos f' = off.
Proof.
  intros Hopen Hok Hc Hino Hoff. unfold lseek.
  destruct (law_getino (dev s) (f_ino f) c Hok Hc) as (nd & Eg & _).
  destruct (file_call s d f (fun o v => op_getino o v (u32 (f_ino f))) (dev s) (0, Some nd) Hopen)
    as (i & Hm & Em & Ec); [by rewrite wrap_small by lia|].
  edestruct (with_fd_ok s d f) as (j & u & ->); [done|]. cbn [data].
  rewrite (bind_done _ _ _ _ _ Em). unfold fs_getino. rewrite (bind_done _ _ _ _ _ Ec).
  cbn [Z.eqb]. set (f1 := with_size f (i_size nd) (i_mode nd)).
  rewrite (bind_done _ _ _ (set_dev (dev s) s) f1 eq_refl).
  destruct (set_data_ok (set_dev (dev s) s) d f f1 Hopen eq_refl) as (t1 & E1 & Hopen1).
  rewrite (bind_done _ _ _ _ _ E1). unfold seek. change (SEEK_SET =? SEEK_SET) with true. cbv iota.
  rewrite (proj2 (Z.ltb_ge off 0)) by lia.
  destruct (set_data_ok _ d f1 (with_pos f1 (u64 off)) Hopen1 eq_refl) as (t2 & E2 & Hopen2).
  rewrite (bind_done _ _ _ _ _ E2). eexists _, _. split; [done|]. split; [done|]. split; [exact Hopen2|].
  split; [done|]. cbn. apply wrap_small. lia.
Qed.

Lemma fsread_ok s d f c off nb :
  fd_open s d f -> fs_ok (dev s) -> holds (dev s) (f_ino f) c -> 0 <= f_ino f < 2 ^ 32 ->
  f_pos f = Z.of_nat off -> (off <= length c)%nat -> 0 <= nb < 2 ^ 62 ->
  exists s', fsread d nb s = Done s' (Z.of_nat (length (take (Z.to_nat nb) (drop off c))),
                                      take (Z.to_nat nb) (drop off c)) /\ dev s' = dev s /\
    exists f', fd_open s' d f' /\ f_ino f' = f_ino f /\ f_pos f' = u64 (Z.of_nat off + Z.of_nat (length (take (Z.to_nat nb) (drop off c)))).
Proof.
  intros Hopen Hok Hc Hino Hpos Hoff Hnb. unfold fsread.
  destruct (law_read (dev s) (f_ino f) c off nb Hok Hc Hoff ltac:(lia) ltac:(lia)) as (b & Er & ->).
  set (b := take (Z.to_nat nb) (drop off c)) in *.
  destruct (file_call s d f (fun o v => op_read o v (u32 (f_ino f)) (f_pos f) nb) (dev s)
    (Z.of_nat (length b), b) Hopen) as (i & Hm & Em & Ec); [by rewrite wrap_small, Hpos by lia|].
  pose proof Hopen as (_ & (j & u & Hget) & _).
  rewrite bind_gets, Hget, bind_deref. cbn [data file_of].
  rewrite bind_deref, (bind_done _ _ _ _ _ Em), (bind_done _ _ _ _ _ Ec).
  rewrite (proj2 (Z.ltb_ge _ 0)) by lia. cbn [refile].
  set (f1 := with_pos f _).
  destruct (set_data_ok (set_dev (dev s) s) d f f1 Hopen eq_refl) as (t1 & E1 & Ho1).
  rewrite (bind_done _ _ _ _ _ E1). eexists. split_and!; [done|done|]. exists f1. split_and!; [done|done|]. unfold f1. cbn. by rewrite Hpos.
Qed.

Lemma write_back s d f c off buf :
  fd_open s d f -> fs_ok (dev s) -> holds (dev s) (f_ino f) c ->
  0 <= f_ino f < 2 ^ 32 -> f_pos f = Z.of_nat off -> (off <= length c)%nat ->
  Z.of_nat (off + length buf) < 2 ^ 62 -> room (dev s) (f_ino f) (Z.of_nat (off + length buf)) ->
  exists s1 n, fswrite d buf s = Done s1 n /\
    ((n < 0 /\ may_fail) \/
     (n = Z.of_nat (length buf) /\
      exists s2 s3, lseek d (Z.of_nat off) SEEK_SET s1 = Done s2 (Z.of_nat off) /\
        fsread d n s2 = Done s3 (n, buf))).
Proof.
  intros Hopen Hok Hc Hino Hpos Hoff Hmax Hroom.
  destruct (fswrite_ok s d f c off buf Hopen Hok Hc Hino Hpos Hoff Hmax Hroom)
    as (s1 & n & Ew & Hok1 & [(? & ? & _)|(-> & Hc1 & f1 & Ho1 & Hi1 & Hp1)]); exists s1; [eauto|].
  exists (Z.of_nat (length buf)). split; [done|]. right. split; [done|].
  rewrite <- Hi1 in Hc1, Hino.
  destruct (lseek_set_ok s1 d f1 _ (Z.of_nat off) Ho1 Hok1 Hc1 Hino) as (s2 & f2 & El & Hd & Ho2 & Hi2 & Hp2);
    [lia|].
  destruct (fsread_ok s2 d f2 (splice c buf off) off (Z.of_nat (length buf)) Ho2) as (s3 & Er & _);
    rewrite ?Hd, ?Hi2; auto.
  - rewrite length_splice by done. lia.
  - lia.
  - exists s2, s3. split; [done|]. rewrite Er, Nat2Z.id, take_drop_splice by done. done.
Qed.

(** What is written through a descriptor is read back through it, over any
    driver that keeps the file promise: writing at the position of an open file,
    seeking back and reading the same number of bytes returns the bytes written,
    unless the write reports an error, which only a driver that may fail does. *)
Theorem fswrite_lseek_fsread s d f c off buf :
  fd_open s d f -> fs_ok (dev s) -> holds (dev s) (f_ino f) c ->
  0 <= f_ino f < 2 ^ 32 -> f_pos f = Z.of_nat off -> (off <= length c)%nat ->
  Z.of_nat (off + length buf) < 2 ^ 62 -> room (dev s) (f_ino f) (Z.of_nat (off + length buf)) ->
  exists s1 n, fswrite d buf s = Done s1 n /\
    ((n < 0 /\ may_fail) \/
     (n = Z.of_nat (length buf) /\
      exists s2 s3, lseek d (Z.of_nat off) SEEK_SET s1 = Done s2 (Z.of_nat off) /\
        fsread d n s2 = Done s3 (n, buf))).
Proof. apply write_back. Qed.

End data.

(** ** Splitting a path in place *)

Definition nonul (t : list Z) : Prop := Forall (fun c => c <> 0) t.

Lemma cstr_at_app pre cur k : cstr_at (pre ++ cur) (length pre + k) = cstr_at cur k.
Proof.
  unfold cstr_at. rewrite drop_app_add', length_app by done.
  destruct (take_while _ _) as [|x l]; simpl;
    repeat match goal with |- context [(?a <? ?b)%nat] => destruct (Nat.ltb_spec a b) end; try done; lia.
Qed.

Lemma cstr_at_here c rest : nonul c -> cstr_at (c ++ 0 :: rest) 0 = Some c.
Proof.
  intros Hc. unfold cstr_at. rewrite drop_0.
  assert (take_while (fun x => negb (x =? 0)) (c ++ 0 :: rest) = c) as ->.
  { induction Hc as [|x c Hx _ IH]; simpl; [done|]. rewrite (proj2 (Z.eqb_neq x 0) Hx). simpl. by f_equal. }
  rewrite length_app. simpl. by rewrite (proj2 (Nat.ltb_lt _ _)) by lia.
Qed.

Lemma take_while_stop f (c rest : list Z) x :
  Forall (fun y => f y = true) c -> f x = false -> take_while f (c ++ x :: rest) = c.
Proof. intros Hc Hx. induction Hc as [|y c Hy _ IH]; simpl; [by rewrite Hx|]. rewrite Hy. by f_equal. Qed.

Lemma slashes_take k t x :
  is_slash x = false -> take_while is_slash (replicate k SLASH ++ x :: t) = replicate k SLASH.
Proof. intros Hx. apply take_while_stop; [|done]. apply Forall_replicate. done. Qed.

Lemma lookup_len {A} (l1 : list A) x l2 : (l1 ++ x :: l2) !! length l1 = Some x.
Proof. by apply list_lookup_middle. Qed.

(** Text is slashes only, or slashes, a component and what follows it. *)
Lemma text_cases t :
  nonul t ->
  (exists k, t = replicate k SLASH) \/
  (exists k c u, t = replicate k SLASH ++ c ++ u /\ noslash c /\ c <> [] /\ nonul c /\ nonul u /\
     comps t = c :: comps u /\ (u = [] \/ exists u', u = SLASH :: u')).
Proof.
  intros Ht. destruct (drop_while_slash t) as [k Hk].
  destruct (drop_while is_slash t) as [|x r] eqn:Ed; [left; exists k; by rewrite app_nil_r in Hk|right].
  pose proof (drop_while_head _ _ _ _ Ed) as Hx. destruct (comps_first x r Hx) as [Hcs Hne].
  rewrite <- Ed, comps_drop_while, Ed in Hcs.
  pose proof (take_drop_while (fun c => negb (is_slash c)) (x :: r)) as Htd. rewrite <- Htd in Hk.
  rewrite Hk in Ht. apply Forall_app in Ht as [_ [? ?]%Forall_app].
  eexists k, _, _. split_and!; eauto using comp_of_noslash. apply after_comp_shape.
Qed.

(** What [tokenize] finds in the text [t] that starts at the cursor. *)
Definition tok_post (pre t : list Z) (acc : list nat) (r : option (Z + list Z * list nat)) : Prop :=
  exists cur offs, r = Some (inr (pre ++ cur, rev acc ++ offs)) /\
    length offs = length (comps t) /\ (t = [] -> cur = [0]) /\
    forall j o, offs !! j = Some o -> exists k, o = (length pre + k)%nat /\ cstr_at cur k = comps t !! j.

(** A component followed by NUL, and the components after it. *)
Lemma tok_post_cons pre k c gap t u acc r :
  nonul c -> comps t = c :: comps u -> t <> [] ->
  (gap = [] /\ u = [] \/ gap = [0]) ->
  tok_post (pre ++ replicate k SLASH ++ c ++ gap) u ((length pre + k)%nat :: acc) r ->
  tok_post pre t acc r.
Proof.
  intros Hc Hcs Ht Hgap (cur & offs & -> & Hlen & Hnil & Hoffs).
  exists (replicate k SLASH ++ c ++ gap ++ cur), ((length pre + k)%nat :: offs). split_and!.
  - simpl. do 2 f_equal. by rewrite <- !app_assoc.
  - rewrite Hcs. simpl. lia.
  - done.
  - assert (exists rest, gap ++ cur = 0 :: rest) as [rest Hrest].
    { destruct Hgap as [[-> Hu]| ->]; [exists []; by rewrite Hnil|by eexists]. }
    intros [|j] o Hj.
    + injection Hj as <-. exists k. split; [done|]. rewrite Hcs.
      pose proof (cstr_at_app (replicate k SLASH) (c ++ gap ++ cur) 0) as E.
      rewrite length_replicate, Nat.add_0_r in E. rewrite E, Hrest. by apply cstr_at_here.
    + destruct (Hoffs j o Hj) as (k' & -> & Hk'). rewrite Hcs. simpl. rewrite <- Hk'.
      exists (length (replicate k SLASH ++ c ++ gap) + k')%nat. split; [rewrite !length_app; lia|].
      rewrite <- (cstr_at_app (replicate k SLASH ++ c ++ gap) cur k'). by rewrite <- !app_assoc.
Qed.

(** One component of the text under the cursor. *)
Lemma tokenize_comp fuel pre k c tl acc :
  noslash c -> nonul c -> c <> [] -> Z.of_nat (length c) <= VFS_NAME_MAX -> (length acc < STK_MAX)%nat ->
  (tl = [0] \/ exists u, tl = SLASH :: u) ->
  tokenize (S fuel) (pre ++ replicate k SLASH ++ c ++ tl) (length pre) acc =
  let pre1 := pre ++ replicate k SLASH ++ c in
  match tl with
  | x :: u => if negb (x =? 0)
              then tokenize fuel (pre1 ++ 0 :: u) (S (length pre1)) ((length pre + k)%nat :: acc)
              else tokenize fuel (pre1 ++ tl) (length pre1) ((length pre + k)%nat :: acc)
  | [] => None
  end.
Proof.
  intros Hns Hnc Hne Hlen Hacc Htl. cbn [tokenize].
  destruct c as [|x c]; [done|].
  pose proof Hns as [Hx _]%Forall_cons. pose proof Hnc as [Hx0 _]%Forall_cons.
  assert (exists h r, replicate k SLASH ++ (x :: c) ++ tl = h :: r /\ h <> 0) as (h & r & Eh & Hh).
  { destruct k; simpl; eauto. }
  rewrite drop_app_length. rewrite Eh, lookup_len. cbn [mbind option_bind].
  rewrite (proj2 (Z.eqb_neq h 0) Hh). rewrite <- Eh. cbn [app]. rewrite slashes_take, length_replicate by done.
  assert (length (pre ++ replicate k SLASH) = (length pre + k)%nat) as Hl1
    by (rewrite length_app, length_replicate; done).
  rewrite (app_assoc pre), <- Hl1, lookup_len. cbn [mbind option_bind].
  rewrite (proj2 (Z.eqb_neq x 0) Hx0), drop_app_length.
  destruct tl as [|y u]; [by destruct Htl as [?|[? ?]]|].
  assert (take_while (fun z => negb (is_slash z) && negb (z =? 0)) (x :: c ++ y :: u) = x :: c) as ->.
  { apply (take_while_stop _ (x :: c)).
    - apply Forall_forall. intros z Hz. apply andb_true_iff. split.
      + apply negb_true_iff. by apply (proj1 (Forall_forall _ _) Hns).
      + apply negb_true_iff, Z.eqb_neq. by apply (proj1 (Forall_forall _ _) Hnc).
    - destruct Htl as [[= -> ->]|[? [= -> ->]]]; done. }
  rewrite Hl1.
  assert (length (pre ++ replicate k SLASH ++ x :: c) = (length pre + k + length (x :: c))%nat) as Hl2
    by (rewrite !length_app, length_replicate; lia).
  replace ((pre ++ replicate k SLASH) ++ x :: c ++ y :: u) with ((pre ++ replicate k SLASH ++ x :: c) ++ y :: u)
    by (rewrite <- !app_assoc; done).
  rewrite <- Hl2, lookup_len. cbn [mbind option_bind].
  rewrite (proj2 (Z.ltb_ge _ _)) by lia. rewrite (proj2 (Nat.leb_gt _ _)) by lia.
  destruct (y =? 0); cbn [negb]; [done|]. by rewrite insert_app_r_alt, Nat.sub_diag by lia.
Qed.

(** The offsets point at the components of the text, each ended by a NUL. *)
Lemma tokenize_ok fuel : forall pre t acc,
  nonul t -> (length t < fuel)%nat ->
  Forall (fun c => Z.of_nat (length c) <= VFS_NAME_MAX) (comps t) ->
  (length acc + length (comps t) <= STK_MAX)%nat ->
  tok_post pre t acc (tokenize fuel (pre ++ t ++ [0]) (length pre) acc).
Proof.
  induction fuel as [|fuel IH]; intros pre t acc Ht Hf Hlen Hmax; [lia|].
  destruct (text_cases t Ht) as [[k ->]|(k & c & u & -> & Hns & Hne & Hnc & Hnu & Hcs & Hu)].
  - assert (comps (replicate k SLASH) = []) as Hz by (apply (comps_trailing [] k)).
    exists (replicate k SLASH ++ [0]), []. rewrite app_nil_r, Hz. cbn [tokenize]. rewrite drop_app_length.
    split; [|split; [done|split; [by destruct k|by intros j o [=]]]].
    destruct k as [|k]; [simpl; by rewrite lookup_len|].
    rewrite (lookup_len pre SLASH (replicate k SLASH ++ [0]) :
      (pre ++ replicate (S k) SLASH ++ [0]) !! length pre = Some SLASH). cbn [mbind option_bind]. change (SLASH =? 0) with false. cbv iota.
    rewrite slashes_take, length_replicate by done.
    replace (length pre + S k)%nat with (length (pre ++ replicate (S k) SLASH))
      by (rewrite length_app, length_replicate; done).
    rewrite app_assoc, lookup_len. done.
  - rewrite Hcs in *. cbn [length] in Hmax. apply Forall_cons in Hlen as [Hc255 Hlen].
    assert (0 < length c)%nat by (destruct c; [done|simpl; lia]).
    rewrite !length_app, length_replicate in Hf.
    rewrite <- !app_assoc, tokenize_comp by (auto; try lia; destruct Hu as [->|[u' ->]]; eauto).
    assert (replicate k SLASH ++ c ++ u <> []) as Hnn by (destruct k, c; done).
    destruct Hu as [->|[u' ->]]; cbn [app]; cbv zeta.
    + apply (tok_post_cons pre k c [] _ []); auto. rewrite app_nil_r. apply (IH _ []); auto; simpl; lia.
    + change (SLASH =? 0) with false. cbn [negb]. simpl in Hf. apply Forall_cons in Hnu as [_ Hnu].
      rewrite comps_slash in Hmax, Hlen, Hcs.
      apply (tok_post_cons pre k c [0] _ u'); auto.
      assert (tokenize fuel ((pre ++ replicate k SLASH ++ c) ++ 0 :: u' ++ [0])
                (S (length (pre ++ replicate k SLASH ++ c))) ((length pre + k)%nat :: acc) =
              tokenize fuel ((pre ++ replicate k SLASH ++ c ++ [0]) ++ u' ++ [0])
                (length (pre ++ replicate k SLASH ++ c ++ [0])) ((length pre + k)%nat :: acc)) as ->.
      { f_equal; [by rewrite <- !app_assoc|rewrite !length_app; simpl; lia]. }
      apply IH; auto; simpl; lia.
Qed.

(** ** Resolution of plain paths *)

Section resolve.
Context {D : Type} (ops : vfsops_t D) (v : vfs_t) (d : D).

(** Looking up the components one after the other, in a driver state that the
    lookups leave alone: the last inode, or the first error. *)
Inductive route : Z -> list (list Z) -> Z -> Prop :=
| route_end ino : route ino [] ino
| route_miss ino c cs e :
    op_lookup ops v ino c d = Done d e -> e < 0 -> route ino (c :: cs) e
| route_step ino c cs n nd r :
    op_lookup ops v ino c d = Done d n -> 0 <= n < 2 ^ 32 ->
    op_getino ops v n d = Done d (0, Some nd) -> S_TYPE (i_mode nd) <> S_IFLNK ->
    route n cs r -> route ino (c :: cs) r.

(** The state during resolution: the mount is slot [i], memory is at hand. *)
Definition at_mount (s : vst D) (i : nat) : Prop :=
  dev s = d /\ oom s = [] /\ exists u, mounts s !! i = Some (mk_slot v (Some ops) u).

Lemma call_at s i {A} (g : vfsops_t D -> vfs_t -> M D A) a :
  at_mount s i -> g ops v d = Done d a -> call i g s = Done s a.
Proof.
  intros (Hd & _ & u & Hm) Hg. unfold call.
  erewrite bind_done by (unfold slot_at; by rewrite Hm). cbn [s_ops s_vfs].
  rewrite bind_deref. unfold run_dev. rewrite Hd, Hg. subst d. by destruct s.
Qed.

Lemma slot_at_mount s i : at_mount s i -> exists u, slot_at i s = Done s (mk_slot v (Some ops) u).
Proof. intros (_ & _ & u & Hm). exists u. unfold slot_at. by rewrite Hm. Qed.

Lemma malloc_at s i {B} (k : bool -> M (vst D) B) : at_mount s i -> mbind k malloc s = k true s.
Proof. intros (_ & Ho & _). unfold malloc, mbind, M_bind. by rewrite Ho. Qed.

Lemma resolve_loop_route s i pbuf lnkbuf flags : forall cs items ino depth dcnt r,
  at_mount s i -> flag flags VFS_MUST_BE_DIR = false -> route ino cs r ->
  0 <= ino < 2 ^ 32 ->
  Forall (fun c => c <> [DOT] /\ c <> [DOT; DOT]) cs ->
  dcnt + Z.of_nat (length cs) <= Z.of_nat STK_MAX ->
  (forall j c, rev cs !! j = Some c -> exists o, items !! j = Some (Some (false, o)) /\ cstr_at pbuf o = Some c) ->
  resolve_loop (length cs) items pbuf lnkbuf i flags ino 0 depth dcnt s = Done s r.
Proof.
  induction cs as [|c cs IH]; intros items ino depth dcnt r Hat Hf Hroute Hino Hdots Hcnt Hitems.
  { inversion Hroute. subst. cbn [resolve_loop length]. by rewrite Hf. }
  apply Forall_cons in Hdots as [[Hd1 Hd2] Hdots]. cbn [length] in Hcnt. cbn [resolve_loop length].
  destruct (Hitems (length cs) c) as (o & Ho & Hs).
  { simpl. rewrite <- (length_rev cs). apply lookup_len. }
  rewrite Ho. cbn [default str_of from_option id mbind option_bind]. rewrite Hs, bind_deref.
  rewrite !decide_False by done.
  assert (forall j c', rev cs !! j = Some c' ->
            exists o, items !! j = Some (Some (false, o)) /\ cstr_at pbuf o = Some c') as Hrest.
  { intros j c' Hj. apply Hitems. simpl. by apply lookup_app_l_Some. }
  inversion Hroute as [|? ? ? e Hl He|? ? ? n nd ? Hl Hn Hg Hlnk Hr]; subst.
  - unfold fs_lookup. erewrite bind_done by (apply (call_at s i); [done|]; by rewrite wrap_small).
    by rewrite (proj2 (Z.ltb_lt r 0)).
  - unfold fs_lookup. erewrite bind_done by (apply (call_at s i); [done|]; by rewrite wrap_small).
    rewrite (proj2 (Z.ltb_ge n 0)), (wrap_small 32 n) by lia. unfold with_inode, fs_getino.
    erewrite bind_done by (apply (call_at s i); [done|]; by rewrite wrap_small).
    cbn [Z.ltb Z.compare]. rewrite bind_deref, (proj2 (Z.eqb_neq _ _) Hlnk).
    rewrite (proj2 (Z.leb_gt _ _)) by lia. apply IH; auto. lia.
Qed.

(** C4. A path without symbolic links resolves to what looking its components up
    one after the other, from the root of the mount, finds: [vfs_resolve]
    splits the path in place, walks the components in order and returns the
    last inode or the first driver error. *)
Theorem vfs_resolve_walks s i path flags r :
  at_mount s i -> path <> [] -> nonul path ->
  let rel := rel_path (v_path v) path in
  Z.of_nat (length rel) < VFS_PATH_MAX -> (length (comps rel) <= STK_MAX)%nat ->
  Forall (fun c => Z.of_nat (length c) <= VFS_NAME_MAX) (comps rel) ->
  Forall (fun c => c <> [DOT] /\ c <> [DOT; DOT]) (comps rel) ->
  flag flags VFS_MUST_BE_DIR = false -> 0 <= v_root_ino v < 2 ^ 32 ->
  route (v_root_ino v) (comps rel) r ->
  vfs_resolve (Some i) path flags s = Done s r.
Proof.
  intros Hat Hne Hnul rel Hlen Hcnt H255 Hdots Hf Hroot Hroute. unfold vfs_resolve.
  destruct path as [|x path']; [done|]. set (path := x :: path') in *.
  rewrite !(malloc_at s i) by done. cbn [negb]. rewrite !(malloc_at s i) by done. cbn [negb].
  rewrite (malloc_at s i) by done. cbn [negb].
  destruct (slot_at_mount s i Hat) as [u Hslot]. rewrite (bind_done _ _ _ _ _ Hslot). cbn [s_vfs]. fold rel.
  rewrite (proj2 (Z.leb_gt _ _)), (malloc_at s i) by done. cbn [negb].
  assert (nonul rel) as Hrel.
  { unfold rel, rel_path. case_decide; [|done].
    pose proof (Forall_drop _ (length (v_path v)) _ Hnul) as Hd.
    destruct (drop _ path) as [|y r']; [done|]. apply Forall_cons in Hd as Hd'. destruct (is_slash y); naive_solver. }
  destruct (tokenize_ok (S (length rel)) [] rel [] Hrel) as (cur & offs & E & Hol & _ & Hoffs);
    [lia|done|done|].
  cbn [app length rev] in E. rewrite E, bind_deref, (malloc_at s i) by done. cbn [negb]. rewrite bind_gets, Hol.
  apply resolve_loop_route; auto; [lia|].
  intros j c [Hjl Hj]%lookup_rev_Some.
  rewrite lookup_app_l by (rewrite length_map, length_rev; lia). rewrite list_lookup_fmap.
  destruct (lookup_lt_is_Some_2 offs (length (comps rel) - S j)) as [o Ho]; [lia|].
  destruct (Hoffs _ _ Ho) as (k & -> & Hk). exists k. split; [|by rewrite Hk].
  assert (rev offs !! j = Some k) as ->; [|done]. apply lookup_rev_Some. rewrite Hol. split; [lia|done].
Qed.

End resolve.

End Vfs.
