(* ===== verification/VfsRamfs.v ===== *)
(** The virtual file system over ramfs: [Vfs] with the driver table of [Ramfs].

    Runs of the two together: a booted system with ramfs as its root, witnesses
    for the theorems of [Vfs], and the behaviour of calls that do not do what
    they are for. *)
From S2P Require Import Prelude VfsPath VfsOps Fd Ramfs Vfs.

Module VfsRamfs.
Import VfsPath VfsOps Fd Ramfs Vfs.

Notation MV := (M (vst rst)).

(** The [mount] entry of a file system; only ramfs is on this system. *)
Definition fsmount (fs : nat) (v : vfs_t) : M rst (Z * vfs_t * option (vfsops_t rst)) :=
  if (fs =? 1)%nat then ramfs_mount v else mret (- EINVAL, v, None).

Definition RAMFS_TYPE : list Z := [114; 97; 109; 102; 115].

(** Before [vfs_init]; the process has ten free descriptors. *)
Definition boot0 : vst rst :=
  mk_vst [] 0 [] [] (replicate 4096 0) [] (mk_fdtab (Some (replicate 10 zero_fd)) 10) 0 0 rst0.

Definition boot : MV Z :=
  _ ← vfs_init; mount (fun _ => (- ENOENT, 0)) None fsmount None [SLASH] RAMFS_TYPE.

(** ramfs mounted on "/". *)
Definition booted : vst rst := state_of (boot boot0) boot0.

(** "/a" and "/l" *)
Definition path_a : list Z := [47; 97].
Definition path_l : list Z := [47; 108].

(** The system with a file "/a" open as descriptor 0. *)
Definition with_a : vst rst := state_of ((_ ← creat path_a 420; open path_a 0 0) booted) booted.

(** ** What a driver call cannot touch *)

(** The mounts and the working directory. *)
Definition mounts_cwd {D} (s : vst D) : list (slot D) * list Z := (mounts s, cwd s).

Section keeps.
Context {D : Type}.

Lemma keeps_malloc : keeps mounts_cwd (malloc (D := D)).
Proof. intros s s' x. unfold malloc. destruct (oom s); by intros [= <- _]. Qed.

Lemma keeps_slot i : keeps mounts_cwd (slot_at (D := D) i).
Proof. intros s s' x. unfold slot_at. destruct (mounts s !! i); [by intros [= <- _]|done]. Qed.

Lemma keeps_call {A} i (f : vfsops_t D -> vfs_t -> M D A) : keeps mounts_cwd (call i f).
Proof.
  apply keeps_bind; [apply keeps_slot|]. intros m. apply keeps_bind; [apply keeps_deref|].
  intros o s s' a. unfold run_dev. destruct (f o (s_vfs m) (dev s)); [by intros [= <- _]|done].
Qed.

Lemma keeps_resolve_loop : forall cnt items pbuf lnk mnt flags ino sym depth dcnt,
  keeps mounts_cwd (resolve_loop (D := D) cnt items pbuf lnk mnt flags ino sym depth dcnt).
Proof.
  induction cnt as [|cnt IH]; intros; cbn [resolve_loop]; unfold with_inode, fs_getino, fs_lookup;
    repeat (apply IH || apply keeps_malloc || apply keeps_slot || apply keeps_call || keeps_step).
Qed.

Lemma keeps_resolve mnt path flags : keeps mounts_cwd (vfs_resolve (D := D) mnt path flags).
Proof.
  unfold vfs_resolve.
  repeat (apply keeps_resolve_loop || apply keeps_malloc || apply keeps_slot || keeps_step).
Qed.

End keeps.

(** ** Removing files *)

(** Every mount is a ramfs. *)
Definition all_ramfs (s : vst rst) : Prop :=
  forall i m, mounts s !! i = Some m -> s_ops m = Some ramfs_ops \/ s_ops m = None.

Lemma getino_zero s i s' r o :
  all_ramfs s -> fs_getino i 0 s = Done s' (r, o) -> r = - ENOENT.
Proof.
  intros Hall. unfold fs_getino, call. intros (s1 & m & E1 & E2)%bind_inv.
  unfold slot_at in E1. destruct (mounts s !! i) as [m'|] eqn:Em; [|done]. injection E1 as <- <-.
  destruct (Hall i m' Em) as [Ho|Ho]; rewrite Ho in E2; [|done]. rewrite bind_deref in E2.
  unfold run_dev in E2. cbn in E2. unfold ramfs_getino, getinod, RAMFS in E2.
  unfold mbind, M_bind in E2. destruct (infos (dev s) !! _); [|done]. by injection E2 as _ <- _.
Qed.

(** C40. [unlink] never removes anything: after resolving the path it goes on with
    inode number zero, which no ramfs has, so on every path the call ends in an
    error (or does not return). *)
Theorem unlink_never_succeeds s path s' r :
  all_ramfs s -> unlink path s = Done s' r -> r < 0.
Proof.
  intros Hall. unfold unlink, with_abs, vfs_getmnt.
  intros (s1 & c & [= <- <-] & E)%bind_inv. apply bind_inv in E as (s2 & [ret abs] & E2 & E).
  destruct (vfs_abspath (cwd s) path 1024) as [p|]; [|done]. injection E2 as <- ->.
  destruct (Z.ltb_spec ret 0); [by injection E as _ <-|].
  apply bind_inv in E as (s3 & mnt & E3 & E).
  assert (s3 = s) as ->.
  { apply bind_inv in E3 as (sa & ca & [= <- <-] & E3). apply bind_inv in E3 as (sb & [ra aa] & Eb & E3).
    destruct (vfs_abspath (cwd s) abs 1024); [|done]. injection Eb as <- ->.
    destruct (ra <? 0); by injection E3 as <- _. }
  cbv zeta in E. apply bind_inv in E as (s4 & ret4 & E4 & E).
  destruct (Z.ltb_spec (s32 ret4) 0); [by injection E as _ <-|].
  apply keeps_resolve in E4 as [= Hm _].
  apply bind_inv in E as (s5 & i & E5 & E).
  assert (s5 = s4) as -> by (destruct mnt; [by injection E5 as <- _|done]).
  unfold with_inode in E. apply bind_inv in E as (s6 & [r6 o6] & E6 & E).
  assert (all_ramfs s4) as Hall4 by (intros j m; rewrite Hm; apply Hall).
  apply (getino_zero s4 i s6 r6 o6 Hall4) in E6. subst r6. by injection E as _ <-.
Qed.

(** ** Concrete runs *)

(** A process with ramfs on "/" and inode 2 open, at position 0, as descriptor 0. *)
Definition open_file : file := mk_file (1, 0%nat) (mk_vinode 0x81A4 0 0 0 0 0 0 0 0 1) 2 0 0 path_a.

Definition sys (d : rst) : vst rst :=
  mk_vst [mk_slot vfs0 (Some ramfs_ops) true] 1 [SLASH] [] (replicate 1024 0) []
    (mk_fdtab (Some (mk_fd 0 true (FDTYPE_FILE open_file) :: replicate 9 zero_fd)) 10) 0 0 d.

(** [with_file] with a link "a" to the file in the root directory. *)
Definition with_link : rst := state_of (ramfs_mklink vfs0 2 0x81A4 1 [97] with_file) with_file.

Lemma fswrite_lseek_fsread_witness :
  exists s1 s2 s3, fswrite 0 [104; 105] (sys with_file) = Done s1 2 /\
    lseek 0 0 SEEK_SET s1 = Done s2 0 /\ fsread 0 2 s2 = Done s3 (2, [104; 105]).
Proof.
  destruct (fswrite_lseek_fsread ramfs_ops vfs0 (sys with_file) 0 open_file [] 0 [104; 105])
    as (s1 & n & E & H).
  - split; [by vm_compute|]. split; [by eexists _, _|]. by exists 0%nat.
  - exact with_file_ok.
  - by vm_compute.
  - simpl. lia.
  - done.
  - simpl. lia.
  - simpl. lia.
  - left. by vm_compute.
  - assert (n = 2) as -> by (apply (result_of_Done _ _ _ 2 E); by vm_compute).
    destruct H as [[H _]|(_ & s2 & s3 & H2 & H3)]; [lia|]. exists s1, s2, s3.
    split; [exact E|]. split; [exact H2|exact H3].
Defined.

Lemma vfs_resolve_walks_witness :
  vfs_resolve (Some 0%nat) path_a 0 (sys with_link) = Done (sys with_link) 2.
Proof.
  apply (vfs_resolve_walks ramfs_ops vfs0 with_link (sys with_link) 0 path_a 0 2).
  - split; [done|]. split; [done|]. by eexists.
  - done.
  - repeat constructor; lia.
  - by vm_compute.
  - apply Nat.leb_le. by vm_compute.
  - apply (bool_decide_unpack _). by vm_compute.
  - apply (bool_decide_unpack _). by vm_compute.
  - done.
  - simpl. lia.
  - change (comps (rel_path (v_path vfs0) path_a)) with [[97]].
    eapply (route_step _ _ _ _ _ _ 2); [by vm_compute|lia|by vm_compute|done|constructor].
Defined.

Lemma unlink_never_succeeds_witness :
  all_ramfs (sys with_link) /\ exists s', unlink path_a (sys with_link) = Done s' (- ENOENT) /\ - ENOENT < 0.
Proof.
  assert (all_ramfs (sys with_link)) as H.
  { intros [|i] m; [intros [= <-]; by left|done]. }
  split; [exact H|]. destruct (unlink path_a (sys with_link)) as [s' r|] eqn:E.
  - exists s'. assert (r = - ENOENT) as -> by (apply (result_of_Done _ _ _ _ E); by vm_compute).
    split; [reflexivity|]. exact (unlink_never_succeeds _ _ _ _ H E).
  - exfalso. assert (result_of (unlink path_a (sys with_link)) = Some (- ENOENT)) as H'.
    + by vm_compute.
    + rewrite E in H'. discriminate H'.
Defined.

(** A path that ends in a symbolic link resolves to the directory that holds
    the link: the components of the target are pushed on the stack, but the
    count the walk runs on is never raised, so the walk ends with the link.  On
    the system below "/l" links to "/a"; resolving "/l" gives inode 1, the root
    directory, and not inode 2. *)
Theorem final_symlink_resolves_to_parent :
  let s := state_of (symlink path_l path_a 511 (sys with_link)) (sys with_link) in
  result_of (symlink path_l path_a 511 (sys with_link)) = Some 0 /\
  result_of (vfs_resolve (Some 0%nat) path_a VFS_FOLLOW_FINAL s) = Some 2 /\
  result_of (vfs_resolve (Some 0%nat) path_l VFS_FOLLOW_FINAL s) = Some 1.
Proof. split_and!; by vm_compute. Qed.

End VfsRamfs.
