(* ===== verification/VfsLoader.v ===== *)
(** The file layer of the loader is the VFS: [open], [lseek], [read] and [close] of
    [Vfs] keep what [LoaderFacts] asks of it, over every driver that keeps the file
    promise, and a program loaded from a file of a ramfs. *)
From S2P Require Import Prelude VfsPath VfsOps Fd Ramfs Vfs VfsRamfs.
From S2P Require Import Pmm PageTable PageRange Spaces PageUnmap Loader LoaderFacts LoaderStack LoaderProgram.

Module VfsLoader.
Import VfsOps Fd Vfs.
Notation files := Loader.files.

(** The calls of the loader ([include/lib/vfs.h]); what the descriptors of other
    types do stays open. *)
Section files.
Context {D : Type} (free_fb free_fbw : Z -> M (vst D) Z) (io_read dev_read : Z -> Z -> M (vst D) (Z * list Z)).

Definition vfs_files : files (vst D) :=
  Loader.mk_files open lseek (read io_read dev_read) (close free_fb free_fbw).

Context (ops : vfsops_t D) (v : vfs_t) {laws : file_laws ops v}.

(** An open file with contents [c], at position [pos]. *)
Definition reading (s : vst D) (d : Z) (c : list Z) (pos : Z) : Prop :=
  exists f, fd_open ops v s d f /\ fs_ok (dev s) /\ holds (dev s) (f_ino f) c /\ 0 <= f_ino f < 2 ^ 32 /\ f_pos f = pos /\
    Z.of_nat (length c) < 2 ^ 63.

Lemma reading_lseek s d c pos off : reading s d c pos -> 0 <= off < 2 ^ 63 ->
  exists s', lseek d off SEEK_SET s = Done s' off /\ reading s' d c off.
Proof.
  intros (f & Ho & Hok & Hc & Hi & Hp & Hl) Hoff. destruct (lseek_set_ok ops v s d f c off Ho Hok Hc Hi Hoff) as (s' & f' & E & Hd & Ho' & Hi' & Hp').
  exists s'. split; [done|]. exists f'. by rewrite Hd, Hi'.
Qed.

Lemma reading_read s d c pos n : reading s d c pos -> 0 <= pos <= Z.of_nat (length c) -> 0 <= n < 2 ^ 62 ->
  let b := take (Z.to_nat n) (drop (Z.to_nat pos) c) in
  exists s', read io_read dev_read d n s = Done s' (Z.of_nat (length b), b) /\ reading s' d c (pos + Z.of_nat (length b)).
Proof.
  intros (f & Ho & Hok & Hc & Hi & Hp & Hl) Hpos Hn b.
  destruct (fsread_ok ops v s d f c (Z.to_nat pos) n Ho Hok Hc Hi) as (s' & E & Hd & f' & Ho' & Hi' & Hp'); [lia|lia|lia|].
  exists s'. split.
  - unfold read. destruct Ho as (_ & (j & u & Hget) & _). rewrite bind_gets, Hget, bind_deref. exact E.
  - exists f'. rewrite Hd, Hi'. split_and!; try done; try lia. rewrite Hp'. unfold b. rewrite wrap_small; [lia|].
    rewrite length_take, length_drop. lia.
Qed.

Lemma reading_close s d c pos : reading s d c pos -> exists s', close free_fb free_fbw d s = Done s' 0.
Proof.
  intros (f & (Htab & (j & u & Hget) & _) & _). unfold close, with_fd, close_fd. rewrite bind_gets, Hget, bind_deref. cbn [data].
  rewrite getfd_ok in Hget by done. destruct Htab as [Hn Hl]. rewrite bind_gets. unfold closefd. destruct (fds (fdt s)) as [l|] eqn:El; [|done].
  destruct (aget l d) as [e|] eqn:Ed; [|done]. pose proof (aget_bound _ _ _ Ed). rewrite sext_small by lia.
  rewrite (proj2 (Z.leb_gt _ d)), (proj2 (Z.ltb_ge d 0)) by lia. cbn [mbind option_bind]. rewrite Ed. cbn [mbind option_bind].
  rewrite aset_in by lia. cbn [mbind option_bind]. rewrite bind_deref. by eexists.
Qed.

#[export] Instance vfs_reads : LoaderFacts.file_reads vfs_files.
Proof.
  refine {| LoaderFacts.opened := reading |}; cbn [Loader.f_lseek Loader.f_read Loader.f_close vfs_files].
  - intros s d c pos off. apply reading_lseek.
  - intros s d c pos n. apply reading_read.
  - intros s d c pos Hr. destruct (reading_close _ _ _ _ Hr) as (s' & E). by eexists _, _.
Defined.

End files.

(** ** A program in a ramfs *)

Section example.
Import PageTable Loader LoaderFacts LoaderStack LoaderProgram.
#[local] Existing Instance Ramfs.ramfs_file_laws.

(** A static executable of one segment: its headers and eight bytes of code, loaded
    at 0x400000 with zeros up to 200 bytes. *)
Definition hello : list Z :=
  [0x7f; 69; 76; 70; 2; 1; 1; 0; 0; 0; 0; 0; 0; 0; 0; 0] ++
  enc_fields ehdr_fields [ET_EXEC; EM_X86_64; EV_CURRENT; 0x400078; 64; 0; 0; 64; 56; 1; 0; 0; 0] ++
  enc_fields phdr_fields [PT_LOAD; 5; 0; 0x400000; 0x400000; 128; 200; 4096] ++ [0x31; 0xff; 0x31; 0xc0; 0x0f; 0x05; 0xeb; 0xfe].

Definition hello_phdr : Elf64_Phdr := mk_phdr PT_LOAD 5 0 0x400000 0x400000 128 200 4096.

(** The file "/a" holds it. *)
Definition disk : Ramfs.rst :=
  let s := VfsRamfs.with_link in state_of (Ramfs.ramfs_write Ramfs.vfs0 2 0 hello s) s.
Definition sys0 : vst Ramfs.rst :=
  mk_vst [mk_slot Ramfs.vfs0 (Some Ramfs.ramfs_ops) true] 1 [VfsPath.SLASH] [] (replicate 1024 0) []
    (mk_fdtab (Some (replicate 10 zero_fd)) 10) 0 0 disk.
Definition sys1 : vst Ramfs.rst := state_of (open VfsRamfs.path_a O_RDONLY 0 sys0) sys0.

Lemma with_link_ok : Ramfs.ramfs_ok Ramfs.vfs0 VfsRamfs.with_link.
Proof.
  set (s := VfsRamfs.with_link). assert (exists a b, Ramfs.infos s !! v_priv Ramfs.vfs0 = Some (Ramfs.mk_info (a :: b :: replicate 1022 Ramfs.zero_inode) (2 + Z.of_nat 1022) 2) /\
    Ramfs.node_ok s a /\ Ramfs.node_ok s b /\ Ramfs.dptr a <> Ramfs.dptr b) as (a & b & Hi & Ha & Hb & Hne).
  { eexists _, _. split; [by vm_compute|]. split; [Ramfs.concrete_node|]. split; [Ramfs.concrete_node|by vm_compute]. }
  apply (Ramfs.two_inodes_ok _ _ a b 1022 2 Hi); [|done..].
  apply (Ramfs.heap_ok_run _ (Ramfs.brk s)); [done|by vm_compute|]. apply (bool_decide_unpack _). by vm_compute.
Qed.

Lemma disk_ok : Ramfs.ramfs_ok Ramfs.vfs0 disk.
Proof.
  destruct (Ramfs.ramfs_write_ok Ramfs.vfs0 VfsRamfs.with_link 2 [] 0 hello with_link_ok) as (s' & E & H & _); [by vm_compute|cbn; lia|by vm_compute|left; by vm_compute|].
  unfold disk. change (Z.of_nat 0) with 0 in E. by rewrite E.
Qed.

(** What [open] stored for the descriptor. *)
Definition file1 : file :=
  match getfd (fdt sys1) 0 with Some (inr (mk_fd _ _ (FDTYPE_FILE f))) => f | _ => VfsRamfs.open_file end.

Lemma sys1_reads : reading Ramfs.ramfs_ops Ramfs.vfs0 sys1 0 hello 0.
Proof.
  assert (dev sys1 = disk) as Ed by (by vm_compute).
  exists file1. split; [|rewrite Ed; split; [exact disk_ok|split_and!; by vm_compute]].
  split; [|split; [exists 0, true|exists 0%nat]].
  - split; [split; by vm_compute|]. by vm_compute.
  - by vm_compute.
  - split; [by vm_compute|]. assert (mounts sys1 = mounts sys0) as -> by reflexivity. reflexivity.
Qed.

(** A machine of 1024 frames, the root table in frame 1. *)
Definition pm1k : Pmm.pmm_state := Pmm.mk_pmm 4194304 0 1024 0 4096 (3 :: replicate 127 0) 128.
Definition mm1k : mm := mk_mm pm1k ∅ 4194304 HHDM_START 0 (HHDM_START + 4096) 4096 [] None [] 0.

Lemma mm1k_space : kernel_space mm1k 4096 T0.
Proof.
  split; try done.
  - split_and!.
    + split_and!; try done. unfold Pmm.pmm_wf, Pmm.bytes_ok. cbn. split_and!; try done. repeat constructor; lia.
    + split.
      * intros t p [-> ->]%T0_Some. cbn. split_and!; try done. lia.
      * intros t p i _ _ _ Hp _. unfold word in Hp. cbn in Hp. by rewrite lookup_empty in Hp.
    + by intros t p [-> ->]%T0_Some.
  - split; [by intros t [-> _]%T0_Some|by intros t p i [_ E]%T0_Some; destruct p|].
    intros t p [-> _]%T0_Some. split; [cbn; lia|]. by vm_compute.
Qed.

Lemma pm1k_free : Pmm.run_ge (S (7 * 1 + 7 * 128)) pm1k.
Proof.
  exists 2. split_and!; [lia|cbn; lia|]. intros g Hg.
  assert (Forall (fun g => Pmm.used pm1k g = false) (seqZ 2 (Z.of_nat (S (7 * 1 + 7 * 128))))) as H.
  { apply (bool_decide_unpack _). by vm_compute. }
  rewrite Forall_forall in H. apply H, elem_of_seqZ. lia.
Qed.

Lemma hello_fits : seg_fits hello_phdr 0 hello.
Proof. split; unfold in_memory, USER_END; cbn; split_and?; lia. Qed.

Lemma hello_ok : elf_ok hello 0.
Proof.
  assert (phdrs_of hello = [hello_phdr]) as Ep by (by vm_compute). assert (loads_of hello = [hello_phdr]) as El by (by vm_compute).
  split; rewrite ?Ep, ?El; [|by apply Nat.leb_le; vm_compute|by vm_compute|by vm_compute| |by vm_compute| |lia| |constructor; [exact hello_fits|constructor]|done].
  - apply (bool_decide_unpack (Forall (fun b => 0 <= b < 256) hello)). by vm_compute.
  - by vm_compute.
  - by vm_compute.
  - constructor; [|constructor]. unfold phdr_low, in_memory, USER_END. cbn. lia.
Qed.

(** The calls on descriptors of other types do not matter here. *)
Definition no_call {A} (x : A) : M (vst Ramfs.rst) A := mret x.
Definition ramfs_files : files (vst Ramfs.rst) :=
  vfs_files (fun _ => no_call 0) (fun _ => no_call 0) (fun _ _ => no_call (0, [])) (fun _ _ => no_call (0, [])).

#[local] Instance ramfs_reads : file_reads ramfs_files.
Proof. apply (vfs_reads _ _ _ _ Ramfs.ramfs_ops Ramfs.vfs0). Defined.

Lemma open_hello : f_open ramfs_files VfsRamfs.path_a O_RDONLY 0 sys0 = Done sys1 0.
Proof.
  assert (result_of (open VfsRamfs.path_a O_RDONLY 0 sys0) = Some 0) as H by (by vm_compute).
  unfold sys1. cbn [f_open ramfs_files vfs_files]. destruct (open VfsRamfs.path_a O_RDONLY 0 sys0) as [s' r|]; [|discriminate H].
  injection H as ->. reflexivity.
Qed.

Lemma load_program_runs_witness :
  exists s' v' asp sp, load_program ramfs_files 255 (replicate 56 0) VfsRamfs.path_a [[97]] [] (mk_lst mm1k sys0 []) =
      Done (mk_lst s' v' []) (mk_res 0 asp 0x400078 sp 0x4000c8) /\
    shows s' asp 0x400000 (hello ++ replicate 72 0) /\ sp mod 16 <> 0.
Proof.
  assert (loads_of hello = [hello_phdr]) as El by (by vm_compute).
  destruct (load_program_runs ramfs_files 255 (replicate 56 0) hello 0 mm1k 4096 T0 VfsRamfs.path_a sys0 sys1 0 [[97]] [])
    as (s' & v' & asp & sp & E & Hl & _ & Ha).
  - exact mm1k_space.
  - exact open_hello.
  - lia.
  - exact sys1_reads.
  - by vm_compute.
  - exact hello_ok.
  - by vm_compute.
  - rewrite El. constructor; [by vm_compute|constructor].
  - split; [repeat constructor; lia|]. split; [constructor|by vm_compute].
  - rewrite El. exact pm1k_free.
  - exists s', v', asp, sp. rewrite El in Hl. apply Forall_inv in Hl. split; [exact E|]. split; [exact Hl|].
    intros Hsp. apply Ha in Hsp. discriminate Hsp.
Defined.

End example.

End VfsLoader.
