(* ===== verification/Initramfs.v ===== *)
(** The initial file system: unpacking of a cpio archive into a mounted driver
    ([src/kern/initramfs.c]) and the tool that packs it ([tools/mkinitrd.py]). *)
From S2P Require Import Prelude CString VfsOps Ramfs.
From Stdlib Require Ascii String.
Import Ascii.AsciiSyntax String.StringSyntax.

Module Initramfs.
Import CString VfsOps.

Definition CPIO_MAGIC : list Z := str "070701".
Definition CPIO_HDR_LEN : Z := 110.
Definition CPIO_TRAILER : list Z := str "TRAILER!!!".
Definition CPIO_ALIGN : Z := 4.

(** ** Unpacking *)

Definition hex_digit (c : Z) : Z :=
  if (ch "0" <=? c) && (c <=? ch "9") then c - ch "0"
  else if (ch "a" <=? c) && (c <=? ch "f") then c - ch "a" + 10
  else if (ch "A" <=? c) && (c <=? ch "F") then c - ch "A" + 10
  else 0.

Fixpoint hex_loop (v : Z) (cs : list Z) : Z :=
  match cs with [] => v | c :: r => hex_loop (Z.lor (u32 (Z.shiftl v 4)) (hex_digit c)) r end.

(** [p] must have [len] bytes. *)
Definition cpio_hex (p : list Z) (len : nat) : option Z := if (len <=? length p)%nat then Some (hex_loop 0 (take len p)) else None.

Definition cpio_align4 (v : Z) : Z := Z.land (v + (CPIO_ALIGN - 1)) (Z.lnot (CPIO_ALIGN - 1)).

Fixpoint skip_slash (p : list Z) : list Z := match p with c :: r => if c =? ch "/" then skip_slash r else p | [] => [] end.
Fixpoint word (p : list Z) : list Z := match p with c :: r => if c =? ch "/" then [] else c :: word r | [] => [] end.
Fixpoint after_word (p : list Z) : list Z := match p with c :: r => if c =? ch "/" then r else after_word r | [] => [] end.

(** [comps], the pointers into [path]; [n] are there already.  The last of 64 is
    not cut at its slash. *)
Fixpoint split_comps (fuel : nat) (n : nat) (p : list Z) : list (list Z) :=
  match fuel with
  | O => []
  | S fuel' =>
      match skip_slash p with
      | [] => []
      | p => if (64 <=? S n)%nat then [p] else word p :: split_comps fuel' (S n) (after_word p)
      end
  end.

Record ist (D : Type) := mk_ist { fs : D; mallocs : list bool }.
Arguments mk_ist {D}.
Arguments fs {D}.
Arguments mallocs {D}.

Section import.
Context {D : Type} (ops : vfsops_t D) (v : vfs_t).
Notation MI := (M (ist D)).

Definition onfs {A} (m : M D A) : MI A := fun s =>
  match m (fs s) with Done d a => Done (mk_ist d (mallocs s)) a | Fault => Fault end.

(** Whether the next allocation succeeds. *)
Definition malloc : MI bool := fun s =>
  match mallocs s with [] => Done s true | b :: r => Done (mk_ist (fs s) r) b end.

Definition initramfs_mkdir_one (dino : Z) (name : list Z) : MI Z :=
  ino ← onfs (op_lookup ops v dino name);
  if 0 <=? ino then mret ino else
  ino ← onfs (op_mkino ops v (Z.lor S_IFDIR 493) 0 0);
  if ino <? 0 then mret ino else
  r ← onfs (op_mklink ops v (u32 ino) (Z.lor S_IFDIR 493) dino name);
  if r <? 0 then _ ← onfs (op_rmino ops v (u32 ino)); mret (-1)
  else mret ino.

(** The parents: the last directory, or the error. *)
Fixpoint mkdirs (dino : Z) (comps : list (list Z)) : MI (Z + Z) :=
  match comps with
  | [] => mret (inl dino)
  | c :: r => id ← initramfs_mkdir_one dino c; if id <? 0 then mret (inr (s32 id)) else mkdirs (u32 id) r
  end.

(** An entry; [Some r] when the function returns [r]. *)
Definition import_entry (mode filesize dmaj dmin : Z) (name data : list Z) : MI (option Z) :=
  let ftype := Z.land mode 0xF000 in
  ok ← malloc;
  if negb ok then mret (Some (- ENOMEM)) else
  let comps := split_comps (length name) 0 name in
  let ncomps := length comps in
  d ← mkdirs (v_root_ino v) (take (ncomps - 1) comps);
  match d with
  | inr e => mret (Some e)
  | inl dino =>
      let made := (1 <? ncomps)%nat in
      if (ncomps =? 0)%nat || (ftype =? S_IFDIR) && negb made && (ncomps =? 1)%nat then
        _ ← (if (ncomps =? 1)%nat then c ← deref (comps !! 0%nat); initramfs_mkdir_one dino c else mret 0);
        mret None
      else
      leaf ← deref (comps !! (ncomps - 1)%nat);
      if ftype =? S_IFDIR then _ ← initramfs_mkdir_one dino leaf; mret None
      else if ftype =? S_IFREG then
        ino ← onfs (op_mkino ops v (Z.land mode 0xFFFF) 0 0);
        if ino <? 0 then mret (Some (s32 ino)) else
        _ ← (if 0 <? filesize then
               if (Z.to_nat filesize <=? length data)%nat then onfs (op_write ops v (u32 ino) 0 (take (Z.to_nat filesize) data)) else fault
             else mret 0);
        r ← onfs (op_mklink ops v (u32 ino) (Z.land mode 0xFFFF) dino leaf);
        _ ← (if r <? 0 then onfs (op_rmino ops v (u32 ino)) else mret 0);
        mret None
      else if ftype =? S_IFLNK then
        n ← deref (strlen data);
        _ ← onfs (op_symlink ops v (Z.land mode 0xFFFF) 0 0 (take (Z.to_nat n) data));
        mret None
      else if (ftype =? S_IFCHR) || (ftype =? S_IFBLK) then
        ino ← onfs (op_mknod ops v (Z.land mode 0xFFFF) 0 0 (MKDEV dmaj dmin));
        _ ← (if 0 <=? ino then onfs (op_mklink ops v (u32 ino) (Z.land mode 0xFFFF) dino leaf) else mret 0);
        mret None
      else mret None
  end.

(** The loop at [off]; an entry has 112 bytes at least. *)
Fixpoint import_loop (fuel : nat) (base : list Z) (size off : Z) : MI Z :=
  match fuel with
  | O => fault
  | S fuel' =>
      if negb (off + CPIO_HDR_LEN <=? size) then mret 0 else
      let hdr := drop (Z.to_nat off) base in
      m ← deref (memcmp hdr CPIO_MAGIC 6);
      if negb (m =? 0) then mret (- EINVAL) else
      mode ← deref (cpio_hex (drop 14 hdr) 8);
      filesize ← deref (cpio_hex (drop 54 hdr) 8);
      namesize ← deref (cpio_hex (drop 94 hdr) 8);
      let dataoff := cpio_align4 (CPIO_HDR_LEN + namesize) in
      let next := cpio_align4 (dataoff + filesize) in
      if size <? off + next then mret (- EINVAL) else
      let name := drop (Z.to_nat CPIO_HDR_LEN) hdr in
      t ← deref (streq name (cstr CPIO_TRAILER));
      if negb (t =? 0) then mret 0 else
      let data := drop (Z.to_nat dataoff) hdr in
      c ← deref (head name);
      let name := if c =? ch "/" then tail name else name in
      c ← deref (head name);
      if c =? 0 then import_loop fuel' base size (off + next) else
      nlen ← deref (strlen name);
      dmaj ← deref (cpio_hex (drop 78 hdr) 8);
      dmin ← deref (cpio_hex (drop 86 hdr) 8);
      r ← import_entry mode filesize dmaj dmin (take (Z.to_nat nlen) name) data;
      match r with
      | Some r => mret r
      | None => import_loop fuel' base size (off + next)
      end
  end.

Definition initramfs_import (base : list Z) (size : Z) : MI Z := import_loop (S (length base)) base size 0.

End import.

(** ** Packing *)

Definition hex_char (d : Z) : Z := if d <? 10 then ch "0" + d else ch "a" + d - 10.
Fixpoint hex_chars (n : nat) (v : Z) : list Z := match n with O => [] | S n' => hex_chars n' (v / 16) ++ [hex_char (v mod 16)] end.
Definition hexfield (value : Z) : list Z := hex_chars 8 (Z.land value 0xFFFFFFFF).

Definition header (ino mode uid gid nlink mtime filesize devmajor devminor rdevmajor rdevminor namesize : Z) : list Z :=
  CPIO_MAGIC ++ hexfield ino ++ hexfield mode ++ hexfield uid ++ hexfield gid ++ hexfield nlink ++ hexfield mtime ++ hexfield filesize ++
  hexfield devmajor ++ hexfield devminor ++ hexfield rdevmajor ++ hexfield rdevminor ++ hexfield namesize ++ str "00000000".

Definition align4 (data : list Z) : list Z := data ++ replicate (Z.to_nat ((- Z.of_nat (length data)) mod 4)) 0.

Record entry := mk_entry { e_name : list Z; e_mode : Z; e_data : list Z }.

Definition is_dir (mode : Z) : bool := Z.land mode 0xF000 =? S_IFDIR.
Definition is_lnk (mode : Z) : bool := Z.land mode 0xF000 =? S_IFLNK.

(** [str.encode]: UTF-8, which has no form for a surrogate. *)
Definition utf8 (c : Z) : option (list Z) :=
  let tail k := Z.lor 0x80 (Z.land (Z.shiftr c k) 0x3F) in
  if c <? 0x80 then Some [c]
  else if c <? 0x800 then Some [Z.lor 0xC0 (Z.shiftr c 6); tail 0]
  else if (0xD800 <=? c) && (c <? 0xE000) then None
  else if c <? 0x10000 then Some [Z.lor 0xE0 (Z.shiftr c 12); tail 6; tail 0]
  else Some [Z.lor 0xF0 (Z.shiftr c 18); tail 12; tail 6; tail 0].
Fixpoint encode (cs : list Z) : option (list Z) :=
  match cs with [] => Some [] | c :: r => b ← utf8 c; bs ← encode r; Some (b ++ bs) end.

(** [add] as the bytes it appends, [None] where it raises; [ino] after the increment.
    The name is a string of code points, and its length counts those. *)
Definition add (ino : Z) (e : entry) : option (list Z) :=
  let nlink := if is_dir (e_mode e) then 2 else 1 in
  let filesize := if is_dir (e_mode e) || is_lnk (e_mode e) then 0 else Z.of_nat (length (e_data e)) in
  let hdr := header ino (e_mode e) 0 0 nlink 0 filesize 0 0 0 0 (Z.of_nat (length (e_name e)) + 1) in
  name ← encode (e_name e);
  Some (align4 (hdr ++ name ++ [0]) ++ match e_data e with [] => [] | d => align4 d end).

Fixpoint add_all (ino : Z) (es : list entry) : option (list Z * Z) :=
  match es with
  | [] => Some ([], ino)
  | e :: r => a ← add (ino + 1) e; bi ← add_all (ino + 1) r; Some (a ++ bi.1, bi.2)
  end.

Definition root_entry : entry := mk_entry (str ".") (Z.lor S_IFDIR 493) [].

Definition trailer (ino : Z) : list Z := align4 (header (ino + 1) 0 0 0 1 0 0 0 0 0 0 11 ++ CPIO_TRAILER ++ [0]).

(** The archive of the entries that walking the staging directory gives. *)
Definition mkinitrd (es : list entry) : option (list Z) :=
  root ← add 1 root_entry; bi ← add_all 1 es; Some (root ++ bi.1 ++ trailer bi.2).

(** ** Fields *)

Lemma hex_digit_char d : 0 <= d < 16 -> hex_digit (hex_char d) = d.
Proof.
  intros Hd. unfold hex_digit, hex_char. change (ch "0") with 48. change (ch "9") with 57. change (ch "a") with 97. change (ch "f") with 102.
  destruct (Z.ltb_spec d 10); repeat match goal with |- context [?a <=? ?b] => destruct (Z.leb_spec a b); try lia end; cbn [andb]; lia.
Qed.

Lemma hex_loop_app cs : forall v r, hex_loop v (cs ++ r) = hex_loop (hex_loop v cs) r.
Proof. induction cs as [|c cs IH]; intros v r; [done|]. apply IH. Qed.

Lemma hex_loop_chars n : forall v a, 0 <= v < 16 ^ Z.of_nat n -> 0 <= a -> a * 16 ^ Z.of_nat n + v < 2 ^ 32 ->
  hex_loop a (hex_chars n v) = a * 16 ^ Z.of_nat n + v.
Proof.
  induction n as [|n IH]; intros v a Hv Ha Hb; [cbn in *; lia|]. cbn [hex_chars]. rewrite hex_loop_app. rewrite Nat2Z.inj_succ, Z.pow_succ_r in * by lia.
  pose proof (Z.div_mod v 16 ltac:(lia)). pose proof (Z.mod_pos_bound v 16 ltac:(lia)).
  rewrite IH by (try split; try (apply Z.div_lt_upper_bound || apply Z.div_pos); nia). cbn [hex_loop].
  rewrite hex_digit_char by lia. set (B := 16 ^ Z.of_nat n) in *. rewrite Z.shiftl_mul_pow2 by lia. rewrite wrap_small by (change (2 ^ 4) with 16; nia).
  rewrite lor_high_low by (change (2 ^ 4) with 16; lia). change (2 ^ 4) with 16. nia.
Qed.

Lemma length_hex_chars n : forall v, length (hex_chars n v) = n.
Proof. induction n as [|n IH]; intros v; [done|]. cbn [hex_chars]. rewrite length_app, IH. cbn. lia. Qed.

Lemma hexfield_u32 v : 0 <= v < 2 ^ 32 -> hexfield v = hex_chars 8 v.
Proof. intros Hv. unfold hexfield. change 0xFFFFFFFF with (Z.ones 32). rewrite Z.land_ones by lia. by rewrite Z.mod_small by lia. Qed.

(** A field found [n] bytes into the header. *)
Lemma cpio_hex_field pre v r n : length pre = n -> 0 <= v < 2 ^ 32 -> cpio_hex (drop n (pre ++ hexfield v ++ r)) 8 = Some v.
Proof.
  intros <- Hv. rewrite drop_app_length. unfold cpio_hex. rewrite length_app, hexfield_u32, length_hex_chars by done.
  rewrite (proj2 (Nat.leb_le 8 _)) by lia. rewrite take_app_length' by (symmetry; apply length_hex_chars). rewrite hex_loop_chars; [f_equal; lia|..]; cbn; lia.
Qed.

Lemma align4_up n : 0 <= n -> n <= cpio_align4 n < n + 4 /\ cpio_align4 n mod 4 = 0.
Proof.
  intros Hn. unfold cpio_align4, CPIO_ALIGN. change (4 - 1) with (Z.ones 2). rewrite <- Z.ldiff_land, Z.ldiff_ones_r, Z.shiftl_mul_pow2, Z.shiftr_div_pow2 by done.
  change (2 ^ 2) with 4. change (Z.ones 2) with 3. rewrite Z.mod_mul by done. Z.to_euclidean_division_equations. lia.
Qed.

Lemma length_align4 d : Z.of_nat (length (align4 d)) = cpio_align4 (Z.of_nat (length d)).
Proof.
  unfold align4. rewrite length_app, length_replicate. destruct (align4_up (Z.of_nat (length d)) ltac:(lia)). Z.to_euclidean_division_equations. lia.
Qed.

Lemma align4_add a b : 0 <= b -> 0 <= a -> a mod 4 = 0 -> cpio_align4 (a + b) = a + cpio_align4 b.
Proof.
  intros Hb Ha Hm. destruct (align4_up (a + b) ltac:(lia)), (align4_up b Hb). Z.to_euclidean_division_equations. lia.
Qed.

Lemma length_hexfield v : length (hexfield v) = 8%nat.
Proof. apply length_hex_chars. Qed.

Lemma length_header i m u g l t f a b c d n : length (header i m u g l t f a b c d n) = 110%nat.
Proof. unfold header. rewrite !length_app, !length_hexfield. done. Qed.

(** The reader finds the fields of a header where the writer put them. *)
Lemma header_fields i m u g l t f a b c d n r :
  Forall (fun z => 0 <= z < 2 ^ 32) [m; f; c; d; n] ->
  let h := header i m u g l t f a b c d n ++ r in
  memcmp h CPIO_MAGIC 6 = Some 0 /\ cpio_hex (drop 14 h) 8 = Some m /\ cpio_hex (drop 54 h) 8 = Some f /\
  cpio_hex (drop 78 h) 8 = Some c /\ cpio_hex (drop 86 h) 8 = Some d /\ cpio_hex (drop 94 h) 8 = Some n.
Proof.
  rewrite !Forall_cons. intros (Hm & Hf & Hc & Hd & Hn & _) h. unfold h, header. split; [done|].
  set (x1 := hexfield i). set (x2 := hexfield m). set (x3 := hexfield u). set (x4 := hexfield g). set (x5 := hexfield l). set (x6 := hexfield t).
  set (x7 := hexfield f). set (x8 := hexfield a). set (x9 := hexfield b). set (x10 := hexfield c). set (x11 := hexfield d).
  assert (forall w pre post k v, w = pre ++ hexfield v ++ post -> length pre = k -> 0 <= v < 2 ^ 32 -> cpio_hex (drop k w) 8 = Some v) as Hfld.
  { intros w pre post k v -> Hk Hv. by apply cpio_hex_field. }
  split_and!.
  - eapply (Hfld _ (CPIO_MAGIC ++ x1)); [by rewrite <- !app_assoc|by rewrite length_app; unfold x1; rewrite length_hexfield|done].
  - eapply (Hfld _ (CPIO_MAGIC ++ x1 ++ x2 ++ x3 ++ x4 ++ x5 ++ x6)); [by rewrite <- !app_assoc| |done].
    rewrite !length_app. unfold x1, x2, x3, x4, x5, x6. by rewrite !length_hexfield.
  - eapply (Hfld _ (CPIO_MAGIC ++ x1 ++ x2 ++ x3 ++ x4 ++ x5 ++ x6 ++ x7 ++ x8 ++ x9)); [by rewrite <- !app_assoc| |done].
    rewrite !length_app. unfold x1, x2, x3, x4, x5, x6, x7, x8, x9. by rewrite !length_hexfield.
  - eapply (Hfld _ (CPIO_MAGIC ++ x1 ++ x2 ++ x3 ++ x4 ++ x5 ++ x6 ++ x7 ++ x8 ++ x9 ++ x10)); [by rewrite <- !app_assoc| |done].
    rewrite !length_app. unfold x1, x2, x3, x4, x5, x6, x7, x8, x9, x10. by rewrite !length_hexfield.
  - eapply (Hfld _ (CPIO_MAGIC ++ x1 ++ x2 ++ x3 ++ x4 ++ x5 ++ x6 ++ x7 ++ x8 ++ x9 ++ x10 ++ x11)); [by rewrite <- !app_assoc| |done].
    rewrite !length_app. unfold x1, x2, x3, x4, x5, x6, x7, x8, x9, x10, x11. by rewrite !length_hexfield.
Qed.

(** ** Entries *)

Definition size_of (e : entry) : Z := if is_dir (e_mode e) || is_lnk (e_mode e) then 0 else Z.of_nat (length (e_data e)).

(** What the walk gives, with names in ASCII and symbolic links apart. *)
Record entry_ok (e : entry) : Prop := {
  ok_ascii : Forall (fun c => 0 < c < 128) (e_name e);
  ok_head : exists c r, e_name e = c :: r /\ c <> ch "/";
  ok_trailer : e_name e <> CPIO_TRAILER;
  ok_short : Z.of_nat (length (e_name e)) + 1 < 2 ^ 32;
  ok_mode : 0 <= e_mode e < 2 ^ 32;
  ok_data : Z.of_nat (length (e_data e)) < 2 ^ 32;
  ok_link : is_lnk (e_mode e) = false;
  ok_dir : is_dir (e_mode e) = true -> e_data e = []
}.

Lemma ok_name e : entry_ok e -> str_ok (e_name e).
Proof. intros H. eapply Forall_impl; [apply (ok_ascii _ H)|]. intros c Hc. cbn in Hc. lia. Qed.

Lemma encode_ascii cs : Forall (fun c => 0 < c < 128) cs -> encode cs = Some cs.
Proof.
  induction 1 as [|c cs Hc _ IH]; [done|]. cbn [encode]. unfold utf8. rewrite (proj2 (Z.ltb_lt _ _)) by lia. cbn. by rewrite IH.
Qed.

Lemma size_of_data e : entry_ok e -> size_of e = Z.of_nat (length (e_data e)).
Proof.
  intros H. unfold size_of. rewrite (ok_link _ H), orb_false_r. destruct (is_dir (e_mode e)) eqn:E; [|done]. by rewrite (ok_dir _ H E).
Qed.

Definition head_of (ino : Z) (e : entry) : list Z :=
  header ino (e_mode e) 0 0 (if is_dir (e_mode e) then 2 else 1) 0 (size_of e) 0 0 0 0 (Z.of_nat (length (e_name e)) + 1).

Definition body_of (e : entry) : list Z := match e_data e with [] => [] | d => align4 d end.

(** The bytes of an entry whose name is its own encoding. *)
Definition packed (ino : Z) (e : entry) : list Z := align4 (head_of ino e ++ cstr (e_name e)) ++ body_of e.

Lemma add_packed ino e : entry_ok e -> add ino e = Some (packed ino e).
Proof. intros H. unfold add. by rewrite encode_ascii by apply H. Qed.

Lemma body_length e : Z.of_nat (length (body_of e)) = cpio_align4 (Z.of_nat (length (e_data e))).
Proof. unfold body_of. destruct (e_data e); [done|]. apply length_align4. Qed.

Lemma body_data e : exists pad, body_of e = e_data e ++ pad.
Proof. unfold body_of. destruct (e_data e); [by exists []|]. eexists. reflexivity. Qed.

Definition data_off (e : entry) : Z := cpio_align4 (CPIO_HDR_LEN + (Z.of_nat (length (e_name e)) + 1)).

Lemma head_length ino e : Z.of_nat (length (align4 (head_of ino e ++ cstr (e_name e)))) = data_off e.
Proof.
  rewrite length_align4. unfold data_off, cstr. f_equal. rewrite !length_app. unfold head_of. rewrite length_header. cbn [length]. unfold CPIO_HDR_LEN. lia.
Qed.

Lemma add_length ino e : Z.of_nat (length (packed ino e)) = cpio_align4 (data_off e + Z.of_nat (length (e_data e))).
Proof.
  unfold packed. rewrite length_app, Nat2Z.inj_add, head_length, body_length. pose proof (align4_up (CPIO_HDR_LEN + (Z.of_nat (length (e_name e)) + 1)) ltac:(unfold CPIO_HDR_LEN; lia)) as H.
  fold (data_off e) in H. symmetry. apply align4_add; [lia| |apply H]. unfold CPIO_HDR_LEN in H. lia.
Qed.

Section entries.
Context {D : Type} (ops : vfsops_t D) (v : vfs_t).
Notation MI := (M (ist D)).

(** Only the bytes of the file count. *)
Lemma import_entry_data mode maj min name data junk : is_lnk mode = false ->
  import_entry ops v mode (Z.of_nat (length data)) maj min name (data ++ junk) =
  import_entry ops v mode (Z.of_nat (length data)) maj min name data.
Proof.
  intros Hl. unfold import_entry. unfold is_lnk in Hl. rewrite Hl. rewrite !(proj2 (Nat.leb_le _ _)) by (rewrite ?length_app; lia).
  rewrite Nat2Z.id, take_app_length, firstn_all. done.
Qed.

(** Unpacking entry by entry. *)
Fixpoint import_all (es : list entry) : MI Z :=
  match es with
  | [] => mret 0
  | e :: r =>
      o ← import_entry ops v (e_mode e) (size_of e) 0 0 (e_name e) (e_data e);
      match o with Some x => mret x | None => import_all r end
  end.

(** What the loop reads at a packed entry. *)
Lemma entry_reads ino e r : entry_ok e -> let hdr := packed ino e ++ r in
  memcmp hdr CPIO_MAGIC 6 = Some 0 /\ cpio_hex (drop 14 hdr) 8 = Some (e_mode e) /\ cpio_hex (drop 54 hdr) 8 = Some (size_of e) /\
  cpio_hex (drop 78 hdr) 8 = Some 0 /\ cpio_hex (drop 86 hdr) 8 = Some 0 /\ cpio_hex (drop 94 hdr) 8 = Some (Z.of_nat (length (e_name e)) + 1) /\
  (exists junk, drop (Z.to_nat CPIO_HDR_LEN) hdr = cstr (e_name e) ++ junk) /\ (exists junk, drop (Z.to_nat (data_off e)) hdr = e_data e ++ junk).
Proof.
  intros He hdr. pose proof (ok_mode _ He) as Om. pose proof (ok_short _ He) as Os. pose proof (ok_data _ He) as Od.
  assert (exists junk, hdr = head_of ino e ++ cstr (e_name e) ++ junk) as (junk & Eh).
  { eexists. unfold hdr. unfold packed, align4. by rewrite <- !app_assoc. }
  destruct (header_fields ino (e_mode e) 0 0 (if is_dir (e_mode e) then 2 else 1) 0 (size_of e) 0 0 0 0 (Z.of_nat (length (e_name e)) + 1) (cstr (e_name e) ++ junk))
    as (H1 & H2 & H3 & H4 & H5 & H6).
  { rewrite (size_of_data e He). repeat constructor; lia. }
  fold (head_of ino e) in *. rewrite <- Eh in *. split_and!; try done.
  - exists junk. rewrite Eh. apply drop_app_length'. unfold head_of. by rewrite length_header.
  - destruct (body_data e) as (pad & Ebody). exists (pad ++ r). unfold hdr. unfold packed. rewrite <- app_assoc.
    rewrite drop_app_length' by (pose proof (head_length ino e); lia). by rewrite Ebody, <- app_assoc.
Qed.

(** One round of the loop on a packed entry. *)
Lemma import_step fuel pre ino e r s :
  entry_ok e -> let base := pre ++ packed ino e ++ r in
  import_loop ops v (S fuel) base (Z.of_nat (length base)) (Z.of_nat (length pre)) s =
  (o ← import_entry ops v (e_mode e) (size_of e) 0 0 (e_name e) (e_data e);
   match o with Some x => mret x | None => import_loop ops v fuel base (Z.of_nat (length base)) (Z.of_nat (length (pre ++ packed ino e))) end) s.
Proof.
  intros He base. pose proof (add_length ino e) as Hl. pose proof (size_of_data e He) as Hsz. destruct (ok_head e He) as (c0 & n0 & En & Hc0).
  assert (length base = length pre + (length (packed ino e) + length r))%nat as Lb by (unfold base; by rewrite !length_app).
  pose proof (align4_up (CPIO_HDR_LEN + (Z.of_nat (length (e_name e)) + 1)) ltac:(unfold CPIO_HDR_LEN; lia)) as Hdo. fold (data_off e) in Hdo.
  pose proof (align4_up (data_off e + Z.of_nat (length (e_data e))) ltac:(unfold CPIO_HDR_LEN in *; lia)) as Hnx.
  cbn [import_loop]. rewrite (proj2 (Z.leb_le _ _)) by (unfold CPIO_HDR_LEN in *; lia). cbn [negb].
  assert (drop (Z.to_nat (Z.of_nat (length pre))) base = packed ino e ++ r) as -> by (rewrite Nat2Z.id; apply drop_app_length).
  destruct (entry_reads ino e r He) as (Hm & H1 & H2 & H3 & H4 & H5 & (j1 & Hname) & (j2 & Hdata)). set (hdr := packed ino e ++ r) in *.
  rewrite Hm, bind_deref. cbn [Z.eqb negb]. rewrite H1, bind_deref, H2, bind_deref, H5, bind_deref. fold (data_off e). rewrite Hsz, <- Hl.
  rewrite (proj2 (Z.ltb_ge _ _)) by lia. rewrite Hname. rewrite <- (app_nil_r (cstr CPIO_TRAILER)), streq_decides, bind_deref by (by apply ok_name || (repeat constructor; lia)).
  rewrite decide_False by apply He. cbn [Z.eqb negb]. rewrite Hdata. unfold cstr. rewrite En. cbn [app head]. rewrite bind_deref.
  rewrite (proj2 (Z.eqb_neq _ _) Hc0). cbn [head]. rewrite bind_deref.
  assert (0 < c0 < 256) by (pose proof (ok_name _ He) as Hs; rewrite En in Hs; by apply Forall_inv in Hs).
  rewrite (proj2 (Z.eqb_neq c0 0)) by lia. change (c0 :: (n0 ++ [0]) ++ j1) with (cstr (c0 :: n0) ++ j1).
  rewrite strlen_cstr, bind_deref by (rewrite <- En; by apply ok_name). rewrite H3, bind_deref, H4, bind_deref. unfold cstr. rewrite <- app_assoc, Nat2Z.id, take_app_length.
  rewrite import_entry_data by apply He. rewrite <- Nat2Z.inj_add, <- length_app. done.
Qed.

Lemma trailer_length ino : length (trailer ino) = 124%nat.
Proof. apply Nat2Z.inj. unfold trailer. rewrite length_align4, !length_app, length_header. done. Qed.

Lemma import_trailer fuel pre ino s : let base := pre ++ trailer ino in
  import_loop ops v (S fuel) base (Z.of_nat (length base)) (Z.of_nat (length pre)) s = Done s 0.
Proof.
  intros base. assert (length base = length pre + 124)%nat as Lb by (unfold base; by rewrite length_app, trailer_length).
  cbn [import_loop]. rewrite (proj2 (Z.leb_le _ _)) by (unfold CPIO_HDR_LEN; lia). cbn [negb].
  assert (drop (Z.to_nat (Z.of_nat (length pre))) base = trailer ino) as -> by (rewrite Nat2Z.id; apply drop_app_length).
  assert (exists junk, trailer ino = header (ino + 1) 0 0 0 1 0 0 0 0 0 0 11 ++ cstr CPIO_TRAILER ++ junk) as (junk & ->).
  { eexists. unfold trailer, align4, cstr. by rewrite <- !app_assoc. }
  destruct (header_fields (ino + 1) 0 0 0 1 0 0 0 0 0 0 11 (cstr CPIO_TRAILER ++ junk)) as (Hm & H1 & H2 & _ & _ & H5); [repeat constructor; lia|].
  rewrite Hm, bind_deref. cbn [Z.eqb negb]. rewrite H1, bind_deref, H2, bind_deref, H5, bind_deref.
  change (cpio_align4 (cpio_align4 (CPIO_HDR_LEN + 11) + 0)) with 124. rewrite (proj2 (Z.ltb_ge _ _)) by lia.
  rewrite drop_app_length' by (by rewrite length_header). rewrite <- (app_nil_r (cstr CPIO_TRAILER)) at 2.
  rewrite streq_decides, bind_deref by (repeat constructor; lia). by rewrite decide_True.
Qed.

Lemma add_all_ok es : forall ino, Forall entry_ok es -> exists b i, add_all ino es = Some (b, i) /\ (length es <= length b)%nat.
Proof.
  induction es as [|e es IH]; intros ino Hes; [by eexists _, _|]. apply Forall_cons in Hes as [He Hes]. destruct (IH (ino + 1) Hes) as (b & i & E & Hl).
  cbn [add_all]. rewrite (add_packed _ _ He), E. cbn [mbind option_bind fst snd]. eexists _, _. split; [done|].
  unfold packed, align4. rewrite !length_app. unfold head_of. rewrite length_header. cbn [length]. lia.
Qed.

Lemma import_entries es : forall fuel pre ino b i s, Forall entry_ok es -> (length es < fuel)%nat -> add_all ino es = Some (b, i) ->
  let base := pre ++ b ++ trailer i in
  import_loop ops v fuel base (Z.of_nat (length base)) (Z.of_nat (length pre)) s = import_all es s.
Proof.
  induction es as [|e es IH]; intros [|fuel] pre ino b i s Hes Hf Ha base; cbn [length] in Hf; try lia; cbn [add_all] in Ha.
  - injection Ha as <- <-. apply import_trailer.
  - apply Forall_cons in Hes as [He Hes]. destruct (add_all_ok es (ino + 1) Hes) as (b' & i' & E & _). rewrite (add_packed _ _ He), E in Ha. cbn [mbind option_bind fst snd] in Ha. apply (inj Some), pair_equal_spec in Ha as [<- <-].
    unfold base. rewrite <- !app_assoc, (import_step fuel pre (ino + 1) e (b' ++ trailer i') s He). cbn [import_all]. unfold mbind, M_bind.
    destruct (import_entry ops v (e_mode e) (size_of e) 0 0 (e_name e) (e_data e) s) as [s1 [x|]|]; [done| |done].
    rewrite <- (IH fuel (pre ++ packed (ino + 1) e) (ino + 1) b' i' s1 Hes ltac:(lia) E). by rewrite <- !app_assoc.
Qed.

Lemma root_ok : entry_ok root_entry.
Proof. split; try done; [repeat constructor; done|by exists (ch "."), []]. Qed.

(** C17. For directories and regular files with names in ASCII the tool writes an
    archive, and unpacking it does what unpacking its entries one by one does: the
    root directory, then every directory and file with its mode, name and contents,
    in the order of the walk. *)
Theorem import_mkinitrd es s : Forall entry_ok es ->
  exists img, mkinitrd es = Some img /\ initramfs_import ops v img (Z.of_nat (length img)) s = import_all (root_entry :: es) s.
Proof.
  intros Hes. destruct (add_all_ok es 1 Hes) as (b & i & E & Hl). unfold mkinitrd. rewrite (add_packed _ _ root_ok), E. cbn [mbind option_bind fst snd].
  eexists. split; [done|]. unfold initramfs_import. pose proof (import_entries (root_entry :: es) (S (length (packed 1 root_entry ++ b ++ trailer i))) [] 0 (packed 1 root_entry ++ b) i s) as Hi.
  cbn [add_all] in Hi. change (0 + 1) with 1 in Hi. rewrite (add_packed _ _ root_ok), E in Hi. cbv zeta in Hi. rewrite app_nil_l, <- app_assoc in Hi. apply Hi; [|  |done].
  - constructor; [apply root_ok|done].
  - rewrite !length_app, trailer_length. cbn [length]. lia.
Qed.

End entries.

(** ** Mounting *)

(** [modules]: the contents of the modules that the boot loader has loaded, seen
    through the direct map. *)
Definition initramfs_mount (modules : list (list Z)) (v0 : vfs_t) : M (ist Ramfs.rst) (Z * vfs_t) :=
  match modules with
  | [] => mret (- ENOENT, v0)
  | img :: _ =>
      r ← onfs (Ramfs.ramfs_mount v0);
      let '(ret, v, ops) := r in
      match ops with
      | Some ops => if ret <? 0 then mret (ret, v) else ret ← initramfs_import ops v img (Z.of_nat (length img)); mret (ret, v)
      | None => mret (ret, v)
      end
  end.

(** ** An image *)

Definition image : list entry :=
  [mk_entry (str "bin") (Z.lor S_IFDIR 493) []; mk_entry (str "bin/sh") (Z.lor S_IFREG 493) (str "#!"); mk_entry (str "etc/motd") (Z.lor S_IFREG 420) (str "hello")].

Lemma image_ok : Forall entry_ok image.
Proof. repeat constructor; try (eexists _, _; split; [reflexivity|]); vm_compute; intuition congruence. Qed.

Definition ist0 : ist Ramfs.rst := mk_ist (Ramfs.mk_rst ∅ 1 (replicate 40 (Some [])) ∅ []) [].
Definition vfs0 : vfs_t := mk_vfs (str "/") 0 0 0 0.
(** Packing and mounting. *)
Definition boot (es : list entry) : option (outcome (ist Ramfs.rst) (Z * vfs_t)) := img ← mkinitrd es; Some (initramfs_mount [img] vfs0 ist0).
Definition booted : ist Ramfs.rst := match boot image with Some o => state_of o ist0 | None => ist0 end.
Definition root : vfs_t := mk_vfs (str "/") 1 0 0 1.

(** Walking a path and reading what is there. *)
Fixpoint walk (p : list (list Z)) (d : Z) : M Ramfs.rst Z :=
  match p with [] => mret d | c :: r => i ← Ramfs.ramfs_lookup root d c; if i <? 0 then fault else walk r i end.
Definition cat (path : list (list Z)) (nb : Z) : M Ramfs.rst (list Z) := ino ← walk path 1; rb ← Ramfs.ramfs_read root ino 0 nb; mret rb.2.

Lemma image_boots :
  (o ← boot image; result_of o) = Some (0, root) /\
  result_of (cat [str "bin"; str "sh"] 100 (fs booted)) = Some (str "#!") /\
  result_of (cat [str "etc"; str "motd"] 100 (fs booted)) = Some (str "hello").
Proof. vm_compute. done. Qed.

Lemma import_mkinitrd_witness :
  let s := mk_ist Ramfs.mounted [] in
  Forall entry_ok image /\
  exists img, mkinitrd image = Some img /\
    initramfs_import Ramfs.ramfs_ops Ramfs.vfs0 img (Z.of_nat (length img)) s = import_all Ramfs.ramfs_ops Ramfs.vfs0 (root_entry :: image) s.
Proof. intros s. split; [exact image_ok|]. apply (import_mkinitrd Ramfs.ramfs_ops Ramfs.vfs0 image s image_ok). Defined.

(** The tool writes the size of a link as 0 and its target all the same: the
    reader takes the target for the next header and gives up. *)
Lemma link_breaks_archive :
  (o ← boot [mk_entry (str "l") (Z.lor S_IFLNK 511) (str "bin"); mk_entry (str "x") (Z.lor S_IFREG 420) (str "1")]; result_of o) = Some (- EINVAL, root).
Proof. vm_compute. done. Qed.

(** The length of a name is counted in code points but its bytes are written: after
    six accented letters the reader looks for the data four bytes too early. *)
Lemma accents_break_archive :
  (o ← boot [mk_entry (replicate 6 0xE9) (Z.lor S_IFREG 420) (str "1234")]; result_of o) = Some (- EINVAL, root).
Proof. vm_compute. done. Qed.

End Initramfs.
