(* ===== verification/Block.v ===== *)
(** The block layer ([src/drivers/storage/block/generic.c],
    [include/drivers/storage/block/block.h]): the registry of devices and the
    transfer of runs of sectors.

    Model: the array [blkdevs] up to [nblkdevavl] (absent when NULL), its
    capacity, the counters per type, and the state [D] of the hardware.  The
    sector functions of the four kinds of controller drive hardware and are the
    table [drivers]; [sector_laws] is what they promise: a transfer that reports
    success has moved the sector, and no transfer touches another sector. *)
From S2P Require Import Prelude CString.

Module Block.
Import CString.

Definition DRV_ATA : Z := 1.
Definition DRV_AHCI : Z := 2.
Definition DRV_USBMSD : Z := 3.
Definition DRV_VIRTIO : Z := 4.
Definition SECSZ : nat := 512.

Definition BLKDEV_TYPE (id : Z) : Z := Z.land (Z.shiftr id 24) 0xFF.
Definition BLKDEV_DEVNO (id : Z) : Z := Z.land id 0x00FFFFFF.
Definition BLKDEV_ID (type devno : Z) : Z := Z.lor (u64 (Z.shiftl type 24)) devno.

Record blockdev := mk_dev { b_name : list Z; b_id : Z; b_priv : Z }.

(** Sector functions: device, sector and buffer; result and buffer. *)
Record drivers (D : Type) := mk_drv {
  ata_secread : Z -> Z -> list Z -> M D (Z * list Z);
  ahci_secread : Z -> Z -> list Z -> M D (Z * list Z);
  usbmsd_secread : Z -> Z -> list Z -> M D (Z * list Z);
  virtio_blk_secread : Z -> Z -> list Z -> M D (Z * list Z);
  ata_secwrite : Z -> Z -> list Z -> M D Z;
  ahci_secwrite : Z -> Z -> list Z -> M D Z;
  usbmsd_secwrite : Z -> Z -> list Z -> M D Z;
  virtio_blk_secwrite : Z -> Z -> list Z -> M D Z
}.
Arguments mk_drv {D}.
Arguments ata_secread {D}.
Arguments ahci_secread {D}.
Arguments usbmsd_secread {D}.
Arguments virtio_blk_secread {D}.
Arguments ata_secwrite {D}.
Arguments ahci_secwrite {D}.
Arguments usbmsd_secwrite {D}.
Arguments virtio_blk_secwrite {D}.

Record blk (D : Type) := mk_blk {
  blkdevs : option (list blockdev);
  nblkdevsup : Z;
  nblkdevtyp : list Z;
  allocs : list bool; (* outcomes of the allocations to come *)
  hw : D
}.
Arguments mk_blk {D}.
Arguments blkdevs {D}.
Arguments nblkdevsup {D}.
Arguments nblkdevtyp {D}.
Arguments allocs {D}.
Arguments hw {D}.

Section block.
Context {D : Type} (drv : drivers D).
Notation MB := (M (blk D)).

Definition set_hw (d : D) (s : blk D) : blk D := mk_blk (blkdevs s) (nblkdevsup s) (nblkdevtyp s) (allocs s) d.

Definition onhw {A} (m : M D A) : MB A := fun s =>
  match m (hw s) with Done d a => Done (set_hw d s) a | Fault => Fault end.

(** Whether the next allocation succeeds. *)
Definition alloc : MB bool := fun s =>
  match allocs s with
  | [] => Done s true
  | b :: r => Done (mk_blk (blkdevs s) (nblkdevsup s) (nblkdevtyp s) r (hw s)) b
  end.

Definition devs (s : blk D) : list blockdev := default [] (blkdevs s).
Definition nblkdevavl (s : blk D) : Z := Z.of_nat (length (devs s)).

Definition block_getndevs : MB Z := gets nblkdevavl.
Definition block_getndevstyp (type : Z) : MB Z := s ← get; deref (aget (nblkdevtyp s) (u8 type)).

(** The devices are registered by the probes of the four controllers. *)
Definition block_init (ata_enumerate ahci_enumerate usbmsd_enumerate virtio_blk_enumerate : MB unit) : MB Z :=
  ok ← alloc;
  _ ← modify (fun s => mk_blk (if ok : bool then Some [] else None) 8 (nblkdevtyp s) (allocs s) (hw s));
  if negb ok then mret (-1) else
  _ ← ata_enumerate;
  _ ← ahci_enumerate;
  _ ← usbmsd_enumerate;
  _ ← virtio_blk_enumerate;
  gets nblkdevavl.

Fixpoint find_name (l : list blockdev) (name : list Z) : option (option blockdev) :=
  match l with
  | [] => Some None
  | d :: r =>
      e ← streq (cstr (b_name d)) (cstr name);
      if negb (e =? 0) then Some (Some d) else find_name r name
  end.

Definition block_getdevnam (name : list Z) : MB (Z * option blockdev) :=
  s ← get;
  o ← deref (find_name (devs s) name);
  mret (match o with Some d => (0, Some d) | None => (- ENOEXIST, None) end).

Definition find_id (l : list blockdev) (id : Z) : option blockdev := List.find (fun d => b_id d =? id) l.

Definition block_getdevid (id : Z) : MB (Z * option blockdev) :=
  s ← get;
  mret (match find_id (devs s) id with Some d => (0, Some d) | None => (- ENOEXIST, None) end).

Definition blkdevnams (type : Z) : list Z :=
  if type =? DRV_ATA then [97; 116; 97]
  else if type =? DRV_AHCI then [97; 104; 99; 105]
  else if type =? DRV_USBMSD then [117; 115; 98; 98; 108; 107]
  else [118; 105; 114; 116; 98; 108; 107].

Definition block_register (type priv : Z) : MB Z :=
  if negb (type =? DRV_ATA) && negb (type =? DRV_AHCI) && negb (type =? DRV_USBMSD) && negb (type =? DRV_VIRTIO)
  then mret (- EINVAL) else
  s ← get;
  grown ← (if nblkdevsup s <=? nblkdevavl s + 1 then
             ok ← alloc;
             if negb ok then mret false else
             _ ← modify (fun s => mk_blk (Some (devs s)) (nblkdevsup s + 4) (nblkdevtyp s) (allocs s) (hw s));
             mret true
           else mret true);
  if negb grown then mret (- ENOMEM) else
  s ← get;
  l ← deref (blkdevs s);
  n ← deref (aget (nblkdevtyp s) type);
  t ← deref (aset (nblkdevtyp s) type (u32 (n + 1)));
  let id := u32 (BLKDEV_ID type n) in
  let dev := mk_dev (blkdevnams type ++ decimal (BLKDEV_DEVNO id)) id priv in
  _ ← put (mk_blk (Some (l ++ [dev])) (nblkdevsup s) t (allocs s) (hw s));
  mret 0.

(** The sector function of a device and whether it takes 64-bit sector numbers. *)
Definition read_fn (type : Z) : option (bool * (Z -> Z -> list Z -> M D (Z * list Z))) :=
  if type =? DRV_ATA then Some (false, ata_secread drv)
  else if type =? DRV_AHCI then Some (true, ahci_secread drv)
  else if type =? DRV_USBMSD then Some (false, usbmsd_secread drv)
  else if type =? DRV_VIRTIO then Some (false, virtio_blk_secread drv)
  else None.

Definition write_fn (type : Z) : option (bool * (Z -> Z -> list Z -> M D Z)) :=
  if type =? DRV_ATA then Some (false, ata_secwrite drv)
  else if type =? DRV_AHCI then Some (true, ahci_secwrite drv)
  else if type =? DRV_USBMSD then Some (false, usbmsd_secwrite drv)
  else if type =? DRV_VIRTIO then Some (false, virtio_blk_secwrite drv)
  else None.

Definition lba_of (wide : bool) (lba : Z) : Z := if wide then u64 lba else u32 lba.

(** [buf + i * 512], the sector the function works on; it must lie within the buffer. *)
Definition sec_at (buf : list Z) (i : nat) : option (list Z) :=
  if (S i * SECSZ <=? length buf)%nat then Some (take SECSZ (drop (i * SECSZ) buf)) else None.

(** [n] sectors from index [i]: the result of the first failure, or 0. *)
Fixpoint write_loop (n i : nat) (wide : bool) (fn : Z -> Z -> list Z -> M D Z) (prv lba : Z) (buf : list Z) : MB Z :=
  match n with
  | O => mret 0
  | S n' =>
      sec ← deref (sec_at buf i);
      v ← onhw (fn prv (lba_of wide (lba + Z.of_nat i)) sec);
      if v <? 0 then mret v else write_loop n' (S i) wide fn prv lba buf
  end.

Fixpoint read_loop (n i : nat) (wide : bool) (fn : Z -> Z -> list Z -> M D (Z * list Z)) (prv lba : Z) (buf : list Z)
  : MB (Z * list Z) :=
  match n with
  | O => mret (0, buf)
  | S n' =>
      sec ← deref (sec_at buf i);
      vb ← onhw (fn prv (lba_of wide (lba + Z.of_nat i)) sec);
      let buf' := splice buf vb.2 (i * SECSZ) in
      if vb.1 <? 0 then mret (vb.1, buf') else read_loop n' (S i) wide fn prv lba buf'
  end.

Definition block_write (id : Z) (buf : list Z) (lba cnt : Z) : MB Z :=
  o ← block_getdevid id;
  match o.2 with
  | None => mret (- ENOEXIST)
  | Some dev =>
      match write_fn (BLKDEV_TYPE (b_id dev)) with
      | None => mret (- EINVAL)
      | Some (wide, fn) => write_loop (Z.to_nat cnt) 0 wide fn (b_priv dev) (u32 lba) buf
      end
  end.

Definition block_read (id : Z) (buf : list Z) (lba cnt : Z) : MB (Z * list Z) :=
  o ← block_getdevid id;
  match o.2 with
  | None => mret (- ENOEXIST, buf)
  | Some dev =>
      match read_fn (BLKDEV_TYPE (b_id dev)) with
      | None => mret (- EINVAL, buf)
      | Some (wide, fn) => read_loop (Z.to_nat cnt) 0 wide fn (b_priv dev) (u32 lba) buf
      end
  end.

End block.

(** ** What the sector functions promise *)

Class sector_laws {D : Type} (drv : drivers D) := {
  sector : D -> Z -> Z -> Z -> list Z; (* type, device, number *)
  sector_len d t p l : length (sector d t p l) = SECSZ;
  law_secread t wide fn p l old d d' v b :
    read_fn drv t = Some (wide, fn) -> length old = SECSZ -> fn p l old d = Done d' (v, b) ->
    (forall t' p' l', sector d' t' p' l' = sector d t' p' l') /\ length b = SECSZ /\
    (0 <= v -> b = sector d t p l);
  law_secwrite t wide fn p l buf d d' v :
    write_fn drv t = Some (wide, fn) -> length buf = SECSZ -> fn p l buf d = Done d' v ->
    (forall t' p' l', (t', p', l') <> (t, p, l) -> sector d' t' p' l' = sector d t' p' l') /\
    (0 <= v -> sector d' t p l = buf)
}.

(** The sectors [l .. l + n) of a device. *)
Fixpoint run_of {D} {drv : drivers D} `{!sector_laws drv} (d : D) (t p l : Z) (n : nat) : list Z :=
  match n with
  | O => []
  | S n' => sector d t p l ++ run_of d t p (l + 1) n'
  end.

Section laws.
Context {D : Type} (drv : drivers D) `{!sector_laws drv}.

Definition same_sectors (d d' : D) : Prop := forall t p l, sector d' t p l = sector d t p l.

(** Outside the sectors [l .. l + n) of device [p] of type [t] nothing changes. *)
Definition same_outside (t p l : Z) (n : nat) (d d' : D) : Prop :=
  forall t' p' l', ~ (t' = t /\ p' = p /\ l <= l' < l + Z.of_nat n) -> sector d' t' p' l' = sector d t' p' l'.

Lemma length_run d t p : forall n l, length (run_of d t p l n) = (n * SECSZ)%nat.
Proof. induction n as [|n IH]; intros l; [done|]. cbn [run_of]. rewrite length_app, sector_len, IH. lia. Qed.

Lemma run_ext d d' t p : forall n l,
  (forall l', l <= l' < l + Z.of_nat n -> sector d' t p l' = sector d t p l') -> run_of d' t p l n = run_of d t p l n.
Proof.
  induction n as [|n IH]; intros l H; [done|]. cbn [run_of]. rewrite H by lia. f_equal. apply IH.
  intros l' Hl'. apply H. lia.
Qed.

Lemma sec_at_ok buf i : (S i * SECSZ <= length buf)%nat -> sec_at buf i = Some (take SECSZ (drop (i * SECSZ) buf)).
Proof. intros H. unfold sec_at. by rewrite (proj2 (Nat.leb_le _ _) H). Qed.

Lemma lba_of_small wide l : 0 <= l < 2 ^ 32 -> lba_of wide l = l.
Proof. intros H. destruct wide; apply wrap_small; lia. Qed.

Lemma read_loop_spec t wide fn p lba :
  read_fn drv t = Some (wide, fn) -> 0 <= lba ->
  forall n i buf (s s' : blk D) r b,
  ((i + n) * SECSZ <= length buf)%nat -> lba + Z.of_nat (i + n) <= 2 ^ 32 ->
  read_loop n i wide fn p lba buf s = Done s' (r, b) ->
  exists d, s' = set_hw d s /\ same_sectors (hw s) d /\ length b = length buf /\
    (0 <= r -> r = 0 /\
       b = take (i * SECSZ) buf ++ run_of (hw s) t p (lba + Z.of_nat i) n ++ drop ((i + n) * SECSZ) buf).
Proof.
  intros Hf Hlba. induction n as [|n IH]; intros i buf s s' r b Hlen Hl E; cbn [read_loop] in E.
  - injection E as <- <- <-. exists (hw s). split; [by destruct s|]. split; [done|]. split; [done|].
    intros _. split; [done|]. cbn [run_of app]. rewrite Nat.add_0_r. by rewrite take_drop.
  - rewrite sec_at_ok in E by lia. rewrite bind_deref, lba_of_small in E by lia.
    apply bind_inv in E as (s1 & [v c] & E1 & E). unfold onhw in E1.
    destruct (fn _ _ _ _) as [d [v' c']|] eqn:Ef; [|done]. injection E1 as <- -> ->.
    eapply law_secread in Ef as (Hs & Hc & Hv); [|done|rewrite length_take, length_drop; lia].
    assert (length (splice buf c (i * SECSZ)) = length buf) as Hlen' by (rewrite length_splice by lia; lia).
    cbn [fst snd] in E. destruct (Z.ltb_spec v 0) as [Hneg|Hpos].
    { injection E as <- <- <-. exists d. split_and!; try done; lia. }
    apply IH in E as (d' & -> & Hs' & Hb & Hr); [|lia|lia]. exists d'. cbn [hw set_hw] in *.
    split; [done|]. split; [intros ???; by rewrite Hs'|]. split; [lia|]. intros H. destruct (Hr H) as [-> ->].
    split; [done|]. cbn [run_of]. rewrite (Hv Hpos) in *.
    rewrite (run_ext (hw s) d) by (intros; apply Hs).
    assert (take (S i * SECSZ) (splice buf (sector (hw s) t p (lba + Z.of_nat i)) (i * SECSZ))
            = take (i * SECSZ) buf ++ sector (hw s) t p (lba + Z.of_nat i)) as ->.
    { unfold splice. rewrite app_assoc, take_app_length'; [done|]. rewrite length_app, length_take, sector_len. lia. }
    rewrite <- !app_assoc. do 2 f_equal. replace (lba + Z.of_nat (S i)) with (lba + Z.of_nat i + 1) by lia. f_equal.
    unfold splice. rewrite app_assoc, drop_app_ge by (rewrite length_app, length_take, sector_len; lia).
    rewrite drop_drop, length_app, length_take, sector_len. f_equal. lia.
Qed.

Lemma write_loop_spec t wide fn p lba :
  write_fn drv t = Some (wide, fn) -> 0 <= lba ->
  forall n i buf (s s' : blk D) r,
  ((i + n) * SECSZ <= length buf)%nat -> lba + Z.of_nat (i + n) <= 2 ^ 32 ->
  write_loop n i wide fn p lba buf s = Done s' r ->
  exists d, s' = set_hw d s /\ same_outside t p (lba + Z.of_nat i) n (hw s) d /\
    (0 <= r -> r = 0 /\ run_of d t p (lba + Z.of_nat i) n = take (n * SECSZ) (drop (i * SECSZ) buf)).
Proof.
  intros Hf Hlba. induction n as [|n IH]; intros i buf s s' r Hlen Hl E; cbn [write_loop] in E.
  - injection E as <- <-. exists (hw s). split; [by destruct s|]. split; [done|]. done.
  - rewrite sec_at_ok in E by lia. rewrite bind_deref, lba_of_small in E by lia.
    apply bind_inv in E as (s1 & v & E1 & E). unfold onhw in E1.
    destruct (fn _ _ _ _) as [d v'|] eqn:Ef; [|done]. injection E1 as <- ->.
    eapply law_secwrite in Ef as (Hs & Hv); [|done|rewrite length_take, length_drop; lia].
    assert (forall d', same_outside t p (lba + Z.of_nat (S i)) n d d' ->
                       same_outside t p (lba + Z.of_nat i) (S n) (hw s) d') as Hout.
    { intros d' H t' p' l' Hne. rewrite H; [apply Hs|]; [intros [= -> -> ->]|intros (-> & -> & ?)]; apply Hne; lia. }
    destruct (Z.ltb_spec v 0) as [Hneg|Hpos].
    { injection E as <- <-. exists d. split; [done|]. split; [by apply Hout|lia]. }
    apply IH in E as (d' & -> & Hs' & Hr); [|lia|lia]. exists d'. cbn [hw set_hw] in *.
    split; [done|]. split; [by apply Hout|]. intros H. destruct (Hr H) as [-> Hrun]. split; [done|].
    cbn [run_of]. rewrite (Hs' t p (lba + Z.of_nat i)), (Hv Hpos) by lia.
    replace (lba + Z.of_nat i + 1) with (lba + Z.of_nat (S i)) by lia. rewrite Hrun.
    replace (S i * SECSZ)%nat with (i * SECSZ + SECSZ)%nat by lia. rewrite <- drop_drop.
    replace (S n * SECSZ)%nat with (SECSZ + n * SECSZ)%nat by lia. by rewrite take_take_drop.
Qed.

(** Device [id] is [p] of type [t]. *)
Definition attached (s : blk D) (id t p : Z) : Prop :=
  exists dev, find_id (devs s) id = Some dev /\ BLKDEV_TYPE (b_id dev) = t /\ b_priv dev = p /\
    t ∈ [DRV_ATA; DRV_AHCI; DRV_USBMSD; DRV_VIRTIO].

Lemma attached_fns s id t p :
  attached s id t p ->
  exists w1 f1 w2 f2, read_fn drv t = Some (w1, f1) /\ write_fn drv t = Some (w2, f2).
Proof.
  intros (dev & _ & _ & _ & Ht). unfold read_fn, write_fn.
  repeat (apply elem_of_cons in Ht as [->|Ht]; [cbn; eauto 8|]). by apply elem_of_nil in Ht.
Qed.

Lemma attached_hw s id t p d : attached s id t p -> attached (set_hw d s) id t p.
Proof. done. Qed.

Lemma block_read_spec id t p lba n buf s s' r b :
  attached s id t p -> 0 <= lba -> lba + Z.of_nat n <= 2 ^ 32 -> lba < 2 ^ 32 -> length buf = (n * SECSZ)%nat ->
  block_read drv id buf lba (Z.of_nat n) s = Done s' (r, b) ->
  exists d, s' = set_hw d s /\ same_sectors (hw s) d /\ length b = length buf /\
    (0 <= r -> r = 0 /\ b = run_of (hw s) t p lba n).
Proof.
  intros Ha Hl Hn Hl' Hlen E. destruct (attached_fns _ _ _ _ Ha) as (w & f & _ & _ & Hf & _).
  destruct Ha as (dev & Hd & Ht & Hp & _). unfold block_read, block_getdevid in E.
  apply bind_inv in E as (s1 & o & E1 & E). injection E1 as <- <-. rewrite Hd in E. cbn [snd] in E.
  rewrite Ht, Hf, Hp, Nat2Z.id, wrap_small in E by lia.
  eapply read_loop_spec in E as (d & -> & Hs & Hb & Hr); [|done|lia|lia|lia].
  exists d. split_and!; try done. intros H. destruct (Hr H) as [-> ->]. split; [done|].
  cbn [Nat.add Nat.mul take app]. rewrite Z.add_0_r, drop_ge, app_nil_r by (rewrite Hlen; done). done.
Qed.

Lemma block_write_spec id t p lba n buf s s' r :
  attached s id t p -> 0 <= lba -> lba + Z.of_nat n <= 2 ^ 32 -> lba < 2 ^ 32 -> length buf = (n * SECSZ)%nat ->
  block_write drv id buf lba (Z.of_nat n) s = Done s' r ->
  exists d, s' = set_hw d s /\ same_outside t p lba n (hw s) d /\ (0 <= r -> r = 0 /\ run_of d t p lba n = buf).
Proof.
  intros Ha Hl Hn Hl' Hlen E. destruct (attached_fns _ _ _ _ Ha) as (_ & _ & w & f & _ & Hf).
  destruct Ha as (dev & Hd & Ht & Hp & _). unfold block_write, block_getdevid in E.
  apply bind_inv in E as (s1 & o & E1 & E). injection E1 as <- <-. rewrite Hd in E. cbn [snd] in E.
  rewrite Ht, Hf, Hp, Nat2Z.id, wrap_small in E by lia.
  eapply write_loop_spec in E as (d & -> & Hs & Hr); [|done|lia|lia|lia]. rewrite Z.add_0_r in *.
  exists d. split_and!; try done. intros H. destruct (Hr H) as [-> ->]. split; [done|].
  cbn [Nat.mul drop]. apply take_ge. lia.
Qed.

(** A run of sectors that was written reads back as written, and neither
    transfer touches any sector outside it, whatever the controller. *)
Theorem block_write_read id t p lba n buf old s s1 s2 r b :
  attached s id t p -> 0 <= lba < 2 ^ 32 -> lba + Z.of_nat n <= 2 ^ 32 ->
  length buf = (n * SECSZ)%nat -> length old = (n * SECSZ)%nat ->
  block_write drv id buf lba (Z.of_nat n) s = Done s1 0 ->
  block_read drv id old lba (Z.of_nat n) s1 = Done s2 (r, b) ->
  same_outside t p lba n (hw s) (hw s2) /\ (r < 0 \/ (r = 0 /\ b = buf)).
Proof.
  intros Ha Hl Hn Hb Ho Ew Er.
  apply (block_write_spec _ t p) in Ew as (d & -> & Hout & Hw); [|done|lia..].
  apply (block_read_spec _ t p) in Er as (d' & -> & Hs & _ & Hr); [|by apply attached_hw|lia..].
  cbn [hw set_hw] in *. split; [intros t' p' l' H; rewrite (Hs t' p' l'); by apply Hout|].
  destruct (Z.lt_ge_cases r 0); [by left|right]. destruct Hr as [-> ->]; [done|]. split; [done|]. by apply Hw.
Qed.

End laws.

(** ** The registry *)

Section registry.
Context {D : Type}.

(** Each id names its type and a number below the counter of that type. *)
Definition id_of (s : blk D) (dev : blockdev) : Prop :=
  exists t n c, t ∈ [DRV_ATA; DRV_AHCI; DRV_USBMSD; DRV_VIRTIO] /\ nblkdevtyp s !! Z.to_nat t = Some c /\
    b_id dev = t * 2 ^ 24 + n /\ 0 <= n < c.

Definition registry_ok (s : blk D) : Prop :=
  length (nblkdevtyp s) = 5%nat /\ (forall i c, nblkdevtyp s !! i = Some c -> 0 <= c <= 2 ^ 24) /\
  NoDup (map b_id (devs s)) /\ Forall (id_of s) (devs s).

Lemma drv_range t : t ∈ [DRV_ATA; DRV_AHCI; DRV_USBMSD; DRV_VIRTIO] -> 1 <= t <= 4.
Proof.
  unfold DRV_ATA, DRV_AHCI, DRV_USBMSD, DRV_VIRTIO. rewrite !elem_of_cons, elem_of_nil. lia.
Qed.

(** An id is its type and number side by side. *)
Lemma blkdev_id t n :
  1 <= t <= 4 -> 0 <= n < 2 ^ 24 ->
  u32 (BLKDEV_ID t n) = t * 2 ^ 24 + n /\ BLKDEV_TYPE (t * 2 ^ 24 + n) = t /\ BLKDEV_DEVNO (t * 2 ^ 24 + n) = n.
Proof.
  intros Ht Hn.
  pose proof (lor_high_low t n 24 ltac:(lia) Hn) as Hlor.
  unfold BLKDEV_ID, BLKDEV_TYPE, BLKDEV_DEVNO. split_and!.
  - rewrite Z.shiftl_mul_pow2 by lia. rewrite (wrap_small 64), Hlor by lia. apply wrap_small. lia.
  - rewrite Z.shiftr_div_pow2 by lia. rewrite Z.div_add_l by lia. rewrite (Z.div_small n) by lia.
    change 0xFF with (Z.ones 8). rewrite Z.land_ones by lia. rewrite Z.add_0_r. apply Z.mod_small. lia.
  - change 0x00FFFFFF with (Z.ones 24). rewrite Z.land_ones by lia. rewrite Z.add_comm, Z.mod_add by lia.
    apply Z.mod_small. lia.
Qed.

Lemma id_inj t n t' n' : 0 <= n < 2 ^ 24 -> 0 <= n' < 2 ^ 24 -> t * 2 ^ 24 + n = t' * 2 ^ 24 + n' -> t = t' /\ n = n'.
Proof. lia. Qed.

Lemma find_id_app l dev id :
  ~ In (b_id dev) (map b_id l) ->
  find_id (l ++ [dev]) id = if id =? b_id dev then Some dev else find_id l id.
Proof.
  intros Hni. unfold find_id. induction l as [|d l IH]; cbn [app List.find].
  - rewrite (Z.eqb_sym id). destruct (b_id dev =? id); done.
  - destruct (Z.eqb_spec (b_id d) id) as [<-|].
    + destruct (Z.eqb_spec (b_id d) (b_id dev)) as [E|]; [|done]. destruct Hni. left. done.
    + apply IH. intros H. apply Hni. by right.
Qed.

(** What [block_register] appends, when it succeeds. *)
Lemma register_inv type priv (s s' : blk D) :
  block_register type priv s = Done s' 0 ->
  type ∈ [DRV_ATA; DRV_AHCI; DRV_USBMSD; DRV_VIRTIO] /\
  exists n, aget (nblkdevtyp s) type = Some n /\
    nblkdevtyp s' = <[Z.to_nat type := u32 (n + 1)]> (nblkdevtyp s) /\
    devs s' = devs s ++ [mk_dev (blkdevnams type ++ decimal (BLKDEV_DEVNO (u32 (BLKDEV_ID type n))))
                           (u32 (BLKDEV_ID type n)) priv] /\ hw s' = hw s.
Proof.
  unfold block_register. destruct (negb (type =? DRV_ATA) && _ && _ && _) eqn:Et; [done|].
  intros E. split.
  { rewrite !elem_of_cons. destruct (Z.eqb_spec type DRV_ATA), (Z.eqb_spec type DRV_AHCI),
      (Z.eqb_spec type DRV_USBMSD), (Z.eqb_spec type DRV_VIRTIO); cbn in Et; tauto || done. }
  rewrite (bind_done get _ s s s eq_refl) in E. apply bind_inv in E as (s1 & g & E1 & E).
  assert (devs s1 = devs s /\ nblkdevtyp s1 = nblkdevtyp s /\ hw s1 = hw s) as (Hd & Hn & Hh).
  { destruct (nblkdevsup s <=? nblkdevavl s + 1); [|by injection E1 as <- _].
    apply bind_inv in E1 as (s2 & ok & E2 & E1).
    assert (devs s2 = devs s /\ nblkdevtyp s2 = nblkdevtyp s /\ hw s2 = hw s) as (Hd & Hn & Hh).
    { unfold alloc in E2. destruct (allocs s); by injection E2 as <- _. }
    destruct ok; cbn [negb] in E1; [|by injection E1 as <- _].
    rewrite bind_modify in E1. by injection E1 as <- _. }
  destruct g; cbn [negb] in E; [|done].
  rewrite (bind_done get _ s1 s1 s1 eq_refl) in E. destruct (blkdevs s1) as [l|] eqn:El; [|done].
  rewrite bind_deref, Hn in E. destruct (aget (nblkdevtyp s) type) as [n|]; [|done]. rewrite bind_deref in E.
  destruct (aset (nblkdevtyp s) type (u32 (n + 1))) as [t|] eqn:Ea; [|done]. apply aset_Some in Ea as [_ ->].
  rewrite bind_deref in E. injection E as <-. exists n. split_and!; try done.
  unfold devs in *. rewrite El in Hd. cbn in *. by rewrite Hd.
Qed.

(** The next number of a type is in no id. *)
Lemma id_fresh (s : blk D) type n d :
  registry_ok s -> aget (nblkdevtyp s) type = Some n -> n < 2 ^ 24 -> d ∈ devs s -> b_id d <> type * 2 ^ 24 + n.
Proof.
  intros (_ & Hc & _ & Hall) [_ Hn]%aget_Some Hlt Hin E. pose proof (Hc _ _ Hn).
  rewrite Forall_forall in Hall. destruct (Hall d Hin) as (t & m & c & _ & Hct & Hbid & Hm).
  pose proof (Hc _ _ Hct). rewrite Hbid in E. apply id_inj in E as [-> ->]; [|lia|lia].
  rewrite Hn in Hct. injection Hct as <-. lia.
Qed.

Lemma id_of_grow (s s' : blk D) type n d :
  nblkdevtyp s !! Z.to_nat type = Some n -> 0 <= n < 2 ^ 24 ->
  nblkdevtyp s' = <[Z.to_nat type := u32 (n + 1)]> (nblkdevtyp s) -> id_of s d -> id_of s' d.
Proof.
  intros Hn Hlt E (t & m & c & H1 & H2 & H3 & H4).
  destruct (decide (Z.to_nat type = Z.to_nat t)) as [Et|Et].
  - exists t, m, (n + 1). rewrite E, Et, list_lookup_insert_eq by (apply lookup_lt_Some in H2; lia).
    rewrite <- Et, Hn in H2. injection H2 as <-. rewrite wrap_small by lia. split_and!; try done; lia.
  - exists t, m, c. rewrite E, list_lookup_insert_ne by done. done.
Qed.

(** Registering a device gives it an id no other device has: looking the id
    up finds it and nothing else changes, and ids stay unique for the next one,
    up to 2^24 devices of a type. *)
Theorem block_register_unique type priv (s s' : blk D) :
  registry_ok s -> block_register type priv s = Done s' 0 ->
  (forall n, aget (nblkdevtyp s) type = Some n -> n < 2 ^ 24) ->
  registry_ok s' /\
  exists dev, BLKDEV_TYPE (b_id dev) = type /\ b_priv dev = priv /\ find_id (devs s) (b_id dev) = None /\
    forall id, find_id (devs s') id = if id =? b_id dev then Some dev else find_id (devs s) id.
Proof.
  intros Hok (Ht & n & Hn & Hn' & Hd & _)%register_inv Hlt. specialize (Hlt n Hn).
  pose proof (drv_range _ Ht) as Hr. pose proof Hn as [_ Hnn]%aget_Some.
  pose proof Hok as (Hl & Hc & Hnd & Hall). pose proof (Hc _ _ Hnn) as Hcn.
  destruct (blkdev_id type n) as (Hid & Hty & _); [done|lia|]. rewrite Hid in Hd.
  set (dev := mk_dev _ _ priv) in Hd.
  assert (~ In (b_id dev) (map b_id (devs s))) as Hni.
  { intros (d & E & Hin)%in_map_iff. apply list_elem_of_In in Hin. by eapply id_fresh. }
  split; [split_and!|].
  - by rewrite Hn', length_insert.
  - intros i c Hic. rewrite Hn' in Hic. apply list_lookup_insert_Some in Hic as [(<- & <- & _)|[_ Hic]]; [|by eapply Hc].
    rewrite wrap_small; lia.
  - rewrite Hd, map_app. apply NoDup_app. split; [done|]. split; [|apply NoDup_singleton].
    intros x Hx E. apply list_elem_of_singleton in E as ->. apply Hni. by apply list_elem_of_In.
  - rewrite Hd. apply Forall_app. split.
    + eapply Forall_impl; [exact Hall|]. intros d. eapply id_of_grow; [done|lia|done].
    + apply Forall_singleton. exists type, n, (n + 1). rewrite Hn', list_lookup_insert_eq by (rewrite Hl; lia).
      rewrite wrap_small by lia. split_and!; try done; lia.
  - exists dev. split; [done|]. split; [done|]. split.
    + unfold find_id. destruct (List.find _ _) as [d|] eqn:Ef; [|done].
      apply find_some in Ef as [Hin E%Z.eqb_eq]. apply list_elem_of_In in Hin. by destruct (id_fresh s type n d Hok Hn Hlt Hin).
    + intros id. rewrite Hd. by apply find_id_app.
Qed.

End registry.

(** ** A disk in memory *)

Notation ramdisk := (gmap (Z * Z * Z) (list Z)).

Definition rd_sector (d : ramdisk) (t p l : Z) : list Z :=
  take SECSZ (default [] (d !! (t, p, l)) ++ replicate SECSZ 0).

Definition rd_read (t p l : Z) (_ : list Z) : M ramdisk (Z * list Z) := fun d => Done d (0, rd_sector d t p l).
Definition rd_write (t p l : Z) (buf : list Z) : M ramdisk Z := fun d => Done (<[(t, p, l) := buf]> d) 0.

Definition ramdrv : drivers ramdisk :=
  mk_drv (rd_read DRV_ATA) (rd_read DRV_AHCI) (rd_read DRV_USBMSD) (rd_read DRV_VIRTIO)
    (rd_write DRV_ATA) (rd_write DRV_AHCI) (rd_write DRV_USBMSD) (rd_write DRV_VIRTIO).

Lemma ramdrv_read t wide fn : read_fn ramdrv t = Some (wide, fn) -> fn = rd_read t.
Proof. unfold read_fn. repeat case_match; to_prop; subst; intros [= _ <-]; done. Qed.

Lemma ramdrv_write t wide fn : write_fn ramdrv t = Some (wide, fn) -> fn = rd_write t.
Proof. unfold write_fn. repeat case_match; to_prop; subst; intros [= _ <-]; done. Qed.

Lemma length_rd_sector d t p l : length (rd_sector d t p l) = SECSZ.
Proof. unfold rd_sector. rewrite length_take, length_app, length_replicate. lia. Qed.

#[export] Instance ramdrv_laws : sector_laws ramdrv.
Proof.
  refine {| sector := rd_sector; sector_len := length_rd_sector |}.
  - intros t wide fn p l old d d' v b ->%ramdrv_read _ [= <- <- <-]. split_and!; try done. apply length_rd_sector.
  - intros t wide fn p l buf d d' v ->%ramdrv_write Hb [= <- <-]. unfold rd_sector. split.
    + intros t' p' l' Hne. by rewrite lookup_insert_ne by congruence.
    + intros _. rewrite lookup_insert_eq. cbn [default]. rewrite take_app_length' by done. done.
Defined.

Definition blk0 : blk ramdisk := mk_blk (Some []) 8 [0; 0; 0; 0; 0] [] ∅.
Definition blk1 : blk ramdisk := state_of (block_register DRV_VIRTIO 7 blk0) blk0.

Lemma blk0_ok : registry_ok blk0.
Proof.
  split_and!; [done| |apply NoDup_nil_2|apply Forall_nil_2].
  intros i c Hi. apply list_elem_of_lookup_2 in Hi. cbn in Hi.
  rewrite !elem_of_cons, elem_of_nil in Hi. lia.
Qed.

Lemma block_register_unique_witness :
  block_register DRV_VIRTIO 7 blk0 = Done blk1 0 /\ registry_ok blk1.
Proof.
  assert (block_register DRV_VIRTIO 7 blk0 = Done blk1 0) as E by reflexivity.
  split; [exact E|]. apply (block_register_unique DRV_VIRTIO 7 blk0 blk1 blk0_ok E).
  intros n [= <-]. reflexivity.
Defined.

Definition id1 : Z := 0x4000000.
Definition sec1 : list Z := replicate SECSZ 65 ++ replicate SECSZ 66.

Lemma blk1_attached : attached blk1 id1 DRV_VIRTIO 7.
Proof.
  eexists. split; [reflexivity|]. split_and!; [reflexivity|reflexivity|].
  rewrite !elem_of_cons. tauto.
Qed.

Definition blk2 : blk ramdisk := state_of (block_write ramdrv id1 sec1 10 2 blk1) blk1.

Lemma block_write_read_witness :
  attached blk1 id1 DRV_VIRTIO 7 /\
  block_write ramdrv id1 sec1 10 2 blk1 = Done blk2 0 /\
  exists s2 r b, block_read ramdrv id1 (replicate (2 * SECSZ) 0) 10 2 blk2 = Done s2 (r, b) /\
    (r < 0 \/ (r = 0 /\ b = sec1)).
Proof.
  split; [exact blk1_attached|].
  assert (block_write ramdrv id1 sec1 10 2 blk1 = Done blk2 0) as Ew by (vm_compute; reflexivity).
  split; [exact Ew|].
  destruct (block_read ramdrv id1 (replicate (2 * SECSZ) 0) 10 2 blk2) as [s2 [r b]|] eqn:Er.
  2: { exfalso. assert (result_of (block_read ramdrv id1 (replicate (2 * SECSZ) 0) 10 2 blk2) <> None) as Hn
         by (vm_compute; discriminate). rewrite Er in Hn. apply Hn. reflexivity. }
  exists s2, r, b. split; [reflexivity|].
  refine (proj2 (block_write_read ramdrv id1 DRV_VIRTIO 7 10 2 sec1 (replicate (2 * SECSZ) 0) blk1 blk2 s2 r b
    blk1_attached _ _ _ _ Ew Er)); [split; [discriminate|reflexivity]|discriminate|reflexivity|reflexivity].
Defined.

End Block.
