(* ===== verification/Ata.v ===== *)
(** The ATA driver ([src/drivers/storage/block/ata.c]): sectors moved by programmed
    input and output, one word at a time, through the registers of a drive.

    Model: port accesses of [Machine]; [panic] is a fault. *)
From S2P Require Import Prelude CString Machine Block.

Module Ata.
Import Machine.

Definition RTIO : Z := 1.
Definition RTCTRL : Z := 2.
Definition D1IOB : Z := 0x1F0.
Definition D1CTRLB : Z := 0x3F6.
Definition D2IOB : Z := 0x170.
Definition D2CTRLB : Z := 0x376.
(** The number of status reads before a loop gives up. *)
Definition TIMEOUT : nat := Z.to_nat 100000.

Section ata.
Context {D : Type} (H : hw D).
Notation MD := (M D).

(** The port of a register, [None] where the code does nothing. *)
Definition ata_port (drv type off : Z) : option Z :=
  if drv =? 1 then if type =? RTIO then Some (D1IOB + off) else if type =? RTCTRL then Some (D1CTRLB + off) else None
  else if drv =? 2 then if type =? RTIO then Some (D2IOB + off) else if type =? RTCTRL then Some (D2CTRLB + off) else None
  else None.

Definition ata_inb (drv type off : Z) : MD Z := match ata_port drv type off with Some p => inb H p | None => mret 0 end.
Definition ata_inw (drv type off : Z) : MD Z := match ata_port drv type off with Some p => inw H p | None => mret 0 end.
Definition ata_outb (drv type off val : Z) : MD unit := match ata_port drv type off with Some p => outb H p val | None => mret tt end.
Definition ata_outw (drv type off val : Z) : MD unit := match ata_port drv type off with Some p => outw H p val | None => mret tt end.

(** [n] reads of the control register, which take time. *)
Fixpoint ata_delay (n : nat) (drv : Z) : MD unit :=
  match n with O => mret tt | S n' => _ ← ata_inb drv RTCTRL 0; ata_delay n' drv end.

(** While [again] holds of the status and [--timeout] is not zero; what is left of
    the timeout. *)
Fixpoint ata_spin (timeout : nat) (drv : Z) (again : Z -> bool) : MD nat :=
  match timeout with
  | O => mret O
  | S t => st ← ata_inb drv RTIO 7; if again st then ata_spin t drv again else mret timeout
  end.

Definition is_busy (st : Z) : bool := negb (Z.land st 0x80 =? 0).
Definition no_data (st : Z) : bool := Z.land st 0x08 =? 0.

Fixpoint skip_words (n : nat) (drv : Z) : MD unit :=
  match n with O => mret tt | S n' => _ ← ata_inw drv RTIO 0; skip_words n' drv end.

Definition ata_identify_drive (drv drivet : Z) : MD bool :=
  _ ← ata_outb drv RTIO 6 drivet;
  _ ← ata_delay 4 drv;
  _ ← ata_outb drv RTIO 2 0;
  _ ← ata_outb drv RTIO 3 0;
  _ ← ata_outb drv RTIO 4 0;
  _ ← ata_outb drv RTIO 5 0;
  _ ← ata_outb drv RTIO 7 0xEC;
  _ ← ata_delay 4 drv;
  status ← ata_inb drv RTIO 7;
  if (status =? 0) || (status =? 0xFF) then mret false else
  _ ← ata_delay 4 drv;
  timeout ← ata_spin TIMEOUT drv is_busy;
  if (timeout =? 0)%nat then mret false else
  status ← ata_inb drv RTIO 7;
  if negb (Z.land status 0x01 =? 0) then mret false else
  if no_data status then mret false else
  _ ← skip_words 256 drv;
  mret true.

Definition ata_poll (drv : Z) : MD unit :=
  _ ← ata_delay 4 drv;
  _ ← ata_spin TIMEOUT drv is_busy;
  stat ← ata_inb drv RTIO 7;
  if negb (Z.land stat 0x01 =? 0) then fault
  else if no_data stat then fault
  else mret tt.

(** The bytes of [n] words. *)
Fixpoint read_words (n : nat) (drv : Z) : MD (list Z) :=
  match n with
  | O => mret []
  | S n' => dt ← ata_inw drv RTIO 0; r ← read_words n' drv; mret (Z.land dt 0xFF :: u8 (Z.shiftr dt 8) :: r)
  end.

Definition set_lba (drv lba : Z) : MD unit :=
  _ ← ata_outb drv RTIO 2 1;
  _ ← ata_outb drv RTIO 3 (Z.land lba 0xFF);
  _ ← ata_outb drv RTIO 4 (Z.land (Z.shiftr lba 8) 0xFF);
  ata_outb drv RTIO 5 (Z.land (Z.shiftr lba 16) 0xFF).

Definition ata_secread (drv0 lba : Z) : MD (Z * list Z) :=
  let drv := u8 drv0 in
  _ ← ata_outb drv RTCTRL 0 0;
  _ ← ata_outb drv RTIO 6 (Z.lor 0xE0 (Z.land (Z.shiftr lba 24) 0x0F));
  _ ← ata_delay 4 drv;
  _ ← set_lba drv lba;
  _ ← ata_outb drv RTIO 7 0x20;
  _ ← ata_poll drv;
  buf ← read_words 256 drv;
  mret (0, buf).

Fixpoint write_words (n : nat) (drv : Z) (buf : list Z) : MD unit :=
  match n with
  | O => mret tt
  | S n' =>
      match buf with
      | lo :: hi :: r => _ ← ata_outw drv RTIO 0 (Z.lor (u16 (Z.shiftl hi 8)) lo); write_words n' drv r
      | _ => fault
      end
  end.

Definition ata_secwrite (drv0 lba : Z) (buf : list Z) : MD Z :=
  let drv := u8 drv0 in
  _ ← ata_outb drv RTCTRL 0 0;
  _ ← ata_outb drv RTIO 6 (Z.lor 0xE0 (Z.land (Z.shiftr lba 24) 0x0F));
  _ ← set_lba drv lba;
  _ ← ata_outb drv RTIO 7 0x30;
  _ ← ata_spin TIMEOUT drv no_data;
  _ ← write_words 256 drv buf;
  _ ← ata_outb drv RTIO 7 0xE7;
  _ ← ata_spin TIMEOUT drv is_busy;
  mret 0.

End ata.

(** The drives that answer are registered with the block layer. *)
Definition ata_enumerate {D} (H : hw D) : M (Block.blk D) unit :=
  ok ← Block.onhw (ata_identify_drive H 1 0xA0);
  _ ← (if ok : bool then _ ← Block.block_register Block.DRV_ATA 1; mret tt else mret tt);
  ok ← Block.onhw (ata_identify_drive H 2 0xA0);
  if ok : bool then _ ← Block.block_register Block.DRV_ATA 2; mret tt else mret tt.

(** ** What the driver relies on *)

Inductive phase := P_ready | P_in (words : list Z) | P_out (lba : Z) (words : list Z).

(** A drive: its registers, the transfer it is in, its sectors as words, and the
    number of status reads for which it will still be busy.  The laws say what
    commands and registers do to a drive that is not busy; what a command does to a
    busy one the standard leaves open, and so does the class. *)
Class ata_drive {D : Type} (H : hw D) (drv : Z) := {
  tf : D -> Z -> Z;
  at_phase : D -> phase;
  disk : D -> Z -> list Z;
  busy : D -> nat;
  size : Z;
  law_drv : drv = 1 \/ drv = 2;
  law_disk : forall d l, length (disk d l) = 256%nat /\ Forall (fun w => 0 <= w < 2 ^ 16) (disk d l);
  law_control : forall d v, exists d', ata_outb H drv RTCTRL 0 v d = Done d' tt /\
    tf d' = tf d /\ at_phase d' = at_phase d /\ disk d' = disk d /\ (busy d' <= busy d)%nat;
  law_alternate : forall d, exists d' v, ata_inb H drv RTCTRL 0 d = Done d' v /\
    tf d' = tf d /\ at_phase d' = at_phase d /\ disk d' = disk d /\ (busy d' <= busy d)%nat;
  law_register : forall d r v, 2 <= r <= 6 -> at_phase d = P_ready -> busy d = 0%nat -> exists d', ata_outb H drv RTIO r v d = Done d' tt /\
    tf d' = (fun q => if q =? r then v else tf d q) /\ at_phase d' = P_ready /\ disk d' = disk d /\ busy d' = 0%nat;
  law_status : forall d, exists d' st, ata_inb H drv RTIO 7 d = Done d' st /\
    tf d' = tf d /\ at_phase d' = at_phase d /\ disk d' = disk d /\ busy d' = pred (busy d) /\
    (busy d <> 0%nat -> is_busy st = true /\ no_data st = true) /\
    (busy d = 0%nat -> is_busy st = false /\ Z.land st 1 = 0 /\ no_data st = match at_phase d with P_ready => true | _ => false end);
  law_identify : forall d, at_phase d = P_ready -> busy d = 0%nat -> exists d' ws, ata_outb H drv RTIO 7 0xEC d = Done d' tt /\
    at_phase d' = P_in ws /\ length ws = 256%nat /\ disk d' = disk d /\ (busy d' < TIMEOUT)%nat;
  law_read : forall d, at_phase d = P_ready -> busy d = 0%nat -> tf d 2 = 1 ->
    let l := tf d 3 + 2 ^ 8 * tf d 4 + 2 ^ 16 * tf d 5 + 2 ^ 24 * (tf d 6 - 0xE0) in 0 <= l < size ->
    exists d', ata_outb H drv RTIO 7 0x20 d = Done d' tt /\ at_phase d' = P_in (disk d l) /\ disk d' = disk d /\ (busy d' < TIMEOUT)%nat;
  law_write : forall d, at_phase d = P_ready -> busy d = 0%nat -> tf d 2 = 1 ->
    let l := tf d 3 + 2 ^ 8 * tf d 4 + 2 ^ 16 * tf d 5 + 2 ^ 24 * (tf d 6 - 0xE0) in 0 <= l < size ->
    exists d', ata_outb H drv RTIO 7 0x30 d = Done d' tt /\ at_phase d' = P_out l [] /\ disk d' = disk d /\ (busy d' < TIMEOUT)%nat;
  law_word_in : forall d w ws, at_phase d = P_in (w :: ws) -> busy d = 0%nat -> exists d', ata_inw H drv RTIO 0 d = Done d' w /\
    at_phase d' = (if decide (ws = []) then P_ready else P_in ws) /\ disk d' = disk d /\ busy d' = 0%nat;
  law_word_out : forall d l ws w, at_phase d = P_out l ws -> busy d = 0%nat -> (length ws < 255)%nat -> 0 <= w < 2 ^ 16 ->
    exists d', ata_outw H drv RTIO 0 w d = Done d' tt /\ at_phase d' = P_out l (ws ++ [w]) /\ disk d' = disk d /\ busy d' = 0%nat;
  law_last_word : forall d l ws w, at_phase d = P_out l ws -> busy d = 0%nat -> length ws = 255%nat -> 0 <= w < 2 ^ 16 ->
    exists d', ata_outw H drv RTIO 0 w d = Done d' tt /\ at_phase d' = P_ready /\ (busy d' < TIMEOUT)%nat /\ forall q, disk d' q = (if q =? l then ws ++ [w] else disk d q);
  law_flush : forall d, at_phase d = P_ready -> busy d = 0%nat -> exists d', ata_outb H drv RTIO 7 0xE7 d = Done d' tt /\
    at_phase d' = P_ready /\ disk d' = disk d /\ (busy d' < TIMEOUT)%nat
}.

(** ** Transfers *)

(** The bytes of a sector of words, low byte first. *)
Definition word_bytes (w : Z) : list Z := [Z.land w 0xFF; u8 (Z.shiftr w 8)].
Definition sector_bytes (ws : list Z) : list Z := flat_map word_bytes ws.

Section transfers.
Context {D : Type} (H : hw D) (drv : Z) `{!ata_drive H drv}.
Implicit Types (d : D).

Definition idle d : Prop := at_phase d = P_ready /\ busy d = 0%nat.

(** The driver sends the flush command behind the last word of a sector without
    waiting for the drive.  That is harmless to a drive that has taken the sector in
    by then, and to one that ignores commands while it is busy. *)
Definition at_once : Prop := forall d l ws w d', at_phase d = P_out l ws -> length ws = 255%nat -> ata_outw H drv RTIO 0 w d = Done d' tt -> busy d' = 0%nat.
Definition ignores_flush : Prop := forall d, at_phase d = P_ready -> busy d <> 0%nat -> exists d', ata_outb H drv RTIO 7 0xE7 d = Done d' tt /\
  at_phase d' = P_ready /\ disk d' = disk d /\ (busy d' <= busy d)%nat.

Lemma delay_ok n : forall d, exists d', ata_delay H n drv d = Done d' tt /\ tf d' = tf d /\ at_phase d' = at_phase d /\ disk d' = disk d /\ (busy d' <= busy d)%nat.
Proof.
  induction n as [|n IH]; intros d; [by exists d|]. cbn [ata_delay]. destruct (law_alternate d) as (d1 & v & E & T1 & P1 & D1 & B1).
  rewrite (bind_done _ _ _ _ _ E). destruct (IH d1) as (d2 & E2 & T2 & P2 & D2 & B2). exists d2. rewrite T2, P2, D2. split_and!; try done. lia.
Qed.

(** A loop that waits for the drive ends with the drive not busy and time left. *)
Lemma spin_ok again n : forall d, (busy d < n)%nat ->
  (forall st, is_busy st = true -> no_data st = true -> again st = true) ->
  (forall st, is_busy st = false -> no_data st = match at_phase d with P_ready => true | _ => false end -> again st = false) ->
  exists d' k, ata_spin H n drv again d = Done d' (S k) /\ at_phase d' = at_phase d /\ disk d' = disk d /\ busy d' = 0%nat.
Proof.
  induction n as [|n IH]; intros d Hb H1 H2; [lia|]. cbn [ata_spin]. destruct (law_status d) as (d1 & st & E & T1 & P1 & D1 & B1 & Sb & Sr).
  rewrite (bind_done _ _ _ _ _ E). destruct (busy d) as [|b] eqn:Eb.
  - destruct (Sr eq_refl) as (S1 & _ & S2). rewrite H2 by done. exists d1, n. by split_and!.
  - destruct (Sb ltac:(done)) as [S1 S2]. rewrite H1 by done. destruct (IH d1) as (d2 & k & E2 & P2 & D2 & B2); [lia|done|by rewrite P1|].
    exists d2, k. by rewrite P2, D2.
Qed.

Lemma spin_busy d : (busy d < TIMEOUT)%nat ->
  exists d' k, ata_spin H TIMEOUT drv is_busy d = Done d' (S k) /\ at_phase d' = at_phase d /\ disk d' = disk d /\ busy d' = 0%nat.
Proof. intros Hb. by apply spin_ok. Qed.

Lemma poll_ok d ws : at_phase d = P_in ws -> (busy d < TIMEOUT)%nat ->
  exists d', ata_poll H drv d = Done d' tt /\ at_phase d' = P_in ws /\ disk d' = disk d /\ busy d' = 0%nat.
Proof.
  intros Hp Hb. unfold ata_poll. destruct (delay_ok 4 d) as (d1 & E1 & _ & P1 & D1 & B1). rewrite (bind_done _ _ _ _ _ E1).
  destruct (spin_busy d1 ltac:(lia)) as (d2 & k & E2 & P2 & D2 & B2). rewrite (bind_done _ _ _ _ _ E2).
  destruct (law_status d2) as (d3 & st & E3 & _ & P3 & D3 & B3 & _ & Sr). rewrite (bind_done _ _ _ _ _ E3). destruct (Sr B2) as (_ & -> & ->).
  rewrite P2, P1, Hp. cbn [Z.eqb negb]. exists d3. split_and!; [done|congruence|congruence|by rewrite B3, B2].
Qed.

Lemma set_lba_ok d lba : idle d -> exists d', set_lba H drv lba d = Done d' tt /\ idle d' /\ disk d' = disk d /\
  tf d' 2 = 1 /\ tf d' 3 = Z.land lba 0xFF /\ tf d' 4 = Z.land (Z.shiftr lba 8) 0xFF /\ tf d' 5 = Z.land (Z.shiftr lba 16) 0xFF /\ tf d' 6 = tf d 6.
Proof.
  intros [Hp Hb]. unfold set_lba. destruct (law_register d 2 1 ltac:(lia) Hp Hb) as (d1 & E1 & T1 & P1 & D1 & B1). rewrite (bind_done _ _ _ _ _ E1).
  destruct (law_register d1 3 (Z.land lba 0xFF) ltac:(lia) P1 B1) as (d2 & E2 & T2 & P2 & D2 & B2). rewrite (bind_done _ _ _ _ _ E2).
  destruct (law_register d2 4 (Z.land (Z.shiftr lba 8) 0xFF) ltac:(lia) P2 B2) as (d3 & E3 & T3 & P3 & D3 & B3). rewrite (bind_done _ _ _ _ _ E3).
  destruct (law_register d3 5 (Z.land (Z.shiftr lba 16) 0xFF) ltac:(lia) P3 B3) as (d4 & E4 & T4 & P4 & D4 & B4). exists d4. rewrite E4, T4, T3, T2, T1. split_and!; try done. congruence.
Qed.

(** The registers hold a sector number of 28 bits. *)
Lemma lba_regs lba : 0 <= lba < 2 ^ 28 ->
  Z.land lba 0xFF + 2 ^ 8 * Z.land (Z.shiftr lba 8) 0xFF + 2 ^ 16 * Z.land (Z.shiftr lba 16) 0xFF + 2 ^ 24 * (Z.lor 0xE0 (Z.land (Z.shiftr lba 24) 0x0F) - 0xE0) = lba.
Proof.
  intros Hl. change 0xFF with (Z.ones 8). change 0x0F with (Z.ones 4). rewrite !Z.land_ones, !Z.shiftr_div_pow2 by lia.
  change 0xE0 with (14 * 2 ^ 4). rewrite (lor_high_low 14 _ 4) by (try lia; by apply Z.mod_pos_bound). Z.to_euclidean_division_equations. lia.
Qed.

(** Registers, select and sector number: what reading and writing begin with. *)
Lemma addressed d lba (delay : nat) : idle d -> 0 <= lba < 2 ^ 28 ->
  exists d', (_ ← ata_outb H drv RTCTRL 0 0; _ ← ata_outb H drv RTIO 6 (Z.lor 0xE0 (Z.land (Z.shiftr lba 24) 0x0F)); _ ← ata_delay H delay drv; set_lba H drv lba) d = Done d' tt /\
    idle d' /\ disk d' = disk d /\ tf d' 2 = 1 /\ tf d' 3 + 2 ^ 8 * tf d' 4 + 2 ^ 16 * tf d' 5 + 2 ^ 24 * (tf d' 6 - 0xE0) = lba.
Proof.
  intros [Hp Hb] Hl. destruct (law_control d 0) as (d1 & E1 & T1 & P1 & D1 & B1). rewrite (bind_done _ _ _ _ _ E1). assert (busy d1 = 0%nat) as B1' by lia.
  destruct (law_register d1 6 (Z.lor 0xE0 (Z.land (Z.shiftr lba 24) 0x0F)) ltac:(lia) (eq_trans P1 Hp) B1') as (d2 & E2 & T2 & P2 & D2 & B2). rewrite (bind_done _ _ _ _ _ E2).
  destruct (delay_ok delay d2) as (d3 & E3 & T3 & P3 & D3 & B3). rewrite (bind_done _ _ _ _ _ E3).
  destruct (set_lba_ok d3 lba) as (d4 & E4 & I4 & D4 & R2 & R3 & R4 & R5 & R6); [split; [congruence|lia]|].
  exists d4. split_and!; [done|done|congruence|done|]. rewrite R3, R4, R5, R6, T3, T2. by apply lba_regs.
Qed.

Lemma read_words_ok ws : forall d, at_phase d = (if decide (ws = []) then P_ready else P_in ws) -> busy d = 0%nat -> Forall (fun w => 0 <= w < 2 ^ 16) ws ->
  exists d', read_words H (length ws) drv d = Done d' (sector_bytes ws) /\ idle d' /\ disk d' = disk d.
Proof.
  induction ws as [|w ws IH]; intros d Hp Hb Hw; [by exists d|]. rewrite decide_False in Hp by done. cbn [length read_words].
  destruct (law_word_in d w ws Hp Hb) as (d1 & E1 & P1 & D1 & B1). rewrite (bind_done _ _ _ _ _ E1). apply Forall_cons in Hw as [Hw Hws].
  destruct (IH d1 P1 B1 Hws) as (d2 & E2 & I2 & D2). rewrite (bind_done _ _ _ _ _ E2). exists d2. split_and!; [done|done|congruence].
Qed.

(** The words of a buffer. *)
Fixpoint words_of (buf : list Z) : list Z :=
  match buf with lo :: hi :: r => lo + 256 * hi :: words_of r | _ => [] end.

Lemma pair_word lo hi : 0 <= lo < 256 -> 0 <= hi < 256 -> Z.lor (u16 (Z.shiftl hi 8)) lo = lo + 256 * hi /\ 0 <= lo + 256 * hi < 2 ^ 16.
Proof.
  intros Hl Hh. rewrite Z.shiftl_mul_pow2, wrap_small, (lor_high_low hi lo 8) by lia. lia.
Qed.

Lemma words_bytes n : forall buf, length buf = (2 * n)%nat -> Forall (fun b => 0 <= b < 256) buf -> sector_bytes (words_of buf) = buf.
Proof.
  induction n as [|n IH]; intros [|a [|b buf]] Hl Hb; cbn in Hl; try lia; [done|]. apply Forall_cons in Hb as [Ha Hb]. apply Forall_cons in Hb as [Hb Hr].
  cbn [words_of]. unfold sector_bytes in *. cbn [flat_map]. rewrite IH by (done || lia). unfold word_bytes. cbn [app]. f_equal; [|f_equal].
  - change 0xFF with (Z.ones 8). rewrite Z.land_ones by lia. Z.to_euclidean_division_equations. lia.
  - rewrite Z.shiftr_div_pow2, wrap_small by (Z.to_euclidean_division_equations; lia). Z.to_euclidean_division_equations. lia.
Qed.

(** A run of words to the drive, the last of which ends the sector. *)
Lemma write_words_ok n : forall d l ws buf, at_phase d = P_out l ws -> busy d = 0%nat -> (length ws + S n = 256)%nat -> length buf = (2 * S n)%nat -> Forall (fun b => 0 <= b < 256) buf ->
  exists d', write_words H (S n) drv buf d = Done d' tt /\ at_phase d' = P_ready /\ (busy d' < TIMEOUT)%nat /\ (at_once -> busy d' = 0%nat) /\ forall q, disk d' q = (if q =? l then ws ++ words_of buf else disk d q).
Proof.
  induction n as [|n IH]; intros d l ws [|a [|b buf]] Hp Hb Hl Hbl Hf; cbn in Hbl; try lia.
  all: apply Forall_cons in Hf as [Ha Hf]; apply Forall_cons in Hf as [Hb' Hf]; destruct (pair_word a b Ha Hb') as [Ew Hw].
  - cbn [write_words words_of]. rewrite Ew. destruct buf; [|cbn in Hbl; lia]. destruct (law_last_word d l ws (a + 256 * b) Hp Hb ltac:(lia) Hw) as (d1 & E1 & P1 & B1 & D1).
    rewrite (bind_done _ _ _ _ _ E1). exists d1. split_and!; try done. intros Ho. apply (Ho d l ws (a + 256 * b)); done || lia.
  - remember (S n) as m. cbn [write_words words_of]. rewrite Ew. destruct (law_word_out d l ws (a + 256 * b) Hp Hb ltac:(lia) Hw) as (d1 & E1 & P1 & D1 & B1). rewrite (bind_done _ _ _ _ _ E1). subst m.
    destruct (IH d1 l (ws ++ [a + 256 * b]) buf P1 B1) as (d2 & E2 & P2 & B2 & O2 & D2); [rewrite length_app; cbn; lia|lia|done|].
    exists d2. split_and!; [done|done|done|done|]. intros q. rewrite D2, D1, <- app_assoc. done.
Qed.

Lemma drv_u8 : u8 drv = drv.
Proof. destruct law_drv as [-> | ->]; done. Qed.

(** Reading a sector. *)
Lemma ata_secread_ok d lba : idle d -> 0 <= lba < 2 ^ 28 -> lba < size ->
  exists d', ata_secread H drv lba d = Done d' (0, sector_bytes (disk d lba)) /\ idle d' /\ disk d' = disk d.
Proof.
  intros Hi Hl Hs. unfold ata_secread. rewrite drv_u8. destruct (addressed d lba 4 Hi Hl) as (d1 & E1 & [P1 B1] & D1 & C1 & L1).
  apply bind_inv in E1 as (a1 & [] & X1 & E1). apply bind_inv in E1 as (a2 & [] & X2 & E1). apply bind_inv in E1 as (a3 & [] & X3 & E1).
  rewrite (bind_done _ _ _ _ _ X1), (bind_done _ _ _ _ _ X2), (bind_done _ _ _ _ _ X3), (bind_done _ _ _ _ _ E1).
  pose proof (law_read d1 P1 B1 C1) as Hr. cbv zeta in Hr. rewrite L1 in Hr. destruct (Hr ltac:(lia)) as (d2 & E2 & P2 & D2 & B2). rewrite (bind_done _ _ _ _ _ E2).
  destruct (poll_ok d2 _ P2 B2) as (d3 & E3 & P3 & D3 & B3). rewrite (bind_done _ _ _ _ _ E3). destruct (law_disk d1 lba) as [Hlen Hw].
  destruct (read_words_ok (disk d1 lba) d3) as (d4 & E4 & I4 & D4); [|done|done|].
  { rewrite decide_False; [done|]. intros E. by rewrite E in Hlen. }
  rewrite Hlen in E4. rewrite (bind_done _ _ _ _ _ E4). exists d4. split_and!; [by rewrite D1|done|congruence].
Qed.

(** The flush command behind the last word. *)
Lemma flush_ok d : at_once \/ ignores_flush -> at_phase d = P_ready -> (busy d < TIMEOUT)%nat -> (at_once -> busy d = 0%nat) ->
  exists d', ata_outb H drv RTIO 7 0xE7 d = Done d' tt /\ at_phase d' = P_ready /\ disk d' = disk d /\ (busy d' < TIMEOUT)%nat.
Proof.
  intros Hf Hp Hb Ho. destruct (decide (busy d = 0%nat)) as [E|E]; [by apply law_flush|]. destruct Hf as [Hf|Hf]; [by destruct E; apply Ho|].
  destruct (Hf d Hp E) as (d' & E' & P' & D' & B'). exists d'. split_and!; try done. lia.
Qed.

(** Writing one. *)
Lemma ata_secwrite_ok d lba buf : at_once \/ ignores_flush -> idle d -> 0 <= lba < 2 ^ 28 -> lba < size -> length buf = 512%nat -> Forall (fun b => 0 <= b < 256) buf ->
  exists d', ata_secwrite H drv lba buf d = Done d' 0 /\ idle d' /\ forall l, disk d' l = (if l =? lba then words_of buf else disk d l).
Proof.
  intros Hf Hi Hl Hs Hb Hbb. unfold ata_secwrite. rewrite drv_u8. destruct (addressed d lba 0 Hi Hl) as (d1 & E1 & [P1 B1] & D1 & C1 & L1).
  apply bind_inv in E1 as (a1 & [] & X1 & E1). apply bind_inv in E1 as (a2 & [] & X2 & E1). cbn [ata_delay] in E1. rewrite bind_ret in E1.
  rewrite (bind_done _ _ _ _ _ X1), (bind_done _ _ _ _ _ X2), (bind_done _ _ _ _ _ E1).
  pose proof (law_write d1 P1 B1 C1) as Hr. cbv zeta in Hr. rewrite L1 in Hr. destruct (Hr ltac:(lia)) as (d2 & E2 & P2 & D2 & B2). rewrite (bind_done _ _ _ _ _ E2).
  destruct (spin_ok no_data TIMEOUT d2 B2) as (d3 & k & E3 & P3 & D3 & B3); [done|by rewrite P2|]. rewrite (bind_done _ _ _ _ _ E3).
  destruct (write_words_ok 255 d3 lba [] buf) as (d4 & E4 & P4 & B4 & O4 & D4); [congruence|done|done|done|done|]. rewrite (bind_done _ _ _ _ _ E4).
  destruct (flush_ok d4 Hf P4 B4 O4) as (d5 & E5 & P5 & D5 & B5). rewrite (bind_done _ _ _ _ _ E5).
  destruct (spin_busy d5 B5) as (d6 & j & E6 & P6 & D6 & B6). rewrite (bind_done _ _ _ _ _ E6). exists d6. split_and!; [done|by split; [congruence|]|].
  intros l. rewrite D6, D5, D4, D3, D2, D1. done.
Qed.


Lemma skip_words_ok ws : forall d, at_phase d = (if decide (ws = []) then P_ready else P_in ws) -> busy d = 0%nat ->
  exists d', skip_words H (length ws) drv d = Done d' tt /\ idle d' /\ disk d' = disk d.
Proof.
  induction ws as [|w ws IH]; intros d Hp Hb; [by exists d|]. rewrite decide_False in Hp by done. cbn [length skip_words].
  destruct (law_word_in d w ws Hp Hb) as (d1 & E1 & P1 & D1 & B1). rewrite (bind_done _ _ _ _ _ E1). destruct (IH d1 P1 B1) as (d2 & E2 & I2 & D2).
  exists d2. by rewrite E2, D2.
Qed.

Lemma registers_ok d r : idle d -> exists d', (_ ← ata_outb H drv RTIO 6 r; _ ← ata_delay H 4 drv; _ ← ata_outb H drv RTIO 2 0; _ ← ata_outb H drv RTIO 3 0;
    _ ← ata_outb H drv RTIO 4 0; ata_outb H drv RTIO 5 0) d = Done d' tt /\ idle d' /\ disk d' = disk d.
Proof.
  intros [Hp Hb]. destruct (law_register d 6 r ltac:(lia) Hp Hb) as (d1 & E1 & _ & P1 & D1 & B1). rewrite (bind_done _ _ _ _ _ E1).
  destruct (delay_ok 4 d1) as (d2 & E2 & _ & P2 & D2 & B2). rewrite (bind_done _ _ _ _ _ E2). rewrite P1 in P2. assert (busy d2 = 0%nat) as B2' by lia.
  destruct (law_register d2 2 0 ltac:(lia) P2 B2') as (d3 & E3 & _ & P3 & D3 & B3). rewrite (bind_done _ _ _ _ _ E3).
  destruct (law_register d3 3 0 ltac:(lia) P3 B3) as (d4 & E4 & _ & P4 & D4 & B4). rewrite (bind_done _ _ _ _ _ E4).
  destruct (law_register d4 4 0 ltac:(lia) P4 B4) as (d5 & E5 & _ & P5 & D5 & B5). rewrite (bind_done _ _ _ _ _ E5).
  destruct (law_register d5 5 0 ltac:(lia) P5 B5) as (d6 & E6 & _ & P6 & D6 & B6). exists d6. split_and!; [done|done|congruence].
Qed.

(** A status with data ready, or of a busy drive, is neither that of an absent one. *)
Lemma status_present st : is_busy st = true /\ no_data st = true \/ is_busy st = false /\ no_data st = false -> (st =? 0) || (st =? 0xFF) = false.
Proof.
  intros Hst. destruct (Z.eqb_spec st 0) as [->|_]; [by destruct Hst as [[? ?]|[? ?]]|]. destruct (Z.eqb_spec st 0xFF) as [->|_]; [by destruct Hst as [[? ?]|[? ?]]|done].
Qed.

(** A drive that is there is found, and is left ready. *)
Theorem ata_identify_finds d r : idle d -> exists d', ata_identify_drive H drv r d = Done d' true /\ idle d' /\ disk d' = disk d.
Proof.
  intros Hi. unfold ata_identify_drive. destruct (registers_ok d r Hi) as (d1 & E1 & [P1 B1] & D1).
  apply bind_inv in E1 as (b1 & [] & X1 & E1). apply bind_inv in E1 as (b2 & [] & X2 & E1). apply bind_inv in E1 as (b3 & [] & X3 & E1).
  apply bind_inv in E1 as (b4 & [] & X4 & E1). apply bind_inv in E1 as (b5 & [] & X5 & E1).
  rewrite (bind_done _ _ _ _ _ X1), (bind_done _ _ _ _ _ X2), (bind_done _ _ _ _ _ X3), (bind_done _ _ _ _ _ X4), (bind_done _ _ _ _ _ X5), (bind_done _ _ _ _ _ E1).
  destruct (law_identify d1 P1 B1) as (d2 & ws & E2 & P2 & Hws & D2 & B2). rewrite (bind_done _ _ _ _ _ E2).
  destruct (delay_ok 4 d2) as (d3 & E3 & _ & P3 & D3 & B3). rewrite (bind_done _ _ _ _ _ E3).
  destruct (law_status d3) as (d4 & st & E4 & _ & P4 & D4 & B4 & Sb & Sr). rewrite (bind_done _ _ _ _ _ E4). rewrite P3, P2 in Sr.
  rewrite status_present; [|destruct (decide (busy d3 = 0%nat)) as [Z|Z]; [right; destruct (Sr Z) as (? & _ & ?)|left; apply (Sb Z)]; done].
  destruct (delay_ok 4 d4) as (d5 & E5 & _ & P5 & D5 & B5). rewrite (bind_done _ _ _ _ _ E5).
  destruct (spin_busy d5 ltac:(lia)) as (d6 & k & E6 & P6 & D6 & B6). rewrite (bind_done _ _ _ _ _ E6). cbn [Nat.eqb].
  destruct (law_status d6) as (d7 & st' & E7 & _ & P7 & D7 & B7 & _ & Sr'). rewrite (bind_done _ _ _ _ _ E7). destruct (Sr' B6) as (_ & -> & ->).
  rewrite P6, P5, P4, P3, P2. cbn [Z.eqb negb]. destruct (skip_words_ok ws d7) as (d8 & E8 & I8 & D8).
  - rewrite decide_False by (intros ->; done). congruence.
  - by rewrite B7, B6.
  - rewrite Hws in E8. rewrite (bind_done _ _ _ _ _ E8). exists d8. split_and!; [done|done|congruence].
Qed.

End transfers.

(** Sector numbers are cut to 28 bits without a word. *)
Lemma ata_lba_aliases {D} (H : hw D) drv lba : 0 <= lba -> ata_secread H drv (lba + 2 ^ 28) = ata_secread H drv lba.
Proof.
  intros Hl. unfold ata_secread, set_lba. change 0xFF with (Z.ones 8). change 0x0F with (Z.ones 4). rewrite !Z.land_ones, !Z.shiftr_div_pow2 by lia.
  assert ((lba + 2 ^ 28) mod 2 ^ 8 = lba mod 2 ^ 8) as -> by (Z.to_euclidean_division_equations; lia).
  assert ((lba + 2 ^ 28) / 2 ^ 8 mod 2 ^ 8 = lba / 2 ^ 8 mod 2 ^ 8) as -> by (Z.to_euclidean_division_equations; lia).
  assert ((lba + 2 ^ 28) / 2 ^ 16 mod 2 ^ 8 = lba / 2 ^ 16 mod 2 ^ 8) as -> by (Z.to_euclidean_division_equations; lia).
  by assert ((lba + 2 ^ 28) / 2 ^ 24 mod 2 ^ 4 = lba / 2 ^ 24 mod 2 ^ 4) as -> by (Z.to_euclidean_division_equations; lia).
Qed.

(** ** A drive that keeps the laws *)

Record sim := mk_sim { s_tf : Z -> Z; s_phase : phase; s_disk : Z -> list Z; s_busy : nat }.

Definition sector_ok (ws : list Z) : Prop := length ws = 256%nat /\ Forall (fun w => 0 <= w < 2 ^ 16) ws.
#[local] Instance sector_ok_dec ws : Decision (sector_ok ws) := _.
Definition sim_disk (d : sim) (l : Z) : list Z := if decide (sector_ok (s_disk d l)) then s_disk d l else replicate 256 0.
Definition sim_phase (d : sim) : phase := match s_phase d with P_out l ws => P_out l (map (wrap 16) ws) | p => p end.
Definition sim_lba (d : sim) : Z := s_tf d 3 + 2 ^ 8 * s_tf d 4 + 2 ^ 16 * s_tf d 5 + 2 ^ 24 * (s_tf d 6 - 0xE0).

Definition sim_command (v : Z) (d : sim) : sim :=
  if v =? 0x20 then mk_sim (s_tf d) (P_in (sim_disk d (sim_lba d))) (s_disk d) 2
  else if v =? 0x30 then mk_sim (s_tf d) (P_out (sim_lba d) []) (s_disk d) 2
  else if v =? 0xEC then mk_sim (s_tf d) (P_in (replicate 256 0)) (s_disk d) 2
  else mk_sim (s_tf d) (s_phase d) (s_disk d) 2.

(** The first drive, which answers the third status read after a command or the last
    word of a sector and ignores commands until then. *)
Definition sim_hw : hw sim :=
  mk_hw
    (fun p d => if p =? 0x1F7
       then match s_busy d with S n => Done (mk_sim (s_tf d) (s_phase d) (s_disk d) n) 0x80 | O => Done d (match s_phase d with P_ready => 0x40 | _ => 0x48 end) end
       else Done d 0)
    (fun p v d => Done (if p =? 0x3F6 then d else if p =? 0x1F7 then match s_busy d with O => sim_command v d | _ => d end
       else mk_sim (fun q => if q =? p - 0x1F0 then v else s_tf d q) (s_phase d) (s_disk d) (s_busy d)) tt)
    (fun p d => match s_phase d with
       | P_in (w :: ws) => Done (mk_sim (s_tf d) (if decide (ws = []) then P_ready else P_in ws) (s_disk d) (s_busy d)) w
       | _ => Done d 0 end)
    (fun p w d => match s_phase d with
       | P_out l ws =>
           if (length ws <? 255)%nat then Done (mk_sim (s_tf d) (P_out l (ws ++ [w])) (s_disk d) (s_busy d)) tt
           else Done (mk_sim (s_tf d) P_ready (fun q => if q =? l then map (wrap 16) ws ++ [w] else s_disk d q) 2) tt
       | _ => Done d tt end)
    (inl dead) (outl dead) (ld8 dead) (st8 dead) (ld16 dead) (st16 dead) (ld32 dead) (st32 dead) (ld64 dead) (st64 dead) (rdtsc dead) (cpuid dead) (rdmsr dead) (wrmsr dead).

Lemma sim_disk_ok d l : sector_ok (sim_disk d l).
Proof. unfold sim_disk. case_decide; [done|]. split; [done|]. apply Forall_replicate. lia. Qed.

Lemma out_phase d l ws : sim_phase d = P_out l ws -> exists ws0, s_phase d = P_out l ws0 /\ ws = map (wrap 16) ws0.
Proof. unfold sim_phase. destruct (s_phase d) as [| |l' ws0]; try done. intros [= -> <-]. by exists ws0. Qed.

Lemma in_time : (2 < TIMEOUT)%nat.
Proof. unfold TIMEOUT. lia. Qed.

Lemma sim_outb d v : s_busy d = 0%nat -> ata_outb sim_hw 1 RTIO 7 v d = Done (sim_command v d) tt.
Proof. intros E. unfold ata_outb. cbn [ata_port Z.eqb Pos.eqb outb sim_hw D1IOB RTIO]. change (D1IOB + 7 =? 0x1F7) with true. change (D1IOB + 7 =? 0x3F6) with false. by rewrite E. Qed.

#[export] Instance sim_drive : ata_drive sim_hw 1.
Proof.
  refine {| tf := s_tf; at_phase := sim_phase; disk := sim_disk; busy := s_busy; size := 1000 |}.
  - by left.
  - intros d l. apply sim_disk_ok.
  - intros d v. exists d. split_and!; done || lia.
  - intros d. exists d, 0. split_and!; done || lia.
  - intros d r v Hr Hp Hb. assert (r = 2 \/ r = 3 \/ r = 4 \/ r = 5 \/ r = 6) as [->|[->|[->|[->| ->]]]] by lia; (eexists; split; [reflexivity|]; by split_and!).
  - intros d. unfold ata_inb. cbn [ata_port Z.eqb Pos.eqb inb sim_hw D1IOB RTIO]. change (D1IOB + 7 =? 0x1F7) with true.
    destruct d as [f p k [|n]]; cbn [s_busy s_phase s_tf s_disk]; (eexists _, _; split; [reflexivity|]); cbn [s_busy s_tf]; split_and!; try done.
    intros _. unfold sim_phase. cbn. by destruct p.
  - intros d Hp Hb. eexists _, (replicate 256 0). split; [by apply sim_outb|]. split_and!; try done. exact in_time.
  - intros d Hp Hb Hc l Hl. eexists. split; [by apply sim_outb|]. split_and!; try done. exact in_time.
  - intros d Hp Hb Hc l Hl. eexists. split; [by apply sim_outb|]. split_and!; try done. exact in_time.
  - intros d w ws Hp Hb. assert (s_phase d = P_in (w :: ws)) as E by (unfold sim_phase in Hp; by destruct (s_phase d)).
    unfold ata_inw. cbn [ata_port Z.eqb Pos.eqb inw sim_hw RTIO]. rewrite E. eexists. split; [reflexivity|]. split_and!; try done. unfold sim_phase. cbn. by case_decide.
  - intros d l ws w Hp Hb Hl Hw. destruct (out_phase d l ws Hp) as (ws0 & E & ->). rewrite length_map in Hl. unfold ata_outw. cbn [ata_port Z.eqb Pos.eqb outw sim_hw RTIO]. rewrite E.
    rewrite (proj2 (Nat.ltb_lt _ _)) by done. eexists. split; [reflexivity|]. split_and!; try done. unfold sim_phase. cbn. rewrite map_app. cbn. by rewrite wrap_small.
  - intros d l ws w Hp Hb Hl Hw. destruct (out_phase d l ws Hp) as (ws0 & E & ->). rewrite length_map in Hl. unfold ata_outw. cbn [ata_port Z.eqb Pos.eqb outw sim_hw RTIO]. rewrite E.
    rewrite (proj2 (Nat.ltb_ge _ _)) by lia. eexists. split; [reflexivity|]. split; [done|]. split; [exact in_time|]. intros q. unfold sim_disk. cbn [s_disk]. destruct (q =? l); [|done].
    rewrite decide_True; [done|]. split; [rewrite length_app, length_map; cbn; lia|]. apply Forall_app. split; [|constructor; [done|constructor]]. apply Forall_map, Forall_forall. intros x _. by apply Z.mod_pos_bound.
  - intros d Hp Hb. eexists. split; [by apply sim_outb|]. split_and!; try done. exact in_time.
Defined.

Definition sim0 : sim := mk_sim (fun _ => 0) P_ready (fun _ => replicate 256 0) 0.

Lemma sim_ignores : ignores_flush sim_hw 1.
Proof.
  intros d Hp Hb. exists d. split_and!; try done. unfold ata_outb. cbn [ata_port Z.eqb Pos.eqb outb sim_hw D1IOB RTIO].
  change (D1IOB + 7 =? 0x1F7) with true. change (D1IOB + 7 =? 0x3F6) with false. cbn [busy sim_drive] in Hb. by destruct (s_busy d).
Qed.


End Ata.
