(* ===== verification/Ahci.v ===== *)
(** The AHCI driver ([src/drivers/storage/block/ahci.c]): commands are laid out in
    memory that the controller reads, and started by a register.

    Model: the memory shared with the controller, byte by physical address, is a part
    of the state that register accesses of [Machine] may change, as the controller
    does.  The pointers of [ahci_dev_t] into the direct map are the physical
    addresses.  Frames and memory come from arguments. *)
From S2P Require Import Prelude Machine Pci Block.

Module Ahci.
Import Machine Pci.

Definition HHDM_START : Z := 0xFFFF800000000000.

Definition PORT_CLB : Z := 0x00.
Definition PORT_CLBU : Z := 0x04.
Definition PORT_FB : Z := 0x08.
Definition PORT_FBU : Z := 0x0C.
Definition PORT_IS : Z := 0x10.
Definition PORT_CMD : Z := 0x18.
Definition PORT_TFD : Z := 0x20.
Definition PORT_SSTS : Z := 0x28.
Definition PORT_SERR : Z := 0x30.
Definition PORT_CI : Z := 0x38.
Definition CMD_ST : Z := 1.
Definition CMD_FRE : Z := 2 ^ 4.
Definition CMD_FR : Z := 2 ^ 14.
Definition CMD_CR : Z := 2 ^ 15.
Definition TFD_BSY : Z := 1.
Definition TFD_DRQ : Z := 2 ^ 3.
Definition TFD_ERR : Z := 2 ^ 8.

Record ahci_dev_t := mk_ahci {
  hba : Z; port : Z; a_bus : Z; a_slot : Z; a_fn : Z;
  cmdls_phys : Z; cmdtbl_phys : Z; fis_phys : Z; dmabuf_phys : Z
}.

(** The memory the controller sees, and the controller. *)
Record dmast (D : Type) := mk_dmast { dma : Z -> Z; ctl : D }.
Arguments mk_dmast {D}.
Arguments dma {D}.
Arguments ctl {D}.

Definition poke (a : Z) (bs : list Z) (m : Z -> Z) : Z -> Z := fun x => default (m x) (if a <=? x then bs !! Z.to_nat (x - a) else None).
Definition peek (m : Z -> Z) (a : Z) (n : nat) : list Z := map (fun i => m (a + Z.of_nat i)) (seq 0 n).

(** The command frame, [sizeof (fis_reg_h2d_t)] bytes. *)
Definition fis_reg_h2d (lba count : Z) (write : bool) : list Z :=
  [0x27; 0x80; if write then 0x35 else 0x25; 0; 0;
   Z.land lba 0xFF; Z.land (Z.shiftr lba 8) 0xFF; Z.land (Z.shiftr lba 16) 0xFF; 0x40;
   Z.land (Z.shiftr lba 24) 0xFF; Z.land (Z.shiftr lba 32) 0xFF; Z.land (Z.shiftr lba 40) 0xFF;
   Z.land count 0xFF; Z.land (Z.shiftr count 8) 0xFF; 0; 0] ++ replicate 44 0.

Definition hba_cmd_header (tbl : Z) (write : bool) : list Z :=
  enc_fields [2; 2; 4; 8]%nat [Z.lor (Z.lor (2 ^ 7) (if write then 2 ^ 6 else 0)) 3; 1; 0; tbl] ++ replicate 16 0.
Definition hba_prdt_entry (dba count : Z) : list Z := enc_fields [8; 4]%nat [dba; Z.lor (u32 (u32 (count * 512) - 1)) (2 ^ 31)].

Section ahci.
Context {D : Type} (H : hw (dmast D)).
Notation MD := (M (dmast D)).

Definition put (a : Z) (bs : list Z) : MD unit := modify (fun s => mk_dmast (poke a bs (dma s)) (ctl s)).
Definition fetch (a : Z) (n : nat) : MD (list Z) := gets (fun s => peek (dma s) a n).

Definition preg (dev : ahci_dev_t) (prt reg : Z) : Z := u64 (hba dev + 0x100 + prt * 0x80 + reg).

Definition ahci_read_bar5 (dev : ahci_dev_t) : MD Z :=
  low ← pci_cfg_inl H (a_bus dev) (a_slot dev) (a_fn dev) 0x24;
  high ← (if Z.land low 0x4 =? 0 then mret 0 else pci_cfg_inl H (a_bus dev) (a_slot dev) (a_fn dev) 0x28);
  mret (Z.lor (u64 (Z.shiftl high 32)) (Z.land low 0xFFFFFFF0)).

(** [for (i < n) if (done) break] *)
Fixpoint poll (n : nat) (reg : Z) (stop : Z -> bool) : MD bool :=
  match n with
  | O => mret false
  | S n' => v ← ld32 H reg; if stop v then mret true else poll n' reg stop
  end.

Definition ahci_wait_idle (dev : ahci_dev_t) (prt : Z) (timeout : nat) : MD Z :=
  ok ← poll timeout (preg dev prt PORT_TFD) (fun tfd => Z.land tfd (Z.lor TFD_BSY TFD_DRQ) =? 0);
  mret (if ok : bool then 0 else - ETIME).

(** The command in memory. *)
Definition prepare (dev : ahci_dev_t) (lba count : Z) (buf : list Z) (write : bool) : MD unit :=
  let fis := fis_reg_h2d lba count write in
  _ ← put (fis_phys dev) fis;
  _ ← put (cmdls_phys dev) (hba_cmd_header (cmdtbl_phys dev) write);
  _ ← put (cmdtbl_phys dev) (splice (replicate 128 0) fis 0);
  _ ← put (cmdtbl_phys dev + 128) (hba_prdt_entry (dmabuf_phys dev) count);
  if write then put (dmabuf_phys dev) (take (Z.to_nat (count * 512)) buf) else mret tt.

Definition SPINS : nat := Z.to_nat 1000000.
Definition TRIES : nat := Z.to_nat 100000.

(** The result, and the bytes read. *)
Definition ahci_issue_cmd (dev : ahci_dev_t) (prt lba count : Z) (buf : list Z) (write : bool) : MD (Z * list Z) :=
  _ ← prepare dev lba count buf write;
  _ ← st32 H (preg dev prt PORT_CI) 1;
  _ ← poll SPINS (preg dev prt PORT_CI) (fun ci => Z.land ci 1 =? 0);
  tfd ← ld32 H (preg dev prt PORT_TFD);
  if negb (Z.land tfd TFD_ERR =? 0) then
    _ ← st32 H (preg dev prt PORT_SERR) 0xFFFFFFFF;
    mret (- EHANG, buf)
  else if write then mret (0, buf)
  else bs ← fetch (dmabuf_phys dev) (Z.to_nat (count * 512)); mret (0, splice buf bs 0).

Definition ahci_port_init (dev : ahci_dev_t) (prt : Z) : MD Z :=
  let reg := preg dev prt in
  _ ← st32 H (reg PORT_CMD) 0;
  _ ← poll TRIES (reg PORT_CMD) (fun c => Z.land c (Z.lor CMD_CR CMD_FR) =? 0);
  r ← ahci_wait_idle dev prt TRIES;
  if r <? 0 then mret (- ETIME) else
  _ ← st32 H (reg PORT_IS) 0xFFFFFFFF;
  _ ← st32 H (reg PORT_CLB) (u32 (Z.land (cmdls_phys dev) 0xFFFFFFFF));
  _ ← st32 H (reg PORT_CLBU) (u32 (Z.land (Z.shiftr (cmdls_phys dev) 32) 0xFFFFFFFF));
  _ ← st32 H (reg PORT_FB) (u32 (Z.land (fis_phys dev) 0xFFFFFFFF));
  _ ← st32 H (reg PORT_FBU) (u32 (Z.land (Z.shiftr (fis_phys dev) 32) 0xFFFFFFFF));
  _ ← st32 H (reg PORT_CMD) CMD_FRE;
  _ ← poll TRIES (reg PORT_CMD) (fun c => negb (Z.land c CMD_FRE =? 0));
  _ ← poll TRIES (reg PORT_SSTS) (fun v => Z.land v 0xF =? 3);
  v ← ld32 H (reg PORT_SSTS);
  if negb (Z.land v 0xF =? 3) then mret 0 else
  _ ← st32 H (reg PORT_CMD) (Z.lor CMD_FRE CMD_ST);
  _ ← poll TRIES (reg PORT_CMD) (fun c => negb (Z.land c CMD_ST =? 0));
  mret 0.

(** The first port that initialises. *)
Fixpoint ports_loop (n : nat) (i pi : Z) (dev : ahci_dev_t) : MD (option Z) :=
  match n with
  | O => mret None
  | S n' =>
      if Z.land pi (u32 (Z.shiftl 1 i)) =? 0 then ports_loop n' (i + 1) pi dev else
      r ← ahci_port_init dev i;
      if r =? 0 then mret (Some i) else ports_loop n' (i + 1) pi dev
  end.

Context (pmm_falloc : MD Z).

Definition ahci_dev_init (dev : ahci_dev_t) : MD (Z * ahci_dev_t) :=
  hbap ← ahci_read_bar5 dev;
  if hbap =? 0 then mret (- EINVAL, dev) else
  cmdls ← pmm_falloc;
  cmdtbl ← pmm_falloc;
  fisp ← pmm_falloc;
  dmabuf ← pmm_falloc;
  let dev := mk_ahci (u64 (HHDM_START + hbap)) (port dev) (a_bus dev) (a_slot dev) (a_fn dev) cmdls cmdtbl fisp dmabuf in
  if (cmdls =? 0) || (cmdtbl =? 0) || (fisp =? 0) || (dmabuf =? 0) then mret (- ENOMEM, dev) else
  pi ← ld32 H (u64 (hba dev + 0x0C));
  r ← ports_loop 32 0 pi dev;
  match r with
  | Some i => mret (0, mk_ahci (hba dev) i (a_bus dev) (a_slot dev) (a_fn dev) cmdls cmdtbl fisp dmabuf)
  | None => mret (-1, dev)
  end.

Definition ahci_secread (dev : ahci_dev_t) (lba : Z) (buf : list Z) : MD (Z * list Z) := ahci_issue_cmd dev (port dev) lba 1 buf false.
Definition ahci_secwrite (dev : ahci_dev_t) (lba : Z) (buf : list Z) : MD Z :=
  '(r, _) ← ahci_issue_cmd dev (port dev) lba 1 buf true; mret r.

(** ** The controllers on the bus *)

(** Memory for a device, as its address, and storing the device there. *)
Context (malloc : MD Z) (free : Z -> MD unit) (set_dev : Z -> ahci_dev_t -> MD unit).
Notation MB := (M (Block.blk (dmast D))).

(** [false]: the enumeration ends. *)
Definition try_fn (bus slot fn : Z) : MB bool :=
  hdr ← Block.onhw (pci_get_chdr_fn H bus slot fn);
  if vndid hdr =? 0xFFFF then mret true else
  if (cls hdr =? 0x01) && (subcls hdr =? 0x06) && (progif hdr =? 0x01) then
    p ← Block.onhw malloc;
    if p =? 0 then mret false else
    '(r, dev) ← Block.onhw (ahci_dev_init (mk_ahci 0 0 bus slot fn 0 0 0 0));
    if r <? 0 then _ ← Block.onhw (free p); mret true else
    _ ← Block.onhw (set_dev p dev);
    r ← Block.block_register Block.DRV_AHCI p;
    if r <? 0 then _ ← Block.onhw (free p); mret false else mret true
  else mret true.

Fixpoint try_all (l : list (Z * Z * Z)) : MB unit :=
  match l with
  | [] => mret tt
  | (bus, slot, fn) :: r => go ← try_fn bus slot fn; if go : bool then try_all r else mret tt
  end.

(** Busses 0 to 3, 32 slots each, 8 functions each, in order. *)
Definition ahci_enumerate : MB unit :=
  try_all (flat_map (fun bus => flat_map (fun slot => map (fun fn => (bus, slot, fn)) (seqZ 0 8)) (seqZ 0 32)) (seqZ 0 4)).

End ahci.

(** ** What the controller finds *)

Lemma peek_poke_in m a bs n : (n <= length bs)%nat -> peek (poke a bs m) a n = take n bs.
Proof.
  intros Hk. apply list_eq. intros i. unfold peek, poke. rewrite list_lookup_fmap. destruct (decide (i < n)%nat) as [Hi|Hi].
  - rewrite lookup_seq_lt, lookup_take_lt by lia. cbn [fmap option_fmap option_map]. rewrite (proj2 (Z.leb_le _ _)) by lia.
    replace (Z.to_nat _) with i by lia. destruct (bs !! i) eqn:E; [done|]. apply lookup_ge_None in E. lia.
  - rewrite lookup_seq_ge, lookup_take_ge by lia. done.
Qed.

Lemma peek_poke_out m a bs b n : b + Z.of_nat n <= a \/ a + Z.of_nat (length bs) <= b -> peek (poke a bs m) b n = peek m b n.
Proof.
  intros Hab. unfold peek. apply map_ext_in. intros i Hi%in_seq. unfold poke. destruct (Z.leb_spec a (b + Z.of_nat i)); [|done].
  by rewrite lookup_ge_None_2 by lia.
Qed.

Lemma peek_poke_same m a bs n : n = length bs -> peek (poke a bs m) a n = bs.
Proof. intros ->. by rewrite peek_poke_in, firstn_all. Qed.

(** The four pages of a device do not overlap. *)
Definition pages_apart (dev : ahci_dev_t) : Prop :=
  forall a b, a ∈ [cmdls_phys dev; cmdtbl_phys dev; fis_phys dev; dmabuf_phys dev] ->
    b ∈ [cmdls_phys dev; cmdtbl_phys dev; fis_phys dev; dmabuf_phys dev] -> a = b \/ a + 4096 <= b \/ b + 4096 <= a.
Definition pages_differ (dev : ahci_dev_t) : Prop := NoDup [cmdls_phys dev; cmdtbl_phys dev; fis_phys dev; dmabuf_phys dev].

(** Fields of the structures as the standard has them: a command header, an entry of
    the table of regions, and the frame of a command (serial ATA, register host to
    device). *)
Definition hdr_write (b : list Z) : bool := Z.testbit (of_le (take 2 b)) 6.
Definition hdr_regions (b : list Z) : Z := of_le (take 2 (drop 2 b)).
Definition hdr_table (b : list Z) : Z := of_le (take 8 (drop 8 b)).
Definition region_base (b : list Z) : Z := of_le (take 8 b).
Definition region_size (b : list Z) : Z := of_le (take 4 (drop 8 b)) mod 2 ^ 22 + 1.
Definition byte_at (b : list Z) (i : nat) : Z := nth i b 0.
Definition frame_cmd (b : list Z) : Z := byte_at b 2.
Definition frame_count (b : list Z) : Z := byte_at b 12 + 2 ^ 8 * byte_at b 13.
Definition frame_lba (b : list Z) : Z :=
  byte_at b 4 + 2 ^ 8 * byte_at b 5 + 2 ^ 16 * byte_at b 6 + 2 ^ 24 * byte_at b 8 + 2 ^ 32 * byte_at b 9 + 2 ^ 40 * byte_at b 10.

Lemma length_fis lba count w : length (fis_reg_h2d lba count w) = 60%nat.
Proof. reflexivity. Qed.
Lemma length_cmd_header tbl w : length (hba_cmd_header tbl w) = 32%nat.
Proof. reflexivity. Qed.
Lemma length_entry a c : length (hba_prdt_entry a c) = 12%nat.
Proof. reflexivity. Qed.

Section facts.
Context {D : Type}.

(** The memory after [prepare]: the header, the frame, the region and the data. *)
Lemma prepare_lays dev lba count buf write (s : dmast D) : pages_apart dev -> pages_differ dev -> 1 <= count <= 8 -> Z.of_nat (length buf) = count * 512 ->
  exists m, prepare dev lba count buf write s = Done (mk_dmast m (ctl s)) tt /\
    peek m (cmdls_phys dev) 32 = hba_cmd_header (cmdtbl_phys dev) write /\
    peek m (cmdtbl_phys dev) 60 = fis_reg_h2d lba count write /\
    peek m (cmdtbl_phys dev + 128) 12 = hba_prdt_entry (dmabuf_phys dev) count /\
    peek m (dmabuf_phys dev) (length buf) = (if write then buf else peek (dma s) (dmabuf_phys dev) (length buf)).
Proof.
  intros Ha Hd Hc Hb. unfold pages_differ in Hd. rewrite !NoDup_cons, !elem_of_cons in Hd.
  assert (forall a b, a ∈ [cmdls_phys dev; cmdtbl_phys dev; fis_phys dev; dmabuf_phys dev] -> b ∈ [cmdls_phys dev; cmdtbl_phys dev; fis_phys dev; dmabuf_phys dev] ->
    a <> b -> a + 4096 <= b \/ b + 4096 <= a) as Hap by (intros a b Hia Hib Hne; destruct (Ha a b Hia Hib); tauto).
  pose proof (Hap (cmdls_phys dev) (cmdtbl_phys dev) ltac:(set_solver) ltac:(set_solver) ltac:(naive_solver)) as H1.
  pose proof (Hap (cmdls_phys dev) (dmabuf_phys dev) ltac:(set_solver) ltac:(set_solver) ltac:(naive_solver)) as H2.
  pose proof (Hap (cmdtbl_phys dev) (dmabuf_phys dev) ltac:(set_solver) ltac:(set_solver) ltac:(naive_solver)) as H3.
  pose proof (Hap (fis_phys dev) (dmabuf_phys dev) ltac:(set_solver) ltac:(set_solver) ltac:(naive_solver)) as H4. clear Ha Hd Hap.
  set (fis := fis_reg_h2d lba count write). set (tblb := splice (replicate 128 0) fis 0).
  assert (length tblb = 128%nat /\ take 60 tblb = fis) as [Ht Hf] by (split; reflexivity).
  set (m4 := poke (cmdtbl_phys dev + 128) (hba_prdt_entry (dmabuf_phys dev) count) (poke (cmdtbl_phys dev) tblb
    (poke (cmdls_phys dev) (hba_cmd_header (cmdtbl_phys dev) write) (poke (fis_phys dev) fis (dma s))))).
  exists (if write then poke (dmabuf_phys dev) (take (Z.to_nat (count * 512)) buf) m4 else m4).
  assert (length (take (Z.to_nat (count * 512)) buf) = length buf) as Hl by (rewrite take_ge by lia; done).
  split; [by destruct write|].
  assert (forall a n, a + Z.of_nat n <= dmabuf_phys dev \/ dmabuf_phys dev + 4096 <= a ->
    peek (if write then poke (dmabuf_phys dev) (take (Z.to_nat (count * 512)) buf) m4 else m4) a n = peek m4 a n) as Hout
    by (intros a n Han; destruct write; [|done]; apply peek_poke_out; rewrite Hl; lia).
  split_and!.
  - rewrite Hout by lia. unfold m4. rewrite peek_poke_out, peek_poke_out by (rewrite ?length_entry, ?Ht; lia). by apply peek_poke_same.
  - rewrite Hout by lia. unfold m4. rewrite peek_poke_out by (rewrite length_entry; lia).
    by rewrite peek_poke_in by lia.
  - rewrite Hout by lia. unfold m4. by apply peek_poke_same.
  - destruct write; [rewrite peek_poke_same by done; by rewrite take_ge by lia|]. unfold m4.
    by rewrite !peek_poke_out by (rewrite ?length_entry, ?length_cmd_header, ?Ht; unfold fis; rewrite ?length_fis; lia).
Qed.

(** What a controller and a drive that keep the standards find when a command of one
    sector is started: a header that leads to the table, one region of 512 bytes with
    the data, and a frame with the right command and count.  But the sector in the
    frame is not the one asked for: every byte of it is one place off, because the
    structure has an extra field before it. *)
Theorem ahci_command dev lba buf write (s : dmast D) : pages_apart dev -> pages_differ dev -> length buf = 512%nat ->
  0 <= lba < 2 ^ 30 -> 0 <= cmdtbl_phys dev < 2 ^ 64 -> 0 <= dmabuf_phys dev < 2 ^ 64 ->
  exists m, prepare dev lba 1 buf write s = Done (mk_dmast m (ctl s)) tt /\
    let hdr := peek m (cmdls_phys dev) 32 in let frame := peek m (hdr_table hdr) 60 in let region := peek m (hdr_table hdr + 128) 12 in
    hdr_write hdr = write /\ hdr_regions hdr = 1 /\ region_base region = dmabuf_phys dev /\ region_size region = 512 /\
    (write = true -> peek m (region_base region) 512 = buf) /\
    frame_cmd frame = (if write then 0x35 else 0x25) /\ frame_count frame = 1 /\
    frame_lba frame = 2 ^ 30 + 2 ^ 8 * (lba mod 2 ^ 16) + 2 ^ 32 * (lba / 2 ^ 24) /\ frame_lba frame <> lba.
Proof.
  intros Ha Hd Hb Hl Ht Hdm. destruct (prepare_lays dev lba 1 buf write s Ha Hd ltac:(lia) ltac:(lia)) as (m & E & Eh & Ef & Er & Ew).
  exists m. split; [done|]. cbv zeta. rewrite Eh. assert (hdr_table (hba_cmd_header (cmdtbl_phys dev) write) = cmdtbl_phys dev) as ->.
  { apply (of_le_le 8). done. }
  rewrite Ef, Er. assert (region_base (hba_prdt_entry (dmabuf_phys dev) 1) = dmabuf_phys dev) as -> by (by apply (of_le_le 8)).
  assert (frame_lba (fis_reg_h2d lba 1 write) = 2 ^ 30 + 2 ^ 8 * (lba mod 2 ^ 16) + 2 ^ 32 * (lba / 2 ^ 24)) as El.
  { unfold frame_lba, byte_at, fis_reg_h2d. cbn [app nth]. change 0xFF with (Z.ones 8). rewrite !Z.land_ones, !Z.shiftr_div_pow2 by lia.
    Z.to_euclidean_division_equations. lia. }
  split_and!; [by destruct write|by destruct write|done|done| |done|done|done|].
  - intros ->. by rewrite <- Hb.
  - rewrite El. pose proof (Z.mod_pos_bound lba (2 ^ 16) ltac:(lia)). pose proof (Z.div_pos lba (2 ^ 24) ltac:(lia) ltac:(lia)). lia.
Qed.

(** ** Where the driver goes wrong *)

Context (H : hw (dmast D)).

Lemma poll_quiet v n reg stop (s : dmast D) : (forall r s, ld32 H r s = Done s v) -> exists b, poll H n reg stop s = Done s b.
Proof.
  intros Hv. induction n as [|n IH]; cbn [poll]; [by eexists|]. rewrite (bind_done _ _ _ _ _ (Hv reg s)). destruct (stop v); [by eexists|done].
Qed.

(** A controller that never finishes: the read succeeds with what the page held. *)
Lemma ahci_timeout_stale dev lba buf (s : dmast D) : (forall r s, ld32 H r s = Done s 1) -> (forall r v s, st32 H r v s = Done s tt) ->
  pages_apart dev -> pages_differ dev -> length buf = 512%nat ->
  exists s', ahci_secread H dev lba buf s = Done s' (0, peek (dma s) (dmabuf_phys dev) 512).
Proof.
  intros Hr Hw Ha Hd Hb. destruct (prepare_lays dev lba 1 buf false s Ha Hd ltac:(lia) ltac:(lia)) as (m & E & _ & _ & _ & Em).
  unfold ahci_secread, ahci_issue_cmd. rewrite (bind_done _ _ _ _ _ E), (bind_done _ _ _ _ _ (Hw _ _ _)).
  destruct (poll_quiet 1 SPINS (preg dev (port dev) PORT_CI) (fun ci => Z.land ci 1 =? 0) (mk_dmast m (ctl s)) Hr) as [b Ep].
  rewrite (bind_done _ _ _ _ _ Ep), (bind_done _ _ _ _ _ (Hr _ _)). change (Z.land 1 TFD_ERR =? 0) with true. cbn [negb]. unfold fetch. rewrite bind_gets. cbn [dma].
  change (Z.to_nat (1 * 512)) with 512%nat. eexists. unfold mret, M_ret. do 2 f_equal. rewrite <- Hb, Em. unfold splice. rewrite take_0, drop_ge, app_nil_r; [done|].
  unfold peek. rewrite length_map, length_seq. lia.
Qed.

(** A port without a drive counts as initialised, so it is the one the device uses. *)
Lemma ahci_empty_port dev prt (s : dmast D) : (forall r s, ld32 H r s = Done s 0) -> (forall r v s, st32 H r v s = Done s tt) ->
  ahci_port_init H dev prt s = Done s 0.
Proof.
  intros Hr Hw. unfold ahci_port_init, ahci_wait_idle.
  assert (forall n reg stop s, exists b, poll H n reg stop s = Done s b) as Hp by (intros; by apply (poll_quiet 0)).
  rewrite (bind_done _ _ _ _ _ (Hw _ _ _)). destruct (Hp TRIES (preg dev prt PORT_CMD) (fun c => Z.land c (Z.lor CMD_CR CMD_FR) =? 0) s) as [b1 E1].
  rewrite (bind_done _ _ _ _ _ E1).
  assert (poll H TRIES (preg dev prt PORT_TFD) (fun tfd => Z.land tfd (Z.lor TFD_BSY TFD_DRQ) =? 0) s = Done s true) as E2.
  { replace TRIES with (S (Z.to_nat 99999)) by (unfold TRIES; lia). cbn [poll]. by rewrite (bind_done _ _ _ _ _ (Hr _ s)). }
  unfold mbind at 1, M_bind at 1. rewrite (bind_done _ _ _ _ _ E2). cbn [mret M_ret Z.ltb Z.compare].
  do 6 rewrite (bind_done _ _ _ _ _ (Hw _ _ _)).
  destruct (Hp TRIES (preg dev prt PORT_CMD) (fun c => negb (Z.land c CMD_FRE =? 0)) s) as [b2 E3]. rewrite (bind_done _ _ _ _ _ E3).
  destruct (Hp TRIES (preg dev prt PORT_SSTS) (fun v => Z.land v 0xF =? 3) s) as [b3 E4]. rewrite (bind_done _ _ _ _ _ E4).
  by rewrite (bind_done _ _ _ _ _ (Hr _ s)).
Qed.

End facts.

Definition dev0 : ahci_dev_t := mk_ahci HHDM_START 0 0 0 0 0x1000 0x2000 0x3000 0x4000.

Lemma ahci_command_witness : exists m,
  prepare dev0 5 1 (replicate 512 7) true (mk_dmast (fun _ => 0) tt) = Done (mk_dmast m tt) tt /\
  frame_lba (peek m (hdr_table (peek m 0x1000 32)) 60) = 2 ^ 30 + 1280.
Proof.
  destruct (ahci_command (D := unit) dev0 5 (replicate 512 7) true (mk_dmast (fun _ => 0) tt)) as (m & E & Hm).
  - intros a b Ha Hb. rewrite !elem_of_cons, elem_of_nil in Ha, Hb. cbn in Ha, Hb. lia.
  - vm_compute. repeat constructor; rewrite ?elem_of_cons, ?elem_of_nil; intuition discriminate.
  - reflexivity.
  - lia.
  - cbn. lia.
  - cbn. lia.
  - exists m. split; [exact E|]. destruct Hm as (_ & _ & _ & _ & _ & _ & _ & El & _). exact El.
Defined.

End Ahci.
