(* ===== verification/Ext2.v ===== *)
(** The ext2 driver ([src/drivers/storage/fs/ext2.c],
    [include/drivers/storage/fs/ext2.h]) over the block layer of [Block].

    Model: the mounted instances by the pointer [priv], the block layer below,
    the outcomes of allocations to come, the content of memory that was not
    initialised and the clock.  On-disk structures are records with their packed
    encoding; an inode or a table of block pointers in a buffer is decoded where
    the code casts.  Variable-length arrays on the stack do not fail. *)
From S2P Require Import Prelude CString VfsOps Block.

Module Ext2.
Import CString VfsOps Block.

Definition EXT2_SUPER_MAGIC : Z := 0xEF53.
Definition EXT2_ERRORS_CONTINUE : Z := 1.
Definition EXT2_GOOD_OLD_REV : Z := 0.
Definition EXT2_DYNAMIC_REV : Z := 1.
Definition EXT2_FEATURE_INCOMPAT_FILETYPE : Z := 2.
Definition EXT2_FEATURE_RO_COMPAT_SPARSE_SUPER : Z := 1.
Definition EXT2_FEATURE_RO_COMPAT_LARGE_FILE : Z := 2.
Definition EXT2_ROOT_INO : Z := 2.

(** ** On-disk structures *)

Record ext2_sb_t := mk_sb {
  s_inodes_count : Z; s_blocks_count : Z; s_r_blocks_count : Z; s_free_blocks_count : Z;
  s_free_inodes_count : Z; s_first_data_block : Z; s_log_block_size : Z; s_log_frag_size : Z;
  s_blocks_per_group : Z; s_frags_per_group : Z; s_inodes_per_group : Z; s_mtime : Z; s_wtime : Z;
  s_mnt_count : Z; s_max_mnt_count : Z; s_magic : Z; s_state : Z; s_errors : Z; s_minor_rev_level : Z;
  s_lastcheck : Z; s_checkinterval : Z; s_creator_os : Z; s_rev_level : Z; s_def_resuid : Z; s_def_resgid : Z
}.

Definition sb_widths : list nat := replicate 13 4%nat ++ replicate 6 2%nat ++ replicate 4 4%nat ++ [2%nat; 2%nat].

Definition sb_fields (b : ext2_sb_t) : list Z :=
  [s_inodes_count b; s_blocks_count b; s_r_blocks_count b; s_free_blocks_count b; s_free_inodes_count b;
   s_first_data_block b; s_log_block_size b; s_log_frag_size b; s_blocks_per_group b; s_frags_per_group b;
   s_inodes_per_group b; s_mtime b; s_wtime b; s_mnt_count b; s_max_mnt_count b; s_magic b; s_state b; s_errors b;
   s_minor_rev_level b; s_lastcheck b; s_checkinterval b; s_creator_os b; s_rev_level b; s_def_resuid b;
   s_def_resgid b].

Definition sb_of (l : list Z) : ext2_sb_t :=
  mk_sb (fld l 0) (fld l 1) (fld l 2) (fld l 3) (fld l 4) (fld l 5) (fld l 6) (fld l 7) (fld l 8) (fld l 9)
    (fld l 10) (fld l 11) (fld l 12) (fld l 13) (fld l 14) (fld l 15) (fld l 16) (fld l 17) (fld l 18) (fld l 19)
    (fld l 20) (fld l 21) (fld l 22) (fld l 23) (fld l 24).

Definition enc_sb (b : ext2_sb_t) : list Z := enc_fields sb_widths (sb_fields b).
Definition dec_sb (bs : list Z) : ext2_sb_t := sb_of (dec_fields sb_widths bs).

(** The fields after [sb]; names and the volume id are kept as bytes. *)
Record ext2_dynrev_sb_t := mk_dynsb {
  sb : ext2_sb_t;
  s_first_ino : Z; s_inode_size : Z; s_block_group_nr : Z;
  s_feature_compat : Z; s_feature_incompat : Z; s_feature_ro_compat : Z;
  s_names : list Z; (* s_uuid, s_volume_name, s_last_mounted: 96 bytes *)
  s_algo_bitmap : Z
}.

Definition SBSZ : nat := 84.
Definition DYNSBSZ : nat := 204.

Definition enc_dynsb (b : ext2_dynrev_sb_t) : list Z :=
  enc_sb (sb b) ++
  enc_fields [4; 2; 2; 4; 4; 4]%nat
    [s_first_ino b; s_inode_size b; s_block_group_nr b; s_feature_compat b; s_feature_incompat b; s_feature_ro_compat b]
  ++ s_names b ++ le 4 (s_algo_bitmap b).

Definition dec_dynsb (bs : list Z) : ext2_dynrev_sb_t :=
  let l := dec_fields [4; 2; 2; 4; 4; 4]%nat (drop SBSZ bs) in
  mk_dynsb (dec_sb bs) (fld l 0) (fld l 1) (fld l 2) (fld l 3) (fld l 4) (fld l 5)
    (take 96 (drop 104 bs)) (of_le (take 4 (drop 200 bs))).

Record ext2_bg_t := mk_bg {
  bg_block_bitmap : Z; bg_inode_bitmap : Z; bg_inode_table : Z;
  bg_free_blocks_count : Z; bg_free_inodes_count : Z; bg_used_dirs_count : Z; bg_pad : Z;
  bg_reserved : list Z (* 12 bytes *)
}.

Definition BGSZ : nat := 32.

Definition enc_bg (g : ext2_bg_t) : list Z :=
  enc_fields [4; 4; 4; 2; 2; 2; 2]%nat
    [bg_block_bitmap g; bg_inode_bitmap g; bg_inode_table g; bg_free_blocks_count g; bg_free_inodes_count g;
     bg_used_dirs_count g; bg_pad g] ++ bg_reserved g.

Definition dec_bg (bs : list Z) : ext2_bg_t :=
  let l := dec_fields [4; 4; 4; 2; 2; 2; 2]%nat bs in
  mk_bg (fld l 0) (fld l 1) (fld l 2) (fld l 3) (fld l 4) (fld l 5) (fld l 6) (take 12 (drop 20 bs)).

Record ext2_ino_t := mk_ino {
  i_mode : Z; i_uid : Z; i_size : Z; i_atime : Z; i_ctime : Z; i_mtime : Z; i_dtime : Z; i_gid : Z;
  i_links_count : Z; i_blocks : Z; i_flags : Z; i_osd1 : Z;
  i_block : list Z; (* 15 pointers *)
  i_generation : Z; i_file_acl : Z; i_dir_acl : Z; i_faddr : Z;
  i_osd2 : list Z (* 12 bytes *)
}.

Definition INOSZ : nat := 128.

Definition ino_widths1 : list nat := [2; 2; 4; 4; 4; 4; 4; 2; 2; 4; 4; 4]%nat.
Definition ino_fields1 (n : ext2_ino_t) : list Z :=
  [i_mode n; i_uid n; i_size n; i_atime n; i_ctime n; i_mtime n; i_dtime n; i_gid n; i_links_count n; i_blocks n;
   i_flags n; i_osd1 n].
Definition ino_fields2 (n : ext2_ino_t) : list Z := [i_generation n; i_file_acl n; i_dir_acl n; i_faddr n].

Definition enc_ino (n : ext2_ino_t) : list Z :=
  enc_fields ino_widths1 (ino_fields1 n) ++ enc_fields (replicate 15 4%nat) (i_block n) ++
  enc_fields (replicate 4 4%nat) (ino_fields2 n) ++ i_osd2 n.

Definition dec_ino (bs : list Z) : ext2_ino_t :=
  let l := dec_fields ino_widths1 bs in
  let r := dec_fields (replicate 4 4%nat) (drop 100 bs) in
  mk_ino (fld l 0) (fld l 1) (fld l 2) (fld l 3) (fld l 4) (fld l 5) (fld l 6) (fld l 7) (fld l 8) (fld l 9)
    (fld l 10) (fld l 11) (dec_fields (replicate 15 4%nat) (drop 40 bs)) (fld r 0) (fld r 1) (fld r 2) (fld r 3)
    (take 12 (drop 116 bs)).

Definition zero_ino : ext2_ino_t := mk_ino 0 0 0 0 0 0 0 0 0 0 0 0 (replicate 15 0) 0 0 0 0 (replicate 12 0).

Definition set_i_block (b : list Z) (n : ext2_ino_t) : ext2_ino_t :=
  mk_ino (i_mode n) (i_uid n) (i_size n) (i_atime n) (i_ctime n) (i_mtime n) (i_dtime n) (i_gid n) (i_links_count n)
    (i_blocks n) (i_flags n) (i_osd1 n) b (i_generation n) (i_file_acl n) (i_dir_acl n) (i_faddr n) (i_osd2 n).
Definition set_i_blocks (c : Z) (n : ext2_ino_t) : ext2_ino_t :=
  mk_ino (i_mode n) (i_uid n) (i_size n) (i_atime n) (i_ctime n) (i_mtime n) (i_dtime n) (i_gid n) (i_links_count n)
    c (i_flags n) (i_osd1 n) (i_block n) (i_generation n) (i_file_acl n) (i_dir_acl n) (i_faddr n) (i_osd2 n).
Definition set_i_links (c : Z) (n : ext2_ino_t) : ext2_ino_t :=
  mk_ino (i_mode n) (i_uid n) (i_size n) (i_atime n) (i_ctime n) (i_mtime n) (i_dtime n) (i_gid n) (u16 c)
    (i_blocks n) (i_flags n) (i_osd1 n) (i_block n) (i_generation n) (i_file_acl n) (i_dir_acl n) (i_faddr n) (i_osd2 n).
Definition set_i_size (sz acl : Z) (n : ext2_ino_t) : ext2_ino_t :=
  mk_ino (i_mode n) (i_uid n) sz (i_atime n) (i_ctime n) (i_mtime n) (i_dtime n) (i_gid n) (i_links_count n)
    (i_blocks n) (i_flags n) (i_osd1 n) (i_block n) (i_generation n) (i_file_acl n) acl (i_faddr n) (i_osd2 n).

(** The header of a directory entry: inode, record length, name length, type. *)
Record ext2_dir1_t := mk_dir { inode : Z; rec_len : Z; name_len : Z; file_type : Z }.

Definition DIRHDR : nat := 8.
Definition enc_dir (e : ext2_dir1_t) : list Z :=
  enc_fields [4; 2; 1; 1]%nat [inode e; rec_len e; name_len e; file_type e].
Definition dec_dir (bs : list Z) : ext2_dir1_t :=
  let l := dec_fields [4; 2; 1; 1]%nat bs in mk_dir (fld l 0) (fld l 1) (fld l 2) (fld l 3).

(** [EXT2_DIR_RECLEN] *)
Definition DIR_RECLEN (len : Z) : Z := Z.land (len + 8 + 3) (- 4).

(** ** State *)

Record ext2fs_t := mk_fs {
  isdyn : bool;
  fsb : ext2_dynrev_sb_t;
  nbgs : Z; bgtbln : Z;
  bgs : list ext2_bg_t;
  blocksz : Z; spb : Z; ppb : Z; gpb : Z
}.

Record est (D : Type) := mk_est {
  blkl : blk D;
  fss : gmap Z ext2fs_t;
  oom : list bool;   (* outcomes of the allocations to come *)
  junk : list Z;     (* content of uninitialised memory *)
  clock : Z;
  brk : Z            (* address of the next instance *)
}.
Arguments mk_est {D}.
Arguments blkl {D}.
Arguments fss {D}.
Arguments oom {D}.
Arguments junk {D}.
Arguments clock {D}.
Arguments brk {D}.

Section ext2.
Context {D : Type} (drv : drivers D).
Notation ME := (M (est D)).

Definition onblk {A} (m : M (blk D) A) : ME A := fun s =>
  match m (blkl s) with
  | Done b a => Done (mk_est b (fss s) (oom s) (junk s) (clock s) (brk s)) a
  | Fault => Fault
  end.

Definition set_fss (f : gmap Z ext2fs_t) (s : est D) : est D :=
  mk_est (blkl s) f (oom s) (junk s) (clock s) (brk s).

Definition EXT2FS (v : vfs_t) : ME ext2fs_t := fun s =>
  match fss s !! v_priv v with Some f => Done s f | None => Fault end.

Definition put_fs (v : vfs_t) (f : ext2fs_t) : ME unit := modify (fun s => set_fss (<[v_priv v := f]> (fss s)) s).

(** Whether the next allocation succeeds. *)
Definition malloc : ME bool := fun s =>
  match oom s with
  | [] => Done s true
  | b :: r => Done (mk_est (blkl s) (fss s) r (junk s) (clock s) (brk s)) b
  end.

(** [n] bytes of uninitialised memory. *)
Definition garbage (n : Z) : ME (list Z) :=
  gets (fun s => take (Z.to_nat n) (junk s ++ replicate (Z.to_nat n) 0)).

Definition udiv (a b : Z) : ME Z := if b =? 0 then fault else mret (a / b).
Definition umod (a b : Z) : ME Z := if b =? 0 then fault else mret (a mod b).

(** [if ((r = m) < 0) return r; k b] for a call that also fills a buffer. *)
Definition checkb {A} (m : ME (Z * A)) (k : A -> ME Z) : ME Z :=
  rb ← m; if rb.1 <? 0 then mret rb.1 else k rb.2.

Definition fsblocks (f : ext2fs_t) : Z := s_blocks_count (sb (fsb f)).
Definition ipg (f : ext2fs_t) : Z := s_inodes_per_group (sb (fsb f)).
Definition bpg (f : ext2fs_t) : Z := s_blocks_per_group (sb (fsb f)).
Definition first_data (f : ext2fs_t) : Z := s_first_data_block (sb (fsb f)).

(** ** Blocks *)

Definition rdblk (v : vfs_t) (blk : Z) (out : list Z) : ME (Z * list Z) :=
  let blk := u32 blk in
  f ← EXT2FS v;
  if fsblocks f <=? blk then mret (- ERANGE, out) else
  rb ← onblk (block_read drv (v_blkid v) out (u32 (blk * spb f)) (spb f));
  mret (if rb.1 <? 0 then rb.1 else 0, rb.2).

Definition wrblk (v : vfs_t) (blk : Z) (inb : list Z) : ME Z :=
  let blk := u32 blk in
  f ← EXT2FS v;
  if fsblocks f <=? blk then mret (- ERANGE) else
  r ← onblk (block_write drv (v_blkid v) inb (u32 (blk * spb f)) (spb f));
  mret (if r <? 0 then r else 0).

(** Read a block into fresh memory. *)
Definition rdnew (v : vfs_t) (blk : Z) : ME (Z * list Z) :=
  f ← EXT2FS v; g ← garbage (blocksz f); rdblk v blk g.

Definition zeros (n : Z) : list Z := replicate (Z.to_nat n) 0.

Definition zero_newblk (v : vfs_t) (blk : Z) : ME Z :=
  f ← EXT2FS v;
  ok ← malloc;
  if negb ok then mret (- ENOMEM) else wrblk v blk (zeros (blocksz f)).

Definition inosz (f : ext2fs_t) : Z := if isdyn f then s_inode_size (fsb f) else Z.of_nat INOSZ.

Definition getisize (f : ext2fs_t) (n : ext2_ino_t) : Z :=
  if isdyn f && negb (Z.land (s_feature_ro_compat (fsb f)) EXT2_FEATURE_RO_COMPAT_LARGE_FILE =? 0) then
    if negb (Z.land (i_mode n) S_IFDIR =? 0) then i_size n
    else Z.lor (u64 (Z.shiftl (i_dir_acl n) 32)) (i_size n)
  else i_size n.

Definition BMP_SET : Z := 1.
Definition BMP_CLR : Z := 2.
Definition BMP_GET : Z := 3.

Definition modbmp (v : vfs_t) (blkid idx op : Z) : ME Z :=
  f ← EXT2FS v;
  if fsblocks f <=? blkid then mret (- ERANGE) else
  ok ← malloc;
  if negb ok then mret (- ENOMEM) else
  checkb (rdnew v blkid) (fun bmp =>
    byte ← deref (aget bmp (idx / 8));
    let mask := Z.shiftl 1 (idx mod 8) in
    if op =? BMP_SET then bmp' ← deref (aset bmp (idx / 8) (u8 (Z.lor byte mask))); wrblk v blkid bmp'
    else if op =? BMP_CLR then bmp' ← deref (aset bmp (idx / 8) (u8 (Z.ldiff byte mask))); wrblk v blkid bmp'
    else if op =? BMP_GET then mret (Z.land byte mask)
    else mret (-1)).

Definition inodeused (v : vfs_t) (ino : Z) : ME Z :=
  f ← EXT2FS v;
  inobg ← udiv (u32 (ino - 1)) (ipg f);
  if nbgs f <=? inobg then mret (- ERANGE) else
  bg ← deref (aget (bgs f) inobg);
  if fsblocks f <=? bg_inode_bitmap bg then mret (- ERANGE) else
  idx ← umod (u32 (ino - 1)) (ipg f);
  res ← modbmp v (bg_inode_bitmap bg) idx BMP_GET;
  mret (if res <? 0 then res else if res =? 0 then 0 else 1).

Definition getino (v : vfs_t) (ino : Z) : ME (Z * ext2_ino_t) :=
  let err r := (r, zero_ino) in
  f ← EXT2FS v;
  if ino =? 0 then mret (err (- EINVAL)) else
  inobg ← udiv (u32 (ino - 1)) (ipg f);
  if nbgs f <=? inobg then mret (err (- ERANGE)) else
  used ← inodeused v ino;
  if used <? 0 then mret (err used) else
  if used =? 0 then mret (err (- ENOENT)) else
  bg ← deref (aget (bgs f) inobg);
  if fsblocks f <=? bg_inode_table bg then mret (err (- ERANGE)) else
  inoidx ← umod (u32 (ino - 1)) (ipg f);
  let byteoff := inoidx * inosz f in
  q ← udiv byteoff (blocksz f);
  let inoblk := bg_inode_table bg + q in
  if fsblocks f <=? inoblk then mret (err (- ERANGE)) else
  ok ← malloc;
  if negb ok then mret (err (- ENOMEM)) else
  rb ← rdnew v inoblk;
  if rb.1 <? 0 then mret (err rb.1) else
  let off := byteoff mod blocksz f in
  if Z.of_nat (length rb.2) <? off + Z.of_nat INOSZ then fault else
  mret (0, dec_ino (drop (Z.to_nat off) rb.2)).

(** ** Copies of the super block and of the group descriptors *)

Fixpoint ispow_loop (fuel : nat) (n base : Z) : Z :=
  match fuel with
  | O => n
  | S fuel' => if n mod base =? 0 then ispow_loop fuel' (n / base) base else n
  end.

(** The bases are 3, 5 and 7: a 32-bit number is divided at most 20 times. *)
Definition ispow (n base : Z) : bool := if n =? 0 then false else ispow_loop 32 n base =? 1.

Definition has_sparse (f : ext2fs_t) (bg : Z) : bool :=
  let bg := u32 bg in
  if negb (isdyn f) || negb (Z.ldiff (s_feature_ro_compat (fsb f)) EXT2_FEATURE_RO_COMPAT_SPARSE_SUPER =? 0) then true
  else (bg =? 0) || (bg =? 1) || ispow bg 3 || ispow bg 5 || ispow bg 7.

(** The super block as it is stored: the part before [s_first_ino] in revision 0. *)
Definition sb_bytes (f : ext2fs_t) : list Z := if isdyn f then enc_dynsb (fsb f) else enc_sb (sb (fsb f)).

(** A write into a buffer of [blocksz] bytes faults outside it. *)
Definition into (buf bs : list Z) (off : nat) : option (list Z) :=
  if (off + length bs <=? length buf)%nat then Some (splice buf bs off) else None.

Fixpoint flush_sbs_loop (n : nat) (i : Z) (v : vfs_t) (f : ext2fs_t) : ME Z :=
  match n with
  | O => mret 0
  | S n' =>
      if has_sparse f i then
        let blkid := u32 (first_data f + i * bpg f) in
        let buf := zeros (blocksz f) in
        if (i =? 0) && (1024 <? blocksz f) then
          rb ← rdblk v 0 buf;
          if rb.1 <? 0 then mret (-1) else
          b ← deref (into rb.2 (sb_bytes f) 1024);
          r ← wrblk v 0 b;
          if r <? 0 then mret (-1) else
          check ret := wrblk v blkid b in flush_sbs_loop n' (i + 1) v f
        else
          b ← deref (into buf (sb_bytes f) 0);
          r ← wrblk v blkid b;
          if r <? 0 then mret (-1) else
          check ret := wrblk v blkid b in flush_sbs_loop n' (i + 1) v f
      else flush_sbs_loop n' (i + 1) v f
  end.

Definition flush_sbs (v : vfs_t) : ME Z := f ← EXT2FS v; flush_sbs_loop (Z.to_nat (nbgs f)) 0 v f.

(** The blocks of one copy of the descriptor table, from block [blk] of it. *)
Fixpoint flush_table (n : nat) (blk bgtst : Z) (v : vfs_t) (f : ext2fs_t) : ME Z :=
  match n with
  | O => mret 0
  | S n' =>
      let fst := blk * gpb f in
      if nbgs f <=? fst then mret 0 else
      let cnt := Z.min (nbgs f - fst) (gpb f) in
      let raw := concat (map enc_bg (take (Z.to_nat cnt) (drop (Z.to_nat fst) (bgs f)))) in
      b ← deref (into (zeros (blocksz f)) raw 0);
      check ret := wrblk v (bgtst + blk) b in flush_table n' (blk + 1) bgtst v f
  end.

Fixpoint flush_bgs_loop (n : nat) (grp : Z) (v : vfs_t) (f : ext2fs_t) : ME Z :=
  match n with
  | O => mret 0
  | S n' =>
      if has_sparse f grp then
        let bgtst := u32 (first_data f + grp * bpg f + 1) in
        check ret := flush_table (Z.to_nat (bgtbln f)) 0 bgtst v f in flush_bgs_loop n' (grp + 1) v f
      else flush_bgs_loop n' (grp + 1) v f
  end.

Definition flush_bgs (v : vfs_t) : ME Z := f ← EXT2FS v; flush_bgs_loop (Z.to_nat (nbgs f)) 0 v f.

Definition flush_inode (v : vfs_t) (ino : Z) (n : ext2_ino_t) : ME Z :=
  if ino =? 0 then mret (- EINVAL) else
  f ← EXT2FS v;
  used ← inodeused v (u32 ino);
  if used <? 0 then mret used else
  if used =? 0 then mret (- ENOENT) else
  q ← udiv (u64 (ino - 1)) (ipg f);
  bg ← deref (aget (bgs f) (u32 q));
  inoidx ← umod (u64 (ino - 1)) (ipg f);
  let byteoff := inoidx * inosz f in
  q ← udiv byteoff (blocksz f);
  let inoblk := bg_inode_table bg + q in
  rb ← rdnew v inoblk;
  if negb (rb.1 =? 0) then mret rb.1 else
  b ← deref (into rb.2 (enc_ino n) (Z.to_nat (byteoff mod blocksz f)));
  wrblk v inoblk b.

(** ** Block pointers *)

(** A table of pointers and its bytes. *)
Definition words (n : Z) (bs : list Z) : list Z := dec_fields (replicate (Z.to_nat n) 4%nat) bs.
Definition unwords (ws : list Z) : list Z := enc_fields (replicate (length ws) 4%nat) ws.

Definition read_indr (v : vfs_t) (blkn : Z) : ME (Z * list Z) :=
  f ← EXT2FS v;
  if blkn =? 0 then mret (0, words (ppb f) (zeros (blocksz f))) else
  rb ← rdnew v blkn;
  mret (rb.1, words (ppb f) rb.2).

(** [12 + ppb] and [12 + ppb + ppb * ppb] at 32 bits. *)
Definition lim1 (f : ext2fs_t) : Z := u32 (12 + ppb f).
Definition lim2 (f : ext2fs_t) : Z := u32 (12 + ppb f + ppb f * ppb f).

Definition ino_getblkid (v : vfs_t) (n : ext2_ino_t) (idx : Z) : ME Z :=
  f ← EXT2FS v;
  ok ← malloc;
  if negb ok then mret (- ENOMEM) else
  if idx <? 12 then b ← deref (aget (i_block n) idx); mret (s32 b)
  else if idx <? lim1 f then
    b12 ← deref (aget (i_block n) 12);
    checkb (read_indr v b12) (fun t0 => w ← deref (aget t0 (idx - 12)); mret (s32 w))
  else if idx <? lim2 f then
    let ridx := u32 (idx - 12 - ppb f) in
    b13 ← deref (aget (i_block n) 13);
    checkb (read_indr v b13) (fun t0 =>
      q ← udiv ridx (ppb f); w0 ← deref (aget t0 q);
      checkb (read_indr v w0) (fun t1 =>
        w ← deref (aget t1 (ridx mod ppb f)); mret (s32 w)))
  else
    let ridx := u32 (idx - 12 - ppb f - u32 (ppb f * ppb f)) in
    b14 ← deref (aget (i_block n) 14);
    checkb (read_indr v b14) (fun t0 =>
      q ← udiv ridx (u32 (ppb f * ppb f)); w0 ← deref (aget t0 q);
      checkb (read_indr v w0) (fun t1 =>
        w1 ← deref (aget t1 ((ridx / ppb f) mod ppb f));
        checkb (read_indr v w1) (fun t2 =>
          w ← deref (aget t2 (ridx mod ppb f)); mret (s32 w)))).

Definition membeq (bs : list Z) (b : Z) : bool := forallb (fun x => s8 x =? b) bs.

(** ** Allocation *)

(** The first clear bit below [lim] among the [n] bits from [idx] on. *)
Fixpoint scan_bits (n : nat) (idx lim : Z) (bmp : list Z) : option (option Z) :=
  match n with
  | O => Some None
  | S n' =>
      if lim <=? idx then scan_bits n' (idx + 1) lim bmp else
      byte ← aget bmp (idx / 8);
      if Z.land byte (Z.shiftl 1 (idx mod 8)) =? 0 then Some (Some idx) else scan_bits n' (idx + 1) lim bmp
  end.

(** The bytes visited are those below [(lim + 7) / 8] and [blocksz]. *)
Definition find_clear (f : ext2fs_t) (lim : Z) (bmp : list Z) : option (option Z) :=
  scan_bits (8 * Z.to_nat (Z.min (u32 (lim + 7) / 8) (blocksz f))) 0 lim bmp.

Definition set_bit (bmp : list Z) (idx : Z) : option (list Z) :=
  byte ← aget bmp (idx / 8); aset bmp (idx / 8) (u8 (Z.lor byte (Z.shiftl 1 (idx mod 8)))).

Definition set_free_blocks (c : Z) (b : ext2_sb_t) : ext2_sb_t :=
  mk_sb (s_inodes_count b) (s_blocks_count b) (s_r_blocks_count b) (u32 c) (s_free_inodes_count b)
    (s_first_data_block b) (s_log_block_size b) (s_log_frag_size b) (s_blocks_per_group b) (s_frags_per_group b)
    (s_inodes_per_group b) (s_mtime b) (s_wtime b) (s_mnt_count b) (s_max_mnt_count b) (s_magic b) (s_state b)
    (s_errors b) (s_minor_rev_level b) (s_lastcheck b) (s_checkinterval b) (s_creator_os b) (s_rev_level b)
    (s_def_resuid b) (s_def_resgid b).
Definition set_free_inodes (c : Z) (b : ext2_sb_t) : ext2_sb_t :=
  mk_sb (s_inodes_count b) (s_blocks_count b) (s_r_blocks_count b) (s_free_blocks_count b) (u32 c)
    (s_first_data_block b) (s_log_block_size b) (s_log_frag_size b) (s_blocks_per_group b) (s_frags_per_group b)
    (s_inodes_per_group b) (s_mtime b) (s_wtime b) (s_mnt_count b) (s_max_mnt_count b) (s_magic b) (s_state b)
    (s_errors b) (s_minor_rev_level b) (s_lastcheck b) (s_checkinterval b) (s_creator_os b) (s_rev_level b)
    (s_def_resuid b) (s_def_resgid b).

Definition set_sb (b : ext2_sb_t) (f : ext2fs_t) : ext2fs_t :=
  let d := fsb f in
  mk_fs (isdyn f)
    (mk_dynsb b (s_first_ino d) (s_inode_size d) (s_block_group_nr d) (s_feature_compat d) (s_feature_incompat d)
       (s_feature_ro_compat d) (s_names d) (s_algo_bitmap d))
    (nbgs f) (bgtbln f) (bgs f) (blocksz f) (spb f) (ppb f) (gpb f).
Definition set_bgs (l : list ext2_bg_t) (f : ext2fs_t) : ext2fs_t :=
  mk_fs (isdyn f) (fsb f) (nbgs f) (bgtbln f) l (blocksz f) (spb f) (ppb f) (gpb f).

Definition set_bg_blocks (c : Z) (g : ext2_bg_t) : ext2_bg_t :=
  mk_bg (bg_block_bitmap g) (bg_inode_bitmap g) (bg_inode_table g) (u16 c) (bg_free_inodes_count g)
    (bg_used_dirs_count g) (bg_pad g) (bg_reserved g).
Definition set_bg_inodes (c : Z) (g : ext2_bg_t) : ext2_bg_t :=
  mk_bg (bg_block_bitmap g) (bg_inode_bitmap g) (bg_inode_table g) (bg_free_blocks_count g) (u16 c)
    (bg_used_dirs_count g) (bg_pad g) (bg_reserved g).

(** Change the free counts of group [grp] and of the file system by [d]. *)
Definition count_blocks (v : vfs_t) (grp d : Z) : ME unit :=
  f ← EXT2FS v;
  g ← deref (aget (bgs f) grp);
  l ← deref (aset (bgs f) grp (set_bg_blocks (bg_free_blocks_count g + d) g));
  put_fs v (set_sb (set_free_blocks (s_free_blocks_count (sb (fsb f)) + d) (sb (fsb f))) (set_bgs l f)).
Definition count_inodes (v : vfs_t) (grp d : Z) : ME unit :=
  f ← EXT2FS v;
  g ← deref (aget (bgs f) grp);
  l ← deref (aset (bgs f) grp (set_bg_inodes (bg_free_inodes_count g + d) g));
  put_fs v (set_sb (set_free_inodes (s_free_inodes_count (sb (fsb f)) + d) (sb (fsb f))) (set_bgs l f)).

(** Groups [(bg + i) % nbgs], ... in turn; [n] of them are left. *)
Fixpoint allocblk_loop (n : nat) (i bg : Z) (v : vfs_t) : ME Z :=
  match n with
  | O => mret (- ENOSPC)
  | S n' =>
      f ← EXT2FS v;
      let grp := (bg + i) mod nbgs f in
      g ← deref (aget (bgs f) grp);
      if bg_free_blocks_count g =? 0 then allocblk_loop n' (i + 1) bg v else
      checkb (rdnew v (bg_block_bitmap g)) (fun bmp =>
        o ← deref (find_clear f (bpg f) bmp);
        match o with
        | None => allocblk_loop n' (i + 1) bg v
        | Some idx =>
            bmp' ← deref (set_bit bmp idx);
            check ret := wrblk v (bg_block_bitmap g) bmp' in
            _ ← count_blocks v grp (-1);
            check ret := flush_bgs v in
            check ret := flush_sbs v in
            mret (u32 (first_data f + grp * bpg f) + idx)
        end)
  end.

Definition allocblk (v : vfs_t) (bg : Z) : ME Z :=
  f ← EXT2FS v;
  if nbgs f <=? bg then mret (- EINVAL) else allocblk_loop (Z.to_nat (nbgs f)) 0 bg v.

(** *** A new block for a file

    The inode is updated through its pointer and returned with the result;
    [None] as the result means that the code goes on. *)

Fixpoint first_zero (i : Z) (l : list Z) : option Z :=
  match l with
  | [] => None
  | w :: r => if w =? 0 then Some i else first_zero (i + 1) r
  end.

Definition set_ptr (n : ext2_ino_t) (k b : Z) : option ext2_ino_t :=
  l ← aset (i_block n) k (u32 b); Some (set_i_block l n).

Definition add_blk (f : ext2fs_t) (n : ext2_ino_t) : ext2_ino_t := set_i_blocks (u32 (i_blocks n + spb f)) n.

Definition andthen (m : ME (option Z * ext2_ino_t)) (k : ext2_ino_t -> ME (option Z * ext2_ino_t))
  : ME (option Z * ext2_ino_t) :=
  on ← m; match on.1 with Some r => mret (Some r, on.2) | None => k on.2 end.

Definition alloc_direct (v : vfs_t) (ino bg : Z) (n : ext2_ino_t) : ME (option Z * ext2_ino_t) :=
  f ← EXT2FS v;
  match first_zero 0 (take 12 (i_block n)) with
  | None => mret (None, n)
  | Some i =>
      blk ← allocblk v bg;
      if blk <? 0 then mret (Some blk, n) else
      n1 ← deref (set_ptr n i blk);
      let n2 := add_blk f n1 in
      r ← flush_inode v ino n2;
      mret (Some (if r <? 0 then r else blk), n2)
  end.

(** The table at [i_block[k]], made when there is none. *)
Definition alloc_slot (v : vfs_t) (ino bg : Z) (n : ext2_ino_t) (k : Z) : ME (option Z * ext2_ino_t) :=
  f ← EXT2FS v;
  b ← deref (aget (i_block n) k);
  if negb (b =? 0) then mret (None, n) else
  blk ← allocblk v bg;
  if blk <? 0 then mret (Some blk, n) else
  n1 ← deref (set_ptr n k blk);
  let n2 := add_blk f n1 in
  r ← flush_inode v ino n2;
  if r <? 0 then mret (Some r, n2) else
  r ← zero_newblk v blk;
  mret (if r <? 0 then Some r else None, n2).

(** A data block in the first free place of the table [ws] stored at [tblk]. *)
Definition alloc_leaf (v : vfs_t) (ino bg tblk : Z) (ws : list Z) (n : ext2_ino_t) : ME (option Z * ext2_ino_t) :=
  f ← EXT2FS v;
  match first_zero 0 ws with
  | None => mret (None, n)
  | Some i =>
      blk ← allocblk v bg;
      if blk <? 0 then mret (Some blk, n) else
      ws' ← deref (aset ws i (u32 blk));
      let n2 := add_blk f n in
      r ← wrblk v tblk (unwords ws');
      if r <? 0 then mret (Some r, n2) else
      r ← flush_inode v ino n2;
      mret (Some (if r <? 0 then r else blk), n2)
  end.

(** Place [i] of the table [ws] stored at [tblk], filled with an empty table when
    it is free: the table afterwards. *)
Definition alloc_mid (v : vfs_t) (ino bg tblk : Z) (ws : list Z) (i : Z) (n : ext2_ino_t)
  : ME (option Z * ext2_ino_t * list Z) :=
  f ← EXT2FS v;
  w ← deref (aget ws i);
  if negb (w =? 0) then mret (None, n, ws) else
  blk ← allocblk v bg;
  if blk <? 0 then mret (Some blk, n, ws) else
  ws' ← deref (aset ws i (u32 blk));
  let n2 := add_blk f n in
  r ← wrblk v tblk (unwords ws');
  if r <? 0 then mret (Some r, n2, ws') else
  r ← flush_inode v ino n2;
  if r <? 0 then mret (Some r, n2, ws') else
  r ← zero_newblk v blk;
  mret (if r <? 0 then Some r else None, n2, ws').

(** Two levels: the tables at the places [i], ... of [ws]. *)
Fixpoint alloc_double (cnt : nat) (i : Z) (v : vfs_t) (ino bg tblk : Z) (ws : list Z) (n : ext2_ino_t)
  : ME (option Z * ext2_ino_t) :=
  match cnt with
  | O => mret (None, n)
  | S cnt' =>
      onw ← alloc_mid v ino bg tblk ws i n;
      let '(o, n1, ws1) := onw in
      match o with
      | Some r => mret (Some r, n1)
      | None =>
          w ← deref (aget ws1 i);
          rt ← read_indr v w;
          if rt.1 <? 0 then mret (Some rt.1, n1) else
          andthen (alloc_leaf v ino bg w rt.2 n1) (alloc_double cnt' (i + 1) v ino bg tblk ws1)
      end
  end.

Fixpoint alloc_triple (cnt : nat) (i : Z) (v : vfs_t) (ino bg tblk : Z) (ws : list Z) (n : ext2_ino_t)
  : ME (option Z * ext2_ino_t) :=
  match cnt with
  | O => mret (None, n)
  | S cnt' =>
      f ← EXT2FS v;
      onw ← alloc_mid v ino bg tblk ws i n;
      let '(o, n1, ws1) := onw in
      match o with
      | Some r => mret (Some r, n1)
      | None =>
          w ← deref (aget ws1 i);
          rt ← read_indr v w;
          if rt.1 <? 0 then mret (Some rt.1, n1) else
          andthen (alloc_double (Z.to_nat (ppb f)) 0 v ino bg w rt.2 n1)
            (alloc_triple cnt' (i + 1) v ino bg tblk ws1)
      end
  end.

(** The table at [i_block[k]], then [m] on it. *)
Definition through (v : vfs_t) (ino bg k : Z) (m : Z -> list Z -> ext2_ino_t -> ME (option Z * ext2_ino_t))
  (n : ext2_ino_t) : ME (option Z * ext2_ino_t) :=
  andthen (alloc_slot v ino bg n k) (fun n1 =>
    b ← deref (aget (i_block n1) k);
    rt ← read_indr v b;
    if rt.1 <? 0 then mret (Some rt.1, n1) else m b rt.2 n1).

Definition ino_allocblk (v : vfs_t) (ino : Z) (n : ext2_ino_t) : ME (Z * ext2_ino_t) :=
  f ← EXT2FS v;
  bg ← udiv (u32 (ino - 1)) (ipg f);
  let cnt := Z.to_nat (ppb f) in
  on ← andthen (alloc_direct v ino bg n) (fun n =>
       andthen (through v ino bg 12 (alloc_leaf v ino bg) n) (fun n =>
       andthen (through v ino bg 13 (alloc_double cnt 0 v ino bg) n) (fun n =>
       through v ino bg 14 (alloc_triple cnt 0 v ino bg) n)));
  mret (default (- ENOSPC) on.1, on.2).

(** ** Release *)

Definition freeblk (v : vfs_t) (blkid : Z) : ME Z :=
  f ← EXT2FS v;
  if blkid =? 0 then mret 0 else
  bg ← udiv (u32 (blkid - first_data f)) (bpg f);
  bmpidx ← umod (u32 (blkid - first_data f)) (bpg f);
  _ ← wrblk v blkid (zeros (blocksz f));
  g ← deref (aget (bgs f) bg);
  check ret := modbmp v (bg_block_bitmap g) bmpidx BMP_CLR in
  _ ← count_blocks v bg 1;
  check ret := flush_bgs v in
  flush_sbs v.

Definition sub_blk (f : ext2fs_t) (n : ext2_ino_t) : ext2_ino_t :=
  set_i_blocks (if spb f <=? i_blocks n then i_blocks n - spb f else 0) n.

(** Free the block at place [k] of the table [ws] stored at [tblk]; an empty
    table is given up with [up], any other is written back. *)
Definition free_place (v : vfs_t) (tblk : Z) (ws : list Z) (k : Z) (n : ext2_ino_t)
  (up : ext2_ino_t -> ME (Z * ext2_ino_t)) : ME (Z * ext2_ino_t) :=
  f ← EXT2FS v;
  w ← deref (aget ws k);
  r ← freeblk v w;
  if r <? 0 then mret (r, n) else
  ws' ← deref (aset ws k 0);
  let n1 := sub_blk f n in
  if membeq (unwords ws') 0 then up n1 else
  r ← wrblk v tblk (unwords ws');
  mret (r, n1).

(** The table at [i_block[k]] itself. *)
Definition free_root (v : vfs_t) (k : Z) (n : ext2_ino_t) : ME (Z * ext2_ino_t) :=
  f ← EXT2FS v;
  b ← deref (aget (i_block n) k);
  r ← freeblk v b;
  if r <? 0 then mret (r, n) else
  n1 ← deref (set_ptr n k 0);
  mret (0, sub_blk f n1).

Definition then_flush (v : vfs_t) (ino : Z) (m : ME (Z * ext2_ino_t)) : ME (Z * ext2_ino_t) :=
  rn ← m; if rn.1 <? 0 then mret rn else r ← flush_inode v ino rn.2; mret (if r <? 0 then r else 0, rn.2).

(** [if ((r = read_indr(...)) < 0) return r] with the inode as it is. *)
Definition with_table (v : vfs_t) (b : Z) (n : ext2_ino_t) (k : list Z -> ME (Z * ext2_ino_t)) : ME (Z * ext2_ino_t) :=
  rt ← read_indr v b; if rt.1 <? 0 then mret (rt.1, n) else k rt.2.

Definition ino_freeblk (v : vfs_t) (ino : Z) (n : ext2_ino_t) (idx : Z) : ME (Z * ext2_ino_t) :=
  f ← EXT2FS v;
  if idx <? 12 then
    b ← deref (aget (i_block n) idx);
    if b =? 0 then mret (0, n) else then_flush v ino (free_root v idx n)
  else if idx <? lim1 f then
    b ← deref (aget (i_block n) 12);
    with_table v b n (fun t0 =>
      p ← deref (aget t0 (idx - 12));
      if p =? 0 then mret (0, n) else
      then_flush v ino (free_place v b t0 (idx - 12) n (free_root v 12)))
  else if idx <? lim2 f then
    let ridx := u32 (idx - 12 - ppb f) in
    b ← deref (aget (i_block n) 13);
    with_table v b n (fun t0 =>
      i0 ← udiv ridx (ppb f); w0 ← deref (aget t0 i0);
      with_table v w0 n (fun t1 =>
        p ← deref (aget t1 (ridx mod ppb f));
        if p =? 0 then mret (0, n) else
        then_flush v ino (free_place v w0 t1 (ridx mod ppb f) n (fun n1 =>
          free_place v b t0 i0 n1 (free_root v 13)))))
  else
    let ridx := u32 (idx - 12 - ppb f - u32 (ppb f * ppb f)) in
    b ← deref (aget (i_block n) 14);
    with_table v b n (fun t0 =>
      i0 ← udiv ridx (u32 (ppb f * ppb f)); w0 ← deref (aget t0 i0);
      with_table v w0 n (fun t1 =>
        let i1 := (ridx / ppb f) mod ppb f in
        w1 ← deref (aget t1 i1);
        with_table v w1 n (fun t2 =>
          p ← deref (aget t2 (ridx mod ppb f));
          if p =? 0 then mret (0, n) else
          then_flush v ino (free_place v w1 t2 (ridx mod ppb f) n (fun n1 =>
            free_place v w0 t1 i1 n1 (fun n2 =>
            free_place v b t0 i0 n2 (free_root v 14))))))).

(** ** Inodes *)

Definition OLD_DEV_VALID (dev : Z) : bool := (MAJOR dev <? 256) && (MINOR dev <? 256).
Definition OLD_DEV_ENCODE (dev : Z) : Z := Z.lor (u32 (Z.shiftl (MAJOR dev) 8)) (MINOR dev).
Definition OLD_DEV_DECODE (val : Z) : Z := MKDEV (Z.land (Z.shiftr val 8) 255) (Z.land val 255).
Definition NEW_DEV_ENCODE (dev : Z) : Z :=
  Z.lor (Z.lor (Z.land (MINOR dev) 0xff) (u32 (Z.shiftl (MAJOR dev) 8)))
    (u32 (Z.shiftl (Z.ldiff (MINOR dev) 0xff) 12)).
Definition NEW_DEV_DECODE (val : Z) : Z :=
  MKDEV (Z.shiftr (Z.land val 0xfff00) 8) (Z.lor (Z.land val 0xff) (Z.land (Z.shiftr val 12) 0xfff00)).

Definition decode_dev (n : ext2_ino_t) : option Z :=
  b0 ← aget (i_block n) 0;
  if negb (b0 =? 0) then Some (OLD_DEV_DECODE b0) else b1 ← aget (i_block n) 1; Some (NEW_DEV_DECODE b1).

Definition encode_dev (n : ext2_ino_t) (dev : Z) : option ext2_ino_t :=
  if OLD_DEV_VALID dev then set_ptr n 0 (OLD_DEV_ENCODE dev) else set_ptr n 1 (NEW_DEV_ENCODE dev).

Fixpoint mkino_loop (cnt : nat) (grp : Z) (v : vfs_t) (n : ext2_ino_t) : ME Z :=
  match cnt with
  | O => mret (- ENOSPC)
  | S cnt' =>
      f ← EXT2FS v;
      g ← deref (aget (bgs f) grp);
      if bg_free_inodes_count g =? 0 then mkino_loop cnt' (grp + 1) v n else
      checkb (rdnew v (bg_inode_bitmap g)) (fun bmp =>
        o ← deref (find_clear f (ipg f) bmp);
        match o with
        | None => mkino_loop cnt' (grp + 1) v n
        | Some idx =>
            bmp' ← deref (set_bit bmp idx);
            check ret := wrblk v (bg_inode_bitmap g) bmp' in
            _ ← count_inodes v grp (-1);
            check ret := flush_bgs v in
            check ret := flush_sbs v in
            let ino := u32 (grp * ipg f + idx + 1) in
            check ret := flush_inode v ino n in
            mret (s32 ino)
        end)
  end.

Definition mkino_base (v : vfs_t) (n : ext2_ino_t) : ME Z :=
  f ← EXT2FS v; mkino_loop (Z.to_nat (nbgs f)) 0 v n.

(** The blocks of a file from block [bidx] on, [left] bytes. *)
Fixpoint getinodata_loop (cnt : nat) (bidx left : Z) (v : vfs_t) (n : ext2_ino_t) (acc : list Z) : ME (Z * list Z) :=
  match cnt with
  | O => mret (0, acc)
  | S cnt' =>
      f ← EXT2FS v;
      pblk ← ino_getblkid v n bidx;
      if pblk <? 0 then mret (pblk, []) else
      let b2cp := Z.min left (blocksz f) in
      if pblk =? 0 then getinodata_loop cnt' (bidx + 1) (left - blocksz f) v n (acc ++ zeros b2cp)
      else if b2cp =? blocksz f then
        rb ← rdnew v pblk;
        if rb.1 <? 0 then mret (rb.1, []) else
        getinodata_loop cnt' (bidx + 1) (left - blocksz f) v n (acc ++ rb.2)
      else
        ok ← malloc;
        if negb ok then mret (- ENOMEM, []) else
        rb ← rdnew v pblk;
        if rb.1 <? 0 then mret (rb.1, []) else
        getinodata_loop cnt' (bidx + 1) (left - blocksz f) v n (acc ++ take (Z.to_nat b2cp) rb.2)
  end.

(** Status and data; no data when the file is empty. *)
Definition getinodata (v : vfs_t) (n : ext2_ino_t) : ME (Z * option (list Z)) :=
  f ← EXT2FS v;
  let tsz := u32 (getisize f n) in
  if tsz =? 0 then mret (0, None) else
  ok ← malloc;
  if negb ok then mret (- ENOMEM, None) else
  tblks ← udiv (u32 (tsz + blocksz f - 1)) (blocksz f);
  rb ← getinodata_loop (Z.to_nat tblks) 0 tsz v n [];
  mret (rb.1, if rb.1 <? 0 then None else Some rb.2).

(** ** Directories *)

(** The entry header at byte [i], and its name compared with [name]. *)
Definition dir_at (bs : list Z) (i : Z) : option ext2_dir1_t :=
  if (0 <=? i) && (i + Z.of_nat DIRHDR <=? Z.of_nat (length bs)) then Some (dec_dir (drop (Z.to_nat i) bs)) else None.

Definition name_is (bs : list Z) (i : Z) (e : ext2_dir1_t) (name : list Z) : option bool :=
  if negb (name_len e =? Z.of_nat (length name)) then Some false else
  c ← memcmp (drop (Z.to_nat i + DIRHDR) bs) (cstr name) (name_len e); Some (c =? 0).

(** Outcome of a scan: a match, no match, an access outside the data, or still
    scanning when the fuel is used up. *)
Inductive scan_res := Hit (ino : Z) | Miss | Wild | Endless.

Fixpoint lookup_loop (fuel : nat) (dd : list Z) (i : Z) (name : list Z) : scan_res :=
  if negb (i <? Z.of_nat (length dd)) then Miss else
  match fuel with
  | O => Endless
  | S fuel' =>
      match dir_at dd i with
      | None => Wild
      | Some e =>
          match name_is dd i e name with
          | None => Wild
          | Some true => Hit (inode e)
          | Some false => lookup_loop fuel' dd (i + rec_len e) name
          end
      end
  end.

(** A scan that advances visits each byte at most once. *)
Definition ext2fs_lookup (v : vfs_t) (dino : Z) (name : list Z) : ME Z :=
  checkb (getino v dino) (fun n =>
    rd ← getinodata v n;
    match rd.2 with
    | None => mret rd.1
    | Some dd =>
        match lookup_loop (length dd) dd 0 name with
        | Hit ino => mret ino
        | Miss => mret (- ENOENT)
        | Wild | Endless => fault
        end
    end).

Definition fresh_ino (mode uid gid time : Z) : ext2_ino_t :=
  mk_ino mode uid 0 (u32 time) (u32 time) (u32 time) 0 gid 0 0 0 0 (replicate 15 0) 0 0 0 0 (replicate 12 0).

(** Word [i] of a short link: the bytes [i .. i + 3] of the target as signed [char]s. *)
Definition link_word (buf : list Z) (i : nat) : Z :=
  let c j := s8 (nth j buf 0) in
  u32 (Z.lor (Z.lor (Z.lor (Z.shiftl (c i) 24) (Z.shiftl (c (i + 1)%nat) 16)) (Z.shiftl (c (i + 2)%nat) 8))
         (c (i + 3)%nat)).

Definition ext2fs_symlink (v : vfs_t) (mode uid gid : Z) (target : list Z) : ME Z :=
  f ← EXT2FS v;
  time ← gets clock;
  let n := fresh_ino mode uid gid time in
  let len := Z.of_nat (length target) in
  if len <=? 60 then
    let buf := target ++ replicate (60 - length target) 0 in
    mkino_base v (set_i_size len 0 (set_i_block (map (link_word buf) (seq 0 15)) n))
  else
    blk ← allocblk v 0;
    if blk =? 0 then mret blk else
    n1 ← deref (set_ptr n 0 blk);
    b ← deref (into (zeros (blocksz f)) target 0);
    check ret := wrblk v blk b in
    mkino_base v n1.

(** The bytes of word [i] stored at [i .. i + 3], word after word. *)
Fixpoint link_bytes (i : nat) (ws : list Z) (dbuf : list Z) : list Z :=
  match ws with
  | [] => dbuf
  | w :: r =>
      link_bytes (S i) r
        (splice dbuf [Z.shiftr w 24; Z.land (Z.shiftr w 16) 0xFF; Z.land (Z.shiftr w 8) 0xFF; Z.land w 0xFF] i)
  end.

(** The buffer of the caller is returned with the result. *)
Definition ext2fs_readsym (v : vfs_t) (ino : Z) (buf : list Z) (buflen : Z) : ME (Z * list Z) :=
  f ← EXT2FS v;
  rn ← getino v ino;
  if rn.1 <? 0 then mret (rn.1, buf) else
  let n := rn.2 in
  if u64 (buflen - 1) <? i_size n then mret (- ETOOSMALL, buf) else
  if i_size n <=? 60 then
    let dbuf := link_bytes 0 (i_block n) (zeros 60) in
    b1 ← deref (into buf (take (Z.to_nat (i_size n)) dbuf ++ [0]) 0);
    mret (i_size n, b1)
  else
    dbuf ← garbage (blocksz f);
    b1 ← deref (into buf (zeros (blocksz f)) 0);
    b0 ← deref (aget (i_block n) 0);
    rb ← rdblk v b0 b1;
    if rb.1 <? 0 then mret rb else
    if blocksz f <? i_size n then fault else
    b2 ← deref (into rb.2 (take (Z.to_nat (i_size n)) dbuf ++ [0]) 0);
    mret (i_size n, b2).

Definition ext2fs_mkino (v : vfs_t) (mode uid gid : Z) : ME Z :=
  time ← gets clock; mkino_base v (fresh_ino mode uid gid time).

Definition ext2fs_mknod (v : vfs_t) (mode uid gid rdev : Z) : ME Z :=
  time ← gets clock;
  n ← deref (encode_dev (fresh_ino mode uid gid time) rdev);
  mkino_base v n.

(** The number of blocks of a file. *)
Definition nblocks (f : ext2fs_t) (n : ext2_ino_t) : ME Z := udiv (u64 (getisize f n + blocksz f - 1)) (blocksz f).

(** An entry's record must be at least a header and stay within its block. *)
Definition bad_rec (f : ext2fs_t) (i : Z) (e : ext2_dir1_t) : bool :=
  (rec_len e <? 8) || (blocksz f <? i + rec_len e).

(** Block [b] of a directory: its number, or the error to return. *)
Definition dirblk (v : vfs_t) (n : ext2_ino_t) (b : Z) : ME (Z + Z) :=
  blk ← ino_getblkid v n b;
  mret (if blk <=? 0 then inr (if blk =? 0 then - EINVAL else blk) else inl blk).

Definition set_rec_len (bs : list Z) (i l : Z) : list Z := splice bs (le 2 (u16 l)) (Z.to_nat i + 4).

(** Remove the entry at [i], found in block [blk] with content [bd]; [pdir] is
    the entry before it. *)
Definition remove_at (v : vfs_t) (blk : Z) (bd : list Z) (pdir : option Z) (i : Z) (e : ext2_dir1_t) : ME Z :=
  checkb (getino v (inode e)) (fun n =>
    let bd1 := match pdir with
               | Some p => set_rec_len bd p (rec_len (dec_dir (drop (Z.to_nat p) bd)) + rec_len e)
               | None => bd
               end in
    b ← deref (into bd1 (zeros (rec_len e)) (Z.to_nat i));
    check ret := wrblk v blk b in
    check ret := flush_inode v (inode e) (set_i_links (i_links_count n - 1) n) in
    mret 0).

(** The entries of one block; [None] when the name is not among them.  Records
    have at least 8 bytes. *)
Fixpoint rmlink_block (fuel : nat) (v : vfs_t) (f : ext2fs_t) (blk : Z) (bd : list Z) (pdir : option Z) (i : Z)
  (name : list Z) : ME (option Z) :=
  if negb (i <? blocksz f) then mret None else
  match fuel with
  | O => fault
  | S fuel' =>
      e ← deref (dir_at bd i);
      if bad_rec f i e then mret (Some (- EINVAL)) else
      hit ← deref (name_is bd i e name);
      if hit : bool then r ← remove_at v blk bd pdir i e; mret (Some r)
      else rmlink_block fuel' v f blk bd (Some i) (i + rec_len e) name
  end.

Fixpoint rmlink_loop (cnt : nat) (b : Z) (v : vfs_t) (n : ext2_ino_t) (name : list Z) : ME Z :=
  match cnt with
  | O => mret (- ENOENT)
  | S cnt' =>
      f ← EXT2FS v;
      o ← dirblk v n b;
      match o with
      | inr err => mret err
      | inl blk =>
          rb ← rdnew v blk;
          if rb.1 <? 0 then mret (-1) else
          r ← rmlink_block (Z.to_nat (blocksz f)) v f blk rb.2 None 0 name;
          match r with Some r => mret r | None => rmlink_loop cnt' (b + 1) v n name end
      end
  end.

Definition ext2fs_rmlink (v : vfs_t) (dino : Z) (name : list Z) : ME Z :=
  f ← EXT2FS v;
  checkb (getino v dino) (fun n => nb ← nblocks f n; rmlink_loop (Z.to_nat nb) 0 v n name).

Definition EXT2_FT (mode : Z) : Z :=
  let type := Z.land mode 0xF000 in
  if type =? 0xC000 then 6 else if type =? 0xA000 then 7 else if type =? 0x8000 then 1
  else if type =? 0x6000 then 4 else if type =? 0x4000 then 2 else if type =? 0x2000 then 3
  else if type =? 0x1000 then 5 else 0.

(** The first [nsz] bytes of the new entry; at a name of 253 bytes or more they
    reach one byte past the structure. *)
Definition newent (ino rl ft : Z) (name g : list Z) (nsz : Z) : list Z :=
  take (Z.to_nat nsz)
    (enc_dir (mk_dir ino rl (u8 (Z.of_nat (length name))) ft) ++ name ++ replicate (255 - length name) 0 ++ g).

Definition links_up (v : vfs_t) (ino : Z) (n : ext2_ino_t) : ME Z :=
  check ret := flush_inode v ino (set_i_links (i_links_count n + 1) n) in mret 0.

Fixpoint mklink_block (fuel : nat) (v : vfs_t) (f : ext2fs_t) (ino ft nsz : Z) (n : ext2_ino_t) (name g : list Z)
  (blk : Z) (bd : list Z) (i : Z) : ME (option Z) :=
  if negb (i <? blocksz f) then mret None else
  match fuel with
  | O => fault
  | S fuel' =>
      e ← deref (dir_at bd i);
      if bad_rec f i e then mret (Some (- EINVAL)) else
      let oldsz := DIR_RECLEN (name_len e) in
      if inode e =? 0 then
        if nsz <=? rec_len e then
          b ← deref (into bd (newent ino (rec_len e) ft name g nsz) (Z.to_nat i));
          r ← wrblk v blk b;
          if r <? 0 then mret (Some r) else r ← links_up v ino n; mret (Some r)
        else mklink_block fuel' v f ino ft nsz n name g blk bd (i + rec_len e)
      else if (oldsz <=? rec_len e) && (nsz <=? rec_len e - oldsz) then
        b ← deref (into (set_rec_len bd i oldsz) (newent ino (u16 (rec_len e - oldsz)) ft name g nsz)
                     (Z.to_nat (i + oldsz)));
        r ← wrblk v blk b;
        if r <? 0 then mret (Some r) else r ← links_up v ino n; mret (Some r)
      else mklink_block fuel' v f ino ft nsz n name g blk bd (i + rec_len e)
  end.

Fixpoint mklink_loop (cnt : nat) (b : Z) (v : vfs_t) (ino ft nsz : Z) (n dn : ext2_ino_t) (name g : list Z)
  : ME (option Z) :=
  match cnt with
  | O => mret None
  | S cnt' =>
      f ← EXT2FS v;
      o ← dirblk v dn b;
      match o with
      | inr err => mret (Some err)
      | inl blk =>
          rb ← rdnew v blk;
          if rb.1 <? 0 then mret (Some rb.1) else
          r ← mklink_block (Z.to_nat (blocksz f)) v f ino ft nsz n name g blk rb.2 0;
          match r with Some r => mret (Some r) | None => mklink_loop cnt' (b + 1) v ino ft nsz n dn name g end
      end
  end.

(** A new block with the entry alone, at the end of the directory. *)
Definition mklink_grow (v : vfs_t) (ino ft nsz dino : Z) (n dn : ext2_ino_t) (name g : list Z) : ME Z :=
  f ← EXT2FS v;
  rn ← ino_allocblk v dino dn;
  if rn.1 <? 0 then mret rn.1 else
  let dn1 := rn.2 in
  b ← deref (into (zeros (blocksz f)) (newent ino (u16 (blocksz f)) ft name g nsz) 0);
  let dn2 := set_i_size (u32 (i_size dn1 + blocksz f)) (i_dir_acl dn1) dn1 in
  check ret := wrblk v rn.1 b in
  check ret := flush_inode v dino dn2 in
  links_up v ino n.

Definition ext2fs_mklink (v : vfs_t) (ino mode dino : Z) (name : list Z) : ME Z :=
  f ← EXT2FS v;
  checkb (getino v ino) (fun n =>
  checkb (getino v dino) (fun dn =>
    if (255 <? length name)%nat then fault else
    g ← garbage 1;
    let ft := if isdyn f then EXT2_FT mode else 0 in
    let nsz := DIR_RECLEN (Z.of_nat (length name)) in
    nb ← nblocks f dn;
    o ← mklink_loop (Z.to_nat nb) 0 v ino ft nsz n dn name g;
    match o with Some r => mret r | None => mklink_grow v ino ft nsz dino n dn name g end)).

Definition ext2fs_umount (v : vfs_t) : ME Z :=
  _ ← modify (fun s => set_fss (delete (v_priv v) (fss s)) s); mret 0.

(** ** Data *)

(** Bytes read so far are returned with the result.  Each step but the first
    and the last moves a whole block. *)
Fixpoint read_loop (fuel : nat) (v : vfs_t) (f : ext2fs_t) (n : ext2_ino_t) (off nb : Z) (acc : list Z)
  : ME (Z * list Z) :=
  let nread := Z.of_nat (length acc) in
  if negb (nread <? nb) then mret (nread, acc) else
  match fuel with
  | O => fault
  | S fuel' =>
      let pos := u64 (off + nread) in
      blk ← udiv pos (blocksz f);
      let blkoff := pos mod blocksz f in
      blkid ← ino_getblkid v n blk;
      if blkid <? 0 then mret (nread, acc) else
      let k := Z.min (blocksz f - blkoff) (nb - nread) in
      if blkid =? 0 then read_loop fuel' v f n off nb (acc ++ zeros k) else
      ok ← malloc;
      if negb ok then mret (- ENOMEM, acc) else
      rb ← rdnew v blkid;
      if rb.1 <? 0 then mret (rb.1, acc) else
      read_loop fuel' v f n off nb (acc ++ take (Z.to_nat k) (drop (Z.to_nat blkoff) rb.2))
  end.

(** Enough for the blocks that [nb] bytes touch. *)
Definition data_fuel (f : ext2fs_t) (nb : Z) : nat := Z.to_nat (nb / blocksz f) + 2.

Definition ext2fs_read (v : vfs_t) (ino off nb : Z) : ME (Z * list Z) :=
  f ← EXT2FS v;
  rn ← getino v ino;
  if rn.1 <? 0 then mret (rn.1, []) else
  let size := getisize f rn.2 in
  if size <=? off then mret (0, []) else
  let nb := if size - off <? nb then size - off else nb in
  read_loop (data_fuel f nb) v f rn.2 off nb [].

(** Bytes written, the error that stopped the loop (0 for none) and the inode. *)
Fixpoint write_loop (fuel : nat) (v : vfs_t) (f : ext2fs_t) (ino : Z) (n : ext2_ino_t) (off : Z) (buf : list Z)
  (nwritten : Z) : ME (Z * Z * ext2_ino_t) :=
  let nb := Z.of_nat (length buf) in
  if negb (nwritten <? nb) then mret (nwritten, 0, n) else
  match fuel with
  | O => fault
  | S fuel' =>
      let pos := u64 (off + nwritten) in
      blk ← udiv pos (blocksz f);
      let blkoff := pos mod blocksz f in
      blkid ← ino_getblkid v n blk;
      if blkid <? 0 then mret (nwritten, blkid, n) else
      (* block, its content and the inode *)
      t ← (if blkid =? 0 then
             rn ← ino_allocblk v ino n;
             mret (if rn.1 <? 0 then inr rn.1 else inl (rn.1, zeros (blocksz f)), rn.2)
           else
             rb ← rdnew v blkid;
             mret (if rb.1 <? 0 then inr rb.1 else inl (blkid, rb.2), n));
      match t.1 with
      | inr err => mret (nwritten, err, t.2)
      | inl (blkid, blkd) =>
          let k := Z.min (blocksz f - blkoff) (nb - nwritten) in
          b ← deref (into blkd (take (Z.to_nat k) (drop (Z.to_nat nwritten) buf)) (Z.to_nat blkoff));
          r ← wrblk v blkid b;
          if r <? 0 then mret (nwritten, r, t.2)
          else write_loop fuel' v f ino t.2 off buf (nwritten + k)
      end
  end.

Definition new_size (f : ext2fs_t) (size : Z) (n : ext2_ino_t) : ext2_ino_t :=
  set_i_size (u32 size)
    (if isdyn f && negb (Z.land (s_feature_ro_compat (fsb f)) EXT2_FEATURE_RO_COMPAT_LARGE_FILE =? 0)
        && negb (S_TYPE (i_mode n) =? S_IFDIR)
     then u32 (Z.shiftr size 32) else i_dir_acl n) n.

Definition ext2fs_write (v : vfs_t) (ino off : Z) (buf : list Z) : ME Z :=
  f ← EXT2FS v;
  let nb := Z.of_nat (length buf) in
  checkb (getino v ino) (fun n =>
    let old_size := getisize f n in
    wen ← write_loop (data_fuel f nb) v f ino n off buf 0;
    let '(nwritten, werr, n1) := wen in
    let fin := u64 (off + nwritten) in
    let size := if old_size <? fin then fin else old_size in
    check ret := flush_inode v ino (new_size f size n1) in
    mret (if (nwritten =? 0) && negb (nb =? 0) && (werr <? 0) then werr else nwritten)).

(** The attributes copied into a [vinode_t]; [rdev] is set for devices only. *)
Definition to_vinode (f : ext2fs_t) (n : ext2_ino_t) (ino : Z) : option vinode_t :=
  rdev ← (if (S_TYPE (i_mode n) =? S_IFCHR) || (S_TYPE (i_mode n) =? S_IFBLK) then decode_dev n else Some 0);
  Some (mk_vinode (i_mode n) (i_uid n) (i_atime n) (i_ctime n) (i_mtime n) rdev (i_gid n) (i_links_count n)
          (getisize f n) ino).

(** The entry number [prv], counting from [pos] at byte [i]: result, position and
    entry, or the count after the block. *)
Fixpoint readdir_block (fuel : nat) (v : vfs_t) (f : ext2fs_t) (bd : list Z) (i pos prv namlen : Z)
  : ME ((Z * Z * option (list Z * vinode_t)) + Z) :=
  if negb (i <? blocksz f) then mret (inr pos) else
  match fuel with
  | O => fault
  | S fuel' =>
      e ← deref (dir_at bd i);
      if bad_rec f i e then mret (inl (- EINVAL, prv, None)) else
      if pos =? prv then
        if inode e =? 0 then mret (inl (- ENOENT, prv, None)) else
        rn ← getino v (inode e);
        if rn.1 <? 0 then mret (inl (rn.1, prv, None)) else
        vi ← deref (to_vinode f rn.2 (inode e));
        if name_len e + 1 <=? namlen then
          let j := (Z.to_nat i + DIRHDR)%nat in
          if (length bd <? j + Z.to_nat (name_len e))%nat then fault else
          mret (inl (inode e, u64 (prv + 1), Some (take (Z.to_nat (name_len e)) (drop j bd), vi)))
        else mret (inl (inode e, u64 (prv + 1), Some ([], vi)))
      else readdir_block fuel' v f bd (i + rec_len e) (pos + 1) prv namlen
  end.

Fixpoint readdir_loop (cnt : nat) (b pos : Z) (v : vfs_t) (n : ext2_ino_t) (prv namlen : Z)
  : ME (Z * Z * option (list Z * vinode_t)) :=
  match cnt with
  | O => mret (-1, prv, None)
  | S cnt' =>
      f ← EXT2FS v;
      o ← dirblk v n b;
      match o with
      | inr err => mret (err, prv, None)
      | inl blk =>
          rb ← rdnew v blk;
          if rb.1 <? 0 then mret (rb.1, prv, None) else
          r ← readdir_block (Z.to_nat (blocksz f)) v f rb.2 0 pos prv namlen;
          match r with inl res => mret res | inr pos' => readdir_loop cnt' (b + 1) pos' v n prv namlen end
      end
  end.

Definition ext2fs_readdir (v : vfs_t) (dino prv namlen : Z) : ME (Z * Z * option (list Z * vinode_t)) :=
  f ← EXT2FS v;
  rn ← getino v dino;
  if rn.1 <? 0 then mret (rn.1, prv, None) else
  nb ← nblocks f rn.2;
  readdir_loop (Z.to_nat nb) 0 0 v rn.2 prv namlen.

Definition ext2fs_getino (v : vfs_t) (ino : Z) : ME (Z * option vinode_t) :=
  f ← EXT2FS v;
  rn ← getino v ino;
  if rn.1 <? 0 then mret (rn.1, None) else
  vi ← deref (to_vinode f rn.2 ino);
  mret (0, Some vi).

Definition ext2fs_setino (v : vfs_t) (ino : Z) (b : vinode_t) : ME Z :=
  checkb (getino v ino) (fun n =>
    let n1 := mk_ino (VfsOps.i_mode b) (VfsOps.i_uid b) (u32 (VfsOps.i_size b)) (u32 (VfsOps.i_atime b))
                (u32 (VfsOps.i_ctime b)) (u32 (VfsOps.i_mtime b)) (i_dtime n) (VfsOps.i_gid b) (VfsOps.i_lnkcnt b)
                (i_blocks n) (i_flags n) (i_osd1 n) (i_block n) (i_generation n) (i_file_acl n) (i_dir_acl n)
                (i_faddr n) (i_osd2 n) in
    let mode := VfsOps.i_mode b in
    n2 ← deref (if (S_TYPE mode =? S_IFCHR) || (S_TYPE mode =? S_IFBLK) then encode_dev n1 (VfsOps.i_rdev b)
                else Some n1);
    flush_inode v ino n2).

(** The blocks [i], ... of a file. *)
Fixpoint free_blocks (cnt : nat) (i : Z) (v : vfs_t) (ino : Z) (n : ext2_ino_t) : ME Z :=
  match cnt with
  | O => mret 0
  | S cnt' =>
      rn ← ino_freeblk v ino n i;
      if rn.1 <? 0 then mret rn.1 else free_blocks cnt' (i + 1) v ino rn.2
  end.

Definition ext2fs_trunc (v : vfs_t) (ino : Z) : ME Z :=
  f ← EXT2FS v;
  checkb (getino v ino) (fun n =>
    nb ← nblocks f n;
    check ret := free_blocks (Z.to_nat nb) 0 v ino n in
    checkb (getino v ino) (fun n => check ret := flush_inode v ino (set_i_size 0 0 n) in mret 0)).

Definition ext2fs_rmino (v : vfs_t) (ino : Z) : ME Z :=
  f ← EXT2FS v;
  checkb (getino v ino) (fun n =>
    nb ← nblocks f n;
    check ret := free_blocks (Z.to_nat nb) 0 v ino n in
    f ← EXT2FS v;
    inobg ← udiv (u32 (ino - 1)) (ipg f);
    bg ← deref (aget (bgs f) inobg);
    _ ← count_inodes v inobg 1;
    idx ← umod (u32 (ino - 1)) (ipg f);
    check ret := modbmp v (bg_inode_bitmap bg) idx BMP_CLR in
    check ret := flush_inode v ino zero_ino in
    check ret := flush_bgs v in
    check ret := flush_sbs v in
    mret 0).

(** ** Mounting *)

Definition ext2_ops : vfsops_t (est D) :=
  mk_ops ext2fs_umount ext2fs_lookup ext2fs_readdir ext2fs_symlink ext2fs_mknod ext2fs_mkino ext2fs_rmino
    ext2fs_getino ext2fs_setino ext2fs_mklink ext2fs_rmlink ext2fs_trunc ext2fs_readsym ext2fs_read ext2fs_write.

(** The group descriptors, [nbgsp] of which are in place; a byte holds the
    number of descriptors taken from one block. *)
Fixpoint mount_bgs (cnt : nat) (cblk nbgsp : Z) (v : vfs_t) (acc : list ext2_bg_t) : ME (Z * list ext2_bg_t) :=
  match cnt with
  | O => mret (0, acc)
  | S cnt' =>
      f ← EXT2FS v;
      rb ← rdnew v cblk;
      if rb.1 <? 0 then mret (rb.1, acc) else
      let dscib := u8 (gpb f) in
      let dscib := if nbgs f <? u32 (nbgsp + dscib) then u8 (nbgs f - nbgsp) else dscib in
      let got := map (fun j => dec_bg (drop (j * BGSZ) rb.2)) (seq 0 (Z.to_nat dscib)) in
      mount_bgs cnt' (u32 (cblk + 1)) (u32 (nbgsp + dscib)) v (acc ++ got)
  end.

(** The instance without its group descriptors. *)
Definition mount_geometry (b : ext2_sb_t) (d : ext2_dynrev_sb_t) (dyn : bool) : option ext2fs_t :=
  let blocksz := u32 (Z.shiftl 1024 (s_log_block_size b)) in
  if s_blocks_per_group b =? 0 then None else if blocksz =? 0 then None else
  let q := s_blocks_count b / s_blocks_per_group b in
  let nbgs := if s_blocks_count b mod s_blocks_per_group b =? 0 then q else u32 (q + 1) in
  let q := (nbgs * Z.of_nat BGSZ) / blocksz in
  let bgtbln := if (nbgs * Z.of_nat BGSZ) mod blocksz =? 0 then q else q + 1 in
  Some (mk_fs dyn d nbgs (u32 bgtbln) [] blocksz (blocksz / 512) (blocksz / 4) (blocksz / Z.of_nat BGSZ)).

Definition set_priv (v : vfs_t) (p : Z) : vfs_t := mk_vfs (v_path v) (v_root_ino v) (v_blkid v) (v_mntno v) p.

(** Descriptors that were not read hold whatever the memory held. *)
Definition pad_bgs (n : Z) (g : list Z) (l : list ext2_bg_t) : list ext2_bg_t :=
  l ++ map (fun j => dec_bg (drop (j * BGSZ) g)) (seq 0 (Z.to_nat n - length l)).

(** Result, the mount with its fields filled in, and the operations. *)
Definition ext2fs_mount (v0 : vfs_t) : ME (Z * vfs_t * option (vfsops_t (est D))) :=
  g ← garbage 1024;
  rb ← onblk (block_read drv (v_blkid v0) g 2 2);
  if rb.1 <? 0 then mret (rb.1, v0, None) else
  let raw := rb.2 in
  let b := dec_sb raw in
  if negb (s_magic b =? EXT2_SUPER_MAGIC) then mret (- EINVAL, v0, None) else
  if negb (s_errors b =? EXT2_ERRORS_CONTINUE) then mret (- EINVAL, v0, None) else
  ok ← malloc;
  if negb ok then mret (- ENOMEM, v0, None) else
  s ← get;
  let v := set_priv v0 (brk s) in
  _ ← modify (fun s => mk_est (blkl s) (fss s) (oom s) (junk s) (clock s) (brk s + 512));
  g2 ← garbage (Z.of_nat DYNSBSZ);
  let dyn := s_rev_level b =? EXT2_DYNAMIC_REV in
  let d := dec_dynsb (if dyn then raw else take SBSZ raw ++ drop SBSZ g2) in
  if negb dyn && negb (s_rev_level b =? EXT2_GOOD_OLD_REV) then mret (- EINVAL, v, None) else
  if dyn && (negb (Z.ldiff (s_feature_incompat d) EXT2_FEATURE_INCOMPAT_FILETYPE =? 0) ||
             negb (Z.ldiff (s_feature_ro_compat d)
                     (Z.lor EXT2_FEATURE_RO_COMPAT_SPARSE_SUPER EXT2_FEATURE_RO_COMPAT_LARGE_FILE) =? 0))
  then mret (- EINVAL, v, None) else
  f ← deref (mount_geometry b d dyn);
  ok ← malloc;
  if negb ok then mret (- ENOMEM, v, None) else
  ok ← malloc;
  if negb ok then mret (- ENOMEM, v, None) else
  _ ← put_fs v f;
  rl ← mount_bgs (Z.to_nat (bgtbln f)) (u32 (s_first_data_block b + 1)) 0 v [];
  if rl.1 <? 0 then _ ← ext2fs_umount v; mret (rl.1, v, None) else
  g3 ← garbage (nbgs f * Z.of_nat BGSZ);
  _ ← put_fs v (set_bgs (pad_bgs (nbgs f) g3 rl.2) f);
  let v := mk_vfs (v_path v) EXT2_ROOT_INO (v_blkid v) (v_mntno v) (v_priv v) in
  ok ← malloc;
  if negb ok then _ ← ext2fs_umount v; mret (- ENOMEM, v, None) else
  mret (0, v, Some ext2_ops).

End ext2.

End Ext2.
