(* ===== verification/Ext2Facts.v ===== *)
(** The ext2 driver on a disk that works.

    The theorems of this file are about [Ext2] over a lawful block device whose
    transfers succeed ([reliable]) and with memory to be had.  [B s b] is block
    [b] of the disk; each operation is described by the blocks it changes. *)
From S2P Require Import Prelude CString VfsOps Block Ext2.

Module Ext2Facts.
Import CString VfsOps Block Ext2.

(** Reads have no effect and no transfer fails. *)
Class reliable {D : Type} (drv : drivers D) `{!sector_laws drv} := {
  rel_read t wide fn p l old d :
    read_fn drv t = Some (wide, fn) -> length old = SECSZ -> fn p l old d = Done d (0, sector d t p l);
  rel_write t wide fn p l buf d :
    write_fn drv t = Some (wide, fn) -> length buf = SECSZ -> exists d', fn p l buf d = Done d' 0
}.

#[export] Instance ramdrv_reliable : reliable ramdrv.
Proof.
  split.
  - intros t wide fn p l old d ->%ramdrv_read _. done.
  - intros t wide fn p l buf d ->%ramdrv_write _. by eexists.
Qed.

(** ** Inodes and entries as bytes *)

Definition ino_ok (n : ext2_ino_t) : Prop :=
  Forall2 fits ino_widths1 (ino_fields1 n) /\ Forall2 fits (replicate 15 4%nat) (i_block n) /\
  Forall2 fits (replicate 4 4%nat) (ino_fields2 n) /\ length (i_osd2 n) = 12%nat.

Lemma length_enc_ino n : ino_ok n -> length (enc_ino n) = INOSZ.
Proof.
  intros (H1 & H2 & H3 & H4). apply Forall2_length in H1, H2, H3.
  unfold enc_ino. rewrite !length_app, !length_enc_fields, H4 by done. done.
Qed.

Lemma dec_enc_ino n r : ino_ok n -> dec_ino (enc_ino n ++ r) = n.
Proof.
  intros (H1 & H2 & H3 & H4).
  pose proof (Forall2_length _ _ _ H1) as L1. pose proof (Forall2_length _ _ _ H2) as L2.
  pose proof (Forall2_length _ _ _ H3) as L3.
  assert (length (enc_fields ino_widths1 (ino_fields1 n)) = 40%nat) as E1 by (by rewrite length_enc_fields).
  assert (length (enc_fields (replicate 15 4%nat) (i_block n)) = 60%nat) as E2 by (by rewrite length_enc_fields).
  assert (length (enc_fields (replicate 4 4%nat) (ino_fields2 n)) = 16%nat) as E3 by (by rewrite length_enc_fields).
  pose proof (fun r => dec_enc_fields _ _ r H1) as D1. pose proof (fun r => dec_enc_fields _ _ r H2) as D2.
  pose proof (fun r => dec_enc_fields _ _ r H3) as D3.
  unfold dec_ino, enc_ino. rewrite <- !app_assoc.
  set (e1 := enc_fields ino_widths1 _) in *. set (e2 := enc_fields (replicate 15 4%nat) _) in *.
  set (e3 := enc_fields (replicate 4 4%nat) _) in *.
  rewrite (drop_app_length' e1 _ 40), D1, D2 by done.
  replace (drop 100 (e1 ++ e2 ++ e3 ++ i_osd2 n ++ r)) with (e3 ++ i_osd2 n ++ r).
  2: { rewrite (app_assoc e1). symmetry. apply drop_app_length'. rewrite length_app. lia. }
  replace (drop 116 (e1 ++ e2 ++ e3 ++ i_osd2 n ++ r)) with (i_osd2 n ++ r).
  2: { rewrite (app_assoc e1), (app_assoc (e1 ++ e2)). symmetry. apply drop_app_length'. rewrite !length_app. lia. }
  rewrite D3, take_app_length' by done. by destruct n.
Qed.

Lemma fits4 z : 0 <= z < 2 ^ 32 -> fits 4 z.
Proof. unfold fits. change (256 ^ Z.of_nat 4) with (2 ^ 32). done. Qed.

Lemma fits2 z : 0 <= z < 2 ^ 16 -> fits 2 z.
Proof. unfold fits. change (256 ^ Z.of_nat 2) with (2 ^ 16). done. Qed.

Lemma ino_ok_size sz acl n : 0 <= sz < 2 ^ 32 -> 0 <= acl < 2 ^ 32 -> ino_ok n -> ino_ok (set_i_size sz acl n).
Proof.
  intros Hs Ha (H1 & H2 & H3 & H4). split_and!; [|done| |done].
  - unfold ino_widths1, ino_fields1 in *. cbn [set_i_size i_mode i_uid i_size i_atime i_ctime i_mtime i_dtime i_gid
      i_links_count i_blocks i_flags i_osd1]. rewrite !Forall2_cons in H1 |- *. pose proof (fits4 sz Hs). tauto.
  - unfold ino_fields2 in *. cbn [replicate set_i_size i_generation i_file_acl i_dir_acl i_faddr] in *.
    rewrite !Forall2_cons in H3 |- *. pose proof (fits4 acl Ha). tauto.
Qed.

Lemma ino_ok_links c n : ino_ok n -> ino_ok (set_i_links c n).
Proof.
  intros (H1 & H2 & H3 & H4). split_and!; [|done..].
  unfold ino_widths1, ino_fields1 in *. cbn [set_i_links i_mode i_uid i_size i_atime i_ctime i_mtime i_dtime i_gid
    i_links_count i_blocks i_flags i_osd1]. rewrite !Forall2_cons in H1 |- *.
  pose proof (fits2 (u16 c) (wrap_range 16 c ltac:(lia))). tauto.
Qed.

Lemma length_zeros n : length (zeros n) = Z.to_nat n.
Proof. apply length_replicate. Qed.

(** ** Transfers of a reliable device *)

Section transfers.
Context {D : Type} (drv : drivers D) `{!sector_laws drv, !reliable drv}.

Lemma read_loop_total t wide fn p lba :
  read_fn drv t = Some (wide, fn) ->
  forall n i buf (s : blk D), ((i + n) * SECSZ <= length buf)%nat ->
  exists b, Block.read_loop n i wide fn p lba buf s = Done s (0, b).
Proof.
  intros Hf. induction n as [|n IH]; intros i buf s Hlen; cbn [Block.read_loop]; [by eexists|].
  rewrite sec_at_ok, bind_deref by lia.
  assert (onhw (fn p (lba_of wide (lba + Z.of_nat i)) (take SECSZ (drop (i * SECSZ) buf))) s
          = Done s (0, sector (hw s) t p (lba_of wide (lba + Z.of_nat i)))) as E.
  { unfold onhw. erewrite rel_read; [|done|rewrite length_take, length_drop; lia]. by destruct s. }
  rewrite (bind_done _ _ _ _ _ E). cbn [fst snd Z.ltb Z.compare]. apply IH.
  rewrite length_splice, sector_len by lia. lia.
Qed.

Lemma block_read_total id t p lba n buf (s : blk D) :
  attached s id t p -> 0 <= lba < 2 ^ 32 -> lba + Z.of_nat n <= 2 ^ 32 -> length buf = (n * SECSZ)%nat ->
  block_read drv id buf lba (Z.of_nat n) s = Done s (0, run_of (hw s) t p lba n).
Proof.
  intros Ha Hl Hn Hb. destruct (attached_fns drv _ _ _ _ Ha) as (w & fn & _ & _ & Hf & _).
  destruct (read_loop_total t w fn p lba Hf n 0 buf s ltac:(lia)) as [b E].
  assert (block_read drv id buf lba (Z.of_nat n) s = Done s (0, b)) as E'.
  { destruct Ha as (dev & Hd & Ht & Hp & _). unfold block_read, block_getdevid.
    rewrite (bind_done _ _ s s (0, Some dev)).
    - cbn [snd]. by rewrite Ht, Hf, Hp, Nat2Z.id, wrap_small by lia.
    - rewrite (bind_done get _ s s s eq_refl). by rewrite Hd. }
  rewrite E'. apply (block_read_spec drv _ t p) in E' as (d & _ & _ & _ & Hr); [|done|lia..].
  by destruct Hr as [_ <-].
Qed.

Lemma write_loop_total t wide fn p lba buf :
  write_fn drv t = Some (wide, fn) ->
  forall n i (s : blk D), ((i + n) * SECSZ <= length buf)%nat ->
  exists s', Block.write_loop n i wide fn p lba buf s = Done s' 0.
Proof.
  intros Hf. induction n as [|n IH]; intros i s Hlen; cbn [Block.write_loop]; [by eexists|].
  rewrite sec_at_ok, bind_deref by lia.
  destruct (rel_write t wide fn p (lba_of wide (lba + Z.of_nat i)) (take SECSZ (drop (i * SECSZ) buf)) (hw s) Hf)
    as [d E]; [rewrite length_take, length_drop; lia|].
  rewrite (bind_done _ _ s (set_hw d s) 0) by (unfold onhw; by rewrite E).
  cbn [Z.ltb Z.compare]. apply IH. lia.
Qed.

Lemma block_write_total id t p lba n buf (s : blk D) :
  attached s id t p -> 0 <= lba < 2 ^ 32 -> lba + Z.of_nat n <= 2 ^ 32 -> length buf = (n * SECSZ)%nat ->
  exists d, block_write drv id buf lba (Z.of_nat n) s = Done (set_hw d s) 0 /\
    run_of d t p lba n = buf /\ same_outside drv t p lba n (hw s) d.
Proof.
  intros Ha Hl Hn Hb. destruct (attached_fns drv _ _ _ _ Ha) as (_ & _ & w & fn & _ & Hf).
  destruct (write_loop_total t w fn p lba buf Hf n 0 s ltac:(lia)) as [s' E].
  assert (block_write drv id buf lba (Z.of_nat n) s = Done s' 0) as E'.
  { destruct Ha as (dev & Hd & Ht & Hp & _). unfold block_write, block_getdevid.
    rewrite (bind_done _ _ s s (0, Some dev)).
    - cbn [snd]. by rewrite Ht, Hf, Hp, Nat2Z.id, wrap_small by lia.
    - rewrite (bind_done get _ s s s eq_refl). by rewrite Hd. }
  rewrite E'. apply (block_write_spec drv _ t p) in E' as (d & -> & Ho & Hr); [|done|lia..].
  exists d. destruct Hr as [_ Hr]; [lia|]. done.
Qed.

End transfers.

(** ** Blocks *)

Section facts.
Context {D : Type} (drv : drivers D) `{!sector_laws drv, !reliable drv}.
Context (v : vfs_t) (t p : Z).

(** Block [b] of the disk, [sp] sectors each. *)
Definition B (sp : Z) (s : est D) (b : Z) : list Z := run_of (hw (blkl s)) t p (b * sp) (Z.to_nat sp).

Record ready (s : est D) (f : ext2fs_t) : Prop := mk_ready {
  r_fs : fss s !! v_priv v = Some f;
  r_dev : attached (blkl s) (v_blkid v) t p;
  r_oom : oom s = [];
  r_spb : 0 < spb f;
  r_bsz : blocksz f = 512 * spb f;
  r_cnt : 0 <= fsblocks f /\ fsblocks f * spb f <= 2 ^ 32;
  r_ppb : ppb f = 128 * spb f
}.

Definition set_disk (d : D) (s : est D) : est D :=
  mk_est (set_hw d (blkl s)) (fss s) (oom s) (junk s) (clock s) (brk s).

(** [s'] is [s] with the blocks in [W] changed. *)
Definition changed (sp : Z) (W : Z -> Prop) (s s' : est D) : Prop :=
  (exists d, s' = set_disk d s) /\ forall b, 0 <= b -> ~ W b -> B sp s' b = B sp s b.

Lemma length_B sp s b : 0 <= sp -> length (B sp s b) = Z.to_nat (512 * sp).
Proof. intros H. unfold B. rewrite length_run. unfold SECSZ. lia. Qed.

Lemma ready_changed sp W s s' f : changed sp W s s' -> ready s f -> ready s' f.
Proof. intros [[d ->] _] [H1 H2 H3 H4 H5 H6 H7]. by split. Qed.

Lemma changed_refl sp W s : changed sp W s s.
Proof. split; [exists (hw (blkl s)); by destruct s as [[] ? ? ? ?]|done]. Qed.

Lemma changed_trans sp W s1 s2 s3 : changed sp W s1 s2 -> changed sp W s2 s3 -> changed sp W s1 s3.
Proof.
  intros [[d1 ->] H1] [[d2 ->] H2]. split; [by exists d2|]. intros b Hb HW. by rewrite H2, H1.
Qed.

Lemma changed_weaken sp (W W' : Z -> Prop) s s' : (forall b, W b -> W' b) -> changed sp W s s' -> changed sp W' s s'.
Proof. intros H [Hd Hb]. split; [done|]. intros b Hb0 HW. apply Hb; [done|]. naive_solver. Qed.

Lemma bind_fs {A} s f (k : ext2fs_t -> M (est D) A) : ready s f -> mbind k (EXT2FS v) s = k f s.
Proof. intros [H _ _ _ _ _ _]. unfold mbind, M_bind, EXT2FS. by rewrite H. Qed.

Lemma bind_malloc {A} s f (k : bool -> M (est D) A) : ready s f -> mbind k malloc s = k true s.
Proof. intros [_ _ H _ _ _ _]. unfold mbind, M_bind, malloc. by rewrite H. Qed.

Lemma bind_udiv {A} s a b (k : Z -> M (est D) A) : b <> 0 -> mbind k (udiv a b) s = k (a / b) s.
Proof. intros H. unfold udiv. by rewrite (proj2 (Z.eqb_neq _ _) H). Qed.

Lemma bind_umod {A} s a b (k : Z -> M (est D) A) : b <> 0 -> mbind k (umod a b) s = k (a mod b) s.
Proof. intros H. unfold umod. by rewrite (proj2 (Z.eqb_neq _ _) H). Qed.

Lemma block_u32 s f b : ready s f -> 0 <= b < fsblocks f -> u32 b = b /\ 0 <= b * spb f < 2 ^ 32 /\ b * spb f + spb f <= 2 ^ 32.
Proof. intros [_ _ _ H _ Hc _] Hb. rewrite wrap_small by nia. split; [done|]. nia. Qed.

Lemma rdblk_ok s f b out :
  ready s f -> 0 <= b < fsblocks f -> length out = Z.to_nat (blocksz f) ->
  rdblk drv v b out s = Done s (0, B (spb f) s b).
Proof.
  intros Hr Hb Ho. destruct (block_u32 s f b Hr Hb) as (E & H1 & H2). pose proof Hr as [_ Hd _ Hsp Hz _ _].
  unfold rdblk. rewrite E, (bind_fs s f) by done. rewrite (proj2 (Z.leb_gt _ _)) by lia.
  rewrite wrap_small by lia.
  assert (onblk (block_read drv (v_blkid v) out (b * spb f) (spb f)) s = Done s (0, B (spb f) s b)) as E1.
  { unfold onblk. rewrite <- (Z2Nat.id (spb f)) at 2 by lia.
    rewrite (block_read_total drv _ t p) by (try done; unfold SECSZ; lia). by destruct s. }
  by rewrite (bind_done _ _ _ _ _ E1).
Qed.

Lemma rdnew_ok s f b :
  ready s f -> 0 <= b < fsblocks f -> rdnew drv v b s = Done s (0, B (spb f) s b).
Proof.
  intros Hr Hb. unfold rdnew. rewrite (bind_fs s f) by done. unfold garbage. rewrite bind_gets.
  apply rdblk_ok; [done..|]. rewrite length_take, length_app, length_replicate. lia.
Qed.

Lemma bind_rdnew {A} s f b (k : Z * list Z -> M (est D) A) :
  ready s f -> 0 <= b < fsblocks f -> mbind k (rdnew drv v b) s = k (0, B (spb f) s b) s.
Proof. intros Hr Hb. by rewrite (bind_done _ _ _ _ _ (rdnew_ok s f b Hr Hb)). Qed.

Lemma wrblk_ok s f b bs :
  ready s f -> 0 <= b < fsblocks f -> length bs = Z.to_nat (blocksz f) ->
  exists s', wrblk drv v b bs s = Done s' 0 /\ changed (spb f) (eq b) s s' /\ B (spb f) s' b = bs.
Proof.
  intros Hr Hb Ho. destruct (block_u32 s f b Hr Hb) as (E & H1 & H2). pose proof Hr as [_ Hd _ Hsp Hz _ _].
  destruct (block_write_total drv (v_blkid v) t p (b * spb f) (Z.to_nat (spb f)) bs (blkl s))
    as (d & Ew & Hrun & Hout); try done; try lia; [unfold SECSZ; lia|].
  rewrite Z2Nat.id in Ew by lia. exists (set_disk d s). split_and!.
  - unfold wrblk. rewrite E, (bind_fs s f) by done. rewrite (proj2 (Z.leb_gt _ _)) by lia.
    rewrite wrap_small by lia. rewrite (bind_done _ _ s (set_disk d s) 0) by (unfold onblk; by rewrite Ew). done.
  - split; [by exists d|]. intros b' Hb' Hne. unfold B. cbn [blkl set_disk hw set_hw]. apply run_ext.
    intros l Hl. apply Hout. rewrite Z2Nat.id in * by lia. intros (_ & _ & Hl').
    destruct (Z.lt_trichotomy b b') as [?|[?|?]]; [nia|done|nia].
  - done.
Qed.

(** ** Bitmaps and inodes *)

(** Bit [i] of a bitmap. *)
Definition bit (bs : list Z) (i : Z) : bool :=
  match aget bs (i / 8) with Some y => Z.testbit y (i mod 8) | None => false end.

(** Where inode [ino] is: its group [g], its bit, its block and the offset in it. *)
Definition igrp (f : ext2fs_t) (ino : Z) : Z := (ino - 1) / ipg f.
Definition iidx (f : ext2fs_t) (ino : Z) : Z := (ino - 1) mod ipg f.
Definition iblk (f : ext2fs_t) (g : ext2_bg_t) (ino : Z) : Z :=
  bg_inode_table g + (iidx f ino * inosz f) / blocksz f.
Definition ioff (f : ext2fs_t) (ino : Z) : Z := (iidx f ino * inosz f) mod blocksz f.

Record located (f : ext2fs_t) (ino : Z) (g : ext2_bg_t) : Prop := mk_located {
  l_ino : 1 <= ino < 2 ^ 32;
  l_ipg : 0 < ipg f < 2 ^ 32;
  l_grp : aget (bgs f) (igrp f ino) = Some g;
  l_nbgs : igrp f ino < nbgs f;
  l_bmp : 0 <= bg_inode_bitmap g < fsblocks f;
  l_bit : iidx f ino / 8 < blocksz f;
  l_tbl : 0 <= bg_inode_table g;
  l_sz : Z.of_nat INOSZ <= inosz f;
  l_blk : iblk f g ino < fsblocks f;
  l_off : ioff f ino + Z.of_nat INOSZ <= blocksz f
}.

Lemma iidx_range f ino g : located f ino g -> 0 <= iidx f ino < ipg f.
Proof. intros H. apply Z.mod_pos_bound. apply H. Qed.

Lemma iblk_range s f ino g : ready s f -> located f ino g -> 0 <= iblk f g ino < fsblocks f.
Proof.
  intros Hr H. split; [|apply H]. unfold iblk. pose proof (iidx_range _ _ _ H). pose proof (l_tbl _ _ _ H).
  pose proof (l_sz _ _ _ H). assert (0 <= iidx f ino * inosz f / blocksz f); [|lia].
  apply Z.div_pos; [nia|]. rewrite (r_bsz _ _ Hr). pose proof (r_spb _ _ Hr). lia.
Qed.

Lemma ioff_range s f ino : ready s f -> 0 <= ioff f ino < blocksz f.
Proof. intros Hr. apply Z.mod_pos_bound. rewrite (r_bsz _ _ Hr). pose proof (r_spb _ _ Hr). lia. Qed.

Lemma bit_byte bs i y : aget bs (i / 8) = Some y -> (Z.land y (Z.shiftl 1 (i mod 8)) =? 0) = negb (bit bs i).
Proof.
  intros E. unfold bit. rewrite E, Z.shiftl_1_l. apply land_pow2_eqb. apply Z.mod_pos_bound. lia.
Qed.

Lemma B_byte s f b i :
  ready s f -> 0 <= i -> i / 8 < blocksz f -> exists y, aget (B (spb f) s b) (i / 8) = Some y.
Proof.
  intros Hr Hi Hlt. apply aget_is_Some. rewrite length_B by (pose proof (r_spb _ _ Hr); lia).
  rewrite (r_bsz _ _ Hr) in Hlt. assert (0 <= i / 8) by (apply Z.div_pos; lia). lia.
Qed.

(** A bit is read, whatever else is in the bitmap. *)
Lemma modbmp_get s f b i :
  ready s f -> 0 <= b < fsblocks f -> 0 <= i -> i / 8 < blocksz f ->
  exists r, modbmp drv v b i BMP_GET s = Done s r /\ 0 <= r /\ (r =? 0) = negb (bit (B (spb f) s b) i).
Proof.
  intros Hr Hb Hi Hlt. destruct (B_byte s f b i Hr Hi Hlt) as [y Hy].
  exists (Z.land y (Z.shiftl 1 (i mod 8))). split_and!.
  - unfold modbmp. rewrite (bind_fs s f) by done. rewrite (proj2 (Z.leb_gt _ _)) by lia.
    rewrite (bind_malloc s f) by done. cbn [negb]. unfold checkb. rewrite (bind_rdnew s f) by done.
    cbn [fst snd Z.ltb Z.compare]. by rewrite Hy.
  - apply Z.land_nonneg. right. rewrite Z.shiftl_1_l. apply Z.pow_nonneg. lia.
  - by apply bit_byte.
Qed.

Lemma inodeused_ok s f ino g :
  ready s f -> located f ino g ->
  inodeused drv v ino s = Done s (if bit (B (spb f) s (bg_inode_bitmap g)) (iidx f ino) then 1 else 0).
Proof.
  intros Hr Hl. pose proof (iidx_range _ _ _ Hl) as Hi. pose proof Hl as [H1 H2 H3 H4 H5 H6 H7 H8 H9 H10].
  unfold inodeused. rewrite (bind_fs s f), (wrap_small 32) by (done || lia).
  rewrite bind_udiv by lia. change ((ino - 1) / ipg f) with (igrp f ino). rewrite (proj2 (Z.leb_gt _ _)) by lia.
  rewrite H3, bind_deref. rewrite (proj2 (Z.leb_gt _ _)) by lia. rewrite bind_umod by lia.
  change ((ino - 1) mod ipg f) with (iidx f ino).
  destruct (modbmp_get s f (bg_inode_bitmap g) (iidx f ino) Hr H5) as (r & E & Hpos & Hz); [lia|done|].
  rewrite (bind_done _ _ _ _ _ E), (proj2 (Z.ltb_ge _ _) Hpos), Hz. by destruct (bit _ _).
Qed.

Lemma getino_used s f ino g :
  ready s f -> located f ino g -> bit (B (spb f) s (bg_inode_bitmap g)) (iidx f ino) = true ->
  getino drv v ino s = Done s (0, dec_ino (drop (Z.to_nat (ioff f ino)) (B (spb f) s (iblk f g ino)))).
Proof.
  intros Hr Hl Hu. pose proof (iblk_range s _ _ _ Hr Hl) as Hb. pose proof Hl as [H1 H2 H3 H4 H5 H6 H7 H8 H9 H10].
  pose proof (r_spb _ _ Hr) as Hsp. pose proof (r_bsz _ _ Hr) as Hbs.
  unfold getino. rewrite (bind_fs s f) by done. rewrite (proj2 (Z.eqb_neq _ _)) by lia.
  rewrite (wrap_small 32) by lia. rewrite bind_udiv by lia. change ((ino - 1) / ipg f) with (igrp f ino).
  rewrite (proj2 (Z.leb_gt _ _)) by lia.
  rewrite (bind_done _ _ _ _ _ (inodeused_ok s f ino g Hr Hl)), Hu. cbn [Z.ltb Z.eqb Z.compare Pos.compare].
  rewrite H3, bind_deref. rewrite (proj2 (Z.leb_gt _ _)).
  2: { unfold iblk in H9. pose proof (iidx_range _ _ _ Hl).
       assert (0 <= iidx f ino * inosz f / blocksz f) by (apply Z.div_pos; nia). lia. }
  rewrite bind_umod by lia. change ((ino - 1) mod ipg f) with (iidx f ino).
  rewrite bind_udiv by lia. fold (iblk f g ino). fold (ioff f ino). rewrite (proj2 (Z.leb_gt _ _)) by lia.
  rewrite (bind_malloc s f) by done. cbn [negb]. rewrite (bind_rdnew s f) by done. cbn [fst snd Z.ltb Z.compare].
  rewrite (proj2 (Z.ltb_ge _ _)); [done|]. rewrite length_B by lia. lia.
Qed.

Lemma into_ok buf bs off : (off + length bs <= length buf)%nat -> into buf bs off = Some (splice buf bs off).
Proof. intros H. unfold into. by rewrite (proj2 (Nat.leb_le _ _) H). Qed.

Lemma flush_inode_used s f ino g n :
  ready s f -> located f ino g -> bit (B (spb f) s (bg_inode_bitmap g)) (iidx f ino) = true -> ino_ok n ->
  exists s', flush_inode drv v ino n s = Done s' 0 /\ changed (spb f) (eq (iblk f g ino)) s s' /\
    B (spb f) s' (iblk f g ino) = splice (B (spb f) s (iblk f g ino)) (enc_ino n) (Z.to_nat (ioff f ino)).
Proof.
  intros Hr Hl Hu Hn. pose proof (iblk_range s _ _ _ Hr Hl) as Hb. pose proof Hl as [H1 H2 H3 H4 H5 H6 H7 H8 H9 H10].
  pose proof (r_spb _ _ Hr) as Hsp. pose proof (r_bsz _ _ Hr) as Hbs. pose proof (ioff_range s f ino Hr) as Ho.
  pose proof (length_enc_ino n Hn) as Hlen.
  destruct (wrblk_ok s f (iblk f g ino)
              (splice (B (spb f) s (iblk f g ino)) (enc_ino n) (Z.to_nat (ioff f ino))) Hr Hb) as (s' & E & Hc & HB).
  { rewrite length_splice, length_B, Hlen by (rewrite ?length_B by lia; lia). unfold INOSZ in *. lia. }
  exists s'. split; [|done]. unfold flush_inode. rewrite (proj2 (Z.eqb_neq _ _)) by lia.
  rewrite (bind_fs s f) by done. rewrite (wrap_small 32 ino) by lia.
  rewrite (bind_done _ _ _ _ _ (inodeused_ok s f ino g Hr Hl)), Hu. cbn [Z.ltb Z.eqb Z.compare Pos.compare].
  rewrite (wrap_small 64) by lia. rewrite bind_udiv by lia. fold (igrp f ino).
  assert (0 <= igrp f ino < 2 ^ 32) as Hg.
  { unfold igrp. split; [apply Z.div_pos; lia|apply Z.div_lt_upper_bound; nia]. }
  rewrite (wrap_small 32 (igrp f ino)), H3, bind_deref, bind_umod by lia. fold (iidx f ino).
  rewrite bind_udiv by lia. fold (iblk f g ino). fold (ioff f ino). rewrite (bind_rdnew s f) by done.
  cbn [fst snd Z.eqb negb]. rewrite into_ok, bind_deref; [done|].
  rewrite Hlen, length_B by lia. unfold INOSZ in *. lia.
Qed.

(** Inode [ino] of group [g] is in use and is [n]. *)
Record inode_at (s : est D) (f : ext2fs_t) (ino : Z) (g : ext2_bg_t) (n : ext2_ino_t) : Prop := mk_inode_at {
  ia_loc : located f ino g;
  ia_used : bit (B (spb f) s (bg_inode_bitmap g)) (iidx f ino) = true;
  ia_ino : dec_ino (drop (Z.to_nat (ioff f ino)) (B (spb f) s (iblk f g ino))) = n;
  ia_ok : ino_ok n
}.

Lemma getino_at s f ino g n : ready s f -> inode_at s f ino g n -> getino drv v ino s = Done s (0, n).
Proof. intros Hr [Hl Hu Hn _]. rewrite (getino_used s f ino g Hr Hl Hu). by rewrite Hn. Qed.

(** Storing an inode; the bitmap is not in the block of the inode. *)
Lemma flush_at s f ino g n n' :
  ready s f -> inode_at s f ino g n -> ino_ok n' -> iblk f g ino <> bg_inode_bitmap g ->
  exists s', flush_inode drv v ino n' s = Done s' 0 /\ changed (spb f) (eq (iblk f g ino)) s s' /\
    B (spb f) s' (iblk f g ino) = splice (B (spb f) s (iblk f g ino)) (enc_ino n') (Z.to_nat (ioff f ino)) /\
    inode_at s' f ino g n'.
Proof.
  intros Hr [Hl Hu Hn Hok] Hok' Hne.
  destruct (flush_inode_used s f ino g n' Hr Hl Hu Hok') as (s' & E & Hc & HB).
  exists s'. split; [done|]. split; [done|]. split; [done|]. destruct Hc as [_ Hc].
  pose proof (ioff_range s f ino Hr) as Hoff. pose proof (l_off _ _ _ Hl) as Hend. pose proof (r_bsz _ _ Hr).
  pose proof (r_spb _ _ Hr). split; try done.
  - rewrite Hc; [done|apply Hl|done].
  - rewrite HB. unfold splice. rewrite drop_app_length' by (rewrite length_take, length_B by lia; lia).
    by apply dec_enc_ino.
Qed.

(** Inodes in other blocks, or elsewhere in the block, are not touched. *)
Definition inodes_apart (f : ext2fs_t) (i : Z) (gi : ext2_bg_t) (j : Z) (gj : ext2_bg_t) : Prop :=
  iblk f gi i <> iblk f gj j \/ ioff f i + Z.of_nat INOSZ <= ioff f j \/ ioff f j + Z.of_nat INOSZ <= ioff f i.

Lemma inode_at_frame W s s' f ino g n :
  ready s f -> changed (spb f) W s s' -> ~ W (iblk f g ino) -> ~ W (bg_inode_bitmap g) ->
  inode_at s f ino g n -> inode_at s' f ino g n.
Proof.
  intros Hr [_ Hc] H1 H2 [Hl Hu Hn Hok]. pose proof (iblk_range s _ _ _ Hr Hl).
  split; [done| |  |done]; rewrite Hc; try done; [apply Hl|lia].
Qed.

Lemma dec_ino_take bs : (INOSZ <= length bs)%nat -> dec_ino bs = dec_ino (take INOSZ bs).
Proof.
  intros Hl. assert (forall ws (l : list Z) k, (sum_list ws <= k)%nat -> dec_fields ws (take k l) = dec_fields ws l) as Hd.
  { induction ws as [|w ws IH]; intros l k Hk; [done|]. cbn [dec_fields sum_list] in *. cbn in Hk.
    rewrite take_take, Nat.min_l by lia. f_equal.
    rewrite skipn_firstn_comm. apply IH. lia. }
  unfold dec_ino, INOSZ. rewrite Hd by (cbn; lia).
  rewrite !skipn_firstn_comm, !Hd by (cbn; lia). by rewrite take_take.
Qed.

Lemma inode_at_other s s' f i gi ni j gj nj :
  ready s f -> inode_at s f i gi ni -> inode_at s f j gj nj -> inodes_apart f i gi j gj ->
  iblk f gi i <> bg_inode_bitmap gj ->
  forall n', ino_ok n' -> changed (spb f) (eq (iblk f gi i)) s s' ->
  B (spb f) s' (iblk f gi i) = splice (B (spb f) s (iblk f gi i)) (enc_ino n') (Z.to_nat (ioff f i)) ->
  inode_at s' f j gj nj.
Proof.
  intros Hr Hi Hj Hap Hbm n' Hok Hc HB. destruct (decide (iblk f gi i = iblk f gj j)) as [E|E].
  2: { eapply inode_at_frame; [done|done|done|done|done]. }
  destruct Hap as [|Hap]; [done|]. destruct Hj as [Hl Hu Hn Hokj]. pose proof (ia_loc _ _ _ _ _ Hi) as Hli.
  pose proof (ioff_range s f i Hr). pose proof (ioff_range s f j Hr). pose proof (l_off _ _ _ Hl). pose proof (l_off _ _ _ Hli).
  pose proof (r_bsz _ _ Hr). pose proof (r_spb _ _ Hr). pose proof (length_enc_ino n' Hok) as Hle. unfold INOSZ in *.
  assert (length (B (spb f) s (iblk f gj j)) = Z.to_nat (blocksz f)) as HL by (rewrite length_B by lia; f_equal; lia).
  split; [done| | |done].
  - destruct Hc as [_ Hc]. rewrite Hc; [done|apply Hl|done].
  - rewrite <- Hn, <- E, HB, E. rewrite dec_ino_take, (dec_ino_take (drop _ (B _ _ _)));
      [|rewrite length_drop, ?length_splice; unfold INOSZ; lia..].
    f_equal. unfold INOSZ. destruct Hap; [apply splice_after|apply splice_before]; lia.
Qed.

(** ** Block pointers *)

(** The table of pointers in block [w]; block 0 stands for an empty one. *)
Definition tbl (s : est D) (f : ext2fs_t) (w : Z) : list Z :=
  words (ppb f) (if w =? 0 then zeros (blocksz f) else B (spb f) s w).

(** The tables on the way to block [idx] of a file, and the pointer found. *)
Definition find_ptr (s : est D) (f : ext2fs_t) (n : ext2_ino_t) (idx : Z) : option (list Z * Z) :=
  if idx <? 12 then b ← aget (i_block n) idx; Some ([], b)
  else if idx <? lim1 f then
    b ← aget (i_block n) 12; w ← aget (tbl s f b) (idx - 12); Some ([b], w)
  else if idx <? lim2 f then
    let ridx := u32 (idx - 12 - ppb f) in
    b ← aget (i_block n) 13; w0 ← aget (tbl s f b) (ridx / ppb f); w ← aget (tbl s f w0) (ridx mod ppb f);
    Some ([b; w0], w)
  else
    let pp := u32 (ppb f * ppb f) in
    let ridx := u32 (idx - 12 - ppb f - pp) in
    if pp =? 0 then None else
    b ← aget (i_block n) 14; w0 ← aget (tbl s f b) (ridx / pp);
    w1 ← aget (tbl s f w0) ((ridx / ppb f) mod ppb f); w ← aget (tbl s f w1) (ridx mod ppb f);
    Some ([b; w0; w1], w).

Definition on_disk (f : ext2fs_t) (b : Z) : Prop := 0 <= b < fsblocks f.

Lemma bind_read_indr s f b (k : list Z -> M (est D) Z) :
  ready s f -> on_disk f b -> checkb (read_indr drv v b) k s = k (tbl s f b) s.
Proof.
  intros Hr Hb. unfold checkb.
  rewrite (bind_done _ _ s s (0, tbl s f b)); [done|]. unfold read_indr, tbl. rewrite (bind_fs s f) by done.
  destruct (b =? 0); [done|]. by rewrite (bind_rdnew s f).
Qed.

Lemma getblkid_ok s f n idx path w :
  ready s f -> find_ptr s f n idx = Some (path, w) -> Forall (on_disk f) path ->
  ino_getblkid drv v n idx s = Done s (s32 w).
Proof.
  intros Hr Hp Hpath. assert (ppb f <> 0) as Hpp by (rewrite (r_ppb _ _ Hr); pose proof (r_spb _ _ Hr); lia).
  unfold ino_getblkid. rewrite (bind_fs s f), (bind_malloc s f) by done. cbn [negb].
  unfold find_ptr in Hp.
  destruct (idx <? 12); [|destruct (idx <? lim1 f); [|destruct (idx <? lim2 f)]].
  - destruct (aget (i_block n) idx) as [b|]; [|done]. by injection Hp as <- <-.
  - destruct (aget (i_block n) 12) as [b|]; [|done]. cbn [mbind option_bind] in Hp.
    destruct (aget (tbl s f b) (idx - 12)) as [w'|] eqn:Ew; [|done]. injection Hp as <- <-.
    apply Forall_cons in Hpath as [Hb _]. rewrite bind_deref, (bind_read_indr s f), Ew by done. done.
  - destruct (aget (i_block n) 13) as [b|]; [|done]. cbn [mbind option_bind] in Hp.
    destruct (aget (tbl s f b) _) as [w0|] eqn:E0; [|done]. cbn [mbind option_bind] in Hp.
    destruct (aget (tbl s f w0) _) as [w'|] eqn:E1; [|done]. injection Hp as <- <-.
    rewrite !Forall_cons in Hpath. destruct Hpath as (Hb & H0 & _).
    rewrite bind_deref, (bind_read_indr s f) by done. rewrite bind_udiv, E0, bind_deref by done.
    rewrite (bind_read_indr s f), E1 by done. done.
  - destruct (Z.eqb_spec (u32 (ppb f * ppb f)) 0) as [|Hq]; [done|].
    destruct (aget (i_block n) 14) as [b|]; [|done]. cbn [mbind option_bind] in Hp.
    destruct (aget (tbl s f b) _) as [w0|] eqn:E0; [|done]. cbn [mbind option_bind] in Hp.
    destruct (aget (tbl s f w0) _) as [w1|] eqn:E1; [|done]. cbn [mbind option_bind] in Hp.
    destruct (aget (tbl s f w1) _) as [w'|] eqn:E2; [|done]. injection Hp as <- <-.
    rewrite !Forall_cons in Hpath. destruct Hpath as (Hb & H0 & H1 & _).
    rewrite bind_deref, (bind_read_indr s f) by done. rewrite bind_udiv, E0, bind_deref by done.
    rewrite (bind_read_indr s f), E1, bind_deref by done. rewrite (bind_read_indr s f), E2 by done. done.
Qed.

Lemma tbl_changed W s s' f b : changed (spb f) W s s' -> 0 <= b -> ~ W b -> tbl s' f b = tbl s f b.
Proof. intros [_ H] Hb HW. unfold tbl. destruct (b =? 0); [done|]. by rewrite H. Qed.

(** A pointer is found as before when the tables on its way are as before. *)
Lemma find_ptr_changed W s s' f n idx path w :
  changed (spb f) W s s' -> find_ptr s f n idx = Some (path, w) -> Forall (fun b => 0 <= b /\ ~ W b) path ->
  find_ptr s' f n idx = Some (path, w).
Proof.
  intros Hc Hp Hpath. unfold find_ptr in *.
  destruct (idx <? 12); [done|]. destruct (idx <? lim1 f); [|destruct (idx <? lim2 f)].
  - destruct (aget (i_block n) 12) as [b|]; [|done]. cbn [mbind option_bind] in *.
    destruct (aget (tbl s f b) (idx - 12)) as [w'|] eqn:Ew; [|done]. injection Hp as <- <-.
    apply Forall_cons in Hpath as [[? ?] _]. by rewrite (tbl_changed W s), Ew.
  - destruct (aget (i_block n) 13) as [b|]; [|done]. cbn [mbind option_bind] in *.
    destruct (aget (tbl s f b) _) as [w0|] eqn:E0; [|done]. cbn [mbind option_bind] in *.
    destruct (aget (tbl s f w0) _) as [w'|] eqn:E1; [|done]. injection Hp as <- <-.
    rewrite !Forall_cons in Hpath. destruct Hpath as ((? & ?) & (? & ?) & _).
    rewrite (tbl_changed W s), E0 by done. cbn [mbind option_bind]. by rewrite (tbl_changed W s), E1.
  - destruct (u32 (ppb f * ppb f) =? 0); [done|].
    destruct (aget (i_block n) 14) as [b|]; [|done]. cbn [mbind option_bind] in *.
    destruct (aget (tbl s f b) _) as [w0|] eqn:E0; [|done]. cbn [mbind option_bind] in *.
    destruct (aget (tbl s f w0) _) as [w1|] eqn:E1; [|done]. cbn [mbind option_bind] in *.
    destruct (aget (tbl s f w1) _) as [w'|] eqn:E2; [|done]. injection Hp as <- <-.
    rewrite !Forall_cons in Hpath. destruct Hpath as ((? & ?) & (? & ?) & (? & ?) & _).
    rewrite (tbl_changed W s), E0 by done. cbn [mbind option_bind].
    rewrite (tbl_changed W s), E1 by done. cbn [mbind option_bind]. by rewrite (tbl_changed W s), E2.
Qed.

End facts.

End Ext2Facts.
