(* ===== verification/Ext2Geo.v ===== *)
(** What the ext2 driver never changes, on any device, working or not.

    [geo] is the geometry of a mounted instance: its block size, its groups and
    the places of their bitmaps and inode tables, and the device it is on.  Every
    operation but mounting and unmounting keeps it. *)
From S2P Require Import Prelude CString VfsOps Block Ext2 Ext2Facts.

Module Ext2Geo.
Import CString VfsOps Block Ext2 Ext2Facts.

Section geo.
Context {D : Type} (drv : drivers D) (v : vfs_t).
Notation ME := (M (est D)).

(** Where a group's bitmaps and inode table are. *)
Definition places (g : ext2_bg_t) : Z * Z * Z := (bg_block_bitmap g, bg_inode_bitmap g, bg_inode_table g).

Definition fs_geo (f : ext2fs_t) : list Z * bool * list (Z * Z * Z) :=
  ([fsblocks f; ipg f; bpg f; first_data f; nbgs f; bgtbln f; blocksz f; spb f; ppb f; gpb f;
    s_inode_size (fsb f); s_feature_ro_compat (fsb f)], isdyn f, map places (bgs f)).

Definition geo (s : est D) : option (list Z * bool * list (Z * Z * Z)) * list blockdev :=
  (fs_geo <$> fss s !! v_priv v, devs (blkl s)).

Lemma geo_fs : keeps geo (EXT2FS v).
Proof. intros s s' f. unfold EXT2FS. destruct (fss s !! v_priv v); [by intros [= <- _]|done]. Qed.

Lemma geo_malloc : keeps geo malloc.
Proof. intros s s' b. unfold malloc. destruct (oom s); by intros [= <- _]. Qed.

Lemma geo_udiv a b : keeps geo (udiv a b).
Proof. unfold udiv. repeat keeps_step. Qed.

Lemma geo_umod a b : keeps geo (umod a b).
Proof. unfold umod. repeat keeps_step. Qed.

Lemma devs_write id buf lba cnt : keeps devs (block_write drv id buf lba cnt).
Proof.
  assert (forall wide fn prv n i, keeps (devs (D := D)) (Block.write_loop n i wide fn prv (u32 lba) buf)) as Hl.
  { intros wide fn prv. induction n as [|n IH]; intros i; cbn [Block.write_loop]; [apply keeps_ret|].
    apply keeps_bind; [apply keeps_deref|]. intros sec. apply keeps_bind; [|intros z; repeat (apply IH || keeps_step)].
    intros s s' a. unfold onhw. destruct (fn _ _ _ _); [by intros [= <- _]|done]. }
  unfold block_write, block_getdevid. repeat (apply Hl || keeps_step).
Qed.

Lemma devs_read id buf lba cnt : keeps devs (block_read drv id buf lba cnt).
Proof.
  assert (forall wide fn prv n i b, keeps (devs (D := D)) (Block.read_loop n i wide fn prv (u32 lba) b)) as Hl.
  { intros wide fn prv. induction n as [|n IH]; intros i b; cbn [Block.read_loop]; [apply keeps_ret|].
    apply keeps_bind; [apply keeps_deref|]. intros sec. apply keeps_bind; [|intros z; repeat (apply IH || keeps_step)].
    intros s s' a. unfold onhw. destruct (fn _ _ _ _); [by intros [= <- _]|done]. }
  unfold block_read, block_getdevid. repeat (apply Hl || keeps_step).
Qed.

Lemma geo_onblk {A} (m : M (blk D) A) : keeps devs m -> keeps geo (onblk m).
Proof.
  intros Hm s s' a. unfold onblk. destruct (m (blkl s)) as [b x|] eqn:E; [|done]. intros [= <- _].
  unfold geo. cbn. by rewrite (Hm _ _ _ E).
Qed.

Lemma geo_rdblk b out : keeps geo (rdblk drv v b out).
Proof. unfold rdblk. repeat (apply geo_fs || apply geo_onblk, devs_read || keeps_step). Qed.

Lemma geo_wrblk b bs : keeps geo (wrblk drv v b bs).
Proof. unfold wrblk. repeat (apply geo_fs || apply geo_onblk, devs_write || keeps_step). Qed.

Lemma geo_rdnew b : keeps geo (rdnew drv v b).
Proof. unfold rdnew, garbage. repeat (apply geo_fs || apply geo_rdblk || keeps_step). Qed.

(** Through the primitives. *)
Ltac geo_prim :=
  first [ simple apply geo_fs | simple apply geo_malloc | simple apply geo_udiv | simple apply geo_umod | simple apply geo_rdnew | simple apply geo_rdblk
        | simple apply geo_wrblk ].
Ltac geo_intro := lazymatch goal with |- forall _, _ => intro end.
Ltac geo_step := first [geo_prim | progress unfold checkb, garbage | keeps_step].

Lemma geo_zero b : keeps geo (zero_newblk drv v b).
Proof. unfold zero_newblk. repeat geo_step. Qed.

Lemma geo_modbmp b i op : keeps geo (modbmp drv v b i op).
Proof. unfold modbmp. repeat geo_step. Qed.

Lemma geo_inodeused ino : keeps geo (inodeused drv v ino).
Proof. unfold inodeused. repeat (simple apply geo_modbmp || geo_step). Qed.

Lemma geo_getino ino : keeps geo (getino drv v ino).
Proof. unfold getino. repeat (simple apply geo_inodeused || geo_step). Qed.

Lemma geo_flush_sbs : keeps geo (flush_sbs drv v).
Proof.
  assert (forall n i f, keeps geo (flush_sbs_loop drv n i v f)) as Hl.
  { induction n as [|n IH]; intros i f; cbn [flush_sbs_loop]; repeat (simple apply IH || geo_step). }
  unfold flush_sbs. repeat (simple apply Hl || geo_step).
Qed.

Lemma geo_flush_bgs : keeps geo (flush_bgs drv v).
Proof.
  assert (forall n b st f, keeps geo (flush_table drv n b st v f)) as Ht.
  { induction n as [|n IH]; intros b st f; cbn [flush_table]; repeat (simple apply IH || geo_step). }
  assert (forall n i f, keeps geo (flush_bgs_loop drv n i v f)) as Hl.
  { induction n as [|n IH]; intros i f; cbn [flush_bgs_loop]; repeat (simple apply IH || simple apply Ht || geo_step). }
  unfold flush_bgs. repeat (simple apply Hl || geo_step).
Qed.

Lemma geo_flush_inode ino n : keeps geo (flush_inode drv v ino n).
Proof. unfold flush_inode. repeat (simple apply geo_inodeused || geo_step). Qed.

(** Changing the counts of a group changes nothing else. *)
Lemma geo_count c (set : Z -> ext2_bg_t -> ext2_bg_t) (sbf : ext2_sb_t -> ext2_sb_t) s s' f g grp l :
  (forall z g, places (set z g) = places g) ->
  (forall b, (s_blocks_count (sbf b), s_inodes_per_group (sbf b), s_blocks_per_group (sbf b), s_first_data_block (sbf b))
           = (s_blocks_count b, s_inodes_per_group b, s_blocks_per_group b, s_first_data_block b)) ->
  fss s !! v_priv v = Some f -> aget (bgs f) grp = Some g -> aset (bgs f) grp (set c g) = Some l ->
  put_fs v (set_sb (sbf (sb (fsb f))) (set_bgs l f)) s = Done s' tt -> geo s' = geo s.
Proof.
  intros Hset Hsb Hf Hg Hl [= <-]. unfold geo. cbn [fss blkl set_fss]. rewrite lookup_insert_eq, Hf. f_equal. cbn.
  specialize (Hsb (sb (fsb f))). injection Hsb as H1 H2 H3 H4. f_equal. unfold fs_geo, fsblocks, ipg, bpg, first_data.
  cbn [set_sb set_bgs sb fsb nbgs bgtbln bgs blocksz spb ppb gpb isdyn s_inode_size s_feature_ro_compat].
  rewrite H1, H2, H3, H4. f_equal. apply aset_Some in Hl as [Hr ->].
  change (map places) with (fmap (M := list) places). rewrite list_fmap_insert, Hset. apply list_insert_id.
  apply aget_Some in Hg as [_ Hg]. by rewrite list_lookup_fmap, Hg.
Qed.

Lemma geo_count_blocks grp d : keeps geo (count_blocks v grp d).
Proof.
  intros s s' [] E. unfold count_blocks in E. apply bind_inv in E as (s1 & f & E1 & E).
  unfold EXT2FS in E1. destruct (fss s !! v_priv v) as [f'|] eqn:Hf; [|done]. injection E1 as <- <-.
  destruct (aget (bgs f') grp) as [g|] eqn:Hg; [|done]. rewrite bind_deref in E.
  destruct (aset _ _ _) as [l|] eqn:Hl; [|done]. rewrite bind_deref in E.
  by eapply (geo_count _ set_bg_blocks (set_free_blocks _)).
Qed.

Lemma geo_count_inodes grp d : keeps geo (count_inodes v grp d).
Proof.
  intros s s' [] E. unfold count_inodes in E. apply bind_inv in E as (s1 & f & E1 & E).
  unfold EXT2FS in E1. destruct (fss s !! v_priv v) as [f'|] eqn:Hf; [|done]. injection E1 as <- <-.
  destruct (aget (bgs f') grp) as [g|] eqn:Hg; [|done]. rewrite bind_deref in E.
  destruct (aset _ _ _) as [l|] eqn:Hl; [|done]. rewrite bind_deref in E.
  by eapply (geo_count _ set_bg_inodes (set_free_inodes _)).
Qed.

Lemma geo_read_indr b : keeps geo (read_indr drv v b).
Proof. unfold read_indr. repeat geo_step. Qed.

Lemma geo_getblkid n i : keeps geo (ino_getblkid drv v n i).
Proof. unfold ino_getblkid. repeat (simple apply geo_read_indr || geo_step). Qed.

Ltac geo_flush :=
  first [ simple apply geo_flush_bgs | simple apply geo_flush_sbs | simple apply geo_flush_inode | simple apply geo_count_blocks
        | simple apply geo_count_inodes | simple apply geo_modbmp | simple apply geo_zero | simple apply geo_read_indr | simple apply geo_getblkid
        | simple apply geo_getino | geo_step ].

Lemma geo_allocblk bg : keeps geo (allocblk drv v bg).
Proof.
  assert (forall n i, keeps geo (allocblk_loop drv n i bg v)) as Hl.
  { induction n as [|n IH]; intros i; cbn [allocblk_loop]; repeat (simple apply IH || geo_flush). }
  unfold allocblk. repeat (simple apply Hl || geo_flush).
Qed.

Lemma geo_freeblk b : keeps geo (freeblk drv v b).
Proof. unfold freeblk. repeat geo_flush. Qed.

Lemma geo_allocs ino bg :
  (forall n, keeps geo (alloc_direct drv v ino bg n)) /\ (forall n k, keeps geo (alloc_slot drv v ino bg n k)) /\
  (forall tb ws n, keeps geo (alloc_leaf drv v ino bg tb ws n)) /\
  (forall tb ws i n, keeps geo (alloc_mid drv v ino bg tb ws i n)).
Proof.
  unfold alloc_direct, alloc_slot, alloc_leaf, alloc_mid.
  split_and!; intros; repeat (simple apply geo_allocblk || geo_flush).
Qed.

Lemma geo_andthen (m : ME (option Z * ext2_ino_t)) k : keeps geo m -> (forall n, keeps geo (k n)) -> keeps geo (andthen m k).
Proof. intros Hm Hk. unfold andthen. apply keeps_bind; [done|]. intros [[r|] n]; [apply keeps_ret|apply Hk]. Qed.

Lemma geo_ino_allocblk ino n : keeps geo (ino_allocblk drv v ino n).
Proof.
  assert (forall cnt i bg tb ws n, keeps geo (alloc_double drv cnt i v ino bg tb ws n)) as Hd.
  { induction cnt as [|cnt IH]; intros i bg tb ws n0; cbn [alloc_double]; [apply keeps_ret|].
    repeat (simple apply geo_andthen || geo_intro || simple apply IH || apply geo_allocs || geo_flush). }
  assert (forall cnt i bg tb ws n, keeps geo (alloc_triple drv cnt i v ino bg tb ws n)) as Ht.
  { induction cnt as [|cnt IH]; intros i bg tb ws n0; cbn [alloc_triple]; [apply keeps_ret|].
    repeat (simple apply geo_andthen || geo_intro || simple apply IH || simple apply Hd || apply geo_allocs || geo_flush). }
  unfold ino_allocblk, through.
  repeat (simple apply geo_andthen || geo_intro || simple apply Hd || simple apply Ht || apply geo_allocs || geo_flush).
Qed.

Lemma geo_free_place tb ws k n up : (forall n, keeps geo (up n)) -> keeps geo (free_place drv v tb ws k n up).
Proof. intros Hup. unfold free_place. repeat (simple apply Hup || simple apply geo_freeblk || geo_flush). Qed.

Lemma geo_free_root k n : keeps geo (free_root drv v k n).
Proof. unfold free_root. repeat (simple apply geo_freeblk || geo_flush). Qed.

Lemma geo_ino_freeblk ino n i : keeps geo (ino_freeblk drv v ino n i).
Proof.
  unfold ino_freeblk, with_table, then_flush.
  repeat (simple apply geo_free_place || geo_intro || simple apply geo_free_root || geo_flush).
Qed.

Lemma geo_free_blocks : forall cnt i ino n, keeps geo (free_blocks drv cnt i v ino n).
Proof.
  induction cnt as [|cnt IH]; intros i ino n; cbn [free_blocks]; repeat (simple apply IH || simple apply geo_ino_freeblk || geo_flush).
Qed.

Lemma geo_mkino n : keeps geo (mkino_base drv v n).
Proof.
  assert (forall cnt grp, keeps geo (mkino_loop drv cnt grp v n)) as Hl.
  { induction cnt as [|cnt IH]; intros grp; cbn [mkino_loop]; repeat (simple apply IH || geo_flush). }
  unfold mkino_base. repeat (simple apply Hl || geo_flush).
Qed.

Lemma geo_nblocks f n : keeps geo (nblocks f n).
Proof. apply geo_udiv. Qed.

Lemma geo_getinodata n : keeps geo (getinodata drv v n).
Proof.
  assert (forall cnt b left acc, keeps geo (getinodata_loop drv cnt b left v n acc)) as Hl.
  { induction cnt as [|cnt IH]; intros b left acc; cbn [getinodata_loop]; repeat (simple apply IH || geo_flush). }
  unfold getinodata. repeat (simple apply Hl || geo_flush).
Qed.

Lemma geo_dirblk n b : keeps geo (dirblk drv v n b).
Proof. unfold dirblk. repeat geo_flush. Qed.

Lemma geo_links_up ino n : keeps geo (links_up drv v ino n).
Proof. unfold links_up. repeat geo_flush. Qed.

Lemma geo_rmlink dino name : keeps geo (ext2fs_rmlink drv v dino name).
Proof.
  assert (forall fuel f b bd pd i, keeps geo (rmlink_block drv fuel v f b bd pd i name)) as Hb.
  { induction fuel as [|fuel IH]; intros f b bd pd i; cbn [rmlink_block]; unfold remove_at;
      repeat (simple apply IH || geo_flush). }
  assert (forall cnt b n, keeps geo (rmlink_loop drv cnt b v n name)) as Hl.
  { induction cnt as [|cnt IH]; intros b n; cbn [rmlink_loop];
      repeat (simple apply IH || simple apply Hb || simple apply geo_dirblk || geo_flush). }
  unfold ext2fs_rmlink. repeat (simple apply Hl || simple apply geo_nblocks || geo_flush).
Qed.

Lemma geo_mklink ino mode dino name : keeps geo (ext2fs_mklink drv v ino mode dino name).
Proof.
  assert (forall fuel f ft nsz n g b bd i, keeps geo (mklink_block drv fuel v f ino ft nsz n name g b bd i)) as Hb.
  { induction fuel as [|fuel IH]; intros f ft nsz n g b bd i; cbn [mklink_block];
      repeat (simple apply IH || simple apply geo_links_up || geo_flush). }
  assert (forall cnt b ft nsz n dn g, keeps geo (mklink_loop drv cnt b v ino ft nsz n dn name g)) as Hl.
  { induction cnt as [|cnt IH]; intros b ft nsz n dn g; cbn [mklink_loop];
      repeat (simple apply IH || simple apply Hb || simple apply geo_dirblk || geo_flush). }
  unfold ext2fs_mklink, mklink_grow.
  repeat (simple apply Hl || simple apply geo_ino_allocblk || simple apply geo_links_up || simple apply geo_nblocks || geo_flush).
Qed.

Lemma geo_read ino off nb : keeps geo (ext2fs_read drv v ino off nb).
Proof.
  assert (forall fuel f n o k acc, keeps geo (read_loop drv fuel v f n o k acc)) as Hl.
  { induction fuel as [|fuel IH]; intros f n o k acc; cbn [read_loop]; repeat (simple apply IH || geo_flush). }
  unfold ext2fs_read. repeat (simple apply Hl || geo_flush).
Qed.

Lemma geo_write ino off buf : keeps geo (ext2fs_write drv v ino off buf).
Proof.
  assert (forall fuel f n o w, keeps geo (write_loop drv fuel v f ino n o buf w)) as Hl.
  { induction fuel as [|fuel IH]; intros f n o w; cbn [write_loop];
      repeat (simple apply IH || simple apply geo_ino_allocblk || geo_flush). }
  unfold ext2fs_write. repeat (simple apply Hl || geo_flush).
Qed.

Lemma geo_readdir dino prv namlen : keeps geo (ext2fs_readdir drv v dino prv namlen).
Proof.
  assert (forall fuel f bd i pos, keeps geo (readdir_block drv fuel v f bd i pos prv namlen)) as Hb.
  { induction fuel as [|fuel IH]; intros f bd i pos; cbn [readdir_block]; repeat (simple apply IH || geo_flush). }
  assert (forall cnt b pos n, keeps geo (readdir_loop drv cnt b pos v n prv namlen)) as Hl.
  { induction cnt as [|cnt IH]; intros b pos n; cbn [readdir_loop];
      repeat (simple apply IH || simple apply Hb || simple apply geo_dirblk || geo_flush). }
  unfold ext2fs_readdir. repeat (simple apply Hl || simple apply geo_nblocks || geo_flush).
Qed.

(** No call of the driver, on any device, working or failing, moves anything
    of a mounted file system: block size, groups, bitmaps and inode tables are
    where they were, on the device they were on. *)
Theorem ext2_geometry_kept :
  let ops := ext2_ops drv in
  (forall d nm, keeps geo (op_lookup ops v d nm)) /\ (forall d q l, keeps geo (op_readdir ops v d q l)) /\
  (forall m u g nm, keeps geo (op_symlink ops v m u g nm)) /\ (forall m u g r, keeps geo (op_mknod ops v m u g r)) /\
  (forall m u g, keeps geo (op_mkino ops v m u g)) /\ (forall i, keeps geo (op_rmino ops v i)) /\
  (forall i, keeps geo (op_getino ops v i)) /\ (forall i b, keeps geo (op_setino ops v i b)) /\
  (forall i m d nm, keeps geo (op_mklink ops v i m d nm)) /\ (forall d nm, keeps geo (op_rmlink ops v d nm)) /\
  (forall i, keeps geo (op_trunc ops v i)) /\ (forall i b l, keeps geo (op_readsym ops v i b l)) /\
  (forall i o k, keeps geo (op_read ops v i o k)) /\ (forall i o b, keeps geo (op_write ops v i o b)).
Proof.
  cbn [ext2_ops op_lookup op_readdir op_symlink op_mknod op_mkino op_rmino op_getino op_setino op_mklink op_rmlink
       op_trunc op_readsym op_read op_write].
  split_and!; intros; try first [simple apply geo_readdir|simple apply geo_mklink|simple apply geo_rmlink|simple apply geo_read|simple apply geo_write];
    unfold ext2fs_lookup, ext2fs_symlink, ext2fs_mknod, ext2fs_mkino, ext2fs_rmino, ext2fs_getino, ext2fs_setino,
      ext2fs_trunc, ext2fs_readsym;
    repeat (simple apply geo_mkino || simple apply geo_getinodata || simple apply geo_allocblk || simple apply geo_free_blocks
            || simple apply geo_nblocks || geo_flush).
Qed.

End geo.

(** ** Removing an inode *)

Section rmino.
Context {D : Type} (drv : drivers D) `{!sector_laws drv}.
Context (v : vfs_t) (t p : Z).
Notation B := (B drv t p).

(** A mounted instance on a device that is there. *)
Definition site (s : est D) (f : ext2fs_t) : Prop :=
  fss s !! v_priv v = Some f /\ attached (blkl s) (v_blkid v) t p /\ 0 < spb f /\ blocksz f = 512 * spb f /\
  0 <= fsblocks f /\ fsblocks f * spb f <= 2 ^ 32 /\ Forall (fun g => 0 <= bg_inode_bitmap g) (bgs f).

Lemma site_geo s s' f :
  geo v s' = geo v s -> site s f ->
  exists f', site s' f' /\ ipg f' = ipg f /\ fsblocks f' = fsblocks f /\ spb f' = spb f /\ map places (bgs f') = map places (bgs f).
Proof.
  unfold geo. intros [= Hf Hd] (E & Ha & H1 & H2 & H3 & H4 & H5). rewrite E in Hf. cbn in Hf.
  destruct (fss s' !! v_priv v) as [f'|] eqn:E'; [|done]. cbn in Hf. unfold fs_geo in Hf.
  injection Hf as Ec Ei _ _ _ _ Eb Es _ _ _ _ _ Ep.
  exists f'. split; [|done]. unfold site. rewrite Ec, Eb, Es. split_and!; try done.
  - destruct Ha as (dev & Hdev & Hrest). exists dev. by rewrite Hd.
  - apply Forall_lookup. intros i g Hg. assert (map places (bgs f) !! i = Some (places g)) as Hm.
    { rewrite <- Ep. change (map places) with (fmap (M := list) places). by rewrite list_lookup_fmap, Hg. }
    change (map places) with (fmap (M := list) places) in Hm. rewrite list_lookup_fmap in Hm.
    destruct (bgs f !! i) as [g'|] eqn:Hg'; [|done]. cbn in Hm. unfold places in Hm. injection Hm as _ Hm _.
    rewrite <- Hm. by apply (Forall_lookup_1 _ _ _ _ H5 Hg').
Qed.

Lemma fs_inv (s s' : est D) f : EXT2FS v s = Done s' f -> s' = s /\ fss s !! v_priv v = Some f.
Proof. unfold EXT2FS. destruct (fss s !! v_priv v) as [x|]; [by intros [= <- <-]|done]. Qed.

Lemma malloc_B (s s' : est D) ok sp b : malloc s = Done s' ok -> B sp s' b = B sp s b.
Proof. unfold malloc. destruct (oom s); by intros [= <- _]. Qed.

(** What a block read or written tells, when the device reports no failure. *)
Lemma rdnew_inv s f b s' r out :
  site s f -> 0 <= b < fsblocks f -> rdnew drv v b s = Done s' (r, out) ->
  site s' f /\ (forall b', B (spb f) s' b' = B (spb f) s b') /\ (r < 0 \/ out = B (spb f) s b).
Proof.
  intros (E & Ha & H1 & H2 & H3 & H4 & H5) Hb. unfold rdnew.
  intros (s1 & f' & [-> E']%fs_inv & Hx)%bind_inv. rewrite E in E'. injection E' as <-.
  unfold garbage in Hx. rewrite bind_gets in Hx. unfold rdblk in Hx.
  apply bind_inv in Hx as (s1 & f' & [-> E']%fs_inv & Hx). rewrite E in E'. injection E' as <-.
  rewrite (wrap_small 32 b) in Hx by nia. rewrite (proj2 (Z.leb_gt _ _)) in Hx by lia.
  apply bind_inv in Hx as (s1 & [r1 b1] & Hx & Hret). unfold onblk in Hx.
  destruct (block_read _ _ _ _ _ _) as [bl [r2 b2]|] eqn:Er; [|done]. injection Hx as <- <- <-.
  injection Hret as <- <- <-. rewrite (wrap_small 32 (b * spb f)) in Er by nia.
  rewrite <- (Z2Nat.id (spb f)) in Er at 2 by lia.
  apply (block_read_spec drv _ t p) in Er as (d & -> & Hs & _ & Hr); try done; try nia.
  2: { rewrite length_take, length_app, length_replicate. unfold SECSZ. lia. }
  split_and!.
  - done.
  - intros b'. unfold Ext2Facts.B. cbn [blkl hw set_hw]. apply run_ext. intros. apply Hs.
  - destruct (Z.ltb_spec r2 0) as [|Hp]; [by left|right]. by destruct (Hr Hp) as [_ ->].
Qed.

Lemma wrblk_inv s f b bs s' r :
  site s f -> 0 <= b < fsblocks f -> length bs = Z.to_nat (blocksz f) -> wrblk drv v b bs s = Done s' r ->
  site s' f /\ (r < 0 \/ B (spb f) s' b = bs).
Proof.
  intros (E & Ha & H1 & H2 & H3 & H4 & H5) Hb Hlen. unfold wrblk. rewrite (wrap_small 32 b) by nia.
  intros (s1 & f' & [-> E']%fs_inv & Hx)%bind_inv. rewrite E in E'. injection E' as <-.
  rewrite (proj2 (Z.leb_gt _ _)) in Hx by lia. apply bind_inv in Hx as (s1 & r1 & Hx & Hret). unfold onblk in Hx.
  destruct (block_write _ _ _ _ _ _) as [bl r2|] eqn:Er; [|done]. injection Hx as <- <-. injection Hret as <- <-.
  rewrite (wrap_small 32 (b * spb f)) in Er by nia. rewrite <- (Z2Nat.id (spb f)) in Er at 2 by lia.
  apply (block_write_spec drv _ t p) in Er as (d & -> & _ & Hr); try done; try nia; [|unfold SECSZ; lia].
  split; [done|]. destruct (Z.ltb_spec r2 0) as [|Hp]; [by left|right]. by destruct (Hr Hp) as [_ <-].
Qed.

Lemma site_malloc s s' ok f : malloc s = Done s' ok -> site s f -> site s' f.
Proof. unfold malloc, site. destruct (oom s); intros [= <- _]; done. Qed.

(** Clearing a bit, then reading it. *)
Lemma modbmp_inv s f b i op s' r :
  site s f -> 0 <= b -> 0 <= i -> modbmp drv v b i op s = Done s' r ->
  r < 0 \/ (site s' f /\ b < fsblocks f /\
           (op = BMP_CLR -> bit (B (spb f) s' b) i = false) /\
           (op = BMP_GET -> (r =? 0) = negb (bit (B (spb f) s b) i))).
Proof.
  intros Hs Hb0 Hi. pose proof Hs as (E & Ha & H1 & H2 & H3 & H4 & H5). unfold modbmp.
  intros (s1 & f' & [-> E']%fs_inv & Hx)%bind_inv. rewrite E in E'. injection E' as <-.
  destruct (Z.leb_spec (fsblocks f) b); [injection Hx as <- <-; left; unfold ERANGE; lia|].
  apply bind_inv in Hx as (s1 & ok & Em & Hx). pose proof (fun b => malloc_B _ _ _ (spb f) b Em) as HB1.
  apply (site_malloc _ _ _ _ Em) in Hs.
  destruct ok; cbn [negb] in Hx; [|injection Hx as <- <-; left; unfold ENOMEM; lia].
  unfold checkb in Hx. apply bind_inv in Hx as (s2 & [r2 bmp] & Er & Hx). cbn [fst snd] in Hx.
  apply rdnew_inv with (f := f) in Er as (Hs2 & HB2 & Hout); [|done|lia].
  destruct (Z.ltb_spec r2 0); [injection Hx as <- <-; by left|]. destruct Hout as [ | -> ]; [lia|].
  destruct (aget _ (i / 8)) as [y|] eqn:Ey; [|done]. rewrite bind_deref in Hx.
  assert (0 <= i mod 8 < 8) as Hm by (apply Z.mod_pos_bound; lia).
  destruct (op =? BMP_SET) eqn:Es.
  - destruct (aset _ _ _) as [bmp'|] eqn:Ea; [|done]. rewrite bind_deref in Hx. apply aset_length in Ea as Hl.
    apply wrblk_inv with (f := f) in Hx as [Hs3 [?|HB3]]; [by left| |done|lia|].
    2: { rewrite Hl, length_B by lia. f_equal. lia. }
    right. to_prop. subst op. split_and!; done.
  - destruct (op =? BMP_CLR) eqn:Ec.
    + destruct (aset _ _ _) as [bmp'|] eqn:Ea; [|done]. rewrite bind_deref in Hx. apply aset_length in Ea as Hl.
      apply wrblk_inv with (f := f) in Hx as [Hs3 [?|HB3]]; [by left| |done|lia|].
      2: { rewrite Hl, length_B by lia. f_equal. lia. }
      right. to_prop. subst op. split_and!; try done. intros _. unfold bit.
      rewrite HB3, (aget_aset_eq _ _ _ _ Ea). unfold wrap. rewrite Z.mod_pow2_bits_low by lia.
      rewrite Z.ldiff_spec, Z.shiftl_1_l, Z.pow2_bits_true by lia. apply andb_false_r.
    + destruct (op =? BMP_GET) eqn:Eg; [|injection Hx as <- <-; left; lia].
      injection Hx as <- <-. right. to_prop. subst op. split; [done|]. split; [lia|]. split; [done|].
      intros _. rewrite HB1 in Ey. by apply bit_byte.
Qed.

Lemma inodeused_inv s f ino g s' r :
  site s f -> 1 <= ino < 2 ^ 32 -> 0 < ipg f -> aget (bgs f) ((ino - 1) / ipg f) = Some g ->
  inodeused drv v ino s = Done s' r ->
  r < 0 \/ bit (B (spb f) s (bg_inode_bitmap g)) ((ino - 1) mod ipg f) = true \/ r = 0.
Proof.
  intros Hs Hino Hipg Hg. pose proof Hs as (E & Ha & H1 & H2 & H3 & H4 & H5). unfold inodeused.
  intros (s1 & f' & [-> E']%fs_inv & Hx)%bind_inv. rewrite E in E'. injection E' as <-.
  rewrite (wrap_small 32) in Hx by lia. rewrite bind_udiv in Hx by lia.
  destruct (nbgs f <=? _); [injection Hx as <- <-; left; unfold ERANGE; lia|].
  rewrite Hg, bind_deref in Hx.
  destruct (fsblocks f <=? _); [injection Hx as <- <-; left; unfold ERANGE; lia|].
  rewrite bind_umod in Hx by lia. apply bind_inv in Hx as (s1 & res & Em & Hx). injection Hx as <- <-.
  assert (0 <= bg_inode_bitmap g) as Hbm.
  { apply aget_Some in Hg as [_ Hg]. by apply (Forall_lookup_1 _ _ _ _ H5 Hg). }
  apply modbmp_inv with (f := f) in Em as [Hr|(_ & _ & _ & Hget)]; [| |done|done|apply Z.mod_pos_bound; lia].
  - left. by rewrite (proj2 (Z.ltb_lt _ _) Hr).
  - specialize (Hget eq_refl). destruct (Z.ltb_spec res 0); [by left|right].
    destruct (res =? 0); [by right|left]. by destruct (bit _ _).
Qed.

(** An inode whose bit is clear is not stored. *)
Lemma flush_unused s f ino g n s' r :
  site s f -> 1 <= ino < 2 ^ 32 -> 0 < ipg f -> aget (bgs f) ((ino - 1) / ipg f) = Some g ->
  bit (B (spb f) s (bg_inode_bitmap g)) ((ino - 1) mod ipg f) = false ->
  flush_inode drv v ino n s = Done s' r -> r < 0.
Proof.
  intros Hs Hino Hipg Hg Hbit. pose proof Hs as (E & _). unfold flush_inode.
  rewrite (proj2 (Z.eqb_neq _ _)) by lia. intros (s1 & f' & [-> E']%fs_inv & Hx)%bind_inv.
  rewrite (wrap_small 32 ino) in Hx by lia. apply bind_inv in Hx as (s1 & u & Eu & Hx).
  apply (inodeused_inv _ _ _ _ _ _ Hs Hino Hipg Hg) in Eu as [Hu|[Hu|Hu]]; [|congruence|].
  - rewrite (proj2 (Z.ltb_lt _ _) Hu) in Hx. by injection Hx as _ <-.
  - subst u. cbn in Hx. injection Hx as _ <-. unfold ENOENT. lia.
Qed.

Lemma geo_lookup f f' i g :
  map places (bgs f') = map places (bgs f) -> aget (bgs f) i = Some g ->
  exists g', aget (bgs f') i = Some g' /\ places g' = places g.
Proof.
  intros E [Hi Hg]%aget_Some. assert (map places (bgs f') !! Z.to_nat i = Some (places g)) as Hm.
  { rewrite E. change (map places) with (fmap (M := list) places). by rewrite list_lookup_fmap, Hg. }
  change (map places) with (fmap (M := list) places) in Hm. rewrite list_lookup_fmap in Hm.
  destruct (bgs f' !! Z.to_nat i) as [g'|] eqn:Hg'; [|done]. apply (inj Some) in Hm.
  exists g'. split; [apply aget_Some; by split|done].
Qed.

(** Removing an inode never reports success, on any device: its bit is
    cleared first, and storing the zeroed inode then fails because the inode is
    no longer in use; the descriptors and the super block are never written. *)
Theorem rmino_never_succeeds s f ino s' r :
  site s f -> 0 < ipg f -> 1 <= ino < 2 ^ 32 -> ext2fs_rmino drv v ino s = Done s' r -> r < 0.
Proof.
  intros Hs Hipg Hino. unfold ext2fs_rmino. intros (s1 & f1 & [-> E1]%fs_inv & Hx)%bind_inv.
  unfold checkb in Hx. apply bind_inv in Hx as (s2 & [r2 n] & E2 & Hx). cbn [fst snd] in Hx.
  destruct (Z.ltb_spec r2 0); [by injection Hx as _ <-|].
  apply bind_inv in Hx as (s3 & nb & E3 & Hx). apply bind_inv in Hx as (s4 & r4 & E4 & Hx).
  destruct (Z.ltb_spec r4 0); [by injection Hx as _ <-|].
  apply (geo_getino drv v) in E2. apply (geo_nblocks v) in E3. apply (geo_free_blocks drv v) in E4.
  assert (geo v s4 = geo v s) as Hg by congruence. destruct (site_geo _ _ _ Hg Hs) as (f4 & Hs4 & Ei & _ & _ & Ep).
  apply bind_inv in Hx as (s5 & f5 & [-> E5]%fs_inv & Hx). pose proof Hs4 as (E5' & _). rewrite E5 in E5'. injection E5' as ->.
  rewrite (wrap_small 32) in Hx by lia. rewrite bind_udiv in Hx by lia.
  destruct (aget (bgs f4) ((ino - 1) / ipg f4)) as [g|] eqn:Eg; [|done]. rewrite bind_deref in Hx.
  apply bind_inv in Hx as (s6 & [] & E6 & Hx). apply (geo_count_inodes v) in E6.
  destruct (site_geo _ _ _ E6 Hs4) as (f6 & Hs6 & Ei6 & _ & _ & Ep6).
  destruct (geo_lookup f4 f6 _ g Ep6 Eg) as (g6 & Eg6 & Epl). unfold places in Epl. injection Epl as _ Ebm _.
  rewrite bind_umod in Hx by lia. apply bind_inv in Hx as (s7 & r7 & E7 & Hx).
  destruct (Z.ltb_spec r7 0); [by injection Hx as _ <-|].
  apply modbmp_inv with (f := f6) in E7 as [?|(Hs7 & _ & Hclr & _)]; [lia| |done| |apply Z.mod_pos_bound; lia].
  2: { rewrite <- Ebm. destruct Hs6 as (_ & _ & _ & _ & _ & _ & H5). apply aget_Some in Eg6 as [_ Eg6].
       by apply (Forall_lookup_1 _ _ _ _ H5 Eg6). }
  apply bind_inv in Hx as (s8 & r8 & E8 & Hx).
  eapply flush_unused in E8; [|exact Hs7|lia|lia|rewrite Ei6; exact Eg6|rewrite Ei6, Ebm; by apply Hclr].
  rewrite (proj2 (Z.ltb_lt _ _) E8) in Hx. by injection Hx as _ <-.
Qed.

End rmino.

End Ext2Geo.
