(* ===== verification/Ext2Data.v ===== *)
(** Reading and writing ext2 files: the data path of [Ext2] on a disk that
    works, for the part of a file whose blocks are allocated.

    [mapped] says where the blocks of a file are; [fbyte] is the file's content
    byte by byte.  Writing changes exactly the bytes of the range, reading
    returns them, through direct and indirect blocks alike. *)
From S2P Require Import Prelude CString VfsOps Block Ext2 Ext2Facts.

Module Ext2Data.
Import CString VfsOps Block Ext2 Ext2Facts.

Section data.
Context {D : Type} (drv : drivers D) `{!sector_laws drv, !reliable drv}.
Context (v : vfs_t) (t p : Z).
Notation B := (B drv t p).
Notation ready := (ready v t p).
Notation changed := (changed drv t p).
Notation find_ptr := (find_ptr drv t p).

(** Blocks [lo .. hi) of the file with inode [n] are the disk blocks [m lo], ...:
    distinct, and none of them a table on the way to one of them. *)
Record mapped (s : est D) (f : ext2fs_t) (n : ext2_ino_t) (lo hi : Z) (m : Z -> Z) : Prop := mk_mapped {
  m_ptr i : lo <= i < hi ->
    exists path, find_ptr s f n i = Some (path, m i) /\ Forall (on_disk f) path /\
      forall j, lo <= j < hi -> m j ∉ path;
  m_disk i : lo <= i < hi -> 0 < m i < fsblocks f /\ m i < 2 ^ 31;
  m_inj i j : lo <= i < hi -> lo <= j < hi -> m i = m j -> i = j
}.

(** The blocks of the file. *)
Definition data_of (lo hi : Z) (m : Z -> Z) (b : Z) : Prop := exists i, lo <= i < hi /\ b = m i.

Definition fbyte (s : est D) (f : ext2fs_t) (m : Z -> Z) (q : Z) : option Z :=
  B (spb f) s (m (q / blocksz f)) !! Z.to_nat (q mod blocksz f).

Lemma mapped_changed s s' f n lo hi m :
  changed (spb f) (data_of lo hi m) s s' -> mapped s f n lo hi m -> mapped s' f n lo hi m.
Proof.
  intros Hc [H1 H2 H3]. split; [|done|done]. intros i Hi. destruct (H1 i Hi) as (path & Hp & Hd & Hni).
  exists path. split; [|done]. eapply find_ptr_changed; [done|done|]. rewrite Forall_forall in Hd |- *.
  intros b Hb. split; [by apply Hd|]. intros (j & Hj & ->). by apply (Hni j).
Qed.

Lemma mapped_getblkid s f n lo hi m i :
  ready s f -> mapped s f n lo hi m -> lo <= i < hi -> ino_getblkid drv v n i s = Done s (m i).
Proof.
  intros Hr [H1 H2 _] Hi. destruct (H1 i Hi) as (path & Hp & Hd & _). specialize (H2 i Hi).
  rewrite (getblkid_ok drv v t p s f n i path (m i)) by done. f_equal. unfold sext.
  rewrite Z.mod_small by lia. by rewrite (proj2 (Z.ltb_lt _ _)) by lia.
Qed.

(** Where a position is: its block and the offset in it. *)
Lemma pos_split f q : 0 < blocksz f -> q = blocksz f * (q / blocksz f) + q mod blocksz f /\ 0 <= q mod blocksz f < blocksz f.
Proof. intros H. split; [apply Z.div_mod; lia|by apply Z.mod_pos_bound]. Qed.

Lemma pos_block f q lo hi :
  0 < blocksz f -> lo * blocksz f <= q < hi * blocksz f -> lo <= q / blocksz f < hi.
Proof. intros Hb Hq. split; [apply Z.div_le_lower_bound; lia|apply Z.div_lt_upper_bound; lia]. Qed.

(** One step of a transfer stays within a block: positions [pos .. pos + k). *)
Lemma pos_near f pos k q :
  0 < blocksz f -> k <= blocksz f - pos mod blocksz f -> pos <= q < pos + k ->
  q / blocksz f = pos / blocksz f /\ q mod blocksz f = pos mod blocksz f + (q - pos).
Proof.
  intros Hb Hk Hq. destruct (pos_split f pos Hb) as [E1 H1].
  assert (q = blocksz f * (pos / blocksz f) + (pos mod blocksz f + (q - pos))) as E by lia.
  split; [symmetry; eapply Z.div_unique; [|exact E]; lia|symmetry; eapply Z.mod_unique; [|exact E]; lia].
Qed.

Lemma pos_next f pos k :
  0 < blocksz f -> k = blocksz f - pos mod blocksz f -> (pos + k) mod blocksz f = 0.
Proof.
  intros Hb ->. destruct (pos_split f pos Hb) as [E1 H1].
  replace (pos + (blocksz f - pos mod blocksz f)) with ((pos / blocksz f + 1) * blocksz f) by lia.
  apply Z.mod_mul. lia.
Qed.

(** Writing a chunk into one block, byte by byte. *)
Lemma fbyte_write s s' f lo hi m n pos chunk q :
  ready s f -> mapped s f n lo hi m -> lo * blocksz f <= pos < hi * blocksz f -> lo * blocksz f <= q < hi * blocksz f ->
  Z.of_nat (length chunk) <= blocksz f - pos mod blocksz f ->
  changed (spb f) (eq (m (pos / blocksz f))) s s' ->
  B (spb f) s' (m (pos / blocksz f))
    = splice (B (spb f) s (m (pos / blocksz f))) chunk (Z.to_nat (pos mod blocksz f)) ->
  fbyte s' f m q = if decide (pos <= q < pos + Z.of_nat (length chunk)) then chunk !! Z.to_nat (q - pos) else fbyte s f m q.
Proof.
  intros Hr Hm Hpos Hq Hlen [_ Hc] HB. pose proof (r_bsz _ _ _ _ _ Hr) as Hbs. pose proof (r_spb _ _ _ _ _ Hr) as Hsp.
  assert (0 < blocksz f) as Hb by lia. destruct (pos_split f pos Hb) as [E1 H1]. destruct (pos_split f q Hb) as [E2 H2].
  assert (length (B (spb f) s (m (pos / blocksz f))) = Z.to_nat (blocksz f)) as HL by (rewrite length_B by lia; f_equal; lia).
  unfold fbyte. case_decide as Hin.
  - destruct (pos_near f pos (Z.of_nat (length chunk)) q Hb Hlen Hin) as [-> ->]. rewrite HB. unfold splice.
    rewrite lookup_app_r by (rewrite length_take; lia). rewrite length_take, lookup_app_l by lia. f_equal. lia.
  - destruct (decide (q / blocksz f = pos / blocksz f)) as [E|E].
    + rewrite E, HB. unfold splice. rewrite E in E2.
      destruct (Z.lt_ge_cases q pos).
      * rewrite lookup_app_l by (rewrite length_take; lia). by rewrite lookup_take_lt by lia.
      * rewrite app_assoc, lookup_app_r by (rewrite length_app, length_take; lia).
        rewrite lookup_drop, length_app, length_take. f_equal. lia.
    + pose proof (pos_block f q lo hi Hb Hq). pose proof (pos_block f pos lo hi Hb Hpos).
      rewrite Hc; [done| |]; [pose proof (m_disk _ _ _ _ _ _ Hm (q / blocksz f) ltac:(done)); lia|].
      intros Heq. apply E. symmetry. by apply (m_inj _ _ _ _ _ _ Hm).
Qed.

Lemma data_weaken f lo hi m pos s s' :
  0 < blocksz f -> lo * blocksz f <= pos < hi * blocksz f ->
  changed (spb f) (eq (m (pos / blocksz f))) s s' -> changed (spb f) (data_of lo hi m) s s'.
Proof.
  intros Hb Hpos. apply changed_weaken. intros b <-. exists (pos / blocksz f). split; [by apply pos_block|done].
Qed.

(** One block of a write. *)
Lemma write_step fuel f ino n off (buf : list Z) w lo hi m s :
  let nb := Z.of_nat (length buf) in
  let pos := off + w in
  let k := Z.min (blocksz f - pos mod blocksz f) (nb - w) in
  ready s f -> mapped s f n lo hi m -> 0 <= w < nb -> 0 <= pos < 2 ^ 63 ->
  lo * blocksz f <= pos < hi * blocksz f ->
  exists s1, Ext2.write_loop drv (S fuel) v f ino n off buf w s = Ext2.write_loop drv fuel v f ino n off buf (w + k) s1 /\
    changed (spb f) (data_of lo hi m) s s1 /\
    forall q, lo * blocksz f <= q < hi * blocksz f ->
      fbyte s1 f m q = if decide (pos <= q < pos + k) then buf !! Z.to_nat (q - off) else fbyte s f m q.
Proof.
  intros nb pos k Hr Hm Hw Hpos Hin. pose proof (r_bsz _ _ _ _ _ Hr) as Hbs. pose proof (r_spb _ _ _ _ _ Hr) as Hsp.
  assert (0 < blocksz f) as Hb by lia. destruct (pos_split f pos Hb) as [E1 H1].
  pose proof (pos_block f pos lo hi Hb Hin) as Hblk.
  pose proof (m_disk _ _ _ _ _ _ Hm _ Hblk) as [Hdisk _].
  set (chunk := take (Z.to_nat k) (drop (Z.to_nat w) buf)).
  assert (Z.of_nat (length chunk) = k) as Hck by (unfold chunk; rewrite length_take, length_drop; lia).
  set (bb := m (pos / blocksz f)) in *.
  assert (length (B (spb f) s bb) = Z.to_nat (blocksz f)) as HL by (rewrite length_B by lia; f_equal; lia).
  destruct (wrblk_ok drv v t p s f bb (splice (B (spb f) s bb) chunk (Z.to_nat (pos mod blocksz f)))) as (s1 & E & Hc & HB);
    [done|lia|rewrite length_splice by lia; lia|].
  exists s1. split_and!.
  - cbn [Ext2.write_loop]. fold nb. rewrite (proj2 (Z.ltb_lt _ _)) by lia. cbn [negb].
    fold pos. rewrite (wrap_small 64 pos) by lia. rewrite bind_udiv by lia.
    rewrite (bind_done _ _ _ _ _ (mapped_getblkid s f n lo hi m _ Hr Hm Hblk)). fold bb.
    rewrite (proj2 (Z.ltb_ge _ _)), (proj2 (Z.eqb_neq _ _)) by lia.
    erewrite bind_done; [|rewrite (bind_rdnew drv v t p s f) by (done || lia); reflexivity].
    cbn [fst snd Z.ltb Z.compare]. fold k chunk. rewrite into_ok, bind_deref by lia.
    by rewrite (bind_done _ _ _ _ _ E).
  - by eapply data_weaken.
  - intros q Hq. erewrite fbyte_write; [|done|done|exact Hin|done| |exact Hc|exact HB]; [|lia].
    rewrite Hck. case_decide; [|done]. unfold chunk. rewrite lookup_take_lt, lookup_drop by lia. f_equal. lia.
Qed.

Lemma write_loop_ok f ino n off (buf : list Z) lo hi m :
  let nb := Z.of_nat (length buf) in
  0 <= off -> off + nb < 2 ^ 63 -> lo * blocksz f <= off -> off + nb <= hi * blocksz f ->
  forall fuel w s, ready s f -> mapped s f n lo hi m -> 0 <= w <= nb ->
  (w < nb -> (off + w) mod blocksz f + (nb - w) <= Z.of_nat fuel * blocksz f) ->
  exists s', Ext2.write_loop drv fuel v f ino n off buf w s = Done s' (nb, 0, n) /\
    changed (spb f) (data_of lo hi m) s s' /\
    forall q, lo * blocksz f <= q < hi * blocksz f ->
      fbyte s' f m q = if decide (off + w <= q < off + nb) then buf !! Z.to_nat (q - off) else fbyte s f m q.
Proof.
  intros nb Hoff Hmax Hlo Hhi. induction fuel as [|fuel IH]; intros w s Hr Hm Hw Hfuel;
    (destruct (decide (w = nb)) as [->|Hne];
      [exists s; split; [cbn [Ext2.write_loop]; fold nb; by rewrite (proj2 (Z.ltb_ge _ _)) by lia|];
       split; [apply changed_refl|intros q Hq; rewrite decide_False by lia; done]|]).
  { pose proof (r_bsz _ _ _ _ _ Hr). pose proof (r_spb _ _ _ _ _ Hr).
    destruct (pos_split f (off + w)); lia. }
  pose proof (r_bsz _ _ _ _ _ Hr) as Hbs. pose proof (r_spb _ _ _ _ _ Hr) as Hsp. assert (0 < blocksz f) as Hb by lia.
  destruct (pos_split f (off + w) Hb) as [E1 H1].
  destruct (write_step fuel f ino n off buf w lo hi m s Hr Hm) as (s1 & E & Hc & Hq); fold nb; try lia.
  fold nb in E, Hq. set (k := Z.min _ _) in *.
  destruct (IH (w + k) s1) as (s' & E' & Hc' & Hq').
  - by eapply ready_changed.
  - by eapply mapped_changed.
  - lia.
  - intros Hlt. rewrite Z.add_assoc, (pos_next f) by (done || lia). specialize (Hfuel ltac:(lia)). lia.
  - exists s'. split; [by rewrite E|]. split; [by eapply changed_trans|]. intros q Hr'. rewrite Hq', Hq by done.
    repeat case_decide; (done || lia).
Qed.

Lemma read_loop_ok s f n off nb lo hi m :
  ready s f -> mapped s f n lo hi m ->
  0 <= off -> off + nb < 2 ^ 63 -> lo * blocksz f <= off -> off + nb <= hi * blocksz f ->
  forall fuel acc, Z.of_nat (length acc) <= nb ->
  (Z.of_nat (length acc) < nb ->
     (off + Z.of_nat (length acc)) mod blocksz f + (nb - Z.of_nat (length acc)) <= Z.of_nat fuel * blocksz f) ->
  exists out, Ext2.read_loop drv fuel v f n off nb acc s = Done s (nb, acc ++ out) /\
    Z.of_nat (length (acc ++ out)) = nb /\
    forall j, (length acc <= j)%nat -> Z.of_nat j < nb -> (acc ++ out) !! j = fbyte s f m (off + Z.of_nat j).
Proof.
  intros Hr Hm Hoff Hmax Hlo Hhi. pose proof (r_bsz _ _ _ _ _ Hr) as Hbs. pose proof (r_spb _ _ _ _ _ Hr) as Hsp.
  assert (0 < blocksz f) as Hb by lia.
  induction fuel as [|fuel IH]; intros acc Hacc Hfuel;
    (destruct (decide (Z.of_nat (length acc) = nb)) as [Heq|Hne];
      [exists []; rewrite app_nil_r; cbn [Ext2.read_loop]; rewrite (proj2 (Z.ltb_ge _ _)) by lia; cbn [negb];
       split; [by rewrite Heq|]; split; [done|lia]|]).
  { destruct (pos_split f (off + Z.of_nat (length acc))); lia. }
  set (r := Z.of_nat (length acc)) in *. set (pos := off + r) in *. destruct (pos_split f pos Hb) as [E1 H1].
  assert (lo * blocksz f <= pos < hi * blocksz f) as Hin by lia.
  pose proof (pos_block f pos lo hi Hb Hin) as Hblk. pose proof (m_disk _ _ _ _ _ _ Hm _ Hblk) as [Hdisk _].
  set (k := Z.min (blocksz f - pos mod blocksz f) (nb - r)).
  set (bb := m (pos / blocksz f)) in *.
  assert (length (B (spb f) s bb) = Z.to_nat (blocksz f)) as HL by (rewrite length_B by lia; f_equal; lia).
  set (chunk := take (Z.to_nat k) (drop (Z.to_nat (pos mod blocksz f)) (B (spb f) s bb))).
  assert (Z.of_nat (length chunk) = k) as Hck by (unfold chunk; rewrite length_take, length_drop; lia).
  assert (Z.of_nat (length (acc ++ chunk)) = r + k) as Hlen by (rewrite length_app; lia).
  destruct (IH (acc ++ chunk)) as (out & E & Hl & Hj).
  - lia.
  - rewrite Hlen. intros Hlt. rewrite Z.add_assoc. fold pos. rewrite (pos_next f) by (done || lia).
    specialize (Hfuel ltac:(lia)). lia.
  - exists (chunk ++ out). rewrite app_assoc. split_and!; [|done|].
    + cbn [Ext2.read_loop]. fold r. rewrite (proj2 (Z.ltb_lt _ _)) by lia. cbn [negb]. fold pos.
      rewrite (wrap_small 64 pos) by lia. rewrite bind_udiv by lia.
      rewrite (bind_done _ _ _ _ _ (mapped_getblkid s f n lo hi m _ Hr Hm Hblk)). fold bb.
      rewrite (proj2 (Z.ltb_ge _ _)), (proj2 (Z.eqb_neq _ _)) by lia.
      rewrite (bind_malloc v t p s f) by done. cbn [negb].
      rewrite (bind_rdnew drv v t p s f) by (done || lia). cbn [fst snd Z.ltb Z.compare]. fold k chunk. done.
    + intros j Hj1 Hj2. destruct (Nat.lt_ge_cases j (length (acc ++ chunk))) as [Hlt|Hge]; [|by apply Hj].
      rewrite lookup_app_l, lookup_app_r by lia. rewrite length_app in Hlt. unfold fbyte.
      destruct (pos_near f pos k (off + Z.of_nat j)) as [-> ->]; [done|lia|lia|]. fold bb.
      unfold chunk. rewrite lookup_take_lt, lookup_drop by lia. f_equal. lia.
Qed.

(** *** Sizes *)

Lemma regular_not_dir mode : S_TYPE mode = S_IFREG -> (Z.land mode S_IFDIR =? 0) = true.
Proof.
  intros H. apply Z.eqb_eq. change S_IFDIR with (Z.land 0xF000 0x4000).
  rewrite Z.land_assoc. unfold S_TYPE in H. by rewrite H.
Qed.

Lemma getisize_new f size n :
  S_TYPE (i_mode n) = S_IFREG -> 0 <= size < 2 ^ 32 -> getisize f (new_size f size n) = size.
Proof.
  intros Hreg Hs. unfold getisize, new_size. cbn [i_mode i_size i_dir_acl set_i_size].
  rewrite Hreg, (regular_not_dir _ Hreg), (wrap_small 32 size) by done. cbn [negb].
  destruct (isdyn f && _); [|done]. cbn [andb negb Z.eqb S_IFREG S_IFDIR Pos.eqb].
  rewrite Z.shiftr_div_pow2, (Z.div_small size) by lia. done.
Qed.

Lemma new_size_ok f size n : 0 <= i_dir_acl n < 2 ^ 32 -> ino_ok n -> ino_ok (new_size f size n).
Proof.
  intros Ha Hn. apply ino_ok_size; [apply (wrap_range 32); lia| |done].
  destruct (isdyn f && _ && _); [apply (wrap_range 32); lia|done].
Qed.

Lemma ino_ok_acl n : ino_ok n -> 0 <= i_dir_acl n < 2 ^ 32 /\ 0 <= i_size n.
Proof.
  intros (H1 & _ & H & _). unfold ino_fields2 in H. cbn [replicate] in H. rewrite !Forall2_cons in H.
  destruct H as (_ & _ & H & _). unfold ino_widths1, ino_fields1 in H1. rewrite !Forall2_cons in H1.
  destruct H1 as (_ & _ & H1 & _). split; [apply H|apply H1].
Qed.

(** A regular file in use: inode [ino] with content [n], in group [g]. *)
Record file_at (s : est D) (f : ext2fs_t) (ino : Z) (g : ext2_bg_t) (n : ext2_ino_t) : Prop := mk_file_at {
  fa_at : inode_at drv t p s f ino g n;
  fa_reg : S_TYPE (i_mode n) = S_IFREG
}.

(** The inode and its bitmap are kept apart from the data and the tables. *)
Record kept_apart (s : est D) (f : ext2fs_t) (ino : Z) (g : ext2_bg_t) (n : ext2_ino_t) (lo hi : Z) (m : Z -> Z)
  : Prop := mk_apart {
  ka_ino i : lo <= i < hi -> m i <> iblk f g ino;
  ka_bmp i : lo <= i < hi -> m i <> bg_inode_bitmap g;
  ka_tbl i path w : lo <= i < hi -> find_ptr s f n i = Some (path, w) -> iblk f g ino ∉ path;
  ka_ne : iblk f g ino <> bg_inode_bitmap g
}.

(** The data blocks change: the inode is still there. *)
Lemma file_at_data s s' f ino g n lo hi m :
  ready s f -> changed (spb f) (data_of lo hi m) s s' -> kept_apart s f ino g n lo hi m ->
  file_at s f ino g n -> file_at s' f ino g n.
Proof.
  intros Hr Hc [H1 H2 _ _] [Hat Hreg]. split; [|done]. eapply inode_at_frame; [done|done| | |done].
  - intros (i & Hi & E). by apply (H1 i).
  - intros (i & Hi & E). by apply (H2 i).
Qed.

Lemma find_ptr_inode s f n n' idx : i_block n' = i_block n -> find_ptr s f n' idx = find_ptr s f n idx.
Proof. intros E. unfold Ext2Facts.find_ptr. by rewrite E. Qed.

(** Flushing the inode leaves the data where it is. *)
Lemma mapped_flush s s' f ino g n n' lo hi m :
  i_block n' = i_block n -> changed (spb f) (eq (iblk f g ino)) s s' -> kept_apart s f ino g n lo hi m ->
  mapped s f n lo hi m ->
  mapped s' f n' lo hi m /\ forall q, 0 < blocksz f -> lo * blocksz f <= q < hi * blocksz f -> fbyte s' f m q = fbyte s f m q.
Proof.
  intros Eb Hc [H1 H2 H3 H4] Hm. split.
  - destruct Hm as [M1 M2 M3]. split; [|done|done]. intros i Hi. destruct (M1 i Hi) as (path & Hp & Hd & Hni).
    exists path. split; [|done]. rewrite (find_ptr_inode _ _ n) by done.
    eapply find_ptr_changed; [done|done|]. rewrite Forall_forall in Hd |- *. intros b Hb.
    split; [by apply Hd|]. intros <-. by apply (H3 i path (m i)).
  - intros q Hb Hq. unfold fbyte. pose proof (pos_block f q lo hi Hb Hq) as Hi. destruct Hc as [_ Hc].
    pose proof (m_disk _ _ _ _ _ _ Hm _ Hi). rewrite Hc; [done|lia|]. intros E. by apply (H1 (q / blocksz f)).
Qed.

Lemma data_fuel_enough f off nb :
  0 < blocksz f -> 0 <= nb -> off mod blocksz f + nb <= Z.of_nat (data_fuel f nb) * blocksz f.
Proof.
  intros Hb Hnb. unfold data_fuel. destruct (pos_split f nb Hb) as [E H]. destruct (pos_split f off Hb) as [_ H'].
  assert (0 <= nb / blocksz f) by (apply Z.div_pos; lia). rewrite Nat2Z.inj_add, Z2Nat.id by done. nia.
Qed.

Lemma write_ok s f ino g n off (buf : list Z) lo hi m :
  let nb := Z.of_nat (length buf) in
  let n' := new_size f (Z.max (getisize f n) (off + nb)) n in
  ready s f -> file_at s f ino g n -> mapped s f n lo hi m -> kept_apart s f ino g n lo hi m ->
  0 <= off -> off + nb < 2 ^ 32 -> lo * blocksz f <= off -> off + nb <= hi * blocksz f ->
  exists s1 s', ext2fs_write drv v ino off buf s = Done s' nb /\ ready s1 f /\ ready s' f /\
    file_at s1 f ino g n /\ file_at s' f ino g n' /\ mapped s1 f n lo hi m /\ mapped s' f n' lo hi m /\
    changed (spb f) (data_of lo hi m) s s1 /\ changed (spb f) (eq (iblk f g ino)) s1 s' /\
    B (spb f) s' (iblk f g ino) = splice (B (spb f) s1 (iblk f g ino)) (enc_ino n') (Z.to_nat (ioff f ino)) /\
    forall q, lo * blocksz f <= q < hi * blocksz f ->
      fbyte s' f m q = if decide (off <= q < off + nb) then buf !! Z.to_nat (q - off) else fbyte s f m q.
Proof.
  intros nb n' Hr Hf Hm Hk Hoff Hmax Hlo Hhi. pose proof (r_bsz _ _ _ _ _ Hr). pose proof (r_spb _ _ _ _ _ Hr).
  assert (0 < blocksz f) as Hb by lia.
  destruct (write_loop_ok f ino n off buf lo hi m Hoff ltac:(lia) Hlo Hhi (data_fuel f nb) 0 s Hr Hm)
    as (s1 & E1 & Hc1 & Hq1); [lia| |].
  { intros _. rewrite Z.add_0_r, Z.sub_0_r. apply data_fuel_enough; lia. }
  pose proof (ready_changed drv v t p _ _ _ _ _ Hc1 Hr) as Hr1. pose proof (file_at_data _ _ _ _ _ _ _ _ _ Hr Hc1 Hk Hf) as Hf1.
  pose proof (ia_ok _ _ _ _ _ _ _ _ (fa_at _ _ _ _ _ Hf)) as Hok.
  destruct (flush_at drv v t p s1 f ino g n n' Hr1 (fa_at _ _ _ _ _ Hf1)) as (s2 & E2 & Hc2 & HB2 & Hat2);
    [by apply new_size_ok; [apply ino_ok_acl|]|apply Hk|].
  assert (kept_apart s1 f ino g n lo hi m) as Hk1.
  { destruct Hk as [K1 K2 K3 K4]. split; [done|done| |done]. intros i path w Hi Hp. apply (K3 i path w Hi).
    destruct (m_ptr _ _ _ _ _ _ Hm i Hi) as (path' & Hp' & Hd & Hni).
    rewrite (find_ptr_changed drv t p _ _ _ _ _ _ _ _ Hc1 Hp') in Hp; [congruence|].
    rewrite Forall_forall in Hd |- *. intros b Hin. split; [by apply Hd|]. intros (j & Hj & ->). by apply (Hni j). }
  pose proof (mapped_changed _ _ _ _ _ _ _ Hc1 Hm) as Hm1.
  destruct (mapped_flush s1 s2 f ino g n n' lo hi m eq_refl Hc2 Hk1 Hm1) as [Hm2 Hq2].
  exists s1, s2. split_and!; try done.
  - unfold ext2fs_write. rewrite (bind_fs v t p s f) by done. unfold checkb.
    rewrite (bind_done _ _ _ _ _ (getino_at drv v t p s f ino g n Hr (fa_at _ _ _ _ _ Hf))). cbn [fst snd Z.ltb Z.compare]. fold nb.
    rewrite (bind_done _ _ _ _ _ E1). cbv beta iota zeta. fold nb. rewrite (wrap_small 64) by lia.
    assert ((if getisize f n <? off + nb then off + nb else getisize f n) = Z.max (getisize f n) (off + nb)) as ->
      by (destruct (Z.ltb_spec (getisize f n) (off + nb)); lia).
    fold n'. rewrite (bind_done _ _ _ _ _ E2). cbn [Z.ltb Z.compare]. by rewrite andb_false_r.
  - by eapply ready_changed.
  - split; [done|apply Hf].
  - intros q Hq. rewrite Hq2, Hq1 by done. by rewrite Z.add_0_r.
Qed.

Lemma read_ok s f ino g n off nb lo hi m :
  ready s f -> file_at s f ino g n -> mapped s f n lo hi m ->
  0 <= off -> 0 < nb -> off + nb <= getisize f n -> off + nb < 2 ^ 63 ->
  lo * blocksz f <= off -> off + nb <= hi * blocksz f ->
  exists out, ext2fs_read drv v ino off nb s = Done s (nb, out) /\ Z.of_nat (length out) = nb /\
    forall j, Z.of_nat j < nb -> out !! j = fbyte s f m (off + Z.of_nat j).
Proof.
  intros Hr Hf Hm Hoff Hnb Hsz Hmax Hlo Hhi. pose proof (r_bsz _ _ _ _ _ Hr). pose proof (r_spb _ _ _ _ _ Hr).
  destruct (read_loop_ok s f n off nb lo hi m Hr Hm Hoff Hmax Hlo Hhi (data_fuel f nb) []) as (out & E & Hl & Hj).
  { simpl. lia. }
  { intros _. cbn [length Z.of_nat]. rewrite Z.add_0_r, Z.sub_0_r. apply data_fuel_enough; lia. }
  exists out. split; [|split; [done|intros j Hlt; apply Hj; simpl; [lia|done]]].
  unfold ext2fs_read. rewrite (bind_fs v t p s f) by done.
  rewrite (bind_done _ _ _ _ _ (getino_at drv v t p s f ino g n Hr (fa_at _ _ _ _ _ Hf))). cbn [fst snd Z.ltb Z.compare].
  rewrite (proj2 (Z.leb_gt _ _)), (proj2 (Z.ltb_ge _ _)) by lia. done.
Qed.

(** Writing a range of a regular file whose blocks are allocated stores the
    whole buffer: reading the range gives it back, every other byte of those
    blocks is as it was, the size is the larger of the old size and the end of
    the range, and on the disk only the file's blocks and the block of its inode
    change.  The blocks may be direct or behind up to three levels of tables. *)
Theorem ext2_write_read s f ino g n off (buf : list Z) lo hi m :
  let nb := Z.of_nat (length buf) in
  ready s f -> file_at s f ino g n -> mapped s f n lo hi m -> kept_apart s f ino g n lo hi m ->
  buf <> [] -> 0 <= off -> off + nb < 2 ^ 32 -> 0 <= getisize f n < 2 ^ 32 ->
  lo * blocksz f <= off -> off + nb <= hi * blocksz f ->
  exists s' n', ext2fs_write drv v ino off buf s = Done s' nb /\
    ext2fs_read drv v ino off nb s' = Done s' (nb, buf) /\
    getino drv v ino s' = Done s' (0, n') /\ getisize f n' = Z.max (getisize f n) (off + nb) /\
    (forall q, lo * blocksz f <= q < hi * blocksz f -> ~ (off <= q < off + nb) -> fbyte s' f m q = fbyte s f m q) /\
    changed (spb f) (fun b => data_of lo hi m b \/ b = iblk f g ino) s s'.
Proof.
  intros nb Hr Hf Hm Hk Hne Hoff Hmax Hsz Hlo Hhi.
  assert (0 < nb) as Hnb by (unfold nb; destruct buf; [done|simpl; lia]).
  destruct (write_ok s f ino g n off buf lo hi m Hr Hf Hm Hk) as (s1 & s' & E & _ & Hr' & _ & Hf' & _ & Hm' & Hc1 & Hc2 & _ & Hq); try done.
  fold nb in E, Hf', Hm', Hq. set (n' := new_size _ _ _) in *.
  assert (getisize f n' = Z.max (getisize f n) (off + nb)) as Hsz' by (apply getisize_new; [apply Hf|lia]).
  destruct (read_ok s' f ino g n' off nb lo hi m) as (out & E' & Hl & Hj); try done; try lia.
  assert (out = buf) as ->.
  { apply list_eq_same_length with (length buf); [done|lia|]. intros j x y Hj' Hx Hy.
    rewrite Hj, Hq in Hx by lia. rewrite decide_True in Hx by lia.
    replace (Z.to_nat (off + Z.of_nat j - off)) with j in Hx by lia. congruence. }
  exists s', n'. split_and!; try done; [exact (getino_at drv v t p _ _ _ _ _ Hr' (fa_at _ _ _ _ _ Hf'))| |].
  - intros q Hq' Hnot. by rewrite Hq, decide_False.
  - eapply changed_trans; (eapply changed_weaken; [|done]); cbn; [by left|intros b <-; by right].
Qed.

End data.

End Ext2Data.
