(* ===== verification/Ext2Alloc.v ===== *)
(** Allocation in ext2: blocks and inodes, on a disk that works.

    A bitmap is read as the set of its bits.  The copies of the super block and
    of the group descriptors are the blocks [meta]; allocation changes them, one
    bit of one bitmap, and nothing else. *)
From S2P Require Import Prelude CString VfsOps Block Ext2 Ext2Facts Ext2Geo.

Module Ext2Alloc.
Import CString VfsOps Block Ext2 Ext2Facts Ext2Geo.

(** ** Bitmaps *)

(** The first clear bit below [lim]. *)
Lemma scan_bits_spec bmp lim : forall n idx,
  0 <= idx -> lim <= 8 * Z.of_nat (length bmp) ->
  exists o, scan_bits n idx lim bmp = Some o /\
    match o with
    | Some i => idx <= i < lim /\ bit bmp i = false /\ forall j, idx <= j < i -> bit bmp j = true
    | None => forall j, idx <= j < Z.min lim (idx + Z.of_nat n) -> bit bmp j = true
    end.
Proof.
  induction n as [|n IH]; intros idx Hidx Hlim; cbn [scan_bits]; [exists None; split; [done|lia]|].
  destruct (Z.leb_spec lim idx) as [Hge|Hlt].
  { destruct (IH (idx + 1)) as (o & -> & Ho); [lia|done|]. exists o. split; [done|].
    destruct o as [i|]; [destruct Ho; lia|]. intros j Hj. lia. }
  destruct (aget_is_Some bmp (idx / 8)) as [y Hy].
  { split; [apply Z.div_pos; lia|apply Z.div_lt_upper_bound; lia]. }
  rewrite Hy. cbn [mbind option_bind]. rewrite (bit_byte _ _ _ Hy).
  destruct (bit bmp idx) eqn:Eb; cbn [negb].
  - destruct (IH (idx + 1)) as (o & -> & Ho); [lia|done|]. exists o. split; [done|].
    destruct o as [i|].
    + destruct Ho as (Hi & Hb & Hall). split; [lia|]. split; [done|]. intros j Hj.
      destruct (decide (j = idx)) as [->|]; [done|]. apply Hall. lia.
    + intros j Hj. destruct (decide (j = idx)) as [->|]; [done|]. apply Ho. lia.
  - exists (Some idx). split; [done|]. split; [lia|]. split; [done|]. intros j Hj. lia.
Qed.

Lemma find_clear_spec f lim bmp :
  0 <= lim -> lim + 7 < 2 ^ 32 -> lim <= 8 * blocksz f -> length bmp = Z.to_nat (blocksz f) ->
  exists o, find_clear f lim bmp = Some o /\
    match o with
    | Some i => 0 <= i < lim /\ bit bmp i = false /\ forall j, 0 <= j < i -> bit bmp j = true
    | None => forall j, 0 <= j < lim -> bit bmp j = true
    end.
Proof.
  intros H0 H1 H2 Hl. unfold find_clear. rewrite wrap_small by lia.
  destruct (scan_bits_spec bmp lim (8 * Z.to_nat (Z.min ((lim + 7) / 8) (blocksz f))) 0) as (o & E & Ho); [lia|lia|].
  exists o. split; [done|]. destruct o as [i|]; [done|]. intros j Hj. apply Ho.
  pose proof (Z.div_mod (lim + 7) 8 ltac:(lia)). pose proof (Z.mod_pos_bound (lim + 7) 8 ltac:(lia)). lia.
Qed.

(** Setting a bit sets that bit. *)
Lemma set_bit_bits bmp i :
  0 <= i < 8 * Z.of_nat (length bmp) ->
  exists bmp', set_bit bmp i = Some bmp' /\ length bmp' = length bmp /\
    forall j, 0 <= j -> bit bmp' j = (bit bmp j || (j =? i)).
Proof.
  intros Hi. destruct (aget_is_Some bmp (i / 8)) as [y Hy].
  { split; [apply Z.div_pos; lia|apply Z.div_lt_upper_bound; lia]. }
  unfold set_bit. rewrite Hy. cbn [mbind option_bind]. rewrite aset_in by (by eapply aget_bound).
  eexists. split; [done|]. split; [apply length_insert|]. intros j Hj.
  unfold bit. rewrite aget_insert by (by eapply aget_bound).
  assert (0 <= j mod 8 < 8) as Hm by (apply Z.mod_pos_bound; lia).
  case_decide as E.
  - rewrite <- E, Hy. unfold wrap. rewrite Z.mod_pow2_bits_low by lia.
    rewrite Z.lor_spec, Z.shiftl_1_l, Z.pow2_bits_eqb by (apply Z.mod_pos_bound; lia). f_equal.
    destruct (Z.eqb_spec j i) as [->|Hne]; [by apply Z.eqb_eq|]. apply Z.eqb_neq. intros E'. apply Hne.
    rewrite (Z.div_mod j 8), (Z.div_mod i 8), E, E' by lia. done.
  - destruct (Z.eqb_spec j i) as [->|]; [done|]. by rewrite orb_false_r.
Qed.

(** ** The copies of the super block and of the descriptors *)

(** The layout the flushes rely on. *)
Record layout (f : ext2fs_t) : Prop := mk_layout {
  y_bsz : 1024 <= blocksz f;
  y_first : 0 <= first_data f;
  y_bpg : 0 <= bpg f;
  y_in i : 0 <= i < nbgs f -> first_data f + i * bpg f + bgtbln f < fsblocks f;
  y_tbl : 0 < bgtbln f;
  y_gpb : gpb f = 16 * spb f;
  y_len : Z.of_nat (length (bgs f)) = nbgs f;
  y_res : Forall (fun g => length (bg_reserved g) = 12%nat) (bgs f);
  y_names : length (s_names (fsb f)) = 96%nat
}.

Definition meta (f : ext2fs_t) (b : Z) : Prop :=
  b = 0 \/ exists i, 0 <= i < nbgs f /\ first_data f + i * bpg f <= b <= first_data f + i * bpg f + bgtbln f.

Lemma length_sb_bytes f : length (s_names (fsb f)) = 96%nat -> (length (sb_bytes f) <= 204)%nat.
Proof.
  intros H. unfold sb_bytes, enc_dynsb, enc_sb. destruct (isdyn f); rewrite ?length_app, !length_enc_fields by done;
    rewrite ?length_le, ?H; cbn; lia.
Qed.

Lemma length_enc_bgs l : Forall (fun g => length (bg_reserved g) = 12%nat) l -> length (concat (map enc_bg l)) = (length l * 32)%nat.
Proof.
  induction 1 as [|g l Hg _ IH]; [done|]. cbn [map concat]. rewrite length_app, IH. unfold enc_bg.
  rewrite length_app, length_enc_fields, Hg by done. cbn. lia.
Qed.

Section alloc.
Context {D : Type} (drv : drivers D) `{!sector_laws drv, !reliable drv}.
Context (v : vfs_t) (t p : Z).
Notation B := (B drv t p).
Notation ready := (ready v t p).
Notation changed := (changed drv t p).

(** A write and what follows it. *)
Lemma then_write {A} s f W b bs (k : Z -> M (est D) A) (Q : est D -> A -> Prop) :
  ready s f -> 0 <= b < fsblocks f -> length bs = Z.to_nat (blocksz f) -> W b ->
  (forall s', changed (spb f) W s s' -> exists s2 a, k 0 s' = Done s2 a /\ changed (spb f) W s' s2 /\ Q s2 a) ->
  exists s2 a, mbind k (wrblk drv v b bs) s = Done s2 a /\ changed (spb f) W s s2 /\ Q s2 a.
Proof.
  intros Hr Hb Hl HW Hk. destruct (wrblk_ok drv v t p s f b bs Hr Hb Hl) as (s1 & E & Hc & _).
  assert (changed (spb f) W s s1) as Hc1 by (eapply changed_weaken, Hc; by intros x <-).
  destruct (Hk s1 Hc1) as (s2 & a & E2 & Hc2 & HQ). exists s2, a.
  rewrite (bind_done _ _ _ _ _ E). split; [done|]. split; [by eapply changed_trans|done].
Qed.

Lemma length_into buf bs off : (off + length bs <= length buf)%nat -> length (splice buf bs off) = length buf.
Proof. intros H. rewrite length_splice by lia. lia. Qed.

Lemma flush_sbs_loop_ok f : layout f -> forall n i s, ready s f -> 0 <= i -> i + Z.of_nat n <= nbgs f ->
  exists s' r, flush_sbs_loop drv n i v f s = Done s' r /\ changed (spb f) (meta f) s s' /\ r = 0.
Proof.
  intros Hy. pose proof (length_sb_bytes f (y_names _ Hy)) as Hsb. pose proof (y_bsz _ Hy) as Hbz.
  induction n as [|n IH]; intros i s Hr Hi Hn; cbn [flush_sbs_loop].
  { exists s, 0. split; [done|]. split; [apply changed_refl|done]. }
  pose proof (r_bsz _ _ _ _ _ Hr) as Hbs. pose proof (r_spb _ _ _ _ _ Hr) as Hsp. pose proof (r_cnt _ _ _ _ _ Hr) as Hcnt.
  destruct (has_sparse f i); [|apply IH; [done|lia|lia]].
  pose proof (y_in _ Hy i ltac:(lia)) as Hin. pose proof (y_first _ Hy). pose proof (y_bpg _ Hy). pose proof (y_tbl _ Hy).
  assert (0 <= i * bpg f) by nia.
  assert (fsblocks f < 2 ^ 32 + 1) as Hf32 by nia.
  rewrite (wrap_small 32) by lia.
  assert (meta f (first_data f + i * bpg f)) as HW by (right; exists i; lia).
  assert (forall bs s0, ready s0 f -> length bs = Z.to_nat (blocksz f) ->
    exists s' r, (r ← wrblk drv v (first_data f + i * bpg f) bs;
                  if r <? 0 then mret r else flush_sbs_loop drv n (i + 1) v f) s0 = Done s' r /\
      changed (spb f) (meta f) s0 s' /\ r = 0) as Hrest.
  { intros bs s0 Hr0 Hl. eapply then_write; [done|lia|done|done|]. intros s1 Hc. cbn [Z.ltb Z.compare].
    apply IH; [by eapply ready_changed|lia|lia]. }
  assert (forall b bs s0, ready s0 f -> length bs = Z.to_nat (blocksz f) -> 0 <= b < fsblocks f -> meta f b ->
    exists s' r, (r ← wrblk drv v b bs; if r <? 0 then mret (-1) else
                  (r ← wrblk drv v (first_data f + i * bpg f) bs;
                   if r <? 0 then mret r else flush_sbs_loop drv n (i + 1) v f)) s0 = Done s' r /\
      changed (spb f) (meta f) s0 s' /\ r = 0) as Hboth.
  { intros b bs s0 Hr0 Hl Hb Hmb. eapply then_write; [done|done|done|done|]. intros s1 Hc. cbn [Z.ltb Z.compare].
    apply Hrest; [by eapply ready_changed|done]. }
  destruct ((i =? 0) && (1024 <? blocksz f)) eqn:E0.
  - rewrite (bind_done _ _ _ _ _ (rdblk_ok drv v t p s f 0 (zeros (blocksz f)) Hr ltac:(lia) (length_zeros _))).
    cbn [fst snd Z.ltb Z.compare]. to_prop.
    assert (1024 + length (sb_bytes f) <= length (B (spb f) s 0))%nat as Hfit by (rewrite length_B by lia; lia).
    rewrite into_ok, bind_deref by done. apply Hboth; [done| |lia|by left].
    rewrite length_into, length_B by (done || lia). f_equal. lia.
  - assert (0 + length (sb_bytes f) <= length (zeros (blocksz f)))%nat as Hfit by (rewrite length_zeros; lia).
    rewrite into_ok, bind_deref by done. apply Hboth; [done| |lia|done]. by rewrite length_into, length_zeros.
Qed.

Lemma flush_sbs_ok s f : layout f -> ready s f -> 0 <= nbgs f ->
  exists s', flush_sbs drv v s = Done s' 0 /\ changed (spb f) (meta f) s s'.
Proof.
  intros Hy Hr Hn. unfold flush_sbs. rewrite (bind_fs v t p s f) by done.
  destruct (flush_sbs_loop_ok f Hy (Z.to_nat (nbgs f)) 0 s Hr) as (s' & r & E & Hc & ->); [lia|lia|]. by exists s'.
Qed.

Lemma flush_table_ok f grp : layout f -> 0 <= grp < nbgs f -> forall n k s, ready s f -> 0 <= k -> k + Z.of_nat n <= bgtbln f ->
  exists s' r, flush_table drv n k (first_data f + grp * bpg f + 1) v f s = Done s' r /\
    changed (spb f) (meta f) s s' /\ r = 0.
Proof.
  intros Hy Hg. pose proof (y_bsz _ Hy) as Hbz. pose proof (y_gpb _ Hy) as Hgpb. pose proof (y_in _ Hy grp Hg) as Hin.
  pose proof (y_first _ Hy). pose proof (y_bpg _ Hy). assert (0 <= grp * bpg f) by nia.
  induction n as [|n IH]; intros k s Hr Hk Hn; cbn [flush_table].
  { exists s, 0. split; [done|]. split; [apply changed_refl|done]. }
  pose proof (r_bsz _ _ _ _ _ Hr) as Hbs. pose proof (r_spb _ _ _ _ _ Hr) as Hsp.
  destruct (Z.leb_spec (nbgs f) (k * gpb f)); [exists s, 0; split; [done|split; [apply changed_refl|done]]|].
  set (cnt := Z.min _ _). set (raw := concat _).
  assert (0 + length raw <= length (zeros (blocksz f)))%nat as Hfit.
  { unfold raw. rewrite length_enc_bgs by (apply Forall_take, Forall_drop, Hy).
    rewrite length_take, length_zeros. unfold cnt. lia. }
  rewrite into_ok, bind_deref by done.
  eapply then_write; [done|nia|by rewrite length_into, length_zeros|right; exists grp; nia|].
  intros s1 Hc. cbn [Z.ltb Z.compare]. apply IH; [by eapply ready_changed|lia|lia].
Qed.

Lemma flush_bgs_ok s f : layout f -> ready s f -> 0 <= nbgs f ->
  exists s', flush_bgs drv v s = Done s' 0 /\ changed (spb f) (meta f) s s'.
Proof.
  intros Hy Hr0 Hn0. unfold flush_bgs. rewrite (bind_fs v t p s f) by done.
  enough (forall n i s, ready s f -> 0 <= i -> i + Z.of_nat n <= nbgs f ->
    exists s' r, flush_bgs_loop drv n i v f s = Done s' r /\ changed (spb f) (meta f) s s' /\ r = 0) as Hl.
  { destruct (Hl (Z.to_nat (nbgs f)) 0 s Hr0) as (s' & r & E & Hc & ->); [lia|lia|]. by exists s'. }
  clear s Hr0. induction n as [|n IH]; intros i s Hr Hi Hn; cbn [flush_bgs_loop].
  { exists s, 0. split; [done|]. split; [apply changed_refl|done]. }
  destruct (has_sparse f i); [|apply IH; [done|lia|lia]].
  pose proof (y_in _ Hy i ltac:(lia)) as Hin. pose proof (y_first _ Hy). pose proof (y_bpg _ Hy). pose proof (y_tbl _ Hy).
  assert (0 <= i * bpg f) by nia. pose proof (r_cnt _ _ _ _ _ Hr). pose proof (r_spb _ _ _ _ _ Hr).
  rewrite (wrap_small 32) by nia.
  destruct (flush_table_ok f i Hy ltac:(lia) (Z.to_nat (bgtbln f)) 0 s Hr) as (s1 & r1 & E1 & Hc1 & ->); [lia|lia|].
  destruct (IH (i + 1) s1) as (s2 & r2 & E2 & Hc2 & ->); [by eapply ready_changed|lia|lia|].
  exists s2, 0. rewrite (bind_done _ _ _ _ _ E1). cbn [Z.ltb Z.compare]. split; [done|].
  split; [by eapply changed_trans|done].
Qed.

(** ** Counts *)

(** The same file system with other counts. *)
Definition recounted (f f' : ext2fs_t) : Prop := fs_geo f' = fs_geo f /\ (layout f -> layout f').

Lemma recounted_ready (s : est D) f f' : recounted f f' -> ready s f -> ready (set_fss (<[v_priv v := f']> (fss s)) s) f'.
Proof.
  intros [Hg _] [H1 H2 H3 H4 H5 H6 H7]. unfold fs_geo in Hg.
  injection Hg as E1 E2 E3 E4 E5 E6 E7 E8 E9 E10 E11 E12 E13 E14.
  split; rewrite ?E1, ?E7, ?E8, ?E9; try done. cbn. apply lookup_insert_eq.
Qed.

Lemma recounted_intro f g grp l sbf (set : ext2_bg_t -> ext2_bg_t) :
  (forall b, (s_blocks_count (sbf b), s_inodes_per_group (sbf b), s_blocks_per_group (sbf b), s_first_data_block (sbf b))
           = (s_blocks_count b, s_inodes_per_group b, s_blocks_per_group b, s_first_data_block b)) ->
  places (set g) = places g -> bg_reserved (set g) = bg_reserved g ->
  aget (bgs f) grp = Some g -> aset (bgs f) grp (set g) = Some l ->
  recounted f (set_sb (sbf (sb (fsb f))) (set_bgs l f)).
Proof.
  intros Hsb Hp Hres [_ Hg]%aget_Some [_ ->]%aset_Some. specialize (Hsb (sb (fsb f))). injection Hsb as E1 E2 E3 E4.
  assert (fs_geo (set_sb (sbf (sb (fsb f))) (set_bgs (<[Z.to_nat grp := set g]> (bgs f)) f)) = fs_geo f) as Hgeo.
  { unfold fs_geo, fsblocks, ipg, bpg, first_data.
    cbn [set_sb set_bgs sb fsb nbgs bgtbln bgs blocksz spb ppb gpb isdyn s_inode_size s_feature_ro_compat].
    rewrite E1, E2, E3, E4. f_equal. change (map places) with (fmap (M := list) places).
    rewrite list_fmap_insert, Hp. apply list_insert_id. by rewrite list_lookup_fmap, Hg. }
  split; [done|]. intros [Y1 Y2 Y3 Y4 Y5 Y6 Y7 Y8 Y9].
  unfold fsblocks, bpg, first_data in *.
  split; unfold fsblocks, bpg, first_data; cbn [set_sb set_bgs sb fsb nbgs bgtbln bgs blocksz spb gpb s_names];
    rewrite ?E1, ?E3, ?E4; try done.
  - by rewrite length_insert.
  - apply Forall_insert; [done|]. rewrite Hres. by apply (Forall_lookup_1 _ _ _ _ Y8 Hg).
Qed.

Lemma count_ok (which : bool) (s : est D) f g grp d :
  ready s f -> aget (bgs f) grp = Some g ->
  exists f', (if which then count_blocks v grp d else count_inodes v grp d) s
             = Done (set_fss (<[v_priv v := f']> (fss s)) s) tt /\ recounted f f'.
Proof.
  intros Hr Hg. destruct which.
  - unfold count_blocks. rewrite (bind_fs v t p s f), Hg, bind_deref by done.
    rewrite aset_in by (by eapply aget_bound). rewrite bind_deref. eexists. split; [done|].
    eapply (recounted_intro f g grp _ _ (set_bg_blocks _)); [done|done|done|done|]. apply aset_in. by eapply aget_bound.
  - unfold count_inodes. rewrite (bind_fs v t p s f), Hg, bind_deref by done.
    rewrite aset_in by (by eapply aget_bound). rewrite bind_deref. eexists. split; [done|].
    eapply (recounted_intro f g grp _ _ (set_bg_inodes _)); [done|done|done|done|]. apply aset_in. by eapply aget_bound.
Qed.

(** ** Taking a bit *)

Lemma recounted_meta f f' b : recounted f f' -> meta f' b <-> meta f b.
Proof.
  intros [Hg _]. unfold fs_geo in Hg. injection Hg as E1 E2 E3 E4 E5 E6 E7 E8 E9 E10 E11 E12 E13 E14.
  unfold meta. by rewrite E3, E4, E5, E6.
Qed.

(** The bitmap is written, the counts change, descriptors and super block follow. *)
Lemma claim (which : bool) s f g grp bm bmp (k : M (est D) Z) :
  ready s f -> layout f -> 0 <= nbgs f -> aget (bgs f) grp = Some g ->
  0 <= bm < fsblocks f -> ~ meta f bm -> length bmp = Z.to_nat (blocksz f) ->
  exists s' f', (check ret := wrblk drv v bm bmp in
                 _ ← (if which then count_blocks v grp (-1) else count_inodes v grp (-1));
                 check ret := flush_bgs drv v in check ret := flush_sbs drv v in k) s = k s' /\
    ready s' f' /\ recounted f f' /\ B (spb f) s' bm = bmp /\
    forall b, 0 <= b -> ~ meta f b -> b <> bm -> B (spb f) s' b = B (spb f) s b.
Proof.
  intros Hr Hy Hn Hg Hbm Hmeta Hlen.
  destruct (wrblk_ok drv v t p s f bm bmp Hr Hbm Hlen) as (s1 & E1 & Hc1 & HB1).
  pose proof (ready_changed drv v t p _ _ _ _ _ Hc1 Hr) as Hr1.
  destruct (count_ok which s1 f g grp (-1) Hr1 Hg) as (f' & E2 & Hrec).
  pose proof (recounted_ready s1 f f' Hrec Hr1) as Hr2. set (s2 := set_fss _ s1) in *.
  assert (layout f' /\ nbgs f' = nbgs f /\ spb f' = spb f) as (Hy' & Hn' & Hsp').
  { destruct Hrec as [Hgeo Hlay]. unfold fs_geo in Hgeo. injection Hgeo as _ _ _ _ E5 _ _ E8 _ _ _ _ _ _. auto. }
  destruct (flush_bgs_ok s2 f' Hy' Hr2) as (s3 & E3 & Hc3); [lia|].
  pose proof (ready_changed drv v t p _ _ _ _ _ Hc3 Hr2) as Hr3.
  destruct (flush_sbs_ok s3 f' Hy' Hr3) as (s4 & E4 & Hc4); [lia|].
  assert (forall b, 0 <= b -> ~ meta f b -> B (spb f) s4 b = B (spb f) s1 b) as HB.
  { intros b Hb Hm. rewrite <- (recounted_meta f f') in Hm by done. rewrite <- Hsp'.
    destruct Hc4 as [_ Hc4], Hc3 as [_ Hc3]. by rewrite Hc4, Hc3. }
  exists s4, f'. split_and!; try done.
  - rewrite (bind_done _ _ _ _ _ E1). cbn [Z.ltb Z.compare]. rewrite (bind_done _ _ _ _ _ E2).
    rewrite (bind_done _ _ _ _ _ E3). cbn [Z.ltb Z.compare]. by rewrite (bind_done _ _ _ _ _ E4).
  - by eapply ready_changed.
  - rewrite HB by (done || lia). done.
  - intros b Hb Hm Hne. rewrite HB by done. destruct Hc1 as [_ Hc1]. by apply Hc1.
Qed.

(** Bit [idx] of bitmap [bm] was the first clear one and is now set; of the
    blocks outside the copies no other has changed. *)
Definition took (s s' : est D) (f f' : ext2fs_t) (bm idx lim : Z) : Prop :=
  ready s' f' /\ recounted f f' /\ 0 <= idx < lim /\
  bit (B (spb f) s bm) idx = false /\ (forall j, 0 <= j < idx -> bit (B (spb f) s bm) j = true) /\
  (forall j, 0 <= j -> bit (B (spb f) s' bm) j = (bit (B (spb f) s bm) j || (j =? idx))) /\
  forall b, 0 <= b -> ~ meta f b -> b <> bm -> B (spb f) s' b = B (spb f) s b.

(** The bitmaps of the groups, [sel] of them, lie on the disk outside the copies. *)
Definition bitmaps_ok (sel : ext2_bg_t -> Z) (f : ext2fs_t) : Prop :=
  forall grp g, aget (bgs f) grp = Some g -> 0 <= sel g < fsblocks f /\ ~ meta f (sel g).

(** Group [grp] has nothing to give. *)
Definition exhausted (s : est D) (f : ext2fs_t) (grp : Z) : Prop :=
  exists g, aget (bgs f) grp = Some g /\
    (bg_free_blocks_count g = 0 \/ forall j, 0 <= j < bpg f -> bit (B (spb f) s (bg_block_bitmap g)) j = true).

Lemma allocblk_loop_ok s f bg :
  ready s f -> layout f -> bitmaps_ok bg_block_bitmap f -> 0 < nbgs f -> bpg f + 7 < 2 ^ 32 -> bpg f <= 8 * blocksz f ->
  forall n i, 0 <= bg + i ->
  exists s' r, allocblk_loop drv n i bg v s = Done s' r /\
    ((r = - ENOSPC /\ s' = s /\ forall j, i <= j < i + Z.of_nat n -> exhausted s f ((bg + j) mod nbgs f)) \/
     (exists grp g idx f', 0 <= grp < nbgs f /\ aget (bgs f) grp = Some g /\
        r = first_data f + grp * bpg f + idx /\ took s s' f f' (bg_block_bitmap g) idx (bpg f))).
Proof.
  intros Hr Hy Hbm Hn Hb1 Hb2. pose proof (r_bsz _ _ _ _ _ Hr) as Hbs. pose proof (r_spb _ _ _ _ _ Hr) as Hsp.
  induction n as [|n IH]; intros i Hi; cbn [allocblk_loop].
  { exists s, (- ENOSPC). split; [done|]. left. split_and!; [done|done|lia]. }
  rewrite (bind_fs v t p s f) by done. set (grp := (bg + i) mod nbgs f).
  assert (0 <= grp < nbgs f) as Hgrp by (apply Z.mod_pos_bound; lia).
  destruct (aget_is_Some (bgs f) grp) as [g Hg]; [rewrite (y_len _ Hy); lia|]. rewrite Hg, bind_deref.
  destruct (Hbm grp g Hg) as [Hon Hnm].
  assert (exhausted s f grp -> exists s' r, allocblk_loop drv n (i + 1) bg v s = Done s' r /\
    ((r = - ENOSPC /\ s' = s /\ forall j, i <= j < i + Z.of_nat (S n) -> exhausted s f ((bg + j) mod nbgs f)) \/
     (exists grp g idx f', 0 <= grp < nbgs f /\ aget (bgs f) grp = Some g /\
        r = first_data f + grp * bpg f + idx /\ took s s' f f' (bg_block_bitmap g) idx (bpg f)))) as Hnext.
  { intros Hex. destruct (IH (i + 1)) as (s' & r & E & H); [lia|]. exists s', r. split; [done|].
    destruct H as [(Hr' & Hs & Hall)|H]; [left|by right]. split_and!; try done. intros j Hj.
    destruct (decide (j = i)) as [->|]; [done|]. apply Hall. lia. }
  destruct (Z.eqb_spec (bg_free_blocks_count g) 0) as [H0|H0]; [apply Hnext; exists g; auto|].
  unfold checkb. rewrite (bind_rdnew drv v t p s f) by done. cbn [fst snd Z.ltb Z.compare].
  assert (length (B (spb f) s (bg_block_bitmap g)) = Z.to_nat (blocksz f)) as HL by (rewrite length_B by lia; f_equal; lia).
  destruct (find_clear_spec f (bpg f) (B (spb f) s (bg_block_bitmap g)) (y_bpg _ Hy) Hb1 Hb2 HL) as ([idx|] & -> & Ho).
  2: { rewrite bind_deref. apply Hnext. exists g. auto. }
  rewrite bind_deref. destruct Ho as (Hidx & Hclr & Hall).
  destruct (set_bit_bits (B (spb f) s (bg_block_bitmap g)) idx) as (bmp & -> & Hlb & Hbits); [rewrite HL; lia|].
  rewrite bind_deref.
  destruct (claim true s f g grp (bg_block_bitmap g) bmp (mret (u32 (first_data f + grp * bpg f) + idx)))
    as (s' & f' & E & Hr' & Hrec & HB & Hoth); try done; try lia.
  exists s', (first_data f + grp * bpg f + idx). split; [|right].
  - etransitivity; [exact E|]. pose proof (y_in _ Hy grp Hgrp). pose proof (y_first _ Hy). pose proof (y_bpg _ Hy).
    pose proof (y_tbl _ Hy). pose proof (r_cnt _ _ _ _ _ Hr). rewrite (wrap_small 32) by nia. done.
  - exists grp, g, idx, f'. split; [done|]. split; [done|]. split; [done|]. unfold took. rewrite HB. split_and!; try done; lia.
Qed.

(** C13. Allocating a block takes one that was free: the first clear bit of the
    first group, from the group asked for on, that has one.  That bit is set and
    no other, and on the disk only that bitmap and the copies of descriptors and
    super block change.  The call fails only when every group is exhausted. *)
Theorem allocblk_takes_free s f bg :
  ready s f -> layout f -> bitmaps_ok bg_block_bitmap f -> bpg f + 7 < 2 ^ 32 -> bpg f <= 8 * blocksz f ->
  0 <= bg < nbgs f ->
  exists s' r, allocblk drv v bg s = Done s' r /\
    ((r = - ENOSPC /\ s' = s /\ forall grp, 0 <= grp < nbgs f -> exhausted s f grp) \/
     (exists grp g idx f', 0 <= grp < nbgs f /\ aget (bgs f) grp = Some g /\
        r = first_data f + grp * bpg f + idx /\ took s s' f f' (bg_block_bitmap g) idx (bpg f))).
Proof.
  intros Hr Hy Hbm Hb1 Hb2 Hbg.
  destruct (allocblk_loop_ok s f bg Hr Hy Hbm ltac:(lia) Hb1 Hb2 (Z.to_nat (nbgs f)) 0 ltac:(lia)) as (s' & r & E & H).
  exists s', r. split.
  - unfold allocblk. rewrite (bind_fs v t p s f) by done. by rewrite (proj2 (Z.leb_gt _ _)) by lia.
  - destruct H as [(-> & -> & Hall)|H]; [left|by right]. split_and!; try done. intros grp Hg.
    specialize (Hall ((grp - bg) mod nbgs f)). pose proof (Z.mod_pos_bound (grp - bg) (nbgs f) ltac:(lia)).
    rewrite Zplus_mod_idemp_r in Hall. replace (bg + (grp - bg)) with grp in Hall by lia.
    rewrite (Z.mod_small grp) in Hall by lia. apply Hall. lia.
Qed.

(** ** Inodes *)

Lemma located_recounted f f' ino g :
  recounted f f' -> located f ino g ->
  exists g', located f' ino g' /\ places g' = places g /\ iidx f' ino = iidx f ino /\ iblk f' g' ino = iblk f g ino.
Proof.
  intros [Hgeo _] [H1 H2 H3 H4 H5 H6 H7 H8 H9 H10]. unfold fs_geo in Hgeo.
  injection Hgeo as E1 E2 E3 E4 E5 E6 E7 E8 E9 E10 E11 E12 E13 E14.
  destruct (geo_lookup f f' (igrp f ino) g E14 H3) as (g' & Hg' & Hp).
  assert (inosz f' = inosz f) as Ez by (unfold inosz; by rewrite E13, E11).
  assert (iidx f' ino = iidx f ino) as Ei by (unfold iidx; by rewrite E2).
  assert (igrp f' ino = igrp f ino) as Eg by (unfold igrp; by rewrite E2).
  pose proof Hp as Hp0. unfold places in Hp. injection Hp as P1 P2 P3.
  assert (iblk f' g' ino = iblk f g ino) as Eb by (unfold iblk; by rewrite Ei, Ez, E7, P3).
  assert (ioff f' ino = ioff f ino) as Eo by (unfold ioff; by rewrite Ei, Ez, E7).
  exists g'. split; [|done].
  split; rewrite ?Eg, ?Ei, ?Eb, ?Eo, ?Ez, ?E1, ?E2, ?E5, ?E7, ?P2, ?P3; done.
Qed.

(** Every inode number of a group is found, its block apart from the copies and
    from the bitmap. *)
Definition tables_ok (f : ext2fs_t) : Prop :=
  forall grp g idx, aget (bgs f) grp = Some g -> 0 <= idx < ipg f ->
    let ino := grp * ipg f + idx + 1 in
    located f ino g /\ iidx f ino = idx /\ ~ meta f (iblk f g ino) /\ iblk f g ino <> bg_inode_bitmap g /\ ino < 2 ^ 31.

(** Inode [ino] was free and is now [n]. *)
Definition made (s s' : est D) (f f' : ext2fs_t) (ino : Z) (n : ext2_ino_t) : Prop :=
  exists g, located f ino g /\ bit (B (spb f) s (bg_inode_bitmap g)) (iidx f ino) = false /\
    ready s' f' /\ recounted f f' /\ getino drv v ino s' = Done s' (0, n) /\ 0 < ino.

(** The inode stored once its bit is set. *)
Lemma made_intro s s1 f f' g bmp ino n :
  located f ino g -> iblk f g ino <> bg_inode_bitmap g -> ino < 2 ^ 31 -> ino_ok n ->
  bit (B (spb f) s (bg_inode_bitmap g)) (iidx f ino) = false ->
  ready s1 f' -> recounted f f' -> B (spb f) s1 (bg_inode_bitmap g) = bmp -> bit bmp (iidx f ino) = true ->
  exists s2, (check ret := flush_inode drv v ino n in mret (s32 ino)) s1 = Done s2 ino /\ made s s2 f f' ino n.
Proof.
  intros Hloc Hneb Hlt Hok Hclr Hr' Hrec HB Hset. pose proof (l_ino _ _ _ Hloc) as Hino.
  destruct (located_recounted f f' ino g Hrec Hloc) as (g' & Hloc' & Hpl & Eix & Eib).
  unfold places in Hpl. injection Hpl as _ P2 _.
  assert (spb f' = spb f) as Esp
    by (destruct Hrec as [Hgeo _]; unfold fs_geo in Hgeo; by injection Hgeo as _ _ _ _ _ _ _ E8 _ _ _ _ _ _).
  assert (bit (B (spb f') s1 (bg_inode_bitmap g')) (iidx f' ino) = true) as Hused by (by rewrite Esp, P2, HB, Eix).
  destruct (flush_inode_used drv v t p s1 f' ino g' n Hr' Hloc' Hused Hok) as (s2 & E2 & Hc2 & HB2).
  exists s2. split.
  - rewrite (bind_done _ _ _ _ _ E2). cbn [Z.ltb Z.compare]. unfold sext, mret, M_ret.
    by rewrite Z.mod_small, (proj2 (Z.ltb_lt _ _)) by lia.
  - exists g. pose proof (ready_changed drv v t p _ _ _ _ _ Hc2 Hr') as Hr2. split_and!; try done; [|lia].
    pose proof (ioff_range v t p s1 f' ino Hr') as Hoff. pose proof (l_off _ _ _ Hloc').
    pose proof (r_bsz _ _ _ _ _ Hr'). pose proof (r_spb _ _ _ _ _ Hr').
    rewrite (getino_used drv v t p s2 f' ino g' Hr2 Hloc').
    + rewrite HB2. unfold splice. rewrite drop_app_length'; [by rewrite dec_enc_ino|].
      rewrite length_take, length_B by lia. lia.
    + destruct Hc2 as [_ Hc2]. rewrite Hc2; [done|apply Hloc'|]. by rewrite Eib, P2.
Qed.

(** Group [grp] has no inode to give. *)
Definition spent (s : est D) (f : ext2fs_t) (grp : Z) : Prop :=
  exists g, aget (bgs f) grp = Some g /\
    (bg_free_inodes_count g = 0 \/ forall j, 0 <= j < ipg f -> bit (B (spb f) s (bg_inode_bitmap g)) j = true).

Lemma mkino_loop_ok s f n :
  ready s f -> layout f -> bitmaps_ok bg_inode_bitmap f -> tables_ok f -> ino_ok n ->
  0 < ipg f -> ipg f + 7 < 2 ^ 32 -> ipg f <= 8 * blocksz f ->
  forall cnt grp, 0 <= grp -> grp + Z.of_nat cnt <= nbgs f ->
  exists s' r, mkino_loop drv cnt grp v n s = Done s' r /\
    ((r = - ENOSPC /\ forall j, grp <= j < grp + Z.of_nat cnt -> spent s f j) \/ exists f', made s s' f f' r n).
Proof.
  intros Hr Hy Hbm Htb Hok Hipg Hi1 Hi2. pose proof (r_bsz _ _ _ _ _ Hr) as Hbs. pose proof (r_spb _ _ _ _ _ Hr) as Hsp.
  induction cnt as [|cnt IH]; intros grp Hg0 Hcnt; cbn [mkino_loop].
  { exists s, (- ENOSPC). split; [done|]. left. split; [done|lia]. }
  rewrite (bind_fs v t p s f) by done.
  destruct (aget_is_Some (bgs f) grp) as [g Hg]; [rewrite (y_len _ Hy); lia|]. rewrite Hg, bind_deref.
  assert (spent s f grp -> exists s' r, mkino_loop drv cnt (grp + 1) v n s = Done s' r /\
    ((r = - ENOSPC /\ forall j, grp <= j < grp + Z.of_nat (S cnt) -> spent s f j) \/ exists f', made s s' f f' r n)) as Hnext.
  { intros Hsp'. destruct (IH (grp + 1)) as (s' & r & E & H); [lia|lia|]. exists s', r. split; [done|].
    destruct H as [[Hr' Hall]|H]; [left|by right]. split; [done|]. intros j Hj.
    destruct (decide (j = grp)) as [->|]; [done|]. apply Hall. lia. }
  destruct (Z.eqb_spec (bg_free_inodes_count g) 0); [apply Hnext; exists g; auto|]. destruct (Hbm grp g Hg) as [Hon Hnm].
  unfold checkb. rewrite (bind_rdnew drv v t p s f) by done. cbn [fst snd Z.ltb Z.compare].
  assert (length (B (spb f) s (bg_inode_bitmap g)) = Z.to_nat (blocksz f)) as HL by (rewrite length_B by lia; f_equal; lia).
  destruct (find_clear_spec f (ipg f) (B (spb f) s (bg_inode_bitmap g)) ltac:(lia) Hi1 Hi2 HL) as ([idx|] & -> & Ho);
    rewrite bind_deref; [|apply Hnext; exists g; auto].
  destruct Ho as (Hidx & Hclr & _).
  destruct (set_bit_bits (B (spb f) s (bg_inode_bitmap g)) idx) as (bmp & -> & Hlb & Hbits); [rewrite HL; lia|].
  rewrite bind_deref. destruct (Htb grp g idx Hg Hidx) as (Hloc & Hix & Hnmeta & Hneb & Hlt). set (ino := grp * ipg f + idx + 1) in *.
  pose proof (l_ino _ _ _ Hloc) as Hino. rewrite (wrap_small 32 ino) by lia.
  destruct (claim false s f g grp (bg_inode_bitmap g) bmp
              (check ret := flush_inode drv v ino n in mret (s32 ino)))
    as (s1 & f' & E & Hr' & Hrec & HB & Hoth); try done; try lia.
  destruct (made_intro s s1 f f' g bmp ino n) as (s2 & E2 & Hmade); try done; [by rewrite Hix| |].
  { rewrite Hix, Hbits, Z.eqb_refl by lia. apply orb_true_r. }
  exists s2, ino. split; [by etransitivity|]. right. by exists f'.
Qed.

End alloc.

End Ext2Alloc.
