(* ===== verification/Ext2Link.v ===== *)
(** Symbolic links of ext2 ([ext2fs_symlink], [ext2fs_readsym]) and device numbers
    in inodes ([encode_dev], [decode_dev]).

    A short target is kept in the 15 block pointers.  Word [i] takes the bytes
    [i .. i + 3], not [4 * i .. 4 * i + 3], so that 18 bytes fit instead of 60. *)
From S2P Require Import Prelude CString VfsOps Block Ext2 Ext2Facts Ext2Geo Ext2Alloc.

Module Ext2Link.
Import CString VfsOps Block Ext2 Ext2Facts Ext2Geo Ext2Alloc.

Definition ascii (c : Z) : Prop := 0 <= c < 128.

Lemma s8_ascii c : ascii c -> s8 c = c.
Proof. intros H. unfold ascii in H. unfold sext. by rewrite Z.mod_small, (proj2 (Z.ltb_lt _ _)) by lia. Qed.

(** Four characters in a word, and back. *)
Lemma word_of a b c d :
  ascii a -> ascii b -> ascii c -> ascii d ->
  let w := u32 (Z.lor (Z.lor (Z.lor (Z.shiftl a 24) (Z.shiftl b 16)) (Z.shiftl c 8)) d) in
  0 <= w < 2 ^ 32 /\
  [Z.shiftr w 24; Z.land (Z.shiftr w 16) 0xFF; Z.land (Z.shiftr w 8) 0xFF; Z.land w 0xFF] = [a; b; c; d].
Proof.
  unfold ascii. intros Ha Hb Hc Hd. cbv zeta.
  rewrite !Z.shiftl_mul_pow2 by lia. rewrite (lor_high_low a (b * 2 ^ 16) 24) by lia.
  replace (a * 2 ^ 24 + b * 2 ^ 16) with ((a * 2 ^ 8 + b) * 2 ^ 16) by lia.
  rewrite (lor_high_low _ (c * 2 ^ 8) 16) by lia.
  replace ((a * 2 ^ 8 + b) * 2 ^ 16 + c * 2 ^ 8) with (((a * 2 ^ 8 + b) * 2 ^ 8 + c) * 2 ^ 8) by lia.
  rewrite (lor_high_low _ d 8) by lia. rewrite wrap_small by lia. split; [lia|].
  rewrite !Z.shiftr_div_pow2 by lia. change 0xFF with (Z.ones 8). rewrite !Z.land_ones by lia.
  set (w := ((a * 2 ^ 8 + b) * 2 ^ 8 + c) * 2 ^ 8 + d).
  assert (w / 2 ^ 24 = a /\ (w / 2 ^ 16) mod 2 ^ 8 = b /\ (w / 2 ^ 8) mod 2 ^ 8 = c /\ w mod 2 ^ 8 = d) as (-> & -> & -> & ->);
    [|done]. unfold w. split_and!; Z.div_mod_to_equations; lia.
Qed.

Lemma link_word_range buf i : 0 <= link_word buf i < 2 ^ 32.
Proof. apply wrap_range. lia. Qed.

Lemma nth_ascii buf j : Forall ascii buf -> ascii (nth j buf 0).
Proof.
  intros H. destruct (nth_in_or_default j buf 0) as [Hin| ->]; [|done].
  rewrite List.Forall_forall in H. by apply H.
Qed.

(** The characters below [i + 3] are in place; the rest is still zero. *)
Lemma link_bytes_inv buf : Forall ascii buf -> forall n i dbuf,
  (i + n = 15)%nat -> length dbuf = 60%nat ->
  (forall j, (j < 60)%nat -> dbuf !! j = Some (if decide (j < i + 3 /\ 0 < i)%nat then nth j buf 0 else 0)) ->
  forall j, (j < 60)%nat ->
    link_bytes i (map (link_word buf) (seq i n)) dbuf !! j = Some (if decide (j < 18)%nat then nth j buf 0 else 0).
Proof.
  intros Hbuf. induction n as [|n IH]; intros i dbuf Hi Hl Hd j Hj; cbn [seq map link_bytes].
  { rewrite Hd by done. repeat case_decide; try done; lia. }
  destruct (word_of (nth i buf 0) (nth (i + 1) buf 0) (nth (i + 2) buf 0) (nth (i + 3) buf 0)) as [_ E];
    try by apply nth_ascii.
  assert (link_word buf i = u32 (Z.lor (Z.lor (Z.lor (Z.shiftl (nth i buf 0) 24) (Z.shiftl (nth (i + 1) buf 0) 16))
            (Z.shiftl (nth (i + 2) buf 0) 8)) (nth (i + 3) buf 0))) as Ew.
  { unfold link_word. by rewrite !s8_ascii by (by apply nth_ascii). }
  rewrite Ew, E. apply IH; [lia|rewrite length_splice by lia; simpl; lia| |done].
  intros k Hk. unfold splice. destruct (Nat.lt_ge_cases k i).
  - rewrite lookup_app_l, lookup_take_lt, Hd by (rewrite ?length_take; lia). repeat case_decide; try done; lia.
  - rewrite lookup_app_r, length_take, Hl by (rewrite length_take; lia). rewrite Nat.min_l by lia.
    destruct (Nat.lt_ge_cases k (i + 4)).
    + rewrite lookup_app_l by (simpl; lia). rewrite decide_True by lia.
      assert (k = i \/ k = i + 1 \/ k = i + 2 \/ k = i + 3)%nat as [-> | [-> | [-> | ->]]] by lia;
        [replace (i - i)%nat with 0%nat by lia|replace (i + 1 - i)%nat with 1%nat by lia
        |replace (i + 2 - i)%nat with 2%nat by lia|replace (i + 3 - i)%nat with 3%nat by lia]; done.
    + rewrite lookup_app_r by (simpl; lia). rewrite lookup_drop. cbn [length].
      replace (i + 4 + (k - i - 4))%nat with k by lia. rewrite Hd by done. repeat case_decide; try done; lia.
Qed.

(** What a short link reads back. *)
Lemma link_roundtrip target :
  Forall ascii target -> (length target <= 60)%nat ->
  take (length target)
    (link_bytes 0 (map (link_word (target ++ replicate (60 - length target) 0)) (seq 0 15)) (zeros 60))
  = take 18 target ++ replicate (length target - 18) 0.
Proof.
  intros Ht Hlen. set (buf := target ++ replicate (60 - length target) 0).
  assert (Forall ascii buf) as Hbuf by (apply Forall_app; split; [done|]; by apply Forall_replicate).
  pose proof (link_bytes_inv buf Hbuf 15 0 (zeros 60) eq_refl eq_refl) as H. set (db := link_bytes _ _ _) in *.
  assert (forall j, (j < 60)%nat -> db !! j = Some (if decide (j < 18)%nat then nth j buf 0 else 0)) as Hdb.
  { intros j Hj. apply H; [|done]. intros k Hk. rewrite decide_False by lia. unfold zeros.
    by rewrite lookup_replicate_2 by (simpl; lia). }
  apply list_eq. intros j. destruct (Nat.lt_ge_cases j (length target)) as [Hj|Hj].
  2: { rewrite !lookup_ge_None_2; [done|rewrite length_app, length_take, length_replicate; lia|rewrite length_take; lia]. }
  rewrite lookup_take_lt, Hdb by lia. destruct (decide (j < 18)%nat) as [H18|H18].
  - rewrite lookup_app_l, lookup_take_lt by (rewrite ?length_take; lia).
    unfold buf. rewrite app_nth1 by done. destruct (lookup_lt_is_Some_2 target j Hj) as [x Hx].
    rewrite Hx. f_equal. by apply nth_lookup_Some.
  - rewrite lookup_app_r by (rewrite length_take; lia). by rewrite lookup_replicate_2 by (rewrite length_take; lia).
Qed.

(** ** Device numbers *)

Lemma land_field z : Z.land z 0xfff00 = (z / 2 ^ 8) mod 2 ^ 12 * 2 ^ 8.
Proof.
  rewrite <- Z.shiftr_div_pow2, <- Z.land_ones, <- Z.shiftl_mul_pow2 by lia. apply Z.bits_inj'. intros i Hi.
  change 0xfff00 with (Z.shiftl (Z.ones 12) 8). rewrite Z.land_spec, !Z.shiftl_spec by done.
  destruct (Z.lt_ge_cases i 8).
  - rewrite !(Z.testbit_neg_r _ (i - 8)) by lia. apply andb_false_r.
  - rewrite Z.land_spec, Z.shiftr_spec by lia. by replace (i - 8 + 8) with i by lia.
Qed.

Lemma ldiff_low m : Z.ldiff m 0xff = m / 2 ^ 8 * 2 ^ 8.
Proof. change 0xff with (Z.ones 8). rewrite Z.ldiff_ones_r by lia. by rewrite Z.shiftl_mul_pow2, Z.shiftr_div_pow2. Qed.

(** Both encodings give the number back. *)
Lemma old_dev maj min : 0 <= maj < 256 -> 0 <= min < 256 -> OLD_DEV_DECODE (Z.lor (u32 (Z.shiftl maj 8)) min) = maj * 2 ^ 20 + min.
Proof.
  intros Ha Hi. unfold OLD_DEV_DECODE, MKDEV. rewrite (Z.shiftl_mul_pow2 maj), (wrap_small 32 (maj * _)) by lia.
  rewrite (lor_high_low maj min 8) by lia. rewrite Z.shiftr_div_pow2 by lia.
  change 255 with (Z.ones 8). rewrite !Z.land_ones by lia.
  assert (((maj * 2 ^ 8 + min) / 2 ^ 8) mod 2 ^ 8 = maj /\ (maj * 2 ^ 8 + min) mod 2 ^ 8 = min) as [-> ->]
    by (split; Z.div_mod_to_equations; lia).
  rewrite Z.shiftl_mul_pow2, wrap_small by lia. apply lor_high_low; lia.
Qed.

Lemma new_dev maj min :
  0 <= maj < 4096 -> 0 <= min < 2 ^ 20 ->
  let w := Z.lor (Z.lor (Z.land min 0xff) (u32 (Z.shiftl maj 8))) (u32 (Z.shiftl (Z.ldiff min 0xff) 12)) in
  0 <= w < 2 ^ 32 /\ NEW_DEV_DECODE w = maj * 2 ^ 20 + min.
Proof.
  intros Ha Hi. cbv zeta. set (lo := min mod 2 ^ 8). set (hi := min / 2 ^ 8).
  assert (0 <= lo < 2 ^ 8 /\ 0 <= hi < 2 ^ 12 /\ min = hi * 2 ^ 8 + lo) as (Hlo & Hhi & Emin)
    by (unfold lo, hi; split_and!; Z.div_mod_to_equations; lia).
  assert (Z.lor (Z.lor (Z.land min 0xff) (u32 (Z.shiftl maj 8))) (u32 (Z.shiftl (Z.ldiff min 0xff) 12))
          = hi * 2 ^ 20 + maj * 2 ^ 8 + lo) as ->.
  { change 0xff with (Z.ones 8) at 1. rewrite Z.land_ones by lia. fold lo. rewrite ldiff_low. fold hi.
    rewrite !Z.shiftl_mul_pow2 by lia. rewrite !wrap_small by lia. rewrite (Z.lor_comm lo), (lor_high_low maj lo 8) by lia.
    rewrite Z.lor_comm. replace (hi * 2 ^ 8 * 2 ^ 12) with (hi * 2 ^ 20) by lia.
    rewrite (lor_high_low hi _ 20) by lia. lia. }
  split; [lia|]. unfold NEW_DEV_DECODE, MKDEV. rewrite !land_field.
  change 0xff with (Z.ones 8). rewrite Z.land_ones, !Z.shiftr_div_pow2 by lia.
  set (w := hi * 2 ^ 20 + maj * 2 ^ 8 + lo).
  assert ((w / 2 ^ 8) mod 2 ^ 12 * 2 ^ 8 / 2 ^ 8 = maj /\ w mod 2 ^ 8 = lo /\ ((w / 2 ^ 12) / 2 ^ 8) mod 2 ^ 12 = hi) as (-> & -> & ->)
    by (unfold w; split_and!; Z.div_mod_to_equations; lia).
  rewrite Z.shiftl_mul_pow2, (wrap_small 32) by lia. rewrite (Z.lor_comm lo), (lor_high_low hi lo 8) by lia.
  rewrite <- Emin. apply lor_high_low; lia.
Qed.

Lemma set_old n maj min :
  0 <= maj < 256 -> 0 <= min < 256 -> i_block n !! 0%nat = Some 0 -> i_block n !! 1%nat = Some 0 ->
  exists n', set_ptr n 0 (Z.lor (u32 (Z.shiftl maj 8)) min) = Some n' /\ decode_dev n' = Some (maj * 2 ^ 20 + min).
Proof.
  intros Ha Hi H0 H1. pose proof (lookup_lt_Some _ _ _ H1) as Hl. pose proof (old_dev maj min Ha Hi) as E.
  set (w := Z.lor _ _) in *. assert (w = maj * 2 ^ 8 + min) as Ew.
  { unfold w. rewrite Z.shiftl_mul_pow2, wrap_small by lia. apply lor_high_low; lia. }
  unfold set_ptr. rewrite aset_in by lia. eexists. split; [done|]. unfold decode_dev. cbn [i_block set_i_block].
  rewrite !aget_insert by lia. rewrite (wrap_small 32 w) by lia.
  destruct (decide (0 = 0)) as [_|]; [|done]. destruct (decide (0 = 1)) as [|_]; [lia|]. cbn [mbind option_bind].
  destruct (Z.eqb_spec w 0) as [Hz|Hz]; cbn [negb]; [|by rewrite E].
  unfold aget. cbn [Z.leb Z.compare]. change (Z.to_nat 1) with 1%nat. rewrite H1. cbn [mbind option_bind].
  assert (maj = 0 /\ min = 0) as [-> ->] by lia. done.
Qed.

Lemma set_new n maj min :
  0 <= maj < 4096 -> 0 <= min < 2 ^ 20 -> i_block n !! 0%nat = Some 0 -> i_block n !! 1%nat = Some 0 ->
  exists n', set_ptr n 1 (Z.lor (Z.lor (Z.land min 0xff) (u32 (Z.shiftl maj 8))) (u32 (Z.shiftl (Z.ldiff min 0xff) 12)))
               = Some n' /\ decode_dev n' = Some (maj * 2 ^ 20 + min).
Proof.
  intros Ha Hi H0 H1. pose proof (lookup_lt_Some _ _ _ H1) as Hl. destruct (new_dev maj min Ha Hi) as [Hw Ew].
  set (w := Z.lor _ _) in *. unfold set_ptr. rewrite aset_in by lia. eexists. split; [done|].
  unfold decode_dev. cbn [i_block set_i_block]. rewrite !aget_insert by lia. rewrite (wrap_small 32 w) by lia.
  destruct (decide (1 = 0)) as [|_]; [lia|]. destruct (decide (1 = 1)) as [_|]; [|done].
  unfold aget. cbn [Z.leb Z.compare]. change (Z.to_nat 0) with 0%nat. rewrite H0. cbn. by rewrite Ew.
Qed.

(** A device number stored in a new inode is read back, whichever of the two
    encodings it takes; over an inode that still holds a number in the old
    encoding a number that needs the new one is not. *)
Theorem dev_roundtrip :
  (forall n dev, 0 <= dev < 2 ^ 32 -> i_block n !! 0%nat = Some 0 -> i_block n !! 1%nat = Some 0 ->
     exists n', encode_dev n dev = Some n' /\ decode_dev n' = Some dev) /\
  (forall n n' dev old, i_block n !! 0%nat = Some old -> old <> 0 -> OLD_DEV_VALID dev = false ->
     encode_dev n dev = Some n' -> decode_dev n' = Some (OLD_DEV_DECODE old)).
Proof.
  split.
  - intros n dev Hd H0 H1. set (maj := dev / 2 ^ 20). set (min := dev mod 2 ^ 20).
    assert (0 <= maj < 4096 /\ 0 <= min < 2 ^ 20 /\ maj * 2 ^ 20 + min = dev) as (Ha & Hi & E)
      by (unfold maj, min; split_and!; Z.div_mod_to_equations; lia).
    assert (MAJOR dev = maj) as Emaj by (unfold MAJOR; rewrite Z.shiftr_div_pow2 by lia; apply wrap_small; fold maj; lia).
    assert (MINOR dev = min) as Emin by (unfold MINOR; change (2 ^ 20 - 1) with (Z.ones 20); by rewrite Z.land_ones).
    unfold encode_dev, OLD_DEV_VALID, OLD_DEV_ENCODE, NEW_DEV_ENCODE. rewrite Emaj, Emin.
    destruct ((maj <? 256) && (min <? 256)) eqn:Ev.
    + to_prop. rewrite <- E. apply set_old; (lia || done).
    + rewrite <- E. by apply set_new.
  - intros n n' dev old Hold Hne Hv E. unfold encode_dev in E. rewrite Hv in E. unfold set_ptr in E.
    destruct (aset (i_block n) 1 _) as [l|] eqn:Ea; [|done]. injection E as <-. unfold decode_dev. cbn [i_block set_i_block].
    rewrite (aget_aset_ne _ _ _ 0 _ Ea) by lia. unfold aget. cbn [Z.leb Z.compare]. change (Z.to_nat 0) with 0%nat. rewrite Hold. cbn [mbind option_bind].
    by rewrite (proj2 (Z.eqb_neq _ _) Hne).
Qed.

Section link.
Context {D : Type} (drv : drivers D) `{!sector_laws drv, !reliable drv}.
Context (v : vfs_t) (t p : Z).
Notation ready := (ready v t p).

(** The inode of a short link. *)
Definition link_ino (mode uid gid time : Z) (target : list Z) : ext2_ino_t :=
  set_i_size (Z.of_nat (length target)) 0
    (set_i_block (map (link_word (target ++ replicate (60 - length target) 0)) (seq 0 15)) (fresh_ino mode uid gid time)).

Lemma link_ino_ok mode uid gid time target :
  0 <= mode < 2 ^ 16 -> 0 <= uid < 2 ^ 16 -> 0 <= gid < 2 ^ 16 -> (length target <= 60)%nat ->
  ino_ok (link_ino mode uid gid time target).
Proof.
  intros Hm Hu Hg Hl. pose proof (wrap_range 32 time ltac:(lia)) as Ht. split_and!; [| | |done].
  - unfold ino_widths1, ino_fields1, link_ino, fresh_ino.
    cbn [set_i_size set_i_block i_mode i_uid i_size i_atime i_ctime i_mtime i_dtime i_gid i_links_count i_blocks i_flags i_osd1].
    rewrite !Forall2_cons. split_and!; try (by apply fits2); try (apply fits4; lia); done.
  - apply Forall2_replicate_l; [done|]. apply Forall_map. apply Forall_forall. intros i _. apply fits4, link_word_range.
  - unfold link_ino, ino_fields2. cbn. rewrite !Forall2_cons. done.
Qed.

(** A link target of up to 60 ASCII characters reads back its first 18
    characters followed by zeros: targets of up to 18 characters round trip and
    longer ones do not, although 60 bytes are reserved.  The call fails only when
    no group has a free inode. *)
Theorem ext2_symlink_readsym s f mode uid gid (target buf : list Z) :
  ready s f -> layout f -> bitmaps_ok bg_inode_bitmap f -> tables_ok f ->
  0 < ipg f -> ipg f + 7 < 2 ^ 32 -> ipg f <= 8 * blocksz f ->
  0 <= mode < 2 ^ 16 -> 0 <= uid < 2 ^ 16 -> 0 <= gid < 2 ^ 16 ->
  Forall ascii target -> (length target <= 60)%nat -> (length target < length buf)%nat -> Z.of_nat (length buf) < 2 ^ 63 ->
  exists s' r, ext2fs_symlink drv v mode uid gid target s = Done s' r /\
    ((r = - ENOSPC /\ forall grp, 0 <= grp < nbgs f -> spent drv t p s f grp) \/
     (0 < r /\ exists out, ext2fs_readsym drv v r buf (Z.of_nat (length buf)) s' = Done s' (Z.of_nat (length target), out) /\
        take (length target) out = take 18 target ++ replicate (length target - 18) 0)).
Proof.
  intros Hr Hy Hbm Htb Hi0 Hi1 Hi2 Hm Hu Hg Hasc Hlen Hbuf Hmax. set (n := link_ino mode uid gid (clock s) target).
  assert (0 <= nbgs f) as Hn by (pose proof (y_len _ Hy); lia).
  destruct (mkino_loop_ok drv v t p s f n Hr Hy Hbm Htb) with (cnt := Z.to_nat (nbgs f)) (grp := 0)
    as (s' & r & E & H); try done; try lia; [by apply link_ino_ok|].
  exists s', r. split.
  - unfold ext2fs_symlink. rewrite (bind_fs v t p s f) by done. rewrite bind_gets.
    rewrite (proj2 (Z.leb_le _ _)) by lia. unfold mkino_base. by rewrite (bind_fs v t p s f).
  - destruct H as [[-> Hall]|(f' & g & _ & _ & Hr' & _ & Eg & Hpos)]; [left; split; [done|]; intros; apply Hall; lia|right].
    split; [done|]. unfold ext2fs_readsym. rewrite (bind_fs v t p s' f') by done.
    rewrite (bind_done _ _ _ _ _ Eg). cbn [fst snd Z.ltb Z.compare].
    change (i_size n) with (Z.of_nat (length target)). change (i_block n) with
      (map (link_word (target ++ replicate (60 - length target) 0)) (seq 0 15)).
    rewrite (wrap_small 64), (proj2 (Z.ltb_ge _ _)), (proj2 (Z.leb_le _ _)) by lia.
    rewrite Nat2Z.id, link_roundtrip by done. rewrite into_ok.
    2: { rewrite !length_app, length_take, length_replicate. cbn [length]. lia. }
    rewrite bind_deref. eexists. split; [done|]. unfold splice. cbn [take app].
    rewrite <- (app_assoc _ [0]). change (take 0 buf) with (@nil Z). cbn [app].
    apply take_app_length'. rewrite length_app, length_take, length_replicate. lia.
Qed.

End link.

End Ext2Link.
