(* ===== verification/Ext2Dir.v ===== *)
(** Directories of ext2: entries in blocks, [ext2fs_mklink] and [ext2fs_lookup].

    A block of a directory is laid out as a list of records that fill it
    ([lay]).  On that list, adding an entry is [place] and looking a name up is
    [find_dent]; the driver does the same on the bytes. *)
From S2P Require Import Prelude CString VfsOps Block Ext2 Ext2Facts Ext2Data.

Module Ext2Dir.
Import CString VfsOps Block Ext2 Ext2Facts Ext2Data.

(** A record: its header, and its bytes after the header. *)
Notation dent := (ext2_dir1_t * list Z)%type.

Definition dent_bytes (d : dent) : list Z := enc_dir d.1 ++ d.2.
Definition lay (ds : list dent) : list Z := concat (map dent_bytes ds).
Definition dname (d : dent) : list Z := take (Z.to_nat (name_len d.1)) d.2.

Record dent_ok (d : dent) : Prop := mk_dent_ok {
  d_ino : 0 <= inode d.1 < 2 ^ 32;
  d_rec : rec_len d.1 = 8 + Z.of_nat (length d.2);
  d_max : rec_len d.1 < 2 ^ 16;
  d_name : 0 <= name_len d.1 < 256 /\ name_len d.1 <= Z.of_nat (length d.2);
  d_type : 0 <= file_type d.1 < 256
}.

Lemma length_enc_dir e : length (enc_dir e) = 8%nat.
Proof. unfold enc_dir. by rewrite length_enc_fields. Qed.

Lemma dec_enc_dir d r : dent_ok d -> dec_dir (dent_bytes d ++ r) = d.1.
Proof.
  intros [H1 H2 H3 H4 H5]. unfold dec_dir, dent_bytes, enc_dir. rewrite <- app_assoc, dec_enc_fields; [by destruct d as [[] ?]|].
  rewrite !Forall2_cons. unfold fits. cbn [Z.of_nat Z.pow Z.pow_pos Pos.iter Pos.of_succ_nat Pos.succ Z.mul Pos.mul].
  split_and!; try lia; done.
Qed.

Lemma length_dent d : dent_ok d -> Z.of_nat (length (dent_bytes d)) = rec_len d.1.
Proof. intros H. unfold dent_bytes. rewrite length_app, length_enc_dir, (d_rec _ H). lia. Qed.

Lemma lay_cons d ds : lay (d :: ds) = dent_bytes d ++ lay ds.
Proof. done. Qed.

Lemma lay_app ds1 ds2 : lay (ds1 ++ ds2) = lay ds1 ++ lay ds2.
Proof. unfold lay. by rewrite map_app, concat_app. Qed.

(** The header at the start of a record. *)
Lemma dir_at_lay pre d r :
  dent_ok d -> dir_at (pre ++ dent_bytes d ++ r) (Z.of_nat (length pre)) = Some d.1.
Proof.
  intros Hd. unfold dir_at. rewrite (proj2 (Z.leb_le _ _)) by lia. rewrite (proj2 (Z.leb_le _ _)).
  - cbn [andb]. rewrite Nat2Z.id, drop_app_length. by rewrite dec_enc_dir.
  - rewrite !length_app. pose proof (length_dent d Hd). pose proof (d_rec _ Hd). unfold DIRHDR. lia.
Qed.

(** ** Names *)

Lemma memcmp_prefix : forall (a b ra rb : list Z),
  length a = length b -> exists c, memcmp_loop (length a) (a ++ ra) (b ++ rb) = Some c /\ (c = 0 <-> a = b).
Proof.
  induction a as [|x a IH]; intros [|y b] ra rb Hl; try done; cbn [length memcmp_loop app head tail mbind option_bind].
  - exists 0. done.
  - destruct (Z.eqb_spec x y) as [->|Hne]; cbn [negb].
    + destruct (IH b ra rb) as (c & E & Hc); [simpl in Hl; lia|]. exists c. split; [done|].
      rewrite Hc. split; [by intros ->|by intros [= ->]].
    + exists (x - y). split; [done|]. split; [lia|intros [= ? _]; lia].
Qed.

Lemma name_is_lay pre d r name :
  dent_ok d ->
  name_is (pre ++ dent_bytes d ++ r) (Z.of_nat (length pre)) d.1 name = Some (bool_decide (dname d = name)).
Proof.
  intros Hd. pose proof (d_name _ Hd) as [H1 H2]. unfold name_is.
  destruct (Z.eqb_spec (name_len d.1) (Z.of_nat (length name))) as [E|E]; cbn [negb].
  - rewrite Nat2Z.id. unfold dent_bytes. rewrite <- app_assoc, app_assoc, drop_app_length'.
    2: { rewrite length_app, length_enc_dir. done. }
    unfold memcmp, cstr. rewrite <- (take_drop (Z.to_nat (name_len d.1)) d.2), <- app_assoc. fold (dname d).
    assert (length (dname d) = length name) as Hl by (unfold dname; rewrite length_take; lia).
    replace (Z.to_nat (name_len d.1)) with (length (dname d)) by (rewrite Hl; lia).
    destruct (memcmp_prefix (dname d) name (drop (length (dname d)) d.2 ++ r) [0] Hl) as (c & -> & Hc).
    cbn [mbind option_bind]. f_equal. destruct (Z.eqb_spec c 0) as [Hz|Hz].
    + symmetry. apply bool_decide_eq_true. by apply Hc.
    + symmetry. apply bool_decide_eq_false. intros Hn. by apply Hz, Hc.
  - symmetry. f_equal. apply bool_decide_eq_false. intros <-. apply E. unfold dname. rewrite length_take. lia.
Qed.

(** The inode under a name. *)
Fixpoint find_dent (ds : list dent) (name : list Z) : option Z :=
  match ds with
  | [] => None
  | d :: r => if bool_decide (dname d = name) then Some (inode d.1) else find_dent r name
  end.

Definition scan_of (o : option Z) : scan_res := match o with Some i => Hit i | None => Miss end.

(** The scan of the bytes is the search in the list, and it ends. *)
Lemma lookup_lay name : forall ds pre fuel,
  Forall dent_ok ds -> (length (lay ds) <= fuel)%nat ->
  lookup_loop fuel (pre ++ lay ds) (Z.of_nat (length pre)) name = scan_of (find_dent ds name).
Proof.
  induction ds as [|d ds IH]; intros pre fuel Hok Hf.
  - destruct fuel; cbn [lookup_loop]; rewrite app_nil_r, (proj2 (Z.ltb_ge _ _)) by lia; done.
  - apply Forall_cons in Hok as [Hd Hok]. pose proof (length_dent d Hd) as Hl. pose proof (d_rec _ Hd).
    rewrite lay_cons, length_app in Hf. destruct fuel as [|fuel]; [lia|]. cbn [lookup_loop].
    rewrite lay_cons. rewrite (proj2 (Z.ltb_lt _ _)) by (rewrite !length_app; lia). cbn [negb].
    rewrite dir_at_lay, name_is_lay by done. cbn [find_dent]. destruct (bool_decide _); [done|].
    rewrite app_assoc. replace (Z.of_nat (length pre) + rec_len d.1) with (Z.of_nat (length (pre ++ dent_bytes d)))
      by (rewrite length_app; lia). apply IH; [done|lia].
Qed.

(** ** Adding an entry *)

Lemma reclen_spec n : 0 <= n -> n + 8 <= DIR_RECLEN n <= n + 11 /\ (n < 256 -> DIR_RECLEN n <= 264).
Proof.
  intros Hn. unfold DIR_RECLEN. change (-4) with (Z.lnot (Z.ones 2)). rewrite <- Z.ldiff_land, Z.ldiff_ones_r by lia.
  rewrite Z.shiftl_mul_pow2, Z.shiftr_div_pow2 by lia. Z.div_mod_to_equations. lia.
Qed.

Lemma set_rec_len_lay pre d r l :
  0 <= l < 2 ^ 16 ->
  set_rec_len (pre ++ dent_bytes d ++ r) (Z.of_nat (length pre)) l
  = pre ++ dent_bytes (mk_dir (inode d.1) l (name_len d.1) (file_type d.1), d.2) ++ r.
Proof.
  intros Hl. unfold set_rec_len. rewrite Nat2Z.id, wrap_small by done. unfold splice. rewrite length_le.
  rewrite take_app_ge, drop_app_ge by lia. rewrite <- app_assoc. f_equal.
  replace (length pre + 4 - length pre)%nat with 4%nat by lia.
  replace (length pre + 4 + 2 - length pre)%nat with 6%nat by lia.
  unfold dent_bytes, enc_dir. cbn [enc_fields inode rec_len name_len file_type fst snd].
  rewrite <- !app_assoc. rewrite take_app_length' by (by rewrite length_le). f_equal.
Qed.

Section place.
Context (ino ft nsz : Z) (name g : list Z).

Definition new_hdr (rl : Z) : ext2_dir1_t := mk_dir ino rl (u8 (Z.of_nat (length name))) ft.
Definition new_body : list Z := take (Z.to_nat nsz - 8) (name ++ replicate (255 - length name) 0 ++ g).

(** The first record with room takes the entry: an unused record as a whole, a
    used one what it has beyond its name. *)
Fixpoint place (ds : list dent) : option (list dent) :=
  match ds with
  | [] => None
  | (e, b) :: r =>
      let oldsz := DIR_RECLEN (name_len e) in
      if inode e =? 0 then
        if nsz <=? rec_len e then Some ((new_hdr (rec_len e), new_body ++ drop (Z.to_nat nsz - 8) b) :: r)
        else (cons (e, b)) <$> place r
      else if (oldsz <=? rec_len e) && (nsz <=? rec_len e - oldsz) then
        Some ((mk_dir (inode e) oldsz (name_len e) (file_type e), take (Z.to_nat oldsz - 8) b) ::
              (new_hdr (rec_len e - oldsz), new_body ++ drop (Z.to_nat (oldsz + nsz) - 8) b) :: r)
      else (cons (e, b)) <$> place r
  end.

Context (Hlen : (length name < 256)%nat) (Hnsz : nsz = DIR_RECLEN (Z.of_nat (length name))) (Hg : length g = 1%nat)
  (Hino : 0 < ino < 2 ^ 32) (Hft : 0 <= ft < 256).

Lemma nsz_range : Z.of_nat (length name) + 8 <= nsz <= Z.of_nat (length name) + 11 /\ nsz <= 264.
Proof. destruct (reclen_spec (Z.of_nat (length name))); [lia|]. rewrite Hnsz. lia. Qed.

Lemma length_new_body : length new_body = (Z.to_nat nsz - 8)%nat.
Proof. pose proof nsz_range. unfold new_body. rewrite length_take, !length_app, length_replicate. lia. Qed.

Lemma newent_eq rl : newent ino rl ft name g nsz = enc_dir (new_hdr rl) ++ new_body.
Proof.
  pose proof nsz_range. unfold newent. rewrite take_app_ge by (rewrite length_enc_dir; lia). by rewrite length_enc_dir.
Qed.

Lemma take_new_body : take (length name) new_body = name.
Proof.
  pose proof nsz_range. unfold new_body. rewrite take_take, Nat.min_l by lia. apply take_app_length.
Qed.

(** The new record is in order and carries the name. *)
Lemma new_dent rl tl :
  rl = nsz + Z.of_nat (length tl) -> rl < 2 ^ 16 ->
  dent_ok (new_hdr rl, new_body ++ tl) /\ dname (new_hdr rl, new_body ++ tl) = name.
Proof.
  intros Hrl Hmax. pose proof nsz_range. pose proof length_new_body as Hb.
  assert (u8 (Z.of_nat (length name)) = Z.of_nat (length name)) as Hu by (apply wrap_small; lia).
  split.
  - split; cbn [fst snd new_hdr inode rec_len name_len file_type]; rewrite ?Hu, ?length_app, ?Hb; lia.
  - unfold dname. cbn [fst snd new_hdr name_len]. rewrite Hu, Nat2Z.id, take_app_le by lia. apply take_new_body.
Qed.

(** What adding the entry does to a list of records: they keep their total
    length, the name is found, and so is every other name of a used record. *)
Record placed (ds ds' : list dent) : Prop := mk_placed {
  pl_ok : Forall dent_ok ds';
  pl_len : length (lay ds') = length (lay ds);
  pl_new : find_dent ds name = None -> find_dent ds' name = Some ino;
  pl_old nm : nm <> name -> find_dent ds nm <> Some 0 -> find_dent ds' nm = find_dent ds nm
}.

Lemma placed_cons d ds ds' : dent_ok d -> placed ds ds' -> placed (d :: ds) (d :: ds').
Proof.
  intros Hd [H1 H2 H3 H4]. split.
  - by apply Forall_cons.
  - rewrite !lay_cons, !length_app. lia.
  - cbn [find_dent]. destruct (bool_decide _); [done|]. apply H3.
  - intros nm Hne. cbn [find_dent]. destruct (bool_decide _); [done|]. by apply H4.
Qed.

(** The entry in an unused record. *)
Lemma placed_free e b r :
  Forall dent_ok ((e, b) :: r) -> inode e = 0 -> nsz <= rec_len e ->
  placed ((e, b) :: r) ((new_hdr (rec_len e), new_body ++ drop (Z.to_nat nsz - 8) b) :: r).
Proof.
  intros [Hd Hok]%Forall_cons E0 Hfit. pose proof Hd as [D1 D2 D3 D4 D5]. cbn [fst snd] in *. pose proof nsz_range.
  destruct (new_dent (rec_len e) (drop (Z.to_nat nsz - 8) b)) as [Hn1 Hn2]; [rewrite length_drop; lia|done|]. split.
  - by apply Forall_cons.
  - rewrite !lay_cons, !length_app. f_equal. apply Nat2Z.inj. rewrite !length_dent by done. done.
  - intros _. cbn [find_dent]. by rewrite bool_decide_eq_true_2.
  - intros nm Hne. cbn [find_dent]. rewrite Hn2, (bool_decide_eq_false_2 (name = nm)) by congruence.
    case_bool_decide; [|done]. cbn [fst]. by rewrite E0.
Qed.

(** The entry in what a used record does not need. *)
Lemma placed_split e b r (oldsz := DIR_RECLEN (name_len e)) :
  Forall dent_ok ((e, b) :: r) -> oldsz <= rec_len e -> nsz <= rec_len e - oldsz ->
  placed ((e, b) :: r)
    ((mk_dir (inode e) oldsz (name_len e) (file_type e), take (Z.to_nat oldsz - 8) b) ::
     (new_hdr (rec_len e - oldsz), new_body ++ drop (Z.to_nat (oldsz + nsz) - 8) b) :: r).
Proof.
  intros [Hd Hok]%Forall_cons Ho1 Ho2. pose proof Hd as [D1 D2 D3 D4 D5]. cbn [fst snd] in *. pose proof nsz_range.
  pose proof (reclen_spec (name_len e) ltac:(lia)) as [Ho _]. fold oldsz in Ho.
  destruct (new_dent (rec_len e - oldsz) (drop (Z.to_nat (oldsz + nsz) - 8) b)) as [Hn1 Hn2];
    [rewrite length_drop; lia|lia|].
  set (e' := mk_dir (inode e) oldsz (name_len e) (file_type e)).
  assert (dent_ok (e', take (Z.to_nat oldsz - 8) b)) as He'.
  { split; cbn [fst snd e' inode rec_len name_len file_type]; rewrite ?length_take; lia. }
  assert (dname (e', take (Z.to_nat oldsz - 8) b) = dname (e, b)) as Hne'.
  { unfold dname. cbn [fst snd e' name_len]. rewrite take_take. f_equal. lia. }
  split.
  - by rewrite !Forall_cons.
  - rewrite !lay_cons, !length_app. apply Nat2Z.inj. rewrite !Nat2Z.inj_add, !length_dent by done.
    cbn [fst e' new_hdr rec_len]. lia.
  - cbn [find_dent]. rewrite Hne'. case_bool_decide; [done|]. intros _. by rewrite Hn2, bool_decide_eq_true_2.
  - intros nm Hne. cbn [find_dent]. rewrite Hne', Hn2. case_bool_decide; [done|].
    by rewrite (bool_decide_eq_false_2 (name = nm)) by congruence.
Qed.

Lemma place_placed : forall ds ds', Forall dent_ok ds -> place ds = Some ds' -> placed ds ds'.
Proof.
  induction ds as [|[e b] r IH]; intros ds' Hok Hp; [done|]. pose proof (Forall_inv Hok). pose proof (Forall_inv_tail Hok).
  assert (cons (e, b) <$> place r = Some ds' -> placed ((e, b) :: r) ds') as Hnext.
  { destruct (place r) as [ds1|]; [|done]. intros [= <-]. apply placed_cons; auto. }
  cbn [place] in Hp. destruct (Z.eqb_spec (inode e) 0) as [E0|E0].
  - destruct (Z.leb_spec nsz (rec_len e)); [|by apply Hnext]. injection Hp as <-. by apply placed_free.
  - destruct (_ && _) eqn:Ec; [|by apply Hnext]. injection Hp as <-. to_prop. by apply placed_split.
Qed.

(** *** The same on the bytes *)

Lemma write_over pre q r rl :
  nsz <= Z.of_nat (length q) ->
  into (pre ++ q ++ r) (newent ino rl ft name g nsz) (length pre)
  = Some (pre ++ dent_bytes (new_hdr rl, new_body ++ drop (Z.to_nat nsz) q) ++ r).
Proof.
  intros Hfit. pose proof nsz_range as Hr. pose proof length_new_body as Hnb.
  rewrite newent_eq, into_ok by (rewrite !length_app, length_enc_dir, Hnb; lia).
  f_equal. unfold splice. rewrite take_app_length. f_equal. unfold dent_bytes. cbn [fst snd].
  rewrite length_app, length_enc_dir, Hnb. rewrite <- !app_assoc. do 2 f_equal.
  rewrite drop_app_ge by lia. rewrite drop_app_le by lia. do 2 f_equal. lia.
Qed.

(** A used record is cut to its name and the entry follows it. *)
Lemma write_split pre e b r (oldsz := DIR_RECLEN (name_len e)) :
  dent_ok (e, b) -> oldsz <= rec_len e -> nsz <= rec_len e - oldsz ->
  into (set_rec_len (pre ++ dent_bytes (e, b) ++ lay r) (Z.of_nat (length pre)) oldsz)
    (newent ino (u16 (rec_len e - oldsz)) ft name g nsz) (Z.to_nat (Z.of_nat (length pre) + oldsz))
  = Some (pre ++ lay ((mk_dir (inode e) oldsz (name_len e) (file_type e), take (Z.to_nat oldsz - 8) b) ::
       (new_hdr (rec_len e - oldsz), new_body ++ drop (Z.to_nat (oldsz + nsz) - 8) b) :: r)).
Proof.
  intros [D1 D2 D3 D4 D5] Ho1 Ho2. cbn [fst snd] in *. pose proof nsz_range.
  destruct (reclen_spec (name_len e) ltac:(lia)) as [Ho _]. fold oldsz in Ho.
  rewrite (set_rec_len_lay pre (e, b)) by lia. cbn [fst snd].
  set (e' := mk_dir (inode e) oldsz (name_len e) (file_type e)). rewrite (wrap_small 16) by lia.
  set (hd := enc_dir e' ++ take (Z.to_nat oldsz - 8) b).
  assert (length hd = Z.to_nat oldsz) as Hhd by (unfold hd; rewrite length_app, length_enc_dir, length_take; lia).
  assert (dent_bytes (e', b) = hd ++ drop (Z.to_nat oldsz - 8) b) as ->.
  { unfold dent_bytes, hd. cbn [fst snd]. by rewrite <- app_assoc, take_drop. }
  rewrite <- app_assoc, (app_assoc pre).
  replace (Z.to_nat (Z.of_nat (length pre) + oldsz)) with (length (pre ++ hd)) by (rewrite length_app; lia).
  rewrite write_over by (rewrite length_drop; lia).
  rewrite drop_drop, !lay_cons, <- app_assoc. unfold hd at 1. unfold dent_bytes at 2. cbn [fst snd].
  do 6 f_equal. do 2 f_equal. lia.
Qed.

End place.

Section mklink.
Context {D : Type} (drv : drivers D) (v : vfs_t).
Context (ino ft nsz : Z) (name g : list Z) (n : ext2_ino_t).
Context (Hlen : (length name < 256)%nat) (Hnsz : nsz = DIR_RECLEN (Z.of_nat (length name))) (Hg : length g = 1%nat).

(** The scan of a block stores the list with the entry in place. *)
Lemma mklink_block_lay f blk s : forall ds pre fuel,
  Forall dent_ok ds -> (length (lay ds) <= fuel)%nat -> Z.of_nat (length (pre ++ lay ds)) = blocksz f ->
  mklink_block drv fuel v f ino ft nsz n name g blk (pre ++ lay ds) (Z.of_nat (length pre)) s
  = match place ino ft nsz name g ds with
    | None => Done s None
    | Some ds' => (r ← wrblk drv v blk (pre ++ lay ds');
                   if r <? 0 then mret (Some r) else r ← links_up drv v ino n; mret (Some r)) s
    end.
Proof.
  pose proof (nsz_range nsz name g Hlen Hnsz Hg) as Hr.
  induction ds as [|d ds IH]; intros pre fuel Hok Hf Hbz.
  { rewrite app_nil_r in *. destruct fuel; cbn [mklink_block]; rewrite (proj2 (Z.ltb_ge _ _)) by lia; done. }
  apply Forall_cons in Hok as [Hd Hok]. pose proof (length_dent d Hd) as Hl. pose proof Hd as [D1 D2 D3 D4 D5].
  rewrite lay_cons, !length_app in Hbz. rewrite lay_cons, length_app in Hf.
  destruct fuel as [|fuel]; [lia|]. cbn [mklink_block]. rewrite (proj2 (Z.ltb_lt _ _)) by lia. cbn [negb].
  rewrite lay_cons, dir_at_lay, bind_deref by done. unfold bad_rec.
  rewrite (proj2 (Z.ltb_ge _ 8)), (proj2 (Z.ltb_ge (blocksz f) _)) by lia. cbn [orb].
  assert (mklink_block drv fuel v f ino ft nsz n name g blk (pre ++ dent_bytes d ++ lay ds)
            (Z.of_nat (length pre) + rec_len d.1) s
          = match (cons d) <$> place ino ft nsz name g ds with
            | None => Done s None
            | Some ds' => (r ← wrblk drv v blk (pre ++ lay ds');
                           if r <? 0 then mret (Some r) else r ← links_up drv v ino n; mret (Some r)) s
            end) as Hnext.
  { rewrite app_assoc. replace (Z.of_nat (length pre) + rec_len d.1) with (Z.of_nat (length (pre ++ dent_bytes d)))
      by (rewrite length_app; lia).
    rewrite IH; [|done|lia|rewrite !length_app; lia].
    destruct (place _ _ _ _ _ ds) as [ds'|]; [|done]. cbn [fmap option_fmap option_map]. by rewrite lay_cons, app_assoc. }
  destruct d as [e b]. cbn [fst snd] in *. cbn [place]. set (oldsz := DIR_RECLEN (name_len e)).
  destruct (inode e =? 0).
  - destruct (Z.leb_spec nsz (rec_len e)); [|done]. rewrite Nat2Z.id.
    rewrite (write_over ino ft nsz name g Hlen Hnsz Hg) by lia. unfold dent_bytes at 2. cbn [fst snd].
    rewrite (drop_app_ge (enc_dir e)), length_enc_dir by (rewrite length_enc_dir; lia). done.
  - destruct ((oldsz <=? rec_len e) && (nsz <=? rec_len e - oldsz)) eqn:Ec; [|done]. to_prop.
    by rewrite (write_split ino ft nsz name g Hlen Hnsz Hg) by (done || lia).
Qed.

End mklink.

(** ** Directories on disk *)

Section dirs.
Context {D : Type} (drv : drivers D) `{!sector_laws drv, !reliable drv}.
Context (v : vfs_t) (t p : Z).
Notation B := (B drv t p).
Notation ready := (ready v t p).
Notation changed := (changed drv t p).
Notation inode_at := (inode_at drv t p).
Notation mapped := (mapped drv t p).

(** Directory [dino] with inode [dn]: its blocks [m 0], ... hold the bytes [bss]. *)
Record dir_on (s : est D) (f : ext2fs_t) (dino : Z) (gd : ext2_bg_t) (dn : ext2_ino_t) (m : Z -> Z)
  (bss : list (list Z)) : Prop := mk_dir_on {
  dir_ino : inode_at s f dino gd dn;
  dir_size : getisize f dn = Z.of_nat (length bss) * blocksz f;
  dir_small : 0 < getisize f dn /\ getisize f dn + blocksz f < 2 ^ 32;
  dir_map : mapped s f dn 0 (Z.of_nat (length bss)) m;
  dir_blk i bs : bss !! i = Some bs -> B (spb f) s (m (Z.of_nat i)) = bs
}.

Lemma lay_concat (dss : list (list dent)) : lay (concat dss) = concat (map lay dss).
Proof. induction dss as [|ds dss IH]; [done|]. cbn [concat map]. by rewrite lay_app, IH. Qed.

Lemma getinodata_loop_ok s f n m :
  ready s f -> forall (bss : list (list Z)) b acc hi,
  mapped s f n 0 hi m -> 0 <= b -> b + Z.of_nat (length bss) = hi ->
  (forall i bs, bss !! i = Some bs -> B (spb f) s (m (b + Z.of_nat i)) = bs) ->
  getinodata_loop drv (length bss) b (Z.of_nat (length bss) * blocksz f) v n acc s = Done s (0, acc ++ concat bss).
Proof.
  intros Hr. pose proof (r_bsz _ _ _ _ _ Hr) as Hbs. pose proof (r_spb _ _ _ _ _ Hr) as Hsp.
  induction bss as [|bs bss IH]; intros b acc hi Hm Hb Hhi Hblk; cbn [length getinodata_loop concat].
  { by rewrite app_nil_r. }
  cbn [length] in Hhi. rewrite (bind_fs v t p s f) by done.
  rewrite (bind_done _ _ _ _ _ (mapped_getblkid drv v t p s f n 0 hi m b Hr Hm ltac:(lia))).
  pose proof (m_disk _ _ _ _ _ _ _ _ _ Hm b ltac:(lia)) as [Hdisk _].
  rewrite (proj2 (Z.ltb_ge _ _)), (proj2 (Z.eqb_neq _ _)) by lia. rewrite Z.min_r, Z.eqb_refl by nia.
  rewrite (bind_rdnew drv v t p s f) by (done || lia). cbn [fst snd Z.ltb Z.compare].
  pose proof (Hblk 0%nat bs eq_refl) as E. rewrite Z.add_0_r in E. rewrite E.
  replace (Z.of_nat (S (length bss)) * blocksz f - blocksz f) with (Z.of_nat (length bss) * blocksz f) by lia.
  rewrite (IH (b + 1) (acc ++ bs) hi) by (done || lia || (intros i bs' Hi; rewrite <- (Hblk (S i) bs' Hi); f_equal; f_equal; lia)).
  by rewrite <- app_assoc.
Qed.

Lemma getinodata_ok s f dino gd dn m bss :
  ready s f -> dir_on s f dino gd dn m bss -> getinodata drv v dn s = Done s (0, Some (concat bss)).
Proof.
  intros Hr [Hi Hs Hsm Hm Hl]. pose proof (r_bsz _ _ _ _ _ Hr) as Hbs. pose proof (r_spb _ _ _ _ _ Hr) as Hsp.
  unfold getinodata. rewrite (bind_fs v t p s f) by done. rewrite (wrap_small 32 (getisize f dn)) by lia.
  rewrite (proj2 (Z.eqb_neq _ _)) by lia. rewrite (bind_malloc v t p s f) by done. cbn [negb].
  rewrite bind_udiv by lia. rewrite (wrap_small 32) by lia. rewrite Hs.
  replace ((Z.of_nat (length bss) * blocksz f + blocksz f - 1) / blocksz f) with (Z.of_nat (length bss))
    by (apply Z.div_unique with (blocksz f - 1); lia).
  by rewrite Nat2Z.id, (bind_done _ _ _ _ _ (getinodata_loop_ok s f dn m Hr bss 0 [] _ Hm ltac:(lia) eq_refl Hl)).
Qed.

Lemma dir_lay s f dino gd dn m dss :
  dir_on s f dino gd dn m (map lay dss) -> Forall (Forall dent_ok) dss ->
  forall i ds, dss !! i = Some ds -> B (spb f) s (m (Z.of_nat i)) = lay ds /\ Forall dent_ok ds.
Proof.
  intros Hd Hok i ds Hi. split; [|by eapply Forall_lookup_1]. apply (dir_blk _ _ _ _ _ _ _ Hd i).
  change (map lay) with (fmap (M := list) lay). by rewrite list_lookup_fmap, Hi.
Qed.

(** Lookup is the search in the records. *)
Lemma lookup_ok s f dino gd dn m dss name :
  ready s f -> dir_on s f dino gd dn m (map lay dss) -> Forall (Forall dent_ok) dss ->
  ext2fs_lookup drv v dino name s = Done s (default (- ENOENT) (find_dent (concat dss) name)).
Proof.
  intros Hr Hd Hok. unfold ext2fs_lookup, checkb.
  rewrite (bind_done _ _ _ _ _ (getino_at drv v t p s f dino gd dn Hr (dir_ino _ _ _ _ _ _ _ Hd))).
  cbn [fst snd Z.ltb Z.compare]. rewrite (bind_done _ _ _ _ _ (getinodata_ok _ _ _ _ _ _ _ Hr Hd)).
  cbn [fst snd Z.ltb Z.compare]. rewrite <- lay_concat.
  change (lookup_loop (length (lay (concat dss))) (lay (concat dss)) 0 name) with
    (lookup_loop (length (lay (concat dss))) ([] ++ lay (concat dss)) (Z.of_nat (length (@nil Z))) name).
  rewrite lookup_lay; [by destruct (find_dent _ _)| |done]. by apply Forall_concat.
Qed.

Lemma nblocks_ok {A} s f dino gd dn m bss (k : Z -> M (est D) A) :
  ready s f -> dir_on s f dino gd dn m bss -> mbind k (nblocks f dn) s = k (Z.of_nat (length bss)) s.
Proof.
  intros Hr [_ Hsz Hsm _ _]. pose proof (r_bsz _ _ _ _ _ Hr). pose proof (r_spb _ _ _ _ _ Hr).
  unfold nblocks. rewrite Hsz, (wrap_small 64) by lia. rewrite bind_udiv by lia. f_equal.
  symmetry. apply Z.div_unique with (blocksz f - 1); lia.
Qed.

Lemma dirblk_ok {A} s f n hi m b (k : Z + Z -> M (est D) A) :
  ready s f -> mapped s f n 0 hi m -> 0 <= b < hi -> mbind k (dirblk drv v n b) s = k (inl (m b)) s.
Proof.
  intros Hr Hm Hb. pose proof (m_disk _ _ _ _ _ _ _ _ _ Hm b Hb) as [Hdisk _]. unfold dirblk. apply bind_done.
  rewrite (bind_done _ _ _ _ _ (mapped_getblkid drv v t p s f n 0 hi m b Hr Hm Hb)).
  by rewrite (proj2 (Z.leb_gt _ _)) by lia.
Qed.

(** *** Adding an entry *)

Section add.
Context (ino ft nsz : Z) (name g : list Z).
Notation place := (place ino ft nsz name g).

(** The first block with room, and its records with the entry in place. *)
Fixpoint place_in (dss : list (list dent)) : option (nat * list dent) :=
  match dss with
  | [] => None
  | ds :: r => match place ds with Some ds' => Some (O, ds') | None => (fun '(j, ds') => (S j, ds')) <$> place_in r end
  end.

Lemma place_in_spec dss j ds' :
  place_in dss = Some (j, ds') -> exists ds, dss !! j = Some ds /\ place ds = Some ds'.
Proof.
  revert j. induction dss as [|ds dss IH]; intros j Hp; [done|]. cbn [place_in] in Hp.
  destruct (place ds) as [ds1|] eqn:E; [injection Hp as <- <-; by exists ds|].
  destruct (place_in dss) as [[j' ds1]|]; [|done]. injection Hp as <- <-. by apply IH.
Qed.

Lemma place_in_some dss i ds : dss !! i = Some ds -> place ds <> None -> exists j ds', place_in dss = Some (j, ds').
Proof.
  revert i. induction dss as [|ds0 dss IH]; intros i Hi Hp; [done|]. cbn [place_in].
  destruct (place ds0) eqn:E; [by eauto|]. destruct i as [|i]; [by simplify_eq/=|].
  destruct (IH i Hi Hp) as (j & ds' & ->). by eexists _, _.
Qed.

Context (Hlen : (length name < 256)%nat) (Hnsz : nsz = DIR_RECLEN (Z.of_nat (length name))) (Hg : length g = 1%nat).

(** The entry in its block, then the link count. *)
Definition store_entry (blk : Z) (ds' : list dent) (n : ext2_ino_t) : M (est D) (option Z) :=
  r ← wrblk drv v blk (lay ds'); if r <? 0 then mret (Some r) else r ← links_up drv v ino n; mret (Some r).

Lemma mklink_loop_lay s f n dn m : ready s f -> forall (dss : list (list dent)) b hi,
  mapped s f dn 0 hi m -> 0 <= b -> b + Z.of_nat (length dss) = hi ->
  (forall i ds, dss !! i = Some ds -> B (spb f) s (m (b + Z.of_nat i)) = lay ds /\ Forall dent_ok ds) ->
  mklink_loop drv (length dss) b v ino ft nsz n dn name g s
  = match place_in dss with
    | None => Done s None
    | Some (j, ds') => store_entry (m (b + Z.of_nat j)) ds' n s
    end.
Proof.
  intros Hr. pose proof (r_bsz _ _ _ _ _ Hr) as Hbs. pose proof (r_spb _ _ _ _ _ Hr) as Hsp.
  induction dss as [|ds dss IH]; intros b hi Hm Hb Hhi Hl; cbn [length mklink_loop place_in]; [done|].
  cbn [length] in Hhi. rewrite (bind_fs v t p s f), (dirblk_ok s f dn hi m b) by (done || lia).
  pose proof (m_disk _ _ _ _ _ _ _ _ _ Hm b ltac:(lia)) as [Hdisk _].
  rewrite (bind_rdnew drv v t p s f) by (done || lia). cbn [fst snd Z.ltb Z.compare].
  destruct (Hl O ds eq_refl) as [E Hok]. rewrite Z.add_0_r in E. 
  assert (length (lay ds) = Z.to_nat (blocksz f)) as HL by (rewrite <- E, length_B by lia; f_equal; lia).
  rewrite E. change (lay ds) with ([] ++ lay ds) at 1. change 0 with (Z.of_nat (length (@nil Z))) at 1.
  pose proof (mklink_block_lay drv v ino ft nsz name g n Hlen Hnsz Hg f (m b) s ds [] (Z.to_nat (blocksz f)) Hok
    ltac:(lia) ltac:(cbn [app]; lia)) as Hblk. unfold mbind at 1, M_bind at 1. rewrite Hblk.
  destruct (place ds) as [ds'|] eqn:Ep.
  - cbn [app length Z.of_nat]. rewrite Z.add_0_r. unfold store_entry, mbind, M_bind.
    destruct (wrblk _ _ _ _ _) as [s1 r|]; [|done]. destruct (r <? 0); [done|]. by destruct (links_up _ _ _ _ _).
  - rewrite (IH (b + 1) hi) by (done || lia || (intros i ds' Hi; destruct (Hl (S i) ds' Hi) as [<- ?]; split; [|done];
      f_equal; f_equal; lia)).
    destruct (place_in dss) as [[j ds']|]; [|done]. cbn [fmap option_fmap option_map]. f_equal. f_equal. lia.
Qed.

(** The names of the directory with block [j] replaced. *)
Lemma find_dent_app ds1 ds2 nm :
  find_dent (ds1 ++ ds2) nm = match find_dent ds1 nm with Some k => Some k | None => find_dent ds2 nm end.
Proof. induction ds1 as [|d ds1 IH]; [done|]. cbn [app find_dent]. by destruct (bool_decide _). Qed.

Lemma placed_block dss : forall j ds ds', dss !! j = Some ds -> placed ino name ds ds' ->
  (find_dent (concat dss) name = None -> find_dent (concat (<[j := ds']> dss)) name = Some ino) /\
  forall nm, nm <> name -> find_dent (concat dss) nm <> Some 0 ->
    find_dent (concat (<[j := ds']> dss)) nm = find_dent (concat dss) nm.
Proof.
  induction dss as [|ds0 dss IH]; intros j ds ds' Hj Hp; [done|]. destruct j as [|j]; cbn [lookup list_lookup] in Hj.
  - injection Hj as ->. destruct Hp as [_ _ Hn Ho]. cbn [insert list_insert concat]. split.
    + rewrite !find_dent_app. destruct (find_dent ds name) eqn:E; [done|]. by rewrite Hn.
    + intros nm Hne. rewrite !find_dent_app. specialize (Ho nm Hne).
      destruct (find_dent ds nm); intros H; by rewrite Ho.
  - destruct (IH j ds ds' Hj Hp) as [Hn Ho]. cbn [insert list_insert concat]. split.
    + rewrite !find_dent_app. destruct (find_dent ds0 name); [done|]. apply Hn.
    + intros nm Hne. rewrite !find_dent_app. destruct (find_dent ds0 nm); [done|]. by apply Ho.
Qed.

End add.

(** A block of the directory is rewritten. *)
Lemma dir_on_block s s' f dino gd dn m bss j bs' :
  ready s f -> dir_on s f dino gd dn m bss -> kept_apart drv t p s f dino gd dn 0 (Z.of_nat (length bss)) m ->
  (j < length bss)%nat ->
  changed (spb f) (eq (m (Z.of_nat j))) s s' -> B (spb f) s' (m (Z.of_nat j)) = bs' ->
  dir_on s' f dino gd dn m (<[j := bs']> bss).
Proof.
  intros Hr [Hi Hs Hsm Hm Hl] [K1 K2 K3 K4] Hj Hc HB.
  assert (changed (spb f) (data_of 0 (Z.of_nat (length bss)) m) s s') as Hcw.
  { eapply changed_weaken; [|exact Hc]. intros b <-. exists (Z.of_nat j). split; [lia|done]. }
  split; rewrite ?length_insert; try done.
  - eapply inode_at_frame; [done|exact Hc| | |done]; [apply K1|apply K2]; lia.
  - by eapply mapped_changed.
  - intros i bs Hbs. destruct (decide (i = j)) as [->|Hne].
    + rewrite list_lookup_insert_eq in Hbs by done. by injection Hbs as <-.
    + rewrite list_lookup_insert_ne in Hbs by done. rewrite <- (Hl i bs Hbs). destruct Hc as [_ Hc].
      apply lookup_lt_Some in Hbs. apply Hc.
      * pose proof (m_disk _ _ _ _ _ _ _ _ _ Hm (Z.of_nat i) ltac:(lia)). lia.
      * intros Heq. apply Hne. apply (m_inj _ _ _ _ _ _ _ _ _ Hm) in Heq; lia.
Qed.

(** The inode [dn'] is stored for [dn]: the directory is as it was. *)
Lemma dir_on_flush s s' f ino gi dino gd dn dn' m bss :
  dir_on s f dino gd dn m bss -> kept_apart drv t p s f ino gi dn 0 (Z.of_nat (length bss)) m ->
  i_block dn' = i_block dn -> getisize f dn' = getisize f dn ->
  changed (spb f) (eq (iblk f gi ino)) s s' -> inode_at s' f dino gd dn' ->
  dir_on s' f dino gd dn' m bss.
Proof.
  intros [Hi Hs Hsm Hm Hl] Hk Eb Es Hc Hat.
  split; rewrite ?Es; try done.
  - by apply (mapped_flush drv t p s s' f ino gi dn dn' _ _ m Eb Hc Hk Hm).
  - intros i bs Hbs. rewrite <- (Hl i bs Hbs). destruct Hc as [_ Hc].
    apply lookup_lt_Some in Hbs. apply Hc.
    + pose proof (m_disk _ _ _ _ _ _ _ _ _ Hm (Z.of_nat i) ltac:(lia)). lia.
    + intros Heq. by apply (ka_ino _ _ _ _ _ _ _ _ _ _ _ Hk (Z.of_nat i) ltac:(lia)).
Qed.

(** Inode [ino] has its place apart from directory [dino], or is the directory. *)
Definition link_apart (s : est D) (f : ext2fs_t) (ino : Z) (gi : ext2_bg_t) (n : ext2_ino_t) (dino : Z) (gd : ext2_bg_t)
  (dn : ext2_ino_t) (m : Z -> Z) (nb : Z) : Prop :=
  kept_apart drv t p s f ino gi dn 0 nb m /\ kept_apart drv t p s f dino gd dn 0 nb m /\
  iblk f gi ino <> bg_inode_bitmap gd /\ (inodes_apart f ino gi dino gd \/ (ino = dino /\ gi = gd /\ n = dn)).

(** The inode stored with another link count. *)
Lemma flush_links_ok c s f ino gi n dino gd dn m bss :
  ready s f -> inode_at s f ino gi n -> dir_on s f dino gd dn m bss ->
  link_apart s f ino gi n dino gd dn m (Z.of_nat (length bss)) ->
  exists s' dn', flush_inode drv v ino (set_i_links c n) s = Done s' 0 /\ ready s' f /\
    dir_on s' f dino gd dn' m bss /\ inode_at s' f ino gi (set_i_links c n).
Proof.
  intros Hr Hn Hd (Ki & Kd & Kb & Hap). set (n' := set_i_links c n).
  assert (ino_ok n') as Hok by apply ino_ok_links, Hn.
  destruct (flush_at drv v t p s f ino gi n n' Hr Hn Hok) as (s' & E & Hc & HB & Hat); [apply Ki|].
  exists s'. assert (exists dn', i_block dn' = i_block dn /\ getisize f dn' = getisize f dn /\ inode_at s' f dino gd dn')
    as (dn' & E1 & E2 & Hat').
  { destruct Hap as [Hap|(-> & -> & ->)]; [exists dn|by exists n'].
    split_and!; [done..|]. eapply inode_at_other; [exact Hr|exact Hn|apply Hd|exact Hap|exact Kb|exact Hok|exact Hc|exact HB]. }
  exists dn'. split_and!; [done|by eapply ready_changed|exact (dir_on_flush _ _ _ _ _ _ _ _ _ _ _ Hd Ki E1 E2 Hc Hat')|done].
Qed.

Lemma link_apart_block s s' f ino gi n dino gd dn m nb j :
  mapped s f dn 0 nb m -> 0 <= j < nb -> changed (spb f) (eq (m j)) s s' ->
  link_apart s f ino gi n dino gd dn m nb -> link_apart s' f ino gi n dino gd dn m nb.
Proof.
  intros Hm Hj Hc (Ki & Kd & Hrest). split_and!; [..|apply Hrest|apply Hrest].
  all: match goal with K : kept_apart _ _ _ _ _ ?i _ _ _ _ _ |- kept_apart _ _ _ _ _ ?i _ _ _ _ _ => destruct K as [K1 K2 K3 K4] end.
  all: split; [done|done| |done]; intros i path w Hi Hp; apply (K3 i path w Hi).
  all: destruct (m_ptr _ _ _ _ _ _ _ _ _ Hm i Hi) as (path' & Hp' & Hd & Hni).
  all: rewrite (find_ptr_changed drv t p _ _ _ _ _ _ _ _ Hc Hp') in Hp; [congruence|].
  all: rewrite Forall_forall in Hd |- *; intros b Hb; split; [by apply Hd|intros <-; by apply (Hni j)].
Qed.

(** A block of the directory rewritten and then the inode: the rest of the call
    after the block is found. *)
Lemma store_ok c s s1 f ino gi n dino gd dn m bss j bs' :
  ready s f -> inode_at s f ino gi n -> dir_on s f dino gd dn m bss ->
  link_apart s f ino gi n dino gd dn m (Z.of_nat (length bss)) -> (j < length bss)%nat ->
  changed (spb f) (eq (m (Z.of_nat j))) s s1 -> B (spb f) s1 (m (Z.of_nat j)) = bs' ->
  exists s2 dn', flush_inode drv v ino (set_i_links c n) s1 = Done s2 0 /\ ready s2 f /\
    dir_on s2 f dino gd dn' m (<[j := bs']> bss) /\ inode_at s2 f ino gi (set_i_links c n).
Proof.
  intros Hr Hn Hd Hap Hj Hc HB. pose proof Hap as (Ki & Kd & _).
  apply flush_links_ok with dn; [by eapply ready_changed| |by eapply dir_on_block|].
  - eapply inode_at_frame; [exact Hr|exact Hc| | |exact Hn]; [eapply Ki|eapply Ki]; lia.
  - rewrite length_insert. eapply link_apart_block; [apply Hd| |exact Hc|done]. lia.
Qed.

(** The directory type of the entry is a byte. *)
Lemma EXT2_FT_range mode : 0 <= EXT2_FT mode < 256.
Proof. unfold EXT2_FT. repeat case_match; lia. Qed.

Lemma mklink_ok s f ino gi n mode dino gd dn m dss name i ds
  (ft := if isdyn f then EXT2_FT mode else 0) (nsz := DIR_RECLEN (Z.of_nat (length name)))
  (g := take 1 (junk s ++ [0])) :
  ready s f -> inode_at s f ino gi n -> dir_on s f dino gd dn m (map lay dss) -> Forall (Forall dent_ok) dss ->
  link_apart s f ino gi n dino gd dn m (Z.of_nat (length dss)) -> (length name < 256)%nat ->
  dss !! i = Some ds -> place ino ft nsz name g ds <> None ->
  exists s' dn' j ds0 ds', ext2fs_mklink drv v ino mode dino name s = Done s' 0 /\ ready s' f /\
    dss !! j = Some ds0 /\ placed ino name ds0 ds' /\ dir_on s' f dino gd dn' m (map lay (<[j := ds']> dss)) /\
    inode_at s' f ino gi (set_i_links (i_links_count n + 1) n).
Proof.
  intros Hr Hn Hd Hoks Hap Hlen Hi Hroom. pose proof (r_bsz _ _ _ _ _ Hr). pose proof (r_spb _ _ _ _ _ Hr).
  pose proof Hd as [Hdi Hsz Hsm Hm Hl]. rewrite length_map in Hm.
  pose proof (dir_lay _ _ _ _ _ _ _ Hd Hoks) as Hl'.
  assert (length g = 1%nat) as Hg by (unfold g; rewrite length_take, length_app; cbn [length]; lia).
  destruct (place_in_some _ _ _ _ _ _ _ _ Hi Hroom) as (j & ds' & Hp).
  destruct (place_in_spec _ _ _ _ _ _ _ _ Hp) as (ds0 & Hj & Hp0). destruct (Hl' j ds0 Hj) as [HB Hok].
  pose proof (lookup_lt_Some _ _ _ Hj) as Hjl. pose proof (m_disk _ _ _ _ _ _ _ _ _ Hm (Z.of_nat j) ltac:(lia)) as [Hdisk _].
  assert (0 < ino < 2 ^ 32) as Hino by (pose proof (l_ino _ _ _ (ia_loc _ _ _ _ _ _ _ _ Hn)); lia).
  assert (0 <= ft < 256) as Hft by (unfold ft; destruct (isdyn f); [apply EXT2_FT_range|lia]).
  pose proof (place_placed ino ft nsz name g Hlen eq_refl Hg Hino Hft ds0 ds' Hok Hp0) as Hpl.
  destruct (wrblk_ok drv v t p s f (m (Z.of_nat j)) (lay ds')) as (s1 & E1 & Hc1 & HB1); [done|lia| |].
  { rewrite (pl_len _ _ _ _ Hpl), <- HB, length_B by lia. f_equal. lia. }
  destruct (store_ok (i_links_count n + 1) s s1 f ino gi n dino gd dn m (map lay dss) j (lay ds') Hr Hn Hd)
    as (s2 & dn' & E2 & Hr2 & Hd2 & Hn2); rewrite ?length_map; try done.
  replace (<[j := lay ds']> (map lay dss)) with (map lay (<[j := ds']> dss)) in Hd2 by apply list_fmap_insert.
  exists s2, dn', j, ds0, ds'. split_and!; try done.
  unfold ext2fs_mklink, checkb. rewrite (bind_fs v t p s f) by done.
  rewrite (bind_done _ _ _ _ _ (getino_at drv v t p s f ino gi n Hr Hn)). cbn [fst snd Z.ltb Z.compare].
  rewrite (bind_done _ _ _ _ _ (getino_at drv v t p s f dino gd dn Hr Hdi)). cbn [fst snd Z.ltb Z.compare].
  rewrite (proj2 (Nat.ltb_ge _ _)) by lia. rewrite (bind_done _ _ s s g) by done. fold ft nsz.
  rewrite (nblocks_ok s f dino gd dn m (map lay dss)), length_map, Nat2Z.id by done.
  rewrite (bind_done _ _ s s2 (Some 0)); [done|].
  rewrite (mklink_loop_lay ino ft nsz name g Hlen eq_refl Hg s f n dn m Hr dss 0 _ Hm ltac:(lia) eq_refl Hl'), Hp.
  unfold store_entry. rewrite Z.add_0_l, (bind_done _ _ _ _ _ E1). cbn [Z.ltb Z.compare].
  unfold links_up. erewrite bind_done; [|rewrite (bind_done _ _ _ _ _ E2); reflexivity]. done.
Qed.

(** C11. Adding a name to a directory in which some record has room for it: the
    call succeeds, looking the name up then gives the inode, every name that led
    to an inode still leads to it, a name that was absent still is, and the link
    count of the inode is one more.  The directory may have any number of blocks
    and the inode may be the directory itself. *)
Theorem ext2_mklink_lookup s f ino gi n mode dino gd dn m dss name i ds :
  ready s f -> inode_at s f ino gi n -> dir_on s f dino gd dn m (map lay dss) -> Forall (Forall dent_ok) dss ->
  link_apart s f ino gi n dino gd dn m (Z.of_nat (length dss)) -> (length name < 256)%nat ->
  find_dent (concat dss) name = None -> dss !! i = Some ds ->
  place ino (if isdyn f then EXT2_FT mode else 0) (DIR_RECLEN (Z.of_nat (length name))) name
    (take 1 (junk s ++ [0])) ds <> None ->
  exists s', ext2fs_mklink drv v ino mode dino name s = Done s' 0 /\
    ext2fs_lookup drv v dino name s' = Done s' ino /\
    (forall nm k, nm <> name -> ext2fs_lookup drv v dino nm s = Done s k -> k <> 0 ->
       ext2fs_lookup drv v dino nm s' = Done s' k) /\
    getino drv v ino s' = Done s' (0, set_i_links (i_links_count n + 1) n).
Proof.
  intros Hr Hn Hd Hoks Hap Hlen Habs Hi Hroom.
  destruct (mklink_ok s f ino gi n mode dino gd dn m dss name i ds Hr Hn Hd Hoks Hap Hlen Hi Hroom)
    as (s' & dn' & j & ds0 & ds' & E & Hr' & Hj & Hpl & Hd' & Hn').
  destruct (placed_block ino name dss j ds0 ds' Hj Hpl) as [Hnew Hold].
  assert (Forall (Forall dent_ok) (<[j := ds']> dss)) as Hoks' by (apply Forall_insert; [done|apply Hpl]).
  exists s'. split_and!; [done| | |by eapply getino_at].
  - rewrite (lookup_ok s' f dino gd dn' m _ name Hr' Hd' Hoks'). by rewrite Hnew.
  - intros nm k Hne. rewrite (lookup_ok s f dino gd dn m _ nm Hr Hd Hoks), (lookup_ok s' f dino gd dn' m _ nm Hr' Hd' Hoks').
    intros [= <-] Hk. rewrite Hold; [done|done|]. intros E0. by rewrite E0 in Hk.
Qed.

End dirs.

End Ext2Dir.
