(* ===== verification/Ext2Unlink.v ===== *)
(** Removing names from ext2 directories: [ext2fs_rmlink] on the record lists of
    [Ext2Dir].  A record that is not the first of its block is merged into the
    one before it; the first one of a block leaves a record of length zero
    behind, on which [ext2fs_lookup] does not end. *)
From S2P Require Import Prelude CString VfsOps Block Ext2 Ext2Facts Ext2Data Ext2Dir.

Module Ext2Unlink.
Import CString VfsOps Block Ext2 Ext2Facts Ext2Data Ext2Dir.

(** Record [q] takes the place of [d] after it. *)
Definition merge (q d : dent) : dent :=
  (mk_dir (inode q.1) (rec_len q.1 + rec_len d.1) (name_len q.1) (file_type q.1), q.2 ++ zeros (rec_len d.1)).

Lemma merge_ok q d :
  dent_ok q -> dent_ok d -> rec_len q.1 + rec_len d.1 < 2 ^ 16 -> dent_ok (merge q d) /\ dname (merge q d) = dname q.
Proof.
  intros [Q1 Q2 Q3 Q4 Q5] [D1 D2 D3 D4 D5] Hs. split.
  - split; cbn [fst snd merge inode rec_len name_len file_type]; rewrite ?length_app, ?length_zeros; lia.
  - unfold dname. cbn [fst snd merge name_len]. rewrite take_app_le by lia. done.
Qed.

Section rmlink.
Context {D : Type} (drv : drivers D) (v : vfs_t) (f : ext2fs_t) (blk : Z) (name : list Z) (s : est D).

(** One record of the block. *)
Lemma rmlink_step pre d r pdir fuel :
  dent_ok d -> Z.of_nat (length (pre ++ dent_bytes d ++ r)) = blocksz f ->
  rmlink_block drv (S fuel) v f blk (pre ++ dent_bytes d ++ r) pdir (Z.of_nat (length pre)) name s
  = (if bool_decide (dname d = name) then
       x ← remove_at drv v blk (pre ++ dent_bytes d ++ r) pdir (Z.of_nat (length pre)) d.1; mret (Some x)
     else rmlink_block drv fuel v f blk (pre ++ dent_bytes d ++ r) (Some (Z.of_nat (length pre)))
            (Z.of_nat (length (pre ++ dent_bytes d))) name) s.
Proof.
  intros Hd Hbz. pose proof (length_dent d Hd) as Hl. pose proof (d_rec _ Hd). rewrite !length_app in Hbz.
  cbn [rmlink_block]. rewrite (proj2 (Z.ltb_lt _ _)) by lia. cbn [negb].
  rewrite dir_at_lay, bind_deref by done. unfold bad_rec.
  rewrite (proj2 (Z.ltb_ge _ 8)), (proj2 (Z.ltb_ge (blocksz f) _)) by lia. cbn [orb].
  rewrite name_is_lay, bind_deref by done. replace (Z.of_nat (length pre) + rec_len d.1)
    with (Z.of_nat (length (pre ++ dent_bytes d))) by (rewrite length_app; lia). by destruct (bool_decide _).
Qed.

(** A block without the name. *)
Lemma rmlink_none : forall ds pre pdir fuel,
  Forall dent_ok ds -> find_dent ds name = None -> (length (lay ds) <= fuel)%nat ->
  Z.of_nat (length (pre ++ lay ds)) = blocksz f ->
  rmlink_block drv fuel v f blk (pre ++ lay ds) pdir (Z.of_nat (length pre)) name s = Done s None.
Proof.
  induction ds as [|d ds IH]; intros pre pdir fuel Hok Hnone Hf Hbz.
  { rewrite app_nil_r in *. destruct fuel; cbn [rmlink_block]; rewrite (proj2 (Z.ltb_ge _ _)) by lia; done. }
  apply Forall_cons in Hok as [Hd Hok]. pose proof (length_dent d Hd) as Hl. pose proof (d_rec _ Hd).
  rewrite lay_cons in *. rewrite length_app in Hf. cbn [find_dent] in Hnone. destruct fuel as [|fuel]; [lia|].
  rewrite rmlink_step by done. destruct (bool_decide _); [done|].
  rewrite app_assoc in *. apply IH; (done || lia).
Qed.

(** The records before the name are passed; the last of them is remembered. *)
Lemma rmlink_pass : forall l pre q r pdir fuel,
  Forall dent_ok (l ++ q :: r) -> find_dent (l ++ [q]) name = None -> (length (lay (l ++ q :: r)) <= fuel)%nat ->
  Z.of_nat (length (pre ++ lay (l ++ q :: r))) = blocksz f ->
  exists fuel', (length (lay r) <= fuel')%nat /\
    rmlink_block drv fuel v f blk (pre ++ lay (l ++ q :: r)) pdir (Z.of_nat (length pre)) name s
    = rmlink_block drv fuel' v f blk (pre ++ lay (l ++ q :: r)) (Some (Z.of_nat (length (pre ++ lay l))))
        (Z.of_nat (length (pre ++ lay l ++ dent_bytes q))) name s.
Proof.
  induction l as [|d l IH]; intros pre q r pdir fuel Hok Hnone Hf Hbz.
  - cbn [app] in *. apply Forall_cons in Hok as [Hd _]. pose proof (length_dent q Hd). pose proof (d_rec _ Hd).
    rewrite lay_cons in *. rewrite length_app in Hf. destruct fuel as [|fuel]; [lia|]. exists fuel. split; [lia|].
    rewrite rmlink_step by done. cbn [find_dent] in Hnone. destruct (bool_decide _); [done|].
    by rewrite app_nil_r.
  - cbn [app] in *. apply Forall_cons in Hok as [Hd Hok]. pose proof (length_dent d Hd). pose proof (d_rec _ Hd).
    rewrite !lay_cons in *. rewrite length_app in Hf. destruct fuel as [|fuel]; [lia|].
    rewrite rmlink_step by done. cbn [find_dent] in Hnone. destruct (bool_decide _); [done|].
    rewrite !app_assoc in *. destruct (IH (pre ++ dent_bytes d) q r (Some (Z.of_nat (length pre))) fuel)
      as (fuel' & Hf' & E); [done|done|lia|done|]. exists fuel'. split; [done|]. rewrite E, !app_assoc. done.
Qed.

(** The record is merged and its bytes cleared. *)
Lemma remove_bytes l q d r :
  dent_ok q -> dent_ok d -> rec_len q.1 + rec_len d.1 < 2 ^ 16 ->
  let bd := lay (l ++ q :: d :: r) in
  rec_len (dec_dir (drop (length (lay l)) bd)) = rec_len q.1 /\
  into (set_rec_len bd (Z.of_nat (length (lay l))) (rec_len q.1 + rec_len d.1)) (zeros (rec_len d.1))
    (length (lay l ++ dent_bytes q)) = Some (lay (l ++ merge q d :: r)).
Proof.
  intros Hq Hd Hs bd. unfold bd. rewrite !lay_app, !lay_cons. pose proof (length_dent q Hq) as Lq.
  pose proof (length_dent d Hd) as Ld. pose proof (d_rec _ Hq). pose proof (d_rec _ Hd). split.
  { rewrite drop_app_length. by rewrite dec_enc_dir. }
  rewrite set_rec_len_lay by lia.
  set (q' := (mk_dir (inode q.1) (rec_len q.1 + rec_len d.1) (name_len q.1) (file_type q.1), q.2)).
  assert (length (dent_bytes q') = length (dent_bytes q)) as Lq' by (unfold dent_bytes; by rewrite !length_app, !length_enc_dir).
  rewrite into_ok by (rewrite !length_app, length_zeros; lia). f_equal. unfold splice.
  rewrite (app_assoc (lay l) (dent_bytes q')), take_app_length' by (rewrite !length_app; lia).
  rewrite (drop_app_ge (lay l ++ dent_bytes q')) by (rewrite !length_app; lia).
  rewrite drop_app_length' by (rewrite !length_app, length_zeros; lia). rewrite <- !app_assoc. f_equal.
  unfold dent_bytes, merge. cbn [fst snd q']. by rewrite <- !app_assoc.
Qed.

End rmlink.

Section dirs.
Context {D : Type} (drv : drivers D) `{!sector_laws drv, !reliable drv}.
Context (v : vfs_t) (t p : Z).
Notation B := (B drv t p).
Notation ready := (ready v t p).
Notation changed := (changed drv t p).
Notation inode_at := (inode_at drv t p).
Notation mapped := (mapped drv t p).
Notation dir_on := (dir_on drv t p).
Notation link_apart := (link_apart drv t p).

(** The blocks before the one with the name. *)
Lemma rmlink_skip s f dn m name k : ready s f -> forall (dss : list (list dent)) b hi,
  mapped s f dn 0 hi m -> 0 <= b -> b + Z.of_nat (length dss) <= hi -> find_dent (concat dss) name = None ->
  (forall i ds, dss !! i = Some ds -> B (spb f) s (m (b + Z.of_nat i)) = lay ds /\ Forall dent_ok ds) ->
  rmlink_loop drv (length dss + k) b v dn name s = rmlink_loop drv k (b + Z.of_nat (length dss)) v dn name s.
Proof.
  intros Hr. pose proof (r_bsz _ _ _ _ _ Hr) as Hbs. pose proof (r_spb _ _ _ _ _ Hr) as Hsp.
  induction dss as [|ds dss IH]; intros b hi Hm Hb Hhi Hnone Hl; cbn [length plus]; [by rewrite Z.add_0_r|].
  cbn [length] in Hhi. cbn [concat] in Hnone. rewrite find_dent_app in Hnone.
  destruct (find_dent ds name) eqn:E0; [done|]. destruct (Hl O ds eq_refl) as [E Hok]. rewrite Z.add_0_r in E.
  assert (length (lay ds) = Z.to_nat (blocksz f)) as HL by (rewrite <- E, length_B by lia; f_equal; lia).
  pose proof (m_disk _ _ _ _ _ _ _ _ _ Hm b ltac:(lia)) as [Hdisk _].
  cbn [rmlink_loop]. rewrite (bind_fs v t p s f), (dirblk_ok drv v t p s f dn hi m b) by (done || lia).
  rewrite (bind_rdnew drv v t p s f) by (done || lia). cbn [fst snd Z.ltb Z.compare]. rewrite E.
  rewrite (bind_done _ _ _ _ _ (rmlink_none drv v f (m b) name s ds [] None (Z.to_nat (blocksz f)) Hok E0
    ltac:(lia) ltac:(cbn [app]; lia))).
  rewrite (IH (b + 1) hi) by (done || lia || (intros i ds' Hi; destruct (Hl (S i) ds' Hi) as [<- ?]; split; [|done];
    f_equal; f_equal; lia)). f_equal. lia.
Qed.

(** The call reaches block [length dA], which holds [bd], with the scan of that
    block to do. *)
Lemma rmlink_reach s f dino gd dn m (dA dC : list (list dent)) ds name :
  ready s f -> dir_on s f dino gd dn m (map lay (dA ++ ds :: dC)) -> Forall (Forall dent_ok) (dA ++ ds :: dC) ->
  find_dent (concat dA) name = None ->
  exists k blk, blk = m (Z.of_nat (length dA)) /\ B (spb f) s blk = lay ds /\ 0 <= blk < fsblocks f /\
    Z.of_nat (length (lay ds)) = blocksz f /\
    ext2fs_rmlink drv v dino name s
    = (r ← rmlink_block drv (Z.to_nat (blocksz f)) v f blk (lay ds) None 0 name;
       match r with Some r => mret r | None => rmlink_loop drv k (Z.of_nat (length dA) + 1) v dn name end) s.
Proof.
  intros Hr Hd Hoks Hnone. pose proof (r_bsz _ _ _ _ _ Hr) as Hbs. pose proof (r_spb _ _ _ _ _ Hr) as Hsp.
  pose proof (dir_lay drv t p _ _ _ _ _ _ _ Hd Hoks) as Hl. pose proof (dir_map _ _ _ _ _ _ _ _ _ _ Hd) as Hm.
  rewrite length_map, length_app in Hm. cbn [length] in Hm.
  destruct (Hl (length dA) ds) as [E Hok]; [by apply list_lookup_middle|].
  pose proof (m_disk _ _ _ _ _ _ _ _ _ Hm (Z.of_nat (length dA)) ltac:(lia)) as [Hdisk _].
  exists (length dC), (m (Z.of_nat (length dA))). split_and!; [done|done|lia|lia|rewrite <- E, length_B by lia; lia|].
  unfold ext2fs_rmlink, checkb. rewrite (bind_fs v t p s f) by done.
  rewrite (bind_done _ _ _ _ _ (getino_at drv v t p s f dino gd dn Hr (dir_ino _ _ _ _ _ _ _ _ _ _ Hd))).
  cbn [fst snd Z.ltb Z.compare]. rewrite (nblocks_ok drv v t p s f dino gd dn m _ _ Hr Hd).
  rewrite length_map, Nat2Z.id, length_app. cbn [length].
  rewrite (rmlink_skip s f dn m name (S (length dC)) Hr dA 0 _ Hm) by (done || lia ||
    (intros i ds0 Hi; rewrite Z.add_0_l; apply Hl; by apply lookup_app_l_Some)).
  rewrite Z.add_0_l. cbn [rmlink_loop]. rewrite (bind_fs v t p s f) by done.
  rewrite (dirblk_ok drv v t p s f dn _ m _ _ Hr Hm) by lia.
  rewrite (bind_rdnew drv v t p s f) by (done || lia). cbn [fst snd Z.ltb Z.compare]. by rewrite E.
Qed.

(** The found entry is removed: block [j] becomes [bs'], the inode has one link
    less. *)
Lemma remove_ok s f ino gi n dino gd dn m bss j bd pdir i e bs' :
  ready s f -> inode_at s f ino gi n -> dir_on s f dino gd dn m bss ->
  link_apart s f ino gi n dino gd dn m (Z.of_nat (length bss)) -> (j < length bss)%nat -> inode e = ino ->
  into (match pdir with
        | Some p => set_rec_len bd p (rec_len (dec_dir (drop (Z.to_nat p) bd)) + rec_len e)
        | None => bd
        end) (zeros (rec_len e)) (Z.to_nat i) = Some bs' ->
  Z.of_nat (length bs') = blocksz f ->
  exists s' dn', remove_at drv v (m (Z.of_nat j)) bd pdir i e s = Done s' 0 /\ ready s' f /\
    dir_on s' f dino gd dn' m (<[j := bs']> bss) /\ inode_at s' f ino gi (set_i_links (i_links_count n - 1) n).
Proof.
  intros Hr Hn Hd Hap Hj <- Hinto Hlen.
  pose proof (m_disk _ _ _ _ _ _ _ _ _ (dir_map _ _ _ _ _ _ _ _ _ _ Hd) (Z.of_nat j) ltac:(lia)) as [Hdisk _].
  destruct (wrblk_ok drv v t p s f (m (Z.of_nat j)) bs') as (s1 & E1 & Hc1 & HB1); [done|lia|lia|].
  destruct (store_ok drv v t p (i_links_count n - 1) s s1 f (inode e) gi n dino gd dn m bss j bs' Hr Hn Hd Hap Hj Hc1 HB1)
    as (s2 & dn' & E2 & Hr2 & Hd2 & Hn2).
  exists s2, dn'. split_and!; [|done|done|done]. unfold remove_at, checkb.
  rewrite (bind_done _ _ _ _ _ (getino_at drv v t p s f (inode e) gi n Hr Hn)). cbn [fst snd Z.ltb Z.compare].
  rewrite Hinto, bind_deref, (bind_done _ _ _ _ _ E1). cbn [Z.ltb Z.compare]. by rewrite (bind_done _ _ _ _ _ E2).
Qed.

Lemma insert_middle {A} (l1 : list A) x l2 y : <[length l1 := y]> (l1 ++ x :: l2) = l1 ++ y :: l2.
Proof. rewrite <- (Nat.add_0_r (length l1)). by rewrite insert_app_r. Qed.

Lemma length_merge l q d r :
  dent_ok q -> dent_ok d -> rec_len q.1 + rec_len d.1 < 2 ^ 16 ->
  length (lay (l ++ merge q d :: r)) = length (lay (l ++ q :: d :: r)).
Proof.
  intros Hq Hd Hs. rewrite !lay_app, !lay_cons, !length_app. pose proof (length_dent q Hq).
  pose proof (length_dent d Hd). pose proof (length_dent _ (proj1 (merge_ok q d Hq Hd Hs))) as Hm.
  cbn [fst merge rec_len] in Hm. lia.
Qed.

(** The block with the name, when a record comes before it. *)
Lemma rmlink_merge s f gi n dino gd dn m (dA dC : list (list dent)) l q d r :
  ready s f -> dir_on s f dino gd dn m (map lay (dA ++ (l ++ q :: d :: r) :: dC)) ->
  Forall (Forall dent_ok) (dA ++ (l ++ q :: d :: r) :: dC) ->
  find_dent (concat dA) (dname d) = None -> find_dent (l ++ [q]) (dname d) = None ->
  inode_at s f (inode d.1) gi n ->
  link_apart s f (inode d.1) gi n dino gd dn m (Z.of_nat (length (dA ++ (l ++ q :: d :: r) :: dC))) ->
  rec_len q.1 + rec_len d.1 < 2 ^ 16 ->
  exists s' dn', ext2fs_rmlink drv v dino (dname d) s = Done s' 0 /\ ready s' f /\
    dir_on s' f dino gd dn' m (map lay (dA ++ (l ++ merge q d :: r) :: dC)) /\
    inode_at s' f (inode d.1) gi (set_i_links (i_links_count n - 1) n).
Proof.
  intros Hr Hd Hoks EA El Hn Hap Hsum.
  destruct (rmlink_reach s f dino gd dn m dA dC _ _ Hr Hd Hoks EA) as (k & blk & -> & HB & Hblk & Hlen & Ecall).
  pose proof Hoks as HoksA. rewrite Forall_app, Forall_cons in HoksA. destruct HoksA as (_ & Hok & _).
  pose proof Hok as Hok'. rewrite Forall_app, !Forall_cons in Hok'. destruct Hok' as (_ & Hq & Hdd & _).
  destruct (remove_bytes l q d r Hq Hdd Hsum) as [Erec Einto].
  destruct (rmlink_pass drv v f (m (Z.of_nat (length dA))) (dname d) s l [] q (d :: r) None (Z.to_nat (blocksz f)))
    as (fuel' & Hf' & Epass); [done|done|lia|cbn [app]; lia|].
  destruct (remove_ok s f (inode d.1) gi n dino gd dn m _ (length dA) (lay (l ++ q :: d :: r))
    (Some (Z.of_nat (length (lay l)))) (Z.of_nat (length (lay l ++ dent_bytes q))) d.1 (lay (l ++ merge q d :: r)) Hr Hn Hd)
    as (s' & dn' & Erem & Hr' & Hd' & Hn').
  { by rewrite length_map. }
  { rewrite length_map, length_app. cbn [length]. lia. }
  { done. }
  { by rewrite !Nat2Z.id, Erec. }
  { by rewrite length_merge. }
  exists s', dn'. split_and!; [|done| |done].
  - rewrite Ecall, (bind_done _ _ s s' (Some 0)); [done|]. cbn [app] in Epass.
    change (Z.of_nat (length (@nil Z))) with 0 in Epass. rewrite Epass.
    pose proof (length_dent d Hdd) as Ld. pose proof (d_rec _ Hdd). rewrite lay_cons, length_app in Hf'.
    destruct fuel' as [|fuel']; [lia|].
    assert (lay (l ++ q :: d :: r) = (lay l ++ dent_bytes q) ++ dent_bytes d ++ lay r) as Elay
      by (by rewrite lay_app, !lay_cons, <- !app_assoc).
    rewrite Elay in Hlen, Erem |- *. rewrite rmlink_step by done. rewrite bool_decide_eq_true_2 by done.
    by rewrite (bind_done _ _ _ _ _ Erem).
  - rewrite map_app in Hd' |- *. cbn [map] in Hd' |- *. rewrite <- (length_map lay dA), insert_middle in Hd'. done.
Qed.

(** Merging takes the name away and leaves the others. *)
Lemma find_merge (dA dC : list (list dent)) l q d r nm :
  dname (merge q d) = dname q ->
  find_dent (concat dA ++ l ++ [q]) (dname d) = None -> find_dent (r ++ concat dC) (dname d) = None ->
  find_dent (concat (dA ++ (l ++ merge q d :: r) :: dC)) nm
  = if bool_decide (nm = dname d) then None else find_dent (concat (dA ++ (l ++ q :: d :: r) :: dC)) nm.
Proof.
  intros Hm Hb Ha. rewrite !concat_app. cbn [concat]. rewrite <- !app_assoc. cbn [app].
  rewrite !find_dent_app in *. cbn [find_dent] in *. rewrite Hm. cbn [fst merge inode].
  destruct (decide (nm = dname d)) as [->|E].
  - rewrite (bool_decide_eq_true_2 (dname d = dname d)) by done. destruct (find_dent (concat dA) _); [done|]. destruct (find_dent l _); [done|].
    destruct (bool_decide _); [done|]. rewrite find_dent_app. done.
  - rewrite (bool_decide_eq_false_2 (nm = dname d)) by done.
    destruct (find_dent (concat dA) _); [done|]. destruct (find_dent l nm); [done|].
    destruct (bool_decide (dname q = nm)); [done|]. by rewrite (bool_decide_eq_false_2 (dname d = nm)).
Qed.

(** C12. Removing a name that is in the directory once, in a record that is not
    the first of its block: the call succeeds, the name is then not found, every
    other name is found or not as before, and the inode has one link less. *)
Theorem ext2_rmlink_lookup s f gi n dino gd dn m (dA dC : list (list dent)) l q d r :
  ready s f -> dir_on s f dino gd dn m (map lay (dA ++ (l ++ q :: d :: r) :: dC)) ->
  Forall (Forall dent_ok) (dA ++ (l ++ q :: d :: r) :: dC) ->
  find_dent (concat dA ++ l ++ [q]) (dname d) = None -> find_dent (r ++ concat dC) (dname d) = None ->
  inode_at s f (inode d.1) gi n ->
  link_apart s f (inode d.1) gi n dino gd dn m (Z.of_nat (length (dA ++ (l ++ q :: d :: r) :: dC))) ->
  rec_len q.1 + rec_len d.1 < 2 ^ 16 ->
  exists s', ext2fs_rmlink drv v dino (dname d) s = Done s' 0 /\
    ext2fs_lookup drv v dino (dname d) s' = Done s' (- ENOENT) /\
    (forall nm k, nm <> dname d -> ext2fs_lookup drv v dino nm s = Done s k -> ext2fs_lookup drv v dino nm s' = Done s' k) /\
    getino drv v (inode d.1) s' = Done s' (0, set_i_links (i_links_count n - 1) n).
Proof.
  intros Hr Hd Hoks Hbef Haft Hn Hap Hsum. pose proof Hbef as Hb. rewrite find_dent_app in Hb.
  destruct (find_dent (concat dA) _) eqn:EA; [done|].
  destruct (rmlink_merge s f gi n dino gd dn m dA dC l q d r) as (s' & dn' & E & Hr' & Hd' & Hn'); try done.
  pose proof Hoks as Hoks'. rewrite Forall_app, Forall_cons, Forall_app, !Forall_cons in Hoks'.
  destruct Hoks' as (HokA & (Hokl & Hq & Hdd & Hokr) & HokC). destruct (merge_ok q d Hq Hdd Hsum) as [Hmok Hmn].
  assert (Forall (Forall dent_ok) (dA ++ (l ++ merge q d :: r) :: dC)) as Hoks'
    by (by rewrite Forall_app, Forall_cons, Forall_app, Forall_cons).
  exists s'. split_and!; [done| | |by eapply getino_at].
  - rewrite (lookup_ok drv v t p s' f dino gd dn' m _ _ Hr' Hd' Hoks'), find_merge by done.
    by rewrite bool_decide_eq_true_2.
  - intros nm k Hne. rewrite (lookup_ok drv v t p s' f dino gd dn' m _ _ Hr' Hd' Hoks'), find_merge by done.
    rewrite (lookup_ok drv v t p s f dino gd dn m _ _ Hr Hd Hoks), bool_decide_eq_false_2 by done. by intros [= <-].
Qed.

(** *** The first record of a block *)

(** A scan that reaches a record of length zero stays there. *)
Lemma lookup_stuck pre r name : name <> [] -> (8 <= length r)%nat -> take 8 r = replicate 8 0 ->
  forall fuel, lookup_loop fuel (pre ++ r) (Z.of_nat (length pre)) name = Endless.
Proof.
  intros Hne Hlen Hz. assert (dir_at (pre ++ r) (Z.of_nat (length pre)) = Some (mk_dir 0 0 0 0)) as E.
  { unfold dir_at. rewrite (proj2 (Z.leb_le _ _)), (proj2 (Z.leb_le _ _)) by (rewrite ?length_app; unfold DIRHDR; lia).
    cbn [andb]. rewrite Nat2Z.id, drop_app_length, <- (take_drop 8 r), Hz. done. }
  assert (name_is (pre ++ r) (Z.of_nat (length pre)) (mk_dir 0 0 0 0) name = Some false) as En.
  { unfold name_is. cbn [name_len]. rewrite (proj2 (Z.eqb_neq _ _)); [done|]. destruct name; [done|]. cbn [length]. lia. }
  induction fuel as [|fuel IH]; cbn [lookup_loop]; rewrite (proj2 (Z.ltb_lt _ _)) by (rewrite length_app; lia); [done|].
  cbn [negb]. rewrite E, En. cbn [rec_len]. by rewrite Z.add_0_r.
Qed.

Lemma lookup_pass name : forall ds pre r,
  Forall dent_ok ds -> find_dent ds name = None ->
  (forall fuel, lookup_loop fuel (pre ++ lay ds ++ r) (Z.of_nat (length (pre ++ lay ds))) name = Endless) ->
  r <> [] -> forall fuel, lookup_loop fuel (pre ++ lay ds ++ r) (Z.of_nat (length pre)) name = Endless.
Proof.
  induction ds as [|d ds IH]; intros pre r Hok Hnone Hend Hr fuel.
  { cbn [lay map concat app] in *. rewrite app_nil_r in Hend. apply Hend. }
  apply Forall_cons in Hok as [Hd Hok]. pose proof (length_dent d Hd) as Hl. pose proof (d_rec _ Hd).
  cbn [find_dent] in Hnone. rewrite lay_cons in *. rewrite <- app_assoc in *.
  assert (0 < length r)%nat by (destruct r; [done|simpl; lia]).
  destruct fuel as [|fuel]; cbn [lookup_loop]; rewrite (proj2 (Z.ltb_lt _ _)) by (rewrite !length_app; lia); [done|].
  cbn [negb]. rewrite dir_at_lay, name_is_lay by done. destruct (bool_decide _); [done|].
  rewrite app_assoc. replace (Z.of_nat (length pre) + rec_len d.1) with (Z.of_nat (length (pre ++ dent_bytes d)))
    by (rewrite length_app; lia). apply IH; try done. intros fuel'. rewrite <- !app_assoc. apply Hend.
Qed.

Lemma zeroed_hangs ds z r name :
  Forall dent_ok ds -> find_dent ds name = None -> name <> [] -> 8 <= z ->
  forall fuel, lookup_loop fuel (lay ds ++ zeros z ++ r) 0 name = Endless.
Proof.
  intros Hok Hnone Hne Hz fuel. change 0 with (Z.of_nat (length (@nil Z))).
  change (lay ds ++ zeros z ++ r) with ([] ++ lay ds ++ zeros z ++ r). apply lookup_pass; [done|done| |].
  - intros fuel'. cbn [app]. apply lookup_stuck; [done| |].
    + rewrite length_app, length_zeros. lia.
    + unfold zeros. rewrite take_app_le, take_replicate by (rewrite length_replicate; lia). f_equal. lia.
  - intros H. apply (f_equal length) in H. rewrite length_app, length_zeros in H. cbn [length] in H. lia.
Qed.

(** Removing the name in the first record of a block succeeds and leaves a
    record of length zero there: from then on looking up any name that is not
    found before that block never ends, with no bound on the number of steps. *)
Theorem ext2_rmlink_first_hangs s f gi n dino gd dn m (dA dC : list (list dent)) d r :
  ready s f -> dir_on s f dino gd dn m (map lay (dA ++ (d :: r) :: dC)) ->
  Forall (Forall dent_ok) (dA ++ (d :: r) :: dC) -> find_dent (concat dA) (dname d) = None ->
  inode_at s f (inode d.1) gi n ->
  link_apart s f (inode d.1) gi n dino gd dn m (Z.of_nat (length (dA ++ (d :: r) :: dC))) ->
  exists s' dn' dd, ext2fs_rmlink drv v dino (dname d) s = Done s' 0 /\
    getino drv v dino s' = Done s' (0, dn') /\ getinodata drv v dn' s' = Done s' (0, Some dd) /\
    forall nm fuel, nm <> [] -> find_dent (concat dA) nm = None -> lookup_loop fuel dd 0 nm = Endless.
Proof.
  intros Hr Hd Hoks EA Hn Hap.
  destruct (rmlink_reach s f dino gd dn m dA dC _ _ Hr Hd Hoks EA) as (k & blk & -> & HB & Hblk & Hlen & Ecall).
  pose proof Hoks as HoksA. rewrite Forall_app, !Forall_cons in HoksA. destruct HoksA as (HokA & (Hdd & Hokr) & _).
  pose proof (length_dent d Hdd) as Ld. pose proof (d_rec _ Hdd) as Hrec. rewrite lay_cons, length_app in Hlen.
  set (bs' := zeros (rec_len d.1) ++ lay r).
  destruct (remove_ok s f (inode d.1) gi n dino gd dn m _ (length dA) (lay (d :: r)) None 0 d.1 bs' Hr Hn Hd)
    as (s' & dn' & Erem & Hr' & Hd' & Hn').
  { by rewrite length_map. }
  { rewrite length_map, length_app. cbn [length]. lia. }
  { done. }
  { rewrite lay_cons, into_ok by (rewrite length_app, length_zeros; lia). f_equal. unfold splice, bs'.
    change (Z.to_nat 0) with 0%nat. rewrite take_0, Nat.add_0_l. cbn [app]. f_equal.
    by rewrite drop_app_length' by (rewrite length_zeros; lia). }
  { unfold bs'. rewrite length_app, length_zeros. lia. }
  exists s', dn', (concat (map lay dA ++ bs' :: map lay dC)). split_and!.
  - rewrite Ecall, (bind_done _ _ s s' (Some 0)); [done|]. rewrite lay_cons in Erem |- *.
    destruct (Z.to_nat (blocksz f)) as [|fuel] eqn:Ef; [lia|].
    change 0 with (Z.of_nat (length (@nil Z))) at 1. change (dent_bytes d ++ lay r) with ([] ++ dent_bytes d ++ lay r) at 1.
    rewrite rmlink_step by (done || (cbn [app]; rewrite length_app; lia)). rewrite bool_decide_eq_true_2 by done.
    by rewrite (bind_done _ _ _ _ _ Erem).
  - exact (getino_at drv v t p _ _ _ _ _ Hr' (dir_ino _ _ _ _ _ _ _ _ _ _ Hd')).
  - rewrite map_app in Hd'. cbn [map] in Hd'. rewrite <- (length_map lay dA), insert_middle in Hd'.
    exact (getinodata_ok drv v t p _ _ _ _ _ _ _ Hr' Hd').
  - intros nm fuel Hne Hnone. rewrite concat_app, <- lay_concat. cbn [concat]. unfold bs'. rewrite <- app_assoc.
    apply zeroed_hangs; [by apply Forall_concat|done|done|lia].
Qed.

End dirs.

End Ext2Unlink.
