(* ===== verification/Ext2Files.v ===== *)
(** The promise of [VfsOps.file_laws] kept by ext2: a set of regular files, each
    with its blocks allocated, kept apart from one another on the disk.  Within
    the blocks a file has, writing and reading are those of a byte string and
    leave every other file alone; the theorems on [Vfs] that rest on the promise
    then hold for files on an ext2 disk. *)
From S2P Require Import Prelude CString VfsOps Block Ext2 Ext2Facts Ext2Data.

Module Ext2Files.
Import CString VfsOps Block Ext2 Ext2Facts Ext2Data.

(** Where a file is: its group, its blocks and the tables that lead to them. *)
Record place := mk_place { p_grp : ext2_bg_t; p_cnt : Z; p_blk : Z -> Z; p_tbl : list Z }.

(** Nothing of the first file lies where the second one has something. *)
Record apart (f : ext2fs_t) (i : Z) (pi : place) (j : Z) (pj : place) : Prop := mk_apart2 {
  ap_data k : 0 <= k < p_cnt pi -> p_blk pi k <> iblk f (p_grp pj) j /\ p_blk pi k <> bg_inode_bitmap (p_grp pj) /\
    p_blk pi k ∉ p_tbl pj /\ forall k', 0 <= k' < p_cnt pj -> p_blk pi k <> p_blk pj k';
  ap_ino : iblk f (p_grp pi) i <> bg_inode_bitmap (p_grp pj) /\ iblk f (p_grp pi) i ∉ p_tbl pj /\
    (forall k', 0 <= k' < p_cnt pj -> iblk f (p_grp pi) i <> p_blk pj k');
  ap_rec : inodes_apart f i (p_grp pi) j (p_grp pj)
}.

Section files.
Context {D : Type} (drv : drivers D) `{!sector_laws drv, !reliable drv}.
Context (v : vfs_t) (t p : Z) (f : ext2fs_t) (files : Z -> option place).
Notation B := (B drv t p).
Notation ready := (ready v t p).
Notation changed := (changed drv t p).
Notation inode_at := (inode_at drv t p).
Notation mapped := (mapped drv t p).
Notation find_ptr := (find_ptr drv t p).
Notation fbyte := (fbyte drv t p).

Record on_file (s : est D) (ino : Z) (pl : place) (n : ext2_ino_t) : Prop := mk_on_file {
  of_at : file_at drv t p s f ino (p_grp pl) n;
  of_map : mapped s f n 0 (p_cnt pl) (p_blk pl);
  of_own : kept_apart drv t p s f ino (p_grp pl) n 0 (p_cnt pl) (p_blk pl);
  of_tbl i path w : 0 <= i < p_cnt pl -> find_ptr s f n i = Some (path, w) -> forall b, b ∈ path -> b ∈ p_tbl pl;
  of_size : 0 <= getisize f n <= p_cnt pl * blocksz f;
  of_small : getisize f n < 2 ^ 32
}.

(** The pointers of a file whose tables do not change. *)
Lemma pointers_kept W s s' ino pl n n' i path w :
  changed (spb f) W s s' -> on_file s ino pl n -> (forall b, b ∈ p_tbl pl -> ~ W b) -> i_block n' = i_block n ->
  0 <= i < p_cnt pl -> find_ptr s f n i = Some (path, w) -> find_ptr s' f n' i = Some (path, w).
Proof.
  intros Hc Hf HW Eb Hi Hp. rewrite (find_ptr_inode drv t p s' f n n') by done.
  eapply find_ptr_changed; [done|done|].
  destruct (m_ptr _ _ _ _ _ _ _ _ _ (of_map _ _ _ _ Hf) i Hi) as (path' & Hp' & Hd & _).
  assert (path' = path) as -> by congruence. rewrite Forall_forall in Hd |- *. intros b Hb. split; [by apply Hd|].
  apply HW. by apply (of_tbl _ _ _ _ Hf i path w).
Qed.

(** A change outside the tables of a file, with its inode [n'] in place. *)
Lemma on_file_frame W s s' ino pl n n' :
  changed (spb f) W s s' -> on_file s ino pl n -> (forall b, b ∈ p_tbl pl -> ~ W b) ->
  i_block n' = i_block n -> file_at drv t p s' f ino (p_grp pl) n' ->
  0 <= getisize f n' <= p_cnt pl * blocksz f -> getisize f n' < 2 ^ 32 -> on_file s' ino pl n'.
Proof.
  intros Hc Hf HW Eb Hat Hs1 Hs2. pose proof Hf as [_ [M1 M2 M3] [K1 K2 K3 K4] Ht _ _].
  assert (forall i path w, 0 <= i < p_cnt pl -> find_ptr s' f n' i = Some (path, w) -> find_ptr s f n i = Some (path, w)) as Hback.
  { intros i path w Hi Hp. destruct (M1 i Hi) as (path' & Hp' & _).
    rewrite (pointers_kept W s s' ino pl n n' i _ _ Hc Hf HW Eb Hi Hp') in Hp. by injection Hp as <- <-. }
  split; [done| | | |done|done].
  - split; [|done|done]. intros i Hi. destruct (M1 i Hi) as (path & Hp & Hrest). exists path. split; [|done].
    by apply (pointers_kept W s s' ino pl n n' i).
  - split; [done|done| |done]. intros i path w Hi Hp. apply (K3 i path w Hi). by apply Hback.
  - intros i path w Hi Hp. apply (Ht i path w Hi). by apply Hback.
Qed.

Lemma fbyte_frame W s s' ino pl n q :
  changed (spb f) W s s' -> on_file s ino pl n -> 0 < blocksz f -> (forall k, 0 <= k < p_cnt pl -> ~ W (p_blk pl k)) ->
  0 <= q < p_cnt pl * blocksz f -> fbyte s' f (p_blk pl) q = fbyte s f (p_blk pl) q.
Proof.
  intros [_ Hc] Hf Hb HW Hq. unfold Ext2Data.fbyte. assert (0 <= q / blocksz f < p_cnt pl) as Hk
    by (split; [apply Z.div_pos; lia|apply Z.div_lt_upper_bound; lia]).
  rewrite Hc; [done| |by apply HW]. pose proof (m_disk _ _ _ _ _ _ _ _ _ (of_map _ _ _ _ Hf) _ Hk). lia.
Qed.

Definition files_ok (s : est D) : Prop :=
  ready s f /\ forall ino pl, files ino = Some pl -> exists n, on_file s ino pl n.

Definition file_holds (s : est D) (ino : Z) (c : list Z) : Prop :=
  exists pl n, files ino = Some pl /\ on_file s ino pl n /\ getisize f n = Z.of_nat (length c) /\
    forall q, 0 <= q < getisize f n -> fbyte s f (p_blk pl) q = c !! Z.to_nat q.

Definition file_room (s : est D) (ino e : Z) : Prop :=
  forall pl, files ino = Some pl -> e <= p_cnt pl * blocksz f /\ e < 2 ^ 32.

Context (Hown : forall i pi, files i = Some pi -> forall b, b ∈ p_tbl pi ->
  b <> iblk f (p_grp pi) i /\ forall k, 0 <= k < p_cnt pi -> b <> p_blk pi k).
Context (Happart : forall i pi j pj, files i = Some pi -> files j = Some pj -> i <> j -> apart f i pi j pj).

(** Writing one file leaves another where it is and as it is: first the data
    blocks change, then the block of the inode. *)
Lemma other_kept s s1 s2 i pi j pj n ni' nj :
  ready s f -> ready s1 f -> files i = Some pi -> files j = Some pj -> i <> j ->
  on_file s j pj nj -> file_at drv t p s1 f i (p_grp pi) n -> ino_ok ni' ->
  changed (spb f) (data_of 0 (p_cnt pi) (p_blk pi)) s s1 -> changed (spb f) (eq (iblk f (p_grp pi) i)) s1 s2 ->
  B (spb f) s2 (iblk f (p_grp pi) i) = splice (B (spb f) s1 (iblk f (p_grp pi) i)) (enc_ino ni') (Z.to_nat (ioff f i)) ->
  on_file s2 j pj nj /\
  forall q, 0 <= q < getisize f nj -> fbyte s2 f (p_blk pj) q = fbyte s f (p_blk pj) q.
Proof.
  intros Hr Hr1 Hi Hj Hne Hf Hat Hok Hc1 Hc2 HB. destruct (Happart i pi j pj Hi Hj Hne) as [A1 (A2 & A3 & A4) A5].
  pose proof (r_bsz _ _ _ _ _ Hr). pose proof (r_spb _ _ _ _ _ Hr). pose proof (of_size _ _ _ _ Hf) as Hsz.
  assert (on_file s1 j pj nj) as Hf1.
  { eapply on_file_frame; [exact Hc1|exact Hf| |done| |done|apply Hf].
    - intros b Hb (k & Hk & ->). by destruct (A1 k Hk) as (_ & _ & H3 & _).
    - destruct Hf as [[Hja Hjr] _ _ _ _ _]. split; [|done]. eapply inode_at_frame; [exact Hr|exact Hc1| | |exact Hja].
      + intros (k & Hk & E). by destruct (A1 k Hk) as (H1 & _).
      + intros (k & Hk & E). by destruct (A1 k Hk) as (_ & H2 & _). }
  assert (on_file s2 j pj nj) as Hf2.
  { eapply on_file_frame; [exact Hc2|exact Hf1| |done| |done|apply Hf].
    - intros b Hb <-. by apply A3.
    - destruct Hf1 as [[Hja Hjr] _ _ _ _ _]. split; [|done].
      eapply inode_at_other; [exact Hr1|apply Hat|exact Hja|exact A5|exact A2|exact Hok|exact Hc2|exact HB]. }
  split; [done|]. intros q Hq. rewrite (fbyte_frame _ s1 s2 j pj nj q Hc2 Hf1), (fbyte_frame _ s s1 j pj nj q Hc1 Hf); try lia; try done.
  intros k Hk (k' & Hk' & E). destruct (A1 k' Hk') as (_ & _ & _ & H4). by apply (H4 k).
Qed.

(** Reading is clipped at the end of the file. *)
Lemma read_clip s ino g n off nb :
  ready s f -> file_at drv t p s f ino g n -> 0 <= off -> 0 <= nb ->
  ext2fs_read drv v ino off nb s
  = if getisize f n <=? off then Done s (0, [])
    else ext2fs_read drv v ino off (Z.min nb (getisize f n - off)) s.
Proof.
  intros Hr Hat Hoff Hnb. unfold ext2fs_read. rewrite !(bind_fs v t p s f) by done.
  rewrite !(bind_done _ _ _ _ _ (getino_at drv v t p s f ino _ _ Hr (fa_at _ _ _ _ _ _ _ _ Hat))).
  cbn [fst snd Z.ltb Z.compare]. destruct (Z.leb_spec (getisize f n) off); [done|].
  destruct (Z.ltb_spec (getisize f n - off) nb).
  - by rewrite Z.min_r, Z.ltb_irrefl by lia.
  - rewrite Z.min_l by lia. by rewrite (proj2 (Z.ltb_ge _ _)) by lia.
Qed.

Lemma holds_write s ino c off buf :
  files_ok s -> file_holds s ino c -> (off <= length c)%nat -> file_room s ino (Z.of_nat (off + length buf)) ->
  exists s', ext2fs_write drv v ino (Z.of_nat off) buf s = Done s' (Z.of_nat (length buf)) /\ files_ok s' /\
    file_holds s' ino (splice c buf off) /\ forall i ci, i <> ino -> file_holds s i ci -> file_holds s' i ci.
Proof.
  intros [Hr Hall] (pl & n & Hpl & Hf & Hsz & Hc) Hoff Hroom. destruct (Hroom pl Hpl) as [Hroom1 Hroom2].
  pose proof (r_bsz _ _ _ _ _ Hr) as Hbs. pose proof (r_spb _ _ _ _ _ Hr) as Hsp. pose proof (of_size _ _ _ _ Hf) as Hs.
  pose proof (of_small _ _ _ _ Hf) as Hs2. pose proof (ia_ok _ _ _ _ _ _ _ _ (fa_at _ _ _ _ _ _ _ _ (of_at _ _ _ _ Hf))) as Hok.
  destruct (write_ok drv v t p s f ino (p_grp pl) n (Z.of_nat off) buf 0 (p_cnt pl) (p_blk pl) Hr (of_at _ _ _ _ Hf)
    (of_map _ _ _ _ Hf) (of_own _ _ _ _ Hf)) as (s1 & s2 & E & Hr1 & Hr2 & Hat1 & Hat2 & Hm1 & Hm2 & Hc1 & Hc2 & HB & Hq); try lia.
  set (n' := new_size f _ n) in *.
  assert (getisize f n' = Z.max (getisize f n) (Z.of_nat off + Z.of_nat (length buf))) as Hsz'
    by (apply getisize_new; [apply (of_at _ _ _ _ Hf)|lia]).
  assert (ino_ok n') as Hok' by (apply new_size_ok; [by apply ino_ok_acl|done]).
  assert (on_file s2 ino pl n') as Hf2.
  { eapply (on_file_frame (fun b => data_of 0 (p_cnt pl) (p_blk pl) b \/ b = iblk f (p_grp pl) ino)); [|exact Hf| |done|done|lia|lia].
    - eapply changed_trans; (eapply changed_weaken; [|done]); cbn; [by left|intros b <-; by right].
    - intros b Hb. destruct (Hown ino pl Hpl b Hb) as [H1 H2]. intros [(k & Hk & ->)| ->]; [by apply (H2 k)|done]. }
  exists s2. split; [done|]. split; [split; [done|]|split].
  - intros j pj Hj. destruct (decide (j = ino)) as [->|Hne]; [rewrite Hpl in Hj; injection Hj as <-; by exists n'|].
    destruct (Hall j pj Hj) as (nj & Hnj). exists nj.
    by apply (other_kept s s1 s2 ino pl j pj n n' nj Hr Hr1 Hpl Hj (not_eq_sym Hne) Hnj Hat1 Hok' Hc1 Hc2 HB).
  - exists pl, n'. split; [done|]. split; [done|]. rewrite Hsz', length_splice by done. split; [lia|].
    intros q Hq'. rewrite Hq by lia. rewrite lookup_splice by done. repeat case_decide; try lia; [f_equal; lia|].
    destruct (decide (q < getisize f n)); [by apply Hc; lia|lia].
  - intros j cj Hne (pj & nj & Hj & Hnj & Hszj & Hcj).
    destruct (other_kept s s1 s2 ino pl j pj n n' nj Hr Hr1 Hpl Hj (not_eq_sym Hne) Hnj Hat1 Hok' Hc1 Hc2 HB) as [Hn2 Hb2].
    exists pj, nj. split; [done|]. split; [done|]. split; [done|]. intros q Hq'. by rewrite Hb2, Hcj.
Qed.

Lemma holds_read s ino c off nb :
  files_ok s -> file_holds s ino c -> (off <= length c)%nat -> 0 <= nb < 2 ^ 62 ->
  exists b, ext2fs_read drv v ino (Z.of_nat off) nb s = Done s (Z.of_nat (length b), b) /\
    b = take (Z.to_nat nb) (drop off c).
Proof.
  intros [Hr _] (pl & n & Hpl & Hf & Hsz & Hc) Hoff Hnb. pose proof (of_size _ _ _ _ Hf). pose proof (of_small _ _ _ _ Hf).
  exists (take (Z.to_nat nb) (drop off c)). split; [|done].
  rewrite (read_clip s ino (p_grp pl) n) by (apply Hf || done || lia).
  destruct (Z.leb_spec (getisize f n) (Z.of_nat off)).
  { rewrite drop_ge by lia. by rewrite take_nil. }
  set (k := Z.min nb (getisize f n - Z.of_nat off)). destruct (decide (k = 0)) as [E0|E0].
  { assert (nb = 0) as -> by lia. change (Z.to_nat 0) with 0%nat. rewrite take_0, E0. unfold ext2fs_read.
    rewrite (bind_fs v t p s f) by done.
    rewrite (bind_done _ _ _ _ _ (getino_at drv v t p s f ino _ _ Hr (fa_at _ _ _ _ _ _ _ _ (of_at _ _ _ _ Hf)))).
    cbn [fst snd Z.ltb Z.compare]. rewrite (proj2 (Z.leb_gt _ _)), (proj2 (Z.ltb_ge _ 0)) by lia. done. }
  destruct (read_ok drv v t p s f ino (p_grp pl) n (Z.of_nat off) k 0 (p_cnt pl) (p_blk pl) Hr (of_at _ _ _ _ Hf)
    (of_map _ _ _ _ Hf)) as (out & E & Hl & Hj); try lia.
  assert (out = take (Z.to_nat nb) (drop off c)) as <-; [|by rewrite E, Hl].
  apply list_eq_same_length with (Z.to_nat k); [|lia|]; [rewrite length_take, length_drop; lia|].
  intros j x y Hlt Hx Hy. rewrite Hj, Hc in Hx by lia. rewrite lookup_take_lt, lookup_drop in Hy by lia.
  replace (Z.to_nat (Z.of_nat off + Z.of_nat j)) with (off + j)%nat in Hx by lia. congruence.
Qed.

Lemma holds_getino s ino c :
  files_ok s -> file_holds s ino c ->
  exists n, ext2fs_getino drv v ino s = Done s (0, Some n) /\ VfsOps.i_size n = Z.of_nat (length c).
Proof.
  intros [Hr _] (pl & n & Hpl & Hf & Hsz & _). unfold ext2fs_getino. rewrite (bind_fs v t p s f) by done.
  rewrite (bind_done _ _ _ _ _ (getino_at drv v t p s f ino _ _ Hr (fa_at _ _ _ _ _ _ _ _ (of_at _ _ _ _ Hf)))).
  cbn [fst snd Z.ltb Z.compare]. unfold to_vinode. rewrite (fa_reg _ _ _ _ _ _ _ _ (of_at _ _ _ _ Hf)).
  cbn. eexists. split; [done|]. done.
Qed.

(** ** The promise to the VFS *)

Definition ext2_file_laws : file_laws (ext2_ops drv) v.
Proof.
  refine {| holds := file_holds; room := file_room; may_fail := False; fs_ok := files_ok |}.
  - intros d ino c off buf Hok Hc Hoff _ Hroom.
    destruct (holds_write d ino c off buf Hok Hc Hoff Hroom) as (d' & E & Hok' & Hn & Ho).
    exists d', (Z.of_nat (length buf)). split; [exact E|]. split; [done|]. right. done.
  - intros d ino c off nb Hok Hc Hoff Hmax Hnb. by apply holds_read.
  - intros d ino c Hok Hc. by apply holds_getino.
Defined.

End files.

End Ext2Files.
