(* ===== verification/Ext2Image.v ===== *)
(** A small ext2 file system on a disk in memory: a root directory, a file with a
    direct and an indirect block, mounted with [ext2fs_mount].  Witnesses for the
    theorems on [Ext2] and runs that show where the driver goes wrong. *)
From S2P Require Import Prelude CString VfsOps Block Ext2 Ext2Facts Ext2Geo Ext2Data Ext2Alloc Ext2Link Ext2Dir Ext2Unlink.

Module Ext2Image.
Import CString VfsOps Block Ext2 Ext2Facts Ext2Geo Ext2Data Ext2Alloc Ext2Link Ext2Dir Ext2Unlink.

(** ** The image: 64 blocks of 1024 bytes, one group, 32 inodes

    1 super block, 2 group descriptor, 3 and 4 bitmaps, 5 to 8 inodes, 9 root
    directory, 11 to 13 the file with inode 12, 10 and 14 the files with inodes
    11 and 10. *)

Definition sb0 : ext2_sb_t := mk_sb 32 64 0 50 20 1 0 0 8192 8192 32 0 0 0 0 0xEF53 1 1 0 0 0 0 1 0 0.
Definition dsb0 (ro : Z) : ext2_dynrev_sb_t := mk_dynsb sb0 11 128 0 0 2 ro (replicate 96 0) 0.
Definition bg0 : ext2_bg_t := mk_bg 3 4 5 50 20 1 0 (replicate 12 0).
Definition root0 : ext2_ino_t :=
  mk_ino 0x41ED 0 1024 0 0 0 0 0 2 2 0 0 ([9] ++ replicate 14 0) 0 0 0 0 (replicate 12 0).
Definition file0 : ext2_ino_t :=
  mk_ino 0x81A4 0 13312 0 0 0 0 0 1 6 0 0 (replicate 11 0 ++ [11; 12; 0; 0]) 0 0 0 0 (replicate 12 0).
Definition small (blk size : Z) : ext2_ino_t :=
  mk_ino 0x81A4 0 size 0 0 0 0 0 1 2 0 0 ([blk] ++ replicate 14 0) 0 0 0 0 (replicate 12 0).

Definition pad (b : list Z) : list Z := b ++ replicate (1024 - length b) 0.

(** The root directory: [.], [..] and [a], the file. *)
Definition dot : dent := (mk_dir 2 12 1 2, [46; 0; 0; 0]).
Definition dotdot : dent := (mk_dir 2 12 2 2, [46; 46; 0; 0]).
Definition ent_a : dent := (mk_dir 12 1000 1 1, [97] ++ replicate 991 0).
Definition rootdir : list Z := lay [dot; dotdot; ent_a].

Definition image (ro : Z) : list (Z * list Z) :=
  [(1, pad (enc_dynsb (dsb0 ro))); (2, pad (enc_bg bg0)); (3, pad [255; 63]); (4, pad [255; 15]);
   (5, pad (replicate 128 0 ++ enc_ino root0));
   (6, pad (replicate 128 0 ++ enc_ino (small 14 3) ++ enc_ino (small 10 5) ++ enc_ino file0)); (9, rootdir);
   (10, replicate 1024 97); (14, replicate 1024 98); (11, replicate 1024 65); (12, pad (le 4 13)); (13, replicate 1024 66)].

Definition disk (l : list (Z * list Z)) : gmap (Z * Z * Z) (list Z) :=
  foldr (fun '(b, bs) d => <[(DRV_VIRTIO, 7, 2 * b) := take 512 bs]> (<[(DRV_VIRTIO, 7, 2 * b + 1) := drop 512 bs]> d))
    ∅ l.

Definition e0 (ro : Z) : est (gmap (Z * Z * Z) (list Z)) :=
  mk_est (mk_blk (blkdevs blk1) 8 (nblkdevtyp blk1) [] (disk (image ro))) ∅ [] [] 1000 4096.

Definition dev0 : vfs_t := mk_vfs [47] 0 id1 0 0.
Definition vv : vfs_t := mk_vfs [47] 2 id1 0 4096.

Definition s1 : est (gmap (Z * Z * Z) (list Z)) := state_of (ext2fs_mount ramdrv dev0 (e0 1)) (e0 1).
Definition f1 : ext2fs_t := mk_fs true (dsb0 1) 1 1 [bg0] 1024 2 256 32.

Lemma s1_ready : ready vv DRV_VIRTIO 7 s1 f1.
Proof.
  split; [by vm_compute| |by vm_compute..].
  eexists. split; [by vm_compute|]. split_and!; [done|done|]. rewrite !elem_of_cons. tauto.
Qed.

Lemma file0_ok : ino_ok file0.
Proof.
  split_and!; [| | |done]; cbn; repeat (apply Forall2_cons; split; [by vm_compute|]); apply Forall2_nil_2.
Qed.

Lemma s1_located ino : ino = 2 \/ ino = 12 -> located f1 ino bg0.
Proof. intros [-> | ->]; split; vm_compute; try split; (done || congruence). Qed.

Lemma s1_file : file_at ramdrv DRV_VIRTIO 7 s1 f1 12 bg0 file0.
Proof. split; [split; [apply s1_located; by right|by vm_compute|by vm_compute|apply file0_ok]|done]. Qed.

(** Blocks 11 and 12 of the file. *)
Definition m1 (i : Z) : Z := if i =? 11 then 11 else 13.

Lemma s1_cases i : 11 <= i < 13 -> i = 11 \/ i = 12.
Proof. lia. Qed.

Lemma s1_ptr i : 11 <= i < 13 -> find_ptr ramdrv DRV_VIRTIO 7 s1 f1 file0 i = Some (if i =? 11 then [] else [12], m1 i).
Proof. intros [-> | ->]%s1_cases; by vm_compute. Qed.

Lemma s1_mapped : mapped ramdrv DRV_VIRTIO 7 s1 f1 file0 11 13 m1.
Proof.
  split.
  - intros i Hi. exists (if i =? 11 then [] else [12]). split; [by apply s1_ptr|].
    apply s1_cases in Hi as [-> | ->]; cbn; (split; [repeat constructor; done|]).
    + intros j _. apply not_elem_of_nil.
    + intros j [-> | ->]%s1_cases H; apply list_elem_of_singleton in H; done.
  - intros i [-> | ->]%s1_cases; by vm_compute.
  - intros i j [-> | ->]%s1_cases [-> | ->]%s1_cases; done.
Qed.

Lemma s1_apart : kept_apart ramdrv DRV_VIRTIO 7 s1 f1 12 bg0 file0 11 13 m1.
Proof.
  split; [| | |done].
  - intros i [-> | ->]%s1_cases; done.
  - intros i [-> | ->]%s1_cases; done.
  - intros i path w Hi Hp. rewrite s1_ptr in Hp by done. injection Hp as <- _.
    apply s1_cases in Hi as [-> | ->]; cbn; [apply not_elem_of_nil|]. intros H. by apply list_elem_of_singleton in H.
Qed.

Lemma ext2_write_read_witness :
  exists s' n', ext2fs_write ramdrv vv 12 12284 (replicate 100 67) s1 = Done s' 100 /\
    ext2fs_read ramdrv vv 12 12284 100 s' = Done s' (100, replicate 100 67) /\
    getino ramdrv vv 12 s' = Done s' (0, n') /\ getisize f1 n' = 13312.
Proof.
  destruct (ext2_write_read ramdrv vv DRV_VIRTIO 7 s1 f1 12 bg0 file0 12284 (replicate 100 67) 11 13 m1
    s1_ready s1_file s1_mapped s1_apart) as (s' & n' & H1 & H2 & H3 & H4 & _);
    [discriminate|discriminate|reflexivity|split; [discriminate|reflexivity]|discriminate|discriminate|].
  exists s', n'. split; [exact H1|]. split; [exact H2|]. split; [exact H3|exact H4].
Defined.

(** ** Allocation and links *)

Lemma f1_layout : layout f1.
Proof.
  split; try (vm_compute; congruence); try done; [|by repeat constructor].
  intros i Hi. change (nbgs f1) with 1 in Hi. assert (i = 0) as -> by lia. done.
Qed.

Lemma f1_group grp g : aget (bgs f1) grp = Some g -> grp = 0 /\ g = bg0.
Proof.
  intros [H Hg]%aget_Some. change (bgs f1) with [bg0] in *. apply list_lookup_singleton_Some in Hg as [E <-].
  split; [lia|done].
Qed.

Lemma f1_meta b : 2 < b -> ~ meta f1 b.
Proof.
  intros Hb [->|(i & Hi & H)]; [lia|]. change (nbgs f1) with 1 in Hi. assert (i = 0) as -> by lia.
  assert (first_data f1 + 0 * bpg f1 + bgtbln f1 = 2) by done. lia.
Qed.

Lemma f1_bitmaps : bitmaps_ok bg_block_bitmap f1 /\ bitmaps_ok bg_inode_bitmap f1.
Proof. split; intros grp g [-> ->]%f1_group; (split; [done|by apply f1_meta]). Qed.

Lemma f1_tables : tables_ok f1.
Proof.
  intros grp g idx [-> ->]%f1_group Hi ino. change (ipg f1) with 32 in *. assert (ino = idx + 1) as E by lia.
  assert (1 <= ino <= 32) as Hr by lia. clearbody ino. subst.
  assert (exists k : nat, idx = Z.of_nat k /\ (k < 32)%nat) as (k & -> & Hk) by (exists (Z.to_nat idx); lia).
  do 32 (destruct k as [|k]; [split_and!; [split; vm_compute; try split; (done || congruence)|done|apply f1_meta; reflexivity|
    by vm_compute|done]|]). lia.
Qed.

(** The first free block of the image is block 15. *)
Lemma allocblk_takes_free_witness :
  exists s' r, allocblk ramdrv vv 0 s1 = Done s' r /\ r = 15.
Proof.
  destruct (allocblk_takes_free ramdrv vv DRV_VIRTIO 7 s1 f1 0 s1_ready f1_layout (proj1 f1_bitmaps) eq_refl)
    as (s' & r & E & _); [discriminate|split; [discriminate|reflexivity]|].
  exists s', r. split; [exact E|].
  assert (result_of (allocblk ramdrv vv 0 s1) = Some 15) as H by (vm_compute; reflexivity).
  rewrite E in H. injection H as H. exact H.
Defined.

Lemma ext2_symlink_readsym_witness :
  exists s' r, ext2fs_symlink ramdrv vv 0xA1FF 0 0 (replicate 20 97) s1 = Done s' r /\ r = 13.
Proof.
  destruct (ext2_symlink_readsym ramdrv vv DRV_VIRTIO 7 s1 f1 0xA1FF 0 0 (replicate 20 97) (replicate 32 0)
    s1_ready f1_layout (proj2 f1_bitmaps) f1_tables) as (s' & r & E & _);
    [reflexivity|reflexivity|discriminate|by split|by split|by split|by apply Forall_replicate|cbn; lia|cbn; lia|reflexivity|].
  exists s', r. split; [exact E|].
  assert (result_of (ext2fs_symlink ramdrv vv 0xA1FF 0 0 (replicate 20 97) s1) = Some 13) as H by (vm_compute; reflexivity).
  rewrite E in H. injection H as H. exact H.
Defined.

(** ** Removing an inode *)

Lemma rmino_never_succeeds_witness : exists r, result_of (ext2fs_rmino ramdrv vv 12 s1) = Some r /\ r < 0.
Proof.
  destruct (ext2fs_rmino ramdrv vv 12 s1) as [s' r|] eqn:E.
  - exists r. split; [reflexivity|].
    refine (rmino_never_succeeds ramdrv vv DRV_VIRTIO 7 s1 f1 12 s' r _ _ _ E); [|reflexivity|by split].
    destruct s1_ready as [H1 H2 _ H4 H5 [H6 H7] _].
    refine (conj H1 (conj H2 (conj H4 (conj H5 (conj H6 (conj H7 _)))))). by apply Forall_singleton.
  - exfalso. assert (result_of (ext2fs_rmino ramdrv vv 12 s1) = Some (- ENOENT)) as H by (vm_compute; reflexivity).
    by rewrite E in H.
Defined.

(** ** Names in the root directory *)

Lemma root0_ok : ino_ok root0.
Proof.
  split_and!; [| | |done]; cbn; repeat (apply Forall2_cons; split; [by vm_compute|]); apply Forall2_nil_2.
Qed.

Definition m9 (_ : Z) : Z := 9.

Lemma s1_root_ino : inode_at ramdrv DRV_VIRTIO 7 s1 f1 2 bg0 root0.
Proof. split; [apply s1_located; by left|by vm_compute|by vm_compute|apply root0_ok]. Qed.

Lemma s1_root_ptr : find_ptr ramdrv DRV_VIRTIO 7 s1 f1 root0 0 = Some ([], 9).
Proof. by vm_compute. Qed.

Lemma s1_root_mapped : mapped ramdrv DRV_VIRTIO 7 s1 f1 root0 0 1 m9.
Proof.
  split.
  - intros i Hi. assert (i = 0) as -> by lia. exists []. split; [apply s1_root_ptr|]. split; [done|].
    intros j _. apply not_elem_of_nil.
  - intros i _. by vm_compute.
  - lia.
Qed.

Lemma s1_root : dir_on ramdrv DRV_VIRTIO 7 s1 f1 2 bg0 root0 m9 (map lay [[dot; dotdot; ent_a]]).
Proof.
  split; [apply s1_root_ino|done|done|apply s1_root_mapped|].
  intros i bs Hi. apply list_lookup_singleton_Some in Hi as [-> <-]. by vm_compute.
Qed.

Lemma s1_recs : Forall (Forall dent_ok) [[dot; dotdot; ent_a]].
Proof. repeat constructor; cbn; lia. Qed.

Lemma s1_root_apart ino : ino = 2 \/ ino = 12 -> kept_apart ramdrv DRV_VIRTIO 7 s1 f1 ino bg0 root0 0 1 m9.
Proof.
  intros Hino. split.
  - intros i _. destruct Hino as [-> | ->]; done.
  - intros i _. done.
  - intros i path w Hi Hp. assert (i = 0) as -> by lia. rewrite s1_root_ptr in Hp. injection Hp as <- _.
    apply not_elem_of_nil.
  - destruct Hino as [-> | ->]; done.
Qed.

Lemma s1_link_file : link_apart ramdrv DRV_VIRTIO 7 s1 f1 12 bg0 file0 2 bg0 root0 m9 1.
Proof.
  split; [apply s1_root_apart; by right|]. split; [apply s1_root_apart; by left|]. split; [done|left; by left].
Qed.

Lemma s1_link_self : link_apart ramdrv DRV_VIRTIO 7 s1 f1 2 bg0 root0 2 bg0 root0 m9 1.
Proof.
  split; [apply s1_root_apart; by left|]. split; [apply s1_root_apart; by left|]. split; [done|by right].
Qed.

(** A second name, [b], for the file. *)
Lemma ext2_mklink_lookup_witness :
  exists s', ext2fs_mklink ramdrv vv 12 0x81A4 2 [98] s1 = Done s' 0 /\
    ext2fs_lookup ramdrv vv 2 [98] s' = Done s' 12 /\
    getino ramdrv vv 12 s' = Done s' (0, set_i_links 2 file0).
Proof.
  destruct (ext2_mklink_lookup ramdrv vv DRV_VIRTIO 7 s1 f1 12 bg0 file0 0x81A4 2 bg0 root0 m9 [[dot; dotdot; ent_a]]
    [98] 0 [dot; dotdot; ent_a] s1_ready (fa_at _ _ _ _ _ _ _ _ s1_file) s1_root s1_recs s1_link_file)
    as (s' & H1 & H2 & _ & H4); [cbn; lia|reflexivity|reflexivity|vm_compute; discriminate|].
  exists s'. split; [exact H1|]. split; [exact H2|exact H4].
Defined.

(** [a] is removed: its record joins the one of [..]. *)
Lemma ext2_rmlink_lookup_witness :
  exists s', ext2fs_rmlink ramdrv vv 2 [97] s1 = Done s' 0 /\
    ext2fs_lookup ramdrv vv 2 [97] s' = Done s' (- ENOENT) /\ ext2fs_lookup ramdrv vv 2 [46; 46] s' = Done s' 2.
Proof.
  destruct (ext2_rmlink_lookup ramdrv vv DRV_VIRTIO 7 s1 f1 bg0 file0 2 bg0 root0 m9 [] [] [dot] dotdot ent_a []
    s1_ready s1_root s1_recs eq_refl eq_refl (fa_at _ _ _ _ _ _ _ _ s1_file) s1_link_file)
    as (s' & H1 & H2 & H3 & _); [reflexivity|].
  exists s'. split; [exact H1|]. split; [exact H2|]. apply H3; [discriminate|].
  rewrite (lookup_ok ramdrv vv DRV_VIRTIO 7 s1 f1 2 bg0 root0 m9 [[dot; dotdot; ent_a]] [46; 46] s1_ready s1_root s1_recs).
  reflexivity.
Defined.

(** [.] is removed: no lookup in the root directory ends any more. *)
Lemma ext2_rmlink_first_hangs_witness :
  exists s' dn' dd, ext2fs_rmlink ramdrv vv 2 [46] s1 = Done s' 0 /\ getinodata ramdrv vv dn' s' = Done s' (0, Some dd) /\
    forall fuel, lookup_loop fuel dd 0 [97] = Endless.
Proof.
  destruct (ext2_rmlink_first_hangs ramdrv vv DRV_VIRTIO 7 s1 f1 bg0 root0 2 bg0 root0 m9 [] [] dot [dotdot; ent_a]
    s1_ready s1_root s1_recs eq_refl s1_root_ino s1_link_self) as (s' & dn' & dd & H1 & _ & H2 & H3).
  exists s', dn', dd. split; [exact H1|]. split; [exact H2|]. intros fuel. apply H3; [discriminate|reflexivity].
Defined.

(** ** Writing into a hole *)

(** Block 2 of the file is a hole. *)
Definition s_hole := state_of (ext2fs_write ramdrv vv 12 2048 [1; 2; 3] s1) s1.

(** Bytes written at an offset whose block is a hole are stored in the first
    hole of the file: here those for offset 2048 are read back at offset 0,
    although the call reports three bytes written. *)
Theorem ext2_hole_write_misplaced :
  result_of (ext2fs_write ramdrv vv 12 2048 [1; 2; 3] s1) = Some 3 /\
  result_of (ext2fs_read ramdrv vv 12 2048 3 s_hole) = Some (3, [0; 0; 0]) /\
  result_of (ext2fs_read ramdrv vv 12 0 3 s_hole) = Some (3, [1; 2; 3]).
Proof. vm_compute. done. Qed.

(** ** A directory that holds its own name *)

(** A new directory, inode 13, then its name [.]. *)
Definition s_dir := state_of (ext2fs_mkino ramdrv vv 0x41ED 0 0 s1) s1.
Definition s_self := state_of (ext2fs_mklink ramdrv vv 13 0x41ED 13 [46] s_dir) s_dir.

(** Linking an empty directory into itself reports success but stores
    nothing: the inode read before the directory grew is flushed last and
    overwrites its size and block pointer, so the directory stays empty and the
    block taken for the entry is lost. *)
Theorem ext2_self_link_lost :
  result_of (ext2fs_mkino ramdrv vv 0x41ED 0 0 s1) = Some 13 /\
  result_of (ext2fs_mklink ramdrv vv 13 0x41ED 13 [46] s_dir) = Some 0 /\
  result_of (ext2fs_lookup ramdrv vv 13 [46] s_self) = Some 0 /\
  (fun r => (i_size r.2, i_block r.2, i_links_count r.2)) <$> result_of (getino ramdrv vv 13 s_self)
    = Some (0, replicate 15 0, 1) /\
  result_of (allocblk ramdrv vv 0 s_dir) = Some 15 /\ result_of (allocblk ramdrv vv 0 s_self) = Some 16.
Proof. vm_compute. done. Qed.

(** ** Copies of the super block *)

(** Three groups of 24 blocks, the features SPARSE_SUPER and LARGE_FILE: group 2
    has no copies, its first block, 49, is block 11 of the file. *)
Definition sb3 : ext2_sb_t := mk_sb 96 72 0 20 84 1 0 0 24 24 32 0 0 0 0 0xEF53 1 1 0 0 0 0 1 0 0.
Definition bg3 : list ext2_bg_t :=
  [bg0; mk_bg 27 28 29 10 32 0 0 (replicate 12 0); mk_bg 60 61 62 10 32 0 0 (replicate 12 0)].
Definition file3 : ext2_ino_t :=
  mk_ino 0x81A4 0 12288 0 0 0 0 0 1 2 0 0 (replicate 11 0 ++ [49; 0; 0; 0]) 0 0 0 0 (replicate 12 0).

Definition image3 : list (Z * list Z) :=
  [(1, pad (enc_dynsb (mk_dynsb sb3 11 128 0 0 2 3 (replicate 96 0) 0))); (2, pad (concat (map enc_bg bg3)));
   (3, pad [255; 31]); (4, pad [255; 15]); (5, pad (replicate 128 0 ++ enc_ino root0));
   (6, pad (replicate 384 0 ++ enc_ino file3)); (9, rootdir); (27, pad [255; 3]); (28, pad []);
   (49, replicate 1024 65); (60, pad [1; 248; 1]); (61, pad [])].

Definition e3 : est (gmap (Z * Z * Z) (list Z)) :=
  mk_est (mk_blk (blkdevs blk1) 8 (nblkdevtyp blk1) [] (disk image3)) ∅ [] [] 1000 4096.
Definition s3 := state_of (ext2fs_mount ramdrv dev0 e3) e3.

(** A regular file is made. *)
Definition s3_made := state_of (ext2fs_mkino ramdrv vv 0x81A4 0 0 s3) s3.

(** The test for the sparse super block feature is inverted: on a file system
    with SPARSE_SUPER and one more read-only compatible feature a copy of the
    super block is written to every group, so making an inode overwrites the data
    of another file. *)
Theorem ext2_sparse_overwrites_data :
  result_of (ext2fs_read ramdrv vv 12 11264 4 s3) = Some (4, [65; 65; 65; 65]) /\
  result_of (ext2fs_mkino ramdrv vv 0x81A4 0 0 s3) = Some 13 /\
  result_of (ext2fs_read ramdrv vv 12 11264 4 s3_made) = Some (4, le 4 96).
Proof. vm_compute. done. Qed.

End Ext2Image.
