(* ===== verification/VfsExt2.v ===== *)
(** The virtual file system over ext2 over the block layer: [Vfs] with the driver
    table of [Ext2], through the promise that [Ext2Files] keeps. *)
From S2P Require Import Prelude VfsPath VfsOps Fd Vfs Block Ext2 Ext2Facts Ext2Data Ext2Files Ext2Image.

Module VfsExt2.
Import VfsPath VfsOps Fd Vfs Block Ext2 Ext2Facts Ext2Data Ext2Files Ext2Image.

Section ext2.
Context {D : Type} (drv : drivers D) `{!sector_laws drv, !reliable drv}.
Context (v : vfs_t) (t p : Z) (g : ext2fs_t) (files : Z -> option place).

(** C6. From the descriptor to the sectors: bytes written to an open ext2 file,
    within the blocks it has, are all accepted, and after seeking back they are
    read through the descriptor again.  The files of the disk lie apart; the
    sector drivers keep what is written. *)
Theorem ext2_fd_write_read (s : vst (est D)) d (fl : file) c off buf :
  (forall i pi, files i = Some pi -> forall b, b ∈ p_tbl pi ->
     b <> iblk g (p_grp pi) i /\ forall k, 0 <= k < p_cnt pi -> b <> p_blk pi k) ->
  (forall i pi j pj, files i = Some pi -> files j = Some pj -> i <> j -> apart g i pi j pj) ->
  fd_open (ext2_ops drv) v s d fl -> files_ok drv v t p g files (dev s) ->
  file_holds drv t p g files (dev s) (f_ino fl) c ->
  0 <= f_ino fl < 2 ^ 32 -> f_pos fl = Z.of_nat off -> (off <= length c)%nat ->
  file_room g files (dev s) (f_ino fl) (Z.of_nat (off + length buf)) ->
  exists s1 s2 s3, fswrite d buf s = Done s1 (Z.of_nat (length buf)) /\
    lseek d (Z.of_nat off) SEEK_SET s1 = Done s2 (Z.of_nat off) /\
    fsread d (Z.of_nat (length buf)) s2 = Done s3 (Z.of_nat (length buf), buf).
Proof.
  intros Hown Hap Hopen Hok Hc Hino Hpos Hoff Hroom.
  pose proof Hc as (pl & n & Hpl & _). pose proof (Hroom pl Hpl) as [_ Hlt].
  destruct (write_back (laws := ext2_file_laws drv v t p g files Hown Hap) (ext2_ops drv) v s d fl c off buf Hopen Hok Hc
    Hino Hpos Hoff ltac:(lia) Hroom) as (s1 & r & Ew & [[_ []]|(-> & s2 & s3 & El & Er)]).
  by exists s1, s2, s3.
Qed.

End ext2.

(** ** The files of the image *)

Definition place_of (b : Z) : place := mk_place bg0 1 (fun _ => b) [].
Definition files0 (ino : Z) : option place :=
  if ino =? 10 then Some (place_of 14) else if ino =? 11 then Some (place_of 10) else None.

Lemma files0_inv i pi : files0 i = Some pi -> (i = 10 /\ pi = place_of 14) \/ (i = 11 /\ pi = place_of 10).
Proof.
  unfold files0. destruct (Z.eqb_spec i 10); [intros [= <-]; by left|].
  destruct (Z.eqb_spec i 11); [intros [= <-]; by right|done].
Qed.

Lemma files0_own i pi : files0 i = Some pi -> forall b, b ∈ p_tbl pi ->
  b <> iblk f1 (p_grp pi) i /\ forall k, 0 <= k < p_cnt pi -> b <> p_blk pi k.
Proof. intros [[_ ->]|[_ ->]]%files0_inv b Hb; by apply not_elem_of_nil in Hb. Qed.

Lemma files0_apart i pi j pj : files0 i = Some pi -> files0 j = Some pj -> i <> j -> apart f1 i pi j pj.
Proof.
  intros [[-> ->]|[-> ->]]%files0_inv [[-> ->]|[-> ->]]%files0_inv Hne; try done;
    (split; [intros k _; split_and!; try (by vm_compute); apply not_elem_of_nil
            |split_and!; [by vm_compute|apply not_elem_of_nil|by vm_compute]
            |right; vm_compute; (by left) || (by right)]).
Qed.

Lemma small_ok : ino_ok (small 14 3) /\ ino_ok (small 10 5).
Proof.
  split; (split_and!; [| | |done]; cbn; repeat (apply Forall2_cons; split; [by vm_compute|]); apply Forall2_nil_2).
Qed.

Lemma s1_on_file ino b size :
  (ino = 10 /\ b = 14 /\ size = 3) \/ (ino = 11 /\ b = 10 /\ size = 5) ->
  on_file ramdrv DRV_VIRTIO 7 f1 s1 ino (place_of b) (small b size).
Proof.
  assert (forall b, find_ptr ramdrv DRV_VIRTIO 7 s1 f1 (small b size) 0 = Some ([], b)) as Hp by done.
  intros Hcase. assert (file_at ramdrv DRV_VIRTIO 7 s1 f1 ino bg0 (small b size)) as Hat.
  { split; [|done]. destruct Hcase as [(-> & -> & ->)|(-> & -> & ->)];
      (split; [split; vm_compute; try split; (done || congruence)|by vm_compute|by vm_compute|apply small_ok]). }
  split; [done| | | | |].
  - split.
    + intros i Hi. assert (i = 0) as -> by (cbn in Hi; lia). exists []. split; [apply Hp|]. split; [done|].
      intros j _. apply not_elem_of_nil.
    + intros i _. destruct Hcase as [(_ & -> & _)|(_ & -> & _)]; by vm_compute.
    + cbn. lia.
  - split.
    + intros i _. destruct Hcase as [(-> & -> & _)|(-> & -> & _)]; by vm_compute.
    + intros i _. destruct Hcase as [(-> & -> & _)|(-> & -> & _)]; by vm_compute.
    + intros i path w Hi E. assert (i = 0) as -> by (cbn in Hi; lia). rewrite Hp in E. injection E as <- _.
      apply not_elem_of_nil.
    + destruct Hcase as [(-> & -> & _)|(-> & -> & _)]; by vm_compute.
  - intros i path w Hi E. assert (i = 0) as -> by (cbn in Hi; lia). rewrite Hp in E. by injection E as <- _.
  - destruct Hcase as [(_ & _ & ->)|(_ & _ & ->)]; by vm_compute.
  - destruct Hcase as [(_ & _ & ->)|(_ & _ & ->)]; by vm_compute.
Qed.

Lemma s1_files : files_ok ramdrv vv DRV_VIRTIO 7 f1 files0 s1.
Proof.
  split; [apply s1_ready|]. intros ino pl [[-> ->]|[-> ->]]%files0_inv; eexists; apply s1_on_file; [by left|by right].
Qed.

Lemma s1_holds : file_holds ramdrv DRV_VIRTIO 7 f1 files0 s1 11 (replicate 5 97).
Proof.
  exists (place_of 10), (small 10 5). split; [done|]. split; [apply s1_on_file; by right|]. split; [done|].
  intros q Hq. change (getisize f1 (small 10 5)) with 5 in Hq.
  assert (q = 0 \/ q = 1 \/ q = 2 \/ q = 3 \/ q = 4) as Hcase by lia.
  destruct Hcase as [->|[->|[->|[->| ->]]]]; by vm_compute.
Qed.

(** The ext2 image mounted on the root and inode 11 open, at position 2, as
    descriptor 0. *)
Definition open11 : file := mk_file (1, 0%nat) (mk_vinode 0x81A4 0 0 0 0 0 0 1 5 11) 11 2 0 [47; 98].
Definition sys2 : vst (est ramdisk) :=
  mk_vst [mk_slot vv (Some (ext2_ops ramdrv)) true] 1 [47] [] (replicate 1024 0) []
    (mk_fdtab (Some (mk_fd 0 true (FDTYPE_FILE open11) :: replicate 9 zero_fd)) 10) 0 0 s1.

Lemma ext2_fd_write_read_witness :
  exists s1 s2 s3, fswrite 0 (replicate 500 104) sys2 = Done s1 500 /\
    lseek 0 2 SEEK_SET s1 = Done s2 2 /\ fsread 0 500 s2 = Done s3 (500, replicate 500 104).
Proof.
  refine (ext2_fd_write_read ramdrv vv DRV_VIRTIO 7 f1 files0 sys2 0 open11 (replicate 5 97) 2 (replicate 500 104)
    files0_own files0_apart _ s1_files s1_holds _ _ _ _).
  - split; [by vm_compute|]. split; [by eexists _, _|]. by exists 0%nat.
  - by split.
  - done.
  - cbn; lia.
  - intros pl [[E _]|[_ ->]]%files0_inv; [done|]. by vm_compute.
Defined.

End VfsExt2.
