(* ===== verification/Virtq.v ===== *)
(** Virtqueues: the descriptor table with its free list, the available and the
    used ring, their layout in memory, and polling for completions. *)
From S2P Require Import Prelude Pmm.

Module Virtq.
Import Pmm.

(** ** Rings *)

Definition VRING_DESC_F_NEXT : Z := 1.
Definition VRING_DESC_F_WRITE : Z := 2.

Record vring_desc_t := mk_desc { d_addr : Z; d_len : Z; d_flags : Z; d_next : Z }.
Record vring_avail_t := mk_avail { a_flags : Z; a_idx : Z; a_ring : list Z }.
(** An element is its [id] and its [len]. *)
Record vring_used_t := mk_used { us_flags : Z; us_idx : Z; us_ring : list (Z * Z) }.

(** The three pointers are what they point to. *)
Record virtqueue_t := mk_vq {
  queue_index : Z;
  vq_size : Z;
  free_count : Z;
  free_head : Z;
  last_used_idx : Z;
  desc : list vring_desc_t;
  avail : vring_avail_t;
  used : vring_used_t;
  phys_base : Z;
  page_count : Z;
  notify_offset : Z;
  modern : bool
}.

Definition set_free (c h : Z) (ds : list vring_desc_t) (v : virtqueue_t) : virtqueue_t :=
  mk_vq (queue_index v) (vq_size v) c h (last_used_idx v) ds (avail v) (used v) (phys_base v) (page_count v) (notify_offset v) (modern v).
Definition set_desc (ds : list vring_desc_t) (v : virtqueue_t) : virtqueue_t := set_free (free_count v) (free_head v) ds v.
Definition set_avail (a : vring_avail_t) (v : virtqueue_t) : virtqueue_t :=
  mk_vq (queue_index v) (vq_size v) (free_count v) (free_head v) (last_used_idx v) (desc v) a (used v) (phys_base v) (page_count v) (notify_offset v) (modern v).
Definition set_used (l : Z) (u : vring_used_t) (v : virtqueue_t) : virtqueue_t :=
  mk_vq (queue_index v) (vq_size v) (free_count v) (free_head v) l (desc v) (avail v) u (phys_base v) (page_count v) (notify_offset v) (modern v).

(** ** Descriptors *)

Definition virtqueue_alloc_desc : M virtqueue_t Z :=
  v ← get;
  if free_count v =? 0 then mret (-1) else
  let idx := free_head v in
  d ← deref (aget (desc v) idx);
  ds ← deref (aset (desc v) idx (mk_desc 0 0 0 0));
  _ ← put (set_free (u16 (free_count v - 1)) (d_next d) ds v);
  mret (s32 idx).

Definition virtqueue_free_desc (desc_idx : Z) : M virtqueue_t unit :=
  v ← get;
  if vq_size v <=? desc_idx then mret tt else
  d ← deref (aget (desc v) desc_idx);
  ds ← deref (aset (desc v) desc_idx (mk_desc (d_addr d) (d_len d) 0 (free_head v)));
  put (set_free (u16 (free_count v + 1)) desc_idx ds v).

(** The loop along a chain; a chain that does not end runs out of [fuel]. *)
Fixpoint free_chain_loop (fuel : nat) (curr : Z) : M virtqueue_t unit :=
  match fuel with
  | O => fault
  | S fuel' =>
      v ← get;
      d ← deref (aget (desc v) curr);
      _ ← virtqueue_free_desc curr;
      if Z.land (d_flags d) VRING_DESC_F_NEXT =? 0 then mret tt else free_chain_loop fuel' (d_next d)
  end.

Definition virtqueue_free_chain (head : Z) : M virtqueue_t unit :=
  v ← get;
  if vq_size v <=? head then mret tt else free_chain_loop (length (desc v)) head.

(** ** Submission and completion *)

Definition virtqueue_submit_chain (head : Z) : M virtqueue_t unit :=
  v ← get;
  if vq_size v =? 0 then fault else
  let a := avail v in
  r ← deref (aset (a_ring a) (a_idx a mod vq_size v) head);
  put (set_avail (mk_avail (a_flags a) (u16 (a_idx a + 1)) r) v).

Definition virtqueue_has_used : M virtqueue_t bool := gets (fun v => negb (last_used_idx v =? us_idx (used v))).

(** [S] holds the queue and whatever the device shares with the driver; [dev] is
    what the device has done to it by the next look at the used ring. *)
Section poll.
Context {S : Type} (vq : S -> virtqueue_t) (set_vq : virtqueue_t -> S -> S) (dev : S -> S).

(** The result and [*len_out]. *)
Fixpoint virtqueue_poll_used (timeout_spins : nat) : M S (Z * Z) :=
  match timeout_spins with
  | O => mret (- ETIME, 0)
  | Datatypes.S n =>
      _ ← modify dev;
      s ← get;
      let v := vq s in
      if negb (last_used_idx v =? us_idx (used v)) then
        if vq_size v =? 0 then fault else
        e ← deref (aget (us_ring (used v)) (last_used_idx v mod vq_size v));
        _ ← put (set_vq (set_used (u16 (last_used_idx v + 1)) (used v) v) s);
        mret (s32 e.1, e.2)
      else virtqueue_poll_used n
  end.
End poll.

(** ** Set-up *)

Definition desc_sz (n : Z) : Z := n * 16.
Definition avail_sz (n : Z) : Z := 2 * (3 + n).
Definition used_sz (n : Z) : Z := 2 * 3 + 8 * n.
Definition avail_offset (n : Z) : Z := desc_sz n.
Definition used_offset (modern : bool) (n : Z) : Z :=
  let e := avail_offset n + avail_sz n in
  if modern then Z.land (e + 3) (Z.lnot 3) else Z.land (e + 4095) (Z.lnot 4095).
Definition page_cnt (modern : bool) (n : Z) : Z := (used_offset modern n + used_sz n + 4095) / 4096.

(** A register write: width in bits, offset in the common configuration or from
    [iobase], value. *)
Record regwrite := mk_rw { rw_width : Z; rw_off : Z; rw_val : Z }.
Record vio := mk_vio { frames : pmm_state; writes : list regwrite }.

Definition wr (width off val : Z) : M vio unit := modify (fun s => mk_vio (frames s) (writes s ++ [mk_rw width off val])).
Definition falloc (cnt : Z) : M vio Z :=
  s ← get; '(p, a) ← deref (pmm_falloc (frames s) cnt); _ ← put (mk_vio p (writes s)); mret a.
Definition ffree (addr cnt : Z) : M vio unit :=
  s ← get; p ← deref (pmm_ffree (frames s) addr cnt); put (mk_vio p (writes s)).

Definition VIRTIO_REG_QUEUE_ADDRESS : Z := 0x08.
Definition VIRTIO_REG_QUEUE_SIZE : Z := 0x0C.
Definition VIRTIO_REG_QUEUE_SELECT : Z := 0x0E.
Definition VIRTIO_REG_QUEUE_NOTIFY : Z := 0x10.

Definition no_avail : vring_avail_t := mk_avail 0 0 [].
Definition no_used : vring_used_t := mk_used 0 0 [].
Definition zero_vq : virtqueue_t := mk_vq 0 0 0 0 0 [] no_avail no_used 0 0 0 false.

(** [desc[i].next = (i + 1 < size) ? (i + 1) : 0] *)
Definition init_desc (n : Z) : list vring_desc_t :=
  map (fun i => mk_desc 0 0 0 (if Z.of_nat i + 1 <? n then Z.of_nat i + 1 else 0)) (seq 0 (Z.to_nat n)).

(** [rd16] reads a register of 16 bits of the transport, [mult] is
    [notify_off_multiplier]. *)
Definition virtqueue_init (modern : bool) (rd16 : Z -> Z) (mult queue_index : Z) : M vio (Z * virtqueue_t) :=
  _ ← (if modern then wr 16 0x16 queue_index else wr 16 VIRTIO_REG_QUEUE_SELECT queue_index);
  let n := if modern then rd16 0x18 else rd16 VIRTIO_REG_QUEUE_SIZE in
  let vq n pages := mk_vq queue_index n 0 0 0 [] no_avail no_used 0 pages 0 false in
  if (n =? 0) || (32768 <? n) then mret (- ENOEXIST, vq 0 0) else
  let pages := page_cnt modern n in
  base ← falloc pages;
  if base =? 0 then mret (- ENOMEM, vq n pages) else
  let avail := mk_avail 0 0 (replicate (Z.to_nat n) 0) in
  let used := mk_used 0 0 (replicate (Z.to_nat n) (0, 0)) in
  if modern then
    _ ← wr 64 0x20 base;
    _ ← wr 64 0x28 (u64 (base + avail_offset n));
    _ ← wr 64 0x30 (u64 (base + used_offset modern n));
    _ ← wr 16 0x1c 1;
    mret (0, mk_vq queue_index n n 0 0 (init_desc n) avail used base pages (u32 (rd16 0x1e * mult)) true)
  else
    _ ← wr 32 VIRTIO_REG_QUEUE_ADDRESS (u32 (Z.shiftr base 12));
    mret (0, mk_vq queue_index n n 0 0 (init_desc n) avail used base pages 0 false).

(** The queue is cleared. *)
Definition virtqueue_free (v : virtqueue_t) : M vio virtqueue_t :=
  if phys_base v =? 0 then mret v else
  _ ← (if modern v then _ ← wr 16 0x16 (queue_index v); wr 16 0x1c 0
       else _ ← wr 16 VIRTIO_REG_QUEUE_SELECT (queue_index v); wr 32 VIRTIO_REG_QUEUE_ADDRESS 0);
  _ ← ffree (phys_base v) (page_count v);
  mret zero_vq.

(** ** The free list *)

(** [F] is the chain of [next] indices from [h], as far as its length says. *)
Fixpoint linked (ds : list vring_desc_t) (h : Z) (F : list Z) : Prop :=
  match F with
  | [] => True
  | i :: F' => h = i /\ exists d, aget ds i = Some d /\ linked ds (d_next d) F'
  end.

Record vq_ok (v : virtqueue_t) (F : list Z) : Prop := {
  ok_linked : linked (desc v) (free_head v) F;
  ok_count : free_count v = Z.of_nat (length F);
  ok_nodup : NoDup F;
  ok_range : Forall (fun i => 0 <= i < vq_size v) F;
  ok_size : 0 < vq_size v <= 32768;
  ok_desc : Z.of_nat (length (desc v)) = vq_size v;
  ok_ring : Z.of_nat (length (a_ring (avail v))) = vq_size v;
  ok_uring : Z.of_nat (length (us_ring (used v))) = vq_size v;
}.

Lemma linked_agree ds ds' F : (forall i, i ∈ F -> aget ds' i = aget ds i) -> forall h, linked ds h F -> linked ds' h F.
Proof.
  intros H. induction F as [|i F IH]; intros h; cbn [linked]; [done|]. intros (-> & d & E & Hl). split; [done|].
  exists d. rewrite H by set_solver. split; [done|]. apply IH; [|done]. intros j Hj. apply H. set_solver.
Qed.

Lemma range_length (n : Z) (F : list Z) : NoDup F -> Forall (fun i => 0 <= i < n) F -> Z.of_nat (length F) <= Z.max 0 n.
Proof. apply (nodup_range_length 0 n F). Qed.

Lemma free_length v F : vq_ok v F -> (length F <= length (desc v))%nat.
Proof.
  intros H. pose proof (range_length _ F (ok_nodup _ _ H) (ok_range _ _ H)). pose proof (ok_desc _ _ H). pose proof (ok_size _ _ H). lia.
Qed.

(** Allocation takes the head of the list and clears the descriptor. *)
Lemma alloc_desc_ok v i F : vq_ok v (i :: F) ->
  exists v', virtqueue_alloc_desc v = Done v' i /\ vq_ok v' F /\ aget (desc v') i = Some (mk_desc 0 0 0 0) /\
    avail v' = avail v /\ used v' = used v /\ last_used_idx v' = last_used_idx v /\ vq_size v' = vq_size v /\
    (forall j, j <> i -> aget (desc v') j = aget (desc v) j).
Proof.
  intros H. pose proof (free_length v _ H) as Hlen. destruct H as [Hl Hc Hn Hr Hs Hd Ha Hu]. cbn [linked length] in *. destruct Hl as (Eh & d & Ed & Hl). apply NoDup_cons in Hn as [Hi Hn].
  apply Forall_cons in Hr as [Hri Hr]. unfold virtqueue_alloc_desc, mbind at 1, M_bind at 1, get.
  rewrite (proj2 (Z.eqb_neq _ _)) by lia. rewrite Eh, Ed, bind_deref, aset_in, bind_deref by lia.
  eexists. split; [unfold mbind, M_bind, put, mret, M_ret; by rewrite s32_small by lia|].
  assert (forall j, j <> i -> aget (<[Z.to_nat i := mk_desc 0 0 0 0]> (desc v)) j = aget (desc v) j) as Hne.
  { intros j Hj. by rewrite (aget_aset_ne (desc v) _ i j (mk_desc 0 0 0 0)) by (done || (apply aset_in; lia)). }
  split_and!; try done.
  - split; cbn; try done; [|rewrite wrap_small; lia|by rewrite length_insert].
    apply (linked_agree (desc v)); [|done]. intros j Hj. apply Hne. intros ->. done.
  - cbn. by rewrite (aget_aset_eq (desc v) _ i (mk_desc 0 0 0 0)) by (apply aset_in; lia).
Qed.

Lemma alloc_desc_none v : vq_ok v [] -> virtqueue_alloc_desc v = Done v (-1).
Proof. intros H. unfold virtqueue_alloc_desc, mbind, M_bind, get. by rewrite (ok_count _ _ H). Qed.

(** Freeing puts a descriptor at the head. *)
Lemma free_desc_ok v i F : vq_ok v F -> 0 <= i < vq_size v -> i ∉ F ->
  exists v', virtqueue_free_desc i v = Done v' tt /\ vq_ok v' (i :: F) /\
    avail v' = avail v /\ used v' = used v /\ last_used_idx v' = last_used_idx v /\ vq_size v' = vq_size v /\
    (forall j, j <> i -> aget (desc v') j = aget (desc v) j).
Proof.
  intros H Hi HF. pose proof (free_length v F H) as Hlen. destruct H as [Hl Hc Hn Hr Hs Hd Ha Hu]. unfold virtqueue_free_desc, mbind at 1, M_bind at 1, get.
  rewrite (proj2 (Z.leb_gt _ _)) by lia. destruct (aget_is_Some (desc v) i ltac:(lia)) as (d & Ed). rewrite Ed, bind_deref.
  set (d' := mk_desc (d_addr d) (d_len d) 0 (free_head v)). rewrite aset_in, bind_deref by lia. eexists. split; [done|].
  assert (forall j, j <> i -> aget (<[Z.to_nat i := d']> (desc v)) j = aget (desc v) j) as Hne.
  { intros j Hj. by rewrite (aget_aset_ne (desc v) _ i j d') by (done || (apply aset_in; lia)). }
  split_and!; try done. split; cbn; try done.
  - split; [done|]. exists d'. rewrite (aget_aset_eq (desc v) _ i d') by (apply aset_in; lia). split; [done|].
    apply (linked_agree (desc v)); [|done]. intros j Hj. apply Hne. intros ->. done.
  - rewrite wrap_small; lia.
  - by apply NoDup_cons.
  - by apply Forall_cons.
  - by rewrite length_insert.
Qed.

(** A chain: every descriptor but the last has the flag and leads to the next. *)
Fixpoint chained (ds : list vring_desc_t) (c : list Z) : Prop :=
  match c with
  | [] => True
  | i :: c' =>
      exists d, aget ds i = Some d /\
      match c' with
      | [] => Z.land (d_flags d) VRING_DESC_F_NEXT = 0
      | j :: _ => Z.land (d_flags d) VRING_DESC_F_NEXT <> 0 /\ d_next d = j
      end /\ chained ds c'
  end.

Lemma chained_agree ds ds' c : (forall i, i ∈ c -> aget ds' i = aget ds i) -> chained ds c -> chained ds' c.
Proof.
  intros H. induction c as [|i c IH]; cbn [chained]; [done|]. intros (d & E & Hd & Hc). exists d. rewrite H by set_solver.
  split_and!; [done|done|]. apply IH; [|done]. intros j Hj. apply H. set_solver.
Qed.

(** What no operation on descriptors touches. *)
Definition same_rings (v v' : virtqueue_t) : Prop :=
  avail v' = avail v /\ used v' = used v /\ last_used_idx v' = last_used_idx v /\ vq_size v' = vq_size v.

Lemma free_chain_loop_ok c : forall v F fuel i, vq_ok v F -> chained (desc v) (i :: c) -> NoDup (i :: c) -> (forall j, j ∈ i :: c -> j ∉ F) ->
  Forall (fun j => 0 <= j < vq_size v) (i :: c) -> (length c < fuel)%nat ->
  exists v', free_chain_loop fuel i v = Done v' tt /\ vq_ok v' (rev (i :: c) ++ F) /\ same_rings v v'.
Proof.
  induction c as [|j c IH]; intros v F [|fuel] i Hok Hc Hn HF Hr Hfuel; [cbn in Hfuel; lia| |cbn in Hfuel; lia|];
    apply NoDup_cons in Hn as [Hi Hn]; apply Forall_cons in Hr as [Hri Hr]; destruct Hc as (d & Ed & Hd & Hc);
    destruct (free_desc_ok v i F Hok Hri (HF i ltac:(set_solver))) as (v1 & E1 & Hok1 & Hv1 & Hu1 & Hl1 & Hs1 & Hne);
    cbn [free_chain_loop]; unfold mbind at 1, M_bind at 1, get; rewrite Ed, bind_deref, (bind_done _ _ _ _ _ E1).
  - rewrite Hd. exists v1. done.
  - destruct Hd as [Hf Hx]. rewrite (proj2 (Z.eqb_neq _ _)) by done.
    destruct (IH v1 (i :: F) fuel (d_next d)) as (v2 & E2 & Hok2 & H2 & H3 & H4 & H5).
    + done.
    + rewrite Hx. apply (chained_agree (desc v)); [|done]. intros k Hk. apply Hne. intros ->. done.
    + by rewrite Hx.
    + intros k Hk. rewrite Hx in Hk. apply not_elem_of_cons. split; [intros ->; done|]. apply HF. apply elem_of_cons; by right.
    + rewrite Hx, Hs1. done.
    + cbn in Hfuel. lia.
    + rewrite Hx in E2, Hok2. exists v2. rewrite Hx. split; [done|]. split; [|unfold same_rings; by rewrite H2, H3, H4, H5].
      cbn [rev] in *. by rewrite <- (app_assoc _ [i] F).
Qed.

Lemma free_chain_ok v F i c : vq_ok v F -> chained (desc v) (i :: c) -> NoDup (i :: c) -> (forall j, j ∈ i :: c -> j ∉ F) ->
  Forall (fun j => 0 <= j < vq_size v) (i :: c) ->
  exists v', virtqueue_free_chain i v = Done v' tt /\ vq_ok v' (rev (i :: c) ++ F) /\ same_rings v v'.
Proof.
  intros Hok Hc Hn HF Hr. pose proof (range_length _ _ Hn Hr) as Hl. unfold virtqueue_free_chain, mbind, M_bind, get.
  pose proof (Forall_inv Hr) as Hi. cbn beta in Hi. rewrite (proj2 (Z.leb_gt _ _)) by lia.
  apply free_chain_loop_ok; try done. pose proof (ok_desc _ _ Hok). cbn [length] in Hl. lia.
Qed.

(** ** Layout *)

Lemma land_lnot_ones z k : 0 <= k -> Z.land z (Z.lnot (Z.ones k)) = z / 2 ^ k * 2 ^ k.
Proof. intros Hk. rewrite <- Z.ldiff_land, Z.ldiff_ones_r, Z.shiftl_mul_pow2, Z.shiftr_div_pow2 by done. done. Qed.

(** The rings follow one another without overlap inside the pages, the used ring
    at the alignment of the transport. *)
Lemma layout_ok m n : 0 < n <= 32768 ->
  desc_sz n = avail_offset n /\ avail_offset n + avail_sz n <= used_offset m n /\
  used_offset m n + used_sz n <= page_cnt m n * 4096 /\ used_offset m n mod (if m then 4 else 4096) = 0 /\ 0 < page_cnt m n < 2 ^ 31.
Proof.
  intros Hn. unfold page_cnt, used_offset, avail_offset, desc_sz, avail_sz, used_sz.
  change (Z.lnot 3) with (Z.lnot (Z.ones 2)). change (Z.lnot 4095) with (Z.lnot (Z.ones 12)). rewrite !land_lnot_ones by lia.
  change (2 ^ 2) with 4. change (2 ^ 12) with 4096. destruct m; (split; [done|]); rewrite Z.mod_mul by done; Z.to_euclidean_division_equations; lia.
Qed.

Lemma init_desc_lookup n i : 0 <= i < n -> aget (init_desc n) i = Some (mk_desc 0 0 0 (if i + 1 <? n then i + 1 else 0)).
Proof.
  intros Hi. unfold aget, init_desc. rewrite (proj2 (Z.leb_le _ _)) by lia. rewrite list_lookup_fmap, lookup_seq_lt by lia. cbn. by rewrite Z2Nat.id by lia.
Qed.

Lemma init_linked n : forall k a, (a + k = Z.to_nat n)%nat -> linked (init_desc n) (Z.of_nat a) (map Z.of_nat (seq a k)).
Proof.
  induction k as [|k IH]; intros a Ha; cbn [seq map linked]; [done|]. split; [done|]. rewrite init_desc_lookup by lia. eexists. split; [done|]. cbn.
  destruct (Z.ltb_spec (Z.of_nat a + 1) n); [|replace k with O by lia; done]. replace (Z.of_nat a + 1) with (Z.of_nat (S a)) by lia. apply IH. lia.
Qed.

Lemma init_vq_ok qi n base pages off m : 0 < n <= 32768 ->
  vq_ok (mk_vq qi n n 0 0 (init_desc n) (mk_avail 0 0 (replicate (Z.to_nat n) 0)) (mk_used 0 0 (replicate (Z.to_nat n) (0, 0))) base pages off m)
    (map Z.of_nat (seq 0 (Z.to_nat n))).
Proof.
  intros Hn. split; cbn; rewrite ?length_map, ?length_seq, ?length_replicate; try lia.
  - apply (init_linked n _ 0). lia.
  - apply NoDup_fmap_2; [apply _|]. apply NoDup_seq.
  - apply Forall_fmap, Forall_seq. intros j Hj. cbn. lia.
  - unfold init_desc. rewrite length_map, length_seq. lia.
Qed.

Lemma falloc_spec cnt s : pmm_wf (frames s) -> Pmm.used (frames s) 0 = true -> 0 < cnt < 2 ^ 31 ->
  exists p a, falloc cnt s = Done (mk_vio p (writes s)) a /\ pmm_wf p /\
    (a = 0 /\ p = frames s \/ exists f, 0 < f /\ a = f * 4096 /\ alloc_at (frames s) cnt f p).
Proof.
  intros Hwf H0 Hc. destruct (pmm_falloc_spec (frames s) cnt Hwf Hc) as (p & a & E & Hp & Hr).
  exists p, a. unfold falloc, mbind, M_bind, get. rewrite E. cbn. split; [done|]. split; [done|].
  destruct Hr as [(f & Hf & -> & Ha & _)|(-> & -> & _)]; [right|by left]. exists f. split; [|done].
  destruct (decide (f = 0)) as [->|]; [|lia]. destruct Ha as ((_ & _ & Hfree) & _). rewrite (Hfree 0) in H0 by lia. done.
Qed.

(** What the transport is told about a queue of [n] entries at [base]. *)
Definition init_writes (m : bool) (qi n base : Z) : list regwrite :=
  if m then [mk_rw 16 0x16 qi; mk_rw 64 0x20 base; mk_rw 64 0x28 (base + avail_offset n); mk_rw 64 0x30 (base + used_offset m n); mk_rw 16 0x1c 1]
  else [mk_rw 16 VIRTIO_REG_QUEUE_SELECT qi; mk_rw 32 VIRTIO_REG_QUEUE_ADDRESS (base / 4096)].

(** [virtqueue_init] refuses a queue that the device does not have or that is too
    large, and fails without effect on the frames when there is no memory.
    Otherwise it takes frames that were free; the queue starts with all its
    descriptors on the free list and empty rings, and the device is told the
    addresses at which the driver has the three rings.  These lie in the frames
    one after the other, at the alignment the transport asks for. *)
Theorem virtqueue_init_ok (m : bool) (rd16 : Z -> Z) mult qi s :
  pmm_wf (frames s) -> Pmm.used (frames s) 0 = true -> (forall r, 0 <= rd16 r < 2 ^ 16) ->
  let n := rd16 (if m then 0x18 else VIRTIO_REG_QUEUE_SIZE) in
  exists s' r v, virtqueue_init m rd16 mult qi s = Done s' (r, v) /\ pmm_wf (frames s') /\
  ((n = 0 \/ 32768 < n) /\ r = - ENOEXIST /\ frames s' = frames s \/
   0 < n <= 32768 /\ r = - ENOMEM /\ frames s' = frames s \/
   0 < n <= 32768 /\ r = 0 /\ vq_size v = n /\ vq_ok v (map Z.of_nat (seq 0 (Z.to_nat n))) /\ last_used_idx v = us_idx (used v) /\
     (exists f, alloc_at (frames s) (page_cnt m n) f (frames s') /\ phys_base v = f * 4096 /\ page_count v = page_cnt m n) /\
     writes s' = writes s ++ init_writes m qi n (phys_base v) /\
     avail_offset n = desc_sz n /\ avail_offset n + avail_sz n <= used_offset m n /\
     used_offset m n + used_sz n <= page_cnt m n * 4096 /\ used_offset m n mod (if m then 4 else 4096) = 0).
Proof.
  intros Hwf H0 Hrd n. pose proof (Hrd (if m then 0x18 else VIRTIO_REG_QUEUE_SIZE)) as Hn. fold n in Hn.
  set (s1 := mk_vio (frames s) (writes s ++ [mk_rw 16 (if m then 0x16 else VIRTIO_REG_QUEUE_SELECT) qi])).
  assert ((if m then wr 16 0x16 qi else wr 16 VIRTIO_REG_QUEUE_SELECT qi) s = Done s1 tt) as E0 by (by destruct m).
  unfold virtqueue_init. rewrite (bind_done _ _ _ _ _ E0).
  replace (if m then rd16 0x18 else rd16 VIRTIO_REG_QUEUE_SIZE) with n by (unfold n; by destruct m). cbv zeta.
  destruct (Z.eqb_spec n 0) as [|Hn0]; [do 3 eexists; split; [done|]; auto|].
  destruct (Z.ltb_spec 32768 n) as [|Hn1]; [do 3 eexists; split; [done|]; auto|].
  cbn [orb]. destruct (layout_ok m n ltac:(lia)) as (L1 & L2 & L3 & L4 & Hp).
  destruct (falloc_spec (page_cnt m n) s1 Hwf H0 Hp) as (p & a & E & Hwf' & Ha). rewrite (bind_done _ _ _ _ _ E).
  destruct Ha as [(-> & ->)|(f & Hf & -> & Ha)]; [do 3 eexists; split; [done|]; split; [done|]; right; left; auto with lia|].
  rewrite (proj2 (Z.eqb_neq (f * 4096) 0)) by lia.
  assert (f * 4096 + page_cnt m n * 4096 < 2 ^ 33) as Hb. { destruct Ha as ((_ & Hb & _) & _). destruct Hwf. cbn in Hb. lia. }
  assert (0 <= avail_offset n /\ 0 < avail_sz n /\ 0 < used_sz n) by (unfold avail_offset, desc_sz, avail_sz, used_sz; lia).
  destruct m.
  - rewrite (wrap_small 64 (f * 4096 + avail_offset n)), (wrap_small 64 (f * 4096 + used_offset true n)) by lia. do 3 eexists. split; [reflexivity|]. split; [done|]. do 2 right. cbn [used writes frames].
    split_and!; try done; try lia; [apply init_vq_ok; lia|by exists f|]. unfold s1. cbn [writes]. by rewrite <- !app_assoc.
  - rewrite Z.shiftr_div_pow2 by done. change (2 ^ 12) with 4096. rewrite wrap_small by (rewrite Z.div_mul by done; lia).
    do 3 eexists. split; [reflexivity|]. split; [done|]. do 2 right. cbn [used writes frames].
    split_and!; try done; try lia; [apply init_vq_ok; lia|by exists f|]. unfold s1. cbn [writes]. by rewrite <- !app_assoc.
Qed.

Lemma virtqueue_init_ok_witness :
  let s := mk_vio demo [] in
  pmm_wf demo /\ Pmm.used demo 0 = true /\
  exists s' r v, virtqueue_init true (fun _ => 4) 2 1 s = Done s' (r, v) /\ pmm_wf (frames s') /\ r = 0 /\ phys_base v = 10 * 4096.
Proof.
  intros s. split; [exact demo_wf|]. split; [vm_compute; reflexivity|].
  destruct (virtqueue_init_ok true (fun _ => 4) 2 1 s demo_wf) as (s' & r & v & E & Hwf & _); [vm_compute; reflexivity|lia|].
  exists s', r, v. split; [exact E|]. split; [exact Hwf|]. revert E. vm_compute. intros [= _ <- <-]. split; reflexivity.
Defined.

End Virtq.
