(* ===== verification/VirtioBlk.v ===== *)
(** The VirtIO block driver: a request is a chain of three descriptors over one
    DMA page.  The device is a parameter, with what the VirtIO standard says of it
    as a class; the theorems discharge the promise the block layer relies on. *)
From S2P Require Import Prelude CString Pmm Virtq Block.

Module VirtioBlk.
Import Virtq.

Definition DMA_HDR_OFF : Z := 0.
Definition DMA_STATUS_OFF : Z := 64.
Definition DMA_BUF_OFF : Z := 128.
Definition VIRTIO_BLK_T_IN : Z := 0.
Definition VIRTIO_BLK_T_OUT : Z := 1.
Definition VIRTIO_BLK_S_OK : Z := 0.

(** What the device does when the queue is notified, and what it has done to the
    used ring and the DMA page (at its physical address) by the next look; it
    reads the descriptors and the available ring. *)
Record device (H : Type) := mk_device {
  d_notify : Z -> H -> H;
  d_run : Z -> list vring_desc_t -> vring_avail_t -> vring_used_t -> Z -> list Z -> H -> H * vring_used_t * list Z
}.
Arguments d_notify {H}.
Arguments d_run {H}.

(** [virtblk_dev_t] and the device behind it. *)
Record virtblk (H : Type) := mk_vb { vq : virtqueue_t; cap : Z; dma_phys : Z; dma : list Z; hid : H }.
Arguments mk_vb {H}.
Arguments vq {H}.
Arguments cap {H}.
Arguments dma_phys {H}.
Arguments dma {H}.
Arguments hid {H}.

Section driver.
Context {H : Type} (dev : device H).
Notation MV := (M (virtblk H)).

Definition set_vq (v : virtqueue_t) (s : virtblk H) : virtblk H := mk_vb v (cap s) (dma_phys s) (dma s) (hid s).
Definition set_dma (d : list Z) (s : virtblk H) : virtblk H := mk_vb (vq s) (cap s) (dma_phys s) d (hid s).

Definition onvq {A} (m : M virtqueue_t A) : MV A := fun s =>
  match m (vq s) with Done v a => Done (set_vq v s) a | Fault => Fault end.

(** Bytes stored in the DMA page. *)
Definition wr_dma (off : Z) (bs : list Z) : MV unit :=
  s ← get;
  if (Z.to_nat off + length bs <=? length (dma s))%nat then put (set_dma (splice (dma s) bs (Z.to_nat off)) s) else fault.

Definition virtqueue_kick : MV unit := modify (fun s => mk_vb (vq s) (cap s) (dma_phys s) (dma s) (d_notify dev (queue_index (vq s)) (hid s))).

(** The device between two looks at the used ring. *)
Definition turn (s : virtblk H) : virtblk H :=
  let '(h, u, d) := d_run dev (vq_size (vq s)) (desc (vq s)) (avail (vq s)) (used (vq s)) (dma_phys s) (dma s) (hid s) in
  mk_vb (set_used (last_used_idx (vq s)) u (vq s)) (cap s) (dma_phys s) d h.

Definition put_desc (i : Z) (d : vring_desc_t) : MV unit :=
  onvq (v ← get; ds ← deref (aset (desc v) i d); put (set_desc ds v)).

(** [virtqueue_free_desc] where the allocation succeeded. *)
Definition give_back (d : Z) : MV unit := if 0 <=? d then onvq (virtqueue_free_desc (u16 d)) else mret tt.

Definition SPINS : nat := N.to_nat 10000000.

Definition fill_page (type lba : Z) (buf : list Z) : MV unit :=
  _ ← wr_dma DMA_HDR_OFF (enc_fields [4; 4; 8]%nat [type; 0; lba]);
  _ ← wr_dma DMA_STATUS_OFF [0xFF];
  if type =? VIRTIO_BLK_T_OUT then
    (if (512 <=? length buf)%nat then wr_dma DMA_BUF_OFF (take 512 buf) else fault)
  else mret tt.

Definition submit_request (type d0 d1 d2 : Z) : MV unit :=
  p ← gets dma_phys;
  _ ← put_desc d0 (mk_desc (u64 (p + DMA_HDR_OFF)) 16 VRING_DESC_F_NEXT (u16 d1));
  _ ← put_desc d1 (mk_desc (u64 (p + DMA_BUF_OFF)) 512
                     (Z.lor (if type =? VIRTIO_BLK_T_IN then VRING_DESC_F_WRITE else 0) VRING_DESC_F_NEXT) (u16 d2));
  _ ← put_desc d2 (mk_desc (u64 (p + DMA_STATUS_OFF)) 1 VRING_DESC_F_WRITE 0);
  _ ← onvq (virtqueue_submit_chain (u16 d0));
  virtqueue_kick.

(** From here on the result comes with the contents of [buf] afterwards. *)
Definition collect (type d0 : Z) (buf : list Z) : MV (Z * list Z) :=
  res ← virtqueue_poll_used vq set_vq turn SPINS;
  _ ← onvq (virtqueue_free_chain (u16 d0));
  if res.1 <? 0 then mret (- ETIME, buf) else
  s ← get;
  st ← deref (aget (dma s) DMA_STATUS_OFF);
  if negb (st =? VIRTIO_BLK_S_OK) then mret (- EDISK, buf) else
  if type =? VIRTIO_BLK_T_IN then
    if (512 <=? length buf)%nat && (640 <=? length (dma s))%nat
    then mret (0, splice buf (take 512 (drop (Z.to_nat DMA_BUF_OFF) (dma s))) 0)
    else fault
  else mret (0, buf).

Definition virtio_blk_transfer (type lba : Z) (buf : list Z) : MV (Z * list Z) :=
  _ ← fill_page type lba buf;
  d0 ← onvq virtqueue_alloc_desc;
  d1 ← onvq virtqueue_alloc_desc;
  d2 ← onvq virtqueue_alloc_desc;
  if (d0 <? 0) || (d1 <? 0) || (d2 <? 0) then
    _ ← give_back d0;
    _ ← give_back d1;
    _ ← give_back d2;
    mret (- EFULL, buf)
  else
  _ ← submit_request type d0 d1 d2;
  collect type d0 buf.

Definition virtio_blk_secread (lba : Z) (buf : list Z) : MV (Z * list Z) := virtio_blk_transfer VIRTIO_BLK_T_IN (u64 lba) buf.
Definition virtio_blk_secwrite (lba : Z) (buf : list Z) : MV Z :=
  r ← virtio_blk_transfer VIRTIO_BLK_T_OUT (u64 lba) buf; mret r.1.
Definition virtio_blk_get_capacity : MV Z := gets cap.

End driver.

(** ** What the standard says of the device *)

(** The descriptors from [i] on. *)
Fixpoint dchain (fuel : nat) (ds : list vring_desc_t) (i : Z) : option (list vring_desc_t) :=
  match fuel with
  | O => None
  | S fuel' =>
      d ← aget ds i;
      if Z.land (d_flags d) VRING_DESC_F_NEXT =? 0 then Some [d] else r ← dchain fuel' ds (d_next d); Some (d :: r)
  end.

(** [len] bytes at the physical address [addr], all of them in the page. *)
Definition in_page (base : Z) (page : list Z) (addr len : Z) : bool :=
  (base <=? addr) && (0 <=? len) && (addr + len <=? base + Z.of_nat (length page)).

Definition bytes_at (page : list Z) (off len : Z) : list Z := take (Z.to_nat len) (drop (Z.to_nat off) page).

Record request := mk_req { rq_type : Z; rq_sector : Z; rq_data : Z; rq_status : Z }.

Definition writable (d : vring_desc_t) : bool := negb (Z.land (d_flags d) VRING_DESC_F_WRITE =? 0).

(** A request of one sector: a header the device reads, the data it reads or
    writes, the status it writes. *)
Definition request_of (ds : list vring_desc_t) (base : Z) (page : list Z) (head : Z) : option request :=
  c ← dchain (length ds) ds head;
  match c with
  | [h; d; st] =>
      let hdr := dec_fields [4; 4; 8]%nat (bytes_at page (d_addr h - base) 16) in
      if in_page base page (d_addr h) 16 && in_page base page (d_addr d) 512 && in_page base page (d_addr st) 1 &&
         (d_len h =? 16) && (d_len d =? 512) && (d_len st =? 1) && negb (writable h) && writable st &&
         ((fld hdr 0 =? VIRTIO_BLK_T_IN) && writable d || (fld hdr 0 =? VIRTIO_BLK_T_OUT) && negb (writable d))
      then Some (mk_req (fld hdr 0) (fld hdr 2) (d_addr d - base) (d_addr st - base)) else None
  | _ => None
  end.

(** The element the device appends to the used ring. *)
Definition push_used (n head len : Z) (u : vring_used_t) : vring_used_t :=
  mk_used (us_flags u) (u16 (us_idx u + 1)) (<[Z.to_nat (us_idx u mod n) := (head, len)]> (us_ring u)).

(** A device has sectors and takes the requests of the available ring in turn,
    from [taken] on.  Working on one it may store into the data of a read, or
    change the sector of a write; when it is done it writes the status, and with
    status 0 the data of a read is the sector and the sector of a write the data.
    Another status it writes only for requests it [refuses]: of sectors it does not
    have or cannot read, and writes where it is read-only. *)
Class blk_device {H : Type} (dev : device H) := {
  taken : H -> Z;
  dsect : H -> Z -> list Z;
  refuses : Z -> Z -> Prop;
  dsect_len h l : length (dsect h l) = Block.SECSZ;
  dev_notify q h : taken (d_notify dev q h) = taken h /\ forall l, dsect (d_notify dev q h) l = dsect h l;
  dev_idle n ds a u base page h : taken h = a_idx a ->
    exists h', d_run dev n ds a u base page h = (h', u, page) /\ taken h' = taken h /\ forall l, dsect h' l = dsect h l;
  dev_busy n ds a u base page h head rq : taken h <> a_idx a ->
    aget (a_ring a) (taken h mod n) = Some head -> request_of ds base page head = Some rq ->
    exists h' u' data,
      let page1 := if rq_type rq =? VIRTIO_BLK_T_IN then splice page data (Z.to_nat (rq_data rq)) else page in
      length data = Block.SECSZ /\ (forall l, (rq_type rq = VIRTIO_BLK_T_OUT -> l <> rq_sector rq) -> dsect h' l = dsect h l) /\
      ((d_run dev n ds a u base page h = (h', u, page1) /\ taken h' = taken h) \/
       exists len st, u' = push_used n head len u /\ taken h' = u16 (taken h + 1) /\
         d_run dev n ds a u base page h = (h', u', splice page1 [st] (Z.to_nat (rq_status rq))) /\
         (st <> VIRTIO_BLK_S_OK -> refuses (rq_type rq) (rq_sector rq)) /\
         (st = VIRTIO_BLK_S_OK ->
            if rq_type rq =? VIRTIO_BLK_T_IN then data = dsect h (rq_sector rq) else dsect h' (rq_sector rq) = bytes_at page (rq_data rq) 512))
}.

(** A device that answers in time: the looks it still needs grow fewer. *)
Class prompt {H : Type} (dev : device H) `{!blk_device dev} := {
  delay : H -> nat;
  delay_bound h : (delay h < SPINS)%nat;
  delay_less n ds a u base page h h' u' page' : taken h <> a_idx a ->
    d_run dev n ds a u base page h = (h', u', page') -> taken h' = taken h -> (delay h' < delay h)%nat
}.

(** ** A request and its answer *)

Section proofs.
Context {H : Type} (dev : device H) `{!blk_device dev}.

(** No request is under way and all descriptors are free. *)
Record idle (s : virtblk H) : Prop := {
  idle_vq : exists F, vq_ok (vq s) F /\ Z.of_nat (length F) = vq_size (vq s);
  idle_used : last_used_idx (vq s) = us_idx (used (vq s)) /\ 0 <= last_used_idx (vq s) < 2 ^ 16;
  idle_taken : taken (hid s) = a_idx (avail (vq s)) /\ 0 <= a_idx (avail (vq s)) < 2 ^ 16;
  idle_page : length (dma s) = 4096%nat /\ 0 <= dma_phys s /\ dma_phys s + 4096 <= 2 ^ 64
}.

Definition header (type lba : Z) : list Z := enc_fields [4; 4; 8]%nat [type; 0; lba].

Lemma header_decodes type lba : type = VIRTIO_BLK_T_IN \/ type = VIRTIO_BLK_T_OUT -> 0 <= lba < 2 ^ 64 ->
  dec_fields [4; 4; 8]%nat (header type lba) = [type; 0; lba].
Proof.
  intros Ht Hl. unfold header. rewrite <- (app_nil_r (enc_fields [4; 4; 8]%nat [type; 0; lba])). apply dec_enc_fields.
  repeat apply Forall2_cons_2; [..|apply Forall2_nil_2]; unfold fits; try change (256 ^ Z.of_nat 4) with (2 ^ 32); try change (256 ^ Z.of_nat 8) with (2 ^ 64); destruct Ht as [-> | ->]; cbv [VIRTIO_BLK_T_IN VIRTIO_BLK_T_OUT]; lia.
Qed.

(** What the driver puts into the page for a request. *)
Definition filled (type lba : Z) (buf page : list Z) : Prop :=
  length page = 4096%nat /\ take 16 page = header type lba /\ (type = VIRTIO_BLK_T_OUT -> bytes_at page DMA_BUF_OFF 512 = take 512 buf).

(** The three descriptors of a request. *)
Definition built (type base : Z) (ds : list vring_desc_t) (d0 d1 d2 : Z) : Prop :=
  aget ds d0 = Some (mk_desc base 16 VRING_DESC_F_NEXT d1) /\
  aget ds d1 = Some (mk_desc (base + 128) 512 (Z.lor (if type =? VIRTIO_BLK_T_IN then VRING_DESC_F_WRITE else 0) VRING_DESC_F_NEXT) d2) /\
  aget ds d2 = Some (mk_desc (base + 64) 1 VRING_DESC_F_WRITE 0) /\ (3 <= length ds)%nat.

(** The device finds the request the driver meant. *)
Lemma request_built type base ds d0 d1 d2 lba buf page :
  type = VIRTIO_BLK_T_IN \/ type = VIRTIO_BLK_T_OUT -> 0 <= lba < 2 ^ 64 -> 0 <= base ->
  built type base ds d0 d1 d2 -> filled type lba buf page -> request_of ds base page d0 = Some (mk_req type lba 128 64).
Proof.
  intros Ht Hl Hb (E0 & E1 & E2 & Hlen) (Hp & Hh & _). unfold request_of.
  destruct (length ds) as [|[|[|n]]]; [lia..|]. cbn [dchain]. rewrite E0. cbn [mbind option_bind d_flags d_next]. rewrite E1.
  change (Z.land VRING_DESC_F_NEXT VRING_DESC_F_NEXT =? 0) with false. cbn [mbind option_bind d_flags d_next].
  assert (Z.land (Z.lor (if type =? VIRTIO_BLK_T_IN then VRING_DESC_F_WRITE else 0) VRING_DESC_F_NEXT) VRING_DESC_F_NEXT =? 0 = false) as ->
    by (destruct Ht as [-> | ->]; reflexivity).
  rewrite E2. cbn [mbind option_bind d_flags d_next]. change (Z.land VRING_DESC_F_WRITE VRING_DESC_F_NEXT =? 0) with true. cbn [mbind option_bind].
  unfold in_page. cbn [d_addr d_len]. rewrite Hp. rewrite !(proj2 (Z.leb_le _ _)) by lia.
  replace (base - base) with 0 by lia. unfold bytes_at. change (drop (Z.to_nat 0) page) with page. change (Z.to_nat 16) with 16%nat. rewrite Hh.
  rewrite header_decodes by done.
  replace (base + 128 - base) with 128 by lia. replace (base + 64 - base) with 64 by lia.
  destruct Ht as [-> | ->]; reflexivity.
Qed.

Lemma filled_data type lba buf page data : length data = 512%nat -> type <> VIRTIO_BLK_T_OUT ->
  filled type lba buf page -> filled type lba buf (splice page data 128).
Proof.
  intros Hd Ht (Hp & Hh & _). split_and!; [rewrite length_splice; lia| |done].
  rewrite <- Hh. apply (splice_before page data 128 16 0); lia.
Qed.

Lemma u16_ahead t : 0 <= t < 2 ^ 16 -> t <> u16 (t + 1).
Proof. intros Ht. unfold wrap. intros E. destruct (Z.eq_dec t (2 ^ 16 - 1)) as [->|]; [done|]. rewrite Z.mod_small in E; lia. Qed.

(** *** While the device works *)

Section working.
Variables (type lba base capa t d0 d1 d2 : Z) (buf : list Z) (v0 : virtqueue_t) (h0 : H) (F : list Z).
Hypothesis Htype : type = VIRTIO_BLK_T_IN \/ type = VIRTIO_BLK_T_OUT.
Hypothesis Hlba : 0 <= lba < 2 ^ 64.
Hypothesis Hbase : 0 <= base.
Hypothesis Hbuilt : built type base (desc v0) d0 d1 d2.
Hypothesis Hok : vq_ok v0 F.
Hypothesis Ht : 0 <= t < 2 ^ 16.
Hypothesis Havail : a_idx (avail v0) = u16 (t + 1).
Hypothesis Hslot : aget (a_ring (avail v0)) (t mod vq_size v0) = Some d0.
Hypothesis Hused : last_used_idx v0 = us_idx (used v0).
Hypothesis Hul : 0 <= last_used_idx v0 < 2 ^ 16.
Hypothesis Hd0 : 0 <= d0 < 2 ^ 16.

(** Every sector but the one a write is for. *)
Definition others (h : H) : Prop := forall l, (type = VIRTIO_BLK_T_OUT -> l <> lba) -> dsect h l = dsect h0 l.

Record pending (s : virtblk H) : Prop := {
  pe_vq : vq s = v0;
  pe_base : dma_phys s = base;
  pe_cap : cap s = capa;
  pe_filled : filled type lba buf (dma s);
  pe_taken : taken (hid s) = t;
  pe_others : others (hid s)
}.

Record answered (u : vring_used_t) (l : Z) (s : virtblk H) : Prop := {
  an_vq : vq s = set_used l u v0;
  an_base : dma_phys s = base;
  an_cap : cap s = capa;
  an_page : length (dma s) = 4096%nat;
  an_taken : taken (hid s) = u16 (t + 1);
  an_others : others (hid s);
  an_status : exists st, aget (dma s) DMA_STATUS_OFF = Some st /\ (st <> VIRTIO_BLK_S_OK -> refuses type lba) /\
    (st = VIRTIO_BLK_S_OK -> if type =? VIRTIO_BLK_T_IN then bytes_at (dma s) DMA_BUF_OFF 512 = dsect h0 lba else dsect (hid s) lba = take 512 buf)
}.

Lemma turn_pending s : pending s ->
  pending (turn dev s) \/ exists len, answered (push_used (vq_size v0) d0 len (used v0)) (last_used_idx v0) (turn dev s).
Proof.
  intros [Hv Hb Hc Hf Htk Ho]. unfold turn. rewrite Hv, Hb, Hc.
  destruct (dev_busy (vq_size v0) (desc v0) (avail v0) (used v0) base (dma s) (hid s) d0 (mk_req type lba 128 64))
    as (h' & u' & data & Hdata & Hsect & Hrun).
  { rewrite Htk, Havail. by apply u16_ahead. }
  { by rewrite Htk. }
  { by apply (request_built type base (desc v0) d0 d1 d2 lba buf). }
  cbn [rq_type rq_sector rq_data rq_status] in *. change (Z.to_nat 128) with 128%nat in *. change (Z.to_nat 64) with 64%nat in *.
  assert (others h') as Ho' by (intros l Hl; rewrite Hsect, Ho; done).
  set (page1 := if type =? VIRTIO_BLK_T_IN then splice (dma s) data 128 else dma s) in *.
  assert (filled type lba buf page1) as Hf1.
  { unfold page1. destruct (Z.eqb_spec type VIRTIO_BLK_T_IN) as [E|E]; [|done]. apply filled_data; [done|by rewrite E|done]. }
  destruct Hrun as [(-> & Htk')|(len & st & -> & Htk' & -> & Hno & Hst)].
  - left. split; cbn; try done; [|by rewrite Htk', Htk]. destruct v0; done.
  - right. exists len. pose proof (proj1 Hf1) as L1. split; cbn; try done.
    + rewrite length_splice; cbn [length]; lia.
    + by rewrite Htk', Htk.
    + exists st. split.
      { unfold aget. change (0 <=? DMA_STATUS_OFF) with true. change (Z.to_nat DMA_STATUS_OFF) with 64%nat. cbv iota. rewrite lookup_splice by lia. rewrite decide_True by (cbn [length]; lia). done. }
      split; [exact Hno|]. intros E. specialize (Hst E). destruct (Z.eqb_spec type VIRTIO_BLK_T_IN) as [E1|E1].
      * unfold bytes_at. change (Z.to_nat DMA_BUF_OFF) with 128%nat. rewrite splice_after by (cbn [length]; lia). unfold page1.
        change (Z.to_nat 512) with Block.SECSZ. rewrite <- Hdata, take_drop_splice by (destruct Hf; lia). rewrite Hst. apply Ho. by rewrite E1.
      * rewrite Hst. apply Hf. by destruct Htype.
Qed.

Lemma turn_delay `{!prompt dev} s : pending s -> pending (turn dev s) -> (delay (hid (turn dev s)) < delay (hid s))%nat.
Proof.
  intros Hp Hp'. pose proof (pe_taken _ Hp') as Ht'. revert Ht'. unfold turn. destruct (d_run dev _ _ _ _ _ _ _) as [[h' u'] page'] eqn:E. cbn. intros Ht'.
  assert (taken (hid s) <> a_idx (avail (vq s))) as Hne by (rewrite (pe_taken _ Hp), (pe_vq _ Hp), Havail; by apply u16_ahead).
  eapply delay_less; [exact Hne|exact E|]. by rewrite Ht', (pe_taken _ Hp).
Qed.

Lemma poll_pending n : forall s, pending s ->
  exists s' r, virtqueue_poll_used vq set_vq (turn dev) n s = Done s' r /\
    (r.1 = - ETIME /\ pending s' /\ (forall P : prompt dev, (n <= delay (hid s))%nat) \/
     r.1 = d0 /\ exists len, answered (push_used (vq_size v0) d0 len (used v0)) (u16 (last_used_idx v0 + 1)) s').
Proof.
  induction n as [|n IH]; intros s Hp; cbn [virtqueue_poll_used]; [do 2 eexists; split; [done|]; left; split_and!; [done|done|lia]|].
  rewrite bind_modify. unfold mbind at 1, M_bind at 1, get.
  destruct (turn_pending s Hp) as [Hp'|(len & Ha)].
  - rewrite (pe_vq _ Hp'). rewrite (proj2 (Z.eqb_eq (last_used_idx v0) _) Hused).
    destruct (IH _ Hp') as (s' & r & E & Hr). exists s', r. split; [exact E|]. destruct Hr as [(Er & Hs' & Hd)|Hr]; [left|by right].
    split_and!; [done|done|]. intros P. pose proof (Hd P). pose proof (turn_delay s Hp Hp'). lia.
  - rewrite (an_vq _ _ _ Ha). cbn [set_used last_used_idx used us_idx push_used]. pose proof (ok_size _ _ Hok). pose proof (ok_uring _ _ Hok).
    assert (last_used_idx v0 =? u16 (us_idx (used v0) + 1) = false) as ->.
    { rewrite <- Hused. by apply Z.eqb_neq, u16_ahead. }
    cbn [negb set_used push_used vq_size us_ring]. rewrite (proj2 (Z.eqb_neq (vq_size v0) 0)) by lia. rewrite <- Hused.
    pose proof (Z.mod_pos_bound (last_used_idx v0) (vq_size v0) ltac:(lia)) as Hm.
    rewrite (aget_aset_eq (us_ring (used v0)) _ (last_used_idx v0 mod vq_size v0) (d0, len)) by (apply aset_in; lia). rewrite bind_deref.
    do 2 eexists. split; [reflexivity|]. right. split; [cbn; apply s32_small; lia|]. exists len.
    destruct Ha as [Hv Hb Hc Hl Htk Ho Hst]. split; cbn; done.
Qed.

End working.

(** *** Submitting and collecting *)

Lemma onvq_done {A} (m : M virtqueue_t A) (s : virtblk H) v a : m (vq s) = Done v a -> onvq m s = Done (set_vq v s) a.
Proof. intros E. unfold onvq. by rewrite E. Qed.

Lemma wr_dma_done off bs (s : virtblk H) : (Z.to_nat off + length bs <= length (dma s))%nat ->
  wr_dma off bs s = Done (set_dma (splice (dma s) bs (Z.to_nat off)) s) tt.
Proof. intros Hl. unfold wr_dma, mbind, M_bind, get. by rewrite (proj2 (Nat.leb_le _ _) Hl). Qed.

(** Storing into a descriptor that is in use. *)
Lemma put_desc_ok i d (s : virtblk H) F : vq_ok (vq s) F -> 0 <= i < vq_size (vq s) -> i ∉ F ->
  exists v, put_desc i d s = Done (set_vq v s) tt /\ vq_ok v F /\ same_rings (vq s) v /\ aget (desc v) i = Some d /\
    (forall j, j <> i -> aget (desc v) j = aget (desc (vq s)) j) /\ queue_index v = queue_index (vq s).
Proof.
  intros [Hl Hc Hn Hr Hs Hd Ha Hu] Hi HF. unfold put_desc, onvq, mbind, M_bind, get. rewrite aset_in by lia. cbn.
  assert (forall j, j <> i -> aget (<[Z.to_nat i := d]> (desc (vq s))) j = aget (desc (vq s)) j) as Hne.
  { intros j Hj. by rewrite (aget_aset_ne (desc (vq s)) _ i j d) by (done || (apply aset_in; lia)). }
  eexists. split; [done|]. split_and!; try done.
  - split; cbn; try done; [|by rewrite length_insert]. apply (linked_agree (desc (vq s))); [|done]. intros j Hj. apply Hne. intros ->. done.
  - cbn. by rewrite (aget_aset_eq (desc (vq s)) _ i d) by (apply aset_in; lia).
Qed.

Lemma submit_ok v F head : vq_ok v F -> 0 <= a_idx (avail v) < 2 ^ 16 ->
  exists v', virtqueue_submit_chain head v = Done v' tt /\ vq_ok v' F /\ desc v' = desc v /\ used v' = used v /\
    last_used_idx v' = last_used_idx v /\ vq_size v' = vq_size v /\
    a_idx (avail v') = u16 (a_idx (avail v) + 1) /\ aget (a_ring (avail v')) (a_idx (avail v) mod vq_size v') = Some head.
Proof.
  intros [Hl Hc Hn Hr Hs Hd Ha Hu] Hidx. unfold virtqueue_submit_chain, mbind at 1, M_bind at 1, get. rewrite (proj2 (Z.eqb_neq _ _)) by lia.
  pose proof (Z.mod_pos_bound (a_idx (avail v)) (vq_size v) ltac:(lia)) as Hm. rewrite aset_in, bind_deref by lia.
  eexists. split; [done|]. split_and!; try done.
  - split; cbn; try done. by rewrite length_insert.
  - cbn. by rewrite (aget_aset_eq (a_ring (avail v)) _ (a_idx (avail v) mod vq_size v) head) by (apply aset_in; lia).
Qed.

Lemma set_used_ok v F l u : vq_ok v F -> length (us_ring u) = length (us_ring (used v)) -> vq_ok (set_used l u v) F.
Proof. intros [Hl Hc Hn Hr Hs Hd Ha Hu] E. split; cbn; try done. by rewrite E. Qed.

(** The page after the header, the status and the data of a write are stored. *)
Definition fill (type lba : Z) (buf page : list Z) : list Z :=
  let page := splice (splice page (header type lba) 0) [0xFF] 64 in
  if type =? VIRTIO_BLK_T_OUT then splice page (take 512 buf) 128 else page.

Lemma fill_filled type lba buf page : length page = 4096%nat -> length buf = 512%nat -> filled type lba buf (fill type lba buf page).
Proof.
  intros Hp Hb. unfold fill, filled. assert (length (header type lba) = 16%nat) as Hh by done.
  set (p1 := splice page (header type lba) 0). assert (length p1 = 4096%nat) as L1 by (unfold p1; rewrite length_splice; lia).
  set (p2 := splice p1 [0xFF] 64). assert (length p2 = 4096%nat) as L2 by (unfold p2; rewrite length_splice; cbn [length]; lia).
  assert (take 16 p2 = header type lba) as Ht2.
  { trans (take 16 p1); [apply (splice_before p1 [0xFF] 64 16 0); lia|]. rewrite <- Hh. apply (take_drop_splice page (header type lba) 0). lia. }
  assert (length (take 512 buf) = 512%nat) as Lb by (rewrite length_take; lia).
  destruct (Z.eqb_spec type VIRTIO_BLK_T_OUT) as [E|E]; [|split_and!; done]. split_and!.
  - rewrite length_splice; lia.
  - rewrite <- Ht2. apply (splice_before p2 (take 512 buf) 128 16 0); lia.
  - intros _. unfold bytes_at. change (Z.to_nat DMA_BUF_OFF) with 128%nat. change (Z.to_nat 512) with 512%nat. rewrite <- Lb at 1. apply take_drop_splice. lia.
Qed.

Lemma fill_page_done type lba buf (s : virtblk H) : length (dma s) = 4096%nat -> length buf = 512%nat ->
  fill_page type lba buf s = Done (set_dma (fill type lba buf (dma s)) s) tt.
Proof.
  intros Hp Hb. unfold fill_page, fill. assert (length (header type lba) = 16%nat) as Hh by done. fold (header type lba).
  change (Z.to_nat DMA_HDR_OFF) with 0%nat. change DMA_STATUS_OFF with 64. change DMA_BUF_OFF with 128.
  rewrite (bind_done _ _ _ _ _ (wr_dma_done 0 (header type lba) s ltac:(cbn [Z.to_nat]; lia))).
  change (Z.to_nat 0) with 0%nat. set (p1 := splice (dma s) (header type lba) 0).
  assert (length p1 = 4096%nat) as L1 by (unfold p1; rewrite length_splice; lia).
  rewrite (bind_done _ _ _ _ _ (wr_dma_done 64 [0xFF] (set_dma p1 s) ltac:(cbn [dma set_dma]; rewrite L1; cbn [length]; lia))).
  cbn [dma set_dma]. change (Z.to_nat 64) with 64%nat. set (p2 := splice p1 [0xFF] 64).
  assert (length p2 = 4096%nat) as L2 by (unfold p2; rewrite length_splice; cbn [length]; lia).
  destruct (type =? VIRTIO_BLK_T_OUT); [|done]. rewrite (proj2 (Nat.leb_le _ _)) by lia.
  rewrite wr_dma_done; [done|]. cbn [dma set_dma]. rewrite L2, length_take. lia.
Qed.

(** Three descriptors, none of them free any more. *)
Definition three (n d0 d1 d2 : Z) (F : list Z) : Prop :=
  NoDup (d0 :: d1 :: d2 :: F) /\ Forall (fun i => 0 <= i < n) [d0; d1; d2].

Lemma three_nodup n d0 d1 d2 F : three n d0 d1 d2 F -> NoDup [d0; d1; d2].
Proof. intros [Hn _]. apply (NoDup_app [d0; d1; d2] F) in Hn. tauto. Qed.

Lemma three_size n d0 d1 d2 F : three n d0 d1 d2 F -> 3 <= Z.max 0 n.
Proof. intros Hth. apply (range_length n [d0; d1; d2] (three_nodup _ _ _ _ _ Hth)). apply Hth. Qed.

Lemma alloc_three (s : virtblk H) d0 d1 d2 F : vq_ok (vq s) (d0 :: d1 :: d2 :: F) ->
  exists v v1 v2, onvq virtqueue_alloc_desc s = Done (set_vq v1 s) d0 /\
    onvq virtqueue_alloc_desc (set_vq v1 s) = Done (set_vq v2 s) d1 /\
    onvq virtqueue_alloc_desc (set_vq v2 s) = Done (set_vq v s) d2 /\
    vq_ok v F /\ same_rings (vq s) v.
Proof.
  intros Hok. destruct (alloc_desc_ok _ _ _ Hok) as (v1 & E1 & Hok1 & _ & A1 & U1 & L1 & S1 & _).
  destruct (alloc_desc_ok _ _ _ Hok1) as (v2 & E2 & Hok2 & _ & A2 & U2 & L2 & S2 & _).
  destruct (alloc_desc_ok _ _ _ Hok2) as (v3 & E3 & Hok3 & _ & A3 & U3 & L3 & S3 & _).
  exists v3, v1, v2. rewrite (onvq_done _ s v1 d0 E1), (onvq_done _ (set_vq v1 s) v2 d1 E2), (onvq_done _ (set_vq v2 s) v3 d2 E3).
  split_and!; try done. unfold same_rings. split_and!; congruence.
Qed.

(** What the rings and the device are like when a request is submitted. *)
Record submitted (type base t d0 d1 d2 : Z) (v v0 : virtqueue_t) (F : list Z) : Prop := {
  su_ok : vq_ok v0 F;
  su_built : built type base (desc v0) d0 d1 d2;
  su_avail : a_idx (avail v0) = u16 (t + 1);
  su_slot : aget (a_ring (avail v0)) (t mod vq_size v0) = Some d0;
  su_used : used v0 = used v /\ last_used_idx v0 = last_used_idx v;
  su_size : vq_size v0 = vq_size v
}.

Lemma submit_request_ok type lba buf (s : virtblk H) d0 d1 d2 F :
  vq_ok (vq s) F -> three (vq_size (vq s)) d0 d1 d2 F -> filled type lba buf (dma s) ->
  taken (hid s) = a_idx (avail (vq s)) -> 0 <= a_idx (avail (vq s)) < 2 ^ 16 -> 0 <= dma_phys s -> dma_phys s + 4096 <= 2 ^ 64 ->
  exists s', submit_request dev type d0 d1 d2 s = Done s' tt /\
    submitted type (dma_phys s) (a_idx (avail (vq s))) d0 d1 d2 (vq s) (vq s') F /\
    pending type lba (dma_phys s) (cap s) (a_idx (avail (vq s))) buf (vq s') (hid s) s'.
Proof.
  intros Hok Hth Hf Htk Hi Hb0 Hb1. destruct Hth as (Hnd & Hr) eqn:Eth. clear Eth. pose proof (ok_size _ _ Hok) as Hs.
  assert (d0 ∉ F /\ d1 ∉ F /\ d2 ∉ F /\ d0 <> d1 /\ d0 <> d2 /\ d1 <> d2) as (N0 & N1 & N2 & D1 & D2 & D3).
  { rewrite !NoDup_cons, !elem_of_cons in Hnd. split_and!; try tauto; intros ->; tauto. }
  rewrite !Forall_cons in Hr. destruct Hr as (R0 & R1 & R2 & _).
  unfold submit_request. rewrite bind_gets. change DMA_HDR_OFF with 0. change DMA_BUF_OFF with 128. change DMA_STATUS_OFF with 64.
  rewrite Z.add_0_r, !(wrap_small 64), !(wrap_small 16) by lia.
  set (e0 := mk_desc (dma_phys s) 16 VRING_DESC_F_NEXT d1). set (e1 := mk_desc (dma_phys s + 128) 512 _ d2). set (e2 := mk_desc (dma_phys s + 64) 1 _ 0).
  destruct (put_desc_ok d0 e0 s F Hok R0 N0) as (v1 & E1 & Hok1 & (A1 & U1 & L1 & S1) & G1 & K1 & _). rewrite (bind_done _ _ _ _ _ E1).
  destruct (put_desc_ok d1 e1 (set_vq v1 s) F Hok1 ltac:(cbn; lia) N1) as (v2 & E2 & Hok2 & (A2 & U2 & L2 & S2) & G2 & K2 & _). rewrite (bind_done _ _ _ _ _ E2).
  destruct (put_desc_ok d2 e2 (set_vq v2 (set_vq v1 s)) F Hok2 ltac:(cbn in *; lia) N2) as (v3 & E3 & Hok3 & (A3 & U3 & L3 & S3) & G3 & K3 & _).
  rewrite (bind_done _ _ _ _ _ E3). cbn [vq set_vq] in *.
  assert (avail v3 = avail (vq s)) as A by congruence.
  destruct (submit_ok v3 F d0 Hok3 ltac:(by rewrite A)) as (v4 & E4 & Hok4 & De & U4 & L4 & S4 & I4 & G4).
  rewrite (bind_done _ _ _ _ _ (onvq_done _ (set_vq v3 (set_vq v2 (set_vq v1 s))) v4 tt E4)).
  eexists. split; [reflexivity|]. cbn [vq set_vq]. split.
  - split; try done; rewrite ?De, <- ?A; try done; [|split; congruence|congruence].
    unfold built. rewrite (K3 d0), (K3 d1), (K2 d0), G1, G2, G3 by done. split_and!; try done.
    pose proof (three_size _ _ _ _ _ Hth). pose proof (ok_desc _ _ Hok3). lia.
  - destruct (dev_notify (queue_index v4) (hid s)) as (N & Ns). split; cbn; try done; [by rewrite N|]. intros l _. apply Ns.
Qed.

(** The chain of a request goes back to the free list. *)
Lemma free_request type base t d0 d1 d2 v v0 F l u (s : virtblk H) :
  submitted type base t d0 d1 d2 v v0 F -> three (vq_size v0) d0 d1 d2 F -> length (us_ring u) = length (us_ring (used v0)) ->
  vq s = set_used l u v0 ->
  exists v', onvq (virtqueue_free_chain (u16 d0)) s = Done (set_vq v' s) tt /\ vq_ok v' (d2 :: d1 :: d0 :: F) /\
    avail v' = avail v0 /\ used v' = u /\ last_used_idx v' = l /\ vq_size v' = vq_size v0.
Proof.
  intros [Hok (E0 & E1 & E2 & _) _ _ _ _] Hth Hu Hv. pose proof (three_nodup _ _ _ _ _ Hth) as Hn3. destruct Hth as (Hn & Hr).
  pose proof (Forall_inv Hr) as R0. cbn beta in R0. pose proof (ok_size _ _ Hok) as Hs.
  assert (forall j, j ∈ [d0; d1; d2] -> j ∉ F) as Hdis. { apply (NoDup_app [d0; d1; d2] F) in Hn as (_ & Hd & _). exact Hd. }
  destruct (free_chain_ok (vq s) F d0 [d1; d2]) as (v' & E & Hok' & A & U & L & S); [rewrite Hv; by apply set_used_ok| |done|done|by rewrite Hv|].
  { rewrite Hv. cbn [desc set_used chained]. rewrite E0, E1, E2. eexists. split; [done|]. split; [done|]. eexists. split; [done|].
    split; [|eexists; split; [done|]; done]. split; [|done]. cbn. destruct (type =? VIRTIO_BLK_T_IN); done. }
  rewrite wrap_small by lia. exists v'. rewrite (onvq_done _ _ _ _ E). rewrite Hv in *. split_and!; done.
Qed.

(** How a request may end: it timed out, it failed, or it was carried out; the
    device has at most changed the sector of a write. *)
Definition quiet (s : virtblk H) : Prop :=
  (last_used_idx (vq s) = us_idx (used (vq s)) /\ 0 <= last_used_idx (vq s) < 2 ^ 16) /\
  (taken (hid s) = a_idx (avail (vq s)) /\ 0 <= a_idx (avail (vq s)) < 2 ^ 16) /\ length (dma s) = 4096%nat.

Definition ended (type lba : Z) (buf : list Z) (h0 h1 : H) (s : virtblk H) (r : Z) (b : list Z) : Prop :=
  r = - ETIME /\ b = buf /\ (forall P : prompt dev, (SPINS <= delay h1)%nat) \/
  quiet s /\ (r = - EDISK /\ b = buf /\ refuses type lba \/ r = 0 /\ if type =? VIRTIO_BLK_T_IN then b = dsect h0 lba else b = buf /\ dsect (hid s) lba = buf).

Lemma collect_ok type lba buf v v0 F d0 d1 d2 base capa t h0 (s : virtblk H) :
  type = VIRTIO_BLK_T_IN \/ type = VIRTIO_BLK_T_OUT -> 0 <= lba < 2 ^ 64 -> 0 <= base -> length buf = 512%nat ->
  submitted type base t d0 d1 d2 v v0 F -> three (vq_size v0) d0 d1 d2 F -> 0 <= t < 2 ^ 16 ->
  last_used_idx v = us_idx (used v) -> 0 <= last_used_idx v < 2 ^ 16 -> pending type lba base capa t buf v0 h0 s ->
  exists s' r b, collect dev type d0 buf s = Done s' (r, b) /\ vq_ok (vq s') (d2 :: d1 :: d0 :: F) /\ vq_size (vq s') = vq_size v0 /\
    dma_phys s' = base /\ cap s' = capa /\ others type lba h0 (hid s') /\ ended type lba buf h0 (hid s) s' r b.
Proof.
  intros Htype Hlba Hbase Hbuf Hsub Hth Ht Hlu Hlr Hp. destruct Hsub as [Sok Sbuilt Savail Sslot (Hu & Hl) Ssize] eqn:Esub. clear Esub.
  assert (0 <= d0 < 2 ^ 16) as R0. { pose proof (Forall_inv (proj2 Hth)) as R0. cbn beta in R0. pose proof (ok_size _ _ Sok). lia. }
  destruct (poll_pending type lba base capa t d0 d1 d2 buf v0 h0 F Htype Hlba Hbase Sbuilt Sok Ht Savail Sslot ltac:(by rewrite Hl, Hu) ltac:(by rewrite Hl) R0 SPINS s Hp)
    as (s1 & res & Epoll & Hres).
  unfold collect. rewrite (bind_done _ _ _ _ _ Epoll). destruct Hres as [(Er & Hp1 & Hd)|(Er & len & Ha)].
  - destruct (free_request type base t d0 d1 d2 v v0 F (last_used_idx v0) (used v0) s1 Hsub Hth eq_refl) as (v' & Ef & Hok' & A' & U' & L' & S').
    { rewrite (pe_vq _ _ _ _ _ _ _ _ _ Hp1). by destruct v0. }
    rewrite (bind_done _ _ _ _ _ Ef), Er. do 3 eexists. split; [reflexivity|]. destruct Hp1. cbn. split_and!; try done. by left.
  - destruct Ha as [Hv Hb Hc Hpg Htk Ho (st & Est & Hno & Hst)]. set (u := push_used (vq_size v0) d0 len (used v0)) in *.
    destruct (free_request type base t d0 d1 d2 v v0 F (u16 (last_used_idx v0 + 1)) u s1 Hsub Hth) as (v' & Ef & Hok' & A' & U' & L' & S');
      [unfold u; cbn; by rewrite length_insert|done|].
    rewrite (bind_done _ _ _ _ _ Ef), Er, (proj2 (Z.ltb_ge _ _)) by lia. unfold mbind at 1, M_bind at 1, get. cbn [dma set_vq]. rewrite Est, bind_deref.
    assert (quiet (set_vq v' s1)) as Hq.
    { unfold quiet. cbn. rewrite L', U', A', Htk, Savail. cbn. rewrite Hl, Hlu, Hu. split_and!; try done; by apply wrap_range. }
    assert (forall r b, ended type lba buf h0 (hid s) (set_vq v' s1) r b ->
      exists s' r' b', Done (set_vq v' s1) (r, b) = Done s' (r', b') /\ vq_ok (vq s') (d2 :: d1 :: d0 :: F) /\ vq_size (vq s') = vq_size v0 /\
      dma_phys s' = base /\ cap s' = capa /\ others type lba h0 (hid s') /\ ended type lba buf h0 (hid s) s' r' b') as Hfin.
    { intros r b Hrb. do 3 eexists. split; [reflexivity|]. cbn. split_and!; done. }
    destruct (Z.eqb_spec st VIRTIO_BLK_S_OK) as [E0|E0]; cbn [negb]; [|apply Hfin; right; split; [done|left; split_and!; [done|done|by apply Hno]]]. specialize (Hst E0).
    assert (forall b, (if type =? VIRTIO_BLK_T_IN then b = dsect h0 lba else b = buf /\ dsect (hid s1) lba = buf) ->
      ended type lba buf h0 (hid s) (set_vq v' s1) 0 b) as He by (intros b Hb'; right; split; [done|]; by right).
    destruct (type =? VIRTIO_BLK_T_IN); [|apply Hfin, He; split; [done|]; by rewrite Hst, take_ge by lia].
    rewrite (proj2 (Nat.leb_le 512 _)), (proj2 (Nat.leb_le 640 _)) by lia. cbn [andb]. apply Hfin, He.
    unfold bytes_at in Hst. change (Z.to_nat 512) with 512%nat in Hst. rewrite Hst. pose proof (dsect_len h0 lba) as Ld.
    unfold splice. rewrite drop_ge by (rewrite Ld, Hbuf; done). cbn. by rewrite app_nil_r.
Qed.

(** *** The whole request *)

Lemma three_of n d0 d1 d2 F v : vq_ok v (d0 :: d1 :: d2 :: F) -> vq_size v = n -> three n d0 d1 d2 F.
Proof. intros Hok <-. split; [apply Hok|]. by apply (Forall_app _ [d0; d1; d2] F), (ok_range _ _ Hok). Qed.

(** The list of free descriptors of a queue without room for a request. *)
Lemma transfer_full type lba buf (s : virtblk H) : idle s -> length buf = 512%nat -> vq_size (vq s) < 3 ->
  exists s', virtio_blk_transfer dev type lba buf s = Done s' (- EFULL, buf) /\ idle s' /\ hid s' = hid s /\ cap s' = cap s /\
    vq_size (vq s') = vq_size (vq s) /\ dma_phys s' = dma_phys s.
Proof.
  intros [(F & Hok & HF) Hu Ht (Hp & Hb)] Hbuf Hs. unfold virtio_blk_transfer. rewrite (bind_done _ _ _ _ _ (fill_page_done type lba buf s Hp Hbuf)).
  set (s1 := set_dma _ s). change (vq s) with (vq s1) in *. pose proof (ok_size _ _ Hok) as Hs0.
  assert (length (dma s1) = 4096%nat) as Hp1 by apply (fill_filled type lba buf (dma s) Hp Hbuf).
  pose proof (ok_range _ _ Hok) as Hr.
  destruct F as [|d0 [|d1 [|d2 F]]]; cbn [length] in HF; [lia| | |lia]; rewrite !Forall_cons in Hr; destruct Hr as (R0 & Hr);
    destruct (alloc_desc_ok _ _ _ Hok) as (v1 & E1 & Hok1 & _ & A1 & U1 & L1 & S1 & _); rewrite (bind_done _ _ _ _ _ (onvq_done _ s1 v1 d0 E1)).
  - pose proof (alloc_desc_none _ Hok1) as E2. do 2 rewrite (bind_done _ _ _ _ _ (onvq_done _ (set_vq v1 s1) v1 (-1) E2)).
    rewrite (proj2 (Z.ltb_ge d0 0)) by lia. change (-1 <? 0) with true. cbn [orb]. change (set_vq v1 (set_vq v1 s1)) with (set_vq v1 s1). unfold give_back. rewrite (proj2 (Z.leb_le 0 d0)), (wrap_small 16 d0) by lia.
    destruct (free_desc_ok v1 d0 [] Hok1 ltac:(lia) (not_elem_of_nil d0)) as (v3 & E3 & Hok3 & A3 & U3 & L3 & S3 & _).
    rewrite (bind_done _ _ _ _ _ (onvq_done _ (set_vq v1 s1) v3 tt E3)). eexists. split; [reflexivity|].
    change (vq s1) with (vq s) in *. split; [|cbn; split_and!; (done || congruence)]. split; cbn; [exists [d0]; split; [done|cbn; congruence]|rewrite L3, U3, L1, U1; done|rewrite A3, A1; done|done].
  - destruct Hr as (R1 & _). destruct (alloc_desc_ok _ _ _ Hok1) as (v2 & E2 & Hok2 & _ & A2 & U2 & L2 & S2 & _).
    rewrite (bind_done _ _ _ _ _ (onvq_done _ (set_vq v1 s1) v2 d1 E2)). change (set_vq v2 (set_vq v1 s1)) with (set_vq v2 s1).
    rewrite (bind_done _ _ _ _ _ (onvq_done _ (set_vq v2 s1) v2 (-1) (alloc_desc_none _ Hok2))).
    rewrite (proj2 (Z.ltb_ge d0 0)), (proj2 (Z.ltb_ge d1 0)) by lia. change (-1 <? 0) with true. cbn [orb]. unfold give_back.
    rewrite (proj2 (Z.leb_le 0 d0)), (proj2 (Z.leb_le 0 d1)), (wrap_small 16 d0), (wrap_small 16 d1) by lia.
    destruct (free_desc_ok v2 d0 [] Hok2 ltac:(lia) (not_elem_of_nil d0)) as (v3 & E3 & Hok3 & A3 & U3 & L3 & S3 & _).
    rewrite (bind_done _ _ _ _ _ (onvq_done _ (set_vq v2 s1) v3 tt E3)).
    destruct (free_desc_ok v3 d1 [d0] Hok3 ltac:(lia)) as (v4 & E4 & Hok4 & A4 & U4 & L4 & S4 & _).
    { pose proof (ok_nodup _ _ Hok) as Hn. apply NoDup_cons in Hn as [Hn _]. clear - Hn. set_solver. }
    rewrite (bind_done _ _ _ _ _ (onvq_done _ (set_vq v3 s1) v4 tt E4)). eexists. split; [reflexivity|].
    change (vq s1) with (vq s) in *. split; [|cbn; split_and!; (done || congruence)]. split; cbn; [exists [d1; d0]; split; [done|cbn; congruence]|rewrite L4, U4, L3, U3, L2, U2, L1, U1; done|rewrite A4, A3, A2, A1; done|done].
Qed.

Lemma transfer_ok type lba buf (s : virtblk H) : idle s -> type = VIRTIO_BLK_T_IN \/ type = VIRTIO_BLK_T_OUT -> 0 <= lba < 2 ^ 64 ->
  length buf = 512%nat -> 3 <= vq_size (vq s) ->
  exists s' h1 r b, virtio_blk_transfer dev type lba buf s = Done s' (r, b) /\
    (exists F, vq_ok (vq s') F /\ Z.of_nat (length F) = vq_size (vq s')) /\ vq_size (vq s') = vq_size (vq s) /\
    dma_phys s' = dma_phys s /\ cap s' = cap s /\ others type lba (hid s) (hid s') /\ ended type lba buf (hid s) h1 s' r b.
Proof.
  intros [(F & Hok & HF) (Hu & Hu') (Ht & Ht') (Hp & Hb0 & Hb1)] Htype Hlba Hbuf Hs. unfold virtio_blk_transfer.
  rewrite (bind_done _ _ _ _ _ (fill_page_done type lba buf s Hp Hbuf)).
  set (s1 := set_dma _ s). change (vq s) with (vq s1) in *.
  destruct F as [|d0 [|d1 [|d2 F]]]; cbn [length] in HF; [lia..|].
  destruct (alloc_three s1 d0 d1 d2 F Hok) as (v & v1 & v2 & E1 & E2 & E3 & Hok3 & (A & U & L & S)).
  rewrite (bind_done _ _ _ _ _ E1), (bind_done _ _ _ _ _ E2), (bind_done _ _ _ _ _ E3).
  pose proof (three_of _ _ _ _ _ _ Hok eq_refl) as Hth. pose proof (proj2 Hth) as Hr. rewrite !Forall_cons in Hr. destruct Hr as (R0 & R1 & R2 & _).
  rewrite !(proj2 (Z.ltb_ge _ 0)) by lia. cbn [orb].
  destruct (submit_request_ok type lba buf (set_vq v s1) d0 d1 d2 F) as (s2 & Es & Hsub & Hpe); cbn [vq set_vq hid dma dma_phys];
    [done|by rewrite S|by apply fill_filled|by rewrite A|by rewrite A|done|done|].
  rewrite (bind_done _ _ _ _ _ Es). cbn [vq set_vq dma_phys hid cap] in Hsub, Hpe.
  destruct (collect_ok type lba buf v (vq s2) F d0 d1 d2 (dma_phys s1) (cap s1) (a_idx (avail v)) (hid s1) s2)
    as (s' & r & b & E & Hok' & Hsz & Hd & Hc & Ho & He); try done.
  { by rewrite (su_size _ _ _ _ _ _ _ _ _ Hsub), S. }
  { by rewrite A. }
  { by rewrite L, U. }
  { by rewrite L. }
  exists s', (hid s2), r, b. rewrite E. split_and!; try done.
  - exists (d2 :: d1 :: d0 :: F). split; [done|]. cbn [length]. by rewrite Hsz, (su_size _ _ _ _ _ _ _ _ _ Hsub), S.
  - by rewrite Hsz, (su_size _ _ _ _ _ _ _ _ _ Hsub), S.
Qed.

(** ** Sector transfers *)

Lemma ended_idle type lba buf h0 h1 (s s' : virtblk H) r b : idle s -> ended type lba buf h0 h1 s' r b ->
  (exists F, vq_ok (vq s') F /\ Z.of_nat (length F) = vq_size (vq s')) -> dma_phys s' = dma_phys s -> r <> - ETIME -> idle s'.
Proof. intros [_ _ _ (_ & Hb)] [(-> & _)|((Hu & Ht & Hp) & _)] HF Hd Hr; [done|]. split; try done. by rewrite Hd. Qed.

(** A transfer that ends leaves the driver ready for the next one, unless it
    timed out. *)
Lemma transfer_cases type lba buf (s : virtblk H) : idle s -> type = VIRTIO_BLK_T_IN \/ type = VIRTIO_BLK_T_OUT -> 0 <= lba < 2 ^ 64 ->
  length buf = 512%nat ->
  exists s' r b, virtio_blk_transfer dev type lba buf s = Done s' (r, b) /\
    (forall l, (type = VIRTIO_BLK_T_OUT -> l <> lba) -> dsect (hid s') l = dsect (hid s) l) /\ (r <> - ETIME -> idle s') /\
    (r = - EFULL /\ b = buf /\ vq_size (vq s) < 3 \/ r = - EDISK /\ b = buf /\ refuses type lba /\ 3 <= vq_size (vq s) \/ r = - ETIME /\ b = buf /\ (prompt dev -> False) \/
     r = 0 /\ 3 <= vq_size (vq s) /\ if type =? VIRTIO_BLK_T_IN then b = dsect (hid s) lba else b = buf /\ dsect (hid s') lba = buf).
Proof.
  intros Hi Ht Hl Hb. destruct (Z.lt_ge_cases (vq_size (vq s)) 3) as [Hs|Hs].
  - destruct (transfer_full type lba buf s Hi Hb Hs) as (s' & E & Hi' & Eh & _). exists s', (- EFULL), buf. rewrite Eh. split_and!; auto.
  - destruct (transfer_ok type lba buf s Hi Ht Hl Hb Hs) as (s' & h1 & r & b & E & HF & _ & Hd & _ & Ho & He). exists s', r, b.
    split_and!; [done|exact Ho|by eapply ended_idle|]. destruct He as [(-> & -> & Hp)|(_ & [(-> & -> & Hr)|(-> & Hr)])];
      [|right; left; by split_and!|do 3 right; by split_and!].
    do 2 right. left. split_and!; try done. intros P. pose proof (Hp P). pose proof (delay_bound h1). lia.
Qed.

End proofs.

(** C15. On a device that keeps to the standard and answers in time, over a queue of at
    least three descriptors, a sector read from an idle driver gives the sector and a
    sector write stores it, for every request the device does not refuse; one it does
    refuse may end in [-EDISK].  No sector but that of a write changes.  A shorter
    queue makes every request fail with [-EFULL] and change nothing.  The driver is
    idle afterwards, with every descriptor free. *)
Theorem virtio_blk_sectors {H} (dev : device H) `{!blk_device dev, !prompt dev} lba buf (s : virtblk H) :
  idle dev s -> 0 <= lba < 2 ^ 32 -> length buf = Block.SECSZ ->
  (exists s' r b, virtio_blk_secread dev lba buf s = Done s' (r, b) /\ idle dev s' /\ (forall l, dsect (hid s') l = dsect (hid s) l) /\
     (r = 0 /\ 3 <= vq_size (vq s) /\ b = dsect (hid s) lba \/ r = - EDISK /\ b = buf /\ refuses VIRTIO_BLK_T_IN lba \/
      r = - EFULL /\ b = buf /\ vq_size (vq s) < 3)) /\
  (exists s' r, virtio_blk_secwrite dev lba buf s = Done s' r /\ idle dev s' /\ (forall l, l <> lba -> dsect (hid s') l = dsect (hid s) l) /\
     (r = 0 /\ 3 <= vq_size (vq s) /\ dsect (hid s') lba = buf \/ r = - EDISK /\ refuses VIRTIO_BLK_T_OUT lba \/
      r = - EFULL /\ vq_size (vq s) < 3)).
Proof.
  intros Hi Hl Hb. unfold virtio_blk_secread, virtio_blk_secwrite. rewrite wrap_small by lia. split.
  - destruct (transfer_cases dev VIRTIO_BLK_T_IN lba buf s Hi ltac:(auto) ltac:(lia) Hb) as (s' & r & b & -> & Ho & Hi' & Hr).
    exists s', r, b. split; [done|]. destruct Hr as [(-> & -> & ?)|[(-> & -> & ? & _)|[(_ & _ & [])|(-> & ? & ->)]]]; [| |done|];
      (split; [by apply Hi'|]; split; [intros l; by apply Ho|auto]).
  - destruct (transfer_cases dev VIRTIO_BLK_T_OUT lba buf s Hi ltac:(auto) ltac:(lia) Hb) as (s' & r & b & E & Ho & Hi' & Hr).
    rewrite (bind_done _ _ _ _ _ E). exists s', r. split; [done|]. destruct Hr as [(-> & _ & ?)|[(-> & _ & ? & _)|[(_ & _ & [])|(-> & ? & _ & Hw)]]]; [| |done|];
      (split; [by apply Hi'|]; split; [intros l Hl'; by apply Ho|auto]).
Qed.

End VirtioBlk.
