(* ===== verification/VirtioDisk.v ===== *)
(** VirtIO disks below the block layer: the VirtIO driver in the table of the
    block layer keeps the promise [sector_laws]; a simulated device shows that
    the hypotheses can hold, and what a late answer does. *)
From S2P Require Import Prelude CString Pmm Virtq Block VirtioBlk.

Module VirtioDisk.
Import Virtq Block VirtioBlk.

(** ** The driver in the block layer *)

Section table.
Context {H : Type} (dev : device H) `{!blk_device dev, !prompt dev}.

(** The devices by their [priv], all of them idle between two calls. *)
Definition disks : Type := {m : gmap Z (virtblk H) | map_Forall (fun _ s => idle dev s) m}.

Lemma disks_insert (d : disks) p s : idle dev s -> map_Forall (fun _ s => idle dev s) (<[p := s]> (proj1_sig d)).
Proof. intros Hs. apply map_Forall_insert_2; [done|]. apply (proj2_sig d). Qed.

Definition put_disk (d : disks) (p : Z) (s : virtblk H) (Hs : idle dev s) : disks := exist _ (<[p := s]> (proj1_sig d)) (disks_insert d p s Hs).

(** A transfer as the block layer calls it: a sector number of 32 bits and a
    buffer of one sector. *)
Definition call (l : Z) (buf : list Z) : Prop := 0 <= l < 2 ^ 32 /\ length buf = SECSZ.

#[local] Instance call_dec l buf : Decision (call l buf).
Proof. unfold call. apply _. Defined.

Definition stays_idle {A} (m : M (virtblk H) A) : Prop := forall s s' a, idle dev s -> m s = Done s' a -> idle dev s'.

Lemma transfer_idle type l buf : call l buf -> type = VIRTIO_BLK_T_IN \/ type = VIRTIO_BLK_T_OUT -> stays_idle (virtio_blk_transfer dev type (u64 l) buf).
Proof.
  intros (Hl & Hb) Ht s s' rb Hi E. rewrite wrap_small in E by lia.
  destruct (transfer_cases dev type l buf s Hi Ht ltac:(lia) Hb) as (s1 & r & b & E1 & _ & Hi' & Hr).
  rewrite E1 in E. injection E as <- <-. apply Hi'. destruct Hr as [(-> & _)|[(-> & _)|[(_ & _ & [])|(-> & _)]]]; done.
Qed.

Lemma secread_idle l buf : call l buf -> stays_idle (virtio_blk_secread dev l buf).
Proof. intros Hc. apply transfer_idle; auto. Qed.

Lemma secwrite_idle l buf : call l buf -> stays_idle (virtio_blk_secwrite dev l buf).
Proof. intros Hc s s' r Hi (s1 & rb & E & [= <- <-])%bind_inv. revert Hi E. apply transfer_idle; auto. Qed.

Definition on_disk {A} (p : Z) (m : M (virtblk H) A) (Hm : stays_idle m) : M disks A := fun d =>
  match proj1_sig d !! p as o return proj1_sig d !! p = o -> _ with
  | None => fun _ => Fault
  | Some s => fun Es =>
      match m s as o return m s = o -> _ with
      | Fault => fun _ => Fault
      | Done s' a => fun E => Done (put_disk d p s' (Hm s s' a (proj2_sig d p s Es) E)) a
      end eq_refl
  end eq_refl.

Lemma on_disk_inv {A} p (m : M (virtblk H) A) Hm d d' a : on_disk p m Hm d = Done d' a ->
  exists s s', proj1_sig d !! p = Some s /\ idle dev s /\ m s = Done s' a /\ proj1_sig d' = <[p := s']> (proj1_sig d).
Proof.
  unfold on_disk. generalize (eq_refl (proj1_sig d !! p)). destruct (proj1_sig d !! p) as [s|] eqn:Es at 2 3; [|done]. intros Es'.
  generalize (eq_refl (m s)). destruct (m s) as [s' a'|] eqn:E at 2 3; [|done].
  intros E' [= <- <-]. exists s, s'. split_and!; try done. apply (proj2_sig d p s Es').
Qed.

Definition disk_secread (p l : Z) (buf : list Z) : M disks (Z * list Z) :=
  match decide (call l buf) with left Hc => on_disk p (virtio_blk_secread dev l buf) (secread_idle l buf Hc) | right _ => fault end.
Definition disk_secwrite (p l : Z) (buf : list Z) : M disks Z :=
  match decide (call l buf) with left Hc => on_disk p (virtio_blk_secwrite dev l buf) (secwrite_idle l buf Hc) | right _ => fault end.

Definition disk_sector (d : disks) (p l : Z) : list Z :=
  match proj1_sig d !! p with Some s => dsect (hid s) l | None => replicate SECSZ 0 end.

Lemma disk_sector_len d p l : length (disk_sector d p l) = SECSZ.
Proof. unfold disk_sector. destruct (proj1_sig d !! p); [apply dsect_len|apply length_replicate]. Qed.

Lemma disk_sector_insert (d d' : disks) p s' p' l : proj1_sig d' = <[p := s']> (proj1_sig d) ->
  disk_sector d' p' l = if decide (p' = p) then dsect (hid s') l else disk_sector d p' l.
Proof. intros E. unfold disk_sector. rewrite E. case_decide as Hp; [subst p'; by rewrite lookup_insert_eq|by rewrite lookup_insert_ne]. Qed.

Lemma disk_secread_law p l old d d' v b : disk_secread p l old d = Done d' (v, b) ->
  (forall p' l', disk_sector d' p' l' = disk_sector d p' l') /\ length b = SECSZ /\ (0 <= v -> b = disk_sector d p l).
Proof.
  unfold disk_secread. destruct (decide (call l old)) as [(Hl & Ho)|]; [|done]. intros (s & s' & Es & Hi & E & Ed)%on_disk_inv.
  unfold virtio_blk_secread in E. rewrite wrap_small in E by lia.
  destruct (transfer_cases dev VIRTIO_BLK_T_IN l old s Hi ltac:(auto) ltac:(lia) Ho) as (s1 & r1 & b1 & E1 & Hs & _ & Hr).
  rewrite E1 in E. injection E as <- <- <-. split; [|split].
  - intros p' l'. rewrite (disk_sector_insert d d' p s1 p' l' Ed). case_decide as Hp; [subst p'|done]. unfold disk_sector. rewrite Es. by apply Hs.
  - destruct Hr as [(_ & -> & _)|[(_ & -> & _)|[(_ & -> & _)|(_ & _ & ->)]]]; try done. apply dsect_len.
  - intros Hv. unfold disk_sector. rewrite Es. destruct Hr as [(-> & _)|[(-> & _)|[(-> & _)|(_ & _ & ->)]]]; done.
Qed.

Lemma disk_secwrite_law p l buf d d' v : disk_secwrite p l buf d = Done d' v ->
  (forall p' l', (p', l') <> (p, l) -> disk_sector d' p' l' = disk_sector d p' l') /\ (0 <= v -> disk_sector d' p l = buf).
Proof.
  unfold disk_secwrite. destruct (decide (call l buf)) as [(Hl & Ho)|]; [|done]. intros (s & s' & Es & Hi & E & Ed)%on_disk_inv.
  unfold virtio_blk_secwrite in E. rewrite wrap_small in E by lia.
  destruct (transfer_cases dev VIRTIO_BLK_T_OUT l buf s Hi ltac:(auto) ltac:(lia) Ho) as (s1 & r1 & b1 & E1 & Hs & _ & Hr).
  rewrite (bind_done _ _ _ _ _ E1) in E. injection E as <- <-. cbn. split.
  - intros p' l' Hne. rewrite (disk_sector_insert d d' p s1 p' l' Ed). case_decide as Hp; [subst p'|done]. unfold disk_sector. rewrite Es. apply Hs. congruence.
  - intros Hv. rewrite (disk_sector_insert d d' p s1 p l Ed), decide_True by done. destruct Hr as [(-> & _)|[(-> & _)|[(-> & _)|(_ & _ & _ & ->)]]]; done.
Qed.

(** The table of the block layer with the other three controllers as in [drv]. *)
Context {D : Type} (drv : drivers D) `{!sector_laws drv}.

Definition left_ {A} (m : M D A) : M (D * disks) A := fun s => match m s.1 with Done d a => Done (d, s.2) a | Fault => Fault end.
Definition right_ {A} (m : M disks A) : M (D * disks) A := fun s => match m s.2 with Done d a => Done (s.1, d) a | Fault => Fault end.

Definition with_virtio : drivers (D * disks) :=
  mk_drv (fun p l b => left_ (ata_secread drv p l b)) (fun p l b => left_ (ahci_secread drv p l b)) (fun p l b => left_ (usbmsd_secread drv p l b))
    (fun p l b => right_ (disk_secread p l b))
    (fun p l b => left_ (ata_secwrite drv p l b)) (fun p l b => left_ (ahci_secwrite drv p l b)) (fun p l b => left_ (usbmsd_secwrite drv p l b))
    (fun p l b => right_ (disk_secwrite p l b)).

Definition both_sector (s : D * disks) (t p l : Z) : list Z := if t =? DRV_VIRTIO then disk_sector s.2 p l else sector s.1 t p l.

Lemma with_virtio_read t wide fn : read_fn with_virtio t = Some (wide, fn) ->
  t = DRV_VIRTIO /\ fn = (fun p l b => right_ (disk_secread p l b)) \/
  t <> DRV_VIRTIO /\ exists fn', read_fn drv t = Some (wide, fn') /\ fn = (fun p l b => left_ (fn' p l b)).
Proof. unfold read_fn. repeat case_match; to_prop; subst; intros [= <- <-]; [right; split; [done|]; eauto..|left; done]. Qed.

Lemma with_virtio_write t wide fn : write_fn with_virtio t = Some (wide, fn) ->
  t = DRV_VIRTIO /\ fn = (fun p l b => right_ (disk_secwrite p l b)) \/
  t <> DRV_VIRTIO /\ exists fn', write_fn drv t = Some (wide, fn') /\ fn = (fun p l b => left_ (fn' p l b)).
Proof. unfold write_fn. repeat case_match; to_prop; subst; intros [= <- <-]; [right; split; [done|]; eauto..|left; done]. Qed.

#[export] Instance with_virtio_laws : sector_laws with_virtio.
Proof.
  refine {| sector := both_sector |}.
  - intros [d m] t p l. unfold both_sector. destruct (t =? DRV_VIRTIO); [apply disk_sector_len|apply sector_len].
  - intros t wide fn p l old [d m] [d' m'] v b Hfn Hl E. unfold both_sector. cbn.
    destruct (with_virtio_read _ _ _ Hfn) as [(-> & ->)|(Ht & fn' & Hfn' & ->)].
    + unfold right_ in E. cbn in E. destruct (disk_secread p l old m) as [m1 a|] eqn:E1; [|done]. injection E as <- <- ->.
      destruct (disk_secread_law _ _ _ _ _ _ _ E1) as (Hs & Hb & Hv). split_and!; try done. intros t' p' l'. destruct (t' =? DRV_VIRTIO); [apply Hs|done].
    + unfold left_ in E. cbn in E. destruct (fn' p l old d) as [d1 a|] eqn:E1; [|done]. injection E as <- <- ->.
      destruct (law_secread _ _ _ _ _ _ _ _ _ _ Hfn' Hl E1) as (Hs & Hb & Hv). rewrite (proj2 (Z.eqb_neq _ _) Ht). split_and!; try done.
      intros t' p' l'. destruct (t' =? DRV_VIRTIO); [done|apply Hs].
  - intros t wide fn p l buf [d m] [d' m'] v Hfn Hl E. unfold both_sector. cbn.
    destruct (with_virtio_write _ _ _ Hfn) as [(-> & ->)|(Ht & fn' & Hfn' & ->)].
    + unfold right_ in E. cbn in E. destruct (disk_secwrite p l buf m) as [m1 a|] eqn:E1; [|done]. injection E as <- <- ->.
      destruct (disk_secwrite_law _ _ _ _ _ _ E1) as (Hs & Hv). split; [|done]. intros t' p' l' Hne. destruct (Z.eqb_spec t' DRV_VIRTIO); [apply Hs; congruence|done].
    + unfold left_ in E. cbn in E. destruct (fn' p l buf d) as [d1 a|] eqn:E1; [|done]. injection E as <- <- ->.
      destruct (law_secwrite _ _ _ _ _ _ _ _ _ Hfn' Hl E1) as (Hs & Hv). rewrite (proj2 (Z.eqb_neq _ _) Ht). split; [|done].
      intros t' p' l' Hne. destruct (t' =? DRV_VIRTIO); [done|by apply Hs].
Defined.

End table.

(** ** A simulated device *)

(** It answers at the second look after a notification. *)
Record sim := mk_sim { sd_disk : gmap Z (list Z); sd_taken : Z; sd_wait : bool }.

Definition sim_sector (h : sim) (l : Z) : list Z := take SECSZ (default [] (sd_disk h !! l) ++ replicate SECSZ 0).

(** Carry a request out. *)
Definition serve (n head : Z) (rq : request) (u : vring_used_t) (page : list Z) (h : sim) : sim * vring_used_t * list Z :=
  let t := u16 (sd_taken h + 1) in
  if rq_type rq =? VIRTIO_BLK_T_IN then
    (mk_sim (sd_disk h) t false, push_used n head 513 u,
     splice (splice page (sim_sector h (rq_sector rq)) (Z.to_nat (rq_data rq))) [VIRTIO_BLK_S_OK] (Z.to_nat (rq_status rq)))
  else
    (mk_sim (<[rq_sector rq := bytes_at page (rq_data rq) 512]> (sd_disk h)) t false, push_used n head 1 u,
     splice page [VIRTIO_BLK_S_OK] (Z.to_nat (rq_status rq))).

Definition sim_run (n : Z) (ds : list vring_desc_t) (a : vring_avail_t) (u : vring_used_t) (base : Z) (page : list Z) (h : sim) : sim * vring_used_t * list Z :=
  if sd_taken h =? a_idx a then (h, u, page)
  else if sd_wait h then (mk_sim (sd_disk h) (sd_taken h) false, u, page)
  else match head ← aget (a_ring a) (sd_taken h mod n); rq ← request_of ds base page head; Some (head, rq) with
       | None => (mk_sim (sd_disk h) (u16 (sd_taken h + 1)) false, u, page)
       | Some (head, rq) => serve n head rq u page h
       end.

Definition simdev : device sim := mk_device sim (fun _ h => mk_sim (sd_disk h) (sd_taken h) true) sim_run.

Lemma sim_sector_len h l : length (sim_sector h l) = SECSZ.
Proof. unfold sim_sector. rewrite length_take, length_app, length_replicate. lia. Qed.

Lemma splice_self (page : list Z) off n : splice page (take n (drop off page)) off = page.
Proof.
  unfold splice. destruct (Nat.le_gt_cases (off + n) (length page)) as [Hn|Hn].
  - rewrite length_take, length_drop, Nat.min_l by lia. by rewrite <- drop_drop, take_drop, take_drop.
  - rewrite (take_ge (drop off page)) by (rewrite length_drop; lia). rewrite length_drop.
    rewrite (drop_ge page (off + _)) by lia. by rewrite app_nil_r, take_drop.
Qed.

(** What the format says of a request. *)
Lemma request_data ds base page head rq : request_of ds base page head = Some rq ->
  length (bytes_at page (rq_data rq) 512) = SECSZ /\ (rq_type rq = VIRTIO_BLK_T_IN \/ rq_type rq = VIRTIO_BLK_T_OUT).
Proof.
  unfold request_of. destruct (dchain _ _ _) as [[|h [|d [|st [|]]]]|]; try done. cbn [mbind option_bind]. cbv zeta.
  set (hdr := dec_fields _ _). destruct (in_page base page (d_addr h) 16) ; [|done]. destruct (in_page base page (d_addr d) 512) eqn:Hd; [|done].
  match goal with |- (if ?c then _ else _) = _ -> _ => destruct c eqn:Hc; [|done] end. intros [= <-]. cbn [rq_data rq_type]. split.
  - unfold in_page in Hd. rewrite !andb_true_iff, !Z.leb_le in Hd. unfold bytes_at, SECSZ. rewrite length_take, length_drop. lia.
  - rewrite !andb_true_iff, orb_true_iff, !andb_true_iff, !Z.eqb_eq in Hc. tauto.
Qed.

#[export] Instance sim_laws : blk_device simdev.
Proof.
  refine {| taken := sd_taken; dsect := sim_sector; refuses := fun _ _ => False; dsect_len := sim_sector_len |}.
  - intros q h. done.
  - intros n ds a u base page h E. exists h. cbn. unfold sim_run. by rewrite E, Z.eqb_refl.
  - intros n ds a u base page h head rq Hne Hh Hrq. cbn [d_run simdev]. unfold sim_run. rewrite (proj2 (Z.eqb_neq _ _) Hne).
    destruct (request_data _ _ _ _ _ Hrq) as (Hlen & Htype). destruct (sd_wait h).
    + exists (mk_sim (sd_disk h) (sd_taken h) false), u, (bytes_at page (rq_data rq) 512). split; [done|]. split; [done|]. left. split; [|done].
      destruct (rq_type rq =? VIRTIO_BLK_T_IN); [|done]. f_equal. symmetry. apply splice_self.
    + rewrite Hh. cbn [mbind option_bind]. rewrite Hrq. cbn [mbind option_bind]. unfold serve. destruct (rq_type rq =? VIRTIO_BLK_T_IN) eqn:Et.
      * exists (mk_sim (sd_disk h) (u16 (sd_taken h + 1)) false), (push_used n head 513 u), (sim_sector h (rq_sector rq)). split; [apply sim_sector_len|]. split; [done|]. right. exists 513, VIRTIO_BLK_S_OK. split_and!; done.
      * exists (mk_sim (<[rq_sector rq := bytes_at page (rq_data rq) 512]> (sd_disk h)) (u16 (sd_taken h + 1)) false), (push_used n head 1 u), (replicate SECSZ 0). split; [apply length_replicate|]. split.
        { intros l Hl. unfold sim_sector. cbn. rewrite lookup_insert_ne; [done|]. intros El. apply Hl; [|done]. destruct Htype as [E|E]; [|done]. by rewrite E in Et. }
        right. exists 1, VIRTIO_BLK_S_OK. split_and!; try done. intros _. unfold sim_sector. cbn. rewrite lookup_insert_eq. cbn [default].
        by rewrite take_app_length' by done.
Defined.

#[export] Instance sim_prompt : prompt simdev.
Proof.
  refine {| delay := fun h => if sd_wait h then 1%nat else O |}.
  - intros h. unfold SPINS. destruct (sd_wait h); lia.
  - intros n ds a u base page h h' u' page' Hne E Ht. cbn [taken sim_laws] in *. cbn [d_run simdev] in E. unfold sim_run in E.
    rewrite (proj2 (Z.eqb_neq _ _) Hne) in E. destruct (sd_wait h) eqn:Ew; [injection E as <- _ _; cbn; lia|]. exfalso.
    assert (sd_taken h' = u16 (sd_taken h + 1)) as E'.
    { unfold serve in E. repeat case_match; by injection E as <- _ _. }
    rewrite Ht in E'. pose proof (wrap_range 16 (sd_taken h + 1) ltac:(lia)) as Hr. rewrite <- E' in Hr. by apply (u16_ahead (sd_taken h)).
Defined.

(** A queue of four descriptors over an empty disk. *)
Definition vq4 : virtqueue_t :=
  mk_vq 0 4 4 0 0 (init_desc 4) (mk_avail 0 0 (replicate 4 0)) (mk_used 0 0 (replicate 4 (0, 0))) 0x10000 2 0 true.
Definition vb4 : virtblk sim := mk_vb vq4 1000 0x20000 (replicate 4096 0) (mk_sim ∅ 0 false).

Lemma vb4_idle : idle simdev vb4.
Proof.
  split; [|cbn; lia|cbn; lia|split; [done|cbn; lia]].
  exists [0; 1; 2; 3]. split; [|done]. apply (init_vq_ok 0 4 0x10000 2 0 true). lia.
Qed.

Lemma virtio_blk_sectors_witness :
  (exists s', virtio_blk_secread simdev 7 (replicate 512 1) vb4 = Done s' (0, replicate 512 0) /\ idle simdev s') /\
  (exists s', virtio_blk_secwrite simdev 7 (replicate 512 1) vb4 = Done s' 0 /\ idle simdev s' /\
     dsect (hid s') 7 = replicate 512 1 /\ dsect (hid s') 8 = replicate 512 0).
Proof.
  destruct (virtio_blk_sectors simdev 7 (replicate 512 1) vb4 vb4_idle) as [(s1 & r1 & b1 & E1 & I1 & _ & H1) (s2 & r2 & E2 & I2 & O2 & H2)]; [lia|reflexivity|]. split.
  - destruct H1 as [(-> & _ & ->)|[(_ & _ & [])|(_ & _ & H1)]]; [|cbn in H1; lia]. exists s1. split; [exact E1|exact I1].
  - destruct H2 as [(-> & _ & H2)|[(_ & [])|(_ & H2)]]; [|cbn in H2; lia]. exists s2. split; [exact E2|]. split; [exact I2|]. split; [exact H2|].
    rewrite O2 by lia. reflexivity.
Defined.

(** ** A late answer *)

(** A device with sector [l] full of bytes [l] that fetches a request and answers
    it [k] looks later. *)
Record late := mk_late { ld_taken : Z; ld_job : option (Z * request * nat) }.

Definition late_run (k : nat) (sz : Z) (ds : list vring_desc_t) (a : vring_avail_t) (u : vring_used_t) (base : Z) (page : list Z) (h : late)
  : late * vring_used_t * list Z :=
  match ld_job h with
  | Some (head, rq, S j) => (mk_late (ld_taken h) (Some (head, rq, j)), u, page)
  | Some (head, rq, O) =>
      (mk_late (u16 (ld_taken h + 1)) None, push_used sz head 513 u,
       splice (splice page (replicate SECSZ (rq_sector rq)) (Z.to_nat (rq_data rq))) [VIRTIO_BLK_S_OK] (Z.to_nat (rq_status rq)))
  | None =>
      if ld_taken h =? a_idx a then (h, u, page)
      else match head ← aget (a_ring a) (ld_taken h mod sz); rq ← request_of ds base page head; Some (head, rq) with
           | Some (head, rq) => (mk_late (ld_taken h) (Some (head, rq, k)), u, page)
           | None => (h, u, page)
           end
  end.

Definition latedev (k : nat) : device late := mk_device late (fun _ h => h) (late_run k).

(** What a transfer does before it polls. *)
Definition start {H} (dev : device H) (type lba : Z) (buf : list Z) : M (virtblk H) Z :=
  _ ← fill_page type lba buf;
  d0 ← onvq virtqueue_alloc_desc;
  d1 ← onvq virtqueue_alloc_desc;
  d2 ← onvq virtqueue_alloc_desc;
  if (d0 <? 0) || (d1 <? 0) || (d2 <? 0) then fault else
  _ ← submit_request dev type d0 d1 d2;
  mret d0.

Lemma start_collect {H} (dev : device H) type lba buf s s1 d0 : start dev type lba buf s = Done s1 d0 ->
  virtio_blk_transfer dev type lba buf s = collect dev type d0 buf s1.
Proof.
  unfold start, virtio_blk_transfer. intros (s2 & [] & E2 & (s3 & d & E3 & (s4 & d1 & E4 & (s5 & d2 & E5 & E)%bind_inv)%bind_inv)%bind_inv)%bind_inv.
  rewrite (bind_done _ _ _ _ _ E2), (bind_done _ _ _ _ _ E3), (bind_done _ _ _ _ _ E4), (bind_done _ _ _ _ _ E5).
  destruct (_ || _); [done|]. apply bind_inv in E as (s6 & [] & E6 & [= <- <-]). by rewrite (bind_done _ _ _ _ _ E6).
Qed.

Definition with_job (j : option (Z * request * nat)) (s : virtblk late) : virtblk late :=
  mk_vb (vq s) (cap s) (dma_phys s) (dma s) (mk_late (ld_taken (hid s)) j).

(** While the device is busy with a request the driver spins. *)
Lemma poll_busy k head rq j n : forall s, last_used_idx (vq s) = us_idx (used (vq s)) -> ld_job (hid s) = Some (head, rq, (n + j)%nat) ->
  virtqueue_poll_used vq set_vq (turn (latedev k)) n s = Done (with_job (Some (head, rq, j)) s) (- ETIME, 0).
Proof.
  induction n as [|n IH]; intros s Hu Hj; cbn [virtqueue_poll_used].
  - destruct s as [v c p d [t jb]]. cbn in *. by rewrite Hj.
  - rewrite bind_modify. unfold mbind at 1, M_bind at 1, get. destruct s as [v c p d [t jb]]. cbn in Hu, Hj. subst jb. destruct v. cbn in Hu. subst.
    unfold turn. cbn. rewrite Z.eqb_refl. cbn [negb]. by rewrite IH.
Qed.

Definition late0 : virtblk late := mk_vb vq4 1000 0x20000 (replicate 4096 0) (mk_late 0 None).
Definition buf0 : list Z := replicate 512 0.
Definition sub1 : virtblk late := state_of (start (latedev 0) VIRTIO_BLK_T_IN 1 buf0 late0) late0.
Definition job1 : Z * request := (0, mk_req VIRTIO_BLK_T_IN 1 128 64).
Definition late1 : virtblk late :=
  let s := with_job (Some (job1, 1%nat)) sub1 in state_of (onvq (virtqueue_free_chain 0) s) s.
Definition sub2 : virtblk late := state_of (start (latedev 0) VIRTIO_BLK_T_IN 2 buf0 late1) late1.

(** The first request is fetched at the first look and still under way when the
    driver gives up. *)
Lemma first_poll m : virtqueue_poll_used vq set_vq (turn (latedev (S m))) (S m) sub1 = Done (with_job (Some (job1, 1%nat)) sub1) (- ETIME, 0).
Proof.
  cbn [virtqueue_poll_used]. rewrite bind_modify.
  assert (turn (latedev (S m)) sub1 = with_job (Some (job1, S m)) sub1) as -> by (vm_compute; reflexivity).
  unfold mbind at 1, M_bind at 1, get. assert (forall j, last_used_idx (vq (with_job j sub1)) =? us_idx (used (vq (with_job j sub1))) = true) as -> by (intros; vm_compute; reflexivity).
  cbn [negb]. rewrite (poll_busy _ 0 (mk_req VIRTIO_BLK_T_IN 1 128 64) 1); [done|vm_compute; reflexivity|]. cbn. do 2 f_equal. lia.
Qed.

Definition ans2 : virtblk late := turn (latedev 0) (turn (latedev 0) sub2).

(** At the second look of the second request the answer to the first is there. *)
Lemma second_poll k m : virtqueue_poll_used vq set_vq (turn (latedev k)) (S (S m)) sub2 =
  Done (set_vq (set_used 1 (used (vq ans2)) (vq ans2)) ans2) (0, 513).
Proof.
  cbn [virtqueue_poll_used]. rewrite bind_modify. set (s1 := turn (latedev k) sub2).
  unfold mbind at 1, M_bind at 1, get. assert (last_used_idx (vq s1) =? us_idx (used (vq s1)) = true) as -> by (vm_compute; reflexivity).
  cbn [negb]. rewrite bind_modify. assert (turn (latedev k) s1 = ans2) as -> by (vm_compute; reflexivity). vm_compute. reflexivity.
Qed.

(** After a request has timed out its page and its descriptors are used for the
    next one although the device still works on them: when the answer to the
    first arrives it is taken for that to the second, and reading sector 2 gives
    the contents of sector 1. *)
Lemma late_answer_wrong_sector : exists s1 s2,
  virtio_blk_secread (latedev SPINS) 1 buf0 late0 = Done s1 (- ETIME, buf0) /\
  virtio_blk_secread (latedev SPINS) 2 buf0 s1 = Done s2 (0, replicate 512 1).
Proof.
  assert (exists m, SPINS = S (S m)) as (m & Em) by (exists (SPINS - 2)%nat; unfold SPINS; lia).
  exists late1. eexists. unfold virtio_blk_secread. change (u64 1) with 1. change (u64 2) with 2. split.
  - rewrite (start_collect (latedev SPINS) VIRTIO_BLK_T_IN 1 buf0 late0 sub1 0) by (generalize SPINS as k; intros k; vm_compute; reflexivity).
    unfold collect. rewrite Em, (bind_done _ _ _ _ _ (first_poll (S m))). vm_compute. reflexivity.
  - rewrite (start_collect (latedev SPINS) VIRTIO_BLK_T_IN 2 buf0 late1 sub2 2) by (generalize SPINS as k; intros k; vm_compute; reflexivity).
    unfold collect. rewrite Em, (bind_done _ _ _ _ _ (second_poll (S (S m)) m)). vm_compute. reflexivity.
Qed.

End VirtioDisk.
