(* ===== verification/Proc.v ===== *)
(** Processes and the scheduler of the boot processor: [include/scheduler/process.h],
    [src/scheduler/scheduler.c], [src/scheduler/new_process.c] and the system
    calls of [src/usr/syscalls/ssc_proc/] and [src/usr/syscalls/time.c] that
    change the process table.

    Model: the process table as a list of 255 entries next to the memory manager
    ([PageTable.mm], which also holds [current_pid]).  The fields of the flat C
    struct are grouped: registers, life cycle, credentials, owned resources.  A
    clock reading is an argument: [getms] is NULL or gives the milliseconds read
    while the entry [pid] is examined.  [free] has no effect on the modelled
    state; the outcome of each [malloc] is taken from [oom]. *)
From S2P Require Import Prelude Pmm Region PageTable VfsOps Fd.

Module Proc.
Import Region PageTable Fd.

Definition MAX_PROCESSES : Z := 255.
Definition WAIT_ANY : Z := 0xFF.
Definition PROC_SUID : Z := 1.
Definition PROC_SGID : Z := 2.
Definition S_ISUID : Z := 0x0800.
Definition S_ISGID : Z := 0x0400.

(** ** The process table *)

(** The registers; [procctx_t] and the first fields of [process_state_t]. *)
Record procctx_t := mk_ctx {
  rip : Z; rsp : Z; rflags : Z;
  rax : Z; rbx : Z; rcx : Z; rdx : Z; rsi : Z; rdi : Z; rbp : Z;
  r8 : Z; r9 : Z; r10 : Z; r11 : Z; r12 : Z; r13 : Z; r14 : Z; r15 : Z;
  cs : Z; ss : Z; fs : Z; gs : Z; fsb : Z; gsb : Z;
  x_cr3 : Z
}.

Record life_t := mk_life {
  p_pid : Z;           (* u8 *)
  is_dead : bool;
  ppid : Z;            (* u8 *)
  is_blocked : bool;
  wait_pid : Z;        (* u8 *)
  wake_ms : Z;         (* u64 *)
  code : Z;            (* u16 *)
  codeptr : Z;         (* user pointer, 0 for NULL *)
  used : bool
}.

Record cred_t := mk_cred { uid : Z; gid : Z; euid : Z; egid : Z; perms : Z }.

Record own_t := mk_own { pwd : option (list Z); currfb : Z; fdt : fdtab }.

Record process_state_t := mk_proc { ctx : procctx_t; life : life_t; cred : cred_t; own : own_t }.

(** One entry of [smp_info]: a processor core. *)
Record smp_info_t := mk_core { apicid : Z; core_pid : Z; status : Z }.

Record kst := mk_kst {
  proctbl : list process_state_t;
  mach : mm;
  smp_info : option (list smp_info_t);
  bsp_apicid : Z;
  preempt_pending : bool;
  scheduler_execve : bool;
  oom : list bool
}.

Definition current (s : kst) : Z := current_pid (mach s).

Definition set_tbl (t : list process_state_t) (s : kst) : kst :=
  mk_kst t (mach s) (smp_info s) (bsp_apicid s) (preempt_pending s) (scheduler_execve s) (oom s).
Definition set_mach (m : mm) (s : kst) : kst :=
  mk_kst (proctbl s) m (smp_info s) (bsp_apicid s) (preempt_pending s) (scheduler_execve s) (oom s).
Definition set_smp (i : option (list smp_info_t)) (s : kst) : kst :=
  mk_kst (proctbl s) (mach s) i (bsp_apicid s) (preempt_pending s) (scheduler_execve s) (oom s).
Definition set_pending (b : bool) (s : kst) : kst :=
  mk_kst (proctbl s) (mach s) (smp_info s) (bsp_apicid s) b (scheduler_execve s) (oom s).
Definition set_execve (b : bool) (s : kst) : kst :=
  mk_kst (proctbl s) (mach s) (smp_info s) (bsp_apicid s) (preempt_pending s) b (oom s).
Definition set_oom (o : list bool) (s : kst) : kst :=
  mk_kst (proctbl s) (mach s) (smp_info s) (bsp_apicid s) (preempt_pending s) (scheduler_execve s) o.

Definition set_cur (pid : Z) (s : mm) : mm :=
  mk_mm (m_pmm s) (m_mem s) (m_size s) (hhdm_offset s) (lhhdm_off s) (pml4 s) (PageTable.cr3 s)
    (vmmr_nodes s) (vmmr_head s) (vmm_umapr s) pid.
Definition set_umapr (u : list vmm_range_t) (s : mm) : mm :=
  mk_mm (m_pmm s) (m_mem s) (m_size s) (hhdm_offset s) (lhhdm_off s) (pml4 s) (PageTable.cr3 s)
    (vmmr_nodes s) (vmmr_head s) u (current_pid s).

(** *** Field updates *)

Definition on_ctx (f : procctx_t -> procctx_t) (p : process_state_t) : process_state_t :=
  mk_proc (f (ctx p)) (life p) (cred p) (own p).
Definition on_life (f : life_t -> life_t) (p : process_state_t) : process_state_t :=
  mk_proc (ctx p) (f (life p)) (cred p) (own p).
Definition on_cred (f : cred_t -> cred_t) (p : process_state_t) : process_state_t :=
  mk_proc (ctx p) (life p) (f (cred p)) (own p).
Definition on_own (f : own_t -> own_t) (p : process_state_t) : process_state_t :=
  mk_proc (ctx p) (life p) (cred p) (f (own p)).

Definition set_rax (v : Z) (x : procctx_t) : procctx_t :=
  mk_ctx (rip x) (rsp x) (rflags x) v (rbx x) (rcx x) (rdx x) (rsi x) (rdi x) (rbp x)
    (r8 x) (r9 x) (r10 x) (r11 x) (r12 x) (r13 x) (r14 x) (r15 x)
    (cs x) (ss x) (fs x) (gs x) (fsb x) (gsb x) (x_cr3 x).

Definition set_dead (b : bool) (l : life_t) : life_t :=
  mk_life (p_pid l) b (ppid l) (is_blocked l) (wait_pid l) (wake_ms l) (code l) (codeptr l) (used l).
Definition set_ppid (p : Z) (l : life_t) : life_t :=
  mk_life (p_pid l) (is_dead l) p (is_blocked l) (wait_pid l) (wake_ms l) (code l) (codeptr l) (used l).
Definition set_blocked (b : bool) (l : life_t) : life_t :=
  mk_life (p_pid l) (is_dead l) (ppid l) b (wait_pid l) (wake_ms l) (code l) (codeptr l) (used l).
Definition set_wake (t : Z) (l : life_t) : life_t :=
  mk_life (p_pid l) (is_dead l) (ppid l) (is_blocked l) (wait_pid l) t (code l) (codeptr l) (used l).
Definition set_code (c : Z) (l : life_t) : life_t :=
  mk_life (p_pid l) (is_dead l) (ppid l) (is_blocked l) (wait_pid l) (wake_ms l) c (codeptr l) (used l).
Definition set_used (b : bool) (l : life_t) : life_t :=
  mk_life (p_pid l) (is_dead l) (ppid l) (is_blocked l) (wait_pid l) (wake_ms l) (code l) (codeptr l) b.
(** [wait_pid], [is_blocked], [codeptr] of a process that parks itself. *)
Definition park (w ptr : Z) (l : life_t) : life_t :=
  mk_life (p_pid l) (is_dead l) (ppid l) true w (wake_ms l) (code l) ptr (used l).

Definition set_uid (v : Z) (c : cred_t) : cred_t := mk_cred v (gid c) (euid c) (egid c) (perms c).
Definition set_gid (v : Z) (c : cred_t) : cred_t := mk_cred (uid c) v (euid c) (egid c) (perms c).
Definition set_euid (v : Z) (c : cred_t) : cred_t := mk_cred (uid c) (gid c) v (egid c) (perms c).
Definition set_egid (v : Z) (c : cred_t) : cred_t := mk_cred (uid c) (gid c) (euid c) v (perms c).

Definition set_pwd (v : option (list Z)) (o : own_t) : own_t := mk_own v (currfb o) (fdt o).
Definition set_fb (v : Z) (o : own_t) : own_t := mk_own (pwd o) v (fdt o).
Definition set_fdt (v : fdtab) (o : own_t) : own_t := mk_own (pwd o) (currfb o) v.

(** *** Access *)

Notation MK := (M kst).

Definition proc (i : Z) : MK process_state_t := fun s =>
  match aget (proctbl s) i with Some p => Done s p | None => Fault end.

Definition upd (i : Z) (f : process_state_t -> process_state_t) : MK unit :=
  p ← proc i;
  modify (fun s => set_tbl (<[Z.to_nat i := f p]> (proctbl s)) s).

Definition onmm {A} (m : M mm A) : MK A := fun s =>
  match m (mach s) with Done m' a => Done (set_mach m' s) a | Fault => Fault end.

Definition malloc : MK bool := fun s =>
  match oom s with
  | [] => Done s true
  | b :: o => Done (set_oom o s) (negb b)
  end.

(** ** Context switching *)

Definition proc2ctx (p : process_state_t) : procctx_t := ctx p.

(** All registers but [cr3]. *)
Definition ctx2proc (p : process_state_t) (x : procctx_t) : process_state_t :=
  on_ctx (fun old =>
    mk_ctx (rip x) (rsp x) (rflags x) (rax x) (rbx x) (rcx x) (rdx x) (rsi x) (rdi x) (rbp x)
      (r8 x) (r9 x) (r10 x) (r11 x) (r12 x) (r13 x) (r14 x) (r15 x)
      (cs x) (ss x) (fs x) (gs x) (fsb x) (gsb x) (x_cr3 old)) p.

(** Another core than the boot processor runs [pid]. *)
Definition in_use (s : kst) (pid : Z) : bool :=
  match smp_info s with
  | None => false
  | Some cores => existsb (fun c => negb (apicid c =? bsp_apicid s) && (core_pid c =? u8 pid)) cores
  end.

Notation clock := (option (Z -> Z)).

(** The sleep of [p], entry [pid], has ended. *)
Definition expired (getms : clock) (pid : Z) (p : process_state_t) : bool :=
  negb (wake_ms (life p) =? 0) &&
  match getms with None => false | Some t => wake_ms (life p) <=? t pid end.

(** The [do ... while (pid != start)] loop of [nextproc]; [None] is the end of
    the fuel. *)
Fixpoint nextproc_loop (fuel : nat) (getms : clock) (start pid0 : Z) : MK Z :=
  match fuel with
  | O => fault
  | S fuel' =>
      let pid := (pid0 + 1) mod MAX_PROCESSES in
      let next := if pid =? start then mret (- ENOPROC) else nextproc_loop fuel' getms start pid in
      p ← proc pid;
      s ← get;
      if used (life p) && negb (is_dead (life p)) then
        if in_use s pid then next
        else if is_blocked (life p) then
          if expired getms pid p then
            _ ← upd pid (on_life (set_blocked false));
            _ ← upd pid (on_life (set_wake 0));
            mret pid
          else next
        else mret pid
      else next
  end.

Definition nextproc (getms : clock) : MK Z :=
  start ← gets current;
  nextproc_loop (Z.to_nat MAX_PROCESSES) getms start start.

(** What [scheduler_switch] ends in: the caller goes on, nothing was runnable
    at any of the clock readings, or a switch to a context with its working
    directory and frame buffer. *)
Inductive switched :=
| Resume
| Idle
| Switch (x : procctx_t) (dir : option (list Z)) (fb : Z).

(** Halt until the next tick while nothing can run. *)
Fixpoint nextproc_wait (ticks : list clock) : MK (option Z) :=
  match ticks with
  | [] => mret None
  | t :: rest =>
      pid ← nextproc t;
      if pid <? 0 then nextproc_wait rest else mret (Some pid)
  end.

(** [smp_info[c].current_pid = pid] for the first core that is the boot processor *)
Fixpoint set_bsp_pid (bsp pid : Z) (cores : list smp_info_t) : list smp_info_t :=
  match cores with
  | [] => []
  | c :: rest =>
      if apicid c =? bsp then mk_core (apicid c) pid (status c) :: rest
      else c :: set_bsp_pid bsp pid rest
  end.

(** [scheduler_switch] from its choice of a process on; [Idle] leaves it waiting there. *)
Definition switch_loop (ticks : list clock) (x : procctx_t) : MK switched :=
  o ← nextproc_wait ticks;
  match o with
  | None => mret Idle
  | Some tgt =>
      s ← get;
      p ← proc (current s);
      let same := (tgt =? current s) && negb (is_dead (life p)) in
      if same && negb (scheduler_execve s) then mret Resume
      else
        _ ← (if same then modify (set_execve false) else mret tt);
        _ ← upd (current s) (fun p => ctx2proc p x);
        _ ← onmm (modify (set_cur (u8 tgt)));
        _ ← modify (fun s => set_smp (option_map (set_bsp_pid (bsp_apicid s) (u8 tgt)) (smp_info s)) s);
        t ← proc tgt;
        _ ← onmm (vmm_sasp (x_cr3 (ctx t)));
        mret (Switch (proc2ctx t) (pwd (own t)) (currfb (own t)))
  end.

Definition scheduler_switch (ticks : list clock) (x : procctx_t) : MK switched :=
  _ ← modify (set_pending false);
  switch_loop ticks x.

Definition start_scheduler : MK switched :=
  c ← gets current;
  p ← proc c;
  _ ← onmm (vmm_sasp (x_cr3 (ctx p)));
  mret (Switch (proc2ctx p) (pwd (own p)) (currfb (own p))).

(** ** Ending and waiting *)

(** A byte stored through the active page tables. *)
Definition stb (va b : Z) : M mm unit :=
  t ← vmm_cpml4v;
  pa ← vmm_get_phys t va;
  s ← get;
  if (pa =? 0) || (m_size s <=? pa) then fault
  else
    let a := 8 * (pa / 8) in
    let sh := 8 * (pa mod 8) in
    let w := word (m_mem s) a in
    modify (set_mem (<[a := Z.lor (Z.ldiff w (Z.shiftl 0xFF sh)) (Z.shiftl b sh)]> (m_mem s))).

(** [*(int * )va = v] *)
Definition poke32 (va v : Z) : M mm unit :=
  for_loop 4 0 (fun i => stb (u64 (va + i)) (Z.land (Z.shiftr v (8 * i)) 0xFF)).

Definition poke_code (ptr v : Z) : MK unit :=
  if ptr =? 0 then mret tt else onmm (poke32 ptr (u32 v)).

Definition wake_waiter (pid : Z) : MK unit :=
  child ← proc pid;
  let pp := ppid (life child) in
  parent ← proc pp;
  if is_blocked (life parent) &&
     ((wait_pid (life parent) =? pid) || (wait_pid (life parent) =? WAIT_ANY))
  then
    _ ← upd pp (on_life (set_blocked false));
    _ ← upd pp (on_ctx (set_rax pid));
    cr3 ← onmm vmm_cpml4v;
    _ ← onmm (vmm_sasp (x_cr3 (ctx parent)));
    c ← proc pid;
    _ ← poke_code (codeptr (life parent)) (code (life c));
    onmm (vmm_sasp cr3)
  else mret tt.

Definition reparent (old_ppid : Z) (p : process_state_t) : process_state_t :=
  if used (life p) && negb (is_dead (life p)) && (ppid (life p) =? old_ppid)
  then on_life (set_ppid 0) p else p.

Definition reparent_children (old_ppid : Z) : MK unit :=
  modify (fun s => set_tbl (map (reparent old_ppid) (proctbl s)) s).

Definition endproc_shared (pid : Z) : MK unit :=
  _ ← upd pid (on_life (set_blocked false));
  _ ← upd pid (on_life (set_dead true));
  _ ← reparent_children (u8 pid);
  _ ← wake_waiter (u8 pid);
  _ ← upd pid (on_own (fun o => set_fdt (mk_fdtab None (nfds (fdt o))) o));
  _ ← upd pid (on_own (set_pwd None));
  p ← proc pid;
  _ ← onmm (vmm_dasp (x_cr3 (ctx p)));
  upd pid (on_life (set_used false)).

Definition sys_kill (a0 : Z) : MK Z :=
  let pid := s64 a0 in
  if pid =? 0 then mret (- EINVAL) else
  c ← gets current;
  if (pid <=? 0) || (MAX_PROCESSES <=? pid) || (pid =? c) then mret (- ENOPROC) else
  p ← proc pid;
  if negb (used (life p)) || is_dead (life p) then mret (- ENOPROC) else
  me ← proc c;
  if negb (euid (cred me) =? 0) && negb (euid (cred me) =? uid (cred p)) &&
     negb (uid (cred me) =? uid (cred p)) then mret (- EACCESS) else
  _ ← endproc_shared pid;
  mret 0.

Definition zero_ctx : procctx_t := mk_ctx 0 0 0 0 0 0 0 0 0 0 0 0 0 0 0 0 0 0 0 0 0 0 0 0 0.

Definition sys_exit (ticks : list clock) (a0 : Z) : MK switched :=
  c ← gets current;
  _ ← onmm vmm_skasp;
  _ ← upd c (on_life (set_code (u16 (s32 a0))));
  _ ← upd c (on_life (set_dead true));
  _ ← endproc_shared c;
  scheduler_switch ticks zero_ctx.

Definition remumap (pid : Z) : MK unit :=
  onmm (fun m => match vmm_remumap (vmm_umapr m) pid with
                 | Some u => Done (set_umapr u m) tt
                 | None => Fault
                 end).

(** A fault of the current process in user mode; the messages are left out, and
    [panic] is a fault. *)
Definition kill_user_process (ticks : list clock) : MK switched :=
  uasp ← onmm vmm_cpml4v;
  _ ← onmm vmm_skasp;
  c ← gets current;
  _ ← upd c (on_life (set_dead true));
  _ ← reparent_children c;
  _ ← wake_waiter c;
  if c =? 0 then fault else
  _ ← remumap c;
  _ ← onmm (vmm_dasp uasp);
  _ ← upd c (on_life (set_used false));
  scheduler_switch ticks zero_ctx.

(** First entry, in table order, that is a dead child of [c]. *)
Fixpoint dead_child (i c : Z) (t : list process_state_t) : option Z :=
  match t with
  | [] => None
  | p :: rest =>
      if negb (i =? c) && (ppid (life p) =? c) && is_dead (life p) then Some i
      else dead_child (i + 1) c rest
  end.

Definition sys_wait (a0 a1 : Z) : MK Z :=
  let pid := s64 a0 in
  c ← gets current;
  if 0 <=? pid then
    if MAX_PROCESSES <=? pid then mret (- ENOPROC) else
    p ← proc pid;
    if negb (used (life p)) || (pid =? c) then mret (- ENOPROC) else
    if negb (is_dead (life p)) then
      _ ← upd c (on_life (park (u8 pid) a1));
      _ ← modify (set_pending true);
      _ ← poke_code a1 (- EHANG);
      mret pid
    else
      _ ← upd pid (on_life (set_used false));
      _ ← (if a1 =? 0 then mret tt else poke_code a1 (code (life p)));
      mret pid
  else
    s ← get;
    match dead_child 0 c (proctbl s) with
    | Some i =>
        _ ← upd i (on_life (set_used false));
        _ ← (if a1 =? 0 then mret tt else q ← proc pid; poke_code a1 (code (life q)));
        mret i
    | None =>
        _ ← upd c (on_life (park WAIT_ANY a1));
        mret (- EHANG)
    end.

Definition sys_sleep (getms : option Z) (a0 : Z) : MK Z :=
  if a0 =? 0 then _ ← modify (set_pending true); mret 0
  else
    c ← gets current;
    _ ← upd c (on_life (fun l => set_blocked true (set_wake (u64 (default 0 getms + a0)) l)));
    _ ← modify (set_pending true);
    mret 0.

(** ** Credentials *)

Definition sys_getpid : MK Z := gets current.
Definition sys_getuid : MK Z := c ← gets current; p ← proc c; mret (uid (cred p)).
Definition sys_getgid : MK Z := c ← gets current; p ← proc c; mret (gid (cred p)).
Definition sys_geteuid : MK Z := c ← gets current; p ← proc c; mret (euid (cred p)).
Definition sys_getegid : MK Z := c ← gets current; p ← proc c; mret (egid (cred p)).

(** The common shape of the four setters: [bit] the permission, [a] and [b] the
    two identifiers that may always be taken. *)
Definition set_id (bit : Z) (a b : cred_t -> Z) (f : Z -> cred_t -> cred_t) (a0 : Z) : MK Z :=
  let n := u32 a0 in
  c ← gets current;
  p ← proc c;
  if negb (Z.land (perms (cred p)) bit =? 0) || (euid (cred p) =? 0) ||
     (n =? a (cred p)) || (n =? b (cred p))
  then _ ← upd c (on_cred (f n)); mret 0
  else mret (- EACCESS).

Definition sys_setuid : Z -> MK Z := set_id PROC_SUID uid euid set_uid.
Definition sys_setgid : Z -> MK Z := set_id PROC_SGID gid egid set_gid.
Definition sys_seteuid : Z -> MK Z := set_id PROC_SUID uid euid set_euid.
Definition sys_setegid : Z -> MK Z := set_id PROC_SGID gid egid set_egid.

(** ** Creating processes *)

Record loadprog_res_t := mk_loaded {
  ld_status : Z;
  ld_pgtbl : Z;
  ld_entry : Z;
  ld_rsp : Z;
  ld_high : Z
}.

(** First unused entry. *)
Fixpoint find_unused (i : Z) (t : list process_state_t) : option Z :=
  match t with
  | [] => None
  | p :: rest => if negb (used (life p)) then Some i else find_unused (i + 1) rest
  end.

(** The size of a [struct fdinfo]. *)
Definition FDINFO : Z := 1112.

(** The child's own copy of the parent's table. *)
Definition copy_fds (dst src : Z) : MK Z :=
  sproc ← proc src;
  match fds (fdt (own sproc)) with
  | None => mret (- EBADF)
  | Some l =>
      let n := nfds (fdt (own sproc)) in
      if n =? 0 then mret (- EBADF) else
      ok ← malloc;
      if negb ok then mret (- ENOMEM) else
      _ ← (if Z.of_nat (length l) <? n then fault else mret tt);
      _ ← upd dst (on_own (set_fdt (mk_fdtab (Some (take (Z.to_nat n) l)) n)));
      mret (s64 (FDINFO * n))
  end.

Definition fresh_ctx (res : loadprog_res_t) : procctx_t :=
  mk_ctx (ld_entry res) (ld_rsp res) 0x202 0 0 0 0 0 0 0 0 0 0 0 0 0 0 0
    0x1b 0x23 0 0 0 0 (ld_pgtbl res).

Definition mode_perms (mode : Z) : Z :=
  Z.lor (if Z.land mode S_ISUID =? 0 then 0 else PROC_SUID)
        (if Z.land mode S_ISGID =? 0 then 0 else PROC_SGID).

Definition setumapbase (pid base : Z) : MK unit :=
  onmm (fun m => match vmm_setumapbase (vmm_umapr m) pid base with
                 | Some u => Done (set_umapr u m) tt
                 | None => Fault
                 end).

(** Standard input, output and error and the terminal's frame buffer. *)
Definition STDIN : Z := 0.
Definition STDOUT : Z := 1.
Definition TERM_FB : Z := 0.

Definition init_fdt : fdtab :=
  mk_fdtab (Some [ mk_fd 0 true (FDTYPE_IO true false STDIN);
                   mk_fd 1 true (FDTYPE_IO false true STDOUT);
                   mk_fd 2 true (FDTYPE_IO false true STDOUT);
                   mk_fd 3 true (FDTYPE_FB TERM_FB) ]) 4.

(** What process 0 owns: result 0 or an error. *)
Definition init_own (pid : Z) : MK Z :=
  ok ← malloc;
  if negb ok then mret (- ENOMEM) else
  _ ← upd pid (on_own (fun o => set_fb 3 (set_fdt init_fdt o)));
  ok ← malloc;
  _ ← upd pid (on_own (set_pwd None));
  if negb ok then mret (- ENOMEM) else
  _ ← upd pid (on_own (set_pwd (Some [47])));
  mret 0.

(** What a child inherits. *)
Definition child_own (get_currfb : MK Z) (pid pp : Z) : MK Z :=
  _ ← copy_fds pid pp;
  fb ← get_currfb;
  _ ← upd pid (on_own (set_fb fb));
  _ ← upd pid (on_life (set_ppid pp));
  parent ← proc pp;
  d ← deref (pwd (own parent));
  ok ← malloc;
  _ ← upd pid (on_own (set_pwd (if ok then Some d else None)));
  if negb ok then mret (- ENOMEM) else mret 0.

Definition inherited (pid pp : Z) : MK cred_t :=
  if pp <? MAX_PROCESSES then
    parent ← proc pp;
    if used (life parent) && negb (pid =? 0) then mret (cred parent) else mret (mk_cred 0 0 0 0 0)
  else mret (mk_cred 0 0 0 0 0).

(** [load] is [load_program] and [stat] the call of that name, on the arguments
    of the call; [stat] gives its result and the mode. *)
Definition new_process (load : MK loadprog_res_t) (stat : MK (Z * Z)) (get_currfb : MK Z)
  (pp : Z) : MK Z :=
  s ← get;
  match find_unused 0 (proctbl s) with
  | None => mret (- EFULL)
  | Some pid =>
      res ← load;
      if ld_status res <? 0 then mret (ld_status res) else
      '(ret, mode) ← stat;
      if ret <? 0 then mret ret else
      r ← (if pid =? 0 then init_own pid else child_own get_currfb pid pp);
      if r <? 0 then mret r else
      _ ← upd pid (on_ctx (fun _ => fresh_ctx res));
      _ ← upd pid (on_life (fun l =>
            mk_life pid false pp false WAIT_ANY 0 (code l) (codeptr l) (used l)));
      cr ← inherited pid pp;
      _ ← upd pid (on_cred (fun _ => mk_cred (uid cr) (gid cr) (euid cr) (egid cr) (mode_perms mode)));
      _ ← upd pid (on_life (set_used true));
      _ ← setumapbase pid (ld_high res);
      mret pid
  end.

Definition kexecve (load : MK loadprog_res_t) (stat : MK (Z * Z)) (cpid : Z) : MK Z :=
  res ← load;
  if ld_status res <? 0 then mret (ld_status res) else
  '(ret, mode) ← stat;
  if ret <? 0 then mret ret else
  _ ← upd cpid (on_ctx (fun _ => fresh_ctx res));
  _ ← upd cpid (on_life (fun l =>
        mk_life (p_pid l) false (ppid l) false WAIT_ANY 0 (code l) (codeptr l) (used l)));
  _ ← upd cpid (on_cred (fun c => mk_cred (uid c) (gid c) (euid c) (egid c) (mode_perms mode)));
  p ← proc cpid;
  _ ← setumapbase (p_pid (life p)) (ld_high res);
  mret 0.

(** [input]: what [getchar] gives, call by call; the bytes stored and the result. *)
Fixpoint stdin_loop (n : nat) (i : Z) (input : list Z) : option (list Z * Z) :=
  match n with
  | O => Some ([], i)
  | S n' =>
      match input with
      | [] => None
      | c :: rest =>
          if c =? 10 then Some ([c], i)
          else '(b, r) ← stdin_loop n' (i + 1) rest; Some (c :: b, r)
      end
  end.

Definition _stdin_read (input : list Z) (sz : Z) : option (list Z * Z) := stdin_loop (Z.to_nat sz) 0 input.

(** ** Round robin *)

Definition tbl_ok (s : kst) : Prop :=
  Z.of_nat (length (proctbl s)) = MAX_PROCESSES /\ 0 <= current s < MAX_PROCESSES.

(** The boot processor may run entry [pid], given the clock. *)
Definition can_run (getms : clock) (s : kst) (pid : Z) : bool :=
  match aget (proctbl s) pid with
  | Some p => used (life p) && negb (is_dead (life p)) && negb (in_use s pid) &&
              (negb (is_blocked (life p)) || expired getms pid p)
  | None => false
  end.

(** The entry once it has been chosen. *)
Definition awake (p : process_state_t) : process_state_t :=
  if is_blocked (life p) then on_life (fun l => set_wake 0 (set_blocked false l)) p else p.

Lemma proc_at s i p : aget (proctbl s) i = Some p -> proc i s = Done s p.
Proof. unfold proc. by intros ->. Qed.

Lemma upd_at s i f p :
  aget (proctbl s) i = Some p -> upd i f s = Done (set_tbl (<[Z.to_nat i := f p]> (proctbl s)) s) tt.
Proof. intros H. unfold upd. by rewrite (bind_done _ _ _ _ _ (proc_at s i p H)). Qed.

Lemma set_tbl_id s : set_tbl (proctbl s) s = s.
Proof. by destruct s. Qed.

Definition slot (s : kst) (k : Z) : Z := (current s + k) mod MAX_PROCESSES.

Lemma slot_succ s k : (slot s k + 1) mod MAX_PROCESSES = slot s (k + 1).
Proof. unfold slot, MAX_PROCESSES. rewrite Z.add_mod_idemp_l by lia. f_equal. lia. Qed.

Lemma slot_range s k : 0 <= slot s k < MAX_PROCESSES.
Proof. apply Z.mod_pos_bound. done. Qed.

Lemma slot_start s k : tbl_ok s -> 1 <= k <= MAX_PROCESSES -> (slot s k =? current s) = (k =? MAX_PROCESSES).
Proof.
  unfold tbl_ok, slot, MAX_PROCESSES. intros [_ Hc] Hk.
  destruct (Z.eqb_spec k 255) as [->|Hne].
  - apply Z.eqb_eq. rewrite <- (Z.mul_1_l 255) at 1. rewrite Z.mod_add by lia. by apply Z.mod_small.
  - apply Z.eqb_neq. intros H. destruct (Z.lt_ge_cases (current s + k) 255).
    + rewrite Z.mod_small in H by lia. lia.
    + rewrite <- (Z.mod_add _ (-1)) in H by lia. rewrite Z.mod_small in H by lia. lia.
Qed.

(** The slot of [pid], counted from the current process. *)
Lemma slot_reach s pid :
  0 <= pid < MAX_PROCESSES -> pid = slot s ((pid - current s - 1) mod MAX_PROCESSES + 1).
Proof.
  intros Hp. unfold slot. unfold MAX_PROCESSES in *. rewrite Z.add_assoc, (Z.add_comm (current s)), <- Z.add_assoc.
  rewrite Z.add_mod_idemp_l by lia. replace (pid - current s - 1 + (current s + 1)) with pid by lia.
  symmetry. by apply Z.mod_small.
Qed.

(** What the scan finds, having passed over the first [i] slots. *)
Definition scanned (getms : clock) (s : kst) (i : Z) (o : outcome kst Z) : Prop :=
  (exists k p, i < k <= MAX_PROCESSES /\ aget (proctbl s) (slot s k) = Some p /\
     can_run getms s (slot s k) = true /\
     (forall j, i < j < k -> can_run getms s (slot s j) = false) /\
     o = Done (set_tbl (<[Z.to_nat (slot s k) := awake p]> (proctbl s)) s) (slot s k)) \/
  ((forall j, i < j <= MAX_PROCESSES -> can_run getms s (slot s j) = false) /\ o = Done s (- ENOPROC)).

Lemma scanned_step getms s i o :
  i < MAX_PROCESSES -> can_run getms s (slot s (i + 1)) = false ->
  (if i + 1 =? MAX_PROCESSES then o = Done s (- ENOPROC) else scanned getms s (i + 1) o) ->
  scanned getms s i o.
Proof.
  intros Hi Hno H. destruct (Z.eqb_spec (i + 1) MAX_PROCESSES) as [E|E].
  - right. split; [|done]. intros j Hj. replace j with (i + 1) by lia. done.
  - assert (forall j, i < j -> j <> i + 1 -> i + 1 < j) as Hj by lia.
    destruct H as [(k & p & Hk & Hp & Hr & Hn & Ho)|[Hn Ho]].
    + left. exists k, p. split_and!; try done; [lia|lia|]. intros j [Hj1 Hj2].
      destruct (decide (j = i + 1)) as [->|]; [done|]. apply Hn. auto.
    + right. split; [|done]. intros j [Hj1 Hj2].
      destruct (decide (j = i + 1)) as [->|]; [done|]. apply Hn. auto.
Qed.

Lemma nextproc_loop_scan getms s : tbl_ok s -> forall fuel i,
  0 <= i < MAX_PROCESSES -> Z.of_nat fuel = MAX_PROCESSES - i ->
  scanned getms s i (nextproc_loop fuel getms (current s) (slot s i) s).
Proof.
  intros Hok. induction fuel as [|fuel IH]; intros i Hi Hf; [lia|].
  destruct (aget_is_Some (proctbl s) (slot s (i + 1))) as [p Hp].
  { destruct Hok as [-> _]. apply slot_range. }
  set (next := if i + 1 =? MAX_PROCESSES then mret (- ENOPROC)
               else nextproc_loop fuel getms (current s) (slot s (i + 1)) : MK Z).
  assert (can_run getms s (slot s (i + 1)) = false -> scanned getms s i (next s)) as Hnext.
  { intros Hno. apply scanned_step; [lia|done|]. unfold next.
    destruct (Z.eqb_spec (i + 1) MAX_PROCESSES); [done|]. apply IH; lia. }
  assert (can_run getms s (slot s (i + 1)) = true ->
          scanned getms s i (Done (set_tbl (<[Z.to_nat (slot s (i + 1)) := awake p]> (proctbl s)) s)
                               (slot s (i + 1)))) as Hfound.
  { intros Hr. left. exists (i + 1), p. split_and!; try done; lia. }
  cbn [nextproc_loop]. rewrite slot_succ, slot_start by (done || lia).
  rewrite (bind_done _ _ _ _ _ (proc_at s _ p Hp)). rewrite (bind_done get _ s s s eq_refl).
  fold next. unfold can_run in Hnext, Hfound. rewrite Hp in Hnext, Hfound.
  destruct (used (life p)), (is_dead (life p)); try by apply Hnext.
  destruct (in_use s (slot s (i + 1))); [by apply Hnext|]. unfold awake in Hfound.
  destruct (is_blocked (life p)); cbn [andb orb negb] in *.
  - destruct (expired getms (slot s (i + 1)) p); [|by apply Hnext].
    rewrite (bind_done _ _ _ _ _ (upd_at s _ _ p Hp)).
    erewrite bind_done; [apply Hfound; done|]. erewrite upd_at.
    2: { cbn [proctbl set_tbl]. rewrite aget_insert by (by eapply aget_bound). by rewrite decide_True. }
    cbn [proctbl set_tbl]. by rewrite list_insert_insert_eq.
  - assert (s = set_tbl (<[Z.to_nat (slot s (i + 1)) := p]> (proctbl s)) s) as Hs.
    { apply aget_Some in Hp as [_ Hp]. rewrite list_insert_id by done. by rewrite set_tbl_id. }
    rewrite Hs at 3. by apply Hfound.
Qed.

Lemma nextproc_scan getms s :
  tbl_ok s ->
  (exists k p, 0 < k <= MAX_PROCESSES /\ aget (proctbl s) (slot s k) = Some p /\
     can_run getms s (slot s k) = true /\
     (forall j, 0 < j < k -> can_run getms s (slot s j) = false) /\
     nextproc getms s = Done (set_tbl (<[Z.to_nat (slot s k) := awake p]> (proctbl s)) s) (slot s k)) \/
  ((forall pid, can_run getms s pid = false) /\ nextproc getms s = Done s (- ENOPROC)).
Proof.
  intros Hok. pose proof (nextproc_loop_scan getms s Hok (Z.to_nat MAX_PROCESSES) 0 ltac:(done) eq_refl) as H.
  assert (slot s 0 = current s) as E0.
  { unfold slot. rewrite Z.add_0_r. apply Z.mod_small. apply Hok. }
  rewrite E0 in H. unfold nextproc. rewrite bind_gets.
  destruct H as [H|[Hn Ho]]; [by left|right]. split; [|done]. intros pid.
  destruct (decide (0 <= pid < MAX_PROCESSES)) as [Hp|Hp].
  - rewrite <- (Hn ((pid - current s - 1) mod MAX_PROCESSES + 1)).
    + f_equal. apply slot_reach. apply Hp.
    + pose proof (Z.mod_pos_bound (pid - current s - 1) MAX_PROCESSES ltac:(done)). lia.
  - unfold can_run. rewrite aget_oob; [done|]. destruct Hok as [-> _]. lia.
Qed.

(** [nextproc] is round robin: it takes the first process after the current
    one, in cyclic order and the current one last, that is alive, not run by
    another core and either not blocked or asleep past its deadline; it changes
    nothing but waking that process; and it reports [-ENOPROC], changing
    nothing, exactly when there is no such process. *)
Theorem nextproc_round_robin getms s :
  tbl_ok s ->
  (exists k p, 0 < k <= MAX_PROCESSES /\ aget (proctbl s) (slot s k) = Some p /\
     can_run getms s (slot s k) = true /\
     (forall j, 0 < j < k -> can_run getms s (slot s j) = false) /\
     nextproc getms s = Done (set_tbl (<[Z.to_nat (slot s k) := awake p]> (proctbl s)) s) (slot s k)) \/
  ((forall pid, can_run getms s pid = false) /\ nextproc getms s = Done s (- ENOPROC)).
Proof.
  apply nextproc_scan.
Qed.

(** *** Fairness *)

(** Alive, not blocked, and on no other core. *)
Definition ready (s : kst) (q : Z) : Prop :=
  exists p, aget (proctbl s) q = Some p /\ used (life p) = true /\ is_dead (life p) = false /\
    is_blocked (life p) = false /\ in_use s q = false.

Lemma ready_can_run getms s q : ready s q -> can_run getms s q = true.
Proof. intros (p & Hp & Hu & Hd & Hb & Hi). unfold can_run. by rewrite Hp, Hu, Hd, Hb, Hi. Qed.

(** Turns until [q], at most, when [c] runs. *)
Definition dist (c q : Z) : Z := (q - c - 1) mod MAX_PROCESSES.

Lemma dist_slot s q k :
  0 <= k <= dist (current s) q -> dist (slot s k) q = dist (current s) q - k.
Proof.
  unfold dist, slot, MAX_PROCESSES. intros Hk.
  rewrite <- (Z.mod_small ((q - current s - 1) mod 255 - k) 255).
  2: { pose proof (Z.mod_pos_bound (q - current s - 1) 255 ltac:(lia)). lia. }
  rewrite Zminus_mod_idemp_l. replace (q - current s - 1 - k) with (q - 1 - (current s + k)) by lia.
  rewrite <- (Zminus_mod_idemp_r (q - 1)). f_equal. lia.
Qed.

(** Each turn takes [q] or comes closer to it. *)
Lemma nextproc_closer getms s q :
  tbl_ok s -> ready s q ->
  exists s' pid, nextproc getms s = Done s' pid /\ (pid = q \/ dist pid q < dist (current s) q).
Proof.
  intros Hok Hq. pose proof (ready_can_run getms s q Hq) as Hr.
  destruct (nextproc_scan getms s Hok) as [(k & p & Hk & _ & _ & Hn & ->)|[Hn _]];
    [|by rewrite Hn in Hr].
  eexists _, _. split; [done|].
  assert (0 <= q < MAX_PROCESSES) as Hqr.
  { destruct Hq as (x & Hx & _). apply aget_bound in Hx. destruct Hok as [Hl _]. lia. }
  pose proof (slot_reach s q Hqr) as Hreach. fold (dist (current s) q) in Hreach.
  destruct (Z.lt_trichotomy k (dist (current s) q + 1)) as [Hlt|[->|Hgt]].
  - right. rewrite dist_slot by lia. lia.
  - by left.
  - rewrite Hreach, Hn in Hr; [done|].
    pose proof (Z.mod_pos_bound (q - current s - 1) MAX_PROCESSES ltac:(done)). unfold dist in *. lia.
Qed.

(** C35. No process starves: in a run in which every turn goes to the process
    [nextproc] chose, a process that stays ready is given a turn within 255
    turns, whatever else happens to the table and the clock in between. *)
Theorem nextproc_fair (st : nat -> kst) (clk : nat -> clock) (pick : nat -> Z) q :
  (forall n, tbl_ok (st n) /\ ready (st n) q) ->
  (forall n, exists s', nextproc (clk n) (st n) = Done s' (pick n) /\ current (st (S n)) = pick n) ->
  exists n, (n < 255)%nat /\ pick n = q.
Proof.
  intros Hst Hrun.
  assert (forall d n, dist (current (st n)) q < Z.of_nat d -> exists m, (m < d)%nat /\ pick (n + m)%nat = q) as H.
  { induction d as [|d IH]; intros n Hd.
    - pose proof (Z.mod_pos_bound (q - current (st n) - 1) MAX_PROCESSES ltac:(done)). unfold dist in Hd. lia.
    - destruct (Hst n) as [Hok Hq]. destruct (Hrun n) as (s' & E & Hc).
      destruct (nextproc_closer (clk n) (st n) q Hok Hq) as (s2 & pid & E2 & H).
      rewrite E in E2. injection E2 as <- <-. destruct H as [H|H].
      + exists 0%nat. rewrite Nat.add_0_r. split; [lia|done].
      + destruct (IH (S n)) as (m & Hm & Hp); [rewrite Hc; lia|].
        exists (S m). rewrite Nat.add_succ_r. split; [lia|done]. }
  destruct (H 255%nat 0%nat) as (m & Hm & Hp); [|by exists m].
  pose proof (Z.mod_pos_bound (q - current (st 0%nat) - 1) MAX_PROCESSES ltac:(done)).
  unfold dist, MAX_PROCESSES in *. lia.
Qed.

(** ** The life of the table *)

(** The fields of an entry that say who lives and whose child it is. *)
Notation key_t := (Z * bool * Z * bool)%type.
Definition key (p : process_state_t) : key_t :=
  (p_pid (life p), is_dead (life p), ppid (life p), used (life p)).
Definition k_pid (k : key_t) : Z := k.1.1.1.
Definition k_dead (k : key_t) : bool := k.1.1.2.
Definition k_ppid (k : key_t) : Z := k.1.2.
Definition k_used (k : key_t) : bool := k.2.

(** The part [g] of every entry, and who runs. *)
Definition view {B} (g : process_state_t -> B) (s : kst) : list B * Z := (map g (proctbl s), current s).
Notation keys := (view key).

Definition live (ks : list key_t) (i : Z) : Prop := exists k, aget ks i = Some k /\ k_used k = true.

(** An entry in use is at its own index, not dead, and its parent is init or in
    use. *)
Definition family (ks : list key_t) : Prop :=
  Z.of_nat (length ks) = MAX_PROCESSES /\
  forall i k, aget ks i = Some k -> k_used k = true ->
    k_pid k = i /\ k_dead k = false /\ (k_ppid k = 0 \/ live ks (k_ppid k)).

Definition proc_inv (s : kst) : Prop := family (keys s).1 /\ live (keys s).1 (keys s).2.

Lemma aget_map {A B} (f : A -> B) l i : aget (map f l) i = f <$> aget l i.
Proof. unfold aget. destruct (0 <=? i); [|done]. by rewrite list_lookup_fmap. Qed.

Lemma proc_eq i s s' p : proc i s = Done s' p -> s' = s /\ aget (proctbl s) i = Some p.
Proof. unfold proc. destruct (aget (proctbl s) i); [by intros [= <- <-]|done]. Qed.

Lemma upd_inv i f s s' a :
  upd i f s = Done s' a ->
  exists p, aget (proctbl s) i = Some p /\ s' = set_tbl (<[Z.to_nat i := f p]> (proctbl s)) s.
Proof.
  unfold upd, proc. intros (s1 & p & E & E2)%bind_inv.
  destruct (aget (proctbl s) i) as [q|]; [|done]. injection E as <- <-. injection E2 as <- _. eauto.
Qed.

Section view.
Context {B : Type} (g : process_state_t -> B).

Lemma map_insert_same t i p q :
  aget t i = Some p -> g q = g p -> map g (<[Z.to_nat i := q]> t) = map g t.
Proof.
  intros [_ Hp]%aget_Some Hk. change (map g) with (fmap (M:=list) g). rewrite list_fmap_insert, Hk.
  apply list_insert_id. by rewrite list_lookup_fmap, Hp.
Qed.

Lemma keeps_upd i f : (forall p, g (f p) = g p) -> keeps (view g) (upd i f).
Proof.
  intros Hf s s' a (p & Hp & ->)%upd_inv. unfold view. cbn [proctbl set_tbl].
  by rewrite (map_insert_same _ i p).
Qed.

Lemma upd_same i f s s' u :
  upd i f s = Done s' u -> (forall p, g (f p) = g p) -> view g s' = view g s.
Proof. intros E Hf. by apply (keeps_upd i f Hf) in E. Qed.

Lemma keeps_proc i : keeps (view g) (proc i).
Proof. intros s s' a. unfold proc. destruct (aget (proctbl s) i); [by intros [= <- _]|done]. Qed.

Lemma keeps_oom : keeps (view g) malloc.
Proof. intros s s' x. unfold malloc. destruct (oom s); by intros [= <- _]. Qed.

Lemma keeps_onmm {A} (m : M mm A) : keeps current_pid m -> keeps (view g) (onmm m).
Proof.
  intros Hm s s' a. unfold onmm. destruct (m (mach s)) as [m' x|] eqn:E; [|done].
  intros [= <- _]. unfold view, current. cbn [proctbl mach set_mach]. by rewrite (Hm _ _ _ E).
Qed.

End view.

(** *** The memory manager leaves [current_pid] alone *)

Lemma keeps_ld p : keeps current_pid (ld p).
Proof. intros s s' a. unfold ld. destruct (phys_at s p); [by intros [= <- _]|done]. Qed.

Lemma keeps_st p x : keeps current_pid (st p x).
Proof. intros s s' a. unfold st. destruct (phys_at s p); [by intros [= <- _]|done]. Qed.

Lemma keeps_ffree x n : keeps current_pid (ffree x n).
Proof. intros s s' a. unfold ffree. destruct (Pmm.pmm_ffree (m_pmm s) x n); [by intros [= <- _]|done]. Qed.

Lemma keeps_for {S B} (v : S -> B) f : (forall i, keeps v (f i)) -> forall n i, keeps v (for_loop n i f).
Proof. intros Hf. induction n as [|n IH]; intros i; cbn; [apply keeps_ret|]. by apply keeps_bind. Qed.

Ltac keeps_mm := repeat (apply keeps_ld || apply keeps_st || apply keeps_ffree || (apply keeps_for; intros ?) || keeps_step).

Lemma keeps_sasp x : keeps current_pid (vmm_sasp x).
Proof. unfold vmm_sasp. keeps_mm. Qed.

Lemma keeps_skasp : keeps current_pid vmm_skasp.
Proof. unfold vmm_skasp. keeps_mm. apply keeps_sasp. Qed.

Lemma keeps_cpml4v : keeps current_pid vmm_cpml4v.
Proof. by intros s s' a [= <- _]. Qed.

Lemma keeps_get_phys x y : keeps current_pid (vmm_get_phys x y).
Proof. unfold vmm_get_phys, ldt. keeps_mm. Qed.

Lemma keeps_dasp_level n t below : (forall x, keeps current_pid (below x)) -> keeps current_pid (dasp_level n t below).
Proof. intros Hb. unfold dasp_level, ldt, stt. repeat (apply Hb || keeps_mm). Qed.

Lemma keeps_dasp x : keeps current_pid (vmm_dasp x).
Proof.
  unfold vmm_dasp. keeps_step; [|keeps_mm].
  repeat (apply keeps_dasp_level; intros ?). apply keeps_ret.
Qed.

Lemma keeps_poke x y : keeps current_pid (poke32 x y).
Proof.
  apply keeps_for. intros i. unfold stb.
  repeat (apply keeps_cpml4v || apply keeps_get_phys || keeps_step).
Qed.

Ltac keeps_keys :=
  repeat (apply keeps_proc || apply keeps_oom || (apply keeps_upd; done) ||
          (apply keeps_onmm; first [apply keeps_sasp | apply keeps_skasp | apply keeps_cpml4v |
                                    apply keeps_poke | apply keeps_dasp]) || keeps_step).

Lemma keeps_wake_waiter pid : keeps keys (wake_waiter pid).
Proof. unfold wake_waiter, poke_code. keeps_keys. Qed.

(** *** Ending a process *)

Definition k_reparent (old : Z) (k : key_t) : key_t :=
  if k_used k && negb (k_dead k) && (k_ppid k =? old) then (k_pid k, k_dead k, 0, k_used k) else k.

Lemma key_reparent old p : key (reparent old p) = k_reparent old (key p).
Proof.
  unfold reparent, k_reparent, key, k_used, k_dead, k_ppid, k_pid. cbn [fst snd].
  by destruct (used (life p) && negb (is_dead (life p)) && (ppid (life p) =? old)).
Qed.

Definition ended (pid : Z) (ks : list key_t) : list key_t :=
  match aget ks pid with
  | Some k => <[Z.to_nat pid := (k_pid k, true, k_ppid k, false)]> (map (k_reparent pid) ks)
  | None => ks
  end.

(** An update of one entry, seen from the keys. *)
Lemma upd_keys i f g s s' u :
  (forall p, key (f p) = g (key p)) -> upd i f s = Done s' u ->
  exists k, aget (keys s).1 i = Some k /\ keys s' = (<[Z.to_nat i := g k]> (keys s).1, (keys s).2).
Proof.
  intros Hg (p & Hp & ->)%upd_inv. exists (key p). unfold view. cbn [proctbl set_tbl fst snd].
  rewrite aget_map, Hp. split; [done|]. change (map key) with (fmap (M:=list) key).
  by rewrite list_fmap_insert, Hg.
Qed.

Lemma endproc_keys pid s s' u :
  0 <= pid < MAX_PROCESSES -> endproc_shared pid s = Done s' u ->
  keys s' = (ended pid (keys s).1, (keys s).2).
Proof.
  intros Hpid. unfold endproc_shared. rewrite wrap_small by (unfold MAX_PROCESSES in Hpid; lia).
  intros (s1 & [] & E1 & E)%bind_inv. apply (upd_same key) in E1; [|done].
  apply bind_inv in E as (s2 & [] & E2 & E).
  eapply (upd_keys pid _ (fun k => (k_pid k, true, k_ppid k, k_used k))) in E2 as (k & Hk & E2); [|done].
  apply bind_inv in E as (s3 & [] & E3 & E). injection E3 as <-.
  apply bind_inv in E as (s4 & [] & E4 & E). apply keeps_wake_waiter in E4.
  apply bind_inv in E as (s5 & [] & E5 & E). apply (upd_same key) in E5; [|done].
  apply bind_inv in E as (s6 & [] & E6 & E). apply (upd_same key) in E6; [|done].
  apply bind_inv in E as (s7 & p & E7 & E). apply (keeps_proc key) in E7.
  apply bind_inv in E as (s8 & [] & E8 & E). apply (keeps_onmm key _ (keeps_dasp _)) in E8.
  eapply (upd_keys pid _ (fun k => (k_pid k, k_dead k, k_ppid k, false))) in E as (k' & Hk' & ->); [|done].
  rewrite E8, E7, E6, E5, E4 in Hk' |- *. rewrite E1 in E2, Hk. unfold ended. rewrite Hk.
  assert (keys (set_tbl (map (reparent pid) (proctbl s2)) s2) = (map (k_reparent pid) (keys s2).1, (keys s2).2)) as E3.
  { unfold view. cbn [proctbl set_tbl fst snd current mach]. f_equal. rewrite !map_map.
    apply map_ext. intros x. apply key_reparent. }
  rewrite E3, E2 in Hk' |- *. cbn [fst snd] in Hk' |- *.
  change (map (k_reparent pid)) with (fmap (M:=list) (k_reparent pid)) in *.
  rewrite list_fmap_insert in Hk' |- *. rewrite list_insert_insert_eq.
  rewrite aget_insert in Hk'.
  2: { rewrite length_fmap. by eapply aget_bound. }
  rewrite decide_True in Hk' by done. injection Hk' as <-.
  unfold k_reparent. cbn [k_used k_dead negb]. by rewrite andb_false_r.
Qed.

Lemma length_ended pid ks : length (ended pid ks) = length ks.
Proof. unfold ended. destruct (aget ks pid); [|done]. by rewrite length_insert, length_map. Qed.

Lemma aget_ended pid ks i :
  0 <= pid < Z.of_nat (length ks) -> i <> pid ->
  aget (ended pid ks) i = k_reparent pid <$> aget ks i.
Proof.
  intros Hp Hne. unfold ended. destruct (aget_is_Some ks pid Hp) as [kp ->].
  rewrite aget_insert by (by rewrite length_map). rewrite decide_False by done. apply aget_map.
Qed.

Lemma aget_ended_self pid ks k :
  aget (ended pid ks) pid = Some k -> 0 <= pid < Z.of_nat (length ks) -> k_used k = false.
Proof.
  intros Hk Hp. unfold ended in Hk. destruct (aget_is_Some ks pid Hp) as [kp Ep].
  rewrite Ep, aget_insert, decide_True in Hk by (done || by rewrite length_map).
  by injection Hk as <-.
Qed.

Lemma reparent_used pid k : k_used (k_reparent pid k) = k_used k.
Proof. unfold k_reparent. by destruct (k_used k && negb (k_dead k) && (k_ppid k =? pid)). Qed.

Lemma live_ended pid ks i :
  0 <= pid < Z.of_nat (length ks) -> live ks i -> i <> pid -> live (ended pid ks) i.
Proof.
  intros Hp (k & Hk & Hu) Hne. exists (k_reparent pid k).
  rewrite aget_ended, Hk, reparent_used by done. done.
Qed.

Lemma family_ended pid ks :
  0 <= pid < Z.of_nat (length ks) -> family ks -> family (ended pid ks).
Proof.
  intros Hp [Hlen Hf]. split; [by rewrite length_ended|]. intros i k Hk Hu.
  destruct (decide (i = pid)) as [->|Hne].
  { apply aget_ended_self in Hk; [congruence|done]. }
  rewrite aget_ended in Hk by done. destruct (aget ks i) as [k0|] eqn:E0; [|done].
  injection Hk as <-. rewrite reparent_used in Hu. destruct (Hf i k0 E0 Hu) as (H1 & H2 & H3).
  unfold k_reparent. rewrite Hu, H2. cbn [negb andb].
  destruct (Z.eqb_spec (k_ppid k0) pid) as [Hnp|Hnp]; cbn; [by auto|].
  split_and!; try done. destruct H3 as [?|H3]; [by left|right]. by apply live_ended.
Qed.

(** Changing an entry that is not in use. *)
Lemma live_insert ks i k k' j :
  aget ks i = Some k -> k_used k = false \/ k_used k' = true -> live ks j -> live (<[Z.to_nat i := k']> ks) j.
Proof.
  intros Hk Hor (kj & Hj & Hu). pose proof (aget_bound _ _ _ Hk) as Hb.
  destruct (decide (i = j)) as [<-|Hne].
  - exists k'. rewrite aget_insert, decide_True by done. split; [done|].
    destruct Hor; [congruence|done].
  - exists kj. by rewrite aget_insert, decide_False by done.
Qed.

Lemma family_insert ks i k k' :
  family ks -> aget ks i = Some k -> k_used k = false ->
  (k_used k' = true -> k_pid k' = i /\ k_dead k' = false /\ (k_ppid k' = 0 \/ live ks (k_ppid k'))) ->
  family (<[Z.to_nat i := k']> ks).
Proof.
  intros [Hlen Hf] Hk Hu Hk'. pose proof (aget_bound _ _ _ Hk) as Hb.
  split; [by rewrite length_insert|]. intros j kj Hj Huj.
  rewrite aget_insert in Hj by done. case_decide as E.
  - injection Hj as <-. subst j. destruct (Hk' Huj) as (? & ? & [?|?]); split_and!; auto.
    right. by eapply live_insert; eauto.
  - destruct (Hf j kj Hj Huj) as (? & ? & [?|?]); split_and!; auto.
    right. by eapply live_insert; eauto.
Qed.

(** *** Switching *)

Lemma proc_inv_ok s : proc_inv s -> tbl_ok s.
Proof.
  intros [[Hlen _] (k & Hk & _)]. unfold view in *. cbn [fst snd] in *.
  pose proof (aget_bound _ _ _ Hk) as Hb. rewrite length_map in Hlen, Hb. split; [done|]. lia.
Qed.

Lemma tbl_ok_of s :
  Z.of_nat (length (keys s).1) = MAX_PROCESSES -> 0 <= (keys s).2 < MAX_PROCESSES -> tbl_ok s.
Proof. unfold view. cbn [fst snd]. rewrite length_map. done. Qed.

Lemma keeps_nextproc {B} (g : process_state_t -> B) getms :
  (forall b p, g (on_life (set_blocked b) p) = g p) -> (forall t p, g (on_life (set_wake t) p) = g p) ->
  keeps (view g) (nextproc getms).
Proof.
  intros Hb Hw. unfold nextproc. keeps_step; [keeps_step|]. generalize (Z.to_nat MAX_PROCESSES) as fuel.
  intros fuel. generalize a at 2. induction fuel as [|fuel IH]; intros pid; cbn [nextproc_loop]; [done|].
  repeat (apply IH || apply keeps_proc || (apply keeps_upd; auto) || keeps_step).
Qed.

Lemma nextproc_live getms s s' pid :
  tbl_ok s -> nextproc getms s = Done s' pid -> 0 <= pid -> live (keys s').1 pid.
Proof.
  intros Hok E Hpid. pose proof (keeps_nextproc key getms ltac:(done) ltac:(done) s s' pid E) as ->.
  destruct (nextproc_scan getms s Hok) as [(k & p & Hk & Hp & Hr & _ & E2)|[_ E2]];
    rewrite E in E2; injection E2 as _ ->; [|done].
  exists (key p). unfold view. cbn [fst]. rewrite aget_map, Hp. split; [done|].
  unfold can_run in Hr. rewrite Hp in Hr. unfold k_used. cbn. by destruct (used (life p)).
Qed.

Lemma tbl_ok_keys s s' : keys s' = keys s -> tbl_ok s -> tbl_ok s'.
Proof.
  unfold view, tbl_ok. intros [= Ht Hc] [Hl Hr]. apply (f_equal length) in Ht. rewrite !length_map in Ht.
  rewrite Ht, Hc. done.
Qed.

Lemma nextproc_wait_live : forall ticks s s' o,
  tbl_ok s -> nextproc_wait ticks s = Done s' o ->
  keys s' = keys s /\ forall pid, o = Some pid -> 0 <= pid /\ live (keys s').1 pid.
Proof.
  induction ticks as [|t ticks IH]; intros s s' o Hok E; cbn [nextproc_wait] in E.
  { by injection E as <- <-. }
  apply bind_inv in E as (s1 & pid & E1 & E). pose proof (keeps_nextproc key t ltac:(done) ltac:(done) _ _ _ E1) as Hk.
  destruct (Z.ltb_spec pid 0).
  - apply IH in E as [Hk2 Ho]; [|by eapply tbl_ok_keys]. split; [congruence|done].
  - injection E as <- <-. split; [done|]. intros p [= <-]. split; [done|]. by eapply nextproc_live.
Qed.

(** After a switch the keys are as before, and the current process is the same or
    one that is in use. *)
Lemma switch_loop_keys ticks x s s' r :
  tbl_ok s -> switch_loop ticks x s = Done s' r ->
  (keys s').1 = (keys s).1 /\
  match r with Idle => (keys s').2 = (keys s).2 | _ => live (keys s').1 (keys s').2 end.
Proof.
  intros Hok. unfold switch_loop.
  intros (s1 & o & E1 & E)%bind_inv. apply nextproc_wait_live in E1 as [Hk Ho]; [|done].
  rewrite <- Hk.
  destruct o as [tgt|]; [|by injection E as <- <-]. destruct (Ho tgt eq_refl) as [Ht Hlive].
  pose proof Hlive as (kt & Hkt & _). apply aget_bound in Hkt.
  rewrite (bind_done get _ s1 s1 s1 eq_refl) in E. apply bind_inv in E as (s2 & p & E2 & E).
  apply (keeps_proc key) in E2 as Hk2. assert (s2 = s1) as ->.
  { unfold proc in E2. destruct (aget (proctbl s1) (current s1)); [by injection E2 as <- _|done]. }
  set (same := (tgt =? current s1) && negb (is_dead (life p))) in E.
  destruct (same && negb (scheduler_execve s1)) eqn:Es.
  { injection E as <- <-. split; [done|]. unfold same in Es. to_prop. unfold view at 2. cbn [snd]. by replace (current s1) with tgt by lia. }
  apply bind_inv in E as (s3 & [] & E3 & E).
  assert (keys s3 = keys s1) as Hk3 by (destruct same; by injection E3 as <-).
  apply bind_inv in E as (s4 & [] & E4 & E). apply (upd_same key) in E4; [|done].
  apply bind_inv in E as (s5 & [] & E5 & E).
  assert (keys s5 = ((keys s4).1, u8 tgt)) as Hk5 by (by injection E5 as <-).
  rewrite bind_modify in E. set (s6 := set_smp _ s5) in E.
  assert (keys s6 = keys s5) as Hk6 by done.
  apply bind_inv in E as (s7 & q & E7 & E). apply (keeps_proc key) in E7.
  apply bind_inv in E as (s8 & [] & E8 & E). apply (keeps_onmm key _ (keeps_sasp _)) in E8.
  injection E as <- <-. rewrite E8, E7, Hk6, Hk5, E4, Hk3. cbn [fst snd]. split; [done|].
  rewrite wrap_small; [done|]. rewrite Hk in Hkt. unfold view in Hkt. cbn [fst] in Hkt. rewrite length_map in Hkt.
  destruct Hok as [Hl _]. unfold MAX_PROCESSES in Hl. lia.
Qed.

Lemma switch_keys ticks x s s' r :
  tbl_ok s -> scheduler_switch ticks x s = Done s' r ->
  (keys s').1 = (keys s).1 /\
  match r with Idle => (keys s').2 = (keys s).2 | _ => live (keys s').1 (keys s').2 end.
Proof. intros Hok. unfold scheduler_switch. rewrite bind_modify. by apply (switch_loop_keys ticks x (set_pending false s)). Qed.

(** *** Saving and restoring registers *)

Definition with_cr3 (x : procctx_t) (c : Z) : procctx_t :=
  mk_ctx (rip x) (rsp x) (rflags x) (rax x) (rbx x) (rcx x) (rdx x) (rsi x) (rdi x) (rbp x)
    (r8 x) (r9 x) (r10 x) (r11 x) (r12 x) (r13 x) (r14 x) (r15 x)
    (cs x) (ss x) (fs x) (gs x) (fsb x) (gsb x) c.

Lemma keeps_nextproc_wait {B} (g : process_state_t -> B) :
  (forall b p, g (on_life (set_blocked b) p) = g p) -> (forall t p, g (on_life (set_wake t) p) = g p) ->
  forall ticks, keeps (view g) (nextproc_wait ticks).
Proof.
  intros Hb Hw. induction ticks as [|t ticks IH]; cbn [nextproc_wait]; [apply keeps_ret|].
  repeat (apply IH || (apply keeps_nextproc; done) || keeps_step).
Qed.

(** The registers of the table after a switch, and the ones handed to the CPU. *)
Lemma switch_loop_ctx ticks x s s' y d f :
  switch_loop ticks x s = Done s' (Switch y d f) ->
  exists xc, aget (view ctx s).1 (current s) = Some xc /\
    (view ctx s').1 = <[Z.to_nat (current s) := with_cr3 x (x_cr3 xc)]> (view ctx s).1 /\
    exists tgt, 0 <= tgt /\ current s' = u8 tgt /\ aget (view ctx s').1 tgt = Some y.
Proof.
  unfold switch_loop. intros (s1 & o & E1 & E)%bind_inv.
  pose proof (keeps_nextproc_wait ctx ltac:(done) ltac:(done) ticks _ _ _ E1) as Hk. rewrite <- Hk.
  assert (current s = current s1) as -> by (by injection Hk as _ ->).
  destruct o as [tgt|]; [|done]. rewrite (bind_done get _ s1 s1 s1 eq_refl) in E.
  apply bind_inv in E as (s2 & p & [-> Hp]%proc_eq & E).
  set (same := (tgt =? current s1) && negb (is_dead (life p))) in E.
  destruct (same && negb (scheduler_execve s1)); [done|].
  apply bind_inv in E as (s3 & [] & E3 & E).
  assert (proctbl s3 = proctbl s1) as Ht3 by (destruct same; by injection E3 as <-).
  apply bind_inv in E as (s4 & [] & E4 & E). apply upd_inv in E4 as (p' & Hp' & ->).
  rewrite Ht3 in Hp'. assert (p' = p) as -> by congruence.
  apply bind_inv in E as (s5 & [] & E5 & E). injection E5 as <-. rewrite bind_modify in E.
  apply bind_inv in E as (s7 & t & [-> Ht]%proc_eq & E).
  apply bind_inv in E as (s8 & [] & E8 & E). pose proof (keeps_onmm ctx _ (keeps_sasp _) _ _ _ E8) as Hk8.
  injection E as <- <- _ _. unfold view in *. cbn [fst snd] in *.
  cbn [proctbl set_smp set_mach set_tbl current mach set_cur current_pid] in *.
  injection Hk8 as Hk8 Hc8. exists (ctx p). rewrite aget_map, Hp. split; [done|]. rewrite Hk8.
  rewrite Ht3 in *. split.
  - change (map ctx) with (fmap (M:=list) ctx). by rewrite list_fmap_insert.
  - exists tgt. split; [by eapply aget_bound|]. split; [done|]. by rewrite aget_map, Ht.
Qed.

(** *** Creating *)

Lemma find_unused_spec t : forall i pid,
  find_unused i t = Some pid ->
  exists p, i <= pid /\ t !! Z.to_nat (pid - i) = Some p /\ used (life p) = false.
Proof.
  induction t as [|q t IH]; intros i pid H; cbn [find_unused] in H; [done|].
  destruct (used (life q)) eqn:E; cbn [negb] in H.
  - destruct (IH _ _ H) as (p & Hle & Hp & Hu). exists p. split_and!; [lia| |done].
    replace (Z.to_nat (pid - i)) with (S (Z.to_nat (pid - (i + 1)))) by lia. done.
  - injection H as <-. exists q. rewrite Z.sub_diag. split_and!; [lia|done|done].
Qed.

(** While the entry [pid] is being filled in: it is not in use yet. *)
Definition filling (ks0 : list key_t) (c pid : Z) (kc : list key_t * Z) : Prop :=
  family kc.1 /\ kc.2 = c /\ (exists k, aget kc.1 pid = Some k /\ k_used k = false) /\
  forall j, live ks0 j -> live kc.1 j.

Lemma filling_upd ks0 c pid f :
  (forall p, used (life (f p)) = used (life p)) ->
  preserves (fun s => filling ks0 c pid (keys s)) (upd pid f).
Proof.
  intros Hf s s' u (Hfam & Hc & (k & Hk & Hu) & Hl) (p & Hp & ->)%upd_inv.
  unfold view in *. cbn [fst snd proctbl set_tbl] in *. rewrite aget_map, Hp in Hk. injection Hk as <-.
  change (map key (<[Z.to_nat pid := f p]> (proctbl s))) with (key <$> <[Z.to_nat pid := f p]> (proctbl s)).
  rewrite list_fmap_insert. change (key <$> proctbl s) with (map key (proctbl s)).
  assert (aget (map key (proctbl s)) pid = Some (key p)) as Hp' by (by rewrite aget_map, Hp).
  unfold k_used, key in Hu. cbn in Hu. unfold filling. cbn [fst snd]. split_and!.
  - eapply family_insert; [done|done|done|]. unfold k_used, key. cbn. rewrite Hf. congruence.
  - done.
  - exists (key (f p)). rewrite aget_insert by (by eapply aget_bound). rewrite decide_True by done.
    split; [done|]. unfold k_used, key. cbn. by rewrite Hf.
  - intros j Hj. eapply live_insert; [exact Hp'|by left|by apply Hl].
Qed.

Lemma filling_keeps {A} ks0 c pid (m : MK A) :
  keeps keys m -> preserves (fun s => filling ks0 c pid (keys s)) m.
Proof. apply (keeps_preserves keys). Qed.

Ltac filling_step :=
  first
    [ apply filling_upd; intros ?; done
    | apply preserves_bind; [|intros ?]
    | apply filling_keeps; solve [keeps_keys]
    | match goal with
      | |- preserves _ (if ?b then _ else _) => destruct b
      | |- preserves _ (match ?x with _ => _ end) => destruct x
      end ].

Lemma filling_copy_fds ks0 c pid pp : preserves (fun s => filling ks0 c pid (keys s)) (copy_fds pid pp).
Proof. unfold copy_fds. repeat filling_step. Qed.

Lemma filling_own ks0 c pid pp fb :
  keeps keys fb ->
  preserves (fun s => filling ks0 c pid (keys s)) (if pid =? 0 then init_own pid else child_own fb pid pp).
Proof.
  intros Hfb. unfold init_own, child_own.
  repeat (apply filling_copy_fds || (apply filling_keeps; exact Hfb) || filling_step).
Qed.

Lemma setumapbase_keeps pid base : keeps keys (setumapbase pid base).
Proof.
  apply keeps_onmm. intros m m' u. destruct (vmm_setumapbase (vmm_umapr m) pid base); [|done].
  by intros [= <- _].
Qed.

(** The loader, [stat] and the frame buffer query change no registers and no life
    cycle of the table. *)
Definition saved (p : process_state_t) : procctx_t * life_t := (ctx p, life p).
Definition env_ok (load : MK loadprog_res_t) (stat : MK (Z * Z)) (fb : MK Z) : Prop :=
  keeps (view saved) load /\ keeps (view saved) stat /\ keeps (view saved) fb.

Lemma keeps_part {A B C} (g : process_state_t -> B) (h : B -> C) (m : MK A) : keeps (view g) m -> keeps (view (h ∘ g)) m.
Proof.
  intros Hm s s' a E. apply Hm in E. unfold view in *. injection E as Et Ec. rewrite Ec. f_equal.
  change (map (h ∘ g)) with (fmap (M:=list) (h ∘ g)). rewrite !list_fmap_compose. f_equal. exact Et.
Qed.

Definition key_of (cl : procctx_t * life_t) : key_t := (p_pid cl.2, is_dead cl.2, ppid cl.2, used cl.2).
Lemma keeps_saved {A} (m : MK A) : keeps (view saved) m -> keeps keys m.
Proof. apply (keeps_part saved key_of). Qed.

Lemma new_process_keys load stat fb pp s s' r :
  env_ok load stat fb -> family (keys s).1 -> pp = 0 \/ live (keys s).1 pp ->
  new_process load stat fb pp s = Done s' r ->
  family (keys s').1 /\ (keys s').2 = (keys s).2 /\ (0 <= r -> live (keys s').1 r) /\
  forall j, live (keys s).1 j -> live (keys s').1 j.
Proof.
  intros (Hload%keeps_saved & Hstat%keeps_saved & Hfb%keeps_saved) Hfam Hpp. unfold new_process.
  rewrite (bind_done get _ s s s eq_refl).
  destruct (find_unused 0 (proctbl s)) as [pid|] eqn:Ef; [|by intros [= <- <-]].
  apply find_unused_spec in Ef as (p0 & Hpid & Hp0 & Hu0). rewrite Z.sub_0_r in Hp0.
  assert (filling (keys s).1 (keys s).2 pid (keys s)) as HI.
  { split_and!; try done. exists (key p0). unfold view. cbn [fst]. rewrite aget_map.
    rewrite (proj2 (aget_Some _ pid p0)) by (split; [lia|done]). done. }
  assert (forall s1, filling (keys s).1 (keys s).2 pid (keys s1) -> forall r, r < 0 ->
            family (keys s1).1 /\ (keys s1).2 = (keys s).2 /\ (0 <= r -> live (keys s1).1 r) /\
            forall j, live (keys s).1 j -> live (keys s1).1 j) as Hfail.
  { intros s1 (? & ? & _ & ?) r0 Hr0. split_and!; try done. lia. }
  intros (s1 & res & E1 & E)%bind_inv. eapply (filling_keeps _ _ _ _ Hload) in E1; [|exact HI].
  destruct (Z.ltb_spec (ld_status res) 0); [injection E as <- <-; by apply Hfail|].
  apply bind_inv in E as (s2 & [ret mode] & E2 & E). eapply (filling_keeps _ _ _ _ Hstat) in E2; [|exact E1].
  destruct (Z.ltb_spec ret 0); [injection E as <- <-; by apply Hfail|].
  apply bind_inv in E as (s3 & r3 & E3 & E). eapply (filling_own _ _ _ _ _ Hfb) in E3; [|exact E2].
  destruct (Z.ltb_spec r3 0); [injection E as <- <-; by apply Hfail|].
  apply bind_inv in E as (s4 & [] & E4 & E). apply (upd_same key) in E4; [|done].
  apply bind_inv in E as (s5 & [] & E5 & E).
  eapply (upd_keys pid _ (fun k => (pid, false, pp, k_used k))) in E5 as (k & Hk & E5); [|done].
  apply bind_inv in E as (s6 & cr & E6 & E).
  assert (keeps keys (inherited pid pp)) as Hinh by (unfold inherited; keeps_keys). apply Hinh in E6.
  apply bind_inv in E as (s7 & [] & E7 & E). apply (upd_same key) in E7; [|done].
  apply bind_inv in E as (s8 & [] & E8 & E).
  eapply (upd_keys pid _ (fun k => (k_pid k, k_dead k, k_ppid k, true))) in E8 as (k8 & Hk8 & E8); [|done].
  apply bind_inv in E as (s9 & [] & E9 & E). apply setumapbase_keeps in E9. injection E as <- <-.
  rewrite E7, E6, E5, E4 in Hk8, E8. rewrite E4 in Hk. cbn [fst snd] in *.
  pose proof (aget_bound _ _ _ Hk) as Hb.
  rewrite aget_insert, decide_True in Hk8 by done. injection Hk8 as <-. cbn in E8.
  rewrite list_insert_insert_eq in E8. rewrite E9, E8. cbn [fst snd].
  destruct E3 as (Hfam3 & Hc3 & (k3 & Hk3 & Hu3) & Hl3).
  assert (k3 = k) as -> by congruence. split_and!.
  - eapply family_insert; [done|done|done|]. intros _. cbn. split_and!; try done.
    destruct Hpp as [->|Hpp]; [by left|right]. by apply Hl3.
  - done.
  - intros _. exists (pid, false, pp, true). by rewrite aget_insert, decide_True by done.
  - intros j Hj. eapply live_insert; [done|by left|by apply Hl3].
Qed.

(** *** Reachable states *)

Definition zero_proc : process_state_t :=
  mk_proc zero_ctx (mk_life 0 false 0 false 0 0 0 0 false) (mk_cred 0 0 0 0 0)
    (mk_own None 0 (mk_fdtab None 0)).

(** The current process runs, or the processor waits in [scheduler_switch] for
    someone to run, with the registers that it will save. *)
Inductive mode := Runs | Halts (x : procctx_t).

Definition after (x : procctx_t) (r : switched) : mode := match r with Idle => Halts x | _ => Runs end.
(** The registers loaded into the processor. *)
Definition loaded (r : switched) : option procctx_t := match r with Switch x _ _ => Some x | _ => None end.

(** One system call or fault of the current process, or one tick; waiting goes on
    with the ticks.  The kernel panics when [scheduler_switch] returns to the end of
    a process. *)
Inductive step : kst -> mode -> option procctx_t -> kst -> mode -> Prop :=
| step_kill a0 s s' r : sys_kill a0 s = Done s' r -> step s Runs None s' Runs
| step_exit ticks a0 s s' r : sys_exit ticks a0 s = Done s' r -> r <> Resume -> step s Runs (loaded r) s' (after zero_ctx r)
| step_fault ticks s s' r : kill_user_process ticks s = Done s' r -> r <> Resume -> step s Runs (loaded r) s' (after zero_ctx r)
| step_wait a0 a1 s s' r : sys_wait a0 a1 s = Done s' r -> step s Runs None s' Runs
| step_sleep t a0 s s' r : sys_sleep t a0 s = Done s' r -> step s Runs None s' Runs
| step_setuid a0 s s' r : sys_setuid a0 s = Done s' r -> step s Runs None s' Runs
| step_setgid a0 s s' r : sys_setgid a0 s = Done s' r -> step s Runs None s' Runs
| step_seteuid a0 s s' r : sys_seteuid a0 s = Done s' r -> step s Runs None s' Runs
| step_setegid a0 s s' r : sys_setegid a0 s = Done s' r -> step s Runs None s' Runs
| step_new load stat fb s s' r :
    env_ok load stat fb -> new_process load stat fb (current s) s = Done s' r -> step s Runs None s' Runs
| step_exec load stat s s' r :
    keeps (view saved) load -> keeps (view saved) stat -> kexecve load stat (current s) s = Done s' r -> step s Runs None s' Runs
| step_tick ticks x s s' r : scheduler_switch ticks x s = Done s' r -> step s Runs (loaded r) s' (after x r)
| step_halted ticks x s s' r : switch_loop ticks x s = Done s' r -> step s (Halts x) (loaded r) s' (after x r).

(** Boot: an empty table, then [/bin/init] becomes the current process. *)
Inductive reachable : kst -> mode -> Prop :=
| reach_boot load stat fb s s' r :
    proctbl s = replicate 255 zero_proc -> env_ok load stat fb ->
    new_process load stat fb 0 s = Done s' r -> 0 <= r ->
    reachable (set_mach (set_cur (u8 r) (mach s')) s') Runs
| reach_step s m o s' m' : reachable s m -> step s m o s' m' -> reachable s' m'.

(** The table is orderly, and when a process runs it is in use. *)
Definition table_inv (s : kst) (m : mode) : Prop :=
  family (keys s).1 /\ 0 <= current s < MAX_PROCESSES /\ (m = Runs -> live (keys s).1 (keys s).2).

Lemma inv_keys s s' : keys s' = keys s -> proc_inv s -> proc_inv s'.
Proof. unfold proc_inv. by intros ->. Qed.

Lemma inv_keeps {A} (m : MK A) : keeps keys m -> preserves proc_inv m.
Proof. intros Hm s s' a Hs E. eapply inv_keys, Hs. by eapply Hm. Qed.

Lemma keeps_set_id bit a b f a0 : (forall n p, key (on_cred (f n) p) = key p) -> keeps keys (set_id bit a b f a0).
Proof. intros Hf. unfold set_id. repeat ((apply keeps_upd; intros ?; apply Hf) || keeps_keys). Qed.

Lemma inv_kill a0 : preserves proc_inv (sys_kill a0).
Proof.
  intros s s' r Hinv. unfold sys_kill. destruct (s64 a0 =? 0); [by intros [= <- _]|].
  rewrite bind_gets. set (pid := s64 a0).
  destruct ((pid <=? 0) || (MAX_PROCESSES <=? pid) || (pid =? current s)) eqn:Eg; [by intros [= <- _]|].
  to_prop. intros (s1 & p & E1 & E)%bind_inv. apply (keeps_proc key) in E1.
  destruct (negb (used (life p)) || is_dead (life p)); [injection E as <- _; by eapply inv_keys|].
  apply bind_inv in E as (s2 & me & E2 & E). apply (keeps_proc key) in E2.
  destruct (_ && _ && _) in E; [injection E as <- _; eapply inv_keys, Hinv; congruence|].
  apply bind_inv in E as (s3 & [] & E3 & E). injection E as <- _.
  apply endproc_keys in E3; [|lia]. rewrite E2, E1 in E3. destruct Hinv as [Hfam Hlive].
  assert (0 <= pid < Z.of_nat (length (keys s).1)) by (destruct Hfam as [-> _]; lia).
  unfold proc_inv. rewrite E3. cbn [fst snd]. split; [by apply family_ended|].
  apply live_ended; [done|done|]. unfold view. cbn [snd]. congruence.
Qed.

Lemma inv_runs s : proc_inv s <-> table_inv s Runs.
Proof.
  split; [|intros (Hf & _ & Hl); split; auto]. intros Hinv. split; [apply Hinv|]. split; [apply (proc_inv_ok s Hinv)|]. intros _. apply Hinv.
Qed.

(** Switching keeps the table orderly, from a current process that has ended, too. *)
Lemma inv_switch_loop ticks x s s' r : family (keys s).1 -> 0 <= current s < MAX_PROCESSES -> switch_loop ticks x s = Done s' r -> table_inv s' (after x r).
Proof.
  intros Hf Hc E. assert (tbl_ok s) as Hok by (apply tbl_ok_of; [apply Hf|done]). apply switch_loop_keys in E as [Hk Hr]; [|done].
  unfold table_inv. rewrite Hk in *. split; [done|]. destruct r; cbn [after].
  - split; [|done]. destruct Hr as (k & Hb%aget_bound & _). destruct Hf as [Hl _]. unfold view in *. cbn [fst snd] in *. lia.
  - split; [|done]. unfold view in Hr. cbn [snd] in Hr. by rewrite Hr.
  - split; [|done]. destruct Hr as (k & Hb%aget_bound & _). destruct Hf as [Hl _]. unfold view in *. cbn [fst snd] in *. lia.
Qed.

Lemma inv_switch ticks x s s' r : family (keys s).1 -> 0 <= current s < MAX_PROCESSES -> scheduler_switch ticks x s = Done s' r -> table_inv s' (after x r).
Proof. intros Hf Hc. unfold scheduler_switch. rewrite bind_modify. by apply (inv_switch_loop ticks x (set_pending false s)). Qed.

Lemma exit_keys c s2 s3 s4 k u v : upd c (on_life (set_dead true)) s2 = Done s3 u -> aget (keys s2).1 c = Some k -> endproc_shared c s3 = Done s4 v -> 0 <= c < MAX_PROCESSES ->
  keys s4 = (ended c (keys s2).1, (keys s2).2).
Proof.
  intros E3 Hk E4 Hc. eapply (upd_keys c _ (fun k => (k_pid k, true, k_ppid k, k_used k))) in E3 as (k' & Hk' & E3); [|done].
  apply endproc_keys in E4; [|done]. rewrite E4, E3. f_equal. cbn [fst]. pose proof (aget_bound _ _ _ Hk') as Hb.
  unfold ended. rewrite Hk', aget_insert, decide_True by done.
  change (map (k_reparent c)) with (fmap (M:=list) (k_reparent c)). by rewrite list_fmap_insert, list_insert_insert_eq.
Qed.

(** An orderly table from which the scheduler switches. *)
Definition switches_from ticks s s' r : Prop :=
  exists s4, family (keys s4).1 /\ 0 <= current s4 < MAX_PROCESSES /\ scheduler_switch ticks zero_ctx s4 = Done s' r /\ current s4 = current s.

Lemma exit_switches ticks a0 s s' r : proc_inv s -> sys_exit ticks a0 s = Done s' r -> switches_from ticks s s' r.
Proof.
  intros Hinv. pose proof (proc_inv_ok s Hinv) as [Hl Hc]. unfold sys_exit. rewrite bind_gets.
  intros (s1 & [] & E1 & E)%bind_inv. apply (keeps_onmm key _ keeps_skasp) in E1.
  apply bind_inv in E as (s2 & [] & E2 & E). apply (upd_same key) in E2; [|done]. rewrite E1 in E2.
  apply bind_inv in E as (s3 & [] & E3 & E). apply bind_inv in E as (s4 & [] & E4 & E).
  destruct Hinv as [Hfam (k & Hk & Hu)]. pose proof (aget_bound _ _ _ Hk) as Hb. rewrite <- E2 in Hk.
  pose proof (exit_keys (current s) s2 s3 s4 k _ _ E3 ltac:(by rewrite E2 in Hk |- *) E4 Hc) as Hk4. rewrite E2 in Hk4. unfold view in Hb. cbn [snd] in Hb.
  assert (current s4 = current s) as Ec by (unfold view in Hk4; by injection Hk4 as _ ->). exists s4. rewrite Ec. split_and!; try done; try lia.
  rewrite Hk4. by apply family_ended.
Qed.

Lemma inv_exit ticks a0 s s' r : proc_inv s -> sys_exit ticks a0 s = Done s' r -> table_inv s' (after zero_ctx r).
Proof. intros Hinv (s4 & Hf & Hc & E & _)%exit_switches; [|done]. by eapply inv_switch. Qed.

Lemma remumap_keeps {B} (g : process_state_t -> B) pid : keeps (view g) (remumap pid).
Proof.
  apply keeps_onmm. intros m m' u. destruct (vmm_remumap (vmm_umapr m) pid); [|done].
  by intros [= <- _].
Qed.

Lemma fault_keys c s s' s1 s2 s3 u1 u2 u3 u4 : 0 <= c < MAX_PROCESSES ->
  upd c (on_life (set_dead true)) s = Done s1 u1 -> reparent_children c s1 = Done s2 u2 -> wake_waiter c s2 = Done s3 u3 ->
  forall s4, keys s4 = keys s3 -> upd c (on_life (set_used false)) s4 = Done s' u4 -> keys s' = (ended c (keys s).1, (keys s).2).
Proof.
  intros Hc E1 E2 E3 s4 E4 E5. eapply (upd_keys c _ (fun k => (k_pid k, true, k_ppid k, k_used k))) in E1 as (k & Hk & E1); [|done].
  injection E2 as <-. apply keeps_wake_waiter in E3. rewrite E3 in E4. pose proof (aget_bound _ _ _ Hk) as Hb.
  eapply (upd_keys c _ (fun k => (k_pid k, k_dead k, k_ppid k, false))) in E5 as (k' & Hk' & ->); [|done]. rewrite E4 in Hk' |- *.
  assert (keys (set_tbl (map (reparent c) (proctbl s1)) s1) = (map (k_reparent c) (keys s1).1, (keys s1).2)) as E2.
  { unfold view. cbn [proctbl set_tbl fst snd current mach]. f_equal. rewrite !map_map. apply map_ext. intros x. apply key_reparent. }
  rewrite E2, E1 in Hk' |- *. cbn [fst snd] in Hk' |- *. change (map (k_reparent c)) with (fmap (M:=list) (k_reparent c)) in *.
  rewrite list_fmap_insert in Hk' |- *. rewrite list_insert_insert_eq. rewrite aget_insert, decide_True in Hk' by (done || by rewrite length_fmap). injection Hk' as <-.
  assert (k_reparent c (k_pid k, true, k_ppid k, k_used k) = (k_pid k, true, k_ppid k, k_used k)) as -> by (unfold k_reparent; cbn; by rewrite andb_false_r).
  unfold ended. by rewrite Hk.
Qed.

Lemma fault_switches ticks s s' r : proc_inv s -> kill_user_process ticks s = Done s' r -> switches_from ticks s s' r.
Proof.
  intros Hinv. pose proof (proc_inv_ok s Hinv) as [Hl Hc]. unfold kill_user_process.
  intros (s1 & t & E1 & E)%bind_inv. apply (keeps_onmm key _ keeps_cpml4v) in E1.
  apply bind_inv in E as (s2 & [] & E2 & E). apply (keeps_onmm key _ keeps_skasp) in E2. rewrite E1 in E2.
  rewrite bind_gets in E. assert (current s2 = current s) as Ec by (by injection E2 as _ ->). rewrite Ec in E.
  apply bind_inv in E as (s3 & [] & E3 & E). apply bind_inv in E as (s4 & [] & E4 & E). apply bind_inv in E as (s5 & [] & E5 & E).
  destruct (current s =? 0); [done|]. apply bind_inv in E as (s6 & [] & E6 & E). apply (remumap_keeps key) in E6.
  apply bind_inv in E as (s7 & [] & E7 & E). apply (keeps_onmm key _ (keeps_dasp _)) in E7. rewrite E6 in E7.
  apply bind_inv in E as (s8 & [] & E8 & E). pose proof (fault_keys _ _ _ _ _ _ _ _ _ _ Hc E3 E4 E5 s7 E7 E8) as Hk. rewrite E2 in Hk.
  destruct Hinv as [Hfam (k & Hb%aget_bound & _)]. unfold view in Hb. cbn [snd] in Hb.
  assert (current s8 = current s) as Ec8 by (unfold view in Hk; by injection Hk as _ ->). exists s8. rewrite Ec8. split_and!; try done; try lia.
  rewrite Hk. by apply family_ended.
Qed.

Lemma inv_fault ticks s s' r : proc_inv s -> kill_user_process ticks s = Done s' r -> table_inv s' (after zero_ctx r).
Proof. intros Hinv (s4 & Hf & Hc & E & _)%fault_switches; [|done]. by eapply inv_switch. Qed.

(** In an orderly table no entry is both in use and dead. *)
Lemma no_zombie s i p :
  proc_inv s -> aget (proctbl s) i = Some p -> used (life p) = true -> is_dead (life p) = false.
Proof.
  intros [[_ Hf] _] Hp Hu. destruct (Hf i (key p)) as (_ & Hd & _); [|done|done].
  unfold view. cbn [fst]. by rewrite aget_map, Hp.
Qed.

Lemma dead_child_spec c t : forall i j,
  dead_child i c t = Some j -> exists p, i <= j /\ t !! Z.to_nat (j - i) = Some p /\ is_dead (life p) = true.
Proof.
  induction t as [|q t IH]; intros i j H; cbn [dead_child] in H; [done|].
  destruct (negb (i =? c) && (ppid (life q) =? c) && is_dead (life q)) eqn:E.
  - injection H as <-. to_prop. exists q. rewrite Z.sub_diag. split_and!; [lia|done|done].
  - destruct (IH _ _ H) as (p & Hle & Hp & Hd). exists p. split_and!; [lia| |done].
    replace (Z.to_nat (j - i)) with (S (Z.to_nat (j - (i + 1)))) by lia. done.
Qed.

Lemma keeps_poke_code ptr v : keeps keys (poke_code ptr v).
Proof. unfold poke_code. keeps_keys. Qed.

Lemma inv_wait a0 a1 : preserves proc_inv (sys_wait a0 a1).
Proof.
  intros s s' r Hinv. unfold sys_wait. rewrite bind_gets. set (pid := s64 a0).
  destruct (Z.leb_spec 0 pid).
  - destruct (MAX_PROCESSES <=? pid); [by intros [= <- _]|].
    intros (s1 & p & [-> Hp]%proc_eq & E)%bind_inv.
    destruct (used (life p)) eqn:Hu; [|by injection E as <- _]. cbn [negb orb] in E.
    destruct (pid =? current s); [by injection E as <- _|].
    rewrite (no_zombie s pid p Hinv Hp Hu) in E. cbn [negb] in E.
    eapply inv_keeps; [|exact Hinv|exact E]. repeat (apply keeps_poke_code || keeps_keys).
  - rewrite (bind_done get _ s s s eq_refl). destruct (dead_child 0 (current s) (proctbl s)) as [i|] eqn:Ed.
    + apply dead_child_spec in Ed as (p & Hi & Hp & Hd). rewrite Z.sub_0_r in Hp.
      assert (aget (proctbl s) i = Some p) as Hp' by (by apply aget_Some).
      intros (s1 & [] & E1 & E)%bind_inv. rewrite (upd_at s i _ p Hp') in E1. injection E1 as <-.
      set (s1 := set_tbl _ s) in E.
      assert (keys s1 = keys s) as Hk1.
      { unfold s1, view. cbn [proctbl set_tbl]. rewrite (map_insert_same key _ i p); [done|done|].
        unfold key. cbn. destruct (used (life p)) eqn:Hu; [|done].
        by rewrite (no_zombie s i p Hinv Hp' Hu) in Hd. }
      eapply inv_keeps; [|exact (inv_keys s s1 Hk1 Hinv)|exact E].
      repeat (apply keeps_poke_code || keeps_keys).
    + intros E. eapply inv_keeps; [|exact Hinv|exact E]. keeps_keys.
Qed.

Lemma inv_exec load stat :
  keeps keys load -> keeps keys stat -> forall s s' r, proc_inv s ->
  kexecve load stat (current s) s = Done s' r -> proc_inv s'.
Proof.
  intros Hload Hstat s s' r Hinv. unfold kexecve. set (c := current s).
  intros (s1 & res & E1 & E)%bind_inv. apply Hload in E1.
  destruct (ld_status res <? 0); [injection E as <- _; by eapply inv_keys|].
  apply bind_inv in E as (s2 & [ret mode] & E2 & E). apply Hstat in E2.
  destruct (ret <? 0); [injection E as <- _; eapply inv_keys, Hinv; congruence|].
  apply bind_inv in E as (s3 & [] & E3 & E). apply (upd_same key) in E3; [|done].
  apply bind_inv in E as (s4 & [] & E4 & E). rewrite E1 in E2.
  assert (proc_inv s3) as Hinv3 by (eapply inv_keys, Hinv; congruence).
  assert (keys s4 = keys s3) as Hk4.
  { apply upd_inv in E4 as (p & Hp & ->). unfold view. cbn [proctbl set_tbl].
    rewrite (map_insert_same key _ c p); [done|done|]. unfold key. cbn.
    destruct Hinv3 as [[_ Hf] (k & Hk & Hu)]. unfold view in *. cbn [fst snd] in *.
    assert (current s3 = c) as Hc by (injection E3 as _ ->; injection E2 as _ ->; done).
    rewrite Hc, aget_map, Hp in Hk. injection Hk as <-.
    destruct (Hf c (key p)) as (_ & Hd & _); [by rewrite aget_map, Hp|done|].
    unfold k_dead in Hd. cbn in Hd. by rewrite Hd. }
  apply bind_inv in E as (s5 & [] & E5 & E). apply (upd_same key) in E5; [|done].
  apply bind_inv in E as (s6 & p & E6 & E). apply (keeps_proc key) in E6.
  apply bind_inv in E as (s7 & [] & E7 & E). apply setumapbase_keeps in E7. injection E as <- _.
  eapply inv_keys, Hinv3. congruence.
Qed.

Lemma inv_step s m o s' m' : table_inv s m -> step s m o s' m' -> table_inv s' m'.
Proof.
  intros Hinv Hs. destruct Hs as [a0 s s' r E|ticks a0 s s' r E _|ticks s s' r E _|a0 a1 s s' r E|t a0 s s' r E|
    a0 s s' r E|a0 s s' r E|a0 s s' r E|a0 s s' r E|load stat fb s s' r Henv E|
    load stat s s' r Hl Hst E|ticks x s s' r E|ticks x s s' r E]; try apply inv_runs in Hinv.
  - by eapply inv_runs, inv_kill.
  - by eapply inv_exit.
  - by eapply inv_fault.
  - by eapply inv_runs, inv_wait.
  - eapply inv_runs, (inv_keeps (sys_sleep t a0)); [unfold sys_sleep; keeps_keys|done|done].
  - by eapply inv_runs, (inv_keeps (sys_setuid a0)), E; [apply keeps_set_id|].
  - by eapply inv_runs, (inv_keeps (sys_setgid a0)), E; [apply keeps_set_id|].
  - by eapply inv_runs, (inv_keeps (sys_seteuid a0)), E; [apply keeps_set_id|].
  - by eapply inv_runs, (inv_keeps (sys_setegid a0)), E; [apply keeps_set_id|].
  - apply inv_runs. destruct Hinv as [Hfam Hlive].
    apply new_process_keys in E as (? & Hc & _ & Hl); [|done|done|by right].
    split; [done|]. rewrite Hc. by apply Hl.
  - by eapply inv_runs, inv_exec; [apply keeps_saved, Hl|apply keeps_saved, Hst|..].
  - pose proof (proc_inv_ok s Hinv) as [_ Hc]. by eapply inv_switch, E; [apply Hinv|].
  - destruct Hinv as (Hf & Hc & _). by eapply inv_switch_loop, E.
Qed.

Lemma zero_family : family (map key (replicate 255 zero_proc)).
Proof.
  split; [done|]. intros i k Hk Hu. rewrite aget_map in Hk.
  destruct (aget (replicate 255 zero_proc) i) as [p|] eqn:E; [|done]. injection Hk as <-.
  apply aget_Some in E as [_ E]. by apply lookup_replicate in E as [-> _].
Qed.

Lemma reachable_inv s m : reachable s m -> table_inv s m.
Proof.
  induction 1 as [load stat fb s s' r Hz Henv E Hr|s m o s' m' _ IH Hs]; [|by eapply inv_step].
  apply new_process_keys in E as (Hfam & _ & Hl & _); [|done| |by left].
  2: { unfold view. cbn [fst]. rewrite Hz. apply zero_family. }
  pose proof (Hl Hr) as Hlive. apply inv_runs. unfold proc_inv.
  change (keys (set_mach (set_cur (u8 r) (mach s')) s')) with ((keys s').1, u8 r). cbn [fst snd].
  split; [done|]. rewrite wrap_small; [done|]. destruct Hlive as (k & Hk & _).
  apply aget_bound in Hk. destruct Hfam as [Hlen _]. unfold MAX_PROCESSES in Hlen. lia.
Qed.

(** C34. In every state that system calls, faults and ticks can reach, an entry in use
    sits at the index of its pid, is not dead, and has init or another process in use
    as its parent: orphans always go to init.  While a process runs, the current
    process is in use; while the processor waits for one to run, as it does after the
    last runnable process has ended, it need not be. *)
Theorem process_table_invariant s m : reachable s m -> table_inv s m.
Proof. apply reachable_inv. Qed.

(** Waiting for a given process never collects its exit status: in a
    reachable state [sys_wait] with a pid either fails with [-ENOPROC] and
    changes nothing or parks the caller.  The branch that would reap a dead
    child cannot be taken, because ending a process frees its entry at once; so
    the status of a child that ended before its parent waited is lost. *)
Theorem wait_never_reaps s a0 a1 s' r :
  reachable s Runs -> 0 <= s64 a0 -> sys_wait a0 a1 s = Done s' r ->
  (r = - ENOPROC /\ s' = s) \/
  (r = s64 a0 /\ exists p, aget (proctbl s') (current s') = Some p /\
     is_blocked (life p) = true /\ wait_pid (life p) = u8 (s64 a0)).
Proof.
  intros Hinv%reachable_inv%inv_runs Hpid. unfold sys_wait. rewrite bind_gets. set (pid := s64 a0) in *.
  rewrite (proj2 (Z.leb_le 0 pid)) by done.
  destruct (MAX_PROCESSES <=? pid); [intros [= <- <-]; by left|].
  intros (s1 & p & [-> Hp]%proc_eq & E)%bind_inv.
  destruct (used (life p)) eqn:Hu; [|injection E as <- <-; by left]. cbn [negb orb] in E.
  destruct (pid =? current s); [injection E as <- <-; by left|].
  rewrite (no_zombie s pid p Hinv Hp Hu) in E. cbn [negb] in E. right.
  apply bind_inv in E as (s2 & [] & E2 & E). apply upd_inv in E2 as (me & Hme & ->).
  rewrite bind_modify in E. apply bind_inv in E as (s3 & [] & E3 & E). injection E as <- <-.
  split; [done|]. unfold poke_code in E3.
  assert (proctbl s3 = <[Z.to_nat (current s) := on_life (park (u8 pid) a1) me]> (proctbl s) /\
          current s3 = current s) as [-> ->].
  { destruct (a1 =? 0); [by injection E3 as <-|]. unfold onmm in E3.
    destruct (poke32 a1 _ _) as [m' x|] eqn:Ep; [|done]. injection E3 as <-.
    apply keeps_poke in Ep. done. }
  eexists. rewrite aget_insert by (by eapply aget_bound). by rewrite decide_True.
Qed.

(** *** Registers of processes that do not run *)

(** What switching out leaves of a process, and whether it is blocked. *)
Definition core (p : process_state_t) : procctx_t * bool := (ctx p, is_blocked (life p)).
Definition core_of (cl : procctx_t * life_t) : procctx_t * bool := (cl.1, is_blocked cl.2).
Lemma keeps_core {A} (m : MK A) : keeps (view saved) m -> keeps (view core) m.
Proof. apply (keeps_part saved core_of). Qed.

(** Entry [q] has the registers [c0] but for [rax], which is that of [c0] or, when the
    process was blocked ([b0]), the pid of a child that has ended. *)
Definition kept (q : Z) (c0 : procctx_t) (b0 : bool) (s : kst) : Prop :=
  exists v b, aget (view core s).1 q = Some (set_rax v c0, b) /\ (v = rax c0 \/ b0 = true /\ 0 <= v < MAX_PROCESSES) /\ (b = true -> b0 = true).

Section kept.
Context (q : Z) (c0 : procctx_t) (b0 : bool).
Notation kept := (kept q c0 b0).

Lemma kept_keeps {A} (m : MK A) : keeps (view core) m -> preserves kept m.
Proof. apply (keeps_preserves (view core) (fun w => exists v b, aget w.1 q = Some (set_rax v c0, b) /\ _)). Qed.

Lemma kept_tbl s s' : proctbl s' = proctbl s -> kept s -> kept s'.
Proof. unfold kept, view. cbn [fst]. by intros ->. Qed.

Lemma core_insert s i f p : aget (proctbl s) i = Some p ->
  aget (view core (set_tbl (<[Z.to_nat i := f p]> (proctbl s)) s)).1 q = if decide (i = q) then Some (core (f p)) else aget (view core s).1 q.
Proof.
  intros Hp. unfold view. cbn [fst proctbl set_tbl]. rewrite !aget_map, aget_insert by (by eapply aget_bound). by case_decide.
Qed.

Lemma kept_other i f : i <> q -> preserves kept (upd i f).
Proof. intros Hne s s' u (v & b & Hq & Hv) (p & Hp & ->)%upd_inv. exists v, b. by rewrite core_insert, decide_False. Qed.

(** Changes that block nobody. *)
Lemma kept_life i f : (forall p, ctx (f p) = ctx p /\ (is_blocked (life (f p)) = true -> is_blocked (life p) = true)) -> preserves kept (upd i f).
Proof.
  intros Hf s s' u (v & b & Hq & Hv & Hb) (p & Hp & ->)%upd_inv. destruct (decide (i = q)) as [->|Hne].
  - unfold view in Hq. cbn [fst] in Hq. rewrite aget_map, Hp in Hq. injection Hq as Ec Eb. destruct (Hf p) as [F1 F2].
    exists v, (is_blocked (life (f p))). rewrite core_insert, decide_True by done. unfold core. rewrite F1, Ec. split_and!; [done|done|]. intros Hx. apply Hb. rewrite <- Eb. by apply F2.
  - exists v, b. by rewrite core_insert, decide_False.
Qed.

Ltac kept_step :=
  first
    [ apply kept_other; done
    | apply kept_life; intros ?; cbn; by split
    | apply preserves_bind; [|intros ?]
    | apply kept_keeps; solve [keeps_keys]
    | match goal with
      | |- preserves _ (if ?b then _ else _) => destruct b
      | |- preserves _ (match ?x with _ => _ end) => destruct x
      end ].

Lemma kept_wake_waiter pid : 0 <= pid < MAX_PROCESSES -> preserves kept (wake_waiter pid).
Proof.
  intros Hpid s s' u Hk. unfold wake_waiter. intros (s1 & child & [-> _]%proc_eq & E)%bind_inv. apply bind_inv in E as (s2 & parent & [-> Hpar]%proc_eq & E).
  destruct (is_blocked (life parent)) eqn:Eb; [|injection E as <- _; done]. cbn [andb] in E. destruct (_ || _) in E; [|injection E as <- _; done].
  apply bind_inv in E as (s3 & [] & E3 & E). apply bind_inv in E as (s4 & [] & E4 & E). set (pp := ppid (life child)) in *.
  assert (kept s4) as Hk4.
  { destruct (decide (pp = q)) as [Epp|Hne]; [|eapply kept_other, E4; [done|]; by eapply kept_other, E3].
    destruct Hk as (v & b & Hq & Hv & Hb). rewrite Epp in *. unfold view in Hq. cbn [fst] in Hq. rewrite aget_map, Hpar in Hq. injection Hq as Ec Eb'.
    rewrite Eb in Eb'. subst b. specialize (Hb eq_refl). apply upd_inv in E3 as (p & Hp & ->). rewrite Hpar in Hp. injection Hp as <-. apply upd_inv in E4 as (p & Hp & ->).
    cbn [proctbl set_tbl] in Hp. rewrite aget_insert, decide_True in Hp by (done || by eapply aget_bound). injection Hp as <-.
    exists pid, false. rewrite core_insert, decide_True by (done || cbn [proctbl set_tbl]; rewrite aget_insert, decide_True by (done || by eapply aget_bound); done).
    split_and!; [|by right|done]. unfold core. cbn. by rewrite Ec. }
  eapply kept_keeps, E; [|exact Hk4]. unfold poke_code. keeps_keys.
Qed.

Lemma keeps_reparent old : keeps (view core) (reparent_children old).
Proof.
  intros s s' u E. injection E as <- _. unfold view. cbn [proctbl set_tbl current mach]. f_equal. rewrite map_map. apply map_ext. intros p. unfold core, reparent.
  by destruct (_ && _ && _).
Qed.

Lemma kept_endproc pid : 0 <= pid < MAX_PROCESSES -> pid <> q -> preserves kept (endproc_shared pid).
Proof.
  intros Hpid Hne. unfold endproc_shared. rewrite wrap_small by (unfold MAX_PROCESSES in Hpid; lia).
  repeat ((apply kept_wake_waiter; done) || (apply kept_keeps, keeps_reparent) || kept_step).
Qed.

Lemma kept_nextproc_wait ticks : preserves kept (nextproc_wait ticks).
Proof.
  induction ticks as [|t ticks IH]; cbn [nextproc_wait]; [by kept_step|]. apply preserves_bind; [|intros ?; split_if; [apply IH|by kept_step]].
  unfold nextproc. apply preserves_bind; [by kept_step|]. intros st. generalize (Z.to_nat MAX_PROCESSES) as fuel. intros fuel. generalize st at 2.
  induction fuel as [|fuel IH']; intros pid; cbn [nextproc_loop]; [done|]. repeat (apply IH' || kept_step).
Qed.

Lemma kept_switch_loop ticks x s s' r : current s <> q -> kept s -> switch_loop ticks x s = Done s' r -> kept s'.
Proof.
  intros Hc Hk. unfold switch_loop. intros (s1 & o & E1 & E)%bind_inv. assert (current s1 = current s) as Ec.
  { pose proof (keeps_nextproc_wait ctx ltac:(done) ltac:(done) ticks _ _ _ E1) as Hv. by injection Hv as _ ->. }
  apply kept_nextproc_wait in E1; [|done]. destruct o as [tgt|]; [|by injection E as <- _]. rewrite (bind_done get _ s1 s1 s1 eq_refl) in E. rewrite <- Ec in Hc.
  apply bind_inv in E as (s2 & p & [-> _]%proc_eq & E). destruct (_ && _) in E; [by injection E as <- _|]. apply bind_inv in E as (s3 & [] & E3 & E).
  assert (kept s3) as Hk3 by (eapply kept_tbl, E1; destruct (_ && _) in E3; by injection E3 as <-).
  apply bind_inv in E as (s4 & [] & E4 & E). eapply kept_other in E4; [|done|done]. apply bind_inv in E as (s5 & [] & E5 & E). injection E5 as <-. rewrite bind_modify in E.
  apply bind_inv in E as (s7 & t & [-> _]%proc_eq & E). apply bind_inv in E as (s8 & [] & E8 & E). injection E as <- _.
  eapply (kept_keeps _ (keeps_onmm core _ (keeps_sasp _))), E8. by eapply kept_tbl, E4.
Qed.

Lemma kept_switch ticks x s s' r : current s <> q -> kept s -> scheduler_switch ticks x s = Done s' r -> kept s'.
Proof. intros Hc Hk. unfold scheduler_switch. rewrite bind_modify. by apply (kept_switch_loop ticks x (set_pending false s)). Qed.

Ltac kept_run E := match type of E with ?m ?s = Done ?s' ?a => let HP := fresh in assert (preserves kept m) as HP; [|by eapply HP, E] end.

Lemma kept_poke ptr v : preserves kept (poke_code ptr v).
Proof. unfold poke_code. repeat kept_step. Qed.

Lemma kept_wait a0 a1 s s' r : current s <> q -> kept s -> sys_wait a0 a1 s = Done s' r -> kept s'.
Proof.
  intros Hc Hk. unfold sys_wait. rewrite bind_gets. intros E. kept_run E. repeat (apply kept_poke || kept_step).
Qed.

Lemma kept_sleep t a0 s s' r : current s <> q -> kept s -> sys_sleep t a0 s = Done s' r -> kept s'.
Proof.
  intros Hc Hk. unfold sys_sleep. destruct (a0 =? 0); [|rewrite bind_gets]; intros E; kept_run E; repeat kept_step.
Qed.

Lemma kept_set_id bit a b f a0 : preserves kept (set_id bit a b f a0).
Proof. unfold set_id. repeat kept_step. Qed.

Lemma kept_umap pid base : preserves kept (setumapbase pid base).
Proof. apply kept_keeps, keeps_onmm. intros m m' u. destruct (vmm_setumapbase (vmm_umapr m) pid base); [|done]. by intros [= <- _]. Qed.

Lemma kept_new load stat fb pp s s' r : env_ok load stat fb -> live (keys s).1 q -> kept s -> new_process load stat fb pp s = Done s' r -> kept s'.
Proof.
  intros (Hl%keeps_core & Hs%keeps_core & Hf%keeps_core) Hq Hk. unfold new_process. rewrite (bind_done get _ s s s eq_refl).
  destruct (find_unused 0 (proctbl s)) as [pid|] eqn:Ef; [|by intros [= <- _]]. assert (pid <> q) as Hne.
  { intros ->. apply find_unused_spec in Ef as (p0 & Hpid & Hp0 & Hu0). rewrite Z.sub_0_r in Hp0. destruct Hq as (k & Hkq & Hu). unfold view in Hkq. cbn [fst] in Hkq.
    rewrite aget_map, (proj2 (aget_Some _ q p0)) in Hkq by (split; [lia|done]). injection Hkq as <-. unfold k_used in Hu. cbn in Hu. congruence. }
  intros E. kept_run E. unfold init_own, child_own, copy_fds, inherited.
  repeat (apply kept_umap || (apply kept_keeps; first [exact Hl|exact Hs|exact Hf]) || kept_step).
Qed.

Lemma kept_exec load stat s s' r : keeps (view saved) load -> keeps (view saved) stat -> current s <> q -> kept s -> kexecve load stat (current s) s = Done s' r -> kept s'.
Proof.
  intros Hl%keeps_core Hs%keeps_core Hc Hk E. unfold kexecve in E. kept_run E. repeat (apply kept_umap || (apply kept_keeps; first [exact Hl|exact Hs]) || kept_step).
Qed.

Lemma kept_kill a0 s s' r : family (keys s).1 -> live (keys s').1 q -> kept s -> sys_kill a0 s = Done s' r -> kept s'.
Proof.
  intros Hfam Hq Hk. unfold sys_kill. destruct (s64 a0 =? 0); [by intros [= <- _]|]. rewrite bind_gets. set (pid := s64 a0).
  destruct ((pid <=? 0) || (MAX_PROCESSES <=? pid) || (pid =? current s)) eqn:Eg; [by intros [= <- _]|]. to_prop.
  intros (s1 & p & [-> _]%proc_eq & E)%bind_inv. destruct (negb (used (life p)) || is_dead (life p)); [by injection E as <- _|].
  apply bind_inv in E as (s2 & me & [-> _]%proc_eq & E). destruct (_ && _ && _) in E; [by injection E as <- _|].
  apply bind_inv in E as (s3 & [] & E3 & E). injection E as <- _. destruct (decide (pid = q)) as [->|Hne]; [|by eapply kept_endproc, E3; [lia| |]].
  exfalso. apply endproc_keys in E3; [|lia]. destruct Hq as (k & Hkq & Hu). rewrite E3 in Hkq. cbn [fst] in Hkq.
  apply aget_ended_self in Hkq; [congruence|]. destruct Hfam as [-> _]. lia.
Qed.

Lemma kept_exit ticks a0 s s' r : proc_inv s -> current s <> q -> kept s -> sys_exit ticks a0 s = Done s' r -> kept s'.
Proof.
  intros Hinv Hc Hk. pose proof (proc_inv_ok s Hinv) as [_ Hcr]. unfold sys_exit. rewrite bind_gets.
  intros (s1 & [] & E1 & E)%bind_inv. pose proof (keeps_onmm key _ keeps_skasp _ _ _ E1) as K1. apply (kept_keeps _ (keeps_onmm core _ keeps_skasp)) in E1; [|done].
  apply bind_inv in E as (s2 & [] & E2 & E). pose proof (upd_same key _ _ _ _ _ E2 ltac:(done)) as K2. apply kept_other in E2; [|done|done].
  apply bind_inv in E as (s3 & [] & E3 & E). pose proof E3 as K3. eapply (upd_keys (current s) _ (fun k => (k_pid k, true, k_ppid k, k_used k))) in K3 as (k & _ & K3); [|done].
  apply kept_other in E3; [|done|done]. apply bind_inv in E as (s4 & [] & E4 & E). pose proof (endproc_keys _ _ _ _ Hcr E4) as K4. apply kept_endproc in E4; [|done|done|done].
  eapply kept_switch, E; [|done]. unfold view in *. injection K4 as _ ->. injection K3 as _ ->. injection K2 as _ ->. by injection K1 as _ ->.
Qed.

Lemma kept_fault ticks s s' r : proc_inv s -> current s <> q -> kept s -> kill_user_process ticks s = Done s' r -> kept s'.
Proof.
  intros Hinv Hc Hk. pose proof (proc_inv_ok s Hinv) as [_ Hcr]. unfold kill_user_process.
  intros (s1 & t & E1 & E)%bind_inv. pose proof (keeps_onmm key _ keeps_cpml4v _ _ _ E1) as K1. apply (kept_keeps _ (keeps_onmm core _ keeps_cpml4v)) in E1; [|done].
  apply bind_inv in E as (s2 & [] & E2 & E). pose proof (keeps_onmm key _ keeps_skasp _ _ _ E2) as K2. apply (kept_keeps _ (keeps_onmm core _ keeps_skasp)) in E2; [|done]. rewrite K1 in K2.
  rewrite bind_gets in E. assert (current s2 = current s) as Ec by (by injection K2 as _ ->). rewrite Ec in E.
  apply bind_inv in E as (s3 & [] & E3 & E). pose proof E3 as K3. apply kept_other in E3; [|done|done]. apply bind_inv in E as (s4 & [] & E4 & E). pose proof E4 as K4. apply (kept_keeps _ (keeps_reparent _)) in E4; [|done].
  apply bind_inv in E as (s5 & [] & E5 & E). pose proof E5 as K5. apply kept_wake_waiter in E5; [|done|done].
  destruct (current s =? 0); [done|]. apply bind_inv in E as (s6 & [] & E6 & E). pose proof (remumap_keeps key _ _ _ _ E6) as K6. apply (kept_keeps _ (remumap_keeps core _)) in E6; [|done].
  apply bind_inv in E as (s7 & [] & E7 & E). pose proof (keeps_onmm key _ (keeps_dasp _) _ _ _ E7) as K7. apply (kept_keeps _ (keeps_onmm core _ (keeps_dasp _))) in E7; [|done]. rewrite K6 in K7.
  apply bind_inv in E as (s8 & [] & E8 & E). pose proof (fault_keys _ _ _ _ _ _ _ _ _ _ Hcr K3 K4 K5 s7 K7 E8) as K8. rewrite K2 in K8. apply kept_other in E8; [|done|done].
  eapply kept_switch, E; [|done]. unfold view in K8. by injection K8 as _ ->.
Qed.

(** A step of another process. *)
Lemma kept_step_other s m o s' m' : table_inv s m -> current s <> q -> live (keys s).1 q -> live (keys s').1 q -> kept s -> step s m o s' m' -> kept s'.
Proof.
  intros Hinv Hc Hq Hq' Hk Hs. destruct Hs as [a0 s s' r E|ticks a0 s s' r E _|ticks s s' r E _|a0 a1 s s' r E|t a0 s s' r E|
    a0 s s' r E|a0 s s' r E|a0 s s' r E|a0 s s' r E|load stat fb s s' r Henv E|
    load stat s s' r Hl Hst E|ticks x s s' r E|ticks x s s' r E]; try apply inv_runs in Hinv.
  - eapply kept_kill; [apply Hinv|exact Hq'|exact Hk|exact E].
  - by eapply kept_exit.
  - by eapply kept_fault.
  - by eapply kept_wait.
  - by eapply kept_sleep.
  - eapply kept_set_id; [exact Hk|exact E].
  - eapply kept_set_id; [exact Hk|exact E].
  - eapply kept_set_id; [exact Hk|exact E].
  - eapply kept_set_id; [exact Hk|exact E].
  - eapply kept_new; [exact Henv|exact Hq|exact Hk|exact E].
  - eapply kept_exec; [exact Hl|exact Hst|exact Hc|exact Hk|exact E].
  - eapply kept_switch; [exact Hc|exact Hk|exact E].
  - eapply kept_switch_loop; [exact Hc|exact Hk|exact E].
Qed.

End kept.

(** The registers loaded are those of the entry that is current then. *)
Lemma switch_loop_loads ticks x s s' r y : tbl_ok s -> switch_loop ticks x s = Done s' r -> loaded r = Some y -> aget (view ctx s').1 (current s') = Some y.
Proof.
  intros [Hl _] E Hy. destruct r as [| |y' d f]; try done. injection Hy as ->. destruct (switch_loop_ctx _ _ _ _ _ _ _ E) as (xc & Hxc & Ht & tgt & Htgt & Hcur & Ha).
  rewrite Hcur. pose proof (aget_bound _ _ _ Ha) as Hb. rewrite Ht, length_insert in Hb. unfold view in Hb. cbn [fst] in Hb. rewrite length_map in Hb. unfold MAX_PROCESSES in Hl. by rewrite wrap_small by lia.
Qed.

Lemma switch_loads ticks x s s' r y : tbl_ok s -> scheduler_switch ticks x s = Done s' r -> loaded r = Some y -> aget (view ctx s').1 (current s') = Some y.
Proof. intros Hok. unfold scheduler_switch. rewrite bind_modify. by apply (switch_loop_loads ticks x (set_pending false s)). Qed.

Lemma step_loads s m y s' m' : table_inv s m -> step s m (Some y) s' m' -> m' = Runs /\ aget (view ctx s').1 (current s') = Some y.
Proof.
  intros Hinv Hs. assert (forall x r, loaded r = Some y -> after x r = Runs) as Ha by (by intros x []).
  inversion Hs as [|ticks a0 ? ? r E Hn|ticks ? ? r E Hn| | | | | | | | |ticks x ? ? r E|ticks x ? ? r E]; subst; match goal with H : loaded _ = Some _ |- _ => rename H into Hld end; rewrite Ha by done; (split; [done|]); rewrite ?Hld.
  - apply inv_runs in Hinv. destruct (exit_switches _ _ _ _ _ Hinv E) as (s4 & Hf & Hc & E4 & _). eapply switch_loads; [apply tbl_ok_of; [apply Hf|done]|exact E4|done].
  - apply inv_runs in Hinv. destruct (fault_switches _ _ _ _ Hinv E) as (s4 & Hf & Hc & E4 & _). eapply switch_loads; [apply tbl_ok_of; [apply Hf|done]|exact E4|done].
  - destruct Hinv as (Hf & Hc & _). eapply switch_loads; [apply tbl_ok_of; [apply Hf|done]|exact E|done].
  - destruct Hinv as (Hf & Hc & _). eapply switch_loop_loads; [apply tbl_ok_of; [apply Hf|done]|exact E|done].
Qed.

(** Steps of other processes, throughout which process [q] stays in use. *)
Inductive away (q : Z) (s0 : kst) (m0 : mode) : kst -> mode -> Prop :=
| away_here : away q s0 m0 s0 m0
| away_step s m o s' m' : away q s0 m0 s m -> current s <> q -> step s m o s' m' -> live (keys s').1 q -> away q s0 m0 s' m'.

Lemma away_kept q c0 b0 s0 m0 s m : reachable s0 m0 -> live (keys s0).1 q -> kept q c0 b0 s0 -> away q s0 m0 s m -> reachable s m /\ live (keys s).1 q /\ kept q c0 b0 s.
Proof.
  intros Hr Hl Hk. induction 1 as [|s m o s' m' _ (IHr & IHl & IHk) Hc Hs Hl']; [done|]. split_and!; [by eapply reach_step|done|].
  eapply kept_step_other; [by apply reachable_inv|exact Hc|exact IHl|exact Hl'|exact IHk|exact Hs].
Qed.

Lemma set_rax_same c : set_rax (rax c) c = c.
Proof. by destruct c. Qed.

(** C36. Registers survive preemption: a process that is switched out with registers
    [x] gets them back, with its page table, at the next switch to it, whatever other
    processes do in between and whether that switch comes from a tick, an exit or a
    fault, as long as the process is not ended.  Only [rax] may differ, and only if
    the process was blocked when it was switched out; it is then a pid, which the end
    of a child stored there. *)
Theorem switch_roundtrip ticks x s s1 y d f p e1 s2 m2 y' s3 m3 : let q := current s in
  reachable s Runs -> aget (proctbl s) q = Some p -> scheduler_switch ticks x s = Done s1 (Switch y d f) -> aget (proctbl s1) q = Some e1 -> current s1 <> q ->
  away q s1 Runs s2 m2 -> current s2 <> q -> step s2 m2 (Some y') s3 m3 -> current s3 = q ->
  exists v, y' = set_rax v (with_cr3 x (x_cr3 (ctx p))) /\ (v = rax x \/ is_blocked (life e1) = true /\ 0 <= v < MAX_PROCESSES).
Proof.
  intros q Hr Hp E He1 Hc1 Haw Hc2 Hs Hc3. set (c0 := with_cr3 x (x_cr3 (ctx p))).
  assert (reachable s1 Runs) as Hr1 by exact (reach_step _ _ _ _ _ Hr (step_tick _ _ _ _ _ E)).
  destruct (reachable_inv _ _ Hr) as (Hf & Hc & Hl). specialize (Hl eq_refl).
  assert (live (keys s1).1 q) as Hl1 by (apply switch_keys in E as [-> _]; [done|apply tbl_ok_of; [apply Hf|done]]).
  assert (kept q c0 (is_blocked (life e1)) s1) as Hk1.
  { assert (ctx e1 = c0) as Ec.
    { unfold scheduler_switch in E. rewrite bind_modify in E. apply switch_loop_ctx in E as (xc & Hxc & Ht & _). unfold view in *. cbn [fst] in *.
      change (current (set_pending false s)) with q in *. change (proctbl (set_pending false s)) with (proctbl s) in *. rewrite aget_map, Hp in Hxc. injection Hxc as <-.
      pose proof (aget_bound _ _ _ Hp) as Hb. apply (f_equal (fun t => aget t q)) in Ht. rewrite aget_insert, decide_True in Ht by (done || by rewrite length_map).
      rewrite aget_map, He1 in Ht. by injection Ht as ->. }
    exists (rax c0), (is_blocked (life e1)). rewrite set_rax_same. split_and!; [|by left|done]. unfold view. cbn [fst]. rewrite aget_map, He1. unfold core. cbn. by rewrite Ec. }
  destruct (away_kept _ _ _ _ _ _ _ Hr1 Hl1 Hk1 Haw) as (Hr2 & Hl2 & Hk2). destruct (step_loads _ _ _ _ _ (reachable_inv _ _ Hr2) Hs) as [-> Hy].
  destruct (reachable_inv _ _ (reach_step _ _ _ _ _ Hr2 Hs)) as (_ & _ & Hl3). specialize (Hl3 eq_refl). unfold view in Hl3 at 2. cbn [snd] in Hl3. rewrite Hc3 in Hl3, Hy.
  pose proof (kept_step_other q _ _ _ _ _ _ _ (reachable_inv _ _ Hr2) Hc2 Hl2 Hl3 Hk2 Hs) as (v & b & Hq & Hv & _). exists v. unfold view in Hq, Hy. cbn [fst] in Hq, Hy.
  rewrite aget_map in Hq. rewrite aget_map in Hy. destruct (aget (proctbl s3) q) as [e3|]; [|done]. injection Hq as Eq _. injection Hy as <-. done.
Qed.

(** ** Credentials *)

Inductive idcall := SetUid (n : Z) | SetGid (n : Z) | SetEuid (n : Z) | SetEgid (n : Z).

Definition run_id (c : idcall) : MK Z :=
  match c with
  | SetUid n => sys_setuid n
  | SetGid n => sys_setgid n
  | SetEuid n => sys_seteuid n
  | SetEgid n => sys_setegid n
  end.

Fixpoint run_ids (calls : list idcall) : MK unit :=
  match calls with
  | [] => mret tt
  | c :: rest => _ ← run_id c; run_ids rest
  end.

(** [c]'s user and group ids are among those of [c0], and so are its powers. *)
Definition confined (c0 c : cred_t) : Prop :=
  (uid c = uid c0 \/ uid c = euid c0) /\ (euid c = uid c0 \/ euid c = euid c0) /\
  (gid c = gid c0 \/ gid c = egid c0) /\ (egid c = gid c0 \/ egid c = egid c0) /\
  perms c = perms c0.

Definition unprivileged (c : cred_t) : Prop :=
  Z.land (perms c) PROC_SUID = 0 /\ Z.land (perms c) PROC_SGID = 0 /\ uid c <> 0 /\ euid c <> 0.

Lemma set_id_confined bit a b f n c0 s p :
  aget (proctbl s) (current s) = Some p -> unprivileged c0 -> confined c0 (cred p) ->
  Z.land (perms c0) bit = 0 ->
  (forall m c, confined c0 c -> m = a c \/ m = b c -> confined c0 (f m c)) ->
  exists s' r p', set_id bit a b f n s = Done s' r /\ current s' = current s /\
    proctbl s' = <[Z.to_nat (current s) := p']> (proctbl s) /\ confined c0 (cred p') /\
    ctx p' = ctx p /\ life p' = life p /\ own p' = own p.
Proof.
  intros Hp (Hs & Hg & Hu & He) Hc Hbit Hf. unfold set_id. rewrite bind_gets.
  rewrite (bind_done _ _ _ _ _ (proc_at s _ p Hp)).
  pose proof Hc as (_ & Heu & _ & _ & ->). rewrite Hbit. cbn [Z.eqb negb orb].
  rewrite (proj2 (Z.eqb_neq (euid (cred p)) 0)) by (destruct Heu as [->| ->]; done). cbn [orb].
  destruct ((u32 n =? a (cred p)) || (u32 n =? b (cred p))) eqn:E.
  - rewrite (bind_done _ _ _ _ _ (upd_at s _ _ p Hp)). eexists _, _, _. split_and!; try done.
    apply Hf; [done|]. apply orb_true_iff in E as [E%Z.eqb_eq|E%Z.eqb_eq]; auto.
  - exists s, (- EACCESS), p. split_and!; try done.
    symmetry. apply list_insert_id. by apply aget_Some in Hp as [_ ?].
Qed.

Lemma run_id_confined c c0 s p :
  aget (proctbl s) (current s) = Some p -> unprivileged c0 -> confined c0 (cred p) ->
  exists s' r p', run_id c s = Done s' r /\ current s' = current s /\
    proctbl s' = <[Z.to_nat (current s) := p']> (proctbl s) /\ confined c0 (cred p') /\
    ctx p' = ctx p /\ life p' = life p /\ own p' = own p.
Proof.
  intros Hp Hun Hc. pose proof Hun as (Hs & Hg & _ & _).
  destruct c; eapply set_id_confined; try done;
    intros m x (H1 & H2 & H3 & H4 & H5) [-> | ->]; unfold confined; cbn; auto 6.
Qed.

Lemma run_ids_confined c0 : unprivileged c0 -> forall calls s p,
  aget (proctbl s) (current s) = Some p -> confined c0 (cred p) ->
  exists s' p', run_ids calls s = Done s' tt /\ current s' = current s /\
    proctbl s' = <[Z.to_nat (current s) := p']> (proctbl s) /\ confined c0 (cred p') /\
    ctx p' = ctx p /\ life p' = life p /\ own p' = own p.
Proof.
  intros Hun. induction calls as [|c calls IH]; intros s p Hp Hc; cbn [run_ids].
  - exists s, p. split_and!; try done. symmetry. apply list_insert_id. by apply aget_Some in Hp as [_ ?].
  - destruct (run_id_confined c c0 s p Hp Hun Hc) as (s1 & r & p1 & E & Hcur & Ht & Hc1 & H1 & H2 & H3).
    rewrite (bind_done _ _ _ _ _ E).
    destruct (IH s1 p1) as (s2 & p2 & -> & Hcur2 & Ht2 & Hc2 & G1 & G2 & G3); [|done|].
    { rewrite Hcur, Ht, aget_insert by (by eapply aget_bound). by rewrite decide_True. }
    exists s2, p2. split_and!; try congruence.
    rewrite Ht2, Hcur, Ht. apply list_insert_insert_eq.
Qed.

(** C37. Identity calls cannot raise privileges: a process whose real and
    effective user are not root and whose program is neither setuid nor setgid
    keeps, through any sequence of [setuid], [setgid], [seteuid] and [setegid]
    calls, user and group ids among the two it started with; the calls always
    return, and they change nothing else, of it or of any other process. *)
Theorem ids_confined calls s p :
  aget (proctbl s) (current s) = Some p -> unprivileged (cred p) ->
  exists s' p', run_ids calls s = Done s' tt /\ current s' = current s /\
    proctbl s' = <[Z.to_nat (current s) := p']> (proctbl s) /\ confined (cred p) (cred p') /\
    ctx p' = ctx p /\ life p' = life p /\ own p' = own p.
Proof. intros Hp Hun. apply run_ids_confined; [done|done|]. unfold confined. auto 6. Qed.

(** ** Concrete runs *)

Definition mach0 : mm :=
  mk_mm pm0 ∅ 65536 HHDM_START 0 (HHDM_START + 4096) 4096 [] None (replicate 255 no_range) 0.

Definition k0 : kst := mk_kst (replicate 255 zero_proc) mach0 None 0 false false [].

(** A loader that finds its program at a fixed place, with the given page table. *)
Definition loads (root : Z) : MK loadprog_res_t :=
  mret (mk_loaded 0 root 0x400000 (USER_END - 64) 0x500000).
Definition stat0 : MK (Z * Z) := mret (0, 0x81ED).
Definition fb0 : MK Z := mret 3.

Lemma env0_ok root : env_ok (loads root) stat0 fb0.
Proof. split_and!; apply keeps_ret. Qed.

(** init runs; init has started process 1, which runs as user 5. *)
Definition k1 : kst :=
  let s := state_of (new_process (loads (HHDM_START + 4096)) stat0 fb0 0 k0) k0 in
  set_mach (set_cur 0 (mach s)) s.
Definition k2 : kst := state_of (new_process (loads (HHDM_START + 8192)) stat0 fb0 0 k1) k1.
Definition k3 : kst :=
  state_of ((_ ← scheduler_switch [None] zero_ctx; _ ← sys_setuid 5; sys_seteuid 5) k2) k2.

Lemma k1_reachable : reachable k1 Runs.
Proof.
  apply (reach_boot (loads (HHDM_START + 4096)) stat0 fb0 k0 _ 0); [done|apply env0_ok|by vm_compute|done].
Qed.

Lemma k2_reachable : reachable k2 Runs.
Proof.
  apply (reach_step k1 Runs None); [apply k1_reachable|].
  apply (step_new (loads (HHDM_START + 8192)) stat0 fb0 _ _ 1); [apply env0_ok|by vm_compute].
Qed.

Lemma k2_ok : tbl_ok k2.
Proof. split; by vm_compute. Qed.

(** init, the only process, sleeps and the processor waits for someone to run. *)
Definition k_asleep : kst := state_of ((_ ← sys_sleep (Some 0) 1000; scheduler_switch [Some (fun _ => 5)] zero_ctx) k1) k1.

Lemma process_table_invariant_witness : table_inv k2 Runs /\ table_inv k_asleep (Halts zero_ctx) /\ result_of (scheduler_switch [Some (fun _ => 5)] zero_ctx (state_of (sys_sleep (Some 0) 1000 k1) k1)) = Some Idle.
Proof.
  split; [apply process_table_invariant; exact k2_reachable|]. split; [|by vm_compute]. apply process_table_invariant.
  destruct (result_Done (sys_sleep (Some 0) 1000 k1) 0) as [s1 E1]; [by vm_compute|].
  destruct (result_Done (scheduler_switch [Some (fun _ => 5)] zero_ctx s1) Idle) as [s2 E2]; [replace s1 with (state_of (sys_sleep (Some 0) 1000 k1) k1) by (by rewrite E1); by vm_compute|].
  replace k_asleep with s2 by (unfold k_asleep; rewrite (bind_done _ _ _ _ _ E1), E2; done).
  apply (reach_step s1 Runs (loaded Idle)); [|exact (step_tick _ zero_ctx _ _ Idle E2)].
  apply (reach_step k1 Runs None); [exact k1_reachable|]. exact (step_sleep _ _ _ _ _ E1).
Defined.

Lemma wait_never_reaps_witness :
  exists s', sys_wait 1 0 k2 = Done s' 1 /\
    exists p, aget (proctbl s') (current s') = Some p /\ is_blocked (life p) = true.
Proof.
  destruct (sys_wait 1 0 k2) as [s' r|] eqn:E.
  - assert (r = 1) as -> by (apply (result_of_Done _ _ _ 1 E); by vm_compute).
    exists s'. split; [reflexivity|].
    destruct (wait_never_reaps k2 1 0 s' 1 k2_reachable) as [[H _]|(_ & p & Hp & Hb & _)].
    + vm_compute. discriminate.
    + exact E.
    + discriminate H.
    + exists p. split; [exact Hp|exact Hb].
  - exfalso. assert (result_of (sys_wait 1 0 k2) = Some 1) as H by (by vm_compute).
    rewrite E in H. discriminate H.
Defined.

Lemma nextproc_round_robin_witness :
  tbl_ok k2 /\ exists k, 0 < k <= MAX_PROCESSES /\ can_run None k2 (slot k2 k) = true.
Proof.
  split; [exact k2_ok|].
  destruct (nextproc_round_robin None k2 k2_ok) as [(k & p & Hk & _ & Hr & _)|[Hn _]].
  - exists k. split; [exact Hk|exact Hr].
  - exfalso. specialize (Hn 1). vm_compute in Hn. discriminate Hn.
Defined.

(** Turns alternate between 0 and 1. *)
Definition turn (n : nat) : kst := set_mach (set_cur (if Nat.even n then 0 else 1) (mach k2)) k2.

Lemma nextproc_fair_witness : exists n, (n < 255)%nat /\ (if Nat.even n then 1 else 0) = 1.
Proof.
  apply (nextproc_fair turn (fun _ => None) (fun n => if Nat.even n then 1 else 0) 1).
  - intros n. unfold turn. destruct (Nat.even n); (split; [split; by vm_compute|]);
      eexists; split_and!; by vm_compute.
  - intros n. unfold turn. rewrite Nat.even_succ, <- Nat.negb_even.
    destruct (Nat.even n); eexists; split; by vm_compute.
Defined.

Definition regs (v : Z) : procctx_t := with_cr3 (set_rax v zero_ctx) 77.

(** init is preempted with 42 in [rax], process 1 runs and goes to sleep, then init
    runs again. *)
Definition k_out : kst := state_of (scheduler_switch [None] (regs 42) k2) k2.

Definition proc0 : process_state_t := default zero_proc (aget (proctbl k2) 0).
Definition entry0 : process_state_t := default zero_proc (aget (proctbl k_out) 0).

Lemma switch_roundtrip_witness :
  exists s2 s3 y d f, sys_sleep (Some 0) 9 k_out = Done s2 0 /\ scheduler_switch [None] (regs 7) s2 = Done s3 (Switch y d f) /\ y = with_cr3 (regs 42) (x_cr3 (ctx proc0)).
Proof.
  set (prog root := fresh_ctx (mk_loaded 0 root 0x400000 (USER_END - 64) 0x500000)).
  destruct (result_Done (scheduler_switch [None] (regs 42) k2) (Switch (prog (HHDM_START + 8192)) (Some [47]) 3)) as [s1 E1]; [by vm_compute|].
  assert (s1 = k_out) as -> by (unfold k_out; by rewrite E1).
  destruct (result_Done (sys_sleep (Some 0) 9 k_out) 0) as [s2 E2]; [by vm_compute|].
  assert (s2 = state_of (sys_sleep (Some 0) 9 k_out) k_out) as Es2 by (by rewrite E2).
  destruct (result_Done (scheduler_switch [None] (regs 7) s2) (Switch (with_cr3 (regs 42) (HHDM_START + 4096)) (Some [47]) 3)) as [s3 E3]; [rewrite Es2; by vm_compute|].
  eexists s2, s3, _, _, _. split; [exact E2|]. split; [exact E3|].
  destruct (switch_roundtrip [None] (regs 42) k2 k_out _ _ _ proc0 entry0 s2 Runs (with_cr3 (regs 42) (HHDM_START + 4096)) s3 Runs k2_reachable ltac:(by vm_compute) E1 ltac:(by vm_compute)) as (v & -> & Hv).
  - vm_compute. discriminate.
  - eapply (away_step _ _ _ k_out Runs None); [constructor|vm_compute; discriminate|exact (step_sleep _ _ _ _ _ E2)|]. rewrite Es2. eexists. split; by vm_compute.
  - rewrite Es2. vm_compute. discriminate.
  - exact (step_tick [None] (regs 7) s2 s3 _ E3).
  - pose proof (f_equal (fun o => current (state_of o k2)) E3) as H. cbn [state_of] in H. rewrite <- H, Es2. by vm_compute.
  - destruct Hv as [->|[Hb _]]; [reflexivity|]. vm_compute in Hb. discriminate Hb.
Defined.

(** The process of [k3] is user 5; it cannot become root. *)
Definition proc5 : process_state_t := default zero_proc (aget (proctbl k3) 1).

Lemma ids_confined_witness :
  exists s' p', run_ids [SetUid 0; SetEuid 0; SetGid 0] k3 = Done s' tt /\
    aget (proctbl s') 1 = Some p' /\ (uid (cred p') = 5 \/ uid (cred p') = 5).
Proof.
  destruct (ids_confined [SetUid 0; SetEuid 0; SetGid 0] k3 proc5) as (s' & p' & E & _ & Ht & Hc & _).
  - by vm_compute.
  - split_and!; vm_compute; congruence.
  - exists s', p'. split; [exact E|]. split; [|exact (proj1 Hc)]. rewrite Ht. by vm_compute.
Defined.

(** A sleeping process is woken by the death of a child: a process that never
    waited has [wait_pid] at [WAIT_ANY], and [wake_waiter] does not tell sleeping
    from waiting.  Below init sleeps for a million milliseconds, process 1 runs
    and exits, and at time 0 init is running again with the pid of its child as
    the result of [sleep].  Its wake-up time stays set, so a later [wait] for
    another child ends at that time with the child still alive. *)
Theorem sleep_cut_short :
  let now t : clock := Some (fun _ => t) in
  let slept := state_of ((_ ← sys_sleep (Some 0) 1000000; scheduler_switch [now 0] zero_ctx) k2) k2 in
  let back := state_of (sys_exit [now 0] 3 slept) slept in
  let again := state_of ((_ ← new_process (loads (HHDM_START + 12288)) stat0 fb0 0;
                          _ ← sys_wait 1 0; scheduler_switch [now 1] zero_ctx) back) back in
  current slept = 1 /\ current back = 0 /\
  (rax ∘ ctx <$> aget (proctbl back) 0) = Some 1 /\
  (wake_ms ∘ life <$> aget (proctbl back) 0) = Some 1000000 /\
  current again = 1 /\ result_of (nextproc (now 999999) again) = Some 1 /\
  result_of (nextproc (now 1000000) again) = Some 0.
Proof. split_and!; by vm_compute. Qed.

End Proc.
