(* ===== verification/Newproc.v ===== *)
(** The calls that start programs ([src/usr/syscalls/ssc_proc/create.c]): path,
    arguments and environment are copied from the caller's space to fresh frames,
    because loading the program switches address spaces.

    Model: user memory is read through the active page tables, unchecked, as the code
    does; the copies are written through the direct map.  The loader and [stat] are
    arguments and get the kernel's copies. *)
From S2P Require Import Prelude CString Pmm Region PageTable PageRange Spaces UserMem Loader VfsOps Fd Proc.

Module Newproc.
Import PageTable PageRange Spaces UserMem.

(** ** Access to memory *)

(** A copy to the kernel pointer [va]. *)
Definition hput (va : Z) (bs : list Z) : M mm unit := fun s =>
  let a := u64 (va - hhdm_offset s) in
  if a + Z.of_nat (length bs) <=? m_size s then Done (set_mem (pputs (m_mem s) a bs) s) tt else Fault.

(** [v[i]] in an array of user pointers. *)
Definition uptr (v i : Z) : M mm Z := bs ← vread (u64 (v + 8 * i)) 8; mret (of_le bs).

(** ** [copy_newprocargs] *)

Record copy_npa_res := mk_npa { npa_stat : Z; phys : Z; npgs : Z; kpath : Z; kargv : Z; kenvp : Z }.
Definition COPY_NPA_BAD (errno : Z) : copy_npa_res := mk_npa errno 0 0 0 0 0.

Section calls.
(** Bounds on the length of strings and of the environment in user memory. *)
Context (smax emax : nat).

(** The two counting loops; [bounded]: the first, which ends after [n] entries. *)
Fixpoint count_ptrs (n : nat) (bounded : bool) (v i totalsz : Z) : M mm (Z * Z) :=
  match n with
  | O => if bounded then mret (i, totalsz) else fault
  | S n' =>
      a ← uptr v i;
      if a =? 0 then mret (i, totalsz) else
      w ← Loader.vstring smax a;
      count_ptrs n' bounded v (i + 1) (u64 (totalsz + 8 + Z.of_nat (length w) + 1))
  end.

(** The two copying loops. *)
Fixpoint copy_ptrs (n : nat) (v i kv p : Z) : M mm Z :=
  match n with
  | O => mret p
  | S n' =>
      a ← uptr v i;
      w ← Loader.vstring smax a;
      let len := Z.of_nat (length w) + 1 in
      _ ← hput (u64 (kv + 8 * i)) (le 8 p);
      a ← uptr v i;
      bs ← vread a (Z.to_nat len);
      _ ← hput p bs;
      copy_ptrs n' v (i + 1) kv (u64 (p + len))
  end.

(** What follows the allocation. *)
Definition copy_out (path argv envp nargs nenv phys npgs : Z) : M mm copy_npa_res :=
  let virt := u64 (phys + HHDM_START) in
  let kargv := virt in
  let kenvp := u64 (virt + 8 * (nargs + 1)) in
  let p := u64 (kenvp + 8 * (nenv + 1)) in
  w ← Loader.vstring smax path;
  let pathlen := Z.of_nat (length w) + 1 in
  let kpath := p in
  bs ← vread path (Z.to_nat pathlen);
  _ ← hput p bs;
  p ← copy_ptrs (Z.to_nat nargs) argv 0 kargv (u64 (p + pathlen));
  _ ← hput (u64 (kargv + 8 * nargs)) (le 8 0);
  _ ← copy_ptrs (Z.to_nat nenv) envp 0 kenvp p;
  _ ← hput (u64 (kenvp + 8 * nenv)) (le 8 0);
  mret (mk_npa 0 phys npgs kpath kargv kenvp).

Definition copy_newprocargs (path argv envp : Z) : M mm copy_npa_res :=
  '(nargs, totalsz) ← count_ptrs Loader.ARGMAX true argv 0 8;
  '(nenv, totalsz) ← count_ptrs emax false envp 0 totalsz;
  w ← Loader.vstring smax path;
  let totalsz := u64 (totalsz + Z.of_nat (length w) + 1) in
  let npgs := u64 (totalsz + 4095) / 4096 in
  phys ← falloc npgs;
  if phys =? 0 then mret (COPY_NPA_BAD (- ENOMEM)) else
  copy_out path argv envp nargs nenv phys npgs.

(** ** The system calls *)

Section programs.
Context (load : Z -> Z -> Z -> M Proc.kst Proc.loadprog_res_t) (stat : Z -> M Proc.kst (Z * Z)) (get_currfb : M Proc.kst Z).

Definition sys_newproc (a0 a1 a2 : Z) : M Proc.kst Z :=
  uasp ← Proc.onmm vmm_cpml4v;
  if (a0 =? 0) || (a1 =? 0) || (a2 =? 0) then mret (- EINVAL) else
  res ← Proc.onmm (copy_newprocargs a0 a1 a2);
  if npa_stat res <? 0 then mret (npa_stat res) else
  _ ← Proc.onmm vmm_skasp;
  pid ← gets Proc.current;
  ret ← Proc.new_process (load (kpath res) (kargv res) (kenvp res)) (stat (kpath res)) get_currfb pid;
  _ ← Proc.onmm (vmm_sasp uasp);
  _ ← Proc.onmm (ffree (phys res) (npgs res));
  mret ret.

(** A switch does not come back here. *)
Definition sys_execve (ticks : list Proc.clock) (a0 a1 a2 : Z) : M Proc.kst (Z + Proc.switched) :=
  uasp ← Proc.onmm vmm_cpml4v;
  if (a0 =? 0) || (a1 =? 0) || (a2 =? 0) then mret (inl (- EINVAL)) else
  res ← Proc.onmm (copy_newprocargs a0 a1 a2);
  if npa_stat res <? 0 then mret (inl (npa_stat res)) else
  _ ← Proc.onmm vmm_skasp;
  pid ← gets Proc.current;
  ret ← Proc.kexecve (load (kpath res) (kargv res) (kenvp res)) (stat (kpath res)) pid;
  _ ← Proc.onmm (vmm_sasp uasp);
  _ ← Proc.onmm (ffree (phys res) (npgs res));
  if ret <? 0 then mret (inl ret) else
  pid ← gets Proc.current;
  p ← Proc.proc pid;
  _ ← modify (Proc.set_execve true);
  r ← Proc.scheduler_switch ticks (Proc.proc2ctx p);
  mret (match r with Proc.Resume => inl 0 | _ => inr r end).

End programs.

End calls.

(** ** What user memory shows *)

Definition ustring (s : mm) (c va : Z) (w : list Z) : Prop :=
  ensured s c false va (Z.of_nat (S (length w))) /\ CString.str_ok w /\ ubytes c s va (S (length w)) = w ++ [0].

Definition uvec (s : mm) (c v : Z) (ps : list Z) : Prop :=
  ensured s c false v (Z.of_nat (8 * S (length ps))) /\ Forall (fun p => 0 < p < 2 ^ 64) ps /\
  ubytes c s v (8 * S (length ps)) = flat_map (le 8) (ps ++ [0]).

(** A NULL-terminated array of strings. *)
Definition ustrings (s : mm) (c v : Z) (ws : list (list Z)) : Prop := exists ps, uvec s c v ps /\ Forall2 (ustring s c) ps ws.

(** What the loops read: the entries of [v] from [i] on. *)
Fixpoint entries (smax : nat) (st : mm) (v i : Z) (ps : list Z) (ws : list (list Z)) : Prop :=
  match ps, ws with
  | [], [] => True
  | p :: ps', w :: ws' =>
      uptr v i st = Done st p /\ p <> 0 /\ Loader.vstring smax p st = Done st w /\
      vread p (S (length w)) st = Done st (w ++ [0]) /\ entries smax st v (i + 1) ps' ws'
  | _, _ => False
  end.

Lemma entries_take smax st v n : forall ps ws i, entries smax st v i ps ws -> entries smax st v i (take n ps) (take n ws).
Proof.
  induction n as [|n IH]; intros [|p ps] [|w ws] i H; try done. destruct H as (? & ? & ? & ? & H). cbn. split_and!; auto.
Qed.

Section reading.
Context (smax : nat) (T : gmap Z (list Z)) (c : Z).

Lemma ubytes_app s n : forall va m, ubytes c s va (n + m) = ubytes c s va n ++ ubytes c s (va + Z.of_nat n) m.
Proof.
  unfold ubytes. induction n as [|n IH]; intros va m; [cbn; by rewrite Z.add_0_r|].
  cbn [Nat.add]. rewrite !uaddrs_cons. cbn [map app]. rewrite IH. by replace (va + 1 + Z.of_nat n) with (va + Z.of_nat (S n)) by lia.
Qed.

Lemma ensured_part s w va n va' n' : ensured s c w va n -> va <= va' -> va' + n' <= va + n -> 0 <= n' -> ensured s c w va' n'.
Proof.
  intros (? & ? & He) ? ? ?. split_and!; [lia|lia|]. intros i Hi. replace (va' + i) with (va + (va' - va + i)) by lia. apply He. lia.
Qed.

Lemma vstring_us w : forall fuel s va, user_space s T c -> ustring s c va w -> (length w < fuel)%nat -> Loader.vstring fuel va s = Done s w.
Proof.
  induction w as [|b w IH]; intros [|fuel] s va Hu (He & Hok & Hb) Hf; try (cbn in Hf; lia); cbn [Loader.vstring];
    rewrite (bind_done _ _ _ _ _ (ldb_us T c s va _ Hu He)); unfold ubytes in Hb; rewrite uaddrs_cons in Hb; cbn [map app] in Hb.
  - injection Hb as ->. done.
  - injection Hb as -> Hb. apply Forall_cons in Hok as [Hb0 Hok]. rewrite (proj2 (Z.eqb_neq b 0)) by lia.
    pose proof He as (? & ? & _). cbn [length] in *. rewrite wrap_small by lia.
    rewrite (bind_done _ _ _ _ _ (IH fuel s (va + 1) Hu ltac:(split_and!; [by apply ensured_tail|done|done]) ltac:(lia))). done.
Qed.

Lemma ustring_reads s p w : user_space s T c -> ustring s c p w -> vread p (S (length w)) s = Done s (w ++ [0]).
Proof. intros Hu (He & _ & <-). by apply (vread_ok T c). Qed.

Lemma uvec_head s v i p rest : user_space s T c -> 0 <= i -> 0 <= v -> ensured s c false (v + 8 * i) (Z.of_nat (8 * S (length rest))) ->
  0 <= p < 2 ^ 64 -> ubytes c s (v + 8 * i) (8 * S (length rest)) = le 8 p ++ flat_map (le 8) rest ->
  uptr v i s = Done s p /\ ubytes c s (v + 8 * (i + 1)) (8 * length rest) = flat_map (le 8) rest.
Proof.
  intros Hu Hi Hv He Hp Hb. replace (8 * S (length rest))%nat with (8 + 8 * length rest)%nat in * by lia.
  rewrite ubytes_app in Hb. apply app_inj_1 in Hb as [H8 Hr]; [|by rewrite length_le; unfold ubytes, uaddrs; rewrite !length_map, length_seq].
  pose proof He as (? & ? & _). unfold uptr. rewrite wrap_small by lia. split; [|by replace (v + 8 * (i + 1)) with (v + 8 * i + Z.of_nat 8) by lia].
  rewrite (bind_done _ _ _ _ _ (vread_ok T c 8 s (v + 8 * i) Hu ltac:(eapply ensured_part; [exact He|lia..]))). rewrite H8.
  by rewrite of_le_le by (change (256 ^ Z.of_nat 8) with (2 ^ 64); lia).
Qed.

(** The loops read what memory shows. *)
Lemma uvec_entries s v : user_space s T c -> 0 <= v -> forall ps ws i, 0 <= i -> uvec s c (v + 8 * i) ps -> Forall2 (ustring s c) ps ws ->
  Forall (fun w => (length w < smax)%nat) ws ->
  entries smax s v i ps ws /\ uptr v (i + Z.of_nat (length ps)) s = Done s 0.
Proof.
  intros Hu Hv. induction ps as [|p ps IH]; intros ws i Hi (He & Hp & Hb) Hs Hl.
  - apply Forall2_nil_inv_l in Hs as ->. split; [done|]. cbn [length Z.of_nat]. rewrite Z.add_0_r. by apply (uvec_head s v i 0 []).
  - apply Forall2_cons_inv_l in Hs as (w & ws' & Hw & Hs & ->). apply Forall_cons in Hl as [Hlw Hl]. apply Forall_cons in Hp as [Hp0 Hp].
    cbn [app flat_map] in Hb. destruct (uvec_head s v i p (ps ++ [0]) Hu Hi Hv) as [E Hr]; [by rewrite length_app, Nat.add_comm|lia|by rewrite length_app, Nat.add_comm|].
    rewrite length_app, Nat.add_comm in Hr. destruct (IH ws' (i + 1)) as [Hent H0]; [lia| |done|done|].
    { split_and!; [|done|done]. eapply ensured_part; [exact He|cbn [length]; lia..]. }
    cbn [entries length]. replace (i + Z.of_nat (S (length ps))) with (i + 1 + Z.of_nat (length ps)) by lia.
    split_and!; [done|lia|by apply vstring_us|by apply ustring_reads|done|done].
Qed.

End reading.

(** ** Counting *)

Definition text (ws : list (list Z)) : list Z := flat_map (fun w => w ++ [0]) ws.

(** Pointers and text of an array, without its NULL. *)
Definition room (ws : list (list Z)) : Z := 8 * Z.of_nat (length ws) + Z.of_nat (length (text ws)).

Lemma length_text w ws : Z.of_nat (length (text (w :: ws))) = Z.of_nat (length w) + 1 + Z.of_nat (length (text ws)).
Proof. unfold text. cbn [flat_map]. rewrite !length_app. cbn [length]. lia. Qed.

Lemma room_cons w ws : room (w :: ws) = 9 + Z.of_nat (length w) + room ws.
Proof. unfold room. rewrite length_text. cbn [length]. lia. Qed.

Lemma room_take n ws : 0 <= room (take n ws) <= room ws.
Proof.
  revert n. induction ws as [|w ws IH]; intros [|n]; cbn [take]; rewrite ?room_cons; try (unfold room; cbn; lia).
  specialize (IH n). lia.
Qed.

Lemma count_ptrs_ok smax st v bounded : forall ws ps n i tot, entries smax st v i ps ws -> uptr v (i + Z.of_nat (length ps)) st = Done st 0 ->
  (bounded = true \/ (length ws < n)%nat) -> 0 <= tot -> tot + room (take n ws) < 2 ^ 64 ->
  count_ptrs smax n bounded v i tot st = Done st (i + Z.of_nat (length (take n ws)), tot + room (take n ws)).
Proof.
  induction ws as [|w ws IH]; intros [|p ps] [|n] i tot He H0 Hb Ht Hr; try done; cbn [count_ptrs take length];
    try (destruct Hb as [->|Hb]; [|cbn in Hb; lia]); try (unfold room; cbn; by rewrite !Z.add_0_r).
  - cbn [length Z.of_nat] in H0. rewrite Z.add_0_r in H0. rewrite (bind_done _ _ _ _ _ H0). unfold room. cbn. by rewrite !Z.add_0_r.
  - destruct He as (E & Hp & Ew & _ & He). rewrite (bind_done _ _ _ _ _ E), (proj2 (Z.eqb_neq p 0) Hp), (bind_done _ _ _ _ _ Ew).
    cbn [take] in Hr. rewrite room_cons in *. pose proof (room_take n ws). rewrite wrap_small by lia. rewrite (IH ps n (i + 1)); [..|lia|lia].
    + f_equal. f_equal; lia.
    + done.
    + by replace (i + 1 + Z.of_nat (length ps)) with (i + Z.of_nat (length (p :: ps))) by (cbn [length]; lia).
    + destruct Hb as [?|Hb]; [by left|right]. cbn in Hb. lia.
Qed.

(** ** Copying *)

(** The kernel's pointers to strings that lie behind each other. *)
Fixpoint kptrs (p : Z) (ws : list (list Z)) : list Z :=
  match ws with [] => [] | w :: r => p :: kptrs (p + Z.of_nat (length w) + 1) r end.

Lemma holds_at_inv m x y a : holds_at m a (x ++ y) -> holds_at m a x /\ holds_at m (a + Z.of_nat (length x)) y.
Proof.
  intros H. split; intros i b Hi.
  - apply H. rewrite lookup_app_l; [done|]. by eapply lookup_lt_Some.
  - rewrite <- (H (length x + i)%nat b); [f_equal; lia|]. by rewrite lookup_app_r, Nat.add_comm, Nat.add_sub by lia.
Qed.

Lemma length_ptrs ps : length (flat_map (le 8) ps) = (8 * length ps)%nat.
Proof. induction ps as [|p ps IH]; [done|]. cbn [flat_map length]. rewrite length_app, length_le, IH. lia. Qed.

Lemma length_kptrs ws : forall p, length (kptrs p ws) = length ws.
Proof. induction ws as [|w ws IH]; intros p; [done|]. cbn. by rewrite IH. Qed.

Definition cstrings (ws : list (list Z)) : Prop := Forall CString.str_ok ws.

Lemma bytes_cstr w : CString.str_ok w -> bytes (w ++ [0]).
Proof. intros H. apply Forall_app. split; [|repeat constructor; lia]. eapply Forall_impl; [exact H|]. cbn. lia. Qed.

(** Strings behind kernel pointers. *)
Definition kstring (m : gmap Z Z) (p : Z) (w : list Z) : Prop := holds_at m (p - HHDM_START) (w ++ [0]).
Definition kstrings (m : gmap Z Z) (v : Z) (ws : list (list Z)) : Prop :=
  exists ps, holds_at m (v - HHDM_START) (flat_map (le 8) (ps ++ [0])) /\ Forall2 (kstring m) ps ws.

Lemma kptrs_strings m ws : forall q, holds_at m q (text ws) -> Forall2 (kstring m) (kptrs (HHDM_START + q) ws) ws.
Proof.
  induction ws as [|w ws IH]; intros q H; [constructor|]. unfold text in H. cbn [flat_map] in H. apply holds_at_inv in H as [Hw H].
  cbn [kptrs]. constructor; [unfold kstring; by replace (HHDM_START + q - HHDM_START) with q by lia|].
  replace (HHDM_START + q + Z.of_nat (length w) + 1) with (HHDM_START + (q + Z.of_nat (length (w ++ [0])))) by (rewrite length_app; cbn [length]; lia). by apply IH.
Qed.

Lemma kstrings_intro m d q ws : holds_at m d (flat_map (le 8) (kptrs (HHDM_START + q) ws)) -> holds_at m (d + 8 * Z.of_nat (length ws)) (le 8 0) ->
  holds_at m q (text ws) -> kstrings m (HHDM_START + d) ws.
Proof.
  intros Hp H0 Ht. exists (kptrs (HHDM_START + q) ws). split; [|by apply kptrs_strings].
  replace (HHDM_START + d - HHDM_START) with d by lia. rewrite flat_map_app. apply holds_at_app; [done|]. cbn [flat_map].
  rewrite app_nil_r, length_ptrs, length_kptrs. by replace (Z.of_nat (8 * length ws)) with (8 * Z.of_nat (length ws)) by lia.
Qed.

Section copying.
Context (smax : nat) (s : mm) (T : gmap Z (list Z)) (c : Z) (Hu : user_space s T c).
(** The frames behind user pages are in use. *)
Context (Hown : forall va, 0 <= va < 2 ^ 47 -> may s c false va = true -> Pmm.used (m_pmm s) (translate s c va / 4096) = true).
(** A run of frames taken for the copies. *)
Context (f n : Z) (pm : Pmm.pmm_state) (Hf : 0 < f) (Hat : Pmm.alloc_at (m_pmm s) n f pm) (Hwf : mm_wf (set_pmm pm s)).
Context (Hsz : f * 4096 + n * 4096 <= m_size s).
Notation a := (f * 4096).
Notation b := (f * 4096 + n * 4096).

Definition at_mem (m : gmap Z Z) : mm := set_mem m (set_pmm pm s).

(** Nothing but those frames has changed. *)
Definition grown (m : gmap Z Z) : Prop := same_tables (m_mem s) m T /\ forall x, ~ a <= x < b -> pbyte m x = pbyte (m_mem s) x.

Lemma not_in_run x : Pmm.used (m_pmm s) (x / 4096) = true -> ~ a <= x < b.
Proof.
  destruct Hat as ((_ & _ & Hfr) & _). intros H Hx. rewrite Hfr in H; [done|]. split; [apply Z.div_le_lower_bound; lia|apply Z.div_lt_upper_bound; lia].
Qed.

Lemma grown_space m : grown m -> user_space (at_mem m) T c.
Proof.
  intros [Hs _]. assert (user_space (set_pmm pm s) T c) as Hu1.
  { destruct Hu as [Hi ? ? ? ?]. split; try done. by eapply inv_alloc. }
  by apply (user_space_same T c (set_pmm pm s)).
Qed.

Lemma grown_user m va k : grown m -> ensured s c false va (Z.of_nat k) ->
  ensured (at_mem m) c false va (Z.of_nat k) /\ ubytes c (at_mem m) va k = ubytes c s va k.
Proof.
  intros [Hs Hb] He. destruct (user_space_same T c s m Hu Hs) as [_ Ht]. split; [by apply (ensured_same T c s m)|].
  unfold ubytes. change (uaddrs c (at_mem m) va k) with (uaddrs c (set_mem m s) va k). rewrite (uaddrs_same c s m) by done.
  apply map_ext_in. intros x Hx. apply Hb. apply in_map_iff in Hx as (i & <- & Hi%in_seq). destruct He as (? & ? & He).
  apply not_in_run, Hown; [lia|]. apply He. lia.
Qed.

Lemma grown_ustring m p w : grown m -> ustring s c p w -> ustring (at_mem m) c p w.
Proof. intros Hg (He & Hok & Hb). destruct (grown_user m _ _ Hg He) as [? E]. split_and!; [done|done|by rewrite E]. Qed.

Lemma grown_entries m v ps ws : grown m -> uvec s c v ps -> Forall2 (ustring s c) ps ws -> Forall (fun w => (length w < smax)%nat) ws ->
  entries smax (at_mem m) v 0 ps ws.
Proof.
  intros Hg (He & Hp & Hb) Hs Hl. pose proof He as (? & _). destruct (grown_user m _ _ Hg He) as [? E].
  apply (uvec_entries smax T c (at_mem m) v); [by apply grown_space|done|lia| |by eapply Forall2_impl; [exact Hs|intros; by apply grown_ustring]|done].
  rewrite Z.add_0_r. split_and!; [done|done|by rewrite E].
Qed.

(** A store in the frames. *)
Lemma hput_ok m x bs : grown m -> bytes bs -> a <= x -> x + Z.of_nat (length bs) <= b ->
  hput (HHDM_START + x) bs (at_mem m) = Done (at_mem (pputs m x bs)) tt /\ grown (pputs m x bs).
Proof.
  intros [Hs Hb] Hbs Hx Hl. destruct Hu as [Hi _ _ Hh _]. split.
  - unfold hput. cbn [hhdm_offset at_mem set_mem set_pmm m_size m_mem]. rewrite Hh. destruct Hwf as (_ & _ & _ & ? & Hm). cbn in Hm.
    replace (HHDM_START + x - HHDM_START) with x by lia. rewrite wrap_small by (unfold HHDM_START in *; lia).
    by rewrite (proj2 (Z.leb_le _ _)) by lia.
  - split.
    + eapply (same_tables_trans T); [exact Hs|]. intros t p i Ht Hir. destruct (tree_frame _ _ _ _ Hi Ht) as (_ & Hm & _). apply word_pputs. intros j Hj.
      rewrite in_table by done. intros E. destruct Hi as (_ & _ & Hused). pose proof (Hused t p Ht) as Hut. rewrite E in Hut. apply not_in_run in Hut. lia.
    + intros y Hy. rewrite pputs_out by (done || lia). by apply Hb.
Qed.

(** [m'] holds the arrays of [ws], pointers at [d] and text at [q], and else what [m] does. *)
Definition laid (m m' : gmap Z Z) (d q : Z) (ws : list (list Z)) : Prop :=
  holds_at m' d (flat_map (le 8) (kptrs (HHDM_START + q) ws)) /\ holds_at m' q (text ws) /\
  forall x, ~ d <= x < d + 8 * Z.of_nat (length ws) -> ~ q <= x < q + Z.of_nat (length (text ws)) -> pbyte m' x = pbyte m x.

Lemma laid_cons m m' d q w ws : CString.str_ok w -> d + 8 * Z.of_nat (S (length ws)) <= q ->
  laid (pputs (pputs m d (le 8 (HHDM_START + q))) q (w ++ [0])) m' (d + 8) (q + Z.of_nat (length w) + 1) ws -> laid m m' d q (w :: ws).
Proof.
  intros Hw Hd (Hp & Ht & Hr). pose proof (bytes_cstr w Hw) as Hb. pose proof (length_text w ws) as Hl.
  assert (length (w ++ [0]) = S (length w)) as Hlw by (rewrite length_app; cbn; lia). split_and!.
  - cbn [kptrs flat_map]. apply holds_at_app; [|rewrite length_le; by rewrite !Z.add_assoc in Hp].
    eapply holds_at_keep; [apply pputs_at, bytes_le|]. rewrite length_le. intros x Hx. rewrite Hr by lia. rewrite pputs_out by (done || lia). done.
  - unfold text. cbn [flat_map]. apply holds_at_app; [|by replace (q + Z.of_nat (length (w ++ [0]))) with (q + Z.of_nat (length w) + 1) by lia].
    eapply holds_at_keep; [by apply pputs_at|]. rewrite Hlw. intros x Hx. apply Hr; lia.
  - cbn [length]. rewrite Hl. intros x Hx1 Hx2. rewrite Hr by lia. rewrite pputs_out by (done || lia). apply pputs_out; [apply bytes_le|]. rewrite length_le. lia.
Qed.

Lemma copy_ok v d : forall ws ps i q m, grown m -> (forall m, grown m -> entries smax (at_mem m) v i ps ws) -> cstrings ws ->
  0 <= i -> a <= d -> d + 8 * (i + Z.of_nat (length ws)) <= q -> q + Z.of_nat (length (text ws)) <= b ->
  exists m', copy_ptrs smax (length ws) v i (HHDM_START + d) (HHDM_START + q) (at_mem m) = Done (at_mem m') (HHDM_START + q + Z.of_nat (length (text ws))) /\
    grown m' /\ laid m m' (d + 8 * i) q ws.
Proof.
  assert (HHDM_START + b < 2 ^ 64) as Htop by (destruct Hu as [_ _ _ Hh _], Hwf as (_ & _ & _ & ? & Hm); cbn in *; lia).
  assert (0 <= HHDM_START) as Hpos by done.
  induction ws as [|w ws IH]; intros ps i q m Hg He Hc Hi Hd Hq Hb.
  { exists m. cbn. rewrite Z.add_0_r. split_and!; [done|exact Hg|by split_and!]. }
  destruct ps as [|p ps]; [by destruct (He m Hg)|]. apply Forall_cons in Hc as [Hw Hc]. rewrite length_text in *. cbn [length] in *.
  destruct (hput_ok m (d + 8 * i) (le 8 (HHDM_START + q)) Hg (bytes_le _ _) ltac:(lia)) as [E1 Hg1]; [rewrite length_le; lia|].
  set (m1 := pputs m (d + 8 * i) (le 8 (HHDM_START + q))) in *.
  destruct (hput_ok m1 q (w ++ [0]) Hg1 (bytes_cstr w Hw) ltac:(lia)) as [E2 Hg2]; [rewrite length_app; cbn [length]; lia|].
  set (m2 := pputs m1 q (w ++ [0])) in *.
  destruct (IH ps (i + 1) (q + Z.of_nat (length w) + 1) m2 Hg2) as (m' & E & Hg' & Hl); [|done|lia|lia|lia|lia|].
  { intros m0 Hm0. apply (He m0 Hm0). }
  exists m'. split_and!; [|exact Hg'|].
  - cbn [copy_ptrs]. destruct (He m Hg) as (Ep & _ & Ew & _). rewrite (bind_done _ _ _ _ _ Ep), (bind_done _ _ _ _ _ Ew).
    rewrite (wrap_small 64 (HHDM_START + d + 8 * i)), (wrap_small 64 (_ + q + _)) by lia. rewrite <- (Z.add_assoc HHDM_START d), (bind_done _ _ _ _ _ E1). destruct (He m1 Hg1) as (Ep1 & _ & _ & Er & _).
    rewrite (bind_done _ _ _ _ _ Ep1). replace (Z.to_nat (Z.of_nat (length w) + 1)) with (S (length w)) by lia.
    rewrite (bind_done _ _ _ _ _ Er), (bind_done _ _ _ _ _ E2). rewrite !Z.add_assoc in *. exact E.
  - apply laid_cons; [done|lia|]. by replace (d + 8 * i + 8) with (d + 8 * (i + 1)) by lia.
Qed.

(** The second array and the zeros do not touch what the first left. *)
Lemma laid_both m m' m'' d q e r ws vs : d + 8 * Z.of_nat (length ws) + 8 = e -> e + 8 * Z.of_nat (length vs) + 8 <= q -> q + Z.of_nat (length (text ws)) = r ->
  laid m m' d q ws -> laid (pputs m' (d + 8 * Z.of_nat (length ws)) (le 8 0)) m'' e r vs ->
  let z := pputs m'' (e + 8 * Z.of_nat (length vs)) (le 8 0) in
  kstrings z (HHDM_START + d) ws /\ kstrings z (HHDM_START + e) vs /\
  forall x, e + 8 * Z.of_nat (length vs) + 8 <= x < q -> pbyte z x = pbyte m x.
Proof.
  intros He Hq Hr (Pw & Tw & Rw) (Pv & Tv & Rv) z.
  assert (forall x, ~ e + 8 * Z.of_nat (length vs) <= x < e + 8 * Z.of_nat (length vs) + 8 -> pbyte z x = pbyte m'' x) as Rz.
  { intros x Hx. apply pputs_out; [apply bytes_le|by rewrite length_le]. }
  set (m1 := pputs m' (d + 8 * Z.of_nat (length ws)) (le 8 0)) in *.
  assert (forall x, d <= x < e \/ e + 8 * Z.of_nat (length vs) + 8 <= x < r -> pbyte z x = pbyte m1 x) as R1 by (intros x Hx; rewrite Rz by lia; apply Rv; lia).
  assert (forall x, d <= x < e - 8 \/ e + 8 * Z.of_nat (length vs) + 8 <= x < r -> pbyte z x = pbyte m' x) as R2.
  { intros x Hx. rewrite R1 by lia. apply pputs_out; [apply bytes_le|rewrite length_le; lia]. }
  split_and!.
  - apply (kstrings_intro z d q ws); (eapply holds_at_keep; [first [exact Pw|exact Tw|apply pputs_at, bytes_le]|]); rewrite ?length_le, ?length_ptrs, ?length_kptrs.
    + intros x Hx. apply R2. lia.
    + intros x Hx. apply R1. lia.
    + intros x Hx. apply R2. lia.
  - apply (kstrings_intro z e r vs); [|apply pputs_at, bytes_le|]; (eapply holds_at_keep; [first [exact Pv|exact Tv]|]); rewrite ?length_ptrs, ?length_kptrs; intros x Hx; apply Rz; lia.
  - intros x Hx. rewrite R2 by lia. apply Rw; lia.
Qed.

(** All that the copies need. *)
Definition need (wp : list Z) (A E : list (list Z)) : Z := 16 + room A + room E + Z.of_nat (length wp) + 1.

Lemma copy_out_ok path argv envp wp A E psA psE : ustring s c path wp -> (length wp < smax)%nat ->
  (forall m, grown m -> entries smax (at_mem m) argv 0 psA A) -> (forall m, grown m -> entries smax (at_mem m) envp 0 psE E) ->
  cstrings A -> cstrings E -> need wp A E <= n * 4096 ->
  exists m' q e, copy_out smax path argv envp (Z.of_nat (length A)) (Z.of_nat (length E)) a n (at_mem (m_mem s)) =
      Done (at_mem m') (mk_npa 0 a n (HHDM_START + q) (HHDM_START + a) (HHDM_START + e)) /\
    grown m' /\ kstring m' (HHDM_START + q) wp /\ kstrings m' (HHDM_START + a) A /\ kstrings m' (HHDM_START + e) E.
Proof.
  intros Hp Hlp HA HE HcA HcE Hneed. unfold need, room in Hneed.
  assert (HHDM_START + b < 2 ^ 64) as Htop by (destruct Hu as [_ _ _ Hh _], Hwf as (_ & _ & _ & ? & Hm); cbn in *; lia).
  assert (0 <= HHDM_START) as Hpos by done.
  set (nA := Z.of_nat (length A)) in *. set (nE := Z.of_nat (length E)) in *. set (e := a + 8 * (nA + 1)). set (q := e + 8 * (nE + 1)).
  set (q1 := q + (Z.of_nat (length wp) + 1)). set (q2 := q1 + Z.of_nat (length (text A))).
  assert (e = a + 8 * (nA + 1) /\ q = e + 8 * (nE + 1) /\ q1 = q + (Z.of_nat (length wp) + 1) /\ q2 = q1 + Z.of_nat (length (text A)) /\ 0 <= nA /\ 0 <= nE) as (Ee & Eq & Eq1 & Eq2 & ? & ?) by (split_and!; done || lia).
  clearbody e q q1 q2.
  assert (grown (m_mem s)) as Hg0 by (by split). pose proof Hp as (_ & Hokp & _).
  destruct (hput_ok (m_mem s) q (wp ++ [0]) Hg0 (bytes_cstr wp Hokp) ltac:(lia)) as [E1 Hg1]; [rewrite length_app; cbn [length]; lia|].
  destruct (copy_ok argv a A psA 0 q1 _ Hg1 HA HcA) as (m2 & E2 & Hg2 & L2); [lia..|]. rewrite Z.mul_0_r, Z.add_0_r in L2.
  destruct (hput_ok m2 (a + 8 * nA) (le 8 0) Hg2 (bytes_le _ _) ltac:(lia)) as [E3 Hg3]; [rewrite length_le; lia|].
  destruct (copy_ok envp e E psE 0 q2 _ Hg3 HE HcE) as (m4 & E4 & Hg4 & L4); [lia..|]. rewrite Z.mul_0_r, Z.add_0_r in L4.
  destruct (hput_ok m4 (e + 8 * nE) (le 8 0) Hg4 (bytes_le _ _) ltac:(lia)) as [E5 Hg5]; [rewrite length_le; lia|].
  destruct (laid_both _ _ _ a q1 e q2 A E ltac:(lia) ltac:(lia) ltac:(lia) L2 L4) as (KA & KE & KR).
  eexists _, q, e. split_and!; [|exact Hg5| |exact KA|exact KE].
  - unfold copy_out. rewrite (Z.add_comm a HHDM_START). rewrite (wrap_small 64 (HHDM_START + a)) by lia.
    rewrite (wrap_small 64 (HHDM_START + a + 8 * (nA + 1))) by lia. replace (HHDM_START + a + 8 * (nA + 1)) with (HHDM_START + e) by lia.
    rewrite (wrap_small 64 (HHDM_START + e + 8 * (nE + 1))) by lia. replace (HHDM_START + e + 8 * (nE + 1)) with (HHDM_START + q) by lia.
    pose proof (grown_space _ Hg0) as Hu0. pose proof (grown_ustring _ _ _ Hg0 Hp) as Hp0.
    rewrite (bind_done _ _ _ _ _ (vstring_us T c wp smax _ path Hu0 Hp0 Hlp)). replace (Z.to_nat (Z.of_nat (length wp) + 1)) with (S (length wp)) by lia.
    rewrite (bind_done _ _ _ _ _ (ustring_reads T c _ path wp Hu0 Hp0)), (bind_done _ _ _ _ _ E1).
    rewrite (wrap_small 64 (HHDM_START + q + _)) by lia. rewrite <- (Z.add_assoc HHDM_START q), <- Eq1. rewrite (Nat2Z.id (length A) : Z.to_nat nA = _), (bind_done _ _ _ _ _ E2).
    rewrite (wrap_small 64 (HHDM_START + a + 8 * nA)) by lia. rewrite <- (Z.add_assoc HHDM_START a), (bind_done _ _ _ _ _ E3).
    rewrite (Nat2Z.id (length E) : Z.to_nat nE = _). rewrite <- (Z.add_assoc HHDM_START q1), <- Eq2, (bind_done _ _ _ _ _ E4).
    rewrite (wrap_small 64 (HHDM_START + e + 8 * nE)) by lia. by rewrite <- (Z.add_assoc HHDM_START e), (bind_done _ _ _ _ _ E5).
  - unfold kstring. replace (HHDM_START + q - HHDM_START) with q by lia. eapply holds_at_keep; [by apply (pputs_at _ (m_mem s) q), bytes_cstr|].
    rewrite length_app. cbn [length]. intros x Hx. apply KR. lia.
Qed.

End copying.

(** A caller's arguments: a path and two arrays of strings in its memory. *)
Record call_args (smax emax : nat) (s : mm) (c path argv envp : Z) (wp : list Z) (wa we : list (list Z)) : Prop := {
  ca_path : ustring s c path wp;
  ca_argv : ustrings s c argv wa;
  ca_envp : ustrings s c envp we;
  ca_short : Forall (fun w => (length w < smax)%nat) (wp :: wa ++ we);
  ca_env : (length we < emax)%nat
}.

(** The frames behind user pages are in use. *)
Definition frames_owned (s : mm) (c : Z) : Prop :=
  forall va, 0 <= va < 2 ^ 47 -> may s c false va = true -> Pmm.used (m_pmm s) (translate s c va / 4096) = true.

Lemma ustrings_cstrings s c ps ws : Forall2 (ustring s c) ps ws -> cstrings ws.
Proof. induction 1 as [|p w ps ws (_ & Hw & _) _ IH]; constructor; done. Qed.

(** The arguments reach the kernel: [copy_newprocargs] takes the lowest run of frames
    and puts there the path, the first 16 arguments and the environment as arrays of
    pointers to strings, without any other change to memory, provided that the run
    also has room for the second NULL; or it reports that there is no such run. *)
Lemma newproc_args_copied smax emax s T c path argv envp wp wa we :
  user_space s T c -> frames_owned s c -> call_args smax emax s c path argv envp wp wa we ->
  let args := take Loader.ARGMAX wa in
  let n := (need wp args we - 8 + 4095) / 4096 in
  need wp args we <= n * 4096 -> need wp args we < 2 ^ 42 ->
  exists s' r, copy_newprocargs smax emax path argv envp s = Done s' r /\
    (r = COPY_NPA_BAD (- ENOMEM) /\ s' = s /\ (forall g, 0 <= g -> ~ Pmm.free_run (m_pmm s) g n) \/
     exists f, npa_stat r = 0 /\ phys r = f * 4096 /\ npgs r = n /\ Pmm.first_fit (m_pmm s) n f (m_pmm s') /\ user_space s' T c /\ pml4 s' = pml4 s /\ current_pid s' = current_pid s /\
       kstring (m_mem s') (kpath r) wp /\ kstrings (m_mem s') (kargv r) args /\ kstrings (m_mem s') (kenvp r) we /\
       forall x, ~ f * 4096 <= x < f * 4096 + n * 4096 -> pbyte (m_mem s') x = pbyte (m_mem s) x).
Proof.
  intros Hu Hown [Hp (psA & VA & SA) (psE & VE & SE) [Hlp Hl]%Forall_cons Hem] args n Hn Hbig. apply Forall_app in Hl as [HlA HlE].
  pose proof (VA) as ((? & _) & _). pose proof (VE) as ((? & _) & _).
  destruct (uvec_entries smax T c s argv Hu ltac:(done) psA wa 0 ltac:(lia) ltac:(by rewrite Z.add_0_r) SA HlA) as [EA ZA].
  destruct (uvec_entries smax T c s envp Hu ltac:(done) psE we 0 ltac:(lia) ltac:(by rewrite Z.add_0_r) SE HlE) as [EE ZE].
  pose proof (room_take Loader.ARGMAX wa) as HrA. pose proof (room_take (length we) we) as HrE. rewrite firstn_all in HrE.
  assert (take emax we = we) as Etk by (apply take_ge; lia). fold args in HrA. unfold need in *.
  unfold copy_newprocargs.
  rewrite (bind_done _ _ _ _ _ (count_ptrs_ok smax s argv true wa psA Loader.ARGMAX 0 8 EA ZA ltac:(by left) ltac:(lia) ltac:(fold args; lia))). fold args.
  rewrite (bind_done _ _ _ _ _ (count_ptrs_ok smax s envp false we psE emax 0 (8 + room args) EE ZE ltac:(by right) ltac:(lia) ltac:(rewrite Etk; lia))), Etk.
  rewrite (bind_done _ _ _ _ _ (vstring_us T c wp smax s path Hu Hp Hlp)), !Z.add_0_l.
  rewrite (wrap_small 64 (8 + room args + room we + _ + 1)) by lia. rewrite wrap_small by lia.
  replace ((8 + room args + room we + Z.of_nat (length wp) + 1 + 4095) / 4096) with n by (unfold n; f_equal; lia).
  assert (0 < n < 2 ^ 31) as Hn31 by (unfold n in *; Z.to_euclidean_division_equations; lia).
  destruct (falloc_run s (Z.to_nat n) ltac:(apply Hu) ltac:(lia) ltac:(lia)) as (pm & a & Ea & Hres). rewrite Z2Nat.id in * by lia.
  rewrite (bind_done _ _ _ _ _ Ea). destruct Hres as [(-> & -> & Hno)|(f & Hf & -> & Hat & Hwf & Hsz)].
  { eexists _, _. split; [done|]. left. split_and!; [done|by destruct s|done]. }
  rewrite (proj2 (Z.eqb_neq _ 0)) by lia. pose proof Hat as [Hat1 _].
  destruct (copy_out_ok smax s T c Hu Hown f n pm Hf Hat1 Hwf Hsz path argv envp wp args we (take Loader.ARGMAX psA) psE Hp Hlp)
    as (m' & q & e & E & Hg & K1 & K2 & K3).
  - intros m Hm. apply entries_take. by eapply grown_entries.
  - intros m Hm. by eapply grown_entries.
  - by eapply Forall_take, ustrings_cstrings.
  - by eapply ustrings_cstrings.
  - unfold need. lia.
  - eexists _, _. split; [exact E|]. right. exists f. split_and!; [done..|by eapply grown_space|done|done|done|done|done|apply Hg].
Qed.

(** The memory after the copy of a path and two empty arrays to the frames at [a]. *)
Definition path_only (m : gmap Z Z) (a : Z) (wp : list Z) : gmap Z Z := pputs (pputs (pputs m (a + 16) (wp ++ [0])) a (le 8 0)) (a + 8) (le 8 0).

Lemma path_only_holds m a wp : CString.str_ok wp -> holds_at (path_only m a wp) (a + 16) (wp ++ [0]).
Proof.
  intros Hw. eapply holds_at_keep; [by apply (pputs_at _ m), bytes_cstr|]. intros x Hx.
  unfold path_only. rewrite pputs_out; [apply pputs_out; [apply bytes_le|rewrite length_le; lia]|apply bytes_le|rewrite length_le; lia].
Qed.

Lemma copy_out_path smax s T c path argv envp wp a n : user_space s T c -> ustring s c path wp -> (length wp < smax)%nat ->
  0 < a -> a + Z.of_nat (length wp) + 17 <= m_size s ->
  copy_out smax path argv envp 0 0 a n s = Done (set_mem (path_only (m_mem s) a wp) s) (mk_npa 0 a n (HHDM_START + (a + 16)) (HHDM_START + a) (HHDM_START + (a + 8))).
Proof.
  intros Hu Hp Hlp Ha Hsz. pose proof (us_inv _ _ _ Hu) as ((_ & _ & _ & _ & Htop) & _). rewrite (us_hhdm _ _ _ Hu) in Htop.
  assert (0 <= HHDM_START) as Hpos by done.
  assert (forall x y, x = HHDM_START + y -> 0 <= y < m_size s -> u64 x = HHDM_START + y) as W by (intros x y -> Hy; apply wrap_small; lia).
  assert (forall m x bs, 0 <= x -> x + Z.of_nat (length bs) <= m_size s -> hput (HHDM_START + x) bs (set_mem m s) = Done (set_mem (pputs m x bs) s) tt) as Hput.
  { intros m x bs Hx Hb. unfold hput. cbn [hhdm_offset set_mem m_size m_mem]. rewrite (us_hhdm _ _ _ Hu).
    replace (HHDM_START + x - HHDM_START) with x by lia. rewrite wrap_small by lia. by rewrite (proj2 (Z.leb_le _ _)) by lia. }
  assert (forall v kv p m, copy_ptrs smax (Z.to_nat 0) v 0 kv p m = Done m p) as C0 by done.
  unfold copy_out. rewrite (bind_done _ _ _ _ _ (vstring_us T c wp smax s path Hu Hp Hlp)).
  replace (Z.to_nat (Z.of_nat (length wp) + 1)) with (S (length wp)) by lia. rewrite (bind_done _ _ _ _ _ (ustring_reads T c s path wp Hu Hp)).
  rewrite (W (a + HHDM_START) a), (W (HHDM_START + a + 8 * (0 + 1)) (a + 8)), (W (_ + (a + 8) + 8 * (0 + 1)) (a + 16)),
    (W (_ + a + 8 * 0) a), (W (_ + (a + 8) + 8 * 0) (a + 8)) by lia. replace s with (set_mem (m_mem s) s) at 1 by (by destruct s).
  rewrite (bind_done _ _ _ _ _ (Hput (m_mem s) (a + 16) (wp ++ [0]) ltac:(lia) ltac:(rewrite length_app; cbn [length]; lia))).
  rewrite (bind_done _ _ _ _ _ (C0 _ _ _ _)), (bind_done _ _ _ _ _ (Hput _ a (le 8 0) ltac:(lia) ltac:(rewrite length_le; lia))).
  rewrite (bind_done _ _ _ _ _ (C0 _ _ _ _)), (bind_done _ _ _ _ _ (Hput _ (a + 8) (le 8 0) ltac:(lia) ltac:(rewrite length_le; lia))). done.
Qed.

(** One NULL is counted for the two arrays: with a path that needs the last 8 bytes of
    the run, its end is written to the frame behind it, which is not the kernel's to
    write. *)
Lemma newproc_overflows smax emax s T c path argv envp wp n f pm : user_space s T c -> call_args smax emax s c path argv envp wp [] [] ->
  Z.of_nat (length wp) = 4096 * n - 9 -> falloc n s = Done (set_pmm pm s) (f * 4096) -> 0 < n < 2 ^ 31 -> 0 < f -> (f + n + 1) * 4096 <= m_size s ->
  exists s' r, copy_newprocargs smax emax path argv envp s = Done s' r /\ npa_stat r = 0 /\ phys r = f * 4096 /\ npgs r = n /\
    holds_at (m_mem s') ((f + n) * 4096) (drop (Z.to_nat (4096 * n - 16)) wp ++ [0]).
Proof.
  intros Hu [Hp (psA & VA & SA) (psE & VE & SE) [Hlp _]%Forall_cons Hem] Hl Ea Hn Hf Hsz.
  apply Forall2_nil_inv_r in SA as ->. apply Forall2_nil_inv_r in SE as ->. pose proof VA as ((? & _) & _). pose proof VE as ((? & _) & _).
  destruct (uvec_entries smax T c s argv Hu ltac:(done) [] [] 0 ltac:(lia) ltac:(by rewrite Z.add_0_r) ltac:(constructor) ltac:(constructor)) as [EA ZA].
  destruct (uvec_entries smax T c s envp Hu ltac:(done) [] [] 0 ltac:(lia) ltac:(by rewrite Z.add_0_r) ltac:(constructor) ltac:(constructor)) as [EE ZE].
  pose proof (us_inv _ _ _ Hu) as ((_ & _ & _ & _ & Htop) & _). rewrite (us_hhdm _ _ _ Hu) in Htop. assert (0 <= HHDM_START) as Hpos by done.
  destruct (falloc_run s (Z.to_nat n) ltac:(apply Hu) ltac:(lia) ltac:(lia)) as (pm' & a & Ea' & Hres). rewrite Z2Nat.id in * by lia.
  rewrite Ea in Ea'. injection Ea' as Es <-. destruct Hres as [(? & _)|(f' & _ & Ef & [Hat _] & Hwf' & _)]; [lia|]. subst pm'.
  assert (user_space (set_pmm pm s) T c) as Hu1 by (destruct Hu as [Hi ? ? ? ?]; split; try done; by eapply inv_alloc).
  pose proof (copy_out_path smax (set_pmm pm s) T c path argv envp wp (f * 4096) n Hu1 Hp Hlp ltac:(lia) ltac:(cbn; lia)) as E.
  exists (set_mem (path_only (m_mem s) (f * 4096) wp) (set_pmm pm s)). eexists. split_and!; cycle 4.
  - cbn [m_mem set_mem set_pmm]. pose proof (path_only_holds (m_mem s) (f * 4096) wp ltac:(apply Hp)) as Hh.
    rewrite <- (take_drop (Z.to_nat (4096 * n - 16)) wp) in Hh at 2. rewrite <- app_assoc in Hh. apply holds_at_inv in Hh as [_ Hh]. rewrite length_take in Hh.
    replace (f * 4096 + 16 + Z.of_nat (Z.to_nat (4096 * n - 16) `min` length wp)) with ((f + n) * 4096) in Hh by lia. exact Hh.
  - unfold copy_newprocargs.
    rewrite (bind_done _ _ _ _ _ (count_ptrs_ok smax s argv true [] [] Loader.ARGMAX 0 8 EA ZA ltac:(by left) ltac:(lia) ltac:(by vm_compute))).
    change (0 + Z.of_nat (length (take Loader.ARGMAX []))) with 0. change (8 + room (take Loader.ARGMAX [])) with 8.
    rewrite (bind_done _ _ _ _ _ (count_ptrs_ok smax s envp false [] [] emax 0 8 EE ZE ltac:(by right) ltac:(lia) ltac:(by rewrite take_nil))), take_nil.
    change (0 + Z.of_nat (length [])) with 0. change (8 + room []) with 8.
    rewrite (bind_done _ _ _ _ _ (vstring_us T c wp smax s path Hu Hp Hlp)).
    replace (8 + Z.of_nat (length wp) + 1) with (4096 * n) by lia. rewrite (wrap_small 64 (4096 * n)), wrap_small by lia.
    replace ((4096 * n + 4095) / 4096) with n by (Z.to_euclidean_division_equations; lia). rewrite (bind_done _ _ _ _ _ Ea), (proj2 (Z.eqb_neq _ 0)) by lia. exact E.
  - done.
  - done.
  - done.
Qed.

(** ** The call *)

Lemma kst_onmm_done {A} (x : M mm A) k m r : x (Proc.mach k) = Done m r -> Proc.onmm x k = Done (Proc.set_mach m k) r.
Proof. unfold Proc.onmm. by intros ->. Qed.

Lemma set_mach_same k : Proc.set_mach (Proc.mach k) k = k.
Proof. by destruct k. Qed.

Lemma root_low s T c : user_space s T c -> 0 <= c < 2 ^ 47.
Proof.
  intros Hu. pose proof (us_inv _ _ _ Hu) as Hi. destruct (tree_frame _ _ _ _ Hi (us_root _ _ _ Hu)) as (? & _ & ? & _).
  destruct Hi as ((_ & _ & _ & ? & Hm) & _). rewrite (us_hhdm _ _ _ Hu) in Hm. unfold HHDM_START in *. lia.
Qed.

(** Back to the caller's space, and the frames of the copies are free again. *)
Lemma give_back k c f n : hhdm_offset (Proc.mach k) = HHDM_START -> 0 <= c < 2 ^ 47 -> Pmm.pmm_wf (m_pmm (Proc.mach k)) ->
  0 <= f -> 0 < n -> f + n <= Pmm.nframes (m_pmm (Proc.mach k)) ->
  exists pm, (_ ← Proc.onmm (vmm_sasp (u64 (HHDM_START + c))); Proc.onmm (ffree (f * 4096) n)) k =
      Done (Proc.set_mach (set_pmm pm (set_cr3 c (Proc.mach k))) k) tt /\
    forall g, Pmm.used pm g = negb (Pmm.in_run f n g) && Pmm.used (m_pmm (Proc.mach k)) g.
Proof.
  intros Hh Hc Hp Hf Hn Hm. destruct (Pmm.pmm_ffree_spec _ f n Hp ltac:(lia) Hn) as (pm & E & _ & _ & Hu). exists pm. split.
  - assert (vmm_sasp (u64 (HHDM_START + c)) (Proc.mach k) = Done (set_cr3 c (Proc.mach k)) tt) as Es.
    { unfold vmm_sasp. unfold HHDM_START in *. rewrite (wrap_small 64 (_ + c)), (proj2 (Z.eqb_neq _ 0)) by lia. rewrite bind_gets, Hh.
      by replace (u64 (0xFFFF800000000000 + c - 0xFFFF800000000000)) with c by (rewrite wrap_small; lia). }
    rewrite (bind_done _ _ _ _ _ (kst_onmm_done _ k _ _ Es)). unfold Proc.onmm. cbn [Proc.mach Proc.set_mach]. unfold ffree. cbn [m_pmm set_cr3]. by rewrite E.
  - intros g. rewrite Hu. unfold Pmm.in_run. case_bool_decide; [|done]. by rewrite (proj2 (Z.ltb_lt g _)) by lia.
Qed.

(** What the copying leaves alone besides the tables of the kernel. *)
Definition aside (s : mm) : Z * Z * list Region.vmm_region_t * option nat * list Region.vmm_range_t * Z :=
  (m_size s, lhhdm_off s, vmmr_nodes s, vmmr_head s, vmm_umapr s, current_pid s).

Lemma aside_ldb va : keeps aside (ldb va).
Proof.
  assert (forall t i, keeps aside (ldt t i)) as Hld.
  { intros t i s s' a. unfold ldt, ld. repeat case_match; by intros [= <- _]. }
  unfold ldb, vmm_get_phys. apply keeps_bind; [by intros s s' a [= <- _]|intros t]. repeat (apply Hld || keeps_step).
Qed.

Lemma aside_vread n : forall va, keeps aside (vread va n).
Proof. induction n as [|n IH]; intros va; cbn [vread]; repeat (apply IH || apply aside_ldb || keeps_step). Qed.

Lemma aside_vstring n : forall va, keeps aside (Loader.vstring n va).
Proof. induction n as [|n IH]; intros va; cbn [Loader.vstring]; repeat (apply IH || apply aside_ldb || keeps_step). Qed.

Lemma aside_hput va bs : keeps aside (hput va bs).
Proof. intros s s' a. unfold hput. case_match; [by intros [= <- _]|done]. Qed.

Lemma aside_copy smax emax path argv envp : keeps aside (copy_newprocargs smax emax path argv envp).
Proof.
  assert (forall v i, keeps aside (uptr v i)) as Hu by (intros v i; unfold uptr; repeat (apply aside_vread || keeps_step)).
  assert (forall n b v i t, keeps aside (count_ptrs smax n b v i t)) as Hc.
  { induction n as [|n IH]; intros b v i t; cbn [count_ptrs]; repeat (apply IH || apply Hu || apply aside_vstring || keeps_step). }
  assert (forall n v i kv q, keeps aside (copy_ptrs smax n v i kv q)) as Hp.
  { induction n as [|n IH]; intros v i kv q; cbn [copy_ptrs]; repeat (apply IH || apply Hu || apply aside_vstring || apply aside_vread || apply aside_hput || keeps_step). }
  assert (forall n, keeps aside (falloc n)) as Hf.
  { intros n s s' a. unfold falloc. repeat case_match; by intros [= <- _]. }
  unfold copy_newprocargs, copy_out. repeat (apply Hc || apply Hp || apply Hf || apply aside_vstring || apply aside_vread || apply aside_hput || keeps_step).
Qed.

(** What the creation finds: the copies in frames of their own, and the kernel's tables. *)
Record handed (k k1 : Proc.kst) (wp : list Z) (wa we : list (list Z)) (r : copy_npa_res) (n f : Z) : Prop := {
  ha_path : kstring (m_mem (Proc.mach k1)) (kpath r) wp;
  ha_argv : kstrings (m_mem (Proc.mach k1)) (kargv r) wa;
  ha_envp : kstrings (m_mem (Proc.mach k1)) (kenvp r) we;
  ha_frames : Pmm.first_fit (m_pmm (Proc.mach k)) n f (m_pmm (Proc.mach k1));
  ha_rest : forall x, ~ f * 4096 <= x < f * 4096 + n * 4096 -> pbyte (m_mem (Proc.mach k1)) x = pbyte (m_mem (Proc.mach k)) x;
  ha_wf : mm_wf (Proc.mach k1) /\ hhdm_offset (Proc.mach k1) = HHDM_START;
  ha_cr3 : cr3 (Proc.mach k1) = u64 (pml4 (Proc.mach k) - HHDM_START);
  ha_procs : Proc.proctbl k1 = Proc.proctbl k;
  ha_aside : aside (Proc.mach k1) = aside (Proc.mach k);
  ha_kernel : k1 = Proc.set_mach (Proc.mach k1) k
}.

(** What the caller finds afterwards. *)
Record returned (k2 k3 : Proc.kst) (c n f : Z) : Prop := {
  re_cr3 : cr3 (Proc.mach k3) = c;
  re_procs : Proc.proctbl k3 = Proc.proctbl k2;
  re_mem : m_mem (Proc.mach k3) = m_mem (Proc.mach k2);
  re_frames : forall g, Pmm.used (m_pmm (Proc.mach k3)) g = negb (Pmm.in_run f n g) && Pmm.used (m_pmm (Proc.mach k2)) g
}.

(** The creation leaves the allocator and the direct map in order. *)
Definition in_order (k k2 : Proc.kst) : Prop :=
  hhdm_offset (Proc.mach k2) = HHDM_START /\ Pmm.pmm_wf (m_pmm (Proc.mach k2)) /\ Pmm.nframes (m_pmm (Proc.mach k2)) = Pmm.nframes (m_pmm (Proc.mach k)).

(** The caller: its space, its arguments, and room for the second NULL. *)
Record caller (smax emax : nat) (k : Proc.kst) (T : gmap Z (list Z)) (c path argv envp : Z) (wp : list Z) (wa we : list (list Z)) (n : Z) : Prop := {
  cl_space : user_space (Proc.mach k) T c;
  cl_owned : frames_owned (Proc.mach k) c;
  cl_kernel : pml4 (Proc.mach k) <> 0;
  cl_nonnull : path <> 0 /\ argv <> 0 /\ envp <> 0;
  cl_args : call_args smax emax (Proc.mach k) c path argv envp wp wa we;
  cl_pages : n = (need wp (take Loader.ARGMAX wa) we - 8 + 4095) / 4096;
  cl_room : need wp (take Loader.ARGMAX wa) we <= n * 4096;
  cl_big : need wp (take Loader.ARGMAX wa) we < 2 ^ 42
}.

Section call.
Context (smax emax : nat) (k : Proc.kst) (T : gmap Z (list Z)) (c path argv envp : Z) (wp : list Z) (wa we : list (list Z)) (n : Z).
Context (Hcl : caller smax emax k T c path argv envp wp wa we n).

(** What both calls begin with. *)
Lemma call_begins {A} (bad : Z -> A) (g : Z -> copy_npa_res -> Z -> M Proc.kst A) :
  let call := uasp ← Proc.onmm vmm_cpml4v;
    if (path =? 0) || (argv =? 0) || (envp =? 0) then mret (bad (- EINVAL)) else
    res ← Proc.onmm (copy_newprocargs smax emax path argv envp);
    if npa_stat res <? 0 then mret (bad (npa_stat res)) else
    _ ← Proc.onmm vmm_skasp; pid ← gets Proc.current; g uasp res pid in
  (call k = Done k (bad (- ENOMEM)) /\ forall h, 0 <= h -> ~ Pmm.free_run (m_pmm (Proc.mach k)) h n) \/
  exists k1 r f, handed k k1 wp (take Loader.ARGMAX wa) we r n f /\ phys r = f * 4096 /\ npgs r = n /\
    call k = g (u64 (HHDM_START + c)) r (Proc.current k) k1.
Proof.
  destruct Hcl as [Hu Hown Hk (Hp & Ha & He) Hc En Hn Hbig]. intros call. rewrite En in Hn.
  destruct (newproc_args_copied smax emax _ T c path argv envp wp wa we Hu Hown Hc Hn Hbig) as (s1 & r & E & Hres). rewrite <- En in Hres.
  assert (call k = (if npa_stat r <? 0 then mret (bad (npa_stat r)) else _ ← Proc.onmm vmm_skasp; pid ← gets Proc.current; g (u64 (HHDM_START + c)) r pid) (Proc.set_mach s1 k)) as ->.
  { unfold call. rewrite (bind_done _ _ _ _ _ (kst_onmm_done _ k _ _ (cpml4v_us T c _ Hu))). rewrite (proj2 (Z.eqb_neq path 0)), (proj2 (Z.eqb_neq argv 0)), (proj2 (Z.eqb_neq envp 0)) by done.
    cbn [orb]. rewrite (us_hhdm _ _ _ Hu), set_mach_same. by rewrite (bind_done _ _ _ _ _ (kst_onmm_done _ k _ _ E)). }
  destruct Hres as [(-> & -> & Hno)|(f & Hst & Hf & Hnp & Hfit & Hu1 & Hpml & Hcur & Kp & Ka & Ke & Hrest)].
  { left. split; [|done]. cbn. by rewrite set_mach_same. }
  right. set (kc := u64 (pml4 (Proc.mach k) - HHDM_START)). exists (Proc.set_mach (set_cr3 kc s1) k), r, f. split_and!; [|done|done|].
  { split; [done..|split; apply Hu1|done|done|exact (aside_copy _ _ _ _ _ _ _ _ E)|done]. }
  rewrite Hst. cbn [Z.ltb Z.compare]. assert (vmm_skasp s1 = Done (set_cr3 kc s1) tt) as Es.
  { unfold vmm_skasp, vmm_sasp. rewrite bind_gets, Hpml, (proj2 (Z.eqb_neq _ 0)) by done. rewrite bind_gets, (us_hhdm _ _ _ Hu1). done. }
  rewrite (bind_done _ _ _ _ _ (kst_onmm_done _ (Proc.set_mach s1 k) _ _ Es)), bind_gets.
  change (Proc.current _) with (current_pid s1) at 1. by rewrite Hcur.
Qed.

(** And what they go on with after the creation. *)
Lemma call_returns k1 r f k2 {A} (g : M Proc.kst A) : handed k k1 wp (take Loader.ARGMAX wa) we r n f -> phys r = f * 4096 -> npgs r = n -> in_order k k2 ->
  exists k3, (_ ← Proc.onmm (vmm_sasp (u64 (HHDM_START + c))); _ ← Proc.onmm (ffree (phys r) (npgs r)); g) k2 = g k3 /\ returned k2 k3 c n f.
Proof.
  intros [_ _ _ [((Hf0 & Hfn & _) & _) _] _ _ _ _ _ _] -> -> (Hh2 & Hw2 & Hnf). pose proof (root_low _ T c (cl_space _ _ _ _ _ _ _ _ _ _ _ _ Hcl)) as Hc.
  assert (0 < n) as Hn0.
  { pose proof (cl_room _ _ _ _ _ _ _ _ _ _ _ _ Hcl) as Hr. pose proof (room_take Loader.ARGMAX wa). pose proof (room_take (length we) we) as HrE. rewrite firstn_all in HrE. unfold need in Hr. lia. }
  destruct (give_back k2 c f n Hh2 Hc Hw2 Hf0 Hn0 ltac:(lia)) as (pm & Eb & Hused). eexists. split.
  - apply bind_inv in Eb as (k3 & [] & E3 & E4). by rewrite (bind_done _ _ _ _ _ E3), (bind_done _ _ _ _ _ E4).
  - split; [done..|exact Hused].
Qed.

End call.

(** C33. Starting a program, for a caller whose arguments fit the frames the call asks
    for: it asks for 8 bytes less than it writes, so sizes that end in the last 8 bytes
    of a page are left out.  Then either no run of frames is free, the call returns
    -ENOMEM and nothing has changed, or the process is created on the kernel's tables
    from copies of the caller's path, arguments (the first 16) and environment, in
    frames that were free, all else being as it was; and when the creation returns with
    the allocator and the direct map in order, the caller's space is active again, the
    frames of the copies are free, and the call returns what the creation gave. *)
Theorem sys_newproc_hands_over smax emax load stat fb k T c path argv envp wp wa we n :
  caller smax emax k T c path argv envp wp wa we n ->
  (sys_newproc smax emax load stat fb path argv envp k = Done k (- ENOMEM) /\ forall h, 0 <= h -> ~ Pmm.free_run (m_pmm (Proc.mach k)) h n) \/
  exists k1 r f, handed k k1 wp (take Loader.ARGMAX wa) we r n f /\
    forall k2 ret, Proc.new_process (load (kpath r) (kargv r) (kenvp r)) (stat (kpath r)) fb (Proc.current k) k1 = Done k2 ret -> in_order k k2 ->
      exists k3, sys_newproc smax emax load stat fb path argv envp k = Done k3 ret /\ returned k2 k3 c n f.
Proof.
  intros Hcl. destruct (call_begins _ _ _ _ _ _ _ _ _ _ _ _ Hcl id (fun uasp res pid =>
    ret ← Proc.new_process (load (kpath res) (kargv res) (kenvp res)) (stat (kpath res)) fb pid;
    _ ← Proc.onmm (vmm_sasp uasp); _ ← Proc.onmm (ffree (phys res) (npgs res)); mret ret)) as [?|(k1 & r & f & Hh & Hph & Hnp & Ec)]; [by left|right].
  exists k1, r, f. split; [done|]. intros k2 ret Enew Hord. destruct (call_returns _ _ _ _ _ _ _ _ _ _ _ _ Hcl k1 r f k2 (mret ret) Hh Hph Hnp Hord) as (k3 & E3 & Hret).
  exists k3. split; [|done]. unfold sys_newproc. etransitivity; [exact Ec|]. by rewrite (bind_done _ _ _ _ _ Enew).
Qed.

(** Replacing the program: as above; if the new one cannot be loaded the caller goes on
    and gets the error, otherwise the scheduler switches to what its entry now says. *)
Theorem sys_execve_hands_over smax emax load stat ticks k T c path argv envp wp wa we n :
  caller smax emax k T c path argv envp wp wa we n ->
  (sys_execve smax emax load stat ticks path argv envp k = Done k (inl (- ENOMEM)) /\ forall h, 0 <= h -> ~ Pmm.free_run (m_pmm (Proc.mach k)) h n) \/
  exists k1 r f, handed k k1 wp (take Loader.ARGMAX wa) we r n f /\
    forall k2 ret, Proc.kexecve (load (kpath r) (kargv r) (kenvp r)) (stat (kpath r)) (Proc.current k) k1 = Done k2 ret -> in_order k k2 ->
      exists k3, returned k2 k3 c n f /\
        (ret < 0 -> sys_execve smax emax load stat ticks path argv envp k = Done k3 (inl ret)) /\
        (0 <= ret -> forall p, aget (Proc.proctbl k2) (Proc.current k3) = Some p ->
           forall k4 x dir fb, Proc.scheduler_switch ticks (Proc.proc2ctx p) (Proc.set_execve true k3) = Done k4 (Proc.Switch x dir fb) ->
             sys_execve smax emax load stat ticks path argv envp k = Done k4 (inr (Proc.Switch x dir fb))).
Proof.
  intros Hcl. set (tail := fun ret : Z => if ret <? 0 then mret (inl ret) else
      pid ← gets Proc.current; p ← Proc.proc pid; _ ← modify (Proc.set_execve true); r ← Proc.scheduler_switch ticks (Proc.proc2ctx p);
      mret (match r with Proc.Resume => inl 0 | _ => inr r end) : M Proc.kst (Z + Proc.switched)).
  destruct (call_begins _ _ _ _ _ _ _ _ _ _ _ _ Hcl inl (fun uasp res pid =>
    ret ← Proc.kexecve (load (kpath res) (kargv res) (kenvp res)) (stat (kpath res)) pid;
    _ ← Proc.onmm (vmm_sasp uasp); _ ← Proc.onmm (ffree (phys res) (npgs res)); tail ret)) as [?|(k1 & r & f & Hh & Hph & Hnp & Ec)]; [by left|right].
  exists k1, r, f. split; [done|]. intros k2 ret Enew Hord. destruct (call_returns _ _ _ _ _ _ _ _ _ _ _ _ Hcl k1 r f k2 (tail ret) Hh Hph Hnp Hord) as (k3 & E3 & Hret).
  exists k3. split; [done|]. assert (sys_execve smax emax load stat ticks path argv envp k = tail ret k3) as ->.
  { etransitivity; [exact Ec|]. by rewrite (bind_done _ _ _ _ _ Enew). }
  unfold tail. split; [intros Hneg; by rewrite (proj2 (Z.ltb_lt ret 0))|]. intros Hpos p Ep k4 x dir fb Esw. rewrite (proj2 (Z.ltb_ge ret 0)) by done.
  rewrite bind_gets. assert (Proc.proc (Proc.current k3) k3 = Done k3 p) as E4 by (unfold Proc.proc; by rewrite (re_procs _ _ _ _ _ Hret), Ep).
  rewrite (bind_done _ _ _ _ _ E4), bind_modify. by rewrite (bind_done _ _ _ _ _ Esw).
Qed.

End Newproc.
