(* ===== verification/Smp.v ===== *)
(** Scheduling on several cores: [src/smp/smp_main.c], [src/smp/apreq.c],
    [src/smp/bspreq.c].

    Model: the application processors' states and pending requests beside the
    process table of [Proc].  Code between the acquisition and the release of
    the process table lock is one step; the main loop of a core therefore takes
    two steps to start a process, the choice ([nextproc_core]) and the commitment
    ([ap_commit]).  Beside the state of the code, a world records which process each
    core executes, and the theorems relate it to [smp_info].  A request is handled when
    it is sent: the sender spins until the receiver has acknowledged. *)
From S2P Require Import Prelude Pmm Region PageTable VfsOps Fd Proc.

Module Smp.
Import Proc.

Definition AP_REQ_RUN : Z := 0.
Definition AP_REQ_PAUSE : Z := 1.
Definition AP_REQ_CONT : Z := 2.
Definition AP_REQ_STOP : Z := 3.
Definition AP_WAITING : Z := 0.
Definition AP_PAUSED : Z := 1.
Definition AP_START : Z := 2.
Definition AP_RUNNING : Z := 3.
Definition SMP_STATUS_WAITING : Z := 1.
Definition SMP_STATUS_WORKING : Z := 2.
Definition NOPID : Z := 0xFF.
Definition ENOCORE : Z := 17.

(** The registers an interrupt pushes. *)
Record intctx_t := mk_int {
  i_r15 : Z; i_r14 : Z; i_r13 : Z; i_r12 : Z; i_r11 : Z; i_r10 : Z; i_r9 : Z; i_r8 : Z;
  i_rbp : Z; i_rdi : Z; i_rsi : Z; i_rdx : Z; i_rcx : Z; i_rbx : Z; i_rax : Z;
  i_rip : Z; i_cs : Z; i_rflags : Z; i_rsp : Z; i_ss : Z
}.

Record ap_runreq_t := mk_run { fn : Z; arg : Z }.

Record ap_state := mk_ap { a_state : Z; rreq : ap_runreq_t; regs : intctx_t; a_cr3 : Z }.

Record smpst := mk_smp { kern : kst; apstates : list ap_state }.

Definition set_kern (k : kst) (s : smpst) : smpst := mk_smp k (apstates s).
Definition set_aps (a : list ap_state) (s : smpst) : smpst := mk_smp (kern s) a.

Notation MS := (M smpst).

Definition onk {A} (m : M kst A) : MS A := fun s =>
  match m (kern s) with Done k a => Done (set_kern k s) a | Fault => Fault end.

(** [smp_info]; APs run only once it has been allocated. *)
Definition cores : MS (list smp_info_t) := fun s =>
  match smp_info (kern s) with Some l => Done s l | None => Fault end.

Definition set_cores (l : list smp_info_t) : MS unit := onk (modify (set_smp (Some l))).

Definition ap (i : nat) : MS ap_state := fun s =>
  match apstates s !! i with Some a => Done s a | None => Fault end.

Definition set_ap (i : nat) (a : ap_state) : MS unit := modify (fun s => set_aps (<[i := a]> (apstates s)) s).

(** ** Cores and requests *)

Fixpoint find_core (i : nat) (l : list smp_info_t) (id : Z) : option nat :=
  match l with
  | [] => None
  | c :: rest => if apicid c =? id then Some i else find_core (S i) rest id
  end.

Definition smp_find_core (id : Z) : MS (option nat) := l ← cores; mret (find_core 0 l (u8 id)).

(** [BSP_REQ_SETSTAT] at the boot processor. *)
Fixpoint set_status (l : list smp_info_t) (id st : Z) : list smp_info_t :=
  match l with
  | [] => []
  | c :: rest =>
      if apicid c =? id then mk_core (apicid c) (core_pid c) (u8 st) :: rest
      else c :: set_status rest id st
  end.

Definition send_bsp_setstat (id st : Z) : MS unit := l ← cores; set_cores (set_status l id st).

Definition store_ctx (x : intctx_t) (a : ap_state) : ap_state := mk_ap (a_state a) (rreq a) x (a_cr3 a).

Definition zero_int : intctx_t := mk_int 0 0 0 0 0 0 0 0 0 0 0 0 0 0 0 0 0 0 0 0.

(** [mainloop]: the address of the idle loop; [stack]: the top of the core's stack. *)
Definition clear_ctx (mainloop stack : Z) (a : ap_state) : ap_state :=
  mk_ap (a_state a) (mk_run 0 0)
    (mk_int 0 0 0 0 0 0 0 0 0 0 0 0 0 0 0 mainloop 0x08 0x200202 stack 0x10) (a_cr3 a).

Definition set_state (st : Z) (a : ap_state) : ap_state := mk_ap st (rreq a) (regs a) (a_cr3 a).

(** The handler on the core with local APIC id [id], interrupted with registers
    [x].  Each of the four requests is acknowledged, also a run request that is
    turned down. *)
Definition smp_request_hdlr_c (id : Z) (type : Z) (run : ap_runreq_t) (x : intctx_t) : MS unit :=
  o ← smp_find_core id;
  match o with
  | None => mret tt
  | Some i =>
      a ← ap i;
      if type =? AP_REQ_RUN then
        if negb (a_state a =? AP_WAITING) then mret tt
        else set_ap i (mk_ap AP_START run (regs a) (a_cr3 a))
      else if type =? AP_REQ_PAUSE then set_ap i (store_ctx x (set_state AP_PAUSED a))
      else if type =? AP_REQ_CONT then set_ap i (set_state AP_RUNNING a)
      else if type =? AP_REQ_STOP then
        _ ← set_ap i (set_state AP_WAITING a); send_bsp_setstat id SMP_STATUS_WAITING
      else mret tt
  end.

(** A core we do not manage is left alone.  The request slots carry the same ids
    as [smp_info], in the same order. *)
Definition send_ap_request (id type : Z) (run : ap_runreq_t) (x : intctx_t) : MS unit :=
  l ← cores;
  match find_core 0 l id with
  | None => mret tt
  | Some _ => smp_request_hdlr_c id type run x
  end.

Fixpoint first_waiting (l : list smp_info_t) : option Z :=
  match l with
  | [] => None
  | c :: rest => if status c =? SMP_STATUS_WAITING then Some (apicid c) else first_waiting rest
  end.

Definition ap_run (run : ap_runreq_t) (x : intctx_t) : MS Z :=
  l ← cores;
  match first_waiting l with
  | None => mret (- ENOCORE)
  | Some id => _ ← send_ap_request id AP_REQ_RUN run x; mret (s32 id)
  end.

Definition ap_pause (id : Z) (x : intctx_t) : MS unit := send_ap_request id AP_REQ_PAUSE (mk_run 0 0) x.
Definition ap_continue (id : Z) (x : intctx_t) : MS unit := send_ap_request id AP_REQ_CONT (mk_run 0 0) x.
Definition ap_stop (id : Z) (x : intctx_t) : MS unit := send_ap_request id AP_REQ_STOP (mk_run 0 0) x.

(** ** The main loop of a core *)

(** Another core than [i] runs [pid]. *)
Fixpoint taken (c : nat) (l : list smp_info_t) (i : nat) (pid : Z) : bool :=
  match l with
  | [] => false
  | x :: rest => (negb (c =? i)%nat && (core_pid x =? u8 pid)) || taken (S c) rest i pid
  end.

Fixpoint pick_loop (n : nat) (t : list process_state_t) (l : list smp_info_t) (i : nat) (start step : Z)
  : option Z :=
  match n with
  | O => Some (-1)
  | S n' =>
      let cand := (start + 1 + step) mod MAX_PROCESSES in
      if (0 <=? start) && (cand =? start) then Some (-1) else
      p ← aget t cand;
      if used (life p) && negb (is_dead (life p)) && negb (is_blocked (life p)) &&
         negb (taken 0 l i cand)
      then Some cand
      else pick_loop n' t l i start (step + 1)
  end.

Definition nextproc_core (i : nat) : MS Z :=
  l ← cores;
  me ← deref (l !! i);
  s ← get;
  deref (pick_loop (Z.to_nat MAX_PROCESSES) (proctbl (kern s)) l i
           (if core_pid me =? NOPID then -1 else core_pid me) 0).

(** The registers of the core go into the entry of the process it ran. *)
Definition save_regs (a : ap_state) (p : process_state_t) : process_state_t :=
  let x := regs a in
  on_ctx (fun o =>
    mk_ctx (i_rip x) (i_rsp x) (i_rflags x) (i_rax x) (i_rbx x) (i_rcx x) (i_rdx x) (i_rsi x) (i_rdi x)
      (i_rbp x) (i_r8 x) (i_r9 x) (i_r10 x) (i_r11 x) (i_r12 x) (i_r13 x) (i_r14 x) (i_r15 x)
      (u16 (i_cs x)) (u16 (i_ss x)) (fs o) (gs o) (fsb o) (gsb o) (a_cr3 a)) p.

Definition load_regs (p : process_state_t) (a : ap_state) : ap_state :=
  let x := ctx p in
  mk_ap (a_state a) (rreq a)
    (mk_int (r15 x) (r14 x) (r13 x) (r12 x) (r11 x) (r10 x) (r9 x) (r8 x) (rbp x) (rdi x) (rsi x) (rdx x)
       (rcx x) (rbx x) (rax x) (rip x) (cs x) (rflags x) (rsp x) (ss x)) (x_cr3 x).

Definition set_core_pid (i : nat) (pid : Z) : MS unit :=
  l ← cores;
  c ← deref (l !! i);
  set_cores (<[i := mk_core (apicid c) pid (status c)]> l).

(** The second half of an iteration in state [AP_RUNNING]: the context the core
    goes on with, or none when it halts. *)
Definition ap_commit (i : nat) (pid : Z) : MS (option ap_state) :=
  if pid <? 0 then _ ← set_core_pid i NOPID; mret None
  else
    l ← cores;
    me ← deref (l !! i);
    let prev := core_pid me in
    _ ← set_core_pid i (u8 pid);
    a ← ap i;
    _ ← (if negb (prev =? NOPID) && (prev <? MAX_PROCESSES) then onk (upd prev (save_regs a)) else mret tt);
    p ← onk (proc pid);
    _ ← set_ap i (load_regs p a);
    mret (Some (load_regs p a)).

(** One iteration without interference. *)
Definition ap_iter (i : nat) : MS (option ap_state) := pid ← nextproc_core i; ap_commit i pid.

(** An iteration in state [AP_START]: [f] is the function that was requested,
    run between the two halves. *)
Definition ap_start (i : nat) (id mainloop stack : Z) (f : ap_runreq_t -> MS unit) : MS unit :=
  a ← ap i;
  let r := rreq a in
  _ ← set_ap i (clear_ctx mainloop stack a);
  _ ← send_bsp_setstat id SMP_STATUS_WORKING;
  _ ← (if fn r =? 0 then mret tt else f r);
  _ ← send_bsp_setstat id SMP_STATUS_WAITING;
  b ← ap i;
  let b := clear_ctx mainloop stack b in
  set_ap i (if a_state b =? AP_START then set_state AP_WAITING b else b).

Definition smp_main_finish (i : nat) (id mainloop stack : Z) : MS unit :=
  a ← ap i;
  _ ← set_ap i (clear_ctx mainloop stack (set_state AP_WAITING a));
  send_bsp_setstat id SMP_STATUS_WAITING.

(** ** No process on two cores *)

Definition smp_view (k : kst) : option (list smp_info_t) * Z := (smp_info k, bsp_apicid k).

Lemma smp_upd i f : keeps smp_view (upd i f).
Proof. by intros s s' a (p & _ & ->)%upd_inv. Qed.

Lemma smp_proc i : keeps smp_view (proc i).
Proof. by intros s s' a [-> _]%proc_eq. Qed.

Lemma smp_onmm {A} (m : M PageTable.mm A) : keeps smp_view (onmm m).
Proof. intros s s' a. unfold onmm. destruct (m (mach s)); [by intros [= <- _]|done]. Qed.

Lemma smp_nextproc_wait : forall ticks, keeps smp_view (nextproc_wait ticks).
Proof.
  assert (forall getms fuel start pid, keeps smp_view (nextproc_loop fuel getms start pid)) as Hl.
  { intros getms. induction fuel as [|fuel IH]; intros start pid; cbn [nextproc_loop]; [done|].
    repeat (apply IH || apply smp_upd || apply smp_proc || keeps_step). }
  induction ticks as [|t ticks IH]; cbn [nextproc_wait]; [apply keeps_ret|]. unfold nextproc.
  repeat (apply IH || apply Hl || keeps_step).
Qed.

(** The process chosen is on no other core. *)
Lemma nextproc_wait_free : forall ticks k k' tgt,
  tbl_ok k -> nextproc_wait ticks k = Done k' (Some tgt) ->
  0 <= tgt < MAX_PROCESSES /\ in_use k tgt = false.
Proof.
  induction ticks as [|t ticks IH]; intros k k' tgt Hok E; cbn [nextproc_wait] in E; [done|].
  apply bind_inv in E as (k1 & pid & E1 & E).
  destruct (nextproc_scan t k Hok) as [(j & p & Hj & Hp & Hr & _ & E2)|[_ E2]];
    rewrite E1 in E2; injection E2 as -> ->.
  - pose proof (slot_range k j) as Hrange. rewrite (proj2 (Z.ltb_ge _ 0)) in E by lia.
    injection E as _ <-. split; [done|]. unfold can_run in Hr. rewrite Hp in Hr. to_prop. done.
  - by apply IH in E.
Qed.

Lemma switch_smp ticks x k k' r :
  tbl_ok k -> switch_loop ticks x k = Done k' r ->
  match r with
  | Switch _ _ _ => in_use k (current k') = false /\ 0 <= current k' < MAX_PROCESSES /\
      smp_view k' = (set_bsp_pid (bsp_apicid k) (current k') <$> smp_info k, bsp_apicid k)
  | _ => smp_view k' = smp_view k /\ current k' = current k
  end.
Proof.
  intros Hok. unfold switch_loop. intros (k1 & o & E1 & E)%bind_inv.
  pose proof (smp_nextproc_wait ticks _ _ _ E1) as Hv.
  pose proof (keeps_nextproc_wait (fun _ => tt) ltac:(done) ltac:(done) ticks _ _ _ E1) as Hc. injection Hc as _ Hc.
  destruct o as [tgt|]; [|by injection E as <- <-].
  apply nextproc_wait_free in E1 as [Ht Hin]; [|done].
  rewrite (bind_done get _ k1 k1 k1 eq_refl) in E. apply bind_inv in E as (k2 & p & [-> Hp]%proc_eq & E).
  set (same := (tgt =? current k1) && negb (is_dead (life p))) in E.
  destruct (same && negb (scheduler_execve k1)); [by injection E as <- <-|].
  apply bind_inv in E as (k3 & [] & E3 & E).
  assert (smp_view k3 = smp_view k1) as Hv3 by (destruct same; by injection E3 as <-).
  apply bind_inv in E as (k4 & [] & E4 & E). apply smp_upd in E4.
  apply bind_inv in E as (k5 & [] & E5 & E). assert (current k5 = u8 tgt) as Hc5 by (by injection E5 as <-). apply smp_onmm in E5.
  rewrite bind_modify in E. apply bind_inv in E as (k6 & q & [-> Hq]%proc_eq & E).
  apply bind_inv in E as (k7 & [] & E7 & E). pose proof (keeps_onmm key _ (keeps_sasp _) _ _ _ E7) as Hk7. apply smp_onmm in E7. injection E as <- <-.
  injection Hk7 as _ Hk7. change (current (set_smp _ k5)) with (current k5) in Hk7. rewrite Hc5, wrap_small in Hk7 by (unfold MAX_PROCESSES in Ht; lia).
  rewrite Hk7. split_and!; try done; try lia. rewrite E7.
  rewrite E4, Hv3, Hv in E5. unfold smp_view in *. cbn [smp_info bsp_apicid set_smp].
  injection E5 as -> ->. rewrite wrap_small; [done|]. unfold MAX_PROCESSES in Ht. lia.
Qed.

(** Distinct cores have distinct ids and run distinct processes. *)
Definition exclusive (l : list smp_info_t) : Prop :=
  forall c d x y, l !! c = Some x -> l !! d = Some y -> c <> d ->
    apicid x <> apicid y /\ (core_pid x = core_pid y -> core_pid x = NOPID).

Lemma exclusive_insert l i x pid :
  exclusive l -> l !! i = Some x ->
  (pid = NOPID \/ forall d y, d <> i -> l !! d = Some y -> core_pid y <> pid) ->
  exclusive (<[i := mk_core (apicid x) pid (status x)]> l).
Proof.
  intros Hl Hx Hpid c d xc xd Hc Hd Hne.
  rewrite list_lookup_insert_Some in Hc, Hd.
  destruct Hc as [(<- & <- & _)|[Hci Hc]], Hd as [(<- & <- & _)|[Hdi Hd]]; [done| | |by eapply Hl].
  - destruct (Hl i d x xd Hx Hd Hne) as [Hid _]. split; [done|]. cbn. intros E.
    destruct Hpid as [?|H]; [done|]. by destruct (H d xd).
  - destruct (Hl c i xc x Hc Hx Hne) as [Hid _]. split; [done|]. cbn. intros E.
    destruct Hpid as [?|H]; [congruence|]. by destruct (H c xc).
Qed.

Lemma taken_spec pid i : forall l c d y,
  taken c l i pid = false -> l !! d = Some y -> (c + d)%nat <> i -> core_pid y <> u8 pid.
Proof.
  induction l as [|x l IH]; intros c d y Ht Hd Hne; [done|]. cbn [taken] in Ht.
  apply orb_false_iff in Ht as [H Ht].
  destruct d as [|d].
  - injection Hd as <-. rewrite Nat.add_0_r in Hne.
    destruct (Nat.eqb_spec c i); [done|]. cbn in H. by apply Z.eqb_neq.
  - apply (IH (S c) d y); [done|done|lia].
Qed.

Lemma pick_loop_free t l i start : forall n step pid,
  pick_loop n t l i start step = Some pid ->
  pid = -1 \/ (0 <= pid < MAX_PROCESSES /\ forall d y, d <> i -> l !! d = Some y -> core_pid y <> pid).
Proof.
  induction n as [|n IH]; intros step pid H; cbn [pick_loop] in H; [injection H as <-; by left|].
  set (cand := (start + 1 + step) mod MAX_PROCESSES) in *.
  assert (0 <= cand < MAX_PROCESSES) as Hc by (apply Z.mod_pos_bound; done).
  destruct ((0 <=? start) && (cand =? start)); [injection H as <-; by left|].
  destruct (aget t cand) as [p|]; [|done]. cbn [mbind option_bind] in H.
  destruct (used (life p) && negb (is_dead (life p)) && negb (is_blocked (life p)) && negb (taken 0 l i cand)) eqn:E;
    [|by eapply IH].
  injection H as <-. right. split; [done|]. intros d y Hd Hy. to_prop.
  rewrite <- (wrap_small 8 cand) by (unfold MAX_PROCESSES in Hc; lia).
  by eapply taken_spec; [done|done|].
Qed.

(** *** The system, each core's iteration taken as one step *)

Definition cores_of (s : smpst) : list smp_info_t := default [] (smp_info (kern s)).

(** The registers an iretq gives a core, and the page tables it has by then. *)
Definition shown (x : procctx_t) : intctx_t * Z :=
  (mk_int (r15 x) (r14 x) (r13 x) (r12 x) (r11 x) (r10 x) (r9 x) (r8 x) (rbp x) (rdi x) (rsi x) (rdx x)
     (rcx x) (rbx x) (rax x) (rip x) (cs x) (rflags x) (rsp x) (ss x), x_cr3 x).

(** The memory of the machine and, for each core that executes a process, which
    process that is.  The code has no such map: it follows what the cores load. *)
Record world := mk_world { sys : smpst; runs : gmap nat Z }.

(** A core goes to a process with these registers and page tables. *)
Record load := mk_load { l_core : nat; l_pid : Z; l_regs : intctx_t * Z }.

(** Core [i] is the boot processor, or one of the others. *)
Definition is_bsp (s : smpst) (i : nat) : Prop :=
  exists c, cores_of s !! i = Some c /\ apicid c = bsp_apicid (kern s).
Definition is_ap (s : smpst) (i : nat) : Prop :=
  exists c a, cores_of s !! i = Some c /\ apicid c <> bsp_apicid (kern s) /\
    apstates s !! i = Some a /\ a_state a = AP_RUNNING.

(** After [scheduler_switch] the boot processor waits, or runs the current process. *)
Definition bsp_runs (b : nat) (k : kst) (r : switched) (h : gmap nat Z) : gmap nat Z :=
  match r with Idle => delete b h | _ => <[b := current k]> h end.
Definition bsp_load (b : nat) (k : kst) (r : switched) : option load :=
  (fun y => mk_load b (current k) (shown y)) <$> loaded r.

(** A core that takes a request drops what it ran for its main loop. *)
Definition dropped (s : smpst) (id type : Z) (h : gmap nat Z) : gmap nat Z :=
  match find_core 0 (cores_of s) id with
  | Some i => if (AP_REQ_RUN <=? type) && (type <=? AP_REQ_STOP) then delete i h else h
  | None => h
  end.

(** Which process each core has, and which the boot processor's is. *)
Definition placed (s : smpst) : list (Z * Z) * Z * Z :=
  ((fun c => (apicid c, core_pid c)) <$> cores_of s, bsp_apicid (kern s), current (kern s)).

Inductive sstep : world -> option load -> world -> Prop :=
| s_start i q s s1 s' a h :
    is_ap s i -> nextproc_core i s = Done s1 q -> ap_commit i q s1 = Done s' (Some a) ->
    sstep (mk_world s h) (Some (mk_load i q (regs a, a_cr3 a))) (mk_world s' (<[i := q]> h))
| s_halt i q s s1 s' h :
    is_ap s i -> nextproc_core i s = Done s1 q -> ap_commit i q s1 = Done s' None ->
    sstep (mk_world s h) None (mk_world s' (delete i h))
| s_boot b s k r h :
    is_bsp s b -> start_scheduler (kern s) = Done k r ->
    sstep (mk_world s h) (bsp_load b k r) (mk_world (set_kern k s) (bsp_runs b k r h))
| s_tick b ticks x s k r h :
    is_bsp s b -> scheduler_switch ticks x (kern s) = Done k r ->
    sstep (mk_world s h) (bsp_load b k r) (mk_world (set_kern k s) (bsp_runs b k r h))
| s_wait b ticks x s k r h :
    is_bsp s b -> switch_loop ticks x (kern s) = Done k r ->
    sstep (mk_world s h) (bsp_load b k r) (mk_world (set_kern k s) (bsp_runs b k r h))
| s_request id type run x s s' h :
    send_ap_request id type run x s = Done s' tt ->
    sstep (mk_world s h) None (mk_world s' (dropped s id type h))
| s_call s s' h :
    placed s' = placed s -> tbl_ok (kern s') -> sstep (mk_world s h) None (mk_world s' h).

(** [smp_info] says of every core that executes a process which one it is, of the
    boot processor that it is the current one, and never names a process twice. *)
Record smp_inv (w : world) : Prop := mk_inv {
  inv_tbl : tbl_ok (kern (sys w));
  inv_cores : exclusive (cores_of (sys w));
  inv_bsp : exists b c, cores_of (sys w) !! b = Some c /\ apicid c = bsp_apicid (kern (sys w)) /\
    core_pid c = current (kern (sys w));
  inv_runs : forall i q, runs w !! i = Some q ->
    0 <= q < MAX_PROCESSES /\ exists c, cores_of (sys w) !! i = Some c /\ core_pid c = q
}.

Lemma cores_inv s s' l : cores s = Done s' l -> s' = s /\ smp_info (kern s) = Some l /\ cores_of s = l.
Proof.
  unfold cores, cores_of. destruct (smp_info (kern s)) as [x|]; [|done]. by intros [= <- <-].
Qed.

Lemma set_cores_at l s s' u :
  set_cores l s = Done s' u -> cores_of s' = l /\ proctbl (kern s') = proctbl (kern s) /\
    current (kern s') = current (kern s) /\ bsp_apicid (kern s') = bsp_apicid (kern s).
Proof. unfold set_cores, onk. by intros [= <- _]. Qed.

(** Statuses do not matter. *)
Lemma set_status_placed id st : forall l,
  (fun c => (apicid c, core_pid c)) <$> set_status l id st = (fun c => (apicid c, core_pid c)) <$> l.
Proof.
  induction l as [|c l IH]; cbn [set_status]; [done|]. destruct (apicid c =? id); [done|]. rewrite !fmap_cons. by f_equal.
Qed.

(** The entry of the boot processor is the one that is changed. *)
Lemma set_bsp_insert pid : forall l b c,
  exclusive l -> l !! b = Some c ->
  set_bsp_pid (apicid c) pid l = <[b := mk_core (apicid c) pid (status c)]> l.
Proof.
  induction l as [|x l IH]; intros b c Hl Hb; [done|]. cbn [set_bsp_pid].
  destruct b as [|b]; [injection Hb as ->; by rewrite Z.eqb_refl|].
  destruct (Hl 0%nat (S b) x c eq_refl Hb ltac:(done)) as [Hne _].
  rewrite (proj2 (Z.eqb_neq _ _) Hne). cbn. f_equal. apply IH; [|exact Hb].
  intros i j y z Hy Hz Hij. apply (Hl (S i) (S j)); [done|done|congruence].
Qed.

Lemma in_use_free k l b c tgt d y :
  smp_info k = Some l -> exclusive l -> l !! b = Some c -> apicid c = bsp_apicid k ->
  in_use k tgt = false -> 0 <= tgt < MAX_PROCESSES -> d <> b -> l !! d = Some y -> core_pid y <> tgt.
Proof.
  intros Hk Hl Hb Hc Hin Ht Hd Hy <-. destruct (Hl d b y c Hy Hb Hd) as [Hne _].
  unfold in_use in Hin. rewrite Hk in Hin. apply not_true_iff_false in Hin. apply Hin.
  apply existsb_exists. exists y. split; [apply list_elem_of_In; by eapply list_elem_of_lookup_2|].
  rewrite <- Hc, (proj2 (Z.eqb_neq _ _) Hne). cbn. apply Z.eqb_eq. symmetry. apply wrap_small.
  unfold MAX_PROCESSES in Ht. lia.
Qed.

Lemma set_core_pid_inv i pid s s' u :
  set_core_pid i pid s = Done s' u ->
  exists c, cores_of s !! i = Some c /\
    cores_of s' = <[i := mk_core (apicid c) pid (status c)]> (cores_of s) /\
    proctbl (kern s') = proctbl (kern s) /\ current (kern s') = current (kern s) /\
    bsp_apicid (kern s') = bsp_apicid (kern s).
Proof.
  unfold set_core_pid. intros (s1 & l & (-> & _ & <-)%cores_inv & E)%bind_inv.
  apply bind_inv in E as (s2 & c & E2 & E).
  destruct (cores_of s !! i) as [x|]; [|done]. injection E2 as <- <-.
  apply set_cores_at in E. eauto.
Qed.

(** What the registers go through does not matter to who runs where. *)
Definition who (s : smpst) : list smp_info_t * nat * Z * Z :=
  (cores_of s, length (proctbl (kern s)), current (kern s), bsp_apicid (kern s)).

Lemma who_upd i f : keeps who (onk (upd i f)).
Proof.
  intros s s' u. unfold onk. destruct (upd i f (kern s)) as [k x|] eqn:E; [|done].
  apply upd_inv in E as (p & _ & ->). intros [= <- _]. unfold who. cbn. by rewrite length_insert.
Qed.

Lemma who_proc i : keeps who (onk (proc i)).
Proof.
  intros s s' u. unfold onk. destruct (proc i (kern s)) as [k x|] eqn:E; [|done].
  apply proc_eq in E as [-> _]. by intros [= <- _].
Qed.

Lemma who_ap i : keeps who (ap i).
Proof. intros s s' a. unfold ap. destruct (apstates s !! i); [by intros [= <- _]|done]. Qed.

Lemma who_set_ap i a : keeps who (set_ap i a).
Proof. by apply keeps_modify. Qed.

Lemma who_tbl s s' : who s' = who s -> tbl_ok (kern s) -> tbl_ok (kern s').
Proof. unfold who, tbl_ok. by intros [= _ -> -> _]. Qed.

Lemma who_placed s s' : who s' = who s -> placed s' = placed s.
Proof. unfold who, placed. by intros [= -> _ -> ->]. Qed.

Lemma placed_lookup s s' i c :
  placed s' = placed s -> cores_of s !! i = Some c ->
  exists c', cores_of s' !! i = Some c' /\ apicid c' = apicid c /\ core_pid c' = core_pid c.
Proof.
  unfold placed. intros [= H _ _] Hc. apply (f_equal (.!! i)) in H. rewrite !list_lookup_fmap, Hc in H.
  destruct (cores_of s' !! i) as [c'|]; [|done]. injection H as Ha Hp. eauto.
Qed.

Lemma inv_placed s s' h :
  placed s' = placed s -> tbl_ok (kern s') -> smp_inv (mk_world s h) -> smp_inv (mk_world s' h).
Proof.
  intros Hp Hok [_ Hex (b & c & Hb & Ha & Hc) Hr]. cbn [sys runs] in *.
  assert (bsp_apicid (kern s') = bsp_apicid (kern s) /\ current (kern s') = current (kern s)) as [Eb Ec]
    by (unfold placed in Hp; by injection Hp as _ -> ->).
  split; cbn [sys runs]; [done| | |].
  - intros i j x y Hx Hy Hne.
    destruct (placed_lookup s' s i x (eq_sym Hp) Hx) as (x' & Hx' & <- & <-).
    destruct (placed_lookup s' s j y (eq_sym Hp) Hy) as (y' & Hy' & <- & <-). by apply (Hex i j).
  - destruct (placed_lookup s s' b c Hp Hb) as (c' & Hc' & Ea & Ep). exists b, c'. rewrite Ea, Ep, Eb, Ec. done.
  - intros i q Hq. destruct (Hr i q Hq) as (Hrange & x & Hx & Hpid). split; [done|].
    destruct (placed_lookup s s' i x Hp Hx) as (x' & Hx' & _ & Ep). exists x'. by rewrite Ep.
Qed.

Lemma inv_less s h i : smp_inv (mk_world s h) -> smp_inv (mk_world s (delete i h)).
Proof.
  intros [Hok Hex Hb Hr]. split; [done..|]. cbn [sys runs] in *.
  intros j q [_ Hj]%lookup_delete_Some. by apply Hr.
Qed.

(** Core [i] takes a process no other core has, or none. *)
Lemma inv_move s s' h h' i c q :
  smp_inv (mk_world s h) -> cores_of s !! i = Some c ->
  cores_of s' = <[i := mk_core (apicid c) q (status c)]> (cores_of s) ->
  bsp_apicid (kern s') = bsp_apicid (kern s) -> tbl_ok (kern s') ->
  (q = NOPID \/ forall d y, d <> i -> cores_of s !! d = Some y -> core_pid y <> q) ->
  current (kern s') = (if apicid c =? bsp_apicid (kern s) then q else current (kern s)) ->
  (forall v, h' !! i = Some v -> 0 <= v < MAX_PROCESSES /\ v = q) ->
  (forall j, j <> i -> h' !! j = h !! j) ->
  smp_inv (mk_world s' h').
Proof.
  intros [_ Hex (b & cb & Hb & Ha & Hcb) Hr] Hi Hl Hbsp Hok Hq Hcur Hh' Hh. cbn [sys runs] in *.
  assert (i < length (cores_of s))%nat as Hlt by (by eapply lookup_lt_Some).
  split; cbn [sys runs]; [done|rewrite Hl; by apply exclusive_insert| |].
  - exists b. rewrite Hl, Hbsp. destruct (decide (b = i)) as [->|Hne].
    + rewrite Hb in Hi. injection Hi as ->. rewrite list_lookup_insert_eq by done. eexists. split_and!; [done|done|].
      cbn. rewrite Hcur, Ha, Z.eqb_refl. done.
    + rewrite list_lookup_insert_ne by done. exists cb. split_and!; [done|done|].
      destruct (Hex b i cb c Hb Hi Hne) as [Hd _]. rewrite Ha in Hd.
      rewrite Hcur, (proj2 (Z.eqb_neq _ _)); [done|congruence].
  - intros j v Hv. rewrite Hl. destruct (decide (j = i)) as [->|Hne].
    + destruct (Hh' v Hv) as [Hrange ->]. split; [done|]. rewrite list_lookup_insert_eq by done. by eexists.
    + rewrite Hh in Hv by done. rewrite list_lookup_insert_ne by done. by apply Hr.
Qed.

(** *** Every step keeps the invariant *)

Lemma nextproc_core_free i s s1 q :
  nextproc_core i s = Done s1 q ->
  s1 = s /\ (q = -1 \/ (0 <= q < MAX_PROCESSES /\
    forall d y, d <> i -> cores_of s !! d = Some y -> core_pid y <> q)).
Proof.
  unfold nextproc_core. intros (s2 & l & (-> & _ & <-)%cores_inv & E)%bind_inv.
  apply bind_inv in E as (s3 & me & E3 & E).
  destruct (cores_of s !! i) as [x|] eqn:Hme; [|done]. injection E3 as <- <-.
  rewrite (bind_done get _ s s s eq_refl) in E.
  destruct (pick_loop _ _ _ _ _ _) as [pid'|] eqn:Ep; [|done]. injection E as <- <-.
  split; [done|]. by eapply pick_loop_free.
Qed.

(** What [ap_commit] records is what the core goes on with. *)
Lemma ap_commit_records i q s s' r :
  0 <= q < MAX_PROCESSES -> ap_commit i q s = Done s' r ->
  exists s1 a p, set_core_pid i q s = Done s1 tt /\ who s' = who s1 /\ r = Some a /\
    aget (proctbl (kern s')) q = Some p /\ (regs a, a_cr3 a) = shown (ctx p).
Proof.
  intros Hq. unfold ap_commit. rewrite (proj2 (Z.ltb_ge _ _)) by lia.
  intros (s1 & l & (-> & _ & <-)%cores_inv & E)%bind_inv.
  apply bind_inv in E as (s2 & me & E1 & E).
  destruct (cores_of s !! i) as [x|]; [|done]. injection E1 as <- <-.
  rewrite wrap_small in E by (unfold MAX_PROCESSES in Hq; lia).
  apply bind_inv in E as (s2 & [] & E2 & E).
  apply bind_inv in E as (s3 & a & E3 & E). apply who_ap in E3.
  apply bind_inv in E as (s4 & [] & E4 & E).
  assert (who s4 = who s3) as Hw4.
  { eapply keeps_run; [exact E4|]. repeat (apply who_upd || keeps_step). }
  apply bind_inv in E as (s5 & p & E5 & E). apply who_proc in E5 as Hw5.
  unfold onk in E5. destruct (proc q (kern s4)) as [k y|] eqn:Ep; [|done]. injection E5 as <- ->.
  apply proc_eq in Ep as [-> Hp]. apply bind_inv in E as (s6 & [] & E6 & E). injection E as <- <-.
  injection E6 as <-.
  exists s2, (load_regs p a), p. split_and!; [done| |done|done|done]. by rewrite <- E3, <- Hw4.
Qed.

Lemma inv_ap i q s s1 s' r h :
  smp_inv (mk_world s h) -> is_ap s i -> nextproc_core i s = Done s1 q -> ap_commit i q s1 = Done s' r ->
  smp_inv (mk_world s' (match r with Some _ => <[i := q]> h | None => delete i h end)).
Proof.
  intros Hinv (c & a0 & Hc & Ha & _) [-> Hq]%nextproc_core_free E.
  assert (forall s1 h' v, set_core_pid i v s = Done s1 tt ->
            (v = NOPID \/ forall d y, d <> i -> cores_of s !! d = Some y -> core_pid y <> v) ->
            (forall u, h' !! i = Some u -> 0 <= u < MAX_PROCESSES /\ u = v) ->
            (forall j, j <> i -> h' !! j = h !! j) -> smp_inv (mk_world s1 h')) as Hset.
  { intros s1 h' v (c' & Hc' & Hl & Ht & Hcur & Hb)%set_core_pid_inv Hv Hh Hne.
    rewrite Hc in Hc'. injection Hc' as <-.
    eapply inv_move; [exact Hinv|exact Hc|exact Hl|exact Hb| |exact Hv| |exact Hh|exact Hne].
    - unfold tbl_ok. rewrite Ht, Hcur. apply Hinv.
    - by rewrite (proj2 (Z.eqb_neq _ _)). }
  destruct Hq as [->|[Hr Hfree]].
  - apply bind_inv in E as (s1 & [] & E1 & E). injection E as <- <-.
    apply (Hset _ _ NOPID E1); [by left| |]; intros j; [by rewrite lookup_delete_eq|]. intros Hj. apply lookup_delete_ne. congruence.
  - destruct (ap_commit_records _ _ _ _ _ Hr E) as (s1 & a & p & E1 & Hw & -> & _).
    assert (smp_inv (mk_world s1 (<[i := q]> h))) as H1.
    { apply (Hset _ _ q E1); [by right| |].
      - intros u. rewrite lookup_insert_eq. by intros [= <-].
      - intros j Hj. by rewrite lookup_insert_ne by congruence. }
    eapply inv_placed; [by apply who_placed|eapply who_tbl; [exact Hw|apply H1]|exact H1].
Qed.

Lemma switch_tbl ticks x k k' r : tbl_ok k -> switch_loop ticks x k = Done k' r -> tbl_ok k'.
Proof.
  intros Hok E. pose proof (switch_loop_keys _ _ _ _ _ Hok E) as [Hk Hr].
  assert (Z.of_nat (length (keys k').1) = MAX_PROCESSES) as Hl
    by (rewrite Hk; unfold view; cbn [fst]; rewrite length_map; apply Hok).
  apply tbl_ok_of; [done|]. destruct r; try (rewrite Hr; apply Hok);
    destruct Hr as (kk & Hkk & _); apply aget_bound in Hkk; lia.
Qed.

Lemma inv_resume b s k h :
  smp_inv (mk_world s h) -> is_bsp s b -> smp_view k = smp_view (kern s) -> current k = current (kern s) ->
  tbl_ok k -> smp_inv (mk_world (set_kern k s) (<[b := current k]> h)).
Proof.
  intros Hinv (c & Hc & Ha) Hv Hcur Hok.
  assert (placed (set_kern k s) = placed s) as Hp.
  { unfold placed, cores_of. cbn [kern set_kern]. unfold smp_view in Hv. injection Hv as -> ->. by rewrite Hcur. }
  apply (inv_placed _ _ _ Hp Hok). pose proof Hinv as [Hok' Hex (b' & cb & Hb & Ha' & Hpid) Hr]. cbn [sys runs] in *.
  assert (b' = b) as ->.
  { destruct (decide (b' = b)) as [?|Hne]; [done|]. destruct (Hex b' b cb c Hb Hc Hne) as [H _]. congruence. }
  split; cbn [sys runs]; [done|done|by exists b, cb|]. intros j q. destruct (decide (j = b)) as [->|Hne].
  - rewrite lookup_insert_eq, Hcur. intros [= <-]. split; [apply Hok'|]. by exists cb.
  - rewrite lookup_insert_ne by done. by apply Hr.
Qed.

Lemma smp_inv_switch b ticks x s k r h :
  smp_inv (mk_world s h) -> is_bsp s b -> switch_loop ticks x (kern s) = Done k r ->
  smp_inv (mk_world (set_kern k s) (bsp_runs b k r h)).
Proof.
  intros Hinv Hb E. pose proof (inv_tbl _ Hinv) as Hok. cbn [sys] in Hok.
  pose proof (switch_tbl _ _ _ _ _ Hok E) as Hok'. pose proof (switch_smp _ _ _ _ _ Hok E) as Hv.
  destruct r as [| |y d f]; cbn [bsp_runs].
  - destruct Hv as [Hv Hc]. by apply inv_resume.
  - destruct Hv as [Hv Hc]. rewrite <- (delete_insert_eq h b (current k)). apply inv_less. by apply inv_resume.
  - destruct Hv as (Hin & Ht & Hv). destruct Hb as (c & Hc & Ha).
    unfold smp_view in Hv. injection Hv as Hl Hbsp.
    assert (smp_info (kern s) = Some (cores_of s)) as El.
    { unfold cores_of in *. by destruct (smp_info (kern s)). }
    pose proof (inv_cores _ Hinv) as Hex. cbn [sys] in Hex.
    eapply (inv_move _ _ h _ b c (current k)); [exact Hinv|exact Hc| |exact Hbsp|exact Hok'| | | |].
    + unfold cores_of at 1. cbn [kern set_kern]. rewrite Hl, El. cbn. rewrite <- Ha. by apply set_bsp_insert.
    + right. intros e z He Hz. exact (in_use_free _ _ _ _ _ _ _ El Hex Hc Ha Hin Ht He Hz).
    + by rewrite Ha, Z.eqb_refl.
    + intros v. rewrite lookup_insert_eq. by intros [= <-].
    + intros j Hj. by rewrite lookup_insert_ne by congruence.
Qed.

Lemma inv_tick b ticks x s k r h :
  smp_inv (mk_world s h) -> is_bsp s b -> scheduler_switch ticks x (kern s) = Done k r ->
  smp_inv (mk_world (set_kern k s) (bsp_runs b k r h)).
Proof.
  intros Hinv Hb. unfold scheduler_switch. rewrite bind_modify.
  apply (smp_inv_switch b ticks x (set_kern (set_pending false (kern s)) s)); [|exact Hb].
  eapply inv_placed; [| |exact Hinv]; [done|apply Hinv].
Qed.

Lemma start_loads k k' r :
  start_scheduler k = Done k' r ->
  smp_view k' = smp_view k /\ keys k' = keys k /\
  exists y d f, r = Switch y d f /\ aget (view ctx k').1 (current k') = Some y.
Proof.
  unfold start_scheduler. rewrite bind_gets. intros (k1 & p & [-> Hp]%proc_eq & E)%bind_inv.
  apply bind_inv in E as (k2 & [] & E2 & E). pose proof (keeps_onmm key _ (keeps_sasp _) _ _ _ E2) as Hk.
  pose proof (keeps_onmm ctx _ (keeps_sasp _) _ _ _ E2) as Hx. apply smp_onmm in E2. injection E as <- <-.
  split_and!; [done|done|]. eexists _, _, _. split; [done|]. rewrite Hx. injection Hk as _ ->.
  unfold view. cbn [fst]. by rewrite aget_map, Hp.
Qed.

Lemma inv_boot b s k r h :
  smp_inv (mk_world s h) -> is_bsp s b -> start_scheduler (kern s) = Done k r ->
  smp_inv (mk_world (set_kern k s) (bsp_runs b k r h)).
Proof.
  intros Hinv Hb (Hv & Hk & y & d & f & -> & _)%start_loads. pose proof (inv_tbl _ Hinv) as Hok. cbn [sys] in Hok.
  apply inv_resume; [done|done|done|by injection Hk as _ ->|].
  apply tbl_ok_of; rewrite Hk; [|apply Hok]. unfold view. cbn [fst]. rewrite length_map. apply Hok.
Qed.

Lemma status_placed s s' id st u :
  send_bsp_setstat id st s = Done s' u -> placed s' = placed s /\ proctbl (kern s') = proctbl (kern s).
Proof.
  unfold send_bsp_setstat. intros (s5 & l & (-> & _ & <-)%cores_inv & E)%bind_inv.
  apply set_cores_at in E as (Hc & Ht & Hcur & Hb). split; [|done].
  unfold placed. by rewrite Hc, Hcur, Hb, set_status_placed.
Qed.

Lemma request_placed id type run x s s' :
  send_ap_request id type run x s = Done s' tt ->
  placed s' = placed s /\ length (proctbl (kern s')) = length (proctbl (kern s)).
Proof.
  assert (forall s s', who s' = who s -> placed s' = placed s /\ length (proctbl (kern s')) = length (proctbl (kern s))) as Hw.
  { intros s1 s2 H. split; [by apply who_placed|]. unfold who in H. by injection H as _ ->. }
  unfold send_ap_request. intros (s1 & l & (-> & _ & <-)%cores_inv & E)%bind_inv.
  destruct (find_core 0 (cores_of s) id); [|by injection E as <-].
  unfold smp_request_hdlr_c in E. apply bind_inv in E as (s2 & o & E2 & E).
  assert (s2 = s) as ->.
  { unfold smp_find_core in E2. apply bind_inv in E2 as (s3 & l & (-> & _ & <-)%cores_inv & E2). by injection E2 as <- _. }
  destruct o as [i|]; [|by injection E as <-].
  apply bind_inv in E as (s3 & a & E3 & E). apply who_ap in E3.
  destruct (type =? AP_REQ_RUN).
  { apply Hw. rewrite <- E3. eapply keeps_run; [exact E|]. repeat (apply who_set_ap || keeps_step). }
  destruct (type =? AP_REQ_PAUSE); [apply Hw; rewrite <- E3; by apply who_set_ap in E|].
  destruct (type =? AP_REQ_CONT); [apply Hw; rewrite <- E3; by apply who_set_ap in E|].
  destruct (type =? AP_REQ_STOP); [|injection E as <-; by apply Hw].
  apply bind_inv in E as (s4 & [] & E4 & E). apply who_set_ap in E4. rewrite E3 in E4.
  apply status_placed in E as [Hp Ht]. destruct (Hw _ _ E4) as [Hp4 Hl4]. rewrite Hp, Ht. done.
Qed.

Lemma inv_request id type run x s s' h :
  smp_inv (mk_world s h) -> send_ap_request id type run x s = Done s' tt ->
  smp_inv (mk_world s' (dropped s id type h)).
Proof.
  intros Hinv [Hp Hl]%request_placed.
  assert (smp_inv (mk_world s' h)) as H.
  { apply (inv_placed s); [done| |done]. pose proof (inv_tbl _ Hinv) as [Hlen Hcur]. cbn [sys] in *.
    unfold tbl_ok. rewrite Hl. unfold placed in Hp. by injection Hp as _ _ ->. }
  unfold dropped. destruct (find_core _ _ _); [|done]. destruct (_ && _); [by apply inv_less|done].
Qed.

Lemma smp_inv_step w e w' : smp_inv w -> sstep w e w' -> smp_inv w'.
Proof.
  intros Hinv Hs. destruct Hs as [i q s s1 s' a h Hi E1 E|i q s s1 s' h Hi E1 E|b s k r h Hb E|b ticks x s k r h Hb E|b ticks x s k r h Hb E|id type run x s s' h E|s s' h Hp Hok].
  - exact (inv_ap _ _ _ _ _ _ _ Hinv Hi E1 E).
  - exact (inv_ap _ _ _ _ _ _ _ Hinv Hi E1 E).
  - by apply inv_boot.
  - by eapply inv_tick.
  - by eapply smp_inv_switch.
  - by eapply inv_request.
  - by eapply inv_placed.
Qed.

(** In a state with the invariant the cores execute distinct processes. *)
Lemma runs_apart w i j q : smp_inv w -> runs w !! i = Some q -> runs w !! j = Some q -> i = j.
Proof.
  intros [_ Hex _ Hr] Hi Hj. destruct (decide (i = j)) as [?|Hne]; [done|].
  destruct (Hr i q Hi) as (Hq & x & Hx & Ex), (Hr j q Hj) as (_ & y & Hy & Ey).
  destruct (Hex i j x y Hx Hy Hne) as [_ H]. rewrite Ex, Ey in H. specialize (H eq_refl).
  unfold NOPID, MAX_PROCESSES in *. lia.
Qed.

(** A core that is started on a process gets the registers in its entry. *)
Lemma step_starts w i q x w' :
  smp_inv w -> sstep w (Some (mk_load i q x)) w' ->
  runs w' = <[i := q]> (runs w) /\
  exists p, aget (proctbl (kern (sys w'))) q = Some p /\ x = shown (ctx p).
Proof.
  intros Hinv Hs. pose proof (inv_tbl _ Hinv) as Hok.
  assert (forall b k r h, (forall y, loaded r = Some y -> aget (view ctx k).1 (current k) = Some y) ->
            Some (mk_load i q x) = bsp_load b k r ->
            bsp_runs b k r h = <[i := q]> h /\ exists p, aget (proctbl k) q = Some p /\ x = shown (ctx p)) as Hbsp.
  { intros b k r h Hl Hy. unfold bsp_load in Hy. destruct r as [| |y d f]; cbn in Hy; [done..|]. injection Hy as -> -> ->.
    split; [done|]. specialize (Hl y eq_refl). unfold view in Hl. cbn [fst] in Hl. rewrite aget_map in Hl.
    destruct (aget (proctbl k) (current k)) as [p|]; [|done]. exists p. by injection Hl as ->. }
  inversion Hs as [i' q' s s1 s' a h Hi E1 E| |b s k r h Hb E Hl|b ticks y s k r h Hb E Hl|b ticks y s k r h Hb E Hl| |]; subst;
    cbn [sys runs] in *.
  - split; [done|]. apply nextproc_core_free in E1 as [-> [->|[Hr _]]]; [by apply bind_inv in E as (s2 & [] & _ & E)|].
    destruct (ap_commit_records _ _ _ _ _ Hr E) as (s2 & a' & p & _ & _ & [= <-] & Hp & Hx). eauto.
  - eapply Hbsp; [|by symmetry]. destruct (start_loads _ _ _ E) as (_ & _ & z & d & f & -> & Hz). intros y [= <-]. exact Hz.
  - eapply Hbsp; [|by symmetry]. intros z. by apply (switch_loads _ _ _ _ _ _ Hok E).
  - eapply Hbsp; [|by symmetry]. intros z. by apply (switch_loop_loads _ _ _ _ _ _ Hok E).
Qed.

Inductive ssteps : world -> world -> Prop :=
| ssteps_refl w : ssteps w w
| ssteps_step w1 w2 e w3 : ssteps w1 w2 -> sstep w2 e w3 -> ssteps w1 w3.

(** C38. When every core chooses and commits in one go, no process ever executes
    on two cores.  Take a state in which [smp_info] names for each core the
    process it executes and for the boot processor the current one, without
    naming one twice, as the boot code sets it up.  Then, through any sequence of
    scheduling steps of the cores, switches and waits of the boot processor,
    requests between cores and other code, which leaves the assignment alone,
    [smp_info] keeps naming what each core executes, two cores never execute the
    same process, and a core that goes to a process gets the registers and page
    tables of its entry while no other core executes it. *)
Theorem cores_exclusive w w' : smp_inv w -> ssteps w w' ->
  smp_inv w' /\ (forall i j q, runs w' !! i = Some q -> runs w' !! j = Some q -> i = j) /\
  (forall i q x w2, sstep w' (Some (mk_load i q x)) w2 ->
    runs w2 !! i = Some q /\ (forall j, j <> i -> runs w' !! j <> Some q) /\
    exists p, aget (proctbl (kern (sys w2))) q = Some p /\ x = shown (ctx p)).
Proof.
  intros Hinv Hs. assert (smp_inv w') as Hinv'.
  { induction Hs as [|w1 w2 e w3 _ IH Hs]; [done|]. by eapply smp_inv_step; [exact (IH Hinv)|]. }
  split; [done|]. split; [intros i j q; by apply runs_apart|]. intros i q x w2 E.
  destruct (step_starts _ _ _ _ _ Hinv' E) as [Hr Hp]. rewrite Hr, lookup_insert_eq. split; [done|]. split; [|done].
  intros j Hne Hj. apply Hne. apply (runs_apart w2 j i q); [by eapply smp_inv_step|rewrite Hr..].
  - by rewrite lookup_insert_ne.
  - by rewrite lookup_insert_eq.
Qed.

(** ** Interleaved cores *)

(** Boot processor and two application processors, all idle but the first;
    process 1 is ready. *)
Definition cores3 : list smp_info_t := [mk_core 0 0 0; mk_core 1 NOPID 1; mk_core 2 NOPID 1].
Definition ap0 : ap_state := mk_ap AP_RUNNING (mk_run 0 0) zero_int 0.
Definition smp0 : smpst := mk_smp (set_smp (Some cores3) k2) [ap0; ap0; ap0].

Definition world0 : world := mk_world smp0 ∅.

Lemma smp0_inv : smp_inv world0.
Proof.
  split; cbn [sys runs world0].
  - split; by vm_compute.
  - intros [|[|[|c]]] [|[|[|d]]] x y Hx Hy Hne; try done;
      injection Hx as <-; injection Hy as <-; (split; [done|]); by cbn.
  - exists 0%nat, (mk_core 0 0 0). split_and!; by vm_compute.
  - done.
Qed.

(** The boot processor starts process 0, then core 1 goes to process 1 and core 2
    finds nothing to run. *)
Lemma cores_exclusive_witness :
  exists w, ssteps world0 w /\ runs w !! 0%nat = Some 0 /\ runs w !! 1%nat = Some 1 /\ runs w !! 2%nat = None /\ smp_inv w.
Proof.
  set (s1 := set_kern (state_of (start_scheduler (kern smp0)) (kern smp0)) smp0).
  set (s2 := state_of (ap_iter 1 s1) s1). set (s3 := state_of (ap_iter 2 s2) s2).
  assert (ssteps world0 (mk_world s3 (delete 2%nat (<[1%nat := 1]> (<[0%nat := 0]> ∅))))) as H.
  { eapply ssteps_step; [eapply ssteps_step; [eapply ssteps_step; [apply ssteps_refl|]|]|].
    - eapply (s_boot 0 smp0 (kern s1)); [eexists; split; by vm_compute|by vm_compute].
    - eapply (s_start 1 1 s1 s1 s2); [eexists _, _; split_and!; by vm_compute|by vm_compute..].
    - eapply (s_halt 2 (-1) s2 s2 s3); [eexists _, _; split_and!; by vm_compute|by vm_compute..]. }
  eexists. split; [exact H|]. split_and!; [by vm_compute..|]. exact (proj1 (cores_exclusive _ _ smp0_inv H)).
Defined.

(** With the two halves interleaved a process does run on two cores: the
    process table lock is released between [nextproc_core] and the update of
    [smp_info], so two idle cores can both choose process 1 and then both
    commit to it. *)
Theorem cores_race :
  let run := (p1 ← nextproc_core 1; p2 ← nextproc_core 2; _ ← ap_commit 1 p1; ap_commit 2 p2) in
  smp_inv world0 /\
  (core_pid <$> cores_of (state_of (run smp0) smp0)) = [0; 1; 1] /\
  (forall h, ~ smp_inv (mk_world (state_of (run smp0) smp0) h)).
Proof.
  intros run. split; [exact smp0_inv|]. split; [by vm_compute|]. intros h [_ H _ _]. cbn [sys] in H.
  assert (cores_of (state_of (run smp0) smp0) = [mk_core 0 0 0; mk_core 1 1 1; mk_core 2 1 1]) as E by (by vm_compute).
  rewrite E in H. destruct (H 1%nat 2%nat _ _ eq_refl eq_refl ltac:(done)) as [_ H']. by specialize (H' eq_refl).
Qed.

End Smp.
