(* ===== verification/Syscall.v ===== *)
(** System calls ([src/usr/syscall.c], [src/usr/syscalls/fs.c], [system.c], [time.c],
    [io.c]): the dispatcher and the calls that work on files, memory and the
    identity of the process.

    Model: the state of the processes and of memory ([Proc]) next to the file
    layer ([Vfs]), whose descriptors and identity are those of the process that
    calls.  User memory is reached through the active page tables. *)
From S2P Require Import Prelude Pmm Region PageTable PageRange Spaces UserMem VfsPath VfsOps Fd Vfs Proc.

Module Syscall.
Import PageTable Spaces.
Notation kst := Proc.kst.
Notation vst := Vfs.vst.

(** ** Numbers and registers *)

Record sysregs := mk_regs {
  num : Z; a0 : Z; a1 : Z; a2 : Z; a3 : Z; a4 : Z; a5 : Z;
  r_es : Z; r_ds : Z; r_rflags : Z; r_rip : Z }.

Definition with_num (n : Z) (r : sysregs) : sysregs :=
  mk_regs n (a0 r) (a1 r) (a2 r) (a3 r) (a4 r) (a5 r) (r_es r) (r_ds r) (r_rflags r) (r_rip r).

Inductive handler :=
| h_exit | h_read | h_write | h_open | h_close | h_creat | h_unlink | h_lseek | h_rename | h_mkdir | h_rmdir
| h_reboot | h_stat | h_poweroff | h_sleep | h_readdir | h_opendir | h_sync | h_termctl | h_createfb | h_switchfb
| h_clearfb | h_flushscr | h_getfbinf | h_getcurfb | h_gettimeofday | h_getmtimeofday | h_gettimemonoms
| h_gettimemono | h_mmap | h_munmap | h_getrawsc | h_getmouseinfo | h_newproc | h_wait | h_kill | h_getpid
| h_getuid | h_setuid | h_getgid | h_setgid | h_geteuid | h_getegid | h_setegid | h_serialwrite | h_getrawscto
| h_execve | h_random64 | h_randombytes | h_getpwd | h_setpwd | h_setcurs | h_getcurs | h_mprotect | h_ioctl.

(** The initialisers of the table, as they are written. *)
Definition syscall_inits : list (Z * handler) :=
  [(1, h_exit); (2, h_read); (3, h_write); (4, h_open); (5, h_close); (6, h_creat); (7, h_unlink); (9, h_lseek);
   (10, h_rename); (11, h_mkdir); (12, h_rmdir); (13, h_reboot); (14, h_stat); (15, h_poweroff); (16, h_sleep);
   (17, h_readdir); (18, h_opendir); (21, h_sync); (23, h_termctl); (24, h_createfb); (26, h_switchfb); (27, h_clearfb);
   (28, h_flushscr); (29, h_getfbinf); (31, h_getcurfb); (32, h_gettimeofday); (33, h_getmtimeofday);
   (34, h_gettimemonoms); (35, h_gettimemono); (36, h_mmap); (37, h_munmap); (38, h_getrawsc); (41, h_getmouseinfo);
   (42, h_newproc); (43, h_wait); (44, h_kill); (45, h_getpid); (46, h_getuid); (47, h_setuid); (48, h_getgid);
   (49, h_setgid); (50, h_geteuid); (51, h_geteuid); (52, h_getegid); (53, h_setegid); (54, h_serialwrite);
   (55, h_getrawscto); (56, h_execve); (57, h_random64); (58, h_randombytes); (59, h_getpwd); (60, h_setpwd);
   (61, h_setcurs); (62, h_getcurs); (63, h_mprotect); (64, h_ioctl)].

(** The entry of a number; a number without one, or behind the table, has none. *)
Definition syscall_tbl (n : Z) : option handler := snd <$> find (fun e => fst e =? n) syscall_inits.

(** ** The state *)

Record sys (D : Type) := mk_sys { kern : kst; fs : vst D }.
Arguments mk_sys {D}.
Arguments kern {D}.
Arguments fs {D}.

Section calls.
Context {D : Type}.
Notation MV := (M (vst D)).
Notation MS := (M (sys D)).

(** The file layer as process [p] sees it. *)
Definition focus (p : Proc.process_state_t) (v : vst D) : vst D :=
  Vfs.mk_vst (Vfs.mounts v) (Vfs.gen v) (Vfs.cwd v) (Vfs.oom v) (Vfs.garbage v) (Vfs.fdmem v)
    (Proc.fdt (Proc.own p)) (Proc.euid (Proc.cred p)) (Proc.egid (Proc.cred p)) (Vfs.dev v).

Definition onk {A} (m : M kst A) : MS A := fun s =>
  match m (kern s) with Done k a => Done (mk_sys k (fs s)) a | Fault => Fault end.

Definition onmm {A} (m : M mm A) : MS A := onk (Proc.onmm m).

Definition onfs {A} (m : MV A) : MS A := fun s =>
  let k := kern s in
  match aget (Proc.proctbl k) (Proc.current k) with
  | None => Fault
  | Some p =>
      match m (focus p (fs s)) with
      | Done v a =>
          Done (mk_sys (Proc.set_tbl (<[Z.to_nat (Proc.current k) := Proc.on_own (Proc.set_fdt (Vfs.fdt v)) p]> (Proc.proctbl k)) k) v) a
      | Fault => Fault
      end
  end.

(** A string of a user, which [ensure_string] has found to end within [n] bytes. *)
Fixpoint ustr (n : nat) (va : Z) : M mm (list Z) :=
  match n with
  | O => fault
  | S n' => c ← ldb va; if c =? 0 then mret [] else r ← ustr n' (u64 (va + 1)); mret (c :: r)
  end.

(** [struct stat], packed: a name of up to 1024 bytes and the fields behind it. *)
Definition stat_fields : list nat := [2; 4; 4; 4; 2; 2; 8; 8]%nat.
Definition stat_size : Z := 1058.
Definition put_stat (va : Z) (st : Vfs.stat_t) : M mm unit :=
  _ ← vwrite va (Vfs.st_name st ++ [0]);
  vwrite (u64 (va + 1024)) (enc_fields stat_fields
    [Vfs.st_uid st; Vfs.st_atime st; Vfs.st_ctime st; Vfs.st_mtime st; Vfs.st_gid st; Vfs.st_mode st; Vfs.st_size st; Vfs.st_ino st]).

(** What drivers that are not files do: framebuffers, the console, the devices. *)
Context (free_fb free_fbw : Z -> MV Z) (io_read dev_read : Z -> Z -> MV (Z * list Z)) (io_write dev_write : Z -> list Z -> MV Z).
(** Steps allowed to the loops over a directory. *)
Context (fuel : nat).

(** ** Calls on files *)

Definition sys_read (r : sysregs) : MS Z :=
  ok ← onmm (ensure_pointer (a1 r) (a2 r) true);
  if negb ok then mret (- EINVAL) else
  '(ret, bs) ← onfs (Vfs.read io_read dev_read (s32 (a0 r)) (a2 r));
  _ ← onmm (vwrite (a1 r) bs);
  mret (s32 ret).

(** The bytes are fetched before the descriptor is looked at. *)
Definition sys_write (r : sysregs) : MS Z :=
  ok ← onmm (ensure_pointer (a1 r) (a2 r) false);
  if negb ok then mret (- EINVAL) else
  bs ← onmm (vread (a1 r) (Z.to_nat (a2 r)));
  onfs (Vfs.write io_write dev_write (s32 (a0 r)) bs).

(** A call on the string at [va]. *)
Definition with_ustr (va : Z) (k : list Z -> MS Z) : MS Z :=
  ok ← onmm (ensure_string va 256 false);
  if negb ok then mret (- EINVAL) else
  path ← onmm (ustr 256 va); k path.

Definition sys_open (r : sysregs) : MS Z :=
  with_ustr (a0 r) (fun path => onfs (Vfs.open path (s32 (a1 r)) (u16 (a2 r)))).
Definition sys_close (r : sysregs) : MS Z := onfs (Vfs.close free_fb free_fbw (s32 (a0 r))).
Definition sys_creat (r : sysregs) : MS Z := with_ustr (a0 r) (fun path => onfs (Vfs.creat path (s32 (a1 r)))).
Definition sys_unlink (r : sysregs) : MS Z := with_ustr (a0 r) (fun path => onfs (Vfs.unlink path)).
Definition sys_lseek (r : sysregs) : MS Z := onfs (Vfs.lseek (s32 (a0 r)) (s64 (a1 r)) (s32 (a2 r))).

(** Both strings are checked before either is used. *)
Definition sys_rename (r : sysregs) : MS Z :=
  ok ← onmm (ensure_string (a0 r) 256 false);
  if negb ok then mret (- EINVAL) else
  with_ustr (a1 r) (fun nname => oname ← onmm (ustr 256 (a0 r)); onfs (Vfs.rename oname nname)).

Definition sys_mkdir (r : sysregs) : MS Z := with_ustr (a0 r) (fun path => onfs (Vfs.mkdir fuel path (s32 (a1 r)))).
Definition sys_rmdir (r : sysregs) : MS Z := with_ustr (a0 r) (fun path => onfs (Vfs.rmdir fuel path)).

(** The result, and the structure stored when there is one. *)
Definition store_stat (va : Z) (m : MV (Z * option Vfs.stat_t)) : MS Z :=
  '(ret, o) ← onfs m;
  _ ← match o with Some st => onmm (put_stat va st) | None => mret tt end;
  mret ret.

Definition sys_stat (r : sysregs) : MS Z :=
  ok ← onmm (ensure_string (a0 r) 256 false);
  if negb ok then mret (- EINVAL) else
  ok ← onmm (ensure_pointer (a1 r) stat_size true);
  if negb ok then mret (- EINVAL) else
  path ← onmm (ustr 256 (a0 r));
  store_stat (a1 r) (Vfs.stat path).

Definition sys_readdir (r : sysregs) : MS Z :=
  ok ← onmm (ensure_pointer (a1 r) stat_size true);
  if negb ok then mret (- EINVAL) else
  store_stat (a1 r) (Vfs.readdir (s32 (a0 r))).

Definition sys_opendir (r : sysregs) : MS Z := with_ustr (a0 r) (fun path => onfs (Vfs.opendir path)).
Definition sys_sync (r : sysregs) : MS Z := onfs (Vfs.sync (s32 (a0 r))).
Definition sys_trunc (r : sysregs) : MS Z := onfs (Vfs.trunc (s32 (a0 r))).

(** ** The directory of the process *)

Definition my_proc : MS Proc.process_state_t := onk (c ← gets Proc.current; Proc.proc c).

Definition sys_getpwd (r : sysregs) : MS Z :=
  ok ← onmm (ensure_string (a0 r) 256 true);
  if negb ok then mret (- EINVAL) else
  p ← my_proc;
  match Proc.pwd (Proc.own p) with
  | None => mret (- EINVAL)
  | Some pwd =>
      let buf := a0 r in let bufsz := a1 r in
      if bufsz =? 0 then mret (- EINVAL) else
      _ ← (if bufsz <? Z.of_nat (length pwd) + 1
           then _ ← onmm (vwrite buf (take (Z.to_nat (bufsz - 1)) pwd)); onmm (vwrite (u64 (buf + bufsz)) [0])
           else onmm (vwrite buf (pwd ++ [0])));
      mret 0
  end.

Definition sys_setpwd (r : sysregs) : MS Z :=
  with_ustr (a0 r) (fun path =>
    '(ret, newpath) ← onfs (Vfs.canonicalize path 1025);
    if ret <? 0 then mret (- ETOOSMALL) else
    ok ← onk Proc.malloc;
    if negb ok then mret (- ENOMEM) else
    _ ← onk (c ← gets Proc.current; Proc.upd c (Proc.on_own (Proc.set_pwd (Some newpath))));
    mret 0).

(** ** Memory *)

Definition sys_mmap (r : sysregs) : MS Z := t ← onmm vmm_cpml4v; onmm (user_mmap t (a0 r) (a1 r) (a2 r) (a3 r)).
Definition sys_munmap (r : sysregs) : MS Z := t ← onmm vmm_cpml4v; onmm (user_munmap t (a0 r) (a1 r) (a2 r)).
Definition sys_mprotect (r : sysregs) : MS Z := t ← onmm vmm_cpml4v; onmm (user_mprotect t (a0 r) (a1 r) (a2 r)).

(** ** The dispatcher

    [now]: the clock at the time of the call; [other]: the calls of the drivers for
    display, input, random numbers and power, and those that make or end processes. *)
Context (other : option Z -> handler -> sysregs -> MS Z).

Definition run (now : option Z) (h : handler) (r : sysregs) : MS Z :=
  match h with
  | h_read => sys_read r
  | h_write => sys_write r
  | h_open => sys_open r
  | h_close => sys_close r
  | h_creat => sys_creat r
  | h_unlink => sys_unlink r
  | h_lseek => sys_lseek r
  | h_rename => sys_rename r
  | h_mkdir => sys_mkdir r
  | h_rmdir => sys_rmdir r
  | h_stat => sys_stat r
  | h_readdir => sys_readdir r
  | h_opendir => sys_opendir r
  | h_sync => sys_sync r
  | h_getpwd => sys_getpwd r
  | h_setpwd => sys_setpwd r
  | h_mmap => sys_mmap r
  | h_munmap => sys_munmap r
  | h_mprotect => sys_mprotect r
  | h_sleep => onk (Proc.sys_sleep now (a0 r))
  | h_gettimemonoms => deref now
  | h_wait => onk (Proc.sys_wait (a0 r) (a1 r))
  | h_kill => onk (Proc.sys_kill (a0 r))
  | h_getpid => onk Proc.sys_getpid
  | h_getuid => onk Proc.sys_getuid
  | h_setuid => onk (Proc.sys_setuid (a0 r))
  | h_getgid => onk Proc.sys_getgid
  | h_setgid => onk (Proc.sys_setgid (a0 r))
  | h_geteuid => onk Proc.sys_geteuid
  | h_getegid => onk Proc.sys_getegid
  | h_setegid => onk (Proc.sys_setegid (a0 r))
  | _ => other now h r
  end.

(** The registers of the caller after the call. *)
Definition syscall_c (now : option Z) (r : sysregs) : MS sysregs :=
  uasp ← onmm vmm_cpml4v;
  match syscall_tbl (num r) with
  | None => mret (with_num (u64 (- EINVAL)) r)
  | Some h =>
      ret ← run now h r;
      _ ← onmm (vmm_sasp uasp);
      mret (with_num (u64 ret) r)
  end.

End calls.

End Syscall.
