(* ===== verification/SyscallIo.v ===== *)
(** What the system calls on open files do for a process: bytes go from its memory
    into a file and back, over any file system driver that keeps the file promise,
    and whatever pointer it passes, the kernel does not fault. *)
From S2P Require Import Prelude Pmm Region PageTable PageRange Spaces UserMem VfsPath VfsOps Fd Vfs Proc Syscall.

Module SyscallIo.
Import PageTable Spaces UserMem VfsOps Fd Syscall.

Section io.
Context {D : Type} (ops : vfsops_t D) (v : vfs_t) {laws : file_laws ops v}.
Implicit Types (s : sys D).

Notation machine s := (Proc.mach (kern s)).

(** Descriptor [d] of the process that calls is open on file [ino] with contents
    [c], at [pos]. *)
Definition on_file s (d ino : Z) (c : list Z) (pos : Z) : Prop :=
  exists p f, aget (Proc.proctbl (kern s)) (Proc.current (kern s)) = Some p /\
    Vfs.fd_open ops v (focus p (fs s)) d f /\ fs_ok (Vfs.dev (fs s)) /\ holds (Vfs.dev (fs s)) ino c /\
    f_ino f = ino /\ 0 <= ino < 2 ^ 32 /\ f_pos f = pos.

Lemma sys_onmm_done {A} (m : M mm A) s m' (a : A) : m (machine s) = Done m' a ->
  onmm m s = Done (mk_sys (Proc.set_mach m' (kern s)) (fs s)) a.
Proof. intros E. unfold onmm, onk, Proc.onmm. by rewrite E. Qed.

(** Storing to memory leaves the files alone. *)
Lemma on_file_mach s m' d ino c pos : current_pid m' = current_pid (machine s) -> on_file s d ino c pos ->
  on_file (mk_sys (Proc.set_mach m' (kern s)) (fs s)) d ino c pos.
Proof. intros Hc. unfold on_file, Proc.current. cbn. by rewrite Hc. Qed.

(** A call of the file layer that ends with the descriptor still open. *)
Lemma sys_onfs_done {A} (m : M (Vfs.vst D) A) s p v' (a : A) d f c : aget (Proc.proctbl (kern s)) (Proc.current (kern s)) = Some p ->
  m (focus p (fs s)) = Done v' a -> Vfs.fd_open ops v v' d f -> fs_ok (Vfs.dev v') -> holds (Vfs.dev v') (f_ino f) c -> 0 <= f_ino f < 2 ^ 32 ->
  exists s', onfs m s = Done s' a /\ machine s' = machine s /\ Vfs.dev (fs s') = Vfs.dev v' /\ on_file s' d (f_ino f) c (f_pos f).
Proof.
  intros Hp E Ho Hok Hh Hi. unfold onfs. rewrite Hp, E. eexists. split; [done|]. cbn [kern fs Proc.mach Proc.set_tbl]. split_and!; [done|done|].
  eexists (Proc.on_own (Proc.set_fdt (Vfs.fdt v')) p), f. unfold Proc.current. cbn [kern fs Proc.mach Proc.set_tbl Proc.proctbl].
  pose proof (aget_bound _ _ _ Hp) as Hb. unfold Proc.current in *. rewrite aget_insert, decide_True by lia. split_and!; try done; lia.
Qed.

Lemma lseek_call s d ino c pos off : on_file s d ino c pos -> 0 <= off < 2 ^ 63 ->
  exists s', onfs (Vfs.lseek d off Vfs.SEEK_SET) s = Done s' off /\ machine s' = machine s /\ on_file s' d ino c off.
Proof.
  intros (p & f & Hp & Ho & Hok & Hh & Hf & Hi & Hpos) Hoff. rewrite <- Hf in Hh, Hi.
  destruct (Vfs.lseek_set_ok ops v (focus p (fs s)) d f c off Ho Hok Hh Hi Hoff) as (s1 & f' & E & Hd & Ho' & Hi' & Hp').
  destruct (sys_onfs_done (Vfs.lseek d off Vfs.SEEK_SET) s p s1 off d f' c Hp E Ho') as (s' & E' & Hm & _ & Hon); [by rewrite Hd|by rewrite Hd, Hi'|by rewrite Hi'|].
  exists s'. split_and!; [done|done|]. rewrite <- Hf, <- Hi'. by rewrite Hp' in Hon.
Qed.

Context (free_fb free_fbw : Z -> M (Vfs.vst D) Z) (io_read dev_read : Z -> Z -> M (Vfs.vst D) (Z * list Z)) (io_write dev_write : Z -> list Z -> M (Vfs.vst D) Z).

Lemma read_call s d ino c pos n : on_file s d ino c pos -> 0 <= pos <= Z.of_nat (length c) -> Z.of_nat (length c) < 2 ^ 63 -> 0 <= n < 2 ^ 62 ->
  let b := take (Z.to_nat n) (drop (Z.to_nat pos) c) in
  exists s', onfs (Vfs.read io_read dev_read d n) s = Done s' (Z.of_nat (length b), b) /\ machine s' = machine s /\ on_file s' d ino c (pos + Z.of_nat (length b)).
Proof.
  intros (p & f & Hp & Ho & Hok & Hh & Hf & Hi & Hpos) Hr Hl Hn b. rewrite <- Hf in Hh, Hi.
  destruct (Vfs.fsread_ok ops v (focus p (fs s)) d f c (Z.to_nat pos) n Ho Hok Hh Hi) as (s1 & E & Hd & f' & Ho' & Hi' & Hp'); [lia|lia|lia|].
  destruct (sys_onfs_done (Vfs.read io_read dev_read d n) s p s1 (Z.of_nat (length b), b) d f' c Hp) as (s' & E' & Hm & _ & Hon); [|done|by rewrite Hd|by rewrite Hd, Hi'|by rewrite Hi'|].
  - unfold Vfs.read. destruct Ho as (_ & (j & u & Hget) & _). rewrite bind_gets, Hget, bind_deref. exact E.
  - exists s'. split_and!; [done|done|]. rewrite <- Hf, <- Hi'. replace (pos + _) with (f_pos f'); [done|]. rewrite Hp'. unfold b. rewrite wrap_small; [lia|].
    rewrite length_take, length_drop. lia.
Qed.

Lemma write_call s d ino c off buf : on_file s d ino c (Z.of_nat off) -> (off <= length c)%nat -> Z.of_nat (off + length buf) < 2 ^ 62 ->
  room (Vfs.dev (fs s)) ino (Z.of_nat (off + length buf)) ->
  exists s' n, onfs (Vfs.write io_write dev_write d buf) s = Done s' n /\ machine s' = machine s /\
    ((n < 0 /\ may_fail) \/ (n = Z.of_nat (length buf) /\ on_file s' d ino (splice c buf off) (Z.of_nat (off + length buf)))).
Proof.
  intros (p & f & Hp & Ho & Hok & Hh & Hf & Hi & Hpos) Hoff Hmax Hroom. rewrite <- Hf in Hh, Hi, Hroom.
  destruct (Vfs.fswrite_ok ops v (focus p (fs s)) d f c off buf Ho Hok Hh Hi Hpos Hoff Hmax Hroom) as (s1 & n & E & Hok1 & Hcase).
  assert (Vfs.write io_write dev_write d buf (focus p (fs s)) = Done s1 n) as Ew.
  { unfold Vfs.write. destruct Ho as (_ & (j & u & Hget) & _). unfold Vfs.with_fd. by rewrite bind_gets, Hget, bind_deref. }
  destruct Hcase as [(Hneg & Hmay & _)|(-> & Hnew & f' & Ho' & Hi' & Hp')].
  - unfold onfs. rewrite Hp, Ew. eexists _, n. split_and!; [done|done|by left].
  - destruct (sys_onfs_done (Vfs.write io_write dev_write d buf) s p s1 (Z.of_nat (length buf)) d f' (splice c buf off) Hp Ew Ho' Hok1) as (s' & E' & Hm & _ & Hon);
      [by rewrite Hi'|by rewrite Hi'|]. exists s', (Z.of_nat (length buf)). split_and!; [done|done|right]. rewrite <- Hf, <- Hi'. by rewrite Hp' in Hon.
Qed.

(** ** The calls *)

Lemma onmm_same {A} (m : M mm A) s (a : A) : m (machine s) = Done (machine s) a -> onmm m s = Done s a.
Proof. intros E. rewrite (sys_onmm_done _ _ _ _ E). by destruct s as [[] ?]. Qed.

Context (T : gmap Z (list Z)) (c : Z).

Lemma uaddrs_length m va n : length (uaddrs c m va n) = n.
Proof. unfold uaddrs. by rewrite length_map, length_seq. Qed.

Lemma ubytes_ok m va n : bytes (ubytes c m va n) /\ length (ubytes c m va n) = n.
Proof.
  split; [|unfold ubytes; by rewrite length_map, uaddrs_length]. unfold ubytes. apply Forall_map, Forall_forall. intros x _. cbn. unfold pbyte.
  change 0xFF with (Z.ones 8). rewrite Z.land_ones by lia. by apply Z.mod_pos_bound.
Qed.

(** A buffer that is mapped goes to the file layer. *)
Lemma sys_write_fetches s r : user_space (machine s) T c -> 0 < a1 r < 2 ^ 47 -> 0 <= a2 r -> ensured (machine s) c false (a1 r) (a2 r) ->
  sys_write io_write dev_write r s = onfs (Vfs.write io_write dev_write (s32 (a0 r)) (ubytes c (machine s) (a1 r) (Z.to_nat (a2 r)))) s.
Proof.
  intros Hu Hp Hn He. unfold sys_write. rewrite (bind_done _ _ _ _ _ (onmm_same _ s _ (ensure_pointer_complete T c _ _ _ false Hu Hp Hn He))).
  cbn [negb]. rewrite (bind_done _ _ _ _ _ (onmm_same _ s _ (vread_ok T c (Z.to_nat (a2 r)) _ _ Hu ltac:(by rewrite Z2Nat.id)))). done.
Qed.

(** What was read is stored in a buffer that passed the check. *)
Lemma sys_read_stores s r d ino cont pos : user_space (machine s) T c -> on_file s d ino cont pos -> 0 <= pos <= Z.of_nat (length cont) ->
  Z.of_nat (length cont) < 2 ^ 63 -> s32 (a0 r) = d -> 0 <= a2 r < 2 ^ 62 -> ensured (machine s) c false (a1 r) (a2 r) ->
  ensure_pointer (a1 r) (a2 r) true (machine s) = Done (machine s) true ->
  let b := take (Z.to_nat (a2 r)) (drop (Z.to_nat pos) cont) in let l := uaddrs c (machine s) (a1 r) (length b) in
  exists s', sys_read io_read dev_read r s = Done s' (s32 (Z.of_nat (length b))) /\ user_space (machine s') T c /\ on_file s' d ino cont (pos + Z.of_nat (length b)) /\
    (bytes b -> (forall x, x ∉ l -> pbyte (m_mem (machine s')) x = pbyte (m_mem (machine s)) x) /\ (NoDup l -> ubytes c (machine s') (a1 r) (length b) = b)).
Proof.
  intros Hu Hf Hpos Hl Hd Hn He Ec b l. unfold sys_read. rewrite (bind_done _ _ _ _ _ (onmm_same _ s _ Ec)). cbn [negb].
  destruct (read_call s d ino cont pos (a2 r) Hf Hpos Hl Hn) as (s1 & E1 & Hm & Hf1). fold b in E1, Hf1. rewrite Hd, (bind_done _ _ _ _ _ E1).
  assert (Z.of_nat (length b) <= a2 r) as Hb by (unfold b; rewrite length_take; lia).
  assert (user_space (machine s1) T c) as Hu1 by (by rewrite Hm).
  destruct (vwrite_us T c b (machine s1) (a1 r) Hu1) as [Ew Hs].
  { rewrite Hm. destruct He as (? & ? & He). split_and!; [done|lia|]. intros i Hi. apply He. lia. }
  rewrite (bind_done _ _ _ _ _ (sys_onmm_done _ s1 _ _ Ew)). eexists. split; [done|]. cbn [kern Proc.mach Proc.set_mach]. rewrite Hm in *.
  destruct (user_space_same T c (machine s) _ Hu Hs) as [Hu2 Htr]. split_and!; [done|apply on_file_mach; [by rewrite Hm|done]|].
  intros Hbb. split; [intros x Hx; by apply scatter_out|]. intros Hnd. unfold ubytes. rewrite uaddrs_same by done. apply scatter_in; [done|done|apply uaddrs_length].
Qed.

(** ** The dispatcher *)

Lemma sasp_us m : user_space m T c -> vmm_sasp (u64 (hhdm_offset m + c)) m = Done (set_cr3 c m) tt /\ user_space (set_cr3 c m) T c.
Proof.
  intros Hu. destruct (us_inv _ _ _ Hu) as ((_ & _ & _ & Hp & Ht) & _ & _). destruct (tree_frame _ _ _ _ (us_inv _ _ _ Hu) (us_root _ _ _ Hu)) as (? & Ha & ? & _).
  rewrite wrap_small by lia. unfold vmm_sasp. rewrite (proj2 (Z.eqb_neq _ 0)), bind_gets by lia. split.
  - unfold modify. do 3 f_equal. rewrite wrap_small by lia. lia.
  - destruct Hu as [Hi Hr Hc Hh Hd]. split; try done. cbn. rewrite frame_eq by lia. Z.to_euclidean_division_equations. lia.
Qed.

Context (fuel : nat) (other : option Z -> handler -> sysregs -> M (sys D) Z).
Notation call := (syscall_c free_fb free_fbw io_read dev_read io_write dev_write fuel other).
Notation run_call := (run free_fb free_fbw io_read dev_read io_write dev_write fuel other).

Lemma syscall_done now s r h s' ret : user_space (machine s) T c -> syscall_tbl (num r) = Some h -> run_call now h r s = Done s' ret -> user_space (machine s') T c ->
  call now r s = Done (mk_sys (Proc.set_mach (set_cr3 c (machine s')) (kern s')) (fs s')) (with_num (u64 ret) r) /\ user_space (set_cr3 c (machine s')) T c.
Proof.
  intros Hu Hh Er Hu'. unfold syscall_c. rewrite (bind_done _ _ _ _ _ (onmm_same _ s _ (cpml4v_us T c _ Hu))), Hh, (bind_done _ _ _ _ _ Er).
  destruct (sasp_us _ Hu') as [Es Hu2]. rewrite (us_hhdm _ _ _ Hu), <- (us_hhdm _ _ _ Hu'). by rewrite (bind_done _ _ _ _ _ (sys_onmm_done _ s' _ _ Es)).
Qed.

(** The registers of a call with three arguments. *)
Definition asks (r : sysregs) (n x y z : Z) : Prop := num r = n /\ a0 r = x /\ a1 r = y /\ a2 r = z.


(** C5. Whatever buffer in the lower half of the address space a process passes to
    [read], the kernel does not fault.  A buffer that is not mapped for the process, or
    is NULL, is refused and nothing has happened; otherwise the bytes of the file are
    stored in it, no table of the address space has changed and no byte outside the
    buffer.  The last page of the buffer must be one that the check looks at, which
    is so for every buffer that starts on a page. *)
Theorem sys_read_safe s r d ino cont pos :
  user_space (machine s) T c -> on_file s d ino cont pos -> 0 <= pos <= Z.of_nat (length cont) -> Z.of_nat (length cont) < 2 ^ 62 -> bytes cont ->
  s32 (a0 r) = d -> 0 <= a1 r -> 0 <= a2 r -> a1 r + a2 r <= 2 ^ 47 -> a1 r mod 4096 + a2 r <= 4096 * looked_at (a2 r) ->
  let b := take (Z.to_nat (a2 r)) (drop (Z.to_nat pos) cont) in
  let l := uaddrs c (machine s) (a1 r) (length b) in
  exists s' ret, sys_read io_read dev_read r s = Done s' ret /\
    ((ret = - EINVAL /\ s' = s /\ ~ (0 < a1 r < 2 ^ 47 /\ ensured (machine s) c true (a1 r) (a2 r))) \/
     (ret = s32 (Z.of_nat (length b)) /\ ensured (machine s) c true (a1 r) (a2 r) /\
      user_space (machine s') T c /\ on_file s' d ino cont (pos + Z.of_nat (length b)) /\
      (forall x, x ∉ l -> pbyte (m_mem (machine s')) x = pbyte (m_mem (machine s)) x) /\
      (NoDup l -> ubytes c (machine s') (a1 r) (length b) = b))).
Proof.
  intros Hu Hf Hpos Hcl Hcb Hd H1 H2 Htop Hcov b l.
  destruct (ensure_pointer_answers T c (machine s) (a1 r) (a2 r) true Hu H1) as [[] Ec].
  - pose proof (ensure_pointer_true T c _ _ _ _ _ Hu H1 H2 Htop Hcov Ec) as He.
    destruct (sys_read_stores s r d ino cont pos Hu Hf Hpos ltac:(lia) Hd ltac:(lia) (ensured_weaken _ _ _ _ _ He) Ec) as (s' & E & Hu' & Hf' & Hb').
    exists s', (s32 (Z.of_nat (length b))). split; [exact E|right]. destruct Hb' as [? ?]; [by apply Forall_take, Forall_drop|]. by split_and!.
  - exists s, (- EINVAL). split; [unfold sys_read; by rewrite (bind_done _ _ _ _ _ (onmm_same _ s _ Ec))|left]. split_and!; [done..|].
    intros [Hr He]. rewrite (ensure_pointer_complete T c _ _ _ true Hu Hr H2 He) in Ec. done.
Qed.

End io.

End SyscallIo.
