(* ===== verification/SyscallRun.v ===== *)
(** A process with one page of memory and a file of a ramfs open: the system calls
    at work, and what goes wrong in some of them. *)
From S2P Require Import Prelude Pmm Region PageTable PageRange Spaces UserMem VfsPath VfsOps Fd Ramfs Vfs VfsRamfs Proc Newproc Syscall SyscallIo.

Module SyscallRun.
Import PageTable Spaces UserMem Syscall SyscallIo.
#[local] Existing Instance Ramfs.ramfs_file_laws.

(** Tables in the frames 1 to 4, the page 0x1000 in frame 6 with the bytes 1 to 8
    at its start. *)
Definition mem1 : gmap Z Z :=
  <[4096 := 8192 + 7]> (<[8192 := 12288 + 7]> (<[12288 := 16384 + 7]> (<[16384 + 8 := 24576 + 7]> (<[24576 := 0x0807060504030201]> ∅)))).
Definition pm1 : Pmm.pmm_state := Pmm.mk_pmm 65536 0 16 0 4096 [255; 0] 2.
Definition mm1 : mm := mk_mm pm1 mem1 65536 HHDM_START 0 (HHDM_START + 4096) 4096 [] None (replicate 3 (Region.mk_range 0 0 0 0)) 1.
Definition T1 : gmap Z (list Z) := <[4096 := []]> (<[8192 := [0]]> (<[12288 := [0; 0]]> (<[16384 := [0; 0; 0]]> ∅))).

Lemma T1_Some t p : T1 !! t = Some p -> (t = 4096 /\ p = []) \/ (t = 8192 /\ p = [0]) \/ (t = 12288 /\ p = [0; 0]) \/ (t = 16384 /\ p = [0; 0; 0]).
Proof. unfold T1. rewrite !lookup_insert_Some, lookup_empty. intros H. naive_solver. Qed.

(** The entries in use. *)
Lemma mem1_present a : present (word mem1 a) = true ->
  (a = 4096 /\ word mem1 a = 8199) \/ (a = 8192 /\ word mem1 a = 12295) \/ (a = 12288 /\ word mem1 a = 16391) \/
  (a = 16392 /\ word mem1 a = 24583) \/ a = 24576.
Proof.
  unfold mem1. rewrite !word_insert. repeat case_decide; subst; intros Hp; try (by vm_compute in Hp); naive_solver.
Qed.

Lemma mm1_inv : inv mm1 T1.
Proof.
  split_and!.
  - split_and!; try done. unfold Pmm.pmm_wf, Pmm.bytes_ok. cbn. split_and!; try done. repeat constructor; lia.
  - split.
    + intros t p [[-> ->]|[[-> ->]|[[-> ->]|[-> ->]]]]%T1_Some; cbn; split_and!; try done; lia.
    + intros t p i Ht Hi Hp Hpr _. cbn [m_mem mm1] in Hpr. apply mem1_present in Hpr.
      apply T1_Some in Ht as [[-> ->]|[[-> ->]|[[-> ->]|[-> ->]]]]; cbn in Hp; try lia;
        destruct Hpr as [[Ha Hw]|[[Ha Hw]|[[Ha Hw]|[[Ha Hw]|Ha]]]]; try lia; cbn [m_mem mm1]; rewrite Hw; assert (i = 0) as -> by lia; reflexivity.
  - by intros t p [[-> ->]|[[-> ->]|[[-> ->]|[-> ->]]]]%T1_Some.
Qed.

(** The walk of an address in the lower half leads to the page table only in the
    first two megabytes. *)
Lemma idx_zero va : 0 <= va < 2 ^ 47 -> PML4_IDX va = 0 -> PDPT_IDX va = 0 -> PD_IDX va = 0 -> PT_IDX va = 1 -> va / 4096 = 1.
Proof.
  intros Hv. unfold PML4_IDX, PDPT_IDX, PD_IDX, PT_IDX. change 0x1FF with (Z.ones 9). rewrite !Z.land_ones, !Z.shiftr_div_pow2 by lia.
  change (2 ^ 9) with 512. change (2 ^ 12) with 4096. replace (2 ^ 21) with (4096 * 512) by lia. replace (2 ^ 30) with (4096 * 512 * 512) by lia. replace (2 ^ 39) with (4096 * 512 * 512 * 512) by lia.
  rewrite <- !Z.div_div by lia. assert (0 <= va / 4096 < 2 ^ 35) by (clear -Hv; Z.to_euclidean_division_equations; lia). generalize dependent (va / 4096). intros q Hq H1 H2 H3 H4.
  clear Hv. Z.to_euclidean_division_equations. lia.
Qed.

(** Only the page 0x1000 is mapped. *)
Lemma mm1_may w va : 0 <= va < 2 ^ 47 -> may mm1 4096 w va = true -> va / 4096 = 1.
Proof.
  intros Hv. unfold may, vpath. cbn [allows m_mem mm1]. rewrite !andb_true_iff.
  intros [E4 [E3 [E2 Hr]]]. apply entry_present, mem1_present in E4. pose proof (idx_range va 39). fold (PML4_IDX va) in *.
  assert (PML4_IDX va = 0 /\ word mem1 (4096 + 8 * PML4_IDX va) = 8199) as [I4 W4] by (destruct E4 as [[? ?]|[[? ?]|[[? ?]|[[? ?]|?]]]]; split; done || lia).
  rewrite W4 in *. change (frame 8199) with 8192 in *. apply entry_present, mem1_present in E3. pose proof (idx_range va 30). fold (PDPT_IDX va) in *.
  assert (PDPT_IDX va = 0 /\ word mem1 (8192 + 8 * PDPT_IDX va) = 12295) as [I3 W3] by (destruct E3 as [[? ?]|[[? ?]|[[? ?]|[[? ?]|?]]]]; split; done || lia).
  rewrite W3 in *. change (frame 12295) with 12288 in *. apply entry_present, mem1_present in E2. pose proof (idx_range va 21). fold (PD_IDX va) in *.
  assert (PD_IDX va = 0 /\ word mem1 (12288 + 8 * PD_IDX va) = 16391) as [I2 W2] by (destruct E2 as [[? ?]|[[? ?]|[[? ?]|[[? ?]|?]]]]; split; done || lia).
  rewrite W2 in *. change (huge 16391) with false in Hr. change (frame 16391) with 16384 in *. cbn [orb] in Hr. apply andb_true_iff in Hr as [E1 _].
  apply entry_present, mem1_present in E1. pose proof (idx_range va 12). fold (PT_IDX va) in *. apply idx_zero; try done.
  destruct E1 as [[? ?]|[[? ?]|[[? ?]|[[? ?]|?]]]]; lia.
Qed.

(** It is mapped on frame 6. *)
Lemma mm1_page va : 0 <= va < 2 ^ 47 -> va / 4096 = 1 -> (forall w, may mm1 4096 w va = true) /\ translate mm1 4096 va = 24576 + va mod 4096.
Proof.
  intros Hv Hq. assert (vpath va = [0; 0; 0; 1]) as E by (rewrite (vpath_same_page va 4096); [reflexivity|lia|lia|by rewrite Hq]). split.
  - intros w. unfold may. rewrite E. by destruct w.
  - unfold translate. rewrite E. change (tr (m_mem mm1) 4096 [0; 0; 0; 1] va) with (Z.lor 24576 (Z.land va 0xFFF)).
    change 0xFFF with (Z.ones 12). rewrite Z.land_ones by lia. change (2 ^ 12) with 4096. apply lor_low_add; [lia|done|by apply Z.mod_pos_bound].
Qed.

Lemma mm1_user : user_space mm1 T1 4096.
Proof.
  split; [exact mm1_inv|reflexivity|reflexivity|reflexivity|]. intros va Hv Hm. apply mm1_may in Hm; [|done]. destruct (mm1_page va Hv Hm) as [_ ->].
  pose proof (Z.mod_pos_bound va 4096 ltac:(lia)). split; [cbn; lia|]. intros t p Ht. replace ((24576 + va mod 4096) / 4096) with 6 by (Z.to_euclidean_division_equations; lia).
  by apply T1_Some in Ht as [[-> _]|[[-> _]|[[-> _]|[-> _]]]].
Qed.

Lemma mm1_ensured w va n : 4096 <= va -> 0 <= n -> va + n <= 8192 -> ensured mm1 4096 w va n.
Proof.
  intros. split_and!; [lia|lia|]. intros i Hi. apply mm1_page; [lia|]. Z.to_euclidean_division_equations. lia.
Qed.

(** Process 1 with inode 2 open as descriptor 0. *)
Definition proc1 : Proc.process_state_t :=
  Proc.on_own (Proc.set_fdt (Vfs.fdt (VfsRamfs.sys Ramfs.with_file))) Proc.zero_proc.
Definition k1 : Proc.kst := Proc.mk_kst [Proc.zero_proc; proc1] mm1 None 0 false false [].
Definition sys1 : sys Ramfs.rst := mk_sys k1 (VfsRamfs.sys Ramfs.with_file).

Lemma sys1_on_file : on_file Ramfs.ramfs_ops Ramfs.vfs0 sys1 0 2 [] 0.
Proof.
  exists proc1, VfsRamfs.open_file. split; [reflexivity|]. split.
  - split; [by vm_compute|]. split; [by eexists _, _|]. by exists 0%nat.
  - split; [exact Ramfs.with_file_ok|]. split; [by vm_compute|done].
Qed.

(** Only files are open. *)
Definition no_free (d : Z) : M (Vfs.vst Ramfs.rst) Z := fault.
Definition no_read (h n : Z) : M (Vfs.vst Ramfs.rst) (Z * list Z) := fault.
Definition no_write (h : Z) (bs : list Z) : M (Vfs.vst Ramfs.rst) Z := fault.
Definition no_call (now : option Z) (h : handler) (r : sysregs) : M (sys Ramfs.rst) Z := fault.
Notation call1 := (syscall_c no_free no_free no_read no_read no_write no_write 100 no_call).

Definition regs (n x y z : Z) : sysregs := mk_regs n x y z 0 0 0 0x23 0x23 0x202 0x400000.

(** The address of byte [i] of the page. *)
Lemma uaddrs_page va n : 4096 <= va -> va + Z.of_nat n <= 8192 -> uaddrs 4096 mm1 va n = map (fun i => 20480 + va + Z.of_nat i) (seq 0 n).
Proof.
  intros H1 H2. apply map_ext_in. intros i [_ Hi]%in_seq. destruct (mm1_page (va + Z.of_nat i)) as [_ ->]; [lia|Z.to_euclidean_division_equations; lia|].
  clear -H1 H2 Hi. Z.to_euclidean_division_equations. lia.
Qed.


(** The file with two bytes in it. *)
Definition with_hi : Ramfs.rst := state_of (Ramfs.ramfs_write Ramfs.vfs0 2 0 [104; 105] Ramfs.with_file) Ramfs.with_file.
Definition sys_hi : sys Ramfs.rst := mk_sys k1 (VfsRamfs.sys with_hi).

Lemma with_hi_ok : Ramfs.ramfs_ok Ramfs.vfs0 with_hi.
Proof.
  destruct (Ramfs.ramfs_write_ok Ramfs.vfs0 Ramfs.with_file 2 [] 0 [104; 105] Ramfs.with_file_ok) as (s' & E & Hok & _); [by vm_compute|cbn; lia|cbn; lia|left; by vm_compute|].
  unfold with_hi. change 0 with (Z.of_nat 0). by rewrite E.
Qed.

Lemma sys_hi_on_file : on_file Ramfs.ramfs_ops Ramfs.vfs0 sys_hi 0 2 [104; 105] 0.
Proof.
  exists proc1, VfsRamfs.open_file. split; [reflexivity|]. split.
  - split; [by vm_compute|]. split; [by eexists _, _|]. by exists 0%nat.
  - split; [exact with_hi_ok|]. split; [by vm_compute|done].
Qed.

(** Two bytes arrive at the end of the page; a buffer in a page that is not there is
    refused. *)
Lemma sys_read_safe_witness :
  (exists s', sys_read no_read no_read (regs 2 0 0x1FF0 16) sys_hi = Done s' 2 /\ ubytes 4096 (Proc.mach (kern s')) 0x1FF0 2 = [104; 105]) /\
  sys_read no_read no_read (regs 2 0 0x2000 16) sys_hi = Done sys_hi (- EINVAL).
Proof.
  split.
  - destruct (sys_read_safe Ramfs.ramfs_ops Ramfs.vfs0 no_read no_read T1 4096 sys_hi (regs 2 0 0x1FF0 16) 0 2 [104; 105] 0)
      as (s' & ret & E & [(_ & _ & Hbad)|(-> & _ & _ & _ & _ & Hst)]).
    1: exact mm1_user.
    1: exact sys_hi_on_file.
    1: cbn; lia.
    1: cbn; lia.
    1: repeat constructor; lia.
    1: reflexivity.
    1: cbn; lia.
    1: cbn; lia.
    1: cbn; lia.
    1: by vm_compute.
    + exfalso. apply Hbad. split; [cbn; lia|]. apply mm1_ensured; cbn; lia.
    + exists s'. split; [exact E|]. apply Hst. change (NoDup (uaddrs 4096 mm1 0x1FF0 2)). rewrite uaddrs_page by (cbn; lia).
      apply (bool_decide_unpack _). by vm_compute.
  - destruct (sys_read_safe Ramfs.ramfs_ops Ramfs.vfs0 no_read no_read T1 4096 sys_hi (regs 2 0 0x2000 16) 0 2 [104; 105] 0)
      as (s' & ret & E & [(-> & -> & _)|(_ & (_ & _ & He) & _)]).
    1: exact mm1_user.
    1: exact sys_hi_on_file.
    1: cbn; lia.
    1: cbn; lia.
    1: repeat constructor; lia.
    1: reflexivity.
    1: cbn; lia.
    1: cbn; lia.
    1: cbn; lia.
    1: by vm_compute.
    + exact E.
    + exfalso. specialize (He 0 ltac:(cbn; lia)). by vm_compute in He.
Defined.

(** *** Starting a program *)

(** The process with other contents of its page. *)
Definition mm1_with (bs : list Z) : mm := set_mem (pputs mem1 24576 bs) mm1.

Lemma mm1_with_same bs : Z.of_nat (length bs) <= 4096 -> same_tables mem1 (pputs mem1 24576 bs) T1.
Proof.
  intros Hl t p i Ht Hi. apply word_pputs. intros j Hj. replace ((24576 + Z.of_nat j) / 4096) with 6 by (Z.to_euclidean_division_equations; lia).
  apply T1_Some in Ht as [[-> _]|[[-> _]|[[-> _]|[-> _]]]]; Z.to_euclidean_division_equations; lia.
Qed.

Lemma mm1_owned bs : Z.of_nat (length bs) <= 4096 -> Newproc.frames_owned (mm1_with bs) 4096.
Proof.
  intros Hl va Hv. unfold mm1_with. rewrite (may_same mm1 _ T1 4096); [|exact mm1_inv|done|by apply mm1_with_same]. intros Hm%mm1_may; [|done].
  destruct (user_space_same T1 4096 mm1 _ mm1_user (mm1_with_same bs Hl)) as [_ ->]. destruct (mm1_page va Hv Hm) as [_ ->].
  replace ((24576 + va mod 4096) / 4096) with 6 by (Z.to_euclidean_division_equations; lia). reflexivity.
Qed.

(** At 0x1000 the array of "a", at 0x1010 an empty one, at 0x1018 "a", at 0x101A "/a". *)
Definition page_args : list Z := le 8 0x1018 ++ le 8 0 ++ le 8 0 ++ [97; 0; 47; 97; 0].
(** The caller is process 1; entry 2 is unused. *)
Definition parent : Proc.process_state_t :=
  Proc.on_own (Proc.set_pwd (Some [47])) (Proc.on_life (Proc.set_used true) proc1).
Definition k2 : Proc.kst :=
  Proc.mk_kst [Proc.on_life (Proc.set_used true) Proc.zero_proc; parent; Proc.zero_proc] (mm1_with page_args) None 0 false false [].

Lemma page_args_shown va n bs : 4096 <= va -> va + Z.of_nat n <= 8192 ->
  map (fun i => pbyte (pputs mem1 24576 page_args) (20480 + va + Z.of_nat i)) (seq 0 n) = bs ->
  ensured (mm1_with page_args) 4096 false va (Z.of_nat n) /\ ubytes 4096 (mm1_with page_args) va n = bs.
Proof.
  intros H1 H2 <-. pose proof (mm1_with_same page_args ltac:(cbn; lia)) as Hs. destruct (user_space_same T1 4096 mm1 _ mm1_user Hs) as [_ Ht]. split.
  - apply (ensured_same T1 4096 mm1); [exact mm1_user|done|]. apply mm1_ensured; lia.
  - unfold ubytes, mm1_with. rewrite (uaddrs_same 4096 mm1) by done. rewrite uaddrs_page, map_map by lia. done.
Qed.

Lemma page_args_call : Newproc.call_args 10 10 (mm1_with page_args) 4096 0x101A 0x1000 0x1010 [47; 97] [[97]] [].
Proof.
  split.
  - destruct (page_args_shown 0x101A 3 [47; 97; 0]) as [He Hb]; [lia|cbn; lia|by vm_compute|]. split_and!; [exact He|repeat constructor; lia|exact Hb].
  - exists [0x1018]. destruct (page_args_shown 0x1000 16 (le 8 0x1018 ++ le 8 0)) as [He Hb]; [lia|cbn; lia|by vm_compute|].
    destruct (page_args_shown 0x1018 2 [97; 0]) as [He' Hb']; [lia|cbn; lia|by vm_compute|].
    split; [split_and!; [exact He|repeat constructor; lia|exact Hb]|]. constructor; [|constructor]. split_and!; [exact He'|repeat constructor; lia|exact Hb'].
  - exists []. destruct (page_args_shown 0x1010 8 (le 8 0)) as [He Hb]; [lia|cbn; lia|by vm_compute|]. split; [|constructor].
    split_and!; [exact He|constructor|exact Hb].
  - repeat constructor; cbn; lia.
  - cbn. lia.
Qed.

(** A loader that finds the program. *)
Definition a_program (path argv envp : Z) : M Proc.kst Proc.loadprog_res_t :=
  mret (Proc.mk_loaded 0 (HHDM_START + 0xA000) 0x400000 (Region.USER_END - 64) 0x500000).
Definition a_stat (path : Z) : M Proc.kst (Z * Z) := mret (0, 0).

Lemma sys_newproc_hands_over_witness :
  exists k3 p, Newproc.sys_newproc 10 10 a_program a_stat (mret 0) 0x101A 0x1000 0x1010 k2 = Done k3 2 /\ cr3 (Proc.mach k3) = 4096 /\
    aget (Proc.proctbl k3) 2 = Some p /\ Proc.used (Proc.life p) = true /\ Proc.ppid (Proc.life p) = 1 /\ Proc.rip (Proc.ctx p) = 0x400000.
Proof.
  destruct (Newproc.sys_newproc_hands_over 10 10 a_program a_stat (mret 0) k2 T1 4096 0x101A 0x1000 0x1010 [47; 97] [[97]] [] 1)
    as [[_ Hno]|(k1' & r & f & [_ _ _ [(_ & _ & Hnf) _] _ [Hwf Hh] _ Ht Ha Hk] & Hrun)].
  - split; [|apply mm1_owned; cbn; lia|by vm_compute|lia|exact page_args_call|reflexivity|by vm_compute|by vm_compute].
    apply (user_space_same T1 4096 mm1 _ mm1_user). apply mm1_with_same. cbn. lia.
  - exfalso. apply (Hno 8); [lia|]. split_and!; [lia|by vm_compute|]. intros g Hg. by replace g with 8 by lia.
  - rewrite Hk in Hrun. destruct (Proc.mach k1') as [pm m sz hh lo pt cr nodes hd umapr cur]. cbn [hhdm_offset] in Hh.
    injection Ha as _ _ _ _ -> ->.
    edestruct Hrun as (k3 & E & [Hc Hp _ _]); [vm_compute; reflexivity|split; [exact Hh|split; [apply Hwf|exact (f_equal Pmm.nframes Hnf)]]|].
    eexists k3, _. split; [exact E|]. split; [exact Hc|]. rewrite Hp. split; [reflexivity|]. split_and!; reflexivity.
Defined.

(** ** What goes wrong *)

(** The call that should set the effective user returns it: nothing is set,
    whoever calls and whatever is asked for. *)
Lemma syscall_seteuid_reads {D} free_fb free_fbw io_read dev_read io_write dev_write fuel other now (s : sys D) r s' r' :
  num r = 51 -> syscall_c free_fb free_fbw io_read dev_read io_write dev_write fuel other now r s = Done s' r' ->
  Proc.proctbl (kern s') = Proc.proctbl (kern s).
Proof.
  intros Hn. unfold syscall_c. intros (s1 & t & E1 & E)%bind_inv. rewrite Hn in E. cbn [syscall_tbl] in E. apply bind_inv in E as (s2 & ret & E2 & E).
  apply bind_inv in E as (s3 & [] & E3 & [= <- _]). injection E1 as <- _. unfold onmm, onk, Proc.onmm in E3. destruct (vmm_sasp t _) as [m' []|]; [|done]. injection E3 as <-.
  cbn [run snd] in E2. unfold onk in E2. destruct (Proc.sys_geteuid (kern _)) as [k' e|] eqn:Eg; [|done]. injection E2 as <- _. cbn in Eg |- *.
  unfold Proc.sys_geteuid in Eg. apply bind_inv in Eg as (k2 & c & [= <- <-] & Eg). apply bind_inv in Eg as (k3 & p & Ep & [= <- _]).
  unfold Proc.proc in Ep. destruct (aget _ _); [|done]. by injection Ep as <- _.
Qed.

(** A buffer of two bytes whose second byte is on a page that is not mapped passes
    the check, and the kernel faults when it stores there. *)
Lemma read_straddling_faults :
  (_ ← call1 None (regs 3 0 0x1000 8); _ ← call1 None (regs 9 0 0 0); call1 None (regs 2 0 0x1FFF 2)) sys1 = Fault.
Proof. by vm_compute. Qed.

(** A process whose directory is "/abc" asks for it with a buffer of two bytes: the
    zero is stored behind the buffer. *)
Definition sys2 : sys Ramfs.rst :=
  mk_sys (Proc.set_tbl [Proc.zero_proc; Proc.on_own (Proc.set_pwd (Some [47; 97; 98; 99])) proc1] k1) (fs sys1).
Lemma getpwd_overruns :
  result_of ((_ ← call1 None (regs 59 0x1000 2 0); onmm (vread 0x1000 4)) sys2) = Some [47; 2; 0; 4].
Proof. by vm_compute. Qed.

(** The directory that a process sets is not the one its paths start from. *)
Lemma setpwd_ignored :
  match (onmm (vwrite 0x1000 [47; 97; 0]);; call1 None (regs 60 0x1000 0 0)) sys1 with
  | Done s' r => num r = 0 /\ Vfs.cwd (fs s') = [47] /\
      (Proc.pwd ∘ Proc.own) <$> aget (Proc.proctbl (kern s')) 1 = Some (Some [47; 97])
  | Fault => False
  end.
Proof. by vm_compute. Qed.

End SyscallRun.
